(* ===== verification/_CoqProject ===== *)
-Q . S2P
Prelude.v
Types.v
Router.v
Queuing.v
MpiTab.v
MpiThread.v
ThreadTab.v
Manager.v
ManagerInv.v
ManagerSafe.v
Lifecycle.v
Spawn.v
Ledger.v
ThreadOps.v
Requests.v
AppSteps.v
Node.v
ShmRef.v
SegOps.v
Establish.v
Collective.v
SyncOps.v
ShmAlloc.v
BreakMalloc.v
BsdMalloc.v
ShmOps.v
DefArena.v
Init.v
Job.v
JobJoins.v
Xthread.v
MlogBuf.v
Mlog.v
MlogSafe.v
MlogMasks.v
InitLog.v
BfsSplit.v
Bfs.v
BfsWork.v
TestFork.v
TestWrap.v
HelloArgs.v
Hello.v
TestMal.v
