(* ===== verification/Prelude.v ===== *)
(** * dthread: a verification library

    dthread runs threads on the ranks of an MPI job: an application creates,
    joins, detaches and cancels threads as with pthreads, the threads run on
    all ranks, and they share memory segments.  This library models the code
    of [src/libdthread] and [src/xthread/libxthread], the example programs of
    [src/xthread/testin], the test wrapper and the allocator tests of
    [src/testin], and proves what makes them correct.

    ** The program

    Each rank runs a manager thread, an MPI thread and application threads.
    An application call fills in the caller's request and queues it for the
    manager of its rank; managers exchange messages through the MPI thread; the
    manager of rank 0 owns the global thread table and decides about creation,
    joins, detaches and termination.  Shared memory segments are mapped at
    startup; a segment allocator hands out areas, arenas are such areas, and an
    arena is run by one of two malloc drivers or one the user provides.
    Synchronisation objects in shared memory are process-shared pthread objects.
    The xthread layer lets one program run on pthreads or on dthreads, and a log
    ("mlog") serves all parts.

    ** Files

    - [Prelude]: record update, machine integers, the state and fault monad
      [M] with its weakest preconditions [wp], arrays, tail queues, counting,
      tactics ([wp_step], [mstep], [breflect], [solve_perm]) and the hint
      databases [dthread].
    - [Types]: the structures of [dthread.h], [dt_internal.h], [dt_reqmsg.h],
      [dt_queuing.h] and [struct dt_mgrstate]; [dtst], the state of one rank's
      thread code; [env], the results of calls into libc and pthreads.
    - [Router]: [binary_router] and the broadcast tree.
    - [Queuing]: all of [dt_queuing.c]; each critical section under [dtqlock] is
      one step, and a step relation interleaves the threads of a rank.
    - [MpiTab]: the MPI thread's table of outstanding sends ([mpimts_*] of
      [dt_mpithread.c]); the MPI library is the parameter [mpi].
    - [MpiThread]: [mpit_main] and [mpit_stop] of [dt_mpithread.c] as a state
      machine between critical sections, composed with the steps of the queues
      and with the start and stop in [dthread_run] and [mgr_main].
    - [ThreadTab]: sequence numbers, the pending list, the thread tables
      ([get_free_seq] to [ltab_free] of [dt_mgrthread.c], [dthread_dt2gtab]).
    - [Manager]: the handlers, [process_mqe], [process_req], the thread
      wrappers and the main loop of [dt_mgrthread.c].
    - [ManagerInv], [ManagerSafe]: the invariant of a rank ([rank_ok]) with one
      lemma per operation, and its preservation by the main loop.
    - [Lifecycle]: an abstract specification of a thread's life (running,
      joined, detached, finished) that the handlers of JOIN, DETACH and
      TERMINATED implement.
    - [Spawn]: creation, start and end of a thread on rank 0 and on the rank it
      runs on.
    - [Ledger]: the accounts of a rank: each conversation (a call, the messages
      and pending requests that carry it) is booked once, and each handler
      settles the account of the message it takes.
    - [ThreadOps]: all of [dt_threadops.c] and [dthread_self]; a blocking call
      is the part before the wait and a continuation.
    - [Requests]: the same accounts for the requests of the application threads
      and for the calls that place them.
    - [AppSteps]: everything an application thread can do to its rank's state,
      as one type of actions.
    - [Node]: one rank: [mgr_main]'s loop ([mgr_main_step], executable), the
      application threads, the packets that arrive and leave.
    - [ShmRef]: the shared memory structures and state [sst], and the reference
      conversions of [dt_ops.c].
    - [SegOps]: the segment allocator and the segment queries of [dt_segops.c].
    - [Establish]: [establish] of [dt_segops.c] on one rank.
    - [Collective]: the collective [dthread_shmseg_establish] over all ranks.
    - [SyncOps]: [dt_syncops.c] and [dt_syncops_pshared.c]; pthreads are the
      parameter [pthreads], the class [Pthreads] states what POSIX promises.
    - [ShmAlloc]: memory accesses, the driver operations record, and the class
      [Driver] with what a malloc driver promises.
    - [BreakMalloc], [BsdMalloc]: the two drivers of [dt_shmops.c] and their
      [Driver] instances.
    - [ShmOps]: the rest of [dt_shmops.c], proved against [Driver], and
      [dthread_shm_realloc] for each of the two drivers.
    - [DefArena]: the two functions on the default arena again, access by
      access, for calls of all ranks that run at the same time.
    - [Init]: [dt_init.c]: [dthread_init], the bootstrap of all ranks in any
      order and [dthread_run] up to the manager loop.
    - [Job]: all ranks and the network between them, from the state [Init]
      leaves them in.
    - [JobJoins]: the same runs with the thread each join call named, and what
      the joiners of a job at rest wait for.
    - [Xthread]: [xthread.c] and [xthread.h].
    - [MlogBuf]: the log's circular message buffer, its readers and the search
      for it in a memory image ([mlog.c]).
    - [Mlog]: the rest of [mlog.c] and [mlog.h]: opening and closing, facilities
      and masks, the filter, formatting and delivery of a line, UDP consoles.
    - [MlogSafe]: the invariant of the log's state and the delivery theorem;
      [MlogMasks]: the masks printed and read back.
    - [InitLog]: the part of [dthread_run] that opens the log.
    - [BfsSplit], [Bfs], [BfsWork]: [crono_bfs_xthread.cc]: the split of the
      vertices computed in doubles, the options, the graph generated or read from
      a file, and the threads of the search as a state machine with mutexes and
      a barrier.
    - [TestFork], [TestWrap]: [dt-testwrap.c]: [fdforkprog] on an explicit table
      of descriptors, the comparison of a program's output with a script, and
      [main].
    - [HelloArgs], [Hello]: [hello_dthread.c], [hello_xthread.c] and
      [hello_pthread.c]: the options, and [application_main] with its threads as
      a state machine.
    - [TestMal]: [app_main] of [t-mal-break.c] and [t-mal-bsd.c], run on the
      allocators of [ShmOps] from several ranks.

    ** How the code is translated

    A C function becomes a definition of the same name in the monad [M]: it
    reads and updates an explicit state and either returns or ends in a [fault]
    (null or wild pointer, index out of bounds, signed overflow or undefined
    shift, overlapping [memcpy], unset variable, endless loop).  A theorem with [wp] or
    [= Ok ...] says that the code returns, without a fault.  Unsigned
    arithmetic that can wrap is written with [u32] and [u64].  A pointer
    argument that may be null is an [option]; a structure filled in through a
    pointer is part of the result.  [TAILQ]s are lists; queue entries and
    internal requests carry the number of their [malloc], so that a leak or a
    double use is visible.  Local pointers into shared memory are addresses
    that are looked up in the rank's mappings at every access.  The log
    messages of the other components are left out, since they do not touch their
    state, except the one in [bsd_realloc] whose arguments read through a pointer
    that may be null ([log_new_offset]).  Calls into libc, pthreads, MPI and the operating system are
    parameters; what they are documented to do is a class or a record of
    hypotheses ([Pthreads], [mpi_ok], [os_pages], [os_ok]), each with an
    executable instance that the witnesses use.

    ** What is proved

    - Job: in every interleaving of the ranks, their threads and the network,
      every conversation is carried by exactly one message, request or thread,
      no manager faults, and every reply finds the request it answers; if no
      thread fails to start, then when nothing moves any more only joins are
      pending, each recorded for the thread the call named, which is in the
      table, not detached and not finished.
    - Manager: every message and every request is handled without a fault, and
      keeps exact counters, unique pending keys and the ownership of all
      entries; JOIN, TERMINATED and the DETACH of a thread that has not finished
      refine the abstract life cycle, in either order of join and end; creation and termination reach the right
      rank with the right counters; the loop ends only when all sends are done.
    - Queues: no lost wake-up, exact draindown, first-in first-out, in every
      interleaving.
    - Tables: sequence numbers and slots are fresh, the searches end, stale
      handles are rejected.  The search loops take fuel; [get_free_seq_fresh]
      shows that the pending requests cannot use it up.
    - Calls of the application fail without effect or hand the manager exactly
      one request that it accepts.
    - Shared memory: references survive the round trip and travel between
      ranks; the segment allocator, both malloc drivers and the public calls
      return aligned, disjoint areas inside the arena and keep the data of other
      blocks; a realloc with either driver keeps the data; double frees are
      rejected; the default arena is set at most once, rank 0 and every rank that
      asks after it has been set find exactly it; [establish] leaks nothing on any error path, and the collective
      establishment is all or nothing over all ranks.
    - MPI thread: in every interleaving it implements what the queues expect of
      it, no send is lost or released early, the draindown is exact, and it
      stops within six steps; the in-place compaction of its table equals the
      removal of the completed entries from a list.
    - Startup: [dthread_run] brings every rank to the manager loop in a state
      that satisfies the manager's invariant, for every order of the ranks'
      allocations.
    - Synchronisation objects are process-shared as long as no attribute object
      refuses the setting; if one does, the error is ignored.
    - xthread: argument handling, the pointer encoding between ranks, the exact
      size of a mapping, the tables handed to [dthread_run].
    - Log: any sequence of calls keeps the state well-formed and leaks nothing;
      a message is delivered everywhere as one line; the in-line filter equals
      that of [vmlog]; the message buffer holds the last bytes logged and is
      found again in a memory image of either byte order; masks survive printing
      and reading.
    - Search: every run ends, without a fault or a deadlock, in every order of
      the threads, and colours exactly the vertices a search by levels reaches;
      a generated graph of degree at least 2 and less than the number of
      vertices is coloured completely, a file is read edge by edge.
    - Hello: every run of an accepted command line whose array has less than
      [2^64] bytes ends with [SUCCESS] on each of the three thread libraries, for
      every order of the threads, when the calls into them succeed.
    - Test wrapper: [fdforkprog] leaks no descriptor on any path and gives child
      and parent exactly their ends; a test passes exactly when the script's
      texts occur in the output in order and the program ends well.
    - Allocator tests: the test of the break allocator passes on every job with
      room in its first segment, that of the bsd allocator on a concrete one.
    - Faults of the code: a request without a message, runt messages, a null
      join buffer, the overflows of the three allocators, an MPI message longer
      than its buffer, a failed start of the MPI thread, a full segment at
      startup, ignored pthread errors, the entry of a finished thread that is
      detached, a null pointer in a log call, a torn default arena, a segment 0 too small for many ranks, a
      truncated memory image, a search with degree equal to the number of
      vertices, an array of 2^62 elements, a long line in a test script, a
      closed standard descriptor, pages above 8192 bytes in a test.

    ** Bounds

    The job of [Job] runs until its shutdown begins; its allocations succeed,
    a handler is one step, and the network delivers packets in any order.  The
    thread tables hold less than half as many threads as a rank has sequence
    numbers, and the application threads may do anything the calls of
    [ThreadOps] and the thread wrappers allow.
    [config_ok] and the invariants bound the job to [2^30] ranks and the thread
    tables to what [int] indices allow.  [grow_to] and [bucket_from] have fuel
    8 and 27 (the code leaves them after one step and at bucket 26),
    [bucket_loop] has 64 (a [size_t] can be doubled at most 64 times); the walk
    of [bsd_mstats] takes its bound as an argument, and [bsd_finalize_overflows]
    shows that the number of free blocks is enough.  "break" arenas are at most
    [2^34] bytes, because the count of blocks is an [int]; "bsd" requests at
    most [2^30], because bucket sizes are.  At most [2^30] sends are outstanding (the
    table's size is an [int]); a segment is mapped at most ten times, as in the
    code.  [scan_args] has the number of arguments as fuel, [find_from] one pass
    per byte of the image, [setmasks_loop] and [getucon_loop] one per character,
    [digits] the ten digits of an [int].  The search takes graphs of less than
    [2^31 - 1] vertices whose edge array has less than [2^31] entries, as its
    [int] indices need; [max_steps] and [hello_steps] bound the steps of a run.
    [read_loop], [scan_output], [run_script], [drain] and [getopts] take one unit
    of fuel per character they may read.

    ** Not modelled

    The test programs of [src/testin] other than the allocator tests: they call
    the library in a straight line and print what they see.  The headers that
    hold prototypes only, and the code that only prints (usage messages, host
    names, statistics at exit, timing).  The atomicity of the critical sections
    is taken from the locks the code holds, and memory is sequentially
    consistent, also where [DefArena] and [BfsWork] go access by access.  The shutdown broadcast is modelled
    and proved for one rank, not for the composed job.  In [Hello] the results
    of the library calls before the loops are parameters; [BfsWork] starts with
    all threads created and all references resolved. *)

From Stdlib Require Export ZArith Lia.
From stdpp Require Export base gmap strings option list.

#[export] Set Default Proof Using "Type".

(** ** Record update

    [r <| f := v |>] is [r] with field [f] replaced by [v]; it needs an
    [Eta] instance for the record type, which lists the constructor applied to
    all the projections. *)
Class Eta (R : Type) := eta : R → R.

Class Upd {R T : Type} (p : R → T) := upd : (T → T) → R → R.

Arguments upd {R T} p {_} f r /.
Arguments eta {R} {_} r /.

Ltac solve_upd :=
  lazymatch goal with
  | |- @Upd ?R ?T ?p =>
      refine (fun (upd_f : T → T) (upd_r : R) =>
        ltac:(let e := eval cbv [eta] in (eta upd_r) in
              let e := eval hnf in e in
              lazymatch eval pattern (p upd_r) in e with
              | ?F _ => let t := eval cbv beta in (F (upd_f (p upd_r))) in exact t
              end))
  end.

#[export] Hint Extern 0 (Upd _) => solve_upd : typeclass_instances.

Declare Scope dt_scope.
Delimit Scope dt_scope with dt.

Notation "r <| p := v |>" := (upd p (λ _, v) r)
  (at level 1, left associativity, p at level 1, v at level 200) : dt_scope.
Notation "r <| p ::= f |>" := (upd p f r)
  (at level 1, left associativity, p at level 1, f at level 200) : dt_scope.

Open Scope dt_scope.
Open Scope Z_scope.

(** ** Machine integers

    Unsigned C integers are kept as [Z] and reduced at the points where the
    source stores or combines them. *)
Definition u32 (z : Z) : Z := z mod 2 ^ 32.
Definition u64 (z : Z) : Z := z mod 2 ^ 64.

Definition is_u32 (z : Z) : Prop := 0 ≤ z < 2 ^ 32.
Definition is_u64 (z : Z) : Prop := 0 ≤ z < 2 ^ 64.

Lemma u32_range z : is_u32 (u32 z).
Proof. apply Z.mod_pos_bound; lia. Qed.

Lemma u64_range z : is_u64 (u64 z).
Proof. apply Z.mod_pos_bound; lia. Qed.

Lemma u32_small z : 0 ≤ z < 2 ^ 32 → u32 z = z.
Proof. intros. by apply Z.mod_small. Qed.

Lemma u64_small z : 0 ≤ z < 2 ^ 64 → u64 z = z.
Proof. intros. by apply Z.mod_small. Qed.

(** A C [int] value; signed arithmetic outside this range is undefined. *)
Definition int_ok (z : Z) : bool := (- 2 ^ 31 <=? z) && (z <? 2 ^ 31).

(** ** Outcomes

    A C function either returns or commits one of these faults, which the
    model keeps apart from error codes: the source never returns them. *)
Inductive fault :=
  | NullDeref      (* dereference of a null pointer *)
  | OutOfBounds    (* array or mapping access outside its bounds *)
  | BadPointer     (* dereference of a pointer to no live object *)
  | SignedOverflow (* undefined shift or overflow on a signed integer *)
  | OverlapCopy    (* memcpy between overlapping areas *)
  | Uninitialised  (* use of a variable that was never set *)
  | Diverges.      (* a loop that never exits *)

Inductive outcome (A : Type) :=
  | Ok (a : A)
  | Crash (f : fault).
Arguments Ok {A} a.
Arguments Crash {A} f.

(** The state and fault monad the stateful code is written in. *)
Definition M (S A : Type) : Type := S → outcome (A * S).

Section Monad.
Context {S : Type}.

Definition retM {A} (a : A) : M S A := λ s, Ok (a, s).

Definition bindM {A B} (m : M S A) (k : A → M S B) : M S B := λ s,
  match m s with
  | Ok (a, s') => k a s'
  | Crash f => Crash f
  end.

Definition crash {A} (f : fault) : M S A := λ _, Crash f.

Definition gets {A} (f : S → A) : M S A := λ s, Ok (f s, s).

Definition modify (f : S → S) : M S unit := λ s, Ok (tt, f s).

(** A pointer that must not be null, or an index that must be in range. *)
Definition get_some {A} (f : fault) (o : option A) : M S A := λ s,
  match o with Some a => Ok (a, s) | None => Crash f end.

(** The result of arithmetic on [int]s. *)
Definition intM (z : Z) : M S Z := if int_ok z then retM z else crash SignedOverflow.

Definition whenM (b : bool) (m : M S unit) : M S unit :=
  if b then m else retM tt.

Fixpoint forM {A} (l : list A) (f : A → M S unit) : M S unit :=
  match l with
  | [] => retM tt
  | a :: l => bindM (f a) (λ _, forM l f)
  end.

End Monad.

Notation "x <- m ;; k" := (bindM m (λ x, k))
  (at level 100, m at next level, right associativity) : dt_scope.
Notation "m ;;; k" := (bindM m (λ _, k))
  (at level 100, right associativity) : dt_scope.

(** ** Weakest preconditions

    [wp m Q s]: run from [s], [m] commits no fault and ends in a result and
    state that satisfy [Q]. *)
Definition wp {S A} (m : M S A) (Q : A → S → Prop) (s : S) : Prop :=
  match m s with Ok (a, s') => Q a s' | Crash _ => False end.

Section Wp.
Context {S : Type}.

(** The run itself may be used in the postcondition. *)
Lemma wp_runs {A} (m : M S A) (Q : A → S → Prop) s :
  wp m Q s → wp m (λ a s', Q a s' ∧ m s = Ok (a, s')) s.
Proof using Type. unfold wp. by destruct (m s) as [[a s']|]. Qed.

Lemma wp_ret {A} (a : A) (Q : A → S → Prop) s : Q a s → wp (retM a) Q s.
Proof. done. Qed.

Lemma wp_bind {A B} (m : M S A) (k : A → M S B) Q s :
  wp m (λ a, wp (k a) Q) s → wp (bindM m k) Q s.
Proof. unfold wp, bindM. by destruct (m s) as [[a s']|]. Qed.

Lemma wp_gets {A} (f : S → A) (Q : A → S → Prop) s : Q (f s) s → wp (gets f) Q s.
Proof. done. Qed.

Lemma wp_modify (f : S → S) (Q : unit → S → Prop) s :
  Q tt (f s) → wp (modify f) Q s.
Proof. done. Qed.

Lemma wp_get_some {A} f (o : option A) a (Q : A → S → Prop) s :
  o = Some a → Q a s → wp (get_some f o) Q s.
Proof. by intros ->. Qed.

Lemma wp_when (b : bool) (m : M S unit) Q s :
  (b = true → wp m Q s) → (b = false → Q tt s) → wp (whenM b m) Q s.
Proof. destruct b; intros H1 H2; [by apply H1|by apply H2]. Qed.

Lemma wp_mono {A} (m : M S A) (Q Q' : A → S → Prop) s :
  wp m Q s → (∀ a s', Q a s' → Q' a s') → wp m Q' s.
Proof. unfold wp. destruct (m s) as [[a s']|]; auto. Qed.

Lemma wp_and {A} (m : M S A) (Q Q' : A → S → Prop) s :
  wp m Q s → wp m Q' s → wp m (λ a s', Q a s' ∧ Q' a s') s.
Proof. unfold wp. destruct (m s) as [[a s']|]; auto. Qed.

Lemma wp_ok {A} (m : M S A) (Q : A → S → Prop) s :
  wp m Q s ↔ ∃ a s', m s = Ok (a, s') ∧ Q a s'.
Proof.
  unfold wp. destruct (m s) as [[a s']|]; split; eauto.
  - by intros (?&?&[= -> ->]&?).
  - done.
  - by intros (?&?&?&?).
Qed.

(** A loop body that keeps an invariant keeps it over the whole list. *)
Lemma wp_forM {A} (l : list A) (f : A → M S unit) (I : S → Prop) s :
  (∀ a s, a ∈ l → I s → wp (f a) (λ _, I) s) →
  I s → wp (forM l f) (λ _, I) s.
Proof.
  revert s. induction l as [|a l IH]; intros s Hf HI; simpl; [by apply wp_ret|].
  apply wp_bind. eapply wp_mono; [apply Hf; [left|done]|].
  intros [] s' HI'. apply IH; [|done]. intros b t Hb. apply Hf. by right.
Qed.

(** A counting loop with an invariant that depends on the counter. *)
Lemma wp_forM_seqZ (I : Z → S → Prop) (f : Z → M S unit) lo n s :
  0 ≤ n →
  (∀ i s, lo ≤ i < lo + n → I i s → wp (f i) (λ _, I (i + 1)) s) →
  I lo s → wp (forM (seqZ lo n) f) (λ _, I (lo + n)) s.
Proof.
  intros Hn. revert lo s. pattern n. apply natlike_ind; [| |done]; clear n Hn.
  - intros lo s _ HI. rewrite Z.add_0_r. by apply wp_ret.
  - intros n Hn IH lo s Hf HI. rewrite seqZ_cons by lia. simpl. apply wp_bind.
    eapply wp_mono; [apply Hf; [lia|done]|]. intros [] s' HI'.
    rewrite Z.pred_succ. replace (lo + Z.succ n) with (Z.succ lo + n) by lia.
    apply IH; [|done]. intros i t Hi. apply Hf. lia.
Qed.

Lemma wp_int z (Q : Z → S → Prop) s : - 2 ^ 31 ≤ z < 2 ^ 31 → Q z s → wp (intM z) Q s.
Proof.
  intros Hz HQ. unfold intM, int_ok. destruct (Z.leb_spec (- 2 ^ 31) z); [|lia].
  destruct (Z.ltb_spec z (2 ^ 31)); [done|lia].
Qed.

(** Execution of the first step of a sequence. *)
Lemma bind_ok {A B} (m : M S A) (k : A → M S B) s a s' :
  m s = Ok (a, s') → bindM m k s = k a s'.
Proof. unfold bindM. by intros ->. Qed.

Lemma bind_inv {A B} (m : M S A) (k : A → M S B) s r :
  bindM m k s = Ok r → ∃ a s', m s = Ok (a, s') ∧ k a s' = Ok r.
Proof. unfold bindM. destruct (m s) as [[a s']|]; [by eauto|done]. Qed.

Lemma bind_gets {A B} (f : S → A) (k : A → M S B) s : bindM (gets f) k s = k (f s) s.
Proof. done. Qed.

Lemma bind_modify {B} (f : S → S) (k : unit → M S B) s :
  bindM (modify f) k s = k tt (f s).
Proof. done. Qed.

Lemma wp_eq {A} (m : M S A) (Q : A → S → Prop) s a s' :
  m s = Ok (a, s') → Q a s' → wp m Q s.
Proof. unfold wp. by intros ->. Qed.

End Wp.

(** Setoid rewriting under [wp] with pointwise implication. *)
#[export] Instance wp_proper {S A} (m : M S A) :
  Proper (pointwise_relation A (pointwise_relation S impl) ==>
          pointwise_relation S impl) (wp m).
Proof.
  intros Q Q' HQ s. unfold impl. intros H. eapply wp_mono; [exact H|].
  intros a s'. apply HQ.
Qed.

(** One step of symbolic execution of a monadic program. *)
Ltac wp_step :=
  lazymatch goal with
  | |- wp (retM _) _ _ => apply wp_ret
  | |- wp (bindM _ _) _ _ => apply wp_bind
  | |- wp (gets _) _ _ => apply wp_gets
  | |- wp (modify _) _ _ => apply wp_modify
  | |- wp (whenM _ _) _ _ => apply wp_when; intros
  | |- wp (if ?b then _ else _) _ _ => destruct b eqn:?
  | |- wp (match ?x with Some _ => _ | None => _ end) _ _ => destruct x eqn:?
  | |- wp (let _ := _ in _) _ _ => cbv zeta
  end.
(** Rewrites the first step of [bindM m k s] with the equation [tac] proves. *)
Tactic Notation "mstep" "by" tactic3(tac) :=
  erewrite bind_ok by tac; cbv beta iota.
Ltac mgets := rewrite bind_gets; cbv beta iota; cbv [id].
Ltac wp_steps := repeat (wp_step; cbv beta).

(** ** Arrays indexed by C integers *)
Definition aget {A} (l : list A) (i : Z) : option A :=
  if 0 <=? i then l !! Z.to_nat i else None.

Definition aset {A} (l : list A) (i : Z) (x : A) : list A :=
  <[Z.to_nat i := x]> l.

Section Arrays.
Context {A : Type}.
Implicit Types (l : list A) (i j : Z).

Lemma aget_Some_range l i x : aget l i = Some x → 0 ≤ i < Z.of_nat (length l).
Proof.
  unfold aget. destruct (Z.leb_spec 0 i) as [Hi|]; [|done].
  intros H%lookup_lt_Some. lia.
Qed.

Lemma aget_is_Some l i : 0 ≤ i < Z.of_nat (length l) → ∃ x, aget l i = Some x.
Proof.
  intros. unfold aget. destruct (Z.leb_spec 0 i) as [Hi|]; [|lia].
  apply lookup_lt_is_Some_2. lia.
Qed.

Lemma length_aset l i x : length (aset l i x) = length l.
Proof. apply length_insert. Qed.

Lemma aget_aset_eq l i x : 0 ≤ i < Z.of_nat (length l) → aget (aset l i x) i = Some x.
Proof.
  intros. unfold aget, aset. destruct (Z.leb_spec 0 i); [|lia].
  apply list_lookup_insert_eq. lia.
Qed.

Lemma aget_aset_ne l i j x : 0 ≤ i → i ≠ j → aget (aset l i x) j = aget l j.
Proof.
  intros. unfold aget, aset. destruct (Z.leb_spec 0 j); [|done].
  apply list_lookup_insert_ne. lia.
Qed.

Lemma aset_aset l i x y : aset (aset l i x) i y = aset l i y.
Proof. apply list_insert_insert_eq. Qed.

Lemma aget_nat l (n : nat) : aget l (Z.of_nat n) = l !! n.
Proof. unfold aget. destruct (Z.leb_spec 0 (Z.of_nat n)); [|lia]. by rewrite Nat2Z.id. Qed.
End Arrays.

(** ** Strings

    A C string is the list of its bytes, without the final 0. *)
Definition string_bytes (s : string) : list Z :=
  (λ c, Z.of_nat (Ascii.nat_of_ascii c)) <$> String.list_ascii_of_string s.

(** The position of the last [ch]. *)
Fixpoint strrchr (s : list Z) (ch : Z) : option nat :=
  match s with
  | [] => None
  | b :: s =>
      match strrchr s ch with
      | Some i => Some (S i)
      | None => if b =? ch then Some 0%nat else None
      end
  end.

Lemma strrchr_last s ch i :
  strrchr s ch = Some i → s !! i = Some ch ∧ ch ∉ drop (S i) s.
Proof.
  revert i. induction s as [|b s IH]; intros i H; simpl in *; [done|].
  destruct (strrchr s ch) as [j|] eqn:E.
  - injection H as <-. by apply IH.
  - destruct (Z.eqb_spec b ch); [|done]. injection H as <-. subst. split; [done|].
    clear IH. simpl. rewrite drop_0. revert E. induction s as [|c s IH]; intros E; simpl in *.
    + apply not_elem_of_nil.
    + destruct (strrchr s ch); [done|]. destruct (Z.eqb_spec c ch); [done|].
      apply not_elem_of_cons. split; [done|]. by apply IH.
Qed.

Lemma strrchr_None s ch : ch ∉ s → strrchr s ch = None.
Proof.
  induction s as [|b s IH]; intros H; [done|]. apply not_elem_of_cons in H as [Hb H]. simpl.
  rewrite IH by done. by destruct (Z.eqb_spec b ch).
Qed.

Lemma strrchr_app s r ch : ch ∉ r → strrchr (s ++ ch :: r) ch = Some (length s).
Proof.
  intros H. induction s as [|b s IH]; simpl; [|by rewrite IH].
  by rewrite strrchr_None, Z.eqb_refl.
Qed.

(** The string at the start of [s]. *)
Fixpoint strz (s : list Z) : list Z :=
  match s with [] => [] | c :: s => if c =? 0 then [] else c :: strz s end.

(** ** Tail queues

    A [TAILQ] is the list of its elements; [TAILQ_REMOVE] unlinks one. *)
Fixpoint tailq_remove {A} `{EqDecision A} (x : A) (l : list A) : list A :=
  match l with
  | [] => []
  | y :: l => if decide (x = y) then l else y :: tailq_remove x l
  end.

Section Tailq.
Context {A : Type} `{EqDecision A}.

Lemma tailq_remove_Permutation (x : A) l : x ∈ l → l ≡ₚ x :: tailq_remove x l.
Proof.
  induction l as [|y l IH]; intros Hx; [by apply not_elem_of_nil in Hx|].
  simpl. case_decide as Hxy; [by subst|].
  apply elem_of_cons in Hx as [?|Hx]; [done|].
  transitivity (y :: x :: tailq_remove x l); [by constructor; apply IH|apply perm_swap].
Qed.

Lemma tailq_remove_elem (x y : A) l : y ∈ tailq_remove x l → y ∈ l.
Proof.
  induction l as [|z l IH]; simpl; [done|].
  case_decide; [by right|]. intros [->|?]%elem_of_cons; [left|right; auto].
Qed.

Lemma tailq_remove_not_elem (x : A) l : NoDup l → x ∉ tailq_remove x l.
Proof.
  induction 1 as [|y l Hy Hl IH]; simpl; [apply not_elem_of_nil|].
  case_decide as Hxy; [by subst|]. by intros [?|?]%elem_of_cons.
Qed.

Lemma tailq_remove_elem_ne (x y : A) l : x ≠ y → y ∈ l → y ∈ tailq_remove x l.
Proof.
  intros Hxy. induction l as [|z l IH]; simpl; [done|].
  intros [->|Hy]%elem_of_cons; case_decide; try done; [left|right; auto].
Qed.
End Tailq.

Lemma NoDup_perm {A} (l k : list A) : l ≡ₚ k → NoDup l → NoDup k.
Proof. by intros ->. Qed.

(** Permutations of lists built from conses and appends, by counting. *)
Ltac solve_perm :=
  apply (Permutation_count_occ (λ x y, decide (x = y))); intros ?;
  rewrite ?fmap_app; csimpl;
  repeat (rewrite ?count_occ_app; csimpl);
  repeat case_decide; lia.

(** Membership in lists built from conses and appends. *)
Ltac solve_in :=
  simpl in *; rewrite ?elem_of_app, ?elem_of_cons, ?elem_of_app in *; tauto.

(** ** Counting *)
Fixpoint count_if {A} (f : A → bool) (l : list A) : Z :=
  match l with
  | [] => 0
  | a :: l => (if f a then 1 else 0) + count_if f l
  end.

Section Count.
Context {A : Type} (f : A → bool).

Lemma count_if_bounds l : 0 ≤ count_if f l ≤ Z.of_nat (length l).
Proof. induction l; simpl; [lia|]. destruct (f a); lia. Qed.

Lemma count_if_insert l (i : nat) x y :
  l !! i = Some x →
  count_if f (<[i := y]> l) =
    count_if f l - (if f x then 1 else 0) + (if f y then 1 else 0).
Proof.
  revert i. induction l as [|a l IH]; intros [|i] H; simplify_eq/=; [lia|].
  rewrite (IH i H). lia.
Qed.

Lemma count_if_lt l : count_if f l < Z.of_nat (length l) → ∃ i x, l !! i = Some x ∧ f x = false.
Proof.
  induction l as [|a l IH]; simpl; [lia|]. intros H.
  destruct (f a) eqn:Ha; [|by exists 0%nat, a].
  destruct IH as (i&x&?&?); [lia|]. by exists (S i), x.
Qed.

Lemma count_if_aset l i x y :
  aget l i = Some x →
  count_if f (aset l i y) =
    count_if f l - (if f x then 1 else 0) + (if f y then 1 else 0).
Proof.
  unfold aget, aset. destruct (0 <=? i); [|done]. apply count_if_insert.
Qed.
End Count.

(** ** Automation *)
Create HintDb dthread.
Create Rewrite HintDb dthread.
#[export] Hint Resolve u32_range u64_range : dthread.
#[export] Hint Rewrite @length_aset : dthread.

(** Turns the boolean tests of the code into propositions. *)
Ltac breflect :=
  repeat match goal with
  | H : (_ && _) = true |- _ => apply andb_true_iff in H as [? ?]
  | H : (_ || _) = false |- _ => apply orb_false_iff in H as [? ?]
  | H : (_ && _) = false |- _ => apply andb_false_iff in H as [H|H]
  | H : (_ || _) = true |- _ => apply orb_true_iff in H as [H|H]
  | H : negb _ = true |- _ => apply negb_true_iff in H
  | H : negb _ = false |- _ => apply negb_false_iff in H
  | H : (_ =? _) = true |- _ => apply Z.eqb_eq in H
  | H : (_ =? _) = false |- _ => apply Z.eqb_neq in H
  | H : (_ <? _) = true |- _ => apply Z.ltb_lt in H
  | H : (_ <? _) = false |- _ => apply Z.ltb_ge in H
  | H : (_ <=? _) = true |- _ => apply Z.leb_le in H
  | H : (_ <=? _) = false |- _ => apply Z.leb_gt in H
  end.
