(* ===== verification/Types.v ===== *)
(** * Data of the dthread library

    The structures and constants of [include/dthread/dthread.h],
    [libdthread/dt_internal.h], [libdthread/dt_reqmsg.h],
    [libdthread/dt_queuing.h] and [struct dt_mgrstate]
    ([libdthread/dt_mgrthread.c]), and the state one rank's manager code runs
    on.  Integers are [Z]; sizes are those of an LP64 system with glibc
    (56-byte [pthread_attr_t]). *)

From S2P Require Import Prelude.

(** ** Constants *)

(** Error numbers (Linux values). *)
Definition ESRCH : Z := 3.
Definition EIO : Z := 5.
Definition EAGAIN : Z := 11.
Definition ENOMEM : Z := 12.
Definition EINVAL : Z := 22.

(** [dt_reqmsg.h]: request states. *)
Definition DTREQ_IDLE : Z := 0.
Definition DTREQ_BUSY : Z := 1.
Definition DTREQ_DONE : Z := 2.
Definition DTREQ_INTERNAL : Z := 3.

(** [dt_reqmsg.h]: operations. *)
Definition DTOP_NONE : Z := 0.
Definition DTOP_CREATE : Z := 1.
Definition DTOP_CREATED : Z := 2.
Definition DTOP_START : Z := 3.
Definition DTOP_STARTED : Z := 4.
Definition DTOP_DETACH : Z := 5.
Definition DTOP_DETACHED : Z := 6.
Definition DTOP_CANCEL : Z := 7.
Definition DTOP_CANCELED : Z := 8.
Definition DTOP_JOIN : Z := 9.
Definition DTOP_JOINED : Z := 10.
Definition DTOP_JOINWAIT : Z := 11.
Definition DTOP_RETCLEAN : Z := 12.
Definition DTOP_TERMINATED : Z := 13.
Definition DTOP_APP0_RET : Z := 14.
Definition DTOP_BCASTSHUTDOWN : Z := 15.

(** [dt_internal.h]: thread states. *)
Definition LT_NONE : Z := 0.
Definition LT_STARTING : Z := 1.
Definition LT_RUNNING : Z := 2.
Definition LT_RETURNED : Z := 3.
Definition LT_EXITED : Z := 4.
Definition LT_CANCELED : Z := 5.
Definition LT_CLEANUP : Z := 6.

Definition LT_NEED_FINALSTATE (x : Z) : bool := x <=? LT_RUNNING.

(** [dt_queuing.h]: draindown states. *)
Definition DTQ_DD_INIT : Z := 0.
Definition DTQ_DD_DRAINING : Z := 1.
Definition DTQ_DD_DRAINED : Z := 2.

(** [dthread.h]: argument types and proc operations. *)
Definition DTHREAD_NODATA : Z := 1.
Definition DTHREAD_INLINE : Z := 2.
Definition DTHREAD_SHMREF : Z := 3.
Definition DTHREAD_CANCELED : Z := 4.

Definition DTHREAD_PROC_ENCODE : Z := 1.
Definition DTHREAD_PROC_DECODE : Z := 2.
Definition DTHREAD_PROC_FREE : Z := 3.

Definition PTHREAD_CREATE_JOINABLE : Z := 0.
Definition PTHREAD_CREATE_DETACHED : Z := 1.

(** ** Public structures *)

Record dthread_t := Dthread { dt_index : Z; dt_seq : Z }.

Record dthread_shmref_t := Shmref {
  dt_shmid : Z; dt_offset : Z; dt_length : Z }.

(** The union inside [dthread_argret_t]: inline bytes or a reference. *)
Inductive argret_u :=
  | UInline (bytes : list Z)
  | UShm (ref : dthread_shmref_t).

Record dthread_argret_t := Argret {
  dt_argret_type : Z;
  dt_inlinelen : Z;
  dt_u : argret_u }.

(** [pthread_attr_t], as far as the library reads or writes it. *)
Record pthread_attr_t := Attr {
  a_detachstate : Z;
  a_stackaddr : Z;
  a_stacksize : Z;
  a_inheritsched : Z;
  a_schedpolicy : Z;
  a_schedparam : Z }.

(** A dispatch entry; function pointers are addresses, 0 is [NULL]. *)
Record dthread_dispatch_t := Dispatch {
  dt_start : Z;
  dt_argproc : Z;
  dt_retproc : Z }.

(** ** Thread tables *)

Record dthread_gtab_t := Gtab {
  gt_allocated : Z;
  gt_rank : Z;
  gt_seq : Z;
  gt_disp_idx : Z;
  gt_arg : dthread_argret_t;
  gt_ret : dthread_argret_t;
  gt_detached : Z;
  gt_terminated : Z;
  gt_has_ltab : Z;
  gt_ltab_idx : Z }.

(** ** Messages

    A [dtmsg_*] structure is its header's [xidseq] and a body; the body's
    constructor is the header's [op].  [BOther] is a header whose [op] names
    none of the message types. *)
Inductive dtbody :=
  | BCreate (attrs : pthread_attr_t) (disp_idx : Z) (arg : dthread_argret_t)
  | BCreated (errstatus : Z) (newthread : dthread_t)
  | BStart (thread : dthread_t) (attrs : pthread_attr_t)
  | BStarted (errstatus : Z)
  | BDetach (thread : dthread_t)
  | BDetached (errstatus : Z)
  | BCancel (thread : dthread_t)
  | BCanceled (errstatus : Z)
  | BJoin (thread : dthread_t)
  | BJoined (errstatus : Z) (joinret : dthread_argret_t)
  | BTerminated (thread : dthread_t) (finalstate : Z)
  | BBcastshutdown
  | BOther (op : Z).

Record dtframe := Frame { hdr_xidseq : Z; fr_body : dtbody }.

Definition hdr_op (f : dtframe) : Z :=
  match fr_body f with
  | BCreate _ _ _ => DTOP_CREATE
  | BCreated _ _ => DTOP_CREATED
  | BStart _ _ => DTOP_START
  | BStarted _ => DTOP_STARTED
  | BDetach _ => DTOP_DETACH
  | BDetached _ => DTOP_DETACHED
  | BCancel _ => DTOP_CANCEL
  | BCanceled _ => DTOP_CANCELED
  | BJoin _ => DTOP_JOIN
  | BJoined _ _ => DTOP_JOINED
  | BTerminated _ _ => DTOP_TERMINATED
  | BBcastshutdown => DTOP_BCASTSHUTDOWN
  | BOther op => op
  end.

(** [sizeof] of the structure that a body belongs to. *)
Definition sizeof_header : Z := 8.
Definition sizeof_msg (b : dtbody) : Z :=
  match b with
  | BCreate _ _ _ => 144
  | BCreated _ _ => 20
  | BStart _ _ => 72
  | BStarted _ => 12
  | BDetach _ => 16
  | BDetached _ => 12
  | BCancel _ => 16
  | BCanceled _ => 12
  | BJoin _ => 16
  | BJoined _ _ => 88
  | BTerminated _ _ => 20
  | BBcastshutdown => 8
  | BOther _ => 8
  end.

(** An mpi queue entry.  [mid] is its address: an entry is malloced once and
    then travels between the lists, and the address says which one it is. *)
Record dtq_mpiqentry := Mqe {
  mid : nat;
  frame : dtframe;
  flen : Z;
  peer : Z }.

(** ** Requests *)

Record dthread_createinfo_t := Creinfo {
  c_thread : dthread_t;
  c_peer : Z;
  c_xidseq : Z }.

Inductive req_u :=
  | RUNone
  | RUNewdthread (t : dthread_t)
  | RURetval (p : Z)                 (* address of the joiner's buffer *)
  | RUCreinfo (c : dthread_createinfo_t)
  | RUWaitthread (t : dthread_t).

Record dthread_request_t := Request {
  req_ltabidx : Z;
  reqstate : Z;
  reqpeer : Z;
  reqop : Z;
  req_mqe : option dtq_mpiqentry;
  xidseq : Z;
  reqerror : Z;
  req_un : req_u }.

(** A pointer to a request: the one embedded in [ltab[i]], which the
    application thread uses through its own pointer, or a malloced internal
    one. *)
Inductive reqref :=
  | RLtab (i : Z)
  | RInternal (id : nat).

Record dthread_ltab_t := Ltab {
  lt_gtab_idx : Z;
  lt_seq : Z;
  lt_pth_state : Z;
  lt_req : dthread_request_t }.

(** ** Queues *)

(** [struct dtq_state].  [mgr_waiting] stands for [mgr_notify]: it says that
    the manager thread is blocked on that condition variable. *)
Record dtq_state := Dtq {
  mgrreqq : list reqref;
  mgrrqlen : Z;
  mgrmaxrqlen : Z;
  mgr_waiting : bool;
  notifytimelimit : Z;
  nreq : Z;
  reqfree : list reqref;
  mpisendq : list dtq_mpiqentry;
  mpisqlen : Z;
  mpimaxsqlen : Z;
  mpindequeuedsends : Z;
  mpisq_draindown : Z;
  mpirecvq : list dtq_mpiqentry;
  mpirqlen : Z;
  mpimaxrqlen : Z;
  nloop : Z;
  nmqe : Z;
  mqefree : list dtq_mpiqentry }.

(** ** Manager state *)

Record dt_mgrstate := Mgr {
  draining : bool;
  rpending : list reqref;
  ltab_alloc_cnt : Z;
  ltab_lastslot : Z;
  app0exitval : Z;
  threads_alloc : Z;
  threads_starting : Z;
  threads_running : Z;
  last_slot : Z;
  next_rank : Z }.

(** ** What the code of a rank runs on *)

(** The part of [dthread_dtrs_t] that is fixed before the manager starts. *)
Record config := Config {
  mpi_rank : Z;
  mpi_wsize : Z;
  nmaxthread : Z;
  dsps : list dthread_dispatch_t }.

Definition ndsps (c : config) : Z := Z.of_nat (length (dsps c)).

(** What [dthread_init] and [dthread_run] establish about it. *)
Record config_ok (c : config) : Prop := {
  cfg_rank : 0 ≤ mpi_rank c < mpi_wsize c;
  cfg_wsize : mpi_wsize c ≤ 2 ^ 30;
  cfg_nmax : 1 ≤ nmaxthread c < 2 ^ 31;
  cfg_ndsps : 1 ≤ ndsps c < 2 ^ 31 }.

(** The C library and the application's callbacks, as parameters: whether the
    n-th [malloc] succeeds, what the n-th [pthread_create] returns, what
    [pthread_attr_getstack] returns (status, address, size) and
    [pthread_attr_setstack] does to an attribute, what a proc callback returns
    and leaves in the structures it is passed, and the bytes of memory nobody
    has written. *)
Record env := Env {
  malloc_ok : nat → bool;
  pthread_create_rv : nat → Z;
  attr_getstack : pthread_attr_t → Z * Z * Z;
  attr_setstack : pthread_attr_t → Z → Z → pthread_attr_t;
  call_proc : Z → Z → dthread_argret_t → Z → Z * dthread_argret_t * Z;
  stale_int : Z;
  stale_frame : dtframe;
  stale_thread : dthread_t;
  stale_argret : dthread_argret_t }.

(** Calls into pthreads whose effect is outside the modelled state. *)
Inductive event :=
  | EvPthreadCreate (lidx : Z) (rv : Z)
  | EvPthreadCancel (lidx : Z)
  | EvPthreadJoin (lidx : Z).

Record dtst := Dtst {
  seqsrc : Z;
  ltab : list dthread_ltab_t;
  gtab : list dthread_gtab_t;         (* in shared memory *)
  ireqs : gmap nat dthread_request_t; (* malloced internal requests *)
  dtq : dtq_state;
  mgrstate : dt_mgrstate;
  nmallocs : nat;                     (* malloc calls so far *)
  ncreates : nat;                     (* pthread_create calls so far *)
  retbufs : gmap Z dthread_argret_t;  (* joiners' return buffers *)
  events : list event }.

(** ** Boilerplate instances *)
#[export] Instance dthread_t_eta : Eta dthread_t := λ r, Dthread (dt_index r) (dt_seq r).
#[export] Instance argret_eta : Eta dthread_argret_t := λ r,
  Argret (dt_argret_type r) (dt_inlinelen r) (dt_u r).
#[export] Instance attr_eta : Eta pthread_attr_t := λ r,
  Attr (a_detachstate r) (a_stackaddr r) (a_stacksize r) (a_inheritsched r)
    (a_schedpolicy r) (a_schedparam r).
#[export] Instance gtab_eta : Eta dthread_gtab_t := λ r,
  Gtab (gt_allocated r) (gt_rank r) (gt_seq r) (gt_disp_idx r) (gt_arg r)
    (gt_ret r) (gt_detached r) (gt_terminated r) (gt_has_ltab r) (gt_ltab_idx r).
#[export] Instance frame_eta : Eta dtframe := λ r, Frame (hdr_xidseq r) (fr_body r).
#[export] Instance mqe_eta : Eta dtq_mpiqentry := λ r,
  Mqe (mid r) (frame r) (flen r) (peer r).
#[export] Instance request_eta : Eta dthread_request_t := λ r,
  Request (req_ltabidx r) (reqstate r) (reqpeer r) (reqop r) (req_mqe r)
    (xidseq r) (reqerror r) (req_un r).
#[export] Instance ltab_eta : Eta dthread_ltab_t := λ r,
  Ltab (lt_gtab_idx r) (lt_seq r) (lt_pth_state r) (lt_req r).
#[export] Instance dtq_eta : Eta dtq_state := λ r,
  Dtq (mgrreqq r) (mgrrqlen r) (mgrmaxrqlen r) (mgr_waiting r)
    (notifytimelimit r) (nreq r) (reqfree r) (mpisendq r) (mpisqlen r)
    (mpimaxsqlen r) (mpindequeuedsends r) (mpisq_draindown r) (mpirecvq r)
    (mpirqlen r) (mpimaxrqlen r) (nloop r) (nmqe r) (mqefree r).
#[export] Instance mgr_eta : Eta dt_mgrstate := λ r,
  Mgr (draining r) (rpending r) (ltab_alloc_cnt r) (ltab_lastslot r)
    (app0exitval r) (threads_alloc r) (threads_starting r) (threads_running r)
    (last_slot r) (next_rank r).
#[export] Instance dtst_eta : Eta dtst := λ r,
  Dtst (seqsrc r) (ltab r) (gtab r) (ireqs r) (dtq r) (mgrstate r) (nmallocs r)
    (ncreates r) (retbufs r) (events r).

#[export] Instance dthread_t_eq_dec : EqDecision dthread_t.
Proof. solve_decision. Defined.
#[export] Instance reqref_eq_dec : EqDecision reqref.
Proof. solve_decision. Defined.
#[export] Instance shmref_eq_dec : EqDecision dthread_shmref_t.
Proof. solve_decision. Defined.
#[export] Instance argret_u_eq_dec : EqDecision argret_u.
Proof. solve_decision. Defined.
#[export] Instance argret_eq_dec : EqDecision dthread_argret_t.
Proof. solve_decision. Defined.
#[export] Instance gtab_eq_dec : EqDecision dthread_gtab_t.
Proof. solve_decision. Defined.

(** ** Reaching a request through its pointer *)
Definition req_lookup (s : dtst) (r : reqref) : option dthread_request_t :=
  match r with
  | RLtab i => lt_req <$> aget (ltab s) i
  | RInternal id => ireqs s !! id
  end.

Definition req_store (r : reqref) (q : dthread_request_t) (s : dtst) : dtst :=
  match r with
  | RLtab i =>
      match aget (ltab s) i with
      | Some lt => s <| ltab := aset (ltab s) i (lt <| lt_req := q |>) |>
      | None => s
      end
  | RInternal id => s <| ireqs := <[id := q]> (ireqs s) |>
  end.

Lemma req_lookup_store_eq s r q :
  is_Some (req_lookup s r) → req_lookup (req_store r q s) r = Some q.
Proof.
  destruct r as [i|id]; simpl; [|by intros _; rewrite lookup_insert_eq].
  destruct (aget (ltab s) i) as [lt|] eqn:E; simpl; [intros _|by intros [? ?]].
  rewrite aget_aset_eq; [done|]. by eapply aget_Some_range.
Qed.

Lemma req_lookup_store_ne s r r' q :
  r ≠ r' → req_lookup (req_store r q s) r' = req_lookup s r'.
Proof.
  intros Hne. destruct r as [i|id], r' as [j|jd]; simpl; [|by destruct (aget _ _)|done|].
  - destruct (aget (ltab s) i) as [lt|] eqn:E; [|done]. simpl.
    apply aget_Some_range in E. rewrite aget_aset_ne; [done|lia|congruence].
  - rewrite lookup_insert_ne; congruence.
Qed.

(** ** A small job

    Two ranks, three thread slots and one start function besides the main one;
    rank 0 before its first request.  The witnesses run on it. *)
Definition nodata : dthread_argret_t := Argret DTHREAD_NODATA 0 (UInline []).

Definition idle_req (i : Z) : dthread_request_t :=
  Request i DTREQ_IDLE 0 DTOP_NONE None 0 0 RUNone.

Definition zero_gtab : dthread_gtab_t := Gtab 0 0 0 0 nodata nodata 0 0 0 0.

Definition demo_cfg : config := Config 0 2 3 [Dispatch 100 0 0; Dispatch 200 0 0].

Definition demo_env : env :=
  Env (λ _, true) (λ _, 0) (λ a, (0, a_stackaddr a, a_stacksize a)) (λ a _ _, a) (λ _ _ a p, (0, a, p)) 0
    (Frame 0 (BOther 0)) (Dthread 0 0) nodata.

Definition zero_dtq : dtq_state :=
  Dtq [] 0 0 false 0 0 [] [] 0 0 0 DTQ_DD_INIT [] 0 0 0 0 [].

Definition demo_st : dtst :=
  Dtst 2 [Ltab 0 0 LT_NONE (idle_req 0); Ltab 0 0 LT_NONE (idle_req 1);
          Ltab 0 0 LT_NONE (idle_req 2)]
    [zero_gtab; zero_gtab; zero_gtab] ∅ zero_dtq (Mgr false [] 0 0 0 0 0 0 0 0)
    0 0 ∅ [].

Lemma demo_cfg_ok : config_ok demo_cfg.
Proof. by repeat split. Qed.
