(* ===== verification/Router.v ===== *)
(** * Broadcast routing

    [binary_router] of [libdthread/dt_mgrthread.c]: the binary tree over the
    MPI ranks along which the shutdown broadcast is forwarded.  The theorems
    say that the tree is one: every rank but the root has exactly one parent,
    and every rank is reached from the root within [log2] hops. *)

From S2P Require Import Prelude.

(** [binary_router]: the ranks in [children[]], as many as it returns. *)
Definition binary_router (root_rank world_size my_rank : Z) : outcome (list Z) :=
  let my_adjusted_rank :=
    if my_rank - root_rank <? 0 then my_rank - root_rank + world_size
    else my_rank - root_rank in
  let adjusted_child0 := my_adjusted_rank * 2 + 1 in
  if negb (int_ok adjusted_child0) then Crash SignedOverflow else
  if world_size <=? adjusted_child0 then Ok []
  else if negb (int_ok (adjusted_child0 + root_rank)) then Crash SignedOverflow
  else
    let child0 := Z.rem (adjusted_child0 + root_rank) world_size in
    if adjusted_child0 =? world_size - 1 then Ok [child0]
    else Ok [child0; Z.rem (child0 + 1) world_size].

(** The children as a list, none where the call would overflow. *)
Definition route (root_rank world_size my_rank : Z) : list Z :=
  match binary_router root_rank world_size my_rank with
  | Ok l => l
  | Crash _ => []
  end.

(** A rank's position in the tree, the root at 0. *)
Definition adjusted (root_rank world_size r : Z) : Z := (r - root_rank) mod world_size.

(** [hops root ws n r]: the broadcast rooted at [root] arrives at [r] after
    [n] forwardings. *)
Inductive hops (root ws : Z) : nat → Z → Prop :=
  | hops_root : hops root ws 0 root
  | hops_child n p r : hops root ws n p → r ∈ route root ws p → hops root ws (S n) r.

Section Router.
Context (root ws : Z) (Hws : 1 ≤ ws ≤ 2 ^ 30) (Hroot : 0 ≤ root < ws).

Abbreviation adj := (adjusted root ws).

Lemma adj_cases r : 0 ≤ r < ws →
  adj r = if r - root <? 0 then r - root + ws else r - root.
Proof using Hws Hroot.
  intros. unfold adjusted. destruct (Z.ltb_spec (r - root) 0).
  - rewrite <- (Z_mod_plus_full (r - root) 1 ws). rewrite Z.mod_small; lia.
  - rewrite Z.mod_small; lia.
Qed.

Lemma adj_range r : 0 ≤ adj r < ws.
Proof using Hws. apply Z.mod_pos_bound. lia. Qed.

Lemma adj_inj r r' : 0 ≤ r < ws → 0 ≤ r' < ws → adj r = adj r' → r = r'.
Proof using Hws Hroot.
  intros ??. rewrite !adj_cases by done.
  destruct (Z.ltb_spec (r - root) 0), (Z.ltb_spec (r' - root) 0); lia.
Qed.

(** The rank at a given position of the tree. *)
Lemma adj_unadj a : 0 ≤ a < ws →
  adj ((a + root) mod ws) = a ∧ 0 ≤ (a + root) mod ws < ws.
Proof using Hws Hroot.
  intros. split; [|apply Z.mod_pos_bound; lia].
  unfold adjusted. rewrite Zminus_mod_idemp_l.
  replace (a + root - root) with a by lia. by apply Z.mod_small.
Qed.

Lemma succ_unadj a : 0 ≤ a < ws - 1 →
  ((a + root) mod ws + 1) mod ws = (a + 1 + root) mod ws.
Proof using Hws Hroot.
  intros. rewrite Zplus_mod_idemp_l. f_equal. lia.
Qed.

(** No overflow below 2^30 ranks, and the children are positions [2a+1] and
    [2a+2], as far as they exist. *)
Lemma binary_router_eq me : 0 ≤ me < ws →
  binary_router root ws me =
    Ok (map (λ a, (a + root) mod ws)
          (filter (λ a, a < ws) [adj me * 2 + 1; adj me * 2 + 2])).
Proof using Hws Hroot.
  intros Hme. unfold binary_router. rewrite <- adj_cases by done.
  pose proof (adj_range me) as Ha. set (a := adj me) in *.
  unfold int_ok. assert (a * 2 + 1 < 2 ^ 31) by lia.
  destruct (Z.leb_spec (- 2 ^ 31) (a * 2 + 1)), (Z.ltb_spec (a * 2 + 1) (2 ^ 31));
    try lia; simpl.
  rewrite !filter_cons, filter_nil.
  destruct (Z.leb_spec ws (a * 2 + 1)).
  { rewrite !decide_False by lia. done. }
  destruct (Z.leb_spec (- 2 ^ 31) (a * 2 + 1 + root)),
    (Z.ltb_spec (a * 2 + 1 + root) (2 ^ 31)); try lia; simpl.
  rewrite !Z.rem_mod_nonneg by lia. rewrite (decide_True (P := a * 2 + 1 < ws)) by lia.
  destruct (Z.eqb_spec (a * 2 + 1) (ws - 1)); simpl.
  - rewrite decide_False by lia. done.
  - rewrite decide_True by lia. simpl.
    rewrite Z.rem_mod_nonneg by (pose proof (Z.mod_pos_bound (a * 2 + 1 + root) ws); lia).
    rewrite succ_unadj by lia. do 4 f_equal. lia.
Qed.

Lemma route_spec me x : 0 ≤ me < ws →
  x ∈ route root ws me ↔
  0 ≤ x < ws ∧ (adj x = adj me * 2 + 1 ∨ adj x = adj me * 2 + 2).
Proof using Hws Hroot.
  intros Hme. unfold route. rewrite binary_router_eq by done.
  rewrite list_elem_of_fmap. setoid_rewrite list_elem_of_filter.
  pose proof (adj_range me). split.
  - intros (a & -> & Hlt & Ha). destruct (adj_unadj a) as [E ?].
    { rewrite !elem_of_cons, elem_of_nil in Ha. lia. }
    rewrite E. split; [lia|]. rewrite !elem_of_cons, elem_of_nil in Ha. lia.
  - intros (Hx & Ha). pose proof (adj_range x). exists (adj x). split_and!.
    + destruct (adj_unadj (adj x)) as [E ?]; [lia|]. apply adj_inj; [lia|lia|]. done.
    + lia.
    + rewrite !elem_of_cons, elem_of_nil. lia.
Qed.

Lemma route_range me x : 0 ≤ me < ws → x ∈ route root ws me → 0 ≤ x < ws.
Proof using Hws Hroot. intros ? H%route_spec; [tauto|done]. Qed.

Lemma adj_root : adj root = 0.
Proof using. unfold adjusted. by rewrite Z.sub_diag, Zmod_0_l. Qed.

Lemma route_NoDup me : 0 ≤ me < ws → NoDup (route root ws me).
Proof using Hws Hroot.
  intros Hme. unfold route. rewrite binary_router_eq by done.
  pose proof (adj_range me). set (a := adj me) in *.
  rewrite !filter_cons, filter_nil.
  repeat case_decide; simpl; [|apply NoDup_singleton|lia|constructor].
  apply NoDup_cons; split; [|apply NoDup_singleton].
  intros E%list_elem_of_singleton.
  destruct (adj_unadj (a * 2 + 1)) as [E1 _]; [lia|].
  destruct (adj_unadj (a * 2 + 2)) as [E2 _]; [lia|].
  rewrite E, E2 in E1. lia.
Qed.

(** The parent's position. *)
Definition parent (r : Z) : Z := ((adj r - 1) / 2 + root) mod ws.

Lemma parent_spec r : 0 ≤ r < ws → r ≠ root →
  0 ≤ parent r < ws ∧ r ∈ route root ws (parent r) ∧
  (∀ p, 0 ≤ p < ws → r ∈ route root ws p → p = parent r).
Proof using Hws Hroot.
  intros Hr Hne. pose proof (adj_range r).
  assert (adj r ≠ 0) as Hnz.
  { intros E. apply Hne, adj_inj; [done|done|]. by rewrite E, adj_root. }
  assert (0 ≤ (adj r - 1) / 2 < ws) as Hb.
  { split; [apply Z.div_pos; lia|]. apply Z.div_lt_upper_bound; lia. }
  destruct (adj_unadj _ Hb) as [E Hp]. fold (parent r) in E, Hp.
  assert (adj r = adj (parent r) * 2 + 1 ∨ adj r = adj (parent r) * 2 + 2) as Hpos.
  { rewrite E. pose proof (Z_div_mod_eq_full (adj r - 1) 2).
    pose proof (Z.mod_pos_bound (adj r - 1) 2). lia. }
  split; [done|]. split; [by apply route_spec|].
  intros p Hpr [_ Hin]%route_spec; [|done]. apply adj_inj; [done|done|].
  pose proof (adj_range p). lia.
Qed.

(** A rank at position [a] is at depth at most [log2 (a + 1)]: the parent's
    position is less than half. *)
Lemma hops_depth (k : nat) r : 0 ≤ r < ws → adj r + 1 < 2 ^ (Z.of_nat k + 1) →
  ∃ n, (n ≤ k)%nat ∧ hops root ws n r.
Proof using Hws Hroot.
  revert r. induction k as [|k IH]; intros r Hr Hlt.
  - assert (r = root) as ->.
    { apply adj_inj; [done|done|]. rewrite adj_root. pose proof (adj_range r).
      change (2 ^ (Z.of_nat 0 + 1)) with 2 in Hlt. lia. }
    exists 0%nat. split; [lia|constructor].
  - destruct (decide (r = root)) as [->|Hne]; [exists 0%nat; split; [lia|constructor]|].
    destruct (parent_spec r Hr Hne) as (Hp & Hin & _).
    destruct (IH (parent r) Hp) as (n & Hn & Hh).
    { pose proof (proj1 (route_spec _ _ Hp) Hin) as [_ Hpos].
      replace (Z.of_nat (S k) + 1) with (Z.succ (Z.of_nat k + 1)) in Hlt by lia.
      rewrite Z.pow_succ_r in Hlt by lia. lia. }
    exists (S n). split; [lia|]. by econstructor.
Qed.
End Router.

(** With at most 2^30 ranks [binary_router] never overflows, and what it
    returns are at most two distinct ranks of the job, none of them the caller
    or the root of the broadcast. *)
Theorem binary_router_children (root ws me : Z)
    (Hws : 1 ≤ ws ≤ 2 ^ 30) (Hroot : 0 ≤ root < ws) (Hme : 0 ≤ me < ws) :
  ∃ l, binary_router root ws me = Ok l ∧ (length l ≤ 2)%nat ∧ NoDup l ∧
    ∀ x, x ∈ l → 0 ≤ x < ws ∧ x ≠ me ∧ x ≠ root.
Proof.
  pose proof (binary_router_eq root ws Hws Hroot me Hme) as E.
  eexists. split; [exact E|]. assert (∀ l, binary_router root ws me = Ok l → l = route root ws me) as Hr.
  { intros l El. unfold route. by rewrite El. }
  rewrite (Hr _ E). split; [|split].
  - rewrite <- (Hr _ E), length_map, !filter_cons, filter_nil. repeat case_decide; simpl; lia.
  - by apply route_NoDup.
  - intros x Hx. pose proof (adj_range root ws Hws me).
    apply route_spec in Hx as [? Hx]; [|done..]. split; [done|].
    split; intros ->; [lia|]. rewrite (adj_root root ws) in Hx. lia.
Qed.

Lemma binary_router_children_witness :
  ∃ l, binary_router 0 5 1 = Ok l ∧ (length l ≤ 2)%nat ∧ NoDup l ∧
    ∀ x, x ∈ l → 0 ≤ x < 5 ∧ x ≠ 1 ∧ x ≠ 0.
Proof. apply (binary_router_children 0 5 1); lia. Defined.

(** C25. The broadcast reaches every rank of the job exactly once: each rank is
    at most [log2 world_size] hops from the root, and a rank other than the
    root is the child of exactly one rank. *)
Theorem broadcast_reaches_all (root ws r : Z)
    (Hws : 1 ≤ ws ≤ 2 ^ 30) (Hroot : 0 ≤ root < ws) (Hr : 0 ≤ r < ws) :
  (∃ n, Z.of_nat n ≤ Z.log2 ws ∧ hops root ws n r) ∧
  (r ≠ root → exists! p, 0 ≤ p < ws ∧ r ∈ route root ws p) ∧
  (∀ p, 0 ≤ p < ws → root ∉ route root ws p).
Proof.
  pose proof (adj_range root ws Hws r). pose proof (Z.log2_nonneg ws).
  split; [|split].
  - destruct (hops_depth root ws Hws Hroot (Z.to_nat (Z.log2 ws)) r) as (n & ? & ?); [done| |].
    + rewrite Z2Nat.id by done. pose proof (Z.log2_spec ws) as Hl.
      unfold Z.succ in Hl. lia.
    + exists n. split; [lia|done].
  - intros Hne. destruct (parent_spec root ws Hws Hroot r Hr Hne) as (? & ? & Hu).
    exists (parent root ws r). split; [done|]. intros p []. symmetry. by apply Hu.
  - intros p Hp [_ Hin]%route_spec; [|done..]. rewrite (adj_root root ws) in Hin.
    pose proof (adj_range root ws Hws p). lia.
Qed.

Lemma broadcast_reaches_all_witness :
  (∃ n, Z.of_nat n ≤ Z.log2 6 ∧ hops 2 6 n 1) ∧
  (1 ≠ 2 → exists! p, 0 ≤ p < 6 ∧ 1 ∈ route 2 6 p) ∧
  (∀ p, 0 ≤ p < 6 → 2 ∉ route 2 6 p).
Proof. apply (broadcast_reaches_all 2 6 1); lia. Defined.
