(* ===== verification/Queuing.v ===== *)
(** * Queues between the local threads

    [libdthread/dt_queuing.c]: the request queue of the manager, the send and
    receive queues of the MPI thread, the free lists, and the draindown state
    of the send queue.  Each function of the source is one critical section
    under [dtqlock], so one atomic step here; [dtq_notifywait], which gives the
    lock up while it waits, is two. *)

From S2P Require Import Prelude Types.

Section Ops.
Context (c : config) (e : env).

(** [malloc]: the address of the new object, or nothing. *)
Definition malloc : M dtst (option nat) :=
  n <- gets nmallocs;;
  modify (λ s, s <| nmallocs := S n |>) ;;;
  retM (if malloc_ok e n then Some n else None).

Definition upd_dtq (f : dtq_state → dtq_state) : M dtst unit :=
  modify (λ s, s <| dtq ::= f |>).

(** [pthread_cond_signal] on [mgr_notify]. *)
Definition mgr_signal (q : dtq_state) : dtq_state := q <| mgr_waiting := false |>.

(** Neither queue of the manager has an entry. *)
Definition mgr_idle (q : dtq_state) : bool :=
  match mpirecvq q, mgrreqq q with [], [] => true | _, _ => false end.

Definition dtq_recv_dequeue_locked : M dtst (option dtq_mpiqentry) :=
  q <- gets dtq;;
  match mpirecvq q with
  | [] => retM None
  | m :: rest =>
      upd_dtq (λ q, q <| mpirecvq := rest |> <| mpirqlen ::= Z.pred |>) ;;;
      retM (Some m)
  end.

Definition dtq_req_dequeue_locked : M dtst (option reqref) :=
  q <- gets dtq;;
  match mgrreqq q with
  | [] => retM None
  | r :: rest =>
      upd_dtq (λ q, q <| mgrreqq := rest |> <| mgrrqlen ::= Z.pred |>) ;;;
      retM (Some r)
  end.

(** [dtq_notifywait], after the wait if there was one. *)
Definition dtq_notifywait_take : M dtst (option dtq_mpiqentry * option reqref) :=
  m <- dtq_recv_dequeue_locked;;
  r <- dtq_req_dequeue_locked;;
  retM (m, r).

(** [dtq_notifywait] up to the wait: [None] when the manager blocks. *)
Definition dtq_notifywait_enter :
    M dtst (option (option dtq_mpiqentry * option reqref)) :=
  q <- gets dtq;;
  if mgr_idle q then
    upd_dtq (λ q, q <| mgr_waiting := true |>) ;;; retM None
  else
    x <- dtq_notifywait_take;; retM (Some x).

(** [dtq_notifywait] from the wake-up on: a signal, the time limit or a
    spurious wake-up. *)
Definition dtq_notifywait_wake : M dtst (option dtq_mpiqentry * option reqref) :=
  upd_dtq (λ q, q <| mgr_waiting := false |>) ;;; dtq_notifywait_take.

Definition dtq_notifytimelimit (newval : Z) : M dtst unit :=
  upd_dtq (λ q, q <| notifytimelimit := if newval <? 1 then 0 else newval |>).

Definition dtq_req_alloc : M dtst (option reqref) :=
  q <- gets dtq;;
  match reqfree q with
  | r :: rest => upd_dtq (λ q, q <| reqfree := rest |>) ;;; retM (Some r)
  | [] =>
      a <- malloc;;
      match a with
      | None => retM None
      | Some id =>
          modify (λ s, s <| ireqs := <[id :=
            Request (-1) DTREQ_INTERNAL 0 0 None 0 0 RUNone]> (ireqs s) |>) ;;;
          upd_dtq (λ q, q <| nreq ::= Z.succ |>) ;;;
          retM (Some (RInternal id))
      end
  end.

Definition dtq_req_enqueue (r : reqref) : M dtst unit :=
  upd_dtq (λ q,
    let was_empty := mgr_idle q in
    let len := mgrrqlen q + 1 in
    let q := q <| mgrreqq := mgrreqq q ++ [r] |> <| mgrrqlen := len |>
               <| mgrmaxrqlen := if mgrmaxrqlen q <? len then len else mgrmaxrqlen q |> in
    if was_empty then mgr_signal q else q).

Definition dtq_req_dequeue : M dtst (option reqref) := dtq_req_dequeue_locked.

Definition dtq_req_release (r : reqref) (notify : bool) : M dtst unit :=
  s <- gets id;;
  q <- get_some BadPointer (req_lookup s r);;
  if reqstate q =? DTREQ_INTERNAL then
    upd_dtq (λ q, q <| reqfree ::= cons r |>)
  else
    modify (req_store r (q <| reqstate := if notify then DTREQ_DONE else DTREQ_IDLE |>)).

Definition dtq_mqe_alloc : M dtst (option dtq_mpiqentry) :=
  q <- gets dtq;;
  match mqefree q with
  | m :: rest => upd_dtq (λ q, q <| mqefree := rest |>) ;;; retM (Some m)
  | [] =>
      a <- malloc;;
      match a with
      | None => retM None
      | Some id =>
          upd_dtq (λ q, q <| nmqe ::= Z.succ |>) ;;;
          retM (Some (Mqe id (stale_frame e) (stale_int e) (stale_int e)))
      end
  end.

Definition dtq_mqe_unalloc (m : dtq_mpiqentry) : M dtst unit :=
  upd_dtq (λ q, q <| mqefree ::= cons m |>).

Definition recv_enqueue (m : dtq_mpiqentry) (q : dtq_state) : dtq_state :=
  let was_empty := mgr_idle q in
  let len := mpirqlen q + 1 in
  let q := q <| mpirecvq := mpirecvq q ++ [m] |> <| mpirqlen := len |>
             <| mpimaxrqlen := if mpimaxrqlen q <? len then len else mpimaxrqlen q |> in
  if was_empty then mgr_signal q else q.

Definition dtq_recv_enqueue_locked (m : dtq_mpiqentry) : M dtst bool :=
  q <- gets dtq;;
  upd_dtq (recv_enqueue m) ;;;
  retM (mgr_idle q).

(** Returns the entry when it could not be queued. *)
Definition dtq_send_enqueue (m : dtq_mpiqentry) : M dtst (option dtq_mpiqentry) :=
  q <- gets dtq;;
  if negb (mpisq_draindown q =? 0) then retM (Some m)
  else if peer m =? mpi_rank c then
    dtq_recv_enqueue_locked m ;;;
    upd_dtq (λ q, q <| nloop ::= Z.succ |>) ;;;
    retM None
  else
    upd_dtq (λ q,
      let len := mpisqlen q + 1 in
      q <| mpisendq := mpisendq q ++ [m] |> <| mpisqlen := len |>
        <| mpimaxsqlen := if mpimaxsqlen q <? len then len else mpimaxsqlen q |>) ;;;
    retM None.

Definition dtq_send_dequeue : M dtst (option dtq_mpiqentry) :=
  q <- gets dtq;;
  match mpisendq q with
  | [] => retM None
  | m :: rest =>
      upd_dtq (λ q, q <| mpisendq := rest |> <| mpisqlen ::= Z.pred |>
                      <| mpindequeuedsends ::= Z.succ |>) ;;;
      retM (Some m)
  end.

Definition dtq_send_release (m : dtq_mpiqentry) : M dtst unit :=
  upd_dtq (λ q,
    let q := q <| mpindequeuedsends ::= Z.pred |> <| mqefree ::= cons m |> in
    let just_drained := negb (mpisq_draindown q =? 0) && (mpisqlen q =? 0) &&
                        (mpindequeuedsends q =? 0) in
    if just_drained then mgr_signal (q <| mpisq_draindown := DTQ_DD_DRAINED |>)
    else q).

Definition dtq_recv_enqueue (m : dtq_mpiqentry) : M dtst unit :=
  dtq_recv_enqueue_locked m ;;; retM tt.

Definition dtq_recv_dequeue : M dtst (option dtq_mpiqentry) := dtq_recv_dequeue_locked.

Definition dtq_recv_release (m : dtq_mpiqentry) : M dtst unit :=
  upd_dtq (λ q, q <| mqefree ::= cons m |>).

Definition dtq_send_draindown : M dtst Z :=
  q <- gets dtq;;
  let rv := mpisqlen q + mpindequeuedsends q in
  upd_dtq (λ q, q <| mpisq_draindown :=
    if rv =? 0 then DTQ_DD_DRAINED else DTQ_DD_DRAINING |>) ;;;
  retM rv.

Definition dtq_send_drainstate : M dtst Z := gets (λ s, mpisq_draindown (dtq s)).

(** The queues [dtq_init] sets up. *)
Definition dtq_init : dtq_state :=
  Dtq [] 0 0 false 0 0 [] [] 0 0 0 DTQ_DD_INIT [] 0 0 0 0 [].

(** [dtq_stats]: nreq, nloop, nmqe and the three high-water marks. *)
Definition dtq_stats (q : dtq_state) : list Z :=
  [nreq q; nloop q; nmqe q; mpimaxsqlen q; mpimaxrqlen q; mgrmaxrqlen q].

(** One pass of the first loop of [dtq_finalize]. *)
Definition finalize_req (r : reqref) : M dtst unit :=
  s <- gets id;;
  q <- get_some BadPointer (req_lookup s r);;
  whenM (reqstate q =? DTREQ_INTERNAL)
    (match r with
     | RInternal id => modify (λ s, s <| ireqs := delete id (ireqs s) |>)
     | RLtab _ => crash BadPointer
     end).

(** One pass of the second loop: the free list is freed unconditionally. *)
Definition finalize_free_req (r : reqref) : M dtst unit :=
  match r with
  | RInternal id => modify (λ s, s <| ireqs := delete id (ireqs s) |>)
  | RLtab _ => crash BadPointer
  end.

Definition dtq_finalize : M dtst unit :=
  q <- gets dtq;;
  forM (mgrreqq q) finalize_req ;;;
  upd_dtq (λ q, q <| mgrreqq := [] |>) ;;;
  forM (reqfree q) finalize_free_req ;;;
  upd_dtq (λ q, q <| reqfree := [] |>) ;;;
  upd_dtq (λ q, q <| mpisendq := [] |>) ;;;
  upd_dtq (λ q, q <| mpirecvq := [] |>) ;;;
  upd_dtq (λ q, q <| mqefree := [] |>).

End Ops.

(** ** Well-formed queues

    The length counters are the lengths, the high-water marks bound them, the
    draindown state tells exactly whether sends are outstanding, and the
    manager is asleep only when it has nothing to do. *)
Record dtq_wf (q : dtq_state) : Prop := {
  wf_rqlen : mgrrqlen q = Z.of_nat (length (mgrreqq q));
  wf_sqlen : mpisqlen q = Z.of_nat (length (mpisendq q));
  wf_rvlen : mpirqlen q = Z.of_nat (length (mpirecvq q));
  wf_maxes : mgrrqlen q ≤ mgrmaxrqlen q ∧ mpisqlen q ≤ mpimaxsqlen q ∧
             mpirqlen q ≤ mpimaxrqlen q;
  wf_ndeq : 0 ≤ mpindequeuedsends q;
  wf_drain : mpisq_draindown q = DTQ_DD_INIT ∨
    (mpisq_draindown q = DTQ_DD_DRAINING ∧ 0 < mpisqlen q + mpindequeuedsends q) ∨
    (mpisq_draindown q = DTQ_DD_DRAINED ∧ mpisqlen q + mpindequeuedsends q = 0);
  wf_wait : mgr_waiting q = true → mgr_idle q = true }.

(** ** The threads of a rank on its queues

    The manager, the MPI thread and the application threads call the queue
    functions in any order.  [inflight] are the entries the MPI thread has
    dequeued and not yet released; [sent], [taken], [arrived], [delivered]
    record the entries accepted for and dequeued from the two MPI queues. *)
Inductive mgr_pc := Running | Blocked.

Record qsys := Qsys {
  qs : dtst;
  mpc : mgr_pc;
  inflight : list dtq_mpiqentry;
  sent : list dtq_mpiqentry;
  taken : list dtq_mpiqentry;
  arrived : list dtq_mpiqentry;
  delivered : list dtq_mpiqentry }.

#[export] Instance qsys_eta : Eta qsys := λ r,
  Qsys (qs r) (mpc r) (inflight r) (sent r) (taken r) (arrived r) (delivered r).

Section System.
Context (c : config) (e : env).

(** The history after an entry was accepted by [dtq_send_enqueue]. *)
Definition record_send (m : dtq_mpiqentry) (y : qsys) : qsys :=
  if peer m =? mpi_rank c then y <| arrived ::= (λ l, l ++ [m]) |>
  else y <| sent ::= (λ l, l ++ [m]) |>.

Definition record_take (o : option dtq_mpiqentry) (y : qsys) : qsys :=
  match o with Some m => y <| delivered ::= (λ l, l ++ [m]) |> | None => y end.

Inductive qstep : qsys → qsys → Prop :=
  (* manager *)
  | q_send y m s' : mpc y = Running →
      dtq_send_enqueue c m (qs y) = Ok (None, s') →
      qstep y (record_send m (y <| qs := s' |>))
  | q_send_refused y m s' : mpc y = Running →
      dtq_send_enqueue c m (qs y) = Ok (Some m, s') →
      qstep y (y <| qs := s' |>)
  | q_mqe_alloc y o s' : dtq_mqe_alloc e (qs y) = Ok (o, s') →
      qstep y (y <| qs := s' |>)
  | q_recv_release y m s' : dtq_recv_release m (qs y) = Ok (tt, s') →
      qstep y (y <| qs := s' |>)
  | q_draindown y n s' : mpc y = Running →
      bindM dtq_send_draindown (λ n, bindM (dtq_notifytimelimit 10) (λ _, retM n)) (qs y)
        = Ok (n, s') →
      qstep y (y <| qs := s' |>)
  | q_wait_return y m r s' : mpc y = Running →
      dtq_notifywait_enter (qs y) = Ok (Some (m, r), s') →
      qstep y (record_take m (y <| qs := s' |>))
  | q_wait_block y s' : mpc y = Running →
      dtq_notifywait_enter (qs y) = Ok (None, s') →
      qstep y (y <| qs := s' |> <| mpc := Blocked |>)
  | q_wake y m r s' : mpc y = Blocked →
      dtq_notifywait_wake (qs y) = Ok ((m, r), s') →
      qstep y (record_take m (y <| qs := s' |> <| mpc := Running |>))
  (* MPI thread *)
  | q_send_dequeue y m s' : dtq_send_dequeue (qs y) = Ok (Some m, s') →
      qstep y (y <| qs := s' |> <| inflight ::= cons m |> <| taken ::= (λ l, l ++ [m]) |>)
  | q_send_release y m k s' : inflight y ≡ₚ m :: k →
      dtq_send_release m (qs y) = Ok (tt, s') →
      qstep y (y <| qs := s' |> <| inflight := k |>)
  | q_recv_enqueue y m s' : dtq_recv_enqueue m (qs y) = Ok (tt, s') →
      qstep y (y <| qs := s' |> <| arrived ::= (λ l, l ++ [m]) |>)
  (* any thread *)
  | q_malloc y o s' : malloc e (qs y) = Ok (o, s') → qstep y (y <| qs := s' |>)
  (* application threads *)
  | q_req_enqueue y r s' : dtq_req_enqueue r (qs y) = Ok (tt, s') →
      qstep y (y <| qs := s' |>).

(** A rank whose queues [dtq_init] has just set up. *)
Definition qinit (s : dtst) : qsys := Qsys (s <| dtq := dtq_init |>) Running [] [] [] [] [].

Record qinv (y : qsys) : Prop := {
  qi_wf : dtq_wf (dtq (qs y));
  qi_inflight : mpindequeuedsends (dtq (qs y)) = Z.of_nat (length (inflight y));
  qi_sent : sent y = taken y ++ mpisendq (dtq (qs y));
  qi_arrived : arrived y = delivered y ++ mpirecvq (dtq (qs y));
  qi_limit : mpisq_draindown (dtq (qs y)) ≠ DTQ_DD_INIT → 0 < notifytimelimit (dtq (qs y));
  qi_pc : mgr_waiting (dtq (qs y)) = true → mpc y = Blocked }.

(** Evaluates a queue operation that returned. *)
Ltac qop_inv H :=
  unfold dtq_send_enqueue, dtq_mqe_alloc, dtq_recv_release, dtq_send_draindown,
    dtq_notifytimelimit, dtq_notifywait_enter, dtq_notifywait_wake,
    dtq_notifywait_take, dtq_recv_dequeue_locked, dtq_req_dequeue_locked,
    dtq_send_dequeue, dtq_send_release, dtq_recv_enqueue,
    dtq_recv_enqueue_locked, dtq_req_enqueue, recv_enqueue, mgr_signal, upd_dtq,
    malloc, bindM, gets, modify, retM in H;
  simpl in H; repeat (case_match; simplify_eq/=).

Ltac qinv_solve :=
  first
    [ lia | done
    | by rewrite ?app_nil_r, <- ?app_assoc
    | unfold DTQ_DD_INIT, DTQ_DD_DRAINED, DTQ_DD_DRAINING in *; lia
    | unfold DTQ_DD_INIT, DTQ_DD_DRAINED, DTQ_DD_DRAINING in *;
      intuition (subst; lia || done) ].

Lemma qinv_init s : qinv (qinit s).
Proof. repeat split; simpl; qinv_solve. Qed.

Lemma qinv_step y y' : qinv y → qstep y y' → qinv y'.
Proof.
  intros [[] ? ? ? ? ?] Hs.
  destruct Hs; destruct y as [s pc inf se ta ar de]; destruct s as [???? q]; destruct q;
    simpl in *;
    try match goal with H : _ ≡ₚ _ |- _ => apply Permutation_length in H; simpl in H end;
    match goal with H : _ = Ok _ |- _ => qop_inv H end;
    unfold record_send, record_take, mgr_idle in *; simpl in *;
    repeat (case_match; simplify_eq/=); breflect; subst;
    repeat split; simpl; rewrite ?length_app, ?length_cons; simpl; qinv_solve.
Qed.

Lemma qinv_reach s y : rtc qstep (qinit s) y → qinv y.
Proof.
  intros H. assert (qinv (qinit s)) as Hi by apply qinv_init. revert Hi.
  induction H as [|y1 y2 y3 Hs _ IH]; [done|]. intros Hi. by eapply IH, qinv_step.
Qed.

End System.

(** C12. No wake-up is lost.  Whatever the interleaving of the manager, the MPI
    thread and the application threads, a manager asleep in [dtq_notifywait]
    has no message and no request waiting for it, and if the draindown has
    completed meanwhile its wait has a time limit. *)
Theorem no_lost_wakeup (c : config) (e : env) (s : dtst) (y : qsys)
    (Hr : rtc (qstep c e) (qinit s) y) (Hw : mgr_waiting (dtq (qs y)) = true) :
  mpirecvq (dtq (qs y)) = [] ∧ mgrreqq (dtq (qs y)) = [] ∧
  (mpisq_draindown (dtq (qs y)) = DTQ_DD_DRAINED → 0 < notifytimelimit (dtq (qs y))).
Proof.
  destruct (qinv_reach c e s y Hr) as [Hwf _ _ _ Hl _].
  pose proof (wf_wait _ Hwf Hw) as Hi. unfold mgr_idle in Hi.
  repeat case_match; try done. split_and!; [done|done|].
  intros Hd. apply Hl. by rewrite Hd.
Qed.

Lemma no_lost_wakeup_witness :
  let y := (qinit demo_st) <| qs ::= (λ s, s <| dtq ::= (λ q, q <| mgr_waiting := true |>) |>) |>
             <| mpc := Blocked |> in
  mpirecvq (dtq (qs y)) = [] ∧ mgrreqq (dtq (qs y)) = [] ∧
  (mpisq_draindown (dtq (qs y)) = DTQ_DD_DRAINED → 0 < notifytimelimit (dtq (qs y))).
Proof.
  apply (no_lost_wakeup demo_cfg demo_env demo_st); [|done].
  apply rtc_once. by apply (q_wait_block _ _ (qinit demo_st)).
Defined.

(** The draindown is exact.  Once [dtq_send_draindown] was called, the
    state is [DTQ_DD_DRAINED] if and only if the send queue is empty and the
    MPI thread has released every entry it dequeued, in every interleaving;
    so the manager's main loop neither exits early nor misses the end. *)
Theorem draindown_exact (c : config) (e : env) (s : dtst) (y : qsys)
    (Hr : rtc (qstep c e) (qinit s) y)
    (Hd : mpisq_draindown (dtq (qs y)) ≠ DTQ_DD_INIT) :
  mpisq_draindown (dtq (qs y)) = DTQ_DD_DRAINED ↔
  mpisendq (dtq (qs y)) = [] ∧ inflight y = [].
Proof.
  destruct (qinv_reach c e s y Hr) as [Hwf Hn _ _ _ _].
  rewrite <- !length_zero_iff_nil. destruct Hwf as [_ Hsq _ _ _ Hdr _].
  unfold DTQ_DD_DRAINED, DTQ_DD_DRAINING in *. split; [|intros []]; lia.
Qed.

(** One accepted send, then the draindown. *)
Definition demo_mqe : dtq_mpiqentry := Mqe 0 (Frame 0 BBcastshutdown) 8 1.

Definition demo_sent : qsys :=
  (qinit demo_st)
    <| sent := [demo_mqe] |>
    <| qs ::= (λ s, s <| dtq ::= (λ q, q <| mpisendq := [demo_mqe] |> <| mpisqlen := 1 |>
         <| mpimaxsqlen := 1 |>) |>) |>.

Definition demo_drain : qsys :=
  demo_sent <| qs ::= (λ s, s <| dtq ::= (λ q, q <| mpisq_draindown := DTQ_DD_DRAINING |>
         <| notifytimelimit := 10 |>) |>) |>.

Lemma demo_drain_reachable : rtc (qstep demo_cfg demo_env) (qinit demo_st) demo_drain.
Proof.
  apply (rtc_l _ _ demo_sent); [|apply rtc_once].
  - by apply (q_send demo_cfg demo_env (qinit demo_st) demo_mqe (qs demo_sent)).
  - by apply (q_draindown demo_cfg demo_env demo_sent 1 (qs demo_drain)).
Qed.

Lemma draindown_exact_witness :
  mpisq_draindown (dtq (qs demo_drain)) = DTQ_DD_DRAINED ↔
  mpisendq (dtq (qs demo_drain)) = [] ∧ inflight demo_drain = [].
Proof.
  apply (draindown_exact demo_cfg demo_env demo_st); [apply demo_drain_reachable|done].
Defined.

(** C19. The MPI queues are first-in first-out and lose nothing.  The entries
    the MPI thread has dequeued, followed by the send queue, are the accepted
    sends in order; the entries the manager was given, followed by the receive
    queue, are those that arrived (by MPI or looped back), in order; and every
    length counter is exact. *)
Theorem queues_fifo (c : config) (e : env) (s : dtst) (y : qsys)
    (Hr : rtc (qstep c e) (qinit s) y) :
  sent y = taken y ++ mpisendq (dtq (qs y)) ∧
  arrived y = delivered y ++ mpirecvq (dtq (qs y)) ∧
  mpisqlen (dtq (qs y)) = Z.of_nat (length (mpisendq (dtq (qs y)))) ∧
  mpirqlen (dtq (qs y)) = Z.of_nat (length (mpirecvq (dtq (qs y)))) ∧
  mgrrqlen (dtq (qs y)) = Z.of_nat (length (mgrreqq (dtq (qs y)))).
Proof. by destruct (qinv_reach c e s y Hr) as [[] ? ? ? ? ?]. Qed.

Lemma queues_fifo_witness :
  sent demo_drain = taken demo_drain ++ mpisendq (dtq (qs demo_drain)) ∧
  arrived demo_drain = delivered demo_drain ++ mpirecvq (dtq (qs demo_drain)) ∧
  mpisqlen (dtq (qs demo_drain)) = Z.of_nat (length (mpisendq (dtq (qs demo_drain)))) ∧
  mpirqlen (dtq (qs demo_drain)) = Z.of_nat (length (mpirecvq (dtq (qs demo_drain)))) ∧
  mgrrqlen (dtq (qs demo_drain)) = Z.of_nat (length (mgrreqq (dtq (qs demo_drain)))).
Proof. apply (queues_fifo demo_cfg demo_env demo_st), demo_drain_reachable. Defined.
