(* ===== verification/MpiTab.v ===== *)
(** * Table of outstanding sends

    [struct mpimtsmgr] of [libdthread/dt_mpithread.c]: the MPI thread keeps
    each send it has started, with its MPI request, in two arrays in step,
    passes the requests to [MPI_Testsome], releases the completed entries and
    closes the holes they leave.  MPI is a parameter: what it returns and
    writes at the n-th call; [mpi_ok] is what the MPI standard says of it. *)

From S2P Require Import Prelude Types Queuing.

Definition MPIMTS_INITSZ : Z := 16.
Definition MPI_SUCCESS : Z := 0.

(** [sizeof(union dtmsg_all)]: its largest member is [dtmsg_create]. *)
Definition DTQ_MAXMSGSIZE : Z := 144.

(** ** Data *)
Record mpimtsmgr := Mts {
  nalloc : Z;
  nused : Z;
  ntestsome : Z;
  got1 : Z;
  gotmore : Z;
  gotmax : Z;
  mqes : list (option dtq_mpiqentry);  (* [None] is a null pointer *)
  reqs : list Z;
  idxout : list Z;
  statout : list Z }.                  (* the [MPI_ERROR] fields *)

Definition MPIMTSMGR_INIT : mpimtsmgr := Mts 0 0 0 0 0 0 [] [] [] [].

Record mpit_stats_t := MpitStats {
  mts_maxslots : Z;
  mts_ntestsome : Z;
  mts_got1 : Z;
  mts_gotmore : Z;
  mts_gotmax : Z;
  isend_cnt : Z;
  isend_bytes : Z;
  iprobe_cnt : Z;
  recv_cnt : Z;
  recv_bytes : Z }.

(** What [MPI_Testsome] returns and leaves in its output arguments. *)
Record testsome := Testsome {
  ts_rv : Z;
  ts_got : Z;
  ts_idx : list Z;
  ts_err : list Z;
  ts_reqs : list Z }.

Record mpi_status := MpiStatus { MPI_SOURCE : Z; MPI_TAG : Z }.

(** The MPI library: its constants, the outcome of the n-th call, and the
    contents of fresh array slots.  [MPI_Isend] yields a return value and a
    request, [MPI_Iprobe] a return value, the flag and a status,
    [MPI_Get_count] a return value and a count, [MPI_Recv] a return value, the
    number of bytes written and the message. *)
Record mpi := Mpi {
  MPI_UNDEFINED : Z;
  MPI_ERR_IN_STATUS : Z;
  MPI_REQUEST_NULL : Z;
  MPI_Testsome : nat → list Z → testsome;
  MPI_Isend : nat → dtq_mpiqentry → Z * Z;
  MPI_Iprobe : nat → Z * bool * mpi_status;
  MPI_Get_count : nat → mpi_status → Z * Z;
  MPI_Recv : nat → mpi_status → Z → Z * Z * dtframe;
  stale_mqe : option dtq_mpiqentry;
  stale_req : Z }.

Inductive mpi_event :=
  | EvIsend (m : dtq_mpiqentry)
  | EvRequestFree (req : Z)
  | EvMpiAbort.

(** What the MPI thread runs on: the rank's queues, its table, the thread
    state under [mpit_slock], the statistics. *)
Record mpit := Mpit {
  rk : dtst;
  mts : mpimtsmgr;
  mpit_state : Z;
  mpit_st : mpit_stats_t;
  nmpi : nat;                 (* MPI calls so far *)
  mpilog : list mpi_event }.

#[export] Instance mts_eta : Eta mpimtsmgr := λ r,
  Mts (nalloc r) (nused r) (ntestsome r) (got1 r) (gotmore r) (gotmax r)
    (mqes r) (reqs r) (idxout r) (statout r).
#[export] Instance mpit_stats_eta : Eta mpit_stats_t := λ r,
  MpitStats (mts_maxslots r) (mts_ntestsome r) (mts_got1 r) (mts_gotmore r) (mts_gotmax r)
    (isend_cnt r) (isend_bytes r) (iprobe_cnt r) (recv_cnt r) (recv_bytes r).

(** The initial value: all zero. *)
Definition mpit_stats_zero : mpit_stats_t := MpitStats 0 0 0 0 0 0 0 0 0 0.
#[export] Instance mpit_eta : Eta mpit := λ r,
  Mpit (rk r) (mts r) (mpit_state r) (mpit_st r) (nmpi r) (mpilog r).

(** A queue operation, run by the MPI thread. *)
Definition onrk {A} (m : M dtst A) : M mpit A := λ s,
  match m (rk s) with
  | Ok (a, d) => Ok (a, s <| rk := d |>)
  | Crash f => Crash f
  end.

Definition upd_mts (f : mpimtsmgr → mpimtsmgr) : M mpit unit :=
  modify (λ s, s <| mts ::= f |>).

Definition log_mpi (ev : mpi_event) : M mpit unit :=
  modify (λ s, s <| mpilog ::= (λ l, l ++ [ev]) |>).

(** The number of the next MPI call. *)
Definition mpicall : M mpit nat :=
  n <- gets nmpi;;
  modify (λ s, s <| nmpi := S n |>) ;;;
  retM n.

(** An array access. *)
Definition rd {A} (l : list A) (i : Z) : M mpit A := get_some OutOfBounds (aget l i).

(** [l] with its first elements overwritten by [new]. *)
Definition overlay {A} (new l : list A) : list A := new ++ drop (length new) l.

Section Ops.
Context (e : env) (mp : mpi).

(** [realloc] of an array to [n] elements. *)
Definition realloc {A} (n : Z) (stale : A) (l : list A) : M mpit (option (list A)) :=
  a <- onrk (malloc e);;
  retM (match a with
        | Some _ => Some (resize (Z.to_nat n) stale l)
        | None => None
        end).

Definition mpimts_setslots (n : Z) : M mpit Z :=
  m <- gets mts;;
  if n <=? nalloc m then retM 0
  else
    t <- realloc n (stale_mqe mp) (mqes m);;
    match t with
    | None => retM (-1)
    | Some a =>
    upd_mts (λ m, m <| mqes := a |>) ;;;
    t <- realloc n (stale_req mp) (reqs m);;
    match t with
    | None => retM (-1)
    | Some a =>
    upd_mts (λ m, m <| reqs := a |>) ;;;
    t <- realloc n (stale_int e) (idxout m);;
    match t with
    | None => retM (-1)
    | Some a =>
    upd_mts (λ m, m <| idxout := a |>) ;;;
    t <- realloc n (stale_int e) (statout m);;
    match t with
    | None => retM (-1)
    | Some a =>
    upd_mts (λ m, m <| statout := a |>) ;;;
    upd_mts (λ m, m <| nalloc := n |>) ;;;
    retM 0
    end end end end.

Definition mpimts_afree : M mpit unit := upd_mts (λ _, MPIMTSMGR_INIT).

Definition mpimts_init (n : Z) : M mpit Z :=
  upd_mts (λ _, MPIMTSMGR_INIT) ;;;
  ret <- mpimts_setslots n;;
  if ret =? -1 then mpimts_afree ;;; retM (-1)
  else retM 0.

(** The assignments at the end of [mpimts_add]. *)
Definition mts_append (mqe : dtq_mpiqentry) (req : Z) : M mpit Z :=
  m <- gets mts;;
  let slot := nused m in
  rd (mqes m) slot ;;;
  rd (reqs m) slot ;;;
  upd_mts (λ m, m <| mqes ::= (λ l, aset l slot (Some mqe)) |>
                  <| reqs ::= (λ l, aset l slot req) |>
                  <| nused := nused m + 1 |>) ;;;
  retM 0.

Definition mpimts_add (mqe : dtq_mpiqentry) (req : Z) : M mpit Z :=
  m <- gets mts;;
  if nused m =? nalloc m then
    if int_ok (nalloc m * 2) then
      rv <- mpimts_setslots (nalloc m * 2);;
      if rv =? -1 then retM (-1) else mts_append mqe req
    else crash SignedOverflow
  else mts_append mqe req.

Definition mpimts_done (mqe : option dtq_mpiqentry) : M mpit unit :=
  m <- get_some NullDeref mqe;;
  onrk (dtq_send_release m).

(** [MPI_Testsome(nused, reqs, &got, idxout, statout)]. *)
Definition call_testsome : M mpit testsome :=
  n <- mpicall;;
  m <- gets mts;;
  let k := Z.to_nat (nused m) in
  let t := MPI_Testsome mp n (take k (reqs m)) in
  upd_mts (λ m, m <| reqs := ts_reqs t ++ drop k (reqs m) |>
                  <| idxout := overlay (ts_idx t) (idxout m) |>
                  <| statout := overlay (ts_err t) (statout m) |>) ;;;
  retM t.

(** The loop that releases the completed entries: [n] passes from index [lcv]
    on; the result is [firsthole].  The error status is read for the log. *)
Fixpoint release_loop (rv : Z) (n : nat) (lcv firsthole : Z) : M mpit Z :=
  match n with
  | O => retM firsthole
  | S n =>
      m <- gets mts;;
      i <- rd (idxout m) lcv;;
      let firsthole := if i <? firsthole then i else firsthole in
      mqe <- rd (mqes m) i;;
      upd_mts (λ m, m <| mqes ::= (λ l, aset l i None) |>) ;;;
      whenM (negb (rv =? MPI_SUCCESS)) (rd (statout m) i ;;; retM tt) ;;;
      mpimts_done mqe ;;;
      release_loop rv n (lcv + 1) firsthole
  end.

(** The inner [while], which stops at [nused] at the latest. *)
Fixpoint pull_scan (n : nat) (pullfrom : Z) : M mpit Z :=
  match n with
  | O => retM pullfrom
  | S n =>
      m <- gets mts;;
      if pullfrom <? nused m then
        q <- rd (mqes m) pullfrom;;
        match q with
        | None => pull_scan n (pullfrom + 1)
        | Some _ => retM pullfrom
        end
      else retM pullfrom
  end.

(** The loop that closes the holes: [n] passes from slot [lcv] on; the result
    is the final value of [new_nused]. *)
Fixpoint compact_loop (n : nat) (lcv pullfrom new_nused : Z) : M mpit Z :=
  match n with
  | O => retM new_nused
  | S n =>
      m <- gets mts;;
      q <- rd (mqes m) lcv;;
      match q with
      | Some _ => compact_loop n (lcv + 1) pullfrom new_nused
      | None =>
          p <- pull_scan (Z.to_nat (nused m - pullfrom)) pullfrom;;
          if nused m <=? p then retM 0
          else
            q <- rd (mqes m) p;;
            r <- rd (reqs m) p;;
            rd (reqs m) lcv ;;;
            upd_mts (λ m, m <| mqes ::= (λ l, aset l lcv q) |>
                            <| reqs ::= (λ l, aset l lcv r) |>) ;;;
            compact_loop n (lcv + 1) (p + 1) new_nused
      end
  end.

(** The counters; [got] is compared as a [uint64_t]. *)
Definition count_got (got : Z) (m : mpimtsmgr) : mpimtsmgr :=
  let m := if got =? 1 then m <| got1 ::= (λ n, u64 (n + 1)) |>
           else if 1 <? got then m <| gotmore ::= (λ n, u64 (n + 1)) |>
           else m in
  if gotmax m <? u64 got then m <| gotmax := u64 got |> else m.

Definition mpimts_test : M mpit Z :=
  m <- gets mts;;
  if nused m =? 0 then retM 0
  else
    t <- call_testsome;;
    upd_mts (λ m, m <| ntestsome ::= (λ n, u64 (n + 1)) |>) ;;;
    if ts_rv t =? MPI_UNDEFINED mp then
      upd_mts (λ m, m <| nused := 0 |>) ;;; retM 0
    else if negb (ts_rv t =? MPI_SUCCESS) && negb (ts_rv t =? MPI_ERR_IN_STATUS mp) then
      retM (-1)
    else if ts_got t =? 0 then retM 0
    else
      upd_mts (count_got (ts_got t)) ;;;
      m <- gets mts;;
      i0 <- rd (idxout m) 0;;
      firsthole <- release_loop (ts_rv t) (Z.to_nat (ts_got t)) 0 i0;;
      if nused m <=? ts_got t then
        upd_mts (λ m, m <| nused := 0 |>) ;;; retM 0
      else
        let new_nused := nused m - ts_got t in
        n <- compact_loop (Z.to_nat (new_nused - firsthole)) firsthole new_nused new_nused;;
        upd_mts (λ m, m <| nused := n |>) ;;;
        retM 0.

(** One pass of the loop of [mpimts_finalize]. *)
Definition finalize_slot (lcv : nat) : M mpit unit :=
  m <- gets mts;;
  r <- rd (reqs m) (Z.of_nat lcv);;
  whenM (negb (r =? MPI_REQUEST_NULL mp))
    (log_mpi (EvRequestFree r) ;;;
     upd_mts (λ m, m <| reqs ::= (λ l, aset l (Z.of_nat lcv) (MPI_REQUEST_NULL mp)) |>)) ;;;
  q <- rd (mqes m) (Z.of_nat lcv);;
  match q with
  | Some _ => mpimts_done q
  | None => retM tt
  end.

Definition mpimts_finalize : M mpit unit :=
  m <- gets mts;;
  forM (seq 0 (Z.to_nat (nused m))) finalize_slot ;;;
  upd_mts (λ m, m <| nused := 0 |>) ;;;
  mpimts_afree.

End Ops.

(** ** Segments of lists *)
Section Seg.
Context {A : Type}.
Implicit Types l : list A.

(** Elements [a] to [b - 1] of [l]. *)
Definition seg (a b : nat) l : list A := take (b - a) (drop a l).

Lemma seg_cons a b l x : l !! a = Some x → (a < b)%nat → seg a b l = x :: seg (S a) b l.
Proof.
  intros Hx Hab. unfold seg. rewrite (drop_S l x a Hx).
  by replace (b - a)%nat with (S (b - S a)) by lia.
Qed.

Lemma seg_nil a b l : (b ≤ a)%nat → seg a b l = [].
Proof. intros. unfold seg. by replace (b - a)%nat with 0%nat by lia. Qed.

Lemma seg_insert_out a b i x l : (i < a ∨ b ≤ i)%nat → seg a b (<[i := x]> l) = seg a b l.
Proof.
  intros Hi. unfold seg. destruct Hi.
  - by rewrite drop_insert_lt by lia.
  - destruct (decide (i < a)%nat); [by rewrite drop_insert_lt by lia|].
    rewrite drop_insert_ge by lia. by rewrite take_insert_ge by lia.
Qed.

Lemma seg_app a b c l : (a ≤ b ≤ c)%nat → seg a c l = seg a b l ++ seg b c l.
Proof.
  intros. unfold seg.
  replace (c - a)%nat with ((b - a) + (c - b))%nat by lia.
  rewrite <- take_take_drop. f_equal. f_equal. rewrite drop_drop. f_equal. lia.
Qed.

Lemma seg_0 b l : seg 0 b l = take b l.
Proof. unfold seg. rewrite Nat.sub_0_r. done. Qed.
End Seg.

(** ** Slots

    A slot pairs the two arrays; [entries] are the occupied ones. *)
Abbreviation slot := (option dtq_mpiqentry * Z)%type.
Abbreviation entry := (dtq_mpiqentry * Z)%type.

Definition slot_entry (x : slot) : option entry := (λ q, (q, x.2)) <$> x.1.
Definition entries (l : list slot) : list entry := omap slot_entry l.
Definition slots (m : mpimtsmgr) : list slot := zip (mqes m) (reqs m).

(** The sends the table holds. *)
Definition table (m : mpimtsmgr) : list entry :=
  entries (take (Z.to_nat (nused m)) (slots m)).

Lemma entries_app l k : entries (l ++ k) = entries l ++ entries k.
Proof. apply omap_app. Qed.

Lemma entries_length l : (length (entries l) ≤ length l)%nat.
Proof. induction l as [|[[q|] r] l IH]; simpl; lia. Qed.

Lemma entries_full l : length (entries l) = length l → Forall (λ x, is_Some x.1) l.
Proof.
  induction l as [|[[q|] r] l IH]; simpl; [constructor| |].
  - intros ?. constructor; [done|apply IH; lia].
  - intros ?. pose proof (entries_length l). lia.
Qed.

Lemma full_entries l : Forall (λ x, is_Some x.1) l → length (entries l) = length l.
Proof. induction 1 as [|[[q|] r] l [? ?] Hl IH]; simplify_eq/=; lia. Qed.

Lemma entries_insert_hole l i r q r' :
  l !! i = Some (None, r) → entries (<[i := (Some q, r')]> l) ≡ₚ (q, r') :: entries l.
Proof.
  intros Hi. rewrite <- (take_drop_middle l i _ Hi) at 2.
  rewrite insert_take_drop by (by eapply lookup_lt_Some).
  rewrite !entries_app. simpl. by rewrite Permutation_middle.
Qed.

(** The slot a scan for an entry stops at. *)
Lemma seg_first_entry (l : list slot) a b :
  (b ≤ length l)%nat → (0 < length (entries (seg a b l)))%nat →
  ∃ p q r, (a ≤ p < b)%nat ∧ l !! p = Some (Some q, r) ∧
    (∀ j x, (a ≤ j < p)%nat → l !! j = Some x → x.1 = None) ∧
    entries (seg a b l) = (q, r) :: entries (seg (S p) b l).
Proof.
  intros Hb. remember (b - a)%nat as n eqn:Hn. revert a Hn.
  induction n as [|n IH]; intros a Hn He; [rewrite seg_nil in He by lia; simpl in He; lia|].
  destruct (lookup_lt_is_Some_2 l a) as [[[q|] r] Hx]; [lia| |].
  - exists a, q, r. split_and!; [lia|lia|done|intros; lia|].
    by rewrite (seg_cons a b l _ Hx) by lia.
  - rewrite (seg_cons a b l _ Hx) in He |- * by lia. simpl in *.
    destruct (IH (S a)) as (p&q&r'&?&?&Hp&?); [lia|done|].
    exists p, q, r'. split_and!; [lia|lia|done| |done].
    intros j x Hj Hjx. destruct (decide (j = a)) as [->|]; [by simplify_eq|].
    apply (Hp j x); [lia|done].
Qed.

Lemma slots_lookup m i q r :
  slots m !! i = Some (q, r) ↔ mqes m !! i = Some q ∧ reqs m !! i = Some r.
Proof.
  unfold slots. rewrite lookup_zip_with_Some. split.
  - intros (?&?&?&?&?). by simplify_eq.
  - intros []. eauto.
Qed.

Lemma aset_nat {A} (l : list A) (i : nat) x : aset l (Z.of_nat i) x = <[i := x]> l.
Proof. unfold aset. by rewrite Nat2Z.id. Qed.

Lemma wp_rd {A} (l : list A) i x (Q : A → mpit → Prop) s :
  aget l i = Some x → Q x s → wp (rd l i) Q s.
Proof. apply wp_get_some. Qed.

Lemma wp_onrk {A} (m : M dtst A) (Q : A → mpit → Prop) s :
  wp m (λ a d, Q a (s <| rk := d |>)) (rk s) → wp (onrk m) Q s.
Proof. unfold wp, onrk. by destruct (m (rk s)) as [[a d]|]. Qed.

(** The state after [dtq_send_release]. *)
Definition send_released (q : dtq_mpiqentry) (d : dtst) : dtst :=
  match dtq_send_release q d with Ok (_, d') => d' | Crash _ => d end.

Lemma wp_done q (Q : unit → mpit → Prop) s :
  Q tt (s <| rk := send_released q (rk s) |>) → wp (mpimts_done (Some q)) Q s.
Proof. intros HQ. apply wp_bind, (wp_get_some _ _ q); [done|]. by apply wp_onrk. Qed.

(** ** Closing the holes *)

Lemma pull_scan_spec n a p q (Q : Z → mpit → Prop) s :
  (a ≤ p)%nat → (p < a + n)%nat → Z.of_nat p < nused (mts s) →
  (∀ j, (a ≤ j < p)%nat → mqes (mts s) !! j = Some None) →
  mqes (mts s) !! p = Some (Some q) →
  Q (Z.of_nat p) s → wp (pull_scan n (Z.of_nat a)) Q s.
Proof.
  revert a. induction n as [|n IH]; intros a Hap Hn Hu Hnone Hp HQ; [lia|].
  simpl. apply wp_bind, wp_gets. destruct (Z.ltb_spec (Z.of_nat a) (nused (mts s))); [|lia].
  destruct (decide (a = p)) as [->|].
  - apply wp_bind, (wp_rd _ _ (Some q)); [by rewrite aget_nat|]. by apply wp_ret.
  - apply wp_bind, (wp_rd _ _ None); [rewrite aget_nat; apply Hnone; lia|].
    replace (Z.of_nat a + 1) with (Z.of_nat (S a)) by lia.
    apply IH; try done; [lia|lia|]. intros j Hj. apply Hnone. lia.
Qed.

(** The state with other slot arrays. *)
Definition with_slots (a : list (option dtq_mpiqentry)) (b : list Z) (s : mpit) : mpit :=
  s <| mts ::= (λ m, m <| mqes := a |> <| reqs := b |>) |>.

Lemma slots_put i q r s :
  slots (mts (with_slots (<[i := q]> (mqes (mts s))) (<[i := r]> (reqs (mts s))) s)) =
  <[i := (q, r)]> (slots (mts s)).
Proof. unfold slots. simpl. symmetry. apply (insert_zip_with pair). Qed.

(** What the loop leaves in the arrays: the first [new] slots hold the entries
    they held and those from [pull] on. *)
Definition compacted (lcv pull nu new : nat) (s s' : mpit) : Prop :=
  ∃ a b, s' = with_slots a b s ∧ length a = length (mqes (mts s)) ∧
    length b = length (reqs (mts s)) ∧
    entries (take new (slots (mts s'))) ≡ₚ
      entries (take new (slots (mts s))) ++ entries (seg pull nu (slots (mts s))) ∧
    Forall (λ x, is_Some x.1) (seg lcv new (slots (mts s'))) ∧
    take lcv (slots (mts s')) = take lcv (slots (mts s)).

Lemma seg_length_entries (l : list slot) a b : (length (entries (seg a b l)) ≤ b - a)%nat.
Proof.
  etransitivity; [apply entries_length|]. unfold seg. rewrite length_take. lia.
Qed.

(** One pass at a hole: the first entry from [pull] on moves into it. *)
Lemma compacted_move (lcv pull nu new p : nat) r q r' s s' :
  (lcv < new)%nat → (new ≤ p)%nat →
  slots (mts s) !! lcv = Some (None, r) → slots (mts s) !! p = Some (Some q, r') →
  entries (seg pull nu (slots (mts s))) = (q, r') :: entries (seg (S p) nu (slots (mts s))) →
  let s1 := with_slots (<[lcv := Some q]> (mqes (mts s))) (<[lcv := r']> (reqs (mts s))) s in
  compacted (S lcv) (S p) nu new s1 s' → compacted lcv pull nu new s s'.
Proof.
  intros Hlcv Hp Hslot Hslotp Hent s1 (a&b&Hs'&Ha&Hb&Hperm&Hall&Htk).
  pose proof (slots_put lcv (Some q) r' s) as Hs1. fold s1 in Hs1.
  assert (slots (mts s') !! lcv = Some (Some q, r')) as Hslot'.
  { rewrite <- (lookup_take_lt _ (S lcv) lcv) by lia. rewrite Htk.
    rewrite lookup_take_lt by lia. rewrite Hs1.
    apply list_lookup_insert_eq. by eapply lookup_lt_Some. }
  exists a, b. simpl in Ha, Hb. rewrite length_insert in Ha; rewrite length_insert in Hb.
  split_and!; [by rewrite Hs'|done|done| | |].
  - rewrite Hperm, Hs1, Hent, seg_insert_out by lia.
    rewrite <- (seg_0 new (<[_:=_]> _)), <- seg_0.
    rewrite !(seg_app 0 lcv new) by lia. rewrite !entries_app.
    rewrite seg_insert_out by lia.
    assert (<[lcv := (Some q, r')]> (slots (mts s)) !! lcv = Some (Some q, r')) as Hi.
    { apply list_lookup_insert_eq. by eapply lookup_lt_Some. }
    rewrite (seg_cons lcv new _ _ Hi), (seg_cons lcv new _ _ Hslot) by lia.
    rewrite seg_insert_out by lia. simpl. rewrite <- !app_assoc.
    apply Permutation_app_head, Permutation_middle.
  - rewrite (seg_cons lcv new _ _ Hslot') by lia. by constructor.
  - apply (f_equal (take lcv)) in Htk. rewrite !take_take, !Nat.min_l in Htk by lia.
    by rewrite Htk, Hs1, take_insert_ge by lia.
Qed.

Lemma compact_spec n : ∀ (lcv pull nu new : nat) s,
  nused (mts s) = Z.of_nat nu →
  new = (lcv + n)%nat → (new ≤ pull ≤ nu)%nat →
  (nu ≤ length (mqes (mts s)))%nat → (nu ≤ length (reqs (mts s)))%nat →
  (n = length (entries (seg lcv new (slots (mts s)))) +
       length (entries (seg pull nu (slots (mts s)))))%nat →
  wp (compact_loop n (Z.of_nat lcv) (Z.of_nat pull) (Z.of_nat new))
    (λ r s', r = Z.of_nat new ∧ compacted lcv pull nu new s s') s.
Proof.
  induction n as [|n IH]; intros lcv pull nu new s Hu Hnew Hpull Hq Hr Hcount.
  - apply wp_ret. split; [done|]. exists (mqes (mts s)), (reqs (mts s)).
    split_and!; [by destruct s as [? []]|done|done| | |done].
    + destruct (entries (seg pull nu _)) eqn:E; [by rewrite app_nil_r|simpl in Hcount; lia].
    + rewrite seg_nil by lia. constructor.
  - simpl. apply wp_bind, wp_gets.
    destruct (lookup_lt_is_Some_2 (mqes (mts s)) lcv) as [q Hlq]; [lia|].
    destruct (lookup_lt_is_Some_2 (reqs (mts s)) lcv) as [r Hlr]; [lia|].
    assert (slots (mts s) !! lcv = Some (q, r)) as Hslot by by apply slots_lookup.
    apply wp_bind, (wp_rd _ _ q); [by rewrite aget_nat|].
    rewrite (seg_cons lcv new _ _ Hslot) in Hcount by lia.
    replace (Z.of_nat lcv + 1) with (Z.of_nat (S lcv)) by lia.
    destruct q as [q|]; simpl in Hcount.
    + eapply wp_mono; [apply (IH (S lcv) pull nu new s); done || lia|].
      intros r' s' [-> (a&b&Hs'&?&?&?&Hall&Htk)]. split; [done|].
      assert (slots (mts s') !! lcv = Some (Some q, r)) as Hslot'.
      { rewrite <- (lookup_take_lt _ (S lcv) lcv) by lia. rewrite Htk.
        by rewrite lookup_take_lt by lia. }
      exists a, b. split_and!; try done.
      * rewrite (seg_cons lcv new _ _ Hslot') by lia. constructor; [done|]. done.
      * apply (f_equal (take lcv)) in Htk. by rewrite !take_take, !Nat.min_l in Htk by lia.
    + pose proof (seg_length_entries (slots (mts s)) (S lcv) new).
      destruct (seg_first_entry (slots (mts s)) pull nu) as (p&q&r'&?&Hp&Hnone&Hent).
      { unfold slots. rewrite length_zip_with. lia. }
      { lia. }
      pose proof (proj1 (slots_lookup _ _ _ _) Hp) as [Hpq Hpr].
      apply wp_bind, (pull_scan_spec _ _ p q); try done; [lia|lia|lia| |].
      { intros j Hj. destruct (lookup_lt_is_Some_2 (slots (mts s)) j) as [[x y] Hx].
        { unfold slots. rewrite length_zip_with. lia. }
        pose proof (Hnone j _ Hj Hx) as E. simpl in E. subst x. by apply slots_lookup in Hx as []. }
      destruct (Z.leb_spec (nused (mts s)) (Z.of_nat p)); [lia|].
      apply wp_bind, (wp_rd _ _ (Some q)); [by rewrite aget_nat|].
      apply wp_bind, (wp_rd _ _ r'); [by rewrite aget_nat|].
      apply wp_bind, (wp_rd _ _ r); [by rewrite aget_nat|].
      apply wp_bind, wp_modify. simpl. rewrite !aset_nat.
      replace (Z.of_nat p + 1) with (Z.of_nat (S p)) by lia.
      set (s1 := with_slots (<[lcv := Some q]> (mqes (mts s))) (<[lcv := r']> (reqs (mts s))) s).
      pose proof (slots_put lcv (Some q) r' s) as Hs1. fold s1 in Hs1.
      eapply wp_mono; [apply (IH (S lcv) (S p) nu new s1)|].
      all: try (simpl; rewrite ?length_insert; done || lia).
      * change (slots _) with (slots (mts s1)). rewrite Hs1, !seg_insert_out by lia.
        rewrite Hent in Hcount. simpl in Hcount. lia.
      * intros x s' [-> Hc]. split; [done|].
        eapply (compacted_move lcv pull nu new p r q r'); done || lia.
Qed.

(** ** Releasing the completed entries *)

(** [a] with every index of [l] set to [x]. *)
Definition set_all {A} (l : list Z) (x : A) (a : list A) : list A :=
  foldl (λ a i, aset a i x) a l.

Definition all_released (qs : list dtq_mpiqentry) (d : dtst) : dtst :=
  foldl (λ d q, send_released q d) d qs.

Lemma length_set_all {A} l (x : A) a : length (set_all l x a) = length a.
Proof. revert a. induction l as [|i l IH]; intros a; simpl; [done|]. by rewrite IH, length_aset. Qed.

Lemma lookup_set_all {A} l (x : A) a i :
  Forall (λ j, 0 ≤ j) l → (i < length a)%nat →
  set_all l x a !! i = if decide (Z.of_nat i ∈ l) then Some x else a !! i.
Proof.
  intros Hl. revert a. induction Hl as [|j l Hj Hl IH]; intros a Hi; simpl; [done|].
  rewrite IH by by rewrite length_aset.
  destruct (decide (Z.of_nat i = j)) as [<-|Hij].
  - rewrite aset_nat, list_lookup_insert_eq by done.
    repeat case_decide; try done; exfalso; rewrite ?elem_of_cons in *; tauto.
  - unfold aset. rewrite list_lookup_insert_ne by lia.
    repeat case_decide; try done; exfalso; rewrite ?elem_of_cons in *; tauto.
Qed.

Lemma wp_read_status (b : bool) (l : list Z) i (Q : unit → mpit → Prop) s :
  0 ≤ i < Z.of_nat (length l) → Q tt s → wp (whenM b (rd l i ;;; retM tt)) Q s.
Proof.
  intros Hi HQ. apply wp_when; intros _; [|done].
  destruct (aget_is_Some l i Hi) as [x Hx]. by apply wp_bind, (wp_rd _ _ x).
Qed.

Lemma release_spec rv l : ∀ qs lcv fh s,
  (∀ j i, l !! j = Some i → aget (idxout (mts s)) (lcv + Z.of_nat j) = Some i) →
  NoDup l → Forall2 (λ i q, aget (mqes (mts s)) i = Some (Some q)) l qs →
  Forall (λ i, i < Z.of_nat (length (statout (mts s)))) l →
  wp (release_loop rv (length l) lcv fh)
    (λ f s', f ≤ fh ∧ Forall (λ i, f ≤ i) l ∧ (f = fh ∨ f ∈ l) ∧
       s' = s <| rk := all_released qs (rk s) |>
              <| mts ::= (λ m, m <| mqes := set_all l None (mqes (mts s)) |>) |>) s.
Proof.
  induction l as [|i l IH]; intros qs lcv fh s Hidx Hnd Hqs Hst.
  - apply Forall2_nil_inv_l in Hqs as ->. apply wp_ret. split_and!; [lia|done|by left|].
    by destruct s as [? [] ? ? ? ?].
  - apply Forall2_cons_inv_l in Hqs as (q&qs'&Hq&Hqs&->).
    apply NoDup_cons in Hnd as [Hi Hnd]. apply Forall_cons in Hst as [Hsti Hst].
    simpl. apply wp_bind, wp_gets.
    apply wp_bind, (wp_rd _ _ i). { rewrite <- (Hidx 0%nat i eq_refl). f_equal. lia. }
    apply wp_bind, (wp_rd _ _ (Some q)); [done|]. apply wp_bind, wp_modify, wp_bind.
    assert (0 ≤ i < Z.of_nat (length (mqes (mts s)))) as Hir by by eapply aget_Some_range.
    apply wp_read_status; [lia|]. apply wp_bind, wp_done.
    set (fh' := if i <? fh then i else fh).
    assert (fh' ≤ fh ∧ fh' ≤ i ∧ (fh' = fh ∨ fh' = i)) as (?&?&Hfh).
    { unfold fh'. destruct (Z.ltb_spec i fh); lia. }
    eapply wp_mono; [apply (IH qs')|]; simpl.
    + intros j k Hj. rewrite <- (Hidx (S j) k Hj). f_equal. lia.
    + done.
    + apply Forall2_same_length_lookup in Hqs as [Hlen Hqs].
      apply Forall2_same_length_lookup. split; [done|]. intros j k y Hk Hy.
      rewrite aget_aset_ne; [by eapply Hqs|lia|]. intros ->. apply Hi. by eapply list_elem_of_lookup_2.
    + done.
    + intros f s' (?&?&Hf&->). split_and!; [lia|by constructor; [lia|]| |done].
      destruct Hf as [->|]; [|by right; right].
      destruct Hfh as [->| ->]; [by left|by right; left].
Qed.

(** ** What remains

    [pick_idx] and [drop_idx]: the elements at the given indices, and the
    others in their order. *)
Definition pick_idx {A} (idx : list Z) (tab : list A) : list A := omap (aget tab) idx.

Definition mask_idx {A} (idx : list Z) (tab : list A) : list (option A) :=
  imap (λ i x, if decide (Z.of_nat i ∈ idx) then None else Some x) tab.

Definition drop_idx {A} (idx : list Z) (tab : list A) : list A := omap id (mask_idx idx tab).

Lemma mask_idx_lookup {A} idx (tab : list A) i :
  mask_idx idx tab !! i =
    (λ x, if decide (Z.of_nat i ∈ idx) then None else Some x) <$> tab !! i.
Proof. apply list_lookup_imap. Qed.

Lemma drop_idx_nil {A} (tab : list A) : drop_idx [] tab = tab.
Proof.
  unfold drop_idx. induction tab as [|x tab IH] using rev_ind; [done|].
  unfold mask_idx in *. rewrite imap_app, omap_app, IH. simpl. f_equal.
Qed.

Lemma drop_idx_cons {A} i idx (tab : list A) x :
  aget tab i = Some x → i ∉ idx → drop_idx idx tab ≡ₚ x :: drop_idx (i :: idx) tab.
Proof.
  intros Hx Hi. pose proof (aget_Some_range _ _ _ Hx) as Hr.
  unfold aget in Hx. destruct (Z.leb_spec 0 i); [|lia].
  assert (mask_idx idx tab !! Z.to_nat i = Some (Some x)) as Hm.
  { rewrite mask_idx_lookup, Hx. simpl. rewrite Z2Nat.id by lia. by case_decide. }
  assert (mask_idx (i :: idx) tab = <[Z.to_nat i := None]> (mask_idx idx tab)) as Hc.
  { apply list_eq. intros j. destruct (decide (j = Z.to_nat i)) as [->|Hj].
    - rewrite list_lookup_insert_eq by by eapply lookup_lt_Some.
      rewrite mask_idx_lookup, Hx. simpl. rewrite Z2Nat.id by lia.
      case_decide as Hd; [done|]. exfalso. apply Hd. by left.
    - rewrite list_lookup_insert_ne, !mask_idx_lookup by done. destruct (tab !! j); [|done].
      simpl. f_equal. assert (Z.of_nat j ≠ i) by lia.
      repeat case_decide; try done; exfalso; rewrite ?elem_of_cons in *; tauto. }
  unfold drop_idx. rewrite Hc, insert_take_drop by by eapply lookup_lt_Some.
  rewrite <- (take_drop_middle (mask_idx idx tab) _ _ Hm) at 1.
  rewrite !omap_app. simpl. by rewrite Permutation_middle.
Qed.

(** Nothing is lost and nothing duplicated. *)
Lemma pick_drop {A} idx (tab : list A) :
  NoDup idx → Forall (λ i, 0 ≤ i < Z.of_nat (length tab)) idx →
  pick_idx idx tab ++ drop_idx idx tab ≡ₚ tab.
Proof.
  induction 1 as [|i idx Hi Hnd IH]; intros Hr; [by rewrite drop_idx_nil|].
  apply Forall_cons in Hr as [Hi' Hr]. destruct (aget_is_Some tab i Hi') as [x Hx].
  etransitivity; [|apply (IH Hr)]. rewrite (drop_idx_cons i idx tab x Hx Hi).
  unfold pick_idx. simpl. rewrite Hx. apply Permutation_middle.
Qed.

Lemma length_pick {A} idx (tab : list A) :
  Forall (λ i, 0 ≤ i < Z.of_nat (length tab)) idx → length (pick_idx idx tab) = length idx.
Proof.
  induction 1 as [|i idx Hi _ IH]; [done|]. unfold pick_idx in *. simpl.
  destruct (aget_is_Some tab i Hi) as [x ->]. simpl. f_equal. apply IH.
Qed.

Lemma length_drop_idx {A} idx (tab : list A) :
  NoDup idx → Forall (λ i, 0 ≤ i < Z.of_nat (length tab)) idx →
  (length (drop_idx idx tab) + length idx = length tab)%nat.
Proof.
  intros Hnd Hr. rewrite <- (Permutation_length (pick_drop idx tab Hnd Hr)).
  rewrite length_app, length_pick by done. lia.
Qed.

(** Slots whose entries at [idx] were cleared. *)
Lemma entries_cleared idx (l T : list slot) :
  length l = length T → Forall (λ x, is_Some x.1) T →
  (∀ i x, T !! i = Some x → Z.of_nat i ∉ idx → l !! i = Some x) →
  (∀ i, (i < length T)%nat → Z.of_nat i ∈ idx → ∃ r, l !! i = Some (None, r)) →
  entries l = drop_idx idx (entries T).
Proof.
  revert l. induction T as [|[q r] T IH] using rev_ind; intros l Hlen Hall Hkeep Hclear.
  { by apply nil_length_inv in Hlen as ->. }
  rewrite length_app in Hlen. simpl in Hlen.
  destruct l as [|y l _] using rev_ind; [simpl in Hlen; lia|].
  rewrite length_app in Hlen. simpl in Hlen. assert (length l = length T) as Hl by lia.
  apply Forall_app in Hall as [Hall [Hq _]%Forall_cons]. simpl in Hq. destruct Hq as [q' ->].
  rewrite !entries_app, (IH l Hl Hall).
  - pose proof (full_entries T Hall) as HT.
    unfold drop_idx, mask_idx. rewrite imap_app, omap_app. f_equal. simpl.
    rewrite Nat.add_0_r, HT. case_decide as Hd.
    + destruct (Hclear (length T)) as [r' Hy]; [rewrite length_app; simpl; lia|done|].
      rewrite <- Hl, lookup_app_r, Nat.sub_diag in Hy by lia. by simplify_eq/=.
    + specialize (Hkeep (length T)). rewrite lookup_app_r, Nat.sub_diag in Hkeep by lia.
      specialize (Hkeep _ eq_refl Hd).
      rewrite <- Hl, lookup_app_r, Nat.sub_diag in Hkeep by lia. by simplify_eq/=.
  - intros i x Hx Hi. specialize (Hkeep i x). rewrite lookup_app_l in Hkeep by by eapply lookup_lt_Some.
    specialize (Hkeep Hx Hi). apply lookup_lt_Some in Hx. by rewrite lookup_app_l in Hkeep by lia.
  - intros i Hi Hin. destruct (Hclear i) as [r' Hy]; [rewrite length_app; lia|done|].
    rewrite lookup_app_l in Hy by lia. eauto.
Qed.

(** ** The invariant of the table *)

(** The arrays are as long as [nalloc] says (longer after a failed growth) and
    the slots in use hold entries. *)
Record mts_wf (m : mpimtsmgr) : Prop := {
  mw_used : 0 ≤ nused m ≤ nalloc m ∧ 0 < nalloc m;
  mw_mqes : nalloc m ≤ Z.of_nat (length (mqes m));
  mw_reqs : nalloc m ≤ Z.of_nat (length (reqs m));
  mw_idxout : nalloc m ≤ Z.of_nat (length (idxout m));
  mw_statout : nalloc m ≤ Z.of_nat (length (statout m));
  mw_full : Forall (λ x, is_Some x.1) (take (Z.to_nat (nused m)) (slots m)) }.

Section Documented.
Context (mp : mpi).

Definition ts_returned (t : testsome) : bool :=
  (ts_rv t =? MPI_SUCCESS) || (ts_rv t =? MPI_ERR_IN_STATUS mp).

(** [MPI_Testsome], as documented: its return value is an error class, which
    [MPI_UNDEFINED] is not; when some request is active, [outcount] is the
    number of completed ones, the indices are distinct and in range, and the
    completed requests become [MPI_REQUEST_NULL]. *)
Record testsome_ok (rq : list Z) (t : testsome) : Prop := {
  tk_len : length (ts_reqs t) = length rq;
  tk_code : ts_rv t ≠ MPI_UNDEFINED mp;
  tk_err : length (ts_err t) = length (ts_idx t);
  tk_done : ts_returned t = true → Exists (λ r, r ≠ MPI_REQUEST_NULL mp) rq →
    ts_got t = Z.of_nat (length (ts_idx t)) ∧ NoDup (ts_idx t) ∧
    Forall (λ i, 0 ≤ i < Z.of_nat (length rq)) (ts_idx t) ∧
    ts_reqs t = set_all (ts_idx t) (MPI_REQUEST_NULL mp) rq }.

(** The table's requests are active. *)
Definition reqs_active (m : mpimtsmgr) : Prop :=
  Forall (λ x, x.2 ≠ MPI_REQUEST_NULL mp) (table m).

End Documented.

(** What [MPI_Testsome] is given and the indices it completes. *)
Definition tested (s : mpit) : list Z := take (Z.to_nat (nused (mts s))) (reqs (mts s)).

Definition completed (mp : mpi) (s : mpit) : list Z :=
  let t := MPI_Testsome mp (nmpi s) (tested s) in
  if negb (nused (mts s) =? 0) && ts_returned mp t then ts_idx t else [].

Lemma table_length m : mts_wf m → length (table m) = Z.to_nat (nused m).
Proof.
  intros []. unfold table. rewrite full_entries by done.
  unfold slots. rewrite length_take, length_zip_with. lia.
Qed.

(** The slot behind an entry. *)
Lemma full_lookup (T : list slot) i x :
  Forall (λ y, is_Some y.1) T → entries T !! i = Some x ↔ T !! i = Some (Some x.1, x.2).
Proof.
  intros HT. revert i. induction HT as [|[q r] T [q' ?] HT IH]; intros i; [done|].
  simplify_eq/=. destruct i as [|i]; simpl; [|apply IH].
  destruct x as [a b]. split; intros; simplify_eq/=; done.
Qed.

Lemma table_lookup m i q r :
  mts_wf m → table m !! i = Some (q, r) ↔
  (i < Z.to_nat (nused m))%nat ∧ mqes m !! i = Some (Some q) ∧ reqs m !! i = Some r.
Proof.
  intros [? ? ? ? ? Hf]. unfold table. rewrite full_lookup by done. simpl.
  rewrite lookup_take_Some, slots_lookup. tauto.
Qed.

Lemma wf_active_exists mp m :
  mts_wf m → reqs_active mp m → 0 < nused m →
  Exists (λ r, r ≠ MPI_REQUEST_NULL mp) (take (Z.to_nat (nused m)) (reqs m)).
Proof.
  intros Hwf Ha Hu. pose proof (table_length m Hwf) as Hl.
  destruct (lookup_lt_is_Some_2 (table m) 0) as [[q r] Hx]; [lia|].
  pose proof (proj1 (table_lookup _ _ _ _ Hwf) Hx) as (?&_&Hr).
  apply Exists_exists. exists r. split.
  - apply list_elem_of_lookup. exists 0%nat. by rewrite lookup_take_lt by lia.
  - by apply (Forall_lookup_1 _ _ _ _ Ha Hx).
Qed.

(** The slots after [MPI_Testsome] and the release of what it completed. *)
Section Cleared.
Context (mp : mpi) (m : mpimtsmgr) (idx : list Z).
Context (Hwf : mts_wf m).
Context (Hidx : Forall (λ i, 0 ≤ i < nused m) idx).

Let k := Z.to_nat (nused m).
Let qs' := set_all idx None (mqes m).
Let rs' := set_all idx (MPI_REQUEST_NULL mp) (take k (reqs m)) ++ drop k (reqs m).

Lemma idx_nonneg : Forall (λ i, 0 ≤ i) idx.
Proof using All. eapply Forall_impl; [exact Hidx|]. simpl. lia. Qed.

Lemma length_cleared : length qs' = length (mqes m) ∧ length rs' = length (reqs m).
Proof using All.
  unfold qs', rs'. rewrite length_app, !length_set_all, length_take, length_drop. lia.
Qed.

Lemma cleared_lookup i q r :
  (i < k)%nat → slots m !! i = Some (q, r) →
  zip qs' rs' !! i = Some (if decide (Z.of_nat i ∈ idx) then (None, MPI_REQUEST_NULL mp)
                           else (q, r)).
Proof using All.
  intros Hi [Hq Hr]%slots_lookup. pose proof idx_nonneg.
  apply lookup_zip_with_Some. unfold qs', rs'.
  assert (i < length (take k (reqs m)))%nat.
  { rewrite length_take. apply lookup_lt_Some in Hr. lia. }
  rewrite lookup_app_l by by rewrite length_set_all.
  rewrite !lookup_set_all, lookup_take_lt; [|done..|by eapply lookup_lt_Some].
  case_decide; eauto.
Qed.

Lemma length_slots_used : length (take k (zip qs' rs')) = length (take k (slots m)).
Proof using All.
  destruct length_cleared as [H1 H2]. unfold slots.
  by rewrite !length_take, !length_zip_with, H1, H2.
Qed.

Lemma cleared_entries : entries (take k (zip qs' rs')) = drop_idx idx (table m).
Proof using All.
  apply entries_cleared; [apply length_slots_used|apply Hwf| |].
  - intros i [q r] [Hx Hi]%lookup_take_Some Hn. rewrite lookup_take_lt by done.
    rewrite (cleared_lookup i q r) by done. by case_decide.
  - intros i Hi Hin. rewrite length_take in Hi.
    destruct (lookup_lt_is_Some_2 (slots m) i) as [[q r] Hx]; [lia|].
    exists (MPI_REQUEST_NULL mp). rewrite lookup_take_lt by lia.
    rewrite (cleared_lookup i q r); [by case_decide|lia|done].
Qed.

Lemma cleared_prefix (f : nat) :
  (f ≤ k)%nat → Forall (λ i, Z.of_nat f ≤ i) idx →
  Forall (λ x, is_Some x.1) (take f (zip qs' rs')).
Proof using All.
  intros Hf Hmin. apply Forall_lookup. intros i x [Hx Hi]%lookup_take_Some.
  destruct (lookup_lt_is_Some_2 (slots m) i) as [[q r] Hs].
  { apply lookup_lt_Some in Hx. rewrite length_zip_with in Hx. unfold slots.
    rewrite length_zip_with. destruct length_cleared. lia. }
  rewrite (cleared_lookup i q r) in Hx by (done || lia). case_decide as Hd.
  - rewrite Forall_forall in Hmin. apply Hmin in Hd. lia.
  - simplify_eq. apply (Forall_lookup_1 _ _ i (q, r) (mw_full m Hwf)).
    by rewrite lookup_take_lt by (fold k; lia).
Qed.
End Cleared.

(** The compaction as a whole: the surviving entries fill the first slots. *)
Lemma close_holes (k new f : nat) s :
  nused (mts s) = Z.of_nat k → (new ≤ k)%nat →
  (k ≤ length (mqes (mts s)))%nat → (k ≤ length (reqs (mts s)))%nat →
  length (entries (take k (slots (mts s)))) = new →
  Forall (λ x, is_Some x.1) (take (f `min` new) (slots (mts s))) →
  wp (compact_loop (Z.to_nat (Z.of_nat new - Z.of_nat f)) (Z.of_nat f) (Z.of_nat new) (Z.of_nat new))
    (λ r s', r = Z.of_nat new ∧ ∃ a b, s' = with_slots a b s ∧
       length a = length (mqes (mts s)) ∧ length b = length (reqs (mts s)) ∧
       entries (take new (slots (mts s'))) ≡ₚ entries (take k (slots (mts s))) ∧
       Forall (λ x, is_Some x.1) (take new (slots (mts s')))) s.
Proof.
  intros Hu Hnk Hq Hr Hlen Hpre. remember (f `min` new)%nat as lcv eqn:Hlcv.
  assert (compact_loop (Z.to_nat (Z.of_nat new - Z.of_nat f)) (Z.of_nat f) (Z.of_nat new) (Z.of_nat new)
    = compact_loop (new - lcv) (Z.of_nat lcv) (Z.of_nat new) (Z.of_nat new)) as ->.
  { replace (Z.to_nat _) with (new - lcv)%nat by lia. destruct (decide (f ≤ new)%nat).
    - by replace lcv with f by lia.
    - by replace (new - lcv)%nat with 0%nat by lia. }
  assert (length (slots (mts s)) ≥ k)%nat as Hls by (unfold slots; rewrite length_zip_with; lia).
  assert (entries (take k (slots (mts s))) = entries (take lcv (slots (mts s))) ++
    entries (seg lcv new (slots (mts s))) ++ entries (seg new k (slots (mts s)))) as Hsplit.
  { rewrite <- !seg_0, (seg_app 0 new k), (seg_app 0 lcv new) by lia.
    by rewrite !entries_app, app_assoc. }
  eapply wp_mono; [apply (compact_spec _ lcv new k new s); try done; [lia|]|].
  - apply (f_equal length) in Hsplit. rewrite !length_app in Hsplit.
    rewrite (full_entries _ Hpre), length_take in Hsplit. lia.
  - intros r s' [-> (a&b&->&?&?&Hperm&Hall&Htk)]. split; [done|]. exists a, b.
    split_and!; [done|done|done| |].
    + rewrite Hperm, Hsplit, app_assoc. f_equiv.
      by rewrite <- seg_0, (seg_app 0 lcv new), entries_app, seg_0 by lia.
    + rewrite <- seg_0, (seg_app 0 lcv new) by lia. rewrite seg_0, Htk.
      by apply Forall_app.
Qed.

Lemma pick_entries idx m :
  mts_wf m → Forall (λ i, 0 ≤ i < nused m) idx →
  Forall2 (λ i q, aget (mqes m) i = Some (Some q)) idx (pick_idx idx (table m)).*1.
Proof.
  intros Hwf. pose proof (table_length m Hwf) as Hl.
  induction 1 as [|i idx Hi _ IH]; [constructor|].
  destruct (aget_is_Some (table m) i) as [[q r] Hx]; [lia|].
  change (pick_idx (i :: idx) (table m)) with
    (match aget (table m) i with Some y => y :: pick_idx idx (table m) | None => pick_idx idx (table m) end).
  rewrite Hx. constructor; [|exact IH]. unfold aget in *. destruct (0 <=? i); [|done].
  by apply table_lookup in Hx as (_&Hq&_).
Qed.

Lemma overlay_lookup {A} (new l : list A) j x :
  new !! j = Some x → aget (overlay new l) (0 + Z.of_nat j) = Some x.
Proof.
  intros Hj. rewrite Z.add_0_l, aget_nat. unfold overlay. by apply lookup_app_l_Some.
Qed.

Lemma overlay_length {A} (new l : list A) : (length l ≤ length (overlay new l))%nat.
Proof. unfold overlay. rewrite length_app, length_drop. lia. Qed.

(** ** [mpimts_test] *)

(** What the MPI thread's code leaves alone in the table operations. *)
Definition frame_of (s : mpit) : Z * mpit_stats_t * list mpi_event :=
  (mpit_state s, mpit_st s, mpilog s).

(** Nothing completed, or the call failed: the table keeps its entries. *)
Definition test_result (mp : mpi) (s : mpit) (r : Z) (s' : mpit) : Prop :=
  mts_wf (mts s') ∧ frame_of s' = frame_of s ∧
  (r = 0 ∧ reqs_active mp (mts s') ∧
   table (mts s') ≡ₚ drop_idx (completed mp s) (table (mts s)) ∧
   rk s' = all_released (pick_idx (completed mp s) (table (mts s))).*1 (rk s) ∨
   r = -1 ∧ (table (mts s')).*1 = (table (mts s)).*1 ∧ rk s' = rk s).

Lemma reqs_active_perm mp m idx l :
  reqs_active mp m → table l ≡ₚ drop_idx idx (table m) →
  reqs_active mp l.
Proof.
  intros Ha Hp. unfold reqs_active in *. rewrite Hp. unfold drop_idx.
  apply Forall_lookup. intros i x Hx. apply list_elem_of_lookup_2, list_elem_of_omap in Hx.
  destruct Hx as (o&Ho&Hox). unfold id in Hox. subst o.
  apply list_elem_of_lookup in Ho as [j Hj]. rewrite mask_idx_lookup in Hj.
  destruct (table m !! j) eqn:Ej; [|done]. simpl in Hj. case_decide; simplify_eq.
  by eapply (Forall_lookup_1 _ _ _ _ Ha).
Qed.

(** The table after [MPI_Testsome] has written its outputs. *)
Definition after_testsome (t : testsome) (m : mpimtsmgr) : mpimtsmgr :=
  m <| reqs := ts_reqs t ++ drop (Z.to_nat (nused m)) (reqs m) |>
    <| idxout := overlay (ts_idx t) (idxout m) |>
    <| statout := overlay (ts_err t) (statout m) |>
    <| ntestsome ::= (λ n, u64 (n + 1)) |>.

Lemma after_testsome_wf mp t m :
  mts_wf m → testsome_ok mp (take (Z.to_nat (nused m)) (reqs m)) t →
  mts_wf (after_testsome t m) ∧ (table (after_testsome t m)).*1 = (table m).*1.
Proof.
  intros Hwf [Hlen _ _ _]. rewrite length_take in Hlen. pose proof Hwf as [? ? ? ? ? Hf].
  pose proof (overlay_length (ts_idx t) (idxout m)).
  pose proof (overlay_length (ts_err t) (statout m)).
  assert (length (ts_reqs t ++ drop (Z.to_nat (nused m)) (reqs m)) = length (reqs m)) as Hrs.
  { rewrite length_app, length_drop. lia. }
  assert (mts_wf (after_testsome t m)) as Hwf'.
  { split; simpl; try lia. apply Forall_lookup. intros i [q r] [Hx Hi]%lookup_take_Some.
    apply slots_lookup in Hx as [Hq _]. simpl in *.
    destruct (lookup_lt_is_Some_2 (reqs m) i) as [r' Hr']; [lia|].
    apply (Forall_lookup_1 _ _ i (q, r') Hf). rewrite lookup_take_lt by done.
    by apply slots_lookup. }
  split; [done|]. apply list_eq. intros i. rewrite !list_lookup_fmap.
  pose proof (table_length _ Hwf) as Hl. pose proof (table_length _ Hwf') as Hl'. simpl in Hl'.
  destruct (decide (i < Z.to_nat (nused m))%nat) as [Hi|Hi].
  - destruct (lookup_lt_is_Some_2 (table m) i) as [[q r] Hx]; [lia|].
    destruct (lookup_lt_is_Some_2 (table (after_testsome t m)) i) as [[q' r'] Hx']; [lia|].
    rewrite Hx, Hx'. simpl. f_equal.
    apply table_lookup in Hx as (_&Hq&_); [|done]. apply table_lookup in Hx' as (_&Hq'&_); [|done].
    simpl in *. congruence.
  - rewrite !lookup_ge_None_2 by lia. done.
Qed.

(** The body after the release loop. *)
Lemma finish_spec mp idx f m0 s (Q : Z → mpit → Prop) :
  mts_wf m0 → NoDup idx → Forall (λ i, 0 ≤ i < nused m0) idx →
  f ∈ idx → Forall (λ i, f ≤ i) idx →
  nused (mts s) = nused m0 → nalloc (mts s) = nalloc m0 →
  mqes (mts s) = set_all idx None (mqes m0) →
  reqs (mts s) = set_all idx (MPI_REQUEST_NULL mp) (take (Z.to_nat (nused m0)) (reqs m0))
                   ++ drop (Z.to_nat (nused m0)) (reqs m0) →
  nalloc (mts s) ≤ Z.of_nat (length (idxout (mts s))) →
  nalloc (mts s) ≤ Z.of_nat (length (statout (mts s))) →
  (∀ s', mts_wf (mts s') → frame_of s' = frame_of s →
     table (mts s') ≡ₚ drop_idx idx (table m0) → rk s' = rk s → Q 0 s') →
  wp (if nused m0 <=? Z.of_nat (length idx) then
        upd_mts (λ m, m <| nused := 0 |>) ;;; retM 0
      else
        let new_nused := nused m0 - Z.of_nat (length idx) in
        n <- compact_loop (Z.to_nat (new_nused - f)) f new_nused new_nused;;
        upd_mts (λ m, m <| nused := n |>) ;;;
        retM 0) Q s.
Proof.
  intros Hwf Hnd Hidx Hf Hmin Eu Ea Eq Er Ei Es HQ.
  pose proof Hwf as [Hu Hlq Hlr _ _ _].
  destruct (length_cleared mp m0 idx Hwf Hidx) as [Hcq Hcr]. rewrite <- Eq in Hcq. rewrite <- Er in Hcr.
  pose proof (cleared_entries mp m0 idx Hwf Hidx) as Hent. rewrite <- Eq, <- Er in Hent.
  fold (slots (mts s)) in Hent.
  pose proof (proj1 (Forall_forall _ _) Hidx f Hf) as Hfr. simpl in Hfr.
  pose proof (table_length m0 Hwf) as Htl.
  assert (length (drop_idx idx (table m0)) + length idx = length (table m0))%nat as Hdl.
  { apply length_drop_idx; [done|]. eapply Forall_impl; [exact Hidx|]. simpl. lia. }
  destruct (Z.leb_spec (nused m0) (Z.of_nat (length idx))).
  - apply wp_bind, wp_modify, wp_ret, HQ; [|done| |done].
    + split; simpl; lia || constructor.
    + unfold table at 1. simpl. destruct (drop_idx idx (table m0)); [done|simpl in Hdl; lia].
  - remember (Z.to_nat (nused m0) - length idx)%nat as new eqn:Hnew.
    replace (nused m0 - Z.of_nat (length idx)) with (Z.of_nat new) by lia. cbv zeta.
    rewrite <- (Z2Nat.id f) by lia.
    apply wp_bind. eapply wp_mono; [apply (close_holes (Z.to_nat (nused m0))); try lia|].
    + rewrite Hent. lia.
    + rewrite <- (Z2Nat.id f) in Hmin by lia.
      unfold slots. rewrite Eq, Er. apply cleared_prefix; [done|done|lia|].
      eapply Forall_impl; [exact Hmin|]. simpl. lia.
    + intros r s' [-> (a&b&->&?&?&Hperm&Hall)]. apply wp_bind, wp_modify, wp_ret, HQ; [|done| |done].
      * split; simpl in *; rewrite ?Nat2Z.id; done || lia.
      * unfold table at 1. simpl. rewrite Nat2Z.id. simpl in Hperm. by rewrite Hperm, Hent.
Qed.

(** The body from the statistics on. *)
Lemma retire_spec mp t s s0 (Q : Z → mpit → Prop) :
  mts s = count_got (ts_got t) (after_testsome t (mts s0)) →
  mts_wf (mts s0) → 0 < ts_got t → ts_got t = Z.of_nat (length (ts_idx t)) →
  NoDup (ts_idx t) → Forall (λ i, 0 ≤ i < nused (mts s0)) (ts_idx t) →
  ts_reqs t = set_all (ts_idx t) (MPI_REQUEST_NULL mp)
                (take (Z.to_nat (nused (mts s0))) (reqs (mts s0))) →
  (∀ s', mts_wf (mts s') → frame_of s' = frame_of s →
     table (mts s') ≡ₚ drop_idx (ts_idx t) (table (mts s0)) →
     rk s' = all_released (pick_idx (ts_idx t) (table (mts s0))).*1 (rk s) → Q 0 s') →
  wp (m <- gets mts;;
      i0 <- rd (idxout m) 0;;
      firsthole <- release_loop (ts_rv t) (Z.to_nat (ts_got t)) 0 i0;;
      if nused m <=? ts_got t then
        upd_mts (λ m, m <| nused := 0 |>) ;;; retM 0
      else
        let new_nused := nused m - ts_got t in
        n <- compact_loop (Z.to_nat (new_nused - firsthole)) firsthole new_nused new_nused;;
        upd_mts (λ m, m <| nused := n |>) ;;;
        retM 0) Q s.
Proof.
  intros Hm Hwf Hpos Hgot Hnd Hidx Hrq HQ. pose proof Hwf as [Hu Hlq Hlr Hli Hls _].
  assert (nused (mts s) = nused (mts s0) ∧ nalloc (mts s) = nalloc (mts s0) ∧
    mqes (mts s) = mqes (mts s0) ∧
    reqs (mts s) = ts_reqs t ++ drop (Z.to_nat (nused (mts s0))) (reqs (mts s0)) ∧
    idxout (mts s) = overlay (ts_idx t) (idxout (mts s0)) ∧
    statout (mts s) = overlay (ts_err t) (statout (mts s0))) as (Eu&Ea&Eq&Er&Ei&Es).
  { rewrite Hm. unfold count_got. repeat case_match; done. }
  pose proof (overlay_length (ts_idx t) (idxout (mts s0))).
  pose proof (overlay_length (ts_err t) (statout (mts s0))).
  destruct (ts_idx t) as [|i0 idx] eqn:Eidx; [simpl in Hgot; lia|]. rewrite <- Eidx in *.
  apply wp_bind, wp_gets, wp_bind, (wp_rd _ _ i0).
  { rewrite Ei, <- (Z.add_0_l 0). apply (overlay_lookup _ _ 0). by rewrite Eidx. }
  apply wp_bind. rewrite Hgot, Nat2Z.id.
  eapply wp_mono; [apply (release_spec _ (ts_idx t) (pick_idx (ts_idx t) (table (mts s0))).*1)|].
  { intros j i Hj. rewrite Ei. by apply overlay_lookup. }
  { done. }
  { rewrite Eq. by apply pick_entries. }
  { eapply Forall_impl; [exact Hidx|]. simpl. intros. rewrite Es. lia. }
  intros f s2 (_&Hmin&Hf&Hs2). 
  assert (f ∈ ts_idx t) as Hfin by (destruct Hf as [->|]; [rewrite Eidx; left|done]).
  rewrite Eu. subst s2.
  apply (finish_spec mp (ts_idx t) f (mts s0)); simpl; try done; try lia.
  - by rewrite Eq.
  - by rewrite Er, Hrq.
  - rewrite Ea, Ei. lia.
  - rewrite Ea, Es. lia.
Qed.

(** The call of [MPI_Testsome] and its count. *)
Lemma wp_testsome {A} mp (k : testsome → M mpit A) (Q : A → mpit → Prop) s :
  let t := MPI_Testsome mp (nmpi s) (tested s) in
  wp (k t) Q (s <| nmpi := S (nmpi s) |> <| mts := after_testsome t (mts s) |>) →
  wp (t <- call_testsome mp;;
      upd_mts (λ m, m <| ntestsome ::= (λ n, u64 (n + 1)) |>) ;;; k t) Q s.
Proof. done. Qed.

Lemma mpimts_test_spec mp s :
  mts_wf (mts s) → reqs_active mp (mts s) →
  testsome_ok mp (tested s) (MPI_Testsome mp (nmpi s) (tested s)) →
  wp (mpimts_test mp) (test_result mp s) s.
Proof.
  intros Hwf Ha Hok. unfold mpimts_test. apply wp_bind, wp_gets.
  unfold test_result, completed. destruct (Z.eqb_spec (nused (mts s)) 0) as [Hz|Hz].
  { apply wp_ret. split_and!; [done|done|]. left. rewrite drop_idx_nil. done. }
  simpl negb. apply wp_testsome. remember (MPI_Testsome mp (nmpi s) (tested s)) as t eqn:Ht.
  destruct (after_testsome_wf mp t (mts s) Hwf Hok) as [Hwf' Htab].
  pose proof Hok as [_ Hcode _ Hdone]. pose proof (mw_used _ Hwf) as Hu.
  destruct (Z.eqb_spec (ts_rv t) (MPI_UNDEFINED mp)); [done|].
  rewrite <- negb_orb. fold (ts_returned mp t). rewrite andb_true_l.
  destruct (ts_returned mp t) eqn:Hret; simpl negb; cbv iota; last first.
  { apply wp_ret. split_and!; [done|done|]. by right. }
  destruct Hdone as (Hgot&Hnd&Hidx&Hrq); [done|apply wf_active_exists; done || lia|].
  assert (length (tested s) = Z.to_nat (nused (mts s))) as Hlt.
  { unfold tested. rewrite length_take. destruct Hwf. lia. }
  assert (Forall (λ i, 0 ≤ i < nused (mts s)) (ts_idx t)) as Hidx'.
  { eapply Forall_impl; [exact Hidx|]. simpl. lia. }
  destruct (Z.eqb_spec (ts_got t) 0) as [Hg|Hg].
  - destruct (ts_idx t) eqn:Ei; [|simpl in Hgot; lia]. apply wp_ret.
    split_and!; [done|done|]. left.
    assert (table (after_testsome t (mts s)) = table (mts s)) as Et.
    { unfold table, slots. simpl. rewrite Hrq. simpl. unfold tested. by rewrite take_drop. }
    rewrite drop_idx_nil. simpl mts. rewrite Et. split_and!; [done| |done|done].
    unfold reqs_active. by rewrite Et.
  - apply wp_bind, wp_modify. apply (retire_spec mp t _ s); try done; [lia|].
    intros s' Hwf2 Hfr Ht' Hr'. split_and!; [done|done|]. left.
    split_and!; [done|by eapply reqs_active_perm|done|done].
Qed.

(** ** Growing and adding *)

(** Only [malloc] was called. *)
Definition only_mallocs (d d' : dtst) : Prop :=
  (nmallocs d ≤ nmallocs d')%nat ∧ d' = d <| nmallocs := nmallocs d' |>.

Lemma only_mallocs_refl d : only_mallocs d d.
Proof. by destruct d. Qed.

Lemma only_mallocs_trans d1 d2 d3 : only_mallocs d1 d2 → only_mallocs d2 d3 → only_mallocs d1 d3.
Proof. intros [? E] [? E']. split; [lia|]. rewrite E', E. done. Qed.

Lemma take_resize_short {A} (l : list A) x k n :
  (k ≤ n)%nat → (k ≤ length l)%nat → take k (resize n x l) = take k l.
Proof. intros. rewrite take_resize_le, resize_le by lia. done. Qed.

(** A table with longer arrays and the same slots in use. *)
Lemma grown_wf m m' :
  mts_wf m → nused m' = nused m → nalloc m ≤ nalloc m' →
  nalloc m' ≤ Z.of_nat (length (mqes m')) → nalloc m' ≤ Z.of_nat (length (reqs m')) →
  nalloc m' ≤ Z.of_nat (length (idxout m')) → nalloc m' ≤ Z.of_nat (length (statout m')) →
  take (Z.to_nat (nused m)) (mqes m') = take (Z.to_nat (nused m)) (mqes m) →
  take (Z.to_nat (nused m)) (reqs m') = take (Z.to_nat (nused m)) (reqs m) →
  mts_wf m' ∧ table m' = table m.
Proof.
  intros [? ? ? ? ? Hf] Hu ? ? ? ? ? Hq Hr.
  assert (take (Z.to_nat (nused m')) (slots m') = take (Z.to_nat (nused m)) (slots m)) as Hs.
  { unfold slots. rewrite Hu. by rewrite !zip_with_take, Hq, Hr. }
  split; [split; try lia; by rewrite Hs|]. unfold table. by rewrite Hs.
Qed.

Lemma wp_realloc {A} e n (x : A) l (Q : option (list A) → mpit → Prop) s :
  Q None (s <| rk ::= (λ d, d <| nmallocs ::= S |>) |>) →
  Q (Some (resize (Z.to_nat n) x l)) (s <| rk ::= (λ d, d <| nmallocs ::= S |>) |>) →
  wp (realloc e n x l) Q s.
Proof.
  intros HN HS. unfold realloc. apply wp_bind, wp_onrk. unfold malloc, wp. simpl.
  by destruct (malloc_ok e (nmallocs (rk s))).
Qed.

(** The table operations leave everything but the table and [malloc] alone. *)
Definition tab_frame (s s' : mpit) : Prop :=
  only_mallocs (rk s) (rk s') ∧ frame_of s' = frame_of s ∧ nmpi s' = nmpi s.

Lemma mpimts_setslots_spec e mp n s :
  mts_wf (mts s) → nalloc (mts s) < n →
  wp (mpimts_setslots e mp n)
    (λ r s', mts_wf (mts s') ∧ table (mts s') = table (mts s) ∧ nused (mts s') = nused (mts s) ∧
       tab_frame s s' ∧
       (r = 0 ∧ nalloc (mts s') = n ∨ r = -1 ∧ nalloc (mts s') = nalloc (mts s))) s.
Proof.
  intros Hwf Hn. unfold mpimts_setslots. apply wp_bind, wp_gets.
  destruct (Z.leb_spec n (nalloc (mts s))); [lia|]. pose proof Hwf as [? ? ? ? ? _].
  assert (∀ {A} (x : A) l, nalloc (mts s) ≤ Z.of_nat (length l) →
    take (Z.to_nat (nused (mts s))) (resize (Z.to_nat n) x l) = take (Z.to_nat (nused (mts s))) l)
    as Hres by (intros; apply take_resize_short; lia).
  repeat (apply wp_bind; apply wp_realloc;
    [apply wp_ret | apply wp_bind, wp_modify]).
  5: apply wp_bind, wp_modify, wp_ret.
  all: apply and_assoc; split; [apply (grown_wf (mts s)); simpl; rewrite ?length_resize, ?Hres; done || lia|].
  all: split; [done|]; split; [split_and!; [split; [simpl; lia|done]|done|done]|].
  5: by left.
  all: by right.
Qed.

Lemma mts_append_spec mqe req s :
  mts_wf (mts s) → nused (mts s) < nalloc (mts s) →
  wp (mts_append mqe req)
    (λ r s', r = 0 ∧ mts_wf (mts s') ∧ table (mts s') = table (mts s) ++ [(mqe, req)] ∧
       nused (mts s') = nused (mts s) + 1 ∧ nalloc (mts s') = nalloc (mts s) ∧
       tab_frame s s') s.
Proof.
  intros Hwf Hlt. pose proof Hwf as [? ? ? ? ? Hf]. unfold mts_append.
  destruct (aget_is_Some (mqes (mts s)) (nused (mts s))) as [q Hq]; [lia|].
  destruct (aget_is_Some (reqs (mts s)) (nused (mts s))) as [r Hr]; [lia|].
  apply wp_bind, wp_gets, wp_bind, (wp_rd _ _ q); [done|].
  apply wp_bind, (wp_rd _ _ r); [done|]. apply wp_bind, wp_modify, wp_ret. simpl.
  set (k := Z.to_nat (nused (mts s))).
  assert (take (S k) (zip (aset (mqes (mts s)) (nused (mts s)) (Some mqe))
      (aset (reqs (mts s)) (nused (mts s)) req)) = take k (slots (mts s)) ++ [(Some mqe, req)]) as Hs.
  { unfold aset, slots. fold k. rewrite <- insert_zip_with. erewrite take_S_r.
    2: { apply list_lookup_insert_eq. rewrite length_zip_with. lia. }
    by rewrite take_insert_ge by lia. }
  assert (Z.to_nat (nused (mts s) + 1) = S k) as Hk by lia.
  split_and!; [done| | |done|done|].
  - split; simpl; rewrite ?length_aset; try lia. unfold slots. simpl. rewrite Hk, Hs.
    apply Forall_app. split; [done|]. by repeat constructor.
  - unfold table, slots at 1. simpl. rewrite Hk, Hs. apply entries_app.
  - split_and!; [apply only_mallocs_refl|done|done].
Qed.

Lemma mpimts_add_spec e mp mqe req s :
  mts_wf (mts s) → nused (mts s) < 2 ^ 30 →
  wp (mpimts_add e mp mqe req)
    (λ r s', mts_wf (mts s') ∧ tab_frame s s' ∧
       (r = 0 ∧ table (mts s') = table (mts s) ++ [(mqe, req)] ∨
        r = -1 ∧ table (mts s') = table (mts s))) s.
Proof.
  intros Hwf Hb. pose proof (mw_used _ Hwf) as Hu. unfold mpimts_add. apply wp_bind, wp_gets.
  destruct (Z.eqb_spec (nused (mts s)) (nalloc (mts s))) as [He|He].
  - assert (int_ok (nalloc (mts s) * 2) = true) as ->.
    { unfold int_ok. apply andb_true_iff. lia. }
    apply wp_bind. eapply wp_mono; [apply mpimts_setslots_spec; [done|lia]|].
    intros r s1 (Hwf1&Ht1&Hu1&(Hm1&Hfr1&Hn1)&Hr).
    destruct Hr as [[-> Ha]|[-> Ha]]; simpl.
    + eapply wp_mono; [apply mts_append_spec; [done|lia]|].
      intros r s2 (->&Hwf2&Ht2&_&_&(Hm2&Hfr2&Hn2)). split; [done|]. rewrite Ht1 in Ht2.
      split; [|by left]. split_and!; [|congruence|congruence].
      by eapply only_mallocs_trans.
    + apply wp_ret. split; [done|]. split; [done|]. by right.
  - eapply wp_mono; [apply mts_append_spec; [done|lia]|].
    intros r s2 (->&?&?&_&_&?). split_and!; [done|done|]. by left.
Qed.

Lemma mpimts_init_spec e mp n s :
  0 < n →
  wp (mpimts_init e mp n)
    (λ r s', tab_frame s s' ∧ table (mts s') = [] ∧
       (r = 0 ∧ mts_wf (mts s') ∧ nalloc (mts s') = n ∨ r = -1 ∧ mts s' = MPIMTSMGR_INIT)) s.
Proof.
  intros Hn. unfold mpimts_init, mpimts_setslots. apply wp_bind, wp_modify, wp_bind, wp_bind, wp_gets.
  simpl. destruct (Z.leb_spec n 0); [lia|].
  repeat (apply wp_bind; apply wp_realloc; [apply wp_ret | apply wp_bind, wp_modify]).
  5: apply wp_bind, wp_modify, wp_ret.
  1-4: apply wp_bind, wp_modify, wp_ret.
  all: split; [split_and!; [split; [simpl; lia|done]|done|done]|]; split; [done|].
  5: left; split_and!; [done| |done]; split; simpl; rewrite ?length_resize; lia || constructor.
  all: by right.
Qed.

(** ** Finalising *)

Definition request_frees (mp : mpi) (tab : list entry) : list mpi_event :=
  EvRequestFree <$> filter (λ r, r ≠ MPI_REQUEST_NULL mp) tab.*2.

Lemma request_frees_cons mp q r tab :
  request_frees mp ((q, r) :: tab) =
    (if r =? MPI_REQUEST_NULL mp then [] else [EvRequestFree r]) ++ request_frees mp tab.
Proof.
  unfold request_frees. rewrite fmap_cons. simpl. destruct (Z.eqb_spec r (MPI_REQUEST_NULL mp)).
  - by rewrite filter_cons_False by tauto.
  - by rewrite filter_cons_True by done.
Qed.
#[global] Arguments request_frees : simpl never.

Lemma reqs_put_wf m i x :
  mts_wf m →
  let m' := m <| reqs ::= (λ l, aset l (Z.of_nat i) x) |> in
  mts_wf m' ∧ drop (S i) (table m') = drop (S i) (table m).
Proof.
  intros Hwf m'. pose proof Hwf as [? ? ? ? ? Hf].
  assert (mts_wf m') as Hwf'.
  { split; simpl; rewrite ?length_aset; try lia.
    apply Forall_lookup. intros j [q r] [Hx Hj]%lookup_take_Some.
    apply slots_lookup in Hx as [Hq Hr]. simpl in *.
    destruct (lookup_lt_is_Some_2 (reqs m) j) as [r' Hr'].
    { apply lookup_lt_Some in Hr. by rewrite length_aset in Hr. }
    apply (Forall_lookup_1 _ _ j (q, r') Hf). rewrite lookup_take_lt by done.
    by apply slots_lookup. }
  split; [done|]. apply list_eq. intros j. rewrite !lookup_drop. apply option_eq. intros [q r].
  rewrite !table_lookup by done. simpl. by rewrite aset_nat, list_lookup_insert_ne by lia.
Qed.

Lemma finalize_loop_spec mp n : ∀ i s,
  mts_wf (mts s) → (i + n = Z.to_nat (nused (mts s)))%nat →
  wp (forM (seq i n) (finalize_slot mp))
    (λ _ s', rk s' = all_released (drop i (table (mts s))).*1 (rk s) ∧
       mpilog s' = mpilog s ++ request_frees mp (drop i (table (mts s))) ∧
       mpit_state s' = mpit_state s ∧ mpit_st s' = mpit_st s ∧ nmpi s' = nmpi s) s.
Proof.
  induction n as [|n IH]; intros i s Hwf Hn; pose proof (table_length _ Hwf) as Hl.
  - simpl. apply wp_ret. rewrite drop_ge by lia. by rewrite app_nil_r.
  - destruct (lookup_lt_is_Some_2 (table (mts s)) i) as [[q r] Hx]; [lia|].
    pose proof (proj1 (table_lookup _ _ _ _ Hwf) Hx) as (_&Hq&Hr).
    rewrite (drop_S _ _ _ Hx). simpl. unfold finalize_slot at 1.
    apply wp_bind, wp_bind, wp_gets, wp_bind, (wp_rd _ _ r); [by rewrite aget_nat|].
    apply wp_bind, wp_when; intros Hnull.
    + apply wp_bind, wp_modify, wp_modify.
      apply wp_bind, (wp_rd _ _ (Some q)); [by rewrite aget_nat|]. apply wp_done.
      destruct (reqs_put_wf (mts s) i (MPI_REQUEST_NULL mp) Hwf) as [Hwf' Hd].
      eapply wp_mono; [apply (IH (S i)); [done|simpl; lia]|].
      cbv beta. intros _ s' (Hk&Hlog&?&?&?). split_and!; try done.
      * etransitivity; [exact Hk|]. simpl in Hd. simpl. by rewrite Hd.
      * etransitivity; [exact Hlog|]. simpl in Hd. simpl. rewrite Hd, <- app_assoc.
        rewrite request_frees_cons. by destruct (r =? MPI_REQUEST_NULL mp).
    + apply wp_bind, (wp_rd _ _ (Some q)); [by rewrite aget_nat|]. apply wp_done.
      eapply wp_mono; [apply (IH (S i)); [done|simpl; lia]|].
      cbv beta. intros _ s' (Hk&Hlog&?&?&?). split_and!; try done.
      etransitivity; [exact Hlog|]. simpl. rewrite request_frees_cons.
      by destruct (r =? MPI_REQUEST_NULL mp).
Qed.

Lemma mpimts_finalize_spec mp s :
  mts_wf (mts s) →
  wp (mpimts_finalize mp)
    (λ _ s', mts s' = MPIMTSMGR_INIT ∧ rk s' = all_released (table (mts s)).*1 (rk s) ∧
       mpilog s' = mpilog s ++ request_frees mp (table (mts s)) ∧
       mpit_state s' = mpit_state s ∧ mpit_st s' = mpit_st s ∧ nmpi s' = nmpi s) s.
Proof.
  intros Hwf. unfold mpimts_finalize. apply wp_bind, wp_gets, wp_bind.
  eapply wp_mono; [apply (finalize_loop_spec mp _ 0); done|].
  intros [] s' H. rewrite drop_0 in H. by apply wp_bind, wp_modify, wp_modify.
Qed.

Lemma completed_ok mp s :
  mts_wf (mts s) → reqs_active mp (mts s) →
  testsome_ok mp (tested s) (MPI_Testsome mp (nmpi s) (tested s)) →
  NoDup (completed mp s) ∧
  Forall (λ i, 0 ≤ i < Z.of_nat (length (table (mts s)))) (completed mp s).
Proof.
  intros Hwf Ha [_ _ _ Hdone]. unfold completed. pose proof (mw_used _ Hwf).
  destruct (Z.eqb_spec (nused (mts s)) 0); simpl; [split; constructor|].
  destruct (ts_returned mp _); [|split; constructor].
  destruct Hdone as (_&Hnd&Hr&_); [done|apply wf_active_exists; done || lia|].
  split; [done|]. eapply Forall_impl; [exact Hr|]. simpl. intros i Hi.
  rewrite (table_length _ Hwf). unfold tested in Hi. rewrite length_take in Hi. lia.
Qed.

(** ** A library that meets the documentation

    It completes the first request if it is active; every probe finds a
    message of 16 bytes from rank 1. *)
Definition demo_testsome (rq : list Z) : testsome :=
  match rq with
  | r :: _ => if r =? 0 then Testsome 0 0 [] [] rq else Testsome 0 1 [0] [0] (aset rq 0 0)
  | [] => Testsome 0 0 [] [] []
  end.

Definition demo_mpi : mpi :=
  Mpi (-32766) 17 0 (λ _, demo_testsome) (λ n _, (0, Z.of_nat n + 1))
    (λ _, (0, true, MpiStatus 1 0)) (λ _ _, (0, 16))
    (λ _ _ k, (0, k, Frame 7 (BDetach (Dthread 0 1)))) None 0.

Lemma demo_testsome_ok rq : testsome_ok demo_mpi rq (demo_testsome rq).
Proof.
  destruct rq as [|r rq].
  { split; simpl; try done. intros _ Hex. by inversion Hex. }
  simpl. destruct (Z.eqb_spec r 0) as [->|Hr]; split; simpl; try done.
  - intros _ _. split_and!; [done|constructor|constructor|done].
  - intros _ _. split_and!; [done| | |done].
    + apply NoDup_singleton.
    + repeat constructor; lia.
Qed.

(** ** Results *)

(** C27. [mpimts_test] retires exactly the sends that [MPI_Testsome] reports.
    It returns without a fault and keeps the table well-formed; after a call
    that MPI did not fail, the entries left are, up to their order, those whose
    indices were not reported, each still with its own request, and the
    reported ones were released once each, in order; after a failed call the
    table keeps its entries and nothing is released. *)
Theorem mpimts_test_retires (mp : mpi) (s : mpit)
    (Hwf : mts_wf (mts s)) (Ha : reqs_active mp (mts s))
    (Hok : testsome_ok mp (tested s) (MPI_Testsome mp (nmpi s) (tested s))) :
  wp (mpimts_test mp) (λ r s', mts_wf (mts s') ∧
    (r = 0 ∧ table (mts s') ≡ₚ drop_idx (completed mp s) (table (mts s)) ∧
     rk s' = all_released (pick_idx (completed mp s) (table (mts s))).*1 (rk s) ∨
     r = -1 ∧ (table (mts s')).*1 = (table (mts s)).*1 ∧ rk s' = rk s)) s.
Proof.
  eapply wp_mono; [by apply mpimts_test_spec|].
  intros r s' (?&_&[(->&_&?&?)|?]); split; [done|by left|done|by right].
Qed.

(** A table of three sends in four slots. *)
Definition demo_mqe_n (n : nat) : dtq_mpiqentry := Mqe n (Frame 0 (BOther 0)) 16 1.
Definition demo_tab : mpit :=
  Mpit (demo_st <| dtq ::= (λ q, q <| mpindequeuedsends := 3 |>) |>)
    (Mts 4 3 0 0 0 0 [Some (demo_mqe_n 1); Some (demo_mqe_n 2); Some (demo_mqe_n 3); None]
       [11; 12; 13; 0] [0; 0; 0; 0] [0; 0; 0; 0])
    2 mpit_stats_zero 0 [].

Lemma demo_tab_wf : mts_wf (mts demo_tab).
Proof. split; simpl; try lia. repeat constructor; eauto. Qed.

Example demo_tab_test :
  match mpimts_test demo_mpi demo_tab with
  | Ok (r, s') => r = 0 ∧ table (mts s') = [(demo_mqe_n 3, 13); (demo_mqe_n 2, 12)]
  | Crash _ => False
  end.
Proof. by vm_compute. Qed.

Lemma mpimts_test_retires_witness :
  wp (mpimts_test demo_mpi) (λ r s', mts_wf (mts s') ∧
    (r = 0 ∧ table (mts s') ≡ₚ drop_idx (completed demo_mpi demo_tab) (table (mts demo_tab)) ∧
     rk s' = all_released (pick_idx (completed demo_mpi demo_tab) (table (mts demo_tab))).*1
               (rk demo_tab) ∨
     r = -1 ∧ (table (mts s')).*1 = (table (mts demo_tab)).*1 ∧ rk s' = rk demo_tab)) demo_tab.
Proof.
  apply mpimts_test_retires; [apply demo_tab_wf| |apply demo_testsome_ok].
  repeat constructor; done.
Defined.

(** [mpimts_add] appends the send and its request, growing the arrays when
    they are full; when an allocation fails, even after some of the arrays
    have grown, it returns -1 and the table is as before and usable. *)
Theorem mpimts_add_appends (e : env) (mp : mpi) (mqe : dtq_mpiqentry) (req : Z) (s : mpit)
    (Hwf : mts_wf (mts s)) (Hb : nused (mts s) < 2 ^ 30) :
  wp (mpimts_add e mp mqe req) (λ r s', mts_wf (mts s') ∧ dtq (rk s') = dtq (rk s) ∧
    (r = 0 ∧ table (mts s') = table (mts s) ++ [(mqe, req)] ∨
     r = -1 ∧ table (mts s') = table (mts s))) s.
Proof.
  eapply wp_mono; [by apply mpimts_add_spec|].
  intros r s' (?&([_ Hm]&_)&?). split_and!; [done| |done]. by rewrite Hm.
Qed.

Lemma mpimts_add_appends_witness :
  wp (mpimts_add demo_env demo_mpi (demo_mqe_n 4) 14) (λ r s', mts_wf (mts s') ∧
    dtq (rk s') = dtq (rk demo_tab) ∧
    (r = 0 ∧ table (mts s') = table (mts demo_tab) ++ [(demo_mqe_n 4, 14)] ∨
     r = -1 ∧ table (mts s') = table (mts demo_tab))) demo_tab.
Proof. apply mpimts_add_appends; [apply demo_tab_wf|reflexivity]. Defined.
