(* ===== verification/MpiThread.v ===== *)
(** * The MPI thread

    [mpimqerecv], [mpit_main] and [mpit_stop] of [libdthread/dt_mpithread.c],
    and the part of [dthread_run] ([libdthread/dt_init.c]) that starts the
    thread.  The thread, the starter, the stopper and the threads that use the
    queues run interleaved; the step relation of [Queuing] specifies what the
    MPI thread does to the queues, and the code is shown to implement it. *)

From S2P Require Import Prelude Types Queuing MpiTab.

(** [dt_internal.h]: states of the MPI thread. *)
Definition MTS_INIT : Z := 0.
Definition MTS_START : Z := 1.
Definition MTS_RUN : Z := 2.
Definition MTS_STOP : Z := 3.
Definition MTS_DONE : Z := 4.

(** [mpimqerecv] returns, or ends the process by [mlog_exit]. *)
Inductive recv_result :=
  | RecvExit (status : Z)
  | RecvRet (n : Z).

(** Where the thread is in [mpit_main]. *)
Inductive mpi_pc :=
  | PEntry                        (* before the first lock *)
  | PLoop                         (* at the head of the loop *)
  | PSend                         (* about to look for a send *)
  | PIsend (m : dtq_mpiqentry)    (* has dequeued [m] *)
  | PProbe                        (* about to probe *)
  | PRecv (st : mpi_status)       (* a message can be received *)
  | PDone (mpiabort : Z)          (* at the label [done] *)
  | PReturned
  | PExited (status : Z).

Section Ops.
Context (e : env) (mp : mpi).

Definition upd_st (f : mpit_stats_t → mpit_stats_t) : M mpit unit :=
  modify (λ s, s <| mpit_st ::= f |>).

Definition set_state (st : Z) : M mpit unit := modify (λ s, s <| mpit_state := st |>).

Definition mpimqerecv (status : mpi_status) : M mpit recv_result :=
  n <- mpicall;;
  let '(rv, count) := MPI_Get_count mp n status in
  if negb (rv =? MPI_SUCCESS) then retM (RecvExit 1)
  else if count <? 1 then retM (RecvExit 1)
  else
    let overflow := if DTQ_MAXMSGSIZE <? count then count - DTQ_MAXMSGSIZE else 0 in
    o <- onrk (dtq_mqe_alloc e);;
    match o with
    | None => retM (RecvExit 1)
    | Some mqe =>
        n <- mpicall;;
        let '(ret, written, fr) := MPI_Recv mp n status count in
        if DTQ_MAXMSGSIZE <? written then crash OutOfBounds
        else
          let mqe := mqe <| flen := count |> <| peer := MPI_SOURCE status |> <| frame := fr |> in
          if negb (overflow =? 0) || negb (ret =? MPI_SUCCESS) then
            onrk (dtq_recv_release mqe) ;;; retM (RecvRet 0)
          else
            onrk (dtq_recv_enqueue mqe) ;;; retM (RecvRet count)
    end.

(** [mpit_main] up to the loop. *)
Definition mpit_enter : M mpit mpi_pc :=
  s <- gets mpit_state;;
  if negb (s =? MTS_START) then set_state MTS_DONE ;;; retM PReturned
  else
    ret <- mpimts_init e mp MPIMTS_INITSZ;;
    if negb (ret =? 0) then retM PReturned
    else set_state MTS_RUN ;;; retM PLoop.

(** The loop: its condition and the test of the outstanding sends, ... *)
Definition mpit_head : M mpit mpi_pc :=
  s <- gets mpit_state;;
  if s =? MTS_RUN then
    rv <- mpimts_test mp;;
    if negb (rv =? 0) then retM (PDone 1) else retM PSend
  else retM (PDone 0).

(** ... the next send, ... *)
Definition mpit_dequeue : M mpit mpi_pc :=
  o <- onrk dtq_send_dequeue;;
  match o with Some mqe => retM (PIsend mqe) | None => retM PProbe end.

Definition mpit_isend (mqe : dtq_mpiqentry) : M mpit mpi_pc :=
  n <- mpicall;;
  let '(ret, newreq) := MPI_Isend mp n mqe in
  log_mpi (EvIsend mqe) ;;;
  if negb (ret =? MPI_SUCCESS) then mpimts_done (Some mqe) ;;; retM PProbe
  else
    upd_st (λ st, st <| isend_cnt ::= (λ k, u64 (k + 1)) |>
                     <| isend_bytes ::= (λ k, u64 (k + flen mqe)) |>) ;;;
    rv <- mpimts_add e mp mqe newreq;;
    if rv =? -1 then
      log_mpi (EvRequestFree newreq) ;;; mpimts_done (Some mqe) ;;; retM PProbe
    else retM PProbe.

(** ... and the next message. *)
Definition mpit_probe : M mpit mpi_pc :=
  n <- mpicall;;
  let '(ret, pflag, status) := MPI_Iprobe mp n in
  upd_st (λ st, st <| iprobe_cnt ::= (λ k, u64 (k + 1)) |>) ;;;
  if negb (ret =? MPI_SUCCESS) then retM (PDone 1)
  else if pflag : bool then retM (PRecv status)
  else retM PLoop.

Definition mpit_recv (status : mpi_status) : M mpit mpi_pc :=
  r <- mpimqerecv status;;
  match r with
  | RecvExit x => retM (PExited x)
  | RecvRet n =>
      whenM (0 <? n)
        (upd_st (λ st, st <| recv_cnt ::= (λ k, u64 (k + 1)) |>
                          <| recv_bytes ::= (λ k, u64 (k + n)) |>)) ;;;
      retM PLoop
  end.

(** From the label [done] on. *)
Definition mpit_finish (mpiabort : Z) : M mpit mpi_pc :=
  mpimts_finalize mp ;;;
  set_state MTS_DONE ;;;
  whenM (negb (mpiabort =? 0)) (log_mpi EvMpiAbort) ;;;
  retM PReturned.

(** What the thread does next; nothing once it has returned. *)
Definition mpit_main (pc : mpi_pc) : option (M mpit mpi_pc) :=
  match pc with
  | PEntry => Some mpit_enter
  | PLoop => Some mpit_head
  | PSend => Some mpit_dequeue
  | PIsend m => Some (mpit_isend m)
  | PProbe => Some mpit_probe
  | PRecv st => Some (mpit_recv st)
  | PDone a => Some (mpit_finish a)
  | PReturned | PExited _ => None
  end.

(** [mpit_stop]: up to the wait ([true] when it has to wait), and the test of
    the wait loop after a wake-up ([true] when it returns). *)
Definition mpit_stop : M mpit bool :=
  s <- gets mpit_state;;
  if s =? MTS_RUN then set_state MTS_STOP ;;; retM true
  else retM false.

Definition mpit_stop_wake : M mpit bool :=
  s <- gets mpit_state;;
  retM (s =? MTS_DONE).

(** The wait loop of [dthread_run]: [None] to wait on, else whether the thread
    is up ([dthread_run] aborts the job otherwise). *)
Definition run_wake : M mpit (option bool) :=
  s <- gets mpit_state;;
  retM (if s =? MTS_START then None else Some (s =? MTS_RUN)).

End Ops.

(** ** The thread among the others *)

Inductive stop_pc := SIdle | SWaiting | SDone.
Inductive start_pc := RWaiting | RUp | RAborted.

Record msys := Msys {
  thr : mpit;            (* with the rank's queues *)
  pc : mpi_pc;
  mgr : mgr_pc;
  stopper : stop_pc;     (* in [mpit_stop] *)
  starter : start_pc }.  (* in [dthread_run] *)

#[export] Instance msys_eta : Eta msys := λ r,
  Msys (thr r) (pc r) (mgr r) (stopper r) (starter r).

Section System.
Context (c : config) (e : env) (mp : mpi).

(** One step of the thread, of the manager in [mpit_stop] (which it calls once
    it is up), of the starter, or of another thread on the queues: a step of
    [qstep] that does not take or release a send. *)
Inductive mstep : msys → msys → Prop :=
  | m_thread x op p s' : mpit_main e mp (pc x) = Some op → op (thr x) = Ok (p, s') →
      mstep x (x <| thr := s' |> <| pc := p |>)
  | m_stop x b s' : stopper x = SIdle → starter x = RUp →
      mpit_stop (thr x) = Ok (b, s') →
      mstep x (x <| thr := s' |> <| stopper := if b : bool then SWaiting else SDone |>)
  | m_stop_wake x b s' : stopper x = SWaiting → mpit_stop_wake (thr x) = Ok (b, s') →
      mstep x (x <| thr := s' |> <| stopper := if b : bool then SDone else SWaiting |>)
  | m_run_wake x o s' : starter x = RWaiting → run_wake (thr x) = Ok (o, s') →
      mstep x (x <| thr := s' |> <| starter := match o with
                                               | None => RWaiting
                                               | Some true => RUp
                                               | Some false => RAborted
                                               end |>)
  | m_queue x y y' : qs y = rk (thr x) → mpc y = mgr x → qstep c e y y' →
      inflight y' = inflight y →
      mstep x (x <| thr ::= (λ s, s <| rk := qs y' |>) |> <| mgr := mpc y' |>).

(** [dthread_run] has created the thread and waits. *)
Definition minit (s : dtst) : msys :=
  Msys (Mpit (s <| dtq := dtq_init |>) MPIMTSMGR_INIT MTS_START mpit_stats_zero 0 [])
    PEntry Running SIdle RWaiting.

(** The entry the thread has in hand, the entries it holds, and the entries
    it has passed to [MPI_Isend]. *)
Definition hand (p : mpi_pc) : list dtq_mpiqentry :=
  match p with PIsend m => [m] | _ => [] end.

Definition held (p : mpi_pc) (s : mpit) : list dtq_mpiqentry := hand p ++ (table (mts s)).*1.

Definition isent (s : mpit) : list dtq_mpiqentry :=
  omap (λ ev, match ev with EvIsend m => Some m | _ => None end) (mpilog s).

(** ** The documented behaviour of MPI *)
Record mpi_ok : Prop := {
  mk_testsome : ∀ n rq, testsome_ok mp rq (MPI_Testsome mp n rq);
  mk_isend : ∀ n m, (MPI_Isend mp n m).1 = MPI_SUCCESS →
    (MPI_Isend mp n m).2 ≠ MPI_REQUEST_NULL mp;
  mk_recv : ∀ n st k, (MPI_Recv mp n st k).1.2 ≤ k }.

(** All messages of the job are dthread messages. *)
Definition mpi_small : Prop := ∀ n st, (MPI_Get_count mp n st).2 ≤ DTQ_MAXMSGSIZE.

(** ** Queue steps of the table operations *)

(** The ghost state of [qsys] that goes with a state of the thread. *)
Record qrel (y : qsys) (g : mgr_pc) (p : mpi_pc) (s : mpit) : Prop := {
  qr_qs : qs y = rk s;
  qr_mpc : mpc y = g;
  qr_inflight : inflight y ≡ₚ held p s;
  qr_taken : taken y = isent s ++ hand p }.

Lemma release_steps qs0 : ∀ y k,
  inflight y ≡ₚ qs0 ++ k →
  ∃ y', rtc (qstep c e) y y' ∧ qs y' = all_released qs0 (qs y) ∧ mpc y' = mpc y ∧
    inflight y' ≡ₚ k ∧ taken y' = taken y.
Proof.
  induction qs0 as [|m qs0 IH]; intros y k Hi; [by exists y|]. simpl in Hi.
  destruct (IH (y <| qs := send_released m (qs y) |> <| inflight := qs0 ++ k |>) k)
    as (y'&?&?&?&?&?); [done|].
  exists y'. split_and!; try done. eapply rtc_l; [|done].
  by apply (q_send_release c e y m (qs0 ++ k)).
Qed.

Lemma malloc_steps d : ∀ y, only_mallocs (qs y) d → rtc (qstep c e) y (y <| qs := d |>).
Proof.
  intros y [Hle Hd]. remember (nmallocs d - nmallocs (qs y))%nat as k eqn:Hk. revert y Hle Hd Hk.
  induction k as [|k IH]; intros y Hle Hd Hk.
  - replace (y <| qs := d |>) with y; [apply rtc_refl|].
    replace (nmallocs d) with (nmallocs (qs y)) in Hd by lia.
    rewrite Hd. by destruct y as [[]].
  - set (y1 := y <| qs ::= (λ s, s <| nmallocs ::= S |>) |>).
    eapply rtc_l; [|apply (IH y1)]; simpl; try lia.
    + by apply (q_malloc c e y (if malloc_ok e (nmallocs (qs y)) then Some (nmallocs (qs y)) else None)).
    + done.
Qed.

(** A step of another thread, whatever the ghost state. *)
Lemma qstep_ghost y y' z :
  qstep c e y y' → inflight y' = inflight y → qs z = qs y → mpc z = mpc y →
  ∃ z', qstep c e z z' ∧ qs z' = qs y' ∧ mpc z' = mpc y' ∧ inflight z' = inflight z ∧
    taken z' = taken z.
Proof.
  intros Hs Hi Hq Hm. destruct z as [d g inf se ta ar de]. simpl in *. subst d g.
  destruct Hs; try (eexists; split; [econstructor; simpl; eassumption|]);
    unfold record_send, record_take; try (repeat case_match; done).
  - simpl in Hi. by apply (f_equal length) in Hi; simpl in Hi; lia.
  - simpl in Hi. subst. apply Permutation_length in H. simpl in H. lia.
Qed.

(** ** What holds at each point of [mpit_main] *)

Definition running (s : mpit) : Prop := mpit_state s = MTS_RUN ∨ mpit_state s = MTS_STOP.

Definition pc_ok (p : mpi_pc) (s : mpit) : Prop :=
  match p with
  | PEntry => mpit_state s = MTS_START ∧ table (mts s) = []
  | PLoop | PSend | PIsend _ | PProbe | PRecv _ =>
      running s ∧ mts_wf (mts s) ∧ reqs_active mp (mts s)
  | PDone _ => running s ∧ mts_wf (mts s)
  | PReturned => mts s = MPIMTSMGR_INIT ∧ (mpit_state s = MTS_DONE ∨ mpit_state s = MTS_START)
  | PExited _ => running s
  end.

(** The moves of [mpit_state]. *)
Definition state_move (s s' : mpit) : Prop :=
  mpit_state s' = mpit_state s ∨
  mpit_state s = MTS_START ∧ mpit_state s' = MTS_RUN ∨
  running s ∧ mpit_state s' = MTS_DONE.

Definition mpost (y : qsys) (g : mgr_pc) (s : mpit) (p : mpi_pc) (s' : mpit) : Prop :=
  pc_ok p s' ∧ state_move s s' ∧ ∃ y', rtc (qstep c e) y y' ∧ qrel y' g p s'.

Lemma enter_spec y g s :
  qrel y g PEntry s → pc_ok PEntry s → wp (mpit_enter e mp) (mpost y g s) s.
Proof.
  intros [Hq Hm Hi Ht] [Hs Htab]. unfold mpit_enter. apply wp_bind, wp_gets.
  rewrite Hs. simpl negb. cbv iota. apply wp_bind.
  eapply wp_mono; [by apply mpimts_init_spec|].
  intros r s' (([Hle Hmal]&Hfr&_)&Htab'&Hr). injection Hfr as Hst _ Hlog.
  assert (∀ s2 p, rk s2 = rk s' → table (mts s2) = [] → mpilog s2 = mpilog s' → hand p = [] →
    ∃ y', rtc (qstep c e) y y' ∧ qrel y' g p s2) as Hsim.
  { intros s2 p Hrk Ht2 Hl2 Hp. exists (y <| qs := rk s' |>). split.
    - apply malloc_steps. by rewrite Hq.
    - split; simpl; [done|done| |].
      + rewrite Hi. unfold held. by rewrite Htab, Ht2, Hp.
      + rewrite Ht, Hp. unfold isent. by rewrite Hl2, Hlog. }
  destruct Hr as [(->&Hwf&_)|[-> Hinit]]; simpl negb; cbv iota.
  - apply wp_bind, wp_modify, wp_ret. split_and!; [| |by apply Hsim].
    + split_and!; [by left|done|]. unfold reqs_active. simpl. rewrite Htab'. constructor.
    + right. left. done.
  - apply wp_ret. split_and!; [|left; congruence|by apply Hsim]. split; [done|right; congruence].
Qed.

Lemma head_spec y g s :
  mpi_ok → qrel y g PLoop s → pc_ok PLoop s → wp (mpit_head mp) (mpost y g s) s.
Proof.
  intros Hmp [Hq Hm Hi Ht] (Hrun&Hwf&Ha). unfold mpit_head. apply wp_bind, wp_gets.
  destruct (Z.eqb_spec (mpit_state s) MTS_RUN) as [Hs|Hs]; last first.
  { apply wp_ret. split_and!; [done|by left|]. exists y. split; [done|]. by split. }
  pose proof (mk_testsome Hmp (nmpi s) (tested s)) as Htk.
  destruct (completed_ok mp s Hwf Ha Htk) as [Hnd Hrange].
  apply wp_bind. eapply wp_mono; [by apply mpimts_test_spec|].
  intros r s' (Hwf'&Hfr&Hr). injection Hfr as Hst _ Hlog.
  assert (running s') as Hrun' by (unfold running in *; by rewrite Hst).
  destruct Hr as [(->&Ha'&Htab&Hrk)|(->&Htab&Hrk)]; simpl negb; cbv iota; apply wp_ret.
  - split_and!; [done|by left|].
    destruct (release_steps (pick_idx (completed mp s) (table (mts s))).*1 y
      (drop_idx (completed mp s) (table (mts s))).*1) as (y'&Hy&Hqs&Hpc&Hinf&Htk').
    { rewrite Hi. unfold held. simpl. rewrite <- fmap_app. by rewrite pick_drop. }
    exists y'. split; [done|]. split; [congruence|congruence| |].
    + rewrite Hinf. unfold held. simpl. by rewrite Htab.
    + rewrite Htk', Ht. unfold isent. by rewrite Hlog.
  - split_and!; [done|by left|]. exists y. split; [done|]. split; [congruence|done| |].
    + rewrite Hi. unfold held. simpl. by rewrite Htab.
    + rewrite Ht. unfold isent. by rewrite Hlog.
Qed.

Lemma dequeue_spec y g s :
  qrel y g PSend s → pc_ok PSend s → wp mpit_dequeue (mpost y g s) s.
Proof.
  intros [Hq Hm Hi Ht] Hpc. unfold mpit_dequeue. apply wp_bind, wp_onrk.
  destruct (mpisendq (dtq (rk s))) as [|m rest] eqn:Hsq.
  - eapply wp_eq; [unfold dtq_send_dequeue, bindM, gets; simpl; by rewrite Hsq|].
    apply wp_ret. split_and!; [done|by left|]. exists y. split; [done|]. by split.
  - assert (dtq_send_dequeue (rk s) = Ok (Some m, (rk s) <| dtq ::= (λ q,
      q <| mpisendq := rest |> <| mpisqlen ::= Z.pred |> <| mpindequeuedsends ::= Z.succ |>) |>)) as Hd.
    { unfold dtq_send_dequeue, bindM, gets. simpl. by rewrite Hsq. }
    eapply wp_eq; [exact Hd|]. apply wp_ret. split_and!; [done|by left|].
    eexists. split; [apply rtc_once, q_send_dequeue; rewrite Hq; exact Hd|].
    split; simpl; [done|done| |].
    + by rewrite Hi.
    + rewrite Ht. simpl. by rewrite app_nil_r.
Qed.

(** The entry in hand is released. *)
Lemma drop_hand y g m s s' :
  qrel y g (PIsend m) s → only_mallocs (rk s) (rk s') →
  (table (mts s')).*1 = (table (mts s)).*1 → isent s' = isent s ++ [m] →
  ∃ y', rtc (qstep c e) y y' ∧ qrel y' g PProbe (s' <| rk := send_released m (rk s') |>).
Proof.
  intros [Hq Hm Hi Ht] Hmal Htab Hsent.
  destruct (release_steps [m] (y <| qs := rk s' |>) (table (mts s)).*1) as (y'&Hy&?&?&Hinf&Htk).
  { simpl. by rewrite Hi. }
  exists y'. split.
  - etransitivity; [apply (malloc_steps (rk s')); by rewrite Hq|done].
  - split; [done|by subst g| |].
    + rewrite Hinf. unfold held. simpl. by rewrite Htab.
    + rewrite Htk. simpl. unfold isent in *. simpl. by rewrite app_nil_r, Hsent, Ht.
Qed.

Lemma isent_app s ev : isent (s <| mpilog ::= (λ l, l ++ [ev]) |>) =
  isent s ++ match ev with EvIsend m => [m] | _ => [] end.
Proof. unfold isent. simpl. rewrite omap_app. f_equal. by destruct ev. Qed.

Lemma isend_spec y g m s :
  mpi_ok → Z.of_nat (length (table (mts s))) < 2 ^ 30 →
  qrel y g (PIsend m) s → pc_ok (PIsend m) s → wp (mpit_isend e mp m) (mpost y g s) s.
Proof.
  intros Hmp Hb Hrel (Hrun&Hwf&Ha). unfold mpit_isend. apply wp_bind.
  eapply wp_eq; [reflexivity|]. pose proof (mk_isend Hmp (nmpi s) m) as Hreq.
  destruct (MPI_Isend mp (nmpi s) m) as [ret newreq]. simpl in Hreq.
  apply wp_bind, wp_modify.
  destruct (Z.eqb_spec ret MPI_SUCCESS) as [->|Hret]; simpl negb; cbv iota; last first.
  { apply wp_bind, wp_done, wp_ret. split_and!; [done|by left|].
    apply (drop_hand y g m s (s <| nmpi := S (nmpi s) |> <| mpilog ::= (λ l, l ++ [EvIsend m]) |>));
      [done|apply only_mallocs_refl|done|]. by rewrite isent_app. }
  apply wp_bind, wp_modify, wp_bind. pose proof (table_length _ Hwf) as Hlen.
  eapply wp_mono; [apply mpimts_add_spec; [done|]|].
  { simpl. pose proof (mw_used _ Hwf). lia. }
  intros r s' (Hwf'&(Hmal&Hfr&_)&Hr). injection Hfr as Hst _ Hlog. simpl in Hmal, Hst, Hlog.
  assert (isent s' = isent s ++ [m]) as Hsent.
  { unfold isent. rewrite Hlog, omap_app. done. }
  assert (running s') as Hrun' by (unfold running in *; by rewrite Hst).
  destruct Hr as [[-> Htab]|[-> Htab]]; simpl in Htab; simpl Z.eqb; cbv iota.
  - apply wp_ret. split_and!; [split_and!; [done|done|]|by left|].
    + unfold reqs_active. rewrite Htab. apply Forall_app. split; [done|].
      repeat constructor. by apply Hreq.
    + destruct Hrel as [Hq Hm Hi Ht]. exists (y <| qs := rk s' |>). split.
      { apply malloc_steps. by rewrite Hq. }
      split; simpl; [done|done| |].
      * rewrite Hi. unfold held. simpl. rewrite Htab, fmap_app. simpl.
        apply Permutation_cons_append.
      * rewrite Ht. simpl. by rewrite Hsent, app_nil_r.
  - apply wp_bind, wp_modify, wp_bind, wp_done, wp_ret.
    split_and!; [split_and!; [done|done|]|by left|].
    + unfold reqs_active. simpl. by rewrite Htab.
    + apply (drop_hand y g m s (s' <| mpilog ::= (λ l, l ++ [EvRequestFree newreq]) |>));
        [done|done|simpl; by rewrite Htab|].
      by rewrite isent_app, app_nil_r.
Qed.

Lemma probe_spec y g s :
  qrel y g PProbe s → pc_ok PProbe s → wp (mpit_probe mp) (mpost y g s) s.
Proof.
  intros [Hq Hm Hi Ht] Hpc. unfold mpit_probe. apply wp_bind. eapply wp_eq; [reflexivity|].
  destruct (MPI_Iprobe mp (nmpi s)) as [[ret pflag] status]. apply wp_bind, wp_modify.
  destruct (negb (ret =? MPI_SUCCESS)); [|destruct pflag]; apply wp_ret;
    (split_and!; [|by left|exists y; split; [done|by split]]); try done.
  by destruct Hpc as (?&?&?).
Qed.

(** The queue steps of [mpimqerecv] do not concern the sends. *)
Definition recv_frame (y : qsys) (s s' : mpit) : Prop :=
  mts s' = mts s ∧ frame_of s' = frame_of s ∧
  ∃ y', rtc (qstep c e) y y' ∧ qs y' = rk s' ∧ mpc y' = mpc y ∧
    inflight y' = inflight y ∧ taken y' = taken y.

Lemma recv_alloc_step y (o : option dtq_mpiqentry) d :
  dtq_mqe_alloc e (qs y) = Ok (o, d) → rtc (qstep c e) y (y <| qs := d |>).
Proof. intros. by eapply rtc_once, q_mqe_alloc. Qed.

Lemma mqe_alloc_ok d : ∃ o d', dtq_mqe_alloc e d = Ok (o, d').
Proof.
  unfold dtq_mqe_alloc, bindM, gets. destruct (mqefree (dtq d)); [|by eauto].
  simpl. destruct (malloc_ok e (nmallocs d)); simpl; eauto.
Qed.

(** From the allocation of the entry on. *)
Lemma recv_into_spec y n st count overflow mqe s :
  mpi_ok → count ≤ DTQ_MAXMSGSIZE → qs y = rk s →
  wp (let '(ret, written, fr) := MPI_Recv mp n st count in
      if DTQ_MAXMSGSIZE <? written then crash OutOfBounds
      else
        let mqe := mqe <| flen := count |> <| peer := MPI_SOURCE st |> <| frame := fr |> in
        if negb (overflow =? 0) || negb (ret =? MPI_SUCCESS) then
          onrk (dtq_recv_release mqe) ;;; retM (RecvRet 0)
        else
          onrk (dtq_recv_enqueue mqe) ;;; retM (RecvRet count))
    (λ _ s', recv_frame y s s') s.
Proof.
  intros Hmp Hc Hq. pose proof (mk_recv Hmp n st count) as Hw.
  destruct (MPI_Recv mp n st count) as [[ret written] fr]. simpl in Hw.
  destruct (Z.ltb_spec DTQ_MAXMSGSIZE written); [lia|]. cbv zeta.
  destruct (negb _ || negb _); apply wp_bind, wp_onrk; (eapply wp_eq; [reflexivity|]); apply wp_ret;
    (split; [done|]; split; [done|]).
  - eexists. split; [eapply rtc_once, q_recv_release; rewrite Hq; reflexivity|]. done.
  - eexists. split; [eapply rtc_once, q_recv_enqueue; rewrite Hq; reflexivity|]. done.
Qed.

Lemma mpimqerecv_spec y st s :
  mpi_ok → mpi_small → qs y = rk s →
  wp (mpimqerecv e mp st) (λ _ s', recv_frame y s s') s.
Proof.
  intros Hmp Hsm Hq. unfold mpimqerecv. apply wp_bind. eapply wp_eq; [reflexivity|]. cbv beta.
  specialize (Hsm (nmpi s) st). destruct (MPI_Get_count mp (nmpi s) st) as [rv count]. simpl in Hsm.
  assert (∀ s', rk s' = rk s → mts s' = mts s → frame_of s' = frame_of s → recv_frame y s s') as Hsame.
  { intros s' Hrk ? ?. split_and!; [done|done|]. exists y. by rewrite Hrk. }
  destruct (negb (rv =? MPI_SUCCESS)); [by apply wp_ret, Hsame|].
  destruct (count <? 1); [by apply wp_ret, Hsame|]. clear Hsame. cbv zeta.
  destruct (mqe_alloc_ok (rk s)) as (o&d&Hd).
  assert (rtc (qstep c e) y (y <| qs := d |>)) as Halloc.
  { apply (recv_alloc_step y o). by rewrite Hq. }
  apply wp_bind, wp_onrk. eapply wp_eq; [exact Hd|]. destruct o as [mqe|].
  - apply wp_bind. eapply wp_eq; [reflexivity|]. cbv beta.
    eapply wp_mono; [by apply (recv_into_spec (y <| qs := d |>))|].
    intros r s' (Hmts&Hfr&y'&Hy&?&?&?&?). split_and!; [done|done|].
    exists y'. split; [|done]. by etransitivity.
  - apply wp_ret. split_and!; [done|done|]. by exists (y <| qs := d |>).
Qed.

Lemma recv_spec y g st s :
  mpi_ok → mpi_small →
  qrel y g (PRecv st) s → pc_ok (PRecv st) s → wp (mpit_recv e mp st) (mpost y g s) s.
Proof.
  intros Hmp Hsm [Hq Hm Hi Ht] (Hrun&Hwf&Ha). unfold mpit_recv. apply wp_bind.
  eapply wp_mono; [by apply (mpimqerecv_spec y)|].
  intros r s1 (Hmts&Hfr&y'&Hy&Hq'&Hm'&Hi'&Ht'). injection Hfr as Hst _ Hlog.
  assert (∀ p s', rk s' = rk s1 → mts s' = mts s1 → mpilog s' = mpilog s1 →
    mpit_state s' = mpit_state s1 → (p = PLoop ∨ p = PExited 1 ∨ ∃ x, p = PExited x) →
    mpost y g s p s') as Hpost.
  { intros p s' Hrk Hmt Hl Hs Hp.
    assert (running s') as Hrun' by (unfold running in *; by rewrite Hs, Hst).
    assert (hand p = []) as Hh by (destruct Hp as [->|[->|[? ->]]]; done).
    split_and!.
    - destruct Hp as [->|[->|[? ->]]]; simpl; try done. by rewrite Hmt, Hmts.
    - left. congruence.
    - exists y'. split; [done|]. split; [congruence|congruence| |].
      + rewrite Hi', Hi. unfold held. by rewrite Hh, Hmt, Hmts.
      + rewrite Ht', Ht, Hh. unfold isent. by rewrite Hl, Hlog. }
  destruct r as [x|n]; [apply wp_ret, Hpost; eauto|].
  apply wp_bind, wp_when; intros _; [apply wp_modify|]; apply wp_ret, Hpost; eauto.
Qed.

Lemma mpit_finish_spec y g a s :
  qrel y g (PDone a) s → pc_ok (PDone a) s → wp (mpit_finish mp a) (mpost y g s) s.
Proof.
  intros [Hq Hm Hi Ht] [Hrun Hwf]. unfold mpit_finish. apply wp_bind.
  eapply wp_mono; [by apply mpimts_finalize_spec|].
  intros [] s1 (Hmts&Hrk&Hlog&_). apply wp_bind, wp_modify, wp_bind.
  destruct (release_steps (table (mts s)).*1 y []) as (y'&Hy&Hq'&Hm'&Hi'&Ht').
  { by rewrite Hi, app_nil_r. }
  assert (isent s1 = isent s) as Hsent.
  { unfold isent. rewrite Hlog, omap_app. unfold request_frees.
    replace (omap _ (EvRequestFree <$> _)) with (@nil dtq_mpiqentry); [by rewrite app_nil_r|].
    induction (filter _ _) as [|r l IH]; [done|]. apply IH. }
  assert (∀ s', rk s' = rk s1 → mts s' = mts s1 → isent s' = isent s1 → mpit_state s' = MTS_DONE →
    mpost y g s PReturned s') as Hpost.
  { intros s' Hrk' Hmts' Hsent' Hst. split_and!.
    - split; [congruence|by left].
    - right. by right.
    - exists y'. split; [done|]. split; [congruence|congruence| |].
      + rewrite Hi'. unfold held. by rewrite Hmts', Hmts.
      + by rewrite Ht', Ht, Hsent', Hsent. }
  apply wp_when; intros _; [apply wp_modify|]; apply wp_ret, Hpost; try done.
  by rewrite isent_app, app_nil_r.
Qed.

Lemma thread_spec y g p s op :
  mpi_ok → mpi_small → Z.of_nat (length (table (mts s))) < 2 ^ 30 →
  qrel y g p s → pc_ok p s → mpit_main e mp p = Some op → wp op (mpost y g s) s.
Proof.
  intros Hmp Hsm Hb Hrel Hpc Hop. destruct p; simplify_eq/=.
  - by apply enter_spec.
  - by apply head_spec.
  - by apply dequeue_spec.
  - by apply isend_spec.
  - by apply probe_spec.
  - by apply recv_spec.
  - by apply mpit_finish_spec.
Qed.

(** ** Invariant of the system *)
Record minv (d : dtst) (x : msys) : Prop := {
  mi_pc : pc_ok (pc x) (thr x);
  mi_queue : ∃ y, rtc (qstep c e) (qinit d) y ∧ qrel y (mgr x) (pc x) (thr x);
  mi_up : starter x = RUp → mpit_state (thr x) ≠ MTS_START;
  mi_idle : stopper x = SIdle → mpit_state (thr x) ≠ MTS_STOP;
  mi_wait : stopper x = SWaiting → mpit_state (thr x) = MTS_STOP ∨ mpit_state (thr x) = MTS_DONE;
  mi_stopped : stopper x = SDone → mpit_state (thr x) = MTS_DONE }.

(** Steps taken while fewer than [2^30] sends are outstanding. *)
Definition mrun (x x' : msys) : Prop :=
  Z.of_nat (length (table (mts (thr x)))) < 2 ^ 30 ∧ mstep x x'.

Lemma minv_init d : minv d (minit d).
Proof. split; try done. exists (qinit d). split; [done|]. by split. Qed.

(** Only the fields of the waiting threads changed. *)
Lemma qrel_state y g p s st : qrel y g p s → qrel y g p (s <| mpit_state := st |>).
Proof. by intros []. Qed.

Lemma pc_ok_stop p s :
  pc_ok p s → mpit_state s = MTS_RUN → pc_ok p (s <| mpit_state := MTS_STOP |>).
Proof.
  intros Hpc Hrun. destruct p; simpl in *; unfold running, MTS_START, MTS_DONE, MTS_RUN in *; simpl;
    try lia; intuition lia.
Qed.

Lemma pc_ok_done p s :
  pc_ok p s → mpit_state s ≠ MTS_START → mpit_state s ≠ MTS_RUN → mpit_state s ≠ MTS_STOP →
  p = PReturned ∧ mpit_state s = MTS_DONE.
Proof. intros Hpc ? ? ?. destruct p; simpl in *; unfold running in *; tauto. Qed.

Lemma minv_thread d x op p s' :
  mpi_ok → mpi_small → Z.of_nat (length (table (mts (thr x)))) < 2 ^ 30 → minv d x →
  mpit_main e mp (pc x) = Some op → op (thr x) = Ok (p, s') →
  minv d (x <| thr := s' |> <| pc := p |>).
Proof.
  intros Hmp Hsm Hb [Hpc (y&Hy&Hrel) Hup Hidle Hwait Hst] Hop Hr.
  pose proof (thread_spec y (mgr x) (pc x) (thr x) op Hmp Hsm Hb Hrel Hpc Hop) as Hw.
  unfold wp in Hw. rewrite Hr in Hw. destruct Hw as (Hpc'&Hmv&y'&Hy'&Hrel').
  unfold state_move, running, MTS_START, MTS_RUN, MTS_STOP, MTS_DONE in *.
  split; simpl; try done; unfold MTS_START, MTS_RUN, MTS_STOP, MTS_DONE in *.
  - exists y'. split; [by etransitivity|done].
  - intros Hs. specialize (Hup Hs). lia.
  - intros Hs. specialize (Hidle Hs). lia.
  - intros Hs. specialize (Hwait Hs). lia.
  - intros Hs. specialize (Hst Hs). lia.
Qed.

Lemma minv_step d x x' : mpi_ok → mpi_small → minv d x → mrun x x' → minv d x'.
Proof.
  intros Hmp Hsm Hinv [Hb Hs].
  destruct Hs as [x op p s' Hop Hr|x b s' Hst Hup Hr|x b s' Hst Hr|x o s' Hst Hr|x y y' Hq Hm Hs Hi].
  - by eapply minv_thread.
  - destruct Hinv as [Hpc (y&Hy&Hrel) Hu Hid Hw Hd].
    unfold mpit_stop, bindM, gets, set_state, modify, retM in Hr.
    destruct (Z.eqb_spec (mpit_state (thr x)) MTS_RUN) as [Hrun|Hrun]; simplify_eq/=.
    + split; simpl; try done; [|by exists y; split; [|apply qrel_state]|by left].
      by apply (pc_ok_stop (pc x) (thr x)).
    + destruct (pc_ok_done _ _ Hpc (Hu Hup) Hrun (Hid Hst)) as [_ Hdone].
      split; simpl; try done. by exists y.
  - destruct Hinv as [Hpc Hy Hu Hid Hw Hd]. unfold mpit_stop_wake, bindM, gets, retM in Hr.
    destruct (Z.eqb_spec (mpit_state (thr x)) MTS_DONE); simplify_eq/=; split; simpl; try done.
    by intros _; apply Hw.
  - destruct Hinv as [Hpc Hy Hu Hid Hw Hd]. unfold run_wake, bindM, gets, retM in Hr.
    destruct (Z.eqb_spec (mpit_state (thr x)) MTS_START); simplify_eq/=; split; simpl; try done.
  - destruct Hinv as [Hpc (z&Hz&[Hzq Hzm Hzi Hzt]) Hu Hid Hw Hd].
    destruct (qstep_ghost y y' z) as (z'&Hzs&?&?&Hinf&Htk); [done|done|congruence|congruence|].
    split; simpl; try done.
    exists z'. split; [by eapply rtc_r|]. split; simpl; [done|done|by rewrite Hinf|by rewrite Htk].
Qed.

Lemma minv_reach d x : mpi_ok → mpi_small → rtc mrun (minit d) x → minv d x.
Proof.
  intros Hmp Hsm H. pose proof (minv_init d) as Hi. revert Hi.
  induction H as [|x1 x2 x3 Hs _ IH]; [done|]. intros Hi. by eapply IH, minv_step.
Qed.

(** Steps of the thread left once it was told to stop. *)
Definition pc_left (p : mpi_pc) : nat :=
  match p with
  | PEntry => 7
  | PSend => 6
  | PIsend _ => 5
  | PProbe => 4
  | PRecv _ => 3
  | PLoop => 2
  | PDone _ => 1
  | PReturned | PExited _ => 0
  end.

(** The successors of each point once [mpit_state] is not [MTS_RUN]. *)
Lemma thread_left p s op p' s' :
  mpit_main e mp p = Some op → op s = Ok (p', s') →
  mpit_state s ≠ MTS_RUN → mpit_state s ≠ MTS_START → p ≠ PEntry →
  (pc_left p' < pc_left p)%nat.
Proof.
  intros Hop Hr Hrun Hstart Hp.
  destruct p; simplify_eq/=; try done;
    unfold mpit_head, mpit_dequeue, mpit_isend, mpit_probe, mpit_recv, mpit_finish in Hr;
    repeat (lazymatch type of Hr with
      | bindM _ _ _ = _ => apply bind_inv in Hr as (?&?&?&Hr)
      | (let '(_, _) := ?x in _) _ = _ => destruct x
      | (let '(_, _) := ?x in _) = _ => destruct x
      | (if ?b then _ else _) _ = _ => destruct b eqn:?
      | match ?x with _ => _ end _ = _ => destruct x
      end);
    unfold gets, retM in *; simplify_eq/=; breflect; done || lia.
Qed.
End System.

(** ** A run

    The demonstration library of [MpiTab] meets the documentation. *)
Lemma demo_mpi_ok : mpi_ok demo_mpi.
Proof.
  split; simpl.
  - intros _. apply demo_testsome_ok.
  - lia.
  - intros; lia.
Qed.

Lemma demo_mpi_small : mpi_small demo_mpi.
Proof. done. Qed.

(** The thread's next step, as a function, and a run: the thread comes up, the
    manager queues a message for rank 1, and the thread sends it. *)
Definition thread_next (e : env) (mp : mpi) (x : msys) : option msys :=
  match mpit_main e mp (pc x) with
  | Some op =>
      match op (thr x) with
      | Ok (p, s') => Some (x <| thr := s' |> <| pc := p |>)
      | Crash _ => None
      end
  | None => None
  end.

Lemma thread_next_run c e mp x x' :
  thread_next e mp x = Some x' →
  (Z.of_nat (length (table (mts (thr x)))) <? 2 ^ 30) = true → mrun c e mp x x'.
Proof.
  unfold thread_next. destruct (mpit_main e mp (pc x)) as [op|] eqn:Hop; [|done].
  destruct (op (thr x)) as [[p s']|] eqn:Hr; [|done]. intros [= <-] Hb. split; [by apply Z.ltb_lt|].
  by eapply m_thread.
Qed.

Definition demo_msg : dtq_mpiqentry := Mqe 100 (Frame 2 (BDetach (Dthread 1 3))) 16 1.

Definition demo_queued (x : msys) : msys :=
  x <| thr ::= (λ s, s <| rk ::= (λ d, d <| dtq ::= (λ q,
    q <| mpisendq := [demo_msg] |> <| mpisqlen := 1 |> <| mpimaxsqlen := 1 |>) |>) |>) |>.

Definition demo_next (x : msys) : msys := default x (thread_next demo_env demo_mpi x).

Definition demo_up : msys := Eval vm_compute in demo_next (minit demo_st).
Definition demo_full : msys := Eval vm_compute in demo_queued demo_up.
Definition demo_ready : msys := Eval vm_compute in demo_next demo_full.
Definition demo_hand : msys := Eval vm_compute in demo_next demo_ready.
Definition demo_sending : msys := Eval vm_compute in demo_next demo_hand.

Ltac demo_run := apply thread_next_run; vm_compute; reflexivity.

(** A step of another thread that moves the queues from [d] to [d']. *)
Lemma demo_queue_step x x' se se' :
  thr x' = (thr x) <| rk := rk (thr x') |> → pc x' = pc x → stopper x' = stopper x →
  starter x' = starter x → mgr x = Running → mgr x' = Running →
  Z.of_nat (length (table (mts (thr x)))) < 2 ^ 30 →
  qstep demo_cfg demo_env (Qsys (rk (thr x)) Running [] se [] [] [])
    (Qsys (rk (thr x')) Running [] se' [] [] []) →
  mrun demo_cfg demo_env demo_mpi x x'.
Proof.
  intros Ht Hp Hs Hst Hm Hm' Hb Hq. split; [done|].
  replace x' with (x <| thr ::= (λ s, s <| rk := rk (thr x') |>) |> <| mgr := Running |>).
  - apply (m_queue demo_cfg demo_env demo_mpi x
      (Qsys (rk (thr x)) Running [] se [] [] []) (Qsys (rk (thr x')) Running [] se' [] [] [])); done.
  - destruct x, x'. simpl in *. by rewrite Ht, Hp, Hs, Hst, Hm'.
Qed.

Lemma demo_up_reachable : rtc (mrun demo_cfg demo_env demo_mpi) (minit demo_st) demo_up.
Proof. apply rtc_once. demo_run. Qed.

Lemma demo_hand_reachable : rtc (mrun demo_cfg demo_env demo_mpi) (minit demo_st) demo_hand.
Proof.
  transitivity demo_up; [apply demo_up_reachable|].
  apply (rtc_l _ _ demo_full).
  - apply (demo_queue_step _ _ [] [demo_msg]); try done.
    by apply (q_send demo_cfg demo_env (Qsys (rk (thr demo_up)) Running [] [] [] [] []) demo_msg).
  - apply (rtc_l _ _ demo_ready); [demo_run|]. apply rtc_once. demo_run.
Qed.

Lemma demo_sending_reachable : rtc (mrun demo_cfg demo_env demo_mpi) (minit demo_st) demo_sending.
Proof. eapply rtc_r; [apply demo_hand_reachable|]. demo_run. Qed.

Example demo_sending_table : (table (mts (thr demo_sending))).*1 = [demo_msg].
Proof. reflexivity. Qed.

(** ** Results *)

(** C6. The MPI thread implements what the queues expect of it.  In every
    interleaving with the other threads, the thread's next step returns without
    a fault, and the queues are in a state that the step relation of the queues
    reaches: the entries counted as dequeued and not released are exactly those
    the thread has in hand or in its table, and the entries it has passed to
    [MPI_Isend], in order, followed by the one in hand and the send queue, are
    all the sends the manager queued. *)
Theorem mpi_thread_refines_queues (c : config) (e : env) (mp : mpi) (d : dtst) (x : msys)
    (Hmp : mpi_ok mp) (Hsm : mpi_small mp) (Hr : rtc (mrun c e mp) (minit d) x)
    (Hb : Z.of_nat (length (table (mts (thr x)))) < 2 ^ 30) :
  (∀ op, mpit_main e mp (pc x) = Some op → ∃ p s', op (thr x) = Ok (p, s')) ∧
  ∃ y, rtc (qstep c e) (qinit d) y ∧ qs y = rk (thr x) ∧
    inflight y ≡ₚ held (pc x) (thr x) ∧
    sent y = isent (thr x) ++ hand (pc x) ++ mpisendq (dtq (rk (thr x))).
Proof.
  destruct (minv_reach c e mp d x Hmp Hsm Hr) as [Hpc (y&Hy&Hrel) _ _ _ _]. split.
  - intros op Hop. pose proof (thread_spec c e mp y _ _ _ op Hmp Hsm Hb Hrel Hpc Hop) as Hw.
    apply wp_ok in Hw as (p&s'&?&_). eauto.
  - destruct Hrel as [Hq Hm Hi Ht]. exists y. split_and!; [done|done|done|].
    rewrite (qi_sent _ (qinv_reach c e d y Hy)), Ht, Hq. by rewrite app_assoc.
Qed.

Lemma mpi_thread_refines_queues_witness :
  (∀ op, mpit_main demo_env demo_mpi (pc demo_sending) = Some op →
     ∃ p s', op (thr demo_sending) = Ok (p, s')) ∧
  ∃ y, rtc (qstep demo_cfg demo_env) (qinit demo_st) y ∧ qs y = rk (thr demo_sending) ∧
    inflight y ≡ₚ held (pc demo_sending) (thr demo_sending) ∧
    sent y = isent (thr demo_sending) ++ hand (pc demo_sending) ++
      mpisendq (dtq (rk (thr demo_sending))).
Proof.
  apply (mpi_thread_refines_queues demo_cfg demo_env demo_mpi demo_st demo_sending
    demo_mpi_ok demo_mpi_small demo_sending_reachable). reflexivity.
Defined.

(** C13. The draindown means what the manager needs: once it has been
    requested, the state is DRAINED exactly when the send queue is empty and
    the MPI thread holds no send, neither in hand nor in its table. *)
Theorem drained_iff_all_sent (c : config) (e : env) (mp : mpi) (d : dtst) (x : msys)
    (Hmp : mpi_ok mp) (Hsm : mpi_small mp) (Hr : rtc (mrun c e mp) (minit d) x)
    (Hd : mpisq_draindown (dtq (rk (thr x))) ≠ DTQ_DD_INIT) :
  mpisq_draindown (dtq (rk (thr x))) = DTQ_DD_DRAINED ↔
  mpisendq (dtq (rk (thr x))) = [] ∧ hand (pc x) = [] ∧ table (mts (thr x)) = [].
Proof.
  destruct (minv_reach c e mp d x Hmp Hsm Hr) as [_ (y&Hy&[Hq _ Hi _]) _ _ _ _].
  destruct (qinv_reach c e d y Hy) as [[] Hin _ _ _ _]. rewrite Hq in *.
  apply Permutation_length in Hi. unfold held in Hi. rewrite length_app, length_fmap in Hi.
  rewrite <- !length_zero_iff_nil. unfold DTQ_DD_INIT, DTQ_DD_DRAINED, DTQ_DD_DRAINING in *. lia.
Qed.

Definition demo_draining : msys := Eval vm_compute in
  demo_sending <| thr ::= (λ s, s <| rk ::= (λ d, d <| dtq ::= (λ q,
    q <| mpisq_draindown := DTQ_DD_DRAINING |> <| notifytimelimit := 10 |>) |>) |>) |>.

Lemma demo_draining_reachable : rtc (mrun demo_cfg demo_env demo_mpi) (minit demo_st) demo_draining.
Proof.
  eapply rtc_r; [apply demo_sending_reachable|].
  apply (demo_queue_step _ _ [] []); try done.
  by apply (q_draindown demo_cfg demo_env (Qsys (rk (thr demo_sending)) Running [] [] [] [] []) 1).
Qed.

Lemma drained_iff_all_sent_witness :
  mpisq_draindown (dtq (rk (thr demo_draining))) = DTQ_DD_DRAINED ↔
  mpisendq (dtq (rk (thr demo_draining))) = [] ∧ hand (pc demo_draining) = [] ∧
  table (mts (thr demo_draining)) = [].
Proof.
  apply (drained_iff_all_sent demo_cfg demo_env demo_mpi demo_st demo_draining
    demo_mpi_ok demo_mpi_small demo_draining_reachable). done.
Defined.

(** When [mpit_stop] has returned, the MPI thread is gone: it has
    returned, its table is freed, no send is in its hands, none is counted as
    dequeued, and the state is DONE. *)
Theorem mpit_stop_returns (c : config) (e : env) (mp : mpi) (d : dtst) (x : msys)
    (Hmp : mpi_ok mp) (Hsm : mpi_small mp) (Hr : rtc (mrun c e mp) (minit d) x)
    (Hs : stopper x = SDone) :
  pc x = PReturned ∧ mpit_state (thr x) = MTS_DONE ∧ mts (thr x) = MPIMTSMGR_INIT ∧
  mpindequeuedsends (dtq (rk (thr x))) = 0.
Proof.
  destruct (minv_reach c e mp d x Hmp Hsm Hr) as [Hpc (y&Hy&[Hq _ Hi _]) _ _ _ Hst].
  specialize (Hst Hs).
  destruct (pc_ok_done mp (pc x) (thr x) Hpc) as [Hp _]; [by rewrite Hst..|].
  rewrite Hp in *. destruct Hpc as [Hmts _]. split_and!; [done|done|done|].
  pose proof (qi_inflight _ (qinv_reach c e d y Hy)) as Hin. rewrite Hq in Hin. rewrite Hin.
  apply Permutation_length in Hi. unfold held in Hi. rewrite Hmts in Hi. simpl in Hi. by rewrite Hi.
Qed.

(** The run, continued: the starter wakes up, the manager stops the thread, the
    thread ends, the manager wakes up. *)
Definition demo_started : msys := Eval vm_compute in demo_sending <| starter := RUp |>.
Definition demo_stopping : msys := Eval vm_compute in
  demo_started <| stopper := SWaiting |>
    <| thr ::= (λ s, s <| mpit_state := MTS_STOP |>) |>.
Definition demo_returned : msys := Eval vm_compute in
  Nat.iter 4 demo_next demo_stopping.
Definition demo_stopped : msys := Eval vm_compute in demo_returned <| stopper := SDone |>.

Lemma demo_stopping_reachable : rtc (mrun demo_cfg demo_env demo_mpi) (minit demo_st) demo_stopping.
Proof.
  transitivity demo_started; [eapply rtc_r; [apply demo_sending_reachable|]|apply rtc_once].
  - split; [done|].
    by apply (m_run_wake demo_cfg demo_env demo_mpi demo_sending (Some true) (thr demo_sending)).
  - split; [done|].
    by apply (m_stop demo_cfg demo_env demo_mpi demo_started true (thr demo_stopping)).
Qed.

Lemma demo_stopped_reachable : rtc (mrun demo_cfg demo_env demo_mpi) (minit demo_st) demo_stopped.
Proof.
  eapply rtc_r; [transitivity demo_stopping; [apply demo_stopping_reachable|]|].
  - do 3 (eapply rtc_l; [demo_run|]). eapply rtc_l; [|apply rtc_refl].
    apply (thread_next_run demo_cfg demo_env demo_mpi _ demo_returned); vm_compute; reflexivity.
  - split; [done|]. 
    by apply (m_stop_wake demo_cfg demo_env demo_mpi demo_returned true (thr demo_returned)).
Qed.

Lemma mpit_stop_returns_witness :
  pc demo_stopped = PReturned ∧ mpit_state (thr demo_stopped) = MTS_DONE ∧
  mts (thr demo_stopped) = MPIMTSMGR_INIT ∧
  mpindequeuedsends (dtq (rk (thr demo_stopped))) = 0.
Proof.
  apply (mpit_stop_returns demo_cfg demo_env demo_mpi demo_st demo_stopped
    demo_mpi_ok demo_mpi_small demo_stopped_reachable). reflexivity.
Defined.

(** C26. The thread does stop.  Once [mpit_stop] has set the state to STOP,
    each of the thread's steps returns and brings it closer to its end, which
    is at most six steps away; the state stays STOP until the thread has
    returned and set it to DONE, or the process has ended. *)
Theorem mpit_stop_terminates (c : config) (e : env) (mp : mpi) (d : dtst) (x : msys)
    (op : M mpit mpi_pc)
    (Hmp : mpi_ok mp) (Hsm : mpi_small mp) (Hr : rtc (mrun c e mp) (minit d) x)
    (Hb : Z.of_nat (length (table (mts (thr x)))) < 2 ^ 30)
    (Hs : mpit_state (thr x) = MTS_STOP) (Hop : mpit_main e mp (pc x) = Some op) :
  ∃ p s', op (thr x) = Ok (p, s') ∧ (pc_left p < pc_left (pc x) ≤ 6)%nat ∧
    (mpit_state s' = MTS_STOP ∨ p = PReturned ∧ mpit_state s' = MTS_DONE).
Proof.
  destruct (minv_reach c e mp d x Hmp Hsm Hr) as [Hpc (y&Hy&Hrel) _ _ _ _].
  pose proof (thread_spec c e mp y _ _ _ op Hmp Hsm Hb Hrel Hpc Hop) as Hw.
  apply wp_ok in Hw as (p&s'&Hrun&Hpc'&Hmv&_). exists p, s'.
  assert (pc x ≠ PEntry) as Hne.
  { intros E. rewrite E in Hpc. destruct Hpc as [Hpc _]. by rewrite Hs in Hpc. }
  split_and!; [done|by eapply thread_left; rewrite ?Hs| |].
  - destruct (pc x); simpl; done || lia.
  - unfold state_move in Hmv. rewrite Hs in Hmv.
    destruct Hmv as [|[[? _]|[_ Hd]]]; [by left|done|]. right.
    split; [|done]. by apply (pc_ok_done mp p s' Hpc'); rewrite Hd.
Qed.

Lemma mpit_stop_terminates_witness :
  ∃ p s', mpit_probe demo_mpi (thr demo_stopping) = Ok (p, s') ∧
    (pc_left p < pc_left (pc demo_stopping) ≤ 6)%nat ∧
    (mpit_state s' = MTS_STOP ∨ p = PReturned ∧ mpit_state s' = MTS_DONE).
Proof.
  apply (mpit_stop_terminates demo_cfg demo_env demo_mpi demo_st demo_stopping
    (mpit_probe demo_mpi) demo_mpi_ok demo_mpi_small demo_stopping_reachable); reflexivity.
Defined.

(** ** Where the code goes wrong *)

(** The thread has given up at its start and left the state as it was. *)
Definition gave_up (x : msys) : Prop :=
  pc x = PReturned ∧ mpit_state (thr x) = MTS_START ∧ starter x = RWaiting.

Lemma gave_up_step c e mp x x' : gave_up x → mstep c e mp x x' → gave_up x'.
Proof.
  intros (Hp&Hs&Hw) Hst. destruct Hst as [x op p s' Hop _|x b s' _ Hup _|x b s' _ Hr|x o s' _ Hr|].
  - by rewrite Hp in Hop.
  - by rewrite Hw in Hup.
  - unfold mpit_stop_wake, bindM, gets, retM in Hr. by simplify_eq.
  - unfold run_wake, bindM, gets, retM in Hr. rewrite Hs in Hr. by simplify_eq/=.
  - done.
Qed.

(** A failing allocation at the start of the MPI thread hangs the rank:
    [mpit_main] returns without changing the state, so [dthread_run] finds
    START at every wake-up and waits for ever. *)
Theorem mpit_init_failure_hangs (c : config) (e : env) (mp : mpi) (d : dtst)
    (Hm : malloc_ok e (nmallocs d) = false) :
  ∃ x, mstep c e mp (minit d) x ∧ pc x = PReturned ∧ mpit_state (thr x) = MTS_START ∧
    ∀ x', rtc (mstep c e mp) x x' → starter x' = RWaiting.
Proof.
  destruct (mpit_enter e mp (thr (minit d))) as [[p s']|] eqn:Hr.
  2: { exfalso. unfold mpit_enter, mpimts_init, mpimts_setslots, realloc, onrk, malloc, bindM in Hr.
       simpl in Hr. by rewrite Hm in Hr. }
  assert (p = PReturned ∧ mpit_state s' = MTS_START) as [-> Hs].
  { unfold mpit_enter, mpimts_init, mpimts_setslots, realloc, onrk, malloc, bindM in Hr.
    simpl in Hr. rewrite Hm in Hr. unfold retM in Hr. by simplify_eq/=. }
  set (x := (minit d) <| thr := s' |> <| pc := PReturned |>).
  exists x. split_and!; [by eapply m_thread|done|done|].
  intros x' Hx. assert (gave_up x) as Hg by done. revert Hg.
  induction Hx as [x0|x0 x1 x2 Hst _ IH]; [by intros (_&_&?)|].
  intros Hg. by eapply IH, gave_up_step.
Qed.

Lemma mpit_init_failure_hangs_witness :
  ∃ x, mstep demo_cfg (Env (λ _, false) (λ _, 0) (λ a, (0, 0, 0)) (λ a _ _, a)
         (λ _ _ a p, (0, a, p)) 0 (Frame 0 (BOther 0)) (Dthread 0 0) nodata) demo_mpi
         (minit demo_st) x ∧ pc x = PReturned ∧ mpit_state (thr x) = MTS_START ∧
    ∀ x', rtc (mstep demo_cfg (Env (λ _, false) (λ _, 0) (λ a, (0, 0, 0)) (λ a _ _, a)
         (λ _ _ a p, (0, a, p)) 0 (Frame 0 (BOther 0)) (Dthread 0 0) nodata) demo_mpi) x x' →
      starter x' = RWaiting.
Proof. apply mpit_init_failure_hangs. reflexivity. Defined.

(** The overflow test of [mpimqerecv] comes too late: a message longer
    than an entry's frame is received into the frame, over its end, before the
    code looks at [overflow]. *)
Theorem mpimqerecv_overflows (e : env) (mp : mpi) (st : mpi_status) (s : mpit) (count : Z)
    (Hc : MPI_Get_count mp (nmpi s) st = (MPI_SUCCESS, count))
    (Hbig : DTQ_MAXMSGSIZE < count)
    (Hw : (MPI_Recv mp (S (nmpi s)) st count).1.2 = count)
    (Hm : mqefree (dtq (rk s)) ≠ [] ∨ malloc_ok e (nmallocs (rk s)) = true) :
  mpimqerecv e mp st s = Crash OutOfBounds.
Proof.
  unfold mpimqerecv. erewrite bind_ok by reflexivity. rewrite Hc, Z.eqb_refl. cbv beta iota delta [negb].
  destruct (Z.ltb_spec count 1); [unfold DTQ_MAXMSGSIZE in *; lia|]. cbv zeta.
  assert (∃ m d, dtq_mqe_alloc e (rk s) = Ok (Some m, d)) as (m&d&Hd).
  { unfold dtq_mqe_alloc, bindM, gets. destruct (mqefree (dtq (rk s))) eqn:Ef; [|by eauto].
    destruct Hm as [?|Hm]; [done|]. simpl. rewrite Hm. simpl. eauto. }
  mstep by (unfold onrk; simpl; rewrite Hd; reflexivity).
  mstep by reflexivity. cbn [nmpi].
  destruct (MPI_Recv mp (S (nmpi s)) st count) as [[ret written] fr]. simpl in Hw. subst written.
  by destruct (Z.ltb_spec DTQ_MAXMSGSIZE count); [|lia].
Qed.

Lemma mpimqerecv_overflows_witness :
  mpimqerecv demo_env (Mpi (-32766) 17 0 (λ _, demo_testsome) (λ n _, (0, 1))
      (λ _, (0, true, MpiStatus 1 0)) (λ _ _, (0, 200))
      (λ _ _ k, (0, k, Frame 7 (BOther 0))) None 0) (MpiStatus 1 0) (thr demo_up)
  = Crash OutOfBounds.
Proof. apply (mpimqerecv_overflows _ _ _ _ 200); [reflexivity..|right; reflexivity]. Defined.
