(* ===== verification/ThreadTab.v ===== *)
(** * Sequence numbers and thread tables

    From [libdthread/dt_mgrthread.c]: [find_pending_req], [get_free_seq],
    [gtab_alloc], [gtab_free], [ltab_alloc], [ltab_free]; from
    [libdthread/dt_ops.c]: [dthread_dt2gtab]. *)

From S2P Require Import Prelude Types.

Section Ops.
Context (c : config).

(** ** Pending requests *)

(** The loop of [find_pending_req] over the rest of the pending list. *)
Fixpoint find_pending_in (s : dtst) (op seq : Z) (l : list reqref) :
    outcome (option reqref) :=
  match l with
  | [] => Ok None
  | r :: l =>
      match req_lookup s r with
      | None => Crash BadPointer
      | Some q =>
          if (xidseq q =? seq) && (reqop q =? op) then Ok (Some r)
          else find_pending_in s op seq l
      end
  end.

Definition find_pending_req (op seq : Z) : M dtst (option reqref) := λ s,
  match find_pending_in s op seq (rpending (mgrstate s)) with
  | Ok o => Ok (o, s)
  | Crash f => Crash f
  end.

(** ** Sequence numbers *)

(** The new [seqsrc] after [sq] was handed out, with the wrap-around. *)
Definition next_seq (sq : Z) : Z :=
  let n := u32 (sq + mpi_wsize c) in
  if n <? sq then u32 (mpi_rank c + mpi_wsize c) else n.

(** The loop of [get_free_seq].  A number that is not free among the first
    [length rpending + 1] candidates means that the candidates repeat, and the
    loop of the source then never exits. *)
Fixpoint get_free_seq_loop (fuel : nat) (op : Z) : M dtst Z :=
  match fuel with
  | O => crash Diverges
  | S fuel =>
      rv <- gets seqsrc;;
      modify (λ s, s <| seqsrc := next_seq rv |>) ;;;
      if op =? DTOP_NONE then retM rv else
      o <- find_pending_req op rv;;
      match o with
      | None => retM rv
      | Some _ => get_free_seq_loop fuel op
      end
  end.

Definition get_free_seq (op : Z) : M dtst Z :=
  n <- gets (λ s, length (rpending (mgrstate s)));;
  get_free_seq_loop (S n) op.

(** ** Table slots *)

(** The slot search both tables use: the slots after [last], cyclically, and
    [last] itself at the end. *)
Fixpoint slot_scan {A} (free : A → bool) (l : list A) (nmax last : Z)
    (fuel : nat) (p : Z) : outcome (option Z) :=
  match fuel with
  | O => Crash Diverges
  | S fuel =>
      let p := if nmax <=? p + 1 then 0 else p + 1 in
      match aget l p with
      | None => Crash OutOfBounds
      | Some x =>
          if free x then Ok (Some p)
          else if p =? last then Ok None
          else slot_scan free l nmax last fuel p
      end
  end.

Definition lift_outcome {A} (o : outcome A) : M dtst A := λ s,
  match o with Ok a => Ok (a, s) | Crash f => Crash f end.

Definition gtab_is_free (g : dthread_gtab_t) : bool := gt_allocated g =? 0.
Definition ltab_is_free (l : dthread_ltab_t) : bool := lt_pth_state l =? LT_NONE.

(** [gtab[i]], for reading and writing. *)
Definition gtab_get (i : Z) : M dtst dthread_gtab_t :=
  s <- gets id;; get_some OutOfBounds (aget (gtab s) i).
Definition gtab_put (i : Z) (g : dthread_gtab_t) : M dtst unit :=
  modify (λ s, s <| gtab := aset (gtab s) i g |>).
Definition ltab_get (i : Z) : M dtst dthread_ltab_t :=
  s <- gets id;; get_some OutOfBounds (aget (ltab s) i).
Definition ltab_put (i : Z) (l : dthread_ltab_t) : M dtst unit :=
  modify (λ s, s <| ltab := aset (ltab s) i l |>).

(** [dthread_dt2gtab]: the entry's index for its pointer. *)
Definition dthread_dt2gtab (t : dthread_t) : M dtst (option Z) :=
  if (dt_index t <? 0) || (nmaxthread c <=? dt_index t) then retM None else
  gt <- gtab_get (dt_index t);;
  if (gt_allocated gt =? 0) || negb (dt_seq t =? gt_seq gt) then retM None
  else retM (Some (dt_index t)).

Definition gtab_alloc (rank disp_idx : Z) (arg : dthread_argret_t) : M dtst Z :=
  s <- gets id;;
  if nmaxthread c <=? threads_alloc (mgrstate s) then retM (-1) else
  o <- lift_outcome (slot_scan gtab_is_free (gtab s) (nmaxthread c)
         (last_slot (mgrstate s)) (Z.to_nat (nmaxthread c)) (last_slot (mgrstate s)));;
  match o with
  | None => retM (-1)
  | Some p =>
      gt <- gtab_get p;;
      seq <- get_free_seq DTOP_NONE;;
      gtab_put p (gt <| gt_rank := rank |> <| gt_seq := seq |>
                     <| gt_disp_idx := disp_idx |> <| gt_arg := arg |>
                     <| gt_ret ::= (λ a, a <| dt_argret_type := DTHREAD_NODATA |>) |>
                     <| gt_detached := 0 |> <| gt_terminated := 0 |>
                     <| gt_has_ltab := 0 |> <| gt_allocated := 1 |>) ;;;
      modify (λ s, s <| mgrstate ::= (λ m,
        m <| threads_alloc ::= Z.succ |> <| last_slot := p |>) |>) ;;;
      retM p
  end.

Definition gtab_free (gidx : Z) : M dtst unit :=
  gt <- gtab_get gidx;;
  if gt_allocated gt =? 0 then retM tt else
  gtab_put gidx (gt <| gt_allocated := 0 |> <| gt_seq := 0 |> <| gt_has_ltab := 0 |>) ;;;
  modify (λ s, s <| mgrstate ::= (λ m, m <| threads_alloc ::= Z.pred |>) |>).

Definition ltab_alloc (t : dthread_t) : M dtst Z :=
  s <- gets id;;
  if nmaxthread c <=? ltab_alloc_cnt (mgrstate s) then retM (-1) else
  o <- (if ltab_alloc_cnt (mgrstate s) =? 0 then retM (Some 0)
        else lift_outcome (slot_scan ltab_is_free (ltab s) (nmaxthread c)
               (ltab_lastslot (mgrstate s)) (Z.to_nat (nmaxthread c))
               (ltab_lastslot (mgrstate s))));;
  match o with
  | None => retM (-1)
  | Some p =>
      lt <- ltab_get p;;
      ltab_put p (lt <| lt_gtab_idx := dt_index t |> <| lt_seq := dt_seq t |>
                     <| lt_pth_state := LT_STARTING |>) ;;;
      modify (λ s, s <| mgrstate ::= (λ m,
        m <| ltab_alloc_cnt ::= Z.succ |> <| ltab_lastslot := p |>) |>) ;;;
      retM p
  end.

Definition ltab_free (lidx : Z) : M dtst unit :=
  lt <- ltab_get lidx;;
  if lt_pth_state lt =? LT_NONE then retM tt else
  ltab_put lidx (lt <| lt_seq := 0 |> <| lt_pth_state := LT_NONE |>) ;;;
  modify (λ s, s <| mgrstate ::= (λ m, m <| ltab_alloc_cnt ::= Z.pred |>) |>).

End Ops.

(** ** Pending list lemmas *)

Definition pending_match (s : dtst) (op seq : Z) (r : reqref) : Prop :=
  ∃ q, req_lookup s r = Some q ∧ xidseq q = seq ∧ reqop q = op.

Definition refs_valid (s : dtst) (l : list reqref) : Prop :=
  Forall (λ r, is_Some (req_lookup s r)) l.

Lemma find_pending_in_spec s op seq l :
  refs_valid s l →
  ∃ o, find_pending_in s op seq l = Ok o ∧
    match o with
    | Some r => r ∈ l ∧ pending_match s op seq r
    | None => ∀ r, r ∈ l → ¬ pending_match s op seq r
    end.
Proof.
  induction 1 as [|r l [q Hq] _ IH]; simpl.
  { eexists. split; [done|]. intros r []%not_elem_of_nil. }
  rewrite Hq. destruct ((xidseq q =? seq) && (reqop q =? op)) eqn:E.
  - breflect. eexists. split; [done|]. split; [left|by exists q].
  - destruct IH as (o & -> & Ho). exists o. split; [done|].
    destruct o as [r'|]; [destruct Ho; split; [by right|done]|].
    intros r' [->|Hr']%elem_of_cons; [|by apply Ho].
    intros (q' & ? & <- & <-). simplify_eq. by rewrite !Z.eqb_refl in E.
Qed.

(** Only [seqsrc] differs between two states. *)
Lemma req_lookup_seqsrc s v r : req_lookup (s <| seqsrc := v |>) r = req_lookup s r.
Proof. by destruct r. Qed.

Lemma find_pending_in_ext s s' op seq l :
  (∀ r, req_lookup s' r = req_lookup s r) →
  find_pending_in s' op seq l = find_pending_in s op seq l.
Proof. intros H. induction l as [|r l IH]; simpl; [done|]. by rewrite H, IH. Qed.

(** ** Sequence number lemmas *)

Section Seq.
Context (c : config) (Hc : config_ok c).

(** The numbers of this rank: [seq_at i] for [i] below [seq_period], all
    congruent to the rank modulo the number of ranks. *)
Definition seq_at (i : Z) : Z := mpi_rank c + mpi_wsize c * (i + 1).
Definition seq_period : Z := (2 ^ 32 - 1 - mpi_rank c) / mpi_wsize c.

Definition seq_ok (sq : Z) : Prop := ∃ i, 0 ≤ i < seq_period ∧ sq = seq_at i.

Lemma seq_period_bounds :
  mpi_wsize c * seq_period ≤ 2 ^ 32 - 1 - mpi_rank c < mpi_wsize c * (seq_period + 1) ∧
  1 ≤ seq_period.
Proof using Hc.
  destruct Hc. unfold seq_period.
  pose proof (Z_div_mod_eq_full (2 ^ 32 - 1 - mpi_rank c) (mpi_wsize c)).
  pose proof (Z.mod_pos_bound (2 ^ 32 - 1 - mpi_rank c) (mpi_wsize c)).
  split; [lia|]. apply Z.div_le_lower_bound; lia.
Qed.

Lemma seq_at_inj i j : seq_at i = seq_at j → i = j.
Proof using Hc. unfold seq_at. destruct Hc. nia. Qed.

Lemma seq_at_spec i : 0 ≤ i < seq_period →
  0 < seq_at i < 2 ^ 32 ∧ seq_at i mod mpi_wsize c = mpi_rank c.
Proof using Hc.
  intros. pose proof seq_period_bounds. destruct Hc. unfold seq_at. split; [nia|].
  rewrite Z.mul_comm, Z_mod_plus_full. apply Z.mod_small. lia.
Qed.

Lemma next_seq_at i : 0 ≤ i < seq_period →
  next_seq c (seq_at i) = seq_at ((i + 1) mod seq_period).
Proof using Hc.
  intros Hi. pose proof seq_period_bounds as [Hp H1]. pose proof (seq_at_spec i Hi) as [Hs _].
  destruct Hc. unfold next_seq.
  replace (seq_at i + mpi_wsize c) with (seq_at (i + 1)) by (unfold seq_at; lia).
  destruct (decide (i + 1 = seq_period)) as [E|].
  - rewrite E, Z_mod_same_full.
    assert (2 ^ 32 ≤ seq_at seq_period < 2 ^ 33) by (unfold seq_at in *; nia).
    assert (u32 (seq_at seq_period) = seq_at seq_period - 2 ^ 32) as ->.
    { unfold u32. rewrite <- (Z_mod_plus_full _ (-1)). rewrite Z.mod_small; lia. }
    assert (seq_at seq_period = seq_at i + mpi_wsize c) by (unfold seq_at; nia).
    destruct (Z.ltb_spec (seq_at seq_period - 2 ^ 32) (seq_at i)); [|lia].
    rewrite u32_small by lia. unfold seq_at. lia.
  - rewrite (Z.mod_small (i + 1)) by lia.
    pose proof (seq_at_spec (i + 1)) as []; [lia|].
    rewrite u32_small by lia.
    destruct (Z.ltb_spec (seq_at (i + 1)) (seq_at i)); [unfold seq_at in *; nia|done].
Qed.

(** The [j]-th candidate when the generator stands at [i]. *)
Definition cand (i : Z) (j : nat) : Z := (i + Z.of_nat j) mod seq_period.

Lemma cand_range i j : 0 ≤ cand i j < seq_period.
Proof using Hc. apply Z.mod_pos_bound. pose proof seq_period_bounds. lia. Qed.

Lemma cand_S i j : (cand i j + 1) mod seq_period = cand i (S j).
Proof using.
  unfold cand. rewrite Zplus_mod_idemp_l. f_equal. lia.
Qed.

Lemma cand_inj i j j' : Z.of_nat j < seq_period → Z.of_nat j' < seq_period →
  cand i j = cand i j' → j = j'.
Proof using Hc.
  pose proof seq_period_bounds. unfold cand. intros ?? E.
  apply (Z.cong_iff_ex (i + Z.of_nat j) (i + Z.of_nat j')) in E as [k E].
  assert (k = 0) by nia. lia.
Qed.

(** One pass of the loop. *)
Lemma get_free_seq_loop_S fuel op s :
  let s1 := s <| seqsrc := next_seq c (seqsrc s) |> in
  get_free_seq_loop c (S fuel) op s =
    if op =? DTOP_NONE then Ok (seqsrc s, s1) else
    match find_pending_in s op (seqsrc s) (rpending (mgrstate s)) with
    | Ok None => Ok (seqsrc s, s1)
    | Ok (Some _) => get_free_seq_loop c fuel op s1
    | Crash f => Crash f
    end.
Proof using.
  cbn zeta. simpl get_free_seq_loop. unfold bindM, gets, modify.
  destruct (op =? DTOP_NONE); [done|]. unfold find_pending_req.
  rewrite (find_pending_in_ext s) by (intros; apply req_lookup_seqsrc).
  simpl. by destruct (find_pending_in s op (seqsrc s) (rpending (mgrstate s))) as [[]|].
Qed.

Lemma get_free_seq_loop_spec op fuel s i :
  refs_valid s (rpending (mgrstate s)) → 0 ≤ i < seq_period → seqsrc s = seq_at i →
  (∃ j, (j < fuel)%nat ∧
     get_free_seq_loop c fuel op s =
       Ok (seq_at (cand i j), s <| seqsrc := seq_at (cand i (S j)) |>) ∧
     (op ≠ DTOP_NONE → ∀ r, r ∈ rpending (mgrstate s) →
        ¬ pending_match s op (seq_at (cand i j)) r)) ∨
  (get_free_seq_loop c fuel op s = Crash Diverges ∧
   ∀ j, (j < fuel)%nat → ∃ r, r ∈ rpending (mgrstate s) ∧
     pending_match s op (seq_at (cand i j)) r).
Proof using Hc.
  revert s i. induction fuel as [|fuel IH]; intros s i Hv Hi Hs.
  { right. split; [done|]. lia. }
  assert (cand i 0 = i) as Hc0 by (unfold cand; rewrite Z.add_0_r; by apply Z.mod_small).
  assert (next_seq c (seqsrc s) = seq_at (cand i 1)) as Hn.
  { rewrite Hs, next_seq_at by done. by rewrite <- cand_S, Hc0. }
  rewrite get_free_seq_loop_S, Hn. destruct (Z.eqb_spec op DTOP_NONE) as [->|Hop].
  { left. exists 0%nat. split; [lia|]. rewrite Hc0, <- Hs. split; [done|]. done. }
  destruct (find_pending_in_spec s op (seqsrc s) _ Hv) as (o & -> & Ho).
  destruct o as [r|].
  - destruct (IH (s <| seqsrc := seq_at (cand i 1) |>) (cand i 1)) as [IH'|IH'].
    { eapply Forall_impl; [exact Hv|]. intros r'. by rewrite req_lookup_seqsrc. }
    { apply cand_range. }
    { done. }
    + destruct IH' as (j & Hj & Hl & Hm). left. exists (S j). split; [lia|].
      assert (∀ k, cand (cand i 1) k = cand i (S k)) as Hcc.
      { intros k. unfold cand. rewrite Zplus_mod_idemp_l. f_equal. lia. }
      rewrite !Hcc in Hl. split; [exact Hl|]. intros Hne r' Hr' (q & Hq & Hx).
      apply (Hm Hne r' Hr'). exists q. rewrite Hcc. by rewrite req_lookup_seqsrc.
    + destruct IH' as (Hl & Hm). right. split; [exact Hl|]. intros [|j] Hj.
      { exists r. rewrite Hc0, <- Hs. done. }
      destruct (Hm j) as (r' & Hr' & q & Hq & Hx); [lia|]. exists r'. split; [done|].
      exists q. rewrite req_lookup_seqsrc in Hq. split; [done|].
      replace (cand i (S j)) with (cand (cand i 1) j); [done|].
      unfold cand. rewrite Zplus_mod_idemp_l. f_equal. lia.
  - left. exists 0%nat. split; [lia|]. rewrite Hc0, <- Hs. split; [done|]. auto.
Qed.

(** Candidates that are all pending are fewer than the pending requests. *)
Lemma pending_pigeonhole s op l n i :
  Z.of_nat n ≤ seq_period →
  (∀ j, (j < n)%nat → ∃ r, r ∈ l ∧ pending_match s op (seq_at (cand i j)) r) →
  (n ≤ length l)%nat.
Proof using Hc.
  intros Hn Hm.
  set (vals := (λ j, seq_at (cand i j)) <$> seq 0 n).
  set (keys := omap (λ r, xidseq <$> req_lookup s r) l).
  assert (NoDup vals) as Hnd.
  { apply NoDup_fmap_2_strong; [|apply NoDup_seq].
    intros x y Hx%elem_of_seq Hy%elem_of_seq E%seq_at_inj. apply cand_inj in E; lia. }
  assert (vals ⊆+ keys) as Hsub.
  { apply NoDup_submseteq; [done|]. intros v (j & -> & Hj%elem_of_seq)%list_elem_of_fmap.
    destruct (Hm j) as (r & Hr & q & Hq & <- & _); [lia|].
    apply list_elem_of_omap. exists r. by rewrite Hq. }
  apply submseteq_length in Hsub. unfold vals, keys in Hsub.
  rewrite length_fmap, length_seq in Hsub.
  assert (length (omap (λ r, xidseq <$> req_lookup s r) l) ≤ length l)%nat.
  { clear. induction l as [|r l IH]; csimpl; [lia|].
    destruct (xidseq <$> req_lookup s r); simpl; lia. }
  lia.
Qed.
End Seq.

Lemma get_free_seq_spec (c : config) (Hc : config_ok c) (op : Z) (s : dtst)
    (Hv : refs_valid s (rpending (mgrstate s))) (Hs : seq_ok c (seqsrc s))
    (Hn : Z.of_nat (length (rpending (mgrstate s))) < seq_period c) :
  ∃ rv sq', get_free_seq c op s = Ok (rv, s <| seqsrc := sq' |>) ∧
    0 < rv < 2 ^ 32 ∧ rv mod mpi_wsize c = mpi_rank c ∧ seq_ok c sq' ∧
    (op ≠ DTOP_NONE → ∀ r, r ∈ rpending (mgrstate s) → ¬ pending_match s op rv r).
Proof.
  destruct Hs as (i & Hi & Hs).
  change (get_free_seq c op s) with
    (get_free_seq_loop c (S (length (rpending (mgrstate s)))) op s).
  destruct (get_free_seq_loop_spec c Hc op (S (length (rpending (mgrstate s)))) s i Hv Hi Hs)
    as [(j & _ & -> & Hf)|[_ Hall]].
  - eexists _, _. split; [done|].
    pose proof (seq_at_spec c Hc _ (cand_range c Hc i j)). split; [lia|].
    split; [tauto|]. split; [|done]. eexists. split; [apply cand_range, Hc|done].
  - apply (pending_pigeonhole c Hc) in Hall; lia.
Qed.

(** C20. [get_free_seq] returns, and what it returns is fresh.  As long as the
    pending requests are fewer than the sequence numbers of the rank, the loop
    exits; the number is a non-zero 32-bit value congruent to the rank modulo
    the number of ranks (so no two ranks ever share one), no pending request
    with the same operation has it, and nothing but [seqsrc] changes. *)
Theorem get_free_seq_fresh (c : config) (Hc : config_ok c) (op : Z) (s : dtst)
    (Hv : refs_valid s (rpending (mgrstate s))) (Hs : seq_ok c (seqsrc s))
    (Hn : Z.of_nat (length (rpending (mgrstate s))) < seq_period c) :
  ∃ rv sq', get_free_seq c op s = Ok (rv, s <| seqsrc := sq' |>) ∧
    0 < rv < 2 ^ 32 ∧ rv mod mpi_wsize c = mpi_rank c ∧ seq_ok c sq' ∧
    (op ≠ DTOP_NONE → ∀ r, r ∈ rpending (mgrstate s) → ¬ pending_match s op rv r).
Proof. by apply get_free_seq_spec. Qed.

Lemma get_free_seq_fresh_witness :
  ∃ rv sq', get_free_seq demo_cfg DTOP_CREATE demo_st = Ok (rv, demo_st <| seqsrc := sq' |>) ∧
    0 < rv < 2 ^ 32 ∧ rv mod mpi_wsize demo_cfg = mpi_rank demo_cfg ∧ seq_ok demo_cfg sq' ∧
    (DTOP_CREATE ≠ DTOP_NONE → ∀ r, r ∈ rpending (mgrstate demo_st) →
      ¬ pending_match demo_st DTOP_CREATE rv r).
Proof.
  apply get_free_seq_fresh; [apply demo_cfg_ok|constructor| |done].
  exists 0. by split.
Defined.

(** ** Slot search lemmas *)

Section Cycle.
Context (nmax last : Z) (Hlast : 0 ≤ last < nmax).

(** The [k]-th slot after [last]. *)
Definition slot_after (k : Z) : Z := (last + k) mod nmax.

Lemma slot_after_range k : 0 ≤ slot_after k < nmax.
Proof using Hlast. apply Z.mod_pos_bound. lia. Qed.

Lemma slot_after_S k : 0 ≤ k →
  (if nmax <=? slot_after k + 1 then 0 else slot_after k + 1) = slot_after (k + 1).
Proof using Hlast.
  intros. pose proof (slot_after_range k). unfold slot_after in *.
  replace ((last + (k + 1)) mod nmax) with (((last + k) mod nmax + 1) mod nmax)
    by (rewrite Zplus_mod_idemp_l; f_equal; lia).
  destruct (Z.leb_spec nmax ((last + k) mod nmax + 1)).
  - replace ((last + k) mod nmax + 1) with nmax by lia. by rewrite Z_mod_same_full.
  - symmetry. apply Z.mod_small. lia.
Qed.

(** Every slot is one of the [nmax] slots after [last]. *)
Lemma slot_after_surj i : 0 ≤ i < nmax → ∃ k, 1 ≤ k ≤ nmax ∧ slot_after k = i.
Proof using Hlast.
  intros. unfold slot_after. destruct (decide (last < i)).
  - exists (i - last). split; [lia|]. replace (last + (i - last)) with i by lia.
    by apply Z.mod_small.
  - exists (nmax + i - last). split; [lia|].
    replace (last + (nmax + i - last)) with (i + 1 * nmax) by lia.
    rewrite Z_mod_plus_full. by apply Z.mod_small.
Qed.

End Cycle.

Section Scan.
Context {A : Type} (free : A → bool) (l : list A) (nmax last : Z).
Context (Hlen : nmax = Z.of_nat (length l)) (Hlast : 0 ≤ last < nmax).
Abbreviation slot_after := (slot_after nmax last).

Definition scan_result (o : option Z) : Prop :=
  match o with
  | Some p => ∃ k x, 1 ≤ k ≤ nmax ∧ p = slot_after k ∧ aget l p = Some x ∧
      free x = true ∧ ∀ j y, 1 ≤ j < k → aget l (slot_after j) = Some y → free y = false
  | None => ∀ i x, aget l i = Some x → free x = false
  end.

Lemma slot_scan_from fuel k : 0 ≤ k → k + Z.of_nat fuel = nmax → (0 < fuel)%nat →
  (∀ j y, 1 ≤ j ≤ k → aget l (slot_after j) = Some y → free y = false) →
  ∃ o, slot_scan free l nmax last fuel (slot_after k) = Ok o ∧ scan_result o.
Proof using Hlen Hlast.
  revert k. induction fuel as [|fuel IH]; intros k Hk Hsum Hfuel Hbusy; [lia|].
  simpl. rewrite slot_after_S by done. pose proof (slot_after_range nmax last Hlast (k + 1)).
  destruct (aget_is_Some l (slot_after (k + 1))) as [x Hx]; [lia|]. rewrite Hx.
  destruct (free x) eqn:Hf.
  { eexists. split; [done|]. exists (k + 1), x. split_and!; try done; try lia.
    intros j y ?. apply Hbusy. lia. }
  assert (∀ j y, 1 ≤ j ≤ k + 1 → aget l (slot_after j) = Some y → free y = false) as Hb'.
  { intros j y ? Hy. destruct (decide (j = k + 1)) as [->|]; [congruence|].
    apply (Hbusy j y); [lia|done]. }
  destruct (Z.eqb_spec (slot_after (k + 1)) last) as [E|NE].
  - eexists. split; [done|]. intros i y Hy. pose proof (aget_Some_range _ _ _ Hy).
    destruct (slot_after_surj nmax last Hlast i) as (j & Hj & <-); [lia|]. apply (Hb' j y); [|done].
    split; [lia|]. destruct (decide (k + 1 = nmax)); [lia|]. exfalso.
    unfold ThreadTab.slot_after in E. destruct (decide (last + (k + 1) < nmax)).
    { rewrite Z.mod_small in E; lia. }
    rewrite <- (Z_mod_plus_full _ (-1)) in E. rewrite Z.mod_small in E; lia.
  - apply IH; try done; [lia|lia|]. destruct fuel; [|lia]. exfalso. apply NE.
    unfold ThreadTab.slot_after. replace (last + (k + 1)) with (last + 1 * nmax) by lia.
    rewrite Z_mod_plus_full. by apply Z.mod_small.
Qed.

Lemma slot_scan_spec :
  ∃ o, slot_scan free l nmax last (Z.to_nat nmax) last = Ok o ∧ scan_result o.
Proof using Hlen Hlast.
  pose proof (slot_scan_from (Z.to_nat nmax) 0) as H.
  replace (slot_after 0) with last in H by (unfold ThreadTab.slot_after; rewrite Z.add_0_r; symmetry; by apply Z.mod_small).
  apply H; lia.
Qed.
End Scan.

(** ** Table lemmas *)

Definition gtab_used (g : dthread_gtab_t) : bool := negb (gtab_is_free g).
Definition ltab_used (l : dthread_ltab_t) : bool := negb (ltab_is_free l).

Lemma gtab_used_eq g : gtab_used g = negb (gt_allocated g =? 0).
Proof. done. Qed.

Lemma ltab_used_eq l : ltab_used l = negb (lt_pth_state l =? LT_NONE).
Proof. done. Qed.

(** The tables have [nmaxthread] slots and the counters count the used ones.
    The global table is shared by all ranks; only rank 0 allocates from it, and
    only its counter counts. *)
Record tabs_ok (c : config) (s : dtst) : Prop := {
  gtab_len : Z.of_nat (length (gtab s)) = nmaxthread c;
  ltab_len : Z.of_nat (length (ltab s)) = nmaxthread c;
  gtab_cnt : mpi_rank c = 0 → threads_alloc (mgrstate s) = count_if gtab_used (gtab s);
  ltab_cnt : ltab_alloc_cnt (mgrstate s) = count_if ltab_used (ltab s);
  gtab_last : 0 ≤ last_slot (mgrstate s) < nmaxthread c;
  ltab_last : 0 ≤ ltab_lastslot (mgrstate s) < nmaxthread c }.

(** The entry [gtab_alloc] leaves in the slot. *)
Definition gtab_fresh (rank seq disp_idx : Z) (arg : dthread_argret_t)
    (g : dthread_gtab_t) : dthread_gtab_t :=
  Gtab 1 rank seq disp_idx arg ((gt_ret g) <| dt_argret_type := DTHREAD_NODATA |>)
    0 0 0 (gt_ltab_idx g).

Section Tables.
Context (c : config) (Hc : config_ok c).

Lemma gtab_get_ok s i g : aget (gtab s) i = Some g → gtab_get i s = Ok (g, s).
Proof using. unfold gtab_get, bindM, gets, get_some. simpl. by intros ->. Qed.

Lemma ltab_get_ok s i l : aget (ltab s) i = Some l → ltab_get i s = Ok (l, s).
Proof using. unfold ltab_get, bindM, gets, get_some. simpl. by intros ->. Qed.

Lemma gtab_alloc_eq rank d arg s : mpi_rank c = 0 → tabs_ok c s →
  (threads_alloc (mgrstate s) = nmaxthread c ∧ gtab_alloc c rank d arg s = Ok (-1, s)) ∨
  (threads_alloc (mgrstate s) < nmaxthread c ∧
   ∃ p g, scan_result gtab_is_free (gtab s) (nmaxthread c) (last_slot (mgrstate s)) (Some p) ∧
     aget (gtab s) p = Some g ∧ gt_allocated g = 0 ∧
     gtab_alloc c rank d arg s = Ok (p, s <| seqsrc := next_seq c (seqsrc s) |>
       <| gtab := aset (gtab s) p (gtab_fresh rank (seqsrc s) d arg g) |>
       <| mgrstate ::= (λ m, m <| threads_alloc ::= Z.succ |> <| last_slot := p |>) |>)).
Proof using.
  intros H0 [Hgl _ Hgc _ Hlast _]. specialize (Hgc H0).
  pose proof (count_if_bounds gtab_used (gtab s)) as Hb.
  destruct (Z.leb_spec (nmaxthread c) (threads_alloc (mgrstate s))) as [Hfull|Hroom].
  { left. split; [lia|]. unfold gtab_alloc. mgets.
    by rewrite (proj2 (Z.leb_le _ _) Hfull). }
  right. split; [done|].
  destruct (slot_scan_spec gtab_is_free (gtab s) (nmaxthread c) (last_slot (mgrstate s)))
    as (o & Ho & Hr); [done..|]. destruct o as [p|].
  - destruct (Hr) as (k & g & _ & _ & Hg & Hf & _). exists p, g.
    unfold gtab_is_free in Hf. breflect. split_and!; [done..|].
    unfold gtab_alloc. mgets. rewrite (proj2 (Z.leb_gt _ _) Hroom).
    mstep by (unfold lift_outcome; by rewrite Ho). by mstep by (by apply gtab_get_ok).
  - exfalso. destruct (count_if_lt gtab_used (gtab s)) as (i & g & Hi & Hu); [lia|].
    rewrite <- aget_nat in Hi. apply Hr in Hi. unfold gtab_used in Hu. by rewrite Hi in Hu.
Qed.

Lemma tabs_ok_gtab_alloc s p g rank seq d arg sq : tabs_ok c s →
  aget (gtab s) p = Some g → gt_allocated g = 0 →
  tabs_ok c (s <| seqsrc := sq |> <| gtab := aset (gtab s) p (gtab_fresh rank seq d arg g) |>
    <| mgrstate ::= (λ m, m <| threads_alloc ::= Z.succ |> <| last_slot := p |>) |>).
Proof using.
  intros [] Hg Ha. pose proof (aget_Some_range _ _ _ Hg).
  split; simpl; autorewrite with dthread; try done; try lia.
  rewrite (count_if_aset _ _ _ _ _ Hg), !gtab_used_eq, Ha. simpl. intros Hr. rewrite gtab_cnt0 by done. lia.
Qed.

Lemma gtab_free_eq s i g : aget (gtab s) i = Some g →
  gtab_free i s = Ok (tt, if gt_allocated g =? 0 then s else
    s <| gtab := aset (gtab s) i (g <| gt_allocated := 0 |> <| gt_seq := 0 |> <| gt_has_ltab := 0 |>) |>
      <| mgrstate ::= (λ m, m <| threads_alloc ::= Z.pred |>) |>).
Proof using.
  intros Hg. unfold gtab_free. mstep by (by apply gtab_get_ok).
  by destruct (gt_allocated g =? 0).
Qed.

Lemma tabs_ok_gtab_free s i g : tabs_ok c s →
  aget (gtab s) i = Some g → gt_allocated g ≠ 0 →
  tabs_ok c (s <| gtab := aset (gtab s) i (g <| gt_allocated := 0 |> <| gt_seq := 0 |>
      <| gt_has_ltab := 0 |>) |>
    <| mgrstate ::= (λ m, m <| threads_alloc ::= Z.pred |>) |>).
Proof using.
  intros [] Hg Ha. pose proof (aget_Some_range _ _ _ Hg).
  split; simpl; autorewrite with dthread; try done; try lia.
  rewrite (count_if_aset _ _ _ _ _ Hg), !gtab_used_eq. simpl.
  destruct (Z.eqb_spec (gt_allocated g) 0); [done|]. simpl. intros Hr. rewrite gtab_cnt0 by done. lia.
Qed.

(** Writing an entry without touching [allocated]. *)
Lemma tabs_ok_gtab_put s i g g' : tabs_ok c s →
  aget (gtab s) i = Some g → gt_allocated g' = gt_allocated g →
  tabs_ok c (s <| gtab := aset (gtab s) i g' |>).
Proof using.
  intros [] Hg Ha. split; simpl; autorewrite with dthread; try done.
  rewrite (count_if_aset _ _ _ _ _ Hg), !gtab_used_eq, Ha. intros Hr. rewrite gtab_cnt0 by done. lia.
Qed.

Lemma dt2gtab_eq s t : tabs_ok c s →
  dthread_dt2gtab c t s = Ok (match aget (gtab s) (dt_index t) with
    | Some g => if (gt_allocated g =? 0) || negb (dt_seq t =? gt_seq g) then None
                else Some (dt_index t)
    | None => None end, s).
Proof using.
  intros [Hl _ _ _ _ _]. unfold dthread_dt2gtab.
  destruct ((dt_index t <? 0) || (nmaxthread c <=? dt_index t)) eqn:E.
  - destruct (aget (gtab s) (dt_index t)) eqn:Ha; [|done].
    apply aget_Some_range in Ha. breflect; lia.
  - breflect. destruct (aget_is_Some (gtab s) (dt_index t)) as [g Hg]; [lia|].
    rewrite Hg. mstep by (by apply gtab_get_ok).
    by destruct ((gt_allocated g =? 0) || negb (dt_seq t =? gt_seq g)).
Qed.

Lemma ltab_alloc_eq t s : tabs_ok c s →
  (ltab_alloc_cnt (mgrstate s) = nmaxthread c ∧ ltab_alloc c t s = Ok (-1, s)) ∨
  (ltab_alloc_cnt (mgrstate s) < nmaxthread c ∧
   ∃ p l, aget (ltab s) p = Some l ∧ lt_pth_state l = LT_NONE ∧
     ltab_alloc c t s = Ok (p, s
       <| ltab := aset (ltab s) p (Ltab (dt_index t) (dt_seq t) LT_STARTING (lt_req l)) |>
       <| mgrstate ::= (λ m, m <| ltab_alloc_cnt ::= Z.succ |> <| ltab_lastslot := p |>) |>)).
Proof using Hc.
  intros [_ Hll _ Hlc _ Hlast].
  pose proof (count_if_bounds ltab_used (ltab s)) as Hb.
  destruct (Z.leb_spec (nmaxthread c) (ltab_alloc_cnt (mgrstate s))) as [Hfull|Hroom].
  { left. split; [lia|]. unfold ltab_alloc. mgets.
    by rewrite (proj2 (Z.leb_le _ _) Hfull). }
  right. split; [done|].
  assert (∃ p l, aget (ltab s) p = Some l ∧ lt_pth_state l = LT_NONE ∧
    (if ltab_alloc_cnt (mgrstate s) =? 0 then retM (Some 0)
        else lift_outcome (slot_scan ltab_is_free (ltab s) (nmaxthread c)
               (ltab_lastslot (mgrstate s)) (Z.to_nat (nmaxthread c))
               (ltab_lastslot (mgrstate s)))) s = Ok (Some p, s)) as (p & l & Hp & Hn & Hs).
  { destruct (Z.eqb_spec (ltab_alloc_cnt (mgrstate s)) 0) as [E|].
    - destruct (aget_is_Some (ltab s) 0) as [l Hl]; [destruct Hc; lia|].
      exists 0, l. split; [done|]. split; [|done].
      pose proof (count_if_aset ltab_used (ltab s) 0 l (l <| lt_pth_state := LT_NONE |>) Hl) as Hcnt.
      rewrite !ltab_used_eq in Hcnt. simpl in Hcnt.
      destruct (Z.eqb_spec (lt_pth_state l) LT_NONE); [done|].
      pose proof (count_if_bounds ltab_used (aset (ltab s) 0 (l <| lt_pth_state := LT_NONE |>))).
      simpl in *. lia.
    - destruct (slot_scan_spec ltab_is_free (ltab s) (nmaxthread c) (ltab_lastslot (mgrstate s)))
        as (o & Ho & Hr); [done..|]. unfold lift_outcome. rewrite Ho. destruct o as [p|].
      + destruct Hr as (k & l & _ & _ & Hl & Hf & _). exists p, l.
        unfold ltab_is_free in Hf. breflect. done.
      + exfalso. destruct (count_if_lt ltab_used (ltab s)) as (i & l & Hi & Hu); [lia|].
        rewrite <- aget_nat in Hi. apply Hr in Hi. unfold ltab_used in Hu. by rewrite Hi in Hu. }
  exists p, l. split_and!; [done..|]. unfold ltab_alloc. mgets.
  rewrite (proj2 (Z.leb_gt _ _) Hroom). mstep by (exact Hs).
  by mstep by (by apply ltab_get_ok).
Qed.

Lemma ltab_free_eq s i l : aget (ltab s) i = Some l →
  ltab_free i s = Ok (tt, if lt_pth_state l =? LT_NONE then s else
    s <| ltab := aset (ltab s) i (l <| lt_seq := 0 |> <| lt_pth_state := LT_NONE |>) |>
      <| mgrstate ::= (λ m, m <| ltab_alloc_cnt ::= Z.pred |>) |>).
Proof using.
  intros Hl. unfold ltab_free. mstep by (by apply ltab_get_ok).
  by destruct (lt_pth_state l =? LT_NONE).
Qed.

Lemma tabs_ok_ltab_put s i l l' : tabs_ok c s →
  aget (ltab s) i = Some l → ltab_is_free l' = ltab_is_free l →
  tabs_ok c (s <| ltab := aset (ltab s) i l' |>).
Proof using.
  intros [] Hl Ha. split; simpl; autorewrite with dthread; try done.
  rewrite (count_if_aset _ _ _ _ _ Hl). replace (ltab_used l') with (ltab_used l); [lia|].
  unfold ltab_used. by rewrite Ha.
Qed.

Lemma tabs_ok_ltab_alloc s p l x y req : tabs_ok c s →
  aget (ltab s) p = Some l → lt_pth_state l = LT_NONE →
  tabs_ok c (s <| ltab := aset (ltab s) p (Ltab x y LT_STARTING req) |>
    <| mgrstate ::= (λ m, m <| ltab_alloc_cnt ::= Z.succ |> <| ltab_lastslot := p |>) |>).
Proof using.
  intros [] Hl Ha. pose proof (aget_Some_range _ _ _ Hl).
  split; simpl; autorewrite with dthread; try done; try lia.
  rewrite (count_if_aset _ _ _ _ _ Hl), !ltab_used_eq, Ha. simpl. lia.
Qed.

Lemma tabs_ok_ltab_free s p l : tabs_ok c s →
  aget (ltab s) p = Some l → lt_pth_state l ≠ LT_NONE →
  tabs_ok c (s <| ltab := aset (ltab s) p (l <| lt_seq := 0 |> <| lt_pth_state := LT_NONE |>) |>
    <| mgrstate ::= (λ m, m <| ltab_alloc_cnt ::= Z.pred |>) |>).
Proof using.
  intros [] Hl Ha. pose proof (aget_Some_range _ _ _ Hl).
  split; simpl; autorewrite with dthread; try done; try lia.
  rewrite (count_if_aset _ _ _ _ _ Hl), !ltab_used_eq. simpl.
  destruct (Z.eqb_spec (lt_pth_state l) LT_NONE); [done|]. simpl. lia.
Qed.
End Tables.

(** [gtab_alloc] fails only on a full table, and then changes nothing.
    Otherwise it takes the first free slot after the last one it gave out, in
    cyclic order, initialises every field of it for the new thread, leaves the
    other slots alone, and the count of allocated slots stays exact. *)
Theorem gtab_alloc_correct (c : config) (rank d : Z) (arg : dthread_argret_t) (s : dtst)
    (Hr0 : mpi_rank c = 0) (Hs : tabs_ok c s) :
  wp (gtab_alloc c rank d arg) (λ p s', tabs_ok c s' ∧
    if decide (count_if gtab_used (gtab s) = nmaxthread c) then p = -1 ∧ s' = s
    else
      scan_result gtab_is_free (gtab s) (nmaxthread c) (last_slot (mgrstate s)) (Some p) ∧
      (∃ g, aget (gtab s) p = Some g ∧ gt_allocated g = 0 ∧
         aget (gtab s') p = Some (gtab_fresh rank (seqsrc s) d arg g)) ∧
      (∀ i, i ≠ p → aget (gtab s') i = aget (gtab s) i) ∧
      last_slot (mgrstate s') = p ∧
      threads_alloc (mgrstate s') = threads_alloc (mgrstate s) + 1) s.
Proof.
  pose proof (gtab_cnt _ _ Hs Hr0) as Hcnt.
  destruct (gtab_alloc_eq c rank d arg s Hr0 Hs) as [[Hf E]|(Hr & p & g & Hscan & Hg & Ha & E)];
    (eapply wp_eq; [exact E|]); case_decide; try lia; [done|].
  pose proof (aget_Some_range _ _ _ Hg). split; [by apply tabs_ok_gtab_alloc|].
  split_and!; [done| |intros i Hi; simpl; by apply aget_aset_ne; [lia|]|done|simpl; lia].
  exists g. split_and!; [done..|]. by apply aget_aset_eq.
Qed.

Lemma demo_tabs_ok : tabs_ok demo_cfg demo_st.
Proof. by repeat split. Qed.

Lemma gtab_alloc_correct_witness :
  wp (gtab_alloc demo_cfg 1 1 nodata) (λ p s', tabs_ok demo_cfg s' ∧
    if decide (count_if gtab_used (gtab demo_st) = nmaxthread demo_cfg) then p = -1 ∧ s' = demo_st
    else
      scan_result gtab_is_free (gtab demo_st) (nmaxthread demo_cfg)
        (last_slot (mgrstate demo_st)) (Some p) ∧
      (∃ g, aget (gtab demo_st) p = Some g ∧ gt_allocated g = 0 ∧
         aget (gtab s') p = Some (gtab_fresh 1 (seqsrc demo_st) 1 nodata g)) ∧
      (∀ i, i ≠ p → aget (gtab s') i = aget (gtab demo_st) i) ∧
      last_slot (mgrstate s') = p ∧
      threads_alloc (mgrstate s') = threads_alloc (mgrstate demo_st) + 1) demo_st.
Proof. apply (gtab_alloc_correct demo_cfg 1 1 nodata demo_st); [done|apply demo_tabs_ok]. Defined.

(** A handle resolves in the table an allocation leaves behind to the new
    thread, or to what it resolved to before. *)
Lemma dt2gtab_after_free c s t g : mpi_rank c = 0 → tabs_ok c s →
  aget (gtab s) (dt_index t) = Some g → gt_allocated g ≠ 0 →
  ∃ s', gtab_free (dt_index t) s = Ok (tt, s') ∧ tabs_ok c s' ∧
    seqsrc s' = seqsrc s ∧ threads_alloc (mgrstate s') < nmaxthread c ∧
    ∃ g', aget (gtab s') (dt_index t) = Some g' ∧ gt_allocated g' = 0.
Proof.
  intros H0 Hs Hg Ha. eexists. split; [by apply gtab_free_eq|].
  rewrite (proj2 (Z.eqb_neq _ _) Ha). pose proof (tabs_ok_gtab_free c s _ g Hs Hg Ha) as Hs'.
  split; [done|]. split; [done|]. destruct Hs as [Hl _ Hcnt _ _ _]. specialize (Hcnt H0).
  pose proof (count_if_bounds gtab_used (gtab s)). split; [simpl; lia|].
  eexists. split; [apply aget_aset_eq; by eapply aget_Some_range|done].
Qed.

(** A handle does not outlive its thread.  At rank 0, which owns the
    allocation of the shared table: once the slot of a valid handle
    is freed, the handle is rejected; and when the slot table hands a slot out
    again, the new handle resolves to it while the old one is still rejected,
    as long as the sequence number generator has not come round to the old
    handle's number. *)
Theorem stale_handle_rejected (c : config) (s : dtst) (t : dthread_t) (g : dthread_gtab_t)
    (rank d : Z) (arg : dthread_argret_t)
    (Hr0 : mpi_rank c = 0) (Hs : tabs_ok c s) (Hg : aget (gtab s) (dt_index t) = Some g)
    (Ha : gt_allocated g ≠ 0) (Hseq : seqsrc s ≠ dt_seq t) :
  wp (gtab_free (dt_index t) ;;;
      o1 <- dthread_dt2gtab c t;;
      p <- gtab_alloc c rank d arg;;
      o2 <- dthread_dt2gtab c t;;
      o3 <- dthread_dt2gtab c (Dthread p (seqsrc s));;
      retM (p, o1, o2, o3))
    (λ '(p, o1, o2, o3) _, o1 = None ∧ o2 = None ∧ o3 = Some p) s.
Proof.
  destruct (dt2gtab_after_free c s t g Hr0 Hs Hg Ha) as (s1 & E1 & Hs1 & Hq & Hroom & g1 & Hg1 & Ha1).
  eapply wp_bind, wp_eq; [exact E1|]. eapply wp_bind, wp_eq; [by apply dt2gtab_eq|].
  rewrite Hg1, Ha1. simpl.
  destruct (gtab_alloc_eq c rank d arg s1 Hr0 Hs1) as [[? _]|(_ & p & g2 & _ & Hg2 & Ha2 & E2)]; [lia|].
  eapply wp_bind, wp_eq; [exact E2|].
  pose proof (tabs_ok_gtab_alloc c s1 p g2 rank (seqsrc s1) d arg (next_seq c (seqsrc s1)) Hs1 Hg2 Ha2) as Hs2.
  pose proof (aget_Some_range _ _ _ Hg2).
  eapply wp_bind, wp_eq; [by apply dt2gtab_eq|]. eapply wp_bind, wp_eq; [by apply dt2gtab_eq|].
  apply wp_ret. split; [done|]. simpl. split.
  - destruct (decide (p = dt_index t)) as [->|].
    + rewrite aget_aset_eq by done. simpl. rewrite Hq.
      destruct (Z.eqb_spec (dt_seq t) (seqsrc s)); [congruence|done].
    + rewrite aget_aset_ne by lia. rewrite Hg1, Ha1. done.
  - rewrite aget_aset_eq by done. simpl. by rewrite Hq, Z.eqb_refl.
Qed.

(** Slot 1 of the small job taken by thread <1,2>. *)
Definition demo_st1 : dtst :=
  demo_st <| seqsrc := 4 |>
    <| gtab := aset (gtab demo_st) 1 (gtab_fresh 1 2 1 nodata zero_gtab) |>
    <| mgrstate ::= (λ m, m <| threads_alloc := 1 |> <| last_slot := 1 |>) |>.

Lemma stale_handle_rejected_witness :
  wp (gtab_free 1 ;;;
      o1 <- dthread_dt2gtab demo_cfg (Dthread 1 2);;
      p <- gtab_alloc demo_cfg 0 1 nodata;;
      o2 <- dthread_dt2gtab demo_cfg (Dthread 1 2);;
      o3 <- dthread_dt2gtab demo_cfg (Dthread p (seqsrc demo_st1));;
      retM (p, o1, o2, o3))
    (λ '(p, o1, o2, o3) _, o1 = None ∧ o2 = None ∧ o3 = Some p) demo_st1.
Proof.
  apply (stale_handle_rejected demo_cfg demo_st1 (Dthread 1 2)
           (gtab_fresh 1 2 1 nodata zero_gtab)); [done|by repeat split|done..].
Defined.
