(* ===== verification/Manager.v ===== *)
(** * The manager thread

    [libdthread/dt_mgrthread.c]: the handlers the manager of a rank runs for
    messages from other ranks ([process_mqe]) and requests from local threads
    ([process_req]), the wrappers around application threads, start-up and the
    main loop.  Each handler is a function on the rank's state [dtst], which
    includes the shared global thread table. *)

From S2P Require Import Prelude Types Router Queuing ThreadTab.

Section Handlers.
Context (c : config) (e : env).

Definition upd_mgr (f : dt_mgrstate → dt_mgrstate) : M dtst unit :=
  modify (λ s, s <| mgrstate ::= f |>).

(** Reading and writing a request through its pointer. *)
Definition req_get (r : reqref) : M dtst dthread_request_t :=
  s <- gets id;; get_some BadPointer (req_lookup s r).
Definition req_put (r : reqref) (q : dthread_request_t) : M dtst unit :=
  modify (req_store r q).

(** The [u.waitthread] and [u.creinfo] members of a request. *)
Definition req_waitthread (q : dthread_request_t) : dthread_t :=
  match req_un q with RUWaitthread t => t | _ => stale_thread e end.
Definition req_creinfo (q : dthread_request_t) : dthread_createinfo_t :=
  match req_un q with
  | RUCreinfo i => i
  | _ => Creinfo (stale_thread e) (stale_int e) (stale_int e)
  end.

(** [recycle_dtmsg_mqe] and the stores that complete the new message. *)
Definition recycle_dtmsg_mqe (m : dtq_mpiqentry) (to : dtbody) (to_xidseq : Z) :
    dtq_mpiqentry :=
  m <| flen := sizeof_msg to |> <| frame := Frame to_xidseq to |>.

(** A new message in an allocated entry. *)
Definition fill_mqe (m : dtq_mpiqentry) (to : Z) (xid : Z) (b : dtbody) : dtq_mpiqentry :=
  Mqe (mid m) (Frame xid b) (sizeof_msg b) to.

(** [dtq_send_enqueue], and the entry back to the free list when it fails;
    says whether it was queued. *)
Definition send_or_free (m : dtq_mpiqentry) : M dtst bool :=
  o <- dtq_send_enqueue c m;;
  match o with
  | Some m => dtq_mqe_unalloc m ;;; retM false
  | None => retM true
  end.

(** An argret of which only the type was written. *)
Definition stale_nodata : dthread_argret_t :=
  (stale_argret e) <| dt_argret_type := DTHREAD_NODATA |>.

Definition find_pending_msgreq (m : dtq_mpiqentry) (pending_op msgsize : Z) :
    M dtst (option reqref) :=
  if (u64 (flen m) <? sizeof_header) || (u64 (flen m) <? msgsize) then retM None else
  o <- find_pending_req pending_op (hdr_xidseq (frame m));;
  match o with
  | None => retM None
  | Some r => upd_mgr (λ g, g <| rpending ::= tailq_remove r |>) ;;; retM (Some r)
  end.

(** The loop of [joinwait_search]. *)
Fixpoint joinwait_in (s : dtst) (t : dthread_t) (l : list reqref) :
    outcome (option reqref) :=
  match l with
  | [] => Ok None
  | r :: l =>
      match req_lookup s r with
      | None => Crash BadPointer
      | Some q =>
          if negb (reqop q =? DTOP_JOINWAIT) then joinwait_in s t l
          else if (dt_index (req_waitthread q) =? dt_index t) &&
                  (dt_seq (req_waitthread q) =? dt_seq t) then Ok (Some r)
          else joinwait_in s t l
      end
  end.

Definition joinwait_search (t : dthread_t) (rm : bool) : M dtst (option reqref) :=
  s <- gets id;;
  o <- lift_outcome (joinwait_in s t (rpending (mgrstate s)));;
  match o with
  | None => retM None
  | Some r =>
      whenM rm (upd_mgr (λ g, g <| rpending ::= tailq_remove r |>)) ;;; retM (Some r)
  end.

Definition joinwait_end_release (r : reqref) : M dtst unit :=
  q <- req_get r;;
  (if negb (reqop q =? DTOP_JOINWAIT) then retM tt else
   o <- dtq_mqe_alloc e;;
   match o with
   | None => retM tt
   | Some m =>
       ret <- (if reqerror q =? 0 then
                 gt <- gtab_get (dt_index (req_waitthread q));; retM (gt_ret gt)
               else retM stale_nodata);;
       send_or_free (fill_mqe m (reqpeer q) (xidseq q) (BJoined (reqerror q) ret)) ;;;
       retM tt
   end) ;;;
  dtq_req_release r true.

(** A call through a proc function pointer: its return value and what it
    leaves in the argret and the void pointer it was passed. *)
Definition proc_call (fn op : Z) (a : dthread_argret_t) (p : Z) :
    M dtst (Z * dthread_argret_t * Z) :=
  if fn =? 0 then crash NullDeref else retM (call_proc e fn op a p).

Definition detached_ret_cleanup (gidx : Z) : M dtst unit :=
  gt <- gtab_get gidx;;
  if (gt_disp_idx gt <? 1) || (ndsps c <=? gt_disp_idx gt) then retM tt else
  disp <- get_some OutOfBounds (aget (dsps c) (gt_disp_idx gt));;
  if dt_retproc disp =? 0 then retM tt else
  x <- proc_call (dt_retproc disp) DTHREAD_PROC_FREE (gt_ret gt) 0;;
  let '(_, ret, _) := x in
  gtab_put gidx (gt <| gt_ret := ret <| dt_argret_type := DTHREAD_NODATA |> |>).

(** One pass of the loop of [broadcast_shutdown]. *)
Definition bcast_child (child : Z) : M dtst unit :=
  o <- dtq_mqe_alloc e;;
  match o with
  | None => retM tt
  | Some m => send_or_free (fill_mqe m child 0 BBcastshutdown) ;;; retM tt
  end.

Definition broadcast_shutdown : M dtst unit :=
  children <- lift_outcome (binary_router 0 (mpi_wsize c) (mpi_rank c));;
  forM children bcast_child ;;;
  dtq_send_draindown ;;;
  upd_mgr (λ g, g <| draining := true |>) ;;;
  dtq_notifytimelimit 10.

Definition retclean_request (lidx finalstate : Z) : M dtst unit :=
  lt <- ltab_get lidx;;
  let st := if LT_NEED_FINALSTATE (lt_pth_state lt) then finalstate
            else lt_pth_state lt in
  ltab_put lidx (lt <| lt_pth_state := st |>) ;;;
  whenM ((st =? LT_CANCELED) || (st =? LT_CLEANUP))
    (gt <- gtab_get (lt_gtab_idx lt);;
     gtab_put (lt_gtab_idx lt)
       (gt <| gt_ret ::= (λ a, a <| dt_argret_type := DTHREAD_CANCELED |>) |>)) ;;;
  q <- req_get (RLtab lidx);;
  req_put (RLtab lidx) (q <| reqstate := DTREQ_BUSY |> <| reqpeer := 0 |>
                          <| reqop := DTOP_RETCLEAN |> <| req_mqe := None |>) ;;;
  dtq_req_enqueue (RLtab lidx).

(** ** Creating threads *)

(** [send_created_error] of [create_thread]. *)
Definition send_created_error (m : dtq_mpiqentry) (errstatus : Z) : M dtst unit :=
  o <- dtq_mqe_alloc e;;
  match o with
  | None => retM tt
  | Some em =>
      send_or_free (fill_mqe em (peer m) (hdr_xidseq (frame m))
        (BCreated errstatus (Dthread (nmaxthread c + 1) (dt_seq (stale_thread e))))) ;;;
      retM tt
  end.

(** [deallocate_and_error] of [create_thread]. *)
Definition deallocate_and_error (m : dtq_mpiqentry) (startreq : option reqref)
    (startmqe : option dtq_mpiqentry) (gidx errstatus : Z) : M dtst unit :=
  match startreq with Some r => dtq_req_release r false | None => retM tt end ;;;
  match startmqe with Some sm => dtq_mqe_unalloc sm | None => retM tt end ;;;
  whenM (negb (gidx =? -1)) (gtab_free gidx) ;;;
  send_created_error m errstatus.

(** The adjustments [create_thread] makes to the thread attributes. *)
Definition create_attrs (a : pthread_attr_t) : pthread_attr_t :=
  let a := if a_detachstate a =? PTHREAD_CREATE_DETACHED
           then a <| a_detachstate := PTHREAD_CREATE_JOINABLE |> else a in
  let '(rv, stk_addr, stk_size) := attr_getstack e a in
  if (rv =? 0) || negb (stk_addr =? 0) then attr_setstack e a 0 stk_size else a.

Definition create_thread (m : dtq_mpiqentry) (attrs : pthread_attr_t) (disp_idx : Z)
    (arg : dthread_argret_t) : M dtst unit :=
  g <- gets mgrstate;;
  if (disp_idx =? 0) || (ndsps c <=? disp_idx) then send_created_error m EINVAL
  else if nmaxthread c <=? threads_alloc g then send_created_error m EAGAIN
  else
  let attrs := create_attrs attrs in
  let target := next_rank g in
  upd_mgr (λ g, g <| next_rank := Z.rem (next_rank g + 1) (mpi_wsize c) |>) ;;;
  startreq <- dtq_req_alloc e;;
  startmqe <- match startreq with Some _ => dtq_mqe_alloc e | None => retM None end;;
  gidx <- match startmqe with Some _ => gtab_alloc c target disp_idx arg | None => retM (-1) end;;
  match startreq, startmqe with
  | Some r, Some sm =>
      if gidx =? -1 then deallocate_and_error m startreq startmqe gidx ENOMEM else
      xid <- get_free_seq c DTOP_START;;
      gt <- gtab_get gidx;;
      let t := Dthread gidx (gt_seq gt) in
      q <- req_get r;;
      req_put r (q <| reqpeer := target |> <| reqop := DTOP_START |> <| req_mqe := None |>
                   <| xidseq := xid |> <| reqerror := 0 |>
                   <| req_un := RUCreinfo (Creinfo t (peer m) (hdr_xidseq (frame m))) |>) ;;;
      o <- dtq_send_enqueue c (fill_mqe sm target xid (BStart t attrs));;
      match o with
      | None =>
          upd_mgr (λ g, g <| threads_starting ::= Z.succ |>
                         <| rpending := rpending g ++ [r] |>)
      | Some sm => deallocate_and_error m (Some r) (Some sm) gidx EIO
      end
  | _, _ => deallocate_and_error m startreq startmqe gidx ENOMEM
  end.

(** The validation of a START: true when it is refused. *)
Definition bad_start (t : dthread_t) : M dtst bool :=
  if nmaxthread c <=? dt_index t then retM true else
  gt <- gtab_get (dt_index t);;
  retM (negb (dt_seq t =? gt_seq gt) || (gt_allocated gt =? 0) ||
        (gt_disp_idx gt =? 0) || (ndsps c <=? gt_disp_idx gt) ||
        negb (gt_has_ltab gt =? 0)).

(** [pthread_create] of the thread of [ltab[lidx]]; it stores into the entry. *)
Definition start_pthread (lidx : Z) : M dtst Z :=
  ltab_get lidx ;;;
  n <- gets ncreates;;
  modify (λ s, s <| ncreates := S n |>
                 <| events ::= cons (EvPthreadCreate lidx (pthread_create_rv e n)) |>) ;;;
  retM (pthread_create_rv e n).

Definition start_thread (m : dtq_mpiqentry) (t : dthread_t) (attrs : pthread_attr_t) :
    M dtst unit :=
  o <- dtq_mqe_alloc e;;
  match o with
  | None => retM tt
  | Some sm =>
      bad <- bad_start t;;
      errstatus <- (if (bad : bool) then retM EINVAL else
        lidx <- ltab_alloc c t;;
        rv <- start_pthread lidx;;
        whenM (negb (rv =? 0)) (ltab_free lidx) ;;;
        retM rv);;
      send_or_free (fill_mqe sm 0 (hdr_xidseq (frame m)) (BStarted errstatus)) ;;;
      retM tt
  end.

(** ** Application thread wrappers *)

Record dt_wrapstate := Wrapstate {
  ws_lidx : Z;
  ws_disp : dthread_dispatch_t;
  ws_native : bool;
  ws_pth_decarg : Z;
  ws_pth_ret : Z;
  ws_returned : bool }.

(** [dthreadwrap] up to the call of the start function: its [ws] and [gidx],
    or nothing when it ends the thread instead.  [setspecific_ok]: whether
    [pthread_setspecific] succeeded. *)
Definition dthreadwrap_start (lidx : Z) (setspecific_ok : bool) : M dtst (option (dt_wrapstate * Z)) :=
  if (lidx <? 0) || (nmaxthread c <=? lidx) then retM None else
  lt <- ltab_get lidx;;
  let gidx := lt_gtab_idx lt in
  if (gidx <? 0) || (nmaxthread c <=? gidx) then retM None else
  gt <- gtab_get gidx;;
  if negb (gt_seq gt =? lt_seq lt) then retM None else
  if negb setspecific_ok then retclean_request lidx LT_CANCELED ;;; retM None else
  if (gt_disp_idx gt <? 1) || (ndsps c <=? gt_disp_idx gt) then
    retclean_request lidx LT_CANCELED ;;; retM None else
  disp <- get_some OutOfBounds (aget (dsps c) (gt_disp_idx gt));;
  let native := (dt_argproc disp =? 0) && (dt_retproc disp =? 0) in
  o <- (if native then retM (Some 0) else
    x <- proc_call (dt_argproc disp) DTHREAD_PROC_DECODE (gt_arg gt) (stale_int e);;
    let '(rv, arg, decarg) := x in
    gtab_put gidx (gt <| gt_arg := arg |>) ;;;
    if rv =? 0 then retM (Some decarg)
    else retclean_request lidx LT_CANCELED ;;; retM None);;
  match o with
  | None => retM None
  | Some decarg =>
      gt <- gtab_get gidx;;
      gtab_put gidx (gt <| gt_ltab_idx := lidx |> <| gt_has_ltab := 1 |>) ;;;
      lt <- ltab_get lidx;;
      ltab_put lidx (lt <| lt_pth_state := LT_RUNNING |>) ;;;
      retM (Some (Wrapstate lidx disp native decarg 0 false, gidx))
  end.

Definition dthreadcleanup (ws : dt_wrapstate) : M dtst unit :=
  lt <- ltab_get (ws_lidx ws);;
  let gidx := lt_gtab_idx lt in
  let finalstate := if ws_returned ws then LT_RETURNED else LT_CLEANUP in
  finalstate <- (if ws_native ws then retM finalstate else
    gt <- gtab_get gidx;;
    x <- proc_call (dt_argproc (ws_disp ws)) DTHREAD_PROC_FREE (gt_arg gt)
           (ws_pth_decarg ws);;
    let '(_, arg, _) := x in
    gtab_put gidx (gt <| gt_arg := arg |>) ;;;
    if negb (ws_returned ws) then retM finalstate else
    gt <- gtab_get gidx;;
    y <- proc_call (dt_retproc (ws_disp ws)) DTHREAD_PROC_ENCODE (gt_ret gt)
           (ws_pth_ret ws);;
    let '(rv, ret, _) := y in
    if rv =? 0 then gtab_put gidx (gt <| gt_ret := ret |>) ;;; retM finalstate
    else gtab_put gidx (gt <| gt_ret := ret <| dt_argret_type := DTHREAD_CANCELED |> |>) ;;;
         retM LT_CANCELED);;
  retclean_request (ws_lidx ws) finalstate.

(** How the application code of a thread ended: it returned a value (an argret
    or a void pointer, by its style) or the thread was unwound. *)
Inductive app_end :=
  | AppReturned (ret : dthread_argret_t) (pth_ret : Z)
  | AppUnwound.

(** The rest of [dthreadwrap] once the application code ended. *)
Definition dthreadwrap_finish (ws : dt_wrapstate) (gidx : Z) (r : app_end) : M dtst unit :=
  match r with
  | AppUnwound => dthreadcleanup ws
  | AppReturned ret pth_ret =>
      if ws_native ws then
        gt <- gtab_get gidx;;
        gtab_put gidx (gt <| gt_ret := ret |>) ;;;
        dthreadcleanup (Wrapstate (ws_lidx ws) (ws_disp ws) true (ws_pth_decarg ws)
                          (ws_pth_ret ws) true)
      else
        dthreadcleanup (Wrapstate (ws_lidx ws) (ws_disp ws) false (ws_pth_decarg ws) pth_ret true)
  end.

(** ** Detach, cancel, join, termination *)

Definition detach_thread (m : dtq_mpiqentry) (t : dthread_t) : M dtst unit :=
  o <- dthread_dt2gtab c t;;
  rqe <- match o with
    | None => retM None
    | Some gidx =>
        gt <- gtab_get gidx;;
        gtab_put gidx (gt <| gt_detached := 1 |>) ;;;
        joinwait_search t true
    end;;
  send_or_free (recycle_dtmsg_mqe m
    (BDetached (match o with None => ESRCH | Some _ => 0 end)) (hdr_xidseq (frame m))) ;;;
  match rqe with
  | None => retM tt
  | Some r =>
      q <- req_get r;;
      req_put r (q <| reqerror := EINVAL |>) ;;;
      joinwait_end_release r
  end.

(** The local side of a cancel: the thread of [ltab[i]], if it still runs. *)
Definition cancel_local (i : Z) : M dtst unit :=
  lt <- ltab_get i;;
  whenM (lt_pth_state lt =? LT_RUNNING)
    (modify (λ s, s <| events ::= cons (EvPthreadCancel i) |>) ;;;
     ltab_put i (lt <| lt_pth_state := LT_CANCELED |>)).

Definition cancel_thread (m : dtq_mpiqentry) (t : dthread_t) : M dtst unit :=
  o <- dthread_dt2gtab c t;;
  errstatus <- match o with
    | None => retM ESRCH
    | Some gidx =>
        gt <- gtab_get gidx;;
        if negb (gt_rank gt =? mpi_rank c) then retM EINVAL else
        (if negb (gt_has_ltab gt =? 0) && (0 <=? gt_ltab_idx gt) &&
            (gt_ltab_idx gt <? nmaxthread c) then
           lt <- ltab_get (gt_ltab_idx gt);;
           whenM (lt_seq lt =? gt_seq gt) (cancel_local (gt_ltab_idx gt))
         else retM tt) ;;;
        retM 0
    end;;
  send_or_free (recycle_dtmsg_mqe m (BCanceled errstatus) (hdr_xidseq (frame m))) ;;;
  retM tt.

(** The JOINED reply of [join_thread], in the recycled JOIN. *)
Definition join_reply (m : dtq_mpiqentry) (errstatus : Z) (ret : dthread_argret_t) : M dtst unit :=
  send_or_free (recycle_dtmsg_mqe m (BJoined errstatus ret) (hdr_xidseq (frame m))) ;;;
  retM tt.

Definition join_thread (m : dtq_mpiqentry) (t : dthread_t) : M dtst unit :=
  o <- dthread_dt2gtab c t;;
  match o with
  | None => join_reply m ESRCH stale_nodata
  | Some gidx =>
      gt <- gtab_get gidx;;
      if negb (gt_detached gt =? 0) then join_reply m EINVAL stale_nodata
      else if negb (LT_NEED_FINALSTATE (gt_terminated gt)) then
        join_reply m 0 (gt_ret gt) ;;; gtab_free gidx
      else
        prev <- joinwait_search t false;;
        rqe <- match prev with Some _ => retM None | None => dtq_req_alloc e end;;
        match rqe with
        | Some r =>
            q <- req_get r;;
            req_put r (q <| reqpeer := peer m |> <| reqop := DTOP_JOINWAIT |>
                         <| req_mqe := None |> <| xidseq := hdr_xidseq (frame m) |>
                         <| reqerror := 0 |> <| req_un := RUWaitthread t |>) ;;;
            upd_mgr (λ g, g <| rpending := rpending g ++ [r] |>) ;;;
            dtq_recv_release m
        | None =>
            join_reply m (match prev with Some _ => EINVAL | None => ENOMEM end) stale_nodata
        end
  end.

Definition terminated_thread (t : dthread_t) (finstate : Z) : M dtst unit :=
  gt <- gtab_get (dt_index t);;
  gtab_put (dt_index t) (gt <| gt_terminated := finstate |> <| gt_has_ltab := 0 |>) ;;;
  upd_mgr (λ g, g <| threads_running ::= Z.pred |>) ;;;
  rqe <- joinwait_search t true;;
  match rqe with
  | None => retM tt
  | Some r =>
      whenM (negb (gt_detached gt =? 0))
        (q <- req_get r;; req_put r (q <| reqerror := EINVAL |>)) ;;;
      joinwait_end_release r
  end ;;;
  whenM (negb (gt_detached gt =? 0)) (detached_ret_cleanup (dt_index t)) ;;;
  whenM (negb (gt_detached gt =? 0) || match rqe with Some _ => true | None => false end)
    (gtab_free (dt_index t)).

(** ** The main application thread *)

(** The bytes of [v], least significant first. *)
Fixpoint le_bytes (n : nat) (v : Z) : list Z :=
  match n with O => [] | S n => v mod 256 :: le_bytes n (v / 256) end.

(** [struct app0args] in memory: the function, [argc], padding, [argv]. *)
Definition app0args (app0main argc argv : Z) : list Z :=
  le_bytes 8 app0main ++ le_bytes 4 argc ++ replicate 4 (stale_int e) ++ le_bytes 8 argv.

Definition app0cleanup : M dtst unit := retclean_request 0 LT_CLEANUP.

(** [app0wrap]: [setspecific_ok] says whether [pthread_setspecific] succeeded,
    [r] what the application's main function returned, or that the thread was
    unwound. *)
Definition app0wrap (setspecific_ok : bool) (r : option Z) : M dtst unit :=
  if negb setspecific_ok then app0cleanup else
  match r with
  | None => app0cleanup
  | Some v =>
      upd_mgr (λ g, g <| app0exitval := v |>) ;;;
      lt <- ltab_get 0;;
      ltab_put 0 (lt <| lt_pth_state := LT_RETURNED |>
        <| lt_req := (lt_req lt) <| reqstate := DTREQ_BUSY |> <| reqpeer := 0 |>
             <| reqop := DTOP_APP0_RET |> <| req_mqe := None |> |>) ;;;
      dtq_req_enqueue (RLtab 0)
  end.

Definition mgr_startapp (argc argv : Z) : M dtst Z :=
  upd_mgr (λ g, g <| ltab_alloc_cnt := 1 |> <| ltab_lastslot := 0 |>
                  <| threads_alloc := 1 |> <| threads_running := 1 |> <| last_slot := 0 |>
                  <| next_rank := Z.rem (next_rank g + 1) (mpi_wsize c) |>) ;;;
  gt <- gtab_get 0;;
  seq <- get_free_seq c DTOP_NONE;;
  disp <- get_some OutOfBounds (aget (dsps c) 0);;
  gtab_put 0 (gt <| gt_allocated := 1 |> <| gt_rank := 0 |> <| gt_seq := seq |>
    <| gt_disp_idx := 0 |>
    <| gt_arg := Argret DTHREAD_INLINE 24 (UInline (app0args (dt_start disp) argc argv)) |>
    <| gt_ret ::= (λ a, a <| dt_argret_type := DTHREAD_NODATA |>) |>
    <| gt_detached := 0 |> <| gt_has_ltab := 1 |> <| gt_ltab_idx := 0 |>) ;;;
  lt <- ltab_get 0;;
  ltab_put 0 (lt <| lt_gtab_idx := 0 |> <| lt_seq := seq |> <| lt_pth_state := LT_RUNNING |>) ;;;
  start_pthread 0.

(** ** Messages *)

(** A reply to a request of a local thread: [upd] stores what the reply says
    into the request. *)
Definition reply_req (m : dtq_mpiqentry) (pending_op : Z)
    (upd : dthread_request_t → dthread_request_t) : M dtst unit :=
  o <- find_pending_msgreq m pending_op (sizeof_msg (fr_body (frame m)));;
  match o with
  | None => retM tt
  | Some r => q <- req_get r;; req_put r (upd q) ;;; dtq_req_release r true
  end ;;;
  dtq_recv_release m.

(** The [u.retval] member of a request. *)
Definition req_retval (q : dthread_request_t) : Z :=
  match req_un q with RURetval p => p | _ => stale_int e end.

(** The STARTED case of [process_mqe]. *)
Definition started_msg (m : dtq_mpiqentry) (myerrstatus : Z) : M dtst unit :=
  o <- find_pending_msgreq m DTOP_START (sizeof_msg (fr_body (frame m)));;
  match o with
  | None => dtq_recv_release m
  | Some r =>
      upd_mgr (λ g, g <| threads_starting ::= Z.pred |>) ;;;
      q <- req_get r;;
      let ci := req_creinfo q in
      (if myerrstatus =? 0 then upd_mgr (λ g, g <| threads_running ::= Z.succ |>)
       else gtab_free (dt_index (c_thread ci))) ;;;
      let newthread := if myerrstatus =? 0 then c_thread ci else stale_thread e in
      send_or_free ((recycle_dtmsg_mqe m (BCreated myerrstatus newthread) (c_xidseq ci))
                      <| peer := c_peer ci |>) ;;;
      dtq_req_release r false
  end.

(** The JOINED case of [process_mqe]. *)
Definition joined_msg (m : dtq_mpiqentry) (errstatus : Z) (joinret : dthread_argret_t) :
    M dtst unit :=
  o <- find_pending_msgreq m DTOP_JOIN (sizeof_msg (fr_body (frame m)));;
  match o with
  | None => retM tt
  | Some r =>
      q <- req_get r;;
      req_put r (q <| reqerror := errstatus |>) ;;;
      whenM (negb (req_retval q =? 0))
        (modify (λ s, s <| retbufs ::= <[req_retval q := joinret]> |>)) ;;;
      dtq_req_release r true
  end ;;;
  dtq_recv_release m.

(** The TERMINATED case of [process_mqe]. *)
Definition terminated_msg (m : dtq_mpiqentry) (t : dthread_t) (finalstate : Z) : M dtst unit :=
  (if negb (mpi_rank c =? 0) then retM tt
   else if negb (u64 (flen m) =? sizeof_msg (BTerminated t finalstate)) then retM tt
   else if nmaxthread c <=? dt_index t then retM tt
   else
     gt <- gtab_get (dt_index t);;
     if negb (gt_seq gt =? dt_seq t) then retM tt
     else if finalstate =? LT_RUNNING then retM tt
     else terminated_thread t finalstate) ;;;
  dtq_recv_release m.

(** The message types only rank 0 expects. *)
Definition rank0_op (op : Z) : bool :=
  (op =? DTOP_CREATE) || (op =? DTOP_STARTED) || (op =? DTOP_DETACH) ||
  (op =? DTOP_JOIN) || (op =? DTOP_TERMINATED).

Definition process_mqe (m : dtq_mpiqentry) : M dtst unit :=
  if u64 (flen m) <? sizeof_header then dtq_recv_release m else
  if negb (mpi_rank c =? 0) && rank0_op (hdr_op (frame m)) then dtq_recv_release m else
  let body := fr_body (frame m) in
  let runt := u64 (flen m) <? sizeof_msg body in
  match body with
  | BCreate attrs disp_idx arg =>
      whenM (negb runt) (create_thread m attrs disp_idx arg) ;;; dtq_recv_release m
  | BCreated errstatus newthread =>
      reply_req m DTOP_CREATE (λ q,
        let q := q <| reqerror := errstatus |> in
        if errstatus =? 0 then q <| req_un := RUNewdthread newthread |> else q)
  | BStart t attrs => whenM (negb runt) (start_thread m t attrs) ;;; dtq_recv_release m
  | BStarted errstatus => started_msg m errstatus
  | BDetach t => whenM (negb runt) (detach_thread m t)
  | BDetached errstatus => reply_req m DTOP_DETACH (λ q, q <| reqerror := errstatus |>)
  | BCancel t => whenM (negb runt) (cancel_thread m t)
  | BCanceled errstatus => reply_req m DTOP_CANCEL (λ q, q <| reqerror := errstatus |>)
  | BJoin t => if runt then dtq_recv_release m else join_thread m t
  | BJoined errstatus joinret => joined_msg m errstatus joinret
  | BTerminated t finalstate => terminated_msg m t finalstate
  | BBcastshutdown => broadcast_shutdown ;;; dtq_recv_release m
  | BOther _ => dtq_recv_release m
  end.

(** ** Requests *)

(** A CREATE, DETACH, CANCEL or JOIN of a local thread.  The source stores the
    [xidseq] into the message before it looks whether there is one. *)
Definition forward_req (r : reqref) : M dtst unit :=
  q <- req_get r;;
  req_put r (q <| req_mqe := None |>) ;;;
  xid <- get_free_seq c (reqop q);;
  req_put r (q <| req_mqe := None |> <| xidseq := xid |>) ;;;
  m <- get_some NullDeref (req_mqe q);;
  queued <- send_or_free (m <| frame ::= (λ f, f <| hdr_xidseq := xid |>) |>);;
  if (queued : bool) then upd_mgr (λ g, g <| rpending := rpending g ++ [r] |>)
  else
    q <- req_get r;;
    req_put r (q <| reqerror := EIO |>) ;;;
    dtq_req_release r true.

Definition retclean_req (r : reqref) (idx : Z) : M dtst unit :=
  o <- dtq_mqe_alloc e;;
  match o with
  | None => retM tt
  | Some m =>
      lt <- ltab_get idx;;
      gt <- gtab_get (lt_gtab_idx lt);;
      whenM (negb (gt_has_ltab gt =? 0) && (gt_ltab_idx gt =? idx) && (gt_seq gt =? lt_seq lt))
        (gtab_put (lt_gtab_idx lt) (gt <| gt_has_ltab := 0 |>)) ;;;
      modify (λ s, s <| events ::= cons (EvPthreadJoin idx) |>) ;;;
      send_or_free (fill_mqe m 0 0
        (BTerminated (Dthread (lt_gtab_idx lt) (lt_seq lt)) (lt_pth_state lt))) ;;;
      ltab_free idx
  end ;;;
  dtq_req_release r false.

Definition process_req (r : reqref) : M dtst unit :=
  q <- req_get r;;
  let idx := req_ltabidx q in
  if (idx <? 0) || (nmaxthread c <=? idx) || negb (bool_decide (r = RLtab idx)) then
    dtq_req_release r true else
  lt <- ltab_get idx;;
  if negb (reqstate (lt_req lt) =? DTREQ_BUSY) then dtq_req_release r true else
  if (reqop q =? DTOP_CREATE) || (reqop q =? DTOP_DETACH) || (reqop q =? DTOP_CANCEL) ||
     (reqop q =? DTOP_JOIN) then forward_req r
  else if reqop q =? DTOP_RETCLEAN then retclean_req r idx
  else if reqop q =? DTOP_APP0_RET then
    whenM (mpi_rank c =? 0) broadcast_shutdown ;;; dtq_req_release r false
  else dtq_req_release r true.

(** ** The main loop *)

(** [mgr_main] before its loop: false when it aborts the job. *)
Definition mgr_main_start (argc argv : Z) : M dtst bool :=
  upd_mgr (λ g, g <| rpending := [] |>) ;;;
  if mpi_rank c =? 0 then rv <- mgr_startapp argc argv;; retM (rv =? 0) else retM true.

(** The top of the loop body; says whether the loop is left. *)
Definition mgr_loop_top : M dtst bool :=
  g <- gets mgrstate;;
  whenM ((mpi_rank c =? 0) && (threads_running g =? 0) && negb (draining g))
    broadcast_shutdown ;;;
  g <- gets mgrstate;;
  d <- dtq_send_drainstate;;
  retM (draining g && (d =? DTQ_DD_DRAINED)).

(** The rest of the loop body, with what [dtq_notifywait] returned. *)
Definition mgr_loop_work (x : option dtq_mpiqentry * option reqref) : M dtst unit :=
  match fst x with Some m => process_mqe m | None => retM tt end ;;;
  match snd x with Some r => process_req r | None => retM tt end.

(** After the loop, once the MPI thread has stopped. *)
Definition mgr_main_exit : M dtst Z :=
  dtq_finalize ;;;
  g <- gets mgrstate;;
  retM (if mpi_rank c =? 0 then app0exitval g else 0).

End Handlers.

