(* ===== verification/ManagerInv.v ===== *)
(** * The invariant of a rank

    What every handler of [libdthread/dt_mgrthread.c] keeps: exact table
    counters, valid and distinct pending requests with unique keys, and a
    strict account of the message entries.  An entry or an internal request a
    handler has in its hands is in the lists [hm] and [hr]. *)

From S2P Require Import Prelude Types Router Queuing ThreadTab Manager.

(** ** Requests *)

Definition fwd_op (op : Z) : bool :=
  (op =? DTOP_CREATE) || (op =? DTOP_DETACH) || (op =? DTOP_CANCEL) || (op =? DTOP_JOIN).

(** A pending request: one of a local thread that waits for the reply to its
    message, or an internal START or JOINWAIT with the matching union member. *)
Definition pend_ok (c : config) (r : reqref) (q : dthread_request_t) : Prop :=
  match r with
  | RLtab _ => fwd_op (reqop q) = true
  | RInternal _ =>
      (reqop q = DTOP_START ∧
         ∃ ci, req_un q = RUCreinfo ci ∧ 0 ≤ dt_index (c_thread ci) < nmaxthread c) ∨
      (reqop q = DTOP_JOINWAIT ∧ reqerror q = 0 ∧
         ∃ t, req_un q = RUWaitthread t ∧ 0 ≤ dt_index t < nmaxthread c)
  end.

Definition same_key (q q' : dthread_request_t) : Prop :=
  reqop q = reqop q' ∧ if reqop q =? DTOP_JOINWAIT then req_un q = req_un q'
                       else xidseq q = xidseq q'.

Record pend_inv (c : config) (lk : reqref → option dthread_request_t) (n : nat)
    (pend free hr : list reqref) : Prop := {
  pi_nodup : NoDup (hr ++ pend ++ free);
  pi_int : ∀ r, r ∈ hr ++ free → (∃ id, r = RInternal id) ∧ is_Some (lk r);
  pi_pend : ∀ r, r ∈ pend → ∃ q, lk r = Some q ∧ pend_ok c r q;
  pi_ireq : ∀ id q, lk (RInternal id) = Some q → (id < n)%nat ∧ reqstate q = DTREQ_INTERNAL;
  pi_lreq : ∀ i q, lk (RLtab i) = Some q → reqstate q ≠ DTREQ_INTERNAL;
  pi_keys : ∀ r r' q q', r ∈ pend → r' ∈ pend → lk r = Some q → lk r' = Some q' →
    same_key q q' → r = r' }.

(** ** Message entries *)

Definition mids (q : dtq_state) : list nat :=
  mid <$> (mqefree q ++ mpisendq q ++ mpirecvq q).

(** Every entry ever malloced is in exactly one place: one of the lists, or
    the hands [hm]. *)
Definition owned (hm : list nat) (s : dtst) : Prop :=
  NoDup (hm ++ mids (dtq s)) ∧
  Forall (λ i, (i < nmallocs s)%nat) (hm ++ mids (dtq s)) ∧
  nmqe (dtq s) = Z.of_nat (length (hm ++ mids (dtq s))).

Record rank_ok (c : config) (hr : list reqref) (hm : list nat) (s : dtst) : Prop := {
  ok_tabs : tabs_ok c s;
  ok_seq : seq_ok c (seqsrc s);
  ok_q : dtq_wf (dtq s);
  ok_mqe : owned hm s;
  ok_pend : pend_inv c (req_lookup s) (nmallocs s) (rpending (mgrstate s))
              (reqfree (dtq s)) hr }.

(** ** Lemmas on the request part *)

Section Pend.
Context (c : config).
Implicit Types (lk : reqref → option dthread_request_t) (pend free hr : list reqref).

Lemma pend_inv_ext lk lk' n n' pend free hr :
  (∀ r, lk' r = lk r) → (n ≤ n')%nat →
  pend_inv c lk n pend free hr → pend_inv c lk' n' pend free hr.
Proof.
  intros Hlk Hn []. split; intros; rewrite ?Hlk in *; eauto.
  edestruct pi_ireq0; [done|]. split; [lia|done].
Qed.

Lemma pend_inv_perm lk n pend free hr hr' :
  hr ≡ₚ hr' → pend_inv c lk n pend free hr → pend_inv c lk n pend free hr'.
Proof.
  intros Hp []. split; try done; [by rewrite <- Hp|].
  intros r. rewrite <- Hp. apply pi_int0.
Qed.

(** A held request goes to the free list, and back. *)
Lemma pend_inv_release lk n pend free hr r :
  pend_inv c lk n pend free (r :: hr) → pend_inv c lk n pend (r :: free) hr.
Proof.
  intros []. split; try done.
  - eapply NoDup_perm; [|exact pi_nodup0]. solve_perm.
  - intros r' Hr'. apply pi_int0. solve_in.
Qed.

Lemma pend_inv_alloc lk n pend free hr r :
  pend_inv c lk n pend (r :: free) hr → pend_inv c lk n pend free (r :: hr).
Proof.
  intros []. split; try done.
  - eapply NoDup_perm; [|exact pi_nodup0]. solve_perm.
  - intros r' Hr'. apply pi_int0. solve_in.
Qed.

(** A new internal request. *)
Lemma pend_inv_malloc lk lk' n pend free hr q :
  lk' (RInternal n) = Some q → reqstate q = DTREQ_INTERNAL →
  (∀ r, r ≠ RInternal n → lk' r = lk r) →
  pend_inv c lk n pend free hr → pend_inv c lk' (S n) pend free (RInternal n :: hr).
Proof.
  intros Hq Hst Hlk []. 
  assert (lk (RInternal n) = None) as Hn.
  { destruct (lk (RInternal n)) eqn:E; [|done]. apply pi_ireq0 in E as []. lia. }
  assert (∀ r, r ∈ hr ++ pend ++ free → r ≠ RInternal n) as Hne.
  { intros r Hr ->. assert (RInternal n ∈ pend ∨ RInternal n ∈ hr ++ free) as [H|H] by solve_in.
    - destruct (pi_pend0 _ H) as (? & ? & _). congruence.
    - destruct (pi_int0 _ H) as [_ [? ?]]. congruence. }
  split.
  - simpl. constructor; [|done]. intros H. by apply (Hne _ H).
  - intros r. simpl. intros [->|Hr]%elem_of_cons; [by eauto|].
    rewrite Hlk by (apply Hne; solve_in). by apply pi_int0.
  - intros r Hr. rewrite Hlk by (apply Hne; solve_in). by apply pi_pend0.
  - intros id q' H. destruct (decide (id = n)) as [->|Hid].
    + rewrite Hq in H. simplify_eq. split; [lia|done].
    + rewrite Hlk in H by congruence. apply pi_ireq0 in H as []. split; [lia|done].
  - intros i q' H. rewrite Hlk in H by done. eauto.
  - intros r r' q1 q2 Hr Hr'. rewrite !Hlk by (apply Hne; solve_in). eauto.
Qed.

(** Writing a request that is not pending. *)
Lemma pend_inv_write lk lk' n pend free hr r q q' :
  r ∉ pend → lk r = Some q → lk' r = Some q' → (∀ r', r' ≠ r → lk' r' = lk r') →
  (reqstate q' = DTREQ_INTERNAL ↔ reqstate q = DTREQ_INTERNAL) →
  pend_inv c lk n pend free hr → pend_inv c lk' n pend free hr.
Proof.
  intros Hr Hq Hq' Hlk Hst [].
  assert (∀ r', r' ∈ pend → lk' r' = lk r') as Hp by (intros r' ?; apply Hlk; congruence).
  split; try done.
  - intros r' H. apply pi_int0 in H as [? [? ?]]. split; [done|].
    destruct (decide (r' = r)) as [->|]; [by rewrite Hq'|]. rewrite Hlk by done. by eexists.
  - intros r' H. rewrite Hp by done. by apply pi_pend0.
  - intros id q1 H. destruct (decide (RInternal id = r)) as [<-|].
    + rewrite Hq' in H. simplify_eq. apply pi_ireq0 in Hq as []. tauto.
    + rewrite Hlk in H by done. eauto.
  - intros i q1 H. destruct (decide (RLtab i = r)) as [<-|].
    + rewrite Hq' in H. simplify_eq. apply pi_lreq0 in Hq. tauto.
    + rewrite Hlk in H by done. eauto.
  - intros r1 r2 q1 q2 H1 H2. rewrite !Hp by done. eauto.
Qed.

(** A request becomes pending: a held internal one, or one of a local thread. *)
Definition key_fresh lk pend (q : dthread_request_t) : Prop :=
  ∀ r' q', r' ∈ pend → lk r' = Some q' → ¬ same_key q q'.

Lemma pend_inv_push_gen lk n pend free hr r q :
  NoDup (hr ++ (pend ++ [r]) ++ free) →
  (∀ r, r ∈ hr ++ free → (∃ id, r = RInternal id) ∧ is_Some (lk r)) →
  (∀ r, r ∈ pend → ∃ q, lk r = Some q ∧ pend_ok c r q) →
  (∀ id q, lk (RInternal id) = Some q → (id < n)%nat ∧ reqstate q = DTREQ_INTERNAL) →
  (∀ i q, lk (RLtab i) = Some q → reqstate q ≠ DTREQ_INTERNAL) →
  (∀ r r' q q', r ∈ pend → r' ∈ pend → lk r = Some q → lk r' = Some q' →
    same_key q q' → r = r') →
  lk r = Some q → pend_ok c r q → key_fresh lk pend q →
  pend_inv c lk n (pend ++ [r]) free hr.
Proof.
  intros Hnd Hint Hp Hi Hl Hk Hq Hok Hf. split; try done.
  - intros r'. rewrite elem_of_app, list_elem_of_singleton. intros [?| ->]; eauto.
  - intros r1 r2 q1 q2. rewrite !elem_of_app, !list_elem_of_singleton.
    intros [H1| ->] [H2| ->] E1 E2 Hs; simplify_eq; [by eauto| |by destruct (Hf r2 q2)|done].
    destruct (Hf r1 q1); [done..|]. destruct Hs as [Hop Hs]. split; [done|].
    rewrite <- Hop. by case_match.
Qed.

Lemma pend_inv_push lk n pend free hr r q :
  lk r = Some q → pend_ok c r q → key_fresh lk pend q →
  pend_inv c lk n pend free (r :: hr) → pend_inv c lk n (pend ++ [r]) free hr.
Proof.
  intros ??? []. eapply pend_inv_push_gen; try done.
  - eapply NoDup_perm; [|exact pi_nodup0]. solve_perm.
  - intros r' ?. apply pi_int0. by right.
Qed.

Lemma pend_inv_push_ltab lk n pend free hr i q :
  RLtab i ∉ pend → lk (RLtab i) = Some q → pend_ok c (RLtab i) q → key_fresh lk pend q →
  pend_inv c lk n pend free hr → pend_inv c lk n (pend ++ [RLtab i]) free hr.
Proof.
  intros Hni ??? []. eapply pend_inv_push_gen; try done.
  assert (RLtab i ∉ hr ++ pend ++ free) as Hn.
  { rewrite !elem_of_app. intros [Hi|[Hi|Hi]]; [|done|];
      (destruct (pi_int0 (RLtab i)) as [[? ?] _]; [solve_in|done]). }
  eapply (NoDup_perm (RLtab i :: hr ++ pend ++ free)); [|by constructor].
  solve_perm.
Qed.

(** A request leaves the pending list; an internal one is then held. *)
Definition take_ref (r : reqref) hr : list reqref :=
  match r with RInternal _ => r :: hr | RLtab _ => hr end.

Lemma pend_inv_remove lk n pend free hr r :
  r ∈ pend → pend_inv c lk n pend free hr →
  pend_inv c lk n (tailq_remove r pend) free (take_ref r hr).
Proof.
  intros Hr []. pose proof (tailq_remove_Permutation r pend Hr) as Hp.
  assert (∀ r', r' ∈ tailq_remove r pend → r' ∈ pend) by (intros; by eapply tailq_remove_elem).
  assert (NoDup (r :: hr ++ tailq_remove r pend ++ free)) as Hnd.
  { eapply NoDup_perm; [|exact pi_nodup0]. rewrite Hp at 1. solve_perm. }
  split; eauto.
  - destruct r; [by inversion Hnd|done].
  - destruct r; [done|]. simpl. intros r [->|Hr']%elem_of_cons; [|by auto].
    destruct (pi_pend0 _ Hr) as (? & -> & _). eauto.
Qed.
End Pend.

(** ** Lemmas on the queue part *)

(** Only the queues, but for the free requests, and the heap changed. *)
Definition qsame (s s' : dtst) : Prop :=
  ∃ q n, s' = s <| dtq := q |> <| nmallocs := n |> ∧ reqfree q = reqfree (dtq s) ∧
    (nmallocs s ≤ n)%nat.

#[export] Instance qsame_preorder : PreOrder qsame.
Proof.
  split; [intros s; exists (dtq s), (nmallocs s); by destruct s|].
  intros s s1 s2 (q1 & n1 & -> & ? & ?) (q2 & n2 & -> & ? & ?).
  exists q2, n2. simpl in *. split; [done|]. split; [congruence|lia].
Qed.

Section Prim.
Context (c : config) (e : env) (Hc : config_ok c).
Implicit Types (hr : list reqref) (hm : list nat).

Lemma rank_ok_qsame hr hm hm' s s' : rank_ok c hr hm s → qsame s s' →
  dtq_wf (dtq s') → owned hm' s' → rank_ok c hr hm' s'.
Proof.
  intros [[] Hs _ _ Hp] (q & n & -> & Hf & Hn) Hwf Ho. split; try done.
  simpl. rewrite Hf. by eapply pend_inv_ext.
Qed.

Lemma rank_ok_perm hr hr' hm hm' s : hr ≡ₚ hr' → hm ≡ₚ hm' →
  rank_ok c hr hm s → rank_ok c hr' hm' s.
Proof.
  intros Hr Hm [Ht Hs Hq (Hnd & Hlt & Hcnt) Hp]. split; try done; [|by eapply pend_inv_perm].
  unfold owned. by rewrite <- Hm.
Qed.

(** The account after entries moved between hands and lists. *)
Lemma owned_move hm hm' s q : owned hm s → nmqe q = nmqe (dtq s) →
  hm' ++ mids q ≡ₚ hm ++ mids (dtq s) → owned hm' (s <| dtq := q |>).
Proof. intros (Hnd & Hlt & Hn) Hq Hp. unfold owned. simpl. by rewrite Hp, Hq. Qed.

Lemma owned_new hm s q : owned hm s → nmqe q = nmqe (dtq s) + 1 → mids q = mids (dtq s) →
  owned (nmallocs s :: hm) (s <| dtq := q |> <| nmallocs := S (nmallocs s) |>).
Proof.
  intros (Hnd & Hlt & Hn) Hq Hm. unfold owned. simpl. rewrite Hm, Hq, Hn. split_and!.
  - constructor; [|done]. rewrite Forall_forall in Hlt. intros H%Hlt. lia.
  - constructor; [lia|]. eapply Forall_impl; [exact Hlt|]. simpl. lia.
  - lia.
Qed.

Ltac wf_solve :=
  repeat split; simpl; rewrite ?length_app; simpl;
  first [ lia | done | unfold DTQ_DD_INIT, DTQ_DD_DRAINED, DTQ_DD_DRAINING in *; lia
        | intros; simplify_eq; done ].

Lemma wp_mqe_put hr hm s m : rank_ok c hr (mid m :: hm) s →
  wp (upd_dtq (λ q, q <| mqefree ::= cons m |>)) (λ _ s', qsame s s' ∧ rank_ok c hr hm s') s.
Proof.
  intros H. apply wp_modify.
  assert (qsame s (s <| dtq ::= (λ q, q <| mqefree ::= cons m |>) |>)) as Hq
    by (by eexists _, (nmallocs s)).
  split; [done|]. eapply rank_ok_qsame; [exact H|done|by destruct (ok_q _ _ _ _ H)|].
  eapply owned_move; [by eapply ok_mqe|done|]. unfold mids. csimpl. solve_perm.
Qed.

Lemma wp_mqe_alloc hr hm s : rank_ok c hr hm s →
  wp (dtq_mqe_alloc e) (λ o s', qsame s s' ∧
    rank_ok c hr (match o with Some m => mid m :: hm | None => hm end) s') s.
Proof.
  intros H. unfold dtq_mqe_alloc, malloc, upd_dtq. wp_steps.
  destruct (mqefree (dtq s)) as [|m rest] eqn:Ef; wp_steps;
    try match goal with H : (if _ then _ else _) = _ |- _ => case_match; simplify_eq end.
  - assert (qsame s (s <| nmallocs := S (nmallocs s) |> <| dtq ::= (λ q, q <| nmqe ::= Z.succ |>) |>))
      by (eexists _, _; split; [done|split; [done|simpl; lia]]).
    split; [done|]. eapply rank_ok_qsame; [exact H|done|by destruct (ok_q _ _ _ _ H)|].
    eapply (owned_new hm s); [by eapply ok_mqe|done|done].
  - assert (qsame s (s <| nmallocs := S (nmallocs s) |>))
      by (eexists (dtq s), _; split; [done|split; [done|simpl; lia]]).
    split; [done|]. eapply rank_ok_qsame; [exact H|done|by destruct (ok_q _ _ _ _ H)|].
    destruct (ok_mqe _ _ _ _ H) as (? & Hlt & ?). split_and!; try done.
    eapply Forall_impl; [exact Hlt|]. simpl. lia.
  - assert (qsame s (s <| dtq ::= (λ q, q <| mqefree := rest |>) |>))
      by (by eexists _, (nmallocs s)).
    split; [done|]. eapply rank_ok_qsame; [exact H|done|by destruct (ok_q _ _ _ _ H)|].
    eapply owned_move; [by eapply ok_mqe|done|]. unfold mids. rewrite Ef. csimpl. solve_perm.
Qed.

Lemma wp_send_enqueue hr hm s m : rank_ok c hr (mid m :: hm) s →
  wp (dtq_send_enqueue c m) (λ o s', qsame s s' ∧
    match o with Some m' => m' = m ∧ rank_ok c hr (mid m :: hm) s'
    | None => rank_ok c hr hm s' end) s.
Proof.
  intros H. unfold dtq_send_enqueue, dtq_recv_enqueue_locked, upd_dtq. wp_steps; breflect.
  - done.
  - assert (∀ b q, recv_enqueue m (dtq s) = q → b = q <| nloop ::= Z.succ |> →
      nmqe b = nmqe (dtq s) ∧ reqfree b = reqfree (dtq s) ∧ dtq_wf b ∧
      mids b ≡ₚ mid m :: mids (dtq s)) as Hb.
    { intros b q <- ->. destruct H as [_ _ [] _ _]. unfold recv_enqueue, mgr_signal, mids.
      destruct (mgr_idle (dtq s)) eqn:E; csimpl; (split_and!; [done|done| |csimpl; solve_perm]);
        split; simpl; rewrite ?length_app; simpl; try case_match; breflect; try done; try lia;
        by intros Hw%wf_wait. }
    edestruct Hb as (Hn & Hf & Hw & Hm); [done..|].
    assert (qsame s (s <| dtq ::= recv_enqueue m |> <| dtq ::= (λ q, q <| nloop ::= Z.succ |>) |>))
      by (exists ((recv_enqueue m (dtq s)) <| nloop ::= Z.succ |>), (nmallocs s); done).
    split; [done|]. eapply rank_ok_qsame; [exact H|done|done|].
    eapply (owned_move (mid m :: hm) hm s); [by eapply ok_mqe|done|]. simpl. rewrite Hm. solve_perm.
  - match goal with |- qsame _ ?s' ∧ _ => assert (qsame s s') as Hs by (by eexists _, (nmallocs s)) end.
    split; [exact Hs|]. eapply rank_ok_qsame; [exact H|exact Hs| |].
    + destruct H as [_ _ [] _ _]. simpl. unfold DTQ_DD_INIT, DTQ_DD_DRAINED, DTQ_DD_DRAINING in *.
      split; simpl; rewrite ?length_app; simpl; try case_match; breflect; try done; first [lia|by left].
    + eapply owned_move; [by eapply ok_mqe|done|]. unfold mids. csimpl. solve_perm.
Qed.

Lemma wp_send_or_free hr hm s m : rank_ok c hr (mid m :: hm) s →
  wp (send_or_free c m) (λ _ s', qsame s s' ∧ rank_ok c hr hm s') s.
Proof.
  intros H. unfold send_or_free. wp_step. eapply wp_mono; [by apply wp_send_enqueue|].
  intros [m'|] s1 (Hq & Hs1); [|by apply wp_ret].
  destruct Hs1 as [-> Hs1]. wp_step. eapply wp_mono; [by apply wp_mqe_put|].
  intros [] s2 (Hq2 & Hs2). apply wp_ret. split; [|done]. by etrans.
Qed.

(** ** Tables and sequence numbers *)

Lemma rank_ok_tabs hr hm s s' : rank_ok c hr hm s → tabs_ok c s' → seq_ok c (seqsrc s') →
  dtq s' = dtq s → nmallocs s' = nmallocs s → rpending (mgrstate s') = rpending (mgrstate s) →
  (∀ r, req_lookup s' r = req_lookup s r) → rank_ok c hr hm s'.
Proof.
  intros [_ _ Hq Ho Hp] Ht Hs Ed En Er El. split; try done; rewrite ?Ed; try done.
  - unfold owned in *. by rewrite Ed, En.
  - rewrite En, Er. by eapply pend_inv_ext.
Qed.

Lemma gtab_in_range hr hm s i : rank_ok c hr hm s → 0 ≤ i < nmaxthread c →
  ∃ g, aget (gtab s) i = Some g.
Proof. intros [[] _ _ _ _] Hi. apply aget_is_Some. lia. Qed.

Lemma wp_gtab_get hr hm s i (Q : dthread_gtab_t → dtst → Prop) :
  rank_ok c hr hm s → 0 ≤ i < nmaxthread c →
  (∀ g, aget (gtab s) i = Some g → Q g s) → wp (gtab_get i) Q s.
Proof.
  intros H Hi HQ. destruct (gtab_in_range _ _ _ _ H Hi) as [g Hg].
  eapply wp_eq; [by apply gtab_get_ok|auto].
Qed.

Lemma rank_ok_gtab_put hr hm s i g g' : rank_ok c hr hm s →
  aget (gtab s) i = Some g → gt_allocated g' = gt_allocated g →
  rank_ok c hr hm (s <| gtab := aset (gtab s) i g' |>).
Proof.
  intros H Hg Ha. eapply rank_ok_tabs; [exact H| |by destruct H|try done..].
  by eapply tabs_ok_gtab_put; [apply H|..].
Qed.

Lemma wp_gtab_free hr hm s i : rank_ok c hr hm s → 0 ≤ i < nmaxthread c →
  wp (gtab_free i) (λ _ s', rank_ok c hr hm s' ∧ rpending (mgrstate s') = rpending (mgrstate s)) s.
Proof.
  intros H Hi. destruct (gtab_in_range _ _ _ _ H Hi) as [g Hg].
  eapply wp_eq; [by apply gtab_free_eq|]. destruct (Z.eqb_spec (gt_allocated g) 0); [done|].
  split; [|done]. eapply rank_ok_tabs; [exact H| |by destruct H|try done..].
  by apply tabs_ok_gtab_free; [apply H|..].
Qed.

Lemma seq_ok_next sq : seq_ok c sq → seq_ok c (next_seq c sq).
Proof using Hc.
  intros (i & Hi & ->). rewrite next_seq_at by done. eexists. split; [|done].
  apply Z.mod_pos_bound. pose proof (seq_period_bounds c Hc). lia.
Qed.

Lemma wp_gtab_alloc hr hm s rank d arg : mpi_rank c = 0 → rank_ok c hr hm s →
  wp (gtab_alloc c rank d arg) (λ p s', (p = -1 ∨ 0 ≤ p < nmaxthread c) ∧ rank_ok c hr hm s' ∧
    rpending (mgrstate s') = rpending (mgrstate s)) s.
Proof using Hc.
  intros Hr0 H. destruct (gtab_alloc_eq c rank d arg s Hr0 (ok_tabs _ _ _ _ H))
    as [[_ E]|(_ & p & g & _ & Hg & Ha & E)]; (eapply wp_eq; [exact E|]).
  { auto. }
  pose proof (aget_Some_range _ _ _ Hg). pose proof (gtab_len _ _ (ok_tabs _ _ _ _ H)).
  split; [lia|]. split; [|done].
  eapply rank_ok_tabs; [exact H| |by apply seq_ok_next, H|try done..].
  by apply tabs_ok_gtab_alloc; [apply H|..].
Qed.

Lemma pending_refs hr hm s : rank_ok c hr hm s → refs_valid s (rpending (mgrstate s)).
Proof.
  intros H. apply Forall_forall. intros r Hr.
  destruct (pi_pend _ _ _ _ _ _ (ok_pend _ _ _ _ H) r Hr) as (?&->&_). by eexists.
Qed.
Lemma wp_get_free_seq hr hm s op : rank_ok c hr hm s →
  Z.of_nat (length (rpending (mgrstate s))) < seq_period c →
  wp (get_free_seq c op) (λ xid s', (∃ sq, s' = s <| seqsrc := sq |>) ∧ rank_ok c hr hm s' ∧
    (op ≠ DTOP_NONE → ∀ r, r ∈ rpending (mgrstate s) → ¬ pending_match s op xid r)) s.
Proof using Hc.
  intros H Hn. pose proof (pending_refs _ _ _ H) as Hv.
  destruct (get_free_seq_spec c Hc op s Hv (ok_seq _ _ _ _ H) Hn) as (xid & sq & E & _ & _ & Hs & Hf).
  eapply wp_eq; [exact E|]. split; [by eexists|]. split; [|done].
  eapply rank_ok_tabs; [exact H| |done|try done..].
  destruct H as [[] _ _ _ _]. by split.
Qed.

Lemma wp_ltab_free hr hm s i l : rank_ok c hr hm s → aget (ltab s) i = Some l →
  wp (ltab_free i) (λ _ s', rank_ok c hr hm s' ∧ rpending (mgrstate s') = rpending (mgrstate s) ∧
    ∀ r, req_lookup s' r = req_lookup s r) s.
Proof.
  intros H Hl. eapply wp_eq; [by apply ltab_free_eq|].
  destruct (Z.eqb_spec (lt_pth_state l) LT_NONE); [done|].
  pose proof (aget_Some_range _ _ _ Hl).
  match goal with |- rank_ok _ _ _ ?s' ∧ _ => assert (∀ r, req_lookup s' r = req_lookup s r) as El end.
  { intros [j|id]; [|done]. simpl. destruct (decide (i = j)) as [->|].
    - by rewrite aget_aset_eq, Hl by done.
    - by rewrite aget_aset_ne by lia. }
  split; [|done]. eapply rank_ok_tabs; [exact H| |by destruct H|try done..].
  by apply tabs_ok_ltab_free; [apply H|..].
Qed.

Lemma wp_ltab_alloc hr hm s t : rank_ok c hr hm s → ltab_alloc_cnt (mgrstate s) < nmaxthread c →
  wp (ltab_alloc c t) (λ p s', rank_ok c hr hm s' ∧ is_Some (aget (ltab s') p)) s.
Proof using Hc.
  intros H Hroom. destruct (ltab_alloc_eq c Hc t s (ok_tabs _ _ _ _ H))
    as [[? _]|(_ & p & l & Hl & Hst & E)]; [lia|].
  pose proof (aget_Some_range _ _ _ Hl).
  eapply wp_eq; [exact E|]. split; [|simpl; rewrite aget_aset_eq by done; by eexists].
  eapply rank_ok_tabs; [exact H| |by destruct H|try done..].
  { by apply tabs_ok_ltab_alloc with (l := l); [apply H|..]. }
  intros [j|id]; [|done]. simpl. destruct (decide (p = j)) as [->|].
  - by rewrite aget_aset_eq, Hl by done.
  - by rewrite aget_aset_ne by lia.
Qed.

(** ** Requests *)

Lemma req_get_ok s r q : req_lookup s r = Some q → req_get r s = Ok (q, s).
Proof. unfold req_get, bindM, gets, get_some. simpl. by intros ->. Qed.

Lemma wp_req_get s r q (Q : dthread_request_t → dtst → Prop) :
  req_lookup s r = Some q → Q q s → wp (req_get r) Q s.
Proof. intros Hq HQ. eapply wp_eq; [by apply req_get_ok|done]. Qed.

(** What [req_store] leaves alone. *)
Lemma req_store_frame r q s : dtq (req_store r q s) = dtq s ∧
  mgrstate (req_store r q s) = mgrstate s ∧ nmallocs (req_store r q s) = nmallocs s ∧
  seqsrc (req_store r q s) = seqsrc s ∧ gtab (req_store r q s) = gtab s.
Proof. destruct r; simpl; [|done]. by destruct (aget (ltab s) i). Qed.

Lemma rpending_req_store r q s : rpending (mgrstate (req_store r q s)) = rpending (mgrstate s).
Proof. by destruct (req_store_frame r q s) as (_ & -> & _). Qed.

Lemma tabs_ok_req_store r q s : tabs_ok c s → tabs_ok c (req_store r q s).
Proof.
  intros Ht. destruct r as [i|id]; simpl; [|by destruct Ht].
  destruct (aget (ltab s) i) as [l|] eqn:E; [|done]. by eapply tabs_ok_ltab_put.
Qed.

Lemma rank_ok_req_put hr hm s r q q' : rank_ok c hr hm s → r ∉ rpending (mgrstate s) →
  req_lookup s r = Some q → (reqstate q' = DTREQ_INTERNAL ↔ reqstate q = DTREQ_INTERNAL) →
  rank_ok c hr hm (req_store r q' s).
Proof.
  intros [Ht Hs Hq Ho Hp] Hr Hl Hst. destruct (req_store_frame r q' s) as (Ed & Em & En & Es & Eg).
  split; rewrite ?Es, ?Ed, ?Em, ?En; try done; [by apply tabs_ok_req_store| |].
  - unfold owned. by rewrite Ed, En.
  - eapply (pend_inv_write c (req_lookup s)); try done.
    + by apply req_lookup_store_eq; eexists.
    + intros. by apply req_lookup_store_ne.
Qed.

Lemma wp_req_put hr hm s r q q' : rank_ok c hr hm s → r ∉ rpending (mgrstate s) →
  req_lookup s r = Some q → (reqstate q' = DTREQ_INTERNAL ↔ reqstate q = DTREQ_INTERNAL) →
  wp (req_put r q') (λ _ s', s' = req_store r q' s ∧ rank_ok c hr hm s' ∧
    req_lookup s' r = Some q') s.
Proof.
  intros. apply wp_modify. split; [done|]. split; [by eapply rank_ok_req_put|].
  by apply req_lookup_store_eq; eexists.
Qed.

Lemma wp_req_alloc hr hm s : rank_ok c hr hm s →
  wp (dtq_req_alloc e) (λ o s', mgrstate s' = mgrstate s ∧ gtab s' = gtab s ∧
    (∀ r, r ∈ rpending (mgrstate s) → req_lookup s' r = req_lookup s r) ∧
    rank_ok c (match o with Some r => r :: hr | None => hr end) hm s') s.
Proof.
  intros H. unfold dtq_req_alloc, malloc, upd_dtq. wp_steps.
  destruct (reqfree (dtq s)) as [|r rest] eqn:Ef; wp_steps;
    try match goal with H : (if _ then _ else _) = _ |- _ => case_match; simplify_eq end;
    (split; [done|split; [done|split]]); try done; destruct H as [Ht Hs Hq Ho Hp].
  - intros r Hr. destruct r as [|id]; [done|]. simpl. rewrite lookup_insert_ne; [done|].
    intros <-. apply (pi_pend _ _ _ _ _ _ Hp) in Hr as (q & Hl & _).
    apply (pi_ireq _ _ _ _ _ _ Hp) in Hl as []. lia.
  - split; try done; [by destruct Ht|by destruct Hq| |].
    + destruct Ho as (? & Hlt & ?). split_and!; try done.
      eapply Forall_impl; [exact Hlt|]. simpl. lia.
    + simpl. rewrite Ef. rewrite Ef in Hp.
      eapply (pend_inv_malloc c (req_lookup s)); [by simpl; rewrite lookup_insert_eq|done| |done].
      intros [j|id'] Hne; [done|]. simpl. rewrite lookup_insert_ne; congruence.
  - split; try done; [by destruct Ht| |].
    + destruct Ho as (? & Hlt & ?). split_and!; try done.
      eapply Forall_impl; [exact Hlt|]. simpl. lia.
    + simpl. rewrite Ef in *. eapply pend_inv_ext; [..|exact Hp]; [done|lia].
  - split; try done; [by destruct Ht|by destruct Hq|]. simpl. rewrite Ef in Hp.
    by apply pend_inv_alloc.
Qed.

(** The release of a request that was just taken off the pending list. *)
Lemma wp_req_release hr hm s r b : rank_ok c (take_ref r hr) hm s → r ∉ rpending (mgrstate s) →
  is_Some (req_lookup s r) →
  wp (dtq_req_release r b) (λ _ s', rank_ok c hr hm s' ∧ mgrstate s' = mgrstate s ∧ gtab s' = gtab s) s.
Proof.
  intros H Hr [q Hl]. unfold dtq_req_release. wp_steps.
  eapply wp_get_some; [exact Hl|]. wp_steps; breflect.
  - split; [|done]. destruct H as [Ht Hs Hq Ho Hp]. split; try done; [by destruct Ht|by destruct Hq|].
    simpl. destruct r as [i|id].
    + by apply (pi_lreq _ _ _ _ _ _ Hp) in Hl.
    + by apply pend_inv_release.
  - destruct (req_store_frame r (q <| reqstate := if b then DTREQ_DONE else DTREQ_IDLE |>) s)
      as (_ & Em & _ & _ & Eg). split; [|done].
    destruct r as [i|id]; [|destruct H as [_ _ _ _ Hp]; by apply (pi_ireq _ _ _ _ _ _ Hp) in Hl as []].
    eapply rank_ok_req_put; [exact H|done|exact Hl|]. simpl.
    split; [|done]. destruct b; done.
Qed.

(** Taking a request off the pending list. *)
Lemma rank_ok_take hr hm s r : rank_ok c hr hm s → r ∈ rpending (mgrstate s) →
  let s' := s <| mgrstate ::= (λ g, g <| rpending ::= tailq_remove r |>) |> in
  rank_ok c (take_ref r hr) hm s' ∧ r ∉ rpending (mgrstate s').
Proof.
  intros [Ht Hs Hq Ho Hp] Hr. split.
  - split; try done; [by destruct Ht|]. by apply pend_inv_remove.
  - simpl. apply tailq_remove_not_elem. destruct Hp as [Hnd _ _ _ _ _].
    apply NoDup_app in Hnd as (_ & _ & Hnd). by apply NoDup_app in Hnd as [? _].
Qed.


Lemma wp_find_pending_msgreq hr hm s m op sz : rank_ok c hr hm s →
  wp (find_pending_msgreq m op sz) (λ o s',
    match o with
    | None => s' = s
    | Some r => s' = s <| mgrstate ::= (λ g, g <| rpending ::= tailq_remove r |>) |> ∧
        rank_ok c (take_ref r hr) hm s' ∧ (r ∉ rpending (mgrstate s')) ∧
        ∃ q, req_lookup s r = Some q ∧ reqop q = op ∧ xidseq q = hdr_xidseq (frame m) ∧ pend_ok c r q
    end) s.
Proof.
  intros H. unfold find_pending_msgreq. wp_step; [by apply wp_ret|]. wp_step.
  destruct (find_pending_in_spec s op (hdr_xidseq (frame m)) _ (pending_refs _ _ _ H)) as (o & Eo & Ho).
  eapply wp_eq; [unfold find_pending_req; by rewrite Eo|]. destruct o as [r|]; [|by apply wp_ret].
  destruct Ho as [Hr (q & Hq & Hx & Hop)]. unfold upd_mgr. wp_steps. split; [done|].
  destruct (rank_ok_take _ _ _ _ H Hr) as [Hok Hni]. split; [exact Hok|]. split; [exact Hni|].
  destruct (pi_pend _ _ _ _ _ _ (ok_pend _ _ _ _ H) r Hr) as (q' & Hq' & Hp). simplify_eq. by exists q.
Qed.

(** The JOINWAIT request of a thread. *)
Definition waits_for (s : dtst) (t : dthread_t) (r : reqref) : Prop :=
  ∃ q, req_lookup s r = Some q ∧ reqop q = DTOP_JOINWAIT ∧ req_un q = RUWaitthread t.

Lemma joinwait_in_spec s t l :
  (∀ r, r ∈ l → ∃ q, req_lookup s r = Some q ∧ pend_ok c r q) →
  ∃ o, joinwait_in e s t l = Ok o ∧
    match o with
    | Some r => r ∈ l ∧ waits_for s t r
    | None => ∀ r, r ∈ l → ¬ waits_for s t r
    end.
Proof.
  induction l as [|r l IH]; intros Hl; simpl.
  { eexists. split; [done|]. intros r []%not_elem_of_nil. }
  destruct (Hl r) as (q & Hq & Hp); [left|]. rewrite Hq.
  destruct IH as (o & Eo & Ho); [intros r' ?; apply Hl; by right|].
  assert (¬ waits_for s t r → ∃ o', Ok o = Ok o' ∧ match o' with
    | Some r0 => r0 ∈ r :: l ∧ waits_for s t r0
    | None => ∀ r0, r0 ∈ r :: l → ¬ waits_for s t r0 end) as Hskip.
  { intros Hn. exists o. split; [done|]. destruct o as [r'|].
    - destruct Ho. split; [by right|done].
    - intros r' [->|Hr']%elem_of_cons; [done|by apply Ho]. }
  destruct (Z.eqb_spec (reqop q) DTOP_JOINWAIT) as [E|NE]; simpl.
  - destruct r as [i|id]; [simpl in Hp; by rewrite E in Hp|].
    destruct Hp as [[E' _]|(_ & _ & t' & Ht & _)]; [by rewrite E in E'|].
    unfold req_waitthread. rewrite Ht.
    destruct ((dt_index t' =? dt_index t) && (dt_seq t' =? dt_seq t)) eqn:Em.
    + breflect. eexists. split; [done|]. split; [left|]. exists q. split_and!; try done.
      rewrite Ht. by destruct t, t'; simplify_eq/=.
    + rewrite Eo. apply Hskip. intros (q' & Hq' & _ & Hu). rewrite Hq in Hq'. simplify_eq. rewrite Ht in Hu. simplify_eq. by rewrite !Z.eqb_refl in Em.
  - rewrite Eo. apply Hskip. intros (q' & ? & ? & _). by simplify_eq.
Qed.

Lemma wp_joinwait_search hr hm s t (rm : bool) : rank_ok c hr hm s →
  wp (joinwait_search e t rm) (λ o s',
    match o with
    | None => s' = s ∧ ∀ r, r ∈ rpending (mgrstate s) → ¬ waits_for s t r
    | Some r => r ∈ rpending (mgrstate s) ∧ waits_for s t r ∧
        if rm then s' = s <| mgrstate ::= (λ g, g <| rpending ::= tailq_remove r |>) |> ∧
          rank_ok c (r :: hr) hm s' ∧ r ∉ rpending (mgrstate s')
        else s' = s
    end) s.
Proof.
  intros H. unfold joinwait_search. wp_steps.
  pose proof (pi_pend _ _ _ _ _ _ (ok_pend _ _ _ _ H)) as Hp.
  destruct (joinwait_in_spec s t _ Hp) as (o & Eo & Ho).
  eapply wp_eq; [unfold lift_outcome; cbv [id]; by rewrite Eo|]. destruct o as [r|]; [|by wp_steps].
  destruct Ho as [Hr Hw]. unfold upd_mgr. destruct rm; unfold whenM; wp_steps; [|done].
  split; [done|]. split; [done|]. split; [done|].
  destruct (rank_ok_take _ _ _ _ H Hr) as [Hok Hni]. split; [|exact Hni].
  destruct Hw as (q & Hq & Hop & _), (Hp r Hr) as (q' & Hq' & Hpo). simplify_eq.
  destruct r; [|exact Hok]. simpl in Hpo. by rewrite Hop in Hpo.
Qed.

(** ** Handlers *)

Lemma wp_joinwait_end_release hr hm s r t q : rank_ok c (r :: hr) hm s →
  r ∉ rpending (mgrstate s) → req_lookup s r = Some q → reqop q = DTOP_JOINWAIT →
  req_un q = RUWaitthread t → 0 ≤ dt_index t < nmaxthread c →
  wp (joinwait_end_release c e r) (λ _ s', rank_ok c hr hm s' ∧ mgrstate s' = mgrstate s ∧
    gtab s' = gtab s) s.
Proof.
  intros H Hr Hq Hop Hu Ht. unfold joinwait_end_release. wp_step.
  eapply wp_req_get; [exact Hq|]. rewrite Hop. simpl. wp_step.
  assert (∃ id, r = RInternal id) as [id ->].
  { apply (pi_int _ _ _ _ _ _ (ok_pend _ _ _ _ H)). simpl. left. }
  assert (∀ s', rank_ok c (RInternal id :: hr) hm s' → qsame s s' →
    wp (dtq_req_release (RInternal id) true) (λ _ s', rank_ok c hr hm s' ∧
      mgrstate s' = mgrstate s ∧ gtab s' = gtab s) s') as Hrel.
  { intros s' Hs' (q' & n & -> & _). eapply wp_mono; [by eapply wp_req_release|].
    by intros [] s2 (? & -> & ->). }
  wp_step. eapply wp_mono; [by apply wp_mqe_alloc|]. intros [m|] s1 (Hq1 & Hok1);
    [|by apply wp_ret, Hrel].
  wp_step. apply wp_mono with (Q := λ _ s', s' = s1).
  { destruct (reqerror q =? 0); [|by apply wp_ret]. wp_step.
    eapply wp_gtab_get; [exact Hok1|by unfold req_waitthread; rewrite Hu|]. by intros; apply wp_ret. }
  intros ret ? ->. wp_step. eapply wp_mono; [by eapply wp_send_or_free|].
  intros b s2 (Hq2 & Hok2). apply wp_ret, Hrel; [done|]. by etrans.
Qed.

Lemma wp_broadcast_shutdown hr hm s : rank_ok c hr hm s →
  wp (broadcast_shutdown c e) (λ _ s', rank_ok c hr hm s' ∧ draining (mgrstate s') = true ∧
    rpending (mgrstate s') = rpending (mgrstate s) ∧ ltab s' = ltab s ∧ ireqs s' = ireqs s) s.
Proof using Hc.
  intros H. unfold broadcast_shutdown. wp_step. destruct Hc as [? ? ? ?].
  eapply wp_eq; [unfold lift_outcome; by rewrite binary_router_eq by lia|]. wp_step.
  eapply wp_mono; [apply wp_forM with (I := λ s', rank_ok c hr hm s' ∧ qsame s s')|].
  - intros ch s1 _ [H1 Hq1]. unfold bcast_child. wp_step.
    eapply wp_mono; [by apply wp_mqe_alloc|]. intros [m|] s2 [Hq2 H2]; wp_steps; [|split; [done|by etrans]].
    eapply wp_mono; [by eapply wp_send_or_free|]. intros ? s3 [Hq3 H3]. wp_steps.
    split; [done|]. by do 2 (etrans; [eassumption|]).
  - done.
  - intros [] s1 [[Ht Hs Hq Ho Hp] (q1 & n1 & -> & _ & _)]. unfold dtq_send_draindown, upd_mgr, dtq_notifytimelimit, upd_dtq.
    wp_steps. split; [|done]. split; try done; [by destruct Ht|].
    destruct Hq. simpl in *. split; try done. simpl. case_match; breflect; [by right; right|].
    right. left. split; [done|lia].
Qed.

Lemma wp_send_created_error hr hm s m err : rank_ok c hr hm s →
  wp (send_created_error c e m err) (λ _ s', rank_ok c hr hm s' ∧ qsame s s') s.
Proof.
  intros H. unfold send_created_error. wp_step. eapply wp_mono; [by apply wp_mqe_alloc|].
  intros [em|] s1 [Hq1 H1]; wp_steps; [|done].
  eapply wp_mono; [by eapply wp_send_or_free|]. intros ? s2 [Hq2 H2]. wp_steps.
  split; [done|]. by etrans.
Qed.

(** An internal request in hand is on no list. *)
Lemma held_not_pending hr hm s r : rank_ok c (r :: hr) hm s → r ∉ rpending (mgrstate s).
Proof.
  intros H Hr. destruct (ok_pend _ _ _ _ H) as [Hnd _ _ _ _ _]. simpl in Hnd.
  apply NoDup_cons in Hnd as [Hn _]. apply Hn. solve_in.
Qed.

Lemma held_internal hr hm s r : rank_ok c (r :: hr) hm s →
  ∃ id q, r = RInternal id ∧ req_lookup s r = Some q ∧ reqstate q = DTREQ_INTERNAL.
Proof.
  intros H. destruct (ok_pend _ _ _ _ H) as [_ Hi _ Hn _ _].
  destruct (Hi r) as [[id ->] [q Hq]]; [left|]. exists id, q. split_and!; try done. by eapply Hn.
Qed.

Lemma wp_release_held hr hm s r b : rank_ok c (r :: hr) hm s →
  wp (dtq_req_release r b) (λ _ s', rank_ok c hr hm s' ∧ mgrstate s' = mgrstate s ∧ gtab s' = gtab s) s.
Proof.
  intros H. destruct (held_internal _ _ _ _ H) as (id & q & -> & Hq & _).
  apply wp_req_release; [done|by eapply held_not_pending|by eexists].
Qed.

Lemma wp_deallocate_and_error hr hm s m r (sm : option dtq_mpiqentry) gidx err :
  rank_ok c (r :: hr) (match sm with Some x => mid x :: hm | None => hm end) s →
  gidx = -1 ∨ 0 ≤ gidx < nmaxthread c →
  wp (deallocate_and_error c e m (Some r) sm gidx err) (λ _ s', rank_ok c hr hm s') s.
Proof.
  intros H Hg. unfold deallocate_and_error. wp_step. eapply wp_mono; [by eapply wp_release_held|].
  intros [] s1 [H1 _]. wp_step. eapply wp_mono with (Q := λ _ s', rank_ok c hr hm s').
  { destruct sm; [|by apply wp_ret]. eapply wp_mono; [by apply wp_mqe_put|]. by intros ? ? []. }
  intros [] s2 H2. wp_step. eapply wp_mono with (Q := λ _ s', rank_ok c hr hm s').
  { wp_step; breflect; [|done]. eapply wp_mono; [apply wp_gtab_free; [done|lia]|]. by intros ? ? []. }
  intros [] s3 H3. eapply wp_mono; [by apply wp_send_created_error|]. by intros ? ? [].
Qed.

(** Changing counters of the manager. *)
Lemma rank_ok_mgr hr hm s (f : dt_mgrstate → dt_mgrstate) : rank_ok c hr hm s →
  (∀ g, rpending (f g) = rpending g ∧ threads_alloc (f g) = threads_alloc g ∧
     ltab_alloc_cnt (f g) = ltab_alloc_cnt g ∧ last_slot (f g) = last_slot g ∧
     ltab_lastslot (f g) = ltab_lastslot g) →
  rank_ok c hr hm (s <| mgrstate ::= f |>).
Proof.
  intros [[] Hs Hq Ho Hp] Hf. destruct (Hf (mgrstate s)) as (E1 & E2 & E3 & E4 & E5).
  split; try done; simpl; [split; simpl; by rewrite ?E2, ?E3, ?E4, ?E5|]. by rewrite E1.
Qed.

(** A pending message key that no pending request has. *)
Lemma key_fresh_msg s pend q : reqop q ≠ DTOP_JOINWAIT →
  (∀ r, r ∈ pend → ¬ pending_match s (reqop q) (xidseq q) r) → key_fresh (req_lookup s) pend q.
Proof.
  intros Hop Hf r q' Hr Hq [H1 H2]. apply Z.eqb_neq in Hop. rewrite Hop in H2.
  apply (Hf r Hr). by exists q'.
Qed.

Lemma rank_ok_push hr hm s r q (f : dt_mgrstate → dt_mgrstate) :
  rank_ok c (r :: hr) hm s → req_lookup s r = Some q →
  pend_ok c r q → key_fresh (req_lookup s) (rpending (mgrstate s)) q →
  (∀ g, rpending (f g) = rpending g ++ [r] ∧ threads_alloc (f g) = threads_alloc g ∧
     ltab_alloc_cnt (f g) = ltab_alloc_cnt g ∧ last_slot (f g) = last_slot g ∧
     ltab_lastslot (f g) = ltab_lastslot g) →
  rank_ok c hr hm (s <| mgrstate ::= f |>).
Proof.
  intros [[] Hs Hq Ho Hp] Hl Hpo Hf Hg. destruct (Hg (mgrstate s)) as (E1 & E2 & E3 & E4 & E5).
  split; try done; simpl; [split; simpl; by rewrite ?E2, ?E3, ?E4, ?E5|]. rewrite E1.
  eapply pend_inv_push; [..|exact Hp]; done.
Qed.

(** What a request write leaves of the others. *)
Lemma key_fresh_put s r q q' : r ∉ rpending (mgrstate s) →
  key_fresh (req_lookup s) (rpending (mgrstate s)) q →
  key_fresh (req_lookup (req_store r q' s)) (rpending (mgrstate (req_store r q' s))) q.
Proof.
  rewrite rpending_req_store. intros Hr Hf r' q1 Hr'. rewrite req_lookup_store_ne by congruence. by apply Hf.
Qed.

Lemma wp_create_thread hr hm s m attrs d arg : mpi_rank c = 0 → rank_ok c hr hm s →
  Z.of_nat (length (rpending (mgrstate s))) < seq_period c →
  wp (create_thread c e m attrs d arg) (λ _ s', rank_ok c hr hm s') s.
Proof using Hc.
  intros Hr0 H Hn. unfold create_thread. wp_step. wp_step. wp_step.
  { eapply wp_mono; [by apply wp_send_created_error|]. by intros ? ? []. }
  wp_step. { eapply wp_mono; [by apply wp_send_created_error|]. by intros ? ? []. }
  cbv zeta. unfold upd_mgr. do 2 wp_step.
  apply (rank_ok_mgr _ _ _ (λ g, g <| next_rank := Z.rem (next_rank g + 1) (mpi_wsize c) |>)) in H;
    [|done]. set (s0 := s <| mgrstate ::= _ |>) in *.
  assert (Z.of_nat (length (rpending (mgrstate s0))) < seq_period c) as Hn0 by done.
  clearbody s0. clear Hn. wp_step.
  eapply wp_mono; [by apply wp_req_alloc|]. intros [r|] s1 (Em & _ & _ & Hk1).
  2: { simpl. wp_steps. eapply wp_mono; [by apply wp_send_created_error|]. by intros ? ? []. }
  wp_step. eapply wp_mono; [by apply wp_mqe_alloc|]. intros [sm|] s2 [Hq2 Hk2].
  2: { wp_steps. eapply (wp_deallocate_and_error hr hm s2 m r None); auto. }
  assert (mgrstate s2 = mgrstate s1) as Em2 by (by destruct Hq2 as (? & ? & -> & _)).
  wp_step. eapply wp_mono; [by apply wp_gtab_alloc|]. intros gidx s3 (Hg & Hk3 & Ep3).
  wp_step; breflect. { eapply (wp_deallocate_and_error hr hm s3 m r (Some sm)); auto. }
  assert (0 ≤ gidx < nmaxthread c) as Hgi by lia.
  wp_step. eapply wp_mono; [apply wp_get_free_seq; [done|congruence]|].
  intros xid s4 ((sq & ->) & Hk4 & Hf). wp_step. eapply wp_gtab_get; [exact Hk4|done|].
  intros gt _. destruct (held_internal _ _ _ _ Hk4) as (id & q & -> & Hq & Hst).
  pose proof (held_not_pending _ _ _ _ Hk4) as Hni.
  wp_step. eapply wp_req_get; [exact Hq|]. wp_step.
  eapply wp_mono; [eapply wp_req_put; [exact Hk4|done|exact Hq|done]|].
  intros [] s5 (-> & Hk5 & Hq5). wp_step. eapply wp_mono; [by eapply wp_send_enqueue|].
  intros [sm'|] s6 (Hs6 & Hk6).
  - destruct Hk6 as [-> Hk6]. eapply (wp_deallocate_and_error hr hm s6 m _ (Some _)); auto.
  - wp_step. destruct Hs6 as (q6 & n6 & -> & _).
    eapply rank_ok_push; [exact Hk6|exact Hq5| | |done].
    + left. split; [done|]. by eexists.
    + refine (key_fresh_put (s3 <| seqsrc := sq |>) (RInternal id) _ _ Hni _).
      apply key_fresh_msg; [done|]. intros r' Hr'.
      intros (q' & Hq' & Hx). apply (Hf ltac:(done) r' Hr'). by exists q'.
Qed.

Lemma wp_start_thread hr hm s m t attrs : rank_ok c hr hm s → 0 ≤ dt_index t →
  ltab_alloc_cnt (mgrstate s) < nmaxthread c →
  wp (start_thread c e m t attrs) (λ _ s', rank_ok c hr hm s') s.
Proof using Hc.
  intros H Ht Hroom. unfold start_thread. wp_step. eapply wp_mono; [by apply wp_mqe_alloc|].
  intros [sm|] s1 [Hq1 Hk1]; [|by wp_steps].
  assert (ltab_alloc_cnt (mgrstate s1) < nmaxthread c) as Hroom1
    by (by destruct Hq1 as (? & ? & -> & _)).
  wp_step. eapply wp_mono with (Q := λ _ s', s' = s1).
  { unfold bad_start. wp_step; [by apply wp_ret|]. breflect. wp_step.
    eapply wp_gtab_get; [exact Hk1|lia|]. intros. by wp_steps. }
  intros bad s2 ->. wp_step. eapply wp_mono with (Q := λ _ s', rank_ok c hr (mid sm :: hm) s').
  - destruct bad; [by wp_steps|]. wp_step. eapply wp_mono; [by apply wp_ltab_alloc|].
    intros lidx s3 [Hk3 [lt Hlt]]. unfold start_pthread. do 2 wp_step.
    eapply wp_eq; [by apply ltab_get_ok|]. do 5 wp_step.
    match goal with |- context [wp _ _ ?s'] => assert (rank_ok c hr (mid sm :: hm) s') as Hk4 end.
    { eapply rank_ok_tabs; [exact Hk3| |apply Hk3|try done..]. destruct Hk3 as [[] _ _ _ _]. by split. }
    wp_steps; [|done]. eapply wp_mono; [by eapply wp_ltab_free|]. intros [] s4 [Hk5 _]. by wp_steps.
  - intros err s3 Hk3. wp_step. eapply wp_mono; [by eapply wp_send_or_free|].
    intros ? s4 [_ Hk4]. by wp_steps.
Qed.

(** A handle that resolves has an index in range. *)
Lemma wp_dt2gtab hr hm s t : rank_ok c hr hm s →
  wp (dthread_dt2gtab c t) (λ o s', s' = s ∧
    match o with
    | Some i => i = dt_index t ∧ 0 ≤ i < nmaxthread c ∧
        ∃ g, aget (gtab s) i = Some g ∧ gt_allocated g ≠ 0 ∧ gt_seq g = dt_seq t
    | None => True end) s.
Proof.
  intros H. destruct (ok_tabs _ _ _ _ H) as [Hl _ _ _ _ _].
  eapply wp_eq; [by apply dt2gtab_eq, H|]. split; [done|].
  destruct (aget (gtab s) (dt_index t)) as [g|] eqn:Hg; [|done].
  destruct ((gt_allocated g =? 0) || negb (dt_seq t =? gt_seq g)) eqn:E; [done|]. breflect.
  pose proof (aget_Some_range _ _ _ Hg). split; [done|]. split; [lia|]. eauto.
Qed.

(** The JOINWAIT a search took off the list is ended. *)
Lemma wp_end_joinwait hr hm s r t err : rank_ok c (r :: hr) hm s → waits_for s t r →
  0 ≤ dt_index t < nmaxthread c →
  wp (q <- req_get r;; req_put r (q <| reqerror := err |>) ;;; joinwait_end_release c e r)
    (λ _ s', rank_ok c hr hm s') s.
Proof.
  intros H (q & Hq & Hop & Hu) Ht. pose proof (held_not_pending _ _ _ _ H) as Hni.
  wp_step. eapply wp_req_get; [exact Hq|]. wp_step.
  eapply wp_mono; [by eapply wp_req_put|]. intros [] s1 (-> & H1 & Hq1).
  eapply wp_mono; [eapply wp_joinwait_end_release; try done|by intros ? ? []].
  by eapply held_not_pending.
Qed.

Lemma wp_detach_thread hr hm s m t : rank_ok c hr (mid m :: hm) s →
  wp (detach_thread c e m t) (λ _ s', rank_ok c hr hm s') s.
Proof.
  intros H. unfold detach_thread. wp_step. eapply wp_mono; [by eapply wp_dt2gtab|].
  intros o s1 [-> Ho]. wp_step.
  eapply wp_mono with (Q := λ rqe s', match rqe with
    | None => rank_ok c hr (mid m :: hm) s'
    | Some r => rank_ok c (r :: hr) (mid m :: hm) s' ∧ waits_for s' t r ∧ 0 ≤ dt_index t < nmaxthread c
    end).
  - destruct o as [i|]; [|by apply wp_ret]. destruct Ho as (-> & Hi & g & Hg & _).
    wp_step. eapply wp_eq; [by apply gtab_get_ok|]. unfold gtab_put. do 2 wp_step.
    eapply rank_ok_gtab_put with (g' := g <| gt_detached := 1 |>) in H; [|exact Hg|done].
    eapply wp_mono; [by eapply wp_joinwait_search|].
    intros [r|] s2; [|by intros [-> _]]. by intros (_ & Hw & -> & ? & _).
  - intros rqe s2 Hr. wp_step. destruct rqe as [r|].
    + destruct Hr as (H2 & Hw & Ht). eapply wp_mono; [by eapply wp_send_or_free|].
      intros b s3 [Hq H3]. eapply wp_end_joinwait; [done| |done]. by destruct Hq as (? & ? & -> & _).
    + eapply wp_mono; [by eapply wp_send_or_free|]. intros b s3 [Hq H3]. by wp_steps.
Qed.

Lemma rank_ok_ltab_put hr hm s i l l' : rank_ok c hr hm s → aget (ltab s) i = Some l →
  lt_pth_state l ≠ LT_NONE → lt_pth_state l' ≠ LT_NONE → lt_req l' = lt_req l →
  rank_ok c hr hm (s <| ltab := aset (ltab s) i l' |>).
Proof.
  intros H Hl Hn Hn' Hr. pose proof (aget_Some_range _ _ _ Hl).
  eapply rank_ok_tabs; [exact H| |apply H|try done..].
  - eapply tabs_ok_ltab_put; [apply H|exact Hl|]. unfold ltab_is_free.
    by rewrite (proj2 (Z.eqb_neq _ _) Hn), (proj2 (Z.eqb_neq _ _) Hn').
  - intros [j|id]; [|done]. simpl. destruct (decide (i = j)) as [->|].
    + by rewrite aget_aset_eq, Hl; simpl; rewrite ?Hr.
    + by rewrite aget_aset_ne by lia.
Qed.

Lemma rank_ok_events hr hm s ev : rank_ok c hr hm s → rank_ok c hr hm (s <| events ::= cons ev |>).
Proof.
  intros H. eapply rank_ok_tabs; [exact H| |apply H|try done..].
  destruct H as [[] _ _ _ _]. by split.
Qed.

Lemma wp_cancel_thread hr hm s m t : rank_ok c hr (mid m :: hm) s →
  wp (cancel_thread c m t) (λ _ s', rank_ok c hr hm s') s.
Proof.
  intros H. unfold cancel_thread. wp_step. eapply wp_mono; [by eapply wp_dt2gtab|].
  intros o s1 [-> Ho]. wp_step. eapply wp_mono with (Q := λ _ s', rank_ok c hr (mid m :: hm) s').
  - destruct o as [i|]; [|by wp_steps]. destruct Ho as (-> & Hi & g & Hg & _).
    wp_step. eapply wp_eq; [by apply gtab_get_ok|]. wp_step; [by wp_steps|]. wp_step.
    eapply wp_mono with (Q := λ _ s', rank_ok c hr (mid m :: hm) s'); [|by intros; wp_steps].
    wp_step; [|by wp_steps]. breflect. wp_step.
    destruct (aget_is_Some (ltab s) (gt_ltab_idx g)) as [l Hl].
    { pose proof (ltab_len _ _ (ok_tabs _ _ _ _ H)). lia. }
    eapply wp_eq; [by apply ltab_get_ok|]. wp_step; [|done]. unfold cancel_local. wp_step.
    eapply wp_eq; [by apply ltab_get_ok|]. unfold ltab_put. wp_steps; [|done]. breflect.
    eapply (rank_ok_ltab_put _ _ (s <| events ::= cons _ |>)); [by apply rank_ok_events|exact Hl| |done|done].
    intros E; by rewrite E in *.
  - intros err s2 H2. wp_step. eapply wp_mono; [by eapply wp_send_or_free|].
    intros b s3 [_ H3]. by wp_steps.
Qed.

Lemma wp_join_reply hr hm s m err ret : rank_ok c hr (mid m :: hm) s →
  wp (join_reply c m err ret) (λ _ s', rank_ok c hr hm s' ∧ qsame s s') s.
Proof.
  intros H. unfold join_reply. wp_step. eapply wp_mono; [by eapply wp_send_or_free|].
  intros b s3 [? H3]. by wp_steps.
Qed.

Lemma wp_join_thread hr hm s m t : rank_ok c hr (mid m :: hm) s →
  wp (join_thread c e m t) (λ _ s', rank_ok c hr hm s') s.
Proof.
  intros H. unfold join_thread. wp_step. eapply wp_mono; [by eapply wp_dt2gtab|].
  assert (∀ hr s err ret, rank_ok c hr (mid m :: hm) s →
    wp (join_reply c m err ret) (λ _ s', rank_ok c hr hm s') s) as Hreply.
  { intros. eapply wp_mono; [by apply wp_join_reply|]. by intros ? ? []. }
  intros o s1 [-> Ho]. destruct o as [i|]; [|by apply Hreply].
  destruct Ho as (-> & Hi & g & Hg & _). wp_step. eapply wp_eq; [by apply gtab_get_ok|].
  wp_step; [by apply Hreply|]. wp_step.
  { wp_step. eapply wp_mono; [by apply Hreply|]. intros [] s2 H2.
    eapply wp_mono; [by apply wp_gtab_free|]. by intros ? ? []. }
  wp_step. eapply wp_mono; [by eapply wp_joinwait_search|].
  intros [r|] s2; [intros (_ & _ & ->); do 2 wp_step; by apply Hreply|]. intros [-> Hnone].
  wp_step. eapply wp_mono; [by eapply wp_req_alloc|]. intros [r|] s3 (Em & _ & El & H3); [|by apply Hreply].
  destruct (held_internal _ _ _ _ H3) as (id & q & -> & Hq & Hst).
  pose proof (held_not_pending _ _ _ _ H3) as Hni.
  wp_step. eapply wp_req_get; [exact Hq|]. wp_step.
  eapply wp_mono; [eapply wp_req_put; [exact H3|done|exact Hq|done]|]. intros [] s4 (-> & H4 & Hq4).
  unfold upd_mgr. do 2 wp_step. eapply wp_mono; [eapply wp_mqe_put, rank_ok_push; [exact H4|exact Hq4|..]|].
  - right. split; [done|]. split; [done|]. eauto.
  - refine (key_fresh_put s3 (RInternal id) _ _ Hni _). intros r' q' Hr' Hq' [Hop Hk].
    rewrite Em in Hr'. rewrite El in Hq' by done. apply (Hnone r' Hr'). by exists q'.
  - done.
  - by intros ? ? [].
Qed.

Lemma wp_detached_ret_cleanup hr hm s i : rank_ok c hr hm s → 0 ≤ i < nmaxthread c →
  wp (detached_ret_cleanup c e i) (λ _ s', rank_ok c hr hm s') s.
Proof.
  intros H Hi. unfold detached_ret_cleanup. wp_step. eapply wp_gtab_get; [exact H|done|].
  intros g Hg. wp_step; [by wp_steps|]. breflect.
  destruct (aget_is_Some (dsps c) (gt_disp_idx g)) as [d Hd]; [unfold ndsps in *; lia|].
  wp_step. eapply wp_get_some; [exact Hd|]. wp_step; [by wp_steps|].
  unfold proc_call. wp_step. rewrite Heqb. wp_step.
  destruct (call_proc e (dt_retproc d) DTHREAD_PROC_FREE (gt_ret g) 0) as [[? ret] ?].
  apply wp_modify. by eapply rank_ok_gtab_put.
Qed.

Lemma wp_terminated_thread hr hm s t fin : rank_ok c hr hm s → 0 ≤ dt_index t < nmaxthread c →
  wp (terminated_thread c e t fin) (λ _ s', rank_ok c hr hm s') s.
Proof.
  intros H Ht. unfold terminated_thread. wp_step. eapply wp_gtab_get; [exact H|done|].
  intros g Hg. unfold gtab_put, upd_mgr. do 4 wp_step.
  eapply rank_ok_gtab_put with (g' := g <| gt_terminated := fin |> <| gt_has_ltab := 0 |>) in H;
    [|exact Hg|done].
  apply (rank_ok_mgr _ _ _ (λ g, g <| threads_running ::= Z.pred |>)) in H; [|done].
  wp_step. eapply wp_mono; [by eapply wp_joinwait_search|]. intros rqe s1 Hr. wp_step.
  eapply wp_mono with (Q := λ _ s', rank_ok c hr hm s').
  - destruct rqe as [r|]; [|destruct Hr as [-> _]; by wp_steps].
    destruct Hr as (_ & Hw & -> & H1 & Hni). set (s1 := (_ <| mgrstate ::= _ |>)) in *.
    assert (waits_for s1 t r) as (q & Hq & Hop & Hu) by done. clearbody s1. wp_step.
    eapply wp_mono with (Q := λ _ s', rank_ok c (r :: hr) hm s' ∧ waits_for s' t r).
    + wp_step; [|split; [done|by exists q]]. wp_step. eapply wp_req_get; [exact Hq|].
      eapply wp_mono; [by eapply wp_req_put|]. intros [] s2 (_ & H2 & Hq2). split; [done|].
      by eexists.
    + intros [] s2 [H2 (q2 & Hq2 & Hop2 & Hu2)].
      eapply wp_mono; [eapply wp_joinwait_end_release; try done; by eapply held_not_pending|].
      by intros ? ? [].
  - intros [] s2 H2. wp_step. eapply wp_mono with (Q := λ _ s', rank_ok c hr hm s').
    { wp_step; [|done]. by apply wp_detached_ret_cleanup. }
    intros [] s3 H3. wp_step; [|done]. eapply wp_mono; [by apply wp_gtab_free|]. by intros ? ? [].
Qed.

Lemma wp_reply_req hr hm s m op upd : rank_ok c hr (mid m :: hm) s →
  (∀ q, reqstate (upd q) = reqstate q) →
  wp (reply_req m op upd) (λ _ s', rank_ok c hr hm s') s.
Proof.
  intros H Hupd. unfold reply_req. wp_step. eapply wp_mono; [by eapply wp_find_pending_msgreq|].
  intros [r|] s1.
  - intros (-> & H1 & Hni & q & Hq & _). do 2 wp_step. eapply wp_req_get; [exact Hq|]. wp_step.
    eapply wp_mono; [eapply wp_req_put; [exact H1|done|exact Hq|by rewrite Hupd]|].
    intros [] s2 (-> & H2 & Hq2). eapply wp_mono.
    { eapply wp_req_release; [exact H2| |by eexists]. by rewrite rpending_req_store. }
    intros [] s3 [H3 _]. eapply wp_mono; [by apply wp_mqe_put|]. by intros ? ? [].
  - intros ->. do 2 wp_step. eapply wp_mono; [by apply wp_mqe_put|]. by intros ? ? [].
Qed.

Lemma wp_joined_msg hr hm s m err ret : rank_ok c hr (mid m :: hm) s →
  wp (joined_msg e m err ret) (λ _ s', rank_ok c hr hm s') s.
Proof.
  intros H. unfold joined_msg. wp_step. eapply wp_mono; [by eapply wp_find_pending_msgreq|].
  intros [r|] s1.
  - intros (-> & H1 & Hni & q & Hq & _). do 2 wp_step. eapply wp_req_get; [exact Hq|]. wp_step.
    eapply wp_mono; [eapply wp_req_put; [exact H1|done|exact Hq|done]|].
    intros [] s2 (-> & H2 & Hq2). wp_step.
    set (s2 := req_store _ _ _) in *.
    assert (r ∉ rpending (mgrstate s2)) as Hni2
      by (unfold s2; by rewrite rpending_req_store).
    clearbody s2.
    eapply wp_mono with (Q := λ _ s', rank_ok c (take_ref r hr) (mid m :: hm) s' ∧
      (r ∉ rpending (mgrstate s')) ∧ is_Some (req_lookup s' r)).
    { wp_step; [|split_and!; [done|done|by eexists]]. apply wp_modify. split; [|split; [done|by eexists]].
      eapply rank_ok_tabs; [exact H2| |apply H2|try done..]. destruct H2 as [[] _ _ _ _]. by split. }
    intros [] s3 (H3 & ? & ?). eapply wp_mono; [by eapply wp_req_release|].
    intros [] s4 [Hk4 _]. eapply wp_mono; [by apply wp_mqe_put|]. by intros ? ? [].
  - intros ->. do 2 wp_step. eapply wp_mono; [by apply wp_mqe_put|]. by intros ? ? [].
Qed.

Lemma wp_started_msg hr hm s m err : rank_ok c hr (mid m :: hm) s →
  wp (started_msg c e m err) (λ _ s', rank_ok c hr hm s') s.
Proof.
  intros H. unfold started_msg. wp_step. eapply wp_mono; [by eapply wp_find_pending_msgreq|].
  intros [r|] s1; [|intros ->; eapply wp_mono; [by apply wp_mqe_put|]; by intros ? ? []].
  intros (-> & H1 & Hni & q & Hq & Hop & _ & Hp).
  destruct r as [i|id]; [simpl in Hp; by rewrite Hop in Hp|]. simpl in Hp.
  destruct Hp as [[_ (ci & Hu & Hci)]|[Hop' _]]; [|by rewrite Hop in Hop'].
  unfold upd_mgr. do 2 wp_step.
  apply (rank_ok_mgr _ _ _ (λ g, g <| threads_starting ::= Z.pred |>)) in H1; [|done].
  simpl take_ref in H1. set (s1 := (_ <| mgrstate ::= _ |>)) in *.
  assert (req_lookup s1 (RInternal id) = Some q) as Hq1 by done. clearbody s1. wp_step.
  eapply wp_req_get; [exact Hq1|]. unfold req_creinfo. rewrite Hu. cbv zeta. wp_step.
  eapply wp_mono with (Q := λ _ s', rank_ok c (RInternal id :: hr) (mid m :: hm) s').
  { wp_step; [apply wp_modify; by apply (rank_ok_mgr _ _ _ (λ g, g <| threads_running ::= Z.succ |>))|].
    eapply wp_mono; [by apply wp_gtab_free|]. by intros ? ? []. }
  intros [] s2 H2. wp_step. eapply wp_mono; [by eapply wp_send_or_free|].
  intros b s3 [_ H3]. eapply wp_mono; [by apply wp_release_held|]. by intros ? ? [].
Qed.

Lemma wp_terminated_msg hr hm s m t fin : rank_ok c hr (mid m :: hm) s → 0 ≤ dt_index t →
  wp (terminated_msg c e m t fin) (λ _ s', rank_ok c hr hm s') s.
Proof.
  intros H Ht. unfold terminated_msg. wp_step.
  eapply wp_mono with (Q := λ _ s', rank_ok c hr (mid m :: hm) s').
  - do 3 (wp_step; [by wp_steps|]). breflect. wp_step. eapply wp_gtab_get; [exact H|lia|].
    intros g _. do 2 (wp_step; [by wp_steps|]). by apply wp_terminated_thread.
  - intros [] s1 H1. eapply wp_mono; [by apply wp_mqe_put|]. by intros ? ? [].
Qed.
End Prim.
