(* ===== verification/ManagerSafe.v ===== *)
(** * The manager keeps the invariant

    [process_mqe], [process_req] and the top of the main loop run without a
    fault and keep [rank_ok]; and the exceptions the code has. *)

From S2P Require Import Prelude Types Router Queuing ThreadTab Manager ManagerInv.

(** The thread handles of a message are unsigned. *)
Definition msg_unsigned (m : dtq_mpiqentry) : Prop :=
  match fr_body (frame m) with
  | BStart t _ | BTerminated t _ => 0 ≤ dt_index t
  | _ => True
  end.

(** A DETACH or CANCEL with a header but not a whole body, at a rank that
    takes it. *)
Definition runt_dropped (c : config) (m : dtq_mpiqentry) : bool :=
  (sizeof_header <=? u64 (flen m)) && (u64 (flen m) <? sizeof_msg (fr_body (frame m))) &&
  match fr_body (frame m) with
  | BDetach _ => mpi_rank c =? 0
  | BCancel _ => true
  | _ => false
  end.

(** What the top of the main loop decides: rank 0 shuts down when no thread
    runs, and the loop is left only with nothing left to send. *)
Definition loop_decision (c : config) (s : dtst) (stop : bool) (s' : dtst) : Prop :=
  (mpi_rank c = 0 → threads_running (mgrstate s) = 0 → draining (mgrstate s') = true) ∧
  (stop = true → mpisendq (dtq s') = [] ∧ mpindequeuedsends (dtq s') = 0).

(** A busy request of [ltab[i]] that is to be forwarded and has no message. *)
Definition no_message (s : dtst) (i : Z) : Prop :=
  ∃ l, aget (ltab s) i = Some l ∧ req_ltabidx (lt_req l) = i ∧
    reqstate (lt_req l) = DTREQ_BUSY ∧ fwd_op (reqop (lt_req l)) = true ∧
    req_mqe (lt_req l) = None ∧ (RLtab i ∉ rpending (mgrstate s)).

Section Safe.
Context (c : config) (e : env) (Hc : config_ok c).

Lemma wp_recv_release hr hm s m : rank_ok c hr (mid m :: hm) s →
  wp (dtq_recv_release m) (λ _ s', rank_ok c hr hm s') s.
Proof. intros H. eapply wp_mono; [by apply wp_mqe_put|]. by intros ? ? []. Qed.

Lemma process_mqe_ok hr hm s m : rank_ok c hr (mid m :: hm) s → msg_unsigned m →
  Z.of_nat (length (rpending (mgrstate s))) < seq_period c →
  (hdr_op (frame m) = DTOP_START → ltab_alloc_cnt (mgrstate s) < nmaxthread c) →
  runt_dropped c m = false →
  wp (process_mqe c e m) (λ _ s', rank_ok c hr hm s') s.
Proof using Hc.
  intros H Hu Hn Hroom Hleak. unfold process_mqe. wp_step; [by apply wp_recv_release|].
  wp_step; [by apply wp_recv_release|].
  unfold msg_unsigned, runt_dropped, hdr_op in *. cbv zeta.
  rewrite (proj2 (Z.leb_le _ _)) in Hleak by (by apply Z.ltb_ge). simpl in Hleak.
  destruct (fr_body (frame m)) eqn:Eb; simpl in *;
    try (by apply wp_recv_release); try (apply wp_reply_req; [done|intros; try case_match; done]).
  - wp_step. eapply wp_mono with (Q := λ _ s', rank_ok c hr (mid m :: hm) s');
      [|by intros; apply wp_recv_release].
    wp_step; [apply wp_create_thread; try done; by breflect|done].
  - wp_step. eapply wp_mono with (Q := λ _ s', rank_ok c hr (mid m :: hm) s');
      [|by intros; apply wp_recv_release].
    wp_step; [apply wp_start_thread; auto|done].
  - by apply wp_started_msg.
  - wp_step; [by apply wp_detach_thread|]. exfalso.
    destruct (mpi_rank c =? 0); simpl in *; breflect; lia || done.
  - wp_step; [by apply wp_cancel_thread|]. exfalso. breflect; lia || done.
  - wp_step; [by apply wp_recv_release|by apply wp_join_thread].
  - by apply wp_joined_msg.
  - by apply wp_terminated_msg.
  - wp_step. eapply wp_mono; [by apply wp_broadcast_shutdown|].
    intros [] s1 [H1 _]. by apply wp_recv_release.
Qed.

(** ** Requests of local threads *)

(** The request a local thread has filled in and queued: it is the one of its
    own table entry, and one that is to be forwarded carries its message. *)
Definition req_ready (s : dtst) (i : Z) (hm hm' : list nat) : Prop :=
  ∃ l, aget (ltab s) i = Some l ∧ req_ltabidx (lt_req l) = i ∧
    reqstate (lt_req l) = DTREQ_BUSY ∧ (RLtab i ∉ rpending (mgrstate s)) ∧
    (reqop (lt_req l) = DTOP_RETCLEAN → 0 ≤ lt_gtab_idx l < nmaxthread c) ∧
    if fwd_op (reqop (lt_req l))
    then ∃ m, req_mqe (lt_req l) = Some m ∧ hm ≡ₚ mid m :: hm'
    else hm = hm'.

Lemma rank_ok_push_ltab hr hm s i q : rank_ok c hr hm s → RLtab i ∉ rpending (mgrstate s) →
  req_lookup s (RLtab i) = Some q → fwd_op (reqop q) = true →
  key_fresh (req_lookup s) (rpending (mgrstate s)) q →
  rank_ok c hr hm (s <| mgrstate ::= (λ g, g <| rpending := rpending g ++ [RLtab i] |>) |>).
Proof using.
  intros [[] Hs Hq Ho Hp] Hni Hl Hop Hf. split; try done. simpl.
  by eapply pend_inv_push_ltab.
Qed.

Lemma wp_release_ltab hr hm s i b : rank_ok c hr hm s → RLtab i ∉ rpending (mgrstate s) →
  is_Some (req_lookup s (RLtab i)) →
  wp (dtq_req_release (RLtab i) b) (λ _ s', rank_ok c hr hm s') s.
Proof using.
  intros. eapply wp_mono; [by apply (wp_req_release c hr hm s (RLtab i))|]. by intros ? ? [].
Qed.

Lemma wp_forward_req hr hm hm' s i q m : rank_ok c hr hm s → RLtab i ∉ rpending (mgrstate s) →
  req_lookup s (RLtab i) = Some q → fwd_op (reqop q) = true →
  req_mqe q = Some m → hm ≡ₚ mid m :: hm' →
  Z.of_nat (length (rpending (mgrstate s))) < seq_period c →
  wp (forward_req c (RLtab i)) (λ _ s', rank_ok c hr hm' s') s.
Proof using Hc.
  intros H Hni Hq Hop Hm Hhm Hn. eapply rank_ok_perm in H; [|done|exact Hhm]. unfold forward_req.
  wp_step. eapply wp_req_get; [exact Hq|]. wp_step.
  eapply wp_mono; [eapply wp_req_put; [exact H|done|exact Hq|done]|]. intros [] s1 (-> & H1 & Hq1).
  wp_step. eapply wp_mono; [apply (wp_get_free_seq c Hc _ _ _ _ H1); by rewrite rpending_req_store|].
  intros xid s2 ((sq & ->) & H2 & Hf). rewrite rpending_req_store in Hf.
  set (s2 := (_ <| seqsrc := sq |>)) in *. rewrite <- (rpending_req_store (RLtab i) (q <| req_mqe := None |>) s) in Hni, Hf.
  change (rpending (mgrstate (req_store (RLtab i) (q <| req_mqe := None |>) s))) with (rpending (mgrstate s2)) in Hni, Hf.
  change (req_lookup s2 (RLtab i) = Some (q <| req_mqe := None |>)) in Hq1.
  assert (∀ r, r ∈ rpending (mgrstate s2) → ¬ pending_match s2 (reqop q) xid r) as Hf2.
  { intros r Hr (q' & Hq' & ?). apply Hf with r; [by intros E; rewrite E in Hop|done|]. by exists q'. }
  clearbody s2. clear Hf. wp_step.
  eapply wp_mono; [eapply wp_req_put; [exact H2|done|exact Hq1|done]|]. intros [] s3 (-> & H3 & Hq3).
  assert (RLtab i ∉ rpending (mgrstate (req_store (RLtab i)
    (q <| req_mqe := None |> <| xidseq := xid |>) s2))) as Hni3 by (by rewrite rpending_req_store).
  wp_step. eapply wp_get_some; [exact Hm|]. wp_step.
  eapply wp_mono; [apply (wp_send_or_free c hr hm' _ (m <| frame ::= (λ f, f <| hdr_xidseq := xid |>) |>)); exact H3|].
  intros b s4 [(q4 & n4 & -> & _) H4]. destruct b.
  - apply wp_modify. eapply rank_ok_push_ltab; [exact H4|..].
    + exact Hni3.
    + exact Hq3.
    + done.
    + refine (key_fresh_put s2 (RLtab i) _ _ Hni _). apply key_fresh_msg; [|done].
      simpl. intros E. by rewrite E in Hop.
  - wp_step. eapply wp_req_get; [exact Hq3|]. wp_step.
    eapply wp_mono; [eapply wp_req_put; [exact H4|exact Hni3|exact Hq3|done]|].
    intros [] s5 (-> & H5 & Hq5). apply wp_release_ltab; [done| |by eexists].
    rewrite rpending_req_store. exact Hni3.
Qed.

Lemma wp_retclean_req hr hm s i l : rank_ok c hr hm s → RLtab i ∉ rpending (mgrstate s) →
  aget (ltab s) i = Some l → 0 ≤ lt_gtab_idx l < nmaxthread c →
  wp (retclean_req c e (RLtab i) i) (λ _ s', rank_ok c hr hm s') s.
Proof using.
  intros H Hni Hl Hg. unfold retclean_req. wp_step.
  eapply wp_mono; [by apply wp_mqe_alloc|]. intros o s1 [(q1 & n1 & -> & _) H1]. wp_step.
  eapply wp_mono with (Q := λ _ s', rank_ok c hr hm s' ∧ (RLtab i ∉ rpending (mgrstate s')) ∧
    is_Some (req_lookup s' (RLtab i))); [|intros [] s' (? & ? & ?); by apply wp_release_ltab].
  destruct o as [m|].
  2: { wp_step. split; [done|]. split; [done|]. simpl. by rewrite Hl. }
  wp_step. eapply wp_eq; [apply ltab_get_ok; exact Hl|]. wp_step.
  eapply wp_gtab_get; [exact H1|done|]. intros g Hgt. wp_step.
  set (s1 := s <| dtq := q1 |> <| nmallocs := n1 |>) in *.
  eapply wp_mono with (Q := λ _ s', rank_ok c hr (mid m :: hm) s' ∧ rpending (mgrstate s') = rpending (mgrstate s) ∧
    ltab s' = ltab s).
  { wp_step; [|done]. apply wp_modify. split; [|done]. by eapply rank_ok_gtab_put. }
  intros [] s2 (H2 & Ep & El). do 3 wp_step. apply (rank_ok_events _ _ _ _ (EvPthreadJoin i)) in H2.
  eapply wp_mono; [by eapply wp_send_or_free|]. intros b s3 [(q3 & n3 & -> & _) H3].
  eapply wp_mono; [eapply wp_ltab_free; [exact H3|simpl; rewrite El; exact Hl]|].
  intros [] s4 (H4 & -> & ->). split; [done|]. simpl. rewrite Ep, El, Hl. done.
Qed.

Lemma process_req_ok hr hm hm' s i : rank_ok c hr hm s → req_ready s i hm hm' →
  Z.of_nat (length (rpending (mgrstate s))) < seq_period c →
  wp (process_req c e (RLtab i)) (λ _ s', rank_ok c hr hm' s') s.
Proof using Hc.
  intros H (l & Hl & Hi & Hst & Hni & Hg & Hm) Hn. unfold process_req.
  assert (req_lookup s (RLtab i) = Some (lt_req l)) as Hq by (simpl; by rewrite Hl).
  pose proof (aget_Some_range _ _ _ Hl). pose proof (ltab_len _ _ (ok_tabs _ _ _ _ H)).
  wp_step. eapply wp_req_get; [exact Hq|]. cbv zeta. rewrite Hi, bool_decide_true by done.
  destruct (Z.ltb_spec i 0); [lia|]. destruct (Z.leb_spec (nmaxthread c) i); [lia|]. simpl.
  wp_step. eapply wp_eq; [by apply ltab_get_ok|]. rewrite Hst. simpl.
  change ((reqop (lt_req l) =? DTOP_CREATE) || (reqop (lt_req l) =? DTOP_DETACH) ||
    (reqop (lt_req l) =? DTOP_CANCEL) || (reqop (lt_req l) =? DTOP_JOIN)) with (fwd_op (reqop (lt_req l))).
  destruct (fwd_op (reqop (lt_req l))) eqn:Ef.
  { destruct Hm as (m & Hm & Hhm). by eapply wp_forward_req. }
  subst hm'. wp_step; [breflect; by eapply wp_retclean_req; eauto|].
  wp_step; [|by apply wp_release_ltab].
  wp_step. eapply wp_mono with (Q := λ _ s', rank_ok c hr hm s' ∧
    rpending (mgrstate s') = rpending (mgrstate s) ∧ ltab s' = ltab s).
  { wp_step; [|done]. eapply wp_mono; [by apply wp_broadcast_shutdown|]. by intros ? ? (? & _ & ? & ? & _). }
  intros [] s1 (Hk1 & Ep & El). apply wp_release_ltab; [done|by rewrite Ep|simpl; by rewrite El, Hl].
Qed.

Lemma mgr_loop_top_ok hr hm s : rank_ok c hr hm s →
  wp (mgr_loop_top c e) (λ stop s', rank_ok c hr hm s' ∧ loop_decision c s stop s') s.
Proof using Hc.
  intros H. unfold mgr_loop_top, dtq_send_drainstate. do 3 wp_step.
  eapply wp_mono with (Q := λ _ s', rank_ok c hr hm s' ∧
    (mpi_rank c = 0 → threads_running (mgrstate s) = 0 → draining (mgrstate s') = true)).
  - wp_step.
    + eapply wp_mono; [by apply wp_broadcast_shutdown|]. intros [] s1 (? & ? & _). done.
    + split; [done|]. intros E1 E2. rewrite E1, E2 in *. simpl in *. by breflect.
  - intros [] s1 [H1 Hd]. wp_steps. split; [done|]. split; [done|]. intros ?. breflect.
    destruct (ok_q _ _ _ _ H1) as [_ Hs _ _ Hn Hdr _].
    rewrite <- length_zero_iff_nil. unfold DTQ_DD_INIT, DTQ_DD_DRAINING, DTQ_DD_DRAINED in *. lia.
Qed.
End Safe.

(** ** Theorems *)

(** C5. The manager handles any message without a fault and accounts for it.
    From a state in the invariant, [process_mqe] returns (no bad pointer, no
    index out of range, no loop) and the invariant holds again with the
    message's entry handed on: it went to exactly one of the send queue, the
    receive queue and the free list, no entry was lost or put on two lists,
    the table counters are exact, and the pending requests have unique keys.
    The hypotheses leave out a pending list as long as the sequence number
    space, a START at a rank with no free local slot, and the dropped runts of
    [runt_message_leaks]. *)
Theorem process_mqe_safe (c : config) (e : env) (m : dtq_mpiqentry) (hm : list nat) (s : dtst)
    (Hc : config_ok c) (H : rank_ok c [] (mid m :: hm) s) (Hu : msg_unsigned m)
    (Hn : Z.of_nat (length (rpending (mgrstate s))) < seq_period c)
    (Hroom : hdr_op (frame m) = DTOP_START → ltab_alloc_cnt (mgrstate s) < nmaxthread c)
    (Hrunt : runt_dropped c m = false) :
  wp (process_mqe c e m) (λ _ s', rank_ok c [] hm s') s.
Proof. by apply process_mqe_ok. Qed.

(** A join from rank 1 arrives at the small job. *)
Definition demo_join (t : dthread_t) : dtq_mpiqentry := Mqe 0 (Frame 3 (BJoin t)) 16 1.

Definition demo_rcv : dtst :=
  demo_st1 <| nmallocs := 1%nat |> <| dtq ::= (λ q, q <| nmqe := 1 |>) |>.

Lemma demo_rcv_ok : rank_ok demo_cfg [] [0%nat] demo_rcv.
Proof.
  split.
  - by repeat split.
  - exists 1. by split.
  - repeat split; simpl; lia || done || by left.
  - split_and!; [|repeat constructor|done]. apply NoDup_singleton.
  - split; simpl; try (by intros ? ?%not_elem_of_nil); try (by intros ? ? ? ? ?%not_elem_of_nil).
    + constructor.
    + intros id q. by rewrite lookup_empty.
    + intros i q Hq. apply fmap_Some in Hq as (l & Hl & ->).
      unfold aget in Hl. destruct (0 <=? i); [|done].
      destruct (Z.to_nat i) as [|[|[|k]]]; by simplify_eq/=.
Qed.

Lemma process_mqe_safe_witness :
  wp (process_mqe demo_cfg demo_env (demo_join (Dthread 1 2))) (λ _ s', rank_ok demo_cfg [] [] s') demo_rcv.
Proof.
  apply (process_mqe_safe demo_cfg demo_env (demo_join (Dthread 1 2)) [] demo_rcv);
    [apply demo_cfg_ok|apply demo_rcv_ok|done..].
Defined.

(** The manager handles any request of a local thread without a fault,
    keeps the invariant, and the message of a forwarded request leaves the
    thread's hands for the send queue, the receive queue or the free list. *)
Theorem process_req_safe (c : config) (e : env) (i : Z) (hm hm' : list nat) (s : dtst)
    (Hc : config_ok c) (H : rank_ok c [] hm s) (Hr : req_ready c s i hm hm')
    (Hn : Z.of_nat (length (rpending (mgrstate s))) < seq_period c) :
  wp (process_req c e (RLtab i)) (λ _ s', rank_ok c [] hm' s') s.
Proof. by eapply process_req_ok. Qed.

(** Local thread 1 asks to join thread <1,2>. *)
Definition demo_reqst : dtst :=
  demo_rcv <| ltab := aset (ltab demo_rcv) 1 (Ltab 0 0 LT_NONE
    (Request 1 DTREQ_BUSY 0 DTOP_JOIN (Some (demo_join (Dthread 1 2))) 0 0 (RURetval 5))) |>.

Lemma demo_put_ok q : reqstate q ≠ DTREQ_INTERNAL →
  rank_ok demo_cfg [] [0%nat] (demo_rcv <| ltab := aset (ltab demo_rcv) 1 (Ltab 0 0 LT_NONE q) |>).
Proof.
  intros Hq. apply (rank_ok_req_put demo_cfg [] [0%nat] demo_rcv (RLtab 1) (idle_req 1) q);
    [apply demo_rcv_ok|apply not_elem_of_nil|done|done].
Qed.

Lemma process_req_safe_witness :
  wp (process_req demo_cfg demo_env (RLtab 1)) (λ _ s', rank_ok demo_cfg [] [] s') demo_reqst.
Proof.
  apply (process_req_safe demo_cfg demo_env 1 [0%nat] [] demo_reqst);
    [apply demo_cfg_ok|by apply demo_put_ok| |done].
  eexists. split; [done|]. split_and!; try done; [apply not_elem_of_nil|]. by eexists.
Defined.

(** A request that should carry a message and does not makes the manager
    dereference a null pointer: the code stores the [xidseq] into the message
    before its check for a missing one. *)
Theorem request_without_message_faults (c : config) (e : env) (hm : list nat) (s : dtst) (i : Z)
    (Hc : config_ok c) (H : rank_ok c [] hm s) (Hm : no_message s i)
    (Hn : Z.of_nat (length (rpending (mgrstate s))) < seq_period c) :
  process_req c e (RLtab i) s = Crash NullDeref.
Proof.
  destruct Hm as (l & Hl & Hi & Hst & Hop & Hm & Hni).
  assert (req_lookup s (RLtab i) = Some (lt_req l)) as Hq by (simpl; by rewrite Hl).
  pose proof (aget_Some_range _ _ _ Hl). pose proof (ltab_len _ _ (ok_tabs _ _ _ _ H)).
  unfold process_req. mstep by (by apply req_get_ok). rewrite Hi, bool_decide_true by done.
  destruct (Z.ltb_spec i 0); [lia|]. destruct (Z.leb_spec (nmaxthread c) i); [lia|]. simpl.
  mstep by (by apply ltab_get_ok). rewrite Hst. simpl. unfold fwd_op in Hop. rewrite Hop.
  unfold forward_req. mstep by (by apply req_get_ok). unfold req_put at 1. rewrite bind_modify.
  assert (rank_ok c [] hm (req_store (RLtab i) ((lt_req l) <| req_mqe := None |>) s)) as Hk1
    by (by eapply rank_ok_req_put).
  pose proof (wp_get_free_seq c Hc _ _ _ (reqop (lt_req l)) Hk1) as Hw.
  rewrite rpending_req_store, wp_ok in Hw. destruct (Hw Hn) as (xid & s2 & E & _).
  mstep by (exact E). unfold req_put. rewrite bind_modify, Hm. done.
Qed.

Definition demo_nomsg : dtst :=
  demo_rcv <| ltab := aset (ltab demo_rcv) 1 (Ltab 0 0 LT_NONE
    (Request 1 DTREQ_BUSY 0 DTOP_JOIN None 0 0 (RURetval 5))) |>.

Lemma request_without_message_faults_witness :
  process_req demo_cfg demo_env (RLtab 1) demo_nomsg = Crash NullDeref.
Proof.
  apply (request_without_message_faults demo_cfg demo_env [0%nat] demo_nomsg 1);
    [apply demo_cfg_ok|by apply demo_put_ok| |done].
  eexists. split; [done|]. split_and!; try done. apply not_elem_of_nil.
Defined.

(** A DETACH or CANCEL message with a whole header but a short body is
    dropped without giving its entry back: the state does not change at all,
    so the entry is on no list afterwards. *)
Theorem runt_message_leaks (c : config) (e : env) (m : dtq_mpiqentry) (s : dtst)
    (Hrunt : runt_dropped c m = true) :
  process_mqe c e m s = Ok (tt, s).
Proof.
  unfold runt_dropped in Hrunt. breflect. unfold process_mqe.
  destruct (Z.ltb_spec (u64 (flen m)) sizeof_header); [lia|].
  unfold hdr_op, rank0_op in *. rewrite (proj2 (Z.ltb_lt _ _)) by done.
  destruct (fr_body (frame m)) eqn:E; try done; [|by rewrite andb_false_r].
  breflect. by rewrite (proj2 (Z.eqb_eq _ _)).
Qed.

Lemma runt_message_leaks_witness :
  process_mqe demo_cfg demo_env (Mqe 0 (Frame 3 (BDetach (Dthread 1 2))) 8 1) demo_rcv = Ok (tt, demo_rcv).
Proof. by apply (runt_message_leaks demo_cfg demo_env (Mqe 0 (Frame 3 (BDetach (Dthread 1 2))) 8 1)). Defined.

(** The main loop leaves only when everything is sent.  The top of the
    loop keeps the invariant; rank 0 has started the shutdown whenever no
    thread runs any more; and the loop is left only once the send queue is
    empty and the MPI thread has completed every send it took. *)
Theorem mgr_loop_top_safe (c : config) (e : env) (hm : list nat) (s : dtst)
    (Hc : config_ok c) (H : rank_ok c [] hm s) :
  wp (mgr_loop_top c e) (λ stop s', rank_ok c [] hm s' ∧ loop_decision c s stop s') s.
Proof. by apply mgr_loop_top_ok. Qed.

Lemma mgr_loop_top_safe_witness :
  wp (mgr_loop_top demo_cfg demo_env) (λ stop s', rank_ok demo_cfg [] [0%nat] s' ∧
    loop_decision demo_cfg demo_rcv stop s') demo_rcv.
Proof. apply mgr_loop_top_safe; [apply demo_cfg_ok|apply demo_rcv_ok]. Defined.
