(* ===== verification/Lifecycle.v ===== *)
(** * Thread lifecycle at rank 0

    An abstract specification of what rank 0 promises about threads: a table
    of live threads with their join state, and for each operation the new
    table and the messages that go out.  The handlers of
    [libdthread/dt_mgrthread.c] implement it: the table is read off the global
    thread table and the pending list, the messages off the queues. *)

From S2P Require Import Prelude Types Router Queuing ThreadTab Manager ManagerInv ManagerSafe.

(** ** Specification *)

Record athread := Athread {
  a_rank : Z;
  a_detached : bool;
  a_finished : bool;
  a_ret : dthread_argret_t;
  a_waiter : option (Z * Z) }.   (* the joiner: its rank and its message's xidseq *)

#[export] Instance athread_eta : Eta athread := λ r,
  Athread (a_rank r) (a_detached r) (a_finished r) (a_ret r) (a_waiter r).

(** The live threads. *)
Definition atab : Type := dthread_t → option athread.

(** Where a message goes and what it says. *)
Definition amsg : Type := Z * dtframe.

Definition atab_set (T : atab) (t : dthread_t) (o : option athread) : atab :=
  λ t', if decide (t' = t) then o else T t'.

Section Spec.
Context (nodata : dthread_argret_t).

(** What ends the wait of a joiner. *)
Definition wake (err : Z) (ret : dthread_argret_t) (w : option (Z * Z)) : list amsg :=
  match w with
  | Some (p, x) => [(p, Frame x (BJoined err ret))]
  | None => []
  end.

Definition spec_join (T : atab) (t : dthread_t) (p x : Z) : atab * list amsg :=
  match T t with
  | None => (T, [(p, Frame x (BJoined ESRCH nodata))])
  | Some a =>
      if a_detached a then (T, [(p, Frame x (BJoined EINVAL nodata))])
      else if a_finished a then (atab_set T t None, [(p, Frame x (BJoined 0 (a_ret a)))])
      else match a_waiter a with
           | Some _ => (T, [(p, Frame x (BJoined EINVAL nodata))])
           | None => (atab_set T t (Some (a <| a_waiter := Some (p, x) |>)), [])
           end
  end.

(** A detached thread goes away when it ends, and at once if it has ended:
    nobody can ask for its value any more. *)
Definition spec_detach (T : atab) (t : dthread_t) (p x : Z) : atab * list amsg :=
  match T t with
  | None => (T, [(p, Frame x (BDetached ESRCH))])
  | Some a =>
      (atab_set T t (if a_finished a then None
                     else Some (a <| a_detached := true |> <| a_waiter := None |>)),
       (p, Frame x (BDetached 0)) :: wake EINVAL nodata (a_waiter a))
  end.

(** What the code does: it marks the entry in either case, also the one of a
    thread that has ended and that nothing will look at again. *)
Definition code_detach (T : atab) (t : dthread_t) (p x : Z) : atab * list amsg :=
  match T t with
  | None => (T, [(p, Frame x (BDetached ESRCH))])
  | Some a =>
      (atab_set T t (Some (a <| a_detached := true |> <| a_waiter := None |>)),
       (p, Frame x (BDetached 0)) :: wake EINVAL nodata (a_waiter a))
  end.

(** A thread that ends: a joiner gets its value, a detached thread vanishes,
    another stays behind for a later join. *)
Definition spec_terminated (T : atab) (t : dthread_t) : atab * list amsg :=
  match T t with
  | None => (T, [])
  | Some a =>
      let gone := a_detached a || match a_waiter a with Some _ => true | None => false end in
      (atab_set T t (if gone then None else Some (a <| a_finished := true |>)),
       if a_detached a then wake EINVAL nodata (a_waiter a) else wake 0 (a_ret a) (a_waiter a))
  end.
End Spec.

(** ** Abstraction *)

(** The rank and [xidseq] of the pending JOINWAIT for a thread. *)
Fixpoint waiter_in (s : dtst) (t : dthread_t) (l : list reqref) : option (Z * Z) :=
  match l with
  | [] => None
  | r :: l =>
      match req_lookup s r with
      | Some q =>
          match reqop q =? DTOP_JOINWAIT, req_un q with
          | true, RUWaitthread t' =>
              if decide (t' = t) then Some (reqpeer q, xidseq q) else waiter_in s t l
          | _, _ => waiter_in s t l
          end
      | None => waiter_in s t l
      end
  end.

(** A table entry as the thread with handle [t], if it holds that thread. *)
Definition abs_entry (g : dthread_gtab_t) (t : dthread_t) (w : option (Z * Z)) : option athread :=
  if (gt_allocated g =? 0) || negb (dt_seq t =? gt_seq g) then None else
  Some (Athread (gt_rank g) (negb (gt_detached g =? 0))
          (negb (LT_NEED_FINALSTATE (gt_terminated g))) (gt_ret g) w).

Definition abs_thread (s : dtst) (t : dthread_t) : option athread :=
  match aget (gtab s) (dt_index t) with
  | None => None
  | Some g => abs_entry g t (waiter_in s t (rpending (mgrstate s)))
  end.

Definition msgs (l : list dtq_mpiqentry) : list amsg := (λ m, (peer m, frame m)) <$> l.

(** The messages [ms], in order, were queued between [s] and [s']: those for
    this rank for itself, the others for sending. *)
Definition posted (c : config) (s s' : dtst) (ms : list amsg) : Prop :=
  mpisq_draindown (dtq s') = mpisq_draindown (dtq s) ∧
  msgs (mpisendq (dtq s')) = msgs (mpisendq (dtq s)) ++ filter (λ x, x.1 ≠ mpi_rank c) ms ∧
  msgs (mpirecvq (dtq s')) = msgs (mpirecvq (dtq s)) ++ filter (λ x, x.1 = mpi_rank c) ms.

(** A step from [s] to [s'] does what the specification says. *)
Definition refines (c : config) (s : dtst) (spec : atab * list amsg) (s' : dtst) : Prop :=
  (∀ t, abs_thread s' t = spec.1 t) ∧ posted c s s' spec.2.

(** ** Lemmas *)

Section Lemmas.
Context (c : config) (e : env).

Lemma posted_nil s s' : mpisq_draindown (dtq s') = mpisq_draindown (dtq s) →
  mpisendq (dtq s') = mpisendq (dtq s) → mpirecvq (dtq s') = mpirecvq (dtq s) → posted c s s' [].
Proof. intros E1 E2 E3. unfold posted. by rewrite E1, E2, E3, !filter_nil, !app_nil_r. Qed.

Lemma posted_trans s1 s2 s3 l k : posted c s1 s2 l → posted c s2 s3 k → posted c s1 s3 (l ++ k).
Proof.
  intros (E1 & E2 & E3) (F1 & F2 & F3). unfold posted.
  by rewrite F1, F2, F3, E1, E2, E3, !filter_app, !app_assoc.
Qed.

Lemma msgs_app l k : msgs (l ++ k) = msgs l ++ msgs k.
Proof. apply fmap_app. Qed.

(** Sending works outside a draindown. *)
Lemma wp_send_posts s m : mpisq_draindown (dtq s) = DTQ_DD_INIT →
  wp (dtq_send_enqueue c m) (λ o s', o = None ∧ qsame s s' ∧ posted c s s' [(peer m, frame m)]) s.
Proof.
  intros Hd. unfold dtq_send_enqueue, dtq_recv_enqueue_locked, upd_dtq. wp_steps; breflect; [done|..].
  - split; [done|]. split.
    + exists ((recv_enqueue m (dtq s)) <| nloop ::= Z.succ |>), (nmallocs s). split; [done|].
      unfold recv_enqueue, mgr_signal. by destruct (mgr_idle (dtq s)).
    + unfold posted, recv_enqueue, mgr_signal. rewrite !filter_cons, filter_nil.
      rewrite decide_False, decide_True by (simpl; tauto).
      simpl; destruct (mgr_idle (dtq s)); simpl; by rewrite app_nil_r, msgs_app.
  - split; [done|]. split; [by eexists _, (nmallocs s)|].
    unfold posted. rewrite !filter_cons, filter_nil.
    rewrite decide_True, decide_False by (simpl; tauto). simpl. by rewrite app_nil_r, msgs_app.
Qed.

Lemma wp_send_or_free_posts s m : mpisq_draindown (dtq s) = DTQ_DD_INIT →
  wp (send_or_free c m) (λ _ s', qsame s s' ∧ posted c s s' [(peer m, frame m)]) s.
Proof.
  intros Hd. unfold send_or_free. wp_step. eapply wp_mono; [by apply wp_send_posts|].
  intros o s' (-> & ? & ?). by apply wp_ret.
Qed.

Lemma wp_mqe_alloc_posts s : (∀ n, malloc_ok e n = true) →
  wp (dtq_mqe_alloc e) (λ o s', is_Some o ∧ qsame s s' ∧ posted c s s' []) s.
Proof.
  intros Hm. unfold dtq_mqe_alloc, malloc, upd_dtq. wp_steps.
  destruct (mqefree (dtq s)) as [|m rest]; wp_steps; rewrite ?Hm in *; simplify_eq.
  - split; [by eexists|]. split; [|by apply posted_nil].
    eexists _, _. split; [done|]. split; [done|simpl; lia].
  - split; [by eexists|]. split; [|by apply posted_nil]. by eexists _, (nmallocs s).
Qed.

(** The waiter of a thread, through the invariant. *)
Definition waits_px (s : dtst) (t : dthread_t) (r : reqref) (px : Z * Z) : Prop :=
  ∃ q, req_lookup s r = Some q ∧ reqop q = DTOP_JOINWAIT ∧ req_un q = RUWaitthread t ∧
    px = (reqpeer q, xidseq q).

Lemma waiter_in_Some s t l px : waiter_in s t l = Some px → ∃ r, r ∈ l ∧ waits_px s t r px.
Proof.
  induction l as [|r l IH]; simpl; [done|]. intros H.
  assert (waiter_in s t l = Some px → ∃ r', r' ∈ r :: l ∧ waits_px s t r' px) as Hrec.
  { intros (r' & ? & ?)%IH. exists r'. split; [by right|done]. }
  destruct (req_lookup s r) as [q|] eqn:Hq; [|auto].
  destruct (Z.eqb_spec (reqop q) DTOP_JOINWAIT); [|auto].
  destruct (req_un q) eqn:Hu; auto. case_decide; [|auto]. simplify_eq.
  exists r. split; [left|]. by exists q.
Qed.

Lemma waiter_in_None s t l r px : waiter_in s t l = None → r ∈ l → ¬ waits_px s t r px.
Proof.
  induction l as [|r' l IH]; simpl; [intros _ []%not_elem_of_nil|].
  intros H [->|Hr]%elem_of_cons (q & Hq & Hop & Hu & ->).
  - rewrite Hq, Hop, Hu in H. simpl in H. by rewrite decide_True in H.
  - apply IH; [|done|by exists q]. destruct (req_lookup s r') as [q'|]; [|done].
    destruct (reqop q' =? DTOP_JOINWAIT); [|done]. destruct (req_un q'); try done. by case_decide.
Qed.

Lemma waits_for_px s t r : waits_for s t r ↔ ∃ px, waits_px s t r px.
Proof.
  split; [intros (q & ? & ? & ?); by eexists _, q|intros (px & q & ? & ? & ? & _); by exists q].
Qed.

(** There is at most one. *)
Lemma waiter_unique hr hm s t r px : rank_ok c hr hm s → r ∈ rpending (mgrstate s) →
  waits_px s t r px → waiter_in s t (rpending (mgrstate s)) = Some px.
Proof.
  intros H Hr Hw. destruct (waiter_in s t _) as [px'|] eqn:E; [|by destruct (waiter_in_None _ _ _ _ _ E Hr Hw)].
  apply waiter_in_Some in E as (r' & Hr' & q' & Hq' & Hop' & Hu' & ->).
  destruct Hw as (q & Hq & Hop & Hu & ->).
  assert (r' = r) as ->; [|by simplify_eq].
  eapply (pi_keys _ _ _ _ _ _ (ok_pend _ _ _ _ H)); try done. split; [congruence|].
  rewrite Hop'. simpl. congruence.
Qed.

(** Pending requests whose contents did not change. *)
Lemma waiter_in_ext s s' t l : (∀ r, r ∈ l → req_lookup s' r = req_lookup s r) →
  waiter_in s' t l = waiter_in s t l.
Proof.
  induction l as [|r l IH]; intros Hl; simpl; [done|].
  rewrite Hl by left. rewrite IH; [done|]. intros r' ?. apply Hl. by right.
Qed.

Lemma waiter_in_app s t l k : waiter_in s t (l ++ k) =
  match waiter_in s t l with Some px => Some px | None => waiter_in s t k end.
Proof.
  induction l as [|r l IH]; simpl; [done|]. rewrite IH.
  destruct (req_lookup s r) as [q|]; [|done]. destruct (reqop q =? DTOP_JOINWAIT); [|done].
  destruct (req_un q); try done. by case_decide.
Qed.

Lemma waiter_in_remove s t t' r l : waits_for s t r → t' ≠ t →
  waiter_in s t' (tailq_remove r l) = waiter_in s t' l.
Proof.
  intros (q & Hq & Hop & Hu) Ht. induction l as [|r' l IH]; simpl; [done|].
  case_decide as Hr; [subst; by rewrite Hq, Hop, Hu, decide_False|]. simpl. by rewrite IH.
Qed.

(** Only the queues and the heap differ. *)
Definition dtq_only (s s' : dtst) : Prop := ∃ q n, s' = s <| dtq := q |> <| nmallocs := n |>.

Lemma qsame_dtq_only s s' : qsame s s' → dtq_only s s'.
Proof. intros (q & n & -> & _). by exists q, n. Qed.

Lemma abs_dtq_only s s' t : dtq_only s s' → abs_thread s' t = abs_thread s t.
Proof.
  intros (q & n & ->). unfold abs_thread. simpl. destruct (aget (gtab s) (dt_index t)); [|done].
  by rewrite (waiter_in_ext s) by (by intros []).
Qed.

(** A step that touches the entry of one thread changes only that thread. *)
Lemma abs_update s s' t g g' : aget (gtab s) (dt_index t) = Some g → gt_seq g = dt_seq t →
  gtab s' = aset (gtab s) (dt_index t) g' → gt_allocated g' = 0 ∨ gt_seq g' = dt_seq t →
  (∀ t', t' ≠ t → waiter_in s' t' (rpending (mgrstate s')) = waiter_in s t' (rpending (mgrstate s))) →
  ∀ t', abs_thread s' t' = atab_set (abs_thread s) t (abs_thread s' t) t'.
Proof.
  intros Hg Hs Eg Hg' Hw t'. unfold atab_set. case_decide as Ht; [by subst|].
  pose proof (aget_Some_range _ _ _ Hg). unfold abs_thread. rewrite Eg, (Hw t' Ht).
  destruct (decide (dt_index t = dt_index t')) as [E|]; [|by rewrite aget_aset_ne by lia].
  assert (dt_seq t' ≠ dt_seq t) as Hne by (destruct t, t'; simpl in *; congruence).
  rewrite <- E, aget_aset_eq, Hg by done. unfold abs_entry.
  rewrite Hs, (proj2 (Z.eqb_neq _ _) Hne), orb_true_r. destruct Hg' as [-> | ->]; [done|].
  by rewrite (proj2 (Z.eqb_neq _ _) Hne), orb_true_r.
Qed.

Lemma abs_update_same s s' t : gtab s' = gtab s →
  (∀ t', t' ≠ t → waiter_in s' t' (rpending (mgrstate s')) = waiter_in s t' (rpending (mgrstate s))) →
  ∀ t', abs_thread s' t' = atab_set (abs_thread s) t (abs_thread s' t) t'.
Proof.
  intros Eg Hw t'. unfold atab_set. case_decide as Ht; [by subst|].
  unfold abs_thread. by rewrite Eg, (Hw t' Ht).
Qed.

Lemma abs_live s t g : aget (gtab s) (dt_index t) = Some g → gt_allocated g ≠ 0 →
  gt_seq g = dt_seq t →
  abs_thread s t = Some (Athread (gt_rank g) (negb (gt_detached g =? 0))
    (negb (LT_NEED_FINALSTATE (gt_terminated g))) (gt_ret g) (waiter_in s t (rpending (mgrstate s)))).
Proof.
  intros Hg Ha Hs. unfold abs_thread, abs_entry.
  by rewrite Hg, Hs, Z.eqb_refl, (proj2 (Z.eqb_neq _ _) Ha).
Qed.

Lemma abs_freed s t g : aget (gtab s) (dt_index t) = Some g → gt_allocated g = 0 →
  abs_thread s t = None.
Proof. intros Hg Ha. unfold abs_thread, abs_entry. by rewrite Hg, Ha. Qed.

(** What [dthread_dt2gtab] finds is what the abstract table has. *)
Lemma wp_dt2gtab_abs hr hm s t (Q : option Z → dtst → Prop) : rank_ok c hr hm s →
  (abs_thread s t = None → Q None s) →
  (∀ g, aget (gtab s) (dt_index t) = Some g → gt_allocated g ≠ 0 → gt_seq g = dt_seq t →
     Q (Some (dt_index t)) s) →
  wp (dthread_dt2gtab c t) Q s.
Proof.
  intros H HN HS. eapply wp_eq; [by apply dt2gtab_eq, H|].
  unfold abs_thread, abs_entry in HN. destruct (aget (gtab s) (dt_index t)) as [g|]; [|auto].
  destruct ((gt_allocated g =? 0) || negb (dt_seq t =? gt_seq g)) eqn:E; [auto|]. breflect. eauto.
Qed.

(** The last steps of an operation, with nothing sent. *)
Lemma posted_dtq s s1 s2 ms : posted c s s1 ms → dtq s2 = dtq s1 → posted c s s2 ms.
Proof. unfold posted. by intros ? ->. Qed.

Section Run.
Context (Hmal : ∀ n, malloc_ok e n = true).

Lemma wp_send_full hr hm s m : rank_ok c hr (mid m :: hm) s → mpisq_draindown (dtq s) = DTQ_DD_INIT →
  wp (send_or_free c m) (λ _ s', rank_ok c hr hm s' ∧ qsame s s' ∧
    posted c s s' [(peer m, frame m)]) s.
Proof using.
  intros H Hd. eapply wp_mono; [apply wp_and; [by apply wp_send_or_free|by apply wp_send_or_free_posts]|].
  by intros ? ? [[_ ?] [? ?]].
Qed.

Lemma wp_alloc_full hr hm s : rank_ok c hr hm s →
  wp (dtq_mqe_alloc e) (λ o s', ∃ m, o = Some m ∧ rank_ok c hr (mid m :: hm) s' ∧ qsame s s' ∧
    posted c s s' []) s.
Proof using Hmal.
  intros H. eapply wp_mono; [apply wp_and; [by apply wp_mqe_alloc|by apply wp_mqe_alloc_posts]|].
  intros o s' [[_ H1] ([m ->] & ? & ?)]. by exists m.
Qed.

Lemma wp_join_reply_full hr hm s m err ret : rank_ok c hr (mid m :: hm) s →
  mpisq_draindown (dtq s) = DTQ_DD_INIT →
  wp (join_reply c m err ret) (λ _ s', rank_ok c hr hm s' ∧ qsame s s' ∧
    posted c s s' [(peer m, Frame (hdr_xidseq (frame m)) (BJoined err ret))]) s.
Proof using.
  intros H Hd. unfold join_reply. wp_step.
  eapply wp_mono; [by apply (wp_send_full hr hm s (recycle_dtmsg_mqe m (BJoined err ret) (hdr_xidseq (frame m))))|].
  intros b s' ?. by wp_steps.
Qed.

Lemma wp_req_alloc_full hr hm s : rank_ok c hr hm s →
  wp (dtq_req_alloc e) (λ o s', ∃ r, o = Some r ∧ rank_ok c (r :: hr) hm s' ∧
    mgrstate s' = mgrstate s ∧ gtab s' = gtab s ∧
    (∀ r, r ∈ rpending (mgrstate s) → req_lookup s' r = req_lookup s r) ∧ posted c s s' [] ∧
    seqsrc s' = seqsrc s) s.
Proof using Hmal.
  intros H. eapply wp_mono; [apply wp_and; [by apply wp_req_alloc|]|].
  - instantiate (1 := λ o s', is_Some o ∧ posted c s s' [] ∧ seqsrc s' = seqsrc s).
    unfold dtq_req_alloc, malloc, upd_dtq. wp_steps.
    destruct (reqfree (dtq s)) as [|r rest]; wp_steps; rewrite ?Hmal in *; simplify_eq;
      (split; [by eexists|split; [by apply posted_nil|done]]).
  - intros o s' [(? & ? & ? & ?) ([r ->] & ? & ?)]. exists r. done.
Qed.

(** The reply that ends a JOINWAIT. *)
Lemma wp_joinwait_end_full hr hm s r t q g : rank_ok c (r :: hr) hm s →
  mpisq_draindown (dtq s) = DTQ_DD_INIT → req_lookup s r = Some q → reqop q = DTOP_JOINWAIT →
  req_un q = RUWaitthread t → aget (gtab s) (dt_index t) = Some g →
  wp (joinwait_end_release c e r) (λ _ s', rank_ok c hr hm s' ∧ dtq_only s s' ∧
    posted c s s' [(reqpeer q, Frame (xidseq q) (BJoined (reqerror q)
      (if reqerror q =? 0 then gt_ret g else stale_nodata e)))]) s.
Proof using Hmal.
  intros H Hd Hq Hop Hu Hg. unfold joinwait_end_release. wp_step.
  eapply wp_req_get; [exact Hq|]. rewrite Hop. simpl. do 2 wp_step.
  eapply wp_mono; [by apply wp_alloc_full|]. intros o s1 (m & -> & H1 & (q1 & n1 & -> & _) & Hp1).
  destruct (held_internal _ _ _ _ _ H) as (id & q' & -> & _ & Hst).
  wp_step. eapply wp_mono with (Q := λ ret s', s' = s <| dtq := q1 |> <| nmallocs := n1 |> ∧
    ret = if reqerror q =? 0 then gt_ret g else stale_nodata e).
  { destruct (reqerror q =? 0); [|by apply wp_ret]. wp_step. unfold req_waitthread. rewrite Hu.
    eapply wp_eq; [apply gtab_get_ok; exact Hg|]. by wp_steps. }
  intros ret s2 [-> ->]. wp_step.
  set (s2 := s <| dtq := q1 |> <| nmallocs := n1 |>) in *.
  eapply wp_mono; [eapply (wp_send_full _ hm _ (fill_mqe m _ _ _)); [exact H1|destruct Hp1; congruence]|].
  intros b s3 (H3 & (q3 & n3 & -> & _) & Hp3). apply wp_ret.
  pose proof (posted_trans _ _ _ _ _ Hp1 Hp3) as Hp. clear Hp1 Hp3.
  eapply wp_mono; [apply wp_and; [apply wp_release_held; exact H3|]|].
  - instantiate (1 := λ _ s', dtq_only s s' ∧ posted c s s' [(reqpeer q, Frame (xidseq q) (BJoined (reqerror q)
      (if reqerror q =? 0 then gt_ret g else stale_nodata e)))]).
    unfold dtq_req_release, upd_dtq. do 3 wp_step.
    destruct (held_internal _ _ _ _ _ H3) as (id' & q3' & [= <-] & Hq3 & Hst3).
    eapply wp_get_some; [exact Hq3|]. rewrite Hst3. simpl. apply wp_modify.
    split; [by eexists _, _|]. exact Hp.
  - by intros ? ? [[? _] [? ?]].
Qed.

(** Freeing the slot of a live thread removes it from the table. *)
Lemma wp_gtab_free_abs s0 s t g ms : aget (gtab s) (dt_index t) = Some g → gt_allocated g ≠ 0 →
  gt_seq g = dt_seq t → posted c s0 s ms →
  wp (gtab_free (dt_index t)) (λ _ s', posted c s0 s' ms ∧
    ∀ t', abs_thread s' t' = atab_set (abs_thread s) t None t') s.
Proof using.
  intros Hg Ha Hs Hp. eapply wp_eq; [by apply gtab_free_eq|].
  rewrite (proj2 (Z.eqb_neq _ _) Ha). split; [by eapply posted_dtq|].
  set (s' := (_ <| mgrstate ::= _ |>)).
  assert (abs_thread s' t = None) as Hf.
  { eapply abs_freed; [apply aget_aset_eq; by eapply aget_Some_range|done]. }
  intros t'. rewrite <- Hf. eapply abs_update; [exact Hg|done|done|by left|].
  intros. apply waiter_in_ext. by intros [].
Qed.

Lemma atab_set_ext (T T' : atab) t o : (∀ t', T t' = T' t') → ∀ t', atab_set T t o t' = atab_set T' t o t'.
Proof using. intros H t'. unfold atab_set. by rewrite H. Qed.

Lemma join_refines hr hm s m t : rank_ok c hr (mid m :: hm) s → mpisq_draindown (dtq s) = DTQ_DD_INIT →
  wp (join_thread c e m t) (λ _ s', refines c s
    (spec_join (stale_nodata e) (abs_thread s) t (peer m) (hdr_xidseq (frame m))) s') s.
Proof using Hmal.
  intros H Hd. unfold join_thread. wp_step.
  assert (∀ err ret, wp (join_reply c m err ret) (λ _ s', refines c s
    (abs_thread s, [(peer m, Frame (hdr_xidseq (frame m)) (BJoined err ret))]) s') s) as Hreply.
  { intros. eapply wp_mono; [by eapply wp_join_reply_full|]. intros [] s' (_ & Hq & Hp).
    split; [|done]. intros t'. by apply abs_dtq_only, qsame_dtq_only. }
  eapply wp_dt2gtab_abs; [exact H|intros HN; unfold spec_join; rewrite HN; apply Hreply|].
  intros g Hg Ha Hs. unfold spec_join. rewrite (abs_live _ _ _ Hg Ha Hs). simpl.
  wp_step. eapply wp_eq; [by apply gtab_get_ok|].
  destruct (gt_detached g =? 0) eqn:Edt; simpl; [|apply Hreply].
  destruct (LT_NEED_FINALSTATE (gt_terminated g)) eqn:Eft; simpl.
  2: { wp_step. eapply wp_mono; [by eapply wp_join_reply_full|]. intros [] s1 (H1 & (q1 & n1 & -> & _) & Hp1).
    eapply wp_mono; [eapply wp_gtab_free_abs; [exact Hg|done|done|exact Hp1]|].
    intros [] s2 [Hp2 Habs]. split; [|done]. intros t'. rewrite Habs. apply atab_set_ext.
    intros t2. apply abs_dtq_only. by eexists _, _. }
  wp_step. eapply wp_mono; [by eapply wp_joinwait_search|]. intros [r|] s1.
  { intros (Hr & Hw & ->). apply waits_for_px in Hw as [px Hw].
    rewrite (waiter_unique _ _ _ _ _ _ H Hr Hw). do 2 wp_step. apply Hreply. }
  intros [-> Hnone].
  destruct (waiter_in s t (rpending (mgrstate s))) as [px|] eqn:Ew.
  { apply waiter_in_Some in Ew as (r & Hr & Hw). exfalso. apply (Hnone r Hr), waits_for_px. by exists px. }
  wp_step. eapply wp_mono; [by apply wp_req_alloc_full|].
  intros o s1 (r & -> & H1 & Em & Eg & El & Hp1 & _).
  destruct (held_internal _ _ _ _ _ H1) as (id & q & -> & Hq & Hst).
  pose proof (held_not_pending _ _ _ _ _ H1) as Hni.
  wp_step. eapply wp_req_get; [exact Hq|]. unfold req_put, upd_mgr, dtq_recv_release, upd_dtq. wp_steps.
  match goal with |- refines _ _ _ ?x => set (s2 := x) end.
  assert (∀ r, r ∈ rpending (mgrstate s) → req_lookup s2 r = req_lookup s r) as El2.
  { intros r Hr. rewrite <- El by done. unfold s2. apply (req_lookup_store_ne s1 (RInternal id)).
    intros <-. by rewrite Em in Hni. }
  assert (rpending (mgrstate s2) = rpending (mgrstate s) ++ [RInternal id]) as Ep by (simpl; by rewrite Em).
  assert (waits_px s2 t (RInternal id) (peer m, hdr_xidseq (frame m))) as (q' & Eq' & Eop & Eu & Epx)
    by (eexists; split; [apply lookup_insert_eq|done]).
  assert (∀ t', waiter_in s2 t' (rpending (mgrstate s2)) =
    match waiter_in s t' (rpending (mgrstate s)) with Some px => Some px
    | None => if decide (t = t') then Some (peer m, hdr_xidseq (frame m)) else None end) as Ew2.
  { intros t'. rewrite Ep, waiter_in_app, (waiter_in_ext s) by done. case_match; [done|].
    cbn [waiter_in]. rewrite Eq', Eop, Eu, Epx. simpl. by case_decide. }
  split; [|exact Hp1]. intros t'. rewrite (abs_update_same s s2 t).
  2: { exact Eg. }
  2: { intros t2 Ht2. rewrite Ew2. case_match; [done|]. by rewrite decide_False. }
  simpl. unfold atab_set. case_decide as E; [|done]. simpl.
  erewrite abs_live; [|simpl; rewrite Eg; exact Hg|done|done]. by rewrite Ew2, Ew, Edt, Eft, decide_True.
Qed.

(** A search that removes the JOINWAIT of a thread from the pending list. *)
Lemma wp_joinwait_take hr hm s t : rank_ok c hr hm s →
  wp (joinwait_search e t true) (λ o s',
    match o with
    | None => s' = s ∧ waiter_in s t (rpending (mgrstate s)) = None
    | Some r => s' = s <| mgrstate ::= (λ g, g <| rpending ::= tailq_remove r |>) |> ∧
        rank_ok c (r :: hr) hm s' ∧
        (∀ t', waiter_in s' t' (rpending (mgrstate s')) =
           if decide (t' = t) then None else waiter_in s t' (rpending (mgrstate s))) ∧
        ∃ px, waiter_in s t (rpending (mgrstate s)) = Some px ∧ waits_px s t r px
    end) s.
Proof using.
  intros H. eapply wp_mono; [by eapply wp_joinwait_search|]. intros [r|] s'.
  - intros (Hr & Hw & -> & H1 & Hni). split; [done|]. split; [done|].
    pose proof Hw as [px Hpx]%waits_for_px. split; [|exists px; split; [by eapply waiter_unique|done]].
    intros t'. set (s' := (_ <| mgrstate ::= _ |>)) in *.
    rewrite (waiter_in_ext s) by (by intros []). case_decide as E; [subst t'|by eapply waiter_in_remove].
    destruct (waiter_in s t (rpending (mgrstate s'))) as [px'|] eqn:Ew; [|done]. exfalso.
    apply waiter_in_Some in Ew as (r' & Hr' & q' & Hq' & Hop' & Hu' & _).
    destruct Hw as (q & Hq & Hop & Hu). apply Hni.
    assert (r' = r) as ->; [|done]. pose proof (tailq_remove_elem _ _ _ Hr').
    eapply (pi_keys _ _ _ _ _ _ (ok_pend _ _ _ _ H)); try done.
    split; [congruence|]. rewrite Hop'. simpl. congruence.
  - intros [-> Hnone]. split; [done|]. destruct (waiter_in s t _) as [px|] eqn:Ew; [|done].
    apply waiter_in_Some in Ew as (r & Hr & Hw). exfalso. apply (Hnone r Hr), waits_for_px. by exists px.
Qed.

Lemma detach_refines hr hm s m t : rank_ok c hr (mid m :: hm) s → mpisq_draindown (dtq s) = DTQ_DD_INIT →
  wp (detach_thread c e m t) (λ _ s', refines c s
    (code_detach (stale_nodata e) (abs_thread s) t (peer m) (hdr_xidseq (frame m))) s') s.
Proof using Hmal.
  intros H Hd. unfold detach_thread. wp_step. eapply wp_dt2gtab_abs; [exact H| |].
  { intros HN. unfold code_detach. rewrite HN. do 3 wp_step.
    eapply wp_mono; [by apply (wp_send_full hr hm s (recycle_dtmsg_mqe m _ _))|].
    intros b s1 (_ & Hq & Hp). wp_step. split; [|done]. intros t'. by apply abs_dtq_only, qsame_dtq_only. }
  intros g Hg Ha Hs. do 2 wp_step. eapply wp_eq; [by apply gtab_get_ok|]. unfold gtab_put. do 2 wp_step.
  eapply rank_ok_gtab_put with (g' := g <| gt_detached := 1 |>) in H as H1; [|exact Hg|done].
  set (s1 := s <| gtab := _ |>) in *.
  assert (aget (gtab s1) (dt_index t) = Some (g <| gt_detached := 1 |>)) as Hg1
    by (apply aget_aset_eq; by eapply aget_Some_range).
  assert (∀ t', waiter_in s1 t' (rpending (mgrstate s1)) = waiter_in s t' (rpending (mgrstate s))) as Ew1
    by (intros; apply waiter_in_ext; by intros []).
  unfold code_detach. rewrite (abs_live _ _ _ Hg Ha Hs). simpl.
  assert (∀ s2, gtab s2 = gtab s1 → (∀ t', waiter_in s2 t' (rpending (mgrstate s2)) =
      if decide (t' = t) then None else waiter_in s t' (rpending (mgrstate s))) →
    ∀ t', abs_thread s2 t' = atab_set (abs_thread s) t (Some (Athread (gt_rank g) true
      (negb (LT_NEED_FINALSTATE (gt_terminated g))) (gt_ret g) None)) t') as Habs.
  { intros s2 Eg Ew t'. rewrite (abs_update s s2 t g (g <| gt_detached := 1 |>)); try done.
    - erewrite (abs_live s2); [|rewrite Eg; exact Hg1|done|done]. by rewrite Ew, decide_True.
    - by right.
    - intros t2 Ht2. by rewrite Ew, decide_False. }
  eapply wp_mono; [by apply wp_joinwait_take|]. intros [r|] s2.
  - intros (-> & H2 & Ew2 & px & Epx & q & Hq & Hop & Hu & ->). rewrite <- Ew1, Epx. simpl.
    set (s2 := s1 <| mgrstate ::= _ |>) in *. wp_step.
    eapply wp_mono; [by apply (wp_send_full (r :: hr) hm s2 (recycle_dtmsg_mqe m _ _))|].
    intros b s3 (H3 & (q3 & n3 & -> & _) & Hp3). wp_step. eapply wp_req_get; [exact Hq|]. wp_step.
    eapply wp_mono; [eapply wp_req_put; [exact H3|by eapply held_not_pending|exact Hq|done]|].
    intros [] s4 (-> & H4 & Hq4).
    destruct (held_internal _ _ _ _ _ H4) as (id & _ & -> & _).
    eapply wp_mono; [eapply wp_joinwait_end_full; [exact H4|destruct Hp3; simpl in *; congruence|exact Hq4|done|exact Hu|exact Hg1]|].
    intros [] s5 (_ & (q5 & n5 & ->) & Hp5). split.
    + apply Habs; [done|]. intros t'. rewrite Ew1 in *. rewrite <- Ew1, <- Ew2.
      apply waiter_in_ext. intros r Hr. apply (req_lookup_store_ne s2 (RInternal id)).
      intros <-. by apply (held_not_pending _ _ _ _ _ H2).
    + eapply (posted_trans _ _ _ [_] [_] Hp3 Hp5).
  - intros [-> Ew]. rewrite <- Ew1, Ew. wp_step. simpl.
    eapply wp_mono; [by apply (wp_send_full hr hm s1 (recycle_dtmsg_mqe m _ _))|].
    intros b s3 (H3 & (q3 & n3 & -> & _) & Hp3). wp_step. split; [|exact Hp3].
    apply Habs; [done|]. intros t'. transitivity (waiter_in s1 t' (rpending (mgrstate s1))).
    { apply waiter_in_ext. by intros []. }
    case_decide; [by subst|done].
Qed.

(** The error code of a pending JOINWAIT is still clear. *)
Lemma pending_joinwait_clean hr hm s r t q : rank_ok c hr hm s → r ∈ rpending (mgrstate s) →
  req_lookup s r = Some q → reqop q = DTOP_JOINWAIT → req_un q = RUWaitthread t → reqerror q = 0.
Proof using.
  intros H Hr Hq Hop Hu. destruct (pi_pend _ _ _ _ _ _ (ok_pend _ _ _ _ H) r Hr) as (q' & Hq' & Hp).
  simplify_eq. destruct r; simpl in Hp; [by rewrite Hop in Hp|].
  destruct Hp as [[E _]|(_ & ? & _)]; [by rewrite Hop in E|done].
Qed.

(** The end of [terminated_thread]: the slot of a thread nobody waits for any
    more is freed. *)
Lemma wp_terminated_tail s0 s t g b ms : aget (gtab s) (dt_index t) = Some g → gt_allocated g ≠ 0 →
  gt_seq g = dt_seq t → posted c s0 s ms →
  wp (whenM (negb (gt_detached g =? 0)) (detached_ret_cleanup c e (dt_index t)) ;;;
      whenM (negb (gt_detached g =? 0) || b) (gtab_free (dt_index t)))
    (λ _ s', posted c s0 s' ms ∧
       ∀ t', abs_thread s' t' = if negb (gt_detached g =? 0) || b
         then atab_set (abs_thread s) t None t' else abs_thread s t') s.
Proof using.
  intros Hg Ha Hs Hp. destruct (gt_detached g =? 0); simpl.
  { do 2 wp_step. unfold whenM. destruct b; [by eapply wp_gtab_free_abs|by apply wp_ret]. }
  pose proof (aget_Some_range _ _ _ Hg) as Hr.
  unfold whenM. wp_step. eapply wp_mono with (Q := λ _ s', ∃ g', gtab s' = aset (gtab s) (dt_index t) g' ∧
    gt_allocated g' ≠ 0 ∧ gt_seq g' = dt_seq t ∧ dtq s' = dtq s ∧
    ∀ t', waiter_in s' t' (rpending (mgrstate s')) = waiter_in s t' (rpending (mgrstate s))).
  - assert (aset (gtab s) (dt_index t) g = gtab s) as Hid.
    { unfold aset, aget in *. destruct (0 <=? dt_index t); [|done]. by apply list_insert_id. }
    unfold detached_ret_cleanup. wp_step. eapply wp_eq; [by apply gtab_get_ok|].
    destruct ((gt_disp_idx g <? 1) || (ndsps c <=? gt_disp_idx g)) eqn:E; [by wp_step; exists g|].
    breflect. destruct (aget_is_Some (dsps c) (gt_disp_idx g)) as [d Hd]; [unfold ndsps in *; lia|].
    wp_step. eapply wp_get_some; [exact Hd|]. wp_step; [by wp_step; exists g|].
    unfold proc_call. wp_step. rewrite Heqb0. wp_step.
    destruct (call_proc e (dt_retproc d) DTHREAD_PROC_FREE (gt_ret g) 0) as [[? ret] ?].
    apply wp_modify. eexists. split; [done|]. split_and!; try done.
    intros. apply waiter_in_ext. by intros [].
  - intros [] s1 (g' & Eg & Ha' & Hs' & Ed & Ew).
    eapply wp_mono; [apply (wp_gtab_free_abs s0 s1 t g' ms); [rewrite Eg; by apply aget_aset_eq|done|done|by eapply posted_dtq]|].
    intros [] s2 [Hp2 Habs]. split; [done|]. intros t'. rewrite Habs. unfold atab_set.
    case_decide as Et; [done|]. rewrite (abs_update s s1 t g g'); [|exact Hg|exact Hs|exact Eg|by right|by intros; apply Ew].
    unfold atab_set. by rewrite decide_False.
Qed.

Lemma terminated_refines hr hm s t g fin : rank_ok c hr hm s → mpisq_draindown (dtq s) = DTQ_DD_INIT →
  aget (gtab s) (dt_index t) = Some g → gt_allocated g ≠ 0 → gt_seq g = dt_seq t →
  LT_NEED_FINALSTATE fin = false →
  wp (terminated_thread c e t fin) (λ _ s', refines c s
    (spec_terminated (stale_nodata e) (abs_thread s) t) s') s.
Proof using Hmal.
  intros H Hd Hg Ha Hs Hfin. unfold terminated_thread. wp_step. eapply wp_eq; [by apply gtab_get_ok|].
  unfold gtab_put, upd_mgr. do 4 wp_step.
  set (g1 := g <| gt_terminated := fin |> <| gt_has_ltab := 0 |>) in *.
  eapply rank_ok_gtab_put with (g' := g1) in H as H1; [|exact Hg|done].
  apply (rank_ok_mgr _ _ _ _ (λ g, g <| threads_running ::= Z.pred |>)) in H1; [|done].
  set (s1 := (_ <| mgrstate ::= _ |>)) in *.
  assert (aget (gtab s1) (dt_index t) = Some g1) as Hg1 by (apply aget_aset_eq; by eapply aget_Some_range).
  assert (∀ t', waiter_in s1 t' (rpending (mgrstate s1)) = waiter_in s t' (rpending (mgrstate s))) as Ew1
    by (intros; apply waiter_in_ext; by intros []).
  unfold spec_terminated. rewrite (abs_live _ _ _ Hg Ha Hs). simpl. wp_step.
  eapply wp_mono; [by apply wp_joinwait_take|]. intros [r|] s2.
  - intros (-> & H2 & Ew2 & px & Epx & q & Hq & Hop & Hu & ->). rewrite <- Ew1, Epx.
    assert (reqerror q = 0) as Hclean.
    { rewrite Ew1 in Epx. apply waiter_in_Some in Epx as (r' & Hr' & q' & Hq' & Hop' & Hu' & _).
      assert (r ∈ rpending (mgrstate s)) as Hr; [|exact (pending_joinwait_clean _ _ _ _ _ _ H Hr Hq Hop Hu)].
      destruct (decide (r = r')) as [->|Hne]; [done|]. exfalso. specialize (Ew2 t).
      rewrite decide_True in Ew2 by done. eapply (waiter_in_None _ _ _ r' (reqpeer q', xidseq q') Ew2).
      - by apply tailq_remove_elem_ne.
      - by exists q'. }
    set (s2 := s1 <| mgrstate ::= _ |>) in *.
    wp_step. wp_step. eapply wp_mono with (Q := λ _ s', ∃ q', s' = req_store r q' s2 ∧
      rank_ok c (r :: hr) hm s' ∧ req_lookup s' r = Some q' ∧ reqop q' = DTOP_JOINWAIT ∧
      req_un q' = RUWaitthread t ∧ reqpeer q' = reqpeer q ∧ xidseq q' = xidseq q ∧
      reqerror q' = if gt_detached g =? 0 then 0 else EINVAL).
    { destruct (held_internal _ _ _ _ _ H2) as (id & _ & -> & _).
      destruct (gt_detached g =? 0); simpl.
      - wp_step. exists q. split_and!; try done. unfold req_store. rewrite insert_id by done. done.
      - wp_step. eapply wp_req_get; [exact Hq|]. eapply wp_mono; [eapply wp_req_put; [exact H2|by eapply held_not_pending|exact Hq|done]|].
        intros [] s3 (-> & H3 & Hq3). by eexists. }
    intros [] s3 (q3 & -> & H3 & Hq3 & Hop3 & Hu3 & Epr & Exd & Eer).
    destruct (held_internal _ _ _ _ _ H3) as (id & _ & -> & _).
    eapply wp_mono; [eapply wp_joinwait_end_full; [exact H3|exact Hd|exact Hq3|done|exact Hu3|exact Hg1]|].
    intros [] s4 (_ & (q4 & n4 & ->) & Hp4).
    eapply wp_mono; [eapply (wp_terminated_tail s _ t g1 true); [exact Hg1|done|done|exact Hp4]|].
    intros [] s5 [Hp5 Habs]. rewrite !orb_true_r in *. split.
    + intros t'. rewrite Habs. unfold atab_set. simpl. case_decide as Et; [done|].
      rewrite (abs_update s _ t g g1); [|done|done|done|by right|].
      { unfold atab_set. by rewrite decide_False. }
      intros t2 Ht2. specialize (Ew2 t2). rewrite decide_False in Ew2 by done. rewrite <- Ew1, <- Ew2.
      apply waiter_in_ext. intros r Hr. apply (req_lookup_store_ne s2 (RInternal id)).
      intros <-. by apply (held_not_pending _ _ _ _ _ H2).
    + simpl in Hp5. rewrite Epr, Exd, Eer in Hp5. simpl. by destruct (gt_detached g =? 0).
  - intros [-> Ew]. rewrite <- Ew1, Ew. wp_step. wp_step.
    eapply wp_mono; [eapply (wp_terminated_tail s s1 t g1 false); [exact Hg1|done|done|by apply posted_nil]|].
    intros [] s2 [Hp2 Habs]. change (gt_detached g1) with (gt_detached g) in Habs. split; [|simpl; by destruct (gt_detached g =? 0)].
    intros t'. rewrite Habs. simpl.
    assert (∀ t', abs_thread s1 t' = atab_set (abs_thread s) t (abs_thread s1 t) t') as Hs1.
    { apply (abs_update s s1 t g g1); [done|done|done|by right|by intros; apply Ew1]. }
    destruct (negb (gt_detached g =? 0) || false) eqn:E.
    + unfold atab_set. case_decide as Et; [done|]. rewrite Hs1. unfold atab_set. by rewrite decide_False.
    + rewrite Hs1. unfold atab_set. case_decide as Et; [|done].
      erewrite abs_live; [|exact Hg1|done|done]. rewrite Ew. simpl. by rewrite Hfin.
Qed.

Lemma abs_inv s t a : abs_thread s t = Some a →
  ∃ g, aget (gtab s) (dt_index t) = Some g ∧ gt_allocated g ≠ 0 ∧ gt_seq g = dt_seq t.
Proof using.
  unfold abs_thread, abs_entry. destruct (aget (gtab s) (dt_index t)) as [g|]; [|done].
  destruct ((gt_allocated g =? 0) || negb (dt_seq t =? gt_seq g)) eqn:E; [done|]. breflect. eauto.
Qed.

(** Code and specification agree on a thread that has not finished. *)
Lemma spec_detach_running nd T t p x : (∀ a, T t = Some a → a_finished a = false) →
  spec_detach nd T t p x = code_detach nd T t p x.
Proof using.
  intros H. unfold spec_detach, code_detach. destruct (T t) as [a|]; [|done]. by rewrite (H a).
Qed.

(** Two operations in a row. *)
Lemma refines_trans s s1 s2 T ms T' ms' :
  refines c s (T, ms) s1 → refines c s1 (T', ms') s2 → refines c s (T', ms ++ ms') s2.
Proof using. intros [_ H1] [H2 H3]. split; [done|]. by eapply posted_trans. Qed.
End Run.
End Lemmas.

(** ** Theorems *)

(** C7. JOIN does what the specification says: an unknown handle gets ESRCH,
    a detached thread EINVAL, a finished thread's value is delivered and the
    thread disappears, a second joiner gets EINVAL, and otherwise the joiner
    is recorded and nothing is sent; no other thread is affected. *)
Theorem join_thread_refines (c : config) (e : env) (m : dtq_mpiqentry) (t : dthread_t)
    (hm : list nat) (s : dtst) (H : rank_ok c [] (mid m :: hm) s)
    (Hd : mpisq_draindown (dtq s) = DTQ_DD_INIT) (Hmal : ∀ n, malloc_ok e n = true) :
  wp (join_thread c e m t) (λ _ s', refines c s
    (spec_join (stale_nodata e) (abs_thread s) t (peer m) (hdr_xidseq (frame m))) s') s.
Proof. by eapply join_refines. Qed.

Lemma join_thread_refines_witness :
  wp (join_thread demo_cfg demo_env (demo_join (Dthread 1 2)) (Dthread 1 2)) (λ _ s', refines demo_cfg demo_rcv
    (spec_join (stale_nodata demo_env) (abs_thread demo_rcv) (Dthread 1 2) 1 3) s') demo_rcv.
Proof.
  by apply (join_thread_refines demo_cfg demo_env (demo_join (Dthread 1 2)) (Dthread 1 2) [] demo_rcv demo_rcv_ok).
Defined.

(** C10. DETACH of a thread that has not finished does what the specification
    says: ESRCH for an unknown handle; otherwise the thread is detached, so
    that it disappears when it ends, the caller is told so, and a joiner that
    was waiting gets EINVAL; no other thread is affected.  For a thread that
    has finished the specification removes it and the code does not:
    [detach_finished_leaks]. *)
Theorem detach_thread_refines (c : config) (e : env) (m : dtq_mpiqentry) (t : dthread_t)
    (hm : list nat) (s : dtst) (H : rank_ok c [] (mid m :: hm) s)
    (Hd : mpisq_draindown (dtq s) = DTQ_DD_INIT) (Hmal : ∀ n, malloc_ok e n = true)
    (Hrun : ∀ a, abs_thread s t = Some a → a_finished a = false) :
  wp (detach_thread c e m t) (λ _ s', refines c s
    (spec_detach (stale_nodata e) (abs_thread s) t (peer m) (hdr_xidseq (frame m))) s') s.
Proof. rewrite spec_detach_running by done. by eapply detach_refines. Qed.

Lemma detach_thread_refines_witness :
  wp (detach_thread demo_cfg demo_env (demo_join (Dthread 1 2)) (Dthread 1 2)) (λ _ s', refines demo_cfg demo_rcv
    (spec_detach (stale_nodata demo_env) (abs_thread demo_rcv) (Dthread 1 2) 1 3) s') demo_rcv.
Proof.
  apply (detach_thread_refines demo_cfg demo_env (demo_join (Dthread 1 2)) (Dthread 1 2) [] demo_rcv demo_rcv_ok);
    [done|done|]. intros a E. vm_compute in E. by injection E as <-.
Defined.

(** Detaching a thread that has finished leaks its entry: the caller is told
    that the detach worked, the entry stays allocated, and neither a join (it
    answers EINVAL) nor another detach of any handle removes it. *)
Lemma detach_finished_leaks (c : config) (e : env) (m : dtq_mpiqentry) (t : dthread_t) (a : athread)
    (hm : list nat) (s : dtst) (H : rank_ok c [] (mid m :: hm) s)
    (Hd : mpisq_draindown (dtq s) = DTQ_DD_INIT) (Hmal : ∀ n, malloc_ok e n = true)
    (Ht : abs_thread s t = Some a) (Hfin : a_finished a = true) :
  let stuck T := ∃ a', T t = Some a' ∧ a_detached a' = true ∧ a_finished a' = true in
  wp (detach_thread c e m t) (λ _ s', stuck (abs_thread s')) s ∧
  (∀ nd T t' p x, stuck T → stuck (spec_join nd T t' p x).1 ∧ stuck (code_detach nd T t' p x).1).
Proof.
  split.
  - eapply wp_mono; [by eapply detach_refines|]. intros [] s' [Habs _]. unfold code_detach in Habs.
    rewrite Ht in Habs. eexists. rewrite Habs. simpl. unfold atab_set. by rewrite decide_True.
  - intros nd T t' p x (a' & Ht' & Hd' & Hf').
    assert (∀ o, (t = t' → ∃ a'', o = Some a'' ∧ a_detached a'' = true ∧ a_finished a'' = true) →
      ∃ a'', atab_set T t' o t = Some a'' ∧ a_detached a'' = true ∧ a_finished a'' = true) as Hset.
    { intros o Ho. unfold atab_set. case_decide; eauto. }
    unfold spec_join, code_detach. destruct (T t') as [a2|] eqn:E2; [|by split; exists a'].
    split; [|apply Hset; intros ->; simplify_eq; by eexists].
    destruct (a_detached a2) eqn:Ed2; [by exists a'|].
    destruct (a_finished a2); [apply Hset; intros ->; congruence|].
    destruct (a_waiter a2); [by exists a'|]. apply Hset. intros ->; congruence.
Qed.

(** C8. The end of a live thread does what the specification says: a waiting
    joiner gets the thread's return value (EINVAL if the thread was detached),
    a detached or joined thread disappears, and any other stays as a zombie
    with its value. *)
Theorem terminated_thread_refines (c : config) (e : env) (t : dthread_t) (fin : Z) (a : athread)
    (hm : list nat) (s : dtst) (H : rank_ok c [] hm s)
    (Hd : mpisq_draindown (dtq s) = DTQ_DD_INIT) (Hmal : ∀ n, malloc_ok e n = true)
    (Ht : abs_thread s t = Some a) (Hfin : LT_NEED_FINALSTATE fin = false) :
  wp (terminated_thread c e t fin) (λ _ s', refines c s
    (spec_terminated (stale_nodata e) (abs_thread s) t) s') s.
Proof. destruct (abs_inv _ _ _ Ht) as (g & Hg & Ha & Hs). by eapply terminated_refines. Qed.

Lemma terminated_thread_refines_witness :
  wp (terminated_thread demo_cfg demo_env (Dthread 1 2) LT_RETURNED) (λ _ s', refines demo_cfg demo_rcv
    (spec_terminated (stale_nodata demo_env) (abs_thread demo_rcv) (Dthread 1 2)) s') demo_rcv.
Proof.
  by apply (terminated_thread_refines demo_cfg demo_env (Dthread 1 2) LT_RETURNED
    (Athread 1 false false nodata None) [0%nat] demo_rcv demo_rcv_ok).
Defined.

(** C9. Joining before or after the end makes no difference: either way the
    joiner gets one JOINED with the thread's return value and no error, nothing
    else is sent, and the thread is gone. *)
Theorem join_order_irrelevant (c : config) (e : env) (m : dtq_mpiqentry) (t : dthread_t) (fin : Z)
    (a : athread) (hm : list nat) (s : dtst) (H : rank_ok c [] (mid m :: hm) s)
    (Hd : mpisq_draindown (dtq s) = DTQ_DD_INIT) (Hmal : ∀ n, malloc_ok e n = true)
    (Ht : abs_thread s t = Some a) (Hjoinable : a_detached a = false)
    (Hrun : a_finished a = false) (Hfree : a_waiter a = None)
    (Hfin : LT_NEED_FINALSTATE fin = false) :
  let done s' := refines c s (atab_set (abs_thread s) t None,
    [(peer m, Frame (hdr_xidseq (frame m)) (BJoined 0 (a_ret a)))]) s' in
  wp (join_thread c e m t ;;; terminated_thread c e t fin) (λ _, done) s ∧
  wp (terminated_thread c e t fin ;;; join_thread c e m t) (λ _, done) s.
Proof.
  destruct (abs_inv _ _ _ Ht) as (g & Hg & Ha & Hs). destruct a as [rk dt fn ret w]; simplify_eq/=.
  pose proof (aget_Some_range _ _ _ Hg). pose proof (gtab_len _ _ (ok_tabs _ _ _ _ H)).
  assert (∀ T t' (o o' : option athread), atab_set (atab_set T t o) t o' t' = atab_set T t o' t') as Hss
    by (intros; unfold atab_set; by case_decide).
  split; wp_step.
  - eapply wp_mono; [apply wp_and; [by eapply join_refines|by apply wp_join_thread]|].
    intros [] s1 [[Hk1 Hp1] Hok1]. unfold spec_join in *. rewrite Ht in *. simpl in *.
    assert (abs_thread s1 t = Some (Athread rk false false ret (Some (peer m, hdr_xidseq (frame m))))) as Ht1
      by (rewrite Hk1; unfold atab_set; by rewrite decide_True).
    destruct (abs_inv _ _ _ Ht1) as (g1 & Hg1 & Ha1 & Hs1).
    eapply wp_mono; [eapply terminated_refines; [done|exact Hok1|destruct Hp1; congruence|done..]|].
    intros [] s2 [Hk2 Hp2]. unfold spec_terminated in *. rewrite Ht1 in *. simpl in *. split; simpl.
    + intros t'. rewrite Hk2. rewrite (atab_set_ext _ _ _ _ Hk1). apply Hss.
    + by eapply (posted_trans c _ _ _ []).
  - eapply wp_mono; [apply wp_and; [by eapply terminated_refines|apply wp_terminated_thread; [exact H|lia]]|].
    intros [] s1 [[Hk1 Hp1] Hok1]. unfold spec_terminated in *. rewrite Ht in *. simpl in *.
    assert (abs_thread s1 t = Some (Athread rk false true ret None)) as Ht1
      by (rewrite Hk1; unfold atab_set; by rewrite decide_True).
    eapply wp_mono; [eapply join_refines; [done|exact Hok1|destruct Hp1; congruence]|].
    intros [] s2 [Hk2 Hp2]. unfold spec_join in *. rewrite Ht1 in *. simpl in *. split; simpl.
    + intros t'. rewrite Hk2. rewrite (atab_set_ext _ _ _ _ Hk1). apply Hss.
    + by eapply (posted_trans c _ _ _ []).
Qed.

Lemma join_order_irrelevant_witness :
  let done s' := refines demo_cfg demo_rcv (atab_set (abs_thread demo_rcv) (Dthread 1 2) None,
    [(1, Frame 3 (BJoined 0 nodata))]) s' in
  wp (join_thread demo_cfg demo_env (demo_join (Dthread 1 2)) (Dthread 1 2) ;;;
      terminated_thread demo_cfg demo_env (Dthread 1 2) LT_RETURNED) (λ _, done) demo_rcv ∧
  wp (terminated_thread demo_cfg demo_env (Dthread 1 2) LT_RETURNED ;;;
      join_thread demo_cfg demo_env (demo_join (Dthread 1 2)) (Dthread 1 2)) (λ _, done) demo_rcv.
Proof.
  by apply (join_order_irrelevant demo_cfg demo_env (demo_join (Dthread 1 2)) (Dthread 1 2) LT_RETURNED
    (Athread 1 false false nodata None) [] demo_rcv demo_rcv_ok).
Defined.
