(* ===== verification/Spawn.v ===== *)
(** * Starting and ending threads

    What the handlers on both ends of a thread's life do in detail:
    [create_thread] and the STARTED reply at rank 0, [start_thread] at the
    target rank, and the end of a thread from [dthreadcleanup] to its
    TERMINATED message. *)

From S2P Require Import Prelude Types Router Queuing ThreadTab Manager ManagerInv ManagerSafe Lifecycle.

Section Create.
Context (c : config) (e : env) (Hc : config_ok c).

(** The state [gtab_alloc] leaves, spelt out. *)
Lemma wp_gtab_alloc_full hr hm s rank d arg : mpi_rank c = 0 → rank_ok c hr hm s →
  threads_alloc (mgrstate s) < nmaxthread c →
  wp (gtab_alloc c rank d arg) (λ p s', ∃ g, aget (gtab s) p = Some g ∧ gt_allocated g = 0 ∧
    s' = s <| seqsrc := next_seq c (seqsrc s) |>
       <| gtab := aset (gtab s) p (gtab_fresh rank (seqsrc s) d arg g) |>
       <| mgrstate ::= (λ m, m <| threads_alloc ::= Z.succ |> <| last_slot := p |>) |> ∧
    rank_ok c hr hm s') s.
Proof using Hc.
  intros Hr0 H Hroom. eapply wp_mono; [apply wp_and; [by apply wp_gtab_alloc|]|].
  - instantiate (1 := λ p s', ∃ g, aget (gtab s) p = Some g ∧ gt_allocated g = 0 ∧
      s' = s <| seqsrc := next_seq c (seqsrc s) |>
       <| gtab := aset (gtab s) p (gtab_fresh rank (seqsrc s) d arg g) |>
       <| mgrstate ::= (λ m, m <| threads_alloc ::= Z.succ |> <| last_slot := p |>) |>).
    destruct (gtab_alloc_eq c rank d arg s Hr0 (ok_tabs _ _ _ _ H)) as [[? _]|(_ & p & g & _ & Hg & Ha & E)]; [lia|].
    eapply wp_eq; [exact E|]. by exists g.
  - intros p s' [(_ & H' & _) (g & ? & ? & ?)]. by exists g.
Qed.

(** From [s] to [s'] one thread was allocated for the CREATE message [m], and a
    START sent for it. *)
Definition spawned (m : dtq_mpiqentry) (attrs : pthread_attr_t) (d : Z) (arg : dthread_argret_t)
    (s s' : dtst) : Prop :=
  ∃ p xid g r q,
    let t := Dthread p (seqsrc s) in let target := next_rank (mgrstate s) in
    aget (gtab s) p = Some g ∧ gt_allocated g = 0 ∧
    gtab s' = aset (gtab s) p (gtab_fresh target (seqsrc s) d arg g) ∧
    posted c s s' [(target, Frame xid (BStart t (create_attrs e attrs)))] ∧
    rpending (mgrstate s') = rpending (mgrstate s) ++ [r] ∧ req_lookup s' r = Some q ∧
    reqop q = DTOP_START ∧ xidseq q = xid ∧
    req_un q = RUCreinfo (Creinfo t (peer m) (hdr_xidseq (frame m))) ∧
    next_rank (mgrstate s') = Z.rem (target + 1) (mpi_wsize c) ∧
    threads_starting (mgrstate s') = threads_starting (mgrstate s) + 1 ∧
    threads_alloc (mgrstate s') = threads_alloc (mgrstate s) + 1.

(** C21. A valid CREATE starts exactly one thread: it takes one free slot of
    the global table, initialised for the new thread and its target rank;
    sends that rank one START with the new handle; keeps the creator's rank and
    message number in a pending START request so that it can be answered;
    advances the round robin by one rank; and counts the thread as starting. *)
Theorem create_starts hm s m attrs d arg : mpi_rank c = 0 → rank_ok c [] hm s →
  Z.of_nat (length (rpending (mgrstate s))) < seq_period c →
  mpisq_draindown (dtq s) = DTQ_DD_INIT → (∀ n, malloc_ok e n = true) →
  1 ≤ d < ndsps c → threads_alloc (mgrstate s) < nmaxthread c →
  wp (create_thread c e m attrs d arg) (λ _ s', spawned m attrs d arg s s') s.
Proof using Hc.
  intros Hr0 H Hn Hd Hmal Hdi Hroom. unfold create_thread. do 2 wp_step.
  destruct (Z.eqb_spec d 0); [lia|]. destruct (Z.leb_spec (ndsps c) d); [lia|]. simpl.
  destruct (Z.leb_spec (nmaxthread c) (threads_alloc (mgrstate s))); [lia|].
  unfold upd_mgr. do 2 wp_step. set (target := next_rank (mgrstate s)) in *.
  apply (rank_ok_mgr _ _ _ _ (λ g, g <| next_rank := Z.rem (next_rank g + 1) (mpi_wsize c) |>)) in H; [|done].
  set (s0 := s <| mgrstate ::= _ |>) in *. wp_step.
  eapply wp_mono; [by apply wp_req_alloc_full|]. intros o s1 (r & -> & Hk1 & Em & Eg & El & Hp1 & Es).
  destruct (held_internal _ _ _ _ _ Hk1) as (id & q0 & -> & Hq0 & Hst0).
  wp_step. eapply wp_mono; [by apply wp_alloc_full|].
  intros o s2 (sm & -> & Hk2 & (q2 & n2 & -> & _) & Hp2).
  wp_step. eapply wp_mono; [eapply (wp_gtab_alloc_full _ _ _ target d arg Hr0 Hk2); simpl; rewrite Em; exact Hroom|].
  intros p s3 (g & Hg & Ha & -> & Hk3). simpl in Hg. rewrite Eg in Hg.
  pose proof (aget_Some_range _ _ _ Hg) as Hp.
  rewrite (proj2 (Z.eqb_neq p (-1))) by lia. wp_step.
  eapply wp_mono; [eapply (wp_get_free_seq c Hc); [exact Hk3|simpl; rewrite Em; exact Hn]|].
  intros xid s4 ((sq & ->) & Hk4 & _). wp_step.
  eapply wp_eq; [apply gtab_get_ok; simpl; rewrite Eg; by apply aget_aset_eq|].
  wp_step. eapply wp_req_get; [exact Hq0|]. unfold req_put. do 2 wp_step.
  wp_step. eapply wp_mono; [apply wp_send_posts; destruct Hp1 as (E1 & _), Hp2 as (E & _); exact (eq_trans E (eq_trans E1 Hd))|].
  simpl. intros o s5 (-> & (q5 & n5 & -> & _) & Hp5). wp_step. simpl in *.
  exists p, xid, g. eexists (RInternal id), _.
  split; [done|]. split; [done|]. split; [by rewrite Eg, Es|]. split.
  { rewrite <- Es. exact (posted_trans c _ _ _ [] _ Hp1 (posted_trans c _ _ _ [] _ Hp2 Hp5)). }
  split; [by rewrite Em|]. split; [apply lookup_insert_eq|]. simpl. rewrite Es, Em. split_and!; try done.
Qed.

(** A reply whose request is pending finds it. *)
Lemma find_pending_hit hr hm s m op r q : rank_ok c hr hm s → op ≠ DTOP_JOINWAIT →
  sizeof_header ≤ u64 (flen m) → sizeof_msg (fr_body (frame m)) ≤ u64 (flen m) →
  r ∈ rpending (mgrstate s) → req_lookup s r = Some q → reqop q = op →
  xidseq q = hdr_xidseq (frame m) →
  wp (find_pending_msgreq m op (sizeof_msg (fr_body (frame m)))) (λ o s', o = Some r ∧
    s' = s <| mgrstate ::= (λ g, g <| rpending ::= tailq_remove r |>) |> ∧
    rank_ok c (take_ref r hr) hm s') s.
Proof using.
  intros H Hop Hf1 Hf2 Hr Hq Eop Hx. unfold find_pending_msgreq.
  destruct (Z.ltb_spec (u64 (flen m)) sizeof_header); [lia|].
  destruct (Z.ltb_spec (u64 (flen m)) (sizeof_msg (fr_body (frame m)))); [lia|]. simpl. wp_step.
  destruct (find_pending_in_spec s op (hdr_xidseq (frame m)) _ (pending_refs _ _ _ _ H)) as (o & Eo & Ho).
  eapply wp_eq; [unfold find_pending_req; by rewrite Eo|]. destruct o as [r'|].
  - destruct Ho as [Hr' (q' & Hq' & Hx' & Hop')].
    assert (r' = r) as ->.
    { eapply (pi_keys _ _ _ _ _ _ (ok_pend _ _ _ _ H)); try done. split; [congruence|].
      rewrite Hop', (proj2 (Z.eqb_neq _ _) Hop). congruence. }
    unfold upd_mgr. wp_steps. split; [done|]. split; [done|]. by apply rank_ok_take.
  - exfalso. apply (Ho r Hr). by exists q.
Qed.

Lemma pending_start hr hm s r q ci : rank_ok c hr hm s → r ∈ rpending (mgrstate s) →
  req_lookup s r = Some q → reqop q = DTOP_START → req_un q = RUCreinfo ci →
  (∃ id, r = RInternal id) ∧ 0 ≤ dt_index (c_thread ci) < nmaxthread c.
Proof using.
  intros H Hr Hq Hop Hu. destruct (pi_pend _ _ _ _ _ _ (ok_pend _ _ _ _ H) _ Hr) as (q' & Hq' & Hp).
  simplify_eq. destruct r as [j|id]; [simpl in Hp; by rewrite Hop in Hp|]. split; [by eexists|].
  destruct Hp as [(_ & ci' & Hu' & ?)|(Hop' & _)]; [|by rewrite Hop in Hop']. congruence.
Qed.

Lemma wp_gtab_free_gone hr hm s i : rank_ok c hr hm s → 0 ≤ i < nmaxthread c →
  wp (gtab_free i) (λ _ s', dtq s' = dtq s ∧
    threads_starting (mgrstate s') = threads_starting (mgrstate s) ∧
    threads_running (mgrstate s') = threads_running (mgrstate s) ∧
    ∃ g, aget (gtab s') i = Some g ∧ gt_allocated g = 0) s.
Proof using.
  intros H Hi. destruct (gtab_in_range c _ _ _ _ H Hi) as [g Hg].
  eapply wp_eq; [by apply gtab_free_eq|]. pose proof (aget_Some_range _ _ _ Hg).
  destruct (Z.eqb_spec (gt_allocated g) 0); [by split_and!; try exists g|].
  split_and!; try done. eexists. split; [by apply aget_aset_eq|done].
Qed.

(** The release of an internal request moves it to the free list only. *)
Lemma wp_release_dtq hr hm s r b : rank_ok c (r :: hr) hm s →
  wp (dtq_req_release r b) (λ _ s', s' = s <| dtq ::= (λ q, q <| reqfree ::= cons r |>) |>) s.
Proof using.
  intros H. destruct (held_internal _ _ _ _ _ H) as (id & q & -> & Hq & Hst).
  unfold dtq_req_release. do 2 wp_step. wp_step. eapply wp_get_some; [exact Hq|]. by rewrite Hst.
Qed.

(** What the STARTED case of [process_mqe] leaves behind. *)
Definition relayed (s : dtst) (r : reqref) (ci : dthread_createinfo_t) (err : Z) (s' : dtst) : Prop :=
  rpending (mgrstate s') = tailq_remove r (rpending (mgrstate s)) ∧
  threads_starting (mgrstate s') = threads_starting (mgrstate s) - 1 ∧
  threads_running (mgrstate s') = threads_running (mgrstate s) + (if err =? 0 then 1 else 0) ∧
  if err =? 0 then gtab s' = gtab s
  else ∃ g, aget (gtab s') (dt_index (c_thread ci)) = Some g ∧ gt_allocated g = 0.

(** The STARTED that answers a pending START becomes the CREATED for the
    thread that asked: it goes to the rank and message number saved in the
    request, with the new handle on success; the request is no longer pending,
    the thread counts as running, or, on failure, its slot is free again. *)
Theorem started_relays hm s m err r q ci : rank_ok c [] (mid m :: hm) s →
  mpisq_draindown (dtq s) = DTQ_DD_INIT →
  sizeof_header ≤ u64 (flen m) → sizeof_msg (fr_body (frame m)) ≤ u64 (flen m) →
  r ∈ rpending (mgrstate s) → req_lookup s r = Some q → reqop q = DTOP_START →
  xidseq q = hdr_xidseq (frame m) → req_un q = RUCreinfo ci →
  wp (started_msg c e m err) (λ _ s', relayed s r ci err s' ∧
    posted c s s' [(c_peer ci, Frame (c_xidseq ci)
      (BCreated err (if err =? 0 then c_thread ci else stale_thread e)))]) s.
Proof using.
  intros H Hd Hf1 Hf2 Hr Hq Hop Hx Hu.
  destruct (pending_start _ _ _ _ _ _ H Hr Hq Hop Hu) as [[id ->] Hci].
  unfold started_msg. wp_step. eapply wp_mono; [by eapply find_pending_hit|].
  intros o s1 (-> & -> & H1). simpl take_ref in H1. unfold upd_mgr. do 2 wp_step.
  apply (rank_ok_mgr _ _ _ _ (λ g, g <| threads_starting ::= Z.pred |>)) in H1; [|done].
  set (s1 := (_ <| mgrstate ::= _ |>)) in *. wp_step. eapply wp_req_get; [exact Hq|].
  unfold req_creinfo. rewrite Hu. cbv zeta. wp_step.
  eapply wp_mono with (Q := λ _ s', rank_ok c [RInternal id] (mid m :: hm) s' ∧ dtq s' = dtq s ∧
    relayed s (RInternal id) ci err s').
  { unfold relayed. destruct (err =? 0).
    - apply wp_modify. split; [by apply (rank_ok_mgr _ _ _ _ (λ g, g <| threads_running ::= Z.succ |>))|].
      simpl. split_and!; done || lia.
    - eapply wp_mono; [apply wp_and; [by apply wp_gtab_free|by eapply wp_gtab_free_gone]|].
      intros [] s2 [[? ->] (-> & -> & -> & ?)]. simpl. split_and!; done || lia. }
  intros [] s2 (H2 & Ed & Hrel). wp_step.
  eapply wp_mono; [apply wp_and; [eapply (wp_send_or_free c [RInternal id] hm _
      ((recycle_dtmsg_mqe m (BCreated err (if err =? 0 then c_thread ci else stale_thread e)) (c_xidseq ci))
         <| peer := c_peer ci |>)); exact H2
    |apply wp_send_or_free_posts; by rewrite Ed]|].
  intros b s3 [[_ H3] [(q3 & n3 & -> & _) Hp3]].
  eapply wp_mono; [by eapply wp_release_dtq|]. intros [] s4 ->. split; [exact Hrel|].
  unfold posted in *. simpl in *. by rewrite <- Ed.
Qed.

(** ** Starting *)

(** The checks of [start_thread] pass. *)
Definition start_ok (s : dtst) (t : dthread_t) : bool :=
  match aget (gtab s) (dt_index t) with
  | Some g => (dt_seq t =? gt_seq g) && negb (gt_allocated g =? 0) && negb (gt_disp_idx g =? 0) &&
              (gt_disp_idx g <? ndsps c) && (gt_has_ltab g =? 0)
  | None => false
  end.

Lemma bad_start_eq hr hm s t : rank_ok c hr hm s → 0 ≤ dt_index t →
  bad_start c t s = Ok (negb (start_ok s t), s).
Proof using.
  intros H Ht. pose proof (gtab_len _ _ (ok_tabs _ _ _ _ H)). unfold bad_start, start_ok.
  destruct (Z.leb_spec (nmaxthread c) (dt_index t)).
  { destruct (aget (gtab s) (dt_index t)) eqn:E; [|done]. apply aget_Some_range in E. lia. }
  destruct (gtab_in_range c _ _ _ (dt_index t) H) as [g Hg]; [lia|].
  mstep by (by apply gtab_get_ok). rewrite Hg. unfold retM. repeat f_equal.
  rewrite !negb_andb, !negb_involutive, Z.ltb_antisym, negb_involutive. done.
Qed.

(** What a START leaves in the local table: a starting entry for the thread,
    or a free one again. *)
Definition started_entry (t : dthread_t) (rv : Z) (l : dthread_ltab_t) : dthread_ltab_t :=
  if rv =? 0 then Ltab (dt_index t) (dt_seq t) LT_STARTING (lt_req l)
  else Ltab (dt_index t) 0 LT_NONE (lt_req l).

(** START on the target rank: a handle that does not name an allocated,
    dispatchable thread without a local entry is refused with EINVAL and
    nothing changes; otherwise one free local slot is set up for the thread and
    one pthread created for it, the slot is free again if that failed, and rank
    0 is told the outcome in either case. *)
Theorem start_correct hm s m t attrs : rank_ok c [] hm s →
  mpisq_draindown (dtq s) = DTQ_DD_INIT → (∀ n, malloc_ok e n = true) →
  0 ≤ dt_index t → ltab_alloc_cnt (mgrstate s) < nmaxthread c →
  wp (start_thread c e m t attrs) (λ _ s',
    let rv := pthread_create_rv e (ncreates s) in
    if start_ok s t then
      posted c s s' [(0, Frame (hdr_xidseq (frame m)) (BStarted rv))] ∧
      ∃ p l, aget (ltab s) p = Some l ∧ lt_pth_state l = LT_NONE ∧
        ltab s' = aset (ltab s) p (started_entry t rv l) ∧
        events s' = EvPthreadCreate p rv :: events s
    else
      posted c s s' [(0, Frame (hdr_xidseq (frame m)) (BStarted EINVAL))] ∧
      ltab s' = ltab s ∧ events s' = events s) s.
Proof using Hc.
  intros H Hd Hmal Ht Hroom. cbv zeta. unfold start_thread. wp_step.
  eapply wp_mono; [by apply wp_alloc_full|]. intros o s1 (sm & -> & H1 & (q1 & n1 & -> & _) & Hp1).
  set (s1 := s <| dtq := q1 |> <| nmallocs := n1 |>) in *. wp_step.
  eapply wp_eq; [by eapply bad_start_eq|]. change (start_ok s1 t) with (start_ok s t).
  destruct (start_ok s t); simpl.
  - destruct (ltab_alloc_eq c Hc t s1 (ok_tabs _ _ _ _ H1)) as [[E _]|(_ & p & l & Hl & Hst & E)].
    { simpl in E. lia. }
    pose proof (aget_Some_range _ _ _ Hl) as Hp. do 2 wp_step. eapply wp_eq; [exact E|].
    unfold start_pthread. do 2 wp_step.
    eapply wp_eq; [apply ltab_get_ok; by apply aget_aset_eq|]. do 5 wp_step. wp_step.
    set (s2 := (_ <| events ::= _ |>)).
    eapply wp_mono with (Q := λ _ s', dtq s' = q1 ∧ events s' = events s2 ∧
      ltab s' = aset (ltab s) p (started_entry t (pthread_create_rv e (ncreates s)) l)).
    { unfold started_entry. simpl. destruct (pthread_create_rv e (ncreates s) =? 0); simpl; [by wp_step|].
      eapply wp_eq; [apply ltab_free_eq; by apply aget_aset_eq|]. split; [done|]. split; [done|].
      simpl. unfold aset. by rewrite list_insert_insert_eq. }
    intros [] s3 (Ed & Ev & El). wp_step. wp_step.
    eapply wp_mono; [apply wp_send_or_free_posts; destruct Hp1 as [E1 _]; rewrite Ed; exact (eq_trans E1 Hd)|].
    intros b s4 [(q4 & n4 & -> & _) Hp4]. wp_step. split.
    { apply (posted_trans c s s1 _ [] _ Hp1). unfold posted in *. by rewrite Ed in Hp4. }
    exists p, l. done.
  - do 2 wp_step. wp_step. eapply wp_mono; [apply wp_send_or_free_posts; destruct Hp1 as [E1 _]; exact (eq_trans E1 Hd)|].
    intros b s4 [(q4 & n4 & -> & _) Hp4]. wp_step. split; [|done].
    exact (posted_trans c s s1 _ [] _ Hp1 Hp4).
Qed.

(** ** Ending *)

(** The final state of a thread: what was recorded, or how it ended. *)
Definition final_state (st ended : Z) : Z := if LT_NEED_FINALSTATE st then ended else st.

(** The return value as the joiner will see it. *)
Definition final_ret (st : Z) (ret : dthread_argret_t) : dthread_argret_t :=
  if (st =? LT_CANCELED) || (st =? LT_CLEANUP) then ret <| dt_argret_type := DTHREAD_CANCELED |>
  else ret.

Definition retclean_queued (i : Z) (q : dthread_request_t) : dthread_request_t :=
  q <| reqstate := DTREQ_BUSY |> <| reqpeer := 0 |> <| reqop := DTOP_RETCLEAN |> <| req_mqe := None |>.

Lemma retclean_request_correct s i l g ended : aget (ltab s) i = Some l →
  aget (gtab s) (lt_gtab_idx l) = Some g →
  wp (retclean_request i ended) (λ _ s',
    let fin := final_state (lt_pth_state l) ended in
    aget (gtab s') (lt_gtab_idx l) = Some (g <| gt_ret := final_ret fin (gt_ret g) |>) ∧
    aget (ltab s') i = Some (l <| lt_pth_state := fin |> <| lt_req := retclean_queued i (lt_req l) |>) ∧
    mgrreqq (dtq s') = mgrreqq (dtq s) ++ [RLtab i]) s.
Proof using.
  intros Hl Hg. pose proof (aget_Some_range _ _ _ Hl). pose proof (aget_Some_range _ _ _ Hg).
  unfold retclean_request. wp_step. eapply wp_eq; [by apply ltab_get_ok|]. cbv zeta.
  fold (final_state (lt_pth_state l) ended). set (fin := final_state (lt_pth_state l) ended).
  unfold ltab_put. do 3 wp_step.
  set (s1 := s <| ltab := _ |>).
  eapply wp_mono with (Q := λ _ s', s' = s1 <| gtab := gtab s' |> ∧
    aget (gtab s') (lt_gtab_idx l) = Some (g <| gt_ret := final_ret fin (gt_ret g) |>)).
  { unfold final_ret. unfold whenM. destruct ((fin =? LT_CANCELED) || (fin =? LT_CLEANUP)).
    - wp_step. eapply wp_eq; [by apply gtab_get_ok|]. apply wp_modify. split; [done|]. by apply aget_aset_eq.
    - wp_step. split; [done|]. transitivity (Some g); [exact Hg|by destruct g]. }
  intros [] s2 [-> Hg2]. wp_step.
  eapply (wp_req_get _ _ (lt_req l)); [simpl; by rewrite aget_aset_eq|].
  unfold req_put, dtq_req_enqueue, upd_dtq. wp_steps. simpl. rewrite aget_aset_eq by done. simpl.
  split; [done|]. split; [apply aget_aset_eq; by rewrite length_aset|]. by destruct (mgr_idle (dtq s)).
Qed.

(** How the wrapper says that the application code ended. *)
Definition ended_as (r : app_end) : Z := match r with AppReturned _ _ => LT_RETURNED | AppUnwound => LT_CLEANUP end.
Definition app_ret (g : dthread_gtab_t) (r : app_end) : dthread_argret_t :=
  match r with AppReturned ret _ => ret | AppUnwound => gt_ret g end.

(** However the code of a native thread ends, its final state is the one
    recorded by [dthread_exit] or [dthread_cancel] if there is one, else
    RETURNED for a return and CLEANUP for a direct pthread exit; its return
    value is marked CANCELED exactly for a canceled or cleaned-up thread; and
    one RETCLEAN request is queued for the manager. *)
Theorem native_end_correct s ws l g r : aget (ltab s) (ws_lidx ws) = Some l →
  aget (gtab s) (lt_gtab_idx l) = Some g → ws_native ws = true → ws_returned ws = false →
  wp (dthreadwrap_finish e ws (lt_gtab_idx l) r) (λ _ s',
    let fin := final_state (lt_pth_state l) (ended_as r) in
    aget (gtab s') (lt_gtab_idx l) = Some (g <| gt_ret := final_ret fin (app_ret g r) |>) ∧
    aget (ltab s') (ws_lidx ws) = Some (l <| lt_pth_state := fin |>
      <| lt_req := retclean_queued (ws_lidx ws) (lt_req l) |>) ∧
    mgrreqq (dtq s') = mgrreqq (dtq s) ++ [RLtab (ws_lidx ws)]) s.
Proof using.
  intros Hl Hg Hn Hr. pose proof (aget_Some_range _ _ _ Hg). unfold dthreadwrap_finish. destruct r as [ret pr|].
  - rewrite Hn. wp_step. eapply wp_eq; [by apply gtab_get_ok|]. unfold gtab_put. do 2 wp_step.
    unfold dthreadcleanup. wp_step. eapply wp_eq; [apply ltab_get_ok; exact Hl|]. cbn [ws_native ws_returned ws_lidx]. do 2 wp_step.
    eapply wp_mono; [eapply (retclean_request_correct _ _ l (g <| gt_ret := ret |>)); [exact Hl|by apply aget_aset_eq]|].
    done.
  - unfold dthreadcleanup. wp_step. eapply wp_eq; [by apply ltab_get_ok|]. rewrite Hn, Hr. do 2 wp_step.
    by eapply retclean_request_correct.
Qed.

(** From [s] to [s'] the thread of [ltab[i]], with entries [l] and [g], was
    reported to rank 0 and its local slot freed. *)
Definition retired (i : Z) (l : dthread_ltab_t) (g : dthread_gtab_t) (s s' : dtst) : Prop :=
  posted c s s' [(0, Frame 0 (BTerminated (Dthread (lt_gtab_idx l) (lt_seq l)) (lt_pth_state l)))] ∧
  aget (ltab s') i = Some (Ltab (lt_gtab_idx l) 0 LT_NONE ((lt_req l) <| reqstate := DTREQ_IDLE |>)) ∧
  events s' = EvPthreadJoin i :: events s ∧
  ∃ g', aget (gtab s') (lt_gtab_idx l) = Some g' ∧
    (gt_ltab_idx g = i → gt_seq g = lt_seq l → gt_has_ltab g' = 0).

(** The manager's side of a thread's end: the pthread is joined, rank 0 is
    sent one TERMINATED with the thread's handle and final state, the global
    entry no longer points to this rank, and the local slot and its request are
    free for the next thread. *)
Theorem retclean_reports hm s i l g : rank_ok c [] hm s →
  mpisq_draindown (dtq s) = DTQ_DD_INIT → (∀ n, malloc_ok e n = true) →
  aget (ltab s) i = Some l → lt_pth_state l ≠ LT_NONE → RLtab i ∉ rpending (mgrstate s) →
  aget (gtab s) (lt_gtab_idx l) = Some g →
  wp (retclean_req c e (RLtab i) i) (λ _ s', retired i l g s s') s.
Proof using.
  intros H Hd Hmal Hl Hst Hni Hg. pose proof (aget_Some_range _ _ _ Hl) as Hr.
  pose proof (aget_Some_range _ _ _ Hg).
  assert (reqstate (lt_req l) ≠ DTREQ_INTERNAL) as Hint.
  { apply (pi_lreq _ _ _ _ _ _ (ok_pend _ _ _ _ H) i). simpl. by rewrite Hl. }
  unfold retclean_req. wp_step. eapply wp_mono; [by apply wp_alloc_full|].
  intros o s1 (m & -> & H1 & (q1 & n1 & -> & _) & Hp1). do 2 wp_step.
  eapply wp_eq; [apply ltab_get_ok; exact Hl|]. wp_step. eapply wp_eq; [apply gtab_get_ok; exact Hg|]. wp_step.
  set (s1 := s <| dtq := q1 |> <| nmallocs := n1 |>) in *.
  eapply wp_mono with (Q := λ _ s', s' = s1 <| gtab := gtab s' |> ∧ ∃ g', aget (gtab s') (lt_gtab_idx l) = Some g' ∧
      (gt_ltab_idx g = i → gt_seq g = lt_seq l → gt_has_ltab g' = 0)).
  { wp_step.
    - apply wp_modify. split; [done|]. eexists. split; [by apply aget_aset_eq|]. done.
    - split; [done|]. exists g. split; [done|]. intros E1 E2. breflect; congruence. }
  intros [] s2 [-> Hg2]. do 3 wp_step.
  eapply wp_mono; [apply wp_send_or_free_posts; destruct Hp1 as [E1 _]; exact (eq_trans E1 Hd)|].
  intros b s3 [(q3 & n3 & -> & _) Hp3].
  eapply wp_eq; [apply ltab_free_eq; exact Hl|]. rewrite (proj2 (Z.eqb_neq _ _) Hst).
  unfold dtq_req_release. wp_steps. simpl.
  eapply wp_get_some; [simpl; by rewrite aget_aset_eq|]. simpl.
  rewrite (proj2 (Z.eqb_neq _ _) Hint). apply wp_modify. simpl. rewrite aget_aset_eq by done. simpl.
  split; [exact (posted_trans c s s1 _ [] _ Hp1 Hp3)|]. split; [apply aget_aset_eq; by rewrite length_aset|]. done.
Qed.
End Create.

(** ** Witnesses *)

Lemma create_starts_witness :
  let m := Mqe 0 (Frame 3 (BCreate (Attr 0 0 0 0 0 0) 1 nodata)) 144 1 in
  wp (create_thread demo_cfg demo_env m (Attr 0 0 0 0 0 0) 1 nodata)
    (λ _ s', spawned demo_cfg demo_env m (Attr 0 0 0 0 0 0) 1 nodata demo_rcv s') demo_rcv.
Proof.
  by apply (create_starts demo_cfg demo_env demo_cfg_ok [0%nat] demo_rcv
    (Mqe 0 (Frame 3 (BCreate (Attr 0 0 0 0 0 0) 1 nodata)) 144 1)); [done|apply demo_rcv_ok|..].
Defined.

(** A START for thread <1,2>, asked for by rank 1 with message 3, is pending. *)
Definition demo_start_req : dthread_request_t :=
  Request (-1) DTREQ_INTERNAL 1 DTOP_START None 4 0 (RUCreinfo (Creinfo (Dthread 1 2) 1 3)).

Definition demo_starting : dtst :=
  demo_rcv <| nmallocs := 2%nat |> <| ireqs := {[ 1%nat := demo_start_req ]} |>
    <| mgrstate ::= (λ g, g <| rpending := [RInternal 1] |> <| threads_starting := 1 |>) |>.

Lemma demo_starting_ok : rank_ok demo_cfg [] [0%nat] demo_starting.
Proof.
  destruct demo_rcv_ok as [[] Hs Hq (Hn & Hf & Hl) Hp]. split; try done.
  - split; [done|]. split; [|done]. eapply Forall_impl; [exact Hf|]. simpl. lia.
  - apply (pend_inv_push demo_cfg (req_lookup demo_starting) 2 [] [] [] (RInternal 1) demo_start_req);
      [done|left; split; [done|by eexists]|by intros ? ? []%not_elem_of_nil|].
    eapply (pend_inv_malloc demo_cfg (req_lookup demo_rcv) (req_lookup demo_starting) 1 [] [] [] demo_start_req);
      [done|done| |exact Hp].
    intros [i|id] Hne; [done|]. simpl. rewrite lookup_singleton_ne, lookup_empty; congruence.
Qed.

Lemma started_relays_witness :
  wp (started_msg demo_cfg demo_env (Mqe 0 (Frame 4 (BStarted 0)) 12 1) 0) (λ _ s',
    relayed demo_starting (RInternal 1) (Creinfo (Dthread 1 2) 1 3) 0 s' ∧
    posted demo_cfg demo_starting s' [(1, Frame 3 (BCreated 0 (Dthread 1 2)))]) demo_starting.
Proof.
  by apply (started_relays demo_cfg demo_env [] demo_starting (Mqe 0 (Frame 4 (BStarted 0)) 12 1) 0
    (RInternal 1) demo_start_req (Creinfo (Dthread 1 2) 1 3)); [apply demo_starting_ok|done|done|done|left|..].
Defined.

Lemma start_correct_witness :
  wp (start_thread demo_cfg demo_env (Mqe 0 (Frame 4 (BStart (Dthread 1 2) (Attr 0 0 0 0 0 0))) 72 0)
        (Dthread 1 2) (Attr 0 0 0 0 0 0)) (λ _ s',
    let rv := pthread_create_rv demo_env (ncreates demo_rcv) in
    if start_ok demo_cfg demo_rcv (Dthread 1 2) then
      posted demo_cfg demo_rcv s' [(0, Frame 4 (BStarted rv))] ∧
      ∃ p l, aget (ltab demo_rcv) p = Some l ∧ lt_pth_state l = LT_NONE ∧
        ltab s' = aset (ltab demo_rcv) p (started_entry (Dthread 1 2) rv l) ∧
        events s' = EvPthreadCreate p rv :: events demo_rcv
    else
      posted demo_cfg demo_rcv s' [(0, Frame 4 (BStarted EINVAL))] ∧
      ltab s' = ltab demo_rcv ∧ events s' = events demo_rcv) demo_rcv.
Proof.
  by apply (start_correct demo_cfg demo_env demo_cfg_ok [0%nat] demo_rcv
    (Mqe 0 (Frame 4 (BStart (Dthread 1 2) (Attr 0 0 0 0 0 0))) 72 0)); [apply demo_rcv_ok|..].
Defined.

(** Thread <1,2> runs in local slot 2 of the small job. *)
Definition demo_lt : dthread_ltab_t := Ltab 1 2 LT_RUNNING (idle_req 2).

Definition demo_running : dtst :=
  demo_rcv <| ltab := aset (ltab demo_rcv) 2 demo_lt |>
    <| mgrstate ::= (λ g, g <| ltab_alloc_cnt := 1 |> <| ltab_lastslot := 2 |>) |>.

Lemma native_end_correct_witness :
  let ws := Wrapstate 2 (Dispatch 200 0 0) true 0 0 false in
  wp (dthreadwrap_finish demo_env ws 1 (AppReturned nodata 0)) (λ _ s',
    aget (gtab s') 1 = Some ((gtab_fresh 1 2 1 nodata zero_gtab) <| gt_ret := nodata |>) ∧
    aget (ltab s') 2 = Some (demo_lt <| lt_pth_state := LT_RETURNED |>
      <| lt_req := retclean_queued 2 (idle_req 2) |>) ∧
    mgrreqq (dtq s') = [RLtab 2]) demo_running.
Proof.
  by apply (native_end_correct demo_env demo_running (Wrapstate 2 (Dispatch 200 0 0) true 0 0 false) demo_lt
    (gtab_fresh 1 2 1 nodata zero_gtab) (AppReturned nodata 0)).
Defined.

Lemma demo_running_ok : rank_ok demo_cfg [] [0%nat] demo_running.
Proof.
  destruct demo_rcv_ok as [[] Hs Hq Ho Hp]. split; try done.
  eapply pend_inv_ext; [..|exact Hp]; [|done]. intros [i|id]; [|done]. simpl. unfold aget, aset. simpl.
  destruct (0 <=? i); [|done]. by destruct (Z.to_nat i) as [|[|[|k]]].
Qed.

Lemma retclean_reports_witness :
  wp (retclean_req demo_cfg demo_env (RLtab 2) 2)
    (λ _ s', retired demo_cfg 2 demo_lt (gtab_fresh 1 2 1 nodata zero_gtab) demo_running s') demo_running.
Proof.
  by apply (retclean_reports demo_cfg demo_env [0%nat] demo_running 2 demo_lt
    (gtab_fresh 1 2 1 nodata zero_gtab)); [apply demo_running_ok|done|done|done|done|apply not_elem_of_nil|].
Defined.
