(* ===== verification/Ledger.v ===== *)
(** * The books of a rank

    What the handlers of [libdthread/dt_mgrthread.c] conserve.  A conversation
    [(p, op, x)] is a request of rank [p] with operation [op] and [xidseq] [x]
    that waits for its answer.  A message or a pending request of the manager
    at rank 0 carries it on.  A thread on its way (START, TERMINATED, a failed
    STARTED) takes one slot.  Each handler is shown to pass on exactly what the
    message in its hand carried; [Job] adds the books of all ranks up. *)

From S2P Require Import Prelude Types Router Queuing ThreadTab Manager ManagerInv ManagerSafe Lifecycle Spawn.

(** ** Sums over lists *)

Fixpoint tally {A} (f : A → Z) (l : list A) : Z :=
  match l with [] => 0 | a :: l => f a + tally f l end.

Lemma tally_app {A} (f : A → Z) l k : tally f (l ++ k) = tally f l + tally f k.
Proof. induction l; simpl; lia. Qed.

Lemma tally_perm {A} (f : A → Z) l k : l ≡ₚ k → tally f l = tally f k.
Proof. induction 1; simpl; lia. Qed.

Lemma tally_ext {A} (f g : A → Z) l : (∀ x, x ∈ l → f x = g x) → tally f l = tally g l.
Proof.
  induction l as [|a l IH]; intros H; simpl; [done|]. rewrite H by left. rewrite IH; [done|].
  intros x ?. apply H. by right.
Qed.

Lemma tally_fmap {A B} (f : B → Z) (g : A → B) l : tally f (g <$> l) = tally (λ x, f (g x)) l.
Proof. induction l as [|a l IH]; csimpl; lia. Qed.

Lemma tally_remove (f : reqref → Z) r l : r ∈ l → tally f l = f r + tally f (tailq_remove r l).
Proof. intros H. by rewrite (tally_perm f l _ (tailq_remove_Permutation r l H)). Qed.

Lemma tally_const {A} (l : list A) : tally (λ _, 0) l = 0.
Proof. induction l; simpl; lia. Qed.

Lemma tally_nonpos {A} (f : A → Z) l : (∀ x, f x ≤ 0) → tally f l ≤ 0.
Proof. intros H. induction l as [|a l IH]; simpl; [lia|]. specialize (H a). lia. Qed.

Lemma tally_nonpos_elem {A} (f : A → Z) l x : (∀ y, f y ≤ 0) → x ∈ l → tally f l ≤ f x.
Proof.
  intros H (k & k' & ->)%list_elem_of_split. rewrite tally_app. simpl.
  pose proof (tally_nonpos f k H). pose proof (tally_nonpos f k' H). lia.
Qed.

Lemma tally_nonneg {A} (f : A → Z) l : (∀ x, 0 ≤ f x) → 0 ≤ tally f l.
Proof. intros H. induction l as [|a l IH]; simpl; [lia|]. specialize (H a). lia. Qed.

(** ** Lists with the numbers of their elements *)

Fixpoint indexed {A} (i : Z) (l : list A) : list (Z * A) :=
  match l with [] => [] | a :: l => (i, a) :: indexed (i + 1) l end.

Section Indexed.
Context {A : Type}.
Implicit Types (l : list A).

Lemma elem_of_indexed i l r a : (r, a) ∈ indexed i l ↔ aget l (r - i) = Some a.
Proof.
  revert i. induction l as [|x l IH]; intros i; simpl.
  - unfold aget. rewrite elem_of_nil. split; [done|]. by case_match.
  - rewrite elem_of_cons, IH. unfold aget. destruct (Z.eq_dec r i) as [->|Hne].
    + rewrite Z.sub_diag. simpl. split; [|intros [= ->]; by left]. intros [[= ->]|H]; [done|].
      by destruct (Z.leb_spec 0 (i - (i + 1))); [lia|].
    + destruct (Z.leb_spec 0 (r - i)).
      * destruct (Z.leb_spec 0 (r - (i + 1))); [|lia]. replace (Z.to_nat (r - i)) with (S (Z.to_nat (r - (i + 1)))) by lia.
        simpl. split; [intros [?|?]; congruence|by right].
      * destruct (Z.leb_spec 0 (r - (i + 1))); [lia|]. split; [intros [?|?]; congruence|done].
Qed.

Lemma elem_of_indexed0 l r a : (r, a) ∈ indexed 0 l ↔ aget l r = Some a.
Proof. by rewrite elem_of_indexed, Z.sub_0_r. Qed.

Lemma tally_indexed_aset (f : Z * A → Z) i l r a a' : aget l r = Some a →
  tally f (indexed i (aset l r a')) = tally f (indexed i l) - f (i + r, a) + f (i + r, a').
Proof.
  unfold aget, aset. destruct (Z.leb_spec 0 r) as [Hr|]; [|done].
  assert (i + r = i + Z.of_nat (Z.to_nat r)) as -> by lia. generalize (Z.to_nat r) as k. clear r Hr. intros k.
  revert i k. induction l as [|x l IH]; intros i [|k] Hk; simplify_eq/=.
  - rewrite Z.add_0_r. lia.
  - rewrite IH by done. replace (i + 1 + Z.of_nat k) with (i + Z.of_nat (S k)) by lia. lia.
Qed.
End Indexed.

(** ** Conversations *)

Definition conv : Type := Z * Z * Z.

(** Occurrences of [k]. *)
Definition occ (k : conv) (l : list conv) : Z := count_if (λ x, bool_decide (x = k)) l.

Lemma occ_app k l l' : occ k (l ++ l') = occ k l + occ k l'.
Proof. unfold occ. induction l; simpl; lia. Qed.

Lemma occ_nil k : occ k [] = 0.
Proof. done. Qed.

Lemma occ_pos k l : 0 < occ k l ↔ k ∈ l.
Proof.
  unfold occ. induction l as [|x l IH]; simpl; [split; [lia|by intros ?%not_elem_of_nil]|].
  rewrite elem_of_cons. pose proof (count_if_bounds (λ x, bool_decide (x = k)) l).
  case_bool_decide as E; [split; [by left|lia]|]. rewrite <- IH.
  split; [right; lia|intros [?|?]; [congruence|lia]].
Qed.

Lemma occ_count k l : occ k l = Z.of_nat (count_occ (λ x y, decide (x = y)) l k).
Proof.
  unfold occ. induction l as [|x l IH]; simpl; [done|]. rewrite IH.
  case_bool_decide; case_decide; try done; lia.
Qed.

Lemma occ_perm l l' : (∀ k, occ k l = occ k l') → l ≡ₚ l'.
Proof.
  intros H. apply (Permutation_count_occ (λ x y, decide (x = y))). intros k. specialize (H k).
  rewrite !occ_count in H. lia.
Qed.

(** What a message from [src] to [dst] is about. *)
Definition msg_conv (src dst : Z) (f : dtframe) : list conv :=
  match fr_body f with
  | BCreate _ _ _ | BDetach _ | BCancel _ | BJoin _ => [(src, hdr_op f, hdr_xidseq f)]
  | BCreated _ _ => [(dst, DTOP_CREATE, hdr_xidseq f)]
  | BDetached _ => [(dst, DTOP_DETACH, hdr_xidseq f)]
  | BCanceled _ => [(dst, DTOP_CANCEL, hdr_xidseq f)]
  | BJoined _ _ => [(dst, DTOP_JOIN, hdr_xidseq f)]
  | BStart _ _ | BStarted _ => [(0, DTOP_START, hdr_xidseq f)]
  | BTerminated _ _ | BBcastshutdown | BOther _ => []
  end.

(** The thread slot a message stands for. *)
Definition msg_weight (f : dtframe) : Z :=
  match fr_body f with
  | BStart _ _ | BTerminated _ _ => 1
  | BStarted err => if err =? 0 then 0 else 1
  | _ => 0
  end.

(** The conversation a pending request of rank [r] waits to be answered, and
    the one it will answer itself. *)
Definition req_wait (r : Z) (q : dthread_request_t) : list conv :=
  if fwd_op (reqop q) || (reqop q =? DTOP_START) then [(r, reqop q, xidseq q)] else [].

Definition req_carry (q : dthread_request_t) : list conv :=
  if reqop q =? DTOP_START then
    match req_un q with RUCreinfo ci => [(c_peer ci, DTOP_CREATE, c_xidseq ci)] | _ => [] end
  else if reqop q =? DTOP_JOINWAIT then [(reqpeer q, DTOP_JOIN, xidseq q)]
  else [].

(** ** Books *)

(** What is counted: a message to or from a peer, a pending request, a used
    local slot, a used global slot, one whose thread has not ended, and the
    global slot of a thread that can be waited for, by its index and number. *)
Record currency := Currency {
  c_sent : Z → dtframe → Z;
  c_recv : Z → dtframe → Z;
  c_pend : dthread_request_t → Z;
  c_slot : Z;
  c_used : Z;
  c_live : Z;
  c_gt : Z → Z → Z }.

Definition gtab_live (g : dthread_gtab_t) : bool :=
  gtab_used g && LT_NEED_FINALSTATE (gt_terminated g).

(** The thread of the entry has not ended and is not detached. *)
Definition joinable (g : dthread_gtab_t) : bool := gtab_live g && (gt_detached g =? 0).

Definition gt_value (cur : currency) (x : Z * dthread_gtab_t) : Z :=
  if joinable x.2 then c_gt cur x.1 (gt_seq x.2) else 0.

Definition pend_value (cur : currency) (s : dtst) (r : reqref) : Z :=
  match req_lookup s r with Some q => c_pend cur q | None => 0 end.

Definition value (cur : currency) (s : dtst) : Z :=
  tally (λ m, c_sent cur (peer m) (frame m)) (mpisendq (dtq s)) +
  tally (λ m, c_recv cur (peer m) (frame m)) (mpirecvq (dtq s)) +
  tally (pend_value cur s) (rpending (mgrstate s)) +
  c_slot cur * count_if ltab_used (ltab s) +
  c_used cur * count_if gtab_used (gtab s) + c_live cur * count_if gtab_live (gtab s) +
  tally (gt_value cur) (indexed 0 (gtab s)).

(** The balance of conversation [k] at rank [r]: carried minus awaited. *)
Definition conv_cur (r : Z) (k : conv) : currency :=
  Currency (λ p f, occ k (msg_conv r p f)) (λ p f, occ k (msg_conv p r f))
    (λ q, occ k (req_carry q) - occ k (req_wait r q)) 0 0 0 (λ _ _, 0).

(** Local slots and threads on their way, against live global slots. *)
Definition load_cur : currency :=
  Currency (λ _, msg_weight) (λ _, msg_weight) (λ _, 0) 1 0 (-1) (λ _ _, 0).

Definition used_cur : currency := Currency (λ _ _, 0) (λ _ _, 0) (λ _, 0) 0 1 0 (λ _ _, 0).

Definition b2z (b : bool) : Z := if b then 1 else 0.

(** A join: the rank and number of its request, and the thread it names. *)
Definition jkey : Type := Z * Z * dthread_t.

(** The JOIN messages and the joiners rank 0 keeps, by key. *)
Definition msg_join (k : jkey) (src : Z) (f : dtframe) : Z :=
  match fr_body f with
  | BJoin t => b2z (bool_decide ((src, hdr_xidseq f, t) = k))
  | _ => 0
  end.

Lemma msg_join_nonneg k src f : 0 ≤ msg_join k src f.
Proof. unfold msg_join, b2z. repeat case_match; lia. Qed.

Definition req_join (k : jkey) (q : dthread_request_t) : Z :=
  match reqop q =? DTOP_JOINWAIT, req_un q with
  | true, RUWaitthread t => b2z (bool_decide ((reqpeer q, xidseq q, t) = k))
  | _, _ => 0
  end.

Definition join_cur (r : Z) (k : jkey) : currency :=
  Currency (λ _, msg_join k r) (msg_join k) (req_join k) 0 0 0 (λ _ _, 0).

(** The joiners kept for thread [t], against a thread [t] in the table that can
    be waited for. *)
Definition req_awaits (t : dthread_t) (q : dthread_request_t) : Z :=
  match reqop q =? DTOP_JOINWAIT, req_un q with
  | true, RUWaitthread t' => b2z (bool_decide (t' = t))
  | _, _ => 0
  end.

Definition wait_cur (t : dthread_t) : currency :=
  Currency (λ _ _, 0) (λ _ _, 0) (req_awaits t) 0 0 0 (λ i sq, - b2z (bool_decide (Dthread i sq = t))).

(** All the joiners a rank keeps. *)
Definition keep_cur : currency :=
  Currency (λ _ _, 0) (λ _ _, 0) (λ q, b2z (reqop q =? DTOP_JOINWAIT)) 0 0 0 (λ _ _, 0).

(** The message does not report that a thread could not be started. *)
Definition starts_well (f : dtframe) : Prop :=
  match fr_body f with BStarted err => err = 0 | _ => True end.

(** The message [m] is processed from [s] to [s']: what it carried is in the
    books of the rank afterwards; only rank 0 changes the number of threads. *)
Definition settled (c : config) (m : dtq_mpiqentry) (s s' : dtst) : Prop :=
  (∀ k, value (conv_cur (mpi_rank c) k) s' =
        value (conv_cur (mpi_rank c) k) s + occ k (msg_conv (peer m) (mpi_rank c) (frame m))) ∧
  value load_cur s' ≤ value load_cur s + msg_weight (frame m) ∧
  (mpi_rank c ≠ 0 → count_if gtab_used (gtab s') = count_if gtab_used (gtab s)).

(** A pending request of the rank waits for the answer to conversation [k]. *)
Definition awaits (c : config) (s : dtst) (k : conv) : Prop :=
  ∃ r q, r ∈ rpending (mgrstate s) ∧ req_lookup s r = Some q ∧ k ∈ req_wait (mpi_rank c) q.

(** The messages that answer a request. *)
Definition is_reply (f : dtframe) : bool :=
  match fr_body f with
  | BCreated _ _ | BStarted _ | BDetached _ | BCanceled _ | BJoined _ _ => true
  | _ => false
  end.

Definition answers_awaited (c : config) (s : dtst) (m : dtq_mpiqentry) : Prop :=
  is_reply (frame m) = true →
  ∀ k, k ∈ msg_conv (peer m) (mpi_rank c) (frame m) → awaits c s k.

(** A message as the code composes it before the shutdown. *)
Definition frame_wf (f : dtframe) : Prop :=
  match fr_body f with
  | BCreate _ disp_idx _ => 0 ≤ disp_idx
  | BStart t _ | BTerminated t _ => 0 ≤ dt_index t
  | BBcastshutdown | BOther _ => False
  | _ => True
  end.

(** ... of the right size, and to rank 0 if only rank 0 takes it. *)
Definition msg_wf (dst : Z) (m : dtq_mpiqentry) : Prop :=
  flen m = sizeof_msg (fr_body (frame m)) ∧ frame_wf (frame m) ∧
  (rank0_op (hdr_op (frame m)) = true → dst = 0).

Definition queues_wf (c : config) (q : dtq_state) : Prop :=
  Forall (λ m, msg_wf (peer m) m) (mpisendq q) ∧ Forall (msg_wf (mpi_rank c)) (mpirecvq q).

(** ** What a handler leaves alone *)

Definition lt_used (l : dthread_ltab_t) : Prop := lt_pth_state l ≠ LT_NONE.

(** Dispatch indices are unsigned. *)
Definition disp_wf (gt : list dthread_gtab_t) : Prop := Forall (λ g, 0 ≤ gt_disp_idx g) gt.

Lemma disp_wf_get gt i g : disp_wf gt → aget gt i = Some g → 0 ≤ gt_disp_idx g.
Proof.
  intros H Hg. unfold aget in Hg. destruct (0 <=? i); [|done].
  exact (Forall_lookup_1 _ _ _ _ H Hg).
Qed.

Lemma disp_wf_aset gt i g g' : disp_wf gt → aget gt i = Some g →
  (0 ≤ gt_disp_idx g → 0 ≤ gt_disp_idx g') → disp_wf (aset gt i g').
Proof.
  intros H Hg Hd. apply Forall_insert; [done|]. apply Hd. by eapply disp_wf_get.
Qed.

(** Threads of this rank do not become pending, a used slot stays used for the
    same thread, and only the request of a thread that stops being pending
    changes, and is no longer busy. *)
Record lframe (c : config) (s0 s : dtst) : Prop := {
  lf_pend : ∀ i, RLtab i ∈ rpending (mgrstate s) → RLtab i ∈ rpending (mgrstate s0);
  lf_queue : mgrreqq (dtq s) = mgrreqq (dtq s0);
  lf_ndeq : mpindequeuedsends (dtq s) = mpindequeuedsends (dtq s0);
  lf_disp : disp_wf (gtab s0) → disp_wf (gtab s);
  lf_ltab : ∀ i l, aget (ltab s) i = Some l → ∃ l0, aget (ltab s0) i = Some l0 ∧
    req_ltabidx (lt_req l) = req_ltabidx (lt_req l0) ∧
    (lt_used l0 → lt_used l ∧ lt_gtab_idx l = lt_gtab_idx l0) ∧
    (lt_used l → lt_used l0 ∨ 0 ≤ lt_gtab_idx l < nmaxthread c) ∧
    (RLtab i ∉ rpending (mgrstate s0) ∨ RLtab i ∈ rpending (mgrstate s) → lt_req l = lt_req l0) ∧
    (RLtab i ∈ rpending (mgrstate s0) → RLtab i ∉ rpending (mgrstate s) →
       reqstate (lt_req l) ≠ DTREQ_BUSY) }.

#[export] Instance lframe_preorder c : PreOrder (lframe c).
Proof.
  split.
  - intros s. split; [done|done|done|done|]. intros i l Hl. exists l. split_and!; try done; auto.
  - intros s0 s1 s2 [P1 Q1 N1 D1 L1] [P2 Q2 N2 D2 L2]. split; [auto|congruence|congruence|auto|].
    intros i l2 Hl2. destruct (L2 _ _ Hl2) as (l1 & Hl1 & E2 & U2 & V2 & R2 & B2).
    destruct (L1 _ _ Hl1) as (l0 & Hl0 & E1 & U1 & V1 & R1 & B1). exists l0. split_and!; try done.
    + congruence.
    + intros [Hu E]%U1. apply U2 in Hu as [? ->]. done.
    + intros [Hu|?]%V2; [|by right]. destruct (U2 Hu) as [_ ->]. auto.
    + intros [Hn|Hp].
      * rewrite R2 by (left; auto). apply R1. by left.
      * rewrite R2 by (by right). apply R1. right. auto.
    + intros H0 H2. destruct (decide (RLtab i ∈ rpending (mgrstate s1))) as [H1|H1]; [by apply B2|].
      rewrite R2 by (by left). by apply B1.
Qed.

(** The tables of this rank and its threads' requests are as before. *)
Lemma lframe_same c s s' : ltab s' = ltab s → mgrreqq (dtq s') = mgrreqq (dtq s) →
  mpindequeuedsends (dtq s') = mpindequeuedsends (dtq s) →
  (disp_wf (gtab s) → disp_wf (gtab s')) →
  (∀ i, RLtab i ∈ rpending (mgrstate s') ↔ RLtab i ∈ rpending (mgrstate s)) → lframe c s s'.
Proof.
  intros El Eq En Hd Hp. split; [intros i; apply Hp|done|done|done|]. rewrite El. intros i l Hl. exists l.
  split_and!; try done; auto. by rewrite Hp.
Qed.

(** ** Keeping the books *)

Section Books.
Context (c : config) (e : env) (Hc : config_ok c) (Hmal : ∀ n, malloc_ok e n = true).
Context (s0 : dtst).
Implicit Types (hr : list reqref) (hm : list nat) (d : currency → Z).

(** A state on the way from [s0], in which the books differ from those of [s0]
    by [d]. *)
Definition books hr hm d (s : dtst) : Prop :=
  rank_ok c hr hm s ∧ mpisq_draindown (dtq s) = DTQ_DD_INIT ∧
  queues_wf c (dtq s) ∧ lframe c s0 s ∧
  ∀ cur, value cur s = value cur s0 + d cur.

Lemma books_init hr hm : rank_ok c hr hm s0 → mpisq_draindown (dtq s0) = DTQ_DD_INIT →
  queues_wf c (dtq s0) → books hr hm (λ _, 0) s0.
Proof using. intros. split_and!; try done. intros. lia. Qed.

Lemma books_ext hr hm d d' s : books hr hm d s → (∀ cur, d cur = d' cur) → books hr hm d' s.
Proof using. intros (? & ? & ? & ? & H) E. split_and!; try done. intros cur. by rewrite <- E. Qed.

Lemma books_perm hr hm hm' d s : hm ≡ₚ hm' → books hr hm d s → books hr hm' d s.
Proof using. intros E (H & ?). split; [|done]. by eapply rank_ok_perm; [..|exact H]. Qed.

Lemma books_move hr hm hr' hm' d x s s' : books hr hm d s → rank_ok c hr' hm' s' →
  mpisq_draindown (dtq s') = DTQ_DD_INIT → queues_wf c (dtq s') →
  lframe c s s' → (∀ cur, value cur s' = value cur s + x cur) →
  books hr' hm' (λ cur, d cur + x cur) s'.
Proof using.
  intros (_ & _ & _ & Hf & Hv) ???? Hx. split_and!; try done; [by etrans|].
  intros cur. rewrite Hx, Hv. lia.
Qed.

(** The parts of the state the books do not see. *)
Lemma books_keep hr hm hr' hm' d s s' : books hr hm d s → rank_ok c hr' hm' s' →
  mpisq_draindown (dtq s') = mpisq_draindown (dtq s) → mpisendq (dtq s') = mpisendq (dtq s) →
  mpirecvq (dtq s') = mpirecvq (dtq s) → mgrreqq (dtq s') = mgrreqq (dtq s) →
  mpindequeuedsends (dtq s') = mpindequeuedsends (dtq s) →
  rpending (mgrstate s') = rpending (mgrstate s) →
  (∀ r, r ∈ rpending (mgrstate s) → req_lookup s' r = req_lookup s r) →
  ltab s' = ltab s → gtab s' = gtab s → books hr' hm' d s'.
Proof using.
  intros Hb H Ed Es Er Eq En Ep El Elt Eg. eapply books_ext; [eapply (books_move _ _ _ _ _ (λ _, 0)); [exact Hb|exact H|..]|].
  - rewrite Ed. apply Hb.
  - unfold queues_wf. rewrite Es, Er. apply Hb.
  - apply lframe_same; [done|done|done|by rewrite Eg|]. by rewrite Ep.
  - intros cur. unfold value. rewrite Es, Er, Ep, Elt, Eg, (tally_ext (pend_value cur s') (pend_value cur s)); [lia|].
    intros r Hr. unfold pend_value. by rewrite El.
  - intros. simpl. lia.
Qed.

(** Queueing a message. *)
Definition post (cur : currency) (m : dtq_mpiqentry) : Z :=
  if peer m =? mpi_rank c then c_recv cur (peer m) (frame m) else c_sent cur (peer m) (frame m).

Lemma wp_send_lists s m : mpisq_draindown (dtq s) = DTQ_DD_INIT →
  wp (dtq_send_enqueue c m) (λ o s', o = None ∧ (∃ q, s' = s <| dtq := q |>) ∧
    mgrreqq (dtq s') = mgrreqq (dtq s) ∧ mpisq_draindown (dtq s') = DTQ_DD_INIT ∧
    mpindequeuedsends (dtq s') = mpindequeuedsends (dtq s) ∧
    if peer m =? mpi_rank c
    then mpisendq (dtq s') = mpisendq (dtq s) ∧ mpirecvq (dtq s') = mpirecvq (dtq s) ++ [m]
    else mpisendq (dtq s') = mpisendq (dtq s) ++ [m] ∧ mpirecvq (dtq s') = mpirecvq (dtq s)) s.
Proof using.
  intros Hd. unfold dtq_send_enqueue, dtq_recv_enqueue_locked, upd_dtq. do 2 wp_step. rewrite Hd. simpl.
  destruct (peer m =? mpi_rank c); wp_steps; (split; [done|split; [by eexists|]]); [|done].
  unfold recv_enqueue, mgr_signal. by destruct (mgr_idle (dtq s)).
Qed.

Lemma bk_send hr hm d s m : books hr (mid m :: hm) d s → msg_wf (peer m) m →
  wp (dtq_send_enqueue c m) (λ o s', o = None ∧ qsame s s' ∧
    books hr hm (λ cur, d cur + post cur m) s') s.
Proof using.
  intros Hb Hm. pose proof Hb as (H & Hd & Hw & _).
  eapply wp_mono; [apply wp_and; [by apply wp_send_enqueue|by apply wp_send_lists]|].
  intros o s' [[Hq H1] (-> & _ & Eq & Ed & En & El)]. split; [done|]. split; [done|].
  pose proof Hq as (q & n & -> & _). simpl in *. eapply books_move; [exact Hb|exact H1|done|..].
  - destruct Hw as [Hw1 Hw2]. unfold queues_wf. simpl. destruct (Z.eqb_spec (peer m) (mpi_rank c)) as [E|]; destruct El as [-> ->];
      rewrite ?Forall_app, ?Forall_singleton; rewrite ?E in Hm; done.
  - by apply lframe_same.
  - intros cur. unfold value, post. simpl.
    rewrite (tally_ext (pend_value cur _) (pend_value cur s)) by (by intros []).
    destruct (peer m =? mpi_rank c); destruct El as [-> ->]; rewrite tally_app; simpl; lia.
Qed.

Lemma bk_send_or_free hr hm d s m : books hr (mid m :: hm) d s → msg_wf (peer m) m →
  wp (send_or_free c m) (λ b s', b = true ∧ qsame s s' ∧ books hr hm (λ cur, d cur + post cur m) s') s.
Proof using.
  intros Hb Hm. unfold send_or_free. wp_step. eapply wp_mono; [by apply bk_send|].
  intros o s' (-> & ? & ?). by wp_step.
Qed.

Lemma bk_mqe_alloc hr hm d s : books hr hm d s →
  wp (dtq_mqe_alloc e) (λ o s', ∃ m, o = Some m ∧ qsame s s' ∧ books hr (mid m :: hm) d s') s.
Proof using Hmal.
  intros Hb. pose proof Hb as (H & _).
  eapply wp_mono; [apply wp_and; [by apply wp_mqe_alloc|]|].
  - instantiate (1 := λ o s', is_Some o ∧ mgrreqq (dtq s') = mgrreqq (dtq s) ∧
      mpisq_draindown (dtq s') = mpisq_draindown (dtq s) ∧ mpisendq (dtq s') = mpisendq (dtq s) ∧
      mpirecvq (dtq s') = mpirecvq (dtq s) ∧ mpindequeuedsends (dtq s') = mpindequeuedsends (dtq s)).
    unfold dtq_mqe_alloc, malloc, upd_dtq. wp_steps.
    destruct (mqefree (dtq s)); wp_steps; rewrite ?Hmal in *; simplify_eq; split_and!; done || by eexists.
  - intros o s' [[Hq H1] ([m ->] & Eq & Ed & Es & Er & En)]. exists m. split; [done|]. split; [done|].
    destruct Hq as (q & n & -> & _). eapply books_keep; [exact Hb|exact H1|done..| |done|done]. by intros [].
Qed.

Lemma bk_mqe_put hr hm d s m : books hr (mid m :: hm) d s →
  wp (upd_dtq (λ q, q <| mqefree ::= cons m |>)) (λ _ s', qsame s s' ∧ books hr hm d s') s.
Proof using.
  intros Hb. pose proof Hb as (H & _).
  eapply wp_mono; [apply wp_and; [by apply wp_mqe_put|]|].
  - instantiate (1 := λ _ s', s' = s <| dtq ::= (λ q, q <| mqefree ::= cons m |>) |>). by apply wp_modify.
  - intros [] s' [[Hq H1] ->]. split; [done|].
    eapply books_keep; [exact Hb|exact H1|done..| |done|done]. by intros [].
Qed.

(** Internal requests. *)
Lemma bk_req_alloc hr hm d s : books hr hm d s →
  wp (dtq_req_alloc e) (λ o s', ∃ r, o = Some r ∧ books (r :: hr) hm d s' ∧
    mgrstate s' = mgrstate s ∧ gtab s' = gtab s ∧ seqsrc s' = seqsrc s ∧
    (∀ r, r ∈ rpending (mgrstate s) → req_lookup s' r = req_lookup s r)) s.
Proof using Hmal.
  intros Hb. pose proof Hb as (H & _).
  eapply wp_mono; [apply wp_and; [by apply (wp_req_alloc_full c e Hmal)|]|].
  - instantiate (1 := λ o s', mgrreqq (dtq s') = mgrreqq (dtq s) ∧ ltab s' = ltab s ∧
      mpisq_draindown (dtq s') = mpisq_draindown (dtq s) ∧ mpisendq (dtq s') = mpisendq (dtq s) ∧
      mpirecvq (dtq s') = mpirecvq (dtq s) ∧ mpindequeuedsends (dtq s') = mpindequeuedsends (dtq s)).
    unfold dtq_req_alloc, malloc, upd_dtq. wp_steps. by destruct (reqfree (dtq s)); wp_steps.
  - intros o s' [(r & -> & H1 & Em & Eg & El & _ & Es) (E1 & E2 & E3 & E4 & E5 & E6)].
    exists r. split; [done|]. split; [|done].
    eapply books_keep; [exact Hb|exact H1|done..|by rewrite Em|done|done|done].
Qed.

Lemma bk_req_put hr hm d s id q q' : books (RInternal id :: hr) hm d s →
  req_lookup s (RInternal id) = Some q →
  (reqstate q' = DTREQ_INTERNAL ↔ reqstate q = DTREQ_INTERNAL) →
  let s' := req_store (RInternal id) q' s in
  books (RInternal id :: hr) hm d s' ∧ req_lookup s' (RInternal id) = Some q'.
Proof using.
  intros Hb Hq Hst. pose proof Hb as (H & _). pose proof (held_not_pending _ _ _ _ _ H) as Hni.
  split; [|apply lookup_insert_eq].
  eapply books_keep; [exact Hb|by eapply rank_ok_req_put|done..| |done|done].
  intros r Hr. apply req_lookup_store_ne. congruence.
Qed.

Lemma bk_release hr hm d s r b : books (r :: hr) hm d s →
  wp (dtq_req_release r b) (λ _ s', books hr hm d s' ∧
    s' = s <| dtq ::= (λ q, q <| reqfree ::= cons r |>) |>) s.
Proof using.
  intros Hb. pose proof Hb as (H & _).
  eapply wp_mono; [apply wp_and; [by apply wp_release_held|by eapply wp_release_dtq]|].
  intros [] s' [[H1 _] ->]. split; [|done].
  eapply books_keep; [exact Hb|exact H1|done..| |done|done]. by intros [].
Qed.

Lemma bk_push hr hm d s r q (f : dt_mgrstate → dt_mgrstate) : books (r :: hr) hm d s →
  req_lookup s r = Some q → pend_ok c r q → key_fresh (req_lookup s) (rpending (mgrstate s)) q →
  (∀ g, rpending (f g) = rpending g ++ [r] ∧ threads_alloc (f g) = threads_alloc g ∧
     ltab_alloc_cnt (f g) = ltab_alloc_cnt g ∧ last_slot (f g) = last_slot g ∧
     ltab_lastslot (f g) = ltab_lastslot g) →
  books hr hm (λ cur, d cur + c_pend cur q) (s <| mgrstate ::= f |>).
Proof using.
  intros Hb Hq Hp Hf Hg. pose proof Hb as (H & Hd & Hw & _).
  destruct (held_internal _ _ _ _ _ H) as (id & _ & -> & _). destruct (Hg (mgrstate s)) as (Ep & _).
  eapply books_move; [exact Hb|by eapply rank_ok_push|done|done|..].
  - apply lframe_same; [done|done|done|done|]. simpl. rewrite Ep. intros i.
    rewrite elem_of_app, list_elem_of_singleton. split; [by intros [?|?]|by left].
  - intros cur. unfold value. simpl. rewrite Ep, tally_app. simpl.
    rewrite (tally_ext (pend_value cur _) (pend_value cur s)) by (by intros []).
    unfold pend_value at 2. simpl in *. rewrite Hq. lia.
Qed.

Lemma bk_take hr hm d s id q : let r := RInternal id in
  books hr hm d s → r ∈ rpending (mgrstate s) → req_lookup s r = Some q →
  books (r :: hr) hm (λ cur, d cur - c_pend cur q)
    (s <| mgrstate ::= (λ g, g <| rpending ::= tailq_remove r |>) |>).
Proof using.
  intros r Hb Hr Hq. pose proof Hb as (H & Hd & Hw & _).
  eapply (books_move _ _ _ _ _ (λ cur, - c_pend cur q)); [exact Hb|by apply (rank_ok_take _ _ _ _ r)|done|done|..].
  - apply lframe_same; [done|done|done|done|]. simpl. intros i. split; [apply tailq_remove_elem|].
    by apply tailq_remove_elem_ne.
  - intros cur. unfold value. simpl.
    rewrite (tally_ext (pend_value cur _) (pend_value cur s)) by (by intros []).
    rewrite (tally_remove (pend_value cur s) r (rpending (mgrstate s))) by done.
    assert (pend_value cur s r = c_pend cur q) as -> by (unfold pend_value; by rewrite Hq). lia.
Qed.

Lemma bk_mgr hr hm d s (f : dt_mgrstate → dt_mgrstate) : books hr hm d s →
  (∀ g, rpending (f g) = rpending g ∧ threads_alloc (f g) = threads_alloc g ∧
     ltab_alloc_cnt (f g) = ltab_alloc_cnt g ∧ last_slot (f g) = last_slot g ∧
     ltab_lastslot (f g) = ltab_lastslot g) →
  books hr hm d (s <| mgrstate ::= f |>).
Proof using.
  intros Hb Hf. pose proof Hb as (H & _).
  eapply books_keep; [exact Hb|by apply rank_ok_mgr|done..| | |done|done]; simpl; [by destruct (Hf (mgrstate s))|].
  by intros [].
Qed.

(** The tables. *)
Lemma bk_gtab_put hr hm d s i g g' : books hr hm d s → aget (gtab s) i = Some g →
  gt_allocated g' = gt_allocated g → gt_disp_idx g' = gt_disp_idx g →
  books hr hm (λ cur, d cur + c_live cur * (b2z (gtab_live g') - b2z (gtab_live g)) +
    (gt_value cur (i, g') - gt_value cur (i, g))) (s <| gtab := aset (gtab s) i g' |>).
Proof using.
  intros Hb Hg Ha Hi. pose proof Hb as (H & Hd & Hw & _).
  eapply books_ext; [eapply (books_move _ _ _ _ _ (λ cur, c_live cur * (b2z (gtab_live g') - b2z (gtab_live g)) +
    (gt_value cur (i, g') - gt_value cur (i, g)))); [exact Hb|by eapply rank_ok_gtab_put|done|done|apply lframe_same; try done|]|intros; simpl; lia].
  { intros Hx. eapply disp_wf_aset; [done|exact Hg|]. by rewrite Hi. }
  intros cur. unfold value. simpl. rewrite (tally_ext (pend_value cur _) (pend_value cur s)) by (by intros []).
  rewrite !(count_if_aset _ _ _ _ _ Hg), (tally_indexed_aset _ _ _ _ _ _ Hg), Z.add_0_l. unfold b2z. rewrite !gtab_used_eq, Ha. lia.
Qed.

Lemma bk_gtab_put_same hr hm d s i g g' : books hr hm d s → aget (gtab s) i = Some g →
  gt_allocated g' = gt_allocated g → gt_terminated g' = gt_terminated g →
  gt_disp_idx g' = gt_disp_idx g → gt_seq g' = gt_seq g → gt_detached g' = gt_detached g →
  books hr hm d (s <| gtab := aset (gtab s) i g' |>).
Proof using.
  intros Hb Hg Ha Ht Hi Hs Hdt. eapply books_ext; [by eapply bk_gtab_put|]. intros. unfold gt_value, joinable, gtab_live. simpl.
  rewrite !gtab_used_eq, Ha, Ht, Hs, Hdt. lia.
Qed.

Lemma bk_gtab_free hr hm d s i g : books hr hm d s → aget (gtab s) i = Some g →
  wp (gtab_free i) (λ _ s', books hr hm (λ cur, d cur - c_used cur * b2z (gtab_used g) -
    c_live cur * b2z (gtab_live g) - gt_value cur (i, g)) s') s.
Proof using.
  intros Hb Hg. pose proof Hb as (H & Hd & Hw & _). pose proof (gtab_len _ _ (ok_tabs _ _ _ _ H)).
  pose proof (aget_Some_range _ _ _ Hg).
  pose proof (wp_gtab_free c hr hm s i H ltac:(lia)) as Hfr. unfold wp in Hfr.
  rewrite (gtab_free_eq _ _ _ Hg) in Hfr. eapply wp_eq; [by apply gtab_free_eq|].
  destruct (gt_allocated g =? 0) eqn:Ha.
  { eapply books_ext; [exact Hb|]. intros. unfold gt_value, joinable, gtab_live. simpl. rewrite gtab_used_eq, Ha. simpl. lia. }
  destruct Hfr as [Hfr _].
  eapply books_ext; [eapply (books_move _ _ _ _ _ (λ cur, - c_used cur * b2z (gtab_used g) - c_live cur * b2z (gtab_live g) - gt_value cur (i, g)));
    [exact Hb|exact Hfr|done|done|apply lframe_same; try done; intros Hx; by eapply disp_wf_aset|]|intros; simpl; lia].
  intros cur. unfold value. simpl. rewrite (tally_ext (pend_value cur _) (pend_value cur s)) by (by intros []).
  rewrite !(count_if_aset _ _ _ _ _ Hg), (tally_indexed_aset _ _ _ _ _ _ Hg), Z.add_0_l.
  unfold gt_value at 3, joinable, b2z, gtab_live. simpl. rewrite !gtab_used_eq. simpl. rewrite Ha. simpl. lia.
Qed.

Lemma bk_gtab_alloc hr hm d s rank disp arg : mpi_rank c = 0 → 0 ≤ disp → books hr hm d s →
  threads_alloc (mgrstate s) < nmaxthread c →
  wp (gtab_alloc c rank disp arg) (λ p s', books hr hm (λ cur, d cur + c_used cur + c_live cur + c_gt cur p (seqsrc s)) s' ∧
    0 ≤ p < nmaxthread c ∧ rpending (mgrstate s') = rpending (mgrstate s) ∧
    (∀ r, req_lookup s' r = req_lookup s r)) s.
Proof using Hc.
  intros H0 Hdi Hb Hroom. pose proof Hb as (H & Hd & Hw & _).
  eapply wp_mono; [by apply wp_gtab_alloc_full|]. intros p s' (g & Hg & Ha & -> & H1).
  pose proof (aget_Some_range _ _ _ Hg). pose proof (gtab_len _ _ (ok_tabs _ _ _ _ H)).
  split; [|split; [lia|split; [done|by intros []]]].
  eapply books_ext; [eapply (books_move _ _ _ _ _ (λ cur, c_used cur + c_live cur + c_gt cur p (seqsrc s))); [exact Hb|exact H1|done|done|apply lframe_same; try done; intros Hx; by eapply disp_wf_aset|]|intros; simpl; lia].
  intros cur. unfold value. simpl. rewrite (tally_ext (pend_value cur _) (pend_value cur s)) by (by intros []).
  rewrite !(count_if_aset _ _ _ _ _ Hg), (tally_indexed_aset _ _ _ _ _ _ Hg), Z.add_0_l.
  unfold gt_value at 2 3, joinable, gtab_live. simpl. rewrite !gtab_used_eq, Ha. simpl. lia.
Qed.

Lemma bk_get_free_seq hr hm d s op : books hr hm d s →
  Z.of_nat (length (rpending (mgrstate s))) < seq_period c →
  wp (get_free_seq c op) (λ xid s', (∃ sq, s' = s <| seqsrc := sq |>) ∧ books hr hm d s' ∧
    (op ≠ DTOP_NONE → ∀ r, r ∈ rpending (mgrstate s) → ¬ pending_match s op xid r)) s.
Proof using Hc.
  intros Hb Hn. pose proof Hb as (H & _). eapply wp_mono; [by apply wp_get_free_seq|].
  intros xid s' ((sq & ->) & H1 & Hf). split; [by eexists|]. split; [|done].
  eapply books_keep; [exact Hb|exact H1|done..| |done|done]. by intros [].
Qed.

(** Local slots: a thread starts, or a used slot changes its state. *)
Lemma bk_start_local hr hm d s t : books hr hm d s → 0 ≤ dt_index t < nmaxthread c →
  ltab_alloc_cnt (mgrstate s) < nmaxthread c →
  wp (lidx <- ltab_alloc c t;; rv <- start_pthread e lidx;;
      whenM (negb (rv =? 0)) (ltab_free lidx) ;;; retM rv)
    (λ rv s', books hr hm (λ cur, d cur + if rv =? 0 then c_slot cur else 0) s') s.
Proof using Hc.
  intros Hb Ht Hroom. pose proof Hb as (H & Hd & Hw & _).
  destruct (ltab_alloc_eq c Hc t s (ok_tabs _ _ _ _ H)) as [[? _]|(_ & p & l & Hl & Hst & E)]; [lia|].
  pose proof (aget_Some_range _ _ _ Hl) as Hp.
  pose proof (wp_ltab_alloc c Hc hr hm s t H Hroom) as H1. unfold wp in H1. rewrite E in H1. destruct H1 as [H1 _].
  wp_step. eapply wp_eq; [exact E|]. unfold start_pthread. do 2 wp_step.
  eapply wp_eq; [apply ltab_get_ok; by apply aget_aset_eq|]. do 5 wp_step. wp_step.
  match goal with |- wp _ _ ?x => set (s2 := x) end.
  assert (rank_ok c hr hm s2) as H2.
  { eapply rank_ok_tabs; [exact H1| |apply H1|try done..]. destruct H1 as [[] _ _ _ _]. by split. }
  clear H1. unfold whenM. simpl. destruct (pthread_create_rv e (ncreates s) =? 0) eqn:Erv; simpl.
  - do 2 wp_step. rewrite Erv. eapply (books_move _ _ _ _ _ c_slot); [exact Hb|exact H2|done|done|..].
    + split; [done|done|done|done|]. simpl. intros i l' Hl'. destruct (decide (i = p)) as [->|Hne].
      * rewrite aget_aset_eq in Hl' by done. simplify_eq. exists l. split_and!; try done. by right.
      * rewrite aget_aset_ne in Hl' by lia. exists l'. split_and!; try done. by left.
    + intros cur. unfold value. simpl.
      rewrite (tally_ext (pend_value cur s2) (pend_value cur s)); [|intros r _; unfold pend_value, s2; f_equal].
      2: { destruct r as [j|]; [|done]. simpl. destruct (decide (j = p)) as [->|]; [by rewrite aget_aset_eq, Hl|].
           by rewrite aget_aset_ne by lia. }
      rewrite (count_if_aset _ _ _ _ _ Hl), !ltab_used_eq, Hst. simpl. lia.
  - assert (aget (ltab s2) p = Some (Ltab (dt_index t) (dt_seq t) LT_STARTING (lt_req l))) as Hl2 by (by apply aget_aset_eq).
    pose proof (wp_ltab_free c hr hm s2 p _ H2 Hl2) as H3. unfold wp in H3. rewrite (ltab_free_eq _ _ _ Hl2) in H3.
    eapply wp_eq; [by apply ltab_free_eq|]. simpl in H3 |- *. destruct H3 as [H3 _]. wp_step. rewrite Erv.
    eapply books_move; [exact Hb|exact H3|done|done|..].
    + split; [done|done|done|done|]. simpl. intros i l' Hl'. rewrite aset_aset in Hl'.
      destruct (decide (i = p)) as [->|Hne].
      * rewrite aget_aset_eq in Hl' by done. simplify_eq. exists l. split_and!; try done.
      * rewrite aget_aset_ne in Hl' by lia. exists l'. split_and!; try done. by left.
    + intros cur. unfold value. simpl. rewrite aset_aset.
      match goal with |- context [tally (pend_value cur ?y) _] => rewrite (tally_ext (pend_value cur y) (pend_value cur s));
        [|intros r _; unfold pend_value; f_equal] end.
      2: { destruct r as [j|]; [|done]. simpl. rewrite ?aset_aset.
           destruct (decide (j = p)) as [->|]; [by rewrite aget_aset_eq, Hl|]. by rewrite aget_aset_ne by lia. }
      rewrite (count_if_aset _ _ _ _ _ Hl), !ltab_used_eq, Hst. simpl. lia.
Qed.

Lemma bk_ltab_put hr hm d s i l l' : books hr hm d s → aget (ltab s) i = Some l →
  lt_used l → lt_used l' → lt_gtab_idx l' = lt_gtab_idx l → lt_req l' = lt_req l →
  books hr hm d (s <| ltab := aset (ltab s) i l' |>).
Proof using.
  intros Hb Hl Hu Hu' Eg Er. pose proof Hb as (H & Hd & Hw & _). pose proof (aget_Some_range _ _ _ Hl).
  eapply books_ext; [eapply (books_move _ _ _ _ _ (λ _, 0)); [exact Hb|by eapply rank_ok_ltab_put|done|done|..]|intros; simpl; lia].
  - split; [done|done|done|done|]. simpl. intros j l1 Hl1. destruct (decide (j = i)) as [->|].
    + rewrite aget_aset_eq in Hl1 by done. simplify_eq. exists l. rewrite Er. split_and!; try done. by left.
    + rewrite aget_aset_ne in Hl1 by lia. exists l1. split_and!; try done. by left.
  - intros cur. unfold value. simpl. rewrite (count_if_aset _ _ _ _ _ Hl), !ltab_used_eq.
    rewrite (proj2 (Z.eqb_neq _ _) Hu), (proj2 (Z.eqb_neq _ _) Hu').
    match goal with |- context [tally (pend_value cur ?y) _] => rewrite (tally_ext (pend_value cur y) (pend_value cur s));
      [simpl; lia|intros r _; unfold pend_value; f_equal] end.
    destruct r as [j|]; [|done]. simpl. destruct (decide (j = i)) as [->|].
    + by rewrite aget_aset_eq, Hl; simpl; rewrite ?Er.
    + by rewrite aget_aset_ne by lia.
Qed.

(** The answer to a local thread's request arrives: its request is no longer
    pending, and only it changes. *)
Lemma bk_answer hr hm hm' d s s' i l q2 : books hr hm d s → rank_ok c hr hm' s' →
  RLtab i ∈ rpending (mgrstate s) → aget (ltab s) i = Some l →
  mpisq_draindown (dtq s') = mpisq_draindown (dtq s) → mpisendq (dtq s') = mpisendq (dtq s) →
  mpirecvq (dtq s') = mpirecvq (dtq s) → mgrreqq (dtq s') = mgrreqq (dtq s) →
  mpindequeuedsends (dtq s') = mpindequeuedsends (dtq s) →
  rpending (mgrstate s') = tailq_remove (RLtab i) (rpending (mgrstate s)) →
  ireqs s' = ireqs s → gtab s' = gtab s → ltab s' = aset (ltab s) i (l <| lt_req := q2 |>) →
  req_ltabidx q2 = req_ltabidx (lt_req l) → reqstate q2 = DTREQ_DONE →
  books hr hm' (λ cur, d cur - c_pend cur (lt_req l)) s'.
Proof using.
  intros Hb H' Hi Hl Ed Es Er Eq En Ep Ei Eg Elt Hid Hdn. pose proof Hb as (H & Hd & Hw & _).
  pose proof (aget_Some_range _ _ _ Hl). pose proof (rank_ok_take c hr hm s (RLtab i) H Hi) as [_ Hni]. simpl in Hni.
  eapply books_ext; [eapply (books_move _ _ _ _ _ (λ cur, - c_pend cur (lt_req l))); [exact Hb|exact H'|congruence| |..]|intros; simpl; lia].
  - unfold queues_wf. by rewrite Es, Er.
  - split; [|done|done|by rewrite Eg|].
    + rewrite Ep. intros j. apply tailq_remove_elem.
    + rewrite Elt, Ep. intros j l' Hl'. destruct (decide (j = i)) as [->|].
      * rewrite aget_aset_eq in Hl' by done. simplify_eq. exists l. simpl. rewrite Hdn.
        split_and!; try done; [by left|]. by intros [?|?].
      * rewrite aget_aset_ne in Hl' by lia. exists l'. split_and!; try done; [by left|].
        intros Hj []. apply tailq_remove_elem_ne; [congruence|done].
  - intros cur. unfold value. rewrite Es, Er, Ep, Eg, Elt.
    rewrite (tally_remove (pend_value cur s) (RLtab i) (rpending (mgrstate s))) by done.
    assert (pend_value cur s (RLtab i) = c_pend cur (lt_req l)) as -> by (unfold pend_value; simpl; by rewrite Hl).
    rewrite (tally_ext (pend_value cur s') (pend_value cur s)).
    + rewrite (count_if_aset _ _ _ _ _ Hl), !ltab_used_eq. simpl. lia.
    + intros r Hr. unfold pend_value. f_equal. destruct r as [j|]; simpl; [|by rewrite Ei].
      rewrite Elt. destruct (decide (j = i)) as [->|]; [done|]. by rewrite aget_aset_ne by lia.
Qed.

(** Searching the pending list. *)
Lemma bk_joinwait_search hr hm d s t (rm : bool) : books hr hm d s →
  wp (joinwait_search e t rm) (λ o s',
    match o with
    | None => s' = s ∧ ∀ r, r ∈ rpending (mgrstate s) → ¬ waits_for s t r
    | Some r => ∃ id q, r = RInternal id ∧ req_lookup s' r = Some q ∧ reqop q = DTOP_JOINWAIT ∧
        req_un q = RUWaitthread t ∧ gtab s' = gtab s ∧
        if rm then books (r :: hr) hm (λ cur, d cur - c_pend cur q) s' else s' = s
    end) s.
Proof using.
  intros Hb. pose proof Hb as (H & _). eapply wp_mono; [by apply wp_joinwait_search|].
  intros [r|] s'; [|done]. intros (Hr & (q & Hq & Hop & Hu) & Hs').
  destruct (pi_pend _ _ _ _ _ _ (ok_pend _ _ _ _ H) r Hr) as (q' & Hq' & Hp). simplify_eq.
  destruct r as [i|id]; [simpl in Hp; by rewrite Hop in Hp|]. exists id, q. split; [done|].
  destruct rm; [|by subst]. destruct Hs' as (-> & _). split_and!; try done. by apply (bk_take hr hm d s id).
Qed.

(** The books at the end of a handler. *)
Lemma value_used s : value used_cur s = count_if gtab_used (gtab s).
Proof using.
  unfold value. simpl. assert (∀ A (l : list A), tally (λ _, 0) l = 0) as Hz by (intros A l; induction l; simpl; lia).
  rewrite (tally_ext (pend_value used_cur s) (λ _, 0)) by (intros r _; unfold pend_value; by destruct (req_lookup s r)).
  rewrite (tally_ext (gt_value used_cur) (λ _, 0)) by (intros x _; unfold gt_value; by destruct (joinable _)).
  rewrite !Hz. lia.
Qed.

Lemma post_conv k m : post (conv_cur (mpi_rank c) k) m = occ k (msg_conv (mpi_rank c) (peer m) (frame m)).
Proof using. unfold post. simpl. destruct (Z.eqb_spec (peer m) (mpi_rank c)) as [->|]; done. Qed.

Lemma post_load m : post load_cur m = msg_weight (frame m).
Proof using. unfold post. simpl. by destruct (peer m =? mpi_rank c). Qed.

Lemma post_used m : post used_cur m = 0.
Proof using. unfold post. simpl. by destruct (peer m =? mpi_rank c). Qed.

(** A difference that pays for the message [m]. *)
Definition paid (m : dtq_mpiqentry) d : Prop :=
  (∀ k, d (conv_cur (mpi_rank c) k) = occ k (msg_conv (peer m) (mpi_rank c) (frame m))) ∧
  d load_cur ≤ msg_weight (frame m) ∧ (mpi_rank c ≠ 0 → d used_cur = 0).

(** The same for joins: a JOIN that is kept is the one that came in; only
    rank 0 keeps one; and a thread with a joiner can be waited for, unless
    its start failed. *)
Definition joins_paid (m : dtq_mpiqentry) d (s : dtst) : Prop :=
  (∀ k, d (join_cur (mpi_rank c) k) ≤ msg_join k (peer m) (frame m)) ∧
  (mpi_rank c ≠ 0 → d keep_cur ≤ 0 ∧ ∀ t, d (wait_cur t) ≤ 0) ∧
  (mpi_rank c = 0 → starts_well (frame m) → (∀ t, value (wait_cur t) s0 ≤ 0) → ∀ t, value (wait_cur t) s ≤ 0).

Definition settles (m : dtq_mpiqentry) hr hm (s : dtst) : Prop :=
  ∃ d, books hr hm d s ∧ paid m d ∧ joins_paid m d s.

Lemma post_join k m : post (join_cur (mpi_rank c) k) m = msg_join k (mpi_rank c) (frame m).
Proof using. unfold post. simpl. destruct (Z.eqb_spec (peer m) (mpi_rank c)) as [->|]; done. Qed.

Lemma post_wait t m : post (wait_cur t) m = 0.
Proof using. unfold post. simpl. by destruct (peer m =? mpi_rank c). Qed.

Lemma post_keep m : post keep_cur m = 0.
Proof using. unfold post. simpl. by destruct (peer m =? mpi_rank c). Qed.

(** A handler that keeps no joiner and takes no thread away. *)
Lemma joins_quiet m hr hm d s : books hr hm d s →
  (∀ k, d (join_cur (mpi_rank c) k) ≤ msg_join k (peer m) (frame m)) →
  (mpi_rank c ≠ 0 → d keep_cur ≤ 0) →
  (starts_well (frame m) ∨ mpi_rank c ≠ 0 → ∀ t, d (wait_cur t) ≤ 0) → joins_paid m d s.
Proof using.
  intros (_ & _ & _ & _ & Hv) Hk Hkeep Hw. split_and!; [done|by eauto|].
  intros _ Hs H0 t. rewrite Hv. specialize (Hw (or_introl Hs) t). specialize (H0 t). lia.
Qed.

Lemma settles_quiet m hr hm d s : books hr hm d s → paid m d →
  (∀ k, d (join_cur (mpi_rank c) k) ≤ msg_join k (peer m) (frame m)) →
  (mpi_rank c ≠ 0 → d keep_cur ≤ 0) →
  (starts_well (frame m) ∨ mpi_rank c ≠ 0 → ∀ t, d (wait_cur t) ≤ 0) → settles m hr hm s.
Proof using. intros Hb Hp Hk Hkeep Hw. exists d. split_and!; [done|done|]. by eapply joins_quiet. Qed.

(** A handler of rank 0 that is about thread [t]. *)
Lemma joins_rank0 m t hr hm d s : mpi_rank c = 0 → books hr hm d s →
  (∀ k, d (join_cur (mpi_rank c) k) ≤ msg_join k (peer m) (frame m)) →
  (∀ t', t' ≠ t → d (wait_cur t') ≤ 0) → value (wait_cur t) s ≤ 0 → joins_paid m d s.
Proof using.
  intros E0 (_ & _ & _ & _ & Hv) Hk Hw Ht. split_and!; [done|by intros []|].
  intros _ _ H0 t'. destruct (decide (t' = t)) as [->|Hne]; [done|].
  rewrite Hv. specialize (Hw t' Hne). specialize (H0 t'). lia.
Qed.

(** What an entry counts for a thread. *)
Lemma gt_wait t i g : gt_value (wait_cur t) (i, g) =
  if joinable g && bool_decide (Dthread i (gt_seq g) = t) then -1 else 0.
Proof using. unfold gt_value. simpl. destruct (joinable g); [|done]. simpl. by case_bool_decide. Qed.

(** The joiners kept for a thread nobody waits for. *)
Lemma wait_none t s : (∀ r, r ∈ rpending (mgrstate s) → ¬ waits_for s t r) →
  value (wait_cur t) s = tally (gt_value (wait_cur t)) (indexed 0 (gtab s)).
Proof using.
  intros Hn. unfold value. simpl. rewrite !tally_const.
  rewrite (tally_ext (pend_value (wait_cur t) s) (λ _, 0)), tally_const; [lia|].
  - intros r Hr. unfold pend_value, c_pend. simpl. specialize (Hn r Hr). destruct (req_lookup s r) as [q|] eqn:E; [|done].
    unfold req_awaits. destruct (Z.eqb_spec (reqop q) DTOP_JOINWAIT) as [Eo|]; [|done]. destruct (req_un q) eqn:Eu; try done.
    case_bool_decide; [|done]. subst. destruct Hn. by exists q.
Qed.

Lemma gt_wait_nonpos t x : gt_value (wait_cur t) x ≤ 0.
Proof using. destruct x as [i g]. rewrite gt_wait. by case_match. Qed.

Lemma wait_none_nonpos t s : (∀ r, r ∈ rpending (mgrstate s) → ¬ waits_for s t r) → value (wait_cur t) s ≤ 0.
Proof using. intros Hn. rewrite wait_none by done. apply tally_nonpos, gt_wait_nonpos. Qed.

(** ... and one more fits if the thread is there. *)
Lemma wait_none_joinable t s g : (∀ r, r ∈ rpending (mgrstate s) → ¬ waits_for s t r) →
  aget (gtab s) (dt_index t) = Some g → gt_seq g = dt_seq t → joinable g = true → value (wait_cur t) s ≤ -1.
Proof using.
  intros Hn Hg Hs Hj. rewrite wait_none by done. apply elem_of_indexed0 in Hg.
  etrans; [by eapply tally_nonpos_elem; [apply gt_wait_nonpos|]|]. rewrite gt_wait, Hj, Hs.
  rewrite bool_decide_true by (by destruct t). done.
Qed.

Lemma settles_settled m hr hm s : settles m hr hm s → settled c m s0 s.
Proof using.
  intros (d & (_ & _ & _ & _ & Hv) & (Hk & Hl & Hu) & _). split_and!.
  - intros k. by rewrite Hv, Hk.
  - rewrite Hv. lia.
  - intros Hr. rewrite <- !value_used, Hv, Hu by done. lia.
Qed.

Lemma settles_release m hr hm s : settles m hr (mid m :: hm) s →
  wp (dtq_recv_release m) (λ _ s', settles m hr hm s') s.
Proof using.
  intros (d & Hb & Hp & Hj). eapply wp_mono; [by apply bk_mqe_put|]. intros [] s' [_ Hb']. exists d.
  split_and!; [done|done|]. destruct Hj as (J1 & J2 & J3). split_and!; [done|done|].
  intros E1 E2 E3 t. specialize (J3 E1 E2 E3 t). destruct Hb as (_ & _ & _ & _ & Hv), Hb' as (_ & _ & _ & _ & Hv').
  by rewrite Hv', <- Hv.
Qed.
End Books.

(** A currency in which the entries of the global table are worth nothing. *)
Lemma gt_value_zero cur x : c_gt cur = (λ _ _, 0) → gt_value cur x = 0.
Proof. intros E. unfold gt_value. rewrite E. by destruct (joinable _). Qed.

Lemma gt_tally_zero cur l : c_gt cur = (λ _ _, 0) → tally (gt_value cur) l = 0.
Proof. intros E. rewrite (tally_ext _ (λ _, 0)), tally_const by (intros; by apply gt_value_zero). done. Qed.

(** Evaluates what a difference is worth. *)
Ltac books_calc :=
  intros; rewrite ?post_conv, ?post_load, ?post_used;
  rewrite ?gt_value_zero by done;
  unfold msg_conv, msg_weight, req_wait, req_carry, hdr_op, b2z in *; simpl in *; rewrite ?occ_nil.

(** The books of the joins when no joiner comes or goes. *)
Ltac joins_calc :=
  intros; cbv beta; rewrite ?post_join, ?post_wait, ?post_keep;
  rewrite ?gt_value_zero by done; simpl;
  unfold msg_join, req_join, req_awaits, b2z; simpl.

(** ** The handlers settle *)

Section Settle.
Context (c : config) (e : env) (Hc : config_ok c) (Hmal : ∀ n, malloc_ok e n = true).
Context (s0 : dtst) (m : dtq_mpiqentry).
Implicit Types (hr : list reqref) (hm : list nat) (d : currency → Z).
Abbreviation books := (books c s0).
Abbreviation settles := (settles c s0 m).

Lemma bk_created_error hr hm d s err : books hr hm d s →
  wp (send_created_error c e m err) (λ _ s', ∃ t, books hr hm (λ cur, d cur +
    post c cur (Mqe 0 (Frame (hdr_xidseq (frame m)) (BCreated err t)) 20 (peer m))) s') s.
Proof using Hmal.
  intros Hb. unfold send_created_error. wp_step. eapply wp_mono; [by apply bk_mqe_alloc|].
  intros o s1 (em & -> & _ & Hb1). wp_step.
  eapply wp_mono; [by apply (bk_send_or_free c s0 hr hm d s1 (fill_mqe em _ _ _))|].
  intros b s2 (_ & _ & Hb2). wp_step. eexists. exact Hb2.
Qed.

Lemma create_settles hr hm attrs di arg : mpi_rank c = 0 → books hr hm (λ _, 0) s0 →
  fr_body (frame m) = BCreate attrs di arg → 0 ≤ di →
  Z.of_nat (length (rpending (mgrstate s0))) < seq_period c →
  wp (create_thread c e m attrs di arg) (λ _ s', settles hr hm s') s0.
Proof using Hc Hmal.
  intros H0 Hb Eb Hdi Hn.
  assert (∀ err, wp (send_created_error c e m err) (λ _ s', settles hr hm s') s0) as Herr.
  { intros err. eapply wp_mono; [by apply bk_created_error|]. intros [] s' (t & Hb').
    eapply settles_quiet; [exact Hb'|split_and!; books_calc; rewrite ?Eb; done || lia|joins_calc; rewrite ?Eb; lia..]. }
  unfold create_thread. do 2 wp_step. wp_step; [apply Herr|]. wp_step; [apply Herr|]. breflect.
  unfold upd_mgr. do 2 wp_step. set (target := next_rank (mgrstate s0)).
  apply (bk_mgr _ _ _ _ _ _ (λ g, g <| next_rank := Z.rem (next_rank g + 1) (mpi_wsize c) |>)) in Hb; [|done].
  set (s1 := s0 <| mgrstate ::= _ |>) in *. wp_step.
  eapply wp_mono; [by apply bk_req_alloc|]. intros o s2 (r & -> & Hb2 & Em & Eg & Es & El).
  wp_step. eapply wp_mono; [by apply bk_mqe_alloc|]. intros o s3 (sm & -> & (q3 & n3 & -> & _) & Hb3).
  wp_step. eapply wp_mono; [apply (bk_gtab_alloc c Hc s0 _ _ _ _ target di arg H0 Hdi Hb3); simpl; rewrite Em; simpl; lia|].
  intros p s4 (Hb4 & Hp & Ep4 & El4). rewrite (proj2 (Z.eqb_neq p (-1))) by lia. wp_step.
  eapply wp_mono; [eapply (bk_get_free_seq c Hc); [exact Hb4|rewrite Ep4; simpl; rewrite Em; exact Hn]|].
  intros xid s5 ((sq & ->) & Hb5 & Hf). pose proof Hb5 as (H5 & _).
  wp_step. eapply wp_gtab_get; [exact H5|lia|]. intros gt _.
  destruct (held_internal _ _ _ _ _ H5) as (id & q & -> & Hq & Hst).
  pose proof (held_not_pending _ _ _ _ _ H5) as Hni.
  wp_step. eapply wp_req_get; [exact Hq|]. unfold req_put. do 2 wp_step.
  match goal with |- context [req_store _ ?x ?y] => set (q' := x); set (s6 := y) in * end.
  destruct (bk_req_put c s0 _ _ _ s6 id q q' Hb5 Hq) as [Hb6 Hq6]; [by rewrite Hst|].
  wp_step. eapply wp_mono; [apply (bk_send c s0 _ _ _ _ (fill_mqe sm target xid (BStart (Dthread p (gt_seq gt)) _)) Hb6);
    split; [done|split; [unfold frame_wf; simpl; lia|done]]|].
  intros o s7 (-> & (q7 & n7 & -> & _) & Hb7). wp_step.
  eapply settles_quiet.
  - eapply (bk_push c s0 hr hm _ _ (RInternal id) q'); [exact Hb7|exact Hq6| |  |done].
    + left. split; [done|]. eexists. split; [done|]. done.
    + refine (key_fresh_put s6 (RInternal id) _ _ Hni _). apply key_fresh_msg; [done|].
      intros r' Hr' (q1 & Hq1 & Hx). apply (Hf ltac:(done) r' Hr'). by exists q1.
  - split_and!; books_calc; rewrite ?Eb; unfold req_carry, req_wait, q'; simpl; rewrite ?H0; lia || done.
  - joins_calc. rewrite Eb. unfold q'. simpl. lia.
  - joins_calc. unfold q'. simpl. lia.
  - joins_calc. unfold q'. simpl. case_bool_decide; lia.
Qed.

Lemma start_settles hr hm t attrs : books hr hm (λ _, 0) s0 → fr_body (frame m) = BStart t attrs →
  0 ≤ dt_index t → ltab_alloc_cnt (mgrstate s0) < nmaxthread c →
  wp (start_thread c e m t attrs) (λ _ s', settles hr hm s') s0.
Proof using Hc Hmal.
  intros Hb Eb Ht Hroom. unfold start_thread. wp_step. eapply wp_mono; [by apply bk_mqe_alloc|].
  intros o s1 (sm & -> & (q1 & n1 & -> & _) & Hb1). pose proof Hb1 as (H1 & _).
  set (s1 := s0 <| dtq := q1 |> <| nmallocs := n1 |>) in *. wp_step.
  eapply wp_eq; [by eapply bad_start_eq|]. wp_step.
  eapply wp_mono with (Q := λ err s', books hr (mid sm :: hm) (λ cur, 0 +
    if start_ok c s1 t && (err =? 0) then c_slot cur else 0) s' ∧ (start_ok c s1 t = false → err ≠ 0)).
  - destruct (start_ok c s1 t) eqn:Eok; simpl; [|wp_step; split; [by eapply books_ext|done]].
    eapply wp_mono; [apply (bk_start_local c e Hc s0 hr (mid sm :: hm) (λ _, 0) s1 t Hb1)|by intros err s2 Hb2].
    + unfold start_ok in Eok. destruct (aget (gtab s1) (dt_index t)) as [g|] eqn:Hg; [|done].
      apply aget_Some_range in Hg. pose proof (gtab_len _ _ (ok_tabs _ _ _ _ H1)). lia.
    + exact Hroom.
  - intros err s2 [Hb2 Herr]. wp_step.
    eapply wp_mono; [by apply (bk_send_or_free c s0 hr hm _ s2 (fill_mqe sm 0 (hdr_xidseq (frame m)) (BStarted err)) Hb2)|].
    intros b s3 (_ & _ & Hb3). wp_step. eapply settles_quiet; [exact Hb3|..].
    + split_and!; books_calc; rewrite ?Eb; destruct (start_ok c s1 t), (Z.eqb_spec err 0); simpl; try lia;
        destruct Herr; done.
    + joins_calc. rewrite Eb. by destruct (start_ok c s1 t && (err =? 0)).
    + joins_calc. by destruct (start_ok c s1 t && (err =? 0)).
    + joins_calc. by destruct (start_ok c s1 t && (err =? 0)).
Qed.

(** Ending the wait of a joiner answers its JOIN. *)
Lemma bk_joinwait_end hr hm d s id t q : books (RInternal id :: hr) hm d s →
  req_lookup s (RInternal id) = Some q → reqop q = DTOP_JOINWAIT → req_un q = RUWaitthread t →
  0 ≤ dt_index t < nmaxthread c →
  wp (joinwait_end_release c e (RInternal id)) (λ _ s', gtab s' = gtab s ∧ ∃ err ret, books hr hm (λ cur, d cur +
    post c cur (Mqe 0 (Frame (xidseq q) (BJoined err ret)) 88 (reqpeer q))) s') s.
Proof using Hmal.
  intros Hb Hq Hop Hu Ht. unfold joinwait_end_release. wp_step. eapply wp_req_get; [exact Hq|].
  rewrite Hop. simpl. do 2 wp_step. eapply wp_mono; [by apply bk_mqe_alloc|].
  intros o s1 (m1 & -> & (q1 & n1 & -> & _) & Hb1). pose proof Hb1 as (H1 & _). wp_step.
  eapply wp_mono with (Q := λ _ s', s' = s <| dtq := q1 |> <| nmallocs := n1 |>).
  { destruct (reqerror q =? 0); [|by wp_step]. wp_step. unfold req_waitthread. rewrite Hu.
    eapply wp_gtab_get; [exact H1|done|]. intros. by wp_step. }
  intros ret s2 ->. wp_step.
  eapply wp_mono; [by apply (bk_send_or_free c s0 _ hm d _ (fill_mqe m1 (reqpeer q) (xidseq q) (BJoined (reqerror q) ret)) Hb1)|].
  intros b s3 (_ & (q3 & n3 & -> & _) & Hb3). wp_step.
  eapply wp_mono; [by apply bk_release|]. intros [] s4 [Hb4 ->]. split; [done|]. exists (reqerror q), ret. exact Hb4.
Qed.

Lemma req_carry_joinwait q r : reqop q = DTOP_JOINWAIT →
  req_carry q = [(reqpeer q, DTOP_JOIN, xidseq q)] ∧ req_wait r q = [].
Proof using. intros E. unfold req_carry, req_wait. by rewrite E. Qed.

Lemma req_carry_start q r ci : reqop q = DTOP_START → req_un q = RUCreinfo ci →
  req_carry q = [(c_peer ci, DTOP_CREATE, c_xidseq ci)] ∧ req_wait r q = [(r, DTOP_START, xidseq q)].
Proof using. intros E Eu. unfold req_carry, req_wait. by rewrite E, Eu. Qed.

Lemma detach_settles hr hm t : mpi_rank c = 0 → books hr (mid m :: hm) (λ _, 0) s0 → fr_body (frame m) = BDetach t →
  wp (detach_thread c e m t) (λ _ s', settles hr hm s') s0.
Proof using Hmal.
  intros H0 Hb Eb. pose proof Hb as (H & _). unfold detach_thread. wp_step.
  eapply wp_mono; [by eapply wp_dt2gtab|]. intros o s1 [-> Ho]. wp_step. destruct o as [i|].
  2: { do 2 wp_step. eapply wp_mono; [by apply (bk_send_or_free c s0 hr hm _ s0 (recycle_dtmsg_mqe m _ _) Hb)|].
    intros b s3 (_ & _ & Hb3). wp_step. 
    eapply settles_quiet; [exact Hb3|split_and!; books_calc; rewrite ?Eb; done || lia|joins_calc; rewrite ?Eb; lia..]. }
  destruct Ho as (-> & Hi & g & Hg & _ & Hs).
  assert (∀ t', gt_value (wait_cur t') (dt_index t, g) = if joinable g && bool_decide (t = t') then -1 else 0) as Hgw.
  { intros t'. rewrite gt_wait, Hs. by destruct t. } wp_step. eapply wp_eq; [by apply gtab_get_ok|]. unfold gtab_put. do 2 wp_step.
  eapply bk_gtab_put with (g' := g <| gt_detached := 1 |>) in Hb; [|exact Hg|done|done].
  eapply (books_ext _ _ _ _ _ (λ cur, - gt_value cur (dt_index t, g))) in Hb.
  2: { intros cur. change (gtab_live (g <| gt_detached := 1 |>)) with (gtab_live g).
       assert (gt_value cur (dt_index t, g <| gt_detached := 1 |>) = 0) as -> by (unfold gt_value, joinable; simpl; by rewrite andb_false_r).
       lia. }
  eapply wp_mono; [by apply bk_joinwait_search|]. intros [r|] s2.
  - intros (id & q & -> & Hq & Hop & Hu & _ & Hb2). wp_step.
    eapply wp_mono; [by apply (bk_send_or_free c s0 _ hm _ s2 (recycle_dtmsg_mqe m _ _) Hb2)|].
    intros b s3 (_ & (q3 & n3 & -> & _) & Hb3). wp_step. eapply wp_req_get; [exact Hq|]. unfold req_put. do 2 wp_step.
    match goal with |- context [req_store _ ?x ?y] => destruct (bk_req_put c s0 _ _ _ y id q x Hb3 Hq) as [Hb4 Hq4]; [done|] end.
    eapply wp_mono; [eapply bk_joinwait_end; [exact Hb4|exact Hq4|exact Hop|exact Hu|done]|].
    intros [] s5 (_ & err & ret & Hb5). eapply settles_quiet; [exact Hb5|..].
    + destruct (req_carry_joinwait q (mpi_rank c) Hop) as [Ec Ew].
      split_and!; intros; cbn [c_pend conv_cur]; rewrite ?Ec, ?Ew; books_calc; rewrite ?Eb; simpl; lia || done.
    + joins_calc. rewrite Eb, Hop, Hu. simpl. case_bool_decide; lia.
    + by intros [].
    + intros _ t'. cbv beta. rewrite Hgw. joins_calc. rewrite Hop, Hu. simpl. destruct (joinable g); simpl; case_bool_decide; lia.
  - intros [-> Hnone]. wp_step.
    eapply wp_mono; [by apply (bk_send_or_free c s0 hr hm _ _ (recycle_dtmsg_mqe m _ _) Hb)|].
    intros b s3 (_ & _ & Hb3). wp_step. eexists. split; [exact Hb3|].
    split; [split_and!; books_calc; rewrite ?Eb; done || lia|]. eapply (joins_rank0 _ _ _ t); [done|exact Hb3|..].
    + joins_calc. rewrite Eb. lia.
    + intros t' Ht'. cbv beta. rewrite Hgw, bool_decide_false, andb_false_r by done. joins_calc. lia.
    + apply (wait_none_nonpos t) in Hnone. destruct Hb as (_ & _ & _ & _ & Hv), Hb3 as (_ & _ & _ & _ & Hv3).
      rewrite Hv in Hnone. rewrite Hv3, post_wait. lia.
Qed.

Lemma cancel_settles hr hm t : books hr (mid m :: hm) (λ _, 0) s0 → fr_body (frame m) = BCancel t →
  wp (cancel_thread c m t) (λ _ s', settles hr hm s') s0.
Proof using.
  intros Hb Eb. pose proof Hb as (H & _). unfold cancel_thread. wp_step.
  eapply wp_mono; [by eapply wp_dt2gtab|]. intros o s1 [-> Ho]. wp_step.
  eapply wp_mono with (Q := λ _ s', books hr (mid m :: hm) (λ _, 0) s').
  - destruct o as [i|]; [|by wp_steps]. destruct Ho as (-> & Hi & g & Hg & _).
    wp_step. eapply wp_eq; [by apply gtab_get_ok|]. wp_step; [by wp_steps|]. wp_step.
    eapply wp_mono with (Q := λ _ s', books hr (mid m :: hm) (λ _, 0) s'); [|by intros; wp_steps].
    wp_step; [|by wp_steps]. breflect. wp_step.
    destruct (aget_is_Some (ltab s0) (gt_ltab_idx g)) as [l Hl].
    { pose proof (ltab_len _ _ (ok_tabs _ _ _ _ H)). lia. }
    eapply wp_eq; [by apply ltab_get_ok|]. wp_step; [|done]. unfold cancel_local. wp_step.
    eapply wp_eq; [by apply ltab_get_ok|]. unfold ltab_put. wp_steps; [|done]. breflect.
    eapply (bk_ltab_put _ _ _ _ _ (s0 <| events ::= cons _ |>)); [|exact Hl| |done|done|done].
    + eapply books_keep; [exact Hb|by apply rank_ok_events|done..| |done|done]. by intros [].
    + unfold lt_used. intros E; by rewrite E in *.
  - intros err s2 Hb2. wp_step.
    eapply wp_mono; [by apply (bk_send_or_free c s0 hr hm _ s2 (recycle_dtmsg_mqe m _ _) Hb2)|].
    intros b s3 (_ & _ & Hb3). wp_step. 
    eapply settles_quiet; [exact Hb3|split_and!; books_calc; rewrite ?Eb; done || lia|joins_calc; rewrite ?Eb; lia..].
Qed.

Lemma join_settles hr hm t : mpi_rank c = 0 → books hr (mid m :: hm) (λ _, 0) s0 →
  fr_body (frame m) = BJoin t → wp (join_thread c e m t) (λ _ s', settles hr hm s') s0.
Proof using Hmal.
  intros H0 Hb Eb. pose proof Hb as (H & _). unfold join_thread. wp_step.
  assert (∀ err ret, wp (join_reply c m err ret) (λ _ s', gtab s' = gtab s0 ∧ books hr hm (λ cur, 0 +
    post c cur (recycle_dtmsg_mqe m (BJoined err ret) (hdr_xidseq (frame m)))) s') s0) as Hrep.
  { intros. unfold join_reply. wp_step.
    eapply wp_mono; [by apply (bk_send_or_free c s0 hr hm _ s0 (recycle_dtmsg_mqe m _ _) Hb)|].
    intros b s3 (_ & (q3 & n3 & -> & _) & Hb3). by wp_step. }
  assert (∀ err ret, wp (join_reply c m err ret) (λ _ s', settles hr hm s') s0) as Hreply.
  { intros. eapply wp_mono; [apply Hrep|]. intros [] s3 [_ Hb3].
    eapply settles_quiet; [exact Hb3|split_and!; books_calc; rewrite ?Eb; done || lia|joins_calc; rewrite ?Eb; try case_bool_decide; lia..]. }
  eapply wp_mono; [by eapply wp_dt2gtab|]. intros o s1 [-> Ho]. destruct o as [i|]; [|apply Hreply].
  destruct Ho as (-> & Hi & g & Hg & Ha & Hs). wp_step. eapply wp_eq; [by apply gtab_get_ok|].
  wp_step; [apply Hreply|]. wp_step.
  { wp_step. eapply wp_mono; [apply Hrep|]. intros [] s2 [Eg Hb2].
    eapply wp_mono; [eapply bk_gtab_free; [exact Hb2|rewrite Eg; exact Hg]|].
    intros [] s3 Hb3.
    assert (gtab_live g = false) as El by (unfold gtab_live; breflect; by rewrite Heqb0, andb_false_r).
    eapply settles_quiet; [exact Hb3|split_and!; books_calc; rewrite ?Eb, ?El; done || lia|..].
    - joins_calc. rewrite Eb. case_bool_decide; lia.
    - by intros [].
    - intros _ t'. cbv beta. rewrite gt_wait. unfold joinable. rewrite El. joins_calc. lia. }
  wp_step. eapply wp_mono; [by apply bk_joinwait_search|]. intros [r|] s2.
  { intros (id & q & _ & _ & _ & _ & _ & ->). do 2 wp_step. apply Hreply. }
  intros [-> Hnone]. wp_step. eapply wp_mono; [by apply bk_req_alloc|].
  intros o s3 (r & -> & Hb3 & Em & _ & _ & El). pose proof Hb3 as (H3 & _).
  destruct (held_internal _ _ _ _ _ H3) as (id & q & -> & Hq & Hst).
  pose proof (held_not_pending _ _ _ _ _ H3) as Hni.
  wp_step. eapply wp_req_get; [exact Hq|]. unfold req_put. do 2 wp_step.
  match goal with |- context [req_store _ ?x ?y] => set (q' := x); destruct (bk_req_put c s0 _ _ _ y id q x Hb3 Hq) as [Hb4 Hq4]; [done|] end.
  unfold upd_mgr. do 2 wp_step. eapply wp_mono.
  { eapply bk_mqe_put, bk_push; [exact Hb4|exact Hq4| | |done].
    - right. split; [done|]. split; [done|]. eauto.
    - refine (key_fresh_put s3 (RInternal id) _ _ Hni _). intros r' q1 Hr' Hq1 [Hop Hk].
      rewrite Em in Hr'. rewrite El in Hq1 by done. apply (Hnone r' Hr'). by exists q1. }
  intros [] s5 [_ Hb5]. eexists. split; [exact Hb5|].
  split; [split_and!; books_calc; rewrite ?Eb; unfold q', req_carry, req_wait; simpl; rewrite ?occ_nil; done || lia|].
  eapply (joins_rank0 _ _ _ t); [done|exact Hb5|..].
  - joins_calc. rewrite Eb. unfold q'. simpl. lia.
  - intros t' Ht'. joins_calc. unfold q'. simpl. rewrite bool_decide_false; [lia|congruence].
  - breflect. assert (joinable g = true) as Hj.
    { unfold joinable, gtab_live. rewrite gtab_used_eq, (proj2 (Z.eqb_neq _ _) Ha). simpl. by rewrite Heqb0, Heqb. }
    pose proof (wait_none_joinable t s0 g Hnone Hg Hs Hj). destruct Hb5 as (_ & _ & _ & _ & Hv). rewrite Hv.
    joins_calc. unfold q'. simpl. rewrite bool_decide_true by done. lia.
Qed.

(** A change of the difference that is worth nothing. *)
Lemma bk_detached_cleanup hr hm d s i g : books hr hm d s → aget (gtab s) i = Some g →
  wp (detached_ret_cleanup c e i) (λ _ s', books hr hm d s' ∧
    ∃ g', aget (gtab s') i = Some g' ∧ gtab_live g' = gtab_live g ∧ gtab_used g' = gtab_used g ∧
      joinable g' = joinable g ∧ gt_seq g' = gt_seq g) s.
Proof using.
  intros Hb Hg. unfold detached_ret_cleanup. wp_step. eapply wp_eq; [by apply gtab_get_ok|].
  wp_step; [wp_step; eauto 10|]. breflect.
  destruct (aget_is_Some (dsps c) (gt_disp_idx g)) as [di Hd]; [unfold ndsps in *; lia|].
  wp_step. eapply wp_get_some; [exact Hd|]. wp_step; [wp_step; eauto 10|].
  unfold proc_call. wp_step. rewrite Heqb. wp_step.
  destruct (call_proc e (dt_retproc di) DTHREAD_PROC_FREE (gt_ret g) 0) as [[? ret] ?].
  apply wp_modify. split; [by eapply bk_gtab_put_same|]. eexists.
  split; [apply aget_aset_eq; by eapply aget_Some_range|done].
Qed.

Lemma terminated_settles hr hm t fin : mpi_rank c = 0 → books hr hm (λ _, 0) s0 →
  fr_body (frame m) = BTerminated t fin → 0 ≤ dt_index t < nmaxthread c →
  (∀ g, aget (gtab s0) (dt_index t) = Some g → gt_seq g = dt_seq t) →
  wp (terminated_thread c e t fin) (λ _ s', settles hr hm s') s0.
Proof using Hmal.
  intros H0 Hb Eb Ht Hseq. pose proof Hb as (H & _). unfold terminated_thread. wp_step.
  eapply wp_gtab_get; [exact H|done|]. intros g Hg. unfold gtab_put, upd_mgr. do 4 wp_step.
  pose proof (aget_Some_range _ _ _ Hg) as Hr.
  set (g1 := g <| gt_terminated := fin |> <| gt_has_ltab := 0 |>).
  eapply bk_gtab_put with (g' := g1) in Hb; [|exact Hg|done|done].
  apply (bk_mgr _ _ _ _ _ _ (λ g, g <| threads_running ::= Z.pred |>)) in Hb; [|done].
  set (s1 := (_ <| mgrstate ::= _ |>)) in *.
  assert (aget (gtab s1) (dt_index t) = Some g1) as Hg1 by (by apply aget_aset_eq).
  pose proof (Hseq g Hg) as Hs. clear Hseq.
  set (d1 := λ cur, 0 + c_live cur * (b2z (gtab_live g1) - b2z (gtab_live g)) +
    (gt_value cur (dt_index t, g1) - gt_value cur (dt_index t, g))) in *.
  assert (∀ g' t', gt_seq g' = dt_seq t → gt_value (wait_cur t') (dt_index t, g') = if joinable g' && bool_decide (t = t') then -1 else 0) as Hgw.
  { intros g' t' Es. rewrite gt_wait, Es. by destruct t. }
  assert ((∀ k, d1 (conv_cur (mpi_rank c) k) = 0) ∧ d1 load_cur = b2z (gtab_live g) - b2z (gtab_live g1) ∧
    (∀ k, d1 (join_cur (mpi_rank c) k) = 0)) as (D1 & D2 & D3).
  { unfold d1. split_and!; intros; rewrite !gt_value_zero by done; simpl; lia. }
  assert (∀ t', d1 (wait_cur t') = gt_value (wait_cur t') (dt_index t, g1) - gt_value (wait_cur t') (dt_index t, g)) as D4 by (intros; unfold d1; simpl; lia).
  clearbody d1. wp_step.
  eapply wp_mono; [by apply bk_joinwait_search|]. intros rqe s2 Hrqe. wp_step.
  eapply wp_mono with (Q := λ _ s', gtab s' = gtab s1 ∧ ∃ d, books hr hm d s' ∧
    (∀ k, d (conv_cur (mpi_rank c) k) = 0) ∧ d load_cur = b2z (gtab_live g) - b2z (gtab_live g1) ∧
    (∀ k, d (join_cur (mpi_rank c) k) ≤ 0) ∧
    (∀ t', d (wait_cur t') = d1 (wait_cur t') - match rqe with Some _ => b2z (bool_decide (t = t')) | None => 0 end) ∧
    (rqe = None → value (wait_cur t) s' ≤ 0)).
  - destruct rqe as [r|].
    2: { destruct Hrqe as [-> Hnone]. wp_step. split; [done|]. exists d1. split_and!; try done; [intros k; by rewrite D3|intros; lia|].
      intros _. by apply wait_none_nonpos. }
    destruct Hrqe as (id & q & -> & Hq & Hop & Hu & Eg & Hb2). wp_step.
    eapply wp_mono with (Q := λ _ s', gtab s' = gtab s1 ∧ ∃ q', req_lookup s' (RInternal id) = Some q' ∧
      reqop q' = DTOP_JOINWAIT ∧ req_un q' = RUWaitthread t ∧ reqpeer q' = reqpeer q ∧ xidseq q' = xidseq q ∧
      books (RInternal id :: hr) hm (λ cur, d1 cur - c_pend cur q) s').
    { wp_step; [|split; [done|by exists q]]. wp_step. eapply wp_req_get; [exact Hq|].
      apply wp_modify. split; [exact Eg|].
      match goal with |- context [req_store _ ?x ?y] => exists x; destruct (bk_req_put c s0 _ _ _ y id q x Hb2 Hq) as [Hb4 Hq4]; [done|] end.
      done. }
    intros [] s3 (Eg3 & q' & Hq' & Hop' & Hu' & Epr & Exd & Hb3).
    eapply wp_mono; [eapply bk_joinwait_end; [exact Hb3|exact Hq'|exact Hop'|exact Hu'|done]|].
    intros [] s4 (Eg4 & err & ret & Hb4). split; [congruence|]. eexists. split; [exact Hb4|].
    destruct (req_carry_joinwait q (mpi_rank c) Hop) as [Ec Ew]. split_and!; [..|done].
    + intros k. rewrite D1. cbn [c_pend conv_cur]. rewrite Ec, Ew, Epr, Exd. books_calc. lia.
    + rewrite D2. books_calc. lia.
    + intros k. rewrite D3. joins_calc. rewrite Hop, Hu. simpl. case_bool_decide; lia.
    + joins_calc. rewrite Hop, Hu. simpl. lia.
  - intros [] s3 (Eg3 & d & Hb3 & Hdk & Hdl & Hdj & Hdw & Hnone). rewrite <- Eg3 in Hg1. wp_step.
    eapply wp_mono with (Q := λ _ s', books hr hm d s' ∧ ∃ g', aget (gtab s') (dt_index t) = Some g' ∧
      gtab_live g' = gtab_live g1 ∧ gtab_used g' = gtab_used g1 ∧ joinable g' = joinable g1 ∧ gt_seq g' = gt_seq g1).
    { wp_step; [by apply bk_detached_cleanup|by eauto 10]. }
    intros [] s4 (Hb4 & g' & Hg' & El & Eu & Ej & Es'). wp_step.
    + eapply wp_mono; [by eapply bk_gtab_free|]. intros [] s5 Hb5. eapply settles_quiet; [exact Hb5|..].
      * split_and!; intros; rewrite ?Hdk, ?Hdl; books_calc; rewrite ?Eb, ?El; try done; try lia.
        destruct (gtab_live g), (gtab_live g1); lia.
      * intros k. specialize (Hdj k). joins_calc. rewrite Eb. lia.
      * by intros [].
      * intros _ t'. cbv beta. rewrite Hdw, D4, !Hgw, Ej by (done || by rewrite Es'). simpl.
        destruct rqe as [r|]; [destruct (joinable g), (joinable g1); simpl; unfold b2z; case_bool_decide; lia|].
        rewrite orb_false_r in *. assert (joinable g = false) as ->; [|destruct (joinable g1); simpl; try case_bool_decide; lia].
        unfold joinable. destruct (gt_detached g =? 0); [done|]. by rewrite andb_false_r.
    + exists d. split; [done|]. split.
      * split_and!; intros; rewrite ?Hdk, ?Hdl; books_calc; rewrite ?Eb; try done.
        destruct (gtab_live g), (gtab_live g1); lia.
      * destruct rqe as [r|]; [by rewrite orb_true_r in *|]. eapply (joins_rank0 _ _ _ t); [done|exact Hb4|..].
        -- intros k. unfold msg_join. rewrite Eb. apply Hdj.
        -- intros t' Ht'. rewrite Hdw, D4, !Hgw by done. rewrite bool_decide_false, !andb_false_r by done. lia.
        -- specialize (Hnone eq_refl). destruct Hb3 as (_ & _ & _ & _ & Hv), Hb4 as (_ & _ & _ & _ & Hv').
           by rewrite Hv', <- Hv.
Qed.

Lemma awaits_inv op x s : awaits c s (mpi_rank c, op, x) →
  ∃ r q, r ∈ rpending (mgrstate s) ∧ req_lookup s r = Some q ∧ reqop q = op ∧ xidseq q = x.
Proof using.
  intros (r & q & Hr & Hq & Hk). exists r, q. unfold req_wait in Hk.
  destruct (fwd_op (reqop q) || (reqop q =? DTOP_START)); [|by apply not_elem_of_nil in Hk].
  apply list_elem_of_singleton in Hk. by simplify_eq.
Qed.

(** The sizes of messages are small. *)
Lemma msg_wf_size : msg_wf (mpi_rank c) m → sizeof_header ≤ u64 (flen m) ∧ u64 (flen m) = sizeof_msg (fr_body (frame m)).
Proof using. intros [-> _]. unfold u64. by destruct (fr_body (frame m)). Qed.

Lemma started_settles hr hm err : mpi_rank c = 0 → books hr (mid m :: hm) (λ _, 0) s0 → msg_wf (mpi_rank c) m →
  fr_body (frame m) = BStarted err → awaits c s0 (0, DTOP_START, hdr_xidseq (frame m)) →
  wp (started_msg c e m err) (λ _ s', settles hr hm s') s0.
Proof using.
  intros H0 Hb Hm Eb Haw. pose proof Hb as (H & _). rewrite <- H0 in Haw.
  apply awaits_inv in Haw as (r & q & Hr & Hq & Hop & Hx). destruct (msg_wf_size Hm) as [Hs1 Hs2].
  destruct (pi_pend _ _ _ _ _ _ (ok_pend _ _ _ _ H) r Hr) as (q' & Hq' & Hp). simplify_eq.
  destruct r as [i|id]; simpl in Hp; rewrite Hop in Hp; [done|].
  destruct Hp as [(_ & ci & Hu & Hci)|[? _]]; [|done].
  unfold started_msg. wp_step. eapply wp_mono; [eapply find_pending_hit; [exact H|done|exact Hs1|lia|exact Hr|exact Hq|exact Hop|exact Hx]|].
  intros o s1 (-> & -> & _). apply (bk_take c s0 _ _ _ _ id q) in Hb; [|done|done].
  unfold upd_mgr. do 2 wp_step.
  apply (bk_mgr _ _ _ _ _ _ (λ g, g <| threads_starting ::= Z.pred |>)) in Hb; [|done].
  set (s1 := (_ <| mgrstate ::= _ |>)) in *. assert (req_lookup s1 (RInternal id) = Some q) as Hq1 by done.
  clearbody s1. wp_step. eapply wp_req_get; [exact Hq1|]. unfold req_creinfo. rewrite Hu. cbv zeta. wp_step.
  eapply wp_mono with (Q := λ _ s', ∃ d, books (RInternal id :: hr) (mid m :: hm) d s' ∧
    (∀ k, d (conv_cur (mpi_rank c) k) = occ k [(0, DTOP_START, hdr_xidseq (frame m))] - occ k [(c_peer ci, DTOP_CREATE, c_xidseq ci)]) ∧
    d load_cur ≤ (if err =? 0 then 0 else 1) ∧ (∀ k, d (join_cur (mpi_rank c) k) ≤ 0) ∧
    (err = 0 → ∀ t, d (wait_cur t) ≤ 0)).
  { destruct (req_carry_start q (mpi_rank c) ci Hop Hu) as [Ec Ew]. destruct (Z.eqb_spec err 0) as [E0|E0].
    - apply wp_modify. eexists. split; [by apply (bk_mgr _ _ _ _ _ _ (λ g, g <| threads_running ::= Z.succ |>))|].
      split_and!; [..|intros k|intros _ t]; intros; cbn [c_pend conv_cur load_cur]; rewrite ?Ec, ?Ew, ?H0, ?Hx; try lia;
        joins_calc; by rewrite Hop.
    - pose proof Hb as (H1 & _). destruct (gtab_in_range c _ _ _ _ H1 Hci) as [g Hg].
      eapply wp_mono; [by eapply bk_gtab_free|]. intros [] s2 Hb2. eexists. split; [exact Hb2|].
      split_and!; [..|done]; intros; cbn [c_pend conv_cur load_cur join_cur c_used c_live];
        rewrite ?gt_value_zero, ?Ec, ?Ew, ?H0, ?Hx by done; [lia| |].
      + unfold b2z. destruct (gtab_live g); lia.
      + unfold req_join. rewrite Hop. simpl. lia. }
  intros [] s2 (d & Hb2 & Hdk & Hdl & Hdj & Hdw). wp_step.
  eapply wp_mono; [by apply (bk_send_or_free c s0 _ hm d s2 (Mqe (mid m) (Frame (c_xidseq ci)
      (BCreated err (if err =? 0 then c_thread ci else stale_thread e))) 20 (c_peer ci)) Hb2)|].
  intros b s3 (_ & _ & Hb3). eapply wp_mono; [by apply bk_release|]. intros [] s4 [Hb4 _].
  eapply settles_quiet; [exact Hb4|..].
  - split_and!; intros; rewrite ?Hdk; books_calc; rewrite ?Eb; simpl; lia || done.
  - intros k. specialize (Hdj k). joins_calc. rewrite Eb. lia.
  - by intros [].
  - intros [Hw|[]] t; [|done]. unfold starts_well in Hw. rewrite Eb in Hw. specialize (Hdw Hw t). joins_calc. lia.
Qed.

(** The end of a reply to a local thread: what can be seen of it. *)
Definition answered_obs (i : Z) (l : dthread_ltab_t) (s : dtst) : Prop :=
  mpisq_draindown (dtq s) = mpisq_draindown (dtq s0) ∧ mpisendq (dtq s) = mpisendq (dtq s0) ∧
  mpirecvq (dtq s) = mpirecvq (dtq s0) ∧ mgrreqq (dtq s) = mgrreqq (dtq s0) ∧
  mpindequeuedsends (dtq s) = mpindequeuedsends (dtq s0) ∧
  rpending (mgrstate s) = tailq_remove (RLtab i) (rpending (mgrstate s0)) ∧
  ireqs s = ireqs s0 ∧ gtab s = gtab s0 ∧
  ∃ q, ltab s = aset (ltab s0) i (l <| lt_req := q |>) ∧ req_ltabidx q = req_ltabidx (lt_req l) ∧
    reqstate q = DTREQ_DONE.

Lemma settles_answered hr hm op i l s : books hr (mid m :: hm) (λ _, 0) s0 → rank_ok c hr hm s →
  answered_obs i l s → RLtab i ∈ rpending (mgrstate s0) → aget (ltab s0) i = Some l →
  reqop (lt_req l) = op → fwd_op op = true → xidseq (lt_req l) = hdr_xidseq (frame m) →
  msg_conv (peer m) (mpi_rank c) (frame m) = [(mpi_rank c, op, hdr_xidseq (frame m))] →
  msg_weight (frame m) = 0 → settles hr hm s.
Proof using.
  intros Hb H (E1 & E2 & E3 & E4 & En & E5 & E6 & E7 & q2 & E8 & E9 & E10) Hi Hl Hop Hf Hx Hk Hw.
  assert (reqop (lt_req l) ≠ DTOP_JOINWAIT) as Hnj by (intros E; rewrite E in Hop; by subst op).
  eapply settles_quiet; [by eapply bk_answer|..].
  2: { intros k. pose proof (msg_join_nonneg k (peer m) (frame m)). simpl. unfold req_join. rewrite (proj2 (Z.eqb_neq _ _) Hnj). lia. }
  2-3: joins_calc; by rewrite (proj2 (Z.eqb_neq _ _) Hnj).
  assert (req_carry (lt_req l) = [] ∧ req_wait (mpi_rank c) (lt_req l) = [(mpi_rank c, op, hdr_xidseq (frame m))]) as [Ec Ew].
  { unfold req_carry, req_wait. rewrite Hop, Hf, Hx. split; [|done].
    destruct (Z.eqb_spec op DTOP_START) as [->|]; [done|]. by destruct (Z.eqb_spec op DTOP_JOINWAIT) as [->|]. }
  split_and!; intros; cbn [c_pend conv_cur load_cur used_cur]; rewrite ?Ec, ?Ew, ?Hk, ?Hw, ?occ_nil; lia.
Qed.

(** A request taken off the pending list is filled in and handed back. *)
Lemma finish_obs i l (upd : dthread_request_t → dthread_request_t) s :
  aget (ltab s0) i = Some l → reqstate (lt_req l) ≠ DTREQ_INTERNAL →
  (∀ q, reqstate (upd q) = reqstate q ∧ req_ltabidx (upd q) = req_ltabidx q) →
  (∃ rb, s = (s0 <| mgrstate ::= (λ g, g <| rpending ::= tailq_remove (RLtab i) |>) |>
          <| ltab := aset (ltab s0) i (l <| lt_req := upd (lt_req l) |>) |> <| retbufs := rb |>)) →
  wp (dtq_req_release (RLtab i) true) (λ _, wp (dtq_recv_release m) (λ _ s', answered_obs i l s')) s.
Proof using.
  intros Hl Hst Hupd (rb & ->). pose proof (aget_Some_range _ _ _ Hl). destruct (Hupd (lt_req l)) as [Es Ei].
  unfold dtq_req_release, dtq_recv_release, upd_dtq. do 3 wp_step.
  eapply wp_get_some; [simpl; by rewrite aget_aset_eq|]. simpl. rewrite Es, (proj2 (Z.eqb_neq _ _) Hst). wp_steps.
  simpl. rewrite aget_aset_eq by done. split_and!; try done. eexists. simpl. by rewrite aset_aset.
Qed.

Lemma reply_settles hr hm op upd : books hr (mid m :: hm) (λ _, 0) s0 → msg_wf (mpi_rank c) m → fwd_op op = true →
  awaits c s0 (mpi_rank c, op, hdr_xidseq (frame m)) →
  msg_conv (peer m) (mpi_rank c) (frame m) = [(mpi_rank c, op, hdr_xidseq (frame m))] →
  msg_weight (frame m) = 0 →
  (∀ q, reqstate (upd q) = reqstate q ∧ req_ltabidx (upd q) = req_ltabidx q) →
  wp (reply_req m op upd) (λ _ s', settles hr hm s') s0.
Proof using.
  intros Hb Hm Hop Haw Hk Hw Hupd. pose proof Hb as (H & _). destruct (msg_wf_size Hm) as [Hs1 Hs2].
  apply awaits_inv in Haw as (r & q & Hr & Hq & Eop & Hx).
  destruct (pi_pend _ _ _ _ _ _ (ok_pend _ _ _ _ H) r Hr) as (q' & Hq' & Hp). simplify_eq.
  destruct r as [i|id]; [|exfalso; destruct Hp as [[E _]|[E _]]; by rewrite E in Hop]. simpl in Hq.
  destruct (aget (ltab s0) i) as [l|] eqn:Hl; [|done]. simplify_eq/=. pose proof (aget_Some_range _ _ _ Hl).
  assert (reqop (lt_req l) ≠ DTOP_JOINWAIT) as Hnj by (intros E; by rewrite E in Hop).
  assert (reqstate (lt_req l) ≠ DTREQ_INTERNAL) as Hst.
  { apply (pi_lreq _ _ _ _ _ _ (ok_pend _ _ _ _ H) i). simpl. by rewrite Hl. }
  eapply wp_mono; [eapply (wp_and _ _ (λ _ s', answered_obs i l s')); [by apply wp_reply_req; [|intros; apply Hupd]|]|].
  2: { intros [] s' [H' Ho]. by eapply settles_answered; [exact Hb|exact H'|exact Ho|..]. }
  unfold reply_req. wp_step.
  eapply wp_mono; [eapply find_pending_hit; [exact H|exact Hnj|exact Hs1|lia|exact Hr|simpl; by rewrite Hl|done|exact Hx]|].
  intros o s1 (-> & -> & _). do 2 wp_step. eapply wp_req_get; [simpl; by rewrite Hl|]. unfold req_put. do 2 wp_step.
  apply (finish_obs i l upd); try done.
  exists (retbufs s0). simpl. rewrite Hl. done.
Qed.

Lemma joined_settles hr hm err ret : books hr (mid m :: hm) (λ _, 0) s0 → msg_wf (mpi_rank c) m →
  fr_body (frame m) = BJoined err ret → awaits c s0 (mpi_rank c, DTOP_JOIN, hdr_xidseq (frame m)) →
  wp (joined_msg e m err ret) (λ _ s', settles hr hm s') s0.
Proof using.
  intros Hb Hm Eb Haw. pose proof Hb as (H & _). destruct (msg_wf_size Hm) as [Hs1 Hs2].
  apply awaits_inv in Haw as (r & q & Hr & Hq & Eop & Hx).
  destruct (pi_pend _ _ _ _ _ _ (ok_pend _ _ _ _ H) r Hr) as (q' & Hq' & Hp). simplify_eq.
  destruct r as [i|id]; [|exfalso; destruct Hp as [[E _]|[E _]]; by rewrite E in Eop]. simpl in Hq.
  destruct (aget (ltab s0) i) as [l|] eqn:Hl; [|done]. simplify_eq/=. pose proof (aget_Some_range _ _ _ Hl).
  assert (reqstate (lt_req l) ≠ DTREQ_INTERNAL) as Hst.
  { apply (pi_lreq _ _ _ _ _ _ (ok_pend _ _ _ _ H) i). simpl. by rewrite Hl. }
  eapply wp_mono; [eapply (wp_and _ _ (λ _ s', answered_obs i l s')); [by apply wp_joined_msg|]|].
  2: { intros [] s' [H' Ho]. eapply settles_answered; [exact Hb|exact H'|exact Ho|done|done|exact Eop|done|done| |];
       unfold msg_conv, msg_weight; by rewrite Eb. }
  unfold joined_msg. wp_step.
  eapply wp_mono; [eapply (find_pending_hit c _ _ _ _ DTOP_JOIN); [exact H|done|exact Hs1|lia|exact Hr|simpl; by rewrite Hl|done|exact Hx]|].
  intros o s1 (-> & -> & _). do 2 wp_step. eapply wp_req_get; [simpl; by rewrite Hl|]. unfold req_put. do 3 wp_step.
  wp_step; [apply wp_modify|]; apply (finish_obs i l (λ q, q <| reqerror := err |>)); try done; simpl; rewrite Hl; by eexists.
Qed.

(** Any message of the running job. *)
Lemma process_mqe_settles hr hm : books hr (mid m :: hm) (λ _, 0) s0 → msg_wf (mpi_rank c) m →
  answers_awaited c s0 m →
  Z.of_nat (length (rpending (mgrstate s0))) < seq_period c →
  (hdr_op (frame m) = DTOP_START → ltab_alloc_cnt (mgrstate s0) < nmaxthread c) →
  wp (process_mqe c e m) (λ _ s', settles hr hm s') s0.
Proof using Hc Hmal.
  intros Hb Hm Haw Hn Hroom. destruct (msg_wf_size Hm) as [Hs1 Hs2]. destruct Hm as (Hl & Hwf & Hdst).
  assert (msg_wf (mpi_rank c) m) as Hm by done.
  unfold process_mqe. rewrite (proj2 (Z.ltb_ge _ _)) by lia. rewrite Hs2, Z.ltb_irrefl. cbv zeta.
  assert (negb (mpi_rank c =? 0) && rank0_op (hdr_op (frame m)) = false) as Hr0.
  { destruct (rank0_op (hdr_op (frame m))); [|by rewrite andb_false_r]. by rewrite (Hdst eq_refl). }
  rewrite Hr0. clear Hr0. unfold answers_awaited, is_reply, msg_conv, frame_wf, hdr_op in *.
  destruct (fr_body (frame m)) eqn:Eb; simpl in *; unfold whenM; simpl;
    try (specialize (Haw eq_refl _ (proj2 (list_elem_of_singleton _ _) eq_refl))).
  - wp_step. eapply wp_mono; [by apply create_settles; [apply Hdst|..]|]. intros [] s1 H1. by apply settles_release.
  - eapply reply_settles; try done; unfold msg_conv, msg_weight; rewrite ?Eb; try done. intros q. simpl. by case_match.
  - wp_step. eapply wp_mono; [by apply start_settles; [..|apply Hroom]|]. intros [] s1 H1. by apply settles_release.
  - by apply started_settles; [apply Hdst|..].
  - by apply detach_settles; [apply Hdst|..].
  - eapply reply_settles; try done; unfold msg_conv, msg_weight; by rewrite ?Eb.
  - by apply cancel_settles.
  - eapply reply_settles; try done; unfold msg_conv, msg_weight; by rewrite ?Eb.
  - by apply join_settles; [apply Hdst|..].
  - by apply joined_settles.
  - assert (settles hr (mid m :: hm) s0) as Hdrop.
    { eapply settles_quiet; [exact Hb|split_and!; intros; unfold msg_conv, msg_weight; rewrite ?Eb, ?occ_nil; lia| |done|done].
      intros k. apply msg_join_nonneg. }
    unfold terminated_msg. rewrite (Hdst eq_refl). simpl. wp_step.
    eapply wp_mono with (Q := λ _ s', settles hr (mid m :: hm) s'); [|by intros [] s1 H1; apply settles_release].
    wp_step; [by wp_step|]. wp_step; [by wp_step|]. breflect. pose proof Hb as (H & _).
    wp_step. eapply wp_gtab_get; [exact H|lia|]. intros g Hg. do 2 (wp_step; [by wp_step|]).
    apply terminated_settles; [by apply Hdst|done|done|done|]. intros g' Hg'. simplify_eq. by breflect.
  - done.
  - done.
Qed.
End Settle.
