(* ===== verification/ThreadOps.v ===== *)
(** * Thread operations of the application

    [libdthread/dt_threadops.c]: the calls an application thread makes.  A call
    that waits for the manager is modelled in two parts, up to the wait and
    after it: [CWait i k] says that the thread sleeps on the request of
    [ltab[i]] and goes on with [k] once it is no longer busy. *)

From S2P Require Import Prelude Types Router Queuing ThreadTab Manager ManagerInv ManagerSafe.

Definition ENOENT : Z := 2.
Definition EDEADLK : Z := 35.
Definition EOPNOTSUPP : Z := 95.
Definition PTHREAD_EXPLICIT_SCHED : Z := 1.
Definition PTHREAD_CANCELED : Z := -1.

(** A call that has returned, or one that sleeps. *)
Inductive call (A : Type) :=
  | CRet (a : A)
  | CWait (i : Z) (k : M dtst A).
Arguments CRet {A} a.
Arguments CWait {A} i k.

(** The rest of a call, after its value is known. *)
Definition call_map {A B} (x : call A) (k : A → M dtst B) : M dtst (call B) :=
  match x with
  | CRet a => b <- k a;; retM (CRet b)
  | CWait i k' => retM (CWait i (a <- k';; k a))
  end.

Section Ops.
Context (c : config) (e : env).

(** [self]: the table entry [pthread_getspecific] gives the calling thread;
    [setcancel_rv]: what [pthread_setcancelstate] returns; [attr_default]: what
    [pthread_attr_init] stores; [sched]: what [pthread_getschedparam] returns
    and stores. *)
Context (self : option Z) (setcancel_rv : Z) (attr_default : pthread_attr_t) (sched : Z * Z * Z).

(** The loop of [get_dispatch_idx] from index [i]. *)
Fixpoint dispatch_from (function : Z) (l : list dthread_dispatch_t) (i : Z) : Z :=
  match l with
  | [] => 0
  | d :: l => if function =? dt_start d then i else dispatch_from function l (i + 1)
  end.

Definition get_dispatch_idx (function : Z) : Z := dispatch_from function (drop 1 (dsps c)) 1.

(** [get_my_req] with an mqe: the thread's entry and the message. *)
Definition get_my_req : M dtst (option (Z * dtq_mpiqentry)) :=
  match self with
  | None => retM None
  | Some i =>
      lt <- ltab_get i;;
      if negb (reqstate (lt_req lt) =? DTREQ_IDLE) then retM None else
      o <- dtq_mqe_alloc e;;
      match o with
      | None => retM None
      | Some m => retM (Some (i, m))
      end
  end.

(** [dthread_self] ([dt_ops.c]): an invalid handle on errors. *)
Definition dthread_self : M dtst dthread_t :=
  let rv := Dthread (u32 (nmaxthread c + 1)) 0 in
  match self with
  | None => retM rv
  | Some i =>
      lt <- ltab_get i;;
      if negb (lt_pth_state lt =? LT_RUNNING) then retM rv
      else retM (Dthread (lt_gtab_idx lt) (lt_seq lt))
  end.

(** The request is filled in and queued; [un] is the union member it sets. *)
Definition submit (i : Z) (m : dtq_mpiqentry) (un : option req_u) : M dtst unit :=
  lt <- ltab_get i;;
  let q := lt_req lt in
  ltab_put i (lt <| lt_req := q <| reqstate := DTREQ_BUSY |> <| reqpeer := peer m |>
    <| reqop := hdr_op (frame m) |> <| req_mqe := Some m |> <| reqerror := 0 |>
    <| req_un := match un with Some u => u | None => req_un q end |> |>) ;;;
  dtq_req_enqueue (RLtab i).

(** After the wait: the request as the manager left it; it is idle again. *)
Definition collect (i : Z) : M dtst dthread_request_t :=
  lt <- ltab_get i;;
  ltab_put i (lt <| lt_req := (lt_req lt) <| reqstate := DTREQ_IDLE |> |>) ;;;
  retM (lt_req lt).

(** A message with the header of the entry it is stored in. *)
Definition app_msg (m : dtq_mpiqentry) (to : Z) (b : dtbody) : dtq_mpiqentry :=
  fill_mqe m to (hdr_xidseq (frame m)) b.

(** The attributes of a CREATE. *)
Definition create_msg_attrs (attr : option pthread_attr_t) : pthread_attr_t :=
  let a := match attr with Some a => a | None => attr_default end in
  if negb (a_inheritsched a =? PTHREAD_EXPLICIT_SCHED) then
    let '(rv, policy, param) := sched in
    let a := if rv =? 0 then a <| a_schedpolicy := policy |> <| a_schedparam := param |> else a in
    a <| a_inheritsched := PTHREAD_EXPLICIT_SCHED |>
  else a.

Definition zero_argret : dthread_argret_t := Argret 0 0 (UInline (replicate 64 0)).

(** [dthread_create_common]: the error code, and the new thread. *)
Definition dthread_create_common (attr : option pthread_attr_t) (didx : Z)
    (arg : option dthread_argret_t) : M dtst (call (Z * option dthread_t)) :=
  o <- get_my_req;;
  match o with
  | None => retM (CRet (ENOMEM, None))
  | Some (i, m) =>
      let a := match arg with Some a => a
               | None => zero_argret <| dt_argret_type := DTHREAD_NODATA |> end in
      submit i (app_msg m 0 (BCreate (create_msg_attrs attr) didx a)) None ;;;
      retM (CWait i (
        q <- collect i;;
        if reqerror q =? 0 then
          retM (0, Some (match req_un q with RUNewdthread t => t | _ => stale_thread e end))
        else retM (reqerror q, None)))
  end.

(** The dispatch entry [i], for [i] a valid index. *)
Definition dispatch (i : Z) : M dtst dthread_dispatch_t :=
  get_some OutOfBounds (aget (dsps c) i).

Definition dthread_ncreate (dthread_null : bool) (attr : option pthread_attr_t) (dtstart : Z)
    (arg : option dthread_argret_t) : M dtst (call (Z * option dthread_t)) :=
  if dthread_null then retM (CRet (EINVAL, None)) else
  let didx := get_dispatch_idx dtstart in
  if didx =? 0 then retM (CRet (ENOENT, None)) else
  d <- dispatch didx;;
  if negb (dt_argproc d =? 0) || negb (dt_retproc d =? 0) then retM (CRet (EOPNOTSUPP, None)) else
  if negb (setcancel_rv =? 0) then retM (CRet (setcancel_rv, None)) else
  dthread_create_common attr didx arg.

Definition dthread_create (dthread_null : bool) (attr : option pthread_attr_t) (dtstartpth : Z)
    (arg : Z) : M dtst (call (Z * option dthread_t)) :=
  if dthread_null then retM (CRet (EINVAL, None)) else
  let didx := get_dispatch_idx dtstartpth in
  if didx =? 0 then retM (CRet (ENOENT, None)) else
  d <- dispatch didx;;
  if (dt_argproc d =? 0) || (dt_retproc d =? 0) then retM (CRet (EOPNOTSUPP, None)) else
  if negb (setcancel_rv =? 0) then retM (CRet (setcancel_rv, None)) else
  x <- proc_call e (dt_argproc d) DTHREAD_PROC_ENCODE (stale_argret e) arg;;
  let '(rv, procarg, _) := x in
  if negb (rv =? 0) then retM (CRet (rv, None)) else
  y <- dthread_create_common attr didx (Some procarg);;
  call_map y (λ r,
    if negb (fst r =? 0) then
      proc_call e (dt_argproc d) DTHREAD_PROC_FREE procarg 0 ;;; retM r
    else retM r).

(** The request of [dthread_detach] and [dthread_cancel]. *)
Definition simple_call (to : Z) (b : dtbody) : M dtst (call Z) :=
  o <- get_my_req;;
  match o with
  | None => retM (CRet ENOMEM)
  | Some (i, m) =>
      submit i (app_msg m to b) None ;;;
      retM (CWait i (q <- collect i;; retM (reqerror q)))
  end.

Definition dthread_detach (t : dthread_t) : M dtst (call Z) :=
  o <- dthread_dt2gtab c t;;
  match o with
  | None => retM (CRet ESRCH)
  | Some _ =>
      if negb (setcancel_rv =? 0) then retM (CRet setcancel_rv) else
      simple_call 0 (BDetach t)
  end.

Definition dthread_cancel (t : dthread_t) : M dtst (call Z) :=
  o <- dthread_dt2gtab c t;;
  match o with
  | None => retM (CRet ESRCH)
  | Some _ =>
      gt <- gtab_get (dt_index t);;
      if negb (setcancel_rv =? 0) then retM (CRet setcancel_rv) else
      simple_call (gt_rank gt) (BCancel t)
  end.

(** How [dthread_exit_common] ends: the thread unwinds (and its cleanup function
    runs), or the whole process exits. *)
Inductive exit_kind := ThreadExit | ProcessExit.

Definition dthread_exit_common (native : bool) (ret : option dthread_argret_t) (v : Z) :
    M dtst exit_kind :=
  match self with
  | None => retM ProcessExit
  | Some i =>
      lt <- ltab_get i;;
      if nmaxthread c <=? lt_gtab_idx lt then retM ProcessExit else
      gt <- gtab_get (lt_gtab_idx lt);;
      if negb (lt_seq lt =? gt_seq gt) then retM ProcessExit else
      let gt := gt <| gt_ret ::= (λ a, a <| dt_argret_type := DTHREAD_NODATA |>) |> in
      (if ndsps c <=? gt_disp_idx gt then gtab_put (lt_gtab_idx lt) gt else
       d <- dispatch (gt_disp_idx gt);;
       let native_didx := (dt_argproc d =? 0) && (dt_retproc d =? 0) in
       if native then
         gtab_put (lt_gtab_idx lt)
           (match native_didx, ret with true, Some r => gt <| gt_ret := r |> | _, _ => gt end)
       else if native_didx then gtab_put (lt_gtab_idx lt) gt
       else
         x <- proc_call e (dt_retproc d) DTHREAD_PROC_ENCODE (gt_ret gt) v;;
         let '(prv, r, v) := x in
         if prv =? 0 then gtab_put (lt_gtab_idx lt) (gt <| gt_ret := r |>)
         else
           proc_call e (dt_retproc d) DTHREAD_PROC_FREE (stale_argret e) v ;;;
           gtab_put (lt_gtab_idx lt)
             (gt <| gt_ret := r <| dt_argret_type := DTHREAD_CANCELED |> |>)) ;;;
      lt <- ltab_get i;;
      ltab_put i (lt <| lt_pth_state := LT_EXITED |>) ;;;
      retM ThreadExit
  end.

Definition dthread_nexit (ret : option dthread_argret_t) : M dtst exit_kind :=
  dthread_exit_common true ret 0.
Definition dthread_exit (ret : Z) : M dtst exit_kind := dthread_exit_common false None ret.

(** The contents of the buffer at an address. *)
Definition retbuf (s : dtst) (p : Z) : dthread_argret_t :=
  match retbufs s !! p with Some a => a | None => stale_argret e end.

(** [ret] is the address of the caller's buffer, 0 for [NULL]. *)
Definition dthread_join_common (t : dthread_t) (ret : Z) : M dtst (call Z) :=
  o <- get_my_req;;
  match o with
  | None => retM (CRet ENOMEM)
  | Some (i, m) =>
      submit i (app_msg m 0 (BJoin t)) (Some (RURetval ret)) ;;;
      retM (CWait i (
        lt <- ltab_get i;;
        (if reqerror (lt_req lt) =? 0 then retM tt
         else if ret =? 0 then crash NullDeref
         else modify (λ s, s <| retbufs ::=
                <[ret := (retbuf s ret) <| dt_argret_type := DTHREAD_NODATA |>]> |>)) ;;;
        q <- collect i;;
        retM (reqerror q)))
  end.

(** The checks [dthread_njoin] and [dthread_join] share: an error, or the
    dispatch entry. *)
Definition join_checks (t : dthread_t) : M dtst (Z + dthread_dispatch_t) :=
  o <- dthread_dt2gtab c t;;
  match o with
  | None => retM (inl ESRCH)
  | Some _ =>
      itself <- match self with
        | Some i => lt <- ltab_get i;; retM (lt_gtab_idx lt =? dt_index t)
        | None => retM false
        end;;
      if (itself : bool) then retM (inl EDEADLK) else
      gt <- gtab_get (dt_index t);;
      if ndsps c <=? gt_disp_idx gt then retM (inl EIO) else
      d <- dispatch (gt_disp_idx gt);;
      retM (inr d)
  end.

Definition dthread_njoin (t : dthread_t) (ret : Z) : M dtst (call Z) :=
  x <- join_checks t;;
  match x with
  | inl err => retM (CRet err)
  | inr d =>
      if negb (dt_argproc d =? 0) || negb (dt_retproc d =? 0) then retM (CRet EOPNOTSUPP) else
      if negb (setcancel_rv =? 0) then retM (CRet setcancel_rv) else
      dthread_join_common t ret
  end.

(** [procret] is the address of the local buffer, [retptr] the caller's
    pointer, 0 for [NULL]; with the error code, what is stored there. *)
Definition dthread_join (t : dthread_t) (retptr procret : Z) : M dtst (call (Z * option Z)) :=
  x <- join_checks t;;
  match x with
  | inl err => retM (CRet (err, None))
  | inr d =>
      if (dt_argproc d =? 0) || (dt_retproc d =? 0) then retM (CRet (EOPNOTSUPP, None)) else
      if negb (setcancel_rv =? 0) then retM (CRet (setcancel_rv, None)) else
      y <- dthread_join_common t procret;;
      call_map y (λ rv,
        if negb (rv =? 0) then retM (rv, None) else
        a <- gets (λ s, retbuf s procret);;
        z <- proc_call e (dt_retproc d) DTHREAD_PROC_DECODE a retptr;;
        let '(rv, a', v) := z in
        stored <- (if rv =? 0 then retM (if retptr =? 0 then None else Some v)
                   else if retptr =? 0 then crash NullDeref
                   else retM (Some PTHREAD_CANCELED));;
        proc_call e (dt_retproc d) DTHREAD_PROC_FREE a' 0 ;;;
        retM (rv, stored))
  end.

End Ops.

(** ** Lemmas *)

(** A thread that is in no call: its request is idle and not pending. *)
Definition caller_idle (s : dtst) (i : Z) : Prop :=
  ∃ l, aget (ltab s) i = Some l ∧ req_ltabidx (lt_req l) = i ∧
    reqstate (lt_req l) = DTREQ_IDLE ∧ (RLtab i ∉ rpending (mgrstate s)).

(** From [s] to [s'] the thread of [ltab[i]] queued one request and nothing
    else: the request is busy and carries the message [b] for rank [to], the
    manager can process it, no message was sent, and every other entry of the
    tables, the pending list and the callers' buffers are as before. *)
Record request_queued (c : config) (i : Z) (hm : list nat) (to : Z) (b : dtbody) (s s' : dtst) : Prop := {
  rq_queue : mgrreqq (dtq s') = mgrreqq (dtq s) ++ [RLtab i];
  rq_sendq : mpisendq (dtq s') = mpisendq (dtq s);
  rq_recvq : mpirecvq (dtq s') = mpirecvq (dtq s);
  rq_rest : s' = s <| ltab := ltab s' |> <| dtq := dtq s' |> <| nmallocs := nmallocs s' |>;
  rq_entry : ∃ l m q, aget (ltab s) i = Some l ∧ ltab s' = aset (ltab s) i (l <| lt_req := q |>) ∧
    reqstate q = DTREQ_BUSY ∧ reqerror q = 0 ∧ reqpeer q = to ∧ reqop q = hdr_op (frame m) ∧
    req_mqe q = Some m ∧ peer m = to ∧ fr_body (frame m) = b ∧
    rank_ok c [] (mid m :: hm) s' ∧ req_ready c s' i (mid m :: hm) hm }.

(** A call that sleeps has handed the manager a request that asks for what the
    call is about; one that returns at once failed, and all that changed is the
    number of allocations tried. *)
Definition call_ready {A} (err : A → Z) (asks : Z → dtbody → Prop) (c : config) (i : Z)
    (hm : list nat) (s : dtst) (r : call A) (s' : dtst) : Prop :=
  match r with
  | CRet a => err a ≠ 0 ∧ rank_ok c [] hm s' ∧ s' = s <| nmallocs := nmallocs s' |>
  | CWait j _ => j = i ∧ ∃ to b, asks to b ∧ request_queued c i hm to b s s'
  end.

Section Lemmas.
Context (c : config) (e : env) (self : option Z) (setcancel_rv : Z) (attr_default : pthread_attr_t)
  (sched : Z * Z * Z).

Lemma nmallocs_same (s : dtst) : s = s <| nmallocs := nmallocs s |>.
Proof. by destruct s. Qed.

(** An allocation of a message leaves the queues alone, and one that fails
    everything. *)
Lemma wp_mqe_alloc_frame s : wp (dtq_mqe_alloc e) (λ o s',
  s' = s <| dtq := dtq s' |> <| nmallocs := nmallocs s' |> ∧
  mgrreqq (dtq s') = mgrreqq (dtq s) ∧ mpisendq (dtq s') = mpisendq (dtq s) ∧
  mpirecvq (dtq s') = mpirecvq (dtq s) ∧
  (o = None → s' = s <| nmallocs := nmallocs s' |>)) s.
Proof.
  unfold dtq_mqe_alloc, malloc, upd_dtq. destruct s. wp_steps. simpl. destruct (mqefree _); by wp_steps.
Qed.

Lemma dtq_wf_req_enqueue q r : dtq_wf q →
  dtq_wf (let was_empty := mgr_idle q in
    let len := mgrrqlen q + 1 in
    let q := q <| mgrreqq := mgrreqq q ++ [r] |> <| mgrrqlen := len |>
               <| mgrmaxrqlen := if mgrmaxrqlen q <? len then len else mgrmaxrqlen q |> in
    if was_empty then mgr_signal q else q).
Proof.
  intros []. cbv zeta. unfold mgr_signal.
  destruct (mgr_idle q) eqn:E; split; simpl; rewrite ?length_app; simpl; try case_match; breflect;
    try done; try lia; by intros Hw%wf_wait.
Qed.

(** Filling in and queueing a request. *)
Lemma wp_submit hm s i m un : rank_ok c [] (mid m :: hm) s → caller_idle s i →
  fwd_op (hdr_op (frame m)) = true →
  wp (submit i m un) (λ _ s', request_queued c i hm (peer m) (fr_body (frame m)) s s') s.
Proof.
  intros H (l & Hl & Hi & Hst & Hni) Hop. unfold submit. wp_step.
  eapply wp_eq; [by apply ltab_get_ok|]. cbv zeta. unfold ltab_put, dtq_req_enqueue, upd_dtq. wp_steps.
  set (q' := (lt_req l) <| reqstate := DTREQ_BUSY |> <| reqpeer := peer m |>
    <| reqop := hdr_op (frame m) |> <| req_mqe := Some m |> <| reqerror := 0 |>
    <| req_un := match un with Some u => u | None => req_un (lt_req l) end |>).
  assert (rank_ok c [] (mid m :: hm) (s <| ltab := aset (ltab s) i (l <| lt_req := q' |>) |>)) as H1.
  { pose proof (rank_ok_req_put c [] (mid m :: hm) s (RLtab i) (lt_req l) q' H Hni) as Hp.
    simpl in Hp. rewrite Hl in Hp. apply Hp; [done|]. by rewrite Hst. }
  pose proof (aget_Some_range _ _ _ Hl).
  split; [simpl; unfold mgr_signal; by destruct (mgr_idle (dtq s))..|by destruct s|].
  exists l, m, q'. split_and!; try done.
  - destruct H1 as [[] Hs Hq Ho Hp]. split; try done.
    + by apply dtq_wf_req_enqueue.
    + destruct Ho as (? & ? & ?). unfold owned, mids in *. simpl in *. by destruct (mgr_idle (dtq s)).
    + simpl in *. by destruct (mgr_idle (dtq s)).
  - exists (l <| lt_req := q' |>). simpl. rewrite aget_aset_eq by done. split_and!; try done.
    + simpl. intros E. by rewrite E in Hop.
    + rewrite Hop. by exists m.
Qed.

Lemma wp_get_my_req hm s i : rank_ok c [] hm s → self = Some i → caller_idle s i →
  wp (get_my_req e self) (λ o s',
    s' = s <| dtq := dtq s' |> <| nmallocs := nmallocs s' |> ∧
    mgrreqq (dtq s') = mgrreqq (dtq s) ∧ mpisendq (dtq s') = mpisendq (dtq s) ∧
    mpirecvq (dtq s') = mpirecvq (dtq s) ∧
    match o with
    | None => rank_ok c [] hm s' ∧ s' = s <| nmallocs := nmallocs s' |>
    | Some (j, m) => j = i ∧ rank_ok c [] (mid m :: hm) s' ∧ caller_idle s' i
    end) s.
Proof.
  intros H -> (l & Hl & Hi & Hst & Hni). unfold get_my_req. wp_step.
  eapply wp_eq; [by apply ltab_get_ok|]. rewrite Hst. simpl. wp_step.
  eapply wp_mono; [apply wp_and; [by apply wp_mqe_alloc|apply wp_mqe_alloc_frame]|].
  intros o s1 [[_ H1] (E & Eq & Es & Er & En)]. destruct o as [m|]; wp_step.
  - split_and!; try done. rewrite E. by exists l.
  - split_and!; try done. by apply En.
Qed.

(** A call that gets hold of its request queues it. *)
Lemma wp_request {A} (err : A → Z) (asks : Z → dtbody → Prop) (a : A) (k : Z → M dtst A) hm s i to b un :
  rank_ok c [] hm s → self = Some i → caller_idle s i → fwd_op (hdr_op (Frame 0 b)) = true →
  err a ≠ 0 → asks to b →
  wp (o <- get_my_req e self;;
      match o with
      | None => retM (CRet a)
      | Some (i, m) => submit i (app_msg m to b) un ;;; retM (CWait i (k i))
      end) (call_ready err asks c i hm s) s.
Proof.
  intros H Hs Hi Hb Ha Hk. wp_step. eapply wp_mono; [by apply wp_get_my_req|].
  intros [[j m]|] s1 (E & Eq & Es & Er & H1).
  2: { wp_step. destruct H1. by split_and!. }
  destruct H1 as (-> & H1 & Hi1). wp_step.
  eapply wp_mono; [by apply (wp_submit hm s1 i (app_msg m to b))|].
  intros [] s2 [Q1 Q2 Q3 Q4 Q5]. wp_step. split; [done|]. exists to, b. split; [done|].
  destruct Q5 as (l & m' & q & Hl & Q5). split; [congruence..| |].
  - rewrite Q4, E. by destruct s, s1, s2.
  - rewrite E in Hl, Q5. by exists l, m', q.
Qed.

Lemma wp_simple_call (asks : Z → dtbody → Prop) hm s i to b :
  rank_ok c [] hm s → self = Some i → caller_idle s i →
  fwd_op (hdr_op (Frame 0 b)) = true → asks to b →
  wp (simple_call e self to b) (call_ready id asks c i hm s) s.
Proof. intros. by apply (wp_request id asks ENOMEM (λ i, q <- collect i;; retM (reqerror q))). Qed.

Lemma wp_join_common hm s i t ret : rank_ok c [] hm s → self = Some i → caller_idle s i →
  wp (dthread_join_common e self t ret) (call_ready id (λ to b, to = 0 ∧ b = BJoin t) c i hm s) s.
Proof. intros. by eapply (wp_request id _ ENOMEM (λ i, _)). Qed.

(** What a CREATE asks for; without an argument the thread gets [NODATA]. *)
Definition create_body (attr : option pthread_attr_t) (d : Z) (arg : option dthread_argret_t) : dtbody :=
  BCreate (create_msg_attrs attr_default sched attr) d
    match arg with Some a => a | None => zero_argret <| dt_argret_type := DTHREAD_NODATA |> end.

Lemma wp_create_common (asks : Z → dtbody → Prop) hm s i attr d arg :
  rank_ok c [] hm s → self = Some i → caller_idle s i → asks 0 (create_body attr d arg) →
  wp (dthread_create_common e self attr_default sched attr d arg) (call_ready fst asks c i hm s) s.
Proof. intros. by eapply (wp_request fst _ (ENOMEM, None) (λ i, _)). Qed.

(** The dispatch index is the first match. *)
Lemma dispatch_from_spec f l i : 0 < i →
  (dispatch_from f l i = 0 ∧ ∀ d, d ∈ l → dt_start d ≠ f) ∨
  (∃ k d, dispatch_from f l i = i + Z.of_nat k ∧ l !! k = Some d ∧ dt_start d = f ∧
     ∀ k' d', (k' < k)%nat → l !! k' = Some d' → dt_start d' ≠ f).
Proof.
  revert i. induction l as [|d l IH]; intros i Hi; simpl.
  { left. split; [done|]. intros d []%not_elem_of_nil. }
  destruct (Z.eqb_spec f (dt_start d)) as [->|Hne].
  { right. exists 0%nat, d. split; [lia|]. split_and!; try done. lia. }
  destruct (IH (i + 1)) as [[E Hn]|(k & d' & E & Hk & Hd & Hf)]; [lia| |].
  - left. split; [done|]. intros d' [->|?]%elem_of_cons; [congruence|auto].
  - right. exists (S k), d'. split; [lia|]. split_and!; try done.
    intros [|k'] d2 Hk' Hl; simplify_eq/=; [congruence|]. eapply Hf; [|done]. lia.
Qed.

Lemma dispatch_idx_ok f : get_dispatch_idx c f ≠ 0 →
  ∃ d, aget (dsps c) (get_dispatch_idx c f) = Some d ∧ dt_start d = f.
Proof.
  unfold get_dispatch_idx. destruct (dispatch_from_spec f (drop 1 (dsps c)) 1)
    as [[E _]|(k & d & E & Hk & Hd & _)]; [lia|done|]. intros _. exists d. split; [|done].
  rewrite lookup_drop in Hk. rewrite E. replace (1 + Z.of_nat k) with (Z.of_nat (1 + k)) by lia.
  by rewrite aget_nat.
Qed.

(** The continuation of a call that may end at once. *)
Lemma wp_call_map {A B} (err : A → Z) (err' : B → Z) asks i hm s s1 (x : call A) (k : A → M dtst B) :
  call_ready err asks c i hm s x s1 →
  (∀ a, err a ≠ 0 → wp (k a) (λ b s', err' b ≠ 0 ∧ s' = s1) s1) →
  wp (call_map x k) (call_ready err' asks c i hm s) s1.
Proof.
  destruct x as [a|j k']; simpl.
  - intros (Ha & H & Hq) Hk. wp_step. eapply wp_mono; [by apply Hk|]. intros b s2 [Hb ->]. by wp_step.
  - intros ? _. by wp_step.
Qed.
End Lemmas.

Section Calls.
Context (c : config) (e : env) (i : Z) (attr_default : pthread_attr_t) (sched : Z * Z * Z).
Context (hm : list nat) (s : dtst) (setcancel_rv : Z).
Context (H : rank_ok c [] hm s) (Hi : caller_idle s i).

Lemma ready_ret {A} (err : A → Z) asks a : err a ≠ 0 → wp (retM (CRet a)) (call_ready err asks c i hm s) s.
Proof using H. intros. wp_step. split_and!; [done|done|apply nmallocs_same]. Qed.

(** What each call asks for: the rank its message goes to and what it says. *)
Definition detach_asks (t : dthread_t) (to : Z) (b : dtbody) : Prop := to = 0 ∧ b = BDetach t.
Definition join_asks (t : dthread_t) (to : Z) (b : dtbody) : Prop := to = 0 ∧ b = BJoin t.
Definition cancel_asks (t : dthread_t) (to : Z) (b : dtbody) : Prop :=
  b = BCancel t ∧ ∃ g, aget (gtab s) (dt_index t) = Some g ∧ to = gt_rank g.
Definition ncreate_asks (attr : option pthread_attr_t) (f : Z) (arg : option dthread_argret_t)
    (to : Z) (b : dtbody) : Prop :=
  to = 0 ∧ b = create_body attr_default sched attr (get_dispatch_idx c f) arg.
Definition create_asks (attr : option pthread_attr_t) (f v : Z) (to : Z) (b : dtbody) : Prop :=
  to = 0 ∧ ∃ d a v', aget (dsps c) (get_dispatch_idx c f) = Some d ∧ dt_start d = f ∧
    call_proc e (dt_argproc d) DTHREAD_PROC_ENCODE (stale_argret e) v = (0, a, v') ∧
    b = create_body attr_default sched attr (get_dispatch_idx c f) (Some a).

Lemma detach_ready t :
  wp (dthread_detach c e (Some i) setcancel_rv t) (call_ready id (detach_asks t) c i hm s) s.
Proof using H Hi.
  unfold dthread_detach. wp_step. eapply wp_mono; [by eapply wp_dt2gtab|].
  intros [j|] s1 [-> _]; [|by apply ready_ret]. wp_step; breflect; [by apply ready_ret|].
  by apply wp_simple_call.
Qed.

Lemma cancel_ready t :
  wp (dthread_cancel c e (Some i) setcancel_rv t) (call_ready id (cancel_asks t) c i hm s) s.
Proof using H Hi.
  unfold dthread_cancel. wp_step. eapply wp_mono; [by eapply wp_dt2gtab|].
  intros [j|] s1 [-> Hj]; [|by apply ready_ret]. destruct Hj as (-> & Hr & _). wp_step.
  eapply wp_gtab_get; [exact H|done|]. intros g Hg. wp_step; breflect; [by apply ready_ret|].
  apply wp_simple_call; try done. split; [done|by exists g].
Qed.

Context (Hu : ∀ j g, aget (gtab s) j = Some g → 0 ≤ gt_disp_idx g).

Lemma join_checks_ok t :
  wp (join_checks c (Some i) t) (λ x s', s' = s ∧ match x with inl err => err ≠ 0 | inr _ => True end) s.
Proof using H Hi Hu.
  unfold join_checks. wp_step. eapply wp_mono; [by eapply wp_dt2gtab|].
  intros [j|] s1 [-> Hj]; [|by wp_step]. destruct Hj as (-> & Hr & g & Hg & _). destruct Hi as (l & Hl & _).
  do 2 wp_step. eapply wp_eq; [by apply ltab_get_ok|]. do 2 wp_step; [by wp_step|]. wp_step.
  eapply wp_eq; [by apply gtab_get_ok|]. wp_step; [by wp_step|]. breflect. apply Hu in Hg.
  unfold dispatch. wp_step. destruct (aget_is_Some (dsps c) (gt_disp_idx g)) as [d Hd]; [unfold ndsps in *; lia|].
  eapply wp_get_some; [done|]. by wp_step.
Qed.

Lemma njoin_ready t ret :
  wp (dthread_njoin c e (Some i) setcancel_rv t ret) (call_ready id (join_asks t) c i hm s) s.
Proof using H Hi Hu.
  unfold dthread_njoin. wp_step. eapply wp_mono; [by apply join_checks_ok|].
  intros [err|d] s1 [-> Hx]; [by apply ready_ret|].
  wp_step; [by apply ready_ret|]. wp_step; breflect; [by apply ready_ret|]. by apply wp_join_common.
Qed.

Lemma join_ready t retptr procret :
  wp (dthread_join c e (Some i) setcancel_rv t retptr procret) (call_ready fst (join_asks t) c i hm s) s.
Proof using H Hi Hu.
  unfold dthread_join. wp_step. eapply wp_mono; [by apply join_checks_ok|].
  intros [err|d] s1 [-> Hx]; [by apply ready_ret|].
  wp_step; [by apply ready_ret|]. wp_step; breflect; [by apply ready_ret|]. wp_step.
  eapply wp_mono; [by apply wp_join_common|]. intros y s2 Hy. eapply wp_call_map; [exact Hy|].
  intros rv Hrv. rewrite (proj2 (Z.eqb_neq rv 0)) by done. by apply wp_ret.
Qed.

Lemma ncreate_ready nul attr f arg :
  wp (dthread_ncreate c e (Some i) setcancel_rv attr_default sched nul attr f arg)
    (call_ready fst (ncreate_asks attr f arg) c i hm s) s.
Proof using H Hi.
  unfold dthread_ncreate. wp_step; [by apply ready_ret|]. cbv zeta. wp_step; breflect; [by apply ready_ret|].
  destruct (dispatch_idx_ok c f) as (d & Hd & _); [done|]. unfold dispatch. wp_step.
  eapply wp_get_some; [exact Hd|]. wp_step; [by apply ready_ret|]. wp_step; breflect; [by apply ready_ret..|].
  by apply wp_create_common.
Qed.

Lemma create_ready nul attr f arg :
  wp (dthread_create c e (Some i) setcancel_rv attr_default sched nul attr f arg)
    (call_ready fst (create_asks attr f arg) c i hm s) s.
Proof using H Hi.
  unfold dthread_create. wp_step; [by apply ready_ret|]. cbv zeta. wp_step; breflect; [by apply ready_ret|].
  destruct (dispatch_idx_ok c f) as (d & Hd & Hf); [done|]. unfold dispatch. wp_step.
  eapply wp_get_some; [exact Hd|]. wp_step; [by apply ready_ret|]. breflect.
  wp_step; breflect; [by apply ready_ret|]. unfold proc_call.
  rewrite (proj2 (Z.eqb_neq (dt_argproc d) 0)) by done. do 2 wp_step.
  destruct (call_proc e (dt_argproc d) DTHREAD_PROC_ENCODE (stale_argret e) arg) as [[rv procarg] v] eqn:Ep.
  wp_step; breflect; [by apply ready_ret|]. wp_step.
  eapply wp_mono; [apply (wp_create_common c e (Some i) _ _ (create_asks attr f arg)); try done|].
  { split; [done|]. exists d, procarg, v. subst rv. by split_and!. }
  intros y s2 Hy. eapply wp_call_map; [exact Hy|]. intros [rv' t'] Hrv. simpl in Hrv.
  rewrite (proj2 (Z.eqb_neq _ 0)) by done. simpl. do 2 wp_step. by wp_step.
Qed.
End Calls.

(** ** Theorems *)

(** C11. Every call an idle application thread makes either returns an error at
    once, and then nothing has changed (no request, no message, no table entry,
    no queue; only the count of allocations tried), or goes to sleep with
    exactly one request queued: busy, with a clear error, carrying the message
    the call is about to the rank it is for (DETACH, JOIN and CREATE to rank 0,
    CANCEL to the thread's rank), and such that the manager can process it, the
    precondition of [process_req_safe]; no other entry, queue or buffer has
    changed. *)
Theorem api_calls_ready (c : config) (e : env) (i setcancel_rv : Z) (attr_default : pthread_attr_t)
    (sched : Z * Z * Z) (hm : list nat) (s : dtst)
    (H : rank_ok c [] hm s) (Hi : caller_idle s i)
    (Hu : ∀ j g, aget (gtab s) j = Some g → 0 ≤ gt_disp_idx g)
    (t : dthread_t) (ret retptr procret f v : Z) (nul : bool) (attr : option pthread_attr_t)
    (arg : option dthread_argret_t) :
  wp (dthread_detach c e (Some i) setcancel_rv t) (call_ready id (detach_asks t) c i hm s) s ∧
  wp (dthread_cancel c e (Some i) setcancel_rv t) (call_ready id (cancel_asks s t) c i hm s) s ∧
  wp (dthread_njoin c e (Some i) setcancel_rv t ret) (call_ready id (join_asks t) c i hm s) s ∧
  wp (dthread_join c e (Some i) setcancel_rv t retptr procret) (call_ready fst (join_asks t) c i hm s) s ∧
  wp (dthread_ncreate c e (Some i) setcancel_rv attr_default sched nul attr f arg)
    (call_ready fst (ncreate_asks c attr_default sched attr f arg) c i hm s) s ∧
  wp (dthread_create c e (Some i) setcancel_rv attr_default sched nul attr f v)
    (call_ready fst (create_asks c e attr_default sched attr f v) c i hm s) s.
Proof.
  split_and!; [by apply detach_ready|by apply cancel_ready|by apply njoin_ready|by apply join_ready
    |by apply ncreate_ready|by apply create_ready].
Qed.

Definition demo_attr : pthread_attr_t := Attr 0 0 0 0 0 0.

Lemma demo_caller_idle : caller_idle demo_rcv 0.
Proof. eexists. split; [done|]. split_and!; try done. apply not_elem_of_nil. Qed.

Lemma api_calls_ready_witness :
  wp (dthread_detach demo_cfg demo_env (Some 0) 0 (Dthread 1 2)) (call_ready id (detach_asks (Dthread 1 2)) demo_cfg 0 [0%nat] demo_rcv) demo_rcv.
Proof.
  apply (api_calls_ready demo_cfg demo_env 0 0 demo_attr (0, 0, 0) [0%nat] demo_rcv demo_rcv_ok
    demo_caller_idle); try done; try exact 0; try exact true; try exact None.
  intros j g Hg. unfold aget in Hg. destruct (0 <=? j); [|done].
  destruct (Z.to_nat j) as [|[|[|k]]]; by simplify_eq/=.
Defined.

(** [get_dispatch_idx] finds the first entry after the main one that has
    the function, and returns 0 exactly when no entry has it; index 0, the main
    function's, is never returned for a match. *)
Theorem get_dispatch_idx_correct (c : config) (f : Z) :
  (get_dispatch_idx c f = 0 ∧ ∀ d, d ∈ drop 1 (dsps c) → dt_start d ≠ f) ∨
  (∃ d, 1 ≤ get_dispatch_idx c f < ndsps c ∧ aget (dsps c) (get_dispatch_idx c f) = Some d ∧
     dt_start d = f ∧
     ∀ j d', 1 ≤ j < get_dispatch_idx c f → aget (dsps c) j = Some d' → dt_start d' ≠ f).
Proof.
  unfold get_dispatch_idx. destruct (dispatch_from_spec f (drop 1 (dsps c)) 1)
    as [[E Hn]|(k & d & E & Hk & Hd & Hf)]; [lia|by left|]. right. exists d.
  rewrite lookup_drop in Hk. rewrite E. replace (1 + Z.of_nat k) with (Z.of_nat (1 + k)) by lia.
  rewrite aget_nat. pose proof (lookup_lt_Some _ _ _ Hk). unfold ndsps. split; [lia|]. split_and!; try done.
  intros j d' Hj Hd'. apply (Hf (Z.to_nat (j - 1)) d'); [lia|]. rewrite lookup_drop.
  unfold aget in Hd'. destruct (Z.leb_spec 0 j); [|lia].
  replace (1 + Z.to_nat (j - 1))%nat with (Z.to_nat j) by lia. done.
Qed.

(** A native join with no buffer that fails at the manager dereferences
    the null buffer pointer, although the manager itself accepts a null one. *)
Theorem njoin_null_buffer_faults (e : env) (t : dthread_t) (i err : Z) (k : M dtst Z)
    (l : dthread_ltab_t) (s s1 s2 : dtst)
    (Hcall : dthread_join_common e (Some i) t 0 s = Ok (CWait i k, s1))
    (Hl : aget (ltab s2) i = Some l) (Herr : reqerror (lt_req l) = err) (Hne : err ≠ 0) :
  k s2 = Crash NullDeref.
Proof.
  unfold dthread_join_common, bindM in Hcall.
  destruct (get_my_req e (Some i) s) as [[[[j m]|] s']|]; [|by simplify_eq..].
  destruct (submit j _ _ s') as [[[] s3]|]; [|done].
  unfold retM in Hcall. inversion Hcall; subst. unfold bindM. rewrite (ltab_get_ok _ _ _ Hl).
  by rewrite (proj2 (Z.eqb_neq _ _) Hne).
Qed.

(** Thread 0 of the small job after its join failed. *)
Definition demo_failed_join : dtst :=
  demo_rcv <| ltab := aset (ltab demo_rcv) 0
    (Ltab 0 0 LT_RUNNING (Request 0 DTREQ_DONE 0 DTOP_JOIN None 2 ESRCH (RURetval 0))) |>.

Lemma njoin_null_buffer_faults_witness :
  match dthread_join_common demo_env (Some 0) (Dthread 1 2) 0 demo_rcv with
  | Ok (CWait _ k, _) => k demo_failed_join = Crash NullDeref
  | _ => False
  end.
Proof.
  exact (njoin_null_buffer_faults demo_env (Dthread 1 2) 0 ESRCH _ _ demo_rcv _ demo_failed_join
    eq_refl eq_refl eq_refl ltac:(done)).
Defined.
