(* ===== verification/Requests.v ===== *)
(** * The books and the requests of local threads

    The request side of [Ledger]: what [process_req] of
    [libdthread/dt_mgrthread.c] does with a queued request, and what the calls
    of [libdthread/dt_threadops.c] and the end of a thread leave in the books
    when they queue one. *)

From S2P Require Import Prelude Types Router Queuing ThreadTab Manager ManagerInv ManagerSafe Lifecycle Spawn Ledger ThreadOps.

(** A request a local thread has queued: its thread sleeps or has ended. *)
Record queued_ok (c : config) (s : dtst) (i : Z) (l : dthread_ltab_t) : Prop := {
  qo_ltab : aget (ltab s) i = Some l;
  qo_idx : req_ltabidx (lt_req l) = i;
  qo_busy : reqstate (lt_req l) = DTREQ_BUSY;
  qo_used : lt_used l;
  qo_gtab : 0 ≤ lt_gtab_idx l < nmaxthread c;
  qo_pend : RLtab i ∉ rpending (mgrstate s);
  qo_msg : fwd_op (reqop (lt_req l)) = true → ∃ m, req_mqe (lt_req l) = Some m ∧
    msg_wf (peer m) m ∧ hdr_op (frame m) = reqop (lt_req l) }.

(** The JOIN a request becomes when it is forwarded: the message it carried,
    with the number the request has got. *)
Definition fwd_join (c : config) (k : jkey) (l l' : dthread_ltab_t) : Z :=
  match req_mqe (lt_req l) with
  | Some m => msg_join k (mpi_rank c) (Frame (xidseq (lt_req l')) (fr_body (frame m)))
  | None => 0
  end.

(** What processing the request of [ltab[i]] changes: its own entry and
    request, which is pending afterwards or done; the books stay balanced. *)
Record req_effect (c : config) (i : Z) (l : dthread_ltab_t) (s s' : dtst) : Prop := {
  re_queue : mgrreqq (dtq s') = mgrreqq (dtq s);
  re_ndeq : mpindequeuedsends (dtq s') = mpindequeuedsends (dtq s);
  re_other : ∀ j, j ≠ i → aget (ltab s') j = aget (ltab s) j ∧
    (RLtab j ∈ rpending (mgrstate s') ↔ RLtab j ∈ rpending (mgrstate s));
  re_self : ∃ l', aget (ltab s') i = Some l' ∧ req_ltabidx (lt_req l') = req_ltabidx (lt_req l) ∧
    lt_gtab_idx l' = lt_gtab_idx l ∧
    (RLtab i ∈ rpending (mgrstate s') → reqstate (lt_req l') = DTREQ_BUSY ∧ lt_used l') ∧
    (RLtab i ∉ rpending (mgrstate s') → reqstate (lt_req l') ≠ DTREQ_BUSY);
  re_conv : ∀ k, value (conv_cur (mpi_rank c) k) s' = value (conv_cur (mpi_rank c) k) s;
  re_load : value load_cur s' = value load_cur s;
  re_used : count_if gtab_used (gtab s') = count_if gtab_used (gtab s);
  re_join : ∀ k, value (join_cur (mpi_rank c) k) s' = value (join_cur (mpi_rank c) k) s +
    match aget (ltab s') i with
    | Some l' => if decide (RLtab i ∈ rpending (mgrstate s')) then fwd_join c k l l' else 0
    | None => 0
    end;
  re_keep : value keep_cur s' = value keep_cur s;
  re_wait : ∀ t, value (wait_cur t) s' = value (wait_cur t) s;
  re_pend : RLtab i ∈ rpending (mgrstate s') → fwd_op (reqop (lt_req l)) = true ∧
    ∀ l', aget (ltab s') i = Some l' → reqop (lt_req l') = reqop (lt_req l);
  re_disp : disp_wf (gtab s) → disp_wf (gtab s') }.

(** The value of a state that differs in one local entry. *)
Lemma value_ltab cur s s' i l l' : aget (ltab s) i = Some l → ltab s' = aset (ltab s) i l' →
  mpisendq (dtq s') = mpisendq (dtq s) → mpirecvq (dtq s') = mpirecvq (dtq s) →
  rpending (mgrstate s') = rpending (mgrstate s) → ireqs s' = ireqs s → gtab s' = gtab s →
  RLtab i ∉ rpending (mgrstate s) →
  value cur s' = value cur s + c_slot cur * (b2z (ltab_used l') - b2z (ltab_used l)).
Proof.
  intros Hl El Es Er Ep Ei Eg Hni. pose proof (aget_Some_range _ _ _ Hl). unfold value, b2z.
  rewrite Es, Er, Ep, Eg, El, (count_if_aset _ _ _ _ _ Hl).
  rewrite (tally_ext (pend_value cur s') (pend_value cur s)); [lia|].
  intros r Hr. unfold pend_value. f_equal. destruct r as [j|]; simpl; [|by rewrite Ei].
  rewrite El. destruct (decide (j = i)) as [->|]; [done|]. by rewrite aget_aset_ne by lia.
Qed.

Section Process.
Context (c : config) (e : env) (Hc : config_ok c) (Hmal : ∀ n, malloc_ok e n = true).
Context (s : dtst) (i : Z) (l : dthread_ltab_t) (Hq : queued_ok c s i l).
Implicit Types (hr : list reqref) (hm : list nat).

(** The invariant and the effect together. *)
Definition req_ends hr hm (s' : dtst) : Prop :=
  rank_ok c hr hm s' ∧ mpisq_draindown (dtq s') = DTQ_DD_INIT ∧ queues_wf c (dtq s') ∧
  req_effect c i l s s'.

Lemma release_ends hr hm (b : bool) : books c s hr hm (λ _, 0) s →
  wp (dtq_req_release (RLtab i) b) (λ _ s', req_ends hr hm s') s.
Proof using Hq.
  intros (H & Hd & Hw & _). destruct Hq. pose proof (aget_Some_range _ _ _ qo_ltab0).
  eapply wp_mono; [eapply (wp_and _ _ (λ _ s', s' = req_store (RLtab i)
    ((lt_req l) <| reqstate := if b then DTREQ_DONE else DTREQ_IDLE |>) s)); [by apply (wp_release_ltab c hr hm); [..|simpl; rewrite qo_ltab0]|]|].
  - unfold dtq_req_release. do 3 wp_step. eapply wp_get_some; [simpl; by rewrite qo_ltab0|]. by rewrite qo_busy0.
  - intros [] s' [H' ->]. simpl in *. rewrite qo_ltab0 in *. split_and!; try done. split; try done.
    + intros j Hj. simpl. by rewrite aget_aset_ne by lia.
    + eexists. split; [simpl; by apply aget_aset_eq|]. split; [done|]. split; [done|]. split; [by intros ?|by destruct b].
    + intros k. erewrite (value_ltab _ s); [|exact qo_ltab0|reflexivity|done..]. simpl. lia.
    + erewrite (value_ltab _ s); [|exact qo_ltab0|reflexivity|done..]. simpl. unfold b2z. rewrite !ltab_used_eq. simpl. lia.
    + intros k. erewrite (value_ltab _ s); [|exact qo_ltab0|reflexivity|done..]. simpl. rewrite aget_aset_eq, decide_False by done. lia.
    + erewrite (value_ltab _ s); [|exact qo_ltab0|reflexivity|done..]. simpl. lia.
    + intros t. erewrite (value_ltab _ s); [|exact qo_ltab0|reflexivity|done..]. simpl. lia.
Qed.

(** What forwarding leaves: the message, now with its [xidseq], is queued and
    the request pending. *)
Definition forwarded (m : dtq_mpiqentry) (s' : dtst) : Prop := ∃ xid,
  let m' := Mqe (mid m) (Frame xid (fr_body (frame m))) (flen m) (peer m) in
  mgrreqq (dtq s') = mgrreqq (dtq s) ∧ mpisq_draindown (dtq s') = DTQ_DD_INIT ∧
  mpindequeuedsends (dtq s') = mpindequeuedsends (dtq s) ∧
  (if peer m =? mpi_rank c
   then mpisendq (dtq s') = mpisendq (dtq s) ∧ mpirecvq (dtq s') = mpirecvq (dtq s) ++ [m']
   else mpisendq (dtq s') = mpisendq (dtq s) ++ [m'] ∧ mpirecvq (dtq s') = mpirecvq (dtq s)) ∧
  rpending (mgrstate s') = rpending (mgrstate s) ++ [RLtab i] ∧ ireqs s' = ireqs s ∧ gtab s' = gtab s ∧
  ltab s' = aset (ltab s) i (l <| lt_req := (lt_req l) <| req_mqe := None |> <| xidseq := xid |> |>).

Lemma forward_obs hr hm m : books c s hr hm (λ _, 0) s → req_mqe (lt_req l) = Some m →
  Z.of_nat (length (rpending (mgrstate s))) < seq_period c →
  wp (forward_req c (RLtab i)) (λ _ s', forwarded m s') s.
Proof using Hq Hc.
  intros (H & Hd & _) Hm Hn. destruct Hq. pose proof (aget_Some_range _ _ _ qo_ltab0).
  unfold forward_req. wp_step. eapply wp_req_get; [simpl; by rewrite qo_ltab0|]. unfold req_put. do 2 wp_step.
  assert (rank_ok c hr hm (req_store (RLtab i) ((lt_req l) <| req_mqe := None |>) s)) as H1.
  { eapply rank_ok_req_put; [exact H|done|simpl; by rewrite qo_ltab0|done]. }
  wp_step. eapply wp_mono; [apply (wp_get_free_seq c Hc _ _ _ _ H1); by rewrite rpending_req_store|].
  intros xid s2 ((sq & ->) & _ & _). do 3 wp_step. eapply wp_get_some; [exact Hm|]. wp_step.
  unfold send_or_free. wp_step. simpl. rewrite qo_ltab0. simpl. rewrite aget_aset_eq by done. simpl. rewrite aset_aset.
  eapply wp_mono; [by eapply wp_send_lists|]. intros o s3 (-> & (q & ->) & Eq & Ed & En & El). wp_step. unfold upd_mgr. wp_step.
  exists xid. done.
Qed.

Lemma forward_ends hr hm hm' m : books c s hr hm (λ _, 0) s → fwd_op (reqop (lt_req l)) = true →
  req_mqe (lt_req l) = Some m → hm ≡ₚ mid m :: hm' →
  Z.of_nat (length (rpending (mgrstate s))) < seq_period c →
  wp (forward_req c (RLtab i)) (λ _ s', req_ends hr hm' s') s.
Proof using Hq Hc.
  intros Hb Hop Hm Hhm Hn. pose proof Hb as (H & Hd & Hw & _). pose proof Hq as [qo_ltab0 qo_idx0 qo_busy0 qo_used0 _ qo_pend0 qo_msg0].
  destruct (qo_msg0 Hop) as (m1 & Hm1 & (Hlen & Hfw & Hdst) & Eop). simplify_eq.
  pose proof (aget_Some_range _ _ _ qo_ltab0).
  eapply wp_mono; [eapply (wp_and _ _ (λ _ s', forwarded m s')); [|by eapply forward_obs]|].
  { eapply (wp_forward_req c Hc hr hm hm'); try done. simpl. by rewrite qo_ltab0. }
  intros [] s' [H' (xid & Eq & Ed & En & El & Ep & Ei & Eg & Elt)].
  set (m' := Mqe (mid m) (Frame xid (fr_body (frame m))) (flen m) (peer m)) in *.
  assert (msg_wf (peer m) m') as Hm' by done.
  set (q' := (lt_req l) <| req_mqe := None |> <| xidseq := xid |>) in *.
  assert (∀ cur, value cur s' = value cur s + post c cur m' + c_pend cur q') as Hv.
  { intros cur. unfold value, post. rewrite Ep, Eg, Elt, tally_app, (count_if_aset _ _ _ _ _ qo_ltab0), !ltab_used_eq. simpl.
    rewrite (tally_ext (pend_value cur s') (pend_value cur s)).
    - assert (pend_value cur s' (RLtab i) = c_pend cur q') as -> by (unfold pend_value; simpl; by rewrite Elt, aget_aset_eq).
      destruct (peer m =? mpi_rank c); destruct El as [-> ->]; rewrite tally_app; simpl; lia.
    - intros r Hr. unfold pend_value. f_equal. destruct r as [j|]; simpl; [|by rewrite Ei].
      rewrite Elt. destruct (decide (j = i)) as [->|]; [done|]. by rewrite aget_aset_ne by lia. }
  assert (msg_conv (mpi_rank c) (peer m') (frame m') = [(mpi_rank c, reqop (lt_req l), xid)] ∧ msg_weight (frame m') = 0) as [Ek Ewt].
  { unfold msg_conv, msg_weight, hdr_op, frame_wf, m' in *. simpl. rewrite <- Eop in Hop. destruct (fr_body (frame m)); try done;
      simpl in *; (split; [congruence|done]). }
  assert (req_carry q' = [] ∧ req_wait (mpi_rank c) q' = [(mpi_rank c, reqop (lt_req l), xid)]) as [Ec Ewa].
  { unfold req_carry, req_wait. simpl. rewrite Hop. split; [|done].
    destruct (Z.eqb_spec (reqop (lt_req l)) DTOP_START) as [E|]; [by rewrite E in Hop|].
    destruct (Z.eqb_spec (reqop (lt_req l)) DTOP_JOINWAIT) as [E|]; [by rewrite E in Hop|done]. }
  split; [done|]. split; [done|]. split.
  { destruct Hw as [Hw1 Hw2]. unfold queues_wf. destruct (Z.eqb_spec (peer m) (mpi_rank c)) as [E|]; destruct El as [-> ->];
      rewrite ?Forall_app, ?Forall_singleton; rewrite ?E in Hm'; done. }
  split; try done.
  - intros j Hj. rewrite Elt, Ep, aget_aset_ne by lia. split; [done|]. rewrite elem_of_app, list_elem_of_singleton.
    split; [intros [?|?]; [done|congruence]|by left].
  - eexists. split; [rewrite Elt; by apply aget_aset_eq|]. split; [done|]. split; [done|]. split; [done|].
    rewrite Ep, elem_of_app, list_elem_of_singleton. intros Hn'. destruct Hn'. by right.
  - intros k. rewrite Hv, post_conv. cbn [c_pend conv_cur]. rewrite Ek, Ec, Ewa, occ_nil. lia.
  - rewrite Hv, post_load, Ewt. simpl. lia.
  - by rewrite Eg.
  - intros k. rewrite Hv, post_join, Elt, aget_aset_eq by done. rewrite decide_True by (rewrite Ep, elem_of_app; right; by left).
    unfold fwd_join. rewrite Hm. cbn [c_pend join_cur]. unfold req_join. simpl.
    rewrite (proj2 (Z.eqb_neq (reqop (lt_req l)) DTOP_JOINWAIT)); [unfold msg_join; simpl; lia|]. intros E. by rewrite E in Hop.
  - rewrite Hv, post_keep. simpl. rewrite (proj2 (Z.eqb_neq (reqop (lt_req l)) DTOP_JOINWAIT)); [simpl; lia|]. intros E. by rewrite E in Hop.
  - intros t. rewrite Hv, post_wait. cbn [c_pend wait_cur]. unfold req_awaits. simpl.
    rewrite (proj2 (Z.eqb_neq (reqop (lt_req l)) DTOP_JOINWAIT)); [lia|]. intros E. by rewrite E in Hop.
  - intros _. split; [done|]. rewrite Elt, aget_aset_eq by done. by intros l' [= <-].
  - by rewrite Eg.
Qed.

(** The end of a thread: rank 0 is told, and the slot is free again. *)
Lemma retclean_ends hr hm : books c s hr hm (λ _, 0) s →
  wp (retclean_req c e (RLtab i) i) (λ _ s', req_ends hr hm s') s.
Proof using Hq Hmal.
  intros Hb. pose proof Hb as (H & Hd & Hw & _). pose proof Hq as [qo_ltab0 qo_idx0 qo_busy0 qo_used0 qo_gtab0 qo_pend0 _].
  pose proof (aget_Some_range _ _ _ qo_ltab0).
  eapply wp_mono; [apply wp_and; [by eapply (wp_retclean_req c e hr hm)|]|].
  - instantiate (1 := λ _ s', ∃ d s3, books c s hr hm d s3 ∧ (∀ k, d (conv_cur (mpi_rank c) k) = 0) ∧ d load_cur = 1 ∧
      d used_cur = 0 ∧ (∀ k, d (join_cur (mpi_rank c) k) = 0) ∧ d keep_cur = 0 ∧ (∀ t, d (wait_cur t) = 0) ∧ ltab s3 = ltab s ∧ rpending (mgrstate s3) = rpending (mgrstate s) ∧
      dtq s' = dtq s3 ∧ gtab s' = gtab s3 ∧ ireqs s' = ireqs s3 ∧ rpending (mgrstate s') = rpending (mgrstate s3) ∧
      ltab s' = aset (ltab s) i (Ltab (lt_gtab_idx l) 0 LT_NONE ((lt_req l) <| reqstate := DTREQ_IDLE |>))).
    unfold retclean_req. wp_step. eapply wp_mono; [by apply bk_mqe_alloc|].
    intros o s1 (m & -> & (q1 & n1 & -> & _) & Hb1). do 2 wp_step.
    eapply wp_eq; [apply ltab_get_ok; exact qo_ltab0|]. pose proof Hb1 as (H1 & _). wp_step.
    eapply wp_gtab_get; [exact H1|done|]. intros g Hg. wp_step.
    set (s1 := s <| dtq := q1 |> <| nmallocs := n1 |>) in *.
    eapply wp_mono with (Q := λ _ s', books c s hr (mid m :: hm) (λ _, 0) s' ∧ ltab s' = ltab s ∧
      rpending (mgrstate s') = rpending (mgrstate s)).
    { wp_step; [|done]. apply wp_modify. split; [by eapply bk_gtab_put_same|done]. }
    intros [] s2 (Hb2 & El2 & Ep2). do 3 wp_step. pose proof Hb2 as (H2 & _).
    assert (books c s hr (mid m :: hm) (λ _, 0) (s2 <| events ::= cons (EvPthreadJoin i) |>)) as Hb2'.
    { eapply books_keep; [exact Hb2|by apply rank_ok_events|done..| |done|done]. by intros []. }
    eapply wp_mono; [apply (bk_send_or_free c s hr hm _ _ (fill_mqe m 0 0 (BTerminated (Dthread (lt_gtab_idx l) (lt_seq l)) (lt_pth_state l))) Hb2')|].
    { split; [done|]. split; [unfold frame_wf; simpl; lia|done]. }
    intros b s3 (_ & (q3 & n3 & -> & _) & Hb3).
    eapply wp_eq; [apply ltab_free_eq; simpl; rewrite El2; exact qo_ltab0|].
    rewrite (proj2 (Z.eqb_neq _ _) qo_used0). unfold dtq_req_release. do 3 wp_step. simpl.
    eapply wp_get_some; [simpl; by rewrite El2, aget_aset_eq|]. simpl. rewrite qo_busy0. simpl. apply wp_modify.
    simpl. rewrite El2, aget_aset_eq by done. simpl. eexists _, _. split; [exact Hb3|]. simpl.
    rewrite aset_aset. split_and!; try done; intros; rewrite ?post_conv, ?post_load, ?post_used, ?post_join, ?post_keep, ?post_wait; done.
  - intros [] s' [H' (d & s3 & Hb3 & Hdk & Hdl & Hdu & Hdj & Hdp & Hdw & El3 & Ep3 & Ed & Eg & Ei & Ep & Elt)].
    destruct Hb3 as (_ & Hd3 & Hw3 & Hf3 & Hv3). rewrite <- El3 in Elt. assert (aget (ltab s3) i = Some l) as Hl3 by (by rewrite El3).
    assert (∀ cur, value cur s' = value cur s + d cur - c_slot cur) as Hv.
    { intros cur. erewrite (value_ltab cur s3); [|exact Hl3|exact Elt|by rewrite Ed..|done|done|done|by rewrite Ep3].
      rewrite Hv3. unfold b2z. rewrite !ltab_used_eq, (proj2 (Z.eqb_neq _ _) qo_used0). simpl. lia. }
    split; [done|]. rewrite Ed. split; [done|]. split; [done|]. split; rewrite ?Ed, ?Ep, ?Ep3, ?Elt, ?El3.
    + apply Hf3.
    + apply Hf3.
    + intros j Hj. by rewrite aget_aset_ne by lia.
    + eexists. split; [by apply aget_aset_eq|]. split; [done|]. split; [done|]. split; [by intros ?|done].
    + intros k. rewrite Hv, Hdk. simpl. lia.
    + rewrite Hv, Hdl. simpl. lia.
    + rewrite <- !value_used, Hv, Hdu. simpl. lia.
    + intros k. rewrite Hv, Hdj, aget_aset_eq, decide_False by done. simpl. lia.
    + rewrite Hv, Hdp. simpl. lia.
    + intros t. rewrite Hv, Hdw. simpl. lia.
    + done.
    + intros Hx. rewrite Eg. by apply Hf3.
Qed.

(** Any request but the one that ends the job. *)
Lemma process_req_ends hr hm hm' : books c s hr hm (λ _, 0) s →
  (if fwd_op (reqop (lt_req l)) then ∃ m, req_mqe (lt_req l) = Some m ∧ hm ≡ₚ mid m :: hm' else hm = hm') →
  Z.of_nat (length (rpending (mgrstate s))) < seq_period c →
  (reqop (lt_req l) = DTOP_APP0_RET → mpi_rank c ≠ 0) →
  wp (process_req c e (RLtab i)) (λ _ s', req_ends hr hm' s') s.
Proof using Hq Hc Hmal.
  intros Hb Hm Hn Happ. pose proof Hb as (H & _). pose proof Hq as [qo_ltab0 qo_idx0 qo_busy0 _ _ _ _].
  pose proof (aget_Some_range _ _ _ qo_ltab0). pose proof (ltab_len _ _ (ok_tabs _ _ _ _ H)).
  unfold process_req. wp_step. eapply wp_req_get; [simpl; by rewrite qo_ltab0|]. cbv zeta. rewrite qo_idx0, bool_decide_true by done.
  destruct (Z.ltb_spec i 0); [lia|]. destruct (Z.leb_spec (nmaxthread c) i); [lia|]. simpl.
  wp_step. eapply wp_eq; [by apply ltab_get_ok|]. rewrite qo_busy0. simpl.
  change ((reqop (lt_req l) =? DTOP_CREATE) || (reqop (lt_req l) =? DTOP_DETACH) ||
    (reqop (lt_req l) =? DTOP_CANCEL) || (reqop (lt_req l) =? DTOP_JOIN)) with (fwd_op (reqop (lt_req l))).
  destruct (fwd_op (reqop (lt_req l))) eqn:Ef.
  { destruct Hm as (m & Hm & Hhm). by eapply forward_ends. }
  subst hm'. wp_step; [by apply retclean_ends|]. wp_step; [|by apply release_ends]. breflect.
  wp_step. rewrite (proj2 (Z.eqb_neq _ _) (Happ Heqb0)). wp_step; [done|]. by apply release_ends.
Qed.
End Process.

(** ** Calls of application threads *)

(** The calls that ask the manager for something. *)
Inductive api :=
  | ADetach (t : dthread_t)
  | ACancel (t : dthread_t)
  | ANjoin (t : dthread_t) (ret : Z)
  | AJoin (t : dthread_t) (retptr procret : Z)
  | ANcreate (nul : bool) (attr : option pthread_attr_t) (start : Z) (arg : option dthread_argret_t)
  | ACreate (nul : bool) (attr : option pthread_attr_t) (start arg : Z).

(** Whether a call sleeps. *)
Definition sleeps {A} (x : call A) : bool := match x with CRet _ => false | CWait _ _ => true end.

Section Api.
Context (c : config) (e : env) (i : Z) (setcancel_rv : Z) (attr_default : pthread_attr_t) (sched : Z * Z * Z).

(** A call of the thread of [ltab[i]], up to its sleep. *)
Definition api_call (a : api) : M dtst bool :=
  match a with
  | ADetach t => x <- dthread_detach c e (Some i) setcancel_rv t;; retM (sleeps x)
  | ACancel t => x <- dthread_cancel c e (Some i) setcancel_rv t;; retM (sleeps x)
  | ANjoin t ret => x <- dthread_njoin c e (Some i) setcancel_rv t ret;; retM (sleeps x)
  | AJoin t retptr procret =>
      x <- dthread_join c e (Some i) setcancel_rv t retptr procret;; retM (sleeps x)
  | ANcreate nul attr start arg =>
      x <- dthread_ncreate c e (Some i) setcancel_rv attr_default sched nul attr start arg;; retM (sleeps x)
  | ACreate nul attr start arg =>
      x <- dthread_create c e (Some i) setcancel_rv attr_default sched nul attr start arg;; retM (sleeps x)
  end.

(** A call of an idle thread: it returns at once and changes nothing the books
    see, or its request is queued with its message. *)
Record call_effect (l : dthread_ltab_t) (hm : list nat) (s : dtst) (b : bool) (s' : dtst) : Prop := {
  ce_ndeq : mpindequeuedsends (dtq s') = mpindequeuedsends (dtq s);
  ce_dd : mpisq_draindown (dtq s') = mpisq_draindown (dtq s);
  ce_send : mpisendq (dtq s') = mpisendq (dtq s);
  ce_recv : mpirecvq (dtq s') = mpirecvq (dtq s);
  ce_gtab : gtab s' = gtab s;
  ce_ireqs : ireqs s' = ireqs s;
  ce_pend : rpending (mgrstate s') = rpending (mgrstate s);
  ce_self : if b then
      ∃ m q, rank_ok c [] (mid m :: hm) s' ∧ mgrreqq (dtq s') = mgrreqq (dtq s) ++ [RLtab i] ∧
        ltab s' = aset (ltab s) i (l <| lt_req := q |>) ∧ req_ltabidx q = req_ltabidx (lt_req l) ∧
        reqstate q = DTREQ_BUSY ∧ req_mqe q = Some m ∧ msg_wf (peer m) m ∧
        hdr_op (frame m) = reqop q ∧ fwd_op (reqop q) = true
    else rank_ok c [] hm s' ∧ mgrreqq (dtq s') = mgrreqq (dtq s) ∧ ltab s' = ltab s }.

Context (s : dtst) (l : dthread_ltab_t) (hm : list nat).
Context (H : rank_ok c [] hm s) (Hl : aget (ltab s) i = Some l) (Hidx : req_ltabidx (lt_req l) = i)
  (Hidle : reqstate (lt_req l) = DTREQ_IDLE) (Hni : RLtab i ∉ rpending (mgrstate s)).

Lemma call_effect_none : call_effect l hm s false s.
Proof using H. by split. Qed.

(** The tail of every call: a message, and the request that carries it. *)
Lemma request_effect {A} (k : Z → dtq_mpiqentry → M dtst (call A)) (a : A) (to : Z) (b : dtbody) (un : option req_u) (w : Z → M dtst A) :
  fwd_op (hdr_op (Frame 0 b)) = true → frame_wf (Frame 0 b) → (rank0_op (hdr_op (Frame 0 b)) = true → to = 0) →
  (∀ j m, k j m = (submit j (app_msg m to b) un ;;; retM (CWait j (w j)))) →
  wp (o <- get_my_req e (Some i);;
      match o with None => retM (CRet a) | Some (j, m) => k j m end)
    (λ x s', call_effect l hm s (sleeps x) s') s.
Proof using H Hl Hidx Hidle Hni.
  intros Hop Hfw Hto Hk. pose proof (aget_Some_range _ _ _ Hl) as Hr. wp_step. unfold get_my_req. wp_step.
  eapply wp_eq; [by apply ltab_get_ok|]. rewrite Hidle. simpl. wp_step.
  eapply wp_mono; [apply (wp_and _ _ (λ _ s', mgrreqq (dtq s') = mgrreqq (dtq s) ∧
    mpisq_draindown (dtq s') = mpisq_draindown (dtq s) ∧ mpisendq (dtq s') = mpisendq (dtq s) ∧
    mpirecvq (dtq s') = mpirecvq (dtq s) ∧ mpindequeuedsends (dtq s') = mpindequeuedsends (dtq s)) _ (wp_mqe_alloc c e [] hm s H))|].
  { unfold dtq_mqe_alloc, malloc, upd_dtq. wp_steps. by destruct (mqefree (dtq s)); wp_steps. }
  intros [m|] s1 [[(q1 & n1 & -> & _) H1] (Eq & Ed & Es & Er & En)]; wp_step; cbv beta iota.
  2: { wp_step. by split. }
  rewrite Hk. wp_step. set (s1 := s <| dtq := q1 |> <| nmallocs := n1 |>) in *. set (m' := app_msg m to b).
  assert (hdr_op (frame m') = hdr_op (Frame 0 b)) as Eop by done.
  assert (caller_idle s1 i) as Hci by (exists l; done).
  eapply wp_mono; [apply (wp_and _ _ (λ _ s', ∃ q d, s' = s1 <| ltab := aset (ltab s) i (l <| lt_req := q |>) |> <| dtq := d |> ∧
    mpindequeuedsends d = mpindequeuedsends q1 ∧ mpisq_draindown d = mpisq_draindown q1 ∧ mpisendq d = mpisendq q1 ∧ mpirecvq d = mpirecvq q1 ∧
    req_ltabidx q = req_ltabidx (lt_req l) ∧ reqstate q = DTREQ_BUSY ∧ req_mqe q = Some m' ∧ reqop q = hdr_op (frame m'))
    _ (wp_submit c hm s1 i m' un H1 Hci ltac:(by rewrite Eop)))|].
  { unfold submit, ltab_put, dtq_req_enqueue, upd_dtq. wp_step. eapply wp_eq; [apply ltab_get_ok; exact Hl|]. wp_steps.
    eexists _, _. split; [reflexivity|]. simpl. by destruct (mgr_idle q1). }
  intros [] s2 [[Eq2 _ _ _ (l2 & m2 & q2 & Hl2 & Elt & _ & _ & _ & _ & Em2 & _ & _ & H2 & _)]
    (q & d & -> & En2 & Ed2 & Es2 & Er2 & Ei & Est & Em & Eo)]. wp_step. simpl in *.
  assert (l2 = l) as -> by congruence. assert (q2 = q) as ->.
  { apply (f_equal (λ x, lt_req <$> aget x i)) in Elt. rewrite !aget_aset_eq in Elt by done. by simplify_eq/=. }
  rewrite Em in Em2. injection Em2 as <-.
  split; simpl; try done; try congruence. exists m', q. split_and!; try done; [rewrite Eq2; congruence|rewrite Eo; exact Hop].
Qed.

Lemma detach_effect t :
  wp (dthread_detach c e (Some i) setcancel_rv t) (λ x s', call_effect l hm s (sleeps x) s') s.
Proof using H Hl Hidx Hidle Hni.
  unfold dthread_detach, simple_call. wp_step. eapply wp_mono; [by eapply wp_dt2gtab|].
  intros [j|] s1 [-> _]; [|wp_step; apply call_effect_none]. wp_step; [wp_step; apply call_effect_none|].
  by eapply (request_effect _ _ 0 (BDetach t)).
Qed.

Lemma cancel_effect t :
  wp (dthread_cancel c e (Some i) setcancel_rv t) (λ x s', call_effect l hm s (sleeps x) s') s.
Proof using H Hl Hidx Hidle Hni.
  unfold dthread_cancel, simple_call. wp_step. eapply wp_mono; [by eapply wp_dt2gtab|].
  intros [j|] s1 [-> Hj]; [|wp_step; apply call_effect_none]. destruct Hj as (-> & Hr & _). wp_step.
  eapply wp_gtab_get; [exact H|done|]. intros g _. wp_step; [wp_step; apply call_effect_none|].
  by eapply (request_effect _ _ (gt_rank g) (BCancel t)).
Qed.

Lemma join_common_effect t ret :
  wp (dthread_join_common e (Some i) t ret) (λ x s', call_effect l hm s (sleeps x) s') s.
Proof using H Hl Hidx Hidle Hni. by eapply (request_effect _ _ 0 (BJoin t)). Qed.

Lemma create_common_effect attr d arg : 0 ≤ d →
  wp (dthread_create_common e (Some i) attr_default sched attr d arg)
    (λ x s', call_effect l hm s (sleeps x) s') s.
Proof using H Hl Hidx Hidle Hni. intros Hd. eapply (request_effect _ _ 0 (BCreate _ _ _)); [done|exact Hd|done|done]. Qed.

(** What follows the common part runs after the wait, or changes nothing. *)
Lemma call_map_effect {A B} s1 (x : call A) (k : A → M dtst B) :
  call_effect l hm s (sleeps x) s1 → (∀ a, x = CRet a → wp (k a) (λ _ s', s' = s1) s1) →
  wp (call_map x k) (λ y s', call_effect l hm s (sleeps y) s') s1.
Proof.
  destruct x as [a|j w]; simpl; intros He Hk; wp_step; [|done].
  eapply wp_mono; [by apply Hk|]. intros b s2 ->. by wp_step.
Qed.

Context (Hu : ∀ j g, aget (gtab s) j = Some g → 0 ≤ gt_disp_idx g).

Lemma njoin_effect t ret :
  wp (dthread_njoin c e (Some i) setcancel_rv t ret) (λ x s', call_effect l hm s (sleeps x) s') s.
Proof using H Hl Hidx Hidle Hni Hu.
  unfold dthread_njoin. wp_step. eapply wp_mono; [apply (join_checks_ok c i hm s H); [by exists l|done]|].
  intros [err|d] s1 [-> _]; [wp_step; apply call_effect_none|].
  do 2 (wp_step; [wp_step; apply call_effect_none|]). apply join_common_effect.
Qed.

Lemma join_effect t retptr procret :
  wp (dthread_join c e (Some i) setcancel_rv t retptr procret) (λ x s', call_effect l hm s (sleeps x) s') s.
Proof using H Hl Hidx Hidle Hni Hu.
  unfold dthread_join. wp_step. eapply wp_mono; [apply (join_checks_ok c i hm s H); [by exists l|done]|].
  intros [err|d] s1 [-> _]; [wp_step; apply call_effect_none|].
  do 2 (wp_step; [wp_step; apply call_effect_none|]). wp_step.
  eapply wp_mono; [apply (wp_and _ _ (λ y s', ∀ a, y = CRet a → a ≠ 0) _ (join_common_effect t procret))|].
  { eapply wp_mono; [apply (wp_join_common c e (Some i) hm s i); [done|done|by exists l]|].
    intros y s1 Hy a ->. apply Hy. }
  intros y s1 [Hy Ha]. eapply call_map_effect; [exact Hy|]. intros a ->.
  rewrite (proj2 (Z.eqb_neq a 0)) by (by apply Ha). by apply wp_ret.
Qed.

Lemma ncreate_effect nul attr f arg :
  wp (dthread_ncreate c e (Some i) setcancel_rv attr_default sched nul attr f arg)
    (λ x s', call_effect l hm s (sleeps x) s') s.
Proof using H Hl Hidx Hidle Hni.
  unfold dthread_ncreate. wp_step; [wp_step; apply call_effect_none|]. cbv zeta.
  wp_step; [wp_step; apply call_effect_none|]. breflect.
  destruct (dispatch_idx_ok c f) as (d & Hd & _); [done|]. unfold dispatch. wp_step.
  eapply wp_get_some; [exact Hd|]. do 2 (wp_step; [wp_step; apply call_effect_none|]).
  apply create_common_effect. by apply aget_Some_range in Hd as [].
Qed.

Lemma create_effect nul attr f arg :
  wp (dthread_create c e (Some i) setcancel_rv attr_default sched nul attr f arg)
    (λ x s', call_effect l hm s (sleeps x) s') s.
Proof using H Hl Hidx Hidle Hni.
  unfold dthread_create. wp_step; [wp_step; apply call_effect_none|]. cbv zeta.
  wp_step; [wp_step; apply call_effect_none|]. breflect.
  destruct (dispatch_idx_ok c f) as (d & Hd & _); [done|]. unfold dispatch. wp_step.
  eapply wp_get_some; [exact Hd|]. wp_step; [wp_step; apply call_effect_none|]. breflect.
  wp_step; [wp_step; apply call_effect_none|]. unfold proc_call.
  rewrite (proj2 (Z.eqb_neq (dt_argproc d) 0)) by done. do 2 wp_step.
  destruct (call_proc e (dt_argproc d) DTHREAD_PROC_ENCODE (stale_argret e) arg) as [[rv procarg] v].
  wp_step; [wp_step; apply call_effect_none|]. wp_step.
  eapply wp_mono; [apply create_common_effect; by apply aget_Some_range in Hd as []|]. intros y s1 Hy. eapply call_map_effect; [exact Hy|].
  intros a _. wp_step; [by do 3 wp_step|by wp_step].
Qed.

(** Every call, up to its sleep. *)
Lemma api_call_effect a : wp (api_call a) (call_effect l hm s) s.
Proof using H Hl Hidx Hidle Hni Hu.
  destruct a; simpl; wp_step; (eapply wp_mono;
    [first [apply detach_effect|apply cancel_effect|apply njoin_effect|apply join_effect
      |apply ncreate_effect|apply create_effect]|]); intros; by wp_step.
Qed.
End Api.
