(* ===== verification/AppSteps.v ===== *)
(** * The steps of application threads

    What the thread of a local slot does to its rank: the calls of
    [libdthread/dt_threadops.c] up to their sleep, the wake-up, and the
    wrappers of [libdthread/dt_mgrthread.c] that start and end it.  Each leaves
    the queues of the MPI thread and the books alone; at most its own request
    is queued ([app_effect]). *)

From S2P Require Import Prelude Types Router Queuing ThreadTab Manager ManagerInv ManagerSafe Lifecycle Spawn Ledger ThreadOps Requests.

(** ** Code of the application

    The thread may fault in the application's own callbacks, so what follows
    speaks of the runs that return. *)
Definition wlp {S A} (m : M S A) (Q : A → S → Prop) (s : S) : Prop :=
  match m s with Ok (a, s') => Q a s' | Crash _ => True end.

Section Wlp.
Context {S : Type}.

Lemma wp_wlp {A} (m : M S A) Q s : wp m Q s → wlp m Q s.
Proof. unfold wp, wlp. by destruct (m s) as [[a s']|]. Qed.

Lemma wlp_ret {A} (a : A) (Q : A → S → Prop) s : Q a s → wlp (retM a) Q s.
Proof. done. Qed.

Lemma wlp_bind {A B} (m : M S A) (k : A → M S B) Q s :
  wlp m (λ a, wlp (k a) Q) s → wlp (bindM m k) Q s.
Proof. unfold wlp, bindM. by destruct (m s) as [[a s']|]. Qed.

Lemma wlp_mono {A} (m : M S A) (Q Q' : A → S → Prop) s :
  wlp m Q s → (∀ a s', Q a s' → Q' a s') → wlp m Q' s.
Proof. unfold wlp. destruct (m s) as [[a s']|]; auto. Qed.

Lemma wlp_when (b : bool) (m : M S unit) Q s :
  (b = true → wlp m Q s) → (b = false → Q tt s) → wlp (whenM b m) Q s.
Proof. destruct b; intros H1 H2; [by apply H1|by apply H2]. Qed.

Lemma wlp_get_some {A} f (o : option A) (Q : A → S → Prop) s :
  (∀ a, o = Some a → Q a s) → wlp (get_some f o) Q s.
Proof. destruct o; intros H; [by apply H|done]. Qed.
End Wlp.

(** ** Global entries the thread writes *)

(** Only the argument, the return value and the link to the local slot. *)
Definition gtab_like (g g' : dthread_gtab_t) : Prop :=
  gt_allocated g' = gt_allocated g ∧ gt_terminated g' = gt_terminated g ∧
  gt_disp_idx g' = gt_disp_idx g ∧ gt_seq g' = gt_seq g ∧ gt_detached g' = gt_detached g.

Definition gtab_sim : relation (list dthread_gtab_t) := Forall2 gtab_like.

#[export] Instance gtab_like_preorder : PreOrder gtab_like.
Proof. split; [by intros g|]. intros g1 g2 g3 (?&?&?&?&?) (?&?&?&?&?). split_and!; congruence. Qed.

#[export] Instance gtab_sim_preorder : PreOrder gtab_sim.
Proof. unfold gtab_sim. split; apply _. Qed.

Lemma gtab_sim_aset gt i g g' : aget gt i = Some g → gtab_like g g' → gtab_sim gt (aset gt i g').
Proof.
  intros Hg Hl. unfold aget in Hg. destruct (0 <=? i); [|done]. unfold aset.
  rewrite <- (list_insert_id gt (Z.to_nat i) g) at 1 by done. by apply Forall2_insert.
Qed.

Lemma gtab_sim_count (f : dthread_gtab_t → bool) gt gt' :
  (∀ g g', gtab_like g g' → f g' = f g) → gtab_sim gt gt' → count_if f gt' = count_if f gt.
Proof. intros Hf. induction 1 as [|g g' l l' H _ IH]; simpl; [done|]. by rewrite (Hf _ _ H), IH. Qed.

Lemma gtab_sim_used gt gt' : gtab_sim gt gt' → count_if gtab_used gt' = count_if gtab_used gt.
Proof. apply gtab_sim_count. intros g g' (E & _). by rewrite !gtab_used_eq, E. Qed.

Lemma gtab_sim_live gt gt' : gtab_sim gt gt' → count_if gtab_live gt' = count_if gtab_live gt.
Proof. apply gtab_sim_count. intros g g' (E & E' & _). unfold gtab_live. by rewrite !gtab_used_eq, E, E'. Qed.

Lemma gtab_sim_value cur gt gt' i : gtab_sim gt gt' →
  tally (gt_value cur) (indexed i gt') = tally (gt_value cur) (indexed i gt).
Proof.
  intros H. revert i. induction H as [|g g' l l' (E1 & E2 & _ & E3 & E4) _ IH]; intros i; simpl; [done|].
  rewrite IH. unfold gt_value, joinable, gtab_live. simpl. by rewrite !gtab_used_eq, E1, E2, E3, E4.
Qed.

Lemma gtab_sim_disp gt gt' : gtab_sim gt gt' → disp_wf gt → disp_wf gt'.
Proof.
  unfold disp_wf. induction 1 as [|g g' l l' (_ & _ & E & _) _ IH]; [done|].
  inversion 1; subst. constructor; [lia|auto].
Qed.

(** ** The effect of a step *)

(** The thread of slot [i], whose entry is [l]: it leaves its entry used for
    the same thread; its request is idle or done as before, or it is now queued,
    and then [hm] tells whether it holds a message. *)
Record app_effect (c : config) (i : Z) (l : dthread_ltab_t) (hm : list nat) (s s' : dtst) : Prop := {
  ae_dd : mpisq_draindown (dtq s') = mpisq_draindown (dtq s);
  ae_ndeq : mpindequeuedsends (dtq s') = mpindequeuedsends (dtq s);
  ae_send : mpisendq (dtq s') = mpisendq (dtq s);
  ae_recv : mpirecvq (dtq s') = mpirecvq (dtq s);
  ae_gtab : gtab_sim (gtab s) (gtab s');
  ae_ireqs : ireqs s' = ireqs s;
  ae_pend : rpending (mgrstate s') = rpending (mgrstate s);
  ae_self : ∃ l' hm', rank_ok c [] hm' s' ∧ ltab s' = aset (ltab s) i l' ∧
    lt_gtab_idx l' = lt_gtab_idx l ∧ lt_used l' ∧
    req_ltabidx (lt_req l') = req_ltabidx (lt_req l) ∧
    ((reqstate (lt_req l') ≠ DTREQ_BUSY ∧ mgrreqq (dtq s') = mgrreqq (dtq s) ∧ hm' = hm) ∨
     (reqstate (lt_req l') = DTREQ_BUSY ∧ mgrreqq (dtq s') = mgrreqq (dtq s) ++ [RLtab i] ∧
      if fwd_op (reqop (lt_req l')) then ∃ m, req_mqe (lt_req l') = Some m ∧ hm' = mid m :: hm ∧
        msg_wf (peer m) m ∧ hdr_op (frame m) = reqop (lt_req l')
      else hm' = hm)) }.

Section Effects.
Context (c : config) (e : env) (s : dtst) (i : Z) (l : dthread_ltab_t) (hm : list nat).
Context (H : rank_ok c [] hm s) (Hl : aget (ltab s) i = Some l) (Hu : lt_used l)
  (Hni : RLtab i ∉ rpending (mgrstate s)).

Lemma req_not_internal : reqstate (lt_req l) ≠ DTREQ_INTERNAL.
Proof using H Hl.
  apply (pi_lreq _ _ _ _ _ _ (ok_pend _ _ _ _ H) i). simpl. by rewrite Hl.
Qed.

(** The invariant after the thread wrote its own entry and global ones. *)
Lemma rank_ok_app s' l' : lt_used l' → reqstate (lt_req l') ≠ DTREQ_INTERNAL →
  ltab s' = aset (ltab s) i l' → gtab_sim (gtab s) (gtab s') → seqsrc s' = seqsrc s →
  ireqs s' = ireqs s → nmallocs s' = nmallocs s → rpending (mgrstate s') = rpending (mgrstate s) →
  threads_alloc (mgrstate s') = threads_alloc (mgrstate s) →
  ltab_alloc_cnt (mgrstate s') = ltab_alloc_cnt (mgrstate s) →
  last_slot (mgrstate s') = last_slot (mgrstate s) →
  ltab_lastslot (mgrstate s') = ltab_lastslot (mgrstate s) →
  dtq_wf (dtq s') → mids (dtq s') = mids (dtq s) → nmqe (dtq s') = nmqe (dtq s) →
  reqfree (dtq s') = reqfree (dtq s) → rank_ok c [] hm s'.
Proof using H Hl Hu Hni.
  intros Hu' Hst El Eg Es Ei En Ep E1 E2 E3 E4 Hq Em Enq Ef. pose proof H as [[] Hs _ Ho Hp].
  split; [|by rewrite Es|done| |].
  - split; rewrite ?El, ?E1, ?E2, ?E3, ?E4, ?length_aset, ?(gtab_sim_used _ _ Eg), ?(count_if_aset _ _ _ _ _ Hl); try done.
    + by rewrite <- (Forall2_length _ _ _ Eg).
    + rewrite !ltab_used_eq, (proj2 (Z.eqb_neq _ _) Hu), (proj2 (Z.eqb_neq _ _) Hu'). simpl. lia.
  - unfold owned. rewrite Em, En, Enq. exact Ho.
  - rewrite En, Ep, Ef. pose proof (aget_Some_range _ _ _ Hl).
    eapply (pend_inv_write c (req_lookup s) (req_lookup s') _ _ _ _ (RLtab i)); [exact Hni| | | | |exact Hp].
    + simpl. by rewrite Hl.
    + simpl. by rewrite El, aget_aset_eq.
    + intros [j|id] Hne; simpl; [|by rewrite Ei]. rewrite El, aget_aset_ne; [done|lia|congruence].
    + pose proof req_not_internal. tauto.
Qed.

(** A step that queues nothing. *)
Lemma app_effect_quiet s' l' : ltab s' = aset (ltab s) i l' → lt_gtab_idx l' = lt_gtab_idx l →
  lt_used l' → req_ltabidx (lt_req l') = req_ltabidx (lt_req l) →
  reqstate (lt_req l') ≠ DTREQ_BUSY → reqstate (lt_req l') ≠ DTREQ_INTERNAL → gtab_sim (gtab s) (gtab s') →
  s' = s <| ltab := ltab s' |> <| gtab := gtab s' |> → app_effect c i l hm s s'.
Proof using H Hl Hu Hni.
  intros El Eg Hu' Ei Hb Hst Hsim Es.
  assert (rank_ok c [] hm s') as H'.
  { eapply (rank_ok_app s' l'); [done|done|done|done|rewrite Es; try done..]. apply H. }
  split; try (by rewrite Es); try done. exists l', hm. split_and!; try done. left. by rewrite Es.
Qed.

(** The queues after a request was queued. *)
Definition enqueued (q : dtq_state) : dtq_state :=
  let was_empty := mgr_idle q in
  let len := mgrrqlen q + 1 in
  let q := q <| mgrreqq := mgrreqq q ++ [RLtab i] |> <| mgrrqlen := len |>
             <| mgrmaxrqlen := if mgrmaxrqlen q <? len then len else mgrmaxrqlen q |> in
  if was_empty then mgr_signal q else q.

(** The end of a thread: its request, without a message, is queued. *)
Lemma app_effect_ends s' l' : ltab s' = aset (ltab s) i l' → lt_gtab_idx l' = lt_gtab_idx l →
  lt_used l' → req_ltabidx (lt_req l') = req_ltabidx (lt_req l) →
  reqstate (lt_req l') = DTREQ_BUSY → fwd_op (reqop (lt_req l')) = false →
  gtab_sim (gtab s) (gtab s') →
  (∃ v, s' = s <| ltab := ltab s' |> <| gtab := gtab s' |> <| dtq ::= enqueued |>
               <| mgrstate ::= (λ g, g <| app0exitval := v |>) |>) →
  app_effect c i l hm s s'.
Proof using H Hl Hu Hni.
  intros El Eg Hu' Ei Hb Hop Hsim (v & Es).
  assert (mpisq_draindown (enqueued (dtq s)) = mpisq_draindown (dtq s) ∧
    mpindequeuedsends (enqueued (dtq s)) = mpindequeuedsends (dtq s) ∧
    mpisendq (enqueued (dtq s)) = mpisendq (dtq s) ∧ mpirecvq (enqueued (dtq s)) = mpirecvq (dtq s) ∧
    mgrreqq (enqueued (dtq s)) = mgrreqq (dtq s) ++ [RLtab i] ∧ mids (enqueued (dtq s)) = mids (dtq s) ∧
    nmqe (enqueued (dtq s)) = nmqe (dtq s) ∧ reqfree (enqueued (dtq s)) = reqfree (dtq s))
    as (Q1 & Q2 & Q3 & Q4 & Q5 & Q6 & Q7 & Q8) by (unfold enqueued, mids; by destruct (mgr_idle (dtq s))).
  assert (rank_ok c [] hm s') as H'.
  { eapply (rank_ok_app s' l'); [done|by rewrite Hb|done|done|rewrite Es; try done..].
    apply (dtq_wf_req_enqueue (dtq s) (RLtab i)), H. }
  split; try (by rewrite Es); try done. exists l', hm. split_and!; try done. right. rewrite Hop. by rewrite Es.
Qed.

(** Reading and writing the global table. *)
Lemma step_gget gt j (Q : dthread_gtab_t → dtst → Prop) :
  (∀ g, aget gt j = Some g → Q g (s <| gtab := gt |>)) → wlp (gtab_get j) Q (s <| gtab := gt |>).
Proof using. intros HQ. unfold gtab_get. apply wlp_bind, wlp_get_some. exact HQ. Qed.

Lemma step_lget gt (Q : dthread_ltab_t → dtst → Prop) :
  Q l (s <| gtab := gt |>) → wlp (ltab_get i) Q (s <| gtab := gt |>).
Proof using Hl. intros HQ. unfold ltab_get. apply wlp_bind, wlp_get_some. simpl. rewrite Hl. by intros ? [= <-]. Qed.

Lemma step_gput gt j g g' (Q : unit → dtst → Prop) : gtab_sim (gtab s) gt → aget gt j = Some g → gtab_like g g' →
  (∀ gt', gt' = aset gt j g' → gtab_sim (gtab s) gt' → Q tt (s <| gtab := gt' |>)) →
  wlp (gtab_put j g') Q (s <| gtab := gt |>).
Proof using. intros Hs Hg Hlk HQ. apply (HQ (aset gt j g')); [done|]. etrans; [exact Hs|]. by eapply gtab_sim_aset. Qed.

(** [retclean_request] queues the end of the thread. *)
Lemma retclean_request_effect gt f : f ≠ LT_NONE → gtab_sim (gtab s) gt →
  wlp (retclean_request i f) (λ _ s', app_effect c i l hm s s') (s <| gtab := gt |>).
Proof using H Hl Hu Hni.
  intros Hf Hs. pose proof (aget_Some_range _ _ _ Hl). unfold retclean_request.
  apply wlp_bind, step_lget. cbv zeta. set (st := if LT_NEED_FINALSTATE _ then _ else _).
  assert (st ≠ LT_NONE) as Hst by (unfold st, lt_used in *; by case_match).
  set (l1 := l <| lt_pth_state := st |>). apply wlp_bind. unfold wlp at 1, ltab_put, modify.
  apply wlp_bind. eapply wlp_mono with (Q := λ _ s', ∃ gt', gtab_sim (gtab s) gt' ∧
    s' = s <| gtab := gt' |> <| ltab := aset (ltab s) i l1 |>).
  - apply wlp_when; [intros _|by eauto]. apply wlp_bind. unfold gtab_get. apply wlp_bind, wlp_get_some. simpl.
    intros g Hg. eexists. split; [|reflexivity]. etrans; [exact Hs|]. by eapply gtab_sim_aset.
  - intros [] s1 (gt' & Hs' & ->). apply wlp_bind. unfold req_get. apply wlp_bind, wlp_get_some. simpl.
    rewrite aget_aset_eq by done. simpl. intros q [= <-]. apply wlp_bind. unfold wlp, req_put, modify, dtq_req_enqueue, upd_dtq, modify.
    simpl. rewrite aget_aset_eq by done. simpl. rewrite aset_aset.
    eapply app_effect_ends; try reflexivity; try done. by exists (app0exitval (mgrstate s)); destruct s as [? ? ? ? ? []].
Qed.
End Effects.

(** ** What a thread does *)

(** A call up to its sleep, the wake-up, the wrapper up to the start function,
    the two ways to exit, the wrapper's end, and the main thread's wrapper. *)
Inductive app_act :=
  | ActCall (a : api) (setcancel_rv : Z) (attr_default : pthread_attr_t) (sched : Z * Z * Z)
  | ActCollect
  | ActStart (setspecific_ok : bool)
  | ActNexit (ret : option dthread_argret_t)
  | ActExit (ret : Z)
  | ActFinish (ws : dt_wrapstate) (gidx : Z) (r : app_end)
  | ActApp0 (setspecific_ok : bool) (r : option Z).

Definition app_run (c : config) (e : env) (i : Z) (a : app_act) : M dtst unit :=
  match a with
  | ActCall a rv attr sched => api_call c e i rv attr sched a ;;; retM tt
  | ActCollect => collect i ;;; retM tt
  | ActStart ok => dthreadwrap_start c e i ok ;;; retM tt
  | ActNexit ret => dthread_nexit c e (Some i) ret ;;; retM tt
  | ActExit ret => dthread_exit c e (Some i) ret ;;; retM tt
  | ActFinish ws gidx r => dthreadwrap_finish e ws gidx r
  | ActApp0 ok r => app0wrap ok r
  end.

(** When the thread of slot [i], with entry [l], may do it: it is not asleep,
    it wakes up once its request is done, the wrapper state is its own, and the
    main thread is that of slot 0. *)
Definition app_may (i : Z) (l : dthread_ltab_t) (a : app_act) : Prop :=
  lt_used l ∧
  match a with
  | ActCollect => reqstate (lt_req l) = DTREQ_DONE
  | ActFinish ws gidx _ => reqstate (lt_req l) = DTREQ_IDLE ∧ ws_lidx ws = i ∧ gidx = lt_gtab_idx l
  | ActApp0 _ _ => reqstate (lt_req l) = DTREQ_IDLE ∧ i = 0
  | _ => reqstate (lt_req l) = DTREQ_IDLE
  end.

Lemma gtab_id (s : dtst) : s <| gtab := gtab s |> = s.
Proof. by destruct s. Qed.

(** Starts a run with the global table in view. *)
Ltac from_gtab :=
  match goal with |- wlp ?m ?Q ?s => cut (wlp m Q (s <| gtab := gtab s |>)); [by rewrite gtab_id|] end.

Section Acts.
Context (c : config) (e : env) (s : dtst) (i : Z) (l : dthread_ltab_t) (hm : list nat).
Context (H : rank_ok c [] hm s) (Hl : aget (ltab s) i = Some l) (Hu : lt_used l)
  (Hidx : req_ltabidx (lt_req l) = i) (Hni : RLtab i ∉ rpending (mgrstate s)).
Abbreviation effect := (app_effect c i l hm s).

(** The entry as it was, or in another state. *)
Lemma quiet_state gt st : gtab_sim (gtab s) gt → st ≠ LT_NONE → reqstate (lt_req l) ≠ DTREQ_BUSY →
  effect (s <| gtab := gt |> <| ltab := aset (ltab s) i (l <| lt_pth_state := st |>) |>).
Proof using H Hl Hu Hni.
  intros Hs Hst Hb. eapply app_effect_quiet; try reflexivity; try done. exact (req_not_internal c s i l hm H Hl).
Qed.

Lemma quiet_same gt : gtab_sim (gtab s) gt → reqstate (lt_req l) ≠ DTREQ_BUSY → effect (s <| gtab := gt |>).
Proof using H Hl Hu Hni.
  intros Hs Hb. eapply (app_effect_quiet c s i l hm H Hl Hu Hni _ l); try done.
  - pose proof Hl as Hl'. unfold aget in Hl'. destruct (0 <=? i); [|done]. simpl. symmetry. by apply list_insert_id.
  - by eapply req_not_internal.
Qed.

Lemma call_app s' b : call_effect c i l hm s b s' → reqstate (lt_req l) = DTREQ_IDLE → effect s'.
Proof using H Hl Hu.
  intros [] Hidle. split; try done; [by rewrite ce_gtab|]. destruct b.
  - destruct ce_self as (m & q & Hr & Eq & El & Ei & Es & Em & Hw & Ho & Hf).
    exists (l <| lt_req := q |>), (mid m :: hm). split_and!; try done. right. simpl. rewrite Hf. split_and!; try done. by exists m.
  - destruct ce_self as (Hr & Eq & El). exists l, hm. split_and!; try done.
    + pose proof Hl as Hl'. unfold aget in Hl'. destruct (0 <=? i); [|done]. rewrite El. symmetry. by apply list_insert_id.
    + left. by rewrite Hidle.
Qed.

Lemma collect_effect : reqstate (lt_req l) = DTREQ_DONE → wlp (collect i) (λ _, effect) s.
Proof using H Hl Hu Hni.
  intros _. from_gtab. unfold collect. apply wlp_bind, (step_lget s i l Hl).
  eapply app_effect_quiet; try reflexivity; done.
Qed.

Lemma exit_effect native ret v : reqstate (lt_req l) = DTREQ_IDLE →
  wlp (dthread_exit_common c e (Some i) native ret v) (λ _, effect) s.
Proof using H Hl Hu Hni.
  intros Hidle. from_gtab. assert (reqstate (lt_req l) ≠ DTREQ_BUSY) as Hb by (by rewrite Hidle).
  unfold dthread_exit_common. apply wlp_bind, (step_lget s i l Hl).
  case_match; [by apply wlp_ret, quiet_same|]. apply wlp_bind, step_gget. intros g Hg.
  case_match; [by apply wlp_ret, quiet_same|]. cbv zeta. set (g1 := g <| gt_ret ::= _ |>).
  assert (∀ r, gtab_like g (g1 <| gt_ret := r |>)) as Hlk by done. apply wlp_bind.
  eapply wlp_mono with (Q := λ _ s', ∃ gt, s' = s <| gtab := gt |> ∧ gtab_sim (gtab s) gt).
  - assert (∀ g', gtab_like g g' → wlp (gtab_put (lt_gtab_idx l) g') (λ _ s', ∃ gt, s' = s <| gtab := gt |> ∧
      gtab_sim (gtab s) gt) (s <| gtab := gtab s |>)) as Hput.
    { intros g' Hg'. eapply step_gput; [done|exact Hg|done|]. eauto. }
    case_match; [by apply Hput|]. unfold dispatch. apply wlp_bind, wlp_get_some. intros d _. cbv zeta.
    destruct native; [apply Hput; by repeat case_match|]. case_match; [by apply Hput|].
    unfold proc_call. apply wlp_bind. case_match; [done|].
    destruct (call_proc e (dt_retproc d) DTHREAD_PROC_ENCODE (gt_ret g1) v) as [[prv r] v']. unfold wlp at 1, retM.
    case_match; [by apply Hput|]. apply wlp_bind. by apply Hput.
  - intros _ s1 (gt & -> & Hs). apply wlp_bind, (step_lget s i l Hl). apply wlp_bind. by apply quiet_state.
Qed.

(** A callback: it faults when there is none. *)
Lemma step_proc gt fn op a p (Q : Z * dthread_argret_t * Z → dtst → Prop) :
  (∀ x, Q x (s <| gtab := gt |>)) → wlp (proc_call e fn op a p) Q (s <| gtab := gt |>).
Proof using. intros HQ. unfold proc_call. case_match; [done|]. apply wlp_ret, HQ. Qed.

Lemma start_effect ok : reqstate (lt_req l) = DTREQ_IDLE →
  wlp (dthreadwrap_start c e i ok) (λ _, effect) s.
Proof using H Hl Hu Hni.
  intros Hidle. from_gtab. assert (reqstate (lt_req l) ≠ DTREQ_BUSY) as Hb by (by rewrite Hidle).
  assert (∀ gt, gtab_sim (gtab s) gt → wlp (retclean_request i LT_CANCELED ;;; retM (@None (dt_wrapstate * Z)))
    (λ _, effect) (s <| gtab := gt |>)) as Hrc.
  { intros gt Hs. apply wlp_bind. eapply wlp_mono; [by apply retclean_request_effect|]. done. }
  unfold dthreadwrap_start. case_match; [by apply wlp_ret, quiet_same|].
  apply wlp_bind, (step_lget s i l Hl). cbv zeta. case_match; [by apply wlp_ret, quiet_same|].
  apply wlp_bind, step_gget. intros g Hg. case_match; [by apply wlp_ret, quiet_same|].
  case_match; [by apply Hrc|]. case_match; [by apply Hrc|].
  apply wlp_bind, wlp_get_some. intros d _. apply wlp_bind.
  eapply wlp_mono with (Q := λ o s', match o with None => effect s'
    | Some _ => ∃ gt, s' = s <| gtab := gt |> ∧ gtab_sim (gtab s) gt end).
  - case_match; [apply wlp_ret; by eexists|]. apply wlp_bind, step_proc. intros [[rv arg] dec].
    apply wlp_bind. eapply step_gput; [done|exact Hg|done|]. intros gt' _ Hs. case_match; [apply wlp_ret; by eexists|].
    apply wlp_bind. eapply wlp_mono; [by apply retclean_request_effect|]. done.
  - intros [dec|] s1; [|done]. intros (gt & -> & Hs). apply wlp_bind, step_gget. intros g' Hg'. apply wlp_bind.
    eapply step_gput; [done|exact Hg'|done|]. intros gt' _ Hs'. apply wlp_bind, (step_lget s i l Hl). apply wlp_bind.
    by apply quiet_state.
Qed.

Lemma cleanup_effect gt ws : ws_lidx ws = i → gtab_sim (gtab s) gt →
  wlp (dthreadcleanup e ws) (λ _, effect) (s <| gtab := gt |>).
Proof using H Hl Hu Hni.
  intros Hw Hs. unfold dthreadcleanup. rewrite Hw. apply wlp_bind, (step_lget s i l Hl). cbv zeta. apply wlp_bind.
  eapply wlp_mono with (Q := λ f s', f ≠ LT_NONE ∧ ∃ gt, s' = s <| gtab := gt |> ∧ gtab_sim (gtab s) gt).
  - case_match; [apply wlp_ret; split; [by case_match|by eexists]|]. apply wlp_bind, step_gget. intros g Hg.
    apply wlp_bind, step_proc. intros [[? arg] ?]. apply wlp_bind. eapply step_gput; [done|exact Hg|done|].
    intros gt1 _ Hs1. case_match; [apply wlp_ret; split; [by case_match|by eexists]|].
    apply wlp_bind, step_gget. intros g1 Hg1. apply wlp_bind, step_proc. intros [[rv ret] ?].
    case_match; apply wlp_bind; (eapply step_gput; [done|exact Hg1|done|]); intros gt2 _ Hs2; apply wlp_ret;
      (split; [by try case_match|by eexists]).
  - intros f s1 (Hf & gt1 & -> & Hs1). by apply retclean_request_effect.
Qed.

Lemma finish_effect ws gidx r : ws_lidx ws = i → wlp (dthreadwrap_finish e ws gidx r) (λ _, effect) s.
Proof using H Hl Hu Hni.
  intros Hw. from_gtab. unfold dthreadwrap_finish. destruct r as [ret p|]; [|by apply cleanup_effect].
  case_match; [|by apply cleanup_effect]. apply wlp_bind, step_gget. intros g Hg. apply wlp_bind.
  eapply step_gput; [done|exact Hg|done|]. intros gt _ Hs. by apply cleanup_effect.
Qed.

Lemma app0_effect ok r : i = 0 → wlp (app0wrap ok r) (λ _, effect) s.
Proof using H Hl Hu Hni Hidx.
  intros ->. from_gtab. unfold app0wrap, app0cleanup. pose proof (aget_Some_range _ _ _ Hl).
  case_match; [by apply retclean_request_effect|]. destruct r as [v|]; [|by apply retclean_request_effect].
  apply wlp_bind. unfold wlp at 1, upd_mgr, modify. apply wlp_bind. unfold ltab_get. apply wlp_bind, wlp_get_some. simpl.
  rewrite Hl. intros ? [= <-]. apply wlp_bind. unfold wlp at 1, ltab_put, modify.
  unfold wlp, dtq_req_enqueue, upd_dtq, modify. simpl.
  eapply app_effect_ends; try reflexivity; try done. by exists v.
Qed.

(** Every step of a thread. *)
Lemma app_run_effect a : app_may i l a → disp_wf (gtab s) → wlp (app_run c e i a) (λ _, effect) s.
Proof using H Hl Hu Hidx Hni.
  intros [_ Hm] Hd. destruct a; cbn [app_run]; try apply wlp_bind.
  - eapply wlp_mono; [apply wp_wlp; apply (api_call_effect _ _ _ _ _ _ s l hm); try done; intros j g; by apply disp_wf_get|].
    intros b s' He. by eapply call_app.
  - eapply wlp_mono; [by apply collect_effect|done].
  - eapply wlp_mono; [by apply start_effect|done].
  - eapply wlp_mono; [by apply exit_effect|done].
  - eapply wlp_mono; [by apply exit_effect|done].
  - apply finish_effect. by destruct Hm as (_ & ? & _).
  - apply app0_effect. by destruct Hm.
Qed.
End Acts.
