(* ===== verification/Node.v ===== *)
(** * The threads of one rank

    The main loop of the manager ([mgr_main] of [libdthread/dt_mgrthread.c]),
    the queue side of the MPI thread and the application threads of a rank, as
    interleaved steps.  A step takes packets from the network and puts packets
    on it; [Job] joins the ranks. *)

From S2P Require Import Prelude Types Router Queuing ThreadTab Manager ManagerInv ManagerSafe Lifecycle Spawn Ledger ThreadOps Requests AppSteps.

(** A message between two ranks. *)
Record packet := Packet {
  p_src : Z;
  p_dst : Z;
  p_frame : dtframe;
  p_len : Z }.

(** Where the manager is in its loop: at the top, before [dtq_notifywait],
    asleep in it, with what it returned, after the message, or out. *)
Inductive mgr_at :=
  | AtTop
  | AtWait
  | Asleep
  | AtWork (m : option dtq_mpiqentry) (r : option reqref)
  | AtReq (r : option reqref)
  | LeftLoop.

(** A rank; [out] are the entries the MPI thread has sent and not released. *)
Record node := Node {
  st : dtst;
  pc : mgr_at;
  out : list dtq_mpiqentry }.

Section Steps.
Context (c : config) (e : env).

(** The two halves of the loop body. *)
Definition work_mqe (m : option dtq_mpiqentry) : M dtst unit :=
  match m with Some m => process_mqe c e m | None => retM tt end.

Definition work_req (r : option reqref) : M dtst unit :=
  match r with Some r => process_req c e r | None => retM tt end.

(** [mpimqerecv] of a packet. *)
Definition recv_packet (p : packet) : M dtst bool :=
  o <- dtq_mqe_alloc e;;
  match o with
  | None => retM false
  | Some m => dtq_recv_enqueue (Mqe (mid m) (p_frame p) (p_len p) (p_src p)) ;;; retM true
  end.

(** The packet of a send. *)
Definition send_packet (m : dtq_mpiqentry) : packet :=
  Packet (mpi_rank c) (peer m) (frame m) (flen m).

(** [mgr_main]: the next step of its loop; [dtq_notifywait] is two. *)
Definition mgr_main_step (n : node) : outcome node :=
  match pc n with
  | AtTop =>
      match mgr_loop_top c e (st n) with
      | Ok (stop, s') => Ok (Node s' (if stop then LeftLoop else AtWait) (out n))
      | Crash f => Crash f
      end
  | AtWait =>
      match dtq_notifywait_enter (st n) with
      | Ok (Some (m, r), s') => Ok (Node s' (AtWork m r) (out n))
      | Ok (None, s') => Ok (Node s' Asleep (out n))
      | Crash f => Crash f
      end
  | Asleep =>
      match dtq_notifywait_wake (st n) with
      | Ok ((m, r), s') => Ok (Node s' (AtWork m r) (out n))
      | Crash f => Crash f
      end
  | AtWork m r =>
      match work_mqe m (st n) with
      | Ok (_, s') => Ok (Node s' (AtReq r) (out n))
      | Crash f => Crash f
      end
  | AtReq r =>
      match work_req r (st n) with
      | Ok (_, s') => Ok (Node s' AtTop (out n))
      | Crash f => Crash f
      end
  | LeftLoop => Ok n
  end.

(** [rank_step n ins outs n']: the rank goes from [n] to [n'], takes the
    packets [ins] and sends [outs]. *)
Inductive rank_step (n : node) : list packet → list packet → node → Prop :=
  | r_mgr n' : mgr_main_step n = Ok n' → rank_step n [] [] n'
  | r_send m s' : dtq_send_dequeue (st n) = Ok (Some m, s') →
      rank_step n [] [send_packet m] (Node s' (pc n) (m :: out n))
  | r_sent m k s' : out n ≡ₚ m :: k → dtq_send_release m (st n) = Ok (tt, s') →
      rank_step n [] [] (Node s' (pc n) k)
  | r_recv p s' : p_dst p = mpi_rank c → recv_packet p (st n) = Ok (true, s') →
      rank_step n [p] [] (Node s' (pc n) (out n))
  | r_app i l a s' : aget (ltab (st n)) i = Some l → app_may i l a →
      app_run c e i a (st n) = Ok (tt, s') →
      rank_step n [] [] (Node s' (pc n) (out n)).
End Steps.

(** ** The invariant of the threads *)

(** The requests that wait for the manager are [rs]; each is of a thread that
    sleeps.  A sleeping thread's request is among them or pending. *)
Record threads_ok (c : config) (s : dtst) (rs : list reqref) : Prop := {
  to_disp : disp_wf (gtab s);
  to_ltab : ∀ i l, aget (ltab s) i = Some l → req_ltabidx (lt_req l) = i ∧
    (lt_used l → 0 ≤ lt_gtab_idx l < nmaxthread c);
  to_nodup : NoDup rs;
  to_queue : ∀ r, r ∈ rs → ∃ i l, r = RLtab i ∧ queued_ok c s i l;
  to_pend : ∀ i l, RLtab i ∈ rpending (mgrstate s) → aget (ltab s) i = Some l →
    reqstate (lt_req l) = DTREQ_BUSY ∧ lt_used l;
  to_busy : ∀ i l, aget (ltab s) i = Some l → reqstate (lt_req l) = DTREQ_BUSY →
    RLtab i ∈ rs ∨ RLtab i ∈ rpending (mgrstate s) }.

(** The messages these requests carry. *)
Definition req_mid (s : dtst) (r : reqref) : option nat :=
  q ← req_lookup s r; if fwd_op (reqop q) then mid <$> req_mqe q else None.

Definition req_mids (s : dtst) (rs : list reqref) : list nat := omap (req_mid s) rs.

Lemma req_mids_ext s s' rs : (∀ r, r ∈ rs → req_lookup s' r = req_lookup s r) →
  req_mids s' rs = req_mids s rs.
Proof.
  unfold req_mids. induction rs as [|r rs IH]; intros Hr; [done|]. csimpl.
  rewrite IH by (intros; apply Hr; by right). unfold req_mid at 1 3. by rewrite Hr by left.
Qed.

Lemma req_mids_app s rs rs' : req_mids s (rs ++ rs') = req_mids s rs ++ req_mids s rs'.
Proof. apply omap_app. Qed.

Section Threads.
Context (c : config).
Implicit Types (s : dtst) (rs : list reqref) (hm : list nat).

Lemma queued_ok_same s s' i l : ltab s' = ltab s → rpending (mgrstate s') = rpending (mgrstate s) →
  queued_ok c s i l → queued_ok c s' i l.
Proof. intros El Ep []. split; rewrite ?El, ?Ep; done. Qed.

Lemma threads_ok_same s s' rs : ltab s' = ltab s → gtab s' = gtab s →
  rpending (mgrstate s') = rpending (mgrstate s) → threads_ok c s rs → threads_ok c s' rs.
Proof.
  intros El Eg Ep []. split; rewrite ?El, ?Eg, ?Ep; try done.
  intros r Hr. destruct (to_queue0 r Hr) as (i & l & -> & Hq). exists i, l. split; [done|].
  by eapply queued_ok_same.
Qed.

(** A thread that is not asleep waits for nothing. *)
Lemma awake_free s rs i l : threads_ok c s rs → aget (ltab s) i = Some l →
  reqstate (lt_req l) ≠ DTREQ_BUSY → (RLtab i ∉ rs) ∧ RLtab i ∉ rpending (mgrstate s).
Proof.
  intros [] Hl Hb. split; intros Hi.
  - destruct (to_queue0 _ Hi) as (j & l' & [= <-] & []). congruence.
  - by destruct (to_pend0 i l Hi Hl).
Qed.

(** The requests are untouched where the threads are. *)
Lemma lframe_req s s' i l l' : lframe c s s' → aget (ltab s) i = Some l → aget (ltab s') i = Some l' →
  RLtab i ∉ rpending (mgrstate s) → lt_req l' = lt_req l.
Proof. intros [] Hl Hl' Hi. destruct (lf_ltab _ _ Hl') as (l0 & Hl0 & _ & _ & _ & Hr & _). simplify_eq. auto. Qed.

Lemma threads_ok_lframe s s' rs : length (ltab s') = length (ltab s) → lframe c s s' →
  threads_ok c s rs → threads_ok c s' rs ∧ req_mids s' rs = req_mids s rs.
Proof.
  intros Hlen Hf Ht. pose proof Hf as [Lp Lq Ln Ld Ll]. pose proof Ht as [T1 T2 T3 T4 T5 T6].
  assert (∀ i l, queued_ok c s i l → ∃ l', queued_ok c s' i l' ∧ lt_req l' = lt_req l) as Hq.
  { intros i l []. destruct (aget_is_Some (ltab s') i) as [l' Hl'].
    { apply aget_Some_range in qo_ltab. lia. }
    destruct (Ll _ _ Hl') as (l0 & Hl0 & Ei & Hu & _ & Hr & _). simplify_eq.
    specialize (Hr (or_introl qo_pend)). destruct (Hu qo_used) as [Hu' Eg]. exists l'. split; [|done].
    split; rewrite ?Hr; try done; [by rewrite Eg|]. intros Hi. by apply qo_pend, Lp. }
  split; [split|].
  - by apply Ld.
  - intros i l Hl. destruct (Ll _ _ Hl) as (l0 & Hl0 & Ei & Hu & Hv & _). destruct (T2 _ _ Hl0) as [Hi Hg].
    split; [congruence|]. intros [Hu0|?]%Hv; [|done]. destruct (Hu Hu0) as [_ ->]. auto.
  - done.
  - intros r Hr. destruct (T4 r Hr) as (i & l & -> & Hql). destruct (Hq _ _ Hql) as (l' & ? & _). eauto.
  - intros i l Hi Hl. destruct (Ll _ _ Hl) as (l0 & Hl0 & _ & Hu & _ & Hr & _).
    rewrite (Hr (or_intror Hi)). destruct (T5 _ _ (Lp _ Hi) Hl0) as [? Hu0]. by destruct (Hu Hu0).
  - intros i l Hl Hb. destruct (Ll _ _ Hl) as (l0 & Hl0 & _ & _ & _ & Hr & Hn).
    destruct (decide (RLtab i ∈ rpending (mgrstate s'))) as [|Hi']; [by right|]. left.
    destruct (decide (RLtab i ∈ rpending (mgrstate s))) as [Hi|Hi]; [by destruct (Hn Hi Hi')|].
    rewrite (Hr (or_introl Hi)) in Hb. by destruct (T6 _ _ Hl0 Hb).
  - apply req_mids_ext. intros r Hr. destruct (T4 r Hr) as (i & l & -> & Hql). simpl.
    destruct (Hq _ _ Hql) as (l' & [] & E). destruct Hql. rewrite qo_ltab, qo_ltab0. simpl. by rewrite E.
Qed.

(** The request at the head is processed. *)
Lemma threads_ok_req s s' rs i l : aget (ltab s) i = Some l → req_effect c i l s s' →
  threads_ok c s (RLtab i :: rs) → threads_ok c s' rs ∧ req_mids s' rs = req_mids s rs.
Proof.
  intros Hl [Rq Rn Ro Rs Rc Rl Ru _ _ _ _ Rd] [T1 T2 T3 T4 T5 T6]. destruct Rs as (l' & Hl' & Ei & Eg & Hp & Hnp).
  apply NoDup_cons in T3 as [Hni T3].
  assert (∀ r, r ∈ rs → ∃ j lj, r = RLtab j ∧ j ≠ i ∧ queued_ok c s j lj) as Hq.
  { intros r Hr. destruct (T4 r ltac:(by right)) as (j & lj & -> & Hq). exists j, lj. split_and!; try done. congruence. }
  assert (queued_ok c s i l) as Hqi.
  { destruct (T4 (RLtab i) ltac:(by left)) as (j & lj & [= <-] & Hq'). pose proof (qo_ltab _ _ _ _ Hq'). by simplify_eq. }
  split; [split|].
  - by apply Rd.
  - intros j lj Hj. destruct (decide (j = i)) as [->|Hne].
    + simplify_eq. destruct (T2 _ _ Hl) as [? _]. split; [congruence|]. rewrite Eg. intros _. apply Hqi.
    + rewrite (proj1 (Ro j Hne)) in Hj. by apply T2.
  - done.
  - intros r Hr. destruct (Hq r Hr) as (j & lj & -> & Hne & []). exists j, lj. split; [done|].
    destruct (Ro j Hne) as [E1 E2]. split; try done; [by rewrite E1|]. by rewrite E2.
  - intros j lj Hj Hlj. destruct (decide (j = i)) as [->|Hne]; [simplify_eq; by apply Hp|].
    destruct (Ro j Hne) as [E1 E2]. rewrite E2 in Hj. rewrite E1 in Hlj. by apply T5 with j.
  - intros j lj Hj Hb. destruct (decide (j = i)) as [->|Hne].
    + simplify_eq. right. destruct (decide (RLtab i ∈ rpending (mgrstate s'))) as [|Hn]; [done|]. by destruct (Hnp Hn).
    + destruct (Ro j Hne) as [E1 E2]. rewrite E1 in Hj. destruct (T6 _ _ Hj Hb) as [[?|?]%elem_of_cons|?]; [congruence|by left|].
      right. by apply E2.
  - apply req_mids_ext. intros r Hr. destruct (Hq r Hr) as (j & lj & -> & Hne & _). simpl. by rewrite (proj1 (Ro j Hne)).
Qed.

(** A step of an application thread. *)
Lemma threads_ok_app s s' rs i l hm : aget (ltab s) i = Some l → lt_used l →
  reqstate (lt_req l) ≠ DTREQ_BUSY → app_effect c i l hm s s' → threads_ok c s rs →
  mgrreqq (dtq s') = mgrreqq (dtq s) ∧ threads_ok c s' rs ∧ req_mids s' rs = req_mids s rs ∧ rank_ok c [] hm s' ∨
  mgrreqq (dtq s') = mgrreqq (dtq s) ++ [RLtab i] ∧ threads_ok c s' (rs ++ [RLtab i]) ∧
    ∃ hm', req_mids s' (rs ++ [RLtab i]) = req_mids s rs ++ hm' ∧ rank_ok c [] (hm' ++ hm) s'.
Proof.
  intros Hl Hu Hb [A1 A2 A3 A4 A5 A6 A7 (l' & hm' & Hok & El & Eg & Hu' & Ei & Hst)] Ht.
  pose proof (awake_free _ _ _ _ Ht Hl Hb) as [Hnr Hnp]. pose proof Ht as [T1 T2 T3 T4 T5 T6].
  pose proof (aget_Some_range _ _ _ Hl) as Hr. destruct (T2 _ _ Hl) as [Hi Hg].
  assert (aget (ltab s') i = Some l') as Hl' by (by rewrite El, aget_aset_eq).
  assert (∀ j, j ≠ i → aget (ltab s') j = aget (ltab s) j) as Hne by (intros j ?; rewrite El, aget_aset_ne by lia; done).
  assert (∀ j lj, queued_ok c s j lj → queued_ok c s' j lj) as Hq.
  { intros j lj []. split; try done; [|by rewrite A7]. rewrite Hne; [done|]. intros ->. by simplify_eq. }
  assert (disp_wf (gtab s')) as D1 by (by eapply gtab_sim_disp).
  assert (∀ j lj, aget (ltab s') j = Some lj → req_ltabidx (lt_req lj) = j ∧ (lt_used lj → 0 ≤ lt_gtab_idx lj < nmaxthread c)) as D2.
  { intros j lj Hj. destruct (decide (j = i)) as [->|Hn]; [simplify_eq; split; [congruence|rewrite Eg; auto]|].
    rewrite Hne in Hj by done. by apply T2. }
  assert (∀ r, r ∈ rs → ∃ j lj, r = RLtab j ∧ queued_ok c s' j lj) as D4.
  { intros r Hrr. destruct (T4 _ Hrr) as (j & lj & -> & ?). eauto. }
  assert (∀ j lj, RLtab j ∈ rpending (mgrstate s') → aget (ltab s') j = Some lj → reqstate (lt_req lj) = DTREQ_BUSY ∧ lt_used lj) as D5.
  { rewrite A7. intros j lj Hj Hlj. rewrite Hne in Hlj by congruence. by apply T5 with j. }
  assert (req_mids s' rs = req_mids s rs) as Em.
  { apply req_mids_ext. intros r Hrr. destruct (T4 _ Hrr) as (j & lj & -> & ?). simpl. rewrite Hne; [done|]. congruence. }
  destruct Hst as [(Hs & Eq & ->)|(Hs & Eq & Hm)]; [left|right].
  - split; [done|]. split; [|done]. split; try done.
    intros j lj Hj Hbj. destruct (decide (j = i)) as [->|Hn]; [by simplify_eq|]. rewrite Hne in Hj by done. rewrite A7. eauto.
  - split; [done|]. split.
    + split; try done.
      * apply NoDup_app. split_and!; [done| |apply NoDup_singleton]. intros r Hrr ->%list_elem_of_singleton. done.
      * intros r [?| ->%list_elem_of_singleton]%elem_of_app; [auto|]. exists i, l'. split; [done|].
        split; try done; [congruence|rewrite Eg; auto|by rewrite A7|]. intros Hf. rewrite Hf in Hm.
        destruct Hm as (m & ? & _ & ? & ?). eauto.
      * intros j lj Hj Hbj. destruct (decide (j = i)) as [->|Hn]; [left; apply elem_of_app; right; by left|].
        rewrite Hne in Hj by done. rewrite A7, elem_of_app. destruct (T6 _ _ Hj Hbj); tauto.
    + rewrite req_mids_app, Em. unfold req_mids at 2. csimpl. unfold req_mid. simpl. rewrite Hl'. simpl.
      destruct (fwd_op (reqop (lt_req l'))).
      * destruct Hm as (m & -> & -> & _). by exists [mid m].
      * subst hm'. by exists [].
Qed.
End Threads.

(** ** The invariant of a rank that runs *)

(** What the manager has in hand, and the requests that wait for it. *)
Definition msgs (n : node) : list dtq_mpiqentry :=
  match pc n with AtWork (Some m) _ => [m] | _ => [] end.

Definition taken_req (n : node) : list reqref :=
  match pc n with AtWork _ (Some r) | AtReq (Some r) => [r] | _ => [] end.

Definition reqs (n : node) : list reqref := taken_req n ++ mgrreqq (dtq (st n)).

(** The entries that are on none of the lists. *)
Definition hands (n : node) : list nat :=
  (mid <$> msgs n) ++ (mid <$> out n) ++ req_mids (st n) (reqs n).

Record node_ok (c : config) (n : node) : Prop := {
  no_rank : rank_ok c [] (hands n) (st n);
  no_dd : mpisq_draindown (dtq (st n)) = DTQ_DD_INIT;
  no_wf : queues_wf c (dtq (st n));
  no_msgs : Forall (msg_wf (mpi_rank c)) (msgs n);
  no_ndeq : mpindequeuedsends (dtq (st n)) = Z.of_nat (length (out n));
  no_threads : threads_ok c (st n) (reqs n) }.

Definition packet_wf (p : packet) : Prop := msg_wf (p_dst p) (Mqe 0 (p_frame p) (p_len p) (p_src p)).

(** The books of a rank, with the message in hand. *)
Definition node_value (cur : currency) (n : node) : Z :=
  value cur (st n) + tally (λ m, c_recv cur (peer m) (frame m)) (msgs n).

Definition pk_conv (k : conv) (p : packet) : Z := occ k (msg_conv (p_src p) (p_dst p) (p_frame p)).
Definition pk_weight (p : packet) : Z := msg_weight (p_frame p).

Definition pk_join (k : jkey) (p : packet) : Z := msg_join k (p_src p) (p_frame p).

(** The request of slot [i] is forwarded between [n] and [n']. *)
Definition forwards (n n' : node) (i : Z) (l l' : dthread_ltab_t) : Prop :=
  pc n = AtReq (Some (RLtab i)) ∧ (RLtab i ∉ rpending (mgrstate (st n))) ∧ RLtab i ∈ rpending (mgrstate (st n')) ∧
  aget (ltab (st n)) i = Some l ∧ aget (ltab (st n')) i = Some l' ∧ fwd_op (reqop (lt_req l)) = true ∧
  reqop (lt_req l') = reqop (lt_req l) ∧
  ∀ j, j ≠ i → aget (ltab (st n')) j = aget (ltab (st n)) j ∧
    (RLtab j ∈ rpending (mgrstate (st n')) ↔ RLtab j ∈ rpending (mgrstate (st n))).

(** What a step does to the joins: a JOIN is one that was there, one that came
    in, or the one of a request that is forwarded; only rank 0 keeps joiners,
    each for a thread that can be waited for; and a thread's request is pending
    as before, or has just been forwarded. *)
Record join_moves (c : config) (n : node) (ins outs : list packet) (n' : node) : Prop := {
  jm_join : ∀ k, node_value (join_cur (mpi_rank c) k) n' + tally (pk_join k) outs ≤
      node_value (join_cur (mpi_rank c) k) n + tally (pk_join k) ins ∨
    ∃ i l l', forwards n n' i l l' ∧ node_value (join_cur (mpi_rank c) k) n' + tally (pk_join k) outs ≤
      node_value (join_cur (mpi_rank c) k) n + tally (pk_join k) ins + fwd_join c k l l';
  jm_rest : mpi_rank c ≠ 0 → node_value keep_cur n' ≤ node_value keep_cur n ∧
    ∀ t, node_value (wait_cur t) n' ≤ node_value (wait_cur t) n;
  jm_zero : mpi_rank c = 0 → Forall (λ m, starts_well (frame m)) (msgs n) →
    (∀ t, node_value (wait_cur t) n ≤ 0) → ∀ t, node_value (wait_cur t) n' ≤ 0;
  jm_pend : ∀ i l', RLtab i ∈ rpending (mgrstate (st n')) → aget (ltab (st n')) i = Some l' →
    (RLtab i ∈ rpending (mgrstate (st n)) ∧ ∃ l, aget (ltab (st n)) i = Some l ∧ lt_req l = lt_req l') ∨
    ∃ l, forwards n n' i l l' }.

(** What comes in is in the books or goes out. *)
Definition balanced (c : config) (n : node) (ins outs : list packet) (n' : node) : Prop :=
  (∀ k, node_value (conv_cur (mpi_rank c) k) n' + tally (pk_conv k) outs =
        node_value (conv_cur (mpi_rank c) k) n + tally (pk_conv k) ins) ∧
  node_value load_cur n' + tally pk_weight outs ≤ node_value load_cur n + tally pk_weight ins ∧
  (mpi_rank c ≠ 0 → count_if gtab_used (gtab (st n')) = count_if gtab_used (gtab (st n))) ∧
  join_moves c n ins outs n'.

(** What the other ranks guarantee of the message in hand. *)
Record fits (c : config) (n : node) : Prop := {
  ft_awaited : Forall (answers_awaited c (st n)) (msgs n);
  ft_room : Forall (λ m, hdr_op (frame m) = DTOP_START → ltab_alloc_cnt (mgrstate (st n)) < nmaxthread c) (msgs n);
  ft_pend : Z.of_nat (length (rpending (mgrstate (st n)))) < seq_period c }.

Section Rank.
Context (c : config) (e : env) (Hc : config_ok c) (Hmal : ∀ k, malloc_ok e k = true).
Implicit Types (n : node).

(** A step that only moves entries between the queues and the hands. *)
Lemma node_ok_queues n s' pc' out' : node_ok c n → ltab s' = ltab (st n) → gtab s' = gtab (st n) →
  mgrstate s' = mgrstate (st n) → let n' := Node s' pc' out' in
  rank_ok c [] (hands n') s' → mpisq_draindown (dtq s') = DTQ_DD_INIT → queues_wf c (dtq s') →
  Forall (msg_wf (mpi_rank c)) (msgs n') → mpindequeuedsends (dtq s') = Z.of_nat (length out') →
  reqs n' = reqs n → node_ok c n'.
Proof using.
  intros [] El Eg Em n' Hr Hd Hw Hm Hn Hq. split; try done. rewrite Hq.
  eapply threads_ok_same; [exact El|exact Eg| |done]. simpl. by rewrite Em.
Qed.

Lemma value_queues cur s s' : ltab s' = ltab s → gtab s' = gtab s → mgrstate s' = mgrstate s → ireqs s' = ireqs s →
  value cur s' - tally (λ m, c_sent cur (peer m) (frame m)) (mpisendq (dtq s')) -
    tally (λ m, c_recv cur (peer m) (frame m)) (mpirecvq (dtq s')) =
  value cur s - tally (λ m, c_sent cur (peer m) (frame m)) (mpisendq (dtq s)) -
    tally (λ m, c_recv cur (peer m) (frame m)) (mpirecvq (dtq s)).
Proof using.
  intros El Eg Em Ei. unfold value. rewrite El, Eg, Em.
  rewrite (tally_ext (pend_value cur s') (pend_value cur s)); [lia|].
  intros [j|id] _; unfold pend_value; simpl; by rewrite ?El, ?Ei.
Qed.

(** The books balance when every currency does. *)
Lemma balanced_cur n n' ins outs :
  (∀ cur, node_value cur n' + tally (λ p, c_sent cur (p_dst p) (p_frame p)) outs =
          node_value cur n + tally (λ p, c_recv cur (p_src p) (p_frame p)) ins) →
  Forall (λ p, p_src p = mpi_rank c) outs → Forall (λ p, p_dst p = mpi_rank c) ins →
  gtab (st n') = gtab (st n) → ltab (st n') = ltab (st n) → rpending (mgrstate (st n')) = rpending (mgrstate (st n)) →
  balanced c n ins outs n'.
Proof using.
  intros Hv Ho Hi Eg El Ep. rewrite Forall_forall in Ho, Hi. split_and!; [|specialize (Hv load_cur); simpl in Hv; unfold pk_weight; lia|by rewrite Eg|].
  2: { assert (∀ t, node_value (wait_cur t) n' = node_value (wait_cur t) n) as Hw.
       { intros t. specialize (Hv (wait_cur t)). simpl in Hv. rewrite !tally_const in Hv. lia. }
       split.
       - intros k. left. specialize (Hv (join_cur (mpi_rank c) k)). simpl in Hv.
         rewrite (tally_ext (pk_join k) (λ p, msg_join k (mpi_rank c) (p_frame p)) outs); [unfold pk_join; lia|].
         intros p Hp. unfold pk_join. by rewrite Ho.
       - intros _. split; [specialize (Hv keep_cur); simpl in Hv; rewrite !tally_const in Hv; lia|]. intros t. by rewrite Hw.
       - intros _ _ H t. by rewrite Hw.
       - rewrite El, Ep. intros i l' Hp Hl. left. eauto. }
  intros k. specialize (Hv (conv_cur (mpi_rank c) k)). simpl in Hv.
  rewrite (tally_ext (pk_conv k) (λ p, occ k (msg_conv (mpi_rank c) (p_dst p) (p_frame p))) outs);
    [|intros p Hp; unfold pk_conv; by rewrite Ho].
  rewrite (tally_ext (pk_conv k) (λ p, occ k (msg_conv (p_src p) (mpi_rank c) (p_frame p))) ins);
    [exact Hv|]. intros p Hp. unfold pk_conv. by rewrite Hi.
Qed.

Lemma balanced_same n n' : (∀ cur, node_value cur n' = node_value cur n) → gtab (st n') = gtab (st n) →
  ltab (st n') = ltab (st n) → rpending (mgrstate (st n')) = rpending (mgrstate (st n)) → balanced c n [] [] n'.
Proof using. intros Hv. apply balanced_cur; [|constructor|constructor]. intros cur. simpl. by rewrite Hv. Qed.

Lemma broadcast_drains s : wlp (broadcast_shutdown c e) (λ _ s', mpisq_draindown (dtq s') ≠ DTQ_DD_INIT) s.
Proof using.
  unfold broadcast_shutdown. apply wlp_bind. unfold wlp at 1. destruct (lift_outcome _ s) as [[ch s1]|]; [|done].
  apply wlp_bind. unfold wlp at 1. destruct (forM ch _ s1) as [[[] s2]|]; [|done].
  apply wlp_bind. unfold dtq_send_draindown, upd_dtq, upd_mgr, dtq_notifytimelimit, wlp, bindM, gets, modify, retM. simpl.
  by case_match.
Qed.

(** The top of the loop does nothing while the job runs. *)
Lemma top_step n stop s' : node_ok c n → pc n = AtTop → mgr_loop_top c e (st n) = Ok (stop, s') →
  mpisq_draindown (dtq s') = DTQ_DD_INIT →
  let n' := Node s' (if stop then LeftLoop else AtWait) (out n) in node_ok c n' ∧ balanced c n [] [] n'.
Proof using.
  destruct n as [s p o]. simpl. intros [] -> E Hd.
  assert (wlp (mgr_loop_top c e) (λ b s1, mpisq_draindown (dtq s1) = DTQ_DD_INIT → s1 = s ∧ b = false) s) as Hw.
  { unfold mgr_loop_top. do 2 apply wlp_bind. apply wlp_when; [intros _|intros _].
    - eapply wlp_mono; [apply broadcast_drains|]. intros [] s1 Hs1. unfold wlp, bindM, gets, dtq_send_drainstate, retM. by intros ?.
    - unfold wlp, bindM, gets, dtq_send_drainstate, retM. simpl. intros ->. by rewrite andb_false_r. }
  unfold wlp in Hw. rewrite E in Hw. destruct (Hw Hd) as [-> ->]. split; [by split|]. by apply balanced_same.
Qed.

(** The queues after [dtq_notifywait] took what there is. *)
Definition taken_queues (q : dtq_state) : dtq_state :=
  let q := match mpirecvq q with [] => q | _ :: l => q <| mpirecvq := l |> <| mpirqlen ::= Z.pred |> end in
  match mgrreqq q with [] => q | _ :: l => q <| mgrreqq := l |> <| mgrrqlen ::= Z.pred |> end.

Lemma take_eq s : dtq_notifywait_take s =
  Ok ((head (mpirecvq (dtq s)), head (mgrreqq (dtq s))), s <| dtq ::= taken_queues |>).
Proof using.
  destruct s as [? ? ? ? [rq ? ? ? ? ? ? ? ? ? ? ? vq]]. by destruct vq, rq.
Qed.

Lemma taken_queues_spec q : let q' := taken_queues q in
  mpirecvq q = option_list (head (mpirecvq q)) ++ mpirecvq q' ∧
  mgrreqq q = option_list (head (mgrreqq q)) ++ mgrreqq q' ∧
  mpisendq q' = mpisendq q ∧ mpisq_draindown q' = mpisq_draindown q ∧
  mpindequeuedsends q' = mpindequeuedsends q ∧ nmqe q' = nmqe q ∧ mqefree q' = mqefree q ∧
  reqfree q' = reqfree q ∧ (dtq_wf q → dtq_wf q').
Proof using.
  destruct q as [rq rql mrq w ? ? ? ? ? ? ? ? vq vql mvq]. unfold taken_queues. simpl.
  destruct vq, rq; simpl; split_and!; try done; intros [W1 W2 W3 W4 W5 W6 W7]; simpl in *; split; simpl in *; try lia; try done;
    intros Hw; by specialize (W7 Hw).
Qed.

(** What [dtq_notifywait] takes goes from the queues into the hands. *)
Lemma take_step n q : node_ok c n → msgs n = [] → taken_req n = [] →
  q = dtq (st n) ∨ q = (dtq (st n)) <| mgr_waiting := false |> →
  let n' := Node ((st n) <| dtq := taken_queues q |>) (AtWork (head (mpirecvq q)) (head (mgrreqq q))) (out n) in
  node_ok c n' ∧ balanced c n [] [] n'.
Proof using.
  destruct n as [s p o]. intros Hok Em Er Hq n'. pose proof Hok as [H Hd [Hw1 Hw2] _ Hn Ht]. cbn [st out pc] in *.
  assert (∀ q', q' = q → mpirecvq q' = mpirecvq (dtq s) ∧ mgrreqq q' = mgrreqq (dtq s) ∧ mpisendq q' = mpisendq (dtq s) ∧
    mpisq_draindown q' = DTQ_DD_INIT ∧ mpindequeuedsends q' = mpindequeuedsends (dtq s) ∧ nmqe q' = nmqe (dtq s) ∧
    mqefree q' = mqefree (dtq s) ∧ reqfree q' = reqfree (dtq s) ∧ dtq_wf q') as Hqq.
  { intros q' ->. destruct (ok_q _ _ _ _ H). destruct Hq as [-> | ->]; split_and!; try done. }
  destruct (Hqq q eq_refl) as (Q1 & Q2 & Q3 & Q4 & Q5 & Q6 & Q7 & Q8 & Q9). clear Hqq Hq.
  destruct (taken_queues_spec q) as (T1 & T2 & T3 & T4 & T5 & T6 & T7 & T8 & T9).
  set (q' := taken_queues q) in *. set (hv := head (mpirecvq q)) in *. set (hq := head (mgrreqq q)) in *. clearbody q' hv hq.
  assert (msgs n' = option_list hv) as Em' by done.
  assert (reqs n' = reqs (Node s p o)) as Er'.
  { unfold reqs. rewrite Er. simpl. rewrite <- Q2, T2 at 1. done. }
  assert (Forall (msg_wf (mpi_rank c)) (option_list (hv) ++ mpirecvq q')) as Hall by (rewrite <- T1, Q1; done).
  apply Forall_app in Hall as [Ha1 Ha2].
  split.
  - apply (node_ok_queues (Node s p o) _ _ o Hok); try done.
    + eapply rank_ok_qsame; [exact H|exists q', (nmallocs s); split; [done|split; [simpl; congruence|done]]|simpl; auto|].
      eapply owned_move; [by eapply ok_mqe|congruence|]. unfold hands at 1 2. fold n'. rewrite Er'. rewrite Em', Em. simpl.
      unfold mids. rewrite T3, T7, Q3, Q7, <- Q1, T1, !fmap_app. 
      rewrite (req_mids_ext s) by (by intros []). solve_perm.
    + simpl. congruence.
    + split; simpl; [by rewrite T3, Q3|done].
    + simpl. congruence.
  - apply balanced_same; [|done..]. intros cur. unfold node_value. rewrite Em', Em. cbn [st n'].
    pose proof (value_queues cur s (st n') eq_refl eq_refl eq_refl eq_refl) as Hv. simpl in Hv.
    rewrite T3, Q3, <- Q1, T1, tally_app in Hv. simpl. lia.
Qed.

Lemma ltab_length s s' hr hr' hm hm' : rank_ok c hr hm s → rank_ok c hr' hm' s' → length (ltab s') = length (ltab s).
Proof using. intros [[]] [[]]. lia. Qed.

(** The message in hand is processed. *)
Lemma mqe_step n m r s' : node_ok c n → fits c n → pc n = AtWork m r → work_mqe c e m (st n) = Ok (tt, s') →
  let n' := Node s' (AtReq r) (out n) in node_ok c n' ∧ balanced c n [] [] n'.
Proof using Hc Hmal.
  destruct n as [s p o]. simpl. intros Hok [Fa Fr Fp] -> E. pose proof Hok as [H Hd Hw Hm Hn Ht]. simpl in *.
  destruct m as [m|]; simpl in E.
  2: { injection E as <-. split; [by split|]. by apply balanced_same. }
  cbn [msgs pc] in *. rewrite Forall_singleton in Hm, Fa, Fr. unfold hands, msgs in H. simpl in H.
  pose proof (process_mqe_settles c e Hc Hmal s m [] _ (books_init c s _ _ H Hd Hw) Hm Fa Fp Fr) as Hs.
  unfold wp in Hs. rewrite E in Hs. pose proof (settles_settled _ _ _ _ _ _ Hs) as (Sk & Sl & Su).
  destruct Hs as (d & (H' & Hd' & Hw' & Hf & Hv) & _ & J1 & J2 & J3).
  set (n' := Node s' (AtReq r) o). assert (reqs n' = reqs (Node s (AtWork (Some m) r) o)) as Er.
  { unfold reqs. simpl. by rewrite (lf_queue _ _ _ Hf). }
  destruct (threads_ok_lframe c s s' _ (ltab_length _ _ _ _ _ _ H H') Hf Ht) as [Ht' Em].
  split.
  - split; simpl; try done; [|by rewrite (lf_ndeq _ _ _ Hf)|fold n'; by rewrite Er].
    unfold hands. fold n'. rewrite Er. simpl. by rewrite Em.
  - unfold balanced, node_value. simpl. split_and!; [|lia|done|]; [intros k; rewrite Sk; lia|].
    split; unfold node_value; simpl.
    + intros k. left. rewrite Hv. specialize (J1 k). lia.
    + intros Hr. destruct (J2 Hr) as [Jk Jw]. split; [rewrite Hv; lia|]. intros t. rewrite Hv. specialize (Jw t). lia.
    + intros Hr Hst Hz t. unfold msgs in Hst; simpl in Hst; rewrite Forall_singleton in Hst. rewrite Z.add_0_r. apply J3; [done|done|]. intros t'. specialize (Hz t'). lia.
    + intros i l' Hi Hl. left. split; [by apply Hf|]. destruct (lf_ltab _ _ _ Hf _ _ Hl) as (l0 & Hl0 & _ & _ & _ & Hrq & _).
      exists l0. split; [done|]. symmetry. auto.
Qed.

(** The request in hand, and its message if it carries one. *)
Lemma req_in_hand s r o : node_ok c (Node s (AtReq (Some r)) o) → ∃ i l, r = RLtab i ∧ queued_ok c s i l ∧
  let hm' := (mid <$> o) ++ req_mids s (mgrreqq (dtq s)) in
  ∃ hm, rank_ok c [] hm s ∧
    if fwd_op (reqop (lt_req l)) then ∃ m, req_mqe (lt_req l) = Some m ∧ hm ≡ₚ mid m :: hm' else hm = hm'.
Proof using.
  intros [H _ _ _ _ Ht]. unfold reqs in Ht. simpl in *.
  destruct (to_queue _ _ _ Ht r ltac:(by left)) as (i & l & -> & Hq). exists i, l. split; [done|]. split; [done|].
  pose proof (qo_ltab _ _ _ _ Hq) as Hl. set (hm' := (mid <$> o) ++ req_mids s (mgrreqq (dtq s))).
  exists (req_mids s [RLtab i] ++ hm'). split.
  - eapply rank_ok_perm; [done| |exact H]. unfold hands, reqs, hm', req_mids. csimpl.
    destruct (req_mid s (RLtab i)); simpl; solve_perm.
  - unfold req_mids. csimpl. unfold req_mid. simpl. rewrite Hl. simpl. destruct (fwd_op (reqop (lt_req l))) eqn:Ef; [|done].
    destruct (qo_msg _ _ _ _ Hq Ef) as (m & Em & _). exists m. by rewrite Em.
Qed.

(** The request in hand is processed. *)
Lemma req_step n r s' : node_ok c n → fits c n → pc n = AtReq r → work_req c e r (st n) = Ok (tt, s') →
  mpisq_draindown (dtq s') = DTQ_DD_INIT →
  let n' := Node s' AtTop (out n) in node_ok c n' ∧ balanced c n [] [] n'.
Proof using Hc Hmal.
  destruct n as [s p o]. simpl. intros Hok [_ _ Fp] -> E Hdd. pose proof Hok as [H Hd Hw Hm Hn Ht]. simpl in *.
  destruct r as [r|]; simpl in E.
  2: { injection E as <-. split; [by split|]. by apply balanced_same. }
  destruct (req_in_hand _ _ _ Hok) as (i & l & -> & Hq & hm & H1 & Hhm). pose proof (qo_ltab _ _ _ _ Hq) as Hl.
  unfold reqs in Ht. simpl in Ht. set (rs := mgrreqq (dtq s)) in *.
  assert (reqop (lt_req l) = DTOP_APP0_RET → mpi_rank c ≠ 0) as Happ.
  { intros Eop E0. assert (wlp (process_req c e (RLtab i)) (λ _ s1, mpisq_draindown (dtq s1) ≠ DTQ_DD_INIT) s) as Hw0.
    - unfold process_req. apply wlp_bind. unfold req_get. apply wlp_bind, wlp_get_some. simpl. rewrite Hl. simpl. intros q [= <-].
      cbv zeta. rewrite (qo_idx _ _ _ _ Hq), bool_decide_true by done. pose proof (aget_Some_range _ _ _ Hl).
      pose proof (ltab_len _ _ (ok_tabs _ _ _ _ H)). destruct (Z.ltb_spec i 0); [lia|]. destruct (Z.leb_spec (nmaxthread c) i); [lia|].
      simpl. apply wlp_bind. unfold ltab_get. apply wlp_bind, wlp_get_some. simpl. rewrite Hl. intros l1 [= <-].
      rewrite (qo_busy _ _ _ _ Hq), Eop, E0. simpl. apply wlp_bind. eapply wlp_mono; [apply broadcast_drains|].
      intros [] s1 Hs1. unfold dtq_req_release. apply wlp_bind. unfold wlp at 1, gets. apply wlp_bind, wlp_get_some. intros q _.
      destruct (reqstate q =? DTREQ_INTERNAL); unfold wlp, upd_dtq, modify; simpl; [done|]. by destruct (aget (ltab s1) i).
    - unfold wlp in Hw0. by rewrite E in Hw0. }
  pose proof (process_req_ends c e Hc Hmal s i l Hq [] _ _ (books_init c s _ _ H1 Hd Hw) Hhm Fp Happ) as Hs.
  unfold wp in Hs. rewrite E in Hs. destruct Hs as (H' & _ & Hw' & He).
  destruct (threads_ok_req c s s' rs i l Hl He Ht) as [Ht' Em].
  assert (mgrreqq (dtq s') = rs) as Er by apply He.
  split.
  - split; simpl; try done; [|by rewrite (re_ndeq _ _ _ _ _ He)|unfold reqs; simpl; by rewrite Er].
    unfold hands, reqs. simpl. by rewrite Er, Em.
  - unfold balanced, node_value. simpl. split_and!; [|rewrite (re_load _ _ _ _ _ He); lia|by rewrite (re_used _ _ _ _ _ He)|].
    { intros k. rewrite (re_conv _ _ _ _ _ He). lia. }
    set (n := Node s (AtReq (Some (RLtab i))) o). set (n' := Node s' AtTop o).
    assert (RLtab i ∈ rpending (mgrstate s') → ∀ l', aget (ltab s') i = Some l' → forwards n n' i l l') as Hfw.
    { intros Hi l' Hl'. destruct (re_pend _ _ _ _ _ He Hi) as [Hop Hrq]. split_and!; try done; [apply Hq|by auto|apply He]. }
    split; unfold node_value; simpl.
    + intros k. destruct (re_self _ _ _ _ _ He) as (l' & Hl' & _). rewrite (re_join _ _ _ _ _ He), Hl'. case_decide as Hi; [|left; lia].
      right. exists i, l, l'. split; [by apply Hfw|lia].
    + intros _. rewrite (re_keep _ _ _ _ _ He). split; [lia|]. intros t. by rewrite (re_wait _ _ _ _ _ He).
    + intros _ _ Hz t. rewrite (re_wait _ _ _ _ _ He). apply Hz.
    + intros j l' Hj Hl'. destruct (decide (j = i)) as [->|Hne]; [right; exists l; by apply Hfw|]. left.
      destruct (re_other _ _ _ _ _ He j Hne) as [E1 E2]. rewrite E1 in Hl'. split; [by apply E2|]. eauto.
Qed.

(** A thread of the application takes a step. *)
Lemma app_step n i l a s' : node_ok c n → aget (ltab (st n)) i = Some l → app_may i l a →
  app_run c e i a (st n) = Ok (tt, s') →
  let n' := Node s' (pc n) (out n) in node_ok c n' ∧ balanced c n [] [] n'.
Proof using Hc.
  destruct n as [s p o]. simpl. intros Hok Hl Ha E. pose proof Hok as [H Hd Hw Hm Hn Ht]. simpl in *.
  assert (reqstate (lt_req l) ≠ DTREQ_BUSY) as Hb.
  { intros Hx. destruct Ha as [_ Ha]. rewrite Hx in Ha. destruct a; simpl in Ha; by destruct_and?. }
  pose proof Ha as [Hu _]. destruct (awake_free c _ _ _ _ Ht Hl Hb) as [_ Hnp]. destruct (to_ltab _ _ _ Ht _ _ Hl) as [Hi _].
  pose proof (app_run_effect c e s i l _ H Hl Hu Hi Hnp a Ha (to_disp _ _ _ Ht)) as He. unfold wlp in He. rewrite E in He.
  set (n := Node s p o) in *. set (n' := Node s' p o).
  assert (msgs n' = msgs n ∧ taken_req n' = taken_req n) as [Em Er] by done.
  assert (∀ hm, rank_ok c [] hm s' → hands n' ≡ₚ hm → threads_ok c s' (reqs n') → node_ok c n') as Hmk.
  { intros hm Hh Hp Ht'. split; try done; [by eapply rank_ok_perm; [done|symmetry; exact Hp|]|..].
    - simpl. by rewrite (ae_dd _ _ _ _ _ _ He).
    - unfold queues_wf. simpl. by rewrite (ae_send _ _ _ _ _ _ He), (ae_recv _ _ _ _ _ _ He).
    - simpl. by rewrite (ae_ndeq _ _ _ _ _ _ He). }
  split.
  - destruct (threads_ok_app c s s' _ i l _ Hl Hu Hb He Ht) as [(Eq & Ht' & Emid & H')|(Eq & Ht' & hm' & Emid & H')].
    + assert (reqs n' = reqs n) as Err by (unfold reqs; rewrite Er; simpl; by rewrite Eq).
      apply (Hmk _ H'); [|by rewrite Err]. unfold hands. rewrite Err, Em. simpl. by rewrite Emid.
    + assert (reqs n' = reqs n ++ [RLtab i]) as Err by (unfold reqs; rewrite Er; simpl; by rewrite Eq, app_assoc).
      apply (Hmk _ H'); [|by rewrite Err]. unfold hands. rewrite Err, Em. simpl. rewrite Emid. solve_perm.
  - destruct He as [_ _ A3 A4 A5 A6 A7 (l' & hm' & _ & El & Eg & Hu' & _)].
    assert (∀ cur, c_used cur = 0 → node_value cur n' = node_value cur n) as Hv.
    { intros cur Hcu. unfold node_value. rewrite Em. f_equal. unfold value. simpl.
      rewrite A3, A4, A7, El, (count_if_aset _ _ _ _ _ Hl), (gtab_sim_used _ _ A5), (gtab_sim_live _ _ A5), (gtab_sim_value _ _ _ _ A5).
      rewrite !ltab_used_eq, (proj2 (Z.eqb_neq _ _) Hu), (proj2 (Z.eqb_neq _ _) Hu').
      rewrite (tally_ext (pend_value cur s') (pend_value cur s)); [simpl; lia|]. intros r Hr. unfold pend_value. f_equal.
      pose proof (aget_Some_range _ _ _ Hl). destruct r as [j|id]; simpl; [|by rewrite A6].
      rewrite El, aget_aset_ne; [done|lia|congruence]. }
    unfold balanced. simpl. split_and!; [intros k|..|intros _; by apply gtab_sim_used|]; rewrite ?Hv; try done; try lia.
    split.
    + intros k. left. rewrite Hv by done. lia.
    + intros _. rewrite Hv by done. split; [lia|]. intros t. by rewrite Hv.
    + intros _ _ Hz t. by rewrite Hv.
    + simpl. rewrite A7. intros j l1 Hj Hl1. left. split; [done|].
      rewrite El, aget_aset_ne in Hl1; [by eauto|by apply aget_Some_range in Hl as []|congruence].
Qed.

(** The MPI thread takes a message to send, releases one, receives one. *)
Lemma send_step n m s' : node_ok c n → dtq_send_dequeue (st n) = Ok (Some m, s') →
  let n' := Node s' (pc n) (m :: out n) in
  node_ok c n' ∧ balanced c n [] [send_packet c m] n' ∧ packet_wf (send_packet c m).
Proof using.
  destruct n as [s p o]. simpl. intros Hok E. pose proof Hok as [H Hd [Hw1 Hw2] Hm Hn Ht]. simpl in *.
  unfold dtq_send_dequeue, bindM, gets in E. destruct (mpisendq (dtq s)) as [|m' rest] eqn:Es; [done|].
  unfold upd_dtq, modify, retM in E. injection E as <- <-. apply Forall_cons in Hw1 as [Hwm Hw1].
  match goal with |- context [Node ?x p (m' :: o)] => set (s' := x) end. set (n' := Node s' p (m' :: o)).
  assert (hands n' ≡ₚ mid m' :: hands (Node s p o)) as Eh.
  { unfold hands. change (msgs n') with (msgs (Node s p o)). change (reqs n') with (reqs (Node s p o)).
    change (out n') with (m' :: o). change (st n') with s'. rewrite (req_mids_ext s s') by (by intros []). simpl. solve_perm. }
  split_and!.
  - apply (node_ok_queues (Node s p o)); try done.
    + eapply rank_ok_perm; [done|symmetry; exact Eh|]. eapply rank_ok_qsame; [exact H|by eexists _, (nmallocs s)| |].
      * destruct (ok_q _ _ _ _ H). rewrite Es in *. split; simpl in *; try lia; try done.
      * eapply owned_move; [by eapply ok_mqe|done|]. unfold mids. simpl. rewrite Es. generalize (hands (Node s p o)). intros h.
        rewrite ?fmap_app, ?fmap_cons, ?fmap_app. solve_perm.
    + simpl. lia.
  - apply balanced_cur; [|by repeat constructor|by repeat constructor|done..]. intros cur. unfold node_value.
    change (msgs n') with (msgs (Node s p o)).
    pose proof (value_queues cur s s' eq_refl eq_refl eq_refl eq_refl) as Hv. simpl in *. rewrite Es in Hv. simpl in Hv. lia.
  - exact Hwm.
Qed.

Lemma sent_step n m k s' : node_ok c n → out n ≡ₚ m :: k → dtq_send_release m (st n) = Ok (tt, s') →
  let n' := Node s' (pc n) k in node_ok c n' ∧ balanced c n [] [] n'.
Proof using.
  destruct n as [s p o]. simpl. intros Hok Ho E. pose proof Hok as [H Hd Hw Hm Hn Ht]. simpl in *.
  unfold dtq_send_release, upd_dtq, modify in E. simpl in E. rewrite Hd in E. simpl in E. injection E as <-.
  assert (mid <$> o ≡ₚ mid m :: (mid <$> k)) as Hom by (by rewrite (fmap_Permutation mid _ _ Ho)).
  pose proof (Permutation_length Ho) as Hlen. simpl in Hlen.
  match goal with |- context [Node ?x p k] => set (s' := x) end. set (n' := Node s' p k).
  assert (mid m :: hands n' ≡ₚ hands (Node s p o)) as Eh.
  { unfold hands. change (msgs n') with (msgs (Node s p o)). change (reqs n') with (reqs (Node s p o)).
    change (out n') with k. change (st n') with s'. rewrite (req_mids_ext s s') by (by intros []). simpl. rewrite Hom. solve_perm. }
  split.
  - apply (node_ok_queues (Node s p o)); try done.
    + eapply rank_ok_qsame; [eapply rank_ok_perm; [done|symmetry; exact Eh|exact H]|by eexists _, (nmallocs s)| |].
      * destruct (ok_q _ _ _ _ H). split; simpl in *; try done; [|by left]. simpl in Hlen. lia.
      * eapply owned_move; [eapply ok_mqe, rank_ok_perm; [done|symmetry; exact Eh|exact H]|done|].
        unfold mids. simpl. fold n'. generalize (hands n'). intros h. rewrite ?fmap_app. solve_perm.
    + simpl. lia.
  - by apply balanced_same.
Qed.

Lemma recv_step n p s' : node_ok c n → packet_wf p → p_dst p = mpi_rank c → recv_packet e p (st n) = Ok (true, s') →
  let n' := Node s' (pc n) (out n) in node_ok c n' ∧ balanced c n [p] [] n'.
Proof using.
  destruct n as [s g o]. simpl. intros Hok Hp Hdst E. pose proof Hok as [H Hd [Hw1 Hw2] Hm Hn Ht]. simpl in *.
  set (n := Node s g o) in *.
  assert (wp (recv_packet e p) (λ b s1, b = true → rank_ok c [] (hands n) s1 ∧ ltab s1 = ltab s ∧ gtab s1 = gtab s ∧
    mgrstate s1 = mgrstate s ∧ ireqs s1 = ireqs s ∧ mpisq_draindown (dtq s1) = DTQ_DD_INIT ∧ mpisendq (dtq s1) = mpisendq (dtq s) ∧
    mgrreqq (dtq s1) = mgrreqq (dtq s) ∧ mpindequeuedsends (dtq s1) = mpindequeuedsends (dtq s) ∧
    ∃ i, mpirecvq (dtq s1) = mpirecvq (dtq s) ++ [Mqe i (p_frame p) (p_len p) (p_src p)]) s) as Hr.
  { unfold recv_packet. wp_step.
    eapply wp_mono; [apply (wp_and _ _ (λ _ s', mpisq_draindown (dtq s') = DTQ_DD_INIT ∧ mpisendq (dtq s') = mpisendq (dtq s) ∧
      mpirecvq (dtq s') = mpirecvq (dtq s) ∧ mgrreqq (dtq s') = mgrreqq (dtq s) ∧ mpindequeuedsends (dtq s') = mpindequeuedsends (dtq s))
      _ (wp_mqe_alloc c e [] _ s H))|].
    { unfold dtq_mqe_alloc, malloc, upd_dtq. wp_steps. by destruct (mqefree (dtq s)); wp_steps. }
    intros [m|] s1 [[(q & k & -> & Hrf & Hk) H1] (E1 & E2 & E3 & E4 & E5)]; [|by wp_step].
    set (m' := Mqe (mid m) _ _ _). simpl in E1, E2, E3, E4, E5.
    assert (mpisq_draindown (recv_enqueue m' q) = mpisq_draindown q ∧ mpisendq (recv_enqueue m' q) = mpisendq q ∧
      mgrreqq (recv_enqueue m' q) = mgrreqq q ∧ mpindequeuedsends (recv_enqueue m' q) = mpindequeuedsends q ∧
      mpirecvq (recv_enqueue m' q) = mpirecvq q ++ [m'] ∧ nmqe (recv_enqueue m' q) = nmqe q ∧
      mqefree (recv_enqueue m' q) = mqefree q ∧ reqfree (recv_enqueue m' q) = reqfree q ∧ dtq_wf (recv_enqueue m' q))
      as (R1 & R2 & R3 & R4 & R5 & R6 & R7 & R8 & R9).
    { destruct (ok_q _ _ _ _ H1). unfold recv_enqueue, mgr_signal. simpl in *. destruct (mgr_idle q) eqn:Ei; split_and!; try done;
        split; simpl; rewrite ?length_app; simpl; try case_match; breflect; try done; try lia; by intros Hw%wf_wait. }
    unfold dtq_recv_enqueue, dtq_recv_enqueue_locked, upd_dtq. wp_steps. intros _. simpl.
    rewrite R1, R2, R3, R4, R5, E1, E2, E3, E4, E5. split_and!; try done; [|by eexists].
    eapply rank_ok_qsame; [exact H1|by exists (recv_enqueue m' q), k|done|].
    apply (owned_move _ _ _ (recv_enqueue m' q) (ok_mqe _ _ _ _ H1)); [done|]. unfold mids. simpl. rewrite R2, R5, R7. generalize (hands n). intros h. rewrite ?fmap_app. solve_perm. }
  unfold wp in Hr. rewrite E in Hr. destruct (Hr eq_refl) as (H' & El & Eg & Em & Ei & Ed & Es & Eq & En & i & Ev).
  set (n' := Node s' g o). split.
  - apply (node_ok_queues n); try done.
    + eapply rank_ok_perm; [done| |exact H']. unfold hands. simpl. change (msgs (Node s' g o)) with (msgs n).
      assert (reqs (Node s' g o) = reqs n) as -> by (unfold reqs; simpl; by rewrite Eq).
      rewrite (req_mids_ext s s'); [done|]. intros [j|id] _; simpl; by rewrite ?El, ?Ei.
    + split; rewrite ?Es, ?Ev; [done|]. apply Forall_app. split; [done|]. apply Forall_singleton. rewrite <- Hdst. exact Hp.
    + congruence.
    + unfold reqs. simpl. by rewrite Eq.
  - apply balanced_cur; [|constructor|by apply Forall_singleton|done|done|simpl; by rewrite Em]. intros cur. unfold node_value. change (msgs n') with (msgs n).
    pose proof (value_queues cur s s' El Eg Em Ei) as Hv. rewrite Es, Ev, tally_app in Hv. simpl in *. lia.
Qed.

(** The manager's step, while the job runs. *)
Lemma mgr_step n n' : node_ok c n → fits c n → mgr_main_step c e n = Ok n' →
  mpisq_draindown (dtq (st n')) = DTQ_DD_INIT → node_ok c n' ∧ balanced c n [] [] n'.
Proof using Hc Hmal.
  intros Hok Hf E Hd. unfold mgr_main_step in E. destruct (pc n) as [| | |m r|r|] eqn:Hpc.
  - destruct (mgr_loop_top c e (st n)) as [[b s']|] eqn:E'; [|done]. injection E as <-. by apply top_step.
  - unfold dtq_notifywait_enter, bindM, gets in E. destruct (mgr_idle (dtq (st n))) eqn:Ei.
    + unfold upd_dtq, modify, retM in E. injection E as <-. destruct n as [s p o]. simpl in *. subst p.
      pose proof Hok as [H _ Hw Hm Hn Ht]. split; [|by apply balanced_same].
      apply (node_ok_queues (Node s AtWait o)); try done.
      eapply rank_ok_qsame; [exact H|by eexists _, (nmallocs s)| |by eapply owned_move; [by eapply ok_mqe|..]].
      destruct (ok_q _ _ _ _ H). by split.
    + rewrite take_eq in E. simpl in E. injection E as <-.
      apply (take_step n (dtq (st n))); [done|unfold msgs; by rewrite Hpc|unfold taken_req; by rewrite Hpc|by left].
  - unfold dtq_notifywait_wake, bindM, upd_dtq, modify in E. rewrite take_eq in E. simpl in E. injection E as <-.
    match goal with |- context [taken_queues ?q] => apply (take_step n q) end; [done|unfold msgs; by rewrite Hpc|unfold taken_req; by rewrite Hpc|by right].
  - destruct (work_mqe c e m (st n)) as [[[] s']|] eqn:E'; [|done]. injection E as <-. by eapply mqe_step.
  - destruct (work_req c e r (st n)) as [[[] s']|] eqn:E'; [|done]. injection E as <-. by eapply req_step.
  - injection E as <-. split; [done|]. by apply balanced_same.
Qed.

(** The manager does not fault. *)
Lemma mgr_safe n : node_ok c n → fits c n → ∃ n', mgr_main_step c e n = Ok n'.
Proof using Hc Hmal.
  intros Hok [Fa Fr Fp]. pose proof Hok as [H Hd Hw Hm Hn Ht]. unfold mgr_main_step.
  destruct (pc n) as [| | |m r|r|] eqn:Hpc; [..|by eexists].
  - pose proof (mgr_loop_top_ok c e Hc _ _ _ H) as (b & s' & -> & _)%wp_ok. by eexists.
  - unfold dtq_notifywait_enter, bindM, gets. destruct (mgr_idle (dtq (st n))); [by eexists|]. rewrite take_eq. by eexists.
  - unfold dtq_notifywait_wake, bindM, upd_dtq, modify. rewrite take_eq. by eexists.
  - destruct m as [m|]; [|by eexists]. destruct n as [s p o]. simpl in *. subst p. cbn [msgs pc] in *.
    rewrite Forall_singleton in Hm, Fa, Fr. unfold hands, msgs in H. simpl in H.
    pose proof (process_mqe_settles c e Hc Hmal s m [] _ (books_init c s _ _ H Hd Hw) Hm Fa Fp Fr) as (b & s' & E & _)%wp_ok.
    simpl. rewrite E. by eexists.
  - destruct r as [r|]; [|by eexists]. destruct n as [s p o]. simpl in *. subst p.
    destruct (req_in_hand _ _ _ Hok) as (i & l & -> & [] & hm & H1 & Hhm).
    pose proof (process_req_ok c e Hc [] _ _ s i H1 ltac:(exists l; split_and!; try done) Fp) as (b & s' & E & _)%wp_ok.
    simpl. rewrite E. by eexists.
Qed.

(** Every step of the rank. *)
Lemma rank_step_ok n ins outs n' : node_ok c n → fits c n → Forall packet_wf ins → rank_step c e n ins outs n' →
  mpisq_draindown (dtq (st n')) = DTQ_DD_INIT →
  node_ok c n' ∧ balanced c n ins outs n' ∧ Forall packet_wf outs.
Proof using Hc Hmal.
  intros Hok Hf Hp Hs Hd. destruct Hs as [n' E|m s' E|m k s' Ho E|p s' Hdst E|i l a s' Hl Ha E].
  - destruct (mgr_step n n' Hok Hf E Hd). by split_and!.
  - destruct (send_step n m s' Hok E) as (? & ? & ?). split_and!; try done. by apply Forall_singleton.
  - destruct (sent_step n m k s' Hok Ho E). by split_and!.
  - rewrite Forall_singleton in Hp. destruct (recv_step n p s' Hok Hp Hdst E). by split_and!.
  - destruct (app_step n i l a s' Hok Hl Ha E). by split_and!.
Qed.
End Rank.
