(* ===== verification/ShmRef.v ===== *)
(** * Shared memory references and the shared memory of a rank

    The shared memory structures of [include/dthread/dthread.h] and
    [libdthread/dt_internal.h], the reference conversions of
    [libdthread/dt_ops.c], and the memory the allocators run on.

    A segment's contents are bytes indexed by segment id and offset: all ranks
    see the same bytes, each through its own [mapping] address.  The metadata
    structures (segment metadata, arena metadata with the allocator's part) are
    kept as records at the segment id and offset they are stored at; a place
    without a record is memory that does not start with the magic number of the
    structure.  Pointers are addresses, 0 is [NULL].  Log messages
    are left out, but for one that reads through a pointer ([BsdMalloc]). *)

From S2P Require Import Prelude Types.

(** ** Structures *)

Definition EPERM : Z := 1.
Definition ENOENT : Z := 2.
Definition EEXIST : Z := 17.

Record dthread_shmmap_t := Shmmap {
  mapping : Z;
  md_offset : Z;
  map_size : Z }.

Definition DTHREAD_SEG_MD_MAGIC : Z := 0x64746873676d6431.

Record dthread_shmseg_md_t := Segmd {
  seg_md_magic : Z;
  seg_self : dthread_shmref_t;
  seg_srcflags : Z;
  seg_umapaddr : Z;
  first_avail : Z;
  end_avail : Z }.

Definition DTHREAD_SHM_MD_MAGIC : Z := 0x647468626d643030.

Record dthread_shm_alloc_md_t := Amd {
  mdmagic : Z;
  amd_self : dthread_shmref_t;
  min_uoffset : Z;
  max_uoffset : Z;
  badalign_bits : Z;
  mopid : Z }.

(** What follows [amd] in [struct break_malloc_md]. *)
Record break_malloc_md := BreakMd {
  bk_allocated : Z;
  bk_hdrlen : Z;
  bk_nalloc : Z }.

(** What follows [amd] in [struct bsd_malloc_md]. *)
Record bsd_malloc_md := BsdMd {
  oversize : Z;
  minbucket : Z;
  pagesz : Z;
  pagebucket : Z;
  nextf : list Z;
  nmalloc : list Z;
  mycore : Z;
  core_resid : Z }.

(** The driver-specific part of an arena's metadata: not yet set up, that of
    one of the internal drivers, or that of a user-provided driver. *)
Inductive driver_md :=
  | DrvNone
  | DrvBreak (b : break_malloc_md)
  | DrvBsd (b : bsd_malloc_md)
  | DrvUser.

Record arena_md := ArenaMd { am_amd : dthread_shm_alloc_md_t; am_drv : driver_md }.

(** Sizes of the metadata structures with 8-byte pointers and a 4-byte
    spin lock, and [alignof(max_align_t)]. *)
Definition sizeof_alloc_md : Z := 64.
Definition sizeof_break_md : Z := 80.
Definition sizeof_bsd_md : Z := 1056.
Definition alignsz : Z := 16.

(** ** State of a rank's shared memory code *)
Record sst := Sst {
  shmmap : list dthread_shmmap_t;                (* this rank's mappings *)
  defarena : option dthread_shmref_t;            (* this rank's [defarena] *)
  da_src : dthread_shmref_t;                     (* in shared memory *)
  segmds : gmap (Z * Z) dthread_shmseg_md_t;     (* in shared memory *)
  amds : gmap (Z * Z) arena_md;                  (* in shared memory *)
  mem : Z → Z → Z }.                             (* in shared memory *)

#[export] Instance shmref_eta : Eta dthread_shmref_t := λ r,
  Shmref (dt_shmid r) (dt_offset r) (dt_length r).
#[export] Instance shmmap_eta : Eta dthread_shmmap_t := λ r,
  Shmmap (mapping r) (md_offset r) (map_size r).
#[export] Instance segmd_eta : Eta dthread_shmseg_md_t := λ r,
  Segmd (seg_md_magic r) (seg_self r) (seg_srcflags r) (seg_umapaddr r)
    (first_avail r) (end_avail r).
#[export] Instance amd_eta : Eta dthread_shm_alloc_md_t := λ r,
  Amd (mdmagic r) (amd_self r) (min_uoffset r) (max_uoffset r)
    (badalign_bits r) (mopid r).
#[export] Instance break_md_eta : Eta break_malloc_md := λ r,
  BreakMd (bk_allocated r) (bk_hdrlen r) (bk_nalloc r).
#[export] Instance bsd_md_eta : Eta bsd_malloc_md := λ r,
  BsdMd (oversize r) (minbucket r) (pagesz r) (pagebucket r) (nextf r)
    (nmalloc r) (mycore r) (core_resid r).
#[export] Instance arena_md_eta : Eta arena_md := λ r,
  ArenaMd (am_amd r) (am_drv r).
#[export] Instance sst_eta : Eta sst := λ r,
  Sst (shmmap r) (defarena r) (da_src r) (segmds r) (amds r) (mem r).

(** ** Reference conversions *)

Definition dthread_shmref2ptr (sm : list dthread_shmmap_t)
    (refp : option dthread_shmref_t) (len : Z) : Z :=
  match refp with
  | None => 0
  | Some r =>
      match aget sm (dt_shmid r) with
      | None => 0                              (* bad shmid *)
      | Some m =>
          if map_size m <=? dt_offset r then 0
          else if map_size m - dt_offset r <? dt_length r then 0
          else if negb (len =? 0) && (dt_length r <? len) then 0
          else mapping m + dt_offset r
      end
  end.

(** The search loop: the first mapping from [shmid] on that contains [ptr],
    with the offset in it. *)
Fixpoint ptr_search (sm : list dthread_shmmap_t) (shmid : Z) (ptr : Z)
    : option (Z * dthread_shmmap_t * Z) :=
  match sm with
  | [] => None
  | m :: sm =>
      if (mapping m <=? ptr) && (ptr - mapping m <? map_size m)
      then Some (shmid, m, ptr - mapping m)
      else ptr_search sm (shmid + 1) ptr
  end.

Definition dthread_ptr2shmref (sm : list dthread_shmmap_t) (ptr len : Z)
    : Z * option dthread_shmref_t :=
  match ptr_search sm 0 ptr with
  | None => (EINVAL, None)                     (* not a pointer to shm *)
  | Some (shmid, m, offset) =>
      if map_size m - offset <? len then (EINVAL, None)
      else (0, Some (Shmref shmid offset len))
  end.

(** ** Well-formed mappings

    What [mmap] provides: a mapping is not at address 0 and does not wrap
    around, and two mappings of a process do not overlap. *)
Definition map_ok (m : dthread_shmmap_t) : Prop :=
  0 < mapping m ∧ 0 ≤ map_size m ∧ mapping m + map_size m ≤ 2 ^ 64.

Definition maps_disjoint (m1 m2 : dthread_shmmap_t) : Prop :=
  mapping m1 + map_size m1 ≤ mapping m2 ∨ mapping m2 + map_size m2 ≤ mapping m1.

Definition maps_ok (sm : list dthread_shmmap_t) : Prop :=
  (∀ i m, sm !! i = Some m → map_ok m) ∧
  (∀ i j m1 m2, i ≠ j → sm !! i = Some m1 → sm !! j = Some m2 → maps_disjoint m1 m2).

(** [dt_shmid], [dt_offset] and [dt_length] are [uint64_t]. *)
Definition ref_u64 (r : dthread_shmref_t) : Prop :=
  is_u64 (dt_shmid r) ∧ is_u64 (dt_offset r) ∧ is_u64 (dt_length r).

(** [r] names bytes of the segment [m]. *)
Definition ref_in (sm : list dthread_shmmap_t) (r : dthread_shmref_t) : Prop :=
  ∃ m, aget sm (dt_shmid r) = Some m ∧
    dt_offset r < map_size m ∧ dt_offset r + dt_length r ≤ map_size m.

(** Two ranks map the same segments, at addresses of their own. *)
Definition same_segments (sm1 sm2 : list dthread_shmmap_t) : Prop :=
  map_size <$> sm1 = map_size <$> sm2.

(** ** Conversion lemmas *)

Lemma shmref2ptr_some sm r len m :
  aget sm (dt_shmid r) = Some m →
  dt_offset r < map_size m → dt_offset r + dt_length r ≤ map_size m →
  len ≤ dt_length r →
  dthread_shmref2ptr sm (Some r) len = mapping m + dt_offset r.
Proof.
  intros Hm Ho Hl Hlen. simpl. rewrite Hm.
  destruct (Z.leb_spec (map_size m) (dt_offset r)); [lia|].
  destruct (Z.ltb_spec (map_size m - dt_offset r) (dt_length r)); [lia|].
  destruct (Z.ltb_spec (dt_length r) len); [lia|]. by rewrite andb_false_r.
Qed.

Lemma shmref2ptr_inv sm r len :
  dthread_shmref2ptr sm (Some r) len ≠ 0 →
  ∃ m, aget sm (dt_shmid r) = Some m ∧ dt_offset r < map_size m ∧
    dt_offset r + dt_length r ≤ map_size m ∧ (len ≠ 0 → len ≤ dt_length r) ∧
    dthread_shmref2ptr sm (Some r) len = mapping m + dt_offset r.
Proof.
  simpl. destruct (aget sm (dt_shmid r)) as [m|]; [|done]. intros H. exists m.
  destruct (Z.leb_spec (map_size m) (dt_offset r)); [done|].
  destruct (Z.ltb_spec (map_size m - dt_offset r) (dt_length r)); [done|].
  destruct (Z.eqb_spec len 0) as [->|Hne]; simpl in *; [repeat split; auto; lia|].
  destruct (Z.ltb_spec (dt_length r) len); [done|]. repeat split; auto; lia.
Qed.

Arguments dthread_shmref2ptr : simpl never.

Lemma ptr_search_Some sm k ptr i m off :
  ptr_search sm k ptr = Some (i, m, off) →
  k ≤ i ∧ sm !! Z.to_nat (i - k) = Some m ∧ off = ptr - mapping m ∧
  0 ≤ off < map_size m.
Proof.
  revert k. induction sm as [|m' sm IH]; intros k; simpl; [done|].
  destruct ((mapping m' <=? ptr) && (ptr - mapping m' <? map_size m')) eqn:E.
  - intros [= <- <- <-]. breflect. rewrite Z.sub_diag. repeat split; auto; lia.
  - intros (Hk&Hl&?&?)%IH. repeat split; [lia| |lia..].
    replace (Z.to_nat (i - k)) with (S (Z.to_nat (i - (k + 1)))) by lia. done.
Qed.

(** With disjoint mappings the search finds the mapping that holds [ptr]. *)
Lemma ptr_search_complete sm k i m ptr :
  (∀ j m', j ≠ i → sm !! j = Some m' → maps_disjoint m' m) →
  sm !! i = Some m → mapping m ≤ ptr < mapping m + map_size m →
  ptr_search sm k ptr = Some (k + Z.of_nat i, m, ptr - mapping m).
Proof.
  revert k i. induction sm as [|m' sm IH]; intros k [|i] Hd Hi Hp; simplify_eq/=.
  - destruct (Z.leb_spec (mapping m) ptr); [|lia].
    destruct (Z.ltb_spec (ptr - mapping m) (map_size m)); [|lia].
    simpl. by rewrite Z.add_0_r.
  - destruct ((mapping m' <=? ptr) && (ptr - mapping m' <? map_size m')) eqn:E.
    { breflect. destruct (Hd 0%nat m'); [done..|lia|lia]. }
    rewrite (IH (k + 1) i); [|intros j m'' Hj Hm'; apply (Hd (S j)); auto|done|done].
    do 3 f_equal. lia.
Qed.

Lemma ptr2shmref_complete sm i m ptr len :
  maps_ok sm → sm !! i = Some m → mapping m ≤ ptr < mapping m + map_size m →
  len ≤ mapping m + map_size m - ptr →
  dthread_ptr2shmref sm ptr len =
    (0, Some (Shmref (Z.of_nat i) (ptr - mapping m) len)).
Proof.
  intros [_ Hd] Hi Hp Hl. unfold dthread_ptr2shmref.
  rewrite (ptr_search_complete sm 0 i m ptr); [|by eauto|done|done].
  destruct (Z.ltb_spec (map_size m - (ptr - mapping m)) len); [lia|]. done.
Qed.

Lemma ptr2shmref_sound sm ptr len r :
  dthread_ptr2shmref sm ptr len = (0, Some r) →
  ∃ m, aget sm (dt_shmid r) = Some m ∧ ptr = mapping m + dt_offset r ∧
    dt_length r = len ∧ 0 ≤ dt_offset r < map_size m ∧
    dt_offset r + len ≤ map_size m.
Proof.
  unfold dthread_ptr2shmref.
  destruct (ptr_search sm 0 ptr) as [[[i m] off]|] eqn:E; [|done].
  apply ptr_search_Some in E as (Hi&Hm&->&?).
  destruct (Z.ltb_spec (map_size m - (ptr - mapping m)) len); [done|].
  intros [= <-]. exists m. simpl. rewrite Z.sub_0_r in Hm. unfold aget.
  destruct (Z.leb_spec 0 i); [|lia]. repeat split; auto; lia.
Qed.

Lemma same_segments_size sm1 sm2 i m1 m2 :
  same_segments sm1 sm2 → aget sm1 i = Some m1 → aget sm2 i = Some m2 →
  map_size m1 = map_size m2.
Proof.
  unfold same_segments, aget. intros H. destruct (0 <=? i); [|done]. intros Hm1 Hm2.
  assert (map_size <$> (sm1 !! Z.to_nat i) = map_size <$> (sm2 !! Z.to_nat i)) as He
    by (by rewrite <-!list_lookup_fmap, H).
  rewrite Hm1, Hm2 in He. by simplify_eq/=.
Qed.

Lemma same_segments_aget sm1 sm2 i m1 :
  same_segments sm1 sm2 → aget sm1 i = Some m1 →
  ∃ m2, aget sm2 i = Some m2 ∧ map_size m2 = map_size m1.
Proof.
  intros H H1. pose proof (aget_Some_range _ _ _ H1).
  assert (length sm1 = length sm2).
  { rewrite <-(length_fmap map_size sm1), <-(length_fmap map_size sm2). by f_equal. }
  destruct (aget_is_Some sm2 i) as [m2 Hm2]; [lia|].
  exists m2. split; [done|]. symmetry. by eapply same_segments_size.
Qed.

(** ** Claims *)

(** A reference that converts to a pointer converts back to itself: with
    the rank's mappings disjoint, [dthread_ptr2shmref] of the pointer that
    [dthread_shmref2ptr] returns succeeds with the same segment, offset and
    length, and the pointer and all [dt_length] bytes are inside the mapping. *)
Theorem shmref_roundtrip sm r len p :
  maps_ok sm → ref_u64 r →
  p = dthread_shmref2ptr sm (Some r) len → p ≠ 0 →
  dthread_ptr2shmref sm p (dt_length r) = (0, Some r) ∧
  ∃ m, aget sm (dt_shmid r) = Some m ∧
    mapping m ≤ p ∧ p + dt_length r ≤ mapping m + map_size m.
Proof.
  intros Hok (Hi&Ho&Hl) -> Hp. unfold is_u64 in *.
  destruct (shmref2ptr_inv _ _ _ Hp) as (m&Hm&?&?&_&->).
  split; [|exists m; repeat split; auto; lia].
  pose proof Hm as Hm'. unfold aget in Hm'. destruct (Z.leb_spec 0 (dt_shmid r)); [|done].
  rewrite (ptr2shmref_complete _ _ _ _ _ Hok Hm') by lia.
  destruct r as [i o l]; simpl in *. do 3 f_equal; lia.
Qed.

(** A reference passed between ranks names the same bytes: a pointer of
    one rank that converts to a reference is turned by any other rank, which
    maps the same segments elsewhere, into the pointer at the same offset of
    its own mapping of the segment, with the same number of bytes behind it. *)
Theorem shmref_portable sm1 sm2 ptr len r :
  maps_ok sm1 → maps_ok sm2 → same_segments sm1 sm2 →
  dthread_ptr2shmref sm1 ptr len = (0, Some r) →
  ∃ m1 m2, aget sm1 (dt_shmid r) = Some m1 ∧ aget sm2 (dt_shmid r) = Some m2 ∧
    dthread_shmref2ptr sm2 (Some r) len - mapping m2 = ptr - mapping m1 ∧
    dthread_shmref2ptr sm2 (Some r) len + len ≤ mapping m2 + map_size m2.
Proof.
  intros H1 H2 Hs (m1&Hm1&->&Hl&?&?)%ptr2shmref_sound.
  destruct (same_segments_aget _ _ _ _ Hs Hm1) as (m2&Hm2&Hsz).
  exists m1, m2. rewrite (shmref2ptr_some _ _ _ m2) by (done || lia).
  repeat split; auto; lia.
Qed.

Definition demo_maps : list dthread_shmmap_t :=
  [Shmmap 0x10000 0 0x1000; Shmmap 0x40000 0 0x2000].
Definition demo_maps' : list dthread_shmmap_t :=
  [Shmmap 0x90000 0 0x1000; Shmmap 0x30000 0 0x2000].

Lemma demo_maps_ok : maps_ok demo_maps ∧ maps_ok demo_maps'.
Proof.
  split; split; intros i.
  1, 3: intros m H; destruct i as [|[|i]]; simplify_eq/=; unfold map_ok; simpl; lia.
  all: intros j m1 m2 Hij H1 H2; destruct i as [|[|i]], j as [|[|j]]; simplify_eq/=;
    unfold maps_disjoint; simpl; lia.
Qed.

Lemma shmref_roundtrip_witness :
  dthread_ptr2shmref demo_maps 0x40010 32 = (0, Some (Shmref 1 16 32)).
Proof.
  apply (shmref_roundtrip demo_maps (Shmref 1 16 32) 8 0x40010);
    [apply demo_maps_ok|unfold ref_u64, is_u64; simpl; lia|done|done].
Defined.

Lemma shmref_portable_witness :
  ∃ m1 m2, aget demo_maps 1 = Some m1 ∧ aget demo_maps' 1 = Some m2 ∧
    0x30010 - mapping m2 = 0x40010 - mapping m1 ∧
    0x30010 + 32 ≤ mapping m2 + map_size m2.
Proof.
  apply (shmref_portable demo_maps demo_maps' 0x40010 32 (Shmref 1 16 32));
    [apply demo_maps_ok..|done|done].
Defined.
