(* ===== verification/SegOps.v ===== *)
(** * The segment allocator

    [libdthread/dt_segops.c]: [dthread_shm_seginfo], [dthread_shm_segavail]
    and [dthread_shmseg_alloc].  Output structures passed by pointer are
    arguments: [None] is a null pointer, [Some x] a structure with contents
    [x], and the new contents are part of the result.  [spin_rc] is what
    [dthread_spin_lock] returns; the code between lock and unlock is one
    step. *)

From S2P Require Import Prelude Types ShmRef.

Record dthread_seginfo_t := Seginfo {
  si_mapping : Z;
  si_size : Z;
  si_mdoffset : Z;
  si_srcflags : Z;
  si_umapaddr : Z;
  si_firstavail : Z;
  si_endavail : Z }.

(** The metadata at [mapping + md_offset] of a segment. *)
Definition segmd_at (shmid : Z) (m : dthread_shmmap_t) (s : sst)
    : option dthread_shmseg_md_t := segmds s !! (shmid, md_offset m).

Definition dthread_shm_seginfo (shmid : Z) (sip : dthread_seginfo_t) (s : sst)
    : Z * dthread_seginfo_t :=
  match aget (shmmap s) shmid with
  | None => (ENOENT, sip)
  | Some m =>
      match segmd_at shmid m s with
      | None => (EINVAL, sip)
      | Some md =>
          if negb (seg_md_magic md =? DTHREAD_SEG_MD_MAGIC)
             || negb (dt_shmid (seg_self md) =? shmid)
             || negb (dt_offset (seg_self md) =? 0)
             || negb (dt_length (seg_self md) =? map_size m)
          then (EINVAL, sip)
          else (0, Seginfo (mapping m) (map_size m) (md_offset m)
                     (seg_srcflags md) (seg_umapaddr md) (first_avail md)
                     (end_avail md))
      end
  end.

Definition dthread_shm_segavail (shmid : Z) (got : option dthread_shmref_t)
    (s : sst) : Z * option dthread_shmref_t :=
  match aget (shmmap s) shmid with
  | None => (EINVAL, got)
  | Some m =>
      match segmd_at shmid m s with
      | None => (EINVAL, got)
      | Some md =>
          if negb (seg_md_magic md =? DTHREAD_SEG_MD_MAGIC) then (EINVAL, got)
          else
            (0, g ← got;
                Some (if (map_size m <? first_avail md)
                         || (end_avail md <? first_avail md)
                      then Shmref shmid (end_avail md) 0
                      else Shmref shmid (first_avail md)
                             (u64 (end_avail md - first_avail md))))
      end
  end.

(** The padding that makes [n] a multiple of the alignment. *)
Definition align_pad (n : Z) : Z :=
  let pad := n mod alignsz in
  if pad =? 0 then 0 else alignsz - pad.

(** The end of the critical section: hand out [total] bytes at the break. *)
Definition seg_take (shmid : Z) (m : dthread_shmmap_t) (md : dthread_shmseg_md_t)
    (total : Z) (ref : option dthread_shmref_t)
    : M sst (Z * option dthread_shmref_t) :=
  let rv := mapping m + first_avail md in
  let ref' := _ ← ref; Some (Shmref shmid (first_avail md) total) in
  modify (λ s, s <| segmds ::= <[(shmid, md_offset m) :=
    md <| first_avail := u64 (first_avail md + total) |>]> |>) ;;;
  retM (rv, ref').

Definition dthread_shmseg_alloc (spin_rc : Z) (shmid want : Z)
    (ref : option dthread_shmref_t) : M sst (Z * option dthread_shmref_t) :=
  sm <- gets shmmap ;;
  match aget sm shmid with
  | None => retM (0, ref)
  | Some m =>
      omd <- gets (segmd_at shmid m) ;;
      match omd with
      | None => retM (0, ref)
      | Some md =>
          if negb (seg_md_magic md =? DTHREAD_SEG_MD_MAGIC) then retM (0, ref)
          else
            let total := u64 (want + align_pad want) in
            if negb (spin_rc =? 0) then retM (0, ref)
            else if (map_size m <=? first_avail md)
                    || (end_avail md <=? first_avail md) then retM (0, ref)
            else
              let avail := u64 (end_avail md - first_avail md) in
              if total =? 0 then seg_take shmid m md avail ref
              else if avail <? total then retM (0, ref)
              else seg_take shmid m md total ref
      end
  end.

(** ** Invariant of a segment

    The metadata describes the whole segment, the available area ends inside
    it, and while space is left the break is aligned on this rank. *)
Record seg_ok (shmid : Z) (m : dthread_shmmap_t) (md : dthread_shmseg_md_t) : Prop := SegOk {
  so_magic : seg_md_magic md = DTHREAD_SEG_MD_MAGIC;
  so_self : seg_self md = Shmref shmid 0 (map_size m);
  so_map : map_ok m;
  so_avail : 0 ≤ first_avail md ≤ end_avail md;
  so_end : end_avail md ≤ map_size m;
  so_align : first_avail md < end_avail md →
    (mapping m + first_avail md) mod alignsz = 0 }.

Definition segs_ok (s : sst) : Prop :=
  ∀ shmid m, aget (shmmap s) shmid = Some m →
    ∃ md, segmd_at shmid m s = Some md ∧ seg_ok shmid m md.

(** The free part of segment [shmid]: what is not handed out yet. *)
Definition seg_room (shmid : Z) (s : sst) : Z * Z :=
  match aget (shmmap s) shmid with
  | None => (0, 0)
  | Some m =>
      match segmd_at shmid m s with
      | None => (0, 0)
      | Some md => (first_avail md, end_avail md)
      end
  end.

(** ** Arithmetic of the padding *)

Lemma align_pad_bounds n : 0 ≤ align_pad n < alignsz.
Proof.
  unfold align_pad, alignsz. pose proof (Z.mod_pos_bound n 16).
  destruct (Z.eqb_spec (n mod 16) 0); lia.
Qed.

Lemma align_pad_multiple n : (n + align_pad n) mod alignsz = 0.
Proof.
  unfold align_pad, alignsz. pose proof (Z.mod_pos_bound n 16).
  pose proof (Z.div_mod n 16).
  destruct (Z.eqb_spec (n mod 16) 0).
  - by rewrite Z.add_0_r.
  - replace (n + (16 - n mod 16)) with ((n / 16 + 1) * 16) by lia. apply Z.mod_mul. lia.
Qed.

Lemma mod_add_0 a b n : n ≠ 0 → a mod n = 0 → b mod n = 0 → (a + b) mod n = 0.
Proof. intros Hn Ha Hb. rewrite Z.add_mod, Ha, Hb by done. by rewrite Z.mod_0_l. Qed.

(** The total wraps to 0 exactly for a request of 0 or within 15 bytes of
    [2^64]. *)
Lemma total_small want :
  0 ≤ want ≤ 2 ^ 64 - alignsz → u64 (want + align_pad want) = want + align_pad want
    ∧ want + align_pad want < 2 ^ 64.
Proof.
  intros Hw. pose proof (align_pad_bounds want) as Hb.
  assert (want + align_pad want < 2 ^ 64); [|by split; [apply u64_small; lia|]].
  unfold align_pad, alignsz in *.
  destruct (Z.eqb_spec (want mod 16) 0) as [|Hne]; [lia|].
  destruct (Z.eq_dec want (2 ^ 64 - 16)) as [->|]; [done|].
  pose proof (Z.mod_pos_bound want 16). pose proof (Z.div_mod want 16). lia.
Qed.

Lemma total_wraps want :
  2 ^ 64 - alignsz < want < 2 ^ 64 → u64 (want + align_pad want) = 0.
Proof.
  intros Hw. pose proof (align_pad_bounds want). pose proof (align_pad_multiple want) as Hm.
  unfold alignsz in *. apply Z.mod_divide in Hm as [q Hq]; [|done].
  unfold u64. replace (want + align_pad want) with (2 ^ 64) by lia. done.
Qed.

(** ** Allocation *)

(** What a successful request of [want] bytes takes from a room of [avail]. *)
Definition seg_total (want avail : Z) : Z :=
  if want =? 0 then avail else want + align_pad want.

(** One request, against the room of its segment before the call. *)
Definition seg_result (shmid want : Z) (ref : option dthread_shmref_t) (s : sst)
    (res : Z * option dthread_shmref_t) (s' : sst) : Prop :=
  let '(lo, hi) := seg_room shmid s in
  let t := seg_total want (hi - lo) in
  if decide (lo < hi ∧ t ≤ hi - lo)
  then (∃ m, aget (shmmap s) shmid = Some m ∧ res.1 = mapping m + lo ∧
         (res.1) mod alignsz = 0 ∧ res.1 + t ≤ mapping m + map_size m) ∧
       res.2 = (_ ← ref; Some (Shmref shmid lo t)) ∧
       want ≤ t ∧ seg_room shmid s' = (lo + t, hi)
  else res = (0, ref) ∧ s' = s.

(** States that agree on everything but the break of one segment. *)
Definition only_segment (shmid : Z) (s s' : sst) : Prop :=
  shmmap s' = shmmap s ∧ amds s' = amds s ∧ mem s' = mem s ∧
  defarena s' = defarena s ∧ da_src s' = da_src s ∧
  ∀ k, k ≠ shmid → seg_room k s' = seg_room k s.

Lemma wp_seg_take shmid m md t ref s :
  segs_ok s → aget (shmmap s) shmid = Some m → segmd_at shmid m s = Some md →
  seg_ok shmid m md →
  0 ≤ t → first_avail md + t ≤ end_avail md →
  (t mod alignsz = 0 ∨ first_avail md + t = end_avail md) →
  wp (seg_take shmid m md t ref) (λ res s',
    res = (mapping m + first_avail md, _ ← ref; Some (Shmref shmid (first_avail md) t)) ∧
    segs_ok s' ∧ only_segment shmid s s' ∧
    seg_room shmid s' = (first_avail md + t, end_avail md)) s.
Proof.
  intros Hok Hm Hmd [Hg Hs Hmp Ha He Hal] Ht Hfit Hmod. unfold seg_take.
  destruct Hmp as (?&?&?). rewrite u64_small by lia.
  wp_steps. split; [done|]. split; [|split].
  - intros k m' Hk. unfold segmd_at; simpl in *.
    destruct (Z.eq_dec k shmid) as [->|Hne].
    + rewrite Hm in Hk. injection Hk as <-. rewrite lookup_insert_eq.
      eexists; split; [done|]. split; simpl; try done; [lia|].
      intros Hlt. destruct Hmod as [Hmod|]; [|lia].
      rewrite Z.add_assoc. apply mod_add_0; [done|apply Hal; lia|done].
    + rewrite lookup_insert_ne by congruence. by apply Hok.
  - repeat split. intros k Hk. unfold seg_room, segmd_at. simpl.
    destruct (aget (shmmap s) k); [|done]. by rewrite lookup_insert_ne by congruence.
  - unfold seg_room, segmd_at. simpl. by rewrite Hm, lookup_insert_eq.
Qed.

Lemma seg_room_eq shmid m md s :
  aget (shmmap s) shmid = Some m → segmd_at shmid m s = Some md →
  seg_room shmid s = (first_avail md, end_avail md).
Proof. intros Hm Hmd. unfold seg_room. by rewrite Hm, Hmd. Qed.

Lemma segalloc_wp spin_rc shmid want ref s :
  segs_ok s → 0 ≤ shmid → 0 ≤ want ≤ 2 ^ 64 - alignsz → spin_rc = 0 →
  wp (dthread_shmseg_alloc spin_rc shmid want ref) (λ res s',
    seg_result shmid want ref s res s' ∧ segs_ok s' ∧ only_segment shmid s s') s.
Proof.
  intros Hok Hid Hw ->. unfold dthread_shmseg_alloc, seg_result.
  apply wp_bind, wp_gets.
  destruct (aget (shmmap s) shmid) as [m|] eqn:Hm.
  2: { apply wp_ret. unfold seg_room. rewrite Hm. by case_decide; [lia|]. }
  destruct (Hok _ _ Hm) as (md&Hmd&Hs). apply wp_bind, wp_gets. rewrite Hmd.
  rewrite (seg_room_eq _ _ _ _ Hm Hmd). pose proof Hs as [Hg Hself (?&?&?) Ha He Hal].
  rewrite Hg, Z.eqb_refl. simpl. destruct (total_small want Hw) as [-> ?].
  pose proof (align_pad_bounds want). pose proof (align_pad_multiple want).
  unfold seg_total.
  destruct ((map_size m <=? first_avail md) || (end_avail md <=? first_avail md)) eqn:Efull.
  { apply wp_ret. case_decide; [|done]. breflect; lia. }
  breflect. rewrite u64_small by lia.
  destruct (Z.eqb_spec (want + align_pad want) 0) as [E0|E0];
    [|destruct (Z.ltb_spec (end_avail md - first_avail md) (want + align_pad want))].
  - assert (want = 0) as -> by lia. simpl.
    eapply wp_mono; [eapply wp_seg_take; eauto; lia|].
    intros res s' (->&?&?&?). case_decide; [|lia]. split; [|by split].
    split; [exists m; simpl; auto with lia|]. auto with lia.
  - apply wp_ret. destruct (Z.eqb_spec want 0) as [->|]; [by unfold align_pad in E0|].
    case_decide; [lia|done].
  - destruct (Z.eqb_spec want 0) as [->|]; [by unfold align_pad in E0|].
    eapply wp_mono; [eapply wp_seg_take; eauto; lia|].
    intros res s' (->&?&?&?). case_decide; [|lia]. split; [|by split].
    split; [exists m; simpl; auto with lia|]. auto with lia.
Qed.

(** ** Sequences of allocations *)

(** Requests of any ranks in the order in which they enter the critical
    section; the references of the successful ones. *)
Fixpoint seg_allocs (reqs : list (Z * Z)) : M sst (list dthread_shmref_t) :=
  match reqs with
  | [] => retM []
  | (shmid, want) :: reqs =>
      r <- dthread_shmseg_alloc 0 shmid want (Some (Shmref 0 0 0)) ;;
      refs <- seg_allocs reqs ;;
      retM (if r.1 =? 0 then refs else
              match r.2 with Some ref => ref :: refs | None => refs end)
  end.

Definition refs_disjoint (r1 r2 : dthread_shmref_t) : Prop :=
  dt_shmid r1 ≠ dt_shmid r2 ∨
  dt_offset r1 + dt_length r1 ≤ dt_offset r2 ∨
  dt_offset r2 + dt_length r2 ≤ dt_offset r1.

(** [r] lies in the room of its segment in [s]. *)
Definition ref_in_room (s : sst) (r : dthread_shmref_t) : Prop :=
  let '(lo, hi) := seg_room (dt_shmid r) s in
  lo ≤ dt_offset r ∧ 0 < dt_length r ∧ dt_offset r + dt_length r ≤ hi.

Definition reqs_ok (reqs : list (Z * Z)) : Prop :=
  Forall (λ q, 0 ≤ q.1 ∧ 0 ≤ q.2 ≤ 2 ^ 64 - alignsz) reqs.

(** One allocation: an empty result, or a reference at the front of the room
    and a room that begins behind it. *)
Lemma seg_result_room shmid want s res s' r :
  segs_ok s → 0 ≤ want → seg_result shmid want (Some r) s res s' →
  (res.1 = 0 ∧ s' = s) ∨
  (∃ ref, res.1 ≠ 0 ∧ res.2 = Some ref ∧ dt_shmid ref = shmid ∧ ref_in_room s ref ∧
    seg_room shmid s' = (dt_offset ref + dt_length ref, (seg_room shmid s).2) ∧
    (seg_room shmid s).1 ≤ dt_offset ref).
Proof.
  intros Hok Hw0. unfold seg_result. destruct (seg_room shmid s) as [lo hi] eqn:Hr.
  case_decide as Hd; [|intros [-> ->]; by left]. intros ((m&Hm&Hp&_&_)&Href&Hw&Hr').
  destruct (Hok _ _ Hm) as (md&Hmd&[_ _ (?&?&?) ? ? _]).
  pose proof (seg_room_eq _ _ _ _ Hm Hmd) as He. rewrite Hr in He. injection He as -> ->.
  right. eexists. split; [lia|]. split; [done|]. split; [done|].
  unfold ref_in_room. simpl. rewrite Hr. simpl. split; [|split; [done|lia]].
  unfold seg_total in *. pose proof (align_pad_bounds want).
  destruct (Z.eqb_spec want 0); lia.
Qed.

Lemma seg_allocs_wp reqs s :
  segs_ok s → reqs_ok reqs →
  wp (seg_allocs reqs) (λ refs s', segs_ok s' ∧ shmmap s' = shmmap s ∧
    Forall (ref_in_room s) refs ∧ ForallOrdPairs refs_disjoint refs) s.
Proof.
  intros Hok Hq. revert s Hok.
  induction Hq as [|[shmid want] reqs [Hid Hw] Hq IH]; intros s Hok; simpl in *.
  { apply wp_ret. repeat split; auto; constructor. }
  apply wp_bind. eapply wp_mono; [by apply segalloc_wp|].
  intros res s1 (Hres&Hok1&Hmap&_&_&_&_&Hoth). apply wp_bind.
  eapply wp_mono; [by apply IH|]. intros refs s2 (Hok2&Hmap2&Hin&Hdis). apply wp_ret.
  split; [done|]. split; [congruence|].
  destruct (seg_result_room _ _ _ _ _ _ Hok (proj1 Hw) Hres)
    as [(->&->)|(ref&Hne&->&Hsh&Hrm&Hr'&Hlo)]; [done|].
  rewrite (proj2 (Z.eqb_neq _ _) Hne).
  assert (∀ r, ref_in_room s1 r → ref_in_room s r ∧ refs_disjoint ref r) as Hstep.
  { intros r. unfold ref_in_room, refs_disjoint in *.
    destruct (Z.eq_dec (dt_shmid r) shmid) as [->|Hn].
    - rewrite Hr'. rewrite Hsh in *. destruct (seg_room shmid s) as [lo hi].
      simpl in *. intros (?&?&?). split; [lia|]. right. left. lia.
    - rewrite Hoth by done. intros Hr. split; [done|]. left. congruence. }
  split; constructor; try done.
  - eapply Forall_impl; [done|]. intros r Hr. by apply Hstep.
  - eapply Forall_impl; [done|]. intros r Hr. by apply Hstep.
Qed.

(** ** Claims *)

(** [dthread_shmseg_alloc] does what it promises on every request that
    does not come within 16 bytes of [2^64]: if the rounded size (or, for a
    request of 0, the rest) fits, it returns the aligned pointer at the break,
    with the reference of at least the wanted bytes inside the mapping, and
    moves the break behind it; otherwise it returns [NULL] and changes nothing.
    All segments stay well-formed and no other segment changes. *)
Theorem segalloc_correct shmid want ref s :
  segs_ok s → 0 ≤ shmid → 0 ≤ want ≤ 2 ^ 64 - alignsz →
  ∃ res s', dthread_shmseg_alloc 0 shmid want ref s = Ok (res, s') ∧
    seg_result shmid want ref s res s' ∧ segs_ok s' ∧ only_segment shmid s s'.
Proof. intros. by apply wp_ok, segalloc_wp. Qed.

(** Memory of a segment is handed out once: in any sequence of requests
    of any ranks, all the areas returned lie in the room the segments had at
    the start and no two of them overlap. *)
Theorem segallocs_disjoint reqs s :
  segs_ok s → reqs_ok reqs →
  ∃ refs s', seg_allocs reqs s = Ok (refs, s') ∧ segs_ok s' ∧
    Forall (ref_in_room s) refs ∧ ForallOrdPairs refs_disjoint refs.
Proof.
  intros Hok Hq. destruct (proj1 (wp_ok _ _ _) (seg_allocs_wp reqs s Hok Hq))
    as (refs&s'&He&?&_&?&?). by exists refs, s'.
Qed.

(** A request within 15 bytes of [2^64] wraps around to 0: instead of
    failing, [dthread_shmseg_alloc] hands out the whole rest of the segment,
    an area shorter than the request. *)
Theorem segalloc_overflow shmid want ref s :
  segs_ok s → (seg_room shmid s).1 < (seg_room shmid s).2 →
  2 ^ 64 - alignsz < want < 2 ^ 64 →
  wp (dthread_shmseg_alloc 0 shmid want (Some ref)) (λ res s', ∃ r,
    res.1 ≠ 0 ∧ res.2 = Some r ∧ dt_length r < want ∧
    seg_room shmid s' = ((seg_room shmid s).2, (seg_room shmid s).2)) s.
Proof.
  intros Hok Hr Hw. unfold dthread_shmseg_alloc. apply wp_bind, wp_gets.
  destruct (aget (shmmap s) shmid) as [m|] eqn:Hm;
    [|unfold seg_room in Hr; rewrite Hm in Hr; simpl in Hr; lia].
  destruct (Hok _ _ Hm) as (md&Hmd&Hs). apply wp_bind, wp_gets. rewrite Hmd.
  rewrite (seg_room_eq _ _ _ _ Hm Hmd) in *. simpl in Hr |- *.
  pose proof Hs as [Hg Hself (?&?&?) Ha He Hal]. rewrite Hg, Z.eqb_refl. simpl.
  rewrite total_wraps by done. rewrite Z.eqb_refl, u64_small by lia.
  destruct (Z.leb_spec (map_size m) (first_avail md)); [lia|].
  destruct (Z.leb_spec (end_avail md) (first_avail md)); [lia|]. simpl.
  eapply wp_mono; [eapply wp_seg_take; eauto; lia|].
  intros res s' (->&_&_&->). eexists. simpl. unfold alignsz in *.
  repeat split; [lia| |f_equal; lia].
  specialize (Hal Hr). apply Z.mod_divide in Hal as [q Hq]; [|done]. simpl. lia.
Qed.

Definition demo_seg : sst :=
  Sst [Shmmap 0x10000 0 0x4000] None (Shmref 0 0 0)
    {[ (0, 0) := Segmd DTHREAD_SEG_MD_MAGIC (Shmref 0 0 0x4000) 2 0 0x1000 0x4000 ]}
    ∅ (λ _ _, 0).

Lemma demo_seg_ok : segs_ok demo_seg.
Proof.
  intros k m Hm. pose proof (aget_Some_range _ _ _ Hm). simpl in *.
  assert (k = 0) as -> by lia. injection Hm as <-.
  eexists. split; [reflexivity|]. split; simpl; try done; unfold map_ok; simpl; lia.
Qed.

Lemma segalloc_correct_witness :
  ∃ res s', dthread_shmseg_alloc 0 0 20 None demo_seg = Ok (res, s') ∧
    seg_result 0 20 None demo_seg res s' ∧ segs_ok s' ∧ only_segment 0 demo_seg s'.
Proof. apply segalloc_correct; [apply demo_seg_ok|done|unfold alignsz; lia]. Defined.

Lemma segallocs_disjoint_witness :
  ∃ refs s', seg_allocs [(0, 20); (0, 0x8000); (0, 0); (0, 1)] demo_seg = Ok (refs, s') ∧
    segs_ok s' ∧ Forall (ref_in_room demo_seg) refs ∧
    ForallOrdPairs refs_disjoint refs.
Proof.
  apply segallocs_disjoint; [apply demo_seg_ok|].
  repeat constructor; simpl; unfold alignsz; lia.
Defined.

Lemma segalloc_overflow_witness :
  wp (dthread_shmseg_alloc 0 0 (2 ^ 64 - 8) (Some (Shmref 0 0 0))) (λ res s', ∃ r,
    res.1 ≠ 0 ∧ res.2 = Some r ∧ dt_length r < 2 ^ 64 - 8 ∧
    seg_room 0 s' = (0x4000, 0x4000)) demo_seg.
Proof. apply segalloc_overflow; [apply demo_seg_ok|done|done]. Defined.
