(* ===== verification/Establish.v ===== *)
(** * Establishing segments

    [libdthread/dt_segops.c]: [establish], which maps one segment on one rank
    and sets up or checks its metadata.  [Collective] runs it on all ranks.

    The operating system is a parameter [os]: what [open], [fstat],
    [ftruncate], the n-th [mmap] and [dthread_spin_init] return.  A result
    [inl e] is a failure with [errno = e].  The descriptors and the mappings a
    process holds are part of its state, so that leaks are visible. *)

From S2P Require Import Prelude Types ShmRef SegOps.

Definition DTHREAD_SRC_DEV : Z := 1.
Definition DTHREAD_SRC_FILE : Z := 2.
Definition DTHREAD_SRC_PSHM : Z := 3.
Definition DTHREAD_SRC_ADDR : Z := 4.
Definition DTHREAD_SRC_MASK : Z := 7.
Definition DTHREAD_SRC_UMAP : Z := 8.

Definition MAP_FAILED : Z := 2 ^ 64 - 1.
Definition sizeof_seg_md : Z := 72.

Record dthread_shmsrc_t := Shmsrc {
  dt_src : string;
  dt_srcflags : Z;
  dt_mmoffset : Z;
  dt_mmsize : Z;
  dt_addr : Z;
  dt_reserve_front : Z;
  dt_reserve_back : Z }.

Record os := Os {
  os_open : dthread_shmsrc_t → bool → Z + Z;
  os_fstat : dthread_shmsrc_t → Z + Z;
  os_ftruncate : dthread_shmsrc_t → Z → Z;
  os_mmap : nat → dthread_shmsrc_t → Z → Z + Z;
  os_spin_init : Z }.

(** One process: its table [dtrs->shmmap], the shared segment metadata, its
    open descriptors, its [mmap]ed areas and the [mmap] calls so far. *)
Record est := Est {
  e_map : list dthread_shmmap_t;
  e_md : gmap (Z * Z) dthread_shmseg_md_t;
  e_fds : list Z;
  e_areas : list (Z * Z);
  e_nmmap : nat }.

#[export] Instance est_eta : Eta est := λ r,
  Est (e_map r) (e_md r) (e_fds r) (e_areas r) (e_nmmap r).

(** [off_t] is a signed 64-bit integer. *)
Definition s64 (z : Z) : Z := if u64 z <? 2 ^ 63 then u64 z else u64 z - 2 ^ 64.

Section Establish.
Context (o : os) (pagesize : Z).

Definition close_invalidate (fd : Z) : M est Z :=
  modify (λ s, s <| e_fds ::= tailq_remove fd |>) ;;; retM (-1).

Definition munmap (addr len : Z) : M est unit :=
  modify (λ s, s <| e_areas ::= tailq_remove (addr, len) |>).

Definition open_src (src : dthread_shmsrc_t) (creat : bool) : M est (Z + Z) :=
  match os_open o src creat with
  | inl e => retM (inl e)
  | inr fd => modify (λ s, s <| e_fds ::= cons fd |>) ;;; retM (inr fd)
  end.

Definition mmap_src (src : dthread_shmsrc_t) (hint : Z) : M est (Z + Z) :=
  n <- gets e_nmmap ;;
  modify (λ s, s <| e_nmmap ::= S |>) ;;;
  match os_mmap o n src hint with
  | inl e => retM (inl e)
  | inr p => modify (λ s, s <| e_areas ::= cons (p, dt_mmsize src) |>) ;;; retM (inr p)
  end.

(** [mmap] with the error branch both file cases have: [inl] is [return(rv)],
    [inr] the new mapping with the open descriptor. *)
Definition map_fd (src : dthread_shmsrc_t) (hint fd : Z) : M est ((Z * Z) + (Z * Z)) :=
  r <- mmap_src src hint ;;
  match r with
  | inl rv =>
      if negb (rv =? 0) then fd <- close_invalidate fd ;; retM (inl (rv, fd))
      else retM (inr (MAP_FAILED, fd))
  | inr p => retM (inr (p, fd))
  end.

(** The switch on the source type. *)
Definition map_source (src : dthread_shmsrc_t) (hint : Z) (initialize : bool)
    : M est ((Z * Z) + (Z * Z)) :=
  let type := Z.land (dt_srcflags src) DTHREAD_SRC_MASK in
  if type =? DTHREAD_SRC_DEV then
    r <- open_src src false ;;
    match r with
    | inl rv => retM (inl (rv, -1))
    | inr fd => map_fd src hint fd
    end
  else if (type =? DTHREAD_SRC_FILE) || (type =? DTHREAD_SRC_PSHM) then
    r <- open_src src initialize ;;
    match r with
    | inl rv => retM (inl (rv, -1))
    | inr fd =>
        match os_fstat o src with
        | inl rv => fd <- close_invalidate fd ;; retM (inl (rv, fd))
        | inr st_size =>
            let expectedsize := s64 (dt_mmoffset src + dt_mmsize src) in
            if initialize && negb (st_size =? expectedsize) then
              let rv := os_ftruncate o src expectedsize in
              if negb (rv =? 0) then fd <- close_invalidate fd ;; retM (inl (rv, fd))
              else map_fd src hint fd
            else if negb (st_size =? expectedsize) then
              fd <- close_invalidate fd ;; retM (inl (EIO, fd))
            else map_fd src hint fd
        end
    end
  else if type =? DTHREAD_SRC_ADDR then
    if negb (Z.land (dt_srcflags src) DTHREAD_SRC_UMAP =? 0) then retM (inl (EINVAL, -1))
    else retM (inr (dt_addr src, -1))
  else retM (inl (EINVAL, -1)).

Definition unmap_and_fail (src : dthread_shmsrc_t) (newmapping fd rv : Z) : M est (Z * Z) :=
  if 0 <=? fd then
    munmap newmapping (dt_mmsize src) ;;;
    fd <- close_invalidate fd ;;
    retM (rv, fd)
  else retM (rv, fd).

(** Metadata of a new segment, or the check of an existing one; 0 or the error
    of the [goto unmap_and_fail]. *)
Definition setup_md (src : dthread_shmsrc_t) (idx mdoff : Z) (initialize : bool) : M est Z :=
  if initialize then
    let first := u64 (mdoff + pagesize) in
    let last := u64 (dt_mmsize src - dt_reserve_back src) in
    modify (λ s, s <| e_md ::= <[(idx, mdoff) :=
      Segmd DTHREAD_SEG_MD_MAGIC (Shmref idx 0 (dt_mmsize src)) (dt_srcflags src)
        0 first last]> |>) ;;;
    if last <=? first then retM EINVAL else retM (os_spin_init o)
  else
    omd <- gets (λ s, e_md s !! (idx, mdoff)) ;;
    match omd with
    | None => retM EINVAL
    | Some md =>
        if negb (seg_md_magic md =? DTHREAD_SEG_MD_MAGIC) then retM EINVAL
        else if negb (dt_shmid (seg_self md) =? idx)
                || negb (dt_offset (seg_self md) =? 0)
                || negb (dt_length (seg_self md) =? dt_mmsize src) then retM EINVAL
        else retM 0
    end.

(** The metadata offset: behind the front reserve, on the next page boundary. *)
Definition md_place (src : dthread_shmsrc_t) (newmapping : Z) : Z :=
  let mdptr := newmapping + dt_reserve_front src in
  let pad := mdptr mod pagesize in
  dt_reserve_front src + (if pad =? 0 then 0 else pagesize - pad).

(** The result and [*fd]. *)
Definition establish (src : dthread_shmsrc_t) (idx hint : Z) (initialize : bool)
    : M est (Z * Z) :=
  let totalreserve := u64 (dt_reserve_front src + dt_reserve_back src) in
  if dt_mmsize src <=? totalreserve then retM (EINVAL, -1)
  else if dt_mmsize src - totalreserve <? 2 * pagesize then retM (EINVAL, -1)
  else
    r <- map_source src hint initialize ;;
    match r with
    | inl err => retM err
    | inr (newmapping, fd) =>
        let mdoff := md_place src newmapping in
        if dt_mmsize src <? mdoff + sizeof_seg_md then crash OutOfBounds
        else
          rv <- setup_md src idx mdoff initialize ;;
          if negb (rv =? 0) then unmap_and_fail src newmapping fd rv
          else
            modify (λ s, s <| e_map ::= λ l, aset l idx
              (Shmmap newmapping mdoff (dt_mmsize src)) |>) ;;;
            retM (0, fd)
    end.
End Establish.

(** ** One rank *)

(** Documented behaviour of the operating system: failures set [errno],
    descriptors are not negative, a mapping does not start at 0 or wrap. *)
Record os_ok (o : os) (src : dthread_shmsrc_t) : Prop := OsOk {
  ok_open : ∀ c r, os_open o src c = r → match r with inl e => e ≠ 0 | inr fd => 0 ≤ fd end;
  ok_fstat : ∀ e, os_fstat o src = inl e → e ≠ 0;
  ok_mmap : ∀ n h r, os_mmap o n src h = r →
    match r with inl e => e ≠ 0 | inr p => 0 < p ∧ p + dt_mmsize src < 2 ^ 64 end }.

(** A source description that makes sense: the reserves do not wrap around, a
    given address is a mapping. *)
Record src_ok (src : dthread_shmsrc_t) : Prop := SrcOk {
  ok_size : 0 ≤ dt_mmsize src;
  ok_front : 0 ≤ dt_reserve_front src;
  ok_back : 0 ≤ dt_reserve_back src;
  ok_sum : dt_reserve_front src + dt_reserve_back src < 2 ^ 64;
  ok_addr : 0 < dt_addr src ∧ dt_addr src + dt_mmsize src < 2 ^ 64 }.

Definition pages_ok (pagesize : Z) : Prop :=
  sizeof_seg_md ≤ pagesize ≤ 2 ^ 30 ∧ pagesize mod alignsz = 0.

(** The process holds what it held before, or one descriptor and one area more. *)
Definition same_resources (s s' : est) : Prop :=
  e_fds s' = e_fds s ∧ e_areas s' = e_areas s.
Definition took (fd p len : Z) (s s' : est) : Prop :=
  e_fds s' = fd :: e_fds s ∧ e_areas s' = (p, len) :: e_areas s.
Definition holds (src : dthread_shmsrc_t) (fd p : Z) (s s' : est) : Prop :=
  fd = -1 ∧ same_resources s s' ∨ 0 ≤ fd ∧ took fd p (dt_mmsize src) s s'.

Lemma tailq_remove_head {A} `{EqDecision A} (x : A) l : tailq_remove x (x :: l) = l.
Proof. simpl. by rewrite decide_True. Qed.

(** What [map_source] leaves alone. *)
Definition tables_kept (s s' : est) : Prop := e_map s' = e_map s ∧ e_md s' = e_md s.

Definition mapped (src : dthread_shmsrc_t) (s : est) (r : (Z * Z) + (Z * Z)) (s' : est) : Prop :=
  tables_kept s s' ∧
  match r with
  | inl (rv, fd) => rv ≠ 0 ∧ fd = -1 ∧ same_resources s s'
  | inr (p, fd) => 0 < p ∧ p + dt_mmsize src < 2 ^ 64 ∧ holds src fd p s s'
  end.

Lemma map_fd_wp o src hint fd s :
  os_ok o src → 0 ≤ fd →
  wp (map_fd o src hint fd) (mapped src s) (s <| e_fds ::= cons fd |>).
Proof.
  intros [_ _ Hm] Hfd. unfold map_fd, mmap_src.
  apply wp_bind, wp_bind, wp_gets, wp_bind, wp_modify.
  destruct (os_mmap o _ src hint) as [e|p] eqn:E; apply Hm in E; simpl in E.
  - apply wp_ret. rewrite (proj2 (Z.eqb_neq _ _) E). simpl. unfold close_invalidate.
    wp_steps. repeat split; try done. simpl. by rewrite decide_True.
  - wp_steps. split; [done|]. split; [tauto|]. split; [tauto|]. right. done.
Qed.

Lemma fail_closed src rv fd s :
  rv ≠ 0 →
  wp (fd <- close_invalidate fd ;; retM (inl (rv, fd))) (mapped src s)
    (s <| e_fds ::= cons fd |>).
Proof.
  intros Hrv. unfold close_invalidate. wp_steps.
  repeat split; try done. simpl. by rewrite decide_True.
Qed.

Lemma map_source_wp o src hint init s :
  os_ok o src → src_ok src →
  wp (map_source o src hint init) (mapped src s) s.
Proof.
  intros Hos Hsrc. pose proof Hos as [Hop Hst _]. destruct Hsrc as [_ _ _ _ Haddr].
  unfold map_source, open_src.
  destruct (Z.land (dt_srcflags src) DTHREAD_SRC_MASK =? DTHREAD_SRC_DEV).
  { destruct (os_open o src false) as [e|fd] eqn:E; apply Hop in E; wp_steps; [done|].
    by apply map_fd_wp. }
  destruct (_ || _).
  { destruct (os_open o src init) as [e|fd] eqn:E; apply Hop in E; wp_steps; [done|].
    destruct (os_fstat o src) as [e|sz] eqn:Ef; [by apply fail_closed, Hst|].
    destruct (init && negb (sz =? s64 (dt_mmoffset src + dt_mmsize src))).
    - destruct (Z.eqb_spec (os_ftruncate o src (s64 (dt_mmoffset src + dt_mmsize src))) 0);
        simpl; [by apply map_fd_wp|by apply fail_closed].
    - destruct (negb (sz =? s64 (dt_mmoffset src + dt_mmsize src)));
        [by apply fail_closed|by apply map_fd_wp]. }
  destruct (_ =? DTHREAD_SRC_ADDR); [|by apply wp_ret].
  destruct (negb _); apply wp_ret; [done|]. split; [done|]. split; [tauto|].
  split; [tauto|]. by left.
Qed.

Lemma md_place_spec pagesize src p :
  0 < pagesize → 0 ≤ dt_reserve_front src →
  dt_reserve_front src ≤ md_place pagesize src p < dt_reserve_front src + pagesize ∧
  (p + md_place pagesize src p) mod pagesize = 0.
Proof.
  intros Hp Hf. unfold md_place.
  pose proof (Z.mod_pos_bound (p + dt_reserve_front src) pagesize Hp).
  pose proof (Z.div_mod (p + dt_reserve_front src) pagesize).
  destruct (Z.eqb_spec ((p + dt_reserve_front src) mod pagesize) 0) as [He|Hne].
  - rewrite Z.add_0_r. split; [lia|done].
  - split; [lia|]. rewrite Z.add_assoc.
    replace (p + dt_reserve_front src + (pagesize - (p + dt_reserve_front src) mod pagesize))
      with (((p + dt_reserve_front src) / pagesize + 1) * pagesize) by lia.
    by apply Z.mod_mul; lia.
Qed.

(** The metadata after a successful [establish]: fresh and well-formed, or
    found intact. *)
Definition md_good (src : dthread_shmsrc_t) (idx : Z) (initialize : bool)
    (m : dthread_shmmap_t) (s s' : est) : Prop :=
  ∃ md, e_md s' !! (idx, md_offset m) = Some md ∧
    seg_md_magic md = DTHREAD_SEG_MD_MAGIC ∧ seg_self md = Shmref idx 0 (map_size m) ∧
    if initialize then seg_ok idx m md ∧ first_avail md < end_avail md ∧
      dt_reserve_front src < first_avail md ∧
      end_avail md = dt_mmsize src - dt_reserve_back src ∧
      ∀ k, k ≠ (idx, md_offset m) → e_md s' !! k = e_md s !! k
    else e_md s' = e_md s.

Definition established (src : dthread_shmsrc_t) (idx pagesize : Z) (initialize : bool)
    (s : est) (r : Z * Z) (s' : est) : Prop :=
  r.1 ≠ 0 ∧ r.2 = -1 ∧ same_resources s s' ∧ e_map s' = e_map s ∨
  r.1 = 0 ∧ ∃ m, e_map s' = aset (e_map s) idx m ∧ map_ok m ∧
    map_size m = dt_mmsize src ∧ holds src r.2 (mapping m) s s' ∧
    dt_reserve_front src ≤ md_offset m ∧
    md_offset m + pagesize < dt_mmsize src - dt_reserve_back src ∧
    (mapping m + md_offset m) mod pagesize = 0 ∧ md_good src idx initialize m s s'.

Lemma holds_same src fd p s s1 s2 :
  holds src fd p s s1 → same_resources s1 s2 → holds src fd p s s2.
Proof.
  intros [[-> [Hf Ha]]|[Hfd [Hf Ha]]] [Hf2 Ha2]; [left|right]; split; try done;
    split; congruence.
Qed.

Lemma unmap_and_fail_wp src idx pagesize initialize s s2 p fd rv :
  rv ≠ 0 → e_map s2 = e_map s → holds src fd p s s2 →
  wp (unmap_and_fail src p fd rv) (established src idx pagesize initialize s) s2.
Proof.
  intros Hrv Hm Hholds. unfold unmap_and_fail.
  destruct Hholds as [[-> Hsame]|[Hfd [Hf Ha]]]; [by apply wp_ret; left|].
  destruct (Z.leb_spec 0 fd); [|lia]. unfold munmap, close_invalidate. wp_steps. left.
  split; [done|]. split; [done|]. unfold same_resources. cbn -[tailq_remove].
  by rewrite Hf, Ha, !tailq_remove_head.
Qed.

Section Setup.
Context (o : os) (pagesize : Z) (src : dthread_shmsrc_t) (idx p : Z).
Hypothesis (Hsrc : src_ok src) (Hpages : pages_ok pagesize) (Hp : 0 < p)
  (Hend : p + dt_mmsize src < 2 ^ 64)
  (Hroom : 2 * pagesize ≤ dt_mmsize src - (dt_reserve_front src + dt_reserve_back src)).
Let m := Shmmap p (md_place pagesize src p) (dt_mmsize src).

(** The new metadata describes a well-formed segment. *)
Lemma new_md_ok :
  let first := md_offset m + pagesize in
  let last := dt_mmsize src - dt_reserve_back src in
  u64 first = first ∧ u64 last = last ∧ first < last ∧
  seg_ok idx m (Segmd DTHREAD_SEG_MD_MAGIC (Shmref idx 0 (dt_mmsize src))
    (dt_srcflags src) 0 first last).
Proof using All.
  destruct Hpages as [Hpg Hal]. destruct Hsrc. unfold sizeof_seg_md in *.
  destruct (md_place_spec pagesize src p) as [Hplace Hpal]; [lia|done|]. simpl.
  split; [apply u64_small; lia|]. split; [apply u64_small; lia|]. split; [lia|].
  split; simpl; try done; try lia; [unfold map_ok; simpl; lia|]. intros _.
  unfold alignsz in *. apply Z.mod_divide in Hal as [q Hq]; [|done].
  apply Z.mod_divide in Hpal as [q' Hq']; [|lia]. rewrite Z.add_assoc, Hq', Hq.
  replace (q' * (q * 16) + q * 16) with ((q' * q + q) * 16) by lia. by apply Z.mod_mul.
Qed.

Lemma setup_md_wp initialize s :
  wp (setup_md o pagesize src idx (md_offset m) initialize) (λ rv s',
    e_map s' = e_map s ∧ same_resources s s' ∧ (rv = 0 → md_good src idx initialize m s s')) s.
Proof using All.
  unfold setup_md. destruct initialize.
  - destruct new_md_ok as (->&->&Hlt&Hok). wp_steps; (split; [done|]); (split; [done|]).
    + done.
    + intros _. eexists. split; [simpl; by rewrite lookup_insert_eq|]. simpl.
      destruct Hsrc. destruct (md_place_spec pagesize src p) as [Hplace _];
        [destruct Hpages; unfold sizeof_seg_md in *; lia|done|].
      destruct Hpages. unfold sizeof_seg_md in *. simpl in *.
      repeat split; try done; try lia; try apply Hok. intros k Hk. by rewrite lookup_insert_ne.
  - apply wp_bind, wp_gets. destruct (e_md s !! (idx, md_offset m)) as [md|] eqn:E;
      [|by apply wp_ret].
    destruct (Z.eqb_spec (seg_md_magic md) DTHREAD_SEG_MD_MAGIC); simpl; [|by apply wp_ret].
    destruct (_ || _) eqn:Eself; apply wp_ret; (split; [done|]); (split; [done|]); [done|].
    intros _. exists md. breflect. split; [done|]. split; [done|]. split; [|done].
    destruct (seg_self md); simpl in *. by subst.
Qed.
End Setup.

Lemma establish_wp o pagesize src idx hint initialize s :
  os_ok o src → src_ok src → pages_ok pagesize →
  wp (establish o pagesize src idx hint initialize)
    (established src idx pagesize initialize s) s.
Proof.
  intros Hos Hsrc Hpages. pose proof Hsrc as [Hsz Hfr Hbk Hsum _].
  unfold establish. rewrite u64_small by lia.
  destruct (Z.leb_spec (dt_mmsize src) (dt_reserve_front src + dt_reserve_back src));
    [by apply wp_ret; left|].
  destruct (Z.ltb_spec (dt_mmsize src - (dt_reserve_front src + dt_reserve_back src)) (2 * pagesize))
    as [|Hroom]; [by apply wp_ret; left|].
  apply wp_bind. eapply wp_mono; [by apply map_source_wp|].
  intros [[rv fd]|[p fd]] s1 [[Hm1 Hmd1] Hr]; [apply wp_ret; left; tauto|].
  destruct Hr as (Hp&Hend&Hholds).
  destruct (md_place_spec pagesize src p) as [Hplace Hpal];
    [destruct Hpages; unfold sizeof_seg_md in *; lia|done|].
  destruct (Z.ltb_spec (dt_mmsize src) (md_place pagesize src p + sizeof_seg_md));
    [destruct Hpages; unfold sizeof_seg_md in *; lia|].
  apply wp_bind. eapply wp_mono; [by apply (setup_md_wp o pagesize src idx p)|].
  intros rv s2 (Hm2&Hsame&Hgood). pose proof (holds_same _ _ _ _ _ _ Hholds Hsame) as Hholds2.
  destruct (Z.eqb_spec rv 0) as [->|Hrv]; simpl.
  2: { apply unmap_and_fail_wp; [done|congruence|done]. }
  wp_steps. right. split; [done|]. eexists. simpl. rewrite Hm2, Hm1. split; [done|].
  split; [unfold map_ok; simpl; lia|]. split; [done|]. split; [done|].
  split; [simpl; lia|]. split; [simpl; lia|]. split; [done|].
  destruct (Hgood eq_refl) as (md&?&?&?&Hi). exists md. split; [done|]. split; [done|].
  split; [done|]. destruct initialize; [|simpl; congruence].
  destruct Hi as (?&?&?&?&Hk). split; [done|]. split; [done|]. split; [done|].
  split; [done|]. intros k Hne. simpl. rewrite Hk by done. by rewrite Hmd1.
Qed.

(** ** Claims *)

(** C24. [establish] either maps the segment or leaves nothing behind.  On
    every error path (bad sizes, failing [open], [fstat], [ftruncate], [mmap] or
    [dthread_spin_init], metadata that does not match) the process has the
    descriptors, the mappings and the segment table it had before, and [*fd] is
    -1.  On success the table entry describes the mapping, the metadata is on a
    page boundary between the reserves, and it is a freshly initialised
    well-formed segment, or an existing one with the right magic number and
    self reference. *)
Theorem establish_correct o pagesize src idx hint initialize s :
  os_ok o src → src_ok src → pages_ok pagesize →
  ∃ r s', establish o pagesize src idx hint initialize s = Ok (r, s') ∧
    established src idx pagesize initialize s r s'.
Proof. intros. by apply wp_ok, establish_wp. Qed.

Definition demo_src : dthread_shmsrc_t :=
  Shmsrc "/seg0" DTHREAD_SRC_PSHM 0 0x10000 0x1000 100 0.
Definition demo_os : os :=
  Os (λ _ _, inr 5) (λ _, inr 0) (λ _ _, 0) (λ _ _ _, inr 0x7000000) 0.

Lemma demo_os_ok : os_ok demo_os demo_src.
Proof. split; intros; simplify_eq/=; lia. Qed.

Lemma demo_src_ok : src_ok demo_src ∧ pages_ok 4096.
Proof. split; [split; simpl; lia|split; [unfold sizeof_seg_md; lia|done]]. Qed.

Lemma establish_correct_witness :
  ∃ r s', establish demo_os 4096 demo_src 0 0 true (Est [Shmmap 0 0 0] ∅ [] [] 0) = Ok (r, s') ∧
    established demo_src 0 4096 true (Est [Shmmap 0 0 0] ∅ [] [] 0) r s'.
Proof. apply establish_correct; [apply demo_os_ok|apply demo_src_ok..]. Defined.
