(* ===== verification/Collective.v ===== *)
(** * Establishing segments on all ranks

    The collective [dthread_shmseg_establish] of [libdthread/dt_segops.c].
    All ranks run it in step: between two collective MPI calls each rank works
    on its own table, descriptors and mappings (only rank 0 writes metadata),
    and every decision is taken on broadcast or reduced values, so the ranks of
    the model take their turns inside a phase in rank order.  All ranks pass the
    same table of sources.  [coll_ok] says which collective calls succeed; a
    failing one ends in [MPI_Abort].  Error numbers are positive [int]s, which
    the conversions to [uintptr_t] and back keep. *)

From S2P Require Import Prelude Types ShmRef SegOps Establish.

(** ** State of the job: the shared metadata, and per rank the process and its
    local variable [fd]. *)
Record job := Job {
  j_md : gmap (Z * Z) dthread_shmseg_md_t;
  j_ranks : list est;
  j_fds : list Z;
  j_ncoll : nat }.

#[export] Instance job_eta : Eta job := λ r,
  Job (j_md r) (j_ranks r) (j_fds r) (j_ncoll r).

(** An operation of rank [r]; it sees the shared metadata. *)
Definition on_rank {A} (r : nat) (op : M est A) : M job A := λ j,
  match j_ranks j !! r with
  | None => Crash OutOfBounds
  | Some s =>
      match op (s <| e_md := j_md j |>) with
      | Ok (a, s') => Ok (a, j <| j_ranks ::= <[r := s']> |> <| j_md := e_md s' |>)
      | Crash f => Crash f
      end
  end.

Definition get_fd (r : nat) : M job Z := λ j,
  match j_fds j !! r with Some fd => Ok (fd, j) | None => Crash OutOfBounds end.

Definition set_fd (r : nat) (fd : Z) : M job unit :=
  modify (λ j, j <| j_fds ::= <[r := fd]> |>).

(** The same code on every rank of a list, in order. *)
Fixpoint traverse {A} (f : nat → M job A) (l : list nat) : M job (list A) :=
  match l with
  | [] => retM []
  | r :: l => a <- f r;; rest <- traverse f l;; retM (a :: rest)
  end.

(** [MPI_MIN] and [MPI_MAX] over [uintptr_t] values. *)
Definition reduce_min (l : list Z) : Z := foldr Z.min (2 ^ 64 - 1) l.
Definition reduce_max (l : list Z) : Z := foldr Z.max 0 l.

(** [dtrs->shmmap[lcv].mapping] *)
Definition map_of (lcv : Z) : M est Z :=
  l <- gets e_map;;
  m <- get_some OutOfBounds (aget l lcv);;
  retM (mapping m).

Definition set_map_of (lcv p : Z) : M est unit :=
  l <- gets e_map;;
  m <- get_some OutOfBounds (aget l lcv);;
  modify (λ s, s <| e_map := aset l lcv (m <| mapping := p |>) |>).

Section Collective.
Context (oss : nat → os) (pagesize : Z) (coll_ok : nat → bool) (nranks : nat).

Definition ranks : list nat := seq 0 nranks.

Definition collective : M job bool :=
  n <- gets j_ncoll;;
  modify (λ j, j <| j_ncoll := S n |>) ;;;
  retM (coll_ok n).

(** From [retry:] to the reductions, on one rank: [mapping] and [rv]. *)
Definition try_map (src : dthread_shmsrc_t) (lcv hint : Z) (r : nat) : M job (Z * Z) :=
  mapping <- on_rank r (map_of lcv);;
  if mapping =? 0 then
    fd <- get_fd r;;
    if fd =? -1 then
      x <- on_rank r (establish (oss r) pagesize src lcv hint false);;
      set_fd r x.2 ;;;
      if negb (x.1 =? 0) then retM (MAP_FAILED, x.1)
      else mapping <- on_rank r (map_of lcv);; retM (mapping, 0)
    else
      p <- on_rank r (mmap_src (oss r) src hint);;
      match p with
      | inl rv => retM (MAP_FAILED, rv)
      | inr p => on_rank r (set_map_of lcv p) ;;; retM (p, 0)
      end
  else retM (mapping, 0).

(** Before another try: a mapping elsewhere is dropped. *)
Definition drop_other (src : dthread_shmsrc_t) (lcv hint : Z) (r : nat) : M job unit :=
  mapping <- on_rank r (map_of lcv);;
  if negb (mapping =? hint) then
    on_rank r (munmap mapping (dt_mmsize src)) ;;;
    on_rank r (set_map_of lcv 0)
  else retM tt.

(** Rank 0 notes the uniform address. *)
Definition note_umap (lcv : Z) : M est unit :=
  l <- gets e_map;;
  m <- get_some OutOfBounds (aget l lcv);;
  md <- gets e_md;;
  d <- get_some OutOfBounds (md !! (lcv, md_offset m));;
  modify (λ s, s <| e_md := <[(lcv, md_offset m) := d <| seg_umapaddr := mapping m |>]> md |>).

(** The loop at [retry:].  [None] is an abort, [Some 0] success, [Some rv] the
    jump to [failed].  [fuel] bounds the passes; [retries] allows at most nine
    more than one. *)
Fixpoint retry (fuel : nat) (src : dthread_shmsrc_t) (lcv : Z) (umap : bool)
    (hint retries : Z) : M job (option Z) :=
  match fuel with
  | O => crash Diverges
  | S fuel =>
      rs <- traverse (try_map src lcv hint) ranks;;
      ok <- collective;;
      if negb ok then retM None
      else
        ok <- collective;;
        if negb ok then retM None
        else
          let min := reduce_min rs.*1 in
          let max := reduce_max rs.*1 in
          let rv := reduce_max rs.*2 in
          if (min =? MAP_FAILED) || (max =? MAP_FAILED) || negb (rv =? 0) then
            retM (Some (if rv =? 0 then EIO else rv))
          else if umap then
            if negb (min =? max) then
              if 0 <? retries then
                traverse (drop_other src lcv max) ranks ;;;
                retry fuel src lcv umap max (retries - 1)
              else retM (Some EAGAIN)
            else on_rank 0 (note_umap lcv) ;;; retM (Some 0)
          else retM (Some 0)
  end.

Definition is_umap (src : dthread_shmsrc_t) : bool :=
  negb (Z.land (dt_srcflags src) DTHREAD_SRC_UMAP =? 0).

(** One pass of the loop over the sources, up to success or [failed]. *)
Definition establish_seg (src : dthread_shmsrc_t) (lcv : Z) : M job (option Z) :=
  modify (λ j, j <| j_fds := replicate nranks (-1) |>) ;;;
  x <- on_rank 0 (establish (oss 0) pagesize src lcv 0 true);;
  set_fd 0 x.2 ;;;
  r0hint <- (if x.1 =? 0 then on_rank 0 (map_of lcv) else retM 0);;
  ok <- collective;;
  if negb ok then retM None
  else if negb (x.1 =? 0) then retM (Some x.1)
  else
    retry 10 src lcv (is_umap src) (if is_umap src then r0hint else 0)
      (if is_umap src then 9 else 0).

Definition close_fd (r : nat) : M job unit :=
  fd <- get_fd r;;
  fd <- on_rank r (close_invalidate fd);;
  set_fd r fd.

Definition is_mmapped (src : dthread_shmsrc_t) : bool :=
  let type := Z.land (dt_srcflags src) DTHREAD_SRC_MASK in
  (type =? DTHREAD_SRC_DEV) || (type =? DTHREAD_SRC_FILE) || (type =? DTHREAD_SRC_PSHM).

(** The loop at [failed:], over the sources up to [lcv]. *)
Definition release_entry (i : Z) (src : dthread_shmsrc_t) : M est unit :=
  l <- gets e_map;;
  m <- get_some OutOfBounds (aget l i);;
  whenM (is_mmapped src && negb (mapping m =? 0)) (munmap (mapping m) (map_size m)) ;;;
  modify (λ s, s <| e_map ::= (λ l, aset l i (Shmmap 0 0 0)) |>).

Fixpoint release_entries (i : Z) (srcs : list dthread_shmsrc_t) : M est unit :=
  match srcs with
  | [] => retM tt
  | src :: srcs => release_entry i src ;;; release_entries (i + 1) srcs
  end.

Definition release_rank (srcs : list dthread_shmsrc_t) (r : nat) : M job unit :=
  close_fd r ;;; on_rank r (release_entries 0 srcs).

(** The sources from number [length done] on. *)
Fixpoint establish_from (done todo : list dthread_shmsrc_t) : M job (option Z) :=
  match todo with
  | [] => retM (Some 0)
  | src :: todo =>
      r <- establish_seg src (Z.of_nat (length done));;
      match r with
      | None => retM None
      | Some rv =>
          if rv =? 0 then
            traverse close_fd ranks ;;;
            establish_from (done ++ [src]) todo
          else
            traverse (release_rank (done ++ [src])) ranks ;;;
            retM (Some rv)
      end
  end.

(** The result is the same on all ranks; [None] if the job was aborted. *)
Definition dthread_shmseg_establish (shmsrctab : list dthread_shmsrc_t) : M job (option Z) :=
  establish_from [] shmsrctab.

End Collective.

(** ** One rank *)

(** Documented behaviour of the operating system for a source: that of
    [Establish], and [mmap] returns page boundaries. *)
Definition os_pages (pagesize : Z) (o : os) (src : dthread_shmsrc_t) : Prop :=
  os_ok o src ∧ ∀ n h p, os_mmap o n src h = inr p → p mod pagesize = 0.

Section Rank.
Context (pagesize : Z) (src : dthread_shmsrc_t) (idx : Z).

(** Where the segment can be mapped, and where its metadata is. *)
Definition p_ok (p : Z) : Prop :=
  0 < p ∧ p + dt_mmsize src < 2 ^ 64 ∧ 0 < dt_mmsize src ∧
  if is_mmapped src then p mod pagesize = 0 else p = dt_addr src.

Definition seg_off : Z := md_place pagesize src (if is_mmapped src then 0 else dt_addr src).

Definition seg_map (p : Z) : dthread_shmmap_t := Shmmap p seg_off (dt_mmsize src).

Lemma md_place_off p : p_ok p → md_place pagesize src p = seg_off.
Proof.
  intros (_&_&_&Hp). unfold seg_off, md_place. destruct (is_mmapped src); [|by subst].
  by rewrite <- (Zplus_mod_idemp_l p), Hp.
Qed.

(** What the rank has acquired for the segment. *)
Definition acquired (fd p : Z) (s0 s : est) : Prop :=
  if is_mmapped src then 0 ≤ fd ∧ took fd p (dt_mmsize src) s0 s
  else fd = -1 ∧ same_resources s0 s.

Lemma map_source_kind o hint initialize s :
  os_pages pagesize o src →
  wp (map_source o src hint initialize) (λ r s',
    match r with
    | inr (p, fd) =>
        (if is_mmapped src then p mod pagesize = 0 else p = dt_addr src) ∧
        (is_mmapped src = true → 0 ≤ fd) ∧ (is_mmapped src = false → fd = -1)
    | inl _ => True
    end) s.
Proof.
  intros [[Hop _ Hm] Hal].
  assert (∀ fd s, is_mmapped src = true → 0 ≤ fd → wp (map_fd o src hint fd) (λ r _,
    match r with
    | inr (p, fd) =>
        (if is_mmapped src then p mod pagesize = 0 else p = dt_addr src) ∧
        (is_mmapped src = true → 0 ≤ fd) ∧ (is_mmapped src = false → fd = -1)
    | inl _ => True
    end) s) as Hfd.
  { intros fd s1 -> Hfd. unfold map_fd, mmap_src. apply wp_bind, wp_bind, wp_gets, wp_bind, wp_modify.
    destruct (os_mmap o _ src hint) as [e|p] eqn:E.
    - apply Hm in E as E'. apply wp_ret. rewrite (proj2 (Z.eqb_neq _ _) E'). by wp_steps.
    - apply Hal in E. by wp_steps. }
  unfold map_source, open_src, is_mmapped in *. cbv zeta in *.
  destruct (_ =? DTHREAD_SRC_DEV); simpl in *.
  { destruct (os_open o src false) as [e|fd] eqn:E; apply Hop in E; wp_steps; [done|]. by apply Hfd. }
  destruct (_ || _).
  { destruct (os_open o src initialize) as [e|fd] eqn:E; apply Hop in E; wp_steps; [done|].
    destruct (os_fstat o src); [by unfold close_invalidate; wp_steps|].
    destruct (_ && _); [destruct (negb _)|destruct (negb _)];
      solve [by unfold close_invalidate; wp_steps | by apply Hfd]. }
  destruct (_ =? DTHREAD_SRC_ADDR); [|by apply wp_ret].
  destruct (negb _); by apply wp_ret.
Qed.

Lemma setup_md_keeps o initialize off s :
  wp (setup_md o pagesize src idx off initialize)
    (λ _ s', initialize = false → e_md s' = e_md s) s.
Proof. unfold setup_md. destruct initialize; by wp_steps. Qed.

Lemma unmap_and_fail_rv p fd rv s :
  wp (unmap_and_fail src p fd rv) (λ r s', r.1 = rv ∧ e_md s' = e_md s) s.
Proof. unfold unmap_and_fail, munmap, close_invalidate. by wp_steps. Qed.

(** [establish] in these terms. *)
Definition est_result (initialize : bool) (s : est) (r : Z * Z) (s' : est) : Prop :=
  r.1 ≠ 0 ∧ r.2 = -1 ∧ same_resources s s' ∧ e_map s' = e_map s ∨
  r.1 = 0 ∧ ∃ p, p_ok p ∧ e_map s' = aset (e_map s) idx (seg_map p) ∧
    acquired r.2 p s s' ∧ md_good src idx initialize (seg_map p) s s'.

Lemma establish_step o hint initialize s :
  os_pages pagesize o src → src_ok src → pages_ok pagesize →
  wp (establish o pagesize src idx hint initialize) (λ r s',
    est_result initialize s r s' ∧ (initialize = false → e_md s' = e_md s)) s.
Proof.
  intros Hos Hsrc Hpages. pose proof Hsrc as [Hsz Hfr Hbk Hsum _].
  unfold establish. rewrite u64_small by lia.
  destruct (Z.leb_spec (dt_mmsize src) (dt_reserve_front src + dt_reserve_back src));
    [by apply wp_ret; split; [left|]|].
  destruct (Z.ltb_spec (dt_mmsize src - (dt_reserve_front src + dt_reserve_back src)) (2 * pagesize))
    as [|Hroom]; [by apply wp_ret; split; [left|]|].
  apply wp_bind. eapply wp_mono.
  { apply wp_and; [by apply map_source_wp; [apply Hos|]|by apply map_source_kind]. }
  intros [[rv fd]|[p fd]] s1 [[[Hm1 Hmd1] Hr] Hk].
  { apply wp_ret. split; [left; tauto|done]. }
  destruct Hr as (Hp&Hend&Hholds). destruct Hk as (Hkind&Hfd1&Hfd2).
  assert (p_ok p) as Hpok.
  { unfold sizeof_seg_md, pages_ok in *. split_and!; done || lia. } rewrite (md_place_off p Hpok).
  destruct (md_place_spec pagesize src p) as [Hplace _];
    [destruct Hpages; unfold sizeof_seg_md in *; lia|done|]. rewrite (md_place_off p Hpok) in Hplace.
  destruct (Z.ltb_spec (dt_mmsize src) (seg_off + sizeof_seg_md));
    [destruct Hpages; unfold sizeof_seg_md in *; lia|].
  apply wp_bind. eapply wp_mono.
  { pose proof (setup_md_wp o pagesize src idx p Hsrc Hpages Hp Hend ltac:(lia) initialize s1) as Hw.
    simpl in Hw. rewrite (md_place_off p Hpok) in Hw. apply wp_and; [exact Hw|].
    apply setup_md_keeps. }
  intros rv s2 ((Hm2&Hsame&Hgood)&Hkeep). pose proof (holds_same _ _ _ _ _ _ Hholds Hsame) as Hholds2.
  destruct (Z.eqb_spec rv 0) as [->|Hrv]; simpl.
  2: { eapply wp_mono; [apply wp_and;
         [apply (unmap_and_fail_wp src idx pagesize initialize s); [done|congruence|done]
         |apply unmap_and_fail_rv]|].
       intros r s3 [Hest [Hr1 Hmd]]. split; [|intros ->; rewrite Hmd; rewrite Hkeep; done].
       destruct Hest as [Hest|[Hr0 _]]; [by left|congruence]. }
  wp_steps. split; [right; split; [done|]|intros ->; simpl; rewrite Hkeep; done].
  exists p. split; [done|]. split; [simpl; by rewrite Hm2, Hm1|]. split.
  - unfold acquired. destruct Hholds2 as [[-> ?]|[? ?]]; destruct (is_mmapped src).
    + specialize (Hfd1 eq_refl). lia.
    + done.
    + done.
    + specialize (Hfd2 eq_refl). lia.
  - destruct (Hgood eq_refl) as (md&?&?&?&Hi). exists md. split_and!; [done|done|done|].
    destruct initialize; [|simpl; congruence].
    destruct Hi as (?&?&?&?&Hkk). split_and!; try done.
    intros k Hne. simpl. rewrite Hkk by done. by rewrite Hmd1.
Qed.

(** The rank's state while the segment is being established: nothing done yet
    or nothing acquired, mapped at some place, or between two mappings. *)
Inductive seg_state (s0 : est) : Z → est → Prop :=
  | St_none s : same_resources s0 s → e_map s = e_map s0 → seg_state s0 (-1) s
  | St_mapped fd p s : p_ok p → e_map s = aset (e_map s0) idx (seg_map p) →
      acquired fd p s0 s → seg_state s0 fd s
  | St_moving fd s : 0 ≤ fd → is_mmapped src = true →
      e_map s = aset (e_map s0) idx (seg_map 0) →
      e_fds s = fd :: e_fds s0 → e_areas s = e_areas s0 → seg_state s0 fd s.

Definition mapped_at (s0 : est) (p fd : Z) (s : est) : Prop :=
  p_ok p ∧ e_map s = aset (e_map s0) idx (seg_map p) ∧ acquired fd p s0 s.

(** What a rank brings to the reductions. *)
Definition tried (s0 : est) (a : Z * Z) (s : est) (fd : Z) : Prop :=
  seg_state s0 fd s ∧ (a.2 = 0 ∧ mapped_at s0 a.1 fd s ∨ a.1 = MAP_FAILED ∧ a.2 ≠ 0).
End Rank.

(** ** All ranks *)

Definition upd_rank (r : nat) (s : est) (fd : Z) (j : job) : job :=
  j <| j_ranks ::= <[r := s]> |> <| j_fds ::= <[r := fd]> |>.

Lemma wp_on_rank {A} r (op : M est A) (Q : A → job → Prop) j s :
  j_ranks j !! r = Some s →
  wp op (λ a s', Q a (j <| j_ranks ::= <[r := s']> |> <| j_md := e_md s' |>))
    (s <| e_md := j_md j |>) →
  wp (on_rank r op) Q j.
Proof.
  unfold wp, on_rank. intros ->. by destruct (op (s <| e_md := j_md j |>)) as [[a s']|].
Qed.

Lemma wp_get_fd r (Q : Z → job → Prop) j fd :
  j_fds j !! r = Some fd → Q fd j → wp (get_fd r) Q j.
Proof. unfold wp, get_fd. by intros ->. Qed.

Section Traverse.
Context {A : Type} (f : nat → M job A).
Context (P : nat → est → Z → Prop) (Q : nat → A → est → Z → Prop).
Context (md : gmap (Z * Z) dthread_shmseg_md_t).
Hypothesis Hf : ∀ r s fd j, j_md j = md → j_ranks j !! r = Some s → j_fds j !! r = Some fd →
  P r s fd → wp (f r) (λ a j', ∃ s' fd', j' = upd_rank r s' fd' j ∧ Q r a s' fd') j.

Lemma traverse_from k : ∀ i j,
  j_md j = md → length (j_ranks j) = (i + k)%nat → length (j_fds j) = (i + k)%nat →
  (∀ r s fd, (i ≤ r)%nat → j_ranks j !! r = Some s → j_fds j !! r = Some fd → P r s fd) →
  wp (traverse f (seq i k)) (λ rs j', j_md j' = md ∧ j_ncoll j' = j_ncoll j ∧
    length (j_ranks j') = (i + k)%nat ∧ length (j_fds j') = (i + k)%nat ∧ length rs = k ∧
    (∀ r, (r < i)%nat → j_ranks j' !! r = j_ranks j !! r ∧ j_fds j' !! r = j_fds j !! r) ∧
    (∀ r a s fd, rs !! r = Some a → j_ranks j' !! (i + r)%nat = Some s →
       j_fds j' !! (i + r)%nat = Some fd → Q (i + r) a s fd)) j.
Proof using All.
  induction k as [|k IH]; intros i j Hmd Hlr Hlf HP; simpl.
  { apply wp_ret. split_and!; done || lia. }
  destruct (lookup_lt_is_Some_2 (j_ranks j) i) as [s Hs]; [lia|].
  destruct (lookup_lt_is_Some_2 (j_fds j) i) as [fd Hfd]; [lia|].
  apply wp_bind. eapply wp_mono; [apply (Hf i s fd j); eauto|].
  intros a j1 (s'&fd'&->&HQ). apply wp_bind.
  eapply wp_mono; [apply (IH (S i)); simpl; rewrite ?length_insert; try done; try lia|].
  { intros r t g Hr Ht Hg. simpl in Ht, Hg.
    rewrite list_lookup_insert_ne in Ht by lia. rewrite list_lookup_insert_ne in Hg by lia. apply HP; [lia|done|done]. }
  intros rs j2 (Hmd2&Hn2&Hlr2&Hlf2&Hlen&Hold&Hnew). apply wp_ret.
  destruct (Hold i) as [Hri Hfi]; [lia|]. simpl in Hri, Hfi.
  rewrite list_lookup_insert_eq in Hri by lia. rewrite list_lookup_insert_eq in Hfi by lia.
  split_and!; [done|done|lia|lia|simpl; lia| |].
  - intros r Hr. destruct (Hold r) as [E1 E2]; [lia|]. simpl in E1, E2.
    rewrite list_lookup_insert_ne in E1 by lia. by rewrite list_lookup_insert_ne in E2 by lia.
  - intros [|r] b t g Hb Ht Hg; simpl in Hb.
    + rewrite Nat.add_0_r in *. by simplify_eq.
    + replace (i + S r)%nat with (S i + r)%nat in * by lia. by eapply Hnew.
Qed.
End Traverse.

(** A process with the job's metadata. *)
Definition with_md (j : job) (s : est) : est := s <| e_md := j_md j |>.

(** Steps of one rank that leave the metadata alone. *)
Definition at_rank (r : nat) (s : est) (fd : Z) (j : job) : Prop :=
  j_ranks j !! r = Some s ∧ j_fds j !! r = Some fd.

Lemma at_upd_rank r s fd s' fd' j : at_rank r s fd j → at_rank r s' fd' (upd_rank r s' fd' j).
Proof.
  intros [Hs Hfd]. split; apply list_lookup_insert_eq; by eapply lookup_lt_Some.
Qed.

Lemma upd_upd_rank r s fd s' fd' j :
  upd_rank r s fd (upd_rank r s' fd' j) = upd_rank r s fd j.
Proof. unfold upd_rank. simpl. by rewrite !list_insert_insert_eq. Qed.

Lemma wp_rank_op {A} r (op : M est A) (Q : A → job → Prop) j s fd :
  at_rank r s fd j →
  wp op (λ a s', e_md s' = j_md j ∧ Q a (upd_rank r s' fd j)) (with_md j s) →
  wp (on_rank r op) Q j.
Proof.
  intros [Hs Hfd] Hw. eapply wp_on_rank; [done|]. eapply wp_mono; [exact Hw|].
  intros a s' [Hmd HQ]. rewrite Hmd. unfold upd_rank in HQ. simpl in *.
  by rewrite (list_insert_id (j_fds j) r fd Hfd) in HQ.
Qed.

Lemma wp_set_fd r fd' (Q : unit → job → Prop) j s fd :
  at_rank r s fd j → Q tt (upd_rank r s fd' j) → wp (set_fd r fd') Q j.
Proof.
  intros [Hs Hfd] HQ. apply wp_modify. unfold upd_rank in HQ. simpl in *.
  by rewrite (list_insert_id (j_ranks j) r s Hs) in HQ.
Qed.

Lemma map_of_wp lcv m (Q : Z → est → Prop) s :
  aget (e_map s) lcv = Some m → Q (mapping m) s → wp (map_of lcv) Q s.
Proof. intros Hm HQ. apply wp_bind, wp_gets, wp_bind, (wp_get_some _ _ m); done. Qed.

Lemma set_map_of_wp lcv p m (Q : unit → est → Prop) s :
  aget (e_map s) lcv = Some m →
  Q tt (s <| e_map ::= (λ l, aset l lcv (m <| mapping := p |>)) |>) → wp (set_map_of lcv p) Q s.
Proof. intros Hm HQ. apply wp_bind, wp_gets, wp_bind, (wp_get_some _ _ m); done. Qed.

Section Seg.
Context (pagesize : Z) (o : os) (src : dthread_shmsrc_t) (idx : Z) (s0 : est) (r : nat).
Hypothesis Hpages : pages_ok pagesize.
Hypothesis Hsrc : src_ok src.
Hypothesis Hos : os_pages pagesize o src.
Hypothesis Hzero : aget (e_map s0) idx = Some (Shmmap 0 0 0).

Abbreviation st := (seg_state pagesize src idx s0).

Lemma aget_put m : aget (aset (e_map s0) idx m) idx = Some m.
Proof using Hzero. apply aget_aset_eq. by eapply aget_Some_range. Qed.

(** The common start: the rank reads its mapping. *)
Lemma rank_map_of {A} (k : Z → M job A) (Q : A → job → Prop) m s fd j :
  at_rank r s fd j → aget (e_map s) idx = Some m →
  wp (k (mapping m)) Q (upd_rank r (with_md j s) fd j) →
  wp (p <- on_rank r (map_of idx);; k p) Q j.
Proof using Type.
  intros Hat Hm Hk. apply wp_bind. eapply wp_rank_op; [done|].
  by eapply map_of_wp.
Qed.

Abbreviation try_post j := (λ (a : Z * Z) j', ∃ s' fd',
  j' = upd_rank r s' fd' j ∧ tried pagesize src idx s0 a s' fd').

Lemma try_map_none oss hint s j :
  oss r = o → at_rank r s (-1) j → same_resources s0 s → e_map s = e_map s0 →
  wp (try_map oss pagesize src idx hint r) (try_post j) j.
Proof using All.
  intros Ho Hat Hsame Hmap. eapply rank_map_of; [done|by rewrite Hmap|].
  simpl Z.eqb. cbv iota. pose proof (at_upd_rank r s (-1) (with_md j s) (-1) j Hat) as Hat1.
  apply wp_bind. eapply wp_get_fd; [apply Hat1|]. simpl Z.eqb. cbv iota. apply wp_bind.
  eapply wp_rank_op; [exact Hat1|]. rewrite Ho. eapply wp_mono; [by apply establish_step|].
  intros x s2 [Hres Hmd]. split; [by rewrite Hmd|]. rewrite upd_upd_rank.
  pose proof (at_upd_rank r s (-1) s2 (-1) j Hat) as Hat2.
  apply wp_bind. eapply wp_set_fd; [exact Hat2|]. rewrite upd_upd_rank.
  destruct Hres as [(Hx&Hx2&Hsm&Hm2)|(Hx&p&Hp&Hm2&Hacq&_)].
  - rewrite (proj2 (Z.eqb_neq _ _) Hx). simpl negb. cbv iota. apply wp_ret.
    exists s2, x.2. split; [done|]. split; [|right; split; done].
    rewrite Hx2. apply St_none; [|by rewrite Hm2].
    destruct Hsame, Hsm. split; simpl in *; congruence.
  - rewrite Hx. simpl negb. cbv iota.
    pose proof (at_upd_rank r s (-1) s2 x.2 j Hat) as Hat3.
    eapply rank_map_of; [exact Hat3|rewrite Hm2; simpl; rewrite Hmap; apply aget_put|].
    apply wp_ret. rewrite upd_upd_rank. eexists _, _. split; [done|].
    assert (mapped_at pagesize src idx s0 p x.2 (with_md (upd_rank r s2 x.2 j) s2)) as Hmapped.
    { split_and!; [done|simpl; rewrite Hm2; simpl; by rewrite Hmap|].
      unfold acquired, took, same_resources in *. simpl in *. destruct Hsame.
      destruct (is_mmapped src); intuition congruence. }
    split; [|by left]. by eapply St_mapped; apply Hmapped.
Qed.

Lemma try_map_moving oss hint s fd j :
  oss r = o → at_rank r s fd j → 0 ≤ fd → is_mmapped src = true → 0 < dt_mmsize src →
  e_map s = aset (e_map s0) idx (seg_map pagesize src 0) →
  e_fds s = fd :: e_fds s0 → e_areas s = e_areas s0 →
  wp (try_map oss pagesize src idx hint r) (try_post j) j.
Proof using All.
  intros Ho Hat Hfd Hmm Hsz Hmap Hfds Hareas.
  eapply rank_map_of; [done|rewrite Hmap; apply aget_put|]. simpl Z.eqb. cbv iota.
  pose proof (at_upd_rank r s fd (with_md j s) fd j Hat) as Hat1.
  apply wp_bind. eapply wp_get_fd; [apply Hat1|].
  destruct (Z.eqb_spec fd (-1)); [lia|]. apply wp_bind.
  eapply wp_rank_op; [exact Hat1|]. rewrite Ho. unfold mmap_src.
  apply wp_bind, wp_gets, wp_bind, wp_modify. simpl e_nmmap.
  destruct Hos as [[_ _ Hm] Hal].
  destruct (os_mmap o (e_nmmap s) src hint) as [e|p] eqn:E.
  - apply Hm in E as E'. apply wp_ret. split; [done|]. rewrite upd_upd_rank. apply wp_ret.
    eexists _, _. split; [done|]. split; [by apply St_moving|by right].
  - apply Hm in E as E'. apply Hal in E. apply wp_bind, wp_modify, wp_ret. split; [done|].
    rewrite upd_upd_rank. apply wp_bind.
    eapply wp_rank_op; [apply (at_upd_rank _ _ _ _ _ _ Hat)|].
    eapply set_map_of_wp; [simpl; rewrite Hmap; apply aget_put|]. split; [done|]. apply wp_ret.
    rewrite upd_upd_rank. eexists _, _. split; [done|].
    assert (mapped_at pagesize src idx s0 p fd (with_md j s <| e_nmmap ::= S |>
      <| e_areas ::= cons (p, dt_mmsize src) |> <| e_map ::= (λ l, aset l idx (seg_map pagesize src p)) |>))
      as Hmapped.
    { split_and!; [|simpl; by rewrite Hmap, aset_aset|].
      - unfold p_ok. rewrite Hmm. simpl. tauto.
      - unfold acquired. rewrite Hmm. split; [done|]. split; simpl; congruence. }
    split; [|by left]. by eapply St_mapped; apply Hmapped.
Qed.

Lemma try_map_spec oss hint s fd j :
  oss r = o → 0 < dt_mmsize src → at_rank r s fd j → st fd s →
  wp (try_map oss pagesize src idx hint r) (try_post j) j.
Proof using All.
  intros Ho Hsz Hat Hst. destruct Hst as [s1 Hsame Hmap|fd1 p s1 Hp Hmap Hacq|fd1 s1 Hfd Hmm Hmap Hfds Hareas].
  - by apply (try_map_none _ _ s1).
  - eapply rank_map_of; [done|rewrite Hmap; apply aget_put|]. simpl mapping.
    destruct (Z.eqb_spec p 0) as [->|_]; [destruct Hp; lia|]. apply wp_ret. eexists _, _. split; [done|].
    split; [by eapply St_mapped|]. by left.
  - by apply (try_map_moving _ _ s1 fd1).
Qed.

Lemma drop_other_spec hint p s fd j :
  at_rank r s fd j → is_mmapped src = true → mapped_at pagesize src idx s0 p fd s →
  wp (drop_other src idx hint r) (λ _ j', ∃ s' fd',
    j' = upd_rank r s' fd' j ∧ st fd' s') j.
Proof using Hzero.
  intros Hat Hmm (Hp&Hmap&Hacq). unfold drop_other.
  eapply rank_map_of; [done|rewrite Hmap; apply aget_put|]. simpl mapping.
  destruct (Z.eqb_spec p hint); simpl negb; cbv iota.
  { apply wp_ret. eexists _, _. split; [done|]. by eapply St_mapped. }
  unfold acquired in Hacq. rewrite Hmm in Hacq. destruct Hacq as [Hfd [Hfds Hareas]].
  apply wp_bind. eapply wp_rank_op; [apply (at_upd_rank _ _ _ _ _ _ Hat)|].
  apply wp_modify. split; [done|]. rewrite upd_upd_rank.
  eapply wp_rank_op; [apply (at_upd_rank _ _ _ _ _ _ Hat)|].
  eapply set_map_of_wp; [simpl; rewrite Hmap; apply aget_put|]. split; [done|].
  rewrite upd_upd_rank. eexists _, _. split; [done|].
  apply St_moving; simpl; try done.
  - by rewrite Hmap, aset_aset.
  - rewrite Hareas. apply tailq_remove_head.
Qed.
End Seg.

(** ** Reductions *)
Lemma reduce_max_ge l x : x ∈ l → x ≤ reduce_max l.
Proof.
  induction l as [|y l IH]; [by intros ?%not_elem_of_nil|].
  intros [->|Hx]%elem_of_cons; simpl; [lia|]. specialize (IH Hx). lia.
Qed.

Lemma reduce_max_le l b : 0 ≤ b → Forall (λ x, x ≤ b) l → reduce_max l ≤ b.
Proof. intros Hb. induction 1; simpl; lia. Qed.

Lemma reduce_min_le l x : x ∈ l → reduce_min l ≤ x.
Proof.
  induction l as [|y l IH]; [by intros ?%not_elem_of_nil|].
  intros [->|Hx]%elem_of_cons; simpl; [lia|]. specialize (IH Hx). lia.
Qed.

Lemma reduce_min_ge l b : b ≤ 2 ^ 64 - 1 → Forall (λ x, b ≤ x) l → b ≤ reduce_min l.
Proof. intros Hb. induction 1; simpl; lia. Qed.

(** ** Metadata of a segment *)
Section Md.
Context (pagesize : Z) (src : dthread_shmsrc_t) (idx : Z).

(** The metadata is in place and well-formed wherever the segment is mapped. *)
Definition md_has (md : gmap (Z * Z) dthread_shmseg_md_t) : Prop :=
  ∃ d, md !! (idx, seg_off pagesize src) = Some d ∧
    ∀ p, p_ok pagesize src p → seg_ok idx (seg_map pagesize src p) d.

Lemma p_ok_align p p' :
  pages_ok pagesize → p_ok pagesize src p → p_ok pagesize src p' → p mod alignsz = p' mod alignsz.
Proof.
  intros [Hpg Hal] (_&_&_&Hp) (_&_&_&Hp'). destruct (is_mmapped src); [|by subst].
  unfold alignsz in *. apply Z.mod_divide in Hal as [q Hq]; [|done].
  assert (∀ x, x mod pagesize = 0 → x mod 16 = 0) as Hx.
  { intros x Hx. apply Z.mod_divide in Hx as [y Hy]; [|unfold sizeof_seg_md in Hpg; lia].
    rewrite Hy, Hq. replace (y * (q * 16)) with ((y * q) * 16) by lia. by apply Z.mod_mul. }
  by rewrite !Hx.
Qed.

Lemma seg_ok_move p p' d :
  pages_ok pagesize → p_ok pagesize src p → p_ok pagesize src p' →
  seg_ok idx (seg_map pagesize src p) d → seg_ok idx (seg_map pagesize src p') d.
Proof.
  intros Hpg Hp Hp' [Hm Hs Hmap Ha He Hal]. pose proof (p_ok_align p p' Hpg Hp Hp') as Hmod.
  split; simpl in *; try done.
  - destruct Hp' as (?&?&?&_). unfold map_ok. simpl. lia.
  - intros Hlt. specialize (Hal Hlt). simpl in Hal.
    rewrite <- Zplus_mod_idemp_l, <- Hmod, Zplus_mod_idemp_l. done.
Qed.

Lemma md_has_good p s s' :
  pages_ok pagesize → p_ok pagesize src p →
  md_good src idx true (seg_map pagesize src p) s s' → md_has (e_md s').
Proof.
  intros Hpg Hp (d&Hd&_&_&Hok&_). exists d. split; [done|].
  intros p' Hp'. by apply (seg_ok_move p).
Qed.

Lemma md_has_umap md d p :
  md !! (idx, seg_off pagesize src) = Some d → md_has md →
  md_has (<[(idx, seg_off pagesize src) := d <| seg_umapaddr := p |>]> md).
Proof.
  intros Hd (d'&Hd'&Hok). simplify_eq. eexists. split; [by rewrite lookup_insert_eq|].
  intros q Hq. destruct (Hok q Hq). by split.
Qed.
End Md.

(** A collective call; when it fails the job is aborted. *)
Lemma wp_collective coll_ok (m : M job (option Z)) (Q : option Z → job → Prop) j :
  (∀ j', (∃ n, coll_ok n = false) → Q None j') →
  wp m Q (j <| j_ncoll := S (j_ncoll j) |>) →
  wp (ok <- collective coll_ok;; if negb ok then retM None else m) Q j.
Proof.
  intros Hfail Hm. unfold collective. apply wp_bind, wp_bind, wp_gets, wp_bind, wp_modify, wp_ret.
  destruct (coll_ok (j_ncoll j)) eqn:E; [done|]. apply wp_ret, Hfail. by exists (j_ncoll j).
Qed.

(** ** The retry loop *)
Section Retry.
Context (oss : nat → os) (pagesize : Z) (coll_ok : nat → bool) (nranks : nat).
Context (src : dthread_shmsrc_t) (idx : Z) (base : nat → est).
(** All ranks satisfy [P]. *)
Definition all_ranks (P : nat → est → Z → Prop) (j : job) : Prop :=
  length (j_ranks j) = nranks ∧ length (j_fds j) = nranks ∧
  ∀ r s fd, j_ranks j !! r = Some s → j_fds j !! r = Some fd → P r s fd.

Abbreviation in_seg := (λ r s fd, seg_state pagesize src idx (base r) fd s).

(** All ranks have the segment, at the places [ps]. *)
Definition all_mapped (ps : list Z) (j : job) : Prop :=
  length ps = nranks ∧ all_ranks (λ r s fd, ∀ p, ps !! r = Some p →
    mapped_at pagesize src idx (base r) p fd s) j.

Lemma traverse_all {A} (f : nat → M job A) P Q j :
  (∀ r s fd j', (r < nranks)%nat → j_md j' = j_md j → at_rank r s fd j' → P r s fd →
     wp (f r) (λ a j'', ∃ s' fd', j'' = upd_rank r s' fd' j' ∧ Q r a s' fd') j') →
  all_ranks P j →
  wp (traverse f (ranks nranks)) (λ rs j', j_md j' = j_md j ∧ length rs = nranks ∧
    all_ranks (λ r s fd, ∀ a, rs !! r = Some a → Q r a s fd) j') j.
Proof using Type.
  intros Hf (Hlr&Hlf&HP). eapply wp_mono.
  - apply (traverse_from f (λ r s fd, (r < nranks)%nat ∧ P r s fd) Q (j_md j)); [|done|done|done|].
    + intros r s fd j' Hmd Hr Hfd [? ?]. by apply (Hf r s fd).
    + intros r s fd _ Hs Hfd. split; [apply lookup_lt_Some in Hs; lia|by apply HP].
  - intros rs j' (Hmd&_&?&?&Hlen&_&HQ). split_and!; [done|done|]. split_and!; [done|done|].
    intros r s fd Hs Hfd a Ha. by apply (HQ r a s fd).
Qed.

Lemma all_ranks_mono (P Q : nat → est → Z → Prop) j :
  (∀ r s fd, P r s fd → Q r s fd) → all_ranks P j → all_ranks Q j.
Proof using Type. intros HPQ (?&?&HP). split_and!; [done|done|]. eauto. Qed.

Lemma rank_lookup P j r : all_ranks P j → (r < nranks)%nat → ∃ s fd, at_rank r s fd j ∧ P r s fd.
Proof using Type.
  intros (Hlr&Hlf&HP) Hr.
  destruct (lookup_lt_is_Some_2 (j_ranks j) r) as [s Hs]; [lia|].
  destruct (lookup_lt_is_Some_2 (j_fds j) r) as [fd Hfd]; [lia|].
  exists s, fd. split; [done|]. by apply HP.
Qed.

Hypothesis Hpages : pages_ok pagesize.
Hypothesis Hsrc : src_ok src.
Hypothesis Hos : ∀ r, os_pages pagesize (oss r) src.
Hypothesis Hzero : ∀ r, aget (e_map (base r)) idx = Some (Shmmap 0 0 0).
Hypothesis Hsize : 0 < dt_mmsize src.
Hypothesis Hn : (0 < nranks)%nat.

(** When the reductions show no failure, every rank is mapped. *)
Lemma reduced_ok rs j :
  length rs = nranks →
  all_ranks (λ r s fd, ∀ a, rs !! r = Some a → tried pagesize src idx (base r) a s fd) j →
  reduce_max rs.*1 ≠ MAP_FAILED → all_mapped rs.*1 j.
Proof using All.
  intros Hlen Hall Hmax. split; [by rewrite length_fmap|].
  assert (Forall (λ x, x ≤ MAP_FAILED) rs.*1) as Hle.
  { apply Forall_fmap, Forall_lookup. intros r a Ha. simpl.
    destruct (rank_lookup _ j r Hall) as (s&fd&_&Htry).
    { apply lookup_lt_Some in Ha. lia. }
    destruct (Htry a Ha) as [_ [[_ ((?&?&?&_)&_)]|[-> _]]]; unfold MAP_FAILED; lia. }
  apply (reduce_max_le _ MAP_FAILED) in Hle as Hle'; [|done].
  eapply all_ranks_mono; [|exact Hall]. intros r s fd Htry p Hp. simpl in Htry.
  rewrite list_lookup_fmap in Hp. destruct (rs !! r) as [a|] eqn:Ea; [|done]. simplify_eq/=.
  destruct (Htry a eq_refl) as [_ [[_ ?]|[Hf _]]]; [done|]. exfalso. apply Hmax.
  assert (MAP_FAILED ≤ reduce_max rs.*1); [|lia]. rewrite <- Hf. apply reduce_max_ge.
  apply list_elem_of_fmap_2, list_elem_of_lookup. by exists r.
Qed.

Lemma in_seg_tried rs j :
  length rs = nranks →
  all_ranks (λ r s fd, ∀ a, rs !! r = Some a → tried pagesize src idx (base r) a s fd) j →
  all_ranks in_seg j.
Proof using All.
  intros Hlen Hall. pose proof Hall as (?&?&Htry). split_and!; [done|done|].
  intros r s fd Hs Hfd. destruct (lookup_lt_is_Some_2 rs r) as [a Ha].
  { apply lookup_lt_Some in Hs. lia. }
  by destruct (Htry r s fd Hs Hfd a Ha).
Qed.

(** How the loop ends: the job is aborted, the segment failed, or it is mapped
    everywhere, in UMAP mode at one address. *)
Definition seg_outcome (md : gmap (Z * Z) dthread_shmseg_md_t) (umap : bool)
    (res : option Z) (j : job) : Prop :=
  match res with
  | None => ∃ n, coll_ok n = false
  | Some rv =>
      rv ≠ 0 ∧ all_ranks in_seg j ∨
      rv = 0 ∧ md_has pagesize src idx (j_md j) ∧
      (∀ k, k ≠ (idx, seg_off pagesize src) → j_md j !! k = md !! k) ∧
      ∃ ps, all_mapped ps j ∧ (umap = true → ∀ p q, p ∈ ps → q ∈ ps → p = q)
  end.

Lemma note_umap_spec (ps : list Z) (md : gmap (Z * Z) dthread_shmseg_md_t) (Q : unit → job → Prop) (j : job) :
  all_mapped ps j → md_has pagesize src idx (j_md j) →
  (∀ k, k ≠ (idx, seg_off pagesize src) → j_md j !! k = md !! k) →
  (∀ j', md_has pagesize src idx (j_md j') →
     (∀ k, k ≠ (idx, seg_off pagesize src) → j_md j' !! k = md !! k) →
     all_mapped ps j' → Q tt j') →
  wp (on_rank 0 (note_umap idx)) Q j.
Proof using All.
  intros [Hlen Hall] Hmd Hother HQ. pose proof Hall as (Hlr&Hlf&Hm).
  destruct (rank_lookup _ j 0 Hall Hn) as (s&fd&[Hs Hfd]&Hmap).
  destruct (lookup_lt_is_Some_2 ps 0) as [p Hp]; [lia|].
  destruct (Hmap p Hp) as (Hpok&Hemap&Hacq). pose proof Hmd as (d&Hd&_).
  eapply wp_on_rank; [done|]. unfold note_umap. apply wp_bind, wp_gets, wp_bind.
  apply (wp_get_some _ _ (seg_map pagesize src p)).
  { simpl. rewrite Hemap. apply aget_put, Hzero. }
  apply wp_bind, wp_gets, wp_bind, (wp_get_some _ _ d); [done|]. apply wp_modify, HQ; simpl.
  - by apply md_has_umap.
  - intros k Hk. rewrite lookup_insert_ne by done. by apply Hother.
  - split; [done|]. split_and!; simpl; [by rewrite length_insert|done|].
    intros r s' fd' Hs' Hfd' q Hq. destruct (decide (r = 0%nat)) as [->|Hr].
    + rewrite list_lookup_insert_eq in Hs' by lia. simplify_eq. by split_and!.
    + rewrite list_lookup_insert_ne in Hs' by done. by apply (Hm r s' fd').
Qed.

(** Memory that is not mapped here is at its given address on all ranks. *)
Lemma addr_uniform ps j :
  all_mapped ps j → is_mmapped src = false → reduce_min ps = reduce_max ps.
Proof using All.
  intros [Hlen Hall] Hmm.
  assert (Forall (λ p, p = dt_addr src) ps) as Haddr.
  { apply Forall_lookup. intros r p Hp.
    destruct (rank_lookup _ j r Hall) as (s&fd&_&Hm); [apply lookup_lt_Some in Hp; lia|].
    destruct (Hm p Hp) as [(_&_&_&E) _]. by rewrite Hmm in E. }
  destruct (lookup_lt_is_Some_2 ps 0) as [p Hp]; [lia|].
  apply list_elem_of_lookup_2 in Hp. destruct (ok_addr _ Hsrc) as [? ?].
  pose proof (reduce_min_le _ _ Hp). pose proof (reduce_max_ge _ _ Hp).
  rewrite Forall_forall in Haddr. rewrite (Haddr p Hp) in *.
  assert (dt_addr src ≤ reduce_min ps).
  { apply reduce_min_ge; [lia|]. apply Forall_forall. intros x Hx. rewrite (Haddr x Hx). lia. }
  assert (reduce_max ps ≤ dt_addr src).
  { apply reduce_max_le; [lia|]. apply Forall_forall. intros x Hx. rewrite (Haddr x Hx). lia. }
  lia.
Qed.

Lemma retry_spec (md : gmap (Z * Z) dthread_shmseg_md_t) fuel : ∀ umap hint retries j,
  0 ≤ retries < Z.of_nat fuel → all_ranks in_seg j → md_has pagesize src idx (j_md j) →
  (∀ k, k ≠ (idx, seg_off pagesize src) → j_md j !! k = md !! k) →
  wp (retry oss pagesize coll_ok nranks fuel src idx umap hint retries) (seg_outcome md umap) j.
Proof using All.
  induction fuel as [|fuel IH]; intros umap hint retries j Hfuel Hall Hmd Hother; [lia|].
  simpl. apply wp_bind. eapply wp_mono.
  { apply (traverse_all _ in_seg (λ r, tried pagesize src idx (base r))); [|exact Hall].
    intros r s fd j' _ _ Hat Hst. by apply (try_map_spec pagesize (oss r) src idx (base r) r Hpages Hsrc (Hos r) (Hzero r) oss hint s fd). }
  intros rs j1 (Hmd1&Hlen&Htried). pose proof (in_seg_tried rs j1 Hlen Htried) as Hin1.
  rewrite <- Hmd1 in Hmd. setoid_rewrite <- Hmd1 in Hother.
  apply wp_collective; [done|].
  apply wp_collective; [done|].
  set (j2 := j1 <| j_ncoll := _ |> <| j_ncoll := _ |>).
  destruct (_ || _ || _) eqn:Efail.
  { apply wp_ret. left. split; [|exact Hin1]. case_match; breflect; done. }
  breflect. assert (all_mapped rs.*1 j2) as Hmapped by by apply (reduced_ok rs j1).
  destruct umap.
  2: { apply wp_ret. right. split_and!; [done|done|done|]. by exists rs.*1. }
  destruct (Z.eqb_spec (reduce_min rs.*1) (reduce_max rs.*1)) as [Heq|Hne]; simpl negb; cbv iota.
  - apply wp_bind. apply (note_umap_spec rs.*1 md); [done|done|done|].
    intros j3 Hmd3 Hother3 Hm3. apply wp_ret. right. split_and!; [done|done|done|].
    exists rs.*1. split; [done|]. intros _ p q Hp Hq.
    apply reduce_max_ge in Hp as ?. apply reduce_max_ge in Hq as ?.
    apply reduce_min_le in Hp, Hq. lia.
  - destruct (Z.ltb_spec 0 retries); [|apply wp_ret; left; split; [done|exact Hin1]].
    assert (is_mmapped src = true) as Hmm.
    { destruct (is_mmapped src) eqn:E; [done|]. by apply (addr_uniform _ _ Hmapped) in E. }
    apply wp_bind. eapply wp_mono.
    { apply (traverse_all _ (λ r s fd, ∀ p, rs.*1 !! r = Some p →
          mapped_at pagesize src idx (base r) p fd s) (λ r _ s fd, in_seg r s fd)); [|exact (proj2 Hmapped)].
      intros r s fd j' Hr _ Hat Hm.
      destruct (lookup_lt_is_Some_2 rs.*1 r) as [p Hp]; [rewrite length_fmap; lia|].
      eapply drop_other_spec; [done|done|done|by apply Hm]. }
    intros us j3 (Hmd3&Hlen3&Hin3). apply IH; [lia| | |].
    + destruct Hin3 as (?&?&Hin3). split_and!; [done|done|]. intros r s fd Hs Hfd.
      destruct (lookup_lt_is_Some_2 us r) as [u Hu]; [apply lookup_lt_Some in Hs; lia|].
      by apply (Hin3 r s fd Hs Hfd u).
    + by rewrite Hmd3.
    + by rewrite Hmd3.
Qed.
End Retry.

(** ** One segment *)
Section OneSeg.
Context (oss : nat → os) (pagesize : Z) (coll_ok : nat → bool) (nranks : nat).
Context (src : dthread_shmsrc_t) (idx : Z) (base : nat → est).
Hypothesis Hpages : pages_ok pagesize.
Hypothesis Hsrc : src_ok src.
Hypothesis Hos : ∀ r, os_pages pagesize (oss r) src.
Hypothesis Hzero : ∀ r, aget (e_map (base r)) idx = Some (Shmmap 0 0 0).
Hypothesis Hn : (0 < nranks)%nat.

(** After rank 0 has established the segment. *)
Definition rank0_done (j : job) (s1 : est) (fd : Z) : job :=
  Job (e_md s1) (<[0%nat := s1]> (j_ranks j)) (<[0%nat := fd]> (replicate nranks (-1))) (j_ncoll j).

Lemma rank0_done_all j s s1 x :
  length (j_ranks j) = nranks → (∀ r s, j_ranks j !! r = Some s → base r = s) →
  j_ranks j !! 0%nat = Some s → est_result pagesize src idx true (with_md j s) x s1 →
  all_ranks nranks (λ r s fd, seg_state pagesize src idx (base r) fd s) (rank0_done j s1 x.2).
Proof using All.
  intros Hlen Hbase Hs Hres. split_and!; simpl; rewrite ?length_insert, ?length_replicate; try done.
  intros r s' fd Hs' Hfd'. destruct (decide (r = 0%nat)) as [->|Hr].
  - rewrite list_lookup_insert_eq in Hs' by lia.
    rewrite list_lookup_insert_eq in Hfd' by (rewrite length_replicate; lia). simplify_eq.
    rewrite (Hbase _ _ Hs). destruct Hres as [(_&->&Hsm&Hm)|(_&p&Hp&Hm&Hacq&_)].
    + by apply St_none.
    + by apply (St_mapped _ _ _ _ _ p).
  - rewrite list_lookup_insert_ne in Hs' by done. rewrite list_lookup_insert_ne in Hfd' by done.
    apply lookup_replicate in Hfd' as [-> _]. rewrite (Hbase _ _ Hs'). by apply St_none.
Qed.

Lemma establish_seg_spec j :
  length (j_ranks j) = nranks → (∀ r s, j_ranks j !! r = Some s → base r = s) →
  wp (establish_seg oss pagesize coll_ok nranks src idx)
    (seg_outcome pagesize coll_ok nranks src idx base (j_md j) (is_umap src)) j.
Proof using All.
  intros Hlen Hbase. unfold establish_seg. apply wp_bind, wp_modify.
  destruct (lookup_lt_is_Some_2 (j_ranks j) 0) as [s Hs]; [lia|].
  apply wp_bind. eapply wp_on_rank; [exact Hs|].
  eapply wp_mono; [by apply establish_step|]. intros x s1 [Hres _].
  pose proof (rank0_done_all j s s1 x Hlen Hbase Hs Hres) as Hall.
  apply wp_bind, wp_modify. change (wp ?m ?Q _) with (wp m Q (rank0_done j s1 x.2)).
  destruct Hres as [(Hx&_)|(Hx&p&Hp&Hm&Hacq&Hgood)].
  - rewrite (proj2 (Z.eqb_neq _ _) Hx). simpl negb. cbv iota. apply wp_bind, wp_ret.
    apply wp_collective; [done|]. apply wp_ret. by left.
  - rewrite Hx. simpl negb. simpl Z.eqb. cbv iota. apply wp_bind.
    assert (0 < dt_mmsize src) as Hsize by apply Hp.
    eapply wp_rank_op.
    { split; apply list_lookup_insert_eq; rewrite ?length_replicate; lia. }
    eapply map_of_wp.
    { simpl. rewrite Hm. simpl. rewrite <- (Hbase _ _ Hs). by apply aget_put. }
    split; [done|]. apply wp_collective; [done|].
    apply (retry_spec oss pagesize coll_ok nranks src idx base Hpages Hsrc Hos Hzero Hsize Hn (j_md j)).
    + destruct (is_umap src); lia.
    + unfold upd_rank. simpl. rewrite !list_insert_insert_eq.
      replace (with_md (rank0_done j s1 x.2) s1) with s1 by by destruct s1. exact Hall.
    + simpl. by apply (md_has_good pagesize src idx p _ _ Hpages Hp Hgood).
    + intros k Hk. simpl. destruct Hgood as (d&_&_&_&_&_&_&_&Hk'). by apply Hk'.
Qed.
End OneSeg.

(** ** Closing and releasing *)

Definition zero_map : dthread_shmmap_t := Shmmap 0 0 0.

(** The areas the entries [ms] of the sources [srcs] stand for. *)
Definition ent_area (x : dthread_shmsrc_t * dthread_shmmap_t) : option (Z * Z) :=
  if is_mmapped x.1 && negb (mapping x.2 =? 0) then Some (mapping x.2, map_size x.2) else None.
Definition ent_areas (srcs : list dthread_shmsrc_t) (ms : list dthread_shmmap_t) : list (Z * Z) :=
  omap ent_area (zip srcs ms).

Lemma tailq_remove_absent {A} `{EqDecision A} (x : A) l : x ∉ l → tailq_remove x l = l.
Proof.
  induction l as [|y l IH]; [done|]. intros [Hxy Hx]%not_elem_of_cons. simpl.
  rewrite decide_False by done. by rewrite IH.
Qed.

Lemma tailq_remove_perm {A} `{EqDecision A} (x : A) l k : l ≡ₚ x :: k → tailq_remove x l ≡ₚ k.
Proof.
  intros Hl. apply (Permutation_cons_inv (a:=x)).
  rewrite <- tailq_remove_Permutation; [done|]. rewrite Hl. left.
Qed.

Lemma aset_middle {A} (l k : list A) x y :
  aset (l ++ x :: k) (Z.of_nat (length l)) y = l ++ y :: k.
Proof. unfold aset. rewrite Nat2Z.id. by rewrite insert_app_r_alt, Nat.sub_diag by lia. Qed.

Lemma aget_middle {A} (l k : list A) x : aget (l ++ x :: k) (Z.of_nat (length l)) = Some x.
Proof. rewrite aget_nat. by apply list_lookup_middle. Qed.

Lemma close_fd_spec pagesize src idx s0 r s fd j :
  at_rank r s fd j → seg_state pagesize src idx s0 fd s → Forall (λ x, 0 ≤ x) (e_fds s0) →
  wp (close_fd r) (λ _ j', ∃ s', j' = upd_rank r s' (-1) j ∧
    e_fds s' = e_fds s0 ∧ e_map s' = e_map s ∧ e_areas s' = e_areas s) j.
Proof.
  intros Hat Hst Hpos. unfold close_fd. apply wp_bind. eapply wp_get_fd; [apply Hat|].
  apply wp_bind. eapply wp_rank_op; [done|]. unfold close_invalidate.
  apply wp_bind, wp_modify, wp_ret. split; [done|].
  eapply wp_set_fd; [apply (at_upd_rank _ _ _ _ _ _ Hat)|]. rewrite upd_upd_rank.
  eexists. split; [done|]. split_and!; [|done|done]. simpl.
  assert (-1 ∉ e_fds s0) as Hneg.
  { intros Hin. rewrite Forall_forall in Hpos. specialize (Hpos _ Hin). lia. }
  destruct Hst as [s [Hf _] _|fd p s _ _ Hacq|fd s _ _ _ Hf _].
  - rewrite Hf. by apply tailq_remove_absent.
  - unfold acquired in Hacq. destruct (is_mmapped src).
    + destruct Hacq as [_ [Hf _]]. rewrite Hf. apply tailq_remove_head.
    + destruct Hacq as [-> [Hf _]]. rewrite Hf. by apply tailq_remove_absent.
  - rewrite Hf. apply tailq_remove_head.
Qed.

Lemma release_entries_spec srcs : ∀ pre ms post areas s,
  length ms = length srcs → e_map s = pre ++ ms ++ post →
  e_areas s ≡ₚ ent_areas srcs ms ++ areas →
  wp (release_entries (Z.of_nat (length pre)) srcs) (λ _ s',
    e_map s' = pre ++ replicate (length srcs) zero_map ++ post ∧
    e_areas s' ≡ₚ areas ∧ e_fds s' = e_fds s ∧ e_md s' = e_md s) s.
Proof.
  induction srcs as [|src srcs IH]; intros pre ms post areas s Hlen Hmap Hareas.
  { apply nil_length_inv in Hlen as ->. simpl. by apply wp_ret. }
  destruct ms as [|m ms]; [done|]. simpl in Hlen, Hmap. simpl release_entries.
  apply wp_bind. unfold release_entry. apply wp_bind, wp_gets, wp_bind.
  apply (wp_get_some _ _ m); [rewrite Hmap; apply aget_middle|].
  assert (∀ s1, e_map s1 = e_map s → e_areas s1 ≡ₚ ent_areas srcs ms ++ areas →
    e_fds s1 = e_fds s → e_md s1 = e_md s →
    wp (release_entries (Z.of_nat (length pre) + 1) srcs) (λ _ s',
      e_map s' = pre ++ replicate (length (src :: srcs)) zero_map ++ post ∧
      e_areas s' ≡ₚ areas ∧ e_fds s' = e_fds s ∧ e_md s' = e_md s)
      (s1 <| e_map ::= (λ l, aset l (Z.of_nat (length pre)) (Shmmap 0 0 0)) |>)) as Hnext.
  { intros s1 Hm1 Ha1 Hf1 Hd1.
    replace (Z.of_nat (length pre) + 1) with (Z.of_nat (length (pre ++ [zero_map])))
      by (rewrite length_app; simpl; lia).
    eapply wp_mono; [apply (IH _ ms post areas)|].
    - simpl in Hlen. lia.
    - simpl. rewrite Hm1, Hmap, aset_middle. by rewrite <- app_assoc.
    - done.
    - intros _ s2 (E1&E2&E3&E4). rewrite E1, E3, E4. split_and!; try done. by rewrite <- app_assoc. }
  unfold ent_areas in Hareas. simpl in Hareas. unfold ent_area in Hareas at 1. simpl in Hareas.
  apply wp_bind, wp_when; intros Hb; rewrite Hb in Hareas.
  - apply wp_modify, wp_modify, Hnext; try done. simpl. by apply tailq_remove_perm.
  - by apply wp_modify, Hnext.
Qed.

Lemma ent_areas_snoc srcs ms src m :
  length srcs = length ms →
  ent_areas (srcs ++ [src]) (ms ++ [m]) = ent_areas srcs ms ++ option_list (ent_area (src, m)).
Proof.
  intros Hl. unfold ent_areas. rewrite zip_with_app by done. by rewrite omap_app.
Qed.

(** ** All segments *)
Section All.
Context (oss : nat → os) (pagesize : Z) (coll_ok : nat → bool) (nranks : nat).
Context (tab : list dthread_shmsrc_t) (init : nat → est).
Hypothesis Hpages : pages_ok pagesize.
Hypothesis Htab : Forall (λ src, src_ok src ∧ ∀ r, os_pages pagesize (oss r) src) tab.
Hypothesis Hfds : ∀ r, Forall (λ x, 0 ≤ x) (e_fds (init r)).
Hypothesis Hn : (0 < nranks)%nat.

(** A rank that has mapped the sources [done], with the entries [ms]. *)
Record rank_inv (done : list dthread_shmsrc_t) (s0 : est) (ms : list dthread_shmmap_t)
    (s : est) : Prop := {
  ri_maps : Forall2 (λ src m, ∃ p, p_ok pagesize src p ∧ m = seg_map pagesize src p) done ms;
  ri_map : e_map s = ms ++ replicate (length tab - length done) zero_map;
  ri_fds : e_fds s = e_fds s0;
  ri_areas : e_areas s ≡ₚ ent_areas done ms ++ e_areas s0 }.

Record job_inv (done : list dthread_shmsrc_t) (mss : nat → list dthread_shmmap_t) (j : job)
    : Prop := {
  ji_len : length (j_ranks j) = nranks;
  ji_ranks : ∀ r s, j_ranks j !! r = Some s → rank_inv done (init r) (mss r) s;
  ji_umap : ∀ i src r r' m m', done !! i = Some src → is_umap src = true →
    (r < nranks)%nat → (r' < nranks)%nat →
    mss r !! i = Some m → mss r' !! i = Some m' → mapping m = mapping m';
  ji_md : ∀ i src, done !! i = Some src → md_has pagesize src (Z.of_nat i) (j_md j) }.

(** A rank that holds nothing of it any more. *)
Definition released (s0 s : est) : Prop :=
  e_map s = replicate (length tab) zero_map ∧ e_fds s = e_fds s0 ∧ e_areas s ≡ₚ e_areas s0.

(** Entries and areas of a rank inside a segment. *)
Lemma seg_state_entry done src todo s0 ms s1 fd s :
  tab = done ++ src :: todo → rank_inv done s0 ms s1 →
  seg_state pagesize src (Z.of_nat (length done)) s1 fd s →
  ∃ m, e_map s = ms ++ m :: replicate (length todo) zero_map ∧
    e_areas s ≡ₚ ent_areas (done ++ [src]) (ms ++ [m]) ++ e_areas s0.
Proof using All.
  intros Ht [Hms Hmap _ Hareas] Hst. apply Forall2_length in Hms as Hlen.
  assert (length tab - length done = S (length todo))%nat as Hl.
  { rewrite Ht, length_app. simpl. lia. }
  rewrite Hl in Hmap. simpl in Hmap. rewrite Hlen in Hst.
  destruct Hst as [s [_ Ha] Hm|fd p s Hp Hm Hacq|fd s _ _ Hm _ Ha].
  - exists zero_map. split; [by rewrite Hm|]. rewrite ent_areas_snoc by done.
    unfold ent_area. rewrite andb_false_r. simpl. by rewrite app_nil_r, Ha.
  - exists (seg_map pagesize src p). split; [by rewrite Hm, Hmap, aset_middle|].
    rewrite ent_areas_snoc by done. unfold ent_area, acquired in *. simpl.
    destruct (Z.eqb_spec p 0) as [->|_]; [destruct Hp; lia|]. rewrite andb_true_r.
    destruct (is_mmapped src); simpl.
    + destruct Hacq as [_ [_ ->]]. rewrite Hareas, <- app_assoc. simpl.
      apply Permutation_middle.
    + destruct Hacq as [_ [_ ->]]. by rewrite app_nil_r.
  - exists (seg_map pagesize src 0). split; [by rewrite Hm, Hmap, aset_middle|].
    rewrite ent_areas_snoc by done. unfold ent_area. rewrite andb_false_r. simpl.
    by rewrite app_nil_r, Ha.
Qed.

(** The path to [failed]. *)
Lemma release_all done src todo mss base j :
  tab = done ++ src :: todo → (∀ r, (r < nranks)%nat → rank_inv done (init r) (mss r) (base r)) →
  all_ranks nranks (λ r s fd, seg_state pagesize src (Z.of_nat (length done)) (base r) fd s) j →
  wp (traverse (release_rank (done ++ [src])) (ranks nranks)) (λ _ j',
    length (j_ranks j') = nranks ∧ ∀ r s, j_ranks j' !! r = Some s → released (init r) s) j.
Proof using All.
  intros Ht Hbase Hall. eapply wp_mono.
  { eapply (traverse_all nranks _ _ (λ r _ s _, released (init r) s) j); [|exact Hall].
    intros r s fd j' Hr _ Hat Hst. destruct (Hbase r Hr) as [Hms Hmap Hf Ha].
    unfold release_rank. apply wp_bind. eapply wp_mono.
    { apply (close_fd_spec pagesize src (Z.of_nat (length done)) (base r) r s fd); [done|done|].
      rewrite Hf. apply Hfds. }
    intros _ j1 (s1&->&Hf1&Hm1&Ha1).
    destruct (seg_state_entry done src todo (init r) (mss r) (base r) fd s) as (m&Hm&Hareas);
      [done|by split|done|].
    eapply wp_rank_op; [apply (at_upd_rank _ _ _ _ _ _ Hat)|].
    eapply wp_mono; [apply (release_entries_spec (done ++ [src]) [] (mss r ++ [m])
      (replicate (length todo) zero_map) (e_areas (init r)))|].
    - apply Forall2_length in Hms. rewrite !length_app. simpl. lia.
    - simpl. rewrite Hm1, Hm, <- app_assoc. done.
    - simpl. by rewrite Ha1.
    - intros _ s2 (E1&E2&E3&E4). split; [done|]. rewrite upd_upd_rank. eexists _, _.
      split; [done|]. split_and!; [|by rewrite E3; simpl; congruence|done].
      simpl in E1. rewrite E1, <- replicate_add. f_equal. rewrite Ht, !length_app. simpl. lia. }
  intros us j' (_&Hlen&Hl&Hlf&HQ). split; [done|]. intros r s Hs.
  destruct (lookup_lt_is_Some_2 us r) as [u Hu]; [apply lookup_lt_Some in Hs; lia|].
  destruct (lookup_lt_is_Some_2 (j_fds j') r) as [fd Hfd]; [apply lookup_lt_Some in Hs; lia|].
  by apply (HQ r s fd Hs Hfd u).
Qed.

(** A segment that is mapped everywhere. *)
Lemma close_all done src todo mss base ps j :
  tab = done ++ src :: todo → (∀ r, (r < nranks)%nat → rank_inv done (init r) (mss r) (base r)) →
  all_mapped pagesize nranks src (Z.of_nat (length done)) base ps j →
  wp (traverse close_fd (ranks nranks)) (λ _ j', j_md j' = j_md j ∧
    length (j_ranks j') = nranks ∧
    ∀ r s p, j_ranks j' !! r = Some s → ps !! r = Some p →
      rank_inv (done ++ [src]) (init r) (mss r ++ [seg_map pagesize src p]) s) j.
Proof using All.
  intros Ht Hbase [Hlp Hall].
  eapply wp_mono.
  { eapply (traverse_all nranks _ _ (λ r _ s _, ∀ p, ps !! r = Some p →
      rank_inv (done ++ [src]) (init r) (mss r ++ [seg_map pagesize src p]) s) j); [|exact Hall].
    intros r s fd j' Hr _ Hat Hm. simpl in Hm.
    destruct (lookup_lt_is_Some_2 ps r) as [p Hp]; [lia|]. destruct (Hm p Hp) as (Hpok&Hmap&Hacq).
    assert (seg_state pagesize src (Z.of_nat (length done)) (base r) fd s) as Hst
      by by apply (St_mapped _ _ _ _ _ p).
    pose proof (Hbase r Hr) as Hinv. pose proof Hinv as [Hms Hbmap Hf Ha].
    eapply wp_mono; [apply (close_fd_spec pagesize src (Z.of_nat (length done)) (base r) r s fd); [done|done|]|].
    { rewrite Hf. apply Hfds. }
    intros _ j1 (s1&->&Hf1&Hm1&Ha1). eexists _, _. split; [done|].
    intros q Hq. assert (q = p) as -> by congruence. clear Hq. apply Forall2_length in Hms as Hlen.
    destruct (seg_state_entry done src todo (init r) (mss r) (base r) fd s) as (m&Hmm&Hareas);
      [done|done|done|].
    assert (m = seg_map pagesize src p) as ->.
    { rewrite Hmap in Hmm. apply (f_equal (λ l, aget l (Z.of_nat (length (mss r))))) in Hmm.
      rewrite aget_middle, <- Hlen in Hmm. rewrite aget_aset_eq in Hmm by (rewrite Hbmap, Ht,
        length_app, length_replicate, !length_app; simpl; lia). congruence. }
    split; [by apply Forall2_app; [|constructor; [exists p|]]| |congruence|by rewrite Ha1].
    rewrite Hm1, Hmm, <- app_assoc. simpl. do 3 f_equal.
    rewrite Ht, !length_app. simpl. lia. }
  intros us j' (Hmd&Hlen&Hl&Hlf&HQ). split_and!; [done|done|]. intros r s p Hs Hp.
  destruct (lookup_lt_is_Some_2 us r) as [u Hu]; [apply lookup_lt_Some in Hs; lia|].
  destruct (lookup_lt_is_Some_2 (j_fds j') r) as [fd Hfd]; [apply lookup_lt_Some in Hs; lia|].
  by apply (HQ r s fd Hs Hfd u).
Qed.

Lemma job_inv_snoc (done : list dthread_shmsrc_t) (src : dthread_shmsrc_t)
    (mss : nat → list dthread_shmmap_t) (ps : list Z) (md : gmap (Z * Z) dthread_shmseg_md_t) (j j' : job) :
  job_inv done mss j → length ps = nranks →
  md_has pagesize src (Z.of_nat (length done)) md →
  (∀ k, k ≠ (Z.of_nat (length done), seg_off pagesize src) → md !! k = j_md j !! k) →
  (is_umap src = true → ∀ p q, p ∈ ps → q ∈ ps → p = q) →
  j_md j' = md → length (j_ranks j') = nranks →
  (∀ r s p, j_ranks j' !! r = Some s → ps !! r = Some p →
      rank_inv (done ++ [src]) (init r) (mss r ++ [seg_map pagesize src p]) s) →
  job_inv (done ++ [src]) (λ r, mss r ++ [seg_map pagesize src (default 0 (ps !! r))]) j'.
Proof using All.
  intros [Hlr Hranks Hum Hmds] Hlp Hmd Hother Huni Hmd' Hl Hnew.
  assert (∀ r, (r < nranks)%nat → length (mss r) = length done) as Hlen.
  { intros r Hr. destruct (lookup_lt_is_Some_2 (j_ranks j) r) as [s Hs]; [lia|].
    destruct (Hranks r s Hs) as [Hms _ _ _]. by apply Forall2_length in Hms. }
  split; [done| | |].
  - intros r s Hs. destruct (lookup_lt_is_Some_2 ps r) as [p Hp].
    { apply lookup_lt_Some in Hs. lia. }
    rewrite Hp. by apply Hnew.
  - intros i sr r r' m m' Hsr Hu Hr Hr' Hm Hm'.
    destruct (decide (i < length done)%nat) as [Hi|Hi].
    + rewrite lookup_app_l in Hsr by lia. rewrite lookup_app_l in Hm by (rewrite Hlen; lia).
      rewrite lookup_app_l in Hm' by (rewrite Hlen; lia). by apply (Hum i sr r r' m m').
    + assert (i = length done) as ->.
      { apply lookup_lt_Some in Hsr. rewrite length_app in Hsr. simpl in Hsr. lia. }
      rewrite list_lookup_middle in Hsr by done. simplify_eq.
      rewrite list_lookup_middle in Hm by (rewrite Hlen; done || lia).
      rewrite list_lookup_middle in Hm' by (rewrite Hlen; done || lia). simplify_eq. simpl.
      destruct (lookup_lt_is_Some_2 ps r) as [p Hp]; [lia|].
      destruct (lookup_lt_is_Some_2 ps r') as [p' Hp']; [lia|]. rewrite Hp, Hp'. simpl.
      apply Huni; [done|by eapply list_elem_of_lookup_2..].
  - intros i sr Hsr. rewrite Hmd'. destruct (decide (i < length done)%nat) as [Hi|Hi].
    + rewrite lookup_app_l in Hsr by lia. destruct (Hmds i sr Hsr) as (d&Hd&Hok).
      exists d. split; [|done]. rewrite Hother; [done|]. intros [= E _]. lia.
    + assert (i = length done) as ->.
      { apply lookup_lt_Some in Hsr. rewrite length_app in Hsr. simpl in Hsr. lia. }
      rewrite list_lookup_middle in Hsr by done. by simplify_eq.
Qed.

(** How the collective ends. *)
Definition outcome_ok (res : option Z) (j : job) : Prop :=
  match res with
  | None => ∃ n, coll_ok n = false
  | Some rv =>
      rv = 0 ∧ (∃ mss, job_inv tab mss j) ∨
      rv ≠ 0 ∧ length (j_ranks j) = nranks ∧
        ∀ r s, j_ranks j !! r = Some s → released (init r) s
  end.

Lemma establish_from_spec todo : ∀ done mss j,
  tab = done ++ todo → job_inv done mss j →
  wp (establish_from oss pagesize coll_ok nranks done todo) outcome_ok j.
Proof using All.
  induction todo as [|src todo IH]; intros done mss j Ht Hinv; simpl.
  { apply wp_ret. left. split; [done|]. exists mss. by rewrite Ht, app_nil_r. }
  pose proof Hinv as [Hlr Hranks _ _].
  assert (src_ok src ∧ ∀ r, os_pages pagesize (oss r) src) as [Hsrc Hos].
  { rewrite Forall_forall in Htab. apply Htab. rewrite Ht. apply elem_of_app. right. left. }
  destruct (lookup_lt_is_Some_2 (j_ranks j) 0) as [s0 Hs0]; [lia|].
  set (base := λ r, default s0 (j_ranks j !! r)).
  assert (∀ r s, j_ranks j !! r = Some s → base r = s) as Hbase by (intros r s Hs; unfold base; by rewrite Hs).
  assert (∀ r, (r < nranks)%nat → rank_inv done (init r) (mss r) (base r)) as Hbinv.
  { intros r Hr. destruct (lookup_lt_is_Some_2 (j_ranks j) r) as [s Hs]; [lia|].
    rewrite (Hbase r s Hs). by apply Hranks. }
  assert (∀ r s, j_ranks j !! r = Some s → aget (e_map s) (Z.of_nat (length done)) = Some (Shmmap 0 0 0))
    as Hz.
  { intros r s Hs. destruct (Hranks r s Hs) as [Hms Hmap _ _]. apply Forall2_length in Hms.
    rewrite Hmap, Hms. replace (length tab - length (mss r))%nat with (S (length todo));
      [apply aget_middle|]. rewrite Ht, length_app. simpl. lia. }
  assert (∀ r, aget (e_map (base r)) (Z.of_nat (length done)) = Some (Shmmap 0 0 0)) as Hzero.
  { intros r. unfold base. destruct (j_ranks j !! r) as [s|] eqn:E; simpl; by eapply Hz. }
  apply wp_bind. eapply wp_mono; [by apply (establish_seg_spec oss pagesize coll_ok nranks src _ base)|].
  intros [rv|] j1 Hout; [|by apply wp_ret]. destruct Hout as [[Hrv Hin]|(->&Hmd&Hother&ps&Hps&Huni)].
  - rewrite (proj2 (Z.eqb_neq _ _) Hrv). apply wp_bind.
    eapply wp_mono; [by apply (release_all done src todo mss base)|].
    intros _ j2 [Hl Hrel]. apply wp_ret. right. done.
  - simpl Z.eqb. cbv iota. apply wp_bind.
    eapply wp_mono; [by apply (close_all done src todo mss base ps)|].
    intros _ j2 (Hmd2&Hl2&Hnew). eapply IH; [by rewrite <- app_assoc|].
    by apply (job_inv_snoc done src mss ps (j_md j1) j); [|apply Hps|..].
Qed.
End All.

(** ** Results *)

(** All ranks of a job that is about to establish [tab]. *)
Definition job_start (nranks : nat) (tab : list dthread_shmsrc_t) (j : job) : Prop :=
  (0 < nranks)%nat ∧ length (j_ranks j) = nranks ∧
  ∀ r s, j_ranks j !! r = Some s →
    e_map s = replicate (length tab) zero_map ∧ Forall (λ fd, 0 ≤ fd) (e_fds s).

(** A job whose ranks have all segments of [tab]. *)
Record job_done (pagesize : Z) (tab : list dthread_shmsrc_t) (j j' : job) : Prop := {
  jd_seg : ∀ r s i src, j_ranks j' !! r = Some s → tab !! i = Some src →
    ∃ m d, e_map s !! i = Some m ∧ map_size m = dt_mmsize src ∧
      md_offset m = seg_off pagesize src ∧
      j_md j' !! (Z.of_nat i, md_offset m) = Some d ∧ seg_ok (Z.of_nat i) m d;
  jd_umap : ∀ r s r' s' i src m m', j_ranks j' !! r = Some s → j_ranks j' !! r' = Some s' →
    tab !! i = Some src → is_umap src = true →
    e_map s !! i = Some m → e_map s' !! i = Some m' → mapping m = mapping m';
  jd_fds : ∀ r s s', j_ranks j !! r = Some s → j_ranks j' !! r = Some s' → e_fds s' = e_fds s;
  jd_size : length (j_ranks j') = length (j_ranks j) ∧
    ∀ r s, j_ranks j' !! r = Some s → length (e_map s) = length tab }.

(** A job whose ranks hold what they held before. *)
Definition job_undone (tab : list dthread_shmsrc_t) (j j' : job) : Prop :=
  ∀ r s s', j_ranks j !! r = Some s → j_ranks j' !! r = Some s' →
    e_map s' = replicate (length tab) zero_map ∧ e_fds s' = e_fds s ∧ e_areas s' ≡ₚ e_areas s.

Lemma job_inv_done pagesize nranks tab init mss j j' :
  (∀ r s, j_ranks j !! r = Some s → init r = s) → length (j_ranks j) = nranks →
  job_inv pagesize nranks tab init tab mss j' → job_done pagesize tab j j'.
Proof.
  intros Hinit Hn [Hlen Hranks Hum Hmd].
  assert (∀ r s i, j_ranks j' !! r = Some s → (i < length tab)%nat → e_map s !! i = mss r !! i) as Hmap.
  { intros r s i Hs Hi. destruct (Hranks r s Hs) as [Hms -> _ _]. apply Forall2_length in Hms.
    by rewrite lookup_app_l by lia. }
  split.
  - intros r s i src Hs Hsrc. apply lookup_lt_Some in Hsrc as Hi. rewrite (Hmap r s i Hs Hi).
    destruct (Hranks r s Hs) as [Hms _ _ _].
    destruct (Forall2_lookup_l _ _ _ _ _ Hms Hsrc) as (m&Hm&p&Hp&->).
    destruct (Hmd i src Hsrc) as (d&Hd&Hok). exists (seg_map pagesize src p), d.
    split_and!; [done|done|done|done|by apply Hok].
  - intros r s r' s' i src m m' Hs Hs' Hsrc Hu Hm Hm'. apply lookup_lt_Some in Hsrc as Hi.
    rewrite (Hmap r s i Hs Hi) in Hm. rewrite (Hmap r' s' i Hs' Hi) in Hm'.
    apply (Hum i src r r' m m' Hsrc Hu); [| |done|done].
    + apply lookup_lt_Some in Hs. lia.
    + apply lookup_lt_Some in Hs'. lia.
  - intros r s s' Hs Hs'. destruct (Hranks r s' Hs') as [_ _ Hf _]. by rewrite Hf, (Hinit r s Hs).
  - split; [congruence|]. intros r s Hs. destruct (Hranks r s Hs) as [Hms -> _ _].
    apply Forall2_length in Hms. rewrite length_app, length_replicate. lia.
Qed.

Lemma shmseg_establish_spec (oss : nat → os) (pagesize : Z) (coll_ok : nat → bool)
    (nranks : nat) (tab : list dthread_shmsrc_t) (j : job)
    (Hpages : pages_ok pagesize)
    (Htab : Forall (λ src, src_ok src ∧ ∀ r, os_pages pagesize (oss r) src) tab)
    (Hj : job_start nranks tab j) :
  ∃ res j', dthread_shmseg_establish oss pagesize coll_ok nranks tab j = Ok (res, j') ∧
    match res with
    | None => ∃ n, coll_ok n = false
    | Some rv => rv = 0 ∧ job_done pagesize tab j j' ∨ rv ≠ 0 ∧ job_undone tab j j'
    end.
Proof.
  destruct Hj as (Hn&Hlen&Hs). apply wp_ok.
  set (init := λ r, default (Est [] ∅ [] [] 0) (j_ranks j !! r)).
  assert (∀ r s, j_ranks j !! r = Some s → init r = s) as Hinit
    by (intros r s Hr; unfold init; by rewrite Hr).
  eapply wp_mono.
  - apply (establish_from_spec oss pagesize coll_ok nranks tab init Hpages Htab) with (mss := λ _, []);
      [|done|done|].
    + intros r. unfold init. destruct (j_ranks j !! r) as [s|] eqn:E; [by apply (Hs r)|constructor].
    + split; [done| |done|done]. intros r s Hr. destruct (Hs r s Hr) as [Hm _].
      split; [constructor| | |]; rewrite ?(Hinit r s Hr); try done. by rewrite Hm, Nat.sub_0_r.
  - intros [rv|] j' Hout; [|done]. destruct Hout as [[-> [mss Hinv]]|(Hrv&Hl&Hrel)].
    + left. split; [done|]. by eapply job_inv_done.
    + right. split; [done|]. intros r s s' Hr Hr'. rewrite <- (Hinit r s Hr). by apply Hrel.
Qed.

(** C14. The collective [dthread_shmseg_establish] is all or nothing.  It
    returns (at most ten mapping attempts per segment) unless a collective MPI
    call fails, with the same value on all ranks.  With 0, every rank has every
    segment: an entry of the right size whose metadata is at the same offset on
    all ranks and describes a well-formed segment there, at one common address
    in UMAP mode, and no descriptor is left open.  With an error, whichever rank
    failed and at whichever point, every rank has the descriptors and areas it
    had before and an empty table. *)
Theorem shmseg_establish_collective (oss : nat → os) (pagesize : Z) (coll_ok : nat → bool)
    (nranks : nat) (tab : list dthread_shmsrc_t) (j : job)
    (Hpages : pages_ok pagesize)
    (Htab : Forall (λ src, src_ok src ∧ ∀ r, os_pages pagesize (oss r) src) tab)
    (Hj : job_start nranks tab j) :
  ∃ res j', dthread_shmseg_establish oss pagesize coll_ok nranks tab j = Ok (res, j') ∧
    match res with
    | None => ∃ n, coll_ok n = false
    | Some rv => rv = 0 ∧ job_done pagesize tab j j' ∨ rv ≠ 0 ∧ job_undone tab j j'
    end.
Proof. by apply shmseg_establish_spec. Qed.

(** Two ranks and a UMAP segment of 16 pages: the ranks first get different
    addresses, then rank 0 moves to that of rank 1. *)
Definition demo_usrc : dthread_shmsrc_t :=
  Shmsrc "/seg0" (DTHREAD_SRC_PSHM + DTHREAD_SRC_UMAP) 0 0x10000 0x1000 100 0.
Definition demo_oss (r : nat) : os :=
  Os (λ _ _, inr 5) (λ _, inr 0x10000) (λ _ _, 0)
    (λ n _ hint, inr (if hint =? 0x8000000 then 0x8000000
                      else match r with O => 0x7000000 | _ => 0x8000000 end)) 0.
Definition demo_rank : est := Est [zero_map] ∅ [3] [] 0.
Definition demo_job : job := Job ∅ [demo_rank; demo_rank] [] 0.

Lemma demo_usrc_ok r : src_ok demo_usrc ∧ os_pages 4096 (demo_oss r) demo_usrc.
Proof.
  split; [split; simpl; lia|]. split; [split|]; intros; simplify_eq/=; try lia.
  - destruct (h =? 0x8000000), r; lia.
  - destruct (h =? 0x8000000), r; done.
Qed.

Example demo_umap :
  match dthread_shmseg_establish demo_oss 4096 (λ _, true) 2 [demo_usrc] demo_job with
  | Ok (res, j') => res = Some 0 ∧
      map (λ s, (map mapping (e_map s), e_fds s)) (j_ranks j') =
        [([0x8000000], [3]); ([0x8000000], [3])]
  | Crash _ => False
  end.
Proof. by vm_compute. Qed.

Lemma shmseg_establish_collective_witness :
  ∃ res j', dthread_shmseg_establish demo_oss 4096 (λ _, true) 2 [demo_usrc] demo_job = Ok (res, j') ∧
    match res with
    | None => ∃ n : nat, true = false
    | Some rv =>
        rv = 0 ∧ job_done 4096 [demo_usrc] demo_job j' ∨ rv ≠ 0 ∧ job_undone [demo_usrc] demo_job j'
    end.
Proof.
  apply (shmseg_establish_collective demo_oss 4096 (λ _, true) 2 [demo_usrc] demo_job).
  - split; [unfold sizeof_seg_md; lia|done].
  - constructor; [|constructor]. split; [apply (demo_usrc_ok 0)|apply demo_usrc_ok].
  - split_and!; [lia|done|]. intros [|[|r]] s Hs; simplify_eq/=; (split; [done|]); repeat constructor; lia.
Defined.
