(* ===== verification/SyncOps.v ===== *)
(** * Synchronisation operations

    [libdthread/dt_syncops.c]: the table of implementations, the lookup
    [dt_getsyncops] and the public calls that vector out to the selected one.
    [libdthread/dt_syncops_pshared.c]: the implementation on process-shared
    pthread objects.

    The pthread library is a parameter: a record [pthreads] of the functions the
    source calls, on a state of type [W] the model knows nothing about.  What
    the library documents is the class [Pthreads]: which attribute objects and
    which synchronisation objects are initialised, each with its process-shared
    setting, and what the calls do to them. *)

From S2P Require Import Prelude Types.

Definition PTHREAD_PROCESS_PRIVATE : Z := 0.
Definition PTHREAD_PROCESS_SHARED : Z := 1.
Definition DTHREAD_SYNCOP_ID_PSHARED : Z := 1.

(** The kinds of objects. *)
Inductive kind := KSpin | KMutex | KCond | KRwlock | KBarrier.

#[export] Instance kind_eq_dec : EqDecision kind.
Proof. solve_decision. Defined.
#[export] Instance kind_countable : Countable kind.
Proof.
  apply (inj_countable'
    (λ k, match k with KSpin => 0%nat | KMutex => 1%nat | KCond => 2%nat | KRwlock => 3%nat
          | KBarrier => 4%nat end)
    (λ n, match n with 0%nat => KSpin | 1%nat => KMutex | 2%nat => KCond | 3%nat => KRwlock
          | _ => KBarrier end)).
  by intros [].
Defined.

Section Ops.
Context {W : Type}.

(** Functions on the attribute objects of one kind; [at_get] also yields the
    value left in [*pshared]. *)
Record attrops := Attrops {
  at_init : Z → M W Z;
  at_destroy : Z → M W Z;
  at_get : Z → M W (Z * Z);
  at_set : Z → Z → M W Z }.

(** The pthread functions of [dt_syncops_pshared.c].  Arguments are addresses;
    a deadline is a number. *)
Record pthreads := Pthread {
  pthread_spin_init : Z → Z → M W Z;
  pthread_spin_destroy : Z → M W Z;
  pthread_spin_lock : Z → M W Z;
  pthread_spin_trylock : Z → M W Z;
  pthread_spin_unlock : Z → M W Z;
  pthread_mutexattr : attrops;
  pthread_mutex_init : Z → Z → M W Z;
  pthread_mutex_destroy : Z → M W Z;
  pthread_mutex_lock : Z → M W Z;
  pthread_mutex_trylock : Z → M W Z;
  pthread_mutex_unlock : Z → M W Z;
  pthread_mutex_timedlock : Z → Z → M W Z;
  pthread_condattr : attrops;
  pthread_cond_init : Z → Z → M W Z;
  pthread_cond_destroy : Z → M W Z;
  pthread_cond_broadcast : Z → M W Z;
  pthread_cond_signal : Z → M W Z;
  pthread_cond_wait : Z → Z → M W Z;
  pthread_cond_timedwait : Z → Z → Z → M W Z;
  pthread_rwlockattr : attrops;
  pthread_rwlock_init : Z → Z → M W Z;
  pthread_rwlock_destroy : Z → M W Z;
  pthread_rwlock_rdlock : Z → M W Z;
  pthread_rwlock_timedrdlock : Z → Z → M W Z;
  pthread_rwlock_tryrdlock : Z → M W Z;
  pthread_rwlock_wrlock : Z → M W Z;
  pthread_rwlock_timedwrlock : Z → Z → M W Z;
  pthread_rwlock_trywrlock : Z → M W Z;
  pthread_rwlock_unlock : Z → M W Z;
  pthread_barrierattr : attrops;
  pthread_barrier_init : Z → Z → Z → M W Z;
  pthread_barrier_destroy : Z → M W Z;
  pthread_barrier_wait : Z → M W Z }.

(** [dt_internal.h]: the operations of one implementation.  An attribute
    argument may be null. *)
Record dthread_syncops_t := Syncops {
  sy_id : Z;
  sy_name : string;
  spin_init : Z → Z → M W Z;
  spin_destroy : Z → M W Z;
  spin_lock : Z → M W Z;
  spin_trylock : Z → M W Z;
  spin_unlock : Z → M W Z;
  mutex_init : Z → option Z → M W Z;
  mutex_destroy : Z → M W Z;
  mutex_lock : Z → M W Z;
  mutex_trylock : Z → M W Z;
  mutex_unlock : Z → M W Z;
  mutex_timedlock : Z → Z → M W Z;
  cond_init : Z → option Z → M W Z;
  cond_destroy : Z → M W Z;
  cond_broadcast : Z → M W Z;
  cond_signal : Z → M W Z;
  cond_wait : Z → Z → M W Z;
  cond_timedwait : Z → Z → Z → M W Z;
  rwlock_init : Z → option Z → M W Z;
  rwlock_destroy : Z → M W Z;
  rwlock_rdlock : Z → M W Z;
  rwlock_timedrdlock : Z → Z → M W Z;
  rwlock_tryrdlock : Z → M W Z;
  rwlock_wrlock : Z → M W Z;
  rwlock_timedwrlock : Z → Z → M W Z;
  rwlock_trywrlock : Z → M W Z;
  rwlock_unlock : Z → M W Z;
  barrier_init : Z → option Z → Z → M W Z;
  barrier_destroy : Z → M W Z;
  barrier_wait : Z → M W Z }.

(** ** Process-shared objects

    [defat] is the address of the local variable of that name. *)
Section Pshared.
Context (P : pthreads) (defat : Z).

Definition pshared_spin_init (lock pshared : Z) : M W Z :=
  pthread_spin_init P lock PTHREAD_PROCESS_SHARED.

Definition pshared_spin_destroy (lock : Z) : M W Z := pthread_spin_destroy P lock.
Definition pshared_spin_lock (lock : Z) : M W Z := pthread_spin_lock P lock.
Definition pshared_spin_trylock (lock : Z) : M W Z := pthread_spin_trylock P lock.
Definition pshared_spin_unlock (lock : Z) : M W Z := pthread_spin_unlock P lock.

(** The common shape of the four [init] functions: [at] are the attribute
    functions of the kind, [init] is its [pthread_*_init]. *)
Definition pshared_obj_init (ops : attrops) (init : Z → M W Z) (attr : option Z) : M W Z :=
  match attr with
  | None =>
      rv <- at_init ops defat;;
      if rv <? 0 then retM rv
      else
        rv <- at_set ops defat PTHREAD_PROCESS_SHARED;;
        if rv <? 0 then at_destroy ops defat ;;; retM rv
        else
          rv <- init defat;;
          at_destroy ops defat ;;;
          retM rv
  | Some attr =>
      x <- at_get ops attr;;
      if negb (x.2 =? PTHREAD_PROCESS_SHARED) then
        rv <- at_set ops attr PTHREAD_PROCESS_SHARED;;
        if rv <? 0 then retM rv else init attr
      else init attr
  end.

Definition pshared_mutex_init (mutex : Z) (attr : option Z) : M W Z :=
  pshared_obj_init (pthread_mutexattr P) (pthread_mutex_init P mutex) attr.
Definition pshared_mutex_destroy (lock : Z) : M W Z := pthread_mutex_destroy P lock.
Definition pshared_mutex_lock (lock : Z) : M W Z := pthread_mutex_lock P lock.
Definition pshared_mutex_trylock (lock : Z) : M W Z := pthread_mutex_trylock P lock.
Definition pshared_mutex_unlock (lock : Z) : M W Z := pthread_mutex_unlock P lock.
Definition pshared_mutex_timedlock (mutex timeout : Z) : M W Z :=
  pthread_mutex_timedlock P mutex timeout.

Definition pshared_cond_init (cond : Z) (attr : option Z) : M W Z :=
  pshared_obj_init (pthread_condattr P) (pthread_cond_init P cond) attr.
Definition pshared_cond_destroy (cond : Z) : M W Z := pthread_cond_destroy P cond.
Definition pshared_cond_broadcast (cond : Z) : M W Z := pthread_cond_broadcast P cond.
Definition pshared_cond_signal (cond : Z) : M W Z := pthread_cond_signal P cond.
Definition pshared_cond_wait (cond mutex : Z) : M W Z := pthread_cond_wait P cond mutex.
Definition pshared_cond_timedwait (cond mutex abstime : Z) : M W Z :=
  pthread_cond_timedwait P cond mutex abstime.

Definition pshared_rwlock_init (rwlock : Z) (attr : option Z) : M W Z :=
  pshared_obj_init (pthread_rwlockattr P) (pthread_rwlock_init P rwlock) attr.
Definition pshared_rwlock_destroy (rwlock : Z) : M W Z := pthread_rwlock_destroy P rwlock.
Definition pshared_rwlock_rdlock (rwlock : Z) : M W Z := pthread_rwlock_rdlock P rwlock.
Definition pshared_rwlock_timedrdlock (rwlock abstime : Z) : M W Z :=
  pthread_rwlock_timedrdlock P rwlock abstime.
Definition pshared_rwlock_tryrdlock (rwlock : Z) : M W Z := pthread_rwlock_tryrdlock P rwlock.
Definition pshared_rwlock_wrlock (rwlock : Z) : M W Z := pthread_rwlock_wrlock P rwlock.
Definition pshared_rwlock_timedwrlock (rwlock abstime : Z) : M W Z :=
  pthread_rwlock_timedwrlock P rwlock abstime.
Definition pshared_rwlock_trywrlock (rwlock : Z) : M W Z := pthread_rwlock_trywrlock P rwlock.
Definition pshared_rwlock_unlock (rwlock : Z) : M W Z := pthread_rwlock_unlock P rwlock.

Definition pshared_barrier_init (barrier : Z) (attr : option Z) (count : Z) : M W Z :=
  pshared_obj_init (pthread_barrierattr P) (λ a, pthread_barrier_init P barrier a count) attr.
Definition pshared_barrier_destroy (barrier : Z) : M W Z := pthread_barrier_destroy P barrier.
Definition pshared_barrier_wait (barrier : Z) : M W Z := pthread_barrier_wait P barrier.

Definition pshared_syncops : dthread_syncops_t := {|
  sy_id := DTHREAD_SYNCOP_ID_PSHARED;
  sy_name := "pshared";
  spin_init := pshared_spin_init; spin_destroy := pshared_spin_destroy;
  spin_lock := pshared_spin_lock; spin_trylock := pshared_spin_trylock;
  spin_unlock := pshared_spin_unlock;
  mutex_init := pshared_mutex_init; mutex_destroy := pshared_mutex_destroy;
  mutex_lock := pshared_mutex_lock; mutex_trylock := pshared_mutex_trylock;
  mutex_unlock := pshared_mutex_unlock; mutex_timedlock := pshared_mutex_timedlock;
  cond_init := pshared_cond_init; cond_destroy := pshared_cond_destroy;
  cond_broadcast := pshared_cond_broadcast; cond_signal := pshared_cond_signal;
  cond_wait := pshared_cond_wait; cond_timedwait := pshared_cond_timedwait;
  rwlock_init := pshared_rwlock_init; rwlock_destroy := pshared_rwlock_destroy;
  rwlock_rdlock := pshared_rwlock_rdlock; rwlock_timedrdlock := pshared_rwlock_timedrdlock;
  rwlock_tryrdlock := pshared_rwlock_tryrdlock; rwlock_wrlock := pshared_rwlock_wrlock;
  rwlock_timedwrlock := pshared_rwlock_timedwrlock;
  rwlock_trywrlock := pshared_rwlock_trywrlock; rwlock_unlock := pshared_rwlock_unlock;
  barrier_init := pshared_barrier_init; barrier_destroy := pshared_barrier_destroy;
  barrier_wait := pshared_barrier_wait |}.

(** [DTHREAD_SYNC_PSHARED] is configured. *)
Definition myops : list dthread_syncops_t := [pshared_syncops].

Fixpoint find_syncops (l : list dthread_syncops_t) (id : Z) : option dthread_syncops_t :=
  match l with
  | [] => None
  | o :: l => if sy_id o =? id then Some o else find_syncops l id
  end.

Definition dt_getsyncops (id : Z) : option dthread_syncops_t := find_syncops myops id.
End Pshared.

(** ** The public calls: each vectors out to [dtrs->syops] *)
Section Public.
Context (syops : option dthread_syncops_t).

Definition vector {A} (f : dthread_syncops_t → M W A) : M W A :=
  match syops with Some o => f o | None => crash NullDeref end.

Definition dthread_spin_init (lock pshared : Z) : M W Z := vector (λ o, spin_init o lock pshared).
Definition dthread_spin_destroy (lock : Z) : M W Z := vector (λ o, spin_destroy o lock).
Definition dthread_spin_lock (lock : Z) : M W Z := vector (λ o, spin_lock o lock).
Definition dthread_spin_trylock (lock : Z) : M W Z := vector (λ o, spin_trylock o lock).
Definition dthread_spin_unlock (lock : Z) : M W Z := vector (λ o, spin_unlock o lock).
Definition dthread_mutex_init (mutex : Z) (attr : option Z) : M W Z :=
  vector (λ o, mutex_init o mutex attr).
Definition dthread_mutex_destroy (mutex : Z) : M W Z := vector (λ o, mutex_destroy o mutex).
Definition dthread_mutex_lock (mutex : Z) : M W Z := vector (λ o, mutex_lock o mutex).
Definition dthread_mutex_trylock (mutex : Z) : M W Z := vector (λ o, mutex_trylock o mutex).
Definition dthread_mutex_unlock (mutex : Z) : M W Z := vector (λ o, mutex_unlock o mutex).
Definition dthread_mutex_timedlock (mutex timeout : Z) : M W Z :=
  vector (λ o, mutex_timedlock o mutex timeout).
Definition dthread_cond_init (cond : Z) (attr : option Z) : M W Z :=
  vector (λ o, cond_init o cond attr).
Definition dthread_cond_destroy (cond : Z) : M W Z := vector (λ o, cond_destroy o cond).
Definition dthread_cond_broadcast (cond : Z) : M W Z := vector (λ o, cond_broadcast o cond).
Definition dthread_cond_signal (cond : Z) : M W Z := vector (λ o, cond_signal o cond).
Definition dthread_cond_wait (cond mutex : Z) : M W Z := vector (λ o, cond_wait o cond mutex).
Definition dthread_cond_timedwait (cond mutex abstime : Z) : M W Z :=
  vector (λ o, cond_timedwait o cond mutex abstime).
Definition dthread_rwlock_init (rwlock : Z) (attr : option Z) : M W Z :=
  vector (λ o, rwlock_init o rwlock attr).
Definition dthread_rwlock_destroy (rwlock : Z) : M W Z := vector (λ o, rwlock_destroy o rwlock).
Definition dthread_rwlock_rdlock (rwlock : Z) : M W Z := vector (λ o, rwlock_rdlock o rwlock).
Definition dthread_rwlock_timedrdlock (rwlock abstime : Z) : M W Z :=
  vector (λ o, rwlock_timedrdlock o rwlock abstime).
Definition dthread_rwlock_tryrdlock (rwlock : Z) : M W Z := vector (λ o, rwlock_tryrdlock o rwlock).
Definition dthread_rwlock_wrlock (rwlock : Z) : M W Z := vector (λ o, rwlock_wrlock o rwlock).
Definition dthread_rwlock_timedwrlock (rwlock abstime : Z) : M W Z :=
  vector (λ o, rwlock_timedwrlock o rwlock abstime).
Definition dthread_rwlock_trywrlock (rwlock : Z) : M W Z := vector (λ o, rwlock_trywrlock o rwlock).
Definition dthread_rwlock_unlock (rwlock : Z) : M W Z := vector (λ o, rwlock_unlock o rwlock).
Definition dthread_barrier_init (barrier : Z) (attr : option Z) (count : Z) : M W Z :=
  vector (λ o, barrier_init o barrier attr count).
Definition dthread_barrier_destroy (barrier : Z) : M W Z := vector (λ o, barrier_destroy o barrier).
Definition dthread_barrier_wait (barrier : Z) : M W Z := vector (λ o, barrier_wait o barrier).
End Public.

(** ** What an application can do *)

(** Operations on initialised objects. *)
Inductive sync_use :=
  | USpinLock (l : Z) | USpinTrylock (l : Z) | USpinUnlock (l : Z)
  | UMutexLock (m : Z) | UMutexTrylock (m : Z) | UMutexUnlock (m : Z)
  | UMutexTimedlock (m t : Z)
  | UCondBroadcast (c : Z) | UCondSignal (c : Z) | UCondWait (c m : Z)
  | UCondTimedwait (c m t : Z)
  | URdlock (r : Z) | UTimedrdlock (r t : Z) | UTryrdlock (r : Z)
  | UWrlock (r : Z) | UTimedwrlock (r t : Z) | UTrywrlock (r : Z) | URwUnlock (r : Z)
  | UBarrierWait (b : Z).

Inductive sync_call :=
  | CSpinInit (l pshared : Z)
  | CInit (k : kind) (o : Z) (attr : option Z) (count : Z)
  | CDestroy (k : kind) (o : Z)
  | CUse (u : sync_use).

(** The objects an operation needs. *)
Definition use_objs (u : sync_use) : list (kind * Z) :=
  match u with
  | USpinLock l | USpinTrylock l | USpinUnlock l => [(KSpin, l)]
  | UMutexLock m | UMutexTrylock m | UMutexUnlock m | UMutexTimedlock m _ => [(KMutex, m)]
  | UCondBroadcast c | UCondSignal c => [(KCond, c)]
  | UCondWait c m | UCondTimedwait c m _ => [(KCond, c); (KMutex, m)]
  | URdlock r | UTimedrdlock r _ | UTryrdlock r | UWrlock r | UTimedwrlock r _
  | UTrywrlock r | URwUnlock r => [(KRwlock, r)]
  | UBarrierWait b => [(KBarrier, b)]
  end.

Definition do_use (sy : option dthread_syncops_t) (u : sync_use) : M W Z :=
  match u with
  | USpinLock l => dthread_spin_lock sy l
  | USpinTrylock l => dthread_spin_trylock sy l
  | USpinUnlock l => dthread_spin_unlock sy l
  | UMutexLock m => dthread_mutex_lock sy m
  | UMutexTrylock m => dthread_mutex_trylock sy m
  | UMutexUnlock m => dthread_mutex_unlock sy m
  | UMutexTimedlock m t => dthread_mutex_timedlock sy m t
  | UCondBroadcast c => dthread_cond_broadcast sy c
  | UCondSignal c => dthread_cond_signal sy c
  | UCondWait c m => dthread_cond_wait sy c m
  | UCondTimedwait c m t => dthread_cond_timedwait sy c m t
  | URdlock r => dthread_rwlock_rdlock sy r
  | UTimedrdlock r t => dthread_rwlock_timedrdlock sy r t
  | UTryrdlock r => dthread_rwlock_tryrdlock sy r
  | UWrlock r => dthread_rwlock_wrlock sy r
  | UTimedwrlock r t => dthread_rwlock_timedwrlock sy r t
  | UTrywrlock r => dthread_rwlock_trywrlock sy r
  | URwUnlock r => dthread_rwlock_unlock sy r
  | UBarrierWait b => dthread_barrier_wait sy b
  end.

(** A spin lock has no attribute object and is initialised by [CSpinInit];
    [CInit KSpin] is no call ([call_valid] excludes it). *)
Definition do_call (sy : option dthread_syncops_t) (c : sync_call) : M W Z :=
  match c with
  | CSpinInit l pshared => dthread_spin_init sy l pshared
  | CInit KSpin _ _ _ => retM EINVAL
  | CInit KMutex o attr _ => dthread_mutex_init sy o attr
  | CInit KCond o attr _ => dthread_cond_init sy o attr
  | CInit KRwlock o attr _ => dthread_rwlock_init sy o attr
  | CInit KBarrier o attr count => dthread_barrier_init sy o attr count
  | CDestroy KSpin o => dthread_spin_destroy sy o
  | CDestroy KMutex o => dthread_mutex_destroy sy o
  | CDestroy KCond o => dthread_cond_destroy sy o
  | CDestroy KRwlock o => dthread_rwlock_destroy sy o
  | CDestroy KBarrier o => dthread_barrier_destroy sy o
  | CUse u => do_use sy u
  end.

(** ** What the pthread library documents *)

(** The attribute functions, [pthread_*_init] and [pthread_*_destroy] by kind. *)
Definition attr_of (P : pthreads) (k : kind) : option attrops :=
  match k with
  | KSpin => None
  | KMutex => Some (pthread_mutexattr P)
  | KCond => Some (pthread_condattr P)
  | KRwlock => Some (pthread_rwlockattr P)
  | KBarrier => Some (pthread_barrierattr P)
  end.

(** [a] is the process-shared value for a spin lock, else an attribute. *)
Definition obj_init (P : pthreads) (k : kind) (o a count : Z) : M W Z :=
  match k with
  | KSpin => pthread_spin_init P o a
  | KMutex => pthread_mutex_init P o a
  | KCond => pthread_cond_init P o a
  | KRwlock => pthread_rwlock_init P o a
  | KBarrier => pthread_barrier_init P o a count
  end.

Definition obj_destroy (P : pthreads) (k : kind) (o : Z) : M W Z :=
  match k with
  | KSpin => pthread_spin_destroy P o
  | KMutex => pthread_mutex_destroy P o
  | KCond => pthread_cond_destroy P o
  | KRwlock => pthread_rwlock_destroy P o
  | KBarrier => pthread_barrier_destroy P o
  end.

Definition pthread_use (P : pthreads) (u : sync_use) : M W Z :=
  match u with
  | USpinLock l => pthread_spin_lock P l
  | USpinTrylock l => pthread_spin_trylock P l
  | USpinUnlock l => pthread_spin_unlock P l
  | UMutexLock m => pthread_mutex_lock P m
  | UMutexTrylock m => pthread_mutex_trylock P m
  | UMutexUnlock m => pthread_mutex_unlock P m
  | UMutexTimedlock m t => pthread_mutex_timedlock P m t
  | UCondBroadcast c => pthread_cond_broadcast P c
  | UCondSignal c => pthread_cond_signal P c
  | UCondWait c m => pthread_cond_wait P c m
  | UCondTimedwait c m t => pthread_cond_timedwait P c m t
  | URdlock r => pthread_rwlock_rdlock P r
  | UTimedrdlock r t => pthread_rwlock_timedrdlock P r t
  | UTryrdlock r => pthread_rwlock_tryrdlock P r
  | UWrlock r => pthread_rwlock_wrlock P r
  | UTimedwrlock r t => pthread_rwlock_timedwrlock P r t
  | UTrywrlock r => pthread_rwlock_trywrlock P r
  | URwUnlock r => pthread_rwlock_unlock P r
  | UBarrierWait b => pthread_barrier_wait P b
  end.

(** The initialised attribute objects and synchronisation objects of a state,
    with their process-shared setting.  Functions return 0 or a positive error
    number; a failing call has no effect. *)
Class Pthreads (P : pthreads) := {
  attrs : W → gmap (kind * Z) Z;
  objs : W → gmap (kind * Z) Z;
  at_init_law k ops a w : attr_of P k = Some ops → attrs w !! (k, a) = None →
    wp (at_init ops a) (λ rv w', 0 ≤ rv ∧ objs w' = objs w ∧
      attrs w' = if rv =? 0 then <[(k, a) := PTHREAD_PROCESS_PRIVATE]> (attrs w) else attrs w) w;
  at_destroy_law k ops a v w : attr_of P k = Some ops → attrs w !! (k, a) = Some v →
    wp (at_destroy ops a) (λ rv w', rv = 0 ∧ objs w' = objs w ∧
      attrs w' = delete (k, a) (attrs w)) w;
  at_get_law k ops a v w : attr_of P k = Some ops → attrs w !! (k, a) = Some v →
    wp (at_get ops a) (λ x w', x = (0, v) ∧ objs w' = objs w ∧ attrs w' = attrs w) w;
  at_set_law k ops a v v' w : attr_of P k = Some ops → attrs w !! (k, a) = Some v →
    wp (at_set ops a v') (λ rv w', 0 ≤ rv ∧ objs w' = objs w ∧
      attrs w' = if rv =? 0 then <[(k, a) := v']> (attrs w) else attrs w) w;
  init_law k o a count v w : k ≠ KSpin → attrs w !! (k, a) = Some v →
    objs w !! (k, o) = None →
    wp (obj_init P k o a count) (λ rv w', 0 ≤ rv ∧ attrs w' = attrs w ∧
      objs w' = if rv =? 0 then <[(k, o) := v]> (objs w) else objs w) w;
  spin_init_law o v w : objs w !! (KSpin, o) = None →
    wp (pthread_spin_init P o v) (λ rv w', 0 ≤ rv ∧ attrs w' = attrs w ∧
      objs w' = if rv =? 0 then <[(KSpin, o) := v]> (objs w) else objs w) w;
  destroy_law k o v w : objs w !! (k, o) = Some v →
    wp (obj_destroy P k o) (λ rv w', attrs w' = attrs w ∧
      objs w' = if rv =? 0 then delete (k, o) (objs w) else objs w) w;
  use_law u w : Forall (λ x, is_Some (objs w !! x)) (use_objs u) →
    wp (pthread_use P u) (λ _ w', attrs w' = attrs w ∧ objs w' = objs w) w }.
End Ops.
Arguments attrops : clear implicits.
Arguments pthreads : clear implicits.
Arguments dthread_syncops_t : clear implicits.

(** ** Objects are process-shared *)
Section Shared.
Context {W : Type} (P : pthreads W) `{HP : !Pthreads P} (defat : Z).

(** The calls POSIX gives a meaning to: initialised attributes other than the
    local one, objects that are not yet initialised, or are. *)
Definition call_valid (w : W) (c : sync_call) : Prop :=
  match c with
  | CSpinInit l _ => objs w !! (KSpin, l) = None
  | CInit k o attr _ => k ≠ KSpin ∧ objs w !! (k, o) = None ∧
      match attr with None => True | Some a => a ≠ defat ∧ is_Some (attrs w !! (k, a)) end
  | CDestroy k o => is_Some (objs w !! (k, o))
  | CUse u => Forall (λ x, is_Some (objs w !! x)) (use_objs u)
  end.

(** No local attribute object is left behind. *)
Definition no_defat (w : W) : Prop := ∀ k, attrs w !! (k, defat) = None.

(** The attribute calls a call makes before it initialises its object: the
    results of initialising the local attribute and of making the attribute
    process-shared, 0 for one that is not made. *)
Definition attr_calls (ops : attrops W) (attr : option Z) : M W (Z * Z) :=
  match attr with
  | None =>
      r1 <- at_init ops defat;;
      r2 <- at_set ops defat PTHREAD_PROCESS_SHARED;;
      retM (r1, r2)
  | Some a =>
      x <- at_get ops a;;
      if negb (x.2 =? PTHREAD_PROCESS_SHARED)
      then r2 <- at_set ops a PTHREAD_PROCESS_SHARED;; retM (0, r2)
      else retM (0, 0)
  end.

Definition attr_results (c : sync_call) (w : W) : Z * Z :=
  match c with
  | CInit k _ attr _ =>
      match attr_of P k with
      | Some ops => match attr_calls ops attr w with Ok (x, _) => x | Crash _ => (-1, -1) end
      | None => (0, 0)
      end
  | _ => (0, 0)
  end.

(** The process-shared setting a new object gets: shared, or when the
    attribute could not be set, what the attribute says. *)
Definition new_setting (c : sync_call) (w : W) : Z :=
  if (attr_results c w).2 =? 0 then PTHREAD_PROCESS_SHARED
  else match c with
       | CInit k _ (Some a) _ => default PTHREAD_PROCESS_PRIVATE (attrs w !! (k, a))
       | _ => PTHREAD_PROCESS_PRIVATE
       end.

(** What a call leaves, given its return value. *)
Definition objs_after (c : sync_call) (rv : Z) (w : W) : gmap (kind * Z) Z :=
  if negb (rv =? 0) then objs w
  else match c with
       | CSpinInit l _ => <[(KSpin, l) := PTHREAD_PROCESS_SHARED]> (objs w)
       | CInit k o _ _ => <[(k, o) := new_setting c w]> (objs w)
       | CDestroy k o => delete (k, o) (objs w)
       | CUse _ => objs w
       end.

Definition attrs_after (c : sync_call) (w : W) : gmap (kind * Z) Z :=
  match c with
  | CInit k _ (Some a) _ =>
      if (attr_results c w).2 =? 0 then <[(k, a) := PTHREAD_PROCESS_SHARED]> (attrs w) else attrs w
  | _ => attrs w
  end.

Abbreviation sy := (dt_getsyncops P defat DTHREAD_SYNCOP_ID_PSHARED).

(** With a local attribute object. *)
Lemma obj_init_default k ops o count w : let c := CInit k o None count in
  attr_of P k = Some ops → attrs w !! (k, defat) = None → objs w !! (k, o) = None →
  (attr_results c w).1 = 0 →
  wp (pshared_obj_init defat ops (λ a, obj_init P k o a count) None) (λ rv w',
    attrs w' = attrs_after c w ∧ objs w' = objs_after c rv w) w.
Proof.
  intros c Hk Ha Ho Hi. unfold objs_after, new_setting, c in *. unfold attr_results in *. rewrite Hk in *. simpl in *.
  destruct (proj1 (wp_ok _ _ _) (at_init_law k ops defat w Hk Ha)) as (r1 & w1 & E1 & Hr1 & Ho1 & Ha1).
  unfold attr_calls, bindM in *. rewrite E1 in *. unfold wp, pshared_obj_init, bindM. rewrite E1.
  destruct (Z.eqb_spec r1 0) as [->|Hne].
  2: { exfalso. destruct (at_set ops defat PTHREAD_PROCESS_SHARED w1) as [[r2 w2]|]; simpl in Hi; congruence. }
  assert (attrs w1 !! (k, defat) = Some PTHREAD_PROCESS_PRIVATE) as Hd1 by by rewrite Ha1, lookup_insert_eq.
  destruct (proj1 (wp_ok _ _ _) (at_set_law k ops defat _ PTHREAD_PROCESS_SHARED w1 Hk Hd1)) as (r2 & w2 & E2 & Hr2 & Ho2 & Ha2).
  simpl. rewrite E2. simpl. destruct (Z.ltb_spec r2 0); [lia|].
  set (v := if r2 =? 0 then PTHREAD_PROCESS_SHARED else PTHREAD_PROCESS_PRIVATE).
  assert (attrs w2 !! (k, defat) = Some v) as Hd2.
  { rewrite Ha2. unfold v. destruct (r2 =? 0); [by rewrite lookup_insert_eq|done]. }
  assert (objs w2 !! (k, o) = None) as Hn2 by congruence.
  destruct (proj1 (wp_ok _ _ _) (init_law k o defat count v w2 ltac:(by destruct k) Hd2 Hn2)) as (rv & w3 & E3 & _ & Ha3 & Ho3). rewrite E3.
  destruct (proj1 (wp_ok _ _ _) (at_destroy_law k ops defat v w3 Hk ltac:(by rewrite Ha3))) as (r4 & w4 & E4 & _ & Ho4 & Ha4). rewrite E4.
  simpl. split.
  - rewrite Ha4, Ha3, Ha2, Ha1. destruct (r2 =? 0); rewrite ?insert_insert_eq; by apply delete_insert_id.
  - rewrite Ho4, Ho3, Ho2, Ho1. by destruct (rv =? 0).
Qed.

(** With an attribute object of the caller. *)
Lemma obj_init_given k ops o a count w : let c := CInit k o (Some a) count in
  attr_of P k = Some ops → is_Some (attrs w !! (k, a)) → objs w !! (k, o) = None →
  wp (pshared_obj_init defat ops (λ a, obj_init P k o a count) (Some a)) (λ rv w',
    attrs w' = attrs_after c w ∧ objs w' = objs_after c rv w) w.
Proof.
  intros c Hk [v Ha] Ho. unfold objs_after, new_setting, attrs_after, c, attr_results. rewrite Hk, Ha. simpl.
  destruct (proj1 (wp_ok _ _ _) (at_get_law k ops a v w Hk Ha)) as (x & w1 & E1 & -> & Ho1 & Ha1).
  unfold attr_calls, wp, pshared_obj_init, bindM. rewrite !E1. simpl.
  assert (∀ w2 v2, attrs w2 !! (k, a) = Some v2 → objs w2 = objs w →
    match obj_init P k o a count w2 with
    | Ok (rv, w') => attrs w' = attrs w2 ∧ objs w' = if negb (rv =? 0) then objs w else <[(k, o) := v2]> (objs w)
    | Crash _ => False end) as Hinit.
  { intros w2 v2 Ha2 Ho2. assert (objs w2 !! (k, o) = None) as Hn2 by congruence.
    destruct (proj1 (wp_ok _ _ _) (init_law k o a count v2 w2 ltac:(by destruct k) Ha2 Hn2)) as (rv & w3 & -> & _ & Ha3 & Ho3).
    split; [done|]. rewrite Ho3, Ho2. by destruct (rv =? 0). }
  destruct (Z.eqb_spec v PTHREAD_PROCESS_SHARED) as [->|Hv]; simpl.
  - specialize (Hinit w1 PTHREAD_PROCESS_SHARED ltac:(by rewrite Ha1) Ho1).
    destruct (obj_init P k o a count w1) as [[rv w2]|]; [|done]. destruct Hinit as [-> ->]. by rewrite Ha1, insert_id.
  - destruct (proj1 (wp_ok _ _ _) (at_set_law k ops a v PTHREAD_PROCESS_SHARED w1 Hk ltac:(by rewrite Ha1))) as (r2 & w2 & E2 & Hr2 & Ho2 & Ha2).
    rewrite E2. simpl. destruct (Z.ltb_spec r2 0); [lia|].
    specialize (Hinit w2 (if r2 =? 0 then PTHREAD_PROCESS_SHARED else v)).
    lapply Hinit; [clear Hinit; intros Hinit|rewrite Ha2, Ha1; destruct (r2 =? 0); [by rewrite lookup_insert_eq|done]].
    specialize (Hinit ltac:(congruence)). destruct (obj_init P k o a count w2) as [[rv w3]|]; [|done]. destruct Hinit as [-> ->].
    rewrite Ha2, Ha1. by destruct (r2 =? 0).
Qed.

Lemma obj_init_wp k ops o attr count w : let c := CInit k o attr count in
  attr_of P k = Some ops → no_defat w → call_valid w c → (attr_results c w).1 = 0 →
  wp (pshared_obj_init defat ops (λ a, obj_init P k o a count) attr) (λ rv w',
    attrs w' = attrs_after c w ∧ objs w' = objs_after c rv w) w.
Proof.
  intros c Hk Hd (_&Ho&Hat) Hi. unfold c in *. destruct attr as [a|]; [apply obj_init_given|apply obj_init_default]; try done. apply Hat.
Qed.

(** One call. *)
Lemma do_call_wp c w :
  no_defat w → call_valid w c → (attr_results c w).1 = 0 →
  wp (do_call sy c) (λ rv w', attrs w' = attrs_after c w ∧ objs w' = objs_after c rv w) w.
Proof.
  intros Hd Hv Hi. destruct c as [l ps|k o attr count|k o|u].
  - eapply wp_mono; [by apply spin_init_law|]. intros rv w' (_&->&->).
    split; [done|]. unfold objs_after. by destruct (rv =? 0).
  - assert (∃ ops, attr_of P k = Some ops) as [ops Hk] by (destruct Hv as [Hk _]; destruct k; by eauto).
    pose proof (obj_init_wp k ops o attr count w Hk Hd Hv Hi) as Hw.
    destruct k; [by destruct Hv|..]; injection Hk as <-; exact Hw.
  - destruct Hv as [v Hv]. eapply wp_mono.
    { pose proof (destroy_law k o v w Hv) as Hw. destruct k; exact Hw. }
    intros rv w' [-> ->]. split; [done|]. unfold objs_after. by destruct (rv =? 0).
  - eapply wp_mono; [pose proof (use_law u w Hv) as Hw; destruct u; exact Hw|].
    intros rv w' [-> ->]. split; [done|]. unfold objs_after. by destruct (rv =? 0).
Qed.

(** Any program: valid calls of the threads of all ranks in any order, and
    whatever the application does to its own attribute objects.  A call without
    an attribute needs one it can initialise: the code goes on with one that it
    could not, which POSIX leaves undefined.  The flag tells whether every
    attribute could be made process-shared. *)
Inductive sync_reach (w0 : W) : bool → W → Prop :=
  | sr_refl : sync_reach w0 true w0
  | sr_call b w c rv w' : sync_reach w0 b w → call_valid w c → (attr_results c w).1 = 0 →
      do_call sy c w = Ok (rv, w') → sync_reach w0 (b && ((attr_results c w).2 =? 0)) w'
  | sr_attr b w w' : sync_reach w0 b w → objs w' = objs w → no_defat w' → sync_reach w0 b w'.

Definition all_shared (w : W) : Prop :=
  map_Forall (λ _ v, v = PTHREAD_PROCESS_SHARED) (objs w).

Lemma objs_after_shared c rv w : all_shared w → (attr_results c w).2 = 0 →
  map_Forall (λ _ v, v = PTHREAD_PROCESS_SHARED) (objs_after c rv w).
Proof.
  intros Hm Hs. unfold objs_after, new_setting. rewrite Hs. destruct (negb _); [done|].
  destruct c; [by apply map_Forall_insert_2..|by apply map_Forall_delete|done].
Qed.

Lemma no_defat_after c w w' :
  no_defat w → call_valid w c → attrs w' = attrs_after c w → no_defat w'.
Proof.
  intros Hd Hv Ha k. rewrite Ha. destruct c as [|k' o [a|] count| |]; cbn [attrs_after]; try apply Hd.
  destruct (_ =? 0); [|apply Hd]. destruct Hv as (_&_&Hne&_). rewrite lookup_insert_ne; [apply Hd|congruence].
Qed.
End Shared.

(** ** A library *)

(** A library that initialises, destroys and locks without failing, except
    that setting an attribute returns [set_rv].  Its state is the two maps. *)
Section Demo.
Context (set_rv : Z).
Abbreviation W := (gmap (kind * Z) Z * gmap (kind * Z) Z)%type.

Definition demo_attrops (k : kind) : attrops W := {|
  at_init a := modify (λ w, (<[(k, a) := PTHREAD_PROCESS_PRIVATE]> w.1, w.2)) ;;; retM 0;
  at_destroy a := modify (λ w, (delete (k, a) w.1, w.2)) ;;; retM 0;
  at_get a := gets (λ w, (0, default 0 (w.1 !! (k, a))));
  at_set a v :=
    whenM (set_rv =? 0) (modify (λ w, (<[(k, a) := v]> w.1, w.2))) ;;; retM set_rv |}.

Definition demo_init (k : kind) (o a : Z) : M W Z :=
  modify (λ w, (w.1, <[(k, o) := default 0 (w.1 !! (k, a))]> w.2)) ;;; retM 0.
Definition demo_destroy (k : kind) (o : Z) : M W Z :=
  modify (λ w, (w.1, delete (k, o) w.2)) ;;; retM 0.
Definition demo_spin (o v : Z) : M W Z :=
  modify (λ w, (w.1, <[(KSpin, o) := v]> w.2)) ;;; retM 0.

Definition demo_pthreads : pthreads W :=
  let op1 (_ : Z) : M W Z := retM 0 in
  let op2 (_ _ : Z) : M W Z := retM 0 in
  Pthread demo_spin (demo_destroy KSpin) op1 op1 op1
    (demo_attrops KMutex) (demo_init KMutex) (demo_destroy KMutex) op1 op1 op1 op2
    (demo_attrops KCond) (demo_init KCond) (demo_destroy KCond) op1 op1 op2 (λ _ _ _, retM 0)
    (demo_attrops KRwlock) (demo_init KRwlock) (demo_destroy KRwlock) op1 op2 op1 op1 op2 op1 op1
    (demo_attrops KBarrier) (λ o a _, demo_init KBarrier o a) (demo_destroy KBarrier) op1.

Hypothesis Hrv : 0 ≤ set_rv.

#[local] Instance demo_pthreads_ok : Pthreads demo_pthreads.
Proof using Hrv.
  refine {| attrs := fst; objs := snd |}.
  - intros [] ops a w Hk Ha; simplify_eq/=; done.
  - intros [] ops a v w Hk Ha; simplify_eq/=; done.
  - intros [] ops a v w Hk Ha; simplify_eq/=; unfold wp; simpl; by rewrite Ha.
  - intros [] ops a v v' w Hk Ha; simplify_eq/=; unfold wp; simpl; unfold whenM, bindM;
      destruct (Z.eqb_spec set_rv 0); simpl; rewrite ?(proj2 (Z.eqb_neq _ _) ltac:(eassumption));
      subst; done.
  - intros [] o a count v w Hk Ha Ho; try done; unfold wp; simpl; by rewrite Ha.
  - done.
  - by intros [] o v w Ho.
  - by intros [].
Defined.
End Demo.

#[export] Instance demo_pthreads_law : Pthreads (demo_pthreads 0) := demo_pthreads_ok 0 ltac:(lia).

(** ENOTSUP *)
Definition demo_notsup : Z := 95.
#[export] Instance demo_notsup_law : Pthreads (demo_pthreads demo_notsup) :=
  demo_pthreads_ok demo_notsup ltac:(unfold demo_notsup; lia).

(** ** Claims *)

(** C28. Valid calls of the threads of an application in any order, with
    attribute objects of their own or without, where a call without one can
    initialise its local attribute object: no call faults, and each changes the
    objects exactly as its return value says (initialised, destroyed or
    unchanged).  An object that is initialised is process-shared if its
    attribute could be made so; if that failed, the error is ignored and the
    object keeps the attribute's own setting ([pshared_error_ignored]).  So
    while no attribute has refused the setting, every initialised spin lock,
    mutex, condition variable, rwlock and barrier is process-shared.  No local
    attribute object outlives its call. *)
Theorem sync_objects_shared {W : Type} (P : pthreads W) (HP : Pthreads P)
    (defat : Z) (w0 w : W) (ok : bool) (c : sync_call)
    (H0 : all_shared P w0) (Hd : no_defat P defat w0)
    (Hr : sync_reach P defat w0 ok w) (Hc : call_valid P defat w c)
    (Hi : (attr_results P defat c w).1 = 0) :
  (ok = true → all_shared P w) ∧ no_defat P defat w ∧
  wp (do_call (dt_getsyncops P defat DTHREAD_SYNCOP_ID_PSHARED) c) (λ rv w',
    objs w' = objs_after P defat c rv w ∧ attrs w' = attrs_after P defat c w ∧
    (ok = true → (attr_results P defat c w).2 = 0 → all_shared P w') ∧ no_defat P defat w') w.
Proof.
  assert ((ok = true → all_shared P w) ∧ no_defat P defat w) as [Hs Hd1].
  { clear Hc Hi. induction Hr as [|b w c' rv w' _ [IHs IHd] Hv Hi Hok|b w w' _ [IHs IHd] Ho Hd']; [done| |].
    - pose proof (do_call_wp P defat c' w IHd Hv Hi) as Hw. unfold wp in Hw. rewrite Hok in Hw.
      destruct Hw as [Ha Ho]. split; [|by eapply no_defat_after].
      intros [Hb Hs]%andb_prop. apply Z.eqb_eq in Hs. unfold all_shared. rewrite Ho. apply objs_after_shared; auto.
    - split; [|done]. intros Hb. unfold all_shared. rewrite Ho. by apply IHs. }
  split; [done|]. split; [done|]. eapply wp_mono; [by apply do_call_wp|].
  intros rv w' [Ha Ho]. split_and!; [done|done| |by eapply no_defat_after].
  intros Hb Hset. unfold all_shared. rewrite Ho. apply objs_after_shared; auto.
Qed.

Definition demo_world : gmap (kind * Z) Z * gmap (kind * Z) Z :=
  ({[ (KMutex, 500) := PTHREAD_PROCESS_PRIVATE ]}, ∅).

(** A mutex with the caller's attribute, on a library that sets it and on one
    that refuses. *)
Lemma sync_objects_shared_witness :
  wp (do_call (dt_getsyncops (demo_pthreads 0) 900 DTHREAD_SYNCOP_ID_PSHARED) (CInit KMutex 40 (Some 500) 0))
    (λ rv w', objs (P := demo_pthreads 0) w' =
      objs_after (demo_pthreads 0) 900 (CInit KMutex 40 (Some 500) 0) rv demo_world ∧
      all_shared (demo_pthreads 0) w') demo_world ∧
  wp (do_call (dt_getsyncops (demo_pthreads demo_notsup) 900 DTHREAD_SYNCOP_ID_PSHARED) (CInit KMutex 40 (Some 500) 0))
    (λ rv w', objs (P := demo_pthreads demo_notsup) w' =
      objs_after (demo_pthreads demo_notsup) 900 (CInit KMutex 40 (Some 500) 0) rv demo_world) demo_world.
Proof.
  assert (H := sync_objects_shared (demo_pthreads 0) _ 900 demo_world demo_world true (CInit KMutex 40 (Some 500) 0)).
  assert (H' := sync_objects_shared (demo_pthreads demo_notsup) _ 900 demo_world demo_world true (CInit KMutex 40 (Some 500) 0)).
  split.
  - destruct H as (_&_&Hw); [apply map_Forall_empty|by intros []|constructor| |done|].
    + split; [done|]. split; [done|]. split; [lia|]. by eexists.
    + eapply wp_mono; [exact Hw|]. intros rv w' (?&_&?&_). split; [done|]. auto.
  - destruct H' as (_&_&Hw); [apply map_Forall_empty|by intros []|constructor| |done|].
    + split; [done|]. split; [done|]. split; [lia|]. by eexists.
    + eapply wp_mono; [exact Hw|]. by intros rv w' (?&_).
Defined.

(** The [init] functions test [rv < 0] for failure, but pthread functions
    report errors with positive numbers.  If the attribute of the caller cannot
    be made process-shared, the error is ignored: the call returns the result of
    the initialisation, 0 when that succeeds, and the object is then private to
    one process. *)
Theorem pshared_error_ignored {W : Type} (P : pthreads W) (HP : Pthreads P) (defat : Z)
    (k : kind) (ops : attrops W) (o a count e : Z) (w : W)
    (Hk : attr_of P k = Some ops)
    (Ha : attrs w !! (k, a) = Some PTHREAD_PROCESS_PRIVATE) (Ho : objs w !! (k, o) = None)
    (He : e ≠ 0) (Hset : ∀ w, wp (at_set ops a PTHREAD_PROCESS_SHARED) (λ rv _, rv = e) w)
    (Hinit : ∀ w, wp (obj_init P k o a count) (λ rv _, rv = 0) w) :
  wp (pshared_obj_init defat ops (λ a, obj_init P k o a count) (Some a)) (λ rv w',
    rv = 0 ∧ objs w' !! (k, o) = Some PTHREAD_PROCESS_PRIVATE) w.
Proof.
  apply wp_bind. eapply wp_mono; [by eapply at_get_law|]. intros x w1 (->&Ho1&Ha1). simpl.
  apply wp_bind. eapply wp_mono;
    [apply wp_and; [eapply at_set_law; [done|by rewrite Ha1]|apply Hset]|].
  intros rv w2 [(Hrv&Ho2&Ha2) ->]. destruct (Z.ltb_spec e 0); [lia|].
  rewrite (proj2 (Z.eqb_neq _ _) He) in Ha2.
  eapply wp_mono; [apply wp_and; [eapply init_law; [by destruct k|by rewrite Ha2, Ha1|congruence]
                                 |apply Hinit]|].
  intros rv w3 [(_&_&Ho3) ->]. split; [done|]. simpl in Ho3. by rewrite Ho3, lookup_insert_eq.
Qed.

Lemma pshared_error_ignored_witness :
  wp (dthread_mutex_init (dt_getsyncops (demo_pthreads demo_notsup) 900 DTHREAD_SYNCOP_ID_PSHARED)
        40 (Some 500))
    (λ rv w', rv = 0 ∧ objs (P := demo_pthreads demo_notsup) w' !! (KMutex, 40) =
                       Some PTHREAD_PROCESS_PRIVATE) demo_world.
Proof.
  apply (pshared_error_ignored (demo_pthreads demo_notsup) _ 900 KMutex _ 40 500 0 demo_notsup demo_world);
    done.
Defined.
