(* ===== verification/ShmAlloc.v ===== *)
(** * The interface between arenas and allocator drivers

    [dthread_shm_alloc_ops_t] ([include/dthread/dthread.h]) as a record of
    operations, the memory accesses the drivers make through local pointers,
    and the class [Driver]: what a driver promises to the arena code of
    [libdthread/dt_shmops.c].  [BreakMalloc] and [BsdMalloc] provide instances;
    [ShmOps] uses the class only. *)

From S2P Require Import Prelude Types ShmRef SegOps.

(** ** Memory accesses through local pointers *)

(** The place a local pointer points to, if [n] bytes from there on are inside
    one mapping. *)
Definition locate (sm : list dthread_shmmap_t) (ptr n : Z) : option (Z * Z) :=
  match ptr_search sm 0 ptr with
  | Some (shmid, m, off) => if off + n <=? map_size m then Some (shmid, off) else None
  | None => None
  end.

Definition byte_upd (m : Z → Z → Z) (k o v : Z) : Z → Z → Z := λ k' o',
  if (k' =? k) && (o' =? o) then v else m k' o'.

(** Little-endian integers of [n] bytes. *)
Fixpoint load_le (n : nat) (m : Z → Z → Z) (k o : Z) : Z :=
  match n with
  | O => 0
  | S n => (m k o) mod 256 + 256 * load_le n m k (o + 1)
  end.

Fixpoint store_le (n : nat) (m : Z → Z → Z) (k o v : Z) : Z → Z → Z :=
  match n with
  | O => m
  | S n => store_le n (byte_upd m k o (v mod 256)) k (o + 1) (v / 256)
  end.

Definition load (n : nat) (ptr : Z) : M sst Z :=
  sm <- gets shmmap ;;
  match locate sm ptr (Z.of_nat n) with
  | Some (k, o) => gets (λ s, load_le n (mem s) k o)
  | None => crash OutOfBounds
  end.

Definition store (n : nat) (ptr v : Z) : M sst unit :=
  sm <- gets shmmap ;;
  match locate sm ptr (Z.of_nat n) with
  | Some (k, o) => modify (λ s, s <| mem := store_le n (mem s) k o v |>)
  | None => crash OutOfBounds
  end.

Definition copy_bytes (m : Z → Z → Z) (k dst src n : Z) : Z → Z → Z := λ k' o,
  if (k' =? k) && (dst <=? o) && (o <? dst + n) then m k (src + (o - dst)) else m k' o.

(** [memcpy]; both areas of the callers are in the arena's segment. *)
Definition memcpy (dst src n : Z) : M sst unit :=
  sm <- gets shmmap ;;
  if n =? 0 then retM tt else
  match locate sm dst n, locate sm src n with
  | Some (k, d), Some (k', o) =>
      if negb (k =? k') then crash BadPointer
      else if (d <? o + n) && (o <? d + n) then crash OverlapCopy
      else modify (λ s, s <| mem := copy_bytes (mem s) k d o n |>)
  | _, _ => crash OutOfBounds
  end.

(** ** Driver operations *)
Record dthread_shm_alloc_ops_t := Mops {
  mop_name : string;
  mop_init : dthread_shmref_t → M sst Z;
  mop_finalize : dthread_shmref_t → M sst Z;
  mop_malloc : dthread_shmref_t → Z → option dthread_shmref_t →
    M sst (Z * option dthread_shmref_t);
  mop_free : dthread_shmref_t → dthread_shmref_t → M sst unit;
  mop_realloc : dthread_shmref_t → dthread_shmref_t → Z →
    option dthread_shmref_t → M sst (Z * option dthread_shmref_t) }.

(** The metadata a driver finds at its arena. *)
Definition arena_at (a : dthread_shmref_t) (s : sst) : option arena_md :=
  amds s !! (dt_shmid a, dt_offset a).

Definition put_arena (a : dthread_shmref_t) (am : arena_md) : M sst unit :=
  modify (λ s, s <| amds ::= <[(dt_shmid a, dt_offset a) := am]> |>).

(** [mdalign_size]: metadata size padded to end on an [alignsz] boundary. *)
Definition mdalign_size (arena : dthread_shmref_t) (md_basesize : Z) : M sst Z :=
  sm <- gets shmmap ;;
  let base := dthread_shmref2ptr sm (Some arena) 0 + md_basesize in
  retM (md_basesize + align_pad base).

(** ** Lemmas about memory *)
Section Memory.
Implicit Types (m : Z → Z → Z) (k o v : Z) (n : nat).

Lemma store_le_out n m k o v k' o' :
  k' ≠ k ∨ o' < o ∨ o + Z.of_nat n ≤ o' → store_le n m k o v k' o' = m k' o'.
Proof.
  revert m o v. induction n as [|n IH]; intros m o v H; [done|]. simpl.
  rewrite IH by lia. unfold byte_upd.
  destruct (Z.eqb_spec k' k), (Z.eqb_spec o' o); simpl; try done. lia.
Qed.

Lemma load_le_ext n m m' k o :
  (∀ i, o ≤ i < o + Z.of_nat n → m k i = m' k i) → load_le n m k o = load_le n m' k o.
Proof.
  revert o. induction n as [|n IH]; intros o H; [done|]. simpl.
  rewrite (H o) by lia. rewrite (IH (o + 1)); [done|]. intros i Hi. apply H. lia.
Qed.

Lemma load_store_same n m k o v : load_le n (store_le n m k o v) k o = v mod 2 ^ (8 * Z.of_nat n).
Proof.
  revert m o v. induction n as [|n IH]; intros m o v.
  { simpl. by rewrite Z.mod_1_r. }
  cbn [load_le store_le]. rewrite IH, store_le_out by lia.
  unfold byte_upd. rewrite !Z.eqb_refl. simpl.
  rewrite Z.mod_mod by done.
  replace (8 * Z.of_nat (S n)) with (8 + 8 * Z.of_nat n) by lia.
  rewrite Z.pow_add_r by lia. change (2 ^ 8) with 256.
  rewrite Z.rem_mul_r by lia. done.
Qed.

Lemma load_store_disj n n' m k o k' o' v :
  k' ≠ k ∨ o' + Z.of_nat n' ≤ o ∨ o + Z.of_nat n ≤ o' →
  load_le n' (store_le n m k o v) k' o' = load_le n' m k' o'.
Proof. intros H. apply load_le_ext. intros i Hi. apply store_le_out. lia. Qed.

Lemma copy_bytes_in m k dst src len i :
  0 ≤ i < len → copy_bytes m k dst src len k (dst + i) = m k (src + i).
Proof.
  intros. unfold copy_bytes. rewrite Z.eqb_refl.
  destruct (Z.leb_spec dst (dst + i)); [|lia].
  destruct (Z.ltb_spec (dst + i) (dst + len)); [|lia]. simpl. f_equal. lia.
Qed.

Lemma copy_bytes_out m k dst src len k' o :
  k' ≠ k ∨ o < dst ∨ dst + len ≤ o → copy_bytes m k dst src len k' o = m k' o.
Proof.
  intros H. unfold copy_bytes. destruct (Z.eqb_spec k' k); [|done].
  destruct (Z.leb_spec dst o), (Z.ltb_spec o (dst + len)); simpl; try done. lia.
Qed.
End Memory.
Arguments load_le : simpl never.
Arguments store_le : simpl never.

Lemma locate_some sm k m o n :
  maps_ok sm → aget sm k = Some m → 0 ≤ o → 0 ≤ n → o < map_size m →
  o + n ≤ map_size m → locate sm (mapping m + o) n = Some (k, o).
Proof.
  intros [_ Hd] Hm Ho Hn Hlt Hle. pose proof (aget_Some_range _ _ _ Hm).
  pose proof Hm as Hm'. unfold aget in Hm'. destruct (Z.leb_spec 0 k); [|lia].
  unfold locate. rewrite (ptr_search_complete sm 0 (Z.to_nat k) m); [|eauto|done|lia].
  destruct (Z.leb_spec (mapping m + o - mapping m + n) (map_size m)); [|lia].
  do 2 f_equal; lia.
Qed.

Section Access.
Context (s : sst) (k : Z) (m : dthread_shmmap_t).
Hypothesis (Hok : maps_ok (shmmap s)) (Hm : aget (shmmap s) k = Some m).

Lemma wp_load n o (Q : Z → sst → Prop) :
  0 ≤ o < map_size m → o + Z.of_nat n ≤ map_size m →
  Q (load_le n (mem s) k o) s → wp (load n (mapping m + o)) Q s.
Proof using Hok Hm.
  intros Ho Hn HQ. unfold load. apply wp_bind, wp_gets.
  rewrite (locate_some _ k m) by (auto; lia). by apply wp_gets.
Qed.

Lemma wp_store n o v (Q : unit → sst → Prop) :
  0 ≤ o < map_size m → o + Z.of_nat n ≤ map_size m →
  Q tt (s <| mem := store_le n (mem s) k o v |>) → wp (store n (mapping m + o) v) Q s.
Proof using Hok Hm.
  intros Ho Hn HQ. unfold store. apply wp_bind, wp_gets.
  rewrite (locate_some _ k m) by (auto; lia). by apply wp_modify.
Qed.

Lemma wp_memcpy d o n (Q : unit → sst → Prop) :
  0 ≤ d → d + n ≤ map_size m → 0 ≤ o → o + n ≤ map_size m →
  0 ≤ n → o + n ≤ d ∨ d + n ≤ o →
  (n = 0 → Q tt s) → (0 < n → Q tt (s <| mem := copy_bytes (mem s) k d o n |>)) →
  wp (memcpy (mapping m + d) (mapping m + o) n) Q s.
Proof using Hok Hm.
  intros Hd Hdn Ho Hon Hn Hdis HQ0 HQ. unfold memcpy. apply wp_bind, wp_gets.
  destruct (Z.eqb_spec n 0); [by apply wp_ret, HQ0|].
  rewrite !(locate_some _ k m) by (auto; lia). rewrite Z.eqb_refl. simpl.
  destruct (Z.ltb_spec d (o + n)), (Z.ltb_spec o (d + n)); simpl;
    try (apply wp_modify, HQ; lia). lia.
Qed.
End Access.

(** ** Arenas *)

(** An arena inside a mapped segment, on an aligned address. *)
Record arena_geom (a : dthread_shmref_t) (m : dthread_shmmap_t)
    (sm : list dthread_shmmap_t) : Prop := ArenaGeom {
  ag_maps : maps_ok sm;
  ag_map : aget sm (dt_shmid a) = Some m;
  ag_off : 0 ≤ dt_offset a;
  ag_len : 0 < dt_length a;
  ag_end : dt_offset a + dt_length a ≤ map_size m;
  ag_align : (mapping m + dt_offset a) mod alignsz = 0 }.

(** The metadata [dthread_shm_new_arena] writes before it calls [init]. *)
Definition fresh_amd (a : dthread_shmref_t) (id : Z) : dthread_shm_alloc_md_t :=
  Amd DTHREAD_SHM_MD_MAGIC a (dt_offset a + sizeof_alloc_md)
    (dt_offset a + dt_length a) 0 id.

(** The metadata of an initialised arena. *)
Record arena_ready (a : dthread_shmref_t) (am : arena_md) (s : sst) : Prop := ArenaReady {
  ar_at : arena_at a s = Some am;
  ar_magic : mdmagic (am_amd am) = DTHREAD_SHM_MD_MAGIC;
  ar_self : amd_self (am_amd am) = a;
  ar_min : dt_offset a + sizeof_alloc_md ≤ min_uoffset (am_amd am) ≤ max_uoffset (am_amd am);
  ar_max : max_uoffset (am_amd am) = dt_offset a + dt_length a;
  ar_bits : badalign_bits (am_amd am) = alignsz - 1 }.

(** A block the user holds: offset in the segment and usable bytes. *)
Abbreviation blk := (Z * Z)%type.

Definition blk_disjoint (b1 b2 : blk) : Prop :=
  b1.1 + b1.2 ≤ b2.1 ∨ b2.1 + b2.2 ≤ b1.1.

Definition in_blk (b : blk) (o : Z) : Prop := b.1 ≤ o < b.1 + b.2.

(** A block lies in the user area of the arena at an aligned address. *)
Definition blk_ok (m : dthread_shmmap_t) (am : arena_md) (b : blk) : Prop :=
  min_uoffset (am_amd am) ≤ b.1 ∧ 0 ≤ b.2 ∧ b.1 + b.2 ≤ max_uoffset (am_amd am) ∧
  (mapping m + b.1) mod alignsz = 0.

(** Nothing outside the arena changes, and the arena keeps its driver. *)
Record outside (a : dthread_shmref_t) (s s' : sst) : Prop := Outside {
  os_map : shmmap s' = shmmap s;
  os_seg : segmds s' = segmds s;
  os_def : defarena s' = defarena s;
  os_src : da_src s' = da_src s;
  os_amds : ∀ k, k ≠ (dt_shmid a, dt_offset a) → amds s' !! k = amds s !! k;
  os_mopid : ∀ am, arena_at a s = Some am →
    ∃ am', arena_at a s' = Some am' ∧ mopid (am_amd am') = mopid (am_amd am);
  os_mem : ∀ k o, k ≠ dt_shmid a ∨ o < dt_offset a ∨ dt_offset a + dt_length a ≤ o →
    mem s' k o = mem s k o }.

(** The bytes of the blocks [L] keep their values. *)
Definition keeps (a : dthread_shmref_t) (L : list blk) (s s' : sst) : Prop :=
  ∀ b o, b ∈ L → in_blk b o → mem s' (dt_shmid a) o = mem s (dt_shmid a) o.

(** The state after the user wrote a byte. *)
Definition user_write (a : dthread_shmref_t) (o v : Z) (s : sst) : sst :=
  s <| mem := byte_upd (mem s) (dt_shmid a) o v |>.

(** A reference to (a prefix of) a block: what [free] and [realloc] accept. *)
Definition ref_of (a : dthread_shmref_t) (o : Z) (r : dthread_shmref_t) : Prop :=
  dt_shmid r = dt_shmid a ∧ dt_offset r = o ∧
  0 ≤ dt_length r ∧ o + dt_length r ≤ dt_offset a + dt_length a ∧
  o < dt_offset a + dt_length a.

(** A successful or failed allocation of [size] bytes beside the blocks [L]. *)
Definition alloc_result (inv : dthread_shmref_t → list blk → sst → Prop)
    (a : dthread_shmref_t) (m : dthread_shmmap_t) (L : list blk) (size : Z)
    (ref : option dthread_shmref_t) (res : Z * option dthread_shmref_t)
    (b : blk) (s' : sst) : Prop :=
  size ≤ b.2 ∧ res = (mapping m + b.1, _ ← ref; Some (Shmref (dt_shmid a) b.1 size)) ∧
  inv a (b :: L) s'.

(** What a driver promises, for arenas of at most [max_len] bytes and requests
    of at most [max_size] bytes; [inv a L s] relates arena [a] to the list [L]
    of the blocks its users hold. *)
Class Driver (ops : dthread_shm_alloc_ops_t) (max_len max_size : Z)
    (inv : dthread_shmref_t → list blk → sst → Prop) : Prop := {
  drv_sound a L s : inv a L s →
    ∃ m am, arena_geom a m (shmmap s) ∧ arena_ready a am s ∧
      ForallOrdPairs blk_disjoint L ∧ Forall (blk_ok m am) L;
  drv_perm a : Proper ((≡ₚ) ==> (=) ==> iff) (inv a);
  drv_write a L s b o v : inv a L s → b ∈ L → in_blk b o →
    inv a L (user_write a o v s);
  drv_init a m id d s : arena_geom a m (shmmap s) → dt_length a ≤ max_len →
    arena_at a s = Some (ArenaMd (fresh_amd a id) d) →
    wp (mop_init ops a) (λ rc s', outside a s s' ∧
      (rc = 0 ∧ inv a [] s' ∨ rc = ENOMEM)) s;
  drv_malloc a m L size ref s : inv a L s → arena_geom a m (shmmap s) →
    0 ≤ size ≤ max_size →
    wp (mop_malloc ops a size ref) (λ res s', outside a s s' ∧ keeps a L s s' ∧
      ((res = (0, ref) ∧ inv a L s') ∨
       ∃ b, alloc_result inv a m L size ref res b s')) s;
  drv_free a L b L' r s : inv a L s → L ≡ₚ b :: L' → ref_of a b.1 r →
    wp (mop_free ops a r) (λ _ s', outside a s s' ∧ keeps a L' s s' ∧ inv a L' s') s;
  drv_realloc a m L b L' r size ref s : inv a L s → arena_geom a m (shmmap s) →
    L ≡ₚ b :: L' → ref_of a b.1 r → 0 ≤ size ≤ max_size →
    wp (mop_realloc ops a r size ref) (λ res s', outside a s s' ∧
      ((res = (0, ref) ∧ inv a L s' ∧ keeps a L s s') ∨
       ∃ b', alloc_result inv a m L' size ref res b' s' ∧ keeps a L' s s' ∧
         ∀ i, 0 ≤ i < b.2 `min` size →
           mem s' (dt_shmid a) (b'.1 + i) = mem s (dt_shmid a) (b.1 + i))) s }.

(** ** Lemmas about arenas *)

Lemma outside_refl a s : outside a s s.
Proof. split; eauto. Qed.

Lemma outside_trans a s1 s2 s3 : outside a s1 s2 → outside a s2 s3 → outside a s1 s3.
Proof.
  intros H H'. split; try (etransitivity; [apply H'|apply H]; fail).
  - intros k Hk. etransitivity; [by apply H'|by apply H].
  - intros am (am'&Hat&Hid)%(os_mopid _ _ _ H).
    destruct (os_mopid _ _ _ H' _ Hat) as (am''&?&?). exists am''. split; congruence.
  - intros k o Ho. etransitivity; [by apply H'|by apply H].
Qed.

Lemma keeps_refl a L s : keeps a L s s.
Proof. done. Qed.

Lemma keeps_trans a L s1 s2 s3 : keeps a L s1 s2 → keeps a L s2 s3 → keeps a L s1 s3.
Proof. intros H H' b o Hb Ho. etransitivity; [by eapply H'|by eapply H]. Qed.

Lemma keeps_sub a L L' s s' : L' ⊆ L → keeps a L s s' → keeps a L' s s'.
Proof. intros HL H b o Hb. apply H. by apply HL. Qed.

(** Replacing the arena's metadata, with the same driver id. *)
Lemma outside_put a am am' s :
  arena_at a s = Some am → mopid (am_amd am') = mopid (am_amd am) →
  outside a s (s <| amds ::= <[(dt_shmid a, dt_offset a) := am']> |>).
Proof.
  intros Ham Hid. split; try done; simpl.
  - intros k Hk. by rewrite lookup_insert_ne.
  - intros am0 H0. rewrite Ham in H0. injection H0 as <-.
    exists am'. unfold arena_at. simpl. by rewrite lookup_insert_eq.
Qed.

(** Changing memory inside the arena. *)
Lemma outside_mem a mm s :
  (∀ k o, k ≠ dt_shmid a ∨ o < dt_offset a ∨ dt_offset a + dt_length a ≤ o →
    mm k o = mem s k o) →
  outside a s (s <| mem := mm |>).
Proof. intros H. split; try done; simpl. eauto. Qed.

Lemma geom_map_ok a m sm : arena_geom a m sm → map_ok m.
Proof.
  intros [[H _] Hm]. unfold aget in Hm. destruct (0 <=? dt_shmid a); [|done]. by eapply H.
Qed.

Lemma geom_unique a m m' sm : arena_geom a m sm → arena_geom a m' sm → m = m'.
Proof. intros [? H] [? H']. congruence. Qed.

Lemma arena_ptr a m sm n :
  arena_geom a m sm → n ≤ dt_length a →
  dthread_shmref2ptr sm (Some a) n = mapping m + dt_offset a.
Proof. intros [] Hn. apply shmref2ptr_some; [done|lia..]. Qed.

Lemma ref_ptr a m sm o r :
  arena_geom a m sm → ref_of a o r →
  dthread_shmref2ptr sm (Some r) 0 = mapping m + o.
Proof.
  intros [] (Hs&<-&?&?&?). apply shmref2ptr_some; [by rewrite Hs|lia..].
Qed.

Lemma wp_mdalign_size a m n (Q : Z → sst → Prop) s :
  arena_geom a m (shmmap s) → n mod alignsz = 0 → Q n s → wp (mdalign_size a n) Q s.
Proof.
  intros Hg Hn HQ. unfold mdalign_size. apply wp_bind, wp_gets, wp_ret.
  pose proof (ag_len _ _ _ Hg). rewrite (arena_ptr a m) by (done || lia).
  unfold align_pad.
  rewrite (mod_add_0 (mapping m + dt_offset a)); [|done|apply Hg|done].
  simpl. by rewrite Z.add_0_r.
Qed.

(** Pairwise properties do not depend on the order of the blocks. *)
Section Pairs.
Context {A : Type} (R : relation A).

Lemma pairs_perm `{!Symmetric R} (l k : list A) :
  l ≡ₚ k → ForallOrdPairs R l → ForallOrdPairs R k.
Proof.
  induction 1 as [|x l k Hp IH|x y l|l k k' _ IH1 _ IH2]; intros H; auto.
  - inversion_clear H. constructor; [|by apply IH]. by rewrite <-Hp.
  - inversion_clear H as [|? ? Hx H']. inversion_clear H' as [|? ? Hy H''].
    apply Forall_cons in Hx as [Hxy Hx].
    repeat constructor; auto.
Qed.

Lemma pairs_elem `{!Symmetric R} (l : list A) x y :
  ForallOrdPairs R l → x ∈ l → y ∈ l → x ≠ y → R x y.
Proof.
  induction 1 as [|z l Hz Hl IH]; intros Hx Hy Hne; [by apply not_elem_of_nil in Hx|].
  rewrite Forall_forall in Hz.
  apply elem_of_cons in Hx as [->|Hx], Hy as [->|Hy]; [done|by auto| |by auto].
  symmetry. by auto.
Qed.

Lemma pairs_cons x (l : list A) :
  ForallOrdPairs R (x :: l) ↔ Forall (R x) l ∧ ForallOrdPairs R l.
Proof. split; [by inversion_clear 1|intros []; by constructor]. Qed.

Lemma pairs_impl (Q : relation A) (l : list A) :
  (∀ x y, x ∈ l → y ∈ l → R x y → Q x y) → ForallOrdPairs R l → ForallOrdPairs Q l.
Proof.
  intros Himp. induction 1 as [|x l Hx Hl IH]; constructor.
  - apply Forall_forall. intros y Hy. apply Himp; [left|by right|].
    by eapply Forall_forall in Hx.
  - apply IH. intros y z Hy Hz. apply Himp; by right.
Qed.
End Pairs.

(** ** Reallocation by allocating, copying and freeing

    The growing branch that both drivers' [realloc] share, for an invariant
    that does not depend on the contents of the users' blocks. *)
Section Move.
Context (inv : dthread_shmref_t → list blk → sst → Prop).
Hypothesis inv_sound : ∀ a L s, inv a L s →
  ∃ m am, arena_geom a m (shmmap s) ∧ arena_ready a am s ∧
    ForallOrdPairs blk_disjoint L ∧ Forall (blk_ok m am) L.
Hypothesis inv_mem : ∀ a L s mm, inv a L s →
  (∀ o, (∀ b, b ∈ L → ¬ in_blk b o) → mm (dt_shmid a) o = mem s (dt_shmid a) o) →
  inv a L (s <| mem := mm |>).

#[local] Instance blk_disjoint_sym : Symmetric blk_disjoint.
Proof using Type. unfold blk_disjoint. intros ? ?. lia. Qed.

(** The copy from block [x] to block [y]. *)
Lemma copy_wp a m L x y n s :
  inv a (y :: L) s → arena_geom a m (shmmap s) → x ∈ L → 0 ≤ n ≤ x.2 → n ≤ y.2 →
  wp (memcpy (mapping m + y.1) (mapping m + x.1) n) (λ _ s',
    outside a s s' ∧ keeps a L s s' ∧ inv a (y :: L) s' ∧
    ∀ i, 0 ≤ i < n → mem s' (dt_shmid a) (y.1 + i) = mem s (dt_shmid a) (x.1 + i)) s.
Proof using inv_sound inv_mem.
  intros Hinv Hg Hx Hn Hy. destruct (inv_sound _ _ _ Hinv) as (m'&am&Hg'&Hr&Hd&Hb).
  pose proof (geom_unique _ _ _ _ Hg Hg') as <-. pose proof Hg as [].
  apply pairs_cons in Hd as [Hd _]. apply Forall_cons in Hb as [(?&?&?&_) Hb].
  rewrite Forall_forall in Hd, Hb. pose proof (Hb x Hx) as (?&?&?&_).
  pose proof (Hd x Hx) as Hyx. unfold blk_disjoint in Hyx. destruct Hr. unfold sizeof_alloc_md in *.
  apply (wp_memcpy _ (dt_shmid a)); [done|done|lia..| |].
  - intros ->. split; [apply outside_refl|]. split; [done|]. split; [done|lia].
  - intros Hpos. split; [|split; [|split]].
    + apply outside_mem. intros k o Ho. apply copy_bytes_out. lia.
    + intros z o Hz Ho. apply copy_bytes_out. specialize (Hd z Hz).
      unfold in_blk, blk_disjoint in *. lia.
    + apply inv_mem; [done|]. intros o Ho. apply copy_bytes_out.
      assert (¬ in_blk y o) as Hyo by (apply Ho; left). unfold in_blk in Hyo. lia.
    + intros i Hi. simpl. by apply copy_bytes_in.
Qed.

Lemma move_wp a m L x L' size n ref s
    (malloc : M sst (Z * option dthread_shmref_t)) (free : M sst unit) :
  inv a L s → arena_geom a m (shmmap s) → L ≡ₚ x :: L' → 0 ≤ n ≤ x.2 → n ≤ size →
  wp malloc (λ res s', outside a s s' ∧ keeps a L s s' ∧
    ((res = (0, ref) ∧ inv a L s') ∨ ∃ b, alloc_result inv a m L size ref res b s')) s →
  (∀ K K' t, inv a K t → K ≡ₚ x :: K' →
    wp free (λ _ t', outside a t t' ∧ keeps a K' t t' ∧ inv a K' t') t) →
  wp (r <- malloc ;;
      if r.1 =? 0 then retM (0, r.2)
      else memcpy r.1 (mapping m + x.1) n ;;; free ;;; retM r)
    (λ res s', outside a s s' ∧
      ((res = (0, ref) ∧ inv a L s' ∧ keeps a L s s' ∧ malloc s = Ok ((0, ref), s')) ∨
       ∃ b', alloc_result inv a m L' size ref res b' s' ∧ keeps a L' s s' ∧
         ∀ i, 0 ≤ i < n →
           mem s' (dt_shmid a) (b'.1 + i) = mem s (dt_shmid a) (x.1 + i))) s.
Proof using inv_sound inv_mem.
  intros Hinv Hg HL Hn Hns Hmalloc Hfree. assert (x ∈ L) as Hx by (rewrite HL; left).
  apply wp_bind. eapply wp_mono; [exact (wp_runs _ _ _ Hmalloc)|].
  intros res s1 ((Ho1&Hk1&[(->&Hinv1)|(y&Hy&->&Hinv1)])&Hrun).
  { simpl. apply wp_ret. split; [done|]. by left. }
  pose proof (geom_map_ok _ _ _ Hg) as (?&_&_). simpl.
  assert (arena_geom a m (shmmap s1)) as Hg1 by by rewrite (os_map _ _ _ Ho1).
  assert (0 < y.1).
  { destruct (inv_sound _ _ _ Hinv1) as (m'&am&_&Hr&_&Hb).
    apply Forall_cons in Hb as [(?&_) _]. destruct Hr. unfold sizeof_alloc_md in *.
    pose proof (ag_off _ _ _ Hg). lia. }
  destruct (Z.eqb_spec (mapping m + y.1) 0); [lia|].
  apply wp_bind. eapply wp_mono; [apply (copy_wp a m L x y n s1); [done..|lia]|].
  intros [] s2 (Ho2&Hk2&Hinv2&Hcopy). apply wp_bind. eapply wp_mono.
  { apply (Hfree (y :: L) (y :: L')); [done|]. rewrite HL. apply perm_swap. }
  intros [] s3 (Ho3&Hk3&Hinv3). apply wp_ret.
  split; [by eapply outside_trans; [|eapply outside_trans]|]. right. exists y.
  split; [by split|]. split.
  - assert (L' ⊆ L) as Hsub by (intros z Hz; rewrite HL; by right).
    eapply keeps_trans; [by eapply keeps_sub|]. eapply keeps_trans; [by eapply keeps_sub|].
    eapply keeps_sub; [|done]. intros z Hz. by right.
  - intros i Hi. rewrite (Hk3 y); [|left|unfold in_blk; lia].
    rewrite Hcopy by lia. apply (Hk1 x); [done|]. unfold in_blk. lia.
Qed.
End Move.
