(* ===== verification/BreakMalloc.v ===== *)
(** * The "break" allocator

    The first driver of [libdthread/dt_shmops.c]: memory is handed out from a
    break line that moves up, each block behind a header of four 32-bit words,
    and the line is reset when the last block is freed. *)

From S2P Require Import Prelude Types ShmRef SegOps ShmAlloc.

Definition BREAK_BEFORE : Z := 0xbef01e12.
Definition BREAK_AFTER : Z := 0xaf1e1345.

(** ** Operations *)

(** The driver's metadata, through the arena pointer of at least
    [sizeof(struct break_malloc_md)] bytes. *)
Definition get_break (arena : dthread_shmref_t)
    : M sst (dthread_shm_alloc_md_t * break_malloc_md) :=
  sm <- gets shmmap ;;
  if dthread_shmref2ptr sm (Some arena) sizeof_break_md =? 0 then crash NullDeref
  else
    oam <- gets (arena_at arena) ;;
    match oam with
    | Some (ArenaMd amd (DrvBreak b)) => retM (amd, b)
    | _ => crash BadPointer
    end.

Definition put_break (arena : dthread_shmref_t) (amd : dthread_shm_alloc_md_t)
    (b : break_malloc_md) : M sst unit :=
  put_arena arena (ArenaMd amd (DrvBreak b)).

Definition break_init (arena : dthread_shmref_t) : M sst Z :=
  mdsize <- mdalign_size arena sizeof_break_md ;;
  sm <- gets shmmap ;;
  if dthread_shmref2ptr sm (Some arena) mdsize =? 0 then retM ENOMEM
  else
    oam <- gets (arena_at arena) ;;
    am <- get_some BadPointer oam ;;
    let amd := am_amd am in
    let amd := amd <| min_uoffset := u64 (dt_offset (amd_self amd) + mdsize) |> in
    let amd := amd <| badalign_bits := alignsz - 1 |> in
    let hdrlen := 4 * 4 in
    let pad := hdrlen mod alignsz in
    let hdrlen := if pad =? 0 then hdrlen else hdrlen + (alignsz - pad) in
    put_break arena amd (BreakMd mdsize hdrlen 0) ;;;
    retM 0.

Definition break_finalize (arena : dthread_shmref_t) : M sst Z :=
  _ <- get_break arena ;;
  retM 0.

Definition break_malloc (arena : dthread_shmref_t) (size : Z)
    (newref : option dthread_shmref_t) : M sst (Z * option dthread_shmref_t) :=
  md <- get_break arena ;;
  let '(amd, b) := md in
  let total := u64 (size + align_pad size + bk_hdrlen b) in
  if total <=? u64 (dt_length (amd_self amd) - bk_allocated b) then
    sm <- gets shmmap ;;
    m <- get_some OutOfBounds (aget sm (dt_shmid arena)) ;;
    let hdr := mapping m + dt_offset arena + bk_allocated b in
    store 4 hdr BREAK_BEFORE ;;;
    store 4 (hdr + 4) (Z.shiftr size 32) ;;;
    store 4 (hdr + 8) (Z.land size 0xffffffff) ;;;
    store 4 (hdr + 12) BREAK_AFTER ;;;
    let rv := hdr + bk_hdrlen b in
    let newref' := _ ← newref; Some (Shmref (dt_shmid arena)
      (u64 (dt_offset arena + bk_allocated b + bk_hdrlen b)) size) in
    if negb (int_ok (bk_nalloc b + 1)) then crash SignedOverflow
    else
      put_break arena amd
        (BreakMd (u64 (bk_allocated b + total)) (bk_hdrlen b) (bk_nalloc b + 1)) ;;;
      retM (rv, newref')
  else retM (0, newref).

Definition break_free (arena ref : dthread_shmref_t) : M sst unit :=
  md <- get_break arena ;;
  let '(amd, b) := md in
  if dt_offset ref <? u64 (min_uoffset amd + bk_hdrlen b) then retM tt
  else
    sm <- gets shmmap ;;
    let ptr := dthread_shmref2ptr sm (Some ref) 0 in
    let hdr := ptr - bk_hdrlen b in
    w0 <- load 4 hdr ;;
    w3 <- load 4 (hdr + 12) ;;
    if negb (w0 =? BREAK_BEFORE) || negb (w3 =? BREAK_AFTER) then retM tt
    else
      store 4 hdr 0xdeaddead ;;;
      let nalloc := if 0 <? bk_nalloc b then bk_nalloc b - 1 else bk_nalloc b in
      let allocated :=
        if nalloc =? 0 then u64 (min_uoffset amd - dt_offset (amd_self amd))
        else bk_allocated b in
      put_break arena amd (BreakMd allocated (bk_hdrlen b) nalloc).

Definition break_realloc (arena inref : dthread_shmref_t) (new_size : Z)
    (newref : option dthread_shmref_t) : M sst (Z * option dthread_shmref_t) :=
  md <- get_break arena ;;
  let '(amd, b) := md in
  if dt_offset inref <? u64 (min_uoffset amd + bk_hdrlen b) then retM (0, newref)
  else
    sm <- gets shmmap ;;
    let ptr := dthread_shmref2ptr sm (Some inref) 0 in
    let hdr := ptr - bk_hdrlen b in
    w0 <- load 4 hdr ;;
    w3 <- load 4 (hdr + 12) ;;
    if negb (w0 =? BREAK_BEFORE) || negb (w3 =? BREAK_AFTER) then retM (0, newref)
    else
      w1 <- load 4 (hdr + 4) ;;
      w2 <- load 4 (hdr + 8) ;;
      let old_size := Z.lor (Z.shiftl w1 32) w2 in
      if new_size <=? old_size then
        m <- get_some OutOfBounds (aget sm (dt_shmid arena)) ;;
        retM (ptr, _ ← newref; Some (Shmref (dt_shmid arena) (ptr - mapping m) new_size))
      else
        r <- break_malloc arena new_size newref ;;
        if r.1 =? 0 then retM (0, r.2)
        else
          memcpy r.1 ptr old_size ;;;
          break_free arena inref ;;;
          retM r.

Definition break_ops : dthread_shm_alloc_ops_t :=
  Mops "break" break_init break_finalize break_malloc break_free break_realloc.

(** ** Invariant *)

(** The header in front of a block of [b.2] bytes at [b.1]. *)
Definition hdr_ok (mm : Z → Z → Z) (k : Z) (b : blk) : Prop :=
  load_le 4 mm k (b.1 - 16) = BREAK_BEFORE ∧
  load_le 4 mm k (b.1 - 12) = Z.shiftr b.2 32 ∧
  load_le 4 mm k (b.1 - 8) = Z.land b.2 0xffffffff ∧
  load_le 4 mm k (b.1 - 4) = BREAK_AFTER.

(** The block with its header and padding. *)
Definition extent (b : blk) : blk := (b.1 - 16, 16 + (b.2 + align_pad b.2)).

Definition ext_disjoint (b1 b2 : blk) : Prop := blk_disjoint (extent b1) (extent b2).

Definition break_max_len : Z := 2 ^ 34.
Definition break_max_size : Z := 2 ^ 64 - 32.

Record break_st (a : dthread_shmref_t) (L : list blk) (s : sst)
    (m : dthread_shmmap_t) (id : Z) (b : break_malloc_md) : Prop := BreakSt {
  bs_geom : arena_geom a m (shmmap s);
  bs_at : arena_at a s = Some (ArenaMd
    (Amd DTHREAD_SHM_MD_MAGIC a (dt_offset a + sizeof_break_md)
       (dt_offset a + dt_length a) (alignsz - 1) id) (DrvBreak b));
  bs_len : dt_length a ≤ break_max_len;
  bs_hdrlen : bk_hdrlen b = 16;
  bs_alloc : sizeof_break_md ≤ bk_allocated b ≤ dt_length a;
  bs_align : bk_allocated b mod alignsz = 0;
  bs_nalloc : bk_nalloc b = Z.of_nat (length L);
  bs_count : 16 * bk_nalloc b ≤ bk_allocated b - sizeof_break_md;
  bs_dis : ForallOrdPairs ext_disjoint L;
  bs_blk : Forall (λ x : blk, 0 ≤ x.2 ∧
    dt_offset a + sizeof_break_md ≤ x.1 - 16 ∧
    x.1 + (x.2 + align_pad x.2) ≤ dt_offset a + bk_allocated b ∧
    (mapping m + x.1) mod alignsz = 0 ∧ hdr_ok (mem s) (dt_shmid a) x) L }.

Definition break_inv (a : dthread_shmref_t) (L : list blk) (s : sst) : Prop :=
  ∃ m id b, break_st a L s m id b.

(** ** Headers *)

Lemma hdr_ok_ext mm mm' k b :
  (∀ o, b.1 - 16 ≤ o < b.1 → mm k o = mm' k o) → hdr_ok mm k b → hdr_ok mm' k b.
Proof.
  intros He (H0&Ha&Hb&Hc). repeat split.
  all: erewrite load_le_ext; [eassumption|]; intros i Hi; symmetry; apply He; lia.
Qed.

(** The four stores of [break_malloc]. *)
Definition put_hdr (mm : Z → Z → Z) (k o size : Z) : Z → Z → Z :=
  store_le 4 (store_le 4 (store_le 4 (store_le 4 mm k o BREAK_BEFORE)
    k (o + 4) (Z.shiftr size 32)) k (o + 8) (Z.land size 0xffffffff))
    k (o + 12) BREAK_AFTER.

Lemma put_hdr_out mm k o size k' o' :
  k' ≠ k ∨ o' < o ∨ o + 16 ≤ o' → put_hdr mm k o size k' o' = mm k' o'.
Proof. intros H. unfold put_hdr. rewrite !store_le_out by lia. done. Qed.

Lemma land_low32 z : Z.land z 0xffffffff = z mod 2 ^ 32.
Proof. change 0xffffffff with (Z.ones 32). by apply Z.land_ones. Qed.

Lemma put_hdr_ok mm k o size :
  0 ≤ size < 2 ^ 64 → hdr_ok (put_hdr mm k o size) k (o + 16, size).
Proof.
  intros Hs. unfold put_hdr, hdr_ok. cbn [fst snd].
  replace (o + 16 - 16) with o by lia. replace (o + 16 - 12) with (o + 4) by lia.
  replace (o + 16 - 8) with (o + 8) by lia. replace (o + 16 - 4) with (o + 12) by lia.
  repeat split.
  all: do 3 rewrite ?load_store_disj by lia; rewrite load_store_same;
    change (8 * Z.of_nat 4) with 32; apply Z.mod_small; try done.
  - rewrite Z.shiftr_div_pow2 by done. split; [by apply Z.div_pos; lia|].
    apply Z.div_lt_upper_bound; lia.
  - rewrite land_low32. apply Z.mod_pos_bound. lia.
Qed.

(** The size read back from the two words of the header. *)
Lemma hdr_size_words size :
  0 ≤ size → Z.lor (Z.shiftl (Z.shiftr size 32) 32) (Z.land size 0xffffffff) = size.
Proof.
  intros Hs. change 0xffffffff with (Z.ones 32). apply Z.bits_inj'. intros n Hn.
  rewrite Z.lor_spec, Z.land_spec, Z.shiftl_spec by done.
  destruct (Z.ltb_spec n 32).
  - rewrite (Z.testbit_neg_r _ (n - 32)), Z.ones_spec_low by lia. by rewrite andb_true_r.
  - rewrite Z.shiftr_spec, Z.ones_spec_high by lia.
    rewrite andb_false_r, orb_false_r. f_equal. lia.
Qed.

(** ** Preservation lemmas *)

#[local] Instance ext_disjoint_sym : Symmetric ext_disjoint.
Proof. unfold ext_disjoint, blk_disjoint. intros ? ?. lia. Qed.

#[export] Instance break_inv_perm a : Proper ((≡ₚ) ==> (=) ==> iff) (break_inv a).
Proof.
  assert (∀ L L' s, L ≡ₚ L' → break_inv a L s → break_inv a L' s) as Hp.
  { intros L L' s HL (m&id&b&[]). exists m, id, b. split; try done.
    - by rewrite <-HL.
    - exact (pairs_perm ext_disjoint _ _ HL bs_dis0).
    - by rewrite <-HL. }
  intros L L' HL s ? <-. split; by apply Hp.
Qed.

(** Headers and extents survive every change inside users' blocks. *)
Lemma break_inv_mem a L s mm :
  break_inv a L s →
  (∀ o, (∀ b, b ∈ L → ¬ in_blk b o) → mm (dt_shmid a) o = mem s (dt_shmid a) o) →
  break_inv a L (s <| mem := mm |>).
Proof.
  intros (m&id&b&[]) Hmm. exists m, id, b. split; try done.
  apply Forall_forall. intros x Hx. rewrite Forall_forall in bs_blk0.
  destruct (bs_blk0 x Hx) as (?&?&?&?&Hh). do 4 (split; [done|]).
  eapply hdr_ok_ext; [|exact Hh]. intros o Ho. simpl. symmetry. apply Hmm.
  intros y Hy Hin. unfold in_blk in Hin.
  destruct (decide (x = y)) as [<-|Hne]; [lia|].
  pose proof (pairs_elem _ _ _ _ bs_dis0 Hx Hy Hne) as Hd.
  unfold ext_disjoint, blk_disjoint, extent in Hd. simpl in Hd.
  pose proof (align_pad_bounds x.2). pose proof (align_pad_bounds y.2). lia.
Qed.

Definition break_amd (a : dthread_shmref_t) (id : Z) : dthread_shm_alloc_md_t :=
  Amd DTHREAD_SHM_MD_MAGIC a (dt_offset a + sizeof_break_md)
    (dt_offset a + dt_length a) (alignsz - 1) id.

Lemma wp_get_break a m id b (Q : _ → sst → Prop) s :
  arena_geom a m (shmmap s) → sizeof_break_md ≤ dt_length a →
  arena_at a s = Some (ArenaMd (break_amd a id) (DrvBreak b)) →
  Q (break_amd a id, b) s → wp (get_break a) Q s.
Proof.
  intros Hg Hl Hat HQ. unfold get_break. apply wp_bind, wp_gets.
  rewrite (arena_ptr a m) by done. pose proof (ag_off _ _ _ Hg).
  destruct (proj1 (ag_maps _ _ _ Hg) (Z.to_nat (dt_shmid a)) m) as (?&_&_).
  { pose proof (ag_map _ _ _ Hg) as Hm. unfold aget in Hm. by destruct (0 <=? dt_shmid a). }
  destruct (Z.eqb_spec (mapping m + dt_offset a) 0); [lia|].
  apply wp_bind, wp_gets. rewrite Hat. by apply wp_ret.
Qed.

Lemma break_init_exec a m id d s :
  arena_geom a m (shmmap s) → sizeof_break_md ≤ dt_length a →
  arena_at a s = Some (ArenaMd (fresh_amd a id) d) →
  wp (break_init a) (λ rc s', rc = 0 ∧
    s' = s <| amds ::= <[(dt_shmid a, dt_offset a) :=
                 ArenaMd (break_amd a id) (DrvBreak (BreakMd sizeof_break_md 16 0))]> |>) s.
Proof.
  intros Hg Hl Hat. unfold break_init. apply wp_bind, (wp_mdalign_size a m); [done..|].
  apply wp_bind, wp_gets. pose proof (geom_map_ok _ _ _ Hg) as (?&?&?). pose proof Hg as [].
  rewrite (arena_ptr a m) by done. destruct (Z.eqb_spec (mapping m + dt_offset a) 0); [lia|].
  apply wp_bind, wp_gets. rewrite Hat. apply wp_bind. eapply wp_get_some; [done|].
  unfold sizeof_break_md in *. simpl. rewrite u64_small by lia. by apply wp_bind, wp_modify, wp_ret.
Qed.

Lemma break_st_init a m id s :
  arena_geom a m (shmmap s) → sizeof_break_md ≤ dt_length a ≤ break_max_len →
  arena_at a s = Some (ArenaMd (break_amd a id) (DrvBreak (BreakMd sizeof_break_md 16 0))) →
  break_st a [] s m id (BreakMd sizeof_break_md 16 0).
Proof.
  intros Hg Hl Hat. split; simpl; try done; try constructor; try done; try lia.
Qed.

Lemma break_init_wp a m id d s :
  arena_geom a m (shmmap s) → dt_length a ≤ break_max_len →
  arena_at a s = Some (ArenaMd (fresh_amd a id) d) →
  wp (break_init a) (λ rc s', outside a s s' ∧
    (rc = 0 ∧ break_inv a [] s' ∨ rc = ENOMEM)) s.
Proof.
  intros Hg Hl Hat. destruct (Z.le_gt_cases sizeof_break_md (dt_length a)) as [Hfit|Hshort].
  - eapply wp_mono; [by eapply break_init_exec|]. intros rc s' [-> ->]. split; [by eapply outside_put|].
    left. split; [done|]. exists m, id, (BreakMd sizeof_break_md 16 0). apply break_st_init; [done|done|].
    unfold arena_at. simpl. by rewrite lookup_insert_eq.
  - unfold break_init. apply wp_bind, (wp_mdalign_size a m); [done..|]. apply wp_bind, wp_gets.
    destruct (Z.eqb_spec (dthread_shmref2ptr (shmmap s) (Some a) sizeof_break_md) 0) as [|Hp].
    { apply wp_ret. split; [apply outside_refl|by right]. }
    apply shmref2ptr_inv in Hp as (m'&_&_&_&Hlen&_). specialize (Hlen (λ H, ltac:(discriminate H))). lia.
Qed.

Lemma break_total size :
  0 ≤ size ≤ break_max_size →
  u64 (size + align_pad size + 16) = size + align_pad size + 16.
Proof.
  unfold break_max_size. intros Hs. apply u64_small.
  pose proof (align_pad_bounds size). pose proof (align_pad_multiple size) as Hm.
  unfold alignsz in *. apply Z.mod_divide in Hm as [q Hq]; [|done]. lia.
Qed.

(** The state after a block was carved out at the break. *)
Definition carved (a : dthread_shmref_t) (id : Z) (b : break_malloc_md) (size : Z) (s : sst) : sst :=
  s <| mem := put_hdr (mem s) (dt_shmid a) (dt_offset a + bk_allocated b) size |>
    <| amds ::= <[(dt_shmid a, dt_offset a) := ArenaMd (break_amd a id)
        (DrvBreak (BreakMd (bk_allocated b + (size + align_pad size + 16)) 16
           (bk_nalloc b + 1)))]> |>.

Lemma break_st_alloc a L s m id b size :
  break_st a L s m id b → 0 ≤ size ≤ break_max_size →
  size + align_pad size + 16 ≤ dt_length a - bk_allocated b →
  break_st a ((dt_offset a + bk_allocated b + 16, size) :: L) (carved a id b size s) m id
    (BreakMd (bk_allocated b + (size + align_pad size + 16)) 16 (bk_nalloc b + 1)).
Proof.
  intros [] Hs Hfit. unfold carved. set (o := dt_offset a + bk_allocated b).
  pose proof (align_pad_bounds size).
  unfold sizeof_break_md, break_max_size in *.
  split; simpl; unfold sizeof_break_md; try done; try lia.
  - unfold arena_at. simpl. by rewrite lookup_insert_eq.
  - apply mod_add_0; [done|done|]. apply mod_add_0; [done|apply align_pad_multiple|done].
  - apply pairs_cons. split; [|done]. eapply Forall_impl; [done|].
    intros x (?&?&?&_). unfold ext_disjoint, blk_disjoint, extent. simpl. lia.
  - constructor; simpl.
    + repeat split; try lia; [|by apply put_hdr_ok; lia..].
      subst o. rewrite !Z.add_assoc. apply mod_add_0; [done| |done].
      apply mod_add_0; [done|apply bs_geom0|done].
    + eapply Forall_impl; [done|]. intros x (?&?&?&?&Hh).
      do 2 (split; [done|]). split; [lia|]. split; [done|].
      eapply hdr_ok_ext; [|exact Hh]. intros p Hp. symmetry. apply put_hdr_out.
      pose proof (align_pad_bounds x.2). lia.
Qed.

(** [break_malloc] in an arena with room. *)
Lemma break_malloc_exec a L s m id b size ref :
  break_st a L s m id b → 0 ≤ size ≤ break_max_size →
  size + align_pad size + 16 ≤ dt_length a - bk_allocated b →
  let o := dt_offset a + bk_allocated b + 16 in
  wp (break_malloc a size ref) (λ res s',
    res = (mapping m + o, _ ← ref; Some (Shmref (dt_shmid a) o size)) ∧ s' = carved a id b size s) s.
Proof.
  intros Hst Hs Hfit. pose proof Hst as [].
  pose proof (geom_map_ok _ _ _ bs_geom0) as (?&?&?). pose proof bs_geom0 as [].
  unfold sizeof_break_md, break_max_len in *.
  unfold break_malloc. apply wp_bind, (wp_get_break a m id b); [done|unfold sizeof_break_md; lia|done|].
  simpl. rewrite bs_hdrlen0, break_total, u64_small by (done || lia).
  destruct (Z.leb_spec (size + align_pad size + 16) (dt_length a - bk_allocated b)); [|lia].
  apply wp_bind, wp_gets. rewrite ag_map. apply wp_bind, (wp_get_some _ _ m); [done|].
  pose proof (align_pad_bounds size). set (o := dt_offset a + bk_allocated b).
  replace (mapping m + dt_offset a + bk_allocated b) with (mapping m + o) by lia.
  assert (o + 16 ≤ map_size m) by lia. rewrite <-!(Z.add_assoc (mapping m) o).
  do 4 (apply wp_bind; apply (wp_store _ (dt_shmid a)); [done|done|lia|lia|]; simpl).
  assert (int_ok (bk_nalloc b + 1) = true) as ->.
  { unfold int_ok. apply andb_true_iff. split; [apply Z.leb_le|apply Z.ltb_lt]; lia. }
  simpl. apply wp_bind, wp_modify, wp_ret. rewrite !u64_small by lia. done.
Qed.

Lemma break_inv_alloc a L s m id b size :
  break_st a L s m id b → 0 ≤ size ≤ break_max_size →
  size + align_pad size + 16 ≤ dt_length a - bk_allocated b →
  break_inv a ((dt_offset a + bk_allocated b + 16, size) :: L) (carved a id b size s).
Proof. intros. eexists _, _, _. by apply break_st_alloc. Qed.

Lemma break_malloc_wp a m L size ref s :
  break_inv a L s → arena_geom a m (shmmap s) → 0 ≤ size ≤ break_max_size →
  wp (break_malloc a size ref) (λ res s', outside a s s' ∧ keeps a L s s' ∧
    ((res = (0, ref) ∧ break_inv a L s') ∨
     ∃ b, alloc_result break_inv a m L size ref res b s')) s.
Proof.
  intros (m'&id&b&Hst) Hg Hs. pose proof Hst as [].
  pose proof (geom_unique _ _ _ _ Hg bs_geom0) as <-. pose proof (align_pad_bounds size).
  unfold sizeof_break_md, break_max_len in *.
  destruct (Z.le_gt_cases (size + align_pad size + 16) (dt_length a - bk_allocated b)) as [Hfit|Hfull].
  2: { unfold break_malloc. apply wp_bind, (wp_get_break a m id b); [done|unfold sizeof_break_md; lia|done|].
       simpl. rewrite bs_hdrlen0, break_total, u64_small by (done || lia).
       destruct (Z.leb_spec (size + align_pad size + 16) (dt_length a - bk_allocated b)); [lia|].
       apply wp_ret. split; [apply outside_refl|]. split; [apply keeps_refl|]. left.
       split; [done|]. by exists m, id, b. }
  eapply wp_mono; [by eapply break_malloc_exec|]. intros res s' [-> ->].
  pose proof (break_inv_alloc _ _ _ _ _ _ _ Hst Hs Hfit) as Hinv. set (o := dt_offset a + bk_allocated b) in *.
  split; [|split].
  - eapply outside_trans; [apply (outside_mem a (put_hdr (mem s) (dt_shmid a) o size))
                          |by eapply outside_put].
    intros k x Hx. apply put_hdr_out. lia.
  - intros x p Hx Hp. simpl. rewrite Forall_forall in bs_blk0.
    destruct (bs_blk0 x Hx) as (?&?&?&_). unfold in_blk in Hp.
    apply (put_hdr_out _ _ o size). pose proof (align_pad_bounds x.2). lia.
  - right. exists (o + 16, size). split; [done|]. split; [done|]. done.
Qed.

(** The two checks and the header address of [break_free] and
    [break_realloc] on a block of the list. *)
Lemma break_block a L s m id b x :
  break_st a L s m id b → x ∈ L →
  0 ≤ x.2 ∧ dt_offset a + sizeof_break_md + 16 ≤ x.1 ∧
  x.1 + (x.2 + align_pad x.2) ≤ dt_offset a + bk_allocated b ∧
  (mapping m + x.1) mod alignsz = 0 ∧ hdr_ok (mem s) (dt_shmid a) x.
Proof.
  intros [] Hx. rewrite Forall_forall in bs_blk0. destruct (bs_blk0 x Hx) as (?&?&?&?&?).
  split; [done|]. split; [lia|]. by split.
Qed.

(** The state after [break_free] of the block at [o]. *)
Definition freed (a : dthread_shmref_t) (id : Z) (b : break_malloc_md) (o : Z) (s : sst) : sst :=
  let n := bk_nalloc b - 1 in
  s <| mem := store_le 4 (mem s) (dt_shmid a) (o - 16) 0xdeaddead |>
    <| amds ::= <[(dt_shmid a, dt_offset a) := ArenaMd (break_amd a id)
        (DrvBreak (BreakMd (if n =? 0 then sizeof_break_md else bk_allocated b) 16 n))]> |>.

Lemma break_st_free a L s m id b x L' :
  break_st a L s m id b → L ≡ₚ x :: L' →
  let n := bk_nalloc b - 1 in
  break_st a L' (freed a id b x.1 s) m id (BreakMd (if n =? 0 then sizeof_break_md else bk_allocated b) 16 n).
Proof.
  intros [] HL. unfold freed. set (n := bk_nalloc b - 1).
  rewrite HL in bs_blk0, bs_nalloc0. simpl in bs_nalloc0.
  apply (pairs_perm ext_disjoint _ _ HL) in bs_dis0.
  apply pairs_cons in bs_dis0 as [Hx Hdis]. apply Forall_cons in bs_blk0 as [Hbx Hb].
  unfold sizeof_break_md in *.
  split; simpl; unfold sizeof_break_md; try done; try lia.
  - unfold arena_at. simpl. by rewrite lookup_insert_eq.
  - destruct (n =? 0); lia.
  - by destruct (n =? 0).
  - destruct (Z.eqb_spec n 0); lia.
  - destruct (Z.eqb_spec n 0) as [Hn|].
    { assert (L' = []) as ->; [|constructor]. apply length_zero_iff_nil. lia. }
    rewrite Forall_forall in Hx, Hb |- *. intros y Hy.
    destruct (Hb y Hy) as (?&?&?&?&Hh). do 4 (split; [done|]).
    eapply hdr_ok_ext; [|exact Hh]. intros o Ho. symmetry. apply store_le_out.
    specialize (Hx y Hy). unfold ext_disjoint, blk_disjoint, extent in Hx. simpl in Hx.
    pose proof (align_pad_bounds x.2). pose proof (align_pad_bounds y.2). lia.
Qed.

Lemma break_inv_free a L s m id b x L' :
  break_st a L s m id b → L ≡ₚ x :: L' → break_inv a L' (freed a id b x.1 s).
Proof. intros. eexists _, _, _. by eapply break_st_free. Qed.

Lemma break_free_exec a L x L' r s m id b :
  break_st a L s m id b → L ≡ₚ x :: L' → ref_of a x.1 r →
  wp (break_free a r) (λ _ s', s' = freed a id b x.1 s) s.
Proof.
  intros Hst HL Href. pose proof Hst as []. pose proof bs_geom0 as [].
  assert (x ∈ L) as Hx by (rewrite HL; left).
  destruct (break_block _ _ _ _ _ _ _ Hst Hx) as (?&?&?&_&Hh0&_&_&Hh3).
  pose proof (geom_map_ok _ _ _ bs_geom0) as (?&?&?).
  pose proof (align_pad_bounds x.2). unfold sizeof_break_md, break_max_len, alignsz in *.
  unfold break_free.
  apply wp_bind, (wp_get_break a m id b); [done|unfold sizeof_break_md; lia|done|].
  simpl. unfold sizeof_break_md. rewrite bs_hdrlen0, u64_small by lia.
  pose proof Href as (_&->&_). destruct (Z.ltb_spec x.1 (dt_offset a + 80 + 16)); [lia|].
  apply wp_bind, wp_gets. rewrite (ref_ptr _ _ _ _ _ bs_geom0 Href).
  rewrite <-Z.add_sub_assoc, <-Z.add_assoc.
  replace (x.1 - 16 + 12) with (x.1 - 4) by lia.
  apply wp_bind, (wp_load _ (dt_shmid a)); [done|done|lia|lia|].
  apply wp_bind, (wp_load _ (dt_shmid a)); [done|done|lia|lia|].
  rewrite Hh0, Hh3, !Z.eqb_refl. simpl.
  apply wp_bind, (wp_store _ (dt_shmid a)); [done|done|lia|lia|].
  assert (0 < bk_nalloc b). { rewrite HL in bs_nalloc0. simpl in bs_nalloc0. lia. }
  destruct (Z.ltb_spec 0 (bk_nalloc b)); [|lia].
  replace (dt_offset a + 80 - dt_offset a) with 80 by lia.
  by apply wp_modify.
Qed.

Lemma break_free_wp a L x L' r s :
  break_inv a L s → L ≡ₚ x :: L' → ref_of a x.1 r →
  wp (break_free a r) (λ _ s', outside a s s' ∧ keeps a L' s s' ∧ break_inv a L' s') s.
Proof.
  intros (m&id&b&Hst) HL Href. eapply wp_mono; [by eapply break_free_exec|].
  intros [] s' ->. pose proof Hst as []. pose proof bs_geom0 as [].
  assert (x ∈ L) as Hx by (rewrite HL; left).
  destruct (break_block _ _ _ _ _ _ _ Hst Hx) as (?&?&?&_).
  pose proof (align_pad_bounds x.2). unfold sizeof_break_md in *.
  split; [|split; [|by eapply break_inv_free]].
  - eapply outside_trans; [eapply outside_mem|by eapply outside_put].
    intros k o Ho. apply store_le_out. lia.
  - intros y o Hy Ho. simpl. apply store_le_out.
    apply (pairs_perm ext_disjoint _ _ HL) in bs_dis0.
    apply pairs_cons in bs_dis0 as [Hd _]. rewrite Forall_forall in Hd.
    specialize (Hd y Hy). unfold in_blk, ext_disjoint, blk_disjoint, extent in *. simpl in Hd.
    pose proof (align_pad_bounds y.2). lia.
Qed.

Lemma break_sound a L s :
  break_inv a L s → ∃ m am, arena_geom a m (shmmap s) ∧ arena_ready a am s ∧
    ForallOrdPairs blk_disjoint L ∧ Forall (blk_ok m am) L.
Proof.
  intros (m&id&b&Hst). pose proof Hst as []. exists m; eexists. split; [done|].
  unfold sizeof_break_md in *. split; [|split].
  - split; try done. simpl. unfold sizeof_alloc_md, sizeof_break_md. lia.
  - eapply pairs_impl; [|exact bs_dis0]. intros x y _ _.
    unfold ext_disjoint, blk_disjoint, extent. simpl.
    pose proof (align_pad_bounds x.2). pose proof (align_pad_bounds y.2). lia.
  - eapply Forall_impl; [exact bs_blk0|]. intros x (?&?&?&?&_).
    pose proof (align_pad_bounds x.2). unfold blk_ok. simpl. repeat split; [lia..|done].
Qed.

Lemma break_realloc_wp a m L x L' r size ref s :
  break_inv a L s → arena_geom a m (shmmap s) →
  L ≡ₚ x :: L' → ref_of a x.1 r → 0 ≤ size ≤ break_max_size →
  wp (break_realloc a r size ref) (λ res s', outside a s s' ∧
    ((res = (0, ref) ∧ break_inv a L s' ∧ keeps a L s s' ∧
        break_malloc a size ref s = Ok ((0, ref), s')) ∨
     ∃ b', alloc_result break_inv a m L' size ref res b' s' ∧ keeps a L' s s' ∧
       ∀ i, 0 ≤ i < x.2 `min` size →
         mem s' (dt_shmid a) (b'.1 + i) = mem s (dt_shmid a) (x.1 + i))) s.
Proof.
  intros Hinv Hg HL Href Hsz. pose proof Hinv as (m'&id&b&Hst). pose proof Hst as [].
  pose proof (geom_unique _ _ _ _ Hg bs_geom0) as <-. pose proof Hg as [].
  assert (x ∈ L) as Hx by (rewrite HL; left).
  destruct (break_block _ _ _ _ _ _ _ Hst Hx) as (?&?&?&_&Hh0&Hh1&Hh2&Hh3).
  pose proof (geom_map_ok _ _ _ Hg) as (?&?&?). pose proof (align_pad_bounds x.2).
  unfold sizeof_break_md, break_max_len, alignsz in *. unfold break_realloc.
  apply wp_bind, (wp_get_break a m id b); [done|unfold sizeof_break_md; lia|done|].
  simpl. unfold sizeof_break_md. rewrite bs_hdrlen0, u64_small by lia.
  pose proof Href as (_&->&_). destruct (Z.ltb_spec x.1 (dt_offset a + 80 + 16)); [lia|].
  apply wp_bind, wp_gets. rewrite (ref_ptr _ _ _ _ _ Hg Href).
  rewrite <-!Z.add_sub_assoc, <-!Z.add_assoc.
  replace (x.1 - 16 + 12) with (x.1 - 4) by lia.
  replace (x.1 - 16 + 4) with (x.1 - 12) by lia.
  replace (x.1 - 16 + 8) with (x.1 - 8) by lia.
  do 2 (apply wp_bind, (wp_load _ (dt_shmid a)); [done|done|lia|lia|]).
  rewrite Hh0, Hh3, !Z.eqb_refl. simpl.
  do 2 (apply wp_bind, (wp_load _ (dt_shmid a)); [done|done|lia|lia|]).
  rewrite Hh1, Hh2, hdr_size_words by done.
  destruct (Z.leb_spec size x.2) as [Hle|Hgt].
  - rewrite ag_map. apply wp_bind, (wp_get_some _ _ m); [done|]. apply wp_ret.
    split; [apply outside_refl|]. right. exists x.
    split; [|by split; [apply keeps_refl|]]. split; [done|]. rewrite <-HL.
    split; [|done]. by replace (mapping m + x.1 - mapping m) with x.1 by lia.
  - replace (x.2 `min` size) with x.2 by lia.
    apply (move_wp break_inv break_sound break_inv_mem); [done..|lia|lia| |].
    + by apply break_malloc_wp.
    + intros K K' t Ht HK. by apply (break_free_wp a K x K').
Qed.

#[export] Instance break_driver : Driver break_ops break_max_len break_max_size break_inv.
Proof.
  split.
  - apply break_sound.
  - apply break_inv_perm.
  - intros a L s x o v Hinv Hx Ho. apply break_inv_mem; [done|]. intros p Hp.
    unfold byte_upd. rewrite Z.eqb_refl. destruct (Z.eqb_spec p o) as [->|]; [|done].
    by destruct (Hp x Hx).
  - apply break_init_wp.
  - apply break_malloc_wp.
  - apply break_free_wp.
  - intros. eapply wp_mono; [by eapply break_realloc_wp|].
    intros res s' (?&[(?&?&?&_)|?]); auto.
Qed.

(** ** Claims *)

(** A state with one "break" arena of 4096 bytes at offset 4096. *)
Definition demo_arena : dthread_shmref_t := Shmref 0 0x1000 0x1000.

Definition demo_break : sst :=
  Sst [Shmmap 0x10000 0 0x4000] None (Shmref 0 0 0) ∅
    {[ (0, 0x1000) := ArenaMd (break_amd demo_arena 0) (DrvBreak (BreakMd 80 16 0)) ]}
    (λ _ _, 0).

Lemma demo_geom : arena_geom demo_arena (Shmmap 0x10000 0 0x4000) [Shmmap 0x10000 0 0x4000].
Proof.
  split; try done. split.
  - intros [|i] m Hm; simplify_eq/=. done.
  - intros [|i] [|j] ?? Hij ??; simplify_eq/=.
Qed.

Lemma demo_break_st : break_st demo_arena [] demo_break (Shmmap 0x10000 0 0x4000) 0
  (BreakMd 80 16 0).
Proof. split; try done; try constructor; try done. apply demo_geom. Qed.

(** A second free of the same block is rejected: after [break_free] of a
    block that is in use, freeing the same reference again changes nothing, so
    no other block's allocation is undone by it. *)
Theorem break_double_free a L x L' r s :
  break_inv a L s → L ≡ₚ x :: L' → ref_of a x.1 r →
  wp (break_free a r) (λ _ s', break_inv a L' s' ∧ break_free a r s' = Ok (tt, s')) s.
Proof.
  intros (m&id&b&Hst) HL Href. eapply wp_mono; [by eapply break_free_exec|].
  intros [] s' ->. pose proof (break_inv_free _ _ _ _ _ _ _ _ Hst HL) as Hinv.
  split; [done|]. destruct Hinv as (m'&id'&b'&Hst').
  assert (load_le 4 (mem (freed a id b x.1 s)) (dt_shmid a) (x.1 - 16) = 0xdeaddead) as Hdead
    by (apply (load_store_same 4)).
  assert (x ∈ L) as Hx by (rewrite HL; left).
  destruct (break_block _ _ _ _ _ _ _ Hst Hx) as (?&?&?&_). destruct Hst as [Hg _ _ _ ? _ _ _ _ _].
  set (s' := freed a id b x.1 s) in *. destruct Hst' as [Hg' Hat' Hlen' Hh' Hal' _ _ _ _ _].
  pose proof (geom_map_ok _ _ _ Hg') as (?&?&?). pose proof Hg' as [].
  pose proof (align_pad_bounds x.2). unfold sizeof_break_md, break_max_len, alignsz in *.
  destruct (proj1 (wp_ok (break_free a r) (λ _ t, t = s') s')) as ([]&t&He&->); [|done].
  unfold break_free.
  apply wp_bind, (wp_get_break a m' id' b'); [done|unfold sizeof_break_md; lia|done|].
  simpl. unfold sizeof_break_md. rewrite Hh', u64_small by lia.
  pose proof Href as (_&->&_). destruct (Z.ltb_spec x.1 (dt_offset a + 80 + 16)); [lia|].
  apply wp_bind, wp_gets. rewrite (ref_ptr _ _ _ _ _ Hg' Href).
  rewrite <-Z.add_sub_assoc, <-Z.add_assoc.
  do 2 (apply wp_bind, (wp_load _ (dt_shmid a)); [done|done|lia|lia|]).
  rewrite Hdead. by apply wp_ret.
Qed.

(** [size + pad + hdrlen] wraps around for a request within 32 bytes of
    [2^64]: [break_malloc] does not fail but returns a pointer, with a reference
    that is longer than the arena, and advances the break line by at most the
    header. *)
Theorem break_malloc_overflow a L s m id b size ref :
  break_st a L s m id b → bk_allocated b + 16 ≤ dt_length a →
  break_max_size < size < 2 ^ 64 →
  wp (break_malloc a size (Some ref)) (λ res s', ∃ r b',
    res.1 ≠ 0 ∧ res.2 = Some r ∧ dt_length r = size ∧ dt_length a < dt_length r ∧
    am_drv <$> arena_at a s' = Some (DrvBreak b') ∧
    bk_allocated b' ≤ bk_allocated b + 16 ∧ bk_nalloc b' = bk_nalloc b + 1) s.
Proof.
  intros [] Hroom Hs. pose proof (geom_map_ok _ _ _ bs_geom0) as (?&?&?).
  pose proof bs_geom0 as []. unfold sizeof_break_md, break_max_len, break_max_size in *.
  unfold break_malloc. apply wp_bind, (wp_get_break a m id b);
    [done|unfold sizeof_break_md; lia|done|].
  simpl. rewrite bs_hdrlen0, (u64_small (dt_length a - _)) by lia.
  assert (0 ≤ u64 (size + align_pad size + 16) ≤ 16).
  { pose proof (align_pad_bounds size). pose proof (align_pad_multiple size) as Hm.
    unfold alignsz in *. apply Z.mod_divide in Hm as [q Hq]; [|done].
    assert (size + align_pad size = 2 ^ 64 - 16 ∨ size + align_pad size = 2 ^ 64)
      as [->| ->] by lia; done. }
  destruct (Z.leb_spec (u64 (size + align_pad size + 16)) (dt_length a - bk_allocated b)); [|lia].
  apply wp_bind, wp_gets. rewrite ag_map. apply wp_bind, (wp_get_some _ _ m); [done|].
  set (o := dt_offset a + bk_allocated b).
  replace (mapping m + dt_offset a + bk_allocated b) with (mapping m + o) by lia.
  assert (o + 16 ≤ map_size m) by lia. rewrite <-!(Z.add_assoc (mapping m) o).
  do 4 (apply wp_bind; apply (wp_store _ (dt_shmid a)); [done|done|lia|lia|]; simpl).
  assert (int_ok (bk_nalloc b + 1) = true) as ->.
  { unfold int_ok. apply andb_true_iff. split; [apply Z.leb_le|apply Z.ltb_lt]; lia. }
  simpl. apply wp_bind, wp_modify, wp_ret. do 2 eexists.
  unfold arena_at. simpl. rewrite lookup_insert_eq, (u64_small (bk_allocated b + _)) by lia.
  repeat split; simpl; lia.
Qed.

Lemma break_double_free_witness :
  ∃ s, break_inv demo_arena [(4192, 8)] s ∧
    wp (break_free demo_arena (Shmref 0 4192 8)) (λ _ s',
      break_inv demo_arena [] s' ∧
      break_free demo_arena (Shmref 0 4192 8) s' = Ok (tt, s')) s.
Proof.
  pose proof (break_inv_alloc _ _ _ _ _ _ 8 demo_break_st) as Hs.
  eexists. split; [apply Hs; vm_compute; intuition discriminate|].
  apply (break_double_free _ [(4192, 8)] (4192, 8) []); [|done|vm_compute; intuition discriminate].
  apply Hs; vm_compute; intuition discriminate.
Defined.

Lemma break_malloc_overflow_witness :
  wp (break_malloc demo_arena (2 ^ 64 - 24) (Some demo_arena)) (λ res s', ∃ r b',
    res.1 ≠ 0 ∧ res.2 = Some r ∧ dt_length r = 2 ^ 64 - 24 ∧
    dt_length demo_arena < dt_length r ∧
    am_drv <$> arena_at demo_arena s' = Some (DrvBreak b') ∧
    bk_allocated b' ≤ 80 + 16 ∧ bk_nalloc b' = 0 + 1) demo_break.
Proof. by apply (break_malloc_overflow _ _ _ _ _ _ _ _ demo_break_st). Defined.
