(* ===== verification/BsdMalloc.v ===== *)
(** * The "bsd" allocator

    The second driver of [libdthread/dt_shmops.c], the Caltech malloc: blocks
    of power-of-two buckets, one free list per bucket threaded through the
    free blocks, and a break line in the arena that supplies new pages.
    [BUCKSIZE] shifts a signed [int]; from bucket 27 on the shift is undefined
    and the model stops with [SignedOverflow]. *)

From S2P Require Import Prelude Types ShmRef SegOps ShmAlloc.

Definition NBUCKETS : Z := 60.
Definition MAGIC : Z := 0x5555.
Definition sizeof_overhead : Z := 8.

(** [1 << (X + 4)] *)
Definition BUCKSIZE (x : Z) : option Z :=
  if (0 <=? x + 4) && (x + 4 <? 31) then Some (2 ^ (x + 4)) else None.

Definition bucksize (x : Z) : M sst Z := get_some SignedOverflow (BUCKSIZE x).

Definition OV_MAGIC (x : Z) : Z := Z.land x 0xffff.
Definition OV_INDEX (x : Z) : Z := Z.land (Z.shiftr x 16) 0xff.
Definition OV_MAGIDX (i : Z) : Z := Z.lor (Z.shiftl (Z.land i 0xff) 16) MAGIC.

(** ** Metadata access *)
Definition bsd_md (arena : dthread_shmref_t) (s : sst)
    : option (dthread_shm_alloc_md_t * bsd_malloc_md) :=
  match arena_at arena s with
  | Some (ArenaMd amd (DrvBsd b)) => Some (amd, b)
  | _ => None
  end.

Definition get_bsd (arena : dthread_shmref_t)
    : M sst (dthread_shm_alloc_md_t * bsd_malloc_md) :=
  sm <- gets shmmap ;;
  if dthread_shmref2ptr sm (Some arena) sizeof_bsd_md =? 0 then crash NullDeref
  else o <- gets (bsd_md arena) ;; get_some BadPointer o.

Definition put_bsd (arena : dthread_shmref_t) (amd : dthread_shm_alloc_md_t)
    (b : bsd_malloc_md) : M sst unit :=
  put_arena arena (ArenaMd amd (DrvBsd b)).

(** ** Statistics *)

(** One bucket's walk over its free list: [Some bfree], or [None] when a link
    is not a reference into the segment. *)
Fixpoint mstats_walk (fuel : nat) (shmid ov sz fp bfree : Z) : M sst (option Z) :=
  if fp =? 0 then retM (Some bfree)
  else
    match fuel with
    | O => crash Diverges
    | S fuel =>
        sm <- gets shmmap ;;
        let op := dthread_shmref2ptr sm (Some (Shmref shmid fp ov)) ov in
        if op =? 0 then retM None
        else
          fp <- load 8 op ;;
          mstats_walk fuel shmid ov sz fp (u64 (bfree + sz))
    end.

(** The loop over the buckets, with the totals it logs. *)
Fixpoint mstats_loop (fuel : nat) (md : dthread_shm_alloc_md_t * bsd_malloc_md)
    (n : nat) (i totused totfree : Z) : M sst (Z * Z) :=
  match n with
  | O => retM (totused, totfree)
  | S n =>
      sz <- bucksize i ;;
      head <- get_some OutOfBounds (aget (nextf md.2) i) ;;
      nm <- get_some OutOfBounds (aget (nmalloc md.2) i) ;;
      o <- mstats_walk fuel (dt_shmid (amd_self md.1)) (oversize md.2) sz head 0 ;;
      match o with
      | None => retM (totused, totfree)          (* return out of the loop *)
      | Some bfree =>
          let totfree := u64 (totfree + bfree) in
          let bused := u64 (nm * sz) in
          if (bfree =? 0) && (bused =? 0)
          then mstats_loop fuel md n (i + 1) totused totfree
          else mstats_loop fuel md n (i + 1) (u64 (totused + bused)) totfree
      end
  end.

Definition bsd_mstats (fuel : nat) (md : dthread_shm_alloc_md_t * bsd_malloc_md)
    : M sst (Z * Z) :=
  mstats_loop fuel md (Z.to_nat NBUCKETS) 0 0 0.

(** ** More core *)

(** Links [n] further blocks behind the one at offset [curoff] (pointer
    [op]) and ends the list. *)
Fixpoint link_blocks (n : nat) (sz curoff op : Z) : M sst unit :=
  match n with
  | O => store 8 op 0
  | S n =>
      let curoff := u64 (curoff + sz) in
      store 8 op curoff ;;;
      link_blocks n sz curoff (op + sz)
  end.

Definition bsd_morecore (arena : dthread_shmref_t) (bucket : Z) : M sst unit :=
  md <- get_bsd arena ;;
  let '(amd, b) := md in
  if (bucket <? minbucket b) || (NBUCKETS <=? bucket) then retM tt
  else
    sz <- bucksize bucket ;;
    let '(amt, nblks) :=
      if sz <? pagesz b then (pagesz b, pagesz b / sz)
      else (sz + pagesz b, 1) in
    if core_resid b <? amt then retM tt
    else
      sm <- gets shmmap ;;
      let op := dthread_shmref2ptr sm
        (Some (Shmref (dt_shmid (amd_self amd)) (mycore b) amt)) amt in
      if op =? 0 then retM tt
      else
        put_bsd arena amd (b <| mycore := u64 (mycore b + amt) |>
                             <| core_resid := u64 (core_resid b - amt) |>
                             <| nextf ::= λ l, aset l bucket (mycore b) |>) ;;;
        link_blocks (Z.to_nat (u64 (nblks - 1))) sz (mycore b) op.

(** ** Driver operations *)

(** [while (X < target) X += step], with a bound on the iterations. *)
Fixpoint grow_to (fuel : nat) (x step target : Z) : option Z :=
  if x <? target then
    match fuel with O => None | S fuel => grow_to fuel (x + step) step target end
  else Some x.

(** [while (BUCKSIZE(b) < target) b++] *)
Fixpoint bucket_from (fuel : nat) (b target : Z) : M sst Z :=
  sz <- bucksize b ;;
  if sz <? target then
    match fuel with
    | O => crash Diverges
    | S fuel => bucket_from fuel (b + 1) target
    end
  else retM b.

Definition bsd_init (getpagesize : Z) (arena : dthread_shmref_t) : M sst Z :=
  mdsize <- mdalign_size arena sizeof_bsd_md ;;
  sm <- gets shmmap ;;
  if dthread_shmref2ptr sm (Some arena) mdsize =? 0 then retM ENOMEM
  else
    oam <- gets (arena_at arena) ;;
    am <- get_some BadPointer oam ;;
    let amd := am_amd am in
    let amd := amd <| min_uoffset := u64 (dt_offset (amd_self amd) + mdsize) |>
                   <| badalign_bits := alignsz - 1 |> in
    ov <- get_some Diverges (grow_to 8 0 alignsz sizeof_overhead) ;;
    minb <- bucket_from 27 0 (1 + ov) ;;
    pageb <- bucket_from 27 0 getpagesize ;;
    put_bsd arena amd (BsdMd ov minb getpagesize pageb
      (replicate (Z.to_nat NBUCKETS) 0) (replicate (Z.to_nat NBUCKETS) 0)
      (u64 (dt_offset arena + mdsize)) (u64 (dt_length arena - mdsize))) ;;;
    retM 0.

Definition bsd_finalize (fuel : nat) (arena : dthread_shmref_t) : M sst Z :=
  md <- get_bsd arena ;;
  bsd_mstats fuel md ;;;
  retM 0.

(** The search for the bucket: [None] out of fuel, [Some None] the early
    return of [NULL], [Some (Some b)] bucket [b]. *)
Fixpoint bucket_loop (fuel : nat) (size amt n bucket : Z) : option (option Z) :=
  if u64 (amt + n) <? size then
    match fuel with
    | O => None
    | S fuel =>
        let amt := u64 (Z.shiftl amt 1) in
        if amt =? 0 then Some None else bucket_loop fuel size amt n (bucket + 1)
    end
  else Some (Some bucket).

(** The part of [bsd_malloc] before the lock. *)
Definition pick_bucket (b : bsd_malloc_md) (size : Z) : M sst (option Z) :=
  if size <=? u64 (pagesz b / 2 - oversize b) then
    amt <- bucksize (minbucket b) ;;
    get_some Diverges (bucket_loop 64 size amt (u64 (- oversize b)) (minbucket b))
  else
    get_some Diverges
      (bucket_loop 64 size (pagesz b) (u64 (pagesz b - oversize b)) (pagebucket b)).

Definition get_nextf (arena : dthread_shmref_t) (bucket : Z) : M sst Z :=
  md <- get_bsd arena ;;
  get_some OutOfBounds (aget (nextf md.2) bucket).

Definition bsd_malloc (arena : dthread_shmref_t) (size : Z)
    (newref : option dthread_shmref_t) : M sst (Z * option dthread_shmref_t) :=
  md <- get_bsd arena ;;
  ob <- pick_bucket md.2 size ;;
  match ob with
  | None => retM (0, newref)
  | Some bucket =>
      ovoff <- get_nextf arena bucket ;;
      whenM (ovoff =? 0) (bsd_morecore arena bucket) ;;;
      ovoff <- get_nextf arena bucket ;;
      if ovoff =? 0 then retM (0, newref)
      else
        md <- get_bsd arena ;;
        let '(amd, b) := md in
        sm <- gets shmmap ;;
        let ovp := dthread_shmref2ptr sm
          (Some (Shmref (dt_shmid (amd_self amd)) ovoff (oversize b))) (oversize b) in
        if ovp =? 0 then retM (0, newref)
        else
          next <- load 8 ovp ;;
          store 8 ovp (OV_MAGIDX bucket) ;;;
          nm <- get_some OutOfBounds (aget (nmalloc b) bucket) ;;
          put_bsd arena amd (b <| nextf ::= λ l, aset l bucket next |>
                               <| nmalloc ::= λ l, aset l bucket (u64 (nm + 1)) |>) ;;;
          retM (ovp + oversize b,
                _ ← newref; Some (Shmref (dt_shmid (amd_self amd))
                                    (u64 (ovoff + oversize b)) size))
  end.

Definition bsd_free (arena ref : dthread_shmref_t) : M sst unit :=
  md <- get_bsd arena ;;
  let '(amd, b) := md in
  if dt_offset ref <? u64 (min_uoffset amd + oversize b) then retM tt
  else
    sm <- gets shmmap ;;
    let ovp := dthread_shmref2ptr sm (Some ref) 0 - oversize b in
    w <- load 8 ovp ;;
    if negb (OV_MAGIC w =? MAGIC) then retM tt
    else
      let curoff := u64 (dt_offset ref - oversize b) in
      let bucket := OV_INDEX w in
      if (bucket <? 0) || (NBUCKETS <=? bucket) then retM tt
      else
        head <- get_some OutOfBounds (aget (nextf b) bucket) ;;
        nm <- get_some OutOfBounds (aget (nmalloc b) bucket) ;;
        store 8 ovp head ;;;
        put_bsd arena amd (b <| nextf ::= λ l, aset l bucket curoff |>
                             <| nmalloc ::= λ l, aset l bucket (u64 (nm - 1)) |>).

(** A bucket's size adjusted for the overhead. *)
Definition adjusted (b : bsd_malloc_md) (sz : Z) : Z :=
  if sz <? pagesz b then u64 (sz - oversize b)
  else u64 (sz + (pagesz b - oversize b)).

(** The log call at the end of [bsd_realloc]: [newref->dt_offset] is one of its
    arguments, so with [SHM_DBG] messages enabled it reads [*newref]. *)
Definition log_new_offset (dbg : bool) (newref : option dthread_shmref_t) : M sst unit :=
  if dbg then _ <- get_some NullDeref newref ;; retM tt else retM tt.

Definition bsd_realloc (dbg : bool) (arena inref : dthread_shmref_t) (new_size : Z)
    (newref : option dthread_shmref_t) : M sst (Z * option dthread_shmref_t) :=
  md <- get_bsd arena ;;
  let '(amd, b) := md in
  if dt_offset inref <? u64 (min_uoffset amd + oversize b) then retM (0, newref)
  else
    sm <- gets shmmap ;;
    let ptr := dthread_shmref2ptr sm (Some inref) 0 in
    let ovp := ptr - oversize b in
    w <- load 8 ovp ;;
    if negb (OV_MAGIC w =? MAGIC) then retM (0, newref)
    else
      let bucket := OV_INDEX w in
      if (bucket <? minbucket b) || (NBUCKETS <=? bucket) then retM (0, newref)
      else
        sz <- bucksize bucket ;;
        let bucksz := adjusted b sz in
        prevsz <- (if bucket <=? minbucket b then retM 0
                   else psz <- bucksize (bucket - 1) ;; retM (adjusted b psz)) ;;
        if (new_size <=? bucksz) && ((prevsz =? 0) || (prevsz <? new_size)) then
          retM (ptr, _ ← newref;
                  Some (Shmref (dt_shmid inref) (dt_offset inref) new_size))
        else
          r <- bsd_malloc arena new_size newref ;;
          if r.1 =? 0 then retM (0, r.2)
          else
            memcpy r.1 ptr (if new_size <? bucksz then new_size else bucksz) ;;;
            (bsd_free arena inref ;;; log_new_offset dbg newref) ;;;
            retM r.

(** [dbg]: [SHM_DBG] messages are enabled. *)
Definition bsd_ops (dbg : bool) (getpagesize : Z) (fuel : nat) : dthread_shm_alloc_ops_t :=
  Mops "bsd" (bsd_init getpagesize) (bsd_finalize fuel) bsd_malloc bsd_free (bsd_realloc dbg).

(** ** Buckets *)

Definition bsize (bk : Z) : Z := 2 ^ (bk + 4).

(** Usable bytes of a block of bucket [bk], and all its bytes. *)
Definition cap (pg bk : Z) : Z :=
  if bsize bk <? pg then bsize bk - 16 else bsize bk + pg - 16.
Definition span (pg bk : Z) : Z := 16 + cap pg bk.

Definition bsd_max_size : Z := 2 ^ 30.

Lemma bsize_succ bk : 0 ≤ bk → bsize (bk + 1) = 2 * bsize bk.
Proof.
  intros. unfold bsize. replace (bk + 1 + 4) with (Z.succ (bk + 4)) by lia.
  by rewrite Z.pow_succ_r by lia.
Qed.

Lemma bsize_mono b1 b2 : 0 ≤ b1 ≤ b2 → bsize b1 ≤ bsize b2.
Proof. intros. unfold bsize. apply Z.pow_le_mono_r; lia. Qed.

Lemma bsize_16 bk : 0 ≤ bk → bsize bk mod alignsz = 0 ∧ 16 ≤ bsize bk.
Proof.
  intros Hb. unfold bsize, alignsz. rewrite Z.pow_add_r by lia. change (2 ^ 4) with 16.
  split; [apply Z.mod_mul; lia|]. pose proof (Z.pow_pos_nonneg 2 bk). lia.
Qed.

Lemma BUCKSIZE_some bk : 0 ≤ bk < 27 → BUCKSIZE bk = Some (bsize bk).
Proof.
  intros. unfold BUCKSIZE, bsize.
  destruct (Z.leb_spec 0 (bk + 4)), (Z.ltb_spec (bk + 4) 31); simpl; done || lia.
Qed.

Lemma BUCKSIZE_none bk : 27 ≤ bk → BUCKSIZE bk = None.
Proof.
  intros. unfold BUCKSIZE. destruct (Z.ltb_spec (bk + 4) 31); [lia|].
  by rewrite andb_false_r.
Qed.

Lemma cap_bounds pg bk : 16 ≤ pg → 1 ≤ bk → 16 ≤ cap pg bk ∧ bsize bk ≤ span pg bk.
Proof.
  intros Hp Hb. unfold span, cap. pose proof (bsize_mono 1 bk). change (bsize 1) with 32 in *.
  destruct (Z.ltb_spec (bsize bk) pg); lia.
Qed.

(** The search returns the smallest bucket from [b] on that is large enough. *)
Lemma bucket_loop_spec fuel size b n :
  0 ≤ b ≤ 59 → 60 - b ≤ Z.of_nat fuel → -16 ≤ n < 2 ^ 62 → size ≤ 2 ^ 63 + n →
  ∃ k, bucket_loop fuel size (bsize b) (u64 n) b = Some (Some k) ∧ b ≤ k ≤ 59 ∧
    size ≤ bsize k + n ∧ (k = b ∨ bsize (k - 1) + n < size).
Proof.
  revert b. induction fuel as [|fuel IH]; intros b Hb Hf Hn Hs; [lia|].
  pose proof (bsize_16 b). pose proof (bsize_mono b 59) as Hm. change (bsize 59) with (2 ^ 63) in Hm.
  assert (u64 (bsize b + u64 n) = bsize b + n) as Ha.
  { unfold u64. rewrite Zplus_mod_idemp_r. apply Z.mod_small. lia. }
  cbn [bucket_loop]. rewrite Ha.
  destruct (Z.ltb_spec (bsize b + n) size) as [Hlt|]; [|exists b; auto with lia].
  assert (b < 59). { destruct (Z.eq_dec b 59) as [->|]; [|lia]. change (bsize 59) with (2^63) in Hlt. lia. }
  rewrite Z.shiftl_mul_pow2 by lia. change (2 ^ 1) with 2.
  replace (bsize b * 2) with (bsize (b + 1)) by (rewrite bsize_succ; lia).
  pose proof (bsize_16 (b + 1)). pose proof (bsize_mono (b + 1) 59) as Hm'.
  change (bsize 59) with (2 ^ 63) in Hm'.
  rewrite u64_small by lia. destruct (Z.eqb_spec (bsize (b + 1)) 0); [lia|].
  destruct (IH (b + 1)) as (k&Hk&?&?&Hor); [lia..|]. exists k. split; [done|].
  split; [lia|]. split; [done|]. right. destruct Hor as [->|]; [|done].
  by replace (b + 1 - 1) with b by lia.
Qed.

(** What the allocator knows about its page size. *)
Record bsd_pages (b : bsd_malloc_md) (pg : Z) : Prop := BsdPages {
  bp_over : oversize b = 16;
  bp_min : minbucket b = 1;
  bp_page : pagesz b = pg;
  bp_bucket : 8 ≤ pagebucket b ≤ 26;
  bp_size : bsize (pagebucket b) = pg }.

Lemma bsd_pages_bounds b pg : bsd_pages b pg → 4096 ≤ pg ≤ 2 ^ 30 ∧ pg mod alignsz = 0.
Proof.
  intros [_ _ _ Hb <-]. split; [|apply bsize_16; lia].
  pose proof (bsize_mono 8 (pagebucket b)). pose proof (bsize_mono (pagebucket b) 26).
  change (bsize 8) with 4096 in *. change (bsize 26) with (2 ^ 30) in *. lia.
Qed.

(** The bucket for [size]: the smallest one that holds it. *)
Definition bucket_for (pg size bk : Z) : Prop :=
  size ≤ cap pg bk ∧ (bk = 1 ∨ cap pg (bk - 1) < size).

Lemma wp_pick_bucket b pg size (Q : option Z → sst → Prop) s :
  bsd_pages b pg → 0 ≤ size ≤ 2 ^ 62 →
  (∀ bk, 1 ≤ bk ≤ 59 → bucket_for pg size bk → Q (Some bk) s) →
  wp (pick_bucket b size) Q s.
Proof.
  intros Hp Hs HQ. pose proof (bsd_pages_bounds _ _ Hp) as [Hpg _]. destruct Hp as [Hov Hmin Hpage Hpb Hsz].
  unfold pick_bucket. rewrite Hov, Hmin, Hpage.
  assert (bsize (pagebucket b - 1) = pg / 2) as Hhalf.
  { rewrite <-Hsz. replace (pagebucket b) with (pagebucket b - 1 + 1) at 2 by lia.
    rewrite bsize_succ, Z.mul_comm, Z.div_mul by lia. done. }
  assert (pg = 2 * (pg / 2)) as Heven.
  { rewrite <-Hhalf, <-bsize_succ by lia. by rewrite Z.sub_add. }
  rewrite u64_small by lia.
  destruct (Z.leb_spec size (pg / 2 - 16)) as [Hsm|Hlg].
  - unfold bucksize. apply wp_bind. eapply wp_get_some; [by apply BUCKSIZE_some|].
    destruct (bucket_loop_spec 64 size 1 (-16)) as (k&Hk&?&?&Hor); [lia..|].
    change (- (16)) with (-16). eapply wp_get_some; [exact Hk|]. apply HQ; [lia|].
    assert (bsize k < pg) as Hlt.
    { destruct Hor as [->|]; [change (bsize 1) with 32; lia|].
      destruct (Z.eq_dec k 1) as [->|]; [change (bsize 1) with 32; lia|].
      replace k with (k - 1 + 1) by lia. rewrite bsize_succ by lia. lia. }
    unfold bucket_for, cap. rewrite (proj2 (Z.ltb_lt _ _) Hlt). split; [lia|].
    destruct Hor as [->|?]; [by left|]. destruct (Z.eq_dec k 1) as [->|]; [by left|]. right.
    pose proof (bsize_mono (k - 1) k). destruct (Z.ltb_spec (bsize (k - 1)) pg); lia.
  - destruct (bucket_loop_spec 64 size (pagebucket b) (pg - 16)) as (k&Hk&?&?&Hor); [lia..|].
    rewrite <-Hsz at 1. eapply wp_get_some; [exact Hk|]. apply HQ; [lia|].
    pose proof (bsize_mono (pagebucket b) k). unfold bucket_for, cap.
    destruct (Z.ltb_spec (bsize k) pg); [lia|]. split; [lia|]. right.
    destruct Hor as [->|Hor].
    + rewrite Hhalf. destruct (Z.ltb_spec (pg / 2) pg); lia.
    + destruct (Z.ltb_spec (bsize (k - 1)) pg); lia.
Qed.

Lemma bucket_for_small pg size bk :
  4096 ≤ pg ≤ 2 ^ 30 → 1 ≤ bk → bucket_for pg size bk → size ≤ bsd_max_size → bk < 27.
Proof.
  unfold bucket_for, bsd_max_size. intros Hpg Hb [_ Hor] Hs.
  destruct (Z.lt_ge_cases bk 27) as [|Hge]; [done|]. destruct Hor as [->|Hc]; [lia|].
  pose proof (bsize_mono 26 (bk - 1)) as Hm. change (bsize 26) with (2 ^ 30) in Hm.
  unfold cap in Hc. destruct (Z.ltb_spec (bsize (bk - 1)) pg); lia.
Qed.

(** ** Overhead words and free lists *)

Lemma ov_tag bk :
  0 ≤ bk < 60 →
  OV_MAGIDX bk mod 2 ^ 64 = OV_MAGIDX bk ∧ OV_MAGIC (OV_MAGIDX bk) = MAGIC ∧
  OV_INDEX (OV_MAGIDX bk) = bk.
Proof.
  intros Hb. assert (∃ n : nat, bk = Z.of_nat n ∧ (n < 60)%nat) as (n&->&Hn)
    by (exists (Z.to_nat bk); lia).
  do 60 (destruct n as [|n]; [by vm_compute|]). lia.
Qed.

Fixpoint chain (mm : Z → Z → Z) (k head : Z) (l : list Z) : Prop :=
  match l with
  | [] => head = 0
  | o :: l => head = o ∧ o ≠ 0 ∧ chain mm k (load_le 8 mm k o) l
  end.

Lemma chain_ext mm mm' k head l :
  (∀ o p, o ∈ l → o ≤ p < o + 8 → mm k p = mm' k p) → chain mm k head l → chain mm' k head l.
Proof.
  revert head. induction l as [|o l IH]; intros head Hext; [done|]. simpl.
  intros (->&Ho&Hc). split; [done|]. split; [done|]. rewrite <-(load_le_ext 8 mm).
  - apply IH; [|done]. intros o' p Ho'. apply Hext. by right.
  - intros p Hp. apply (Hext o); [left|lia].
Qed.

(** The offsets of [n + 1] blocks of [sz] bytes from [cur] on. *)
Fixpoint blist (n : nat) (cur sz : Z) : list Z :=
  match n with
  | O => [cur]
  | S n => cur :: blist n (cur + sz) sz
  end.

Lemma blist_elem n cur sz o :
  0 ≤ sz → o ∈ blist n cur sz → ∃ i, (0 ≤ i ≤ Z.of_nat n) ∧ o = cur + i * sz.
Proof.
  intros Hsz. revert cur. induction n as [|n IH]; intros cur; simpl.
  - intros ->%list_elem_of_singleton. exists 0. lia.
  - intros [->|Ho]%elem_of_cons; [exists 0; lia|].
    destruct (IH _ Ho) as (i&?&->). exists (i + 1). lia.
Qed.

Lemma blist_bounds n cur sz o :
  0 ≤ sz → o ∈ blist n cur sz → cur ≤ o ∧ o + sz ≤ cur + (Z.of_nat n + 1) * sz.
Proof. intros Hsz (i&Hi&->)%blist_elem; [|done]. nia. Qed.

Lemma blist_pairs n cur sz :
  0 ≤ sz → ForallOrdPairs (λ o1 o2, o1 + sz ≤ o2) (blist n cur sz).
Proof.
  intros Hsz. revert cur. induction n as [|n IH]; intros cur; simpl.
  - constructor; constructor.
  - constructor; [|apply IH]. apply Forall_forall. intros o Ho.
    apply blist_bounds in Ho; lia.
Qed.

Lemma blist_NoDup n cur sz : 0 < sz → NoDup (blist n cur sz).
Proof.
  intros Hsz. pose proof (blist_pairs n cur sz ltac:(lia)) as Hp.
  induction Hp as [|o l Ho Hl IH]; constructor; [|done].
  intros Hin. rewrite Forall_forall in Ho. specialize (Ho o Hin). lia.
Qed.

(** [link_blocks] writes the links of a free list of all the blocks and
    nothing but those links. *)
Lemma wp_link_blocks n sz cur k m s :
  maps_ok (shmmap s) → aget (shmmap s) k = Some m → 16 ≤ sz → 0 < cur →
  cur + (Z.of_nat n + 1) * sz ≤ map_size m → map_size m < 2 ^ 64 →
  wp (link_blocks n sz cur (mapping m + cur)) (λ _ s', ∃ mm,
    s' = s <| mem := mm |> ∧ chain mm k cur (blist n cur sz) ∧
    ∀ k' p, k' ≠ k ∨ p < cur ∨ cur + (Z.of_nat n + 1) * sz ≤ p → mm k' p = mem s k' p) s.
Proof.
  revert cur s. induction n as [|n IH]; intros cur s Hok Hm Hsz Hcur Hend H64; simpl.
  - apply (wp_store _ k); [done|done|lia|lia|]. eexists. split; [done|]. split.
    + split; [done|]. split; [lia|]. rewrite load_store_same. done.
    + intros k' p Hp. apply store_le_out. lia.
  - rewrite u64_small by lia. apply wp_bind, (wp_store _ k); [done|done|lia|lia|].
    rewrite <-Z.add_assoc.
    eapply wp_mono; [apply (IH (cur + sz) (s <| mem := store_le 8 (mem s) k cur (cur + sz) |>)); try done; lia|].
    intros [] s' (mm&->&Hc&Hout). exists mm. split; [done|]. split.
    + split; [done|]. split; [lia|].
      rewrite (load_le_ext 8 mm (store_le 8 (mem s) k cur (cur + sz))).
      * rewrite load_store_same, Z.mod_small by (change (8 * Z.of_nat 8) with 64; lia). done.
      * intros p Hp. rewrite Hout by lia. done.
    + intros k' p Hp. rewrite Hout by lia. apply store_le_out. lia.
Qed.

(** ** Invariant *)

Definition bsd_amd (a : dthread_shmref_t) (id : Z) : dthread_shm_alloc_md_t :=
  Amd DTHREAD_SHM_MD_MAGIC a (dt_offset a + sizeof_bsd_md)
    (dt_offset a + dt_length a) (alignsz - 1) id.

(** Blocks by start offset and bucket. *)
Definition spans_disjoint (pg : Z) (x y : Z * Z) : Prop :=
  x.1 + span pg x.2 ≤ y.1 ∨ y.1 + span pg y.2 ≤ x.1.

Definition bucket_count (B : list (Z * Z)) (bk : Z) : Z := count_if (λ x, x.2 =? bk) B.

(** A block lies in the part of the arena below [mycore]. *)
Definition block_ok (pg : Z) (a : dthread_shmref_t) (m : dthread_shmmap_t) (top : Z)
    (x : Z * Z) : Prop :=
  1 ≤ x.2 < 27 ∧ dt_offset a + sizeof_bsd_md ≤ x.1 ∧ x.1 + span pg x.2 ≤ top ∧
  (mapping m + x.1) mod alignsz = 0.

(** [B] are the blocks in use and [F] the free ones. *)
Record bsd_st (pg : Z) (a : dthread_shmref_t) (B F : list (Z * Z)) (s : sst)
    (m : dthread_shmmap_t) (id : Z) (b : bsd_malloc_md) : Prop := BsdSt {
  sd_geom : arena_geom a m (shmmap s);
  sd_at : arena_at a s = Some (ArenaMd (bsd_amd a id) (DrvBsd b));
  sd_pages : bsd_pages b pg;
  sd_len : length (nextf b) = 60%nat ∧ length (nmalloc b) = 60%nat;
  sd_core : dt_offset a + sizeof_bsd_md ≤ mycore b ∧ 0 ≤ core_resid b ∧
    mycore b + core_resid b = dt_offset a + dt_length a ∧
    (mapping m + mycore b) mod alignsz = 0;
  sd_blocks : Forall (block_ok pg a m (mycore b)) (B ++ F);
  sd_dis : ForallOrdPairs (spans_disjoint pg) (B ++ F);
  sd_chains : ∀ bk, 0 ≤ bk < 60 → ∃ head l, aget (nextf b) bk = Some head ∧
    chain (mem s) (dt_shmid a) head l ∧ NoDup l ∧ ∀ o, o ∈ l ↔ (o, bk) ∈ F;
  sd_tags : ∀ x, x ∈ B → load_le 8 (mem s) (dt_shmid a) x.1 = OV_MAGIDX x.2;
  sd_counts : ∀ bk, 0 ≤ bk < 60 → aget (nmalloc b) bk = Some (u64 (bucket_count B bk)) }.

(** What the user holds of a block. *)
Definition user (pg : Z) (x : Z * Z) : blk := (x.1 + 16, cap pg x.2).

Definition bsd_inv (pg : Z) (a : dthread_shmref_t) (L : list blk) (s : sst) : Prop :=
  ∃ B F m id b, L ≡ₚ user pg <$> B ∧ bsd_st pg a B F s m id b.

#[local] Instance spans_disjoint_sym pg : Symmetric (spans_disjoint pg).
Proof. unfold spans_disjoint. intros ? ?. lia. Qed.

#[export] Instance bsd_inv_perm pg a : Proper ((≡ₚ) ==> (=) ==> iff) (bsd_inv pg a).
Proof. intros L L' HL s ? <-. unfold bsd_inv. by setoid_rewrite HL. Qed.

Lemma bucket_count_perm B B' bk : B ≡ₚ B' → bucket_count B bk = bucket_count B' bk.
Proof.
  unfold bucket_count. induction 1; simpl; try lia.
Qed.

(** Everything but the overhead words may change in memory. *)
Lemma bsd_st_mem pg a B F s m id b mm :
  bsd_st pg a B F s m id b →
  (∀ x p, x ∈ B ++ F → x.1 ≤ p < x.1 + 8 → mm (dt_shmid a) p = mem s (dt_shmid a) p) →
  bsd_st pg a B F (s <| mem := mm |>) m id b.
Proof.
  intros [] Hmm. split; try done; simpl.
  - intros bk Hb. destruct (sd_chains0 bk Hb) as (head&l&?&Hc&?&Hl).
    exists head, l. repeat split; try done; try apply Hl. eapply chain_ext; [|exact Hc].
    intros o p Ho Hp. symmetry. apply (Hmm (o, bk)); [|done].
    apply elem_of_app. right. by apply Hl.
  - intros x Hx. rewrite <-(sd_tags0 x Hx). apply load_le_ext. intros p Hp.
    apply (Hmm x); [apply elem_of_app; by left|lia].
Qed.

Lemma bsd_block pg a B F s m id b x :
  bsd_st pg a B F s m id b → x ∈ B ++ F → block_ok pg a m (mycore b) x ∧ 32 ≤ span pg x.2.
Proof.
  intros [] Hx. rewrite Forall_forall in sd_blocks0. pose proof (sd_blocks0 x Hx) as Hb.
  split; [done|]. destruct Hb as (?&_). pose proof (bsd_pages_bounds _ _ sd_pages0).
  pose proof (cap_bounds pg x.2). unfold span. lia.
Qed.

(** Changes inside users' blocks only. *)
Lemma bsd_inv_mem pg a L s mm :
  bsd_inv pg a L s →
  (∀ o, (∀ x, x ∈ L → ¬ in_blk x o) → mm (dt_shmid a) o = mem s (dt_shmid a) o) →
  bsd_inv pg a L (s <| mem := mm |>).
Proof.
  intros (B&F&m&id&b&HL&Hst) Hmm. exists B, F, m, id, b. split; [done|].
  apply bsd_st_mem; [done|]. intros x p Hx Hp. apply Hmm. intros y Hy Hin.
  rewrite HL in Hy. apply list_elem_of_fmap in Hy as (z&->&Hz).
  assert (z ∈ B ++ F) as Hz' by (apply elem_of_app; by left).
  unfold in_blk, user in Hin. simpl in Hin.
  destruct (decide (x = z)) as [->|Hne]; [lia|].
  destruct (bsd_block _ _ _ _ _ _ _ _ _ Hst Hx) as [_ ?].
  destruct (pairs_elem _ _ _ _ (sd_dis _ _ _ _ _ _ _ _ Hst) Hx Hz' Hne);
    unfold span in *; lia.
Qed.

Lemma wp_get_bsd pg a B F s m id b (Q : _ → sst → Prop) :
  bsd_st pg a B F s m id b → Q (bsd_amd a id, b) s → wp (get_bsd a) Q s.
Proof.
  intros [] HQ. unfold get_bsd. apply wp_bind, wp_gets.
  pose proof (geom_map_ok _ _ _ sd_geom0) as (?&_&_). pose proof sd_geom0 as [].
  destruct sd_core0 as (?&?&?&_). rewrite (arena_ptr a m) by (done || lia).
  destruct (Z.eqb_spec (mapping m + dt_offset a) 0); [lia|].
  apply wp_bind, wp_gets. unfold bsd_md. rewrite sd_at0. simpl. by apply wp_ret.
Qed.

(** ** New blocks *)

Lemma chain_nil mm k l : chain mm k 0 l → l = [].
Proof. destruct l as [|o l]; [done|]. simpl. intros (?&?&_). congruence. Qed.

Definition tag_all (bk : Z) (l : list Z) : list (Z * Z) := (λ o, (o, bk)) <$> l.

Lemma tag_all_elem bk l o bk' : (o, bk') ∈ tag_all bk l ↔ bk' = bk ∧ o ∈ l.
Proof.
  unfold tag_all. rewrite list_elem_of_fmap. split.
  - by intros (?&[= -> ->]&?).
  - intros [-> ?]. by exists o.
Qed.

Lemma tag_all_pairs pg bk l :
  ForallOrdPairs (λ o1 o2, o1 + span pg bk ≤ o2) l →
  ForallOrdPairs (spans_disjoint pg) (tag_all bk l).
Proof.
  induction 1 as [|o l Ho Hl IH]; simpl; constructor; [|done].
  apply Forall_fmap. eapply Forall_impl; [exact Ho|]. intros o' Ho'. by left.
Qed.

Lemma pairs_app {A} (R : relation A) l k :
  ForallOrdPairs R l → ForallOrdPairs R k → Forall (λ x, Forall (R x) k) l →
  ForallOrdPairs R (l ++ k).
Proof.
  intros Hl Hk Hlk. induction Hl as [|x l Hx Hl IH]; [done|].
  apply Forall_cons in Hlk as [Hxk Hlk]. simpl. constructor; [|by apply IH].
  by apply Forall_app.
Qed.

(** The state after [amt] bytes of core became the blocks [l] of bucket [bk]. *)
Lemma bsd_st_more pg a B F s m id b bk l amt mm :
  bsd_st pg a B F s m id b → 1 ≤ bk < 27 → aget (nextf b) bk = Some 0 →
  0 < amt ≤ core_resid b → amt mod alignsz = 0 →
  chain mm (dt_shmid a) (mycore b) l → NoDup l →
  ForallOrdPairs (λ o1 o2, o1 + span pg bk ≤ o2) l →
  Forall (λ o, mycore b ≤ o ∧ o + span pg bk ≤ mycore b + amt ∧
    (mapping m + o) mod alignsz = 0) l →
  (∀ p, p < mycore b → mm (dt_shmid a) p = mem s (dt_shmid a) p) →
  let b' := b <| mycore := mycore b + amt |> <| core_resid := core_resid b - amt |>
              <| nextf ::= λ l, aset l bk (mycore b) |> in
  bsd_st pg a B (tag_all bk l ++ F)
    (s <| amds ::= <[(dt_shmid a, dt_offset a) := ArenaMd (bsd_amd a id) (DrvBsd b')]> |>
       <| mem := mm |>) m id b'.
Proof.
  intros Hst Hbk Hz Hamt Hamod Hc Hnd Hp Hl Hmm b'. pose proof Hst as [].
  destruct sd_core0 as (?&?&?&?).
  assert (∀ x, x ∈ B ++ F → x.1 + span pg x.2 ≤ mycore b ∧ 32 ≤ span pg x.2) as Hold.
  { intros x Hx. destruct (bsd_block _ _ _ _ _ _ _ _ _ Hst Hx) as [(_&_&?&_) ?]. done. }
  assert (B ++ tag_all bk l ++ F ≡ₚ tag_all bk l ++ B ++ F) as Hperm
    by (rewrite !app_assoc; f_equiv; apply Permutation_app_comm).
  split; simpl; try done.
  - unfold arena_at. simpl. by rewrite lookup_insert_eq.
  - destruct sd_pages0. by split.
  - by rewrite length_aset.
  - repeat split; try lia. rewrite Z.add_assoc. by apply mod_add_0.
  - rewrite Hperm. apply Forall_app. split.
    + apply Forall_fmap. eapply Forall_impl; [exact Hl|]. intros o (?&?&?).
      unfold block_ok. simpl. repeat split; done || lia.
    + eapply Forall_impl; [exact sd_blocks0|]. intros x (?&?&?&?).
      unfold block_ok. repeat split; try done; lia.
  - apply (pairs_perm _ _ _ (Permutation_sym Hperm)). apply pairs_app; [by apply tag_all_pairs|done|].
    apply Forall_fmap. eapply Forall_impl; [exact Hl|]. intros o (?&_). simpl.
    apply Forall_forall. intros x Hx. right. simpl. destruct (Hold x Hx). lia.
  - intros bk' Hb'. destruct (Z.eq_dec bk' bk) as [->|Hne].
    + exists (mycore b), l. rewrite aget_aset_eq by (destruct sd_len0; lia).
      split; [done|]. split; [done|]. split; [done|]. intros o.
      destruct (sd_chains0 bk Hb') as (head&l0&Hh&Hc0&_&Hl0).
      assert (head = 0) as -> by congruence. apply chain_nil in Hc0 as ->.
      rewrite elem_of_app, tag_all_elem, <-Hl0. split; [by left|].
      intros [[_ ?]|Ho]; [done|]. by apply not_elem_of_nil in Ho.
    + destruct (sd_chains0 bk' Hb') as (head&l0&Hh&Hc0&Hn0&Hl0).
      exists head, l0. rewrite aget_aset_ne by lia. split; [done|].
      split; [|split; [done|]].
      * eapply chain_ext; [|exact Hc0]. intros o p Ho Hop. symmetry. apply Hmm.
        apply Hl0 in Ho. destruct (Hold (o, bk')) as [Ho' ?]; [apply elem_of_app; by right|].
        simpl in *. lia.
      * intros o. rewrite elem_of_app, tag_all_elem, <-Hl0. split; [by right|].
        by intros [[? _]|].
  - intros x Hx. rewrite <-(sd_tags0 x Hx). apply load_le_ext. intros p Hpp. apply Hmm.
    destruct (Hold x) as [Ho' ?]; [apply elem_of_app; by left|]. lia.
Qed.

(** No byte of a block in use changes. *)
Definition same_blocks (pg : Z) (a : dthread_shmref_t) (B : list (Z * Z)) (s s' : sst) : Prop :=
  ∀ x p, x ∈ B → x.1 + 16 ≤ p < x.1 + span pg x.2 →
    mem s' (dt_shmid a) p = mem s (dt_shmid a) p.

Lemma same_blocks_keeps pg a B L s s' :
  L ≡ₚ user pg <$> B → same_blocks pg a B s s' → keeps a L s s'.
Proof.
  intros HL H x p Hx Hp. rewrite HL in Hx. apply list_elem_of_fmap in Hx as (z&->&Hz).
  apply (H z); [done|]. unfold in_blk, user, span in *. simpl in Hp. lia.
Qed.

Lemma bsd_morecore_wp pg a B F s m id b bk :
  bsd_st pg a B F s m id b → 1 ≤ bk < 27 → aget (nextf b) bk = Some 0 →
  wp (bsd_morecore a bk) (λ _ s', outside a s s' ∧ same_blocks pg a B s s' ∧
    ∃ F' b', bsd_st pg a B F' s' m id b') s.
Proof.
  intros Hst Hbk Hz. pose proof Hst as []. pose proof sd_geom0 as [].
  pose proof (geom_map_ok _ _ _ sd_geom0) as (?&?&?). destruct sd_core0 as (?&?&?&?).
  destruct (bsd_pages_bounds _ _ sd_pages0) as [Hpg Hpgm].
  unfold sizeof_bsd_md in *.
  assert (outside a s s ∧ same_blocks pg a B s s ∧ ∃ F' b', bsd_st pg a B F' s m id b') as Hsame
    by (split; [apply outside_refl|]; split; [done|]; by exists F, b).
  unfold bsd_morecore. apply wp_bind, (wp_get_bsd _ _ _ _ _ _ _ _ _ Hst).
  rewrite (bp_min _ _ sd_pages0), (bp_page _ _ sd_pages0). unfold NBUCKETS.
  destruct (Z.ltb_spec bk 1); [lia|]. destruct (Z.leb_spec 60 bk); [lia|]. simpl.
  unfold bucksize. apply wp_bind. eapply wp_get_some; [apply BUCKSIZE_some; lia|].
  destruct (bsize_16 bk) as [Hbm ?]; [lia|].
  assert (∃ amt n, (if bsize bk <? pg then (pg, pg / bsize bk) else (bsize bk + pg, 1)) = (amt, n) ∧
    1 ≤ n ≤ 2 ^ 30 ∧ 0 < amt ∧ amt mod alignsz = 0 ∧ n * bsize bk ≤ amt ∧
    (n = 1 ∧ span pg bk = amt ∨ span pg bk = bsize bk)) as (amt&n&->&Hn&Ha0&Ham&Hna&Hsp).
  { destruct (Z.ltb_spec (bsize bk) pg) as [Hlt|Hge]; do 2 eexists; split; try done.
    - assert (1 ≤ pg / bsize bk) by (apply Z.div_le_lower_bound; lia).
      assert (pg / bsize bk ≤ pg) by (apply Z.div_le_upper_bound; nia).
      pose proof (Z.mul_div_le pg (bsize bk)).
      repeat split; try lia; try done. right. unfold span, cap.
      destruct (Z.ltb_spec (bsize bk) pg); lia.
    - repeat split; try lia; [by apply mod_add_0|]. left. split; [done|].
      unfold span, cap. destruct (Z.ltb_spec (bsize bk) pg); lia. }
  destruct (Z.ltb_spec (core_resid b) amt); [by apply wp_ret|].
  apply wp_bind, wp_gets. rewrite (shmref2ptr_some _ _ _ m); [|done|simpl; lia..]. simpl.
  destruct (Z.eqb_spec (mapping m + mycore b) 0); [lia|].
  apply wp_bind, wp_modify. rewrite !(u64_small (_ - _)), !(u64_small (mycore b + _)) by lia.
  set (cnt := Z.to_nat (n - 1)).
  assert ((Z.of_nat cnt + 1) * bsize bk ≤ amt) by (replace (Z.of_nat cnt + 1) with n by lia; done).
  eapply wp_mono; [apply (wp_link_blocks cnt _ _ (dt_shmid a) m); simpl; try done; lia|].
  intros [] s' (mm&->&Hc&Hout). simpl in Hout.
  split; [|split].
  - refine (outside_trans _ _ _ _ (outside_put a _ _ s sd_at0 _) (outside_mem a mm _ _)); [done|].
    intros k p Hp. apply Hout. lia.
  - intros x p Hx Hp. simpl. apply Hout. right; left.
    destruct (bsd_block _ _ _ _ _ _ _ _ x Hst) as [(_&_&?&_) _]; [apply elem_of_app; by left|]. lia.
  - eexists _, _. eapply bsd_st_more; [exact Hst|done|done|lia|done|exact Hc|..].
    + apply blist_NoDup. lia.
    + destruct Hsp as [[-> Hs]|Hs].
      * subst cnt. simpl. constructor; constructor.
      * rewrite Hs. apply blist_pairs. lia.
    + apply Forall_forall. intros o Ho.
      pose proof Ho as [Hlo Hhi]%blist_bounds; [|lia].
      apply blist_elem in Ho as (i&Hi&->); [|lia].
      split; [lia|]. split.
      * destruct Hsp as [[-> Hs]|Hs]; [|lia]. assert (i = 0) as -> by (subst cnt; lia). lia.
      * rewrite Z.add_assoc. apply mod_add_0; [done|done|].
        rewrite Z.mul_mod, Hbm, Z.mul_0_r by done. done.
    + intros p Hp. apply Hout. right; left. lia.
Qed.

(** ** Taking and returning blocks *)

Lemma u64_succ c : u64 (u64 c + 1) = u64 (1 + c).
Proof. unfold u64. rewrite Zplus_mod_idemp_l. f_equal. lia. Qed.

Lemma u64_pred c : u64 (u64 (1 + c) - 1) = u64 c.
Proof. unfold u64. rewrite Zminus_mod_idemp_l. f_equal. lia. Qed.

(** An overhead word of one block does not overlap that of another. *)
Lemma blocks_apart pg a B F s m id b x y p :
  bsd_st pg a B F s m id b → x ∈ B ++ F → y ∈ B ++ F → x ≠ y →
  x.1 ≤ p < x.1 + span pg x.2 → p < y.1 ∨ y.1 + span pg y.2 ≤ p.
Proof.
  intros Hst Hx Hy Hne Hp.
  pose proof (pairs_elem _ _ _ _ (sd_dis _ _ _ _ _ _ _ _ Hst) Hx Hy Hne) as [?|?]; lia.
Qed.

Section Moves.
Context (pg : Z) (a : dthread_shmref_t) (s : sst) (m : dthread_shmmap_t)
  (id : Z) (b : bsd_malloc_md).

(** A block removed from a list of disjoint blocks is not in the rest. *)
Lemma block_once B F x R :
  bsd_st pg a B F s m id b → B ++ F ≡ₚ x :: R → x ∉ R.
Proof using Type.
  intros Hst HP Hx. pose proof (sd_dis _ _ _ _ _ _ _ _ Hst) as Hd.
  apply (pairs_perm _ _ _ HP) in Hd. apply pairs_cons in Hd as [Hd _].
  rewrite Forall_forall in Hd. pose proof (Hd x Hx) as [?|?];
    destruct (bsd_block _ _ _ _ _ _ _ _ x Hst) as [_ ?]; try (rewrite HP; left); lia.
Qed.

(** The bucket, the counters and the memory after an overhead word changed. *)
Lemma bsd_st_move B F B' F' x v head l nm :
  bsd_st pg a B F s m id b → x ∈ B ++ F → B' ++ F' ≡ₚ B ++ F →
  (∀ y, y ∈ B' → y ≠ x → y ∈ B) →
  (x ∈ B' → v = OV_MAGIDX x.2) →
  (∀ bk o, bk ≠ x.2 → (o, bk) ∈ F' ↔ (o, bk) ∈ F) →
  (∀ bk, 0 ≤ bk < 60 → bk ≠ x.2 → bucket_count B' bk = bucket_count B bk) →
  nm = u64 (bucket_count B' x.2) →
  chain (store_le 8 (mem s) (dt_shmid a) x.1 v) (dt_shmid a) head l → NoDup l →
  (∀ o, o ∈ l ↔ (o, x.2) ∈ F') →
  let b' := b <| nextf ::= λ l, aset l x.2 head |> <| nmalloc ::= λ l, aset l x.2 nm |> in
  bsd_st pg a B' F'
    (s <| mem := store_le 8 (mem s) (dt_shmid a) x.1 v |>
       <| amds ::= <[(dt_shmid a, dt_offset a) := ArenaMd (bsd_amd a id) (DrvBsd b')]> |>)
    m id b'.
Proof using Type.
  intros Hst Hx HP HB Htag HF Hcnt -> Hc Hnd Hl b'. pose proof Hst as [].
  destruct (bsd_block _ _ _ _ _ _ _ _ x Hst Hx) as [((?&?)&_) ?].
  assert (∀ y p, y ∈ B ++ F → y ≠ x → y.1 ≤ p < y.1 + 8 →
    store_le 8 (mem s) (dt_shmid a) x.1 v (dt_shmid a) p = mem s (dt_shmid a) p) as Hother.
  { intros y p Hy Hne Hp. apply store_le_out. right.
    destruct (bsd_block _ _ _ _ _ _ _ _ y Hst Hy) as [_ ?].
    destruct (blocks_apart _ _ _ _ _ _ _ _ y x p Hst Hy Hx Hne); lia. }
  split; simpl; try done.
  - unfold arena_at. simpl. by rewrite lookup_insert_eq.
  - destruct sd_pages0. by split.
  - by rewrite !length_aset.
  - by rewrite HP.
  - by apply (pairs_perm _ _ _ (Permutation_sym HP)).
  - intros bk Hb. destruct (Z.eq_dec bk x.2) as [->|Hne].
    { exists head, l. rewrite aget_aset_eq by (destruct sd_len0; lia). done. }
    destruct (sd_chains0 bk Hb) as (h&l0&?&Hc0&?&Hl0). exists h, l0.
    rewrite aget_aset_ne by lia. split; [done|]. split; [|split; [done|]].
    + eapply chain_ext; [|exact Hc0]. intros o p Ho Hp. symmetry.
      apply (Hother (o, bk)); [|intros <-; done|done]. apply elem_of_app. right. by apply Hl0.
    + intros o. by rewrite HF.
  - intros y Hy. destruct (decide (y = x)) as [->|Hne].
    + rewrite load_store_same, Htag by done. apply ov_tag; lia.
    + rewrite <-(sd_tags0 y (HB y Hy Hne)). apply load_le_ext. intros p Hp.
      apply (Hother y); [|done|lia]. apply elem_of_app. left. by apply HB.
  - intros bk Hb. destruct (Z.eq_dec bk x.2) as [->|Hne].
    + by rewrite aget_aset_eq by (destruct sd_len0; lia).
    + rewrite aget_aset_ne by lia. by rewrite sd_counts0, Hcnt.
Qed.
End Moves.

(** A block leaves its free list. *)
Lemma bsd_st_take pg a B F s m id b bk o :
  bsd_st pg a B F s m id b → 0 ≤ bk < 60 → aget (nextf b) bk = Some o → o ≠ 0 →
  ∃ F', F ≡ₚ (o, bk) :: F' ∧
  let b' := b <| nextf ::= λ l, aset l bk (load_le 8 (mem s) (dt_shmid a) o) |>
              <| nmalloc ::= λ l, aset l bk (u64 (u64 (bucket_count B bk) + 1)) |> in
  bsd_st pg a ((o, bk) :: B) F'
    (s <| mem := store_le 8 (mem s) (dt_shmid a) o (OV_MAGIDX bk) |>
       <| amds ::= <[(dt_shmid a, dt_offset a) := ArenaMd (bsd_amd a id) (DrvBsd b')]> |>)
    m id b'.
Proof.
  intros Hst Hb Hh Ho. destruct (sd_chains _ _ _ _ _ _ _ _ Hst bk Hb) as (h&l&Hh'&Hc&Hnd&Hl).
  assert (h = o) as -> by congruence.
  destruct l as [|o' l]; [done|]. destruct Hc as (<-&_&Hc). apply NoDup_cons in Hnd as [Hol Hnd].
  assert ((o, bk) ∈ F) as HoF by (apply Hl; left).
  apply elem_of_Permutation in HoF as HoF2; destruct HoF2 as [F' HF]. exists F'. split; [done|].
  assert (B ++ F ≡ₚ (o, bk) :: B ++ F') as HP by (rewrite HF; by rewrite Permutation_middle).
  pose proof (block_once _ _ _ _ _ _ _ _ _ _ Hst HP) as Hnot. rewrite elem_of_app in Hnot.
  apply (bsd_st_move pg a s m id b B F _ _ (o, bk) (OV_MAGIDX bk) _ l); simpl; try done.
  - apply elem_of_app. by right.
  - intros y [->|?]%elem_of_cons Hne; done.
  - intros bk' o' Hne. rewrite HF, elem_of_cons. split; [by right|]. by intros [[= -> ->]|].
  - intros bk' _ Hne. unfold bucket_count. simpl. destruct (Z.eqb_spec bk bk'); [done|lia].
  - rewrite u64_succ. unfold bucket_count. simpl. by rewrite Z.eqb_refl.
  - eapply chain_ext; [|exact Hc]. intros o' p Ho' Hp. symmetry. apply store_le_out. right.
    assert ((o', bk) ∈ B ++ F) as HT by (apply elem_of_app; right; apply Hl; by right).
    assert ((o, bk) ∈ B ++ F) as HT' by (apply elem_of_app; by right).
    destruct (bsd_block _ _ _ _ _ _ _ _ _ Hst HT) as [_ ?].
    destruct (blocks_apart _ _ _ _ _ _ _ _ _ _ p Hst HT HT'); simpl in *; [congruence|lia|lia|].
    destruct (bsd_block _ _ _ _ _ _ _ _ _ Hst HT') as [_ ?]. simpl in *. lia.
  - intros o'. split.
    + intros Ho'. assert ((o', bk) ∈ F) as HF' by (apply Hl; by right).
      rewrite HF in HF'. apply elem_of_cons in HF' as [[= ->]|]; done.
    + intros Ho'. assert (o' ∈ o :: l) as Hin by (apply Hl; rewrite HF; by right).
      apply elem_of_cons in Hin as [->|]; [|done]. tauto.
Qed.

(** A block in use is put on its free list. *)
Lemma bsd_st_give pg a B F s m id b x B' :
  bsd_st pg a B F s m id b → B ≡ₚ x :: B' →
  ∃ head, aget (nextf b) x.2 = Some head ∧
  let b' := b <| nextf ::= λ l, aset l x.2 x.1 |>
              <| nmalloc ::= λ l, aset l x.2 (u64 (u64 (bucket_count B x.2) - 1)) |> in
  bsd_st pg a B' (x :: F)
    (s <| mem := store_le 8 (mem s) (dt_shmid a) x.1 head |>
       <| amds ::= <[(dt_shmid a, dt_offset a) := ArenaMd (bsd_amd a id) (DrvBsd b')]> |>)
    m id b'.
Proof.
  intros Hst HB. assert (x ∈ B) as HxB by (rewrite HB; left).
  assert (x ∈ B ++ F) as HxT by (apply elem_of_app; by left).
  destruct (bsd_block _ _ _ _ _ _ _ _ _ Hst HxT) as [(Hbk&Hlo&_) ?].
  assert (0 ≤ x.2 < 60) as Hbk' by lia.
  destruct (sd_chains _ _ _ _ _ _ _ _ Hst x.2 Hbk') as (head&l&Hh&Hc&Hnd&Hl).
  exists head. split; [done|].
  assert (B ++ F ≡ₚ x :: B' ++ F) as HP by by rewrite HB.
  pose proof (block_once _ _ _ _ _ _ _ _ _ _ Hst HP) as Hnot. rewrite elem_of_app in Hnot.
  assert (head mod 2 ^ 64 = head) as Hh64.
  { destruct l as [|o l]; [by simpl in Hc; rewrite Hc|]. destruct Hc as (->&_).
    assert ((o, x.2) ∈ B ++ F) as HoT by (apply elem_of_app; right; apply Hl; left).
    destruct (bsd_block _ _ _ _ _ _ _ _ _ Hst HoT) as [(_&?&?&_) ?]. simpl in *.
    destruct Hst. pose proof (geom_map_ok _ _ _ sd_geom0) as (?&?&?). destruct sd_geom0.
    unfold sizeof_bsd_md in *. apply Z.mod_small. lia. }
  apply (bsd_st_move pg a s m id b B F _ _ x head _ (x.1 :: l)); try done.
  - rewrite HP. by rewrite Permutation_middle.
  - intros y Hy _. rewrite HB. by right.
  - tauto.
  - intros bk o Hne. rewrite elem_of_cons. split; [|by right]. intros [<-|]; done.
  - intros bk Hb Hne. rewrite (bucket_count_perm _ _ bk HB). unfold bucket_count. simpl.
    destruct (Z.eqb_spec x.2 bk); [congruence|lia].
  - rewrite (bucket_count_perm _ _ x.2 HB). unfold bucket_count. simpl.
    rewrite Z.eqb_refl. by rewrite u64_pred.
  - simpl. split; [done|]. pose proof Hst as Hst'. destruct Hst. destruct sd_geom0. unfold sizeof_bsd_md in *.
    split; [lia|]. rewrite load_store_same. change (8 * Z.of_nat 8) with 64. rewrite Hh64.
    eapply chain_ext; [|exact Hc]. intros o p Ho Hp. symmetry. apply store_le_out. right.
    assert ((o, x.2) ∈ B ++ F) as HoT by (apply elem_of_app; right; by apply Hl).
    assert ((o, x.2) ≠ x) as Hne.
    { intros He. apply Hnot. right. rewrite <-He. by apply Hl. }
    destruct (bsd_block _ _ _ _ _ _ _ _ _ Hst' HoT) as [_ ?].
    destruct (blocks_apart _ _ _ _ _ _ _ _ _ _ p Hst' HoT HxT Hne); simpl in *; lia.
  - constructor; [|done]. rewrite Hl. intros Hin. apply Hnot. right. by destruct x.
  - intros o. rewrite !elem_of_cons, Hl. destruct x; simpl. split; intros [|]; simplify_eq; auto.
Qed.

(** ** Driver operations keep the invariant *)

Lemma wp_get_nextf pg a B F s m id b bk (Q : Z → sst → Prop) :
  bsd_st pg a B F s m id b → 0 ≤ bk < 60 →
  (∀ o, aget (nextf b) bk = Some o → Q o s) → wp (get_nextf a bk) Q s.
Proof.
  intros Hst Hb HQ. unfold get_nextf. apply wp_bind, (wp_get_bsd _ _ _ _ _ _ _ _ _ Hst).
  destruct (sd_chains _ _ _ _ _ _ _ _ Hst bk Hb) as (h&_&Hh&_).
  eapply wp_get_some; [exact Hh|]. by apply HQ.
Qed.

(** [bsd_malloc] from the point where the bucket's list is not empty. *)
Lemma bsd_pop_wp pg a B F s m id b bk o size ref :
  bsd_st pg a B F s m id b → 1 ≤ bk < 27 → aget (nextf b) bk = Some o → o ≠ 0 →
  wp (md <- get_bsd a ;;
      let '(amd, b) := md in
      sm <- gets shmmap ;;
      let ovp := dthread_shmref2ptr sm
        (Some (Shmref (dt_shmid (amd_self amd)) o (oversize b))) (oversize b) in
      if ovp =? 0 then retM (0, ref)
      else
        next <- load 8 ovp ;;
        store 8 ovp (OV_MAGIDX bk) ;;;
        nm <- get_some OutOfBounds (aget (nmalloc b) bk) ;;
        put_bsd a amd (b <| nextf ::= λ l, aset l bk next |>
                         <| nmalloc ::= λ l, aset l bk (u64 (nm + 1)) |>) ;;;
        retM (ovp + oversize b,
              _ ← ref; Some (Shmref (dt_shmid (amd_self amd)) (u64 (o + oversize b)) size)))
    (λ res s', outside a s s' ∧ same_blocks pg a B s s' ∧
      res = (mapping m + (o + 16), _ ← ref; Some (Shmref (dt_shmid a) (o + 16) size)) ∧
      ∃ F' b', bsd_st pg a ((o, bk) :: B) F' s' m id b') s.
Proof.
  intros Hst Hbk Hh Ho. assert (0 ≤ bk < 60) as Hbk' by lia.
  destruct (bsd_st_take _ _ _ _ _ _ _ _ _ _ Hst Hbk' Hh Ho) as (F'&HF&Hst').
  assert ((o, bk) ∈ B ++ F) as HT by (rewrite HF; apply elem_of_app; right; left).
  destruct (bsd_block _ _ _ _ _ _ _ _ _ Hst HT) as [(_&?&?&_) ?]. simpl in *.
  pose proof Hst as []. destruct sd_core0 as (?&?&?&_). pose proof sd_geom0 as [].
  pose proof (geom_map_ok _ _ _ sd_geom0) as (?&?&?). unfold sizeof_bsd_md in *.
  apply wp_bind, (wp_get_bsd _ _ _ _ _ _ _ _ _ Hst).
  rewrite (bp_over _ _ sd_pages0). apply wp_bind, wp_gets.
  rewrite (shmref2ptr_some _ _ _ m); [|done|simpl; lia..]. simpl.
  destruct (Z.eqb_spec (mapping m + o) 0); [lia|].
  apply wp_bind, (wp_load _ (dt_shmid a)); [done|done|lia|lia|].
  apply wp_bind, (wp_store _ (dt_shmid a)); [done|done|lia|lia|].
  rewrite sd_counts0 by done. apply wp_bind. eapply wp_get_some; [done|].
  apply wp_bind, wp_modify, wp_ret. rewrite (u64_small (o + 16)) by lia.
  split; [|split; [|split]].
  - refine (outside_trans _ _ _ _ (outside_mem a _ _ _) (outside_put a _ _ _ _ _)); [|done|done].
    intros k p Hp. apply store_le_out. lia.
  - intros x p Hx Hp. simpl. apply store_le_out. right.
    assert (x ∈ B ++ F) as HxT by (apply elem_of_app; by left).
    destruct (bsd_block _ _ _ _ _ _ _ _ _ Hst HxT) as [_ ?].
    assert (x ≠ (o, bk)) as Hne.
    { intros ->. assert (B ++ F ≡ₚ (o, bk) :: B ++ F') as HP
        by (rewrite HF; by rewrite Permutation_middle).
      apply (block_once _ _ _ _ _ _ _ _ _ _ Hst HP). apply elem_of_app. by left. }
    destruct (blocks_apart _ _ _ _ _ _ _ _ _ _ p Hst HxT HT Hne); simpl in *; lia.
  - f_equal. lia.
  - eexists F', _. rewrite (bp_over _ _ sd_pages0) in Hst'. exact Hst'.
Qed.

Lemma bsd_malloc_wp pg a m L size ref s :
  bsd_inv pg a L s → arena_geom a m (shmmap s) → 0 ≤ size ≤ bsd_max_size →
  wp (bsd_malloc a size ref) (λ res s', outside a s s' ∧ keeps a L s s' ∧
    ((res = (0, ref) ∧ bsd_inv pg a L s') ∨
     ∃ x, alloc_result (bsd_inv pg) a m L size ref res x s')) s.
Proof.
  intros (B&F&m'&id&b&HL&Hst) Hg Hs.
  pose proof (geom_unique _ _ _ _ Hg (sd_geom _ _ _ _ _ _ _ _ Hst)) as <-.
  pose proof (sd_pages _ _ _ _ _ _ _ _ Hst) as Hpages.
  unfold bsd_malloc. apply wp_bind, (wp_get_bsd _ _ _ _ _ _ _ _ _ Hst).
  apply wp_bind, (wp_pick_bucket _ pg); [done|unfold bsd_max_size in *; lia|].
  intros bk Hbk Hfor. pose proof (bsd_pages_bounds _ _ Hpages) as [Hpg _].
  pose proof (bucket_for_small _ _ _ Hpg (proj1 Hbk) Hfor (proj2 Hs)) as Hbk2.
  apply wp_bind, (wp_get_nextf _ _ _ _ _ _ _ _ _ _ Hst); [lia|]. intros o0 Ho0.
  apply wp_bind.
  assert (wp (whenM (o0 =? 0) (bsd_morecore a bk)) (λ _ s1,
    outside a s s1 ∧ same_blocks pg a B s s1 ∧ ∃ F1 b1, bsd_st pg a B F1 s1 m id b1) s) as Hmore.
  { destruct (Z.eqb_spec o0 0) as [->|]; simpl; [eapply bsd_morecore_wp; [done|lia|done]|].
    apply wp_ret. split; [apply outside_refl|]. split; [done|]. by eexists _, _. }
  eapply wp_mono; [exact Hmore|]. intros [] s1 (Ho1&Hk1&F1&b1&Hst1).
  apply wp_bind, (wp_get_nextf _ _ _ _ _ _ _ _ _ _ Hst1); [lia|]. intros o Hh.
  destruct (Z.eqb_spec o 0) as [->|Hne].
  { apply wp_ret. split; [done|]. split; [by eapply same_blocks_keeps|]. left.
    split; [done|]. by exists B, F1, m, id, b1. }
  eapply wp_mono; [eapply bsd_pop_wp; [exact Hst1|lia|done|done]|].
  intros res s2 (Ho2&Hk2&->&F2&b2&Hst2). split; [by eapply outside_trans|]. split.
  { eapply keeps_trans; by eapply same_blocks_keeps. }
  right. exists (user pg (o, bk)). split; [apply Hfor|]. split; [done|].
  exists ((o, bk) :: B), F2, m, id, b2. split; [by rewrite HL|done].
Qed.

(** The block of the invariant behind a block of the user. *)
Lemma bsd_inv_block pg a L x L' s :
  bsd_inv pg a L s → L ≡ₚ x :: L' →
  ∃ y B B' F m id b, x = user pg y ∧ B ≡ₚ y :: B' ∧ L' ≡ₚ user pg <$> B' ∧
    bsd_st pg a B F s m id b.
Proof.
  intros (B&F&m&id&b&HL&Hst) Hx. rewrite Hx in HL.
  assert (x ∈ user pg <$> B) as Hin by (rewrite <-HL; left).
  apply list_elem_of_fmap in Hin as (y&->&Hy). apply elem_of_Permutation in Hy as [B' HB].
  exists y, B, B', F, m, id, b. rewrite HB in HL. simpl in HL.
  apply Permutation_cons_inv in HL. done.
Qed.

(** The state after the block [y] was put on its list, before [head]. *)
Definition given (a : dthread_shmref_t) (id : Z) (b : bsd_malloc_md) (B : list (Z * Z))
    (y : Z * Z) (head : Z) (s : sst) : sst :=
  s <| mem := store_le 8 (mem s) (dt_shmid a) y.1 head |>
    <| amds ::= <[(dt_shmid a, dt_offset a) := ArenaMd (bsd_amd a id)
        (DrvBsd (b <| nextf ::= λ l, aset l y.2 y.1 |>
                   <| nmalloc ::= λ l, aset l y.2 (u64 (u64 (bucket_count B y.2) - 1)) |>))]> |>.

(** [bsd_free] up to the check of the magic number. *)
Lemma bsd_free_head pg a B F s m id b y r (Q : unit → sst → Prop) :
  bsd_st pg a B F s m id b → y ∈ B ++ F → ref_of a (y.1 + 16) r →
  (let w := load_le 8 (mem s) (dt_shmid a) y.1 in
   wp (if negb (OV_MAGIC w =? MAGIC) then retM tt
       else if (OV_INDEX w <? 0) || (NBUCKETS <=? OV_INDEX w) then retM tt
       else
         head <- get_some OutOfBounds (aget (nextf b) (OV_INDEX w)) ;;
         nm <- get_some OutOfBounds (aget (nmalloc b) (OV_INDEX w)) ;;
         store 8 (mapping m + y.1) head ;;;
         put_bsd a (bsd_amd a id) (b <| nextf ::= λ l, aset l (OV_INDEX w) y.1 |>
           <| nmalloc ::= λ l, aset l (OV_INDEX w) (u64 (nm - 1)) |>)) Q s) →
  wp (bsd_free a r) Q s.
Proof.
  intros Hst HyT Href HQ. destruct (bsd_block _ _ _ _ _ _ _ _ _ Hst HyT) as [(Hbk&?&?&_) ?].
  pose proof Hst as []. destruct sd_core0 as (?&?&?&_). pose proof sd_geom0 as [].
  pose proof (geom_map_ok _ _ _ sd_geom0) as (?&?&?).
  unfold bsd_free. apply wp_bind, (wp_get_bsd _ _ _ _ _ _ _ _ _ Hst).
  rewrite (bp_over _ _ sd_pages0). unfold sizeof_bsd_md in *. cbn [bsd_amd min_uoffset].
  unfold sizeof_bsd_md.
  rewrite (u64_small (_ + _)) by lia. pose proof Href as (_&Hro&_). rewrite Hro.
  destruct (Z.ltb_spec (y.1 + 16) (dt_offset a + 1056 + 16)); [lia|].
  apply wp_bind, wp_gets. rewrite (ref_ptr _ _ _ _ _ sd_geom0 Href).
  replace (mapping m + (y.1 + 16) - 16) with (mapping m + y.1) by lia.
  apply wp_bind, (wp_load _ (dt_shmid a)); [done|done|lia|lia|].
  replace (y.1 + 16 - 16) with y.1 by lia. rewrite (u64_small y.1) by lia. exact HQ.
Qed.

Lemma bsd_free_exec pg a B B' F s m id b y r :
  bsd_st pg a B F s m id b → B ≡ₚ y :: B' → ref_of a (y.1 + 16) r →
  ∃ head, aget (nextf b) y.2 = Some head ∧
    wp (bsd_free a r) (λ _ s', s' = given a id b B y head s) s.
Proof.
  intros Hst HB Href. assert (y ∈ B) as HyB by (rewrite HB; left).
  assert (y ∈ B ++ F) as HyT by (apply elem_of_app; by left).
  destruct (bsd_block _ _ _ _ _ _ _ _ _ Hst HyT) as [(Hbk&?&?&_) ?].
  destruct (sd_chains _ _ _ _ _ _ _ _ Hst y.2) as (head&_&Hh&_); [lia|].
  exists head. split; [done|]. apply (bsd_free_head _ _ _ _ _ _ _ _ _ _ _ Hst HyT Href).
  destruct (ov_tag y.2) as (_&Hmag&Hidx); [lia|].
  rewrite (sd_tags _ _ _ _ _ _ _ _ Hst y HyB). cbv zeta. rewrite Hmag, Hidx, Z.eqb_refl.
  unfold NBUCKETS. destruct (Z.ltb_spec y.2 0); [lia|]. destruct (Z.leb_spec 60 y.2); [lia|].
  simpl. apply wp_bind. eapply wp_get_some; [exact Hh|].
  apply wp_bind. eapply wp_get_some; [apply (sd_counts _ _ _ _ _ _ _ _ Hst); lia|].
  destruct Hst. destruct sd_core0 as (?&?&?&_). destruct sd_geom0. unfold sizeof_bsd_md in *.
  apply wp_bind, (wp_store _ (dt_shmid a)); [done|done|lia|lia|]. by apply wp_modify.
Qed.

Lemma bsd_free_wp pg a L x L' r s :
  bsd_inv pg a L s → L ≡ₚ x :: L' → ref_of a x.1 r →
  wp (bsd_free a r) (λ _ s', outside a s s' ∧ keeps a L' s s' ∧ bsd_inv pg a L' s') s.
Proof.
  intros Hinv HL Href. destruct (bsd_inv_block _ _ _ _ _ _ Hinv HL)
    as (y&B&B'&F&m&id&b&->&HB&HL'&Hst).
  destruct (bsd_st_give _ _ _ _ _ _ _ _ _ _ Hst HB) as (head&Hh&Hst').
  destruct (bsd_free_exec _ _ _ _ _ _ _ _ _ _ _ Hst HB Href) as (head'&Hh'&Hex).
  assert (head' = head) as -> by congruence.
  eapply wp_mono; [exact Hex|]. intros [] s' ->.
  assert (y ∈ B ++ F) as HyT by (apply elem_of_app; left; rewrite HB; left).
  destruct (bsd_block _ _ _ _ _ _ _ _ _ Hst HyT) as [(Hbk&?&?&_) ?].
  pose proof Hst as []. destruct sd_core0 as (?&?&?&_). pose proof sd_geom0 as [].
  unfold sizeof_bsd_md in *. split; [|split].
  - refine (outside_trans _ _ _ _ (outside_mem a _ _ _) (outside_put a _ _ _ _ _)); [|done|done].
    intros k p Hp. apply store_le_out. lia.
  - eapply same_blocks_keeps; [exact HL'|]. intros z p Hz Hp. simpl. apply store_le_out. right.
    assert (z ∈ B ++ F) as HzT by (apply elem_of_app; left; rewrite HB; by right).
    destruct (bsd_block _ _ _ _ _ _ _ _ _ Hst HzT) as [_ ?].
    assert (z ≠ y) as Hne.
    { intros ->. assert (B ++ F ≡ₚ y :: B' ++ F) as HP by by rewrite HB.
      apply (block_once _ _ _ _ _ _ _ _ _ _ Hst HP). apply elem_of_app. by left. }
    destruct (blocks_apart _ _ _ _ _ _ _ _ _ _ p Hst HzT HyT Hne); lia.
  - eexists B', _, m, id, _. split; [done|exact Hst'].
Qed.

Lemma bsd_sound pg a L s :
  bsd_inv pg a L s → ∃ m am, arena_geom a m (shmmap s) ∧ arena_ready a am s ∧
    ForallOrdPairs blk_disjoint L ∧ Forall (blk_ok m am) L.
Proof.
  intros (B&F&m&id&b&HL&Hst). pose proof Hst as []. destruct sd_core0 as (?&?&?&_).
  exists m; eexists. split; [done|]. unfold sizeof_bsd_md in *. split; [|split].
  - split; try done. simpl. unfold sizeof_alloc_md, sizeof_bsd_md. lia.
  - apply (pairs_perm _ _ _ (Permutation_sym HL)).
    assert (ForallOrdPairs (spans_disjoint pg) B) as Hd.
    { clear -sd_dis0. induction B as [|x B IH]; [constructor|]. simpl in *.
      apply pairs_cons in sd_dis0 as [Hx Hd]. apply Forall_app in Hx as [Hx _].
      constructor; auto. }
    clear -Hd. induction Hd as [|x B Hx Hd IH]; simpl; constructor; [|done].
    apply Forall_fmap. eapply Forall_impl; [exact Hx|].
    intros y. unfold spans_disjoint, blk_disjoint, span, user. simpl. lia.
  - rewrite HL. apply Forall_fmap. apply Forall_forall. intros x Hx.
    assert (x ∈ B ++ F) as HxT by (apply elem_of_app; by left).
    destruct (bsd_block _ _ _ _ _ _ _ _ _ Hst HxT) as [(_&?&?&Hal) ?].
    unfold blk_ok, span, user, bsd_amd, sizeof_bsd_md in *. simpl. repeat split; [lia..|].
    rewrite Z.add_assoc. by apply mod_add_0.
Qed.

Lemma adjusted_cap b pg bk :
  bsd_pages b pg → 0 ≤ bk < 27 → adjusted b (bsize bk) = cap pg bk.
Proof.
  intros Hp Hb. pose proof (bsd_pages_bounds _ _ Hp) as [Hpg _]. destruct Hp as [Ho _ Hpage _ _].
  unfold adjusted, cap. rewrite Ho, Hpage. pose proof (bsize_16 bk).
  pose proof (bsize_mono bk 26) as Hm. change (bsize 26) with (2 ^ 30) in Hm.
  destruct (Z.ltb_spec (bsize bk) pg); rewrite u64_small; lia.
Qed.

(** A log call is safe when it is filtered out or has a reference to read. *)
Lemma wp_log dbg ref (Q : unit → sst → Prop) s :
  dbg = false ∨ ref ≠ None → Q tt s → wp (log_new_offset dbg ref) Q s.
Proof.
  intros Hd HQ. unfold log_new_offset. destruct dbg; [|by apply wp_ret].
  destruct Hd as [|Hr]; [done|]. destruct ref as [r|]; [|done].
  apply wp_bind. eapply wp_get_some; [done|]. by apply wp_ret.
Qed.

Lemma bsd_realloc_wp dbg pg a m L x L' r size ref s :
  bsd_inv pg a L s → arena_geom a m (shmmap s) →
  L ≡ₚ x :: L' → ref_of a x.1 r → 0 ≤ size ≤ bsd_max_size →
  dbg = false ∨ ref ≠ None →
  wp (bsd_realloc dbg a r size ref) (λ res s', outside a s s' ∧
    ((res = (0, ref) ∧ bsd_inv pg a L s' ∧ keeps a L s s' ∧
        bsd_malloc a size ref s = Ok ((0, ref), s')) ∨
     ∃ b', alloc_result (bsd_inv pg) a m L' size ref res b' s' ∧ keeps a L' s s' ∧
       ∀ i, 0 ≤ i < x.2 `min` size →
         mem s' (dt_shmid a) (b'.1 + i) = mem s (dt_shmid a) (x.1 + i))) s.
Proof.
  intros Hinv Hg HL Href Hsz Hlog. destruct (bsd_inv_block _ _ _ _ _ _ Hinv HL)
    as (y&B&B'&F&m'&id&b&->&HB&HL'&Hst). pose proof Hst as [].
  pose proof (geom_unique _ _ _ _ Hg sd_geom0) as <-. pose proof Hg as [].
  assert (y ∈ B) as HyB by (rewrite HB; left).
  assert (y ∈ B ++ F) as HyT by (apply elem_of_app; by left).
  destruct (bsd_block _ _ _ _ _ _ _ _ _ Hst HyT) as [(Hbk&?&?&_) ?].
  destruct sd_core0 as (?&?&?&_). pose proof (geom_map_ok _ _ _ Hg) as (?&?&?).
  destruct (ov_tag y.2) as (_&Hmag&Hidx); [lia|].
  unfold bsd_realloc. apply wp_bind, (wp_get_bsd _ _ _ _ _ _ _ _ _ Hst).
  rewrite (bp_over _ _ sd_pages0), (bp_min _ _ sd_pages0).
  unfold bsd_amd, sizeof_bsd_md in *. cbn [min_uoffset].
  rewrite (u64_small (_ + _)) by lia. pose proof Href as (Hrs&Hro&_). simpl in Hro.
  rewrite Hro. destruct (Z.ltb_spec (y.1 + 16) (dt_offset a + 1056 + 16)); [lia|].
  apply wp_bind, wp_gets. rewrite (ref_ptr _ _ _ _ _ Hg Href). cbn [user fst].
  replace (mapping m + (y.1 + 16) - 16) with (mapping m + y.1) by lia.
  apply wp_bind, (wp_load _ (dt_shmid a)); [done|done|lia|lia|].
  rewrite (sd_tags0 y HyB), Hmag, Hidx, Z.eqb_refl. unfold NBUCKETS.
  destruct (Z.ltb_spec y.2 1); [lia|]. destruct (Z.leb_spec 60 y.2); [lia|]. cbn [negb orb].
  unfold bucksize. apply wp_bind. eapply wp_get_some; [apply BUCKSIZE_some; lia|].
  rewrite (adjusted_cap _ pg) by (done || lia). apply wp_bind.
  apply (wp_mono _ (λ _ s', s' = s)).
  { destruct (Z.leb_spec y.2 1); [by apply wp_ret|]. apply wp_bind.
    eapply wp_get_some; [apply BUCKSIZE_some; lia|]. by apply wp_ret. }
  intros prevsz ? ->.
  destruct ((size <=? cap pg y.2) && ((prevsz =? 0) || (prevsz <? size))) eqn:Hkeep.
  - apply wp_ret. split; [apply outside_refl|]. right. exists (user pg y).
    split; [|by split]. split; [breflect; simpl; lia|]. split; [by rewrite Hrs|].
    by rewrite <-HL.
  - replace (if size <? cap pg y.2 then size else cap pg y.2)
      with ((user pg y).2 `min` size) by (simpl; destruct (Z.ltb_spec size (cap pg y.2)); lia).
    change (y.1 + 16) with ((user pg y).1).
    pose proof (cap_bounds pg y.2). pose proof (bsd_pages_bounds _ _ sd_pages0).
    apply (move_wp _ (bsd_sound pg) (bsd_inv_mem pg)); [done..|simpl; lia|lia| |].
    + by apply bsd_malloc_wp.
    + intros K K' t Ht HK. apply wp_bind.
      eapply wp_mono; [by apply (bsd_free_wp pg a K (user pg y) K')|].
      intros [] t' Ht'. by apply wp_log.
Qed.

(** ** Initialisation *)

Lemma wp_bucket_from fuel b k target (Q : Z → sst → Prop) s :
  0 ≤ b ≤ k → k < 27 → k - b ≤ Z.of_nat fuel →
  target ≤ bsize k → (∀ i, b ≤ i < k → bsize i < target) →
  Q k s → wp (bucket_from fuel b target) Q s.
Proof.
  revert b. induction fuel as [|fuel IH]; intros b Hb Hk Hf Ht Hlt HQ.
  all: cbn [bucket_from]; unfold bucksize; apply wp_bind;
    (eapply wp_get_some; [apply BUCKSIZE_some; lia|]).
  all: destruct (Z.eq_dec b k) as [->|Hne];
    [destruct (Z.ltb_spec (bsize k) target); [lia|by apply wp_ret]|].
  - lia.
  - destruct (Z.ltb_spec (bsize b) target); [|specialize (Hlt b); lia].
    apply IH; try done; [lia..|]. intros i Hi. apply Hlt. lia.
Qed.

Lemma bsd_init_wp pg pb a m id d s :
  8 ≤ pb ≤ 26 → bsize pb = pg →
  arena_geom a m (shmmap s) →
  arena_at a s = Some (ArenaMd (fresh_amd a id) d) →
  wp (bsd_init pg a) (λ rc s', outside a s s' ∧
    (rc = 0 ∧ bsd_inv pg a [] s' ∨ rc = ENOMEM)) s.
Proof.
  intros Hpb Hpg Hg Hat. unfold bsd_init. apply wp_bind, (wp_mdalign_size a m); [done..|].
  apply wp_bind, wp_gets.
  destruct (Z.eqb_spec (dthread_shmref2ptr (shmmap s) (Some a) sizeof_bsd_md) 0) as [|Hp].
  { apply wp_ret. split; [apply outside_refl|by right]. }
  apply shmref2ptr_inv in Hp as (m'&Hm'&_&_&Hlen&_).
  specialize (Hlen (λ H, ltac:(discriminate H))).
  apply wp_bind, wp_gets. rewrite Hat. apply wp_bind. eapply wp_get_some; [done|].
  pose proof (geom_map_ok _ _ _ Hg) as (?&?&?). pose proof Hg as [].
  apply wp_bind. eapply wp_get_some; [reflexivity|].
  apply wp_bind, (wp_bucket_from _ _ 1); [lia..|done|intros i Hi; by replace i with 0 by lia|].
  apply wp_bind, (wp_bucket_from _ _ pb); [lia|lia|lia|lia| |].
  { intros i Hi. rewrite <-Hpg. unfold bsize. apply Z.pow_lt_mono_r; lia. }
  unfold sizeof_bsd_md in *. simpl. rewrite !u64_small by lia.
  apply wp_bind, wp_modify, wp_ret. split; [by eapply outside_put|].
  left. split; [done|]. exists [], [], m, id. eexists. split; [done|].
  split; simpl; unfold sizeof_bsd_md; try done.
  - unfold arena_at. simpl. rewrite lookup_insert_eq. done.
  - by split.
  - done.
  - simpl. repeat split; try lia. rewrite Z.add_assoc. by apply mod_add_0.
  - constructor.
  - intros bk Hb. exists 0, []. split; [|split; [done|split; [constructor|]]].
    + unfold aget. destruct (Z.leb_spec 0 bk); [|lia].
      apply (lookup_replicate_2 60 0). lia.
    + intros o. split; intros Ho; by apply not_elem_of_nil in Ho.
  - intros x Hx. by apply not_elem_of_nil in Hx.
  - intros bk Hb. unfold aget. destruct (Z.leb_spec 0 bk); [|lia].
    apply (lookup_replicate_2 60 0). lia.
Qed.

(** A page size the driver works with: a power of two from 4096 to [2^30]. *)
Definition page_ok (pg : Z) : Prop := ∃ pb, 8 ≤ pb ≤ 26 ∧ bsize pb = pg.

(** The driver keeps the interface while debug logging is off; with logging on,
    its [realloc] needs a place for the new reference. *)
Lemma bsd_driver pg fuel :
  page_ok pg → Driver (bsd_ops false pg fuel) (2 ^ 64) bsd_max_size (bsd_inv pg).
Proof.
  intros (pb&Hpb&Hpg). split.
  - apply bsd_sound.
  - apply bsd_inv_perm.
  - intros a L s x o v Hinv Hx Ho. apply bsd_inv_mem; [done|]. intros p Hp.
    unfold byte_upd. rewrite Z.eqb_refl. destruct (Z.eqb_spec p o) as [->|]; [|done].
    by destruct (Hp x Hx).
  - intros a m id d s Hg _ Hat. by eapply bsd_init_wp.
  - apply bsd_malloc_wp.
  - apply bsd_free_wp.
  - intros. eapply wp_mono; [eapply bsd_realloc_wp; try done; by left|].
    intros res s' (?&[(?&?&?&_)|?]); auto.
Qed.

(** ** Claims *)

Lemma cap_mono pg b1 b2 : 0 ≤ pg → 0 ≤ b1 ≤ b2 → cap pg b1 ≤ cap pg b2.
Proof.
  intros Hp Hb. pose proof (bsize_mono b1 b2 Hb). unfold cap.
  destruct (Z.ltb_spec (bsize b1) pg), (Z.ltb_spec (bsize b2) pg); lia.
Qed.

(** No bucket from 27 on has a block. *)
Lemma bsd_no_large pg a B F s m id b bk :
  bsd_st pg a B F s m id b → 27 ≤ bk < 60 → aget (nextf b) bk = Some 0.
Proof.
  intros Hst Hb. destruct (sd_chains _ _ _ _ _ _ _ _ Hst bk) as (h&l&Hh&Hc&_&Hl); [lia|].
  destruct l as [|o l]; [by rewrite Hh, Hc|]. exfalso.
  destruct (bsd_block _ _ _ _ _ _ _ _ (o, bk) Hst) as [(?&_) _]; [|simpl in *; lia].
  apply elem_of_app. right. apply Hl. left.
Qed.

(** One bucket's walk adds up its free list and ends. *)
Lemma mstats_walk_ok pg a B F s m id b bk l : bsd_st pg a B F s m id b →
  (∀ o, o ∈ l → (o, bk) ∈ F) → ∀ fuel h sz acc,
  (length l ≤ fuel)%nat → chain (mem s) (dt_shmid a) h l →
  ∃ r, mstats_walk fuel (dt_shmid a) 16 sz h acc s = Ok (Some r, s).
Proof.
  intros Hst Hl. induction l as [|o l IH]; intros fuel h sz acc Hf Hc; simpl in *.
  { subst h. destruct fuel; by eexists. }
  destruct Hc as (->&Ho&Hc). destruct fuel as [|fuel]; [lia|]. cbn [mstats_walk].
  destruct (Z.eqb_spec o 0); [done|].
  assert ((o, bk) ∈ B ++ F) as HT by (apply elem_of_app; right; apply Hl; left).
  destruct (bsd_block _ _ _ _ _ _ _ _ _ Hst HT) as [(_&?&?&_) ?]. simpl in *.
  pose proof Hst as []. destruct sd_core0 as (?&?&?&_). pose proof sd_geom0 as [].
  pose proof (geom_map_ok _ _ _ sd_geom0) as (?&?&?). unfold sizeof_bsd_md in *.
  rewrite bind_gets. cbv zeta. rewrite (shmref2ptr_some _ _ _ m); [|done|simpl; lia..]. simpl.
  destruct (Z.eqb_spec (mapping m + o) 0); [lia|].
  assert (load 8 (mapping m + o) s = Ok (load_le 8 (mem s) (dt_shmid a) o, s)) as Hload.
  { destruct (proj1 (wp_ok (load 8 (mapping m + o)) (λ v s', v = load_le 8 (mem s) (dt_shmid a) o ∧ s' = s) s))
      as (v&s'&He&->&->); [|done]. by apply (wp_load _ (dt_shmid a)); [..|lia|lia|]. }
  rewrite (bind_ok _ _ _ _ _ Hload). apply IH; [|lia|done].
  intros o' Ho'. apply Hl. by right.
Qed.

Lemma get_bsd_ok pg a B F s m id b :
  bsd_st pg a B F s m id b → get_bsd a s = Ok ((bsd_amd a id, b), s).
Proof.
  intros Hst. destruct (proj1 (wp_ok (get_bsd a) (λ r s', r = (bsd_amd a id, b) ∧ s' = s) s))
    as (r&s'&He&->&->); [|done]. by eapply wp_get_bsd.
Qed.

(** [bsd_mstats] evaluates [BUCKSIZE(27)] on every arena, so [bsd_finalize]
    always reaches an undefined shift. *)
Theorem bsd_finalize_overflows pg a B F s m id b fuel :
  bsd_st pg a B F s m id b → (length F ≤ fuel)%nat →
  bsd_finalize fuel a s = Crash SignedOverflow.
Proof.
  intros Hst Hf. unfold bsd_finalize.
  pose proof (get_bsd_ok _ _ _ _ _ _ _ _ Hst) as Hget.
  rewrite (bind_ok _ _ _ _ _ Hget). unfold bsd_mstats, NBUCKETS.
  assert (∀ n i u f, 0 ≤ i → i + Z.of_nat n = 60 → i ≤ 27 →
    mstats_loop fuel (bsd_amd a id, b) n i u f s = Crash SignedOverflow) as Hloop.
  { induction n as [|n IH]; intros i u f Hi Hn H27; [lia|]. cbn [mstats_loop].
    destruct (Z.eq_dec i 27) as [->|]; [done|].
    unfold bucksize at 1. rewrite BUCKSIZE_some by lia. rewrite (bind_ok _ _ s (bsize i) s) by done.
    destruct (sd_chains _ _ _ _ _ _ _ _ Hst i) as (h&l&Hh&Hc&Hnd&Hl); [lia|]. simpl.
    rewrite Hh, (bind_ok _ _ s h s) by done.
    rewrite (sd_counts _ _ _ _ _ _ _ _ Hst) by lia.
    rewrite (bind_ok _ _ s (u64 (bucket_count B i)) s) by done.
    rewrite (bp_over _ _ (sd_pages _ _ _ _ _ _ _ _ Hst)).
    assert (length l ≤ length F)%nat as Hlen.
    { rewrite <-(length_fmap (λ o, (o, i)) l). apply submseteq_length, NoDup_submseteq.
      - apply NoDup_fmap_2; [|done]. by intros ?? [=].
      - intros x (o&->&Ho)%list_elem_of_fmap. by apply Hl. }
    destruct (mstats_walk_ok _ _ _ _ _ _ _ _ i l Hst (λ o, proj1 (Hl o)) fuel h (bsize i) 0)
      as [r Hr]; [lia|done|].
    rewrite (bind_ok _ _ _ _ _ Hr). destruct (_ && _); apply IH; lia. }
  unfold bindM at 1. rewrite Hloop by lia. done.
Qed.

(** List heads are aligned like the mapping, the magic number is not. *)
Lemma bsd_heads_aligned pg a B F s m id b bk head :
  bsd_st pg a B F s m id b → 0 ≤ bk < 60 → aget (nextf b) bk = Some head →
  mapping m mod alignsz = 0 → head mod alignsz = 0.
Proof.
  intros Hst Hb Hh Hal. destruct (sd_chains _ _ _ _ _ _ _ _ Hst bk Hb) as (h&l&Hh'&Hc&_&Hl).
  assert (h = head) as -> by congruence.
  destruct l as [|o l]; [simpl in Hc; by rewrite Hc|]. destruct Hc as (->&_).
  destruct (bsd_block _ _ _ _ _ _ _ _ (o, bk) Hst) as [(_&_&_&Ho) _];
    [apply elem_of_app; right; apply Hl; left|]. simpl in Ho. unfold alignsz in *.
  apply Z.mod_divide in Hal as [q Hq], Ho as [q' Hq']; try done.
  replace o with ((q' - q) * 16) by lia. by apply Z.mod_mul.
Qed.

Lemma aligned_not_magic head : head mod alignsz = 0 → OV_MAGIC (head mod 2 ^ 64) ≠ MAGIC.
Proof.
  unfold OV_MAGIC, MAGIC, alignsz. change 0xffff with (Z.ones 16).
  rewrite Z.land_ones by lia. intros Hal Heq.
  apply Z.mod_divide in Hal as [q ->]; [|done].
  assert ((q * 16) mod 2 ^ 64 mod 2 ^ 16 mod 16 = 5) as H5 by (rewrite Heq; done).
  change (2 ^ 64) with (16 * 2 ^ 60) in H5. change (2 ^ 16) with (16 * 2 ^ 12) in H5.
  rewrite (Z.mul_comm q), Zmult_mod_distr_l, Zmult_mod_distr_l in H5.
  rewrite Z.mul_comm, Z.mod_mul in H5; done.
Qed.

(** [bsd_malloc] picks the best bucket: for every request up to [2^62]
    bytes the search ends, with a bucket whose blocks hold the request behind
    their overhead, and no smaller bucket would. *)
Theorem pick_bucket_minimal b pg size s :
  bsd_pages b pg → 0 ≤ size ≤ 2 ^ 62 →
  ∃ bk, pick_bucket b size s = Ok (Some bk, s) ∧ 1 ≤ bk ≤ 59 ∧ size ≤ cap pg bk ∧
    ∀ bk', 1 ≤ bk' < bk → cap pg bk' < size.
Proof.
  intros Hp Hs. destruct (bsd_pages_bounds _ _ Hp) as [Hpg _].
  destruct (proj1 (wp_ok (pick_bucket b size) (λ ob s', s' = s ∧ ∃ bk, ob = Some bk ∧
    1 ≤ bk ≤ 59 ∧ bucket_for pg size bk) s)) as (?&?&He&->&bk&->&Hbk&Hc&Hor).
  { apply (wp_pick_bucket _ pg); [done..|]. intros bk ??. split; [done|]. by exists bk. }
  exists bk. split; [done|]. split; [done|]. split; [done|]. intros bk' Hb'.
  destruct Hor as [->|Hor]; [lia|]. pose proof (cap_mono pg bk' (bk - 1)). lia.
Qed.

(** A second free of the same block is rejected: on a segment mapped at
    an aligned address, the link that [bsd_free] stores in the overhead word
    never looks like the magic number, so freeing the reference again changes
    nothing and the free list does not become circular. *)
Theorem bsd_double_free pg a L x L' r s m :
  bsd_inv pg a L s → L ≡ₚ x :: L' → ref_of a x.1 r →
  aget (shmmap s) (dt_shmid a) = Some m → mapping m mod alignsz = 0 →
  wp (bsd_free a r) (λ _ s', bsd_inv pg a L' s' ∧ bsd_free a r s' = Ok (tt, s')) s.
Proof.
  intros Hinv HL Href Hm Hal. destruct (bsd_inv_block _ _ _ _ _ _ Hinv HL)
    as (y&B&B'&F&m'&id&b&->&HB&HL'&Hst).
  destruct (bsd_st_give _ _ _ _ _ _ _ _ _ _ Hst HB) as (head&Hh&Hst').
  destruct (bsd_free_exec _ _ _ _ _ _ _ _ _ _ _ Hst HB Href) as (head'&Hh'&Hex).
  assert (head' = head) as -> by congruence.
  eapply wp_mono; [exact Hex|]. intros [] s' ->. fold (given a id b B y head s) in Hst'.
  split; [by eexists B', _, m', id, _|].
  assert (m' = m) as -> by (destruct Hst, sd_geom0; congruence).
  destruct (proj1 (wp_ok (bsd_free a r) (λ _ t, t = given a id b B y head s)
    (given a id b B y head s))) as ([]&t&He&->); [|done].
  eapply (bsd_free_head _ _ _ _ _ _ _ _ _ _ _ Hst');
    [apply elem_of_app; right; left|exact Href|].
  assert (load_le 8 (mem (given a id b B y head s)) (dt_shmid a) y.1 = head mod 2 ^ 64) as Hw
    by apply (load_store_same 8).
  cbv zeta. change (load_le _ _ _ _) with
    (load_le 8 (mem (given a id b B y head s)) (dt_shmid a) y.1). rewrite Hw.
  rewrite (proj2 (Z.eqb_neq _ _)); [by apply wp_ret|].
  eapply aligned_not_magic, bsd_heads_aligned; [exact Hst| |exact Hh|done].
  assert (y ∈ B ++ F) as HyT by (apply elem_of_app; left; rewrite HB; left).
  destruct (bsd_block _ _ _ _ _ _ _ _ _ Hst HyT) as [(Hbk&_) _]. lia.
Qed.

(** A request beyond the largest bucket whose size fits an [int] does
    not fail: the search picks bucket 27 or more, and [bsd_morecore] evaluates
    [1 << (bucket + 4)] beyond the width of [int]. *)
Theorem bsd_malloc_large_overflows pg a L s size ref :
  bsd_inv pg a L s → cap pg 26 < size ≤ 2 ^ 62 →
  bsd_malloc a size ref s = Crash SignedOverflow.
Proof.
  intros (B&F&m&id&b&_&Hst) Hs. pose proof (sd_pages _ _ _ _ _ _ _ _ Hst) as Hp.
  destruct (bsd_pages_bounds _ _ Hp) as [Hpg _].
  pose proof (get_bsd_ok _ _ _ _ _ _ _ _ Hst) as Hget.
  pose proof (cap_bounds pg 26 ltac:(lia) ltac:(lia)) as [Hc26 _].
  destruct (proj1 (wp_ok (pick_bucket b size) (λ ob s', s' = s ∧ ∃ bk, ob = Some bk ∧
    1 ≤ bk ≤ 59 ∧ bucket_for pg size bk) s)) as (?&?&He&->&bk&->&Hbk&Hc&_).
  { apply (wp_pick_bucket _ pg); [done|lia|]. intros bk ??. split; [done|]. by exists bk. }
  assert (27 ≤ bk). { destruct (Z.lt_ge_cases bk 27); [|lia]. pose proof (cap_mono pg bk 26). lia. }
  pose proof (bsd_no_large _ _ _ _ _ _ _ _ bk Hst ltac:(lia)) as Hz.
  unfold bsd_malloc. rewrite (bind_ok _ _ _ _ _ Hget). simpl.
  rewrite (bind_ok _ _ _ _ _ He). unfold get_nextf at 1.
  rewrite (bind_ok _ _ s 0 s) by (rewrite (bind_ok _ _ _ _ _ Hget); simpl; by rewrite Hz).
  simpl. unfold bindM at 1. unfold bsd_morecore. rewrite (bind_ok _ _ _ _ _ Hget).
  rewrite (bp_min _ _ Hp). unfold NBUCKETS.
  destruct (Z.ltb_spec bk 1); [lia|]. destruct (Z.leb_spec 60 bk); [lia|]. simpl.
  unfold bucksize, bindM at 1. by rewrite BUCKSIZE_none by lia.
Qed.

(** An arena with one block in use, in bucket 1. *)
Definition demo_bsd_arena : dthread_shmref_t := Shmref 0 0x1000 0x3000.
Definition demo_bsd_md : bsd_malloc_md :=
  BsdMd 16 1 4096 8 (replicate 60 0) (aset (replicate 60 0) 1 1) 0x1440 0x2bc0.
Definition demo_bsd : sst :=
  Sst [Shmmap 0x10000 0 0x4000] None (Shmref 0 0 0) ∅
    {[ (0, 0x1000) := ArenaMd (bsd_amd demo_bsd_arena 1) (DrvBsd demo_bsd_md) ]}
    (store_le 8 (λ _ _, 0) 0 0x1420 (OV_MAGIDX 1)).

Lemma demo_pages : bsd_pages demo_bsd_md 4096.
Proof. by split. Qed.

Lemma demo_bsd_st : bsd_st 4096 demo_bsd_arena [(0x1420, 1)] [] demo_bsd
  (Shmmap 0x10000 0 0x4000) 1 demo_bsd_md.
Proof.
  split; try done.
  - split; try done. split.
    + intros [|i] m Hm; simplify_eq/=. done.
    + intros [|i] [|j] ?? Hij ??; simplify_eq/=.
  - repeat constructor; vm_compute; intuition discriminate.
  - repeat constructor.
  - intros bk Hb. exists 0, []. split; [|split; [done|split; [constructor|]]].
    + unfold aget. destruct (Z.leb_spec 0 bk); [|lia]. apply (lookup_replicate_2 60 0). lia.
    + intros o. split; intros Ho; by apply not_elem_of_nil in Ho.
  - intros x ->%list_elem_of_singleton. by vm_compute.
  - intros bk Hb. destruct (Z.eq_dec bk 1) as [->|]; [done|].
    unfold demo_bsd_md, nmalloc. rewrite aget_aset_ne by lia.
    unfold bucket_count, count_if. cbn [snd]. destruct (Z.eqb_spec 1 bk); [lia|].
    unfold aget. destruct (Z.leb_spec 0 bk); [|lia]. apply (lookup_replicate_2 60 0). lia.
Qed.

Lemma demo_bsd_inv : bsd_inv 4096 demo_bsd_arena [(0x1430, 16)] demo_bsd.
Proof. eexists _, _, _, _, _. split; [|exact demo_bsd_st]. done. Qed.

Lemma pick_bucket_minimal_witness :
  ∃ bk, pick_bucket demo_bsd_md 5000 demo_bsd = Ok (Some bk, demo_bsd) ∧ 1 ≤ bk ≤ 59 ∧
    5000 ≤ cap 4096 bk ∧ ∀ bk', 1 ≤ bk' < bk → cap 4096 bk' < 5000.
Proof. apply (pick_bucket_minimal _ 4096 5000); [apply demo_pages|lia]. Defined.

Lemma bsd_double_free_witness :
  wp (bsd_free demo_bsd_arena (Shmref 0 0x1430 0)) (λ _ s',
    bsd_inv 4096 demo_bsd_arena [] s' ∧
    bsd_free demo_bsd_arena (Shmref 0 0x1430 0) s' = Ok (tt, s')) demo_bsd.
Proof.
  apply (bsd_double_free 4096 _ [(0x1430, 16)] (0x1430, 16) [] _ _
    (Shmmap 0x10000 0 0x4000)); [apply demo_bsd_inv|done| |done|done].
  vm_compute; intuition discriminate.
Defined.

Lemma bsd_malloc_large_overflows_witness :
  bsd_malloc demo_bsd_arena (2 ^ 32) None demo_bsd = Crash SignedOverflow.
Proof.
  apply (bsd_malloc_large_overflows 4096 _ [(0x1430, 16)]); [apply demo_bsd_inv|].
  vm_compute; intuition discriminate.
Defined.
