(* ===== verification/ShmOps.v ===== *)
(** * Arenas and the public shared memory allocator

    The part of [libdthread/dt_shmops.c] after the drivers: the table of
    drivers, the default arena, [dthread_shm_new_arena], the argument checks
    and the public [malloc], [free] and [realloc] calls.  The theorems about
    programs and new arenas use the class [Driver] only; the theorem about
    [realloc] is proved for the two internal drivers. *)

From S2P Require Import Prelude Types ShmRef SegOps ShmAlloc BreakMalloc BsdMalloc.

Section Ops.
(** [dtrs->mop], the user-provided drivers; whether [SHM_DBG] messages are
    enabled; the page size; the rank; and the bound on the free-list walks of
    [bsd_mstats]. *)
Context (usrmops : list dthread_shm_alloc_ops_t) (shm_dbg : bool) (pagesize mpi_rank : Z)
  (fuel : nat).

Definition internal_mops : list dthread_shm_alloc_ops_t :=
  [break_ops; bsd_ops shm_dbg pagesize fuel].

Definition NINT_MOPS : Z := 2.

(** The first driver of the list called [name], counted from [lcv]. *)
Fixpoint find_mop (l : list dthread_shm_alloc_ops_t) (lcv : Z) (name : string) : option Z :=
  match l with
  | [] => None
  | o :: l => if String.eqb (mop_name o) name then Some lcv else find_mop l (lcv + 1) name
  end.

Definition dthread_get_mopid (name : string) : Z :=
  match find_mop usrmops 0 name with
  | Some lcv => NINT_MOPS + lcv
  | None => match find_mop internal_mops 0 name with Some lcv => lcv | None => -1 end
  end.

Definition mopid2ops (mopid : Z) : option dthread_shm_alloc_ops_t :=
  if mopid <? 0 then None
  else if mopid <? NINT_MOPS then aget internal_mops mopid
  else if mopid <? NINT_MOPS + Z.of_nat (length usrmops)
  then aget usrmops (mopid - NINT_MOPS)
  else None.

(** ** Default arena

    Both functions as one action: what a call does when no other call on the
    default arena runs meanwhile.  The locks and the single accesses, and calls
    that run at the same time, are in [DefArena]. *)

Definition dthread_shm_set_defaultarena (dflt : dthread_shmref_t) : M sst Z :=
  if negb (mpi_rank =? 0) then retM EPERM
  else
    d <- gets defarena ;;
    match d with
    | None => modify (λ s, s <| defarena := Some dflt |> <| da_src := dflt |>) ;;; retM 0
    | Some _ => retM EEXIST
    end.

Definition dthread_shm_get_defaultarena : M sst (option dthread_shmref_t) :=
  d <- gets defarena ;;
  match d with
  | Some a => retM (Some a)
  | None =>
      src <- gets da_src ;;
      if dt_length src =? 0 then retM None
      else
        modify (λ s, s <| defarena := Some src |>) ;;;
        gets defarena
  end.

(** ** New arenas *)

Definition dthread_shm_new_arena (shmid : Z) (shmalloc_name : string) (size : Z)
    (newarena : option dthread_shmref_t) : M sst (Z * option dthread_shmref_t) :=
  if negb (size =? 0) && (size <? pagesize) then retM (EINVAL, newarena)
  else
    let id := dthread_get_mopid shmalloc_name in
    if id <? 0 then retM (ENOENT, newarena)
    else
      match mopid2ops id with
      | None => retM (ENOENT, newarena)
      | Some mops =>
          r <- dthread_shmseg_alloc 0 shmid size newarena ;;
          let '(md, newarena) := r in
          if md =? 0 then retM (ENOMEM, newarena)
          else
            a <- get_some NullDeref newarena ;;
            sm <- gets shmmap ;;
            _ <- get_some OutOfBounds (locate sm md sizeof_alloc_md) ;;
            put_arena a (ArenaMd
              (Amd DTHREAD_SHM_MD_MAGIC a (u64 (dt_offset a + sizeof_alloc_md))
                 (u64 (dt_offset a + dt_length a)) 0 id) DrvNone) ;;;
            rv <- mop_init mops a ;;
            retM (rv, newarena)
      end.

(** ** Argument checks *)

(** The range and alignment test of an offset in the user area. *)
Definition bad_range (arena : dthread_shmref_t) (md : dthread_shm_alloc_md_t)
    (shmid offset align_of : Z) : bool :=
  negb (shmid =? dt_shmid arena) || (offset <? min_uoffset md)
  || (max_uoffset md <=? offset) || negb (Z.land align_of (badalign_bits md) =? 0).

(** [None]: a check failed; otherwise the driver, the arena and [*outptref]. *)
Definition dthread_shm_validate_args (arenap : option dthread_shmref_t) (ptr : Z)
    (inref : option dthread_shmref_t)
    : M sst (option (dthread_shm_alloc_ops_t * dthread_shmref_t * option dthread_shmref_t)) :=
  oarena <- match arenap with
            | Some a => retM (Some a)
            | None => dthread_shm_get_defaultarena
            end ;;
  match oarena with
  | None => retM None
  | Some arena =>
      sm <- gets shmmap ;;
      oam <- gets (arena_at arena) ;;
      match oam with
      | None => retM None
      | Some am =>
          let md := am_amd am in
          if (dthread_shmref2ptr sm (Some arena) sizeof_alloc_md =? 0)
             || negb (mdmagic md =? DTHREAD_SHM_MD_MAGIC)
             || negb (bool_decide (arena = amd_self md)) then retM None
          else
            match mopid2ops (mopid md) with
            | None => retM None
            | Some mops =>
                let '(ok, outptref) :=
                  if ptr =? 0 then (true, None)
                  else
                    match dthread_ptr2shmref sm ptr 0 with
                    | (0, Some r) =>
                        (negb (bad_range arena md (dt_shmid r) (dt_offset r) ptr), Some r)
                    | (_, r) => (false, r)
                    end in
                if negb ok then retM None
                else
                  match inref with
                  | Some r =>
                      if bad_range arena md (dt_shmid r) (dt_offset r) (dt_offset r)
                      then retM None else retM (Some (mops, arena, outptref))
                  | None => retM (Some (mops, arena, outptref))
                  end
            end
      end
  end.

(** ** Public operations *)

Definition dthread_shm_finalize_arena (arena : option dthread_shmref_t) : M sst Z :=
  v <- dthread_shm_validate_args arena 0 None ;;
  match v with
  | None => retM EINVAL
  | Some (mops, arena, _) => mop_finalize mops arena
  end.

Definition dthread_shm_malloc (arena : option dthread_shmref_t) (len : Z)
    (newref : option dthread_shmref_t) : M sst (Z * option dthread_shmref_t) :=
  v <- dthread_shm_validate_args arena 0 None ;;
  match v with
  | None => retM (0, newref)
  | Some (mops, arena, _) => mop_malloc mops arena len newref
  end.

Definition dthread_shm_free (arena : option dthread_shmref_t) (ptr : Z) : M sst unit :=
  if ptr =? 0 then retM tt
  else
    v <- dthread_shm_validate_args arena ptr None ;;
    match v with
    | None => retM tt
    | Some (mops, arena, oref) =>
        ref <- get_some NullDeref oref ;;
        mop_free mops arena ref
    end.

Definition dthread_shm_free_ref (arena ref : option dthread_shmref_t) : M sst unit :=
  match ref with
  | None => retM tt
  | Some r =>
      if dt_length r =? 0 then retM tt
      else
        v <- dthread_shm_validate_args arena 0 (Some r) ;;
        match v with
        | None => retM tt
        | Some (mops, arena, _) => mop_free mops arena r
        end
  end.

Definition dthread_shm_realloc (arena : option dthread_shmref_t) (ptr len : Z)
    (newref : option dthread_shmref_t) : M sst (Z * option dthread_shmref_t) :=
  if ptr =? 0 then dthread_shm_malloc arena len newref
  else
    v <- dthread_shm_validate_args arena ptr None ;;
    match v with
    | None => retM (0, newref)
    | Some (mops, arena, oref) =>
        ref <- get_some NullDeref oref ;;
        mop_realloc mops arena ref len newref
    end.

Definition dthread_shm_realloc_ref (arena inref : option dthread_shmref_t) (len : Z)
    (newref : option dthread_shmref_t) : M sst (Z * option dthread_shmref_t) :=
  match inref with
  | None => dthread_shm_malloc arena len newref
  | Some r =>
      if dt_length r =? 0 then dthread_shm_malloc arena len newref
      else
        v <- dthread_shm_validate_args arena 0 (Some r) ;;
        match v with
        | None => retM (0, newref)
        | Some (mops, arena, _) => mop_realloc mops arena r len newref
        end
  end.

(** ** Driver lookup *)

Lemma find_mop_Some l lcv name i :
  find_mop l lcv name = Some i →
  lcv ≤ i ∧ ∃ o, l !! Z.to_nat (i - lcv) = Some o ∧ mop_name o = name.
Proof using Type.
  revert lcv. induction l as [|o l IH]; intros lcv; simpl; [done|].
  destruct (String.eqb_spec (mop_name o) name) as [He|].
  - intros [= <-]. rewrite Z.sub_diag. split; [lia|]. by exists o.
  - intros (Hle&o'&Ho&Hn)%IH. split; [lia|]. exists o'. split; [|done].
    by replace (Z.to_nat (i - lcv)) with (S (Z.to_nat (i - (lcv + 1)))) by lia.
Qed.

(** The id of a name leads to a driver of that name. *)
Lemma mopid_lookup name :
  0 ≤ dthread_get_mopid name →
  ∃ o, mopid2ops (dthread_get_mopid name) = Some o ∧ mop_name o = name.
Proof using Type.
  unfold dthread_get_mopid, mopid2ops, NINT_MOPS, aget.
  destruct (find_mop usrmops 0 name) as [i|] eqn:E.
  - apply find_mop_Some in E as (Hi&o&Ho&Hn). rewrite Z.sub_0_r in Ho. intros _.
    apply lookup_lt_Some in Ho as Hlt.
    destruct (Z.ltb_spec (2 + i) 0); [lia|]. destruct (Z.ltb_spec (2 + i) 2); [lia|].
    destruct (Z.ltb_spec (2 + i) (2 + Z.of_nat (length usrmops))); [|lia].
    replace (2 + i - 2) with i by lia. destruct (Z.leb_spec 0 i); [|lia]. by exists o.
  - destruct (find_mop internal_mops 0 name) as [i|] eqn:E'; [|lia].
    apply find_mop_Some in E' as (Hi&o&Ho&Hn). rewrite Z.sub_0_r in Ho. intros _.
    apply lookup_lt_Some in Ho as Hlt. simpl in Hlt.
    destruct (Z.ltb_spec i 0); [lia|]. destruct (Z.ltb_spec i 2); [|lia].
    destruct (Z.leb_spec 0 i); [|lia]. by exists o.
Qed.

(** ** The argument checks on a driver's arena

    They need only that the driver's invariant is sound. *)
Section Checks.
Context (ops : dthread_shm_alloc_ops_t) (inv : dthread_shmref_t → list blk → sst → Prop).
Context (inv_sound : ∀ a L s, inv a L s → ∃ m am, arena_geom a m (shmmap s) ∧
  arena_ready a am s ∧ ForallOrdPairs blk_disjoint L ∧ Forall (blk_ok m am) L).

(** The arena's metadata names the driver. *)
Definition served (a : dthread_shmref_t) (s : sst) : Prop :=
  ∃ am, arena_at a s = Some am ∧ mopid2ops (mopid (am_amd am)) = Some ops.

Lemma served_outside a s s' : served a s → outside a s s' → served a s'.
Proof using Type.
  intros (am&Hat&Hops) Ho. destruct (os_mopid _ _ _ Ho _ Hat) as (am'&?&Hid).
  exists am'. by rewrite Hid.
Qed.

(** The checks of the metadata succeed. *)
Lemma metadata_checks a L s am :
  inv a L s → arena_at a s = Some am →
  (dthread_shmref2ptr (shmmap s) (Some a) sizeof_alloc_md =? 0)
    || negb (mdmagic (am_amd am) =? DTHREAD_SHM_MD_MAGIC)
    || negb (bool_decide (a = amd_self (am_amd am))) = false.
Proof using inv_sound.
  intros Hinv Hat. destruct (inv_sound _ _ _ Hinv) as (m&am'&Hg&[Hat' Hmag Hself Hmin Hmax _]&_).
  assert (am' = am) as -> by congruence. pose proof (geom_map_ok _ _ _ Hg) as (?&_&_).
  unfold sizeof_alloc_md in *. rewrite (arena_ptr a m); [|done|lia].
  destruct Hg. rewrite Hmag, Hself, Z.eqb_refl, bool_decide_true by done.
  destruct (Z.eqb_spec (mapping m + dt_offset a) 0); [lia|done].
Qed.

Lemma wp_validate a L s (Q : _ → sst → Prop) :
  inv a L s → served a s → Q (Some (ops, a, None)) s →
  wp (dthread_shm_validate_args (Some a) 0 None) Q s.
Proof using inv_sound.
  intros Hinv (am&Hat&Hops) HQ. unfold dthread_shm_validate_args.
  apply wp_bind, wp_ret, wp_bind, wp_gets, wp_bind, wp_gets. rewrite Hat.
  rewrite (metadata_checks _ _ _ _ Hinv Hat), Hops. by apply wp_ret.
Qed.

Lemma land_aligned z : z mod alignsz = 0 → Z.land z (alignsz - 1) = 0.
Proof using Type. change (alignsz - 1) with (Z.ones 4). by rewrite Z.land_ones. Qed.

Lemma block_in_range a L s am m b :
  inv a L s → arena_at a s = Some am → arena_geom a m (shmmap s) → b ∈ L → 0 < b.2 →
  min_uoffset (am_amd am) ≤ b.1 < max_uoffset (am_amd am) ∧
  max_uoffset (am_amd am) = dt_offset a + dt_length a ∧
  badalign_bits (am_amd am) = alignsz - 1 ∧ dt_offset a + 64 ≤ b.1 ∧
  b.1 + b.2 ≤ dt_offset a + dt_length a ∧ (mapping m + b.1) mod alignsz = 0.
Proof using inv_sound.
  intros Hinv Hat Hg Hb Hpos.
  destruct (inv_sound _ _ _ Hinv) as (m'&am'&Hg'&[Hat' _ _ Hmin Hmax Hbits]&_&Hblk).
  assert (am' = am) as -> by congruence. pose proof (geom_unique _ _ _ _ Hg Hg') as <-.
  rewrite Forall_forall in Hblk. destruct (Hblk b Hb) as (?&?&?&?).
  unfold sizeof_alloc_md in *. repeat split; try done; lia.
Qed.

Lemma wp_validate_ptr a L s m b (Q : _ → sst → Prop) :
  inv a L s → served a s → arena_geom a m (shmmap s) → b ∈ L → 0 < b.2 →
  Q (Some (ops, a, Some (Shmref (dt_shmid a) b.1 0))) s →
  wp (dthread_shm_validate_args (Some a) (mapping m + b.1) None) Q s.
Proof using inv_sound.
  intros Hinv (am&Hat&Hops) Hg Hb Hpos HQ.
  destruct (block_in_range _ _ _ _ _ _ Hinv Hat Hg Hb Hpos) as (?&?&Hbits&?&?&Hal).
  pose proof (geom_map_ok _ _ _ Hg) as (?&_&_). pose proof Hg as [].
  unfold dthread_shm_validate_args.
  apply wp_bind, wp_ret, wp_bind, wp_gets, wp_bind, wp_gets. rewrite Hat.
  rewrite (metadata_checks _ _ _ _ Hinv Hat), Hops.
  destruct (Z.eqb_spec (mapping m + b.1) 0); [lia|].
  pose proof ag_map as Hm. pose proof (aget_Some_range _ _ _ Hm). unfold aget in Hm.
  destruct (Z.leb_spec 0 (dt_shmid a)); [|lia].
  rewrite (ptr2shmref_complete _ _ m) by (done || lia).
  replace (Z.of_nat (Z.to_nat (dt_shmid a))) with (dt_shmid a) by lia.
  replace (mapping m + b.1 - mapping m) with b.1 by lia.
  unfold bad_range. cbn [dt_shmid dt_offset]. rewrite Z.eqb_refl, Hbits, land_aligned by done.
  destruct (Z.ltb_spec b.1 (min_uoffset (am_amd am))); [lia|].
  destruct (Z.leb_spec (max_uoffset (am_amd am)) b.1); [lia|]. simpl. by apply wp_ret.
Qed.

Lemma block_ref_of a L s m b :
  inv a L s → served a s → arena_geom a m (shmmap s) → b ∈ L → 0 < b.2 →
  ref_of a b.1 (Shmref (dt_shmid a) b.1 0).
Proof using inv_sound.
  intros Hinv (am&Hat&_) Hg Hb Hpos.
  destruct (block_in_range _ _ _ _ _ _ Hinv Hat Hg Hb Hpos) as (?&?&_).
  repeat split; simpl; lia.
Qed.

(** The checks of [dthread_shm_realloc] pass a held block on to the driver. *)
Lemma wp_realloc_checked a m L b n ref (Q : Z * option dthread_shmref_t → sst → Prop) s :
  inv a L s → served a s → arena_geom a m (shmmap s) → b ∈ L → 0 < b.2 →
  (∀ r, ref_of a b.1 r → wp (mop_realloc ops a r n ref) Q s) →
  wp (dthread_shm_realloc (Some a) (mapping m + b.1) n ref) Q s.
Proof using inv_sound.
  intros Hinv Hs Hg HbL Hb HQ. pose proof (block_ref_of _ _ _ _ _ Hinv Hs Hg HbL Hb) as Href.
  pose proof (geom_map_ok _ _ _ Hg) as (?&_&_). pose proof Hs as (am&Hat&_).
  destruct (block_in_range _ _ _ _ _ _ Hinv Hat Hg HbL Hb) as (_&_&_&?&_).
  pose proof (ag_off _ _ _ Hg).
  unfold dthread_shm_realloc. destruct (Z.eqb_spec (mapping m + b.1) 0); [lia|].
  apply wp_bind, (wp_validate_ptr _ _ _ _ _ _ Hinv Hs Hg HbL Hb).
  apply wp_bind. eapply wp_get_some; [done|]. by apply HQ.
Qed.
End Checks.

(** ** Clients of a driver *)
Section Client.
Context (ops : dthread_shm_alloc_ops_t) (max_len max_size : Z)
  (inv : dthread_shmref_t → list blk → sst → Prop)
  `{D : !Driver ops max_len max_size inv}.
#[local] Abbreviation served := (served ops).
#[local] Abbreviation wp_validate := (wp_validate ops inv drv_sound).
#[local] Abbreviation wp_validate_ptr := (wp_validate_ptr ops inv drv_sound).
#[local] Abbreviation block_ref_of := (block_ref_of ops inv drv_sound).
#[local] Abbreviation block_in_range := (block_in_range inv drv_sound).
#[local] Abbreviation served_outside := (served_outside ops).

Lemma shm_malloc_wp a m L n ref s :
  inv a L s → served a s → arena_geom a m (shmmap s) → 0 ≤ n ≤ max_size →
  wp (dthread_shm_malloc (Some a) n ref) (λ res s', outside a s s' ∧ keeps a L s s' ∧
    ((res = (0, ref) ∧ inv a L s') ∨
     ∃ b, alloc_result inv a m L n ref res b s')) s.
Proof using D.
  intros Hinv Hs Hg Hn. unfold dthread_shm_malloc.
  apply wp_bind, (wp_validate _ _ _ _ Hinv Hs). by apply drv_malloc.
Qed.

Lemma shm_free_wp a m L b L' s :
  inv a L s → served a s → arena_geom a m (shmmap s) → L ≡ₚ b :: L' → 0 < b.2 →
  wp (dthread_shm_free (Some a) (mapping m + b.1)) (λ _ s',
    outside a s s' ∧ keeps a L' s s' ∧ inv a L' s') s.
Proof using D.
  intros Hinv Hs Hg HL Hb. assert (b ∈ L) as HbL by (rewrite HL; left).
  pose proof (block_ref_of _ _ _ _ _ Hinv Hs Hg HbL Hb) as Href.
  pose proof (geom_map_ok _ _ _ Hg) as (?&_&_). pose proof Hs as (am&Hat&_).
  destruct (block_in_range _ _ _ _ _ _ Hinv Hat Hg HbL Hb) as (_&_&_&?&_).
  pose proof (ag_off _ _ _ Hg).
  unfold dthread_shm_free. destruct (Z.eqb_spec (mapping m + b.1) 0); [lia|].
  apply wp_bind, (wp_validate_ptr _ _ _ _ _ _ Hinv Hs Hg HbL Hb).
  apply wp_bind. eapply wp_get_some; [done|]. by eapply drv_free.
Qed.

Lemma shm_realloc_wp a m L b L' n ref s :
  inv a L s → served a s → arena_geom a m (shmmap s) → L ≡ₚ b :: L' → 0 < b.2 →
  0 ≤ n ≤ max_size →
  wp (dthread_shm_realloc (Some a) (mapping m + b.1) n ref) (λ res s', outside a s s' ∧
    ((res = (0, ref) ∧ inv a L s' ∧ keeps a L s s') ∨
     ∃ b', alloc_result inv a m L' n ref res b' s' ∧ keeps a L' s s' ∧
       ∀ i, 0 ≤ i < b.2 `min` n →
         mem s' (dt_shmid a) (b'.1 + i) = mem s (dt_shmid a) (b.1 + i))) s.
Proof using D.
  intros Hinv Hs Hg HL Hb Hn. assert (b ∈ L) as HbL by (rewrite HL; left).
  apply (wp_realloc_checked ops inv drv_sound a m L b); [done..|].
  intros r Hr. by eapply drv_realloc.
Qed.

(** ** Programs on a heap *)

(** What an application does with one arena; a block is named by its position
    in the list of blocks the application holds. *)
Inductive heap_op :=
  | HMalloc (n : Z)
  | HFree (i : nat)
  | HRealloc (i : nat) (n : Z)
  | HWrite (i : nat) (k v : Z).

(** The pointers the application holds, with the sizes it asked for. *)
Definition heap_exec (a : dthread_shmref_t) (op : heap_op) (live : list (Z * Z))
    : M sst (list (Z * Z)) :=
  match op with
  | HMalloc n =>
      r <- dthread_shm_malloc (Some a) n None ;;
      retM (if r.1 =? 0 then live else (r.1, n) :: live)
  | HFree i =>
      match live !! i with
      | None => retM live
      | Some (p, _) => dthread_shm_free (Some a) p ;;; retM (delete i live)
      end
  | HRealloc i n =>
      match live !! i with
      | None => retM live
      | Some (p, _) =>
          r <- dthread_shm_realloc (Some a) p n None ;;
          retM (if r.1 =? 0 then live else (r.1, n) :: delete i live)
      end
  | HWrite i k v =>
      match live !! i with
      | None => retM live
      | Some (p, n) =>
          if (0 <=? k) && (k <? n) then store 1 (p + k) v ;;; retM live else retM live
      end
  end.

Fixpoint heap_run (a : dthread_shmref_t) (tr : list heap_op) (live : list (Z * Z))
    : M sst (list (Z * Z)) :=
  match tr with
  | [] => retM live
  | op :: tr => live <- heap_exec a op live ;; heap_run a tr live
  end.

Definition op_ok (op : heap_op) : Prop :=
  match op with HMalloc n | HRealloc _ n => 0 < n ≤ max_size | _ => True end.

(** A held pointer and the driver's block behind it. *)
Definition held (m : dthread_shmmap_t) (x b : Z * Z) : Prop :=
  x.1 = mapping m + b.1 ∧ 0 < x.2 ≤ b.2.

Definition heap_ok (a : dthread_shmref_t) (m : dthread_shmmap_t) (live : list (Z * Z))
    (s : sst) : Prop :=
  arena_geom a m (shmmap s) ∧ served a s ∧ ∃ L, inv a L s ∧ Forall2 (held m) live L.

Lemma heap_ok_intro a m live L s s' :
  heap_ok a m live s → outside a s s' → ∀ live', inv a L s' → Forall2 (held m) live' L →
  heap_ok a m live' s'.
Proof using Type.
  intros (Hg&Hs&_) Ho live' Hinv Hh. split; [by rewrite (os_map _ _ _ Ho)|].
  split; [by eapply served_outside|]. by exists L.
Qed.

(** A pointer to a block is not null, so a result of 0 means failure. *)
Lemma block_ptr_nonnull a m live s b L' s' :
  heap_ok a m live s → inv a (b :: L') s' → mapping m + b.1 ≠ 0.
Proof using D.
  intros (Hg&_) Hinv Hz. destruct (drv_sound _ _ _ Hinv) as (m'&am&Hg'&[_ _ _ Hmin _ _]&_&Hblk).
  apply Forall_cons in Hblk as [(?&_) _]. pose proof (geom_map_ok _ _ _ Hg) as (?&_&_).
  pose proof (ag_off _ _ _ Hg). unfold sizeof_alloc_md in *. lia.
Qed.

Lemma heap_malloc_wp a m n live s :
  heap_ok a m live s → 0 < n ≤ max_size →
  wp (heap_exec a (HMalloc n) live) (heap_ok a m) s.
Proof using D.
  intros Hok Hn. pose proof Hok as (Hg&Hs&L&Hinv&Hh). simpl.
  apply wp_bind. eapply wp_mono; [apply (shm_malloc_wp a m L); [done..|lia]|].
  intros res s' (Ho&_&[(->&Hi)|(b&Hb&->&Hi)]); apply wp_ret; simpl.
  - by eapply heap_ok_intro.
  - destruct (Z.eqb_spec (mapping m + b.1) 0) as [Hz|]; [by eapply block_ptr_nonnull in Hz|].
    eapply heap_ok_intro; [done..|]. constructor; [|done]. split; simpl; [done|lia].
Qed.

Lemma heap_free_wp a m i live s :
  heap_ok a m live s → wp (heap_exec a (HFree i) live) (heap_ok a m) s.
Proof using D.
  intros Hok. pose proof Hok as (Hg&Hs&L&Hinv&Hh). simpl.
  destruct (live !! i) as [[p sz]|] eqn:Ei; [|by apply wp_ret].
  destruct (Forall2_lookup_l _ _ _ _ _ Hh Ei) as (b&Hb&[Hp Hsz]).
  simpl in Hp, Hsz. subst p.
  pose proof (delete_Permutation _ _ _ Hb) as HP.
  apply wp_bind. eapply wp_mono; [apply (shm_free_wp a m L b (delete i L)); [done..|lia]|].
  intros [] s' (Ho&_&Hi). apply wp_ret. eapply heap_ok_intro; [done..|].
  by apply Forall2_delete.
Qed.

Lemma heap_realloc_wp a m i n live s :
  heap_ok a m live s → 0 < n ≤ max_size →
  wp (heap_exec a (HRealloc i n) live) (heap_ok a m) s.
Proof using D.
  intros Hok Hn. pose proof Hok as (Hg&Hs&L&Hinv&Hh). simpl.
  destruct (live !! i) as [[p sz]|] eqn:Ei; [|by apply wp_ret].
  destruct (Forall2_lookup_l _ _ _ _ _ Hh Ei) as (b&Hb&[Hp Hsz]).
  simpl in Hp, Hsz. subst p.
  pose proof (delete_Permutation _ _ _ Hb) as HP.
  apply wp_bind. eapply wp_mono;
    [apply (shm_realloc_wp a m L b (delete i L)); [done..|lia|lia]|].
  intros res s' (Ho&[(->&Hi&_)|(b'&(Hb'&->&Hi)&_)]); apply wp_ret; simpl.
  - by eapply heap_ok_intro.
  - destruct (Z.eqb_spec (mapping m + b'.1) 0) as [Hz|]; [by eapply block_ptr_nonnull in Hz|].
    eapply heap_ok_intro; [done..|]. constructor; [split; simpl; [done|lia]|].
    by apply Forall2_delete.
Qed.

Lemma heap_write_wp a m i k v live s :
  heap_ok a m live s → wp (heap_exec a (HWrite i k v) live) (heap_ok a m) s.
Proof using D.
  intros Hok. pose proof Hok as (Hg&Hs&L&Hinv&Hh). simpl.
  destruct (live !! i) as [[p sz]|] eqn:Ei; [|by apply wp_ret].
  destruct (Forall2_lookup_l _ _ _ _ _ Hh Ei) as (b&Hb&[Hp Hsz]).
  simpl in Hp, Hsz. subst p.
  destruct ((0 <=? k) && (k <? sz)) eqn:Ek; [|by apply wp_ret].
  breflect. assert (b ∈ L) as HbL by by eapply list_elem_of_lookup_2.
  pose proof Hs as (am&Hat&_).
  destruct (block_in_range _ _ _ _ _ _ Hinv Hat Hg HbL) as (_&_&_&?&?&_); [lia|].
  pose proof Hg as []. rewrite <-Z.add_assoc.
  apply wp_bind, (wp_store _ (dt_shmid a)); [done|done|lia|lia|]. apply wp_ret.
  split; [done|]. split; [done|]. exists L. split; [|done].
  apply (drv_write a L s b (b.1 + k) (v mod 256)); [done|done|]. unfold in_blk. lia.
Qed.

Lemma heap_run_wp a m tr live s :
  heap_ok a m live s → Forall op_ok tr → wp (heap_run a tr live) (heap_ok a m) s.
Proof using D.
  intros Hok Htr. revert live s Hok.
  induction Htr as [|op tr Hop Htr IH]; intros live s Hok; simpl; [by apply wp_ret|].
  apply wp_bind. eapply (wp_mono _ (heap_ok a m)); [|by apply IH]. destruct op.
  - by apply heap_malloc_wp.
  - by apply heap_free_wp.
  - by apply heap_realloc_wp.
  - by apply heap_write_wp.
Qed.

(** What the application may rely on: its blocks lie in the arena behind the
    metadata, aligned, and do not overlap. *)
Definition heap_good (a : dthread_shmref_t) (m : dthread_shmmap_t) (live : list (Z * Z)) : Prop :=
  ForallOrdPairs blk_disjoint live ∧
  Forall (λ x, mapping m + dt_offset a + sizeof_alloc_md ≤ x.1 ∧
    x.1 + x.2 ≤ mapping m + dt_offset a + dt_length a ∧ x.1 mod alignsz = 0) live.

Lemma held_pairs m live L :
  Forall2 (held m) live L → ForallOrdPairs blk_disjoint L → ForallOrdPairs blk_disjoint live.
Proof using Type.
  induction 1 as [|x b live L [Hx Hsz] Hh IH]; intros Hd; [constructor|].
  apply pairs_cons in Hd as [Hb Hd]. constructor; [|by apply IH].
  apply Forall_forall. intros y Hy. apply list_elem_of_lookup in Hy as [i Hi].
  destruct (Forall2_lookup_l _ _ _ _ _ Hh Hi) as (c&Hc&[Hy' ?]).
  rewrite Forall_forall in Hb. specialize (Hb c (list_elem_of_lookup_2 _ _ _ Hc)).
  unfold blk_disjoint in *. lia.
Qed.

Lemma heap_ok_good a m live s : heap_ok a m live s → heap_good a m live.
Proof using D.
  intros (Hg&(am0&Hat&_)&L&Hinv&Hh).
  destruct (drv_sound _ _ _ Hinv) as (m'&am&Hg'&[_ _ _ Hmin Hmax _]&Hd&Hblk).
  pose proof (geom_unique _ _ _ _ Hg Hg') as <-. split; [by eapply held_pairs|].
  apply Forall_forall. intros x Hx. apply list_elem_of_lookup in Hx as [i Hi].
  destruct (Forall2_lookup_l _ _ _ _ _ Hh Hi) as (b&Hb&[-> ?]).
  rewrite Forall_forall in Hblk.
  destruct (Hblk b (list_elem_of_lookup_2 _ _ _ Hb)) as (?&?&?&?).
  unfold sizeof_alloc_md in *. repeat split; [lia|lia|done].
Qed.
End Client.
End Ops.

(** ** New arenas are in place *)

(** A segment allocation of [size] bytes is the place of an arena. *)
Lemma seg_result_geom shmid size na s res s' :
  segs_ok s → maps_ok (shmmap s) → 0 < size → sizeof_alloc_md ≤ size →
  shmmap s' = shmmap s → seg_result shmid size (Some na) s res s' →
  (res = (0, Some na) ∧ s' = s) ∨
  ∃ m a, res = (mapping m + dt_offset a, Some a) ∧ mapping m + dt_offset a ≠ 0 ∧
    dt_shmid a = shmid ∧ arena_geom a m (shmmap s') ∧ ref_in_room s a ∧
    size ≤ dt_length a ≤ size + alignsz ∧ is_u64 (dt_offset a + dt_length a).
Proof.
  intros Hok Hmaps Hsz H64 Hmap Hres. unfold seg_result in Hres.
  destruct (seg_room shmid s) as [lo hi] eqn:Hr. case_decide as Hd; [|by left]. right.
  destruct Hres as ((m&Hm&Hp&Hal&Hend)&Href&Hw&_).
  destruct (Hok _ _ Hm) as (md&Hmd&[_ _ (?&?&?) ? ? _]).
  pose proof (seg_room_eq _ _ _ _ Hm Hmd) as He. rewrite Hr in He. injection He as -> ->.
  pose proof (align_pad_bounds size). unfold seg_total, sizeof_alloc_md in *.
  destruct (Z.eqb_spec size 0); [lia|].
  exists m, (Shmref shmid (first_avail md) (size + align_pad size)). destruct res as [p r].
  simpl in *. subst p r. split; [done|]. split; [lia|]. split; [done|].
  split; [split; simpl; rewrite ?Hmap; done || lia|].
  split; [unfold ref_in_room; simpl; rewrite Hr; lia|]. unfold is_u64. simpl. lia.
Qed.

(** ** Arenas of the internal drivers *)

(** The driver with id [id] keeps the blocks [L] in arena [a]. *)
Inductive driver_heap (pagesize : Z) (a : dthread_shmref_t) (L : list blk) (s : sst)
    : Z → Prop :=
  | HeapBreak : break_inv a L s → driver_heap pagesize a L s 0
  | HeapBsd : page_ok pagesize → bsd_inv pagesize a L s → driver_heap pagesize a L s 1.

Definition internal_heap (pagesize id : Z) (a : dthread_shmref_t) (L : list blk) (s : sst)
    : Prop :=
  (∃ am, arena_at a s = Some am ∧ mopid (am_amd am) = id) ∧ driver_heap pagesize a L s id.

(** The sizes and references [dthread_shm_realloc] may be called with. *)
Definition request_ok (shm_dbg : bool) (id n : Z) (ref : option dthread_shmref_t) : Prop :=
  if id =? 0 then 0 ≤ n ≤ break_max_size
  else 0 ≤ n ≤ bsd_max_size ∧ (shm_dbg = false ∨ ref ≠ None).

(** The public call around a driver's [realloc]. *)
Lemma internal_realloc usrmops shm_dbg pagesize fuel ops inv
    (inv_sound : ∀ a L s, inv a L s → ∃ m am, arena_geom a m (shmmap s) ∧
      arena_ready a am s ∧ ForallOrdPairs blk_disjoint L ∧ Forall (blk_ok m am) L)
    id a m L b L' n ref s :
  mopid2ops usrmops shm_dbg pagesize fuel id = Some ops →
  (∃ am, arena_at a s = Some am ∧ mopid (am_amd am) = id) → inv a L s →
  arena_geom a m (shmmap s) → L ≡ₚ b :: L' → 0 < b.2 →
  (∀ K t, inv a K t → driver_heap pagesize a K t id) →
  (∀ r, ref_of a b.1 r → wp (mop_realloc ops a r n ref) (λ res s', outside a s s' ∧
    ((res = (0, ref) ∧ inv a L s' ∧ keeps a L s s' ∧
        mop_malloc ops a n ref s = Ok ((0, ref), s')) ∨
     ∃ b', alloc_result inv a m L' n ref res b' s' ∧ keeps a L' s s' ∧
       ∀ i, 0 ≤ i < b.2 `min` n →
         mem s' (dt_shmid a) (b'.1 + i) = mem s (dt_shmid a) (b.1 + i))) s) →
  wp (dthread_shm_realloc usrmops shm_dbg pagesize fuel (Some a) (mapping m + b.1) n ref)
    (λ res s',
      (res = (0, ref) ∧ internal_heap pagesize id a L s' ∧ keeps a L s s' ∧
        dthread_shm_malloc usrmops shm_dbg pagesize fuel (Some a) n ref s = Ok ((0, ref), s')) ∨
      ∃ b', n ≤ b'.2 ∧
        res = (mapping m + b'.1, _ ← ref; Some (Shmref (dt_shmid a) b'.1 n)) ∧
        internal_heap pagesize id a (b' :: L') s' ∧ keeps a L' s s' ∧
        ∀ i, 0 ≤ i < b.2 `min` n →
          mem s' (dt_shmid a) (b'.1 + i) = mem s (dt_shmid a) (b.1 + i)) s.
Proof.
  intros Hops (am&Hat&Hid) Hinv Hg HL Hb Hheap Hre.
  assert (served usrmops shm_dbg pagesize fuel ops a s) as Hs by (exists am; by rewrite Hid).
  eapply wp_mono.
  { apply (wp_realloc_checked _ _ _ _ ops inv inv_sound a m L b); [done..| |done|exact Hre].
    rewrite HL. left. }
  assert (∀ K t, outside a s t → inv a K t → internal_heap pagesize id a K t) as Hih.
  { intros K t Ho HK. split; [|by apply Hheap].
    destruct (os_mopid _ _ _ Ho _ Hat) as (am'&?&?). exists am'. split; [done|congruence]. }
  intros res s' (Ho&[(->&?&?&Hm)|(b'&(?&->&?)&?&?)]).
  - left. split; [done|]. split; [by apply Hih|]. split; [done|].
    pose proof (wp_validate usrmops shm_dbg pagesize fuel ops inv inv_sound a L s
      (λ r t, r = Some (ops, a, None) ∧ t = s) Hinv Hs (conj eq_refl eq_refl)) as Hv.
    unfold wp in Hv. unfold dthread_shm_malloc, bindM.
    by destruct (dthread_shm_validate_args _ _ _ _ _ _ _ _) as [[r t]|];
      [destruct Hv as [-> ->]|].
  - right. exists b'. split; [done|]. split; [done|]. split; [by apply Hih|]. by split.
Qed.

(** ** Claims *)

(** C16. Programs on an arena are safe with every driver that keeps the
    interface ("break", and "bsd" while [SHM_DBG] logging is off, see
    [break_driver] and [bsd_driver]): from an empty arena, any sequence of
    [dthread_shm_malloc], [dthread_shm_free], [dthread_shm_realloc] and writes
    into held blocks runs without a fault, and the blocks held at the end lie in
    the arena behind its metadata, are aligned and do not overlap. *)
Theorem heap_trace_safe usrmops shm_dbg pagesize fuel ops max_len max_size inv
    `{D : !Driver ops max_len max_size inv} a m s tr :
  inv a [] s → arena_geom a m (shmmap s) → served usrmops shm_dbg pagesize fuel ops a s →
  Forall (op_ok max_size) tr →
  ∃ live s', heap_run usrmops shm_dbg pagesize fuel a tr [] s = Ok (live, s') ∧ heap_good a m live.
Proof.
  intros Hinv Hg Hs Htr. apply wp_ok. eapply wp_mono.
  - apply (heap_run_wp usrmops shm_dbg pagesize fuel ops max_len max_size inv a m tr []); [|done].
    split; [done|]. split; [done|]. by exists [].
  - intros live s' Hok. by eapply heap_ok_good.
Qed.

(** C22. [dthread_shm_realloc] keeps the data, with the "break" and the "bsd"
    driver: on a block in use it either returns [NULL], leaves every block as
    it was, and does so only when [dthread_shm_malloc] of the new size would
    return [NULL] too; or it returns a block of at least the new size, stored in
    [*newref], whose first bytes, up to the smaller of the two sizes, are those
    of the old block, while the old block is no longer in use and all other
    blocks keep their contents.  With [SHM_DBG] logging on, "bsd" needs a
    [newref] that is not [NULL]; sizes are at most [2^30] ("bsd") or
    [2^64 - 32] ("break"). *)
Theorem shm_realloc_keeps_data usrmops shm_dbg pagesize fuel id a m L b L' n ref s :
  internal_heap pagesize id a L s → arena_geom a m (shmmap s) →
  L ≡ₚ b :: L' → 0 < b.2 → request_ok shm_dbg id n ref →
  wp (dthread_shm_realloc usrmops shm_dbg pagesize fuel (Some a) (mapping m + b.1) n ref)
    (λ res s',
      (res = (0, ref) ∧ internal_heap pagesize id a L s' ∧ keeps a L s s' ∧
        dthread_shm_malloc usrmops shm_dbg pagesize fuel (Some a) n ref s = Ok ((0, ref), s')) ∨
      ∃ b', n ≤ b'.2 ∧
        res = (mapping m + b'.1, _ ← ref; Some (Shmref (dt_shmid a) b'.1 n)) ∧
        internal_heap pagesize id a (b' :: L') s' ∧ keeps a L' s s' ∧
        ∀ i, 0 ≤ i < b.2 `min` n →
          mem s' (dt_shmid a) (b'.1 + i) = mem s (dt_shmid a) (b.1 + i)) s.
Proof.
  intros [Hid Hheap] Hg HL Hb Hreq. destruct Hheap as [Hinv|Hpg Hinv].
  - apply (internal_realloc usrmops shm_dbg pagesize fuel break_ops break_inv break_sound);
      [done..| |]; [by intros; constructor|].
    intros r Hr. by eapply break_realloc_wp.
  - destruct Hreq. apply (internal_realloc usrmops shm_dbg pagesize fuel
      (bsd_ops shm_dbg pagesize fuel) (bsd_inv pagesize) (bsd_sound pagesize));
      [done..| |]; [by intros; constructor|].
    intros r Hr. by eapply bsd_realloc_wp.
Qed.

(** Debug logging makes the call fault: growing a "bsd" block with a [NULL]
    [newref], which every caller may pass, reads [newref->dt_offset]. *)
Lemma realloc_log_null_deref :
  dthread_shm_realloc [] true 4096 0 (Some demo_bsd_arena) 0x11430 100 None demo_bsd
    = Crash NullDeref.
Proof. vm_compute. reflexivity. Qed.

(** A new arena is ready for use: with a registered driver that keeps the
    interface, [dthread_shm_new_arena] either reports [ENOMEM] or returns an
    arena of at least the wanted size, taken from the unused part of the
    segment, whose metadata names the driver and which has no block in use. *)
Theorem new_arena_ready usrmops shm_dbg pagesize fuel ops max_len max_size inv
    `{D : !Driver ops max_len max_size inv} shmid name size na s :
  segs_ok s → maps_ok (shmmap s) → 0 ≤ shmid →
  pagesize ≤ size → sizeof_alloc_md ≤ size ≤ 2 ^ 64 - alignsz → size + alignsz ≤ max_len →
  0 ≤ dthread_get_mopid usrmops shm_dbg pagesize fuel name →
  mopid2ops usrmops shm_dbg pagesize fuel (dthread_get_mopid usrmops shm_dbg pagesize fuel name) = Some ops →
  wp (dthread_shm_new_arena usrmops shm_dbg pagesize fuel shmid name size (Some na)) (λ res s',
    segs_ok s' ∧
    (res.1 = ENOMEM ∨
     res.1 = 0 ∧ ∃ a, res.2 = Some a ∧ dt_shmid a = shmid ∧ size ≤ dt_length a ∧
       ref_in_room s a ∧ inv a [] s' ∧ served usrmops shm_dbg pagesize fuel ops a s')) s.
Proof.
  intros Hok Hmaps Hid Hpg Hsz Hml Hmop Hops. unfold dthread_shm_new_arena.
  destruct (Z.ltb_spec size pagesize); [lia|]. rewrite andb_false_r.
  destruct (Z.ltb_spec (dthread_get_mopid usrmops shm_dbg pagesize fuel name) 0); [lia|].
  rewrite Hops. apply wp_bind. eapply wp_mono; [apply segalloc_wp; [done|done| |done]|].
  { unfold sizeof_alloc_md, alignsz in *. lia. }
  intros res s1 (Hres&Hok1&Hmap1&_).
  assert (0 < size) as Hpos by (unfold sizeof_alloc_md in *; lia).
  destruct (seg_result_geom _ _ _ _ _ _ Hok Hmaps Hpos
    (proj1 Hsz) Hmap1 Hres) as [[-> ->]|(m&a&->&Hp&Hsh&Hg&Hroom&Hlen&Hu)].
  { simpl. apply wp_ret. split; [done|by left]. }
  destruct (Z.eqb_spec (mapping m + dt_offset a) 0); [done|].
  pose proof Hg as []. unfold sizeof_alloc_md, is_u64 in *.
  apply wp_bind. eapply wp_get_some; [done|]. apply wp_bind, wp_gets, wp_bind.
  eapply wp_get_some; [apply (locate_some _ (dt_shmid a) m);
    [done|done|lia|done|lia|unfold sizeof_alloc_md; lia]|].
  rewrite !u64_small by lia. apply wp_bind, wp_modify, wp_bind. eapply wp_mono.
  { apply (drv_init a m (dthread_get_mopid usrmops shm_dbg pagesize fuel name) DrvNone); [done|lia|].
    unfold arena_at. simpl. by rewrite lookup_insert_eq. }
  intros rc s2 (Ho&Hrc). apply wp_ret. split.
  { intros k m' Hk. unfold segmd_at. rewrite (os_seg _ _ _ Ho). rewrite (os_map _ _ _ Ho) in Hk.
    by apply Hok1. }
  destruct Hrc as [[-> Hinv]| ->]; [|by left]. right. split; [done|].
  exists a. split; [done|]. split; [done|]. split; [lia|]. split; [done|]. split; [done|].
  eapply served_outside; [|exact Ho]. eexists. unfold arena_at. simpl.
  by rewrite lookup_insert_eq.
Qed.

(** The two internal drivers on concrete states. *)

Lemma page_4096 : page_ok 4096.
Proof. exists 8. split; [lia|done]. Qed.

Lemma heap_trace_safe_witness :
  ∃ live s', heap_run [] true 4096 0 demo_bsd_arena
      [HMalloc 100; HMalloc 5000; HWrite 0 4999 7; HFree 1; HRealloc 0 20; HFree 9] []
      (Sst [Shmmap 0x10000 0 0x4000] None (Shmref 0 0 0) ∅
        {[ (0, 0x1000) := ArenaMd (break_amd demo_bsd_arena 0) (DrvBreak (BreakMd 80 16 0)) ]}
        (λ _ _, 0)) = Ok (live, s') ∧
    heap_good demo_bsd_arena (Shmmap 0x10000 0 0x4000) live.
Proof.
  assert (arena_geom demo_bsd_arena (Shmmap 0x10000 0 0x4000) [Shmmap 0x10000 0 0x4000]) as Hg.
  { destruct demo_geom. by split. }
  apply (heap_trace_safe [] true 4096 0 break_ops break_max_len break_max_size break_inv).
  - eexists _, _, _. split; try done; try constructor; try done; exact Hg.
  - exact Hg.
  - eexists. split; [reflexivity|]. reflexivity.
  - repeat constructor; vm_compute; intuition discriminate.
Defined.

Lemma shm_realloc_keeps_data_witness :
  wp (dthread_shm_realloc [] true 4096 0 (Some demo_bsd_arena) 0x11430 100
        (Some (Shmref 0 0 0))) (λ res s',
    (res = (0, Some (Shmref 0 0 0)) ∧
      internal_heap 4096 1 demo_bsd_arena [(0x1430, 16)] s' ∧
      keeps demo_bsd_arena [(0x1430, 16)] demo_bsd s' ∧
      dthread_shm_malloc [] true 4096 0 (Some demo_bsd_arena) 100 (Some (Shmref 0 0 0)) demo_bsd
        = Ok ((0, Some (Shmref 0 0 0)), s')) ∨
    ∃ b', 100 ≤ b'.2 ∧ res = (0x10000 + b'.1, Some (Shmref 0 b'.1 100)) ∧
      internal_heap 4096 1 demo_bsd_arena [b'] s' ∧
      keeps demo_bsd_arena [] demo_bsd s' ∧
      ∀ i, 0 ≤ i < 16 `min` 100 → mem s' 0 (b'.1 + i) = mem demo_bsd 0 (0x1430 + i)) demo_bsd.
Proof.
  apply (shm_realloc_keeps_data [] true 4096 0 1 demo_bsd_arena (Shmmap 0x10000 0 0x4000)
    [(0x1430, 16)] (0x1430, 16) []); [|apply demo_bsd_st|done|done|].
  - split; [by eexists|]. constructor; [apply page_4096|apply demo_bsd_inv].
  - split; [unfold bsd_max_size; lia|by right].
Defined.

Lemma new_arena_ready_witness :
  wp (dthread_shm_new_arena [] false 4096 0 0 "bsd" 8192 (Some (Shmref 0 0 0))) (λ res s',
    segs_ok s' ∧
    (res.1 = ENOMEM ∨
     res.1 = 0 ∧ ∃ a, res.2 = Some a ∧ dt_shmid a = 0 ∧ 8192 ≤ dt_length a ∧
       ref_in_room demo_seg a ∧ bsd_inv 4096 a [] s' ∧
       served [] false 4096 0 (bsd_ops false 4096 0) a s')) demo_seg.
Proof.
  apply (new_arena_ready [] false 4096 0 (bsd_ops false 4096 0) (2 ^ 64) bsd_max_size (bsd_inv 4096)
    (D := bsd_driver 4096 0 page_4096)); try done; [apply demo_seg_ok|].
  apply demo_geom.
Defined.
