(* ===== verification/DefArena.v ===== *)
(** * The default arena under concurrency

    [dthread_shm_set_defaultarena] and [dthread_shm_get_defaultarena] of
    [libdthread/dt_shmops.c] as a state machine.  Every rank has its own
    [arenalock], [defarena] and [da_store] ([dt_internal.h]); [da_src] is one
    reference in shared memory that the ranks read and write without a common
    lock.  A step is one access to memory that other calls use: a structure
    assignment is three steps, one for each of its 64-bit words, in any order.
    Any number of calls on any ranks run interleaved, one access after the
    other (the model is sequentially consistent).

    [ShmOps] has the same two functions as single actions, for code in which
    no other call runs meanwhile; [set_alone] and [get_alone] show that a call
    of the machine does the same then. *)

From S2P Require Import Prelude Types ShmRef SegOps ShmAlloc BreakMalloc BsdMalloc ShmOps.

(** ** State *)

(** What one rank keeps in [dtrs]; [p_lock] is the call that holds
    [arenalock], and [p_set] says that [defarena] is [&da_store]. *)
Record dproc := Dproc {
  p_lock : option nat;
  p_set : bool;
  p_store : dthread_shmref_t }.

#[export] Instance dproc_eta : Eta dproc := λ p, Dproc (p_lock p) (p_set p) (p_store p).

Inductive word := Wshmid | Woffset | Wlength.
#[export] Instance word_eq_dec : EqDecision word.
Proof. solve_decision. Defined.

Definition words : list word := [Wshmid; Woffset; Wlength].

Definition word_of (w : word) (r : dthread_shmref_t) : Z :=
  match w with Wshmid => dt_shmid r | Woffset => dt_offset r | Wlength => dt_length r end.

(** One word of the assignment [to = from]. *)
Definition copy_word (w : word) (from to : dthread_shmref_t) : dthread_shmref_t :=
  match w with
  | Wshmid => Shmref (dt_shmid from) (dt_offset to) (dt_length to)
  | Woffset => Shmref (dt_shmid to) (dt_offset from) (dt_length to)
  | Wlength => Shmref (dt_shmid to) (dt_offset to) (dt_length from)
  end.

Definition drop_word (w : word) (todo : list word) : list word := filter (.≠ w) todo.

Inductive dop := DSet (dflt : dthread_shmref_t) | DGet.

(** [RGet found]: [&da_store], or [NULL]. *)
Inductive dres := RSet (rv : Z) | RGet (found : bool).

(** Where a call is; [todo] are the words an assignment has still to copy. *)
Inductive dpc :=
  | SRank                        (* if (dtrs->mpi_rank) *)
  | SLock                        (* pthread_mutex_lock *)
  | STest                        (* if (dtrs->defarena == NULL) *)
  | SStore (todo : list word)    (* da_store = *dflt; then defarena = &da_store *)
  | SSrc (todo : list word)      (* *da_src = *dflt *)
  | SUnlock (rv : Z)             (* pthread_mutex_unlock *)
  | GFast                        (* if (dtrs->defarena) *)
  | GLen                         (* if (da_src->dt_length == 0) *)
  | GLock                        (* pthread_mutex_lock *)
  | GTest                        (* dtrs->defarena == NULL && *)
  | GTest2                       (* dtrs->da_src->dt_length *)
  | GCopy (todo : list word)     (* da_store = *da_src; then defarena = &da_store *)
  | GUnlock                      (* pthread_mutex_unlock *)
  | GRet                         (* return(dtrs->defarena) *)
  | Ret (res : dres).            (* the call has returned *)

Record dcall := Dcall { k_rank : nat; k_op : dop; k_pc : dpc }.

Record darena := Darena {
  d_procs : list dproc;
  d_src : dthread_shmref_t;
  d_calls : list dcall }.

(** ** The code *)

(** The next step of call [i] of [dthread_shm_set_defaultarena(dflt)] on rank
    [r]; [w] is the word that an assignment copies next.  [None]: the lock is
    taken, or there is no such step. *)
Definition set_step (w : word) (i r : nat) (dflt : dthread_shmref_t) (c : dpc)
    (p : dproc) (src : dthread_shmref_t) : option (dpc * dproc * dthread_shmref_t) :=
  match c with
  | SRank => Some (if Z.of_nat r =? 0 then SLock else Ret (RSet EPERM), p, src)
  | SLock =>
      match p_lock p with
      | None => Some (STest, p <| p_lock := Some i |>, src)
      | Some _ => None
      end
  | STest => Some (if p_set p then SUnlock EEXIST else SStore words, p, src)
  | SStore [] => Some (SSrc words, p <| p_set := true |>, src)
  | SStore todo =>
      if decide (w ∈ todo)
      then Some (SStore (drop_word w todo), p <| p_store := copy_word w dflt (p_store p) |>, src)
      else None
  | SSrc [] => Some (SUnlock 0, p, src)
  | SSrc todo =>
      if decide (w ∈ todo)
      then Some (SSrc (drop_word w todo), p, copy_word w dflt src)
      else None
  | SUnlock rv => Some (Ret (RSet rv), p <| p_lock := None |>, src)
  | _ => None
  end.

(** The next step of a call of [dthread_shm_get_defaultarena]; it never writes
    [da_src]. *)
Definition get_step (w : word) (i : nat) (c : dpc) (p : dproc) (src : dthread_shmref_t)
    : option (dpc * dproc) :=
  match c with
  | GFast => Some (if p_set p then GRet else GLen, p)
  | GLen => Some (if dt_length src =? 0 then Ret (RGet false) else GLock, p)
  | GLock =>
      match p_lock p with
      | None => Some (GTest, p <| p_lock := Some i |>)
      | Some _ => None
      end
  | GTest => Some (if p_set p then GUnlock else GTest2, p)
  | GTest2 => Some (if dt_length src =? 0 then GUnlock else GCopy words, p)
  | GCopy [] => Some (GUnlock, p <| p_set := true |>)
  | GCopy todo =>
      if decide (w ∈ todo)
      then Some (GCopy (drop_word w todo), p <| p_store := copy_word w src (p_store p) |>)
      else None
  | GUnlock => Some (GRet, p <| p_lock := None |>)
  | GRet => Some (Ret (RGet (p_set p)), p)
  | _ => None
  end.

Definition call_step (w : word) (i : nat) (k : dcall) (p : dproc) (src : dthread_shmref_t)
    : option (dpc * dproc * dthread_shmref_t) :=
  match k_op k with
  | DSet dflt => set_step w i (k_rank k) dflt (k_pc k) p src
  | DGet => '(c, p) ← get_step w i (k_pc k) p src; Some (c, p, src)
  end.

Definition entry (op : dop) : dpc := match op with DSet _ => SRank | DGet => GFast end.

(** What a caller may pass: an arena is not empty. *)
Definition op_valid (op : dop) : bool :=
  match op with DSet dflt => negb (dt_length dflt =? 0) | DGet => true end.

(** A new call on rank [r], and a step of call [i]. *)
Inductive devent := Begin (r : nat) (op : dop) | Step (i : nat) (w : word).

Definition advance (e : devent) (J : darena) : option darena :=
  match e with
  | Begin r op =>
      _ ← d_procs J !! r;
      if op_valid op
      then Some (Darena (d_procs J) (d_src J) (d_calls J ++ [Dcall r op (entry op)]))
      else None
  | Step i w =>
      k ← d_calls J !! i;
      p ← d_procs J !! k_rank k;
      '(c, p, src) ← call_step w i k p (d_src J);
      Some (Darena (<[k_rank k := p]> (d_procs J)) src
              (<[i := Dcall (k_rank k) (k_op k) c]> (d_calls J)))
  end.

Fixpoint drun (es : list devent) (J : darena) : option darena :=
  match es with [] => Some J | e :: es => J ← advance e J; drun es J end.

(** A step of a call in progress; a step or a new call. *)
Definition dstep (J J' : darena) : Prop := ∃ i w, advance (Step i w) J = Some J'.
Definition dmove (J J' : darena) : Prop := ∃ e, advance e J = Some J'.
Definition reaches : darena → darena → Prop := rtc dmove.

(** All ranks before any call: no default is set, the local copies hold
    anything, and the length of the shared reference is zero. *)
Definition boot (src0 : dthread_shmref_t) (stores : list dthread_shmref_t) : darena :=
  Darena (Dproc None false <$> stores) src0 [].

(** ** Words *)

Lemma word_of_ext r r' : (∀ w, word_of w r = word_of w r') → r = r'.
Proof.
  intros H. pose proof (H Wshmid). pose proof (H Woffset). pose proof (H Wlength).
  destruct r, r'; simpl in *; congruence.
Qed.

Lemma word_of_copy w w' from to :
  word_of w' (copy_word w from to) = word_of w' (if decide (w = w') then from else to).
Proof. by destruct w, w'. Qed.

Lemma in_words w : w ∈ words.
Proof. unfold words. destruct w; repeat ((by left) || right). Qed.

Lemma elem_of_drop w w' todo : w' ∈ drop_word w todo ↔ w' ≠ w ∧ w' ∈ todo.
Proof. unfold drop_word. by rewrite list_elem_of_filter. Qed.

Lemma drop_shorter w todo : w ∈ todo → (length (drop_word w todo) < length todo)%nat.
Proof.
  intros Hw. unfold drop_word. induction todo as [|x todo IH]; [by apply not_elem_of_nil in Hw|].
  destruct (decide (x = w)) as [->|Hne].
  - rewrite filter_cons_False by (intros H; by apply H). simpl.
    pose proof (length_filter (.≠ w) todo). lia.
  - rewrite filter_cons_True by done. apply elem_of_cons in Hw as [->|Hw]; [done|].
    simpl. specialize (IH Hw). lia.
Qed.

(** Every word of [r] outside [todo] is that of [a]. *)
Definition copied (todo : list word) (a r : dthread_shmref_t) : Prop :=
  ∀ w, w ∉ todo → word_of w r = word_of w a.

Lemma copied_all a r : copied [] a r → r = a.
Proof. intros H. apply word_of_ext. intros w. apply H, not_elem_of_nil. Qed.

Lemma copied_step w todo a r : copied todo a r → copied (drop_word w todo) a (copy_word w a r).
Proof.
  intros H w' Hw. rewrite word_of_copy. case_decide as Hd; [done|]. apply H.
  intros Hin. apply Hw, elem_of_drop. by split.
Qed.

Lemma copied_words a r : copied words a r.
Proof. intros w Hw. destruct Hw. apply in_words. Qed.

(** ** Calls that run alone *)

(** The view of rank [r]'s default arena that the actions of [ShmOps] have. *)
Definition proc_view (s : sst) (p : dproc) (src : dthread_shmref_t) : sst :=
  s <| defarena := (if p_set p then Some (p_store p) else None) |> <| da_src := src |>.

(** Call [i] takes all the steps. *)
Fixpoint solo (ws : list word) (i : nat) (k : dcall) (p : dproc) (src : dthread_shmref_t)
    : option (dcall * dproc * dthread_shmref_t) :=
  match ws with
  | [] => Some (k, p, src)
  | w :: ws =>
      '(c, p, src) ← call_step w i k p src;
      solo ws i (Dcall (k_rank k) (k_op k) c) p src
  end.

Lemma drun_solo ws i r P C : (r < length P)%nat → (i < length C)%nat → ∀ k p src k' p' src',
  k_rank k = r → solo ws i k p src = Some (k', p', src') →
  drun (Step i <$> ws) (Darena (<[r := p]> P) src (<[i := k]> C))
    = Some (Darena (<[r := p']> P) src' (<[i := k']> C)).
Proof.
  intros Hr Hi. induction ws as [|w ws IH]; intros k p src k' p' src' Hk; simpl; [congruence|].
  rewrite list_lookup_insert_eq by done. simpl. rewrite Hk, list_lookup_insert_eq by done. simpl.
  destruct (call_step w i k p src) as [[[c q] src1]|]; simpl; [|done].
  rewrite !list_insert_insert_eq. by apply IH.
Qed.

(** The words in the order of the fields. *)
Definition set_order : list word :=
  [Wshmid; Wshmid; Wshmid] ++ words ++ [Wshmid] ++ words ++ [Wshmid; Wshmid].
Definition get_order : list word :=
  [Wshmid; Wshmid; Wshmid; Wshmid; Wshmid] ++ words ++ [Wshmid; Wshmid; Wshmid].

(** A call that runs alone is the action of [ShmOps]. *)
Lemma set_alone s i r a p src : p_lock p = None →
  ∃ n rv p' src',
    solo (take n set_order) i (Dcall r (DSet a) SRank) p src
      = Some (Dcall r (DSet a) (Ret (RSet rv)), p', src') ∧
    p_lock p' = None ∧
    dthread_shm_set_defaultarena (Z.of_nat r) a (proc_view s p src)
      = Ok (rv, proc_view s p' src').
Proof.
  destruct p as [l set st]. simpl. intros ->. destruct r as [|r].
  - destruct set.
    + exists 4%nat. repeat eexists.
    + exists 12%nat, 0, (Dproc None true a), a. by destruct a.
  - exists 1%nat. repeat eexists.
Qed.

Lemma get_alone s i r p src : p_lock p = None →
  ∃ n p',
    solo (take n get_order) i (Dcall r DGet GFast) p src
      = Some (Dcall r DGet (Ret (RGet (p_set p'))), p', src) ∧
    p_lock p' = None ∧
    dthread_shm_get_defaultarena (proc_view s p src)
      = Ok (if p_set p' then Some (p_store p') else None, proc_view s p' src).
Proof.
  destruct p as [l set st]. simpl. intros ->. destruct set.
  - exists 2%nat, (Dproc None true st). done.
  - unfold dthread_shm_get_defaultarena, bindM, gets, proc_view. simpl.
    destruct (dt_length src =? 0) eqn:E.
    + exists 2%nat, (Dproc None false st). simpl. by rewrite E.
    + exists 11%nat, (Dproc None true src). simpl. rewrite E. simpl. rewrite E. by destruct src.
Qed.

(** ** Locks and kinds of calls *)

(** Steps at which the call holds [arenalock]. *)
Definition crit (c : dpc) : bool :=
  match c with
  | STest | SStore _ | SSrc _ | SUnlock _ | GTest | GTest2 | GCopy _ | GUnlock => true
  | _ => false
  end.

Definition kind_ok (k : dcall) : Prop :=
  match k_op k with
  | DSet a => dt_length a ≠ 0 ∧
      match k_pc k with
      | SRank => True
      | SLock | STest | SStore _ | SSrc _ => k_rank k = 0%nat
      | SUnlock rv => k_rank k = 0%nat ∧ (rv = 0 ∨ rv = EEXIST)
      | Ret (RSet rv) =>
          k_rank k ≠ 0%nat ∧ rv = EPERM ∨ k_rank k = 0%nat ∧ (rv = 0 ∨ rv = EEXIST)
      | _ => False
      end
  | DGet =>
      match k_pc k with
      | GFast | GLen | GLock | GTest | GTest2 | GCopy _ | GUnlock | GRet | Ret (RGet _) => True
      | _ => False
      end
  end.

Record base_ok (J : darena) : Prop := {
  bo_call i k : d_calls J !! i = Some k → (k_rank k < length (d_procs J))%nat ∧ kind_ok k;
  bo_lock r p i : d_procs J !! r = Some p → (p_lock p = Some i ↔
    ∃ k, d_calls J !! i = Some k ∧ k_rank k = r ∧ crit (k_pc k) = true) }.

(** A step, taken apart. *)
Definition stepped (J : darena) (i : nat) (k : dcall) (c : dpc) (p : dproc)
    (src : dthread_shmref_t) : darena :=
  Darena (<[k_rank k := p]> (d_procs J)) src
    (<[i := Dcall (k_rank k) (k_op k) c]> (d_calls J)).

Lemma step_inv i w J J' : advance (Step i w) J = Some J' →
  ∃ k p c p' src, d_calls J !! i = Some k ∧ d_procs J !! k_rank k = Some p ∧
    call_step w i k p (d_src J) = Some (c, p', src) ∧ J' = stepped J i k c p' src.
Proof.
  simpl. destruct (d_calls J !! i) as [k|] eqn:Hk; [|done]. simpl.
  destruct (d_procs J !! k_rank k) as [p|] eqn:Hp; [|done]. simpl.
  destruct (call_step w i k p (d_src J)) as [[[c p'] src]|] eqn:Hs; [|done]. simpl.
  intros [= <-]. by exists k, p, c, p', src.
Qed.

Lemma begin_inv r op J J' : advance (Begin r op) J = Some J' →
  (r < length (d_procs J))%nat ∧ op_valid op = true ∧
  J' = Darena (d_procs J) (d_src J) (d_calls J ++ [Dcall r op (entry op)]).
Proof.
  simpl. destruct (d_procs J !! r) as [p|] eqn:Hp; [|done]. simpl.
  apply lookup_lt_Some in Hp. destruct (op_valid op); [|done]. by intros [= <-].
Qed.

(** Case analysis on a step of a call. *)
Ltac step_cases H :=
  unfold call_step, set_step, get_step in H;
  repeat (case_match; simplify_eq/=; try done).

Lemma kind_step w i k p src c p' src' :
  kind_ok k → call_step w i k p src = Some (c, p', src') →
  kind_ok (Dcall (k_rank k) (k_op k) c).
Proof.
  unfold kind_ok. destruct k as [r op c0]. simpl. intros Hk Hs. step_cases Hs.
  all: try (destruct Hk as [? ?]; split; [done|]; simpl in *; try done; try lia; auto).
  all: naive_solver.
Qed.

(** What a step does to the lock. *)
Lemma lock_step w i k p src c p' src' :
  call_step w i k p src = Some (c, p', src') →
  (crit c = crit (k_pc k) ∧ p_lock p' = p_lock p) ∨
  (crit (k_pc k) = false ∧ crit c = true ∧ p_lock p = None ∧ p_lock p' = Some i) ∨
  (crit (k_pc k) = true ∧ crit c = false ∧ p_lock p' = None).
Proof. destruct k as [r op c0]. simpl. intros Hs. step_cases Hs; auto 6. Qed.

Lemma crit_unique J i j k k' : base_ok J →
  d_calls J !! i = Some k → d_calls J !! j = Some k' → k_rank k = k_rank k' →
  crit (k_pc k) = true → crit (k_pc k') = true → i = j.
Proof.
  intros HJ Hi Hj Hr Hc Hc'. destruct (bo_call _ HJ i k Hi) as [Hlt _].
  apply lookup_lt_is_Some in Hlt as [p Hp].
  assert (p_lock p = Some i) as H1 by (apply (bo_lock _ HJ _ _ _ Hp); eauto).
  assert (p_lock p = Some j) as H2 by (apply (bo_lock _ HJ _ _ _ Hp); eauto).
  congruence.
Qed.

Lemma base_step i w J J' : base_ok J → advance (Step i w) J = Some J' → base_ok J'.
Proof.
  intros HJ (k&p&c&p'&src&Hk&Hp&Hs&->)%step_inv. pose proof (lock_step _ _ _ _ _ _ _ _ Hs) as Hl.
  destruct (bo_call _ HJ _ _ Hk) as [Hlt Hkind]. pose proof (bo_lock _ HJ _ _ i Hp) as Hi.
  split; simpl; rewrite ?length_insert.
  - intros j k' Hj. apply list_lookup_insert_Some in Hj as [(<-&<-&_)|[_ Hj]];
      [|by eapply bo_call].
    split; [done|]. by eapply kind_step.
  - intros r q j Hq. apply list_lookup_insert_Some in Hq as [(<-&<-&_)|[Hr Hq]].
    + pose proof (bo_lock _ HJ _ _ j Hp) as Hj. destruct (decide (i = j)) as [<-|Hne].
      * rewrite list_lookup_insert_eq by (by eapply lookup_lt_Some).
        destruct Hl as [[Hc ->]|[(Hc&Hc'&_&->)|(_&Hc&->)]].
        -- rewrite Hj, Hk. simpl. split; intros (?&[= <-]&?&?); simpl in *;
             eexists; split; try reflexivity; simpl; split; congruence.
        -- split; [|done]. intros _. by eexists.
        -- split; [done|]. intros (?&[= <-]&_&?). simpl in *. congruence.
      * rewrite list_lookup_insert_ne by done. rewrite <-Hj.
        destruct Hl as [[Hc ->]|[(_&_&->&->)|(Hc&_&->)]]; [done|split; congruence|].
        assert (p_lock p = Some i) as Hpi by (apply Hi; eauto). split; congruence.
    + rewrite (bo_lock _ HJ _ _ j Hq). destruct (decide (i = j)) as [<-|Hne].
      * rewrite list_lookup_insert_eq by (by eapply lookup_lt_Some).
        split; intros (k'&Hk'&<-&_); simplify_eq/=.
      * by rewrite list_lookup_insert_ne.
Qed.

Lemma base_begin r op J J' : base_ok J → advance (Begin r op) J = Some J' → base_ok J'.
Proof.
  intros HJ (Hr&Hop&->)%begin_inv.
  assert (kind_ok (Dcall r op (entry op))) as Hnew.
  { destruct op as [a|]; [|done]. split; [|done]. simpl in Hop. intros He. by rewrite He in Hop. }
  split; simpl.
  - intros i k Hi. apply lookup_app_Some in Hi as [Hi|[_ Hi]]; [by eapply bo_call|].
    apply list_lookup_singleton_Some in Hi as [_ <-]. done.
  - intros r' p i Hp. rewrite (bo_lock _ HJ _ _ i Hp). split; intros (k&Hk&?&Hc).
    + exists k. split; [by apply lookup_app_l_Some|done].
    + apply lookup_app_Some in Hk as [Hk|[_ Hk]]; [by exists k|].
      apply list_lookup_singleton_Some in Hk as [_ <-]. by destruct op.
Qed.

Lemma base_boot src0 stores : base_ok (boot src0 stores).
Proof.
  split; simpl; [intros i k Hi; by rewrite lookup_nil in Hi|]. intros r p i Hp.
  apply list_lookup_fmap_Some in Hp as (st&->&_). simpl. split; [done|].
  intros (k&Hk&_). by rewrite lookup_nil in Hk.
Qed.

(** ** Publication *)

(** The call has found [defarena] unset and sets it. *)
Definition eff (k : dcall) : bool :=
  match k_pc k with
  | SStore _ | SSrc _ => true
  | SUnlock rv | Ret (RSet rv) => rv =? 0
  | _ => false
  end.

(** The call has seen a default arena or a length in [da_src]. *)
Definition late (c : dpc) : bool :=
  match c with
  | GLock | GTest | GTest2 | GCopy _ | GUnlock | GRet | Ret (RGet true) => true
  | SUnlock rv | Ret (RSet rv) => rv =? EEXIST
  | _ => false
  end.

Section Inv.
Context (src0 : dthread_shmref_t) (Hsrc0 : dt_length src0 = 0).

Record quiet (J : darena) : Prop := {
  q_src : d_src J = src0;
  q_procs r p : d_procs J !! r = Some p → p_set p = false;
  q_calls i k : d_calls J !! i = Some k → late (k_pc k) = false }.

(** A local copy, as far as it is made: each word is the old or the new one,
    and the length is the new one. *)
Definition torn (todo : list word) (a r : dthread_shmref_t) : Prop :=
  (∀ w, w ∉ todo → word_of w r = word_of w src0 ∨ word_of w r = word_of w a) ∧
  (Wlength ∉ todo → dt_length r = dt_length a).

(** What a call of [dthread_shm_get_defaultarena] knows; the words [todo] of
    [da_src] are not written yet. *)
Definition get_ok (todo : list word) (a : dthread_shmref_t) (c : dpc) (p : dproc) : Prop :=
  match c with
  | GLock | GTest => Wlength ∉ todo
  | GTest2 => (Wlength ∉ todo) ∧ p_set p = false
  | GCopy t => (Wlength ∉ todo) ∧ p_set p = false ∧ torn t a (p_store p)
  | GUnlock | GRet | Ret (RGet true) => p_set p = true
  | _ => True
  end.

Record published (J : darena) (a : dthread_shmref_t) (todo : list word) : Prop := {
  o_len : dt_length a ≠ 0;
  o_src w : word_of w (d_src J) = word_of w (if decide (w ∈ todo) then src0 else a);
  o_zero p : d_procs J !! 0%nat = Some p → p_set p = true ∧ p_store p = a;
  o_procs r p : d_procs J !! r = Some p → p_set p = true → torn [] a (p_store p);
  o_calls i k p : d_calls J !! i = Some k → d_procs J !! k_rank k = Some p →
    get_ok todo a (k_pc k) p }.

Definition no_eexist (J : darena) : Prop :=
  ∀ i k, d_calls J !! i = Some k → k_pc k ≠ SUnlock EEXIST ∧ k_pc k ≠ Ret (RSet EEXIST).

(** The state, from where the call is that sets [a]. *)
Definition winner_ok (J : darena) (a : dthread_shmref_t) (c : dpc) : Prop :=
  match c with
  | SStore t => quiet J ∧ ∀ p, d_procs J !! 0%nat = Some p → copied t a (p_store p)
  | SSrc t => published J a t ∧ no_eexist J
  | SUnlock rv => rv = 0 ∧ published J a [] ∧ no_eexist J
  | Ret (RSet rv) => rv = 0 ∧ published J a []
  | _ => False
  end.

Inductive status (J : darena) : Prop :=
  | StNone : (∀ i k, d_calls J !! i = Some k → eff k = false) → quiet J → status J
  | StWon i k a : d_calls J !! i = Some k → k_op k = DSet a →
      (∀ j k', d_calls J !! j = Some k' → eff k' = true → j = i) →
      winner_ok J a (k_pc k) → status J.

(** *** Steps of the phases *)

Lemma quiet_step J i k p c p' :
  quiet J → d_procs J !! k_rank k = Some p → p_set p' = false → late c = false →
  quiet (stepped J i k c p' (d_src J)).
Proof.
  intros [Hs Hp Hc] Hk Hset Hl. split; simpl; [done| |].
  - intros r q Hq. apply list_lookup_insert_Some in Hq as [(_&<-&_)|[_ Hq]]; [done|by eapply Hp].
  - intros j k' Hj. apply list_lookup_insert_Some in Hj as [(_&<-&_)|[_ Hj]]; [done|by eapply Hc].
Qed.

(** Before the publication a call of [dthread_shm_get_defaultarena] finds
    nothing. *)
Lemma quiet_get w i k p c p' src J :
  quiet J → d_calls J !! i = Some k → d_procs J !! k_rank k = Some p → k_op k = DGet →
  kind_ok k → call_step w i k p (d_src J) = Some (c, p', src) →
  p' = p ∧ src = d_src J ∧ late c = false ∧ eff (Dcall (k_rank k) (k_op k) c) = false.
Proof using Hsrc0.
  intros [Hs Hp Hc] Hk Hkp Hop Hkind Hstep. specialize (Hc _ _ Hk). specialize (Hp _ _ Hkp).
  unfold call_step in Hstep. rewrite Hop in Hstep. unfold kind_ok in Hkind. rewrite Hop in Hkind.
  rewrite Hs in *. destruct (k_pc k); simpl in *; try done; simplify_eq/=.
  - by rewrite Hp.
  - by rewrite Hsrc0.
Qed.

(** Other calls of the rank keep what they know. *)
Lemma get_ok_mono todo a c p p' :
  (p_set p' = p_set p ∧ p_store p' = p_store p) ∨
    (crit c = false ∧ (p_set p = true → p_set p' = true)) →
  get_ok todo a c p → get_ok todo a c p'.
Proof.
  intros Hp. unfold get_ok. destruct Hp as [[-> ->]|[Hc Hset]]; [done|].
  destruct c; simpl in *; try done; auto. destruct res as [|[]]; auto.
Qed.

Lemma published_step J i k p c p' a todo :
  base_ok J → published J a todo →
  d_calls J !! i = Some k → d_procs J !! k_rank k = Some p →
  (p_set p' = p_set p ∧ p_store p' = p_store p) ∨
    (crit (k_pc k) = true ∧ p_set p = false ∧ torn [] a (p_store p') ∨
     crit (k_pc k) = true ∧ p_set p = false ∧ p_set p' = false) →
  get_ok todo a c p' →
  published (stepped J i k c p' (d_src J)) a todo.
Proof.
  intros HJ [Hlen Hs Hz Hps Hcs] Hk Hp Hcase Hc. split; simpl; [done|done| | |].
  - intros q Hq. apply list_lookup_insert_Some in Hq as [(Hr&<-&_)|[_ Hq]]; [|by apply Hz].
    rewrite Hr in Hp. destruct (Hz _ Hp) as [? ?].
    destruct Hcase as [[-> ->]|[(_&?&_)|(_&?&_)]]; [done|congruence..].
  - intros r q Hq. apply list_lookup_insert_Some in Hq as [(Hr&<-&_)|[_ Hq]]; [|by eapply Hps].
    destruct Hcase as [[-> ->]|[(_&_&?)|(_&_&->)]]; [by eapply Hps|done..].
  - intros j k' q Hj Hq.
    apply list_lookup_insert_Some in Hj as [(<-&<-&_)|[Hne Hj]]; simpl in *.
    { rewrite list_lookup_insert_eq in Hq by (by eapply lookup_lt_Some). by injection Hq as <-. }
    apply list_lookup_insert_Some in Hq as [(Hr&<-&_)|[_ Hq]]; [|by eapply Hcs].
    rewrite Hr in Hp. eapply get_ok_mono; [|by eapply Hcs].
    destruct Hcase as [?|Hcase]; [by left|]. right.
    assert (crit (k_pc k) = true ∧ p_set p = false) as [Hcr Hpf]
      by (by destruct Hcase as [(?&?&_)|(?&?&_)]).
    split; [|congruence]. destruct (crit (k_pc k')) eqn:E; [|done].
    destruct Hne. by apply (crit_unique J i j k k').
Qed.

Lemma published_len J a todo :
  published J a todo → dt_length (d_src J) ≠ 0 → Wlength ∉ todo.
Proof using Hsrc0.
  intros HJ Hl Hw. pose proof (o_src _ _ _ HJ Wlength) as H. simpl in H.
  rewrite decide_True in H by done. congruence.
Qed.

Lemma torn_step J a todo w t r :
  published J a todo → Wlength ∉ todo → torn t a r →
  torn (drop_word w t) a (copy_word w (d_src J) r).
Proof.
  intros HJ Hl [Hw Hlen]. assert (∀ w, word_of w (d_src J) = word_of w src0 ∨
    word_of w (d_src J) = word_of w a) as Hsrc.
  { intros v. rewrite (o_src _ _ _ HJ v). case_decide; auto. }
  assert (dt_length (d_src J) = dt_length a) as Hla.
  { pose proof (o_src _ _ _ HJ Wlength) as H. by rewrite decide_False in H. }
  split.
  - intros v Hv. rewrite word_of_copy. case_decide; [by apply Hsrc|]. apply Hw.
    intros Hin. apply Hv, elem_of_drop. by split.
  - intros Hv. destruct (decide (w = Wlength)) as [->|]; [done|].
    replace (dt_length (copy_word w (d_src J) r)) with (dt_length r) by by destruct w.
    apply Hlen. intros Hin. apply Hv, elem_of_drop. by split.
Qed.

Lemma published_len_src J a todo :
  published J a todo → Wlength ∉ todo → dt_length (d_src J) ≠ 0.
Proof.
  intros HJ Hl. pose proof (o_src _ _ _ HJ Wlength) as H. simpl in H.
  rewrite decide_False in H by done. rewrite H. apply HJ.
Qed.

(** Steps of [dthread_shm_get_defaultarena] after the publication began. *)
Lemma get_step_ok w i c0 p c p' J a todo :
  published J a todo → get_ok todo a c0 p → get_step w i c0 p (d_src J) = Some (c, p') →
  get_ok todo a c p' ∧
  ((p_set p' = p_set p ∧ p_store p' = p_store p) ∨
    (crit c0 = true ∧ p_set p = false ∧ torn [] a (p_store p') ∨
     crit c0 = true ∧ p_set p = false ∧ p_set p' = false)).
Proof using Hsrc0.
  intros HP Hg Hs. pose proof (published_len J a todo HP) as Hlen.
  pose proof (published_len_src J a todo HP) as Hsrc.
  unfold get_step in Hs. destruct c0 as [| | | | | | | | | | |[|v t]| | |]; simpl in Hg;
    try done; simplify_eq/=; auto.
  - case_match; simpl; auto.
  - destruct (Z.eqb_spec (dt_length (d_src J)) 0); simpl; auto.
  - destruct (p_lock p); simplify_eq/=; auto.
  - case_match; simpl; auto.
  - destruct Hg as [Hg ?].
    destruct (Z.eqb_spec (dt_length (d_src J)) 0) as [Hz|]; [by destruct (Hsrc Hg)|].
    split; [|auto]. split; [done|]. split; [done|].
    split; [intros v Hv|intros Hv]; destruct Hv; apply in_words.
  - destruct Hg as (_&?&?). split; [done|]. right. left. auto.
  - destruct Hg as (?&?&?). case_decide; simplify_eq/=. split; [|auto 6].
    split; [done|]. split; [done|]. by apply (torn_step J a todo w (v :: t)).
  - case_match; auto.
Qed.

(** *** The status is kept *)

Lemma published_get w i k p c p' src J a todo :
  base_ok J → published J a todo →
  d_calls J !! i = Some k → d_procs J !! k_rank k = Some p → k_op k = DGet →
  call_step w i k p (d_src J) = Some (c, p', src) →
  published (stepped J i k c p' src) a todo.
Proof using Hsrc0.
  intros HJ HP Hk Hp Hop Hstep. unfold call_step in Hstep. rewrite Hop in Hstep.
  destruct (get_step w i (k_pc k) p (d_src J)) as [[c1 p1]|] eqn:Hs; simplify_eq/=.
  destruct (get_step_ok _ _ _ _ _ _ _ _ _ HP (o_calls _ _ _ HP _ _ _ Hk Hp) Hs) as [Hg Hc].
  eapply published_step; eauto.
Qed.

Lemma get_pc w i k p src c p' src' :
  k_op k = DGet → call_step w i k p src = Some (c, p', src') →
  eff (Dcall (k_rank k) (k_op k) c) = false ∧ c ≠ SUnlock EEXIST ∧ c ≠ Ret (RSet EEXIST).
Proof using Type.
  intros Hop Hs. unfold call_step in Hs. rewrite Hop in Hs. unfold get_step in Hs.
  repeat (case_match; simplify_eq/=; try done).
Qed.

Lemma no_eexist_step J i k c p src :
  no_eexist J → c ≠ SUnlock EEXIST → c ≠ Ret (RSet EEXIST) → no_eexist (stepped J i k c p src).
Proof using Type.
  intros HJ H1 H2 j k' Hj. simpl in Hj.
  apply list_lookup_insert_Some in Hj as [(_&<-&_)|[_ Hj]]; [done|by eapply HJ].
Qed.

Lemma quiet_no_eexist J : quiet J → no_eexist J.
Proof using Type.
  intros [_ _ Hc] i k Hi. specialize (Hc i k Hi). split; intros E; by rewrite E in Hc.
Qed.

(** A step of another call than the winner. *)
Lemma status_other J i k c p src i0 k0 a :
  i ≠ i0 → d_calls J !! i0 = Some k0 → k_op k0 = DSet a →
  (∀ j k', d_calls J !! j = Some k' → eff k' = true → j = i0) →
  eff (Dcall (k_rank k) (k_op k) c) = false →
  winner_ok (stepped J i k c p src) a (k_pc k0) → status (stepped J i k c p src).
Proof using Type.
  intros Hne Hk0 Hop Hu He Hw. apply (StWon _ i0 k0 a); [simpl| |simpl|].
  - by rewrite list_lookup_insert_ne.
  - done.
  - intros j k' Hj. apply list_lookup_insert_Some in Hj as [(_&<-&_)|[_ Hj]]; [congruence|eauto].
  - done.
Qed.

Lemma status_get w i k p c p' src J :
  base_ok J → status J → d_calls J !! i = Some k → d_procs J !! k_rank k = Some p →
  k_op k = DGet → call_step w i k p (d_src J) = Some (c, p', src) →
  status (stepped J i k c p' src).
Proof using Hsrc0.
  intros HJ HS Hk Hp Hop Hs. destruct (get_pc _ _ _ _ _ _ _ _ Hop Hs) as (He&He1&He2).
  destruct (bo_call _ HJ _ _ Hk) as [_ Hkind].
  assert (quiet J → quiet (stepped J i k c p' src) ∧ p' = p) as Hq.
  { intros HQ. destruct (quiet_get _ _ _ _ _ _ _ _ HQ Hk Hp Hop Hkind Hs) as (->&->&Hl&_).
    split; [|done]. eapply quiet_step; eauto. by eapply q_procs. }
  destruct HS as [Hn HQ|i0 k0 a Hk0 Hop0 Hu Hw].
  - apply StNone; [|by apply Hq]. simpl. intros j k' Hj.
    apply list_lookup_insert_Some in Hj as [(_&<-&_)|[_ Hj]]; [done|eauto].
  - assert (i ≠ i0) by congruence. apply (status_other _ _ _ _ _ _ i0 k0 a); try done.
    destruct (k_pc k0) as [| | |t|t|rv| | | | | | | | |[rv|]]; simpl in Hw |- *; try done.
    + destruct Hw as [HQ Hst]. destruct (Hq HQ) as [? ->]. split; [done|].
      by rewrite list_insert_id.
    + destruct Hw as [HP Hx]. split; [by eapply published_get|by apply no_eexist_step].
    + destruct Hw as (->&HP&Hx). split; [done|].
      split; [by eapply published_get|by apply no_eexist_step].
    + destruct Hw as (->&HP). split; [done|by eapply published_get].
Qed.

(** The call that finds [defarena] unset is the only one that sets it. *)
Lemma status_first J i k w p c p' src :
  base_ok J → (∀ j k', d_calls J !! j = Some k' → eff k' = false) → quiet J →
  d_calls J !! i = Some k → d_procs J !! k_rank k = Some p → (∃ a, k_op k = DSet a) →
  call_step w i k p (d_src J) = Some (c, p', src) → status (stepped J i k c p' src).
Proof using Type.
  intros HJ Hn HQ Hk Hp [a Hop] Hs. pose proof (Hn _ _ Hk) as He.
  pose proof (q_procs _ HQ _ _ Hp) as Hset. pose proof (q_calls _ HQ _ _ Hk) as Hl.
  destruct (bo_call _ HJ _ _ Hk) as [Hlt Hkind].
  unfold call_step in Hs. rewrite Hop in Hs. unfold kind_ok in Hkind. rewrite Hop in Hkind.
  destruct Hkind as [Hlen Hkind]. unfold eff in He.
  assert (p_set p' = false → eff (Dcall (k_rank k) (k_op k) c) = false → late c = false →
    src = d_src J → status (stepped J i k c p' src)) as Hnone.
  { intros H1 H2 H3 ->. apply StNone; [|by eapply quiet_step]. simpl. intros j k' Hj.
    apply list_lookup_insert_Some in Hj as [(_&<-&_)|[_ Hj]]; [done|eauto]. }
  destruct (k_pc k) as [| | | | |rv| | | | | | | | |] eqn:Epc; simpl in *; try done.
  - simplify_eq. apply Hnone; try done; by case_match.
  - destruct (p_lock p); simplify_eq. by apply Hnone.
  - simplify_eq. rewrite Hset. apply (StWon _ i (Dcall (k_rank k) (k_op k) (SStore words)) a);
      simpl; [|done| |].
    + rewrite list_lookup_insert_eq; [done|]. by eapply lookup_lt_Some.
    + intros j k' Hj. apply list_lookup_insert_Some in Hj as [(<-&_)|[_ Hj]]; [done|].
      rewrite (Hn _ _ Hj). done.
    + split; [by eapply quiet_step|]. intros q _. apply copied_words.
  - destruct Hkind as [_ [-> | ->]]; done.
Qed.

(** The publication starts: rank 0 has the whole reference. *)
Lemma publish J i k p a :
  quiet J → d_procs J !! k_rank k = Some p → k_rank k = 0%nat →
  dt_length a ≠ 0 → p_store p = a →
  published (stepped J i k (SSrc words) (p <| p_set := true |>) (d_src J)) a words.
Proof using Type.
  intros HQ Hp Hr Hlen Hst. split; simpl; [done| | | |].
  - intros w. rewrite decide_True by apply in_words. by rewrite (q_src _ HQ).
  - intros q. rewrite Hr, list_lookup_insert_eq by (rewrite <-Hr; by eapply lookup_lt_Some).
    by intros [= <-].
  - intros r q Hq Hset. apply list_lookup_insert_Some in Hq as [(_&<-&_)|[_ Hq]].
    + simpl. rewrite Hst. split; auto.
    + pose proof (q_procs _ HQ _ _ Hq). congruence.
  - intros j k' q Hj _. apply list_lookup_insert_Some in Hj as [(_&<-&_)|[_ Hj]]; [done|].
    pose proof (q_calls _ HQ _ _ Hj) as Hl. by destruct (k_pc k'); try done; destruct res as [|[]].
Qed.

(** One more word of the shared reference. *)
Lemma publish_word J i k p a w todo :
  published J a todo → d_procs J !! k_rank k = Some p →
  published (stepped J i k (SSrc (drop_word w todo)) p (copy_word w a (d_src J))) a
    (drop_word w todo).
Proof using Type.
  intros [Hlen Hs Hz Hps Hcs] Hp. split; simpl; try rewrite (list_insert_id _ _ _ Hp); try done.
  - intros v. rewrite word_of_copy. case_decide as Hw.
    + subst v. rewrite decide_False; [done|]. by intros [? _]%elem_of_drop.
    + rewrite Hs. case_decide as H1; case_decide as H2; try done.
      * destruct H2. apply elem_of_drop. by split.
      * apply elem_of_drop in H2 as [_ ?]. done.
  - intros j k' q Hj Hq. apply list_lookup_insert_Some in Hj as [(_&<-&_)|[_ Hj]]; [done|].
    specialize (Hcs _ _ _ Hj Hq).
    assert (Wlength ∉ todo → Wlength ∉ drop_word w todo) by (intros ? [_ ?]%elem_of_drop; done).
    unfold get_ok in *. destruct (k_pc k'); intuition.
Qed.

(** The call that sets the default takes a step. *)
Lemma status_win J i k w p c p' src a :
  base_ok J → d_calls J !! i = Some k → k_op k = DSet a →
  (∀ j k', d_calls J !! j = Some k' → eff k' = true → j = i) → winner_ok J a (k_pc k) →
  d_procs J !! k_rank k = Some p →
  call_step w i k p (d_src J) = Some (c, p', src) → status (stepped J i k c p' src).
Proof using Type.
  intros HJ Hk Hop Hu Hw Hp Hs. destruct (bo_call _ HJ _ _ Hk) as [Hlt Hkind].
  unfold call_step in Hs. rewrite Hop in Hs. unfold kind_ok in Hkind. rewrite Hop in Hkind.
  destruct Hkind as [Hlen Hkind].
  apply (StWon _ i (Dcall (k_rank k) (k_op k) c) a); simpl; [|done| |].
  { rewrite list_lookup_insert_eq; [done|]. by eapply lookup_lt_Some. }
  { intros j k' Hj. apply list_lookup_insert_Some in Hj as [(<-&_)|[_ Hj]]; [done|eauto]. }
  destruct (k_pc k) as [| | |[|v t]|[|v t]|rv| | | | | | | | |[rv|]] eqn:Epc; simpl in Hw, Hs;
    try done; simplify_eq.
  - destruct Hw as [HQ Hst]. rewrite Hkind in Hp. specialize (Hst _ Hp). rewrite <-Hkind in Hp.
    split; [by apply publish, copied_all|].
    by apply no_eexist_step; [apply quiet_no_eexist|..].
  - case_decide; simplify_eq. destruct Hw as [HQ Hst]. pose proof (q_procs _ HQ _ _ Hp).
    split; [by eapply quiet_step|]. intros q Hq. simpl in Hq. rewrite Hkind in *.
    rewrite list_lookup_insert_eq in Hq by done. injection Hq as <-. by apply copied_step, Hst.
  - destruct Hw as [HP Hx]. split; [done|]. split; [|by apply no_eexist_step].
    eapply published_step; eauto. done.
  - case_decide; simplify_eq. destruct Hw as [HP Hx].
    split; [by apply publish_word|by apply no_eexist_step].
  - destruct Hw as (->&HP&Hx). split; [done|]. eapply published_step; eauto. done.
Qed.

(** A step that only moves on or takes the lock. *)
Lemma status_harmless J i k c p p' i0 k0 a :
  base_ok J → d_calls J !! i = Some k → d_procs J !! k_rank k = Some p → i ≠ i0 →
  d_calls J !! i0 = Some k0 → k_op k0 = DSet a →
  (∀ j k', d_calls J !! j = Some k' → eff k' = true → j = i0) → winner_ok J a (k_pc k0) →
  p_set p' = p_set p → p_store p' = p_store p → late c = false →
  eff (Dcall (k_rank k) (k_op k) c) = false → status (stepped J i k c p' (d_src J)).
Proof using Type.
  intros HJ Hk Hp Hne Hk0 Hop0 Hu Hw Hset Hst Hl He.
  apply (status_other _ _ _ _ _ _ i0 k0 a); try done.
  assert (no_eexist J → no_eexist (stepped J i k c p' (d_src J))) as Hx.
  { intros H. apply no_eexist_step; [done|..]; intros ->; done. }
  assert (∀ todo, published J a todo → published (stepped J i k c p' (d_src J)) a todo) as HP.
  { intros todo H. eapply published_step; eauto. by destruct c; try done; destruct res as [|[]]. }
  destruct (k_pc k0) as [| | |t|t|rv| | | | | | | | |[rv|]]; simpl in Hw |- *; try done.
  - destruct Hw as [HQ Hc]. split.
    + eapply quiet_step; eauto. rewrite Hset. by eapply q_procs.
    + intros q Hq. apply list_lookup_insert_Some in Hq as [(Hr&<-&_)|[_ Hq]]; [|by apply Hc].
      rewrite Hst. apply Hc. by rewrite <-Hr.
  - destruct Hw. auto.
  - destruct Hw as (?&?&?). auto.
  - destruct Hw. auto.
Qed.

(** Another call of [dthread_shm_set_defaultarena]. *)
Lemma status_lost J i k w p c p' src a' i0 k0 a :
  base_ok J → d_calls J !! i = Some k → d_procs J !! k_rank k = Some p → i ≠ i0 →
  k_op k = DSet a' → d_calls J !! i0 = Some k0 → k_op k0 = DSet a →
  (∀ j k', d_calls J !! j = Some k' → eff k' = true → j = i0) → winner_ok J a (k_pc k0) →
  call_step w i k p (d_src J) = Some (c, p', src) → status (stepped J i k c p' src).
Proof using Type.
  intros HJ Hk Hp Hne Hop Hk0 Hop0 Hu Hw Hs.
  pose proof (status_harmless J i k c p p' i0 k0 a HJ Hk Hp Hne Hk0 Hop0 Hu Hw) as Hharm.
  assert (eff k = false) as He by (destruct (eff k) eqn:E; [destruct Hne; eauto|done]).
  destruct (bo_call _ HJ _ _ Hk) as [_ Hkind]. destruct (bo_call _ HJ _ _ Hk0) as [_ Hkind0].
  unfold kind_ok in Hkind, Hkind0. rewrite Hop in Hkind. rewrite Hop0 in Hkind0.
  unfold call_step in Hs. rewrite Hop in Hs. destruct Hkind as [_ Hkind].
  destruct Hkind0 as [_ Hkind0].
  assert (crit (k_pc k) = true → k_rank k = 0%nat → k_pc k0 = Ret (RSet 0) ∧ published J a [])
    as Hret.
  { intros Hc Hr. assert (k_rank k0 = 0%nat → crit (k_pc k0) = false) as Hc0.
    { intros Hr0. destruct (crit (k_pc k0)) eqn:E; [|done]. destruct Hne.
      apply (crit_unique J i i0 k k0); congruence. }
    destruct (k_pc k0) as [| | |t|t|rv| | | | | | | | |[rv|]]; simpl in *; try done;
      try (by specialize (Hc0 Hkind0)); try (by specialize (Hc0 (proj1 Hkind0))).
    by destruct Hw as [-> ?]. }
  assert (∀ c, get_ok [] a c p' → k_pc k0 = Ret (RSet 0) → published J a [] →
    eff (Dcall (k_rank k) (k_op k) c) = false → p_set p' = p_set p → p_store p' = p_store p →
    status (stepped J i k c p' (d_src J))) as Hlate.
  { intros c1 Hg E HP He1 H1 H2. apply (status_other _ _ _ _ _ _ i0 k0 a); try done.
    rewrite E. split; [done|]. eapply published_step; eauto. }
  unfold eff in He.
  destruct (k_pc k) as [| | | | |rv| | | | | | | | |] eqn:Epc; simpl in *; try done.
  - simplify_eq. by apply Hharm; destruct (Z.of_nat (k_rank k) =? 0).
  - destruct (p_lock p); simplify_eq. by apply Hharm.
  - simplify_eq. destruct (Hret eq_refl Hkind) as [E HP]. rewrite Hkind in Hp.
    destruct (o_zero _ _ _ HP _ Hp) as [Hset _]. rewrite Hset. by apply Hlate.
  - simplify_eq. destruct (Hret eq_refl (proj1 Hkind)) as [E HP]. apply Hlate; try done.
Qed.

Lemma status_step i w J J' :
  base_ok J → status J → advance (Step i w) J = Some J' → status J'.
Proof using Hsrc0.
  intros HJ HS (k&p&c&p'&src&Hk&Hp&Hs&->)%step_inv. destruct (k_op k) as [a'|] eqn:Hop.
  - destruct HS as [Hn HQ|i0 k0 a Hk0 Hop0 Hu Hw]; [|].
    { apply (status_first J i k w p); try done. by exists a'. }
    destruct (decide (i = i0)) as [->|]; [|by apply (status_lost J i k w p c p' src a' i0 k0 a)].
    assert (k0 = k) as -> by congruence. by apply (status_win J i0 k w p c p' src a).
  - by eapply status_get.
Qed.

(** A new call changes nothing for the others. *)
Lemma status_begin r op J J' : status J → advance (Begin r op) J = Some J' → status J'.
Proof using Type.
  intros HS (_&_&->)%begin_inv.
  assert (∀ i k, (d_calls J ++ [Dcall r op (entry op)]) !! i = Some k →
    d_calls J !! i = Some k ∨ k = Dcall r op (entry op)) as Hin.
  { intros i k [Hi|[_ Hi]]%lookup_app_Some; [by left|].
    apply list_lookup_singleton_Some in Hi as [_ <-]. by right. }
  set (J' := Darena _ _ _).
  assert (quiet J → quiet J') as HQ.
  { intros [Hs Hp Hc]. split; [done|done|]. intros i k [Hi| ->]%Hin; [eauto|by destruct op]. }
  assert (∀ a t, published J a t → published J' a t) as HP.
  { intros a t [Hl Hs Hz Hp Hc]. split; try done. intros i k p [Hi| ->]%Hin; [by eapply Hc|].
    by destruct op. }
  assert (no_eexist J → no_eexist J') as Hx.
  { intros H i k [Hi| ->]%Hin; [eauto|by destruct op]. }
  destruct HS as [Hn HQ0|i0 k0 a Hk0 Hop0 Hu Hw].
  - apply StNone; [|auto]. intros i k [Hi| ->]%Hin; [eauto|by destruct op].
  - apply (StWon _ i0 k0 a); [by apply lookup_app_l_Some|done| |].
    + intros j k' [Hj| ->]%Hin; [eauto|by destruct op].
    + destruct (k_pc k0) as [| | |t|t|rv| | | | | | | | |[rv|]]; simpl in Hw |- *; try done.
      all: intuition.
Qed.

Definition inv (J : darena) : Prop := base_ok J ∧ status J.

Lemma inv_move J J' : inv J → dmove J J' → inv J'.
Proof using Hsrc0.
  intros [HJ HS] [[r op|i w] Hm].
  - split; [by eapply base_begin|by eapply status_begin].
  - split; [by eapply base_step|by eapply status_step].
Qed.

Lemma inv_reaches J J' : inv J → reaches J J' → inv J'.
Proof using Hsrc0. intros HJ Hr. induction Hr; eauto using inv_move. Qed.

Lemma inv_boot stores : inv (boot src0 stores).
Proof using Type.
  split; [apply base_boot|]. apply StNone; [simpl|split; simpl; [done| |]].
  - intros i k Hi. by rewrite lookup_nil in Hi.
  - intros r p Hp. by apply list_lookup_fmap_Some in Hp as (st&->&_).
  - intros i k Hi. by rewrite lookup_nil in Hi.
Qed.

(** ** Answers *)

(** The arena that is being or has been set. *)
Definition default_of (J : darena) (a : dthread_shmref_t) : Prop :=
  ∃ i k, d_calls J !! i = Some k ∧ k_op k = DSet a ∧ k_rank k = 0%nat ∧ eff k = true.

(** What [dthread_shm_set_defaultarena] answers. *)
Definition set_answers (J : darena) : Prop :=
  (∀ i k rv, d_calls J !! i = Some k → k_pc k = Ret (RSet rv) →
    (k_rank k ≠ 0%nat ∧ rv = EPERM) ∨ (k_rank k = 0%nat ∧ rv = 0) ∨
    (k_rank k = 0%nat ∧ rv = EEXIST ∧
      ∃ j k', d_calls J !! j = Some k' ∧ k_pc k' = Ret (RSet 0))) ∧
  (∀ i j k k', d_calls J !! i = Some k → d_calls J !! j = Some k' →
    k_pc k = Ret (RSet 0) → k_pc k' = Ret (RSet 0) → i = j).

(** What a call of [dthread_shm_get_defaultarena] that returns a pointer has
    found: on rank 0 the arena; on other ranks an arena of its length whose
    other words are the set or the initial ones. *)
Definition get_answers (J : darena) : Prop :=
  ∀ i k, d_calls J !! i = Some k → k_pc k = Ret (RGet true) →
    ∃ a p, default_of J a ∧ d_procs J !! k_rank k = Some p ∧ p_set p = true ∧
      torn [] a (p_store p) ∧ (k_rank k = 0%nat → p_store p = a).

Lemma status_published J : inv J →
  ∀ i k, d_calls J !! i = Some k → late (k_pc k) = true →
  ∃ i0 k0 a todo, d_calls J !! i0 = Some k0 ∧ k_op k0 = DSet a ∧ eff k0 = true ∧
    k_rank k0 = 0%nat ∧ published J a todo ∧ (k_pc k0 = Ret (RSet 0) ∧ todo = [] ∨ no_eexist J).
Proof using Type.
  intros [HJ HS] i k Hk Hl. destruct HS as [_ HQ|i0 k0 a Hk0 Hop0 Hu Hw].
  { by rewrite (q_calls _ HQ _ _ Hk) in Hl. }
  destruct (bo_call _ HJ _ _ Hk0) as [_ Hkind]. unfold kind_ok in Hkind. rewrite Hop0 in Hkind.
  destruct Hkind as [_ Hkind].
  destruct (k_pc k0) as [| | |t|t|rv| | | | | | | | |[rv|]] eqn:E; simpl in Hw; try done.
  - destruct Hw as [HQ _]. by rewrite (q_calls _ HQ _ _ Hk) in Hl.
  - destruct Hw as [HP Hx]. exists i0, k0, a, t. unfold eff. rewrite E. auto 8.
  - destruct Hw as (->&HP&Hx). exists i0, k0, a, []. unfold eff. rewrite E. intuition.
  - destruct Hw as (->&HP). exists i0, k0, a, []. unfold eff. rewrite E. intuition. done.
Qed.

Lemma inv_set_answers J : inv J → set_answers J.
Proof using Type.
  intros HI. pose proof HI as [HJ HS]. split.
  - intros i k rv Hk Hpc. destruct (bo_call _ HJ _ _ Hk) as [_ Hkind].
    unfold kind_ok in Hkind. rewrite Hpc in Hkind.
    destruct (k_op k); [|done]. destruct Hkind as [_ [?|[Hr [->| ->]]]]; [by left|auto|].
    right. right. split; [done|]. split; [done|].
    destruct (status_published J HI i k Hk) as (i0&k0&a&t&Hk0&_&_&_&_&[[? _]|Hx]).
    + by rewrite Hpc.
    + by exists i0, k0.
    + by destruct (Hx _ _ Hk).
  - intros i j k k' Hi Hj Hpc Hpc'.
    assert (eff k = true ∧ eff k' = true) as [E E'] by (unfold eff; by rewrite Hpc, Hpc').
    destruct HS as [Hn _|i0 k0 a _ _ Hu _]; [rewrite (Hn _ _ Hi) in E; done|].
    rewrite (Hu _ _ Hi E). symmetry. eauto.
Qed.

Lemma inv_get_answers J : inv J → get_answers J.
Proof using Type.
  intros HI i k Hk Hpc. pose proof HI as [HJ _]. destruct (bo_call _ HJ _ _ Hk) as [Hlt _].
  apply lookup_lt_is_Some in Hlt as [p Hp].
  destruct (status_published J HI i k Hk) as (i0&k0&a&t&Hk0&Hop0&He&Hr0&HP&_); [by rewrite Hpc|].
  pose proof (o_calls _ _ _ HP _ _ _ Hk Hp) as Hg. rewrite Hpc in Hg. simpl in Hg.
  exists a, p. split; [by exists i0, k0|]. split; [done|]. split; [done|].
  split; [by eapply o_procs|]. intros Hr. rewrite Hr in Hp. by apply (o_zero _ _ _ HP).
Qed.

(** ** Later states *)

(** A default that a rank has found stays as it is. *)
Definition defaults_kept (J J' : darena) : Prop :=
  ∀ r p, d_procs J !! r = Some p → p_set p = true →
    ∃ p', d_procs J' !! r = Some p' ∧ p_set p' = true ∧ p_store p' = p_store p.

(** While a rank's copy is written, [defarena] is not set. *)
Lemma inv_unset J i k p : inv J → d_calls J !! i = Some k → d_procs J !! k_rank k = Some p →
  (∃ t, k_pc k = SStore t ∨ k_pc k = GCopy t) → p_set p = false.
Proof using Type.
  intros HI Hk Hp [t [Hpc|Hpc]]; pose proof HI as [HJ HS].
  - assert (eff k = true) as He by (unfold eff; by rewrite Hpc).
    destruct HS as [Hn _|i0 k0 a Hk0 _ Hu Hw]; [by rewrite (Hn _ _ Hk) in He|].
    rewrite (Hu _ _ Hk He) in Hk. assert (k0 = k) as -> by congruence. rewrite Hpc in Hw.
    destruct Hw as [HQ _]. by eapply q_procs.
  - destruct (status_published J HI i k Hk) as (i0&k0&a&u&_&_&_&_&HP&_); [by rewrite Hpc|].
    pose proof (o_calls _ _ _ HP _ _ _ Hk Hp) as Hg. rewrite Hpc in Hg. apply Hg.
Qed.

(** What a step does to the rank. *)
Lemma step_rank w i k p src c p' src' :
  call_step w i k p src = Some (c, p', src') →
  p_store p' = p_store p ∧ (p_set p = true → p_set p' = true) ∨
  ∃ t, k_pc k = SStore t ∨ k_pc k = GCopy t.
Proof using Type.
  destruct k as [r op c0]. simpl. intros Hs. step_cases Hs; eauto.
Qed.

Lemma kept_move J J' : inv J → dmove J J' → defaults_kept J J'.
Proof using Type.
  intros HI [[r0 op|i w] Hm] r p Hp Hset.
  - apply begin_inv in Hm as (_&_&->). eauto.
  - apply step_inv in Hm as (k&q&c&q'&src&Hk&Hq&Hs&->). simpl.
    destruct (decide (k_rank k = r)) as [<-|Hne]; [|rewrite list_lookup_insert_ne by done; eauto].
    assert (q = p) as -> by congruence.
    rewrite list_lookup_insert_eq by (by eapply lookup_lt_Some). exists q'. split; [done|].
    destruct (step_rank _ _ _ _ _ _ _ _ Hs) as [[? ?]|Hpc]; [auto|].
    rewrite (inv_unset _ _ _ _ HI Hk Hp Hpc) in Hset. done.
Qed.

Lemma kept_reaches J J' : inv J → reaches J J' → defaults_kept J J'.
Proof using Hsrc0.
  intros HI Hr. induction Hr as [J|J J1 J' Hm Hr IH]; [intros r p Hp Hset; eauto|].
  intros r p Hp Hset. destruct (kept_move _ _ HI Hm r p Hp Hset) as (p1&Hp1&Hset1&E1).
  destruct (IH (inv_move _ _ HI Hm) r p1 Hp1 Hset1) as (p2&?&?&?).
  exists p2. split; [done|]. split; congruence.
Qed.

(** The rank has no default yet, and no call of it is copying one. *)
Definition untouched (J : darena) (r : nat) : Prop :=
  (∀ p, d_procs J !! r = Some p → p_set p = false) ∧
  ∀ i k t, d_calls J !! i = Some k → k_rank k = r → k_pc k ≠ GCopy t.

(** After [a] has been set: a call that answers [NULL] has done so before, and
    rank 0 and the untouched ranks know [a] or nothing. *)
Definition after_set (J : darena) (a : dthread_shmref_t) (J' : darena) : Prop :=
  (∀ j k, d_calls J' !! j = Some k → k_pc k = Ret (RGet false) → d_calls J !! j = Some k) ∧
  ∀ r p, r = 0%nat ∨ untouched J r → d_procs J' !! r = Some p → p_set p = true →
    p_store p = a.

(** Rank [r] has copied words of [a] only. *)
Definition clean (J : darena) (a : dthread_shmref_t) (r : nat) : Prop :=
  (∀ p, d_procs J !! r = Some p → p_set p = true → p_store p = a) ∧
  ∀ i k p t, d_calls J !! i = Some k → k_rank k = r → d_procs J !! r = Some p →
    k_pc k = GCopy t → copied t a (p_store p).

(** The call [i] has set [a] and returned. *)
Definition set_done (J : darena) (i : nat) (a : dthread_shmref_t) : Prop :=
  ∃ k, d_calls J !! i = Some k ∧ k_op k = DSet a ∧ k_pc k = Ret (RSet 0).

Lemma set_done_published J i a : inv J → set_done J i a →
  published J a [] ∧ ∀ j k, d_calls J !! j = Some k → eff k = true → j = i.
Proof using Type.
  intros [_ HS] (k&Hk&Hop&Hpc). assert (eff k = true) as He by (unfold eff; by rewrite Hpc).
  destruct HS as [Hn _|i0 k0 a0 Hk0 Hop0 Hu Hw]; [by rewrite (Hn _ _ Hk) in He|].
  rewrite (Hu _ _ Hk He) in Hk |- *. assert (k0 = k) as -> by congruence.
  assert (a0 = a) as -> by congruence. rewrite Hpc in Hw. by destruct Hw.
Qed.

(** The steps that are left once [a] is set. *)
Lemma step_when_set J i0 a w i k p c p' src :
  inv J → set_done J i0 a → d_calls J !! i = Some k → d_procs J !! k_rank k = Some p →
  call_step w i k p (d_src J) = Some (c, p', src) →
  c ≠ Ret (RGet false) ∧
  ((p_set p' = p_set p ∧ p_store p' = p_store p ∧ (∀ t, c = GCopy t → t = words)) ∨
   (k_pc k = GCopy [] ∧ p_store p' = p_store p ∧ ∀ t, c ≠ GCopy t) ∨
   ∃ t, k_pc k = GCopy t ∧ c = GCopy (drop_word w t) ∧ p_set p' = p_set p ∧
     p_store p' = copy_word w a (p_store p)).
Proof using Type.
  intros HI Hdone Hk Hp Hs. destruct (set_done_published _ _ _ HI Hdone) as [HP Hu].
  assert (d_src J = a) as Hsrc.
  { apply word_of_ext. intros v. rewrite (o_src _ _ _ HP v). by rewrite decide_False
      by apply not_elem_of_nil. }
  rewrite Hsrc in Hs. pose proof (o_len _ _ _ HP) as Hlen.
  pose proof (o_calls _ _ _ HP _ _ _ Hk Hp) as Hg.
  assert (eff k = false ∨ k_pc k = Ret (RSet 0)) as He.
  { destruct (eff k) eqn:E; [|by left]. right. destruct Hdone as (k1&Hk1&_&Hpc).
    rewrite (Hu _ _ Hk E) in Hk. congruence. }
  destruct HI as [HJ _]. destruct (bo_call _ HJ _ _ Hk) as [_ Hkind].
  unfold call_step, kind_ok, eff in *. destruct (k_op k) as [a'|].
  - destruct (k_pc k) eqn:E; simpl in Hs; destruct He as [He|He]; try done; simplify_eq.
    all: repeat (case_match; simplify_eq/=); split; try done; left; by repeat split.
  - destruct (k_pc k) as [| | | | | | | | | | |[|v t]| | |] eqn:E; simpl in *; try done;
      simplify_eq/=.
    all: repeat (case_match; simplify_eq/=; breflect); try done.
    all: split; [congruence|].
    all: first [left; repeat split; congruence | right; left; done | eauto 8].
Qed.

Lemma clean_step J i0 a r w i J' :
  inv J → set_done J i0 a → clean J a r → advance (Step i w) J = Some J' → clean J' a r.
Proof using Type.
  intros HI Hdone [Hset Hcopy] (k&p&c&p'&src&Hk&Hp&Hs&->)%step_inv.
  destruct (step_when_set _ _ _ _ _ _ _ _ _ _ HI Hdone Hk Hp Hs) as [_ Hcase].
  pose proof HI as [HJ _].
  assert (∀ t, k_pc k = GCopy t → k_rank k = r → copied t a (p_store p)) as Hcp.
  { intros t Hpc Hr. rewrite Hr in Hp. by apply (Hcopy i k p t). }
  split; simpl.
  - intros q Hq Hq1. apply list_lookup_insert_Some in Hq as [(Hr&<-&_)|[_ Hq]]; [|by apply Hset].
    destruct Hcase as [(E1&E2&_)|[(Hpc&E2&_)|(t&Hpc&_&E1&_)]].
    + rewrite E2. apply Hset; [by rewrite <-Hr|congruence].
    + rewrite E2. apply copied_all. by apply Hcp.
    + rewrite (inv_unset _ _ _ _ HI Hk Hp) in E1 by eauto. congruence.
  - intros j k' q t Hj Hr' Hq Hpc.
    apply list_lookup_insert_Some in Hj as [(<-&<-&_)|[Hne Hj]]; simpl in *.
    + rewrite Hr', list_lookup_insert_eq in Hq
        by (rewrite <-Hr'; by eapply lookup_lt_Some). injection Hq as <-.
      destruct Hcase as [(_&_&Hw)|[(_&_&Hw)|(t0&Hpc0&Hw&_&->)]].
      * rewrite (Hw _ Hpc). apply copied_words.
      * by destruct (Hw t).
      * assert (t = drop_word w t0) as -> by congruence. by apply copied_step, Hcp.
    + apply list_lookup_insert_Some in Hq as [(Hr&<-&_)|[_ Hq]]; [|by eapply Hcopy].
      rewrite Hr in Hp. destruct Hcase as [(_&->&_)|[(_&->&_)|(t0&Hpc0&_)]].
      1,2: by apply (Hcopy j k' p t).
      destruct Hne. apply (crit_unique J i j k k' HJ Hk Hj); [congruence|..].
      * by rewrite Hpc0.
      * by rewrite Hpc.
Qed.

Lemma clean_move J i0 a r J' :
  inv J → set_done J i0 a → clean J a r → dmove J J' → clean J' a r.
Proof using Type.
  intros HI Hdone [Hset Hcopy] [[r0 op|i w] Hm]; [|by eapply clean_step].
  apply begin_inv in Hm as (_&_&->). split; simpl; [done|].
  intros j k p t Hj Hr Hp Hpc. apply lookup_app_Some in Hj as [Hj|[_ Hj]]; [by eapply Hcopy|].
  apply list_lookup_singleton_Some in Hj as [_ <-]. by destruct op.
Qed.

Lemma set_done_move J i a J' : set_done J i a → dmove J J' → set_done J' i a.
Proof using Type.
  intros (k&Hk&Hop&Hpc) [[r0 op|j w] Hm].
  - apply begin_inv in Hm as (_&_&->). exists k. split; [by apply lookup_app_l_Some|done].
  - apply step_inv in Hm as (k'&p&c&p'&src&Hk'&_&Hs&->). exists k. split; [|done]. simpl.
    rewrite list_lookup_insert_ne; [done|]. intros ->. simplify_eq.
    unfold call_step in Hs. by rewrite Hop, Hpc in Hs.
Qed.

(** No call answers [NULL] any more. *)
Lemma null_move J i0 a J' j k :
  inv J → set_done J i0 a → dmove J J' → d_calls J' !! j = Some k →
  k_pc k = Ret (RGet false) → d_calls J !! j = Some k.
Proof using Type.
  intros HI Hdone [[r0 op|i w] Hm] Hj Hpc.
  - apply begin_inv in Hm as (_&_&->). apply lookup_app_Some in Hj as [Hj|[_ Hj]]; [done|].
    apply list_lookup_singleton_Some in Hj as [_ <-]. by destruct op.
  - apply step_inv in Hm as (k'&p&c&p'&src&Hk'&Hp&Hs&->). simpl in Hj.
    apply list_lookup_insert_Some in Hj as [(<-&<-&_)|[_ Hj]]; [|done].
    by destruct (step_when_set _ _ _ _ _ _ _ _ _ _ HI Hdone Hk' Hp Hs).
Qed.

Lemma after_clean J i a J' (U : nat → Prop) :
  inv J → set_done J i a → (∀ r, U r → clean J a r) → reaches J J' →
  (∀ j k, d_calls J' !! j = Some k → k_pc k = Ret (RGet false) → d_calls J !! j = Some k) ∧
  ∀ r p, U r → d_procs J' !! r = Some p → p_set p = true → p_store p = a.
Proof using Hsrc0.
  intros HI Hdone Hc Hr. induction Hr as [J|J J1 J' Hm Hr IH].
  - split; [done|]. intros r p HU Hp Hset. by apply (Hc r HU).
  - destruct IH as [IH1 IH2]; [by eapply inv_move|by eapply set_done_move| |].
    { intros r HU. eapply clean_move; eauto. }
    split; [|done]. intros j k Hj Hpc. eapply null_move; eauto.
Qed.

Lemma after_set_reaches J i a J' :
  inv J → set_done J i a → reaches J J' → after_set J a J'.
Proof using Hsrc0.
  intros HI Hdone Hr.
  assert (∀ r, r = 0%nat ∨ untouched J r → clean J a r) as Hc.
  { destruct (set_done_published _ _ _ HI Hdone) as [HP _]. intros r [->|[Hu1 Hu2]].
    - split; [intros p Hp _; by apply (o_zero _ _ _ HP)|]. intros j k p t Hj Hr0 Hp Hpc.
      destruct (o_zero _ _ _ HP _ Hp) as [Hset _].
      rewrite (inv_unset J j k p HI Hj) in Hset; [done|by rewrite Hr0|eauto].
    - split; [intros p Hp Hset; by rewrite (Hu1 _ Hp) in Hset|].
      intros j k p t Hj Hr0 _ Hpc. by destruct (Hu2 j k t). }
  unfold after_set. by apply (after_clean J i a J' (λ r, r = 0%nat ∨ untouched J r)).
Qed.

(** ** Every call ends *)

(** More than the steps a call still takes. *)
Definition left_steps (c : dpc) : nat :=
  match c with
  | SRank => 12 | SLock => 11 | STest => 10
  | SStore t => 6 + length t | SSrc t => 2 + length t | SUnlock _ => 1
  | GFast => 11 | GLen => 10 | GLock => 9 | GTest => 8 | GTest2 => 7
  | GCopy t => 3 + length t | GUnlock => 2 | GRet => 1
  | Ret _ => 0
  end.

Definition work (J : darena) : nat := sum_list_with (λ k, left_steps (k_pc k)) (d_calls J).

Lemma sum_insert_lt {A} (f : A → nat) l i x y :
  l !! i = Some x → (f y < f x)%nat →
  (sum_list_with f (<[i := y]> l) < sum_list_with f l)%nat.
Proof using Type.
  revert i. induction l as [|z l IH]; intros [|i] Hi Hlt; simplify_eq/=; [lia|].
  specialize (IH i Hi Hlt). lia.
Qed.

Lemma step_work J J' : dstep J J' → (work J' < work J)%nat.
Proof using Type.
  intros (i&w&(k&p&c&p'&src&Hk&_&Hs&->)%step_inv).
  apply (sum_insert_lt _ _ _ k); [done|]. destruct k as [r op c0]. simpl in *.
  unfold call_step, set_step, get_step in Hs.
  repeat (case_match; simplify_eq/=; try lia).
  all: match goal with H : ?w ∈ ?t |- _ => pose proof (drop_shorter w t H) end; simpl in *; lia.
Qed.

Definition returned (k : dcall) : bool := match k_pc k with Ret _ => true | _ => false end.

(** A call that does not wait for the lock has a step. *)
Lemma call_moves i k p src :
  kind_ok k → returned k = false → (p_lock p = None ∨ k_pc k ≠ SLock ∧ k_pc k ≠ GLock) →
  ∃ w r, call_step w i k p src = Some r.
Proof using Type.
  destruct k as [r op c]. unfold kind_ok, returned, call_step. simpl. intros Hk Hr Hl.
  destruct op as [a|]; destruct c as [| | |[|v t]|[|v t]| | | | | | |[|v t]| | |[]];
    simpl in *; try done; try (by destruct Hk); try (exists Wshmid; eauto; fail).
  all: try (exists v; case_decide as Hd; [by eauto|destruct Hd; by left]).
  all: exists Wshmid; destruct Hl as [->|[? ?]]; eauto; done.
Qed.

Lemma no_deadlock J : inv J →
  (∃ J', dstep J J') ∨ ∀ i k, d_calls J !! i = Some k → returned k = true.
Proof using Type.
  intros [HJ _]. destruct (decide (Forall (λ k, returned k = true) (d_calls J))) as [Hall|Hn].
  { right. intros i k Hk. by eapply Forall_lookup_1 in Hall. }
  left. apply not_Forall_Exists in Hn; [|apply _]. apply Exists_exists in Hn as (k&Hin&Hret).
  apply list_elem_of_lookup in Hin as [i Hk]. simpl in Hret. apply not_true_is_false in Hret.
  destruct (bo_call _ HJ _ _ Hk) as [Hlt Hkind]. apply lookup_lt_is_Some in Hlt as [p Hp].
  assert (∀ i k p, d_calls J !! i = Some k → d_procs J !! k_rank k = Some p → kind_ok k →
    returned k = false → (p_lock p = None ∨ k_pc k ≠ SLock ∧ k_pc k ≠ GLock) →
    ∃ J', dstep J J') as Hgo.
  { intros i1 k1 p1 Hk1 Hp1 Hkind1 Hret1 Hl.
    destruct (call_moves i1 k1 p1 (d_src J) Hkind1 Hret1 Hl) as (w&[[c q] src]&Hs).
    eexists. exists i1, w. simpl. by rewrite Hk1; simpl; rewrite Hp1; simpl; rewrite Hs. }
  destruct (p_lock p) as [j|] eqn:Hl; [|by eapply Hgo; eauto].
  apply (bo_lock _ HJ _ _ _ Hp) in Hl as (k'&Hk'&Hr&Hc). rewrite <-Hr in Hp.
  destruct (bo_call _ HJ _ _ Hk') as [_ Hkind'].
  apply (Hgo j k' p); try done; [|right]; unfold returned; by destruct (k_pc k').
Qed.

(** However the steps are chosen, the calls in progress return. *)
Definition calls_end (J : darena) : Prop :=
  (∀ n J', nsteps dstep n J J' → (n ≤ work J)%nat) ∧
  ((∃ J', dstep J J') ∨ ∀ i k, d_calls J !! i = Some k → returned k = true).

Lemma inv_calls_end J : inv J → calls_end J.
Proof using Type.
  intros HI. split; [|by apply no_deadlock]. intros n J' Hn.
  clear HI. induction Hn as [|n J J1 J' Hs Hn IH]; [lia|]. apply step_work in Hs. lia.
Qed.
End Inv.

Lemma drun_reaches es J J' : drun es J = Some J' → reaches J J'.
Proof.
  revert J. induction es as [|e es IH]; intros J; simpl; [intros [= ->]; apply rtc_refl|].
  destruct (advance e J) as [J1|] eqn:E; [|done]. simpl. intros Hr.
  eapply rtc_l; [by exists e|by apply IH].
Qed.

(** ** Claims *)

(** C23. The default arena under any interleaving of calls of
    [dthread_shm_set_defaultarena] (with arenas that are not empty) and
    [dthread_shm_get_defaultarena] by any threads of any ranks, access by
    access, where [arenalock] excludes only calls of the same rank.
    Setting: other ranks than 0 get [EPERM], at most one call gets 0, and
    [EEXIST] is returned only after that call has returned.
    Getting: a call returns a pointer only when an arena is being or has been
    set; on rank 0 it then points to exactly that arena, on other ranks to a
    reference with its length, whose segment and offset may each be the initial
    one if the call overlaps the setting; what a rank has found never changes.
    Publishing: from the moment the setting call has returned 0, no call
    answers [NULL] any more, and rank 0 and every rank that had no default and
    was not copying one then find exactly the arena that was set.
    No deadlock: the calls in progress take boundedly many steps, and one of
    them has a step until all have returned. *)
Theorem default_arena_concurrent src0 stores J :
  dt_length src0 = 0 → reaches (boot src0 stores) J →
  set_answers J ∧ get_answers src0 J ∧ calls_end J ∧
  (∀ J', reaches J J' → defaults_kept J J') ∧
  (∀ i a J', set_done J i a → reaches J J' → after_set J a J').
Proof.
  intros H0 Hr. assert (inv src0 J) as HI by (eapply inv_reaches; eauto using inv_boot).
  split; [by eapply inv_set_answers|]. split; [by apply inv_get_answers|].
  split; [by eapply inv_calls_end|].
  split; [intros J' HJ'; by eapply kept_reaches|].
  intros i a J' Hdone HJ'. by eapply after_set_reaches.
Qed.

(** ** Runs of two ranks *)

Definition two_ranks : darena := boot (Shmref 0 0 0) [Shmref 9 9 9; Shmref 8 8 8].

(** Rank 0 sets an arena while a call of rank 1 is on its way. *)
Definition first_run : list devent :=
  [Begin 1 DGet; Step 0 Wshmid; Begin 0 (DSet demo_arena)] ++ (Step 1 <$> set_order)
  ++ [Step 0 Wshmid].
(** Then another thread of rank 1 asks. *)
Definition late_get : list devent := Begin 1 DGet :: (Step 2 <$> get_order).

Definition state_after (es : list devent) (J : darena) : darena := default J (drun es J).

Definition early_state : darena := Eval vm_compute in state_after first_run two_ranks.
Definition late_state : darena := Eval vm_compute in state_after late_get early_state.

Lemma default_arena_concurrent_witness :
  set_answers early_state ∧ get_answers (Shmref 0 0 0) early_state ∧ calls_end early_state ∧
  defaults_kept early_state late_state ∧ after_set early_state demo_arena late_state ∧
  d_calls late_state = [Dcall 1 DGet GLock; Dcall 0 (DSet demo_arena) (Ret (RSet 0));
                        Dcall 1 DGet (Ret (RGet true))] ∧
  d_procs late_state !! 1%nat = Some (Dproc None true demo_arena).
Proof.
  destruct (default_arena_concurrent (Shmref 0 0 0) [Shmref 9 9 9; Shmref 8 8 8] early_state)
    as (H1&H2&H3&H4&H5).
  - reflexivity.
  - apply (drun_reaches first_run). vm_compute. reflexivity.
  - assert (reaches early_state late_state) as Hr
      by (apply (drun_reaches late_get); vm_compute; reflexivity).
    do 3 (split; [done|]). split; [by apply H4|].
    split; [|by vm_compute]. apply (H5 1%nat); [|done].
    exists (Dcall 0 (DSet demo_arena) (Ret (RSet 0))). by vm_compute.
Defined.

(** A torn default: rank 1 reads [da_src] between the writes of its length and
    of its offset.  Its call returns a reference that nobody has set, and rank 1
    keeps it for good, although the setting call succeeds. *)
Definition torn_run : list devent :=
  Begin 0 (DSet demo_arena) :: (Step 0 <$> [Wshmid; Wshmid; Wshmid] ++ words ++ [Wshmid; Wlength])
  ++ Begin 1 DGet :: (Step 1 <$> get_order)
  ++ (Step 0 <$> [Woffset; Wshmid; Wshmid; Wshmid]).

Lemma default_arena_torn :
  let J := state_after torn_run two_ranks in
  reaches two_ranks J ∧ set_done J 0 demo_arena ∧
  d_calls J !! 1%nat = Some (Dcall 1 DGet (Ret (RGet true))) ∧
  ∀ J', reaches J J' → ∃ p, d_procs J' !! 1%nat = Some p ∧ p_set p = true ∧
    p_store p = Shmref 0 0 0x1000 ∧ p_store p ≠ demo_arena.
Proof.
  intros J. assert (reaches two_ranks J) as Hr by (apply (drun_reaches torn_run); done).
  split; [done|]. split; [eexists; by vm_compute|]. split; [done|]. intros J' HJ'.
  assert (inv (Shmref 0 0 0) J) as HI by (eapply inv_reaches; [|by apply inv_boot|done]; done).
  destruct (kept_reaches (Shmref 0 0 0) eq_refl J J' HI HJ' 1%nat
    (Dproc None true (Shmref 0 0 0x1000))) as (p&Hp&Hset&Hst); [by vm_compute|done|].
  exists p. simpl in Hst. by rewrite Hst.
Qed.
