(* ===== verification/Init.v ===== *)
(** * Initialisation

    [libdthread/dt_init.c]: [strgen], [dthread_init], [dthread_shm_bootstrap]
    and [dthread_run] up to the point where the main thread becomes the manager.
    All ranks call [dthread_run] with the same arguments.  The collective parts
    run in step on all ranks, as in [Collective]; the ranks bootstrap the shared
    memory at the same time, so the model takes any order of their segment
    allocations.  The start of the MPI thread is in [MpiThread], the log is
    left out but for the strings built for it. *)

From S2P Require Import Prelude Types Queuing ThreadTab Manager ManagerInv MpiTab MpiThread ShmRef SegOps Establish Collective SyncOps ShmAlloc.

(** ** Strings

    A C string is the list of its bytes, without the final 0. *)

(** Pass 1: the length, a [size_t]. *)
Fixpoint strgen_len (newlen : Z) (parts : list (list Z)) : Z :=
  match parts with
  | [] => newlen
  | part :: parts => strgen_len (u64 (newlen + Z.of_nat (length part))) parts
  end.

(** [*n = b] in the malloced buffer. *)
Definition buf_put (n b : Z) : M (list Z) unit := λ buf,
  if (0 <=? n) && (n <? Z.of_nat (length buf)) then Ok (tt, aset buf n b) else Crash OutOfBounds.

Fixpoint copy_part (part : list Z) (n : Z) : M (list Z) Z :=
  match part with
  | [] => retM n
  | b :: part => buf_put n b ;;; copy_part part (n + 1)
  end.

Fixpoint copy_parts (parts : list (list Z)) (n : Z) : M (list Z) Z :=
  match parts with
  | [] => retM n
  | part :: parts => n <- copy_part part n;; copy_parts parts n
  end.

(** [malloc n] is a buffer of [n] bytes, or fails. *)
Definition strgen (malloc : Z → option (list Z)) (parts : list (list Z))
    : outcome (Z * option (list Z)) :=
  let newlen := strgen_len 1 parts in
  match malloc newlen with
  | None => Ok (0, None)
  | Some nstr =>
      match (n <- copy_parts parts 0;; buf_put n 0) nstr with
      | Ok (_, nstr) => Ok (newlen, Some nstr)
      | Crash f => Crash f
      end
  end.

(** The program name without its directory. *)
Definition run_prog (prog : list Z) : list Z :=
  match strrchr prog 47 with Some i => drop (S i) prog | None => prog end.

(** ** [dthread_init] *)

Definition EBUSY : Z := 16.

(** The fields of [dthread_dtrs_t] it sets; [mpi_uintptr] is the size of the
    MPI type. *)
Record dtrs_t := Dtrs {
  d_prog : list Z;
  d_rank : Z;
  d_wsize : Z;
  d_uintptr : Z;
  d_seqsrc : Z;
  d_pagesize : Z }.

#[export] Instance dtrs_eta : Eta dtrs_t := λ r,
  Dtrs (d_prog r) (d_rank r) (d_wsize r) (d_uintptr r) (d_seqsrc r) (d_pagesize r).

(** The initial value: all zero. *)
Definition dtrs_zero : dtrs_t := Dtrs [] 0 0 0 0 0.

(** What MPI and the system say: the return values of [MPI_Init] and
    [pthread_key_create], rank and size with their return values, the sizes of
    the types, the page size. *)
Record startup := Startup {
  st_init : Z;
  st_rank : Z * Z;
  st_size : Z * Z;
  sizeof_uintptr : Z;
  sizeof_ullong : Z;
  sizeof_ulong : Z;
  sizeof_uint : Z;
  st_pagesize : Z;
  st_key : Z }.

(** A return value, or the end of the process by [MPI_Abort] or [errx]. *)
Inductive init_result :=
  | IRet (rv : Z)
  | IAbort
  | IExit (status : Z).

Definition dthread_init (st : startup) (argv0 : list Z) : M dtrs_t init_result :=
  d <- gets id;;
  if negb (d_wsize d =? 0) then retM (IRet EBUSY)
  else
    modify (λ d, d <| d_prog := argv0 |>) ;;;
    if negb (st_init st =? 0) then retM (IRet EIO)
    else
      modify (λ d, d <| d_rank := (st_rank st).2 |>) ;;;
      if negb ((st_rank st).1 =? 0) then retM IAbort
      else
        modify (λ d, d <| d_wsize := (st_size st).2 |>) ;;;
        if negb ((st_size st).1 =? 0) then retM IAbort
        else if negb (sizeof_uintptr st =? sizeof_ullong st) &&
                negb (sizeof_uintptr st =? sizeof_ulong st) &&
                negb (sizeof_uintptr st =? sizeof_uint st) then retM IAbort
        else
          modify (λ d, d <| d_uintptr := sizeof_uintptr st |>) ;;;
          d <- gets id;;
          if negb (int_ok (d_rank d + d_wsize d)) then crash SignedOverflow
          else
            modify (λ d, d <| d_seqsrc := u32 (d_rank d + d_wsize d) |>) ;;;
            modify (λ d, d <| d_pagesize := st_pagesize st |>) ;;;
            if negb (st_key st =? 0) then retM (IExit 1)
            else retM (IRet 0).

(** ** Shared memory bootstrap *)

Definition sizeof_shmref : Z := 24.
Definition sizeof_gtab : Z := 176.

Record dthread_shm_bootstrap_t := Bootstrap {
  boot_defarena : dthread_shmref_t;
  boot_gtab : dthread_shmref_t }.

Definition set_bytes (m : Z → Z → Z) (k o n v : Z) : Z → Z → Z := λ k' o',
  if (k' =? k) && (o <=? o') && (o' <? o + n) then v else m k' o'.

Definition memset (p v n : Z) : M sst unit :=
  if p =? 0 then crash NullDeref
  else
    sm <- gets shmmap ;;
    match locate sm p n with
    | Some (k, o) => modify (λ s, s <| mem := set_bytes (mem s) k o n v |>)
    | None => crash OutOfBounds
    end.

(** [stale] is what the uninitialised structure holds, [spin_rc] the result of
    taking the segment's lock. *)
Section Bootstrap.
Context (stale : dthread_shmref_t) (spin_rc : Z).

(** The default arena reference, ... *)
Definition bootstrap_defarena : M sst dthread_shmref_t :=
  r <- dthread_shmseg_alloc spin_rc 0 sizeof_shmref (Some stale);;
  memset r.1 0 sizeof_shmref ;;;
  retM (default stale r.2).

(** ... and the global thread table. *)
Definition bootstrap_gtab (maxthreads : Z) : M sst (Z * dthread_shmref_t) :=
  let gtsize := u64 (maxthreads * sizeof_gtab) in
  r <- dthread_shmseg_alloc spin_rc 0 gtsize (Some stale);;
  if r.1 =? 0 then retM (ENOMEM, default stale r.2)
  else memset r.1 0 gtsize ;;; retM (0, default stale r.2).

Definition dthread_shm_bootstrap (maxthreads : Z) : M sst (Z * dthread_shm_bootstrap_t) :=
  a <- bootstrap_defarena;;
  g <- bootstrap_gtab maxthreads;;
  retM (g.1, Bootstrap a g.2).
End Bootstrap.

(** ** The global thread table in memory *)

Definition ld32 (m : Z → Z → Z) (k o : Z) : Z := load_le 4 m k o.

Definition load_argret (m : Z → Z → Z) (k o : Z) : dthread_argret_t :=
  Argret (ld32 m k o) (ld32 m k (o + 4))
    (if ld32 m k o =? DTHREAD_SHMREF
     then UShm (Shmref (load_le 8 m k (o + 8)) (load_le 8 m k (o + 16)) (load_le 8 m k (o + 24)))
     else UInline ((λ i : nat, m k (o + 8 + Z.of_nat i)) <$> seq 0 64)).

Definition load_gtab (m : Z → Z → Z) (k o : Z) : dthread_gtab_t :=
  Gtab (ld32 m k o) (ld32 m k (o + 4)) (ld32 m k (o + 8)) (ld32 m k (o + 12))
    (load_argret m k (o + 16)) (load_argret m k (o + 88))
    (ld32 m k (o + 160)) (ld32 m k (o + 164)) (ld32 m k (o + 168)) (ld32 m k (o + 172)).

(** ** [dthread_run] *)

Record run_args := RunArgs {
  ra_dsps : list dthread_dispatch_t;
  ra_shms : list dthread_shmsrc_t;
  ra_syncop : Z;
  ra_maxthreads : Z }.

(** The checks of the arguments, up to the sources of shared memory. *)
Definition run_checks {W} (P : pthreads W) (a : run_args) : bool :=
  match dt_getsyncops P 0 (ra_syncop a) with Some _ => true | None => false end &&
  negb (ra_maxthreads a <? 1) &&
  negb (Z.of_nat (length (ra_dsps a)) <? 1) &&
  negb (Z.of_nat (length (ra_shms a)) <? 1).

(** The job: the segments of all ranks and the bytes in them. *)
Record rjob := Rjob {
  rj_job : job;
  rj_mem : Z → Z → Z }.

#[export] Instance rjob_eta : Eta rjob := λ r, Rjob (rj_job r) (rj_mem r).

(** What a rank sees of the shared memory. *)
Definition rank_view (s : est) (x : rjob) : sst :=
  Sst (e_map s) None (Shmref 0 0 0) (j_md (rj_job x)) ∅ (rj_mem x).

(** Shared memory code on rank [r]. *)
Definition on_shm {A} (r : nat) (op : M sst A) : M rjob A := λ x,
  match j_ranks (rj_job x) !! r with
  | None => Crash OutOfBounds
  | Some s =>
      match op (rank_view s x) with
      | Ok (a, t) =>
          Ok (a, x <| rj_job ::= (λ j, j <| j_md := segmds t |>) |> <| rj_mem := mem t |>)
      | Crash f => Crash f
      end
  end.

(** A phase in which all ranks run in step. *)
Definition in_job {A} (op : M job A) : M rjob A := λ x,
  match op (rj_job x) with
  | Ok (a, j) => Ok (a, x <| rj_job := j |>)
  | Crash f => Crash f
  end.

(** Where a rank is in [dthread_shm_bootstrap]. *)
Inductive boot_pc :=
  | BStart
  | BMid (defarena : dthread_shmref_t)
  | BEnd (shmboot : dthread_shm_bootstrap_t)
  | BErr (rv : Z).

(** A rank on its way to the manager loop: the part of [dtrs] fixed from here
    on, the state of its thread code, the local pointers to the default arena
    and to the global thread table. *)
Record ready := Ready {
  rd_config : config;
  rd_state : dtst;
  rd_da_src : Z;
  rd_gtab : Z }.

Section Run.
Context {W : Type} (P : pthreads W) (oss : nat → os) (pagesize : Z) (coll_ok : nat → bool).
Context (nranks : nat) (a : run_args) (stale : dthread_shmref_t).
Context (calloc_ok : nat → nat → bool) (create_rv : nat → Z).

Definition boot_step (pc : boot_pc) : M sst boot_pc :=
  match pc with
  | BStart => r <- bootstrap_defarena stale 0;; retM (BMid r)
  | BMid r =>
      g <- bootstrap_gtab stale 0 (ra_maxthreads a);;
      retM (if g.1 =? 0 then BEnd (Bootstrap r g.2) else BErr g.1)
  | pc => retM pc
  end.

(** The ranks of [sched], one allocation at a time. *)
Fixpoint boot_all (sched : list nat) (pcs : list boot_pc) : M rjob (list boot_pc) :=
  match sched with
  | [] => retM pcs
  | r :: sched =>
      pc <- get_some OutOfBounds (pcs !! r);;
      pc' <- on_shm r (boot_step pc);;
      boot_all sched (<[r := pc']> pcs)
  end.

(** The loop that sets up [dtrs->ltab]. *)
Definition ltab_setup (n : Z) : list dthread_ltab_t :=
  (λ i : nat, Ltab 0 0 LT_NONE (idle_req (Z.of_nat i))) <$> seq 0 (Z.to_nat n).

(** [static struct dt_mgrstate mgrstate = { 0 }] *)
Definition mgrstate_zero : dt_mgrstate := Mgr false [] 0 0 0 0 0 0 0 0.

(** From the default arena to the creation of the MPI thread, on rank [r]: the
    state the manager starts from, or nothing when the job is aborted. *)
Definition run_tables (shmboot : dthread_shm_bootstrap_t) (r : nat) : M rjob (option ready) :=
  x <- gets id;;
  s <- get_some OutOfBounds (j_ranks (rj_job x) !! r);;
  let da_src := dthread_shmref2ptr (e_map s) (Some (boot_defarena shmboot)) 0 in
  let gtabp := dthread_shmref2ptr (e_map s) (Some (boot_gtab shmboot)) 0 in
  if da_src =? 0 then retM None
  else if (gtabp =? 0) || negb (calloc_ok r 1) then retM None
  else if negb (create_rv r =? 0) then retM None
  else
    g <- get_some OutOfBounds (locate (e_map s) gtabp (ra_maxthreads a * sizeof_gtab));;
    let gt := (λ i : nat, load_gtab (rj_mem x) g.1 (g.2 + Z.of_nat i * sizeof_gtab)) <$>
                seq 0 (Z.to_nat (ra_maxthreads a)) in
    retM (Some (Ready
      (Config (Z.of_nat r) (Z.of_nat nranks) (ra_maxthreads a) (ra_dsps a))
      (Dtst (u32 (Z.of_nat r + Z.of_nat nranks)) (ltab_setup (ra_maxthreads a)) gt
         ∅ dtq_init mgrstate_zero 0 0 ∅ [])
      da_src gtabp)).

Fixpoint run_ranks (shmboot : dthread_shm_bootstrap_t) (l : list nat)
    : M rjob (option (list ready)) :=
  match l with
  | [] => retM (Some [])
  | r :: l =>
      o <- run_tables shmboot r;;
      rest <- run_ranks shmboot l;;
      retM (x ← o; xs ← rest; Some (x :: xs))
  end.

(** The zeroed [dtrs->shmmap] of all ranks. *)
Definition install_shmmap : M rjob unit :=
  modify (λ x, x <| rj_job ::= (λ j, j <| j_ranks ::=
    fmap (λ s, s <| e_map := replicate (length (ra_shms a)) zero_map |>) |>) |>).

(** [None] when the job is aborted, else all ranks on their way to [mgr_main].
    The references of rank 0 are broadcast.  [calloc_ok r i] is the outcome of
    the [i]-th [calloc] of rank [r]. *)
Definition dthread_run (sched : list nat) : M rjob (option (list ready)) :=
  if negb (run_checks P a) then retM None
  else if negb (forallb (λ r, calloc_ok r 0%nat) (seq 0 nranks)) then retM None
  else
    install_shmmap ;;;
    rv <- in_job (dthread_shmseg_establish oss pagesize coll_ok nranks (ra_shms a));;
    match rv with
    | None => retM None
    | Some rv =>
        ok <- in_job (collective coll_ok);;
        let success := if rv =? 0 then 1 else 0 in
        let total := foldr Z.add 0 (replicate nranks success) in
        if negb ok then retM None
        else if total <? Z.of_nat nranks then retM None
        else
          pcs <- boot_all sched (replicate nranks BStart);;
          ok <- in_job (collective coll_ok);;
          match pcs !! 0%nat with
          | Some (BEnd shmboot) =>
              if negb ok || existsb (λ pc, match pc with BErr _ => true | _ => false end) pcs
              then retM None
              else run_ranks shmboot (seq 0 nranks)
          | _ => retM None
          end
    end.
End Run.

(** ** Strings *)

Lemma strgen_len_sum parts n :
  0 < n → n + Z.of_nat (length (concat parts)) < 2 ^ 64 →
  strgen_len n parts = n + Z.of_nat (length (concat parts)).
Proof.
  revert n. induction parts as [|p parts IH]; intros n Hn Hs; simpl in *; [lia|].
  rewrite length_app in *. rewrite u64_small by lia. rewrite IH by lia. lia.
Qed.

(** Writing [l] at [n] of a buffer that has room. *)
Definition write_at (n : nat) (l buf : list Z) : list Z := take n buf ++ l ++ drop (n + length l) buf.

Lemma buf_put_at (n : nat) b buf :
  (n < length buf)%nat → buf_put (Z.of_nat n) b buf = Ok (tt, write_at n [b] buf).
Proof.
  intros Hn. unfold buf_put, aset, write_at. destruct (Z.leb_spec 0 (Z.of_nat n)); [|lia].
  destruct (Z.ltb_spec (Z.of_nat n) (Z.of_nat (length buf))); [|lia]. simpl.
  rewrite Nat2Z.id. do 2 f_equal. rewrite (insert_take_drop buf n b Hn). simpl.
  by replace (n + 1)%nat with (S n) by lia.
Qed.

Lemma write_at_write n l l' buf :
  (n + length l + length l' ≤ length buf)%nat →
  write_at (n + length l) l' (write_at n l buf) = write_at n (l ++ l') buf.
Proof.
  intros Hn. unfold write_at. rewrite (app_assoc (take n buf)).
  assert (length (take n buf ++ l) = (n + length l)%nat) as Hl
    by (rewrite length_app, length_take; lia).
  rewrite take_app_length' by done.
  rewrite drop_app, (drop_ge (take n buf ++ l)) by lia. rewrite Hl, drop_drop.
  simpl. rewrite length_app, <- !app_assoc. do 4 f_equal. lia.
Qed.

Lemma length_write_at n l buf :
  (n + length l ≤ length buf)%nat → length (write_at n l buf) = length buf.
Proof. intros. unfold write_at. rewrite !length_app, length_take, length_drop. lia. Qed.

Lemma copy_part_at part : ∀ (n : nat) buf,
  (n + length part ≤ length buf)%nat →
  copy_part part (Z.of_nat n) buf = Ok (Z.of_nat (n + length part), write_at n part buf).
Proof.
  induction part as [|b part IH]; intros n buf Hn; simpl in *.
  { rewrite Nat.add_0_r. unfold retM, write_at. simpl. by rewrite Nat.add_0_r, take_drop. }
  mstep by (apply buf_put_at; lia).
  replace (Z.of_nat n + 1) with (Z.of_nat (S n)) by lia.
  rewrite IH by (rewrite length_write_at; simpl; lia).
  pose proof (write_at_write n [b] part buf) as Hw. simpl in Hw.
  replace (n + 1)%nat with (S n) in Hw by lia. rewrite Hw by lia. do 2 f_equal; lia.
Qed.

Lemma copy_parts_at parts : ∀ (n : nat) buf,
  (n + length (concat parts) ≤ length buf)%nat →
  copy_parts parts (Z.of_nat n) buf =
    Ok (Z.of_nat (n + length (concat parts)), write_at n (concat parts) buf).
Proof.
  induction parts as [|p parts IH]; intros n buf Hn; simpl in *.
  { rewrite Nat.add_0_r. unfold retM, write_at. simpl. by rewrite Nat.add_0_r, take_drop. }
  rewrite length_app in *. mstep by (apply copy_part_at; lia).
  rewrite IH by (rewrite length_write_at; lia).
  rewrite write_at_write by lia. do 2 f_equal. lia.
Qed.

(** ** Bootstrap *)

(** A request that fits, in full. *)
Lemma segalloc_eq want ref s m md :
  aget (shmmap s) 0 = Some m → segmd_at 0 m s = Some md → seg_ok 0 m md →
  0 < want ≤ 2 ^ 64 - alignsz →
  want + align_pad want ≤ end_avail md - first_avail md →
  dthread_shmseg_alloc 0 0 want (Some ref) s =
    Ok ((mapping m + first_avail md, Some (Shmref 0 (first_avail md) (want + align_pad want))),
        s <| segmds ::= <[(0, md_offset m) :=
               md <| first_avail := first_avail md + (want + align_pad want) |>]> |>).
Proof.
  intros Hm Hmd [Hg _ (?&?&?) Ha He _] Hw Hfit. unfold dthread_shmseg_alloc.
  rewrite bind_gets, Hm, bind_gets, Hmd, Hg, Z.eqb_refl. simpl.
  pose proof (align_pad_bounds want). destruct (total_small want) as [-> ?]; [lia|].
  destruct (Z.leb_spec (map_size m) (first_avail md)); [lia|].
  destruct (Z.leb_spec (end_avail md) (first_avail md)); [lia|]. simpl.
  rewrite (u64_small (end_avail md - _)) by lia.
  destruct (Z.eqb_spec (want + align_pad want) 0); [lia|].
  destruct (Z.ltb_spec (end_avail md - first_avail md) (want + align_pad want)); [lia|].
  unfold seg_take. rewrite bind_modify. simpl. by rewrite u64_small by lia.
Qed.

Lemma set_bytes_zero m k o n k' o' :
  m k' o' = 0 → set_bytes m k o n 0 k' o' = 0.
Proof. intros H. unfold set_bytes. by destruct (_ && _). Qed.

Lemma set_bytes_in m k o n v o' : o ≤ o' < o + n → set_bytes m k o n v k o' = v.
Proof.
  intros. unfold set_bytes. rewrite Z.eqb_refl.
  destruct (Z.leb_spec o o'); [|lia]. by destruct (Z.ltb_spec o' (o + n)); [|lia].
Qed.

Definition zeroed (x : rjob) (k o n : Z) : Prop := ∀ i, o ≤ i < o + n → rj_mem x k i = 0.

(** All ranks have segment 0, with its metadata at [off] and of size [sz]. *)
Definition boot_ready (off sz : Z) (x : rjob) : Prop :=
  ∀ r s, j_ranks (rj_job x) !! r = Some s →
    maps_ok (e_map s) ∧ segs_ok (rank_view s x) ∧
    ∃ m, aget (e_map s) 0 = Some m ∧ md_offset m = off ∧ map_size m = sz.

Section Boot.
Context (off sz lo hi maxthreads : Z) (stale : dthread_shmref_t) (a : run_args).
Hypothesis Hmax : ra_maxthreads a = maxthreads.
Hypothesis Hmaxb : 1 ≤ maxthreads < 2 ^ 31.

Definition gtsize : Z := maxthreads * sizeof_gtab.

(** What a rank has taken from the segment, and what it takes in all. *)
Definition boot_used (pc : boot_pc) : Z :=
  match pc with BStart => 0 | BMid _ => 32 | BEnd _ => 32 + gtsize | BErr _ => 0 end.
Definition boot_need : Z := 32 + gtsize.

Definition used (pcs : list boot_pc) : Z := foldr (λ pc n, boot_used pc + n) 0 pcs.

Lemma gtsize_facts : align_pad gtsize = 0 ∧ 0 < gtsize < 2 ^ 40 ∧ align_pad sizeof_shmref = 8 ∧
  u64 (maxthreads * sizeof_gtab) = gtsize.
Proof using Hmaxb.
  unfold gtsize, sizeof_gtab. split_and!; [|lia|lia|done|by rewrite u64_small by lia].
  unfold align_pad, alignsz. replace (maxthreads * 176) with (maxthreads * 11 * 16) by lia.
  by rewrite Z.mod_mul.
Qed.

Lemma used_insert pcs r pc pc' :
  pcs !! r = Some pc → used (<[r := pc']> pcs) = used pcs - boot_used pc + boot_used pc'.
Proof.
  unfold used. revert r. induction pcs as [|p pcs IH]; intros [|r] H; simplify_eq/=; [lia|].
  rewrite (IH r H). lia.
Qed.

Lemma used_le pcs : 0 ≤ used pcs ≤ Z.of_nat (length pcs) * boot_need.
Proof using Hmaxb.
  unfold used, boot_need. pose proof gtsize_facts.
  induction pcs as [|pc pcs IH]; simpl; [lia|]. destruct pc; simpl; lia.
Qed.

(** What a rank has reached: areas between [lo] and the break [fa], zeroed. *)
Definition boot_area (fa : Z) (x : rjob) (r : dthread_shmref_t) (n z : Z) : Prop :=
  dt_shmid r = 0 ∧ dt_length r = n ∧ lo ≤ dt_offset r ∧ dt_offset r + n ≤ fa ∧
  zeroed x 0 (dt_offset r) z.

Definition pc_good (fa : Z) (x : rjob) (pc : boot_pc) : Prop :=
  match pc with
  | BStart => True
  | BMid r => boot_area fa x r 32 sizeof_shmref
  | BEnd sb => boot_area fa x (boot_defarena sb) 32 sizeof_shmref ∧
      boot_area fa x (boot_gtab sb) gtsize gtsize ∧
      refs_disjoint (boot_defarena sb) (boot_gtab sb)
  | BErr _ => False
  end.

Record boot_inv (pcs : list boot_pc) (x : rjob) : Prop := {
  bi_ready : boot_ready off sz x;
  bi_md : ∃ md, j_md (rj_job x) !! (0, off) = Some md ∧ end_avail md = hi ∧
    first_avail md = lo + used pcs;
  bi_room : lo + Z.of_nat (length pcs) * boot_need ≤ hi;
  bi_pcs : Forall (pc_good (lo + used pcs) x) pcs }.

(** The break moves by [t]. *)
Lemma boot_ready_take x md t m :
  boot_ready off sz x → j_md (rj_job x) !! (0, off) = Some md →
  0 ≤ t → t mod alignsz = 0 → first_avail md + t ≤ end_avail md →
  boot_ready off sz (x <| rj_job ::= (λ j, j <| j_md ::=
    <[(0, off) := md <| first_avail := first_avail md + t |>]> |>) |> <| rj_mem := m |>).
Proof.
  intros Hr Hmd Ht Hal Hfit r s Hs. destruct (Hr r s Hs) as (Hmaps&Hsegs&m0&Hm0&Hoff&Hsz).
  split; [done|]. split; [|by exists m0]. intros k mk Hk. unfold segmd_at; simpl in *.
  destruct (Hsegs k mk Hk) as (mdk&Hmdk&Hok). unfold segmd_at in Hmdk; simpl in Hmdk.
  destruct (Z.eq_dec k 0) as [->|Hne].
  - simpl in *. assert (mk = m0) as -> by congruence. rewrite Hoff in *.
    assert (mdk = md) as -> by congruence. rewrite lookup_insert_eq.
    eexists; split; [done|]. destruct Hok as [? ? ? ? ? Hal0]. split; simpl; try done; [lia|].
    intros Hlt. rewrite Z.add_assoc. apply mod_add_0; [done|apply Hal0; lia|done].
  - rewrite lookup_insert_ne by congruence. by exists mdk.
Qed.

Lemma wp_on_shm {A} r s (op : M sst A) (Q : A → rjob → Prop) x :
  j_ranks (rj_job x) !! r = Some s →
  wp op (λ b t, Q b (x <| rj_job ::= (λ j, j <| j_md := segmds t |>) |> <| rj_mem := mem t |>))
    (rank_view s x) →
  wp (on_shm r op) Q x.
Proof. unfold wp, on_shm. intros ->. by destruct (op _) as [[b t]|]. Qed.

(** An allocation of [want] bytes, seen by one rank. *)
Lemma boot_alloc r s x md want (Q : Z * option dthread_shmref_t → sst → Prop) :
  boot_ready off sz x → j_ranks (rj_job x) !! r = Some s →
  j_md (rj_job x) !! (0, off) = Some md →
  0 < want ≤ 2 ^ 64 - alignsz → want + align_pad want ≤ end_avail md - first_avail md →
  (∀ m, aget (e_map s) 0 = Some m → maps_ok (e_map s) → 0 < mapping m →
     first_avail md + want + align_pad want ≤ map_size m → 0 ≤ first_avail md →
     Q (mapping m + first_avail md, Some (Shmref 0 (first_avail md) (want + align_pad want)))
       ((rank_view s x) <| segmds ::= <[(0, off) := md <| first_avail :=
         first_avail md + (want + align_pad want) |>]> |>)) →
  wp (dthread_shmseg_alloc 0 0 want (Some stale)) Q (rank_view s x).
Proof.
  intros Hr Hs Hmd Hw Hfit HQ. destruct (Hr r s Hs) as (Hmaps&Hsegs&m&Hm&Hoff&Hsz).
  destruct (Hsegs 0 m Hm) as (md'&Hmd'&Hok). unfold segmd_at in Hmd'; simpl in Hmd'.
  rewrite Hoff in Hmd'. assert (md' = md) as -> by congruence.
  pose proof Hok as [_ _ (?&?&?) Ha He _].
  eapply wp_eq; [eapply segalloc_eq; [exact Hm| |exact Hok|done|done];
    unfold segmd_at; simpl; by rewrite Hoff|].
  rewrite Hoff. apply HQ; done || lia.
Qed.

Lemma wp_memset0 s m o n (Q : unit → sst → Prop) :
  maps_ok (shmmap s) → aget (shmmap s) 0 = Some m → 0 < mapping m → 0 ≤ o → 0 < n →
  o + n ≤ map_size m → Q tt (s <| mem := set_bytes (mem s) 0 o n 0 |>) →
  wp (memset (mapping m + o) 0 n) Q s.
Proof.
  intros Hmaps Hm Hp Ho Hn Hle HQ. unfold memset.
  destruct (Z.eqb_spec (mapping m + o) 0); [lia|]. apply wp_bind, wp_gets.
  rewrite (locate_some _ 0 m) by (auto; lia). by apply wp_modify.
Qed.

Lemma pc_good_mono fa fa' x x' pc :
  fa ≤ fa' → (∀ k o, rj_mem x k o = 0 → rj_mem x' k o = 0) →
  pc_good fa x pc → pc_good fa' x' pc.
Proof.
  intros Hfa Hz. assert (∀ r n z, boot_area fa x r n z → boot_area fa' x' r n z) as Ha.
  { intros r n z (?&?&?&?&Hzero). split_and!; try done; [lia|]. intros i Hi. by apply Hz, Hzero. }
  destruct pc; simpl; try done; [apply Ha|]. intros (?&?&?). split_and!; auto.
Qed.

(** The invariant after a rank has taken [t] bytes more and zeroed [z] of them. *)
Lemma boot_inv_take pcs x md r pc pc' t m z :
  boot_inv pcs x → pcs !! r = Some pc → j_md (rj_job x) !! (0, off) = Some md →
  boot_used pc' = boot_used pc + t → 0 ≤ t → t mod alignsz = 0 →
  m = set_bytes (rj_mem x) 0 (first_avail md) z 0 →
  (∀ x', (∀ i, first_avail md ≤ i < first_avail md + z → rj_mem x' 0 i = 0) →
     (∀ k o, rj_mem x k o = 0 → rj_mem x' k o = 0) → pc_good (first_avail md + t) x' pc') →
  boot_inv (<[r := pc']> pcs) (x <| rj_job ::= (λ j, j <| j_md ::=
    <[(0, off) := md <| first_avail := first_avail md + t |>]> |>) |> <| rj_mem := m |>).
Proof using Hmaxb.
  intros [Hready (md0&Hmd0&Hhi&Hfa) Hroom Hpcs] Hpc Hmd Hused Ht Hal -> Hgood.
  assert (md0 = md) as -> by congruence.
  pose proof (used_insert _ _ _ pc' Hpc) as Hui. pose proof (used_le (<[r := pc']> pcs)) as Hu.
  rewrite length_insert in Hu.
  assert (∀ k o, rj_mem x k o = 0 → set_bytes (rj_mem x) 0 (first_avail md) z 0 k o = 0) as Hz
    by (intros; by apply set_bytes_zero).
  split.
  - apply boot_ready_take; [done|done|done|done|lia].
  - eexists. split; [apply lookup_insert_eq|]. simpl. split; [done|lia].
  - by rewrite length_insert.
  - apply Forall_insert.
    + eapply Forall_impl; [exact Hpcs|]. intros p. apply pc_good_mono; [lia|done].
    + replace (lo + used (<[r := pc']> pcs)) with (first_avail md + t) by lia. apply Hgood; [|done].
      intros i Hi. simpl. by apply set_bytes_in.
Qed.

(** One allocation of one rank. *)
Lemma boot_step_wp pcs x r pc s :
  boot_inv pcs x → pcs !! r = Some pc → j_ranks (rj_job x) !! r = Some s →
  wp (on_shm r (boot_step a stale pc)) (λ pc' x',
    boot_inv (<[r := pc']> pcs) x' ∧ j_ranks (rj_job x') = j_ranks (rj_job x) ∧
    match pc with BStart => ∃ d, pc' = BMid d | BMid _ => ∃ sb, pc' = BEnd sb | _ => pc' = pc end) x.
Proof using All.
  intros Hinv Hpc Hs. pose proof Hinv as [Hready (md&Hmd&Hhi&Hfa) Hroom Hpcs].
  pose proof gtsize_facts as (Hgp&Hgs&Hap&Hgu).
  pose proof (used_le (<[r := BEnd (Bootstrap stale stale)]> pcs)) as Hu.
  rewrite length_insert, (used_insert _ _ _ _ Hpc) in Hu. simpl in Hu. pose proof (used_le pcs).
  assert (pc_good (lo + used pcs) x pc) as Hgood by (by eapply Forall_lookup_1).
  eapply wp_on_shm; [done|]. destruct pc as [|d|sb|rv]; simpl in Hu; [..|done].
  - apply wp_bind, wp_bind. eapply boot_alloc; [done|done|done|by unfold sizeof_shmref, alignsz|
      rewrite Hap; unfold sizeof_shmref; lia|].
    intros m Hm Hmaps Hp Hend Hfa0. rewrite Hap in *. apply wp_bind.
    apply wp_memset0; try done; [unfold sizeof_shmref in *; lia|]. apply wp_ret, wp_ret.
    split; [|split; [done|by eexists]].
    eapply boot_inv_take; [done|done|done|simpl; unfold sizeof_shmref; lia|done|done|done|].
    intros x' Hz _. simpl. split_and!; simpl; try done; unfold sizeof_shmref; lia.
  - apply wp_bind. unfold bootstrap_gtab. rewrite Hmax, Hgu. apply wp_bind.
    eapply boot_alloc; [done|done|done|unfold alignsz; lia|rewrite Hgp; lia|].
    intros m Hm Hmaps Hp Hend Hfa0. rewrite Hgp, Z.add_0_r in *. simpl.
    destruct (Z.eqb_spec (mapping m + first_avail md) 0); [lia|]. apply wp_bind.
    apply wp_memset0; try (done || lia). apply wp_ret, wp_ret.
    split; [|split; [done|by eexists]].
    eapply boot_inv_take; [done|done|done|done|lia|
      unfold gtsize, sizeof_gtab, alignsz;
        replace (maxthreads * 176) with (maxthreads * 11 * 16) by lia; by apply Z.mod_mul|done|].
    intros x' Hz Hk. simpl. destruct Hgood as (?&?&?&?&Hzd). split; [|split].
    + do 4 (split; [done || lia|]). intros i Hi. by apply Hk, Hzd.
    + do 4 (split; [done || (simpl; lia)|]). exact Hz.
    + right. left. simpl. lia.
  - apply wp_ret. rewrite list_insert_id by done. split_and!; try done. by destruct x as [[] ?].
Qed.

(** The phase as a whole: a rank that occurs twice is done. *)
Definition boot_left (pc : boot_pc) : nat :=
  match pc with BStart => 2 | BMid _ => 1 | _ => 0 end.

Lemma boot_all_wp sched : ∀ pcs x,
  boot_inv pcs x → length (j_ranks (rj_job x)) = length pcs →
  Forall (λ r, (r < length pcs)%nat) sched →
  wp (boot_all a stale sched pcs) (λ pcs' x',
    boot_inv pcs' x' ∧ j_ranks (rj_job x') = j_ranks (rj_job x) ∧ length pcs' = length pcs ∧
    ∀ r pc pc', pcs !! r = Some pc → pcs' !! r = Some pc' →
      (boot_left pc' ≤ boot_left pc - count_occ Nat.eq_dec sched r)%nat) x.
Proof using All.
  induction sched as [|r sched IH]; intros pcs x Hinv Hlen Hin; simpl.
  { apply wp_ret. split_and!; try done. intros; simplify_eq. lia. }
  apply Forall_cons_1 in Hin as [Hr Hin].
  destruct (lookup_lt_is_Some_2 pcs r Hr) as [pc Hpc].
  destruct (lookup_lt_is_Some_2 (j_ranks (rj_job x)) r) as [s Hs]; [lia|].
  apply wp_bind, (wp_get_some _ _ pc); [done|]. apply wp_bind.
  eapply wp_mono; [by eapply boot_step_wp|]. intros pc' x1 (Hinv1&Hj1&Hstep).
  eapply wp_mono; [apply IH; [done|by rewrite Hj1, length_insert|by rewrite length_insert]|].
  intros pcs' x2 (Hinv2&Hj2&Hlen2&Hleft). split_and!; [done|congruence|by rewrite length_insert in Hlen2|].
  intros k p p' Hp Hp'. destruct (Nat.eq_dec r k) as [->|Hne].
  - simplify_eq. specialize (Hleft k pc' p' (list_lookup_insert_eq pcs k pc' Hr) Hp').
    destruct (Nat.eq_dec k k); [|done].
    destruct pc; [destruct Hstep as [? ->]|destruct Hstep as [? ->]|subst pc'|subst pc'];
      simpl in *; lia.
  - apply (Hleft k p p'); [|done]. by rewrite list_lookup_insert_ne.
Qed.
End Boot.

(** ** The state handed to the manager *)

Lemma ld32_zero m k o : (∀ i, o ≤ i < o + 4 → m k i = 0) → ld32 m k o = 0.
Proof.
  intros Hz. unfold ld32. rewrite (load_le_ext 4 m (λ _ _, 0)); [done|].
  intros i Hi. apply Hz. lia.
Qed.

Lemma count_if_zero {A} (f : A → bool) l : Forall (λ x, f x = false) l → count_if f l = 0.
Proof. induction 1 as [|x l Hx _ IH]; simpl; [done|]. by rewrite Hx, IH. Qed.

Lemma aget_ltab_setup n i l :
  aget (ltab_setup n) i = Some l → l = Ltab 0 0 LT_NONE (idle_req i).
Proof.
  unfold aget, ltab_setup. destruct (Z.leb_spec 0 i); [|done].
  rewrite list_lookup_fmap. intros (j&Hj&->)%fmap_Some. apply lookup_seq in Hj as [-> _].
  simpl. by rewrite Z2Nat.id.
Qed.

(** A rank with an empty table, nothing queued and nothing pending. *)
Lemma fresh_rank_ok c gt :
  config_ok c → Z.of_nat (length gt) = nmaxthread c →
  Forall (λ g, gtab_used g = false) gt →
  rank_ok c [] [] (Dtst (u32 (mpi_rank c + mpi_wsize c)) (ltab_setup (nmaxthread c)) gt
    ∅ dtq_init mgrstate_zero 0 0 ∅ []).
Proof.
  intros Hc Hgt Hfree. pose proof Hc as [Hrank Hws Hmax Hdsps]. split.
  - split; simpl.
    + done.
    + unfold ltab_setup. rewrite length_fmap, length_seq. lia.
    + by rewrite count_if_zero.
    + rewrite count_if_zero; [done|]. unfold ltab_setup. apply Forall_fmap, Forall_true. done.
    + lia.
    + lia.
  - exists 0. destruct (seq_period_bounds c Hc). split; [lia|]. unfold seq_at. simpl.
    rewrite u32_small; lia.
  - split; simpl; try done. by left.
  - split_and!; simpl; [constructor|constructor|done].
  - assert (∀ i q, req_lookup (Dtst (u32 (mpi_rank c + mpi_wsize c)) (ltab_setup (nmaxthread c)) gt
      ∅ dtq_init mgrstate_zero 0 0 ∅ []) (RLtab i) = Some q → reqstate q ≠ DTREQ_INTERNAL) as Hl.
    { intros i q. simpl. intros (l&Hl&->)%fmap_Some. by apply aget_ltab_setup in Hl as ->. }
    split; [constructor| | | |exact Hl|]; simpl.
    + by intros r Hr%not_elem_of_nil.
    + by intros r Hr%not_elem_of_nil.
    + done.
    + by intros r r' q q' Hr%not_elem_of_nil.
Qed.

Section Tables.
Context (off sz lo hi : Z) (nranks : nat) (a : run_args) (stale : dthread_shmref_t).
Context (calloc_ok : nat → nat → bool) (create_rv : nat → Z).
Hypothesis Hmaxb : 1 ≤ ra_maxthreads a < 2 ^ 31.
Hypothesis Hdsps : 1 ≤ Z.of_nat (length (ra_dsps a)) < 2 ^ 31.
Hypothesis Hranks : (0 < nranks)%nat ∧ Z.of_nat nranks ≤ 2 ^ 30.

(** A rank that is ready, with the job's references. *)
Record rank_ready (x : rjob) (sb : dthread_shm_bootstrap_t) (r : nat) (d : ready) : Prop := {
  rr_config : config_ok (rd_config d) ∧ mpi_rank (rd_config d) = Z.of_nat r ∧
    mpi_wsize (rd_config d) = Z.of_nat nranks ∧ nmaxthread (rd_config d) = ra_maxthreads a ∧
    dsps (rd_config d) = ra_dsps a;
  rr_rank : rank_ok (rd_config d) [] [] (rd_state d);
  rr_ptrs : ∃ s m, j_ranks (rj_job x) !! r = Some s ∧ aget (e_map s) 0 = Some m ∧
    rd_da_src d = mapping m + dt_offset (boot_defarena sb) ∧
    rd_gtab d = mapping m + dt_offset (boot_gtab sb) }.

Lemma boot_area_ptr x s m fa (n z : Z) ref :
  maps_ok (e_map s) → aget (e_map s) 0 = Some m → 0 ≤ lo → 0 < n → fa ≤ map_size m →
  boot_area lo fa x ref n z →
  dthread_shmref2ptr (e_map s) (Some ref) 0 = mapping m + dt_offset ref ∧
  0 < mapping m + dt_offset ref ∧
  locate (e_map s) (mapping m + dt_offset ref) n = Some (0, dt_offset ref).
Proof.
  clear Hmaxb Hdsps Hranks. intros Hmaps Hm Hlo Hn Hfa (Hid&Hlen&Hoff&Hend&_).
  assert (map_ok m) as (?&?&?).
  { destruct Hmaps as [Hmaps _]. unfold aget in Hm. simpl in Hm. by eapply Hmaps. }
  split_and!; [|lia|apply locate_some; auto; lia].
  unfold dthread_shmref2ptr. rewrite Hid, Hm, Hlen.
  destruct (Z.leb_spec (map_size m) (dt_offset ref)); [lia|].
  by destruct (Z.ltb_spec (map_size m - dt_offset ref) n); [lia|].
Qed.

Lemma run_tables_wp pcs x sb r :
  boot_inv off sz lo hi (ra_maxthreads a) pcs x → pcs !! 0%nat = Some (BEnd sb) → 0 ≤ lo →
  (r < nranks)%nat → length (j_ranks (rj_job x)) = nranks →
  calloc_ok r 1%nat = true → create_rv r = 0 →
  wp (run_tables nranks a calloc_ok create_rv sb r)
    (λ o x', x' = x ∧ ∃ d, o = Some d ∧ rank_ready x sb r d) x.
Proof using All.
  intros [Hready (md&Hmd&Hhi&Hfa) Hroom Hpcs] Hpc Hlo Hr Hlen Hcal Hcr.
  pose proof (gtsize_facts (ra_maxthreads a) Hmaxb) as (_&Hgs&_).
  destruct (lookup_lt_is_Some_2 (j_ranks (rj_job x)) r) as [s Hs]; [lia|].
  destruct (Hready r s Hs) as (Hmaps&Hsegs&m&Hm&Hoff&Hsz).
  destruct (Hsegs 0 m Hm) as (md'&Hmd'&[_ _ (?&?&?) ? ? _]).
  unfold segmd_at in Hmd'; simpl in Hmd'. rewrite Hoff in Hmd'.
  assert (md' = md) as -> by congruence.
  assert (pc_good lo (ra_maxthreads a) (lo + used (ra_maxthreads a) pcs) x (BEnd sb))
    as (Hda&Hgt&_) by (by eapply Forall_lookup_1).
  edestruct (boot_area_ptr x s m) as (Epa&Hpa&_); [done|done|done| | |exact Hda|]; [lia|lia|].
  edestruct (boot_area_ptr x s m) as (Epg&Hpg&Eloc); [done|done|done| | |exact Hgt|]; [lia|lia|].
  unfold run_tables. apply wp_bind, wp_gets, wp_bind, (wp_get_some _ _ s); [done|].
  cbv zeta. rewrite Epa, Epg, (proj2 (Z.eqb_neq _ _)), (proj2 (Z.eqb_neq _ _)), Hcal by lia.
  simpl. rewrite Hcr. simpl. apply wp_bind, (wp_get_some _ _ (0, dt_offset (boot_gtab sb))); [done|].
  apply wp_ret. split; [done|]. eexists. split; [done|].
  assert (config_ok (Config (Z.of_nat r) (Z.of_nat nranks) (ra_maxthreads a) (ra_dsps a))) as Hc.
  { split; simpl; [lia|lia|done|done]. }
  split; [done| |exists s, m; by split_and!].
  apply (fresh_rank_ok _ _ Hc); simpl.
  - rewrite length_fmap, length_seq. lia.
  - apply Forall_fmap, Forall_forall. intros i [_ Hi]%elem_of_seq. simpl.
    rewrite gtab_used_eq. simpl. rewrite ld32_zero; [done|]. intros o Ho.
    destruct Hgt as (_&_&_&_&Hz). apply Hz. unfold gtsize, sizeof_gtab in *. nia.
Qed.

Lemma run_ranks_wp pcs x sb l :
  boot_inv off sz lo hi (ra_maxthreads a) pcs x → pcs !! 0%nat = Some (BEnd sb) → 0 ≤ lo →
  Forall (λ r, (r < nranks)%nat ∧ calloc_ok r 1%nat = true ∧ create_rv r = 0) l →
  length (j_ranks (rj_job x)) = nranks →
  wp (run_ranks nranks a calloc_ok create_rv sb l)
    (λ o x', x' = x ∧ ∃ ds, o = Some ds ∧ Forall2 (rank_ready x sb) l ds) x.
Proof using All.
  intros Hinv Hpc Hlo Hl Hlen. induction Hl as [|r l (Hr&Hcal&Hcr) _ IH]; simpl.
  { apply wp_ret. split; [done|]. eexists. by split; [|constructor]. }
  apply wp_bind. eapply wp_mono; [by eapply run_tables_wp|]. intros o x1 (->&d&->&Hd).
  apply wp_bind. eapply wp_mono; [exact IH|]. intros o x2 (->&ds&->&Hds). apply wp_ret.
  split; [done|]. eexists. by split; [|constructor].
Qed.
End Tables.

(** ** All ranks *)

Lemma in_job_ok {A} (op : M job A) x b j :
  op (rj_job x) = Ok (b, j) → in_job op x = Ok (b, x <| rj_job := j |>).
Proof. unfold in_job. by intros ->. Qed.

(** The established job satisfies what the bootstrap needs. *)
Lemma job_done_boot_ready pagesize tab j j1 src m :
  job_done pagesize tab j j1 → tab !! 0%nat = Some src →
  (∀ r s, j_ranks j1 !! r = Some s → maps_ok (e_map s)) →
  boot_ready (seg_off pagesize src) (dt_mmsize src) (Rjob j1 m).
Proof.
  intros [Hseg _ _ [_ Hsize]] Hsrc Hmaps r s Hs. specialize (Hmaps r s Hs).
  specialize (Hsize r s Hs). split; [done|]. split.
  - intros k mk Hk. pose proof (aget_Some_range _ _ _ Hk) as Hrg. simpl in Hrg.
    destruct (lookup_lt_is_Some_2 tab (Z.to_nat k)) as [src' Hsrc']; [lia|].
    destruct (Hseg r s _ _ Hs Hsrc') as (m'&d&Hm'&_&_&Hd&Hgood).
    rewrite Z2Nat.id in Hd, Hgood by lia.
    unfold aget in Hk. simpl in Hk. destruct (Z.leb_spec 0 k); [|lia].
    assert (m' = mk) as -> by congruence. by exists d.
  - destruct (Hseg r s _ _ Hs Hsrc) as (m'&d&Hm'&?&?&_). by exists m'.
Qed.

Lemma boot_inv_start off sz lo hi a x n md :
  1 ≤ ra_maxthreads a < 2 ^ 31 → boot_ready off sz x →
  j_md (rj_job x) !! (0, off) = Some md → first_avail md = lo → end_avail md = hi →
  lo + Z.of_nat n * boot_need (ra_maxthreads a) ≤ hi →
  boot_inv off sz lo hi (ra_maxthreads a) (replicate n BStart) x.
Proof.
  intros Hmax Hr Hmd Hlo Hhi Hroom.
  assert (used (ra_maxthreads a) (replicate n BStart) = 0) as Hu.
  { unfold used. clear. induction n; simpl; [done|]. by rewrite IHn. }
  split; [done| |by rewrite length_replicate|].
  - exists md. split_and!; try done. rewrite Hu. lia.
  - apply Forall_replicate. done.
Qed.

(** What the job has once all ranks are ready. *)
Record job_ready (nranks : nat) (a : run_args) (x : rjob) (ds : list ready)
    (sb : dthread_shm_bootstrap_t) : Prop := {
  jr_ranks : Forall2 (rank_ready nranks a x sb) (seq 0 nranks) ds;
  jr_arena : zeroed x 0 (dt_offset (boot_defarena sb)) sizeof_shmref;
  jr_disj : refs_disjoint (boot_defarena sb) (boot_gtab sb);
  jr_len : dt_length (boot_gtab sb) = ra_maxthreads a * sizeof_gtab;
  jr_break : ∀ r s, j_ranks (rj_job x) !! r = Some s →
    dt_offset (boot_defarena sb) + dt_length (boot_defarena sb) ≤ (seg_room 0 (rank_view s x)).1 ∧
    dt_offset (boot_gtab sb) + dt_length (boot_gtab sb) ≤ (seg_room 0 (rank_view s x)).1 }.

(** From the bootstrap on. *)
Section Phase.
Context (off sz lo hi : Z) (nranks : nat) (a : run_args) (stale : dthread_shmref_t).
Hypothesis Hmaxb : 1 ≤ ra_maxthreads a < 2 ^ 31.
Hypothesis Hdsps : 1 ≤ Z.of_nat (length (ra_dsps a)) < 2 ^ 31.
Hypothesis Hranks : (0 < nranks)%nat ∧ Z.of_nat nranks ≤ 2 ^ 30.
Hypothesis Hlo : 0 ≤ lo.

Lemma boot_inv_ncoll pcs x n :
  boot_inv off sz lo hi (ra_maxthreads a) pcs x →
  boot_inv off sz lo hi (ra_maxthreads a) pcs (x <| rj_job ::= (λ j, j <| j_ncoll := n |>) |>).
Proof. by intros []; split. Qed.

Lemma boot_inv_ready pcs x sb ds :
  boot_inv off sz lo hi (ra_maxthreads a) pcs x → pcs !! 0%nat = Some (BEnd sb) →
  Forall2 (rank_ready nranks a x sb) (seq 0 nranks) ds → job_ready nranks a x ds sb.
Proof.
  clear Hmaxb Hdsps Hranks Hlo. intros [Hr (md&Hmd&_&Hfa) _ Hpcs] Hpc Hds.
  assert (pc_good lo (ra_maxthreads a) (lo + used (ra_maxthreads a) pcs) x (BEnd sb))
    as ((_&Hlen&_&Hend&Hz)&(_&Hlen'&_&Hend'&_)&Hdis) by (by eapply Forall_lookup_1).
  split; try done. intros r s Hs. destruct (Hr r s Hs) as (_&_&m&Hm&Hoff&_).
  unfold seg_room. simpl. rewrite Hm. unfold segmd_at. simpl. rewrite Hoff, Hmd. simpl. lia.
Qed.

Lemma boot_phase sched x :
  boot_inv off sz lo hi (ra_maxthreads a) (replicate nranks BStart) x →
  length (j_ranks (rj_job x)) = nranks → Forall (λ r, (r < nranks)%nat) sched →
  (∀ r, (r < nranks)%nat → (2 ≤ count_occ Nat.eq_dec sched r)%nat) →
  wp (pcs <- boot_all a stale sched (replicate nranks BStart);;
      ok <- in_job (collective (λ _, true));;
      match pcs !! 0%nat with
      | Some (BEnd shmboot) =>
          if negb ok || existsb (λ pc, match pc with BErr _ => true | _ => false end) pcs
          then retM None
          else run_ranks nranks a (λ _ _, true) (λ _, 0) shmboot (seq 0 nranks)
      | _ => retM None
      end) (λ o x', ∃ ds sb, o = Some ds ∧ job_ready nranks a x' ds sb) x.
Proof using All.
  intros Hinv Hlen Hsched Htwice. apply wp_bind.
  eapply wp_mono; [eapply boot_all_wp; [done|done|done|by rewrite length_replicate|]|].
  { by rewrite length_replicate. }
  intros pcs x1 (Hinv1&Hj1&Hlen1&Hleft). rewrite length_replicate in Hlen1.
  pose proof (bi_pcs _ _ _ _ _ _ _ Hinv1) as Hgood. rewrite Forall_forall in Hgood.
  destruct (lookup_lt_is_Some_2 pcs 0) as [pc Hpc]; [lia|].
  assert (∃ sb, pc = BEnd sb) as [sb ->].
  { specialize (Hleft 0%nat BStart pc (lookup_replicate_2 _ _ _ (proj1 Hranks)) Hpc).
    specialize (Htwice 0%nat (proj1 Hranks)).
    pose proof (Hgood pc (list_elem_of_lookup_2 _ _ _ Hpc)) as Hp.
    destruct pc; simpl in *; [lia|lia|by eexists|done]. }
  apply wp_bind. eapply wp_eq; [by apply in_job_ok|]. cbv beta. rewrite Hpc.
  replace (existsb _ pcs) with false.
  2: { symmetry. apply not_true_iff_false. intros (p&Hp&Hb)%existsb_exists.
       apply list_elem_of_In in Hp. specialize (Hgood p Hp). by destruct p. }
  simpl. eapply wp_mono; [eapply (run_ranks_wp off sz lo hi nranks a stale (λ _ _, true) (λ _, 0));
    [done|done|done|by apply boot_inv_ncoll|done|done| |]|].
  - apply Forall_forall. intros r [_ Hr]%elem_of_seq. by split_and!.
  - simpl. by rewrite Hj1.
  - intros o x2 (->&ds&->&Hds). exists ds, sb. split; [done|].
    eapply boot_inv_ready; [by apply boot_inv_ncoll|done|exact Hds].
Qed.
End Phase.

(** C15. [dthread_run] brings the job up: with valid arguments, enough room in
    segment 0 for every rank's bootstrap and no failing call, and for every
    order of the ranks' allocations, all ranks reach the manager loop.  Each has
    a valid configuration and a state that satisfies the manager's invariant,
    its own pointers to one default arena cell and one global thread table
    (rank 0's), both zeroed, disjoint, and out of reach of later allocations. *)
Theorem dthread_run_ready {W : Type} (P : pthreads W) (oss : nat → os) (pagesize : Z) (nranks : nat)
    (a : run_args) (stale : dthread_shmref_t) (sched : list nat) (x : rjob) (j1 : job)
    (Hpages : pages_ok pagesize) (Hchecks : run_checks P a = true)
    (Htab : Forall (λ src, src_ok src ∧ ∀ r, os_pages pagesize (oss r) src) (ra_shms a))
    (Hsizes : ra_maxthreads a < 2 ^ 31 ∧ Z.of_nat (length (ra_dsps a)) < 2 ^ 31 ∧
      (0 < nranks)%nat ∧ Z.of_nat nranks ≤ 2 ^ 30)
    (Hx : length (j_ranks (rj_job x)) = nranks ∧
      ∀ r s, j_ranks (rj_job x) !! r = Some s → Forall (λ fd, 0 ≤ fd) (e_fds s))
    (Hest : match install_shmmap a x with
            | Ok (_, x) => dthread_shmseg_establish oss pagesize (λ _, true) nranks (ra_shms a) (rj_job x)
            | Crash f => Crash f
            end = Ok (Some 0, j1))
    (Hmaps : ∀ r s, j_ranks j1 !! r = Some s → maps_ok (e_map s))
    (Hroom : ∀ r s, j_ranks j1 !! r = Some s →
      let room := seg_room 0 (rank_view s (Rjob j1 (rj_mem x))) in
      room.1 + Z.of_nat nranks * (32 + ra_maxthreads a * sizeof_gtab) ≤ room.2)
    (Hsched : Forall (λ r, (r < nranks)%nat) sched)
    (Htwice : ∀ r, (r < nranks)%nat → (2 ≤ count_occ Nat.eq_dec sched r)%nat) :
  ∃ ds x' sb, dthread_run P oss pagesize (λ _, true) nranks a stale (λ _ _, true) (λ _, 0) sched x =
      Ok (Some ds, x') ∧ job_ready nranks a x' ds sb.
Proof.
  destruct Hsizes as (Hmax&Hdsps&Hn&Hws). destruct Hx as [Hlen Hfds].
  pose proof Hchecks as Hck. unfold run_checks in Hck. breflect.
  destruct (ra_shms a) as [|src shms] eqn:Eshms; [by simpl in *|]. rewrite <- Eshms in *.
  set (x1 := x <| rj_job ::= (λ j, j <| j_ranks ::=
    fmap (λ s, s <| e_map := replicate (length (ra_shms a)) zero_map |>) |>) |>).
  change (dthread_shmseg_establish oss pagesize (λ _, true) nranks (ra_shms a) (rj_job x1) =
    Ok (Some 0, j1)) in Hest.
  destruct (shmseg_establish_spec oss pagesize (λ _, true) nranks (ra_shms a) (rj_job x1))
    as (res&j'&He&Hres); [done|done| |].
  { split; [done|]. split; [by simpl; rewrite length_fmap|]. intros r s Hs. simpl in Hs.
    rewrite list_lookup_fmap in Hs. apply fmap_Some in Hs as (s0&Hs0&->). split; [done|].
    simpl. by eapply Hfds. }
  rewrite Hest in He. injection He as <- <-. destruct Hres as [[_ Hdone]|[? _]]; [|done].
  assert (∃ ds x', dthread_run P oss pagesize (λ _, true) nranks a stale (λ _ _, true) (λ _, 0) sched x =
    Ok (ds, x') ∧ ∃ l sb, ds = Some l ∧ job_ready nranks a x' l sb) as (ds&x'&E&l&sb&->&Hj);
    [|by exists l, x', sb].
  apply wp_ok. unfold dthread_run. rewrite Hchecks, (proj2 (forallb_forall _ _)) by done. simpl.
  apply wp_bind, wp_modify. fold x1.
  apply wp_bind. eapply wp_eq; [by apply in_job_ok|]. cbv beta iota.
  apply wp_bind. eapply wp_eq; [by apply in_job_ok|]. simpl.
  assert (foldr Z.add 0 (replicate nranks 1) = Z.of_nat nranks) as ->
    by (clear; induction nranks; simpl; lia).
  rewrite Z.ltb_irrefl. pose proof (jd_size _ _ _ _ Hdone) as [Hlen1 _].
  simpl in Hlen1. rewrite length_fmap, Hlen in Hlen1.
  destruct (lookup_lt_is_Some_2 (j_ranks j1) 0) as [s0 Hs0]; [lia|].
  assert (ra_shms a !! 0%nat = Some src) as Hsrc by by rewrite Eshms.
  destruct (jd_seg _ _ _ _ Hdone 0 s0 0 src Hs0 Hsrc) as (m&d&Hm&_&Hoff&Hd&Hok).
  rewrite Hoff in Hd. simpl in Hd.
  specialize (Hroom 0%nat s0 Hs0). cbv zeta in Hroom.
  rewrite (seg_room_eq 0 m d) in Hroom by (done || (unfold segmd_at; simpl; by rewrite Hoff)).
  destruct Hok as [_ _ _ [Hfa _] _ _].
  eapply (boot_phase (seg_off pagesize src) (dt_mmsize src) (first_avail d) (end_avail d));
    [lia|lia|done|done| |done|done|done].
  eapply boot_inv_start; [lia| |done|done|done|exact Hroom].
  pose proof (job_done_boot_ready _ _ _ _ _ (rj_mem x) Hdone Hsrc Hmaps) as Hr. exact Hr.
Qed.

Definition demo_args : run_args := RunArgs (dsps demo_cfg) [demo_usrc] DTHREAD_SYNCOP_ID_PSHARED 3.
Definition demo_rjob : rjob := Rjob demo_job (λ _ _, 7).
Definition demo_sched : list nat := [1; 0; 0; 1]%nat.

(** The job after the segment is established. *)
Definition demo_est : job := Eval vm_compute in
  match dthread_shmseg_establish demo_oss 4096 (λ _, true) 2 [demo_usrc] demo_job with
  | Ok (_, j) => j
  | Crash _ => demo_job
  end.

Lemma dthread_run_ready_witness :
  ∃ ds x' sb, dthread_run (demo_pthreads 0) demo_oss 4096 (λ _, true) 2 demo_args (Shmref 9 9 9)
      (λ _ _, true) (λ _, 0) demo_sched demo_rjob = Ok (Some ds, x') ∧
    job_ready 2 demo_args x' ds sb.
Proof.
  apply (dthread_run_ready (demo_pthreads 0) demo_oss 4096 2 demo_args (Shmref 9 9 9) demo_sched
    demo_rjob demo_est).
  - split; [unfold sizeof_seg_md; lia|done].
  - done.
  - constructor; [|constructor]. split; [apply (demo_usrc_ok 0)|apply demo_usrc_ok].
  - simpl. lia.
  - split; [done|]. intros [|[|r]] s Hs; simplify_eq/=; repeat constructor; lia.
  - vm_compute. reflexivity.
  - intros [|[|r]] s Hs; simplify_eq/=; (split; [intros [|i] m Hm; simplify_eq/=; unfold map_ok; simpl; lia
      |intros [|i] [|i'] m1 m2 Hne H1 H2; simplify_eq/=; done]).
  - intros [|[|r]] s Hs; simplify_eq/=; vm_compute; discriminate.
  - repeat constructor.
  - intros [|[|r]] Hr; simpl; lia.
Defined.

(** When segment 0 has no room left, the allocation of the default arena
    cell fails and [dthread_shm_bootstrap] clears it before any test: it writes
    through a null pointer.  (For the thread table it does test and returns
    [ENOMEM].) *)
Theorem bootstrap_full_segment_faults (stale : dthread_shmref_t) (maxthreads : Z) (s : sst)
    (Hok : segs_ok s) (Hfull : (seg_room 0 s).2 - (seg_room 0 s).1 < 32) :
  dthread_shm_bootstrap stale 0 maxthreads s = Crash NullDeref.
Proof.
  pose proof (segalloc_wp 0 0 sizeof_shmref (Some stale) s Hok) as Hw.
  apply wp_ok in Hw as (res&s'&E&Hres&_);
    [|done|unfold sizeof_shmref, alignsz; lia|done].
  unfold seg_result in Hres. destruct (seg_room 0 s) as [lo hi]. simpl in *.
  change (seg_total sizeof_shmref (hi - lo)) with 32 in Hres.
  rewrite decide_False in Hres by lia.
  destruct Hres as [-> ->]. unfold dthread_shm_bootstrap, bootstrap_defarena, bindM at 1 2.
  by rewrite E.
Qed.

Definition demo_full : sst :=
  Sst [Shmmap 0x10000 0 0x4000] None (Shmref 0 0 0)
    {[ (0, 0) := Segmd DTHREAD_SEG_MD_MAGIC (Shmref 0 0 0x4000) 2 0 0x3ff0 0x4000 ]} ∅ (λ _ _, 0).

Lemma bootstrap_full_segment_faults_witness :
  dthread_shm_bootstrap (Shmref 9 9 9) 0 3 demo_full = Crash NullDeref.
Proof.
  apply bootstrap_full_segment_faults; [|done].
  intros k m Hm. pose proof (aget_Some_range _ _ _ Hm). simpl in *.
  assert (k = 0) as -> by lia. injection Hm as <-.
  eexists. split; [reflexivity|]. split; simpl; try done; unfold map_ok; simpl; lia.
Defined.

(** [strgen] is exact: it returns the concatenation of its parts with a
    final 0 and no byte beyond, never writes outside the buffer it allocated,
    and returns 0 only when [malloc] fails. *)
Theorem strgen_exact (malloc : Z → option (list Z)) (parts : list (list Z))
    (Hlen : 1 + Z.of_nat (length (concat parts)) < 2 ^ 64)
    (Hmalloc : ∀ n buf, malloc n = Some buf → Z.of_nat (length buf) = n) :
  strgen malloc parts =
    match malloc (1 + Z.of_nat (length (concat parts))) with
    | None => Ok (0, None)
    | Some _ => Ok (1 + Z.of_nat (length (concat parts)), Some (concat parts ++ [0]))
    end.
Proof.
  unfold strgen. rewrite strgen_len_sum by lia.
  destruct (malloc _) as [buf|] eqn:E; [|done]. apply Hmalloc in E.
  mstep by (apply (copy_parts_at parts 0); lia). simpl.
  rewrite buf_put_at by (rewrite length_write_at; lia).
  pose proof (write_at_write 0 (concat parts) [0] buf) as Hw. simpl in Hw. rewrite Hw by lia.
  unfold write_at. simpl. rewrite drop_ge by (rewrite length_app; simpl; lia).
  by rewrite app_nil_r.
Qed.

Definition demo_malloc (n : Z) : option (list Z) :=
  if 0 <=? n then Some (replicate (Z.to_nat n) 170) else None.

Lemma strgen_exact_witness :
  strgen demo_malloc [[47; 116]; []; [48]] = Ok (4, Some [47; 116; 48; 0]).
Proof.
  apply (strgen_exact demo_malloc [[47; 116]; []; [48]]); [done|]. unfold demo_malloc. intros n buf.
  destruct (Z.leb_spec 0 n); [|done]. intros [= <-]. rewrite length_replicate. lia.
Defined.

(** [dthread_init] sets the rank up once: a second call is refused. *)
Lemma dthread_init_busy st argv0 d :
  d_wsize d ≠ 0 → dthread_init st argv0 d = Ok (IRet EBUSY, d).
Proof.
  intros Hd. unfold dthread_init. rewrite bind_gets. unfold id.
  by rewrite (proj2 (Z.eqb_neq _ _) Hd).
Qed.

Lemma dthread_init_ok st argv0 :
  st_init st = 0 → (st_rank st).1 = 0 → (st_size st).1 = 0 → st_key st = 0 →
  sizeof_uintptr st = sizeof_ulong st →
  0 ≤ (st_rank st).2 < (st_size st).2 → (st_size st).2 ≤ 2 ^ 30 →
  dthread_init st argv0 dtrs_zero =
    Ok (IRet 0, Dtrs argv0 (st_rank st).2 (st_size st).2 (sizeof_uintptr st)
          (u32 ((st_rank st).2 + (st_size st).2)) (st_pagesize st)).
Proof.
  intros Hi Hr Hs Hk Hu Hrank Hsize. unfold dthread_init, bindM, gets, modify, id. simpl.
  rewrite Hi, Hr, Hs, Hk. simpl. rewrite Hu, Z.eqb_refl, andb_false_r. simpl.
  unfold int_ok. destruct (Z.leb_spec (- 2 ^ 31) ((st_rank st).2 + (st_size st).2)); [|lia].
  by destruct (Z.ltb_spec ((st_rank st).2 + (st_size st).2) (2 ^ 31)); [|lia].
Qed.
