(* ===== verification/Job.v ===== *)
(** * The whole job

    All ranks together: one global thread table in shared memory, a network of
    packets that MPI may deliver in any order, and in each rank the manager,
    the MPI thread and the application threads of [Node], interleaved in any
    way.  The theorems hold until the shutdown begins: every request that waits
    is carried by exactly one message or one waiting request of rank 0, so no
    answer is lost, duplicated or misdirected, and no manager faults. *)

From S2P Require Import Prelude Types Router Queuing ThreadTab Manager ManagerInv ManagerSafe Lifecycle Spawn Ledger ThreadOps Requests AppSteps Node Init.

(** ** Sums over the ranks *)

Lemma tally_le {A} (f g : A → Z) l : (∀ x, x ∈ l → f x ≤ g x) → tally f l ≤ tally g l.
Proof.
  induction l as [|a l IH]; intros H; simpl; [done|]. pose proof (H a ltac:(by left)).
  specialize (IH (λ x Hx, H x ltac:(by right))). lia.
Qed.

Lemma tally_pos {A} (f : A → Z) l : 0 < tally f l → ∃ x, x ∈ l ∧ 0 < f x.
Proof.
  induction l as [|a l IH]; simpl; [lia|]. intros H. destruct (decide (0 < f a)); [exists a; split; [left|done]|].
  destruct IH as (x & ? & ?); [lia|]. exists x. split; [by right|done].
Qed.

Lemma tally_elem {A} (f : A → Z) l x : (∀ y, y ∈ l → 0 ≤ f y) → x ∈ l → f x ≤ tally f l.
Proof.
  intros Hn Hx. apply list_elem_of_split in Hx as (k & k' & ->).
  assert (∀ l', (∀ y, y ∈ l' → 0 ≤ f y) → 0 ≤ tally f l') as Hnn.
  { intros l'. induction l' as [|a l' IH]; simpl; intros H; [done|]. pose proof (H a ltac:(by left)).
    specialize (IH (λ x Hx, H x ltac:(by right))). lia. }
  rewrite tally_app. simpl. pose proof (Hnn k ltac:(intros; apply Hn; solve_in)). pose proof (Hnn k' ltac:(intros; apply Hn; solve_in)). lia.
Qed.

Lemma tally_add {A} (f g : A → Z) l : tally (λ x, f x + g x) l = tally f l + tally g l.
Proof. induction l; simpl; lia. Qed.

Lemma tally_concat {A B} (f : B → Z) (g : A → list B) l :
  tally f (concat (g <$> l)) = tally (λ x, tally f (g x)) l.
Proof. induction l; csimpl; rewrite ?tally_app; lia. Qed.

Lemma elem_of_concat {A} (x : A) ls : x ∈ concat ls ↔ ∃ l, x ∈ l ∧ l ∈ ls.
Proof.
  induction ls as [|l ls IH]; simpl; [rewrite elem_of_nil; split; [done|by intros (? & _ & ?%elem_of_nil)]|].
  rewrite elem_of_app, IH. split.
  - intros [?|(l' & ? & ?)]; [exists l; split; [done|left]|exists l'; split; [done|by right]].
  - intros (l' & ? & [->|?]%elem_of_cons); [by left|right; eauto].
Qed.

Lemma occ_tally k l : occ k l = tally (λ x, if bool_decide (x = k) then 1 else 0) l.
Proof. unfold occ. induction l; simpl; lia. Qed.

(** ** The job *)

(** The global table is shared; a rank keeps the rest of its state. *)
Record cluster := Cluster {
  shared : list dthread_gtab_t;
  nodes : list node;
  net : list packet }.

(** A rank as its own threads see it. *)
Definition view (gt : list dthread_gtab_t) (n : node) : node :=
  Node ((st n) <| gtab := gt |>) (pc n) (out n).

Section Steps.
Context (c0 : config) (e : Z → env).

(** The configuration of rank [r]. *)
Definition cfg (r : Z) : config := Config r (mpi_wsize c0) (nmaxthread c0) (dsps c0).

Inductive job_step (J : cluster) : cluster → Prop :=
  | job_rank r n ins outs rest n' : aget (nodes J) r = Some n → net J ≡ₚ ins ++ rest →
      rank_step (cfg r) (e r) (view (shared J) n) ins outs n' →
      job_step J (Cluster (gtab (st n')) (aset (nodes J) r n') (rest ++ outs)).

(** No rank has begun to shut down. *)
Definition job_running (J : cluster) : Prop :=
  ∀ r n, aget (nodes J) r = Some n → mpisq_draindown (dtq (st n)) = DTQ_DD_INIT.

Definition running_step (J J' : cluster) : Prop := job_step J J' ∧ job_running J'.
End Steps.

(** ** Conversations *)

(** What the messages and the pending requests of rank [r] carry, and what its
    pending requests wait for. *)
Definition node_carries (r : Z) (n : node) : list conv :=
  concat ((λ m, msg_conv r (peer m) (frame m)) <$> mpisendq (dtq (st n))) ++
  concat ((λ m, msg_conv (peer m) r (frame m)) <$> (mpirecvq (dtq (st n)) ++ msgs n)) ++
  concat ((λ q, from_option req_carry [] (req_lookup (st n) q)) <$> rpending (mgrstate (st n))).

Definition node_waits (r : Z) (n : node) : list conv :=
  concat ((λ q, from_option (req_wait r) [] (req_lookup (st n) q)) <$> rpending (mgrstate (st n))).

Definition job_carries (J : cluster) : list conv :=
  concat ((λ x, node_carries x.1 x.2) <$> indexed 0 (nodes J)) ++
  concat ((λ p, msg_conv (p_src p) (p_dst p) (p_frame p)) <$> net J).

Definition job_waits (J : cluster) : list conv :=
  concat ((λ x, node_waits x.1 x.2) <$> indexed 0 (nodes J)).

Lemma occ_concat {A} k (g : A → list conv) l : occ k (concat (g <$> l)) = tally (λ x, occ k (g x)) l.
Proof. induction l; csimpl; rewrite ?occ_app, ?occ_nil; lia. Qed.

Lemma node_conv r k n : node_value (conv_cur r k) n = occ k (node_carries r n) - occ k (node_waits r n).
Proof.
  unfold node_value, value, node_carries, node_waits. rewrite !occ_app, !occ_concat, tally_app, gt_tally_zero by done. simpl.
  enough (tally (pend_value (conv_cur r k) (st n)) (rpending (mgrstate (st n))) =
    tally (λ x, occ k (from_option req_carry [] (req_lookup (st n) x))) (rpending (mgrstate (st n))) -
    tally (λ x, occ k (from_option (req_wait r) [] (req_lookup (st n) x))) (rpending (mgrstate (st n)))) by lia.
  induction (rpending (mgrstate (st n))) as [|x l IH]; simpl; [done|]. rewrite IH. unfold pend_value.
  destruct (req_lookup (st n) x); simpl; rewrite ?occ_nil; lia.
Qed.

(** ** Threads on their way *)

(** Local slots in use and messages that stand for one. *)
Definition slot_cur : currency := Currency (λ _, msg_weight) (λ _, msg_weight) (λ _, 0) 1 0 0 (λ _ _, 0).

Lemma msg_weight_nonneg f : 0 ≤ msg_weight f.
Proof. unfold msg_weight. by repeat case_match. Qed.

Lemma slot_value n : count_if ltab_used (ltab (st n)) + tally (λ m, msg_weight (frame m)) (msgs n) ≤ node_value slot_cur n.
Proof.
  unfold node_value, value. rewrite gt_tally_zero by done. simpl.
  rewrite (tally_ext (pend_value slot_cur (st n)) (λ _, 0)), tally_const
    by (intros r _; unfold pend_value; by destruct (req_lookup _ r)).
  pose proof (tally_nonneg (λ m, msg_weight (frame m)) (mpisendq (dtq (st n))) (λ m, msg_weight_nonneg _)).
  pose proof (tally_nonneg (λ m, msg_weight (frame m)) (mpirecvq (dtq (st n))) (λ m, msg_weight_nonneg _)). lia.
Qed.

Lemma slot_nonneg n : 0 ≤ node_value slot_cur n.
Proof.
  pose proof (slot_value n). pose proof (count_if_bounds ltab_used (ltab (st n))).
  pose proof (tally_nonneg (λ m, msg_weight (frame m)) (msgs n) (λ m, msg_weight_nonneg _)). lia.
Qed.

Lemma load_value n : node_value load_cur n = node_value slot_cur n - count_if gtab_live (gtab (st n)).
Proof.
  unfold node_value, value. rewrite !gt_tally_zero by done. simpl.
  rewrite (tally_ext (pend_value load_cur (st n)) (pend_value slot_cur (st n))); [lia|].
  intros r _. unfold pend_value. by destruct (req_lookup _ r).
Qed.

(** Only the load counts the global table. *)
Lemma view_value cur gt n : c_used cur = 0 → c_live cur = 0 → c_gt cur = (λ _ _, 0) →
  node_value cur (view gt n) = node_value cur n.
Proof.
  intros Hu Hl Hg. unfold node_value. change (msgs (view gt n)) with (msgs n). f_equal. unfold value.
  rewrite !gt_tally_zero by done. simpl. rewrite Hu, Hl.
  rewrite (tally_ext (pend_value cur _) (pend_value cur (st n))); [lia|]. by intros [].
Qed.

Lemma view_self n : view (gtab (st n)) n = n.
Proof. destruct n as [s p o]. unfold view. f_equal. apply gtab_id. Qed.

(** Another rank wrote the global table. *)
Lemma node_ok_view c n gt : node_ok c n → length gt = length (gtab (st n)) → disp_wf gt →
  (mpi_rank c = 0 → count_if gtab_used gt = count_if gtab_used (gtab (st n))) → node_ok c (view gt n).
Proof.
  intros [[[] Hs Hq Ho Hp] Hd Hw Hm Hn Ht] Hlen Hdisp Hu.
  assert (hands (view gt n) = hands n) as Eh.
  { unfold hands. change (msgs (view gt n)) with (msgs n). change (reqs (view gt n)) with (reqs n).
    change (out (view gt n)) with (out n). by rewrite (req_mids_ext (st n)) by (by intros []). }
  split; try done.
  - rewrite Eh. split; try done. split; simpl; try done; [lia|]. intros H0. rewrite Hu by done. auto.
  - destruct Ht as [T1 T2 T3 T4 T5 T6]. split; try done. intros r Hr. destruct (T4 r Hr) as (i & l & -> & []). exists i, l. split; [done|].
    by split.
Qed.

(** ** Counting the pending requests *)

Definition is_ltab (r : reqref) : Z := match r with RLtab _ => 1 | RInternal _ => 0 end.

Definition fwd_conv (k : conv) : Z := if fwd_op k.1.2 then 1 else 0.

Lemma fwd_conv_nonneg k : 0 ≤ fwd_conv k.
Proof. unfold fwd_conv. by case_match. Qed.

(** Distinct positions that satisfy [f]. *)
Lemma count_if_nodup {A} (f : A → bool) (y : A) (ps : list nat) l : f y = false → NoDup ps →
  (∀ i, i ∈ ps → ∃ x, l !! i = Some x ∧ f x = true) → Z.of_nat (length ps) ≤ count_if f l.
Proof.
  intros Hy. revert l. induction ps as [|i ps IH]; intros l Hnd Hf; simpl; [apply count_if_bounds|].
  apply NoDup_cons in Hnd as [Hni Hnd]. destruct (Hf i ltac:(by left)) as (x & Hx & Hfx).
  pose proof (count_if_insert f l i x y Hx) as E. rewrite Hfx, Hy in E.
  assert (Z.of_nat (length ps) ≤ count_if f (<[i := y]> l)); [|lia].
  apply IH; [done|]. intros j Hj. rewrite list_lookup_insert_ne by congruence. apply Hf. by right.
Qed.

Definition ltab_pos (r : reqref) : option nat := match r with RLtab i => Some (Z.to_nat i) | RInternal _ => None end.

(** The threads that wait for an answer have a slot each. *)
Lemma ltab_pending n c : node_ok c n →
  tally is_ltab (rpending (mgrstate (st n))) ≤ count_if ltab_used (ltab (st n)).
Proof.
  intros [H _ _ _ _ Ht]. pose proof (pi_nodup _ _ _ _ _ _ (ok_pend _ _ _ _ H)) as Hnd.
  apply NoDup_app in Hnd as (_ & _ & Hnd). apply NoDup_app in Hnd as (Hnd & _ & _).
  assert (∀ r, r ∈ rpending (mgrstate (st n)) → ∃ q, req_lookup (st n) r = Some q) as Hlk.
  { intros r Hr. destruct (pi_pend _ _ _ _ _ _ (ok_pend _ _ _ _ H) r Hr) as (q & ? & _). eauto. }
  transitivity (Z.of_nat (length (omap ltab_pos (rpending (mgrstate (st n)))))).
  { clear. induction (rpending (mgrstate (st n))) as [|[i|id] l IH]; csimpl; lia. }
  apply (count_if_nodup _ (Ltab 0 0 LT_NONE (idle_req 0))); [done| |].
  - revert Hlk Hnd. induction (rpending (mgrstate (st n))) as [|r l IH]; intros Hlk; [constructor|].
    intros [Hni Hnd]%NoDup_cons. csimpl. specialize (IH (λ x Hx, Hlk x ltac:(by right)) Hnd).
    destruct r as [i|id]; [|done]. simpl. constructor; [|done]. intros (r' & Hr' & E)%list_elem_of_omap.
    destruct r' as [j|]; [|done]. simplify_eq/=. destruct (Hlk (RLtab i) ltac:(by left)) as (q & Hq). destruct (Hlk (RLtab j) ltac:(by right)) as (q' & Hq').
    simpl in *. destruct (aget (ltab (st n)) i) as [l1|] eqn:E1; [|done]. destruct (aget (ltab (st n)) j) as [l2|] eqn:E2; [|done].
    apply aget_Some_range in E1, E2. assert (i = j) as -> by lia. done.
  - intros k (r & Hr & E)%list_elem_of_omap. destruct r as [i|]; [|done]. simplify_eq/=.
    destruct (Hlk _ Hr) as (q & Hq). simpl in Hq. destruct (aget (ltab (st n)) i) as [l|] eqn:El; [|done].
    destruct (to_pend _ _ _ Ht _ _ Hr El) as [_ Hu]. exists l. unfold aget in El. destruct (0 <=? i); [|done]. split; [done|].
    rewrite ltab_used_eq. by rewrite (proj2 (Z.eqb_neq _ _) Hu).
Qed.

Lemma ltab_waits n r c : node_ok c n →
  tally fwd_conv (node_waits r n) = tally is_ltab (rpending (mgrstate (st n))).
Proof.
  intros [H _ _ _ _ _]. pose proof (pi_pend _ _ _ _ _ _ (ok_pend _ _ _ _ H)) as Hp.
  unfold node_waits. rewrite tally_concat. apply tally_ext. intros x Hx. destruct (Hp x Hx) as (q & Hq & Hok). rewrite Hq. simpl.
  unfold req_wait. destruct x as [i|id]; simpl in *.
  - rewrite Hok. simpl. unfold fwd_conv. simpl. rewrite Hok. lia.
  - destruct Hok as [[E _]|[E _]]; rewrite E; done.
Qed.

Lemma internal_carries n r c : node_ok c n →
  Z.of_nat (length (rpending (mgrstate (st n)))) ≤ tally is_ltab (rpending (mgrstate (st n))) + tally fwd_conv (node_carries r n).
Proof.
  intros [H _ _ _ _ _]. pose proof (pi_pend _ _ _ _ _ _ (ok_pend _ _ _ _ H)) as Hp. unfold node_carries.
  rewrite !tally_app.
  assert (Z.of_nat (length (rpending (mgrstate (st n)))) ≤ tally is_ltab (rpending (mgrstate (st n))) +
    tally fwd_conv (concat ((λ q, from_option req_carry [] (req_lookup (st n) q)) <$> rpending (mgrstate (st n))))).
  - rewrite tally_concat. revert Hp. induction (rpending (mgrstate (st n))) as [|x l IH]; intros Hp; simpl; [done|].
    specialize (IH (λ y Hy, Hp y ltac:(by right))). destruct (Hp x ltac:(by left)) as (q & Hq & Hok). rewrite Hq. simpl.
    pose proof (tally_nonneg fwd_conv (req_carry q) fwd_conv_nonneg). destruct x as [i|id]; simpl in *; [lia|].
    cut (tally fwd_conv (req_carry q) = 1); [lia|].
    destruct Hok as [(E & ci & Eu & _)|(E & _)]; unfold req_carry; rewrite E; [by rewrite Eu|done].
  - pose proof (λ l, tally_nonneg fwd_conv l fwd_conv_nonneg) as Hnn.
    pose proof (Hnn (concat ((λ m, msg_conv r (peer m) (frame m)) <$> mpisendq (dtq (st n))))).
    pose proof (Hnn (concat ((λ m, msg_conv (peer m) r (frame m)) <$> (mpirecvq (dtq (st n)) ++ msgs n)))). lia.
Qed.

(** ** The invariant of the job *)

Section Inv.
Context (c0 : config) (e : Z → env).
Context (Hc : config_ok c0) (Hmal : ∀ r k, malloc_ok (e r) k = true)
  (Hseq : 2 * nmaxthread c0 < (2 ^ 32 - mpi_wsize c0) / mpi_wsize c0).
Implicit Types (J : cluster).
Abbreviation cfg := (cfg c0).

Record job_ok J : Prop := {
  jo_len : Z.of_nat (length (nodes J)) = mpi_wsize c0;
  jo_node : ∀ r n, aget (nodes J) r = Some n → node_ok (cfg r) (view (shared J) n);
  jo_net : Forall packet_wf (net J);
  jo_conv : ∀ k, tally (λ x, node_value (conv_cur x.1 k) x.2) (indexed 0 (nodes J)) + tally (pk_conv k) (net J) = 0;
  jo_load : tally (λ x, node_value slot_cur x.2) (indexed 0 (nodes J)) + tally pk_weight (net J) ≤
    count_if gtab_live (shared J) }.

Lemma cfg_rank_ok r n J : job_ok J → aget (nodes J) r = Some n → config_ok (cfg r).
Proof using Hc.
  intros [Hlen _ _ _ _] Hn. apply aget_Some_range in Hn. destruct Hc. split; simpl; try done. lia.
Qed.

(** What is carried is what is waited for. *)
Lemma job_conversing J : job_ok J → job_carries J ≡ₚ job_waits J.
Proof using.
  intros [_ _ _ Hv _]. apply occ_perm. intros k. specialize (Hv k). unfold job_carries, job_waits.
  rewrite occ_app, !occ_concat. unfold pk_conv in Hv.
  rewrite (tally_ext (λ x, node_value (conv_cur x.1 k) x.2)
    (λ x, occ k (node_carries x.1 x.2) + - occ k (node_waits x.1 x.2))) in Hv; [|intros x _; rewrite node_conv; lia].
  rewrite tally_add in Hv.
  assert (∀ l : list (Z * node), tally (λ x, - occ k (node_waits x.1 x.2)) l = - tally (λ x, occ k (node_waits x.1 x.2)) l) as E
    by (intros l; induction l; simpl; lia).
  rewrite E in Hv. lia.
Qed.

(** A conversation is that of the rank that waits. *)
Lemma waits_rank r n k : k ∈ node_waits r n → k.1.1 = r ∧
  ∃ x q, x ∈ rpending (mgrstate (st n)) ∧ req_lookup (st n) x = Some q ∧ k ∈ req_wait r q.
Proof using.
  unfold node_waits. intros Hk%elem_of_concat. destruct Hk as (l & Hk & Hl).
  apply list_elem_of_fmap in Hl as (x & -> & Hx). destruct (req_lookup (st n) x) as [q|] eqn:E; simpl in Hk; [|by apply elem_of_nil in Hk].
  split; [|by eauto]. unfold req_wait in Hk. case_match; [|by apply elem_of_nil in Hk]. by apply list_elem_of_singleton in Hk as ->.
Qed.

Lemma elem_of_concat_fmap {A} (f : A → list conv) l x k : x ∈ l → k ∈ f x → k ∈ concat (f <$> l).
Proof using. intros Hx Hk. apply elem_of_concat. exists (f x). split; [done|]. by apply list_elem_of_fmap_2. Qed.

(** A carried conversation has its waiting request, at the rank it names. *)
Lemma carried_awaits J r k : job_ok J → k ∈ job_carries J → k.1.1 = r →
  ∃ n, aget (nodes J) r = Some n ∧ awaits (cfg r) (st n) k.
Proof using.
  intros Hok Hk Hr. rewrite (job_conversing J Hok) in Hk. unfold job_waits in Hk.
  apply elem_of_concat in Hk as (l & Hk & Hl). apply list_elem_of_fmap in Hl as ((r' & n) & -> & Hn).
  apply elem_of_indexed0 in Hn. destruct (waits_rank _ _ _ Hk) as (E & x & q & ?). simpl in *. subst. exists n. split; [done|].
  by exists x, q.
Qed.

(** No more threads than slots in the global table. *)
Lemma job_room J : job_ok J → count_if gtab_live (shared J) ≤ nmaxthread c0.
Proof using Hc.
  intros Hok. destruct (aget_is_Some (nodes J) 0) as [n Hn].
  { destruct Hc as [? _ _ _]. rewrite (jo_len _ Hok). lia. }
  pose proof (gtab_len _ _ (ok_tabs _ _ _ _ (no_rank _ _ (jo_node _ Hok _ _ Hn)))) as Hl. simpl in Hl.
  pose proof (count_if_bounds gtab_live (shared J)). lia.
Qed.

Lemma slots_room J : job_ok J → tally (λ x, node_value slot_cur x.2) (indexed 0 (nodes J)) ≤ nmaxthread c0.
Proof using Hc.
  intros Hok. pose proof (jo_load _ Hok). pose proof (job_room J Hok).
  pose proof (tally_nonneg pk_weight (net J) (λ p, msg_weight_nonneg _)). lia.
Qed.

Lemma node_slots J r n : job_ok J → aget (nodes J) r = Some n → node_value slot_cur n ≤ nmaxthread c0.
Proof using Hc.
  intros Hok Hn. pose proof (slots_room J Hok). apply elem_of_indexed0 in Hn.
  pose proof (tally_elem (λ x, node_value slot_cur x.2) _ _ (λ y _, slot_nonneg y.2) Hn). simpl in *. lia.
Qed.

(** All the threads that wait for an answer. *)
Lemma waiting_bound J : job_ok J → tally fwd_conv (job_waits J) ≤ nmaxthread c0.
Proof using Hc.
  intros Hok. etrans; [|by apply slots_room]. unfold job_waits. rewrite tally_concat. apply tally_le.
  intros [r n] Hn%elem_of_indexed0. simpl. pose proof (jo_node _ Hok _ _ Hn) as Hnode.
  pose proof (ltab_waits _ r _ Hnode) as E. pose proof (ltab_pending _ _ Hnode) as E'. pose proof (slot_value n).
  pose proof (tally_nonneg (λ m, msg_weight (frame m)) (msgs n) (λ m, msg_weight_nonneg _)).
  change (node_waits r (view (shared J) n)) with (node_waits r n) in E. simpl in *. lia.
Qed.

Lemma pending_bound J r n : job_ok J → aget (nodes J) r = Some n →
  Z.of_nat (length (rpending (mgrstate (st n)))) ≤ 2 * nmaxthread c0.
Proof using Hc.
  intros Hok Hn. pose proof (jo_node _ Hok _ _ Hn) as Hnode.
  pose proof (internal_carries _ r _ Hnode) as E. pose proof (ltab_pending _ _ Hnode) as E'. pose proof (slot_value n).
  pose proof (tally_nonneg (λ m, msg_weight (frame m)) (msgs n) (λ m, msg_weight_nonneg _)).
  pose proof (node_slots _ _ _ Hok Hn). pose proof (waiting_bound J Hok) as Hw. rewrite <- (tally_perm _ _ _ (job_conversing J Hok)) in Hw.
  unfold job_carries in Hw. rewrite tally_app, tally_concat in Hw. apply elem_of_indexed0 in Hn.
  pose proof (tally_elem (λ x, tally fwd_conv (node_carries x.1 x.2)) _ _ (λ y _, tally_nonneg _ _ fwd_conv_nonneg) Hn).
  pose proof (tally_nonneg fwd_conv (concat ((λ p, msg_conv (p_src p) (p_dst p) (p_frame p)) <$> net J)) fwd_conv_nonneg).
  change (node_carries r (view (shared J) n)) with (node_carries r n) in E. simpl in *. lia.
Qed.

(** What a rank needs of the others. *)
Lemma job_fits J r n : job_ok J → aget (nodes J) r = Some n → fits (cfg r) (view (shared J) n).
Proof using Hc Hseq.
  intros Hok Hn. pose proof (jo_node _ Hok _ _ Hn) as Hnode. split.
  - apply Forall_forall. intros m Hm Hrep k Hk. assert (msgs (view (shared J) n) = msgs n) as Em by done. rewrite Em in Hm.
    pose proof (no_msgs _ _ Hnode) as Hwf. rewrite Em, Forall_forall in Hwf. destruct (Hwf m Hm) as (_ & _ & Hdst). simpl in Hk, Hdst.
    destruct (carried_awaits J r k Hok) as (n' & Hn' & x & q & Hx & Hq & Hk').
    + unfold job_carries. apply elem_of_app. left. apply (elem_of_concat_fmap _ _ (r, n)); [by apply elem_of_indexed0|]. simpl.
      unfold node_carries. apply elem_of_app. right. apply elem_of_app. left.
      apply (elem_of_concat_fmap _ _ m); [|done]. apply elem_of_app. by right.
    + unfold msg_conv, is_reply, hdr_op in *. destruct (fr_body (frame m)); try done; apply list_elem_of_singleton in Hk as ->; simpl in *; auto.
      symmetry. auto.
    + simplify_eq. exists x, q. split; [done|]. split; [|done]. by destruct x.
  - apply Forall_forall. intros m Hm Hop. assert (msgs (view (shared J) n) = msgs n) as Em by done. rewrite Em in Hm.
    pose proof (slot_value n). pose proof (node_slots _ _ _ Hok Hn).
    pose proof (tally_elem (λ m, msg_weight (frame m)) _ _ (λ y _, msg_weight_nonneg _) Hm) as Hw. simpl in Hw.
    pose proof (no_msgs _ _ Hnode) as Hwf. rewrite Em, Forall_forall in Hwf. destruct (Hwf m Hm) as (_ & Hfw & _).
    assert (msg_weight (frame m) = 1) as Ew by (unfold msg_weight, hdr_op, frame_wf in *; by destruct (fr_body (frame m))).
    pose proof (ltab_cnt _ _ (ok_tabs _ _ _ _ (no_rank _ _ Hnode))) as El. simpl in *. lia.
  - pose proof (pending_bound _ _ _ Hok Hn). simpl in *. unfold seq_period. simpl.
    pose proof (aget_Some_range _ _ _ Hn). rewrite (jo_len _ Hok) in *.
    assert ((2 ^ 32 - mpi_wsize c0) / mpi_wsize c0 ≤ (2 ^ 32 - 1 - r) / mpi_wsize c0) by (apply Z.div_le_mono; lia). lia.
Qed.

Lemma job_ok_step J J' : job_ok J → running_step c0 e J J' → job_ok J'.
Proof using Hc Hmal Hseq.
  intros Hok [[r n ins outs rest n' Hn Hnet Hs] Hrun]. pose proof (jo_node _ Hok _ _ Hn) as Hnode.
  pose proof (aget_Some_range _ _ _ Hn) as Hr. pose proof (cfg_rank_ok _ _ _ Hok Hn) as Hcr.
  assert (Forall packet_wf ins ∧ Forall packet_wf rest) as [Hins Hrest].
  { rewrite <- Forall_app, <- Hnet. apply Hok. }
  destruct (rank_step_ok (cfg r) (e r) Hcr (Hmal r) _ _ _ _ Hnode (job_fits _ _ _ Hok Hn) Hins Hs) as (Hnode' & (Bk & Bl & Bu & _) & Houts).
  { apply (Hrun r). simpl. by rewrite aget_aset_eq. }
  assert (∀ k, node_value (conv_cur r k) (view (shared J) n) = node_value (conv_cur r k) n) as Vk by (intros; by apply view_value).
  rewrite !load_value, view_value in Bl by done. simpl in Bk, Bl, Bu.
  assert (∀ f, tally f (net J) = tally f ins + tally f rest) as Et.
  { intros f. by rewrite (tally_perm f _ _ Hnet), tally_app. }
  split; simpl.
  - unfold aset. rewrite length_insert. apply Hok.
  - intros r' n1 Hn1. destruct (decide (r' = r)) as [->|Hne].
    + rewrite aget_aset_eq in Hn1 by done. simplify_eq. by rewrite view_self.
    + rewrite aget_aset_ne in Hn1 by lia. pose proof (jo_node _ Hok _ _ Hn1) as Hnode1.
      pose proof (gtab_len _ _ (ok_tabs _ _ _ _ (no_rank _ _ Hnode'))). pose proof (gtab_len _ _ (ok_tabs _ _ _ _ (no_rank _ _ Hnode1))).
      apply (node_ok_view (cfg r') (view (shared J) n1) (gtab (st n'))); [done|simpl in *; lia|apply (no_threads _ _ Hnode')|].
      simpl. intros ->. by apply Bu.
  - by apply Forall_app.
  - intros k. rewrite (tally_indexed_aset _ _ _ _ _ _ Hn), tally_app. simpl. specialize (Bk k). rewrite Vk in Bk.
    pose proof (jo_conv _ Hok k) as Hv. rewrite Et in Hv. rewrite !Z.add_0_l in *. simpl in *. lia.
  - rewrite (tally_indexed_aset _ _ _ _ _ _ Hn), tally_app. simpl. pose proof (jo_load _ Hok) as Hl. rewrite Et in Hl. simpl in *. lia.
Qed.

Lemma job_ok_reach J J' : job_ok J → rtc (running_step c0 e) J J' → job_ok J'.
Proof using Hc Hmal Hseq. intros H. induction 1; [done|]. eauto using job_ok_step. Qed.
End Inv.

(** ** How the job starts *)

(** The state [dthread_run] hands to the manager of a rank. *)
Definition start_st (c : config) (gt : list dthread_gtab_t) : dtst :=
  Dtst (u32 (mpi_rank c + mpi_wsize c)) (ltab_setup (nmaxthread c)) gt ∅ dtq_init mgrstate_zero 0 0 ∅ [].

(** A zeroed entry. *)
Definition gtab_zero (g : dthread_gtab_t) : Prop :=
  gt_allocated g = 0 ∧ gt_terminated g = 0 ∧ gt_disp_idx g = 0.

(** Every manager has come to its loop from a zeroed table; rank 0 has started
    the main thread. *)
Record job_start (c0 : config) (e : Z → env) (J : cluster) : Prop := {
  js_len : Z.of_nat (length (nodes J)) = mpi_wsize c0;
  js_boot : ∃ gt argc argv, Z.of_nat (length gt) = nmaxthread c0 ∧ Forall gtab_zero gt ∧
    ∀ r n, aget (nodes J) r = Some n → pc n = AtTop ∧ out n = [] ∧ (r = 0 → shared J = gtab (st n)) ∧
      mgr_main_start (cfg c0 r) (e r) argc argv (start_st (cfg c0 r) gt) = Ok (true, st n);
  js_net : net J = [] }.

(** A rank with no messages and no requests. *)
Lemma quiet_node_ok c s : rank_ok c [] [] s → dtq s = dtq_init → rpending (mgrstate s) = [] → disp_wf (gtab s) →
  (∀ i l, aget (ltab s) i = Some l → lt_req l = idle_req i ∧ (lt_used l → 0 ≤ lt_gtab_idx l < nmaxthread c)) →
  node_ok c (Node s AtTop []).
Proof.
  intros H Ed Ep Hd Hl. assert (reqs (Node s AtTop []) = []) as Er by (unfold reqs; simpl; by rewrite Ed).
  split; simpl; try (by rewrite Ed).
  - unfold hands. by rewrite Er.
  - constructor.
  - rewrite Er. split; rewrite ?Ep; try done.
    + intros i l Hi. destruct (Hl _ _ Hi) as [-> ?]. done.
    + constructor.
    + by intros r ?%elem_of_nil.
    + by intros i l ?%elem_of_nil.
    + intros i l Hi Hb. destruct (Hl _ _ Hi) as [E _]. by rewrite E in Hb.
Qed.

Lemma quiet_value cur n : msgs n = [] → dtq (st n) = dtq_init → rpending (mgrstate (st n)) = [] → c_used cur = 0 → c_live cur = 0 →
  c_gt cur = (λ _ _, 0) → node_value cur n = c_slot cur * count_if ltab_used (ltab (st n)).
Proof. intros Em Ed Ep Eu El Eg. unfold node_value, value. rewrite gt_tally_zero, Em, Ed, Ep, Eu, El by done. simpl. lia. Qed.

Lemma zero_unused gt : Forall gtab_zero gt → Forall (λ g, gtab_used g = false) gt.
Proof. intros H. eapply Forall_impl; [exact H|]. intros g (E & _). by rewrite gtab_used_eq, E. Qed.

Lemma start_other c e argc argv gt : mpi_rank c ≠ 0 →
  mgr_main_start c e argc argv (start_st c gt) = Ok (true, start_st c gt).
Proof. intros H. unfold mgr_main_start, bindM, upd_mgr, modify. by rewrite (proj2 (Z.eqb_neq _ _) H). Qed.

(** Rank 0 once the main thread runs. *)
Lemma start_zero_eq c e argc argv gt s : config_ok c → mpi_rank c = 0 → Z.of_nat (length gt) = nmaxthread c → Forall gtab_zero gt →
  mgr_main_start c e argc argv (start_st c gt) = Ok (true, s) →
  ∃ seq sq g nr evs, s = Dtst sq (aset (ltab_setup (nmaxthread c)) 0 (Ltab 0 seq LT_RUNNING (idle_req 0))) (aset gt 0 g) ∅
      dtq_init (Mgr false [] 1 0 0 1 0 1 0 nr) 0 1 ∅ evs ∧
    seq_ok c sq ∧ gt_allocated g = 1 ∧ gt_terminated g = 0 ∧ gt_disp_idx g = 0.
Proof.
  intros Hc H0 Hlen Hz E. pose proof (cfg_nmax _ Hc). pose proof (cfg_ndsps _ Hc).
  destruct (aget_is_Some gt 0) as [g Hg]; [lia|]. destruct (aget_is_Some (dsps c) 0) as [d Hd]; [unfold ndsps in *; lia|].
  destruct (aget_is_Some (ltab_setup (nmaxthread c)) 0) as [l Hl].
  { unfold ltab_setup. rewrite length_fmap, length_seq. lia. }
  pose proof (aget_ltab_setup _ _ _ Hl) as ->. pose proof (aget_Some_range _ _ _ Hl).
  assert (gtab_zero g) as (_ & Ht & _).
  { unfold aget in Hg. simpl in Hg. by eapply Forall_lookup_1. }
  unfold mgr_main_start in E. rewrite H0 in E. simpl in E. unfold upd_mgr at 1 in E. rewrite bind_modify in E.
  apply bind_inv in E as (rv & s' & E & E'). unfold retM in E'. injection E' as Erv ->.
  unfold mgr_startapp in E. unfold upd_mgr in E. rewrite bind_modify in E. simpl in E.
  match type of E with bindM _ _ ?x = _ => set (s1 := x) in E end.
  erewrite bind_ok in E by (by apply gtab_get_ok).
  pose proof (fresh_rank_ok c gt Hc Hlen (zero_unused _ Hz)) as Hk. destruct (seq_period_bounds c Hc) as [_ Hsp].
  destruct (get_free_seq_spec c Hc DTOP_NONE s1) as (seq & sq & Es & _ & _ & Hsq & _).
  { constructor. } { apply Hk. } { simpl. lia. }
  erewrite bind_ok in E by (exact Es). rewrite Hd in E. simpl in E. unfold gtab_put in E. unfold bindM at 1 in E.
  unfold get_some, retM in E. rewrite bind_modify in E. simpl in E.
  erewrite bind_ok in E by (apply ltab_get_ok; simpl; exact Hl). unfold ltab_put in E. rewrite bind_modify in E. simpl in E.
  unfold start_pthread in E. erewrite bind_ok in E by (apply ltab_get_ok; simpl; by apply aget_aset_eq).
  unfold bindM, gets, modify, retM in E. simpl in E. injection E as _ <-.
  eexists _, _, _, _, _. split; [reflexivity|]. split; [exact Hsq|]. split_and!; try done.
Qed.

Lemma disp_wf_zero gt : Forall gtab_zero gt → disp_wf gt.
Proof. intros H. eapply Forall_impl; [exact H|]. intros g (_ & _ & E). lia. Qed.

Lemma start_zero_ok c e argc argv gt s : config_ok c → mpi_rank c = 0 → Z.of_nat (length gt) = nmaxthread c → Forall gtab_zero gt →
  mgr_main_start c e argc argv (start_st c gt) = Ok (true, s) →
  node_ok c (Node s AtTop []) ∧ dtq s = dtq_init ∧ rpending (mgrstate s) = [] ∧ count_if gtab_live (gtab s) = 1 ∧
  count_if gtab_used (gtab s) = 1 ∧ count_if ltab_used (ltab s) = 1.
Proof.
  intros Hc H0 Hlen Hz E. destruct (start_zero_eq _ _ _ _ _ _ Hc H0 Hlen Hz E) as (seq & sq & g & nr & evs & -> & Hsq & Ga & Gt & Gd).
  clear E. pose proof (cfg_nmax _ Hc) as Hmax. pose proof (fresh_rank_ok c gt Hc Hlen (zero_unused _ Hz)) as [[T1 T2 _ _ _ _] _ Kq Ko Kp]. simpl in *.
  destruct (aget_is_Some gt 0) as [g0 Hg]; [lia|]. destruct (aget_is_Some (ltab_setup (nmaxthread c)) 0) as [l Hl]; [lia|].
  assert (gtab_zero g0) as (Z1 & Z2 & Z3) by (unfold aget in Hg; simpl in Hg; by eapply Forall_lookup_1).
  pose proof (aget_ltab_setup _ _ _ Hl) as El. pose proof (aget_Some_range _ _ _ Hl) as Hr.
  assert (count_if ltab_used (ltab_setup (nmaxthread c)) = 0) as C0.
  { apply count_if_zero. unfold ltab_setup. apply Forall_fmap, Forall_true. done. }
  assert (count_if gtab_live gt = 0) as C1.
  { apply count_if_zero. eapply Forall_impl; [exact Hz|]. intros g1 (E1 & _). unfold gtab_live. by rewrite gtab_used_eq, E1. }
  assert (count_if gtab_used (aset gt 0 g) = 1) as C2.
  { rewrite (count_if_aset _ _ _ _ _ Hg), !gtab_used_eq, Z1, Ga, (count_if_zero _ _ (zero_unused _ Hz)). done. }
  assert (count_if ltab_used (aset (ltab_setup (nmaxthread c)) 0 (Ltab 0 seq LT_RUNNING (idle_req 0))) = 1) as C3.
  { rewrite (count_if_aset _ _ _ _ _ Hl), C0, El. done. }
  assert (count_if gtab_live (aset gt 0 g) = 1) as C4.
  { rewrite (count_if_aset _ _ _ _ _ Hg), C1. unfold gtab_live. by rewrite !gtab_used_eq, Z1, Ga, Gt. }
  split; [|done]. apply quiet_node_ok; simpl; try done.
  - split; simpl; try done.
    + split; simpl; rewrite ?length_aset; try done; lia.
    + split; simpl; try (by intros ? ?%elem_of_nil); try (by intros ? ? ? ? ?%elem_of_nil); [constructor|done|].
      intros i q Hq. apply fmap_Some in Hq as (l' & Hl' & ->). destruct (decide (i = 0)) as [->|].
      * rewrite aget_aset_eq in Hl' by done. by simplify_eq.
      * rewrite aget_aset_ne in Hl' by lia. by apply aget_ltab_setup in Hl' as ->.
  - eapply disp_wf_aset; [by apply disp_wf_zero|exact Hg|]. rewrite Gd. lia.
  - intros i l' Hl'. destruct (decide (i = 0)) as [->|].
    + rewrite aget_aset_eq in Hl' by done. simplify_eq. split; [done|]. simpl. lia.
    + rewrite aget_aset_ne in Hl' by lia. apply aget_ltab_setup in Hl' as ->. split; [done|]. by intros [].
Qed.

Lemma start_other_ok c gt gt' : config_ok c → mpi_rank c ≠ 0 → Z.of_nat (length gt) = nmaxthread c → Forall gtab_zero gt →
  length gt' = length gt → disp_wf gt' → node_ok c (view gt' (Node (start_st c gt) AtTop [])).
Proof.
  intros Hc H0 Hlen Hz Hl' Hd. apply node_ok_view; [|done|done|done].
  pose proof (fresh_rank_ok c gt Hc Hlen (zero_unused _ Hz)) as Hk.
  apply quiet_node_ok; try done; [by apply disp_wf_zero|]. intros i l Hl. simpl in Hl.
  apply aget_ltab_setup in Hl as ->. split; [done|]. by intros [].
Qed.

(** The invariant holds when the loops start. *)
Lemma job_start_ok c0 e J : config_ok c0 → job_start c0 e J → job_ok c0 J.
Proof.
  intros Hc [Hlen (gt & argc & argv & Hgl & Hz & Hb) Hnet].
  destruct (aget_is_Some (nodes J) 0) as [n0 Hn0]; [destruct Hc; lia|].
  assert (∀ r n, aget (nodes J) r = Some n → config_ok (cfg c0 r)) as Hcr.
  { intros r n Hn. apply aget_Some_range in Hn. destruct Hc. split; simpl; try done. lia. }
  destruct (Hb 0 n0 Hn0) as (Ep & Eo & Es & E0). specialize (Es eq_refl).
  destruct (start_zero_ok (cfg c0 0) _ _ _ _ _ (Hcr _ _ Hn0) eq_refl Hgl Hz E0) as (Hk & Eq & Epd & Cl & Cu & Clt).
  assert (∀ r n, aget (nodes J) r = Some n → msgs n = [] ∧ dtq (st n) = dtq_init ∧ rpending (mgrstate (st n)) = [] ∧
    count_if ltab_used (ltab (st n)) = if r =? 0 then 1 else 0) as Hq.
  { intros r n Hn. destruct (Hb r n Hn) as (Ep1 & _ & _ & E1). split; [unfold msgs; by rewrite Ep1|].
    destruct (Z.eqb_spec r 0) as [->|Hr]; [by simplify_eq|].
    rewrite start_other in E1 by done. injection E1 as <-. split_and!; try done. simpl.
    apply count_if_zero. unfold ltab_setup. apply Forall_fmap, Forall_true. done. }
  split; [done| |by rewrite Hnet|..].
  - intros r n Hn. destruct (Hb r n Hn) as (Ep1 & Eo1 & _ & E1). destruct (decide (r = 0)) as [->|Hr].
    + rewrite Hn0 in Hn. injection Hn as <-. rewrite Es, view_self. destruct n0 as [s p o]. simpl in *. by subst.
    + rewrite start_other in E1 by done. destruct n as [s p o]. simpl in *. injection E1 as <-. subst p o.
      apply start_other_ok; try done; [by eapply Hcr| |].
      * pose proof (gtab_len _ _ (ok_tabs _ _ _ _ (no_rank _ _ Hk))). rewrite Es. simpl in *. lia.
      * rewrite Es. apply (no_threads _ _ Hk).
  - intros k. rewrite Hnet. simpl. rewrite (tally_ext _ (λ _, 0)); [rewrite tally_const; lia|].
    intros [r n] Hn%elem_of_indexed0. destruct (Hq r n Hn) as (E1 & E2 & E3 & E4). simpl. rewrite quiet_value by done. simpl. lia.
  - rewrite Hnet, Es, Cl. simpl.
    rewrite (tally_ext _ (λ x, if x.1 =? 0 then 1 else 0)).
    2: { intros [r n] Hn%elem_of_indexed0. destruct (Hq r n Hn) as (E1 & E2 & E3 & E4). simpl. rewrite quiet_value, E4 by done. simpl. lia. }
    clear. destruct (nodes J) as [|n l]; simpl; [lia|].
    assert (∀ i, 0 < i → tally (λ x : Z * node, if x.1 =? 0 then 1 else 0) (indexed i l) = 0) as Hgen.
    { induction l as [|n' l IH]; intros i Hi; simpl; [done|]. rewrite (proj2 (Z.eqb_neq _ _)), IH by lia. lia. }
    rewrite Hgen; lia.
Qed.

(** ** The conversations are distinct *)

Lemma NoDup_concat_fmap {A B} (f : A → list B) l : NoDup l → (∀ x, x ∈ l → NoDup (f x)) →
  (∀ x y k, x ∈ l → y ∈ l → k ∈ f x → k ∈ f y → x = y) → NoDup (concat (f <$> l)).
Proof.
  induction l as [|a l IH]; intros Hnd Hf Hd; csimpl; [constructor|]. apply NoDup_cons in Hnd as [Hna Hnd].
  apply NoDup_app. split_and!; [apply Hf; by left| |].
  - intros k Hk (l' & Hk' & Hl')%elem_of_concat. apply list_elem_of_fmap in Hl' as (y & -> & Hy).
    assert (a = y) as -> by (eapply Hd; [by left|by right|done|done]). done.
  - apply IH; [done|intros; apply Hf; by right|]. intros x y k Hx Hy. apply Hd; by right.
Qed.

Lemma NoDup_indexed {A} i (l : list A) : NoDup (indexed i l).
Proof.
  revert i. induction l as [|a l IH]; intros i; simpl; constructor; [|done].
  intros H%elem_of_indexed. unfold aget in H. by destruct (Z.leb_spec 0 (i - (i + 1))); [lia|].
Qed.

Lemma node_waits_nodup c r n : node_ok c n → NoDup (node_waits r n).
Proof.
  intros [[_ _ _ _ Hp] _ _ _ _ _]. pose proof (pi_nodup _ _ _ _ _ _ Hp) as Hnd.
  apply NoDup_app in Hnd as (_ & _ & Hnd). apply NoDup_app in Hnd as (Hnd & _ & _).
  unfold node_waits. apply NoDup_concat_fmap; [done|..].
  - intros x _. destruct (req_lookup (st n) x) as [q|]; simpl; [|constructor]. unfold req_wait. case_match; [apply NoDup_singleton|constructor].
  - intros x y k Hx Hy. destruct (pi_pend _ _ _ _ _ _ Hp x Hx) as (q & Eq & _), (pi_pend _ _ _ _ _ _ Hp y Hy) as (q' & Eq' & _).
    rewrite Eq, Eq'. simpl. unfold req_wait. intros Hk Hk'.
    destruct (fwd_op (reqop q) || (reqop q =? DTOP_START)) eqn:Ef; [|by apply elem_of_nil in Hk].
    destruct (fwd_op (reqop q') || (reqop q' =? DTOP_START)) eqn:Ef'; [|by apply elem_of_nil in Hk'].
    apply list_elem_of_singleton in Hk, Hk'. simplify_eq. eapply (pi_keys _ _ _ _ _ _ Hp); [exact Hx|exact Hy|exact Eq|exact Eq'|].
    split; [done|]. destruct (Z.eqb_spec (reqop q) DTOP_JOINWAIT) as [E|]; [|done]. by rewrite E in Ef.
Qed.

Lemma job_waits_nodup c0 J : job_ok c0 J → NoDup (job_waits J).
Proof.
  intros Hok. unfold job_waits. apply NoDup_concat_fmap; [apply NoDup_indexed|..].
  - intros [r n] Hn%elem_of_indexed0. simpl. exact (node_waits_nodup _ r _ (jo_node _ _ Hok _ _ Hn)).
  - intros [r n] [r' n'] k Hn%elem_of_indexed0 Hn'%elem_of_indexed0. simpl. intros Hk Hk'.
    apply waits_rank in Hk as [E _], Hk' as [E' _]. simplify_eq. done.
Qed.

(** ** Running a job *)

#[export] Instance app_may_dec i l a : Decision (app_may i l a).
Proof. unfold app_may, lt_used. destruct a; apply _. Defined.

(** One thread's turn: the manager or the MPI thread of a rank (a send, the
    release of a sent entry, the oldest packet for the rank), or the thread of
    a slot. *)
Inductive turn :=
  | TMgr (r : Z)
  | TSend (r : Z)
  | TSent (r : Z)
  | TRecv (r : Z)
  | TApp (r i : Z) (a : app_act).

Definition turn_rank (t : turn) : Z :=
  match t with TMgr r | TSend r | TSent r | TRecv r | TApp r _ _ => r end.

(** The first packet for rank [r], and the others. *)
Fixpoint take_packet (r : Z) (l : list packet) : option (packet * list packet) :=
  match l with
  | [] => None
  | p :: l => if p_dst p =? r then Some (p, l)
              else '(q, l') ← take_packet r l; Some (q, p :: l')
  end.

Definition rank_turn (c : config) (e : env) (n : node) (pks : list packet) (t : turn) :
    option (node * list packet) :=
  match t with
  | TMgr _ => match mgr_main_step c e n with Ok n' => Some (n', pks) | Crash _ => None end
  | TSend _ =>
      match dtq_send_dequeue (st n) with
      | Ok (Some m, s') => Some (Node s' (pc n) (m :: out n), pks ++ [send_packet c m])
      | _ => None
      end
  | TSent _ =>
      match out n with
      | m :: k => match dtq_send_release m (st n) with Ok (_, s') => Some (Node s' (pc n) k, pks) | Crash _ => None end
      | [] => None
      end
  | TRecv r =>
      match take_packet r pks with
      | Some (p, rest) =>
          match recv_packet e p (st n) with Ok (true, s') => Some (Node s' (pc n) (out n), rest) | _ => None end
      | None => None
      end
  | TApp _ i a =>
      match aget (ltab (st n)) i with
      | Some l =>
          if decide (app_may i l a) then
            match app_run c e i a (st n) with Ok (_, s') => Some (Node s' (pc n) (out n), pks) | Crash _ => None end
          else None
      | None => None
      end
  end.

Section Run.
Context (c0 : config) (e : Z → env).

Definition job_turn (J : cluster) (t : turn) : option cluster :=
  let r := turn_rank t in
  n ← aget (nodes J) r;
  '(n', pks) ← rank_turn (cfg c0 r) (e r) (view (shared J) n) (net J) t;
  Some (Cluster (gtab (st n')) (aset (nodes J) r n') pks).

Definition runningb (J : cluster) : bool :=
  forallb (λ n, mpisq_draindown (dtq (st n)) =? DTQ_DD_INIT) (nodes J).

Fixpoint job_run (J : cluster) (ts : list turn) : option cluster :=
  match ts with
  | [] => Some J
  | t :: ts => J' ← job_turn J t; if runningb J' then job_run J' ts else None
  end.

Lemma take_packet_spec r l p rest : take_packet r l = Some (p, rest) → p_dst p = r ∧ l ≡ₚ p :: rest.
Proof.
  revert rest. induction l as [|q l IH]; intros rest E; simpl in E; [done|]. destruct (Z.eqb_spec (p_dst q) r).
  - by simplify_eq.
  - destruct (take_packet r l) as [[q' l']|]; simplify_eq/=. destruct (IH l' eq_refl) as [? ->]. split; [done|]. constructor.
Qed.

Lemma job_turn_step J t J' : job_turn J t = Some J' → job_step c0 e J J'.
Proof.
  unfold job_turn. destruct (aget (nodes J) (turn_rank t)) as [n|] eqn:Hn; [|done]. simpl.
  destruct (rank_turn _ _ _ _ t) as [[n' pks]|] eqn:E; [|done]. simpl. intros [= <-].
  assert (∀ ins outs rest, net J ≡ₚ ins ++ rest → rest ++ outs = pks →
    rank_step (cfg c0 (turn_rank t)) (e (turn_rank t)) (view (shared J) n) ins outs n' →
    job_step c0 e J (Cluster (gtab (st n')) (aset (nodes J) (turn_rank t) n') pks)) as Hmk.
  { intros ins outs rest Hnet <- Hs. by econstructor. }
  set (v := view (shared J) n) in *. clearbody v.
  destruct t as [r|r|r|r|r i a]; cbn [rank_turn turn_rank] in E, Hn, Hmk; repeat case_match; simplify_eq.
  - apply (Hmk [] [] (net J)); [done|by rewrite app_nil_r|]. by constructor.
  - eapply (Hmk [] _ (net J)); [done|reflexivity|]. by apply r_send.
  - apply (Hmk [] [] (net J)); [done|by rewrite app_nil_r|]. match goal with u : unit |- _ => destruct u end. eapply r_sent; [|done]. by match goal with H : out _ = _ |- _ => rewrite H end.
  - match goal with H : take_packet _ _ = Some _ |- _ => apply take_packet_spec in H as [Hd Hp] end.
    eapply (Hmk [_] [] _ Hp); [by rewrite app_nil_r|]. by apply r_recv.
  - apply (Hmk [] [] (net J)); [done|by rewrite app_nil_r|]. match goal with u : unit |- _ => destruct u end. by eapply r_app.
Qed.

Lemma runningb_ok J : runningb J = true → job_running J.
Proof.
  unfold runningb. rewrite forallb_forall. intros H r n Hn. apply Z.eqb_eq, H, list_elem_of_In.
  unfold aget in Hn. destruct (0 <=? r); [|done]. by eapply list_elem_of_lookup_2.
Qed.

Lemma job_run_reach ts : ∀ J J', job_run J ts = Some J' → rtc (running_step c0 e) J J'.
Proof.
  induction ts as [|t ts IH]; intros J J'; simpl; [by intros [= <-]|].
  destruct (job_turn J t) as [J1|] eqn:E; [|done]. simpl. destruct (runningb J1) eqn:Er; [|done]. intros H.
  eapply rtc_l; [|by apply IH]. split; [by eapply job_turn_step|by apply runningb_ok].
Qed.
End Run.

(** The two ranks of the small job, before their loops. *)
Definition demo_nodes : list node :=
  let start r := match mgr_main_start (cfg demo_cfg r) demo_env 0 0 (start_st (cfg demo_cfg r) [zero_gtab; zero_gtab; zero_gtab]) with
                 | Ok (_, s) => Node s AtTop []
                 | Crash _ => Node demo_st LeftLoop []
                 end in
  [start 0; start 1].

Definition demo_start : cluster := Eval vm_compute in
  Cluster (match demo_nodes with n :: _ => gtab (st n) | [] => [] end) demo_nodes [].

(** The main thread creates a thread, which rank 1 starts; rank 0 has its
    STARTED in hand, and the main thread sleeps. *)
Definition demo_turns : list turn :=
  [TApp 0 0 (ActCall (ANcreate false None 200 None) 0 demo_attr (0, 0, 0));
   TMgr 0; TMgr 0; TMgr 0; TMgr 0; TMgr 0; TMgr 0; TMgr 0; TMgr 0;
   TSend 0; TRecv 1; TMgr 1; TMgr 1; TMgr 1; TMgr 1; TSend 1; TRecv 0; TSent 0; TSent 1; TMgr 0; TMgr 0].

Definition demo_created : cluster := Eval vm_compute in
  match job_run demo_cfg (λ _, demo_env) demo_start demo_turns with Some J => J | None => demo_start end.

Lemma demo_start_ok : job_start demo_cfg (λ _, demo_env) demo_start.
Proof.
  split; [done| |done]. exists [zero_gtab; zero_gtab; zero_gtab], 0, 0. split; [done|]. split; [by repeat constructor|].
  intros r n Hn. unfold aget in Hn. destruct (Z.leb_spec 0 r) as [Hr|]; [|done].
  destruct (Z.to_nat r) as [|[|k]] eqn:Er; [| |by destruct k].
  - assert (r = 0) as -> by lia. injection Hn as <-. split_and!; done.
  - assert (r = 1) as -> by lia. injection Hn as <-. split_and!; done.
Qed.

Lemma demo_created_reachable : rtc (running_step demo_cfg (λ _, demo_env)) demo_start demo_created.
Proof. apply (job_run_reach demo_cfg (λ _, demo_env) demo_turns). vm_compute. reflexivity. Qed.

(** ** Theorems *)

(** The request a reply answers. *)
Definition answers (f : dtframe) : option Z :=
  match fr_body f with
  | BCreated _ _ => Some DTOP_CREATE
  | BStarted _ => Some DTOP_START
  | BDetached _ => Some DTOP_DETACH
  | BCanceled _ => Some DTOP_CANCEL
  | BJoined _ _ => Some DTOP_JOIN
  | _ => None
  end.

(** C1. Every request that waits is answered once.  In every interleaving of
    the threads of all ranks, and with packets delivered in any order, until
    the shutdown begins: the conversations the pending requests wait for are
    distinct, and each is carried by exactly one message (queued, in hand or
    on the network) or one request rank 0 keeps; nothing else is carried.  So
    no request or answer is lost, sent twice, or sent to the wrong rank. *)
Theorem job_conversations (c0 : config) (e : Z → env) (J0 J : cluster) (Hc : config_ok c0)
    (Hmal : ∀ r k, malloc_ok (e r) k = true)
    (Hseq : 2 * nmaxthread c0 < (2 ^ 32 - mpi_wsize c0) / mpi_wsize c0)
    (Hstart : job_start c0 e J0) (Hrun : rtc (running_step c0 e) J0 J) :
  NoDup (job_waits J) ∧ job_carries J ≡ₚ job_waits J.
Proof.
  pose proof (job_ok_reach c0 e Hc Hmal Hseq J0 J (job_start_ok c0 e J0 Hc Hstart) Hrun) as Hok.
  split; [by eapply job_waits_nodup|by eapply job_conversing].
Qed.

Lemma job_conversations_witness :
  NoDup (job_waits demo_created) ∧ job_carries demo_created ≡ₚ job_waits demo_created.
Proof.
  apply (job_conversations demo_cfg (λ _, demo_env) demo_start); [apply demo_cfg_ok|done|done|apply demo_start_ok|].
  apply demo_created_reachable.
Defined.

(** C2. No manager faults in a running job.  In every reachable state of every
    interleaving, the next step of each rank's main loop returns (no bad
    pointer, no index out of range, no endless search for a sequence number),
    every rank satisfies its invariant with all entries accounted for, and a
    START finds a free local slot wherever it arrives. *)
Theorem job_managers_safe (c0 : config) (e : Z → env) (J0 J : cluster) (r : Z) (n : node) (Hc : config_ok c0)
    (Hmal : ∀ r k, malloc_ok (e r) k = true)
    (Hseq : 2 * nmaxthread c0 < (2 ^ 32 - mpi_wsize c0) / mpi_wsize c0)
    (Hstart : job_start c0 e J0) (Hrun : rtc (running_step c0 e) J0 J) (Hn : aget (nodes J) r = Some n) :
  (∃ n', mgr_main_step (cfg c0 r) (e r) (view (shared J) n) = Ok n') ∧
  rank_ok (cfg c0 r) [] (hands n) (st (view (shared J) n)) ∧
  Forall (λ m, hdr_op (frame m) = DTOP_START → ltab_alloc_cnt (mgrstate (st n)) < nmaxthread c0) (msgs n).
Proof.
  pose proof (job_ok_reach c0 e Hc Hmal Hseq J0 J (job_start_ok c0 e J0 Hc Hstart) Hrun) as Hok.
  pose proof (jo_node _ _ Hok _ _ Hn) as Hnode. pose proof (job_fits c0 Hc Hseq _ _ _ Hok Hn) as Hf. split_and!.
  - apply (mgr_safe (cfg c0 r) (e r) (cfg_rank_ok c0 Hc _ _ _ Hok Hn) (Hmal r)); done.
  - assert (hands n = hands (view (shared J) n)) as ->; [|apply Hnode].
    unfold hands. change (reqs (view (shared J) n)) with (reqs n). by rewrite (req_mids_ext (st n) (st (view (shared J) n))) by (by intros []).
  - apply Hf.
Qed.

Lemma job_managers_safe_witness :
  ∃ n', mgr_main_step (cfg demo_cfg 0) demo_env (view (shared demo_created) (nth 0 (nodes demo_created) (Node demo_st LeftLoop []))) = Ok n'.
Proof.
  eapply (job_managers_safe demo_cfg (λ _, demo_env) demo_start demo_created 0);
    [apply demo_cfg_ok|done|done|apply demo_start_ok|apply demo_created_reachable|done].
Defined.

(** C3. A reply always finds its request.  When a manager of a running job takes
    a CREATED, STARTED, DETACHED, CANCELED or JOINED, the search of the pending
    list succeeds: the branch for a stray reply is never taken. *)
Theorem replies_find_requests (c0 : config) (e : Z → env) (J0 J : cluster) (r : Z) (n : node)
    (m : dtq_mpiqentry) (q : option reqref) (op : Z) (Hc : config_ok c0)
    (Hmal : ∀ r k, malloc_ok (e r) k = true)
    (Hseq : 2 * nmaxthread c0 < (2 ^ 32 - mpi_wsize c0) / mpi_wsize c0)
    (Hstart : job_start c0 e J0) (Hrun : rtc (running_step c0 e) J0 J) (Hn : aget (nodes J) r = Some n)
    (Hm : pc n = AtWork (Some m) q) (Hop : answers (frame m) = Some op) :
  ∃ x s', find_pending_msgreq m op (sizeof_msg (fr_body (frame m))) (st (view (shared J) n)) = Ok (Some x, s').
Proof.
  pose proof (job_ok_reach c0 e Hc Hmal Hseq J0 J (job_start_ok c0 e J0 Hc Hstart) Hrun) as Hok.
  pose proof (jo_node _ _ Hok _ _ Hn) as Hnode. pose proof (job_fits c0 Hc Hseq _ _ _ Hok Hn) as [Fa _ _].
  assert (msgs (view (shared J) n) = [m]) as Em by (unfold msgs; simpl; by rewrite Hm).
  rewrite Em, Forall_singleton in Fa. pose proof (no_msgs _ _ Hnode) as Hwf. rewrite Em, Forall_singleton in Hwf.
  destruct (msg_wf_size (cfg c0 r) m Hwf) as [Hs1 Hs2]. destruct Hwf as (_ & _ & Hdst).
  assert (∃ k : conv, k ∈ msg_conv (peer m) r (frame m) ∧ k = (r, op, hdr_xidseq (frame m)) ∧ is_reply (frame m) = true ∧ op ≠ DTOP_JOINWAIT) as (k & Hk & -> & Hrep & Hnj).
  { unfold answers, msg_conv, is_reply, hdr_op in *. destruct (fr_body (frame m)); simplify_eq; eexists; split_and!; try (by left); try done.
    simpl in Hdst. by rewrite Hdst. }
  destruct (Fa Hrep _ Hk) as (x & qr & Hx & Hq & Hw). unfold req_wait in Hw. case_match; [|by apply elem_of_nil in Hw].
  apply list_elem_of_singleton in Hw. simplify_eq/=.
  pose proof (find_pending_hit (cfg c0 r) [] _ _ m _ x qr (no_rank _ _ Hnode) Hnj Hs1 ltac:(lia) Hx Hq eq_refl ltac:(done)) as Hw.
  apply wp_ok in Hw as (o & s' & E & -> & _). eauto.
Qed.

Lemma replies_find_requests_witness :
  ∃ x s', find_pending_msgreq (Mqe 0 (Frame 8 (BStarted 0)) 12 1) DTOP_START 12
    (st (view (shared demo_created) (nth 0 (nodes demo_created) (Node demo_st LeftLoop [])))) = Ok (Some x, s').
Proof.
  eapply (replies_find_requests demo_cfg (λ _, demo_env) demo_start demo_created 0 _ (Mqe 0 (Frame 8 (BStarted 0)) 12 1));
    [apply demo_cfg_ok|done|done|apply demo_start_ok|apply demo_created_reachable|done|done|done].
Defined.
