(* ===== verification/JobJoins.v ===== *)
(** * Joins of a job

    Which thread a sleeping joiner waits for.  A history variable remembers,
    for every thread that joins, the handle its call put into the JOIN message;
    the invariant of [Job] is extended to the joins: what rank 0 keeps for a
    sleeper is for that handle, and the thread it names is in the global table,
    not detached and not finished. *)

From S2P Require Import Prelude Types Router Queuing ThreadTab Manager ManagerInv ManagerSafe Lifecycle Spawn Ledger ThreadOps Requests AppSteps Node Init Job.

(** ** A job at rest *)

(** In a quiet job only the requests a manager keeps carry anything. *)
Lemma quiet_carries J k : (net J = [] ∧ ∀ r n, aget (nodes J) r = Some n →
    mpisendq (dtq (st n)) = [] ∧ mpirecvq (dtq (st n)) = [] ∧ msgs n = []) → k ∈ job_carries J →
  ∃ r n x q, aget (nodes J) r = Some n ∧ x ∈ rpending (mgrstate (st n)) ∧ req_lookup (st n) x = Some q ∧ k ∈ req_carry q.
Proof.
  intros [Hnet Hq] [Hk|Hk]%elem_of_app; [|by rewrite Hnet in Hk; apply elem_of_nil in Hk].
  apply elem_of_concat in Hk as (l & Hk & Hl). apply list_elem_of_fmap in Hl as ([r n] & -> & Hn).
  apply elem_of_indexed0 in Hn. destruct (Hq r n Hn) as (E1 & E2 & E3). simpl in Hk. unfold node_carries in Hk.
  rewrite E1, E2, E3 in Hk. simpl in Hk. apply elem_of_concat in Hk as (l & Hk & Hl). apply list_elem_of_fmap in Hl as (x & -> & Hx).
  destruct (req_lookup (st n) x) as [q|] eqn:E; [|by apply elem_of_nil in Hk]. by exists r, n, x, q.
Qed.

Lemma waits_elem J r n x q k : aget (nodes J) r = Some n → x ∈ rpending (mgrstate (st n)) → req_lookup (st n) x = Some q →
  k ∈ req_wait r q → k ∈ job_waits J.
Proof.
  intros Hn Hx Hq Hk. apply (elem_of_concat_fmap _ _ (r, n)); [by apply elem_of_indexed0|]. simpl.
  apply (elem_of_concat_fmap _ _ x); [done|]. by rewrite Hq.
Qed.

(** ** What the joiners ask for *)

(** The thread each local thread of each rank has asked to join last. *)
Definition asks : Type := Z → Z → option dthread_t.

(** The handle in the JOIN that the request of slot [i] of rank [r] carries
    while it waits for its manager. *)
Definition queued_join (J : cluster) (r i : Z) : option dthread_t :=
  n ← aget (nodes J) r;
  l ← aget (ltab (st n)) i;
  m ← req_mqe (lt_req l);
  if bool_decide (RLtab i ∈ reqs n) && (reqop (lt_req l) =? DTOP_JOIN) then
    match fr_body (frame m) with BJoin t => Some t | _ => None end
  else None.

(** The history after a step to [J]. *)
Definition note (J : cluster) (A : asks) : asks := λ r i,
  match queued_join J r i with Some t => Some t | None => A r i end.

(** A call that queued a JOIN for thread [t] is noted under [t]. *)
Lemma call_noted J A c r i n hm s to t : aget (nodes J) r = Some n →
  request_queued c i hm to (BJoin t) s (st n) → note J A r i = Some t.
Proof.
  intros Hn [Hq _ _ _ (l & m & q & Hl & El & _ & _ & _ & Hop & Hm & _ & Hb & _)].
  unfold note, queued_join. rewrite Hn. simpl. rewrite El, aget_aset_eq by (by eapply aget_Some_range). simpl.
  rewrite Hm. simpl. rewrite Hop. unfold hdr_op. rewrite Hb. simpl.
  rewrite bool_decide_true; [done|]. unfold reqs. rewrite Hq. apply elem_of_app. right. apply elem_of_app. right. by left.
Qed.

(** The manager of rank 0 is not told that a thread could not be started.  It
    would free the entry of that thread without a look at the joiners; only a
    program that makes up handles can have one there, since the handle of the
    thread has not been returned to anybody. *)
Definition starts_fine (J : cluster) : Prop :=
  ∀ r n, aget (nodes J) r = Some n → Forall (λ m, starts_well (frame m)) (msgs n).

(** A step of a running job, with the history. *)
Definition asked_step (c0 : config) (e : Z → env) (x y : cluster * asks) : Prop :=
  running_step c0 e x.1 y.1 ∧ starts_fine x.1 ∧ y.2 = note y.1 x.2.

(** ** Counting the joins *)

(** The JOINs with key [k] on their way or kept. *)
Definition joins (J : cluster) (k : jkey) : Z :=
  tally (λ x, node_value (join_cur x.1 k) x.2) (indexed 0 (nodes J)) + tally (pk_join k) (net J).

(** The conversation of a join. *)
Definition join_conv (k : jkey) : conv := (k.1.1, DTOP_JOIN, k.1.2).

Lemma msg_join_conv k src dst f : msg_join k src f ≤ occ (join_conv k) (msg_conv src dst f).
Proof.
  unfold msg_join, msg_conv, hdr_op, b2z. pose proof (λ l, count_if_bounds (λ x, bool_decide (x = join_conv k)) l) as Hb.
  destruct (fr_body f); try (apply Hb). case_bool_decide as E; [|apply Hb]. subst k. unfold occ, join_conv. simpl.
  by rewrite bool_decide_true.
Qed.

Lemma req_join_conv k q : req_join k q ≤ occ (join_conv k) (req_carry q).
Proof.
  unfold req_join, req_carry, b2z. pose proof (λ l, count_if_bounds (λ x, bool_decide (x = join_conv k)) l) as Hb.
  destruct (Z.eqb_spec (reqop q) DTOP_JOINWAIT) as [->|]; [|apply Hb]. simpl. destruct (req_un q); try apply Hb.
  case_bool_decide as E; [|apply Hb]. subst k. unfold occ, join_conv. simpl. by rewrite bool_decide_true.
Qed.

Lemma node_join_conv r k n : node_value (join_cur r k) n ≤ occ (join_conv k) (node_carries r n).
Proof.
  unfold node_value, value, node_carries. rewrite gt_tally_zero by done. rewrite !occ_app, !occ_concat, tally_app. simpl.
  pose proof (tally_le (λ m, msg_join k r (frame m)) (λ m, occ (join_conv k) (msg_conv r (peer m) (frame m))) (mpisendq (dtq (st n)))
    (λ m _, msg_join_conv _ _ _ _)).
  pose proof (λ l, tally_le (λ m, msg_join k (peer m) (frame m)) (λ m, occ (join_conv k) (msg_conv (peer m) r (frame m))) l
    (λ m _, msg_join_conv _ _ _ _)) as Hr. pose proof (Hr (mpirecvq (dtq (st n)))). pose proof (Hr (msgs n)).
  pose proof (tally_le (pend_value (join_cur r k) (st n)) (λ x, occ (join_conv k) (from_option req_carry [] (req_lookup (st n) x)))
    (rpending (mgrstate (st n)))) as Hp. lapply Hp; [lia|]. clear.
  intros x _. unfold pend_value. destruct (req_lookup (st n) x) as [q|]; simpl; [apply req_join_conv|by rewrite occ_nil].
Qed.

(** A JOIN that is counted is carried. *)
Lemma joins_carried J k : 0 < joins J k → join_conv k ∈ job_carries J.
Proof.
  intros Hk. apply occ_pos. unfold job_carries. rewrite occ_app, !occ_concat. unfold joins in Hk.
  pose proof (tally_le (λ x, node_value (join_cur x.1 k) x.2) (λ x, occ (join_conv k) (node_carries x.1 x.2)) (indexed 0 (nodes J))
    (λ x _, node_join_conv _ _ _)).
  pose proof (tally_le (pk_join k) (λ p, occ (join_conv k) (msg_conv (p_src p) (p_dst p) (p_frame p))) (net J)
    (λ x _, msg_join_conv _ _ _ _)). lia.
Qed.

(** The joiners a rank keeps for one thread, among all it keeps. *)
Definition kept (n : node) (t : dthread_t) : Z := tally (pend_value (wait_cur t) (st n)) (rpending (mgrstate (st n))).

Lemma wait_value t n : node_value (wait_cur t) n = kept n t + tally (gt_value (wait_cur t)) (indexed 0 (gtab (st n))).
Proof. unfold node_value, value, kept. simpl. rewrite !tally_const. lia. Qed.

Lemma kept_bounds t n : 0 ≤ kept n t ≤ node_value keep_cur n.
Proof.
  unfold node_value, value. rewrite gt_tally_zero by done. simpl. rewrite !tally_const. unfold kept. split.
  - apply tally_nonneg. intros x. unfold pend_value. destruct (req_lookup (st n) x) as [q|]; [|done]. simpl. unfold req_awaits, b2z.
    repeat case_match; lia.
  - etrans; [apply (tally_le _ (pend_value keep_cur (st n)))|simpl; lia]. intros x _. unfold pend_value.
    destruct (req_lookup (st n) x) as [q|]; [|done]. simpl. unfold req_awaits, b2z. repeat case_match; lia.
Qed.

Lemma kept_view t n gt : kept (view gt n) t = kept n t.
Proof. unfold kept. simpl. apply tally_ext. by intros []. Qed.

(** ** The invariant *)

Section Inv.
Context (c0 : config) (e : Z → env).
Context (Hc : config_ok c0) (Hmal : ∀ r k, malloc_ok (e r) k = true)
  (Hseq : 2 * nmaxthread c0 < (2 ^ 32 - mpi_wsize c0) / mpi_wsize c0).
Implicit Types (J : cluster) (A : asks) (k : jkey).

(** The local request [l] is a pending join of slot [i] of rank [r]. *)
Definition joining J (r i : Z) (l : dthread_ltab_t) : Prop :=
  ∃ n, aget (nodes J) r = Some n ∧ RLtab i ∈ rpending (mgrstate (st n)) ∧ aget (ltab (st n)) i = Some l ∧
    reqop (lt_req l) = DTOP_JOIN.

Record joins_ok J A : Prop := {
  jn_named : ∀ r i l t, joining J r i l → 0 < joins J (r, xidseq (lt_req l), t) → A r i = Some t;
  jn_queued : ∀ r i t, queued_join J r i = Some t → A r i = Some t;
  jn_rest : ∀ r n, r ≠ 0 → aget (nodes J) r = Some n → node_value keep_cur n ≤ 0;
  jn_zero : ∀ n t, aget (nodes J) 0 = Some n → node_value (wait_cur t) (view (shared J) n) ≤ 0 }.

(** Two pending joins of a rank have different numbers. *)
Lemma joining_unique J r i j l l' : job_ok c0 J → joining J r i l → joining J r j l' →
  xidseq (lt_req l) = xidseq (lt_req l') → i = j.
Proof using.
  intros Hok (n & Hn & Hi & Hl & Ho) (n' & Hn' & Hj & Hl' & Ho') Hx. simplify_eq.
  pose proof (ok_pend _ _ _ _ (no_rank _ _ (jo_node _ _ Hok _ _ Hn))) as Hp. simpl in Hp.
  assert (RLtab i = RLtab j) as [= ->]; [|done].
  eapply (pi_keys _ _ _ _ _ _ Hp); [exact Hi|exact Hj|simpl; by rewrite Hl|simpl; by rewrite Hl'|].
  split; [congruence|]. by rewrite Ho.
Qed.

(** A pending request does not wait for its manager. *)
Lemma pending_not_queued J r i n : job_ok c0 J → aget (nodes J) r = Some n → RLtab i ∈ rpending (mgrstate (st n)) →
  queued_join J r i = None.
Proof using.
  intros Hok Hn Hi. unfold queued_join. rewrite Hn. simpl. destruct (aget (ltab (st n)) i) as [l|]; [|done]. simpl.
  destruct (req_mqe (lt_req l)); [|done]. simpl. rewrite bool_decide_false; [done|]. intros Hq.
  pose proof (no_threads _ _ (jo_node _ _ Hok _ _ Hn)) as Ht. change (reqs (view (shared J) n)) with (reqs n) in Ht.
  destruct (to_queue _ _ _ Ht _ Hq) as (j & l' & [= <-] & Hqo). by apply (qo_pend _ _ _ _ Hqo).
Qed.

(** A request that carries a JOIN is a join. *)
Lemma queued_body J r i n : job_ok c0 J → aget (nodes J) r = Some n → RLtab i ∈ reqs n →
  ∃ l, aget (ltab (st n)) i = Some l ∧ (fwd_op (reqop (lt_req l)) = true → ∃ m, req_mqe (lt_req l) = Some m ∧
    (reqop (lt_req l) = DTOP_JOIN ↔ ∃ t, fr_body (frame m) = BJoin t)).
Proof using.
  intros Hok Hn Hq. pose proof (no_threads _ _ (jo_node _ _ Hok _ _ Hn)) as Ht. change (reqs (view (shared J) n)) with (reqs n) in Ht.
  destruct (to_queue _ _ _ Ht _ Hq) as (j & l & [= <-] & Hqo). exists l. split; [apply Hqo|]. intros Hf.
  destruct (qo_msg _ _ _ _ Hqo Hf) as (m & Hm & (_ & Hw & _) & Hop). exists m. split; [done|]. rewrite <- Hop.
  unfold hdr_op, frame_wf in *. destruct (fr_body (frame m)); try done; split; try done; try (by intros [? ?]). intros _. by eexists.
Qed.

Section Step.
Context (J : cluster) (A : asks) (r0 : Z) (n n' : node) (ins outs rest : list packet).
Let J' : cluster := Cluster (gtab (st n')) (aset (nodes J) r0 n') (rest ++ outs).
Let v : node := view (shared J) n.
Context (Hok : job_ok c0 J) (Hok' : job_ok c0 J') (Hj : joins_ok J A)
  (Hn : aget (nodes J) r0 = Some n) (Hnet : net J ≡ₚ ins ++ rest)
  (Hmv : join_moves (cfg c0 r0) v ins outs n') (Hfine : starts_fine J).

Lemma new_node r : aget (nodes J') r = if decide (r = r0) then Some n' else aget (nodes J) r.
Proof using Hn.
  pose proof (aget_Some_range _ _ _ Hn). simpl. case_decide as E; [subst; by apply aget_aset_eq|]. by rewrite aget_aset_ne by lia.
Qed.

(** What a step adds to the JOINs. *)
Lemma joins_step k : joins J' k ≤ joins J k ∨
  ∃ i l l', forwards v n' i l l' ∧ joins J' k ≤ joins J k + fwd_join (cfg c0 r0) k l l'.
Proof using Hn Hnet Hmv.
  assert (node_value (join_cur r0 k) v = node_value (join_cur r0 k) n) as Ev by (by apply view_value).
  assert (joins J' k - joins J k = node_value (join_cur r0 k) n' + tally (pk_join k) outs -
    node_value (join_cur r0 k) v - tally (pk_join k) ins) as E.
  { unfold joins. simpl. rewrite (tally_indexed_aset _ _ _ _ _ _ Hn), tally_app, (tally_perm _ _ _ Hnet), tally_app, Z.add_0_l. simpl. lia. }
  destruct (jm_join _ _ _ _ _ Hmv k) as [Hle|(i & l & l' & Hf & Hle)]; simpl in Hle; [left; lia|].
  right. exists i, l, l'. split; [done|]. lia.
Qed.

(** Which requests can be pending joins after the step. *)
Lemma joining_step r i l : joining J' r i l →
  (∃ l0, joining J r i l0 ∧ lt_req l0 = lt_req l) ∨ r = r0 ∧ ∃ l0, forwards v n' i l0 l.
Proof using Hn Hmv.
  intros (n1 & Hn1 & Hi & Hl & Ho). rewrite new_node in Hn1. case_decide as E.
  - rewrite E in *. injection Hn1 as <-. destruct (jm_pend _ _ _ _ _ Hmv i l Hi Hl) as [(Hi0 & l0 & Hl0 & Eq)|?]; [left|right; by eauto].
    exists l0. split; [|done]. exists n. split_and!; try done. by rewrite Eq.
  - left. exists l. split; [|done]. by exists n1.
Qed.

(** The request that is forwarded. *)
Lemma forwards_inv i l l' : forwards v n' i l l' →
  RLtab i ∈ reqs n ∧ (RLtab i ∉ rpending (mgrstate (st n))) ∧ aget (ltab (st n)) i = Some l ∧
  (reqop (lt_req l) = DTOP_JOIN → joining J' r0 i l').
Proof using Hn.
  intros (Hpc & Hi & Hi' & Hl & Hl' & _ & Eop & _). simpl in *. split_and!; try done.
  - unfold reqs, taken_req. rewrite Hpc. by left.
  - intros Ej. exists n'. rewrite new_node, decide_True by done. split_and!; try done. congruence.
Qed.

(** A forwarded request adds the JOIN of its own thread only. *)
Lemma fwd_join_pos i l l' k : forwards v n' i l l' → 0 < fwd_join (cfg c0 r0) k l l' →
  ∃ t, k = (r0, xidseq (lt_req l'), t) ∧ reqop (lt_req l) = DTOP_JOIN ∧ queued_join J r0 i = Some t.
Proof using Hok Hn rest outs.
  intros Hf Hk. destruct (forwards_inv _ _ _ Hf) as (Hq & _ & Hl & _). destruct Hf as (_ & _ & _ & _ & _ & Hop & _).
  destruct (queued_body J r0 i n Hok Hn Hq) as (l1 & Hl1 & Hb). simplify_eq. destruct (Hb Hop) as (m & Hm & Hj1).
  unfold fwd_join in Hk. rewrite Hm in Hk. unfold msg_join, b2z in Hk. simpl in Hk.
  destruct (fr_body (frame m)) as [| | | | | | | |t| | | |] eqn:Eb; try lia.
  case_bool_decide as Ek; [|lia]. exists t. assert (reqop (lt_req l) = DTOP_JOIN) as Ej by (apply Hj1; by eexists).
  split_and!; [done|done|]. unfold queued_join. rewrite Hn. simpl. rewrite Hl. simpl. rewrite Hm. simpl.
  by rewrite bool_decide_true, Ej, Eb.
Qed.

Lemma named_step r i l t : joining J' r i l → 0 < joins J' (r, xidseq (lt_req l), t) → note J' A r i = Some t.
Proof using Hok Hok' Hj Hn Hnet Hmv.
  intros Hi Hk. set (k := (r, xidseq (lt_req l), t)) in *.
  assert (queued_join J' r i = None) as Enq by (destruct Hi as (n1 & Hn1 & Hi & _); by eapply pending_not_queued).
  unfold note. rewrite Enq. destruct (joining_step r i l Hi) as [(l0 & Hi0 & Eq)|(-> & l0 & Hf)].
  - apply (jn_named _ _ Hj r i l0); [done|]. rewrite Eq. fold k.
    destruct (joins_step k) as [Hle|(j & l1 & l1' & Hf & Hle)]; [lia|].
    destruct (decide (0 < fwd_join (cfg c0 r0) k l1 l1')) as [Hp|]; [|lia]. exfalso.
    destruct (fwd_join_pos _ _ _ _ Hf Hp) as (t1 & Ek & Ej & _). injection Ek as -> Ex _.
    destruct (forwards_inv _ _ _ Hf) as (_ & Hnp & _ & Hj1). specialize (Hj1 Ej).
    pose proof (joining_unique J' _ _ _ _ _ Hok' Hi Hj1 Ex) as ->.
    destruct Hi0 as (n1 & Hn1 & Hi1 & _). by simplify_eq.
  - destruct (forwards_inv _ _ _ Hf) as (Hq & Hnp & Hl0 & _). destruct Hi as (n1 & Hn1 & Hi & Hl & Ho).
    rewrite new_node, decide_True in Hn1 by done. injection Hn1 as <-.
    assert (joins J k ≤ 0) as H0.
    { apply Z.nlt_ge. intros Hc0. destruct (carried_awaits c0 J r0 (join_conv k) Hok (joins_carried _ _ Hc0) eq_refl) as (n2 & Hn2 & x & q & Hx & Hq2 & Hw).
      simplify_eq. unfold req_wait in Hw. case_match; [|by apply elem_of_nil in Hw]. apply list_elem_of_singleton in Hw. injection Hw as Eop Exid.
      destruct (pi_pend _ _ _ _ _ _ (ok_pend _ _ _ _ (no_rank _ _ (jo_node _ _ Hok _ _ Hn))) x Hx) as (q' & Hq' & Hpo).
      assert (q' = q) as -> by (destruct x; simpl in *; congruence).
      destruct x as [j|id]; [|destruct Hpo as [[Ep _]|[Ep _]]; by rewrite Ep in Eop]. simpl in Hq2.
      destruct (aget (ltab (st n)) j) as [lj|] eqn:Hlj; [|done]. injection Hq2 as <-.
      assert (j ≠ i) as Hne by congruence. destruct Hf as (_ & _ & _ & _ & _ & _ & _ & Hother). destruct (Hother j Hne) as [E1 E2].
      apply Hne. eapply (joining_unique J' r0 j i lj l Hok'); [exists n'|exists n'|congruence];
        rewrite new_node, decide_True by done; split_and!; try done; [by apply E2|by rewrite E1]. }
    destruct (joins_step k) as [Hle|(j & l1 & l1' & Hf1 & Hle)]; [lia|].
    destruct (fwd_join_pos _ _ _ k Hf1 ltac:(lia)) as (t1 & Ek & _ & Hq1). injection Ek as _ <-.
    assert (j = i) as ->; [|by apply (jn_queued _ _ Hj)]. destruct Hf as (Hpc & _), Hf1 as (Hpc1 & _). congruence.
Qed.

Lemma rest_step r n1 : r ≠ 0 → aget (nodes J') r = Some n1 → node_value keep_cur n1 ≤ 0.
Proof using Hn Hj Hmv.
  intros Hr Hn1. rewrite new_node in Hn1. case_decide as E; [|by eapply jn_rest]. rewrite E in Hr. injection Hn1 as <-.
  destruct (jm_rest _ _ _ _ _ Hmv Hr) as [Hk _]. unfold v in Hk. rewrite view_value in Hk by done. pose proof (jn_rest _ _ Hj _ _ Hr Hn). lia.
Qed.

Lemma zero_step n1 t : aget (nodes J') 0 = Some n1 → node_value (wait_cur t) (view (shared J') n1) ≤ 0.
Proof using Hn Hj Hmv Hfine.
  intros Hn1. rewrite new_node in Hn1. case_decide as E.
  - injection Hn1 as <-. simpl. rewrite view_self. apply (jm_zero _ _ _ _ _ Hmv); [done|exact (Hfine r0 n Hn)|].
    intros t'. eapply jn_zero; [exact Hj|]. by rewrite E.
  - destruct (jm_rest _ _ _ _ _ Hmv) as [Hk Hw]; [simpl; congruence|]. specialize (Hw t).
    pose proof (jn_zero _ _ Hj n1 t Hn1) as Hz. rewrite !wait_value, !kept_view in *. unfold v in *. simpl in *.
    rewrite kept_view in Hw. rewrite view_value in Hk by done.
    pose proof (kept_bounds t n). pose proof (kept_bounds t n'). pose proof (jn_rest _ _ Hj r0 n ltac:(congruence) Hn). lia.
Qed.

Lemma joins_ok_moved : joins_ok J' (note J' A).
Proof using Hok Hok' Hj Hn Hnet Hmv Hfine.
  split; [apply named_step| |apply rest_step|apply zero_step]. intros r i t E. unfold note. by rewrite E.
Qed.
End Step.

(** What a step of a rank does, without the rest of the books. *)
Lemma step_moves J J' : job_ok c0 J → running_step c0 e J J' → ∃ r0 n n' ins outs rest,
  J' = Cluster (gtab (st n')) (aset (nodes J) r0 n') (rest ++ outs) ∧ aget (nodes J) r0 = Some n ∧ net J ≡ₚ ins ++ rest ∧
  join_moves (cfg c0 r0) (view (shared J) n) ins outs n'.
Proof using Hc Hmal Hseq.
  intros Hok [[r0 n ins outs rest n' Hn Hnet Hs] Hrun]. exists r0, n, n', ins, outs, rest. split_and!; try done.
  assert (Forall packet_wf ins) as Hins.
  { pose proof (jo_net _ _ Hok) as Hw. rewrite Hnet in Hw. by apply Forall_app in Hw as []. }
  pose proof (aget_Some_range _ _ _ Hn) as Hr.
  destruct (rank_step_ok (cfg c0 r0) (e r0) (cfg_rank_ok c0 Hc _ _ _ Hok Hn) (Hmal r0) _ _ _ _ (jo_node _ _ Hok _ _ Hn)
    (job_fits c0 Hc Hseq _ _ _ Hok Hn) Hins Hs) as (_ & (_ & _ & _ & Hm) & _); [|exact Hm].
  apply (Hrun r0). simpl. by rewrite aget_aset_eq.
Qed.

Lemma joins_ok_step x y : job_ok c0 x.1 → joins_ok x.1 x.2 → asked_step c0 e x y → joins_ok y.1 y.2.
Proof using Hc Hmal Hseq.
  destruct x as [J A], y as [J' A']. simpl. intros Hok Hj (Hs & Hf & E). simpl in *. subst A'.
  pose proof (job_ok_step c0 e Hc Hmal Hseq _ _ Hok Hs) as Hok'.
  destruct (step_moves J J' Hok Hs) as (r0 & n & n' & ins & outs & rest & -> & Hn & Hnet & Hm). by eapply joins_ok_moved.
Qed.

Lemma joins_ok_reach x y : job_ok c0 x.1 → joins_ok x.1 x.2 → rtc (asked_step c0 e) x y →
  job_ok c0 y.1 ∧ joins_ok y.1 y.2.
Proof using Hc Hmal Hseq.
  intros Hok Hj. induction 1 as [|x y z Hs _ IH]; [done|]. apply IH; [|by eapply joins_ok_step].
  by eapply (job_ok_step c0 e Hc Hmal Hseq); [exact Hok|apply Hs].
Qed.

(** Nothing is asked when the loops start. *)
Lemma joins_ok_start J : job_start c0 e J → joins_ok J (λ _ _, None).
Proof using Hc.
  intros Hst. pose proof Hst as [Hlen (gt & argc & argv & Hgl & Hz & Hb) Hnet].
  assert (∀ r n, aget (nodes J) r = Some n → msgs n = [] ∧ dtq (st n) = dtq_init ∧ rpending (mgrstate (st n)) = [] ∧ reqs n = []) as Hq.
  { intros r n Hn. destruct (Hb r n Hn) as (Ep & _ & _ & E1).
    assert (dtq (st n) = dtq_init ∧ rpending (mgrstate (st n)) = []) as [Ed Er].
    { assert (config_ok (cfg c0 r)) as Hcr by (apply aget_Some_range in Hn; destruct Hc; split; simpl; try done; lia).
      destruct (Z.eqb_spec r 0) as [->|Hr]; [by destruct (start_zero_ok _ _ _ _ _ _ Hcr eq_refl Hgl Hz E1) as (_ & ? & ? & _)|].
      rewrite start_other in E1 by done. by injection E1 as <-. }
    split_and!; try done; [unfold msgs; by rewrite Ep|]. unfold reqs, taken_req. by rewrite Ep, Ed. }
  split.
  - intros r i l t (n & Hn & Hi & _). destruct (Hq r n Hn) as (_ & _ & E & _). rewrite E in Hi. by apply elem_of_nil in Hi.
  - intros r i t. unfold queued_join. destruct (aget (nodes J) r) as [n|] eqn:Hn; [|done]. simpl.
    destruct (Hq r n Hn) as (_ & _ & _ & E). rewrite E. destruct (aget (ltab (st n)) i); [|done]. simpl. by destruct (req_mqe _).
  - intros r n _ Hn. destruct (Hq r n Hn) as (E1 & E2 & E3 & _). rewrite quiet_value by done. simpl. lia.
  - intros n t Hn. rewrite wait_value, kept_view. unfold kept. destruct (Hq 0 n Hn) as (_ & _ & -> & _). simpl.
    apply tally_nonpos, gt_wait_nonpos.
Qed.
End Inv.

(** ** Running a job with its history *)

Section Run.
Context (c0 : config) (e : Z → env).

Definition starts_wellb (f : dtframe) : bool :=
  match fr_body f with BStarted err => err =? 0 | _ => true end.

Definition starts_fineb (J : cluster) : bool :=
  forallb (λ n, forallb (λ m, starts_wellb (frame m)) (msgs n)) (nodes J).

Fixpoint asked_run (x : cluster * asks) (ts : list turn) : option (cluster * asks) :=
  match ts with
  | [] => Some x
  | t :: ts =>
      J' ← job_turn c0 e x.1 t;
      if runningb J' && starts_fineb x.1 then asked_run (J', note J' x.2) ts else None
  end.

Lemma starts_fineb_ok J : starts_fineb J = true → starts_fine J.
Proof.
  unfold starts_fineb. rewrite forallb_forall. intros H r n Hn. unfold aget in Hn. destruct (0 <=? r); [|done].
  specialize (H n ltac:(by apply list_elem_of_In, (list_elem_of_lookup_2 _ _ _ Hn))). rewrite forallb_forall in H.
  apply Forall_forall. intros m Hm. specialize (H m ltac:(by apply list_elem_of_In)). unfold starts_wellb, starts_well in *.
  destruct (fr_body (frame m)); try done. by apply Z.eqb_eq.
Qed.

Lemma asked_run_reach ts : ∀ x y, asked_run x ts = Some y → rtc (asked_step c0 e) x y.
Proof.
  induction ts as [|t ts IH]; intros x y; simpl; [by intros [= <-]|].
  destruct (job_turn c0 e x.1 t) as [J1|] eqn:E; [|done]. simpl. destruct (runningb J1) eqn:Er; [|done].
  destruct (starts_fineb x.1) eqn:Ef; [|done]. simpl. intros H.
  eapply rtc_l; [|by apply IH]. split; [split; [by eapply job_turn_step|by apply runningb_ok]|].
  split; [by apply starts_fineb_ok|done].
Qed.
End Run.

(** Nothing is on its way and no manager has anything to do. *)
Definition job_quiet (J : cluster) : Prop :=
  net J = [] ∧ ∀ r n, aget (nodes J) r = Some n →
    mpisendq (dtq (st n)) = [] ∧ mpirecvq (dtq (st n)) = [] ∧ msgs n = [] ∧ reqs n = [].

(** ** A job at rest, and what is kept there *)

Lemma tally_neg {A} (f : A → Z) l : tally f l < 0 → ∃ x, x ∈ l ∧ f x < 0.
Proof.
  induction l as [|a l IH]; simpl; [lia|]. intros H. destruct (decide (f a < 0)); [exists a; split; [left|done]|].
  destruct IH as (x & ? & ?); [lia|]. exists x. split; [by right|done].
Qed.

Lemma pend_join_nonneg r k s x : 0 ≤ pend_value (join_cur r k) s x.
Proof. unfold pend_value. destruct (req_lookup s x); [|done]. simpl. unfold req_join, b2z. repeat case_match; lia. Qed.

(** A join that is kept is counted. *)
Lemma joins_pos J r n x q k : aget (nodes J) r = Some n → x ∈ rpending (mgrstate (st n)) → req_lookup (st n) x = Some q →
  req_join k q = 1 → 0 < joins J k.
Proof.
  intros Hn Hx Hq Hk.
  assert (∀ r n, tally (pend_value (join_cur r k) (st n)) (rpending (mgrstate (st n))) ≤ node_value (join_cur r k) n) as Hle.
  { intros r1 n1. unfold node_value, value. rewrite gt_tally_zero by done. simpl.
    pose proof (λ l, tally_nonneg (λ m, msg_join k r1 (frame m)) l (λ m, msg_join_nonneg _ _ _)) as H1.
    pose proof (λ l, tally_nonneg (λ m, msg_join k (peer m) (frame m)) l (λ m, msg_join_nonneg _ _ _)) as H2.
    pose proof (H1 (mpisendq (dtq (st n1)))). pose proof (H2 (mpirecvq (dtq (st n1)))). pose proof (H2 (msgs n1)). lia. }
  unfold joins. pose proof (tally_nonneg (pk_join k) (net J) (λ p, msg_join_nonneg _ _ _)).
  apply elem_of_indexed0 in Hn.
  assert (∀ y : Z * node, y ∈ indexed 0 (nodes J) → 0 ≤ node_value (join_cur y.1 k) y.2) as Hnn.
  { intros y _. etrans; [|apply Hle]. apply tally_nonneg, pend_join_nonneg. }
  pose proof (tally_elem (λ x, node_value (join_cur x.1 k) x.2) _ _ Hnn Hn) as He. simpl in He. pose proof (Hle r n) as H1.
  pose proof (tally_elem _ _ _ (λ y _, pend_join_nonneg r k (st n) y) Hx) as H2. unfold pend_value at 1 in H2. rewrite Hq in H2. simpl in H2. lia.
Qed.

Section Rest.
Context (c0 : config) (J : cluster) (Hok : job_ok c0 J).

Lemma pending_ok r n x : aget (nodes J) r = Some n → x ∈ rpending (mgrstate (st n)) →
  ∃ q, req_lookup (st n) x = Some q ∧ pend_ok (cfg c0 r) x q.
Proof using Hok.
  intros Hn Hx. pose proof (jo_node _ _ Hok _ _ Hn) as [[_ _ _ _ Hp] _ _ _ _ _].
  destruct (pi_pend _ _ _ _ _ _ Hp x Hx) as (q & E & ?). exists q. split; [|done]. by destruct x.
Qed.

(** A joiner is kept by rank 0, for some thread. *)
Lemma joinwait_at A r n x q : joins_ok J A → aget (nodes J) r = Some n → x ∈ rpending (mgrstate (st n)) →
  req_lookup (st n) x = Some q → reqop q = DTOP_JOINWAIT → r = 0 ∧ ∃ t, req_un q = RUWaitthread t.
Proof using Hok.
  intros Hj Hn Hx Hq Hop. destruct (pending_ok r n x Hn Hx) as (q' & Hq' & Hp). simplify_eq. split.
  - destruct (decide (r = 0)) as [|Hr]; [done|]. exfalso. pose proof (jn_rest _ _ Hj r n Hr Hn) as Hk.
    unfold node_value, value in Hk. rewrite gt_tally_zero in Hk by done. simpl in Hk. rewrite !tally_const in Hk.
    pose proof (tally_elem (pend_value keep_cur (st n)) (rpending (mgrstate (st n))) x) as He. lapply He; [clear He; intros He|].
    + specialize (He Hx). unfold pend_value at 1 in He. rewrite Hq in He. simpl in He. rewrite Hop in He. simpl in He. lia.
    + intros y _. unfold pend_value. destruct (req_lookup (st n) y); [|done]. simpl. unfold b2z. by case_match.
  - destruct x as [i|id]; simpl in Hp; [by rewrite Hop in Hp|]. destruct Hp as [[E _]|(_ & _ & t & Hu & _)]; [by rewrite Hop in E|by exists t].
Qed.

(** A thread asleep in a job at rest is in a join that is kept somewhere. *)
Lemma resting_sleeper r i n l : job_quiet J → aget (nodes J) r = Some n → aget (ltab (st n)) i = Some l →
  reqstate (lt_req l) = DTREQ_BUSY →
  RLtab i ∈ rpending (mgrstate (st n)) ∧ reqop (lt_req l) = DTOP_JOIN ∧
  ∃ r' n' x q, aget (nodes J) r' = Some n' ∧ x ∈ rpending (mgrstate (st n')) ∧ req_lookup (st n') x = Some q ∧
    reqop q = DTOP_JOINWAIT ∧ reqpeer q = r ∧ xidseq q = xidseq (lt_req l).
Proof using Hok.
  intros [Hnet Hq] Hn Hl Hsleep. destruct (Hq r n Hn) as (_ & _ & _ & Er).
  pose proof (no_threads _ _ (jo_node _ _ Hok _ _ Hn)) as Ht. change (reqs (view (shared J) n)) with (reqs n) in Ht. rewrite Er in Ht.
  destruct (to_busy _ _ _ Ht i l Hl Hsleep) as [Hi|Hi]; [by apply elem_of_nil in Hi|]. simpl in Hi. split; [done|].
  assert (∀ k, k ∈ job_waits J → ∃ r n x q, aget (nodes J) r = Some n ∧ x ∈ rpending (mgrstate (st n)) ∧
    req_lookup (st n) x = Some q ∧ k ∈ req_carry q) as Hcar.
  { intros k Hk. rewrite <- (job_conversing c0 J Hok) in Hk. apply quiet_carries in Hk; [done|]. split; [done|].
    intros r' n' Hn'. destruct (Hq r' n' Hn') as (? & ? & ? & _). done. }
  destruct (pending_ok r n _ Hn Hi) as (q & Eq & Hok'). simpl in Eq. rewrite Hl in Eq. injection Eq as <-. simpl in Hok'.
  assert ((r, reqop (lt_req l), xidseq (lt_req l)) ∈ job_waits J) as Hk.
  { eapply (waits_elem J r n (RLtab i)); [done|done|simpl; by rewrite Hl|]. unfold req_wait. rewrite Hok'. by left. }
  destruct (Hcar _ Hk) as (r' & n' & x & q & Hn' & Hx & Hqx & Hc'). unfold req_carry in Hc'.
  destruct (Z.eqb_spec (reqop q) DTOP_START) as [Es|].
  - exfalso. assert ((r', DTOP_START, xidseq q) ∈ job_waits J) as Hk'.
    { eapply (waits_elem J r' n' x); [done..|]. unfold req_wait. rewrite Es. by left. }
    destruct (Hcar _ Hk') as (r2 & n2 & x2 & q2 & _ & _ & _ & Hc2). unfold req_carry in Hc2.
    repeat case_match; try (by apply elem_of_nil in Hc2); apply list_elem_of_singleton in Hc2; by simplify_eq.
  - destruct (Z.eqb_spec (reqop q) DTOP_JOINWAIT) as [Ej|]; [|by apply elem_of_nil in Hc']. apply list_elem_of_singleton in Hc'.
    injection Hc' as -> -> ->. split; [done|]. by exists r', n', x, q.
Qed.
End Rest.

(** Rank 0 keeps the join with number [xid] of rank [r] for thread [t], which is
    in the global table, not detached and not finished. *)
Definition join_kept (J : cluster) (r xid : Z) (t : dthread_t) : Prop :=
  (∃ n x q, aget (nodes J) 0 = Some n ∧ x ∈ rpending (mgrstate (st n)) ∧ req_lookup (st n) x = Some q ∧
    reqop q = DTOP_JOINWAIT ∧ req_un q = RUWaitthread t ∧ reqpeer q = r ∧ xidseq q = xid) ∧
  ∃ g, aget (shared J) (dt_index t) = Some g ∧ gt_allocated g ≠ 0 ∧ gt_seq g = dt_seq t ∧
    gt_detached g = 0 ∧ LT_NEED_FINALSTATE (gt_terminated g) = true.

(** A joiner kept for a thread keeps the thread in the table. *)
Lemma kept_thread J A n x q t : joins_ok J A → aget (nodes J) 0 = Some n → x ∈ rpending (mgrstate (st n)) →
  req_lookup (st n) x = Some q → reqop q = DTOP_JOINWAIT → req_un q = RUWaitthread t →
  ∃ g, aget (shared J) (dt_index t) = Some g ∧ gt_allocated g ≠ 0 ∧ gt_seq g = dt_seq t ∧
    gt_detached g = 0 ∧ LT_NEED_FINALSTATE (gt_terminated g) = true.
Proof.
  intros Hj Hn Hx Hq Hop Hu. pose proof (jn_zero _ _ Hj n t Hn) as Hz. rewrite wait_value, kept_view in Hz. simpl in Hz.
  assert (1 ≤ kept n t) as Hk.
  { unfold kept. etrans; [|eapply tally_elem; [|exact Hx]].
    - unfold pend_value. rewrite Hq. simpl. unfold req_awaits. rewrite Hop, Hu. simpl. by rewrite bool_decide_true.
    - intros y _. unfold pend_value. destruct (req_lookup (st n) y); [|done]. simpl. unfold req_awaits, b2z. repeat case_match; lia. }
  assert (∃ y, y ∈ indexed 0 (shared J) ∧ gt_value (wait_cur t) y < 0) as ([i g] & Hy & Hv).
  { apply tally_neg. lia. }
  rewrite gt_wait in Hv. apply elem_of_indexed0 in Hy. destruct (joinable g) eqn:Ej; [|done]. simpl in Hv.
  case_bool_decide as Et; [|done]. subst t. unfold joinable, gtab_live in Ej. rewrite gtab_used_eq in Ej. simpl.
  exists g. repeat (apply andb_prop in Ej as [Ej ?]). breflect. by split_and!.
Qed.

(** ** Theorem *)

(** C4. A job at rest has only joiners asleep, each waiting for an unfinished
    thread.  In every interleaving of the threads of all ranks in which no
    thread fails to start, with [A] the thread each joiner's call named: when
    nothing is on its way and no manager has work, every thread asleep in a call
    is in a join; rank 0 keeps a JOINWAIT for exactly the thread that call named
    and with the call's own rank and number; and that thread is still in the
    global table, not detached and not finished.  So no thread sleeps on an
    answer that was lost, or on a thread that has ended. *)
Theorem resting_job_only_joins (c0 : config) (e : Z → env) (J0 J : cluster) (A : asks) (r i : Z) (n : node)
    (l : dthread_ltab_t) (Hc : config_ok c0) (Hmal : ∀ r k, malloc_ok (e r) k = true)
    (Hseq : 2 * nmaxthread c0 < (2 ^ 32 - mpi_wsize c0) / mpi_wsize c0)
    (Hstart : job_start c0 e J0) (Hrun : rtc (asked_step c0 e) (J0, λ _ _, None) (J, A)) (Hquiet : job_quiet J)
    (Hn : aget (nodes J) r = Some n) (Hl : aget (ltab (st n)) i = Some l)
    (Hsleep : reqstate (lt_req l) = DTREQ_BUSY) :
  reqop (lt_req l) = DTOP_JOIN ∧ ∃ t, A r i = Some t ∧ join_kept J r (xidseq (lt_req l)) t.
Proof.
  destruct (joins_ok_reach c0 e Hc Hmal Hseq (J0, _) (J, A) (job_start_ok c0 e J0 Hc Hstart) (joins_ok_start c0 e Hc J0 Hstart) Hrun) as [Hok Hj].
  simpl in Hok, Hj. destruct (resting_sleeper c0 J Hok r i n l Hquiet Hn Hl Hsleep) as (Hi & Hop & r' & n' & x & q & Hn' & Hx & Hqx & Ej & Epr & Exd).
  split; [done|]. destruct (joinwait_at c0 J Hok A r' n' x q Hj Hn' Hx Hqx Ej) as (-> & t & Hu). exists t. split.
  - apply (jn_named _ _ Hj r i l); [by exists n|]. eapply (joins_pos J 0 n' x q); try done. unfold req_join. rewrite Ej, Hu. simpl.
    rewrite bool_decide_true by congruence. done.
  - split; [by exists n', x, q|]. by eapply kept_thread.
Qed.

(** The main thread has got its thread and joins it; that thread runs. *)
Definition demo_join_turns : list turn := demo_turns ++ replicate 6 (TMgr 0) ++ [TApp 0 0 ActCollect; TApp 1 0 (ActStart true);
  TApp 0 0 (ActCall (ANjoin (Dthread 1 6) 5) 0 demo_attr (0, 0, 0))] ++ replicate 10 (TMgr 0).

Definition demo_history : cluster * asks :=
  match asked_run demo_cfg (λ _, demo_env) (demo_start, λ _ _, None) demo_join_turns with
  | Some x => x
  | None => (demo_start, λ _ _, None)
  end.

Definition demo_resting : cluster := Eval vm_compute in fst demo_history.

Lemma demo_resting_reachable : rtc (asked_step demo_cfg (λ _, demo_env)) (demo_start, λ _ _, None) (demo_resting, snd demo_history).
Proof.
  apply (asked_run_reach demo_cfg (λ _, demo_env) demo_join_turns).
  transitivity (Some demo_history); [vm_compute; reflexivity|].
  rewrite (surjective_pairing demo_history) at 1. by do 2 f_equal.
Qed.

Lemma demo_resting_quiet : job_quiet demo_resting.
Proof.
  split; [done|]. intros r n Hn. unfold aget in Hn. destruct (0 <=? r); [|done].
  destruct (Z.to_nat r) as [|[|k]]; [by injection Hn as <-|by injection Hn as <-|by destruct k].
Qed.

(** The entry of the main thread. *)
Definition demo_joiner : dthread_ltab_t := Eval vm_compute in
  match nodes demo_resting with
  | n :: _ => nth 0 (ltab (st n)) (Ltab 0 0 LT_NONE (idle_req 0))
  | [] => Ltab 0 0 LT_NONE (idle_req 0)
  end.

Lemma resting_job_only_joins_witness :
  reqop (lt_req demo_joiner) = DTOP_JOIN ∧
  ∃ t, snd demo_history 0 0 = Some t ∧ join_kept demo_resting 0 (xidseq (lt_req demo_joiner)) t.
Proof.
  eapply (resting_job_only_joins demo_cfg (λ _, demo_env) demo_start demo_resting _ 0 0);
    [apply demo_cfg_ok|done|done|apply demo_start_ok|apply demo_resting_reachable|apply demo_resting_quiet|done|done|done].
Defined.

(** It is the thread the main thread joined. *)
Lemma demo_asked : snd demo_history 0 0 = Some (Dthread 1 6).
Proof. vm_compute. reflexivity. Qed.
