(* ===== verification/Xthread.v ===== *)
(** * The xthread layer

    [xthread/libxthread/xthread.c]: one interface on pthreads and on dthreads.
    [xthread_init] picks the backend from the arguments, [xthread_run] builds the
    tables for [dthread_run], and the other calls go to the backend.  The
    application's functions and [pthread_create] and [pthread_join] are
    parameters; function pointers are addresses, 0 is [NULL]. *)

From Stdlib Require Import Ascii.
From Stdlib Require String.
From S2P Require Import Prelude Types ThreadOps ShmRef SegOps Establish Collective SyncOps ShmAlloc ShmOps Init.

Definition EALREADY : Z := 114.
Definition EOVERFLOW : Z := 75.
Definition UINT64_MAX : Z := 2 ^ 64 - 1.
Definition INT_MAX : Z := 2 ^ 31 - 1.

(** ** Selecting the backend *)

(** The static variables, the rank state of [dthread_init], and the [argv]
    array of the caller. *)
Record xst := Xst {
  initialized : bool;
  use_dthreads : bool;
  dthread_memory_ready : bool;
  x_dtrs : dtrs_t;
  x_argv : list (option string) }.

#[export] Instance xst_eta : Eta xst := λ r,
  Xst (initialized r) (use_dthreads r) (dthread_memory_ready r) (x_dtrs r) (x_argv r).

Definition argv_get (i : Z) : M xst (option string) :=
  l <- gets x_argv;; get_some OutOfBounds (aget l i).

Definition argv_set (i : Z) (v : option string) : M xst unit :=
  l <- gets x_argv;;
  get_some OutOfBounds (aget l i) ;;;
  modify (λ s, s <| x_argv := aset l i v |>).

(** The loop of [remove_argument]: [n] passes from [i] on. *)
Fixpoint shift_args (n : nat) (i : Z) : M xst unit :=
  match n with
  | O => retM tt
  | S n => v <- argv_get (i + 1);; argv_set i v ;;; shift_args n (i + 1)
  end.

(** The new [argc]. *)
Definition remove_argument (argc index : Z) : M xst Z :=
  shift_args (Z.to_nat (argc - index - 1)) index ;;;
  argv_set (argc - 1) None ;;;
  retM (argc - 1).

(** The loop of [xthread_init].  Each pass moves [i] up or [argc] down, so
    [argc] passes are enough. *)
Fixpoint scan_args (fuel : nat) (argc i : Z) : M xst Z :=
  if i <? argc then
    match fuel with
    | O => crash Diverges
    | S fuel =>
        v <- argv_get i;;
        arg <- get_some NullDeref v;;
        if String.eqb arg "--dthread" then
          modify (λ s, s <| use_dthreads := true |>) ;;;
          argc <- remove_argument argc i;;
          scan_args fuel argc i
        else scan_args fuel argc (i + 1)
    end
  else retM argc.

(** [dthread_init] on the rank state. *)
Definition call_dthread_init (st : startup) : M xst init_result := λ s,
  let prog := match x_argv s with Some p :: _ => string_bytes p | _ => [] end in
  match dthread_init st prog (x_dtrs s) with
  | Ok (r, d) => Ok (r, s <| x_dtrs := d |>)
  | Crash f => Crash f
  end.

(** The result and the new [argc]; [argv_null] if one of the pointers is null. *)
Definition xthread_init (st : startup) (argv_null : bool) (argc : Z) : M xst (init_result * Z) :=
  i <- gets initialized;;
  if i : bool then retM (IRet EALREADY, argc)
  else if argv_null then retM (IRet EINVAL, argc)
  else
    argc <- scan_args (Z.to_nat argc) argc 1;;
    ud <- gets use_dthreads;;
    rv <- (if ud : bool then call_dthread_init st else retM (IRet 0));;
    match rv with
    | IRet 0 => modify (λ s, s <| initialized := true |>) ;;; retM (IRet 0, argc)
    | rv => retM (rv, argc)
    end.

Definition xthread_is_using_dthreads : M xst bool := gets use_dthreads.

(** ** Pointers as arguments *)

(** [u.dt_shm] of a union that was last written through [u.dt_inline]. *)
Definition le_bytes (l : list Z) : Z := foldr (λ b n, b + 256 * n) 0 l.
Definition union_shm (u : argret_u) : dthread_shmref_t :=
  match u with
  | UShm r => r
  | UInline l =>
      Shmref (le_bytes (take 8 l)) (le_bytes (take 8 (drop 8 l))) (le_bytes (take 8 (drop 16 l)))
  end.

(** The result, the argument and the pointer afterwards; a null pointer to
    either is [None]. *)
Definition xthread_pointer_proc (sm : list dthread_shmmap_t) (operation : Z)
    (argret : option dthread_argret_t) (pointer : option Z)
    : Z * option dthread_argret_t * option Z :=
  match argret with
  | None => (EINVAL, argret, pointer)
  | Some a =>
      if operation =? DTHREAD_PROC_ENCODE then
        match pointer with
        | None => (EINVAL, argret, pointer)
        | Some p =>
            if p =? 0 then (0, Some (a <| dt_argret_type := DTHREAD_NODATA |>), pointer)
            else
              let a := a <| dt_argret_type := DTHREAD_SHMREF |> in
              match dthread_ptr2shmref sm p 0 with
              | (rv, Some r) => (rv, Some (a <| dt_u := UShm r |>), pointer)
              | (rv, None) => (rv, Some a, pointer)
              end
        end
      else if operation =? DTHREAD_PROC_DECODE then
        if dt_argret_type a =? DTHREAD_NODATA then (0, argret, _ ← pointer; Some 0)
        else if negb (dt_argret_type a =? DTHREAD_SHMREF) then (EINVAL, argret, pointer)
        else
          match pointer with
          | None => (0, argret, pointer)
          | Some _ =>
              let p := dthread_shmref2ptr sm (Some (union_shm (dt_u a))) 0 in
              (if p =? 0 then EINVAL else 0, argret, Some p)
          end
      else if operation =? DTHREAD_PROC_FREE then (0, argret, pointer)
      else (EINVAL, argret, pointer)
  end.

(** ** Tables for [dthread_run] *)

Definition XTHREAD_SHMSRC_FILE : Z := 0.
Definition XTHREAD_SHMSRC_DEVICE : Z := 1.
Definition XTHREAD_SHMSRC_POSIX_SHM : Z := 2.

Record xthread_entry_t := Xentry { xe_name : option string; xe_start : Z }.

Record xthread_shmsrc_t := Xsrc {
  xs_source : option string;
  xs_type : Z;
  xs_offset : Z;
  application_bytes : Z }.

Record xthread_config_t := Xconfig {
  entries : option (list xthread_entry_t);
  shmsrcs : option (list xthread_shmsrc_t);
  max_threads : Z }.

(** [None] is [EOVERFLOW]. *)
Definition checked_add_u64 (total value : Z) : option Z :=
  if UINT64_MAX - value <? total then None else Some (u64 (total + value)).

(** [8 * sizeof(uint32_t) + 2 * sizeof(dthread_argret_t)] *)
Definition thread_entry_size : Z := 8 * 4 + 2 * 72.

(** An error number, or [*mapping_size]. *)
Definition dthread_mapping_size (page_size : Z) (max_threads index application_bytes : Z) : Z + Z :=
  let fail := inl EOVERFLOW in
  if page_size <=? 0 then inl EINVAL
  else
    match checked_add_u64 application_bytes page_size with
    | None => fail
    | Some total =>
        let rest total :=
          let remainder := total mod page_size in
          if negb (remainder =? 0) then
            match checked_add_u64 total (page_size - remainder) with
            | None => fail
            | Some total => inr total
            end
          else inr total in
        if index =? 0 then
          if UINT64_MAX / thread_entry_size <? max_threads then fail
          else
            match checked_add_u64 total (u64 (max_threads * thread_entry_size)) with
            | None => fail
            | Some total =>
                match checked_add_u64 total page_size with
                | None => fail
                | Some total => rest total
                end
            end
        else rest total
    end.

Definition dthread_source_flags (type : Z) : Z + Z :=
  if type =? XTHREAD_SHMSRC_FILE then inr DTHREAD_SRC_FILE
  else if type =? XTHREAD_SHMSRC_DEVICE then inr DTHREAD_SRC_DEV
  else if type =? XTHREAD_SHMSRC_POSIX_SHM then inr DTHREAD_SRC_PSHM
  else inl EINVAL.

Section Run.
(** The addresses of [xthread_dthread_application_main] and
    [xthread_pointer_proc], and the page size. *)
Context (app_main_fn pointer_proc_fn page_size : Z).

(** The loop over the entries: [None] is [EINVAL]. *)
Fixpoint build_dispatch (l : list xthread_entry_t) : option (list dthread_dispatch_t) :=
  match l with
  | [] => Some []
  | e :: l =>
      match xe_name e with
      | None => None
      | Some _ =>
          if xe_start e =? 0 then None
          else d ← build_dispatch l; Some (Dispatch (xe_start e) pointer_proc_fn pointer_proc_fn :: d)
      end
  end.

(** The loop over the sources, from number [i] on. *)
Fixpoint build_sources (max_threads i : Z) (l : list xthread_shmsrc_t)
    : Z + list dthread_shmsrc_t :=
  match l with
  | [] => inr []
  | x :: l =>
      match xs_source x with
      | None => inl EINVAL
      | Some src =>
          match dthread_source_flags (xs_type x) with
          | inl rv => inl rv
          | inr flags =>
              match dthread_mapping_size page_size max_threads i (application_bytes x) with
              | inl rv => inl rv
              | inr size =>
                  match build_sources max_threads (i + 1) l with
                  | inl rv => inl rv
                  | inr r => inr (Shmsrc src flags (xs_offset x) size 0 0 0 :: r)
                  end
              end
          end
      end
  end.

(** [XApp]: the application runs on pthreads; [XRun a]: [dthread_run] is
    called with [a]; [calloc_ok] is whether both tables could be allocated. *)
Inductive run_result :=
  | XRet (rv : Z)
  | XApp
  | XRun (a : run_args).

Definition xthread_run (calloc_ok : bool) (config : option xthread_config_t)
    (application_main : Z) (argv_null : bool) : M xst run_result :=
  s <- gets id;;
  match config with
  | None => retM (XRet EINVAL)
  | Some cfg =>
      if negb (initialized s) || (application_main =? 0) || argv_null then retM (XRet EINVAL)
      else if negb (use_dthreads s) then retM XApp
      else
        match entries cfg, shmsrcs cfg with
        | Some es, Some xs =>
            let nes := Z.of_nat (length es) in
            let nxs := Z.of_nat (length xs) in
            if (nes =? 0) || (nxs =? 0) || (max_threads cfg =? 0) || (INT_MAX <=? nes)
               || (INT_MAX <? nxs) || (INT_MAX <? max_threads cfg) then retM (XRet EINVAL)
            else if negb calloc_ok then retM (XRet ENOMEM)
            else
              match build_dispatch es with
              | None => retM (XRet EINVAL)
              | Some d =>
                  match build_sources (max_threads cfg) 0 xs with
                  | inl rv => retM (XRet rv)
                  | inr srcs =>
                      retM (XRun (RunArgs (Dispatch app_main_fn 0 0 :: d) srcs
                        DTHREAD_SYNCOP_ID_PSHARED (max_threads cfg)))
                  end
              end
        | _, _ => retM (XRet EINVAL)
        end
  end.
End Run.

(** The structure is written through the pointer; [None] is a null pointer, for
    the structure or for the name. *)
Definition set_shmsrc (shmsrc : option xthread_shmsrc_t) (source : option string) (type offset bytes : Z)
    : Z * option xthread_shmsrc_t :=
  match shmsrc, source with
  | Some _, Some s =>
      if String.eqb s "" then (EINVAL, shmsrc)
      else (0, Some (Xsrc source type offset bytes))
  | _, _ => (EINVAL, shmsrc)
  end.

Definition xthread_shmsrc_file shmsrc path bytes :=
  set_shmsrc shmsrc path XTHREAD_SHMSRC_FILE 0 bytes.
Definition xthread_shmsrc_device shmsrc path offset bytes :=
  set_shmsrc shmsrc path XTHREAD_SHMSRC_DEVICE offset bytes.
Definition xthread_shmsrc_posix_shm shmsrc name bytes :=
  set_shmsrc shmsrc name XTHREAD_SHMSRC_POSIX_SHM 0 bytes.

(** ** Calls to the backend *)

Section Calls.
Context (ud : bool).   (* [use_dthreads] *)

(** A thread calls [xthread_create]; [pcreate] is [pthread_create] with the same
    arguments. *)
Definition xthread_create (c : config) (e : env) (self : option Z) (setcancel_rv : Z)
    (attr_default : pthread_attr_t) (sched : Z * Z * Z) (pcreate : M dtst Z)
    (thread : Z) (attr : option pthread_attr_t) (start_routine arg : Z)
    : M dtst (call (Z * option dthread_t)) :=
  if (thread =? 0) || (start_routine =? 0) then retM (CRet (EINVAL, None))
  else if ud then
    dthread_create c e self setcancel_rv attr_default sched false attr start_routine arg
  else rv <- pcreate;; retM (CRet (rv, None)).

(** [pjoin] is [pthread_join]: its result and what it stores at [retval]. *)
Definition xthread_join (c : config) (e : env) (self : option Z) (setcancel_rv procret : Z)
    (pjoin : M dtst (Z * option Z)) (thread : dthread_t) (retval : Z)
    : M dtst (call (Z * option Z)) :=
  if ud then dthread_join c e self setcancel_rv thread retval procret
  else r <- pjoin;; retM (CRet r).

Section Sync.
Context {W : Type} (P : pthreads W) (sy : option (dthread_syncops_t W)).

Definition PTHREAD_BARRIER_SERIAL_THREAD : Z := -1.

(** A null attribute is passed on as such. *)
Definition xthread_barrier_init (barrier : Z) (attr : option Z) (count : Z) : M W Z :=
  if (barrier =? 0) || (count =? 0) then retM EINVAL
  else if ud then dthread_barrier_init sy barrier attr count
  else pthread_barrier_init P barrier (default 0 attr) count.

Definition xthread_barrier_wait (barrier : Z) : M W Z :=
  if barrier =? 0 then retM EINVAL
  else
    rv <- (if ud then dthread_barrier_wait sy barrier else pthread_barrier_wait P barrier);;
    if (rv =? 0) || (rv =? PTHREAD_BARRIER_SERIAL_THREAD) then retM 0 else retM rv.

Definition xthread_barrier_destroy (barrier : Z) : M W Z :=
  if barrier =? 0 then retM EINVAL
  else if ud then dthread_barrier_destroy sy barrier else pthread_barrier_destroy P barrier.

Definition xthread_mutex_init (mutex : Z) (attr : option Z) : M W Z :=
  if mutex =? 0 then retM EINVAL
  else if ud then dthread_mutex_init sy mutex attr
  else pthread_mutex_init P mutex (default 0 attr).

Definition xthread_mutex_lock (mutex : Z) : M W Z :=
  if mutex =? 0 then retM EINVAL
  else if ud then dthread_mutex_lock sy mutex else pthread_mutex_lock P mutex.

Definition xthread_mutex_unlock (mutex : Z) : M W Z :=
  if mutex =? 0 then retM EINVAL
  else if ud then dthread_mutex_unlock sy mutex else pthread_mutex_unlock P mutex.

Definition xthread_mutex_destroy (mutex : Z) : M W Z :=
  if mutex =? 0 then retM EINVAL
  else if ud then dthread_mutex_destroy sy mutex else pthread_mutex_destroy P mutex.
End Sync.
End Calls.

(** ** Memory *)

Section Memory.
Context (shm_dbg : bool) (pagesize : Z) (fuel : nat) (mpi_rank : Z).

(** What application entry 0 does before the application: the result, and
    whether memory is ready.  [stale] is the uninitialised [arena]. *)
Definition xthread_dthread_application_main (stale : dthread_shmref_t)
    (application_main : M sst Z) : M sst (Z * bool) :=
  r <- dthread_shm_new_arena [] shm_dbg pagesize fuel 0 "break" 0 (Some stale);;
  if negb (r.1 =? 0) then retM (r.1, false)
  else
    arena <- get_some NullDeref r.2;;
    rv <- dthread_shm_set_defaultarena mpi_rank arena;;
    if negb (rv =? 0) then retM (rv, false)
    else rv <- application_main;; retM (rv, true).

Context (ud ready : bool).    (* [use_dthreads], [dthread_memory_ready] *)

Definition xthread_malloc (malloc : Z → M sst Z) (size : Z) : M sst Z :=
  if negb ud then malloc size
  else if negb ready then retM 0
  else r <- dthread_shm_malloc [] shm_dbg pagesize fuel None size None;; retM r.1.

Definition xthread_calloc (calloc : Z → Z → M sst Z) (count size : Z) : M sst Z :=
  if negb ud then calloc count size
  else if negb ready || (negb (count =? 0) && (UINT64_MAX / count <? size)) then retM 0
  else
    let total := u64 (count * size) in
    r <- dthread_shm_malloc [] shm_dbg pagesize fuel None total None;;
    whenM (negb (r.1 =? 0)) (memset r.1 0 total) ;;;
    retM r.1.

Definition xthread_free (free : Z → M sst unit) (ptr : Z) : M sst unit :=
  if ptr =? 0 then retM tt
  else if ud then dthread_shm_free [] shm_dbg pagesize fuel None ptr
  else free ptr.

(** [xthread_ref_t] *)
Inductive xthread_ref_t :=
  | XPth (pointer length : Z)
  | XShm (r : dthread_shmref_t).

(** [None] is a null pointer. *)
Definition xthread_ptr_to_ref (sm : list dthread_shmmap_t) (ptr length : Z)
    (ref : option xthread_ref_t) : Z * option xthread_ref_t :=
  if ptr =? 0 then (EINVAL, ref)
  else
    match ref with
    | None => (EINVAL, ref)
    | Some _ =>
        if ud then
          match dthread_ptr2shmref sm ptr length with
          | (rv, Some r) => (rv, Some (XShm r))
          | (rv, None) => (rv, ref)
          end
        else (0, Some (XPth ptr length))
    end.

(** A reference made by the other backend reads the other union member. *)
Definition xthread_ref_to_ptr (sm : list dthread_shmmap_t) (ref : option xthread_ref_t)
    (length : Z) : option Z :=
  match ref with
  | None => Some 0
  | Some (XShm r) => if ud then Some (dthread_shmref2ptr sm (Some r) length) else None
  | Some (XPth p l) => if ud then None else Some (if l <? length then 0 else p)
  end.
End Memory.

(** ** Arguments *)

Definition is_flag (a : string) : bool := String.eqb a "--dthread".

(** [argv]: the arguments, the null pointer, whatever follows. *)
Definition argv_of (args : list string) (rest : list (option string)) : list (option string) :=
  (Some <$> args) ++ None :: rest.

Lemma argv_get_at s (a : list (option string)) v b :
  x_argv s = a ++ v :: b → argv_get (Z.of_nat (length a)) s = Ok (v, s).
Proof.
  intros H. unfold argv_get. rewrite bind_gets, H, aget_nat.
  unfold get_some. by rewrite list_lookup_middle.
Qed.

Lemma argv_set_at s (a : list (option string)) v w b :
  x_argv s = a ++ v :: b →
  argv_set (Z.of_nat (length a)) w s = Ok (tt, s <| x_argv := a ++ w :: b |>).
Proof.
  intros H. unfold argv_set. rewrite bind_gets, H, aget_nat.
  mstep by (unfold get_some; by rewrite list_lookup_middle).
  unfold modify, aset. rewrite Nat2Z.id, insert_app_r_alt, Nat.sub_diag by lia. done.
Qed.

Lemma shift_args_at (l : list (option string)) : ∀ s a v b,
  x_argv s = a ++ v :: l ++ b →
  ∃ w, shift_args (length l) (Z.of_nat (length a)) s = Ok (tt, s <| x_argv := a ++ l ++ w :: b |>).
Proof.
  induction l as [|x l IH]; intros s a v b H; simpl.
  { exists v. unfold retM. do 2 f_equal. destruct s; simpl in *. by rewrite H. }
  mstep by (replace (Z.of_nat (length a) + 1) with (Z.of_nat (length (a ++ [v])))
    by (rewrite length_app; simpl; lia); apply (argv_get_at s (a ++ [v]) x (l ++ b));
    by rewrite H, <- app_assoc).
  mstep by (by eapply argv_set_at).
  destruct (IH (s <| x_argv := a ++ x :: x :: l ++ b |>) (a ++ [x]) x b) as [w Hw].
  { simpl. by rewrite <- app_assoc. }
  exists w. replace (Z.of_nat (length a) + 1) with (Z.of_nat (length (a ++ [x])))
    by (rewrite length_app; simpl; lia).
  etrans; [exact Hw|]. simpl. by rewrite <- app_assoc.
Qed.

Lemma remove_argument_at s done x todo rest :
  x_argv s = argv_of (done ++ x :: todo) rest →
  remove_argument (Z.of_nat (length (done ++ x :: todo))) (Z.of_nat (length done)) s =
    Ok (Z.of_nat (length (done ++ todo)), s <| x_argv := argv_of (done ++ todo) (None :: rest) |>).
Proof.
  intros H. unfold remove_argument, argv_of in *. rewrite fmap_app in H. simpl in H.
  rewrite !length_app. simpl.
  replace (Z.to_nat _) with (length todo) by lia.
  destruct (shift_args_at (Some <$> todo) s (Some <$> done) (Some x) (None :: rest)) as [w Hw].
  { rewrite H. by rewrite <- app_assoc. }
  rewrite !length_fmap in Hw. mstep by exact Hw.
  mstep by (replace (Z.of_nat (length done + S (length todo)) - 1)
    with (Z.of_nat (length ((Some <$> done) ++ (Some <$> todo))))
    by (rewrite length_app, !length_fmap; lia); apply (argv_set_at _ _ w); simpl; by rewrite app_assoc).
  unfold retM. simpl. rewrite fmap_app. do 2 f_equal. lia.
Qed.

(** The scan of the arguments [todo] behind [done]. *)
Lemma scan_args_at todo : ∀ fuel s done rest,
  x_argv s = argv_of (done ++ todo) rest → (length todo ≤ fuel)%nat →
  let kept := filter (λ a, is_flag a = false) todo in
  ∃ rest', length rest' = (length rest + length todo - length kept)%nat ∧
    scan_args fuel (Z.of_nat (length (done ++ todo))) (Z.of_nat (length done)) s =
      Ok (Z.of_nat (length (done ++ kept)),
          s <| use_dthreads := use_dthreads s || existsb is_flag todo |>
            <| x_argv := argv_of (done ++ kept) rest' |>).
Proof.
  induction todo as [|x todo IH]; intros fuel s done rest H Hf; cbv zeta.
  { exists rest. split; [simpl; lia|]. change (filter _ []) with (@nil string).
    rewrite app_nil_r in *.
    assert (s <| use_dthreads := use_dthreads s || existsb is_flag [] |>
              <| x_argv := argv_of done rest |> = s) as ->
      by (destruct s; simpl in *; by rewrite orb_false_r, H).
    by destruct fuel; simpl; rewrite Z.ltb_irrefl. }
  destruct fuel as [|fuel]; [simpl in Hf; lia|]. cbn [scan_args].
  destruct (Z.ltb_spec (Z.of_nat (length done)) (Z.of_nat (length (done ++ x :: todo)))) as [_|Hlt];
    [|rewrite length_app in Hlt; simpl in Hlt; lia].
  mstep by (rewrite <- (length_fmap (Some : string → option string) done);
    eapply (argv_get_at s (Some <$> done) (Some x)); rewrite H; unfold argv_of;
    rewrite fmap_app; simpl; by rewrite <- app_assoc).
  mstep by done. fold (is_flag x). simpl in Hf.
  assert (Hcase : ∃ b, is_flag x = b) by eauto. destruct Hcase as [[] Hx]; rewrite Hx.
  - rewrite bind_modify. mstep by (by apply remove_argument_at; rewrite <- H).
    destruct (IH fuel (s <| use_dthreads := true |> <| x_argv := argv_of (done ++ todo) (None :: rest) |>)
      done (None :: rest)) as (rest'&Hr&E); [done|lia|].
    exists rest'. rewrite filter_cons_False by congruence. split; [simpl in *; lia|].
    rewrite E. simpl. by rewrite Hx, orb_true_r.
  - destruct (IH fuel s (done ++ [x]) rest) as (rest'&Hr&E); [by rewrite <- app_assoc|lia|].
    exists rest'. rewrite filter_cons_True by done. split; [simpl; lia|].
    rewrite <- !app_assoc in E. simpl in E.
    replace (Z.of_nat (length done) + 1) with (Z.of_nat (length (done ++ [x])))
      by (rewrite length_app; simpl; lia).
    rewrite E. simpl. by rewrite Hx.
Qed.

(** ** Sizes *)

Lemma checked_add_spec total value :
  0 ≤ total < 2 ^ 64 → 0 ≤ value < 2 ^ 64 →
  checked_add_u64 total value = if total + value <? 2 ^ 64 then Some (total + value) else None.
Proof.
  intros Ht Hv. unfold checked_add_u64, UINT64_MAX.
  destruct (Z.ltb_spec (2 ^ 64 - 1 - value) total), (Z.ltb_spec (total + value) (2 ^ 64)); try lia; [done|].
  by rewrite u64_small by lia.
Qed.

(** What segment [index] has to hold, and the next page boundary. *)
Definition segment_bytes (page_size max_threads index bytes : Z) : Z :=
  bytes + page_size + (if index =? 0 then max_threads * sizeof_gtab + page_size else 0).

Definition page_round (page_size n : Z) : Z :=
  if n mod page_size =? 0 then n else n + (page_size - n mod page_size).

Lemma page_round_bounds page n : 0 < page → 0 ≤ n → n ≤ page_round page n < n + page.
Proof.
  intros. unfold page_round. pose proof (Z.mod_pos_bound n page).
  destruct (Z.eqb_spec (n mod page) 0); lia.
Qed.

Lemma page_round_mod page n : 0 < page → page_round page n mod page = 0.
Proof.
  intros. unfold page_round. pose proof (Z.mod_pos_bound n page).
  destruct (Z.eqb_spec (n mod page) 0); [done|].
  pose proof (Z.div_mod n page).
  replace (n + (page - n mod page)) with ((n / page + 1) * page) by lia. by apply Z.mod_mul; lia.
Qed.

(** The end of [dthread_mapping_size], and a total that is too large already. *)
Definition rounded (page n : Z) : Z + Z :=
  if page_round page n <? 2 ^ 64 then inr (page_round page n) else inl EOVERFLOW.

Lemma rounded_spec page total :
  0 < page ≤ 2 ^ 30 → 0 ≤ total < 2 ^ 64 →
  (if negb (total mod page =? 0)
   then match checked_add_u64 total (page - total mod page) with
        | Some total => inr total | None => inl EOVERFLOW end
   else inr total) = rounded page total.
Proof.
  intros Hp Ht. unfold rounded, page_round. pose proof (Z.mod_pos_bound total page).
  destruct (Z.eqb_spec (total mod page) 0); simpl.
  - by destruct (Z.ltb_spec total (2 ^ 64)); [|lia].
  - rewrite checked_add_spec by lia. by destruct (_ <? _).
Qed.

Lemma rounded_big page total : 0 < page → 2 ^ 64 ≤ total → rounded page total = inl EOVERFLOW.
Proof.
  intros Hp Ht. pose proof (page_round_bounds page total Hp ltac:(lia)). unfold rounded.
  by destruct (Z.ltb_spec (page_round page total) (2 ^ 64)); [lia|].
Qed.

Lemma mapping_size_eq page max index bytes :
  0 < page ≤ 2 ^ 30 → 0 ≤ max ≤ INT_MAX → 0 ≤ bytes < 2 ^ 64 →
  dthread_mapping_size page max index bytes =
    rounded page (segment_bytes page max index bytes).
Proof.
  intros Hp Hm Hb. unfold INT_MAX, segment_bytes, dthread_mapping_size in *.
  change (UINT64_MAX / thread_entry_size) with 104811045873349725.
  change thread_entry_size with sizeof_gtab. unfold sizeof_gtab in *.
  destruct (Z.leb_spec page 0); [lia|]. rewrite checked_add_spec by lia.
  destruct (Z.ltb_spec (bytes + page) (2 ^ 64)).
  2: { symmetry. apply rounded_big; [lia|]. destruct (index =? 0); lia. }
  cbv zeta. destruct (index =? 0); [|rewrite rounded_spec by lia; f_equal; lia].
  destruct (Z.ltb_spec 104811045873349725 max); [lia|].
  rewrite u64_small by lia. rewrite checked_add_spec by lia.
  destruct (Z.ltb_spec (bytes + page + max * 176) (2 ^ 64)).
  2: { symmetry. apply rounded_big; lia. }
  rewrite checked_add_spec by lia.
  destruct (Z.ltb_spec (bytes + page + max * 176 + page) (2 ^ 64)).
  2: { symmetry. apply rounded_big; lia. }
  rewrite rounded_spec by lia. f_equal. lia.
Qed.

(** ** Tables *)

Lemma build_dispatch_spec pp l d :
  build_dispatch pp l = Some d →
  d = (λ e, Dispatch (xe_start e) pp pp) <$> l ∧ Forall (λ e, xe_start e ≠ 0) l.
Proof.
  revert d. induction l as [|e l IH]; intros d H; simpl in *; [by simplify_eq|].
  destruct (xe_name e); [|done]. destruct (Z.eqb_spec (xe_start e) 0); [done|].
  destruct (build_dispatch pp l) as [d'|]; [|done]. simplify_eq/=.
  destruct (IH d' eq_refl) as [-> ?]. split; [done|by constructor].
Qed.

(** A source of the table, with number [i]. *)
Definition source_for (page max : Z) (i : nat) (x : xthread_shmsrc_t) (src : dthread_shmsrc_t) : Prop :=
  xs_source x = Some (dt_src src) ∧ is_mmapped src = true ∧ is_umap src = false ∧
  dt_mmoffset src = xs_offset x ∧ dt_reserve_front src = 0 ∧ dt_reserve_back src = 0 ∧
  dt_mmsize src = page_round page (segment_bytes page max (Z.of_nat i) (application_bytes x)) ∧
  dt_mmsize src < 2 ^ 64.

Lemma build_sources_spec page max xs : ∀ n srcs,
  0 < page ≤ 2 ^ 30 → 0 ≤ max ≤ INT_MAX → Forall (λ x, 0 ≤ application_bytes x < 2 ^ 64) xs →
  build_sources page max (Z.of_nat n) xs = inr srcs →
  length srcs = length xs ∧
  ∀ i x src, xs !! i = Some x → srcs !! i = Some src → source_for page max (n + i) x src.
Proof.
  induction xs as [|x xs IH]; intros n srcs Hp Hm Hb H; simpl in H; [by simplify_eq/=|].
  apply Forall_cons_1 in Hb as [Hb Hbs].
  destruct (xs_source x) as [name|] eqn:En; [|done].
  destruct (dthread_source_flags (xs_type x)) as [|flags] eqn:Ef; [done|].
  rewrite mapping_size_eq in H by done. unfold rounded in H.
  destruct (Z.ltb_spec (page_round page (segment_bytes page max (Z.of_nat n) (application_bytes x))) (2 ^ 64))
    as [Hlt|]; [|done].
  replace (Z.of_nat n + 1) with (Z.of_nat (S n)) in H by lia.
  destruct (build_sources page max (Z.of_nat (S n)) xs) as [|r] eqn:Er; [done|]. simplify_eq/=.
  destruct (IH (S n) r Hp Hm Hbs Er) as [-> Hr]. split; [done|].
  intros [|i] x' src Hx Hs; simplify_eq/=.
  - rewrite Nat.add_0_r. unfold dthread_source_flags in Ef.
    repeat case_match; simplify_eq; split_and!; done.
  - rewrite Nat.add_succ_r. by apply (Hr i).
Qed.

(** ** Claims *)

(** [xthread_init] selects dthreads exactly when an argument after the
    first is "--dthread", removes every such argument in place and keeps the
    others in order, with [argc] adjusted and [argv] ended by a null pointer;
    it stays inside the array and ends. *)
Theorem xthread_init_arguments (st : startup) (s : xst) (prog : string) (params : list string)
    (rest : list (option string))
    (Hi : initialized s = false) (Hu : use_dthreads s = false)
    (Ha : x_argv s = argv_of (prog :: params) rest) :
  let kept := prog :: filter (λ a, is_flag a = false) params in
  wp (xthread_init st false (Z.of_nat (length (prog :: params)))) (λ r s',
    ∃ rest', x_argv s' = argv_of kept rest' ∧ length (x_argv s') = length (x_argv s) ∧
      r.2 = Z.of_nat (length kept) ∧
      use_dthreads s' = existsb is_flag params ∧
      (existsb is_flag params = false → r.1 = IRet 0 ∧ initialized s' = true)) s ∨
  existsb is_flag params = true ∧ ∃ p f, dthread_init st p (x_dtrs s) = Crash f.
Proof.
  cbv zeta. unfold xthread_init, wp. rewrite bind_gets, Hi.
  destruct (scan_args_at params (Z.to_nat (Z.of_nat (length (prog :: params)))) s [prog] rest)
    as (rest'&Hr&E); [done|simpl; lia|].
  change ([prog] ++ params) with (prog :: params) in E. change (Z.of_nat (length [prog])) with 1 in E.
  erewrite bind_ok by exact E. rewrite bind_gets. simpl. rewrite Hu. simpl.
  assert (length (argv_of (prog :: filter (λ a, is_flag a = false) params) rest') =
    length (x_argv s)) as Hlen.
  { rewrite Ha. unfold argv_of. simpl.
    rewrite !length_app, !length_fmap. simpl. rewrite Hr.
    pose proof (length_filter (λ a : string, is_flag a = false) params). lia. }
  destruct (existsb is_flag params) eqn:Ef; simpl.
  - unfold call_dthread_init, bindM. simpl.
    destruct (dthread_init st _ (x_dtrs s)) as [[r d]|f] eqn:Ed; [left|right; by eauto].
    destruct r as [[]| |]; (exists rest'; split_and!; [done|exact Hlen|done|done|done]).
  - left. exists rest'. by split_and!.
Qed.

Definition demo_xst : xst :=
  Xst false false false dtrs_zero (argv_of ["app"; "-n"; "--dthread"; "4"; "--dthread"] []).

Lemma xthread_init_arguments_witness :
  wp (xthread_init (Startup 0 (0, 0) (0, 2) 8 8 8 4 4096 0) false 5) (λ r s',
    ∃ rest', x_argv s' = argv_of ["app"; "-n"; "4"] rest' ∧ length (x_argv s') = 6%nat ∧
      r.2 = 3 ∧ use_dthreads s' = true ∧ (true = false → r.1 = IRet 0 ∧ initialized s' = true)) demo_xst.
Proof.
  destruct (xthread_init_arguments (Startup 0 (0, 0) (0, 2) 8 8 8 4 4096 0) demo_xst "app"
    ["-n"; "--dthread"; "4"; "--dthread"] []) as [H|(_&p&f&H)]; [done|done|done|exact H|].
  exfalso. by vm_compute in H.
Defined.

(** C29. Arguments and results that are shared pointers travel between ranks:
    if [xthread_pointer_proc] encodes a pointer on one rank, decoding on any rank
    that maps the same segments succeeds and yields the pointer to the same
    offset of the same segment there, [NULL] for [NULL], and on the rank itself
    the pointer that was encoded. *)
Theorem pointer_proc_portable (sm1 sm2 : list dthread_shmmap_t) (a a' : dthread_argret_t)
    (p : Z) (q : option Z) (old : Z)
    (Hm1 : maps_ok sm1) (Hm2 : maps_ok sm2) (Hs : same_segments sm1 sm2)
    (Henc : xthread_pointer_proc sm1 DTHREAD_PROC_ENCODE (Some a) (Some p) = (0, Some a', q)) :
  ∃ p', xthread_pointer_proc sm2 DTHREAD_PROC_DECODE (Some a') (Some old) = (0, Some a', Some p') ∧
    (p = 0 ↔ p' = 0) ∧
    (p ≠ 0 → dthread_ptr2shmref sm2 p' 0 = dthread_ptr2shmref sm1 p 0) ∧
    (sm2 = sm1 → p' = p).
Proof.
  unfold xthread_pointer_proc in *. simpl in Henc.
  destruct (Z.eqb_spec p 0) as [->|Hp].
  { simplify_eq/=. exists 0. by split_and!. }
  destruct (dthread_ptr2shmref sm1 p 0) as [rv [r|]] eqn:E; [|].
  2: { unfold dthread_ptr2shmref in E. repeat case_match; simplify_eq. }
  simplify_eq/=. pose proof E as (m1&H1&->&Hl&Hoff&_)%ptr2shmref_sound.
  destruct (same_segments_aget _ _ _ _ Hs H1) as (m2&H2&Hsz).
  assert (aget sm2 (dt_shmid r) = Some m2) as H2' by done. unfold aget in H2'.
  destruct (Z.leb_spec 0 (dt_shmid r)); [|done].
  destruct Hm2 as [Hok2 Hdis2]. pose proof (Hok2 _ _ H2') as (?&?&?).
  rewrite (shmref2ptr_some _ _ _ m2) by (done || lia).
  destruct (Z.eqb_spec (mapping m2 + dt_offset r) 0); [lia|].
  exists (mapping m2 + dt_offset r). split_and!; [done|lia| |].
  - intros _. rewrite (ptr2shmref_complete sm2 (Z.to_nat (dt_shmid r)) m2); [|done|done|lia|lia].
    destruct r as [i o l]; simpl in *. do 3 f_equal; lia.
  - intros ->. congruence.
Qed.

Lemma pointer_proc_portable_witness :
  ∃ p', xthread_pointer_proc demo_maps' DTHREAD_PROC_DECODE
      (Some (Argret DTHREAD_SHMREF 0 (UShm (Shmref 1 16 0)))) (Some 7) =
      (0, Some (Argret DTHREAD_SHMREF 0 (UShm (Shmref 1 16 0))), Some p') ∧
    (0x40010 = 0 ↔ p' = 0) ∧
    (0x40010 ≠ 0 → dthread_ptr2shmref demo_maps' p' 0 = dthread_ptr2shmref demo_maps 0x40010 0) ∧
    (demo_maps' = demo_maps → p' = 0x40010).
Proof.
  by apply (pointer_proc_portable demo_maps demo_maps' nodata _ 0x40010 (Some 0x40010) 7);
    [apply demo_maps_ok..|done|done].
Defined.

(** C30. [dthread_mapping_size] is exact on 64-bit arithmetic: it returns the
    size that holds the application's bytes, a metadata page and, in segment 0,
    one thread table and another page, rounded up to whole pages, and reports
    [EOVERFLOW] exactly when that does not fit into 64 bits. *)
Theorem mapping_size_exact (page max index bytes : Z)
    (Hp : 0 < page ≤ 2 ^ 30) (Hm : 0 ≤ max ≤ INT_MAX) (Hb : 0 ≤ bytes < 2 ^ 64) :
  let size := page_round page (segment_bytes page max index bytes) in
  dthread_mapping_size page max index bytes = (if size <? 2 ^ 64 then inr size else inl EOVERFLOW) ∧
  size mod page = 0 ∧ segment_bytes page max index bytes ≤ size < segment_bytes page max index bytes + page.
Proof.
  split; [by apply mapping_size_eq|]. split; [apply page_round_mod; lia|].
  apply page_round_bounds; [lia|]. unfold segment_bytes, sizeof_gtab. destruct (index =? 0); lia.
Qed.

Lemma mapping_size_exact_witness :
  dthread_mapping_size 4096 100 0 10000 = inr 36864 ∧ 36864 mod 4096 = 0 ∧
  35792 ≤ 36864 < 35792 + 4096.
Proof. apply (mapping_size_exact 4096 100 0 10000); unfold INT_MAX; lia. Defined.

(** The tables [xthread_run] builds are what [dthread_run] accepts: entry
    0 is the application's main function and each entry of the configuration
    follows in order with the pointer encoding on both sides, the arguments pass
    the checks of [dthread_run], and each source is a mapping of whole pages of
    the computed size that [dthread_shmseg_establish] can use. *)
Theorem xthread_run_tables {W : Type} (P : pthreads W) (appfn ppfn page : Z) (cfg : xthread_config_t)
    (main : Z) (s s' : xst) (a : run_args)
    (Hpage : 0 < page ≤ 2 ^ 30) (Hmax : 0 ≤ max_threads cfg)
    (Hbytes : ∀ xs, shmsrcs cfg = Some xs → Forall (λ x, 0 ≤ application_bytes x < 2 ^ 64) xs)
    (Hrun : xthread_run appfn ppfn page true (Some cfg) main false s = Ok (XRun a, s')) :
  s' = s ∧ run_checks P a = true ∧ ra_maxthreads a = max_threads cfg ∧
  ∃ es xs, entries cfg = Some es ∧ shmsrcs cfg = Some xs ∧
    ra_dsps a = Dispatch appfn 0 0 :: ((λ e, Dispatch (xe_start e) ppfn ppfn) <$> es) ∧
    length (ra_shms a) = length xs ∧
    ∀ i x src, xs !! i = Some x → ra_shms a !! i = Some src →
      source_for page (max_threads cfg) i x src ∧ dt_mmsize src mod page = 0.
Proof.
  unfold xthread_run in Hrun. rewrite bind_gets in Hrun. unfold id in Hrun.
  destruct (_ || false) eqn:E1 in Hrun; [done|]. destruct (negb (use_dthreads s)); [done|].
  destruct (entries cfg) as [es|]; [|done]. destruct (shmsrcs cfg) as [xs|]; [|done].
  match type of Hrun with context [if ?b then _ else _] => destruct b eqn:E2 end; [done|].
  simpl in Hrun. destruct (build_dispatch ppfn es) as [d|] eqn:Ed; [|done].
  destruct (build_sources page (max_threads cfg) 0 xs) as [|srcs] eqn:Es; [done|].
  injection Hrun as <- <-. breflect. apply build_dispatch_spec in Ed as [-> _].
  apply (build_sources_spec page (max_threads cfg) xs 0) in Es as [Hlen Hsrc];
    [|done|lia|by apply Hbytes].
  split; [done|]. split.
  { unfold run_checks. simpl. destruct (Z.ltb_spec (max_threads cfg) 1); [lia|]. simpl.
    rewrite length_fmap, Hlen. destruct (Z.ltb_spec (Z.of_nat (S (length es))) 1); [lia|]. simpl.
    by destruct (Z.ltb_spec (Z.of_nat (length xs)) 1); [lia|]. }
  split; [done|]. exists es, xs. split_and!; try done. simpl.
  intros i x src Hx Hs. pose proof (Hsrc i x src Hx Hs) as Hf. split; [done|].
  destruct Hf as (_&_&_&_&_&_&->&_). apply page_round_mod. lia.
Qed.

Definition demo_xcfg : xthread_config_t :=
  Xconfig (Some [Xentry (Some "worker") 700]) (Some [Xsrc (Some "/xseg") XTHREAD_SHMSRC_POSIX_SHM 0 10000]) 100.

Definition demo_xargs : run_args :=
  RunArgs [Dispatch 600 0 0; Dispatch 700 650 650]
    [Shmsrc "/xseg" DTHREAD_SRC_PSHM 0 36864 0 0 0] DTHREAD_SYNCOP_ID_PSHARED 100.

Lemma xthread_run_tables_witness :
  xthread_run 600 650 4096 true (Some demo_xcfg) 500 false (Xst true true false dtrs_zero []) =
    Ok (XRun demo_xargs, Xst true true false dtrs_zero []) ∧
  run_checks (demo_pthreads 0) demo_xargs = true.
Proof.
  split; [vm_compute; reflexivity|].
  apply (xthread_run_tables (demo_pthreads 0) 600 650 4096 demo_xcfg 500
    (Xst true true false dtrs_zero []) (Xst true true false dtrs_zero []));
    [lia|simpl; lia| |vm_compute; reflexivity].
  intros xs [= <-]. repeat constructor; simpl; lia.
Defined.

(** The size of segment 0 counts one thread table, but every rank of the
    job runs [dthread_shm_bootstrap], which takes one.  On one rank the
    application's bytes are left (and the page for the allocator, less the cell
    of the default arena); when the tables of the other ranks exceed the
    application's bytes and two pages, the bootstrap of the job does not fit. *)
Theorem mapping_size_many_ranks (page max bytes size ranks : Z)
    (Hp : 0 < page ≤ 2 ^ 30) (Hm : 0 ≤ max ≤ INT_MAX) (Hb : 0 ≤ bytes < 2 ^ 64)
    (Hsize : dthread_mapping_size page max 0 bytes = inr size) (Hr : 1 ≤ ranks) :
  let room := size - page in
  boot_need max + bytes + (page - 32) ≤ room ∧
  (bytes + 2 * page < (ranks - 1) * (max * sizeof_gtab) → room < ranks * boot_need max).
Proof.
  rewrite mapping_size_eq in Hsize by done. unfold rounded in Hsize.
  destruct (_ <? _); [|done]. injection Hsize as <-.
  pose proof (page_round_bounds page (segment_bytes page max 0 bytes)) as Hb2.
  unfold segment_bytes, boot_need, gtsize, sizeof_gtab, INT_MAX in *. simpl in *. cbv zeta.
  split; [lia|]. intros Hbig. nia.
Qed.

Lemma mapping_size_many_ranks_witness :
  let room := 36864 - 4096 in
  boot_need 100 + 10000 + (4096 - 32) ≤ room ∧
  (10000 + 2 * 4096 < (4 - 1) * (100 * sizeof_gtab) → room < 4 * boot_need 100).
Proof.
  apply (mapping_size_many_ranks 4096 100 10000 36864 4); [lia|unfold INT_MAX; lia|lia|done|lia].
Defined.
