(* ===== verification/MlogBuf.v ===== *)
(** * The log's message buffer

    [libdthread/mlog.c]: the circular message buffer.  [vmlog] appends lines to
    it, [mlog_dmesg], [mlog_mbcount] and [mlog_mbcopy] read it, and
    [mlog_findmesgbuf] finds one in a memory image.  Bytes are numbers below 256;
    the buffer is a malloced block, a pointer into it is an offset. *)

From S2P Require Import Prelude.

(** [struct mlog_mbhead] and the bytes behind it. *)
Record mbuf := Mbuf {
  mbh_len : Z;
  mbh_cnt : Z;
  mbh_wp : Z;
  mb_data : list Z }.

#[export] Instance mbuf_eta : Eta mbuf := λ r,
  Mbuf (mbh_len r) (mbh_cnt r) (mbh_wp r) (mb_data r).

(** A new buffer, zeroed ([mlog_open]). *)
Definition mbuf_new (msgbuf_len : Z) : mbuf :=
  Mbuf msgbuf_len 0 0 (replicate (Z.to_nat msgbuf_len) 0).

(** The two parts of the buffer from the write pointer on: offset and length
    of each. *)
Definition mlog_getmbptrs (mb : mbuf) : (Z * Z) * (Z * Z) :=
  ((mbh_wp mb, mbh_len mb - mbh_wp mb), (0, mbh_wp mb)).

(** The parts in use: [None] is a null pointer. *)
Definition mlog_dmesg_mbuf (mb : mbuf) : (Z * Z) * (option Z * Z) :=
  let '((b1p, b1len), (b2p, b2len)) := mlog_getmbptrs mb in
  let skip := mbh_len mb - mbh_cnt mb in
  let '(skip, (b1p, b1len), (b2p, b2len)) :=
    if b1len <=? skip then (skip - b1len, (b2p, b2len), (None, 0))
    else (skip, (b1p, b1len), (Some b2p, b2len)) in
  if negb (skip =? 0) then ((b1p + skip, b1len - skip), (b2p, b2len))
  else ((b1p, b1len), (b2p, b2len)).

(** [memcpy] of [n] bytes of [src] to offset [dst]. *)
Definition mb_write (dst : Z) (src : list Z) (n : Z) : M mbuf unit := λ mb,
  if (0 <=? dst) && (0 <=? n) && (n <=? Z.of_nat (length src)) &&
     (dst + n <=? Z.of_nat (length (mb_data mb)))
  then Ok (tt, mb <| mb_data ::= (λ d, take (Z.to_nat dst) d ++ take (Z.to_nat n) src ++
                                     drop (Z.to_nat (dst + n)) d) |>)
  else Crash OutOfBounds.

(** The part of [vmlog] that logs the line [b] to the buffer. *)
Definition vmlog_mbuf (b : list Z) : M mbuf unit :=
  mb <- gets id;;
  let tlen := Z.of_nat (length b) in
  let '(bp, resid) :=
    if mbh_len mb <? tlen then (drop (Z.to_nat (tlen - mbh_len mb)) b, mbh_len mb) else (b, tlen) in
  let '((m1, m1len), (m2, m2len)) := mlog_getmbptrs mb in
  let ncpy := if m1len <? resid then m1len else resid in
  mb_write m1 bp ncpy ;;;
  let resid := resid - ncpy in
  whenM (negb (resid =? 0)) (mb_write m2 (drop (Z.to_nat ncpy) bp) resid) ;;;
  whenM (tlen <? mbh_len mb)
    (modify (λ mb,
       let wp := u32 (mbh_wp mb + tlen) in
       mb <| mbh_wp := if mbh_len mb <=? wp then u32 (wp - mbh_len mb) else wp |>)) ;;;
  whenM (mbh_cnt mb <? mbh_len mb)
    (modify (λ mb,
       let cnt := u32 (mbh_cnt mb + tlen) in
       mb <| mbh_cnt := if mbh_len mb <? cnt then mbh_len mb else cnt |>)).

(** [None]: not open, or no message buffer. *)
Definition mlog_mbcount (mb : option mbuf) : Z :=
  match mb with Some mb => mbh_cnt mb | None => 0 end.

(** Bytes of the buffer. *)
Definition mb_bytes (mb : mbuf) (p n : Z) : list Z :=
  take (Z.to_nat n) (drop (Z.to_nat p) (mb_data mb)).

(** The bytes a reader of [mlog_dmesg] sees. *)
Definition dmesg_bytes (mb : mbuf) : list Z :=
  let '((b1p, b1l), (b2p, b2l)) := mlog_dmesg_mbuf mb in
  mb_bytes mb b1p b1l ++ match b2p with Some p => mb_bytes mb p b2l | None => [] end.

(** The return value and the bytes copied to [buf]; [buf] is null if
    [buf_null], the log is open if [tag]. *)
Definition mlog_mbcopy (tag : bool) (mb : option mbuf) (buf_null : bool) (offset len : Z)
    : Z * list Z :=
  if buf_null || (len <? 1) || negb tag then (-1, [])
  else
    match mb with
    | None => (0, [])
    | Some mb =>
        let '((b1, b1l), (b2, b2l)) := mlog_dmesg_mbuf mb in
        let '(offset, b2l) :=
          if (0 <? offset) && (0 <? b2l) then
            if b2l <? offset then (offset - b2l, 0) else (0, b2l - offset)
          else (offset, b2l) in
        let b1l :=
          if (0 <? offset) && (0 <? b1l) then if b1l <? offset then 0 else b1l - offset
          else b1l in
        let got := b1l + b2l in
        let want := if got <? len then got else len in
        let skip := if want <? got then got - want else 0 in
        let '(b1, b1l, b2, b2l) :=
          if negb (skip =? 0) then
            let '(b1, b1l, skip) :=
              if b1l <? skip then (b1, 0, skip - b1l) else (b1 + skip, b1l - skip, 0) in
            if b2l <? skip then (b1, b1l, b2, 0)
            else (b1, b1l, (λ p, p + skip) <$> b2, b2l - skip)
          else (b1, b1l, b2, b2l) in
        (want,
         (if negb (b1l =? 0) then mb_bytes mb b1 b1l else []) ++
         (if negb (b2l =? 0) then match b2 with Some p => mb_bytes mb p b2l | None => [] end else []))
    end.

(** ** Ring buffer *)

Definition last_n {A} (n : nat) (l : list A) : list A := drop (length l - n) l.

Record mb_wf (mb : mbuf) : Prop := {
  mw_len : 0 < mbh_len mb < 2 ^ 31;
  mw_data : length (mb_data mb) = Z.to_nat (mbh_len mb);
  mw_wp : 0 ≤ mbh_wp mb < mbh_len mb;
  mw_cnt : 0 ≤ mbh_cnt mb ≤ mbh_len mb;
  mw_part : mbh_cnt mb < mbh_len mb → mbh_wp mb = mbh_cnt mb }.

(** The bytes of the buffer, oldest first. *)
Definition contents (mb : mbuf) : list Z :=
  let w := Z.to_nat (mbh_wp mb) in
  (if mbh_cnt mb <? mbh_len mb then [] else drop w (mb_data mb)) ++ take w (mb_data mb).

Lemma mb_bytes_drop mb p :
  mb_wf mb → 0 ≤ p → mb_bytes mb p (mbh_len mb - p) = drop (Z.to_nat p) (mb_data mb).
Proof.
  intros [] Hp. unfold mb_bytes. apply take_ge. rewrite length_drop. lia.
Qed.

Lemma dmesg_mbuf_eq mb :
  mb_wf mb →
  mlog_dmesg_mbuf mb =
    if mbh_cnt mb <? mbh_len mb then ((0, mbh_wp mb), (None, 0))
    else ((mbh_wp mb, mbh_len mb - mbh_wp mb), (Some 0, mbh_wp mb)).
Proof.
  intros [Hl Hd Hw Hc Hp]. unfold mlog_dmesg_mbuf, mlog_getmbptrs.
  destruct (Z.ltb_spec (mbh_cnt mb) (mbh_len mb)) as [Hlt|Hge].
  - rewrite (Hp Hlt). destruct (Z.leb_spec (mbh_len mb - mbh_cnt mb) (mbh_len mb - mbh_cnt mb)); [|lia].
    by rewrite Z.sub_diag.
  - destruct (Z.leb_spec (mbh_len mb - mbh_wp mb) (mbh_len mb - mbh_cnt mb)); [lia|].
    by replace (mbh_len mb - mbh_cnt mb) with 0 by lia.
Qed.

Lemma dmesg_contents mb : mb_wf mb → dmesg_bytes mb = contents mb.
Proof.
  intros Hwf. unfold dmesg_bytes, contents. rewrite dmesg_mbuf_eq by done.
  destruct (mbh_cnt mb <? mbh_len mb); simpl.
  - rewrite app_nil_r. unfold mb_bytes. by rewrite drop_0.
  - rewrite mb_bytes_drop by (done || apply Hwf). unfold mb_bytes. by rewrite drop_0.
Qed.

Lemma length_contents mb : mb_wf mb → length (contents mb) = Z.to_nat (mbh_cnt mb).
Proof.
  intros [Hl Hd Hw Hc Hp]. unfold contents. rewrite length_app, length_take.
  destruct (Z.ltb_spec (mbh_cnt mb) (mbh_len mb)) as [Hlt|]; simpl;
    [specialize (Hp Hlt); lia|rewrite length_drop; lia].
Qed.

(** What the two copies leave in the data [D]. *)
Definition ring_write (W : nat) (b D : list Z) : list Z :=
  let n := Nat.min (length b) (length D - W) in
  let D1 := take W D ++ take n b ++ drop (W + n) D in
  if decide (length b = n) then D1 else take (length b - n) (drop n b) ++ drop (length b - n) D1.

Lemma ring_nowrap W b D :
  (W + length b ≤ length D)%nat → ring_write W b D = take W D ++ b ++ drop (W + length b) D.
Proof.
  intros H. unfold ring_write. rewrite Nat.min_l by lia. rewrite decide_True by done.
  by rewrite (take_ge b) by lia.
Qed.

Lemma ring_wrap W b D :
  (W ≤ length D)%nat → (length b ≤ length D < W + length b)%nat →
  ring_write W b D = drop (length D - W) b ++ drop (W + length b - length D) (take W D) ++
                     take (length D - W) b.
Proof.
  intros HW H. unfold ring_write. rewrite Nat.min_r by lia. rewrite decide_False by lia.
  rewrite take_ge by (rewrite length_drop; lia). f_equal.
  rewrite drop_app, length_take, Nat.min_l by lia.
  replace (length b - (length D - W))%nat with (W + length b - length D)%nat by lia. f_equal.
  replace (W + length b - length D - W)%nat with 0%nat by lia. rewrite drop_0.
  rewrite (drop_ge D) by lia. by rewrite app_nil_r.
Qed.

Lemma last_n_app {A} n (l k : list A) :
  (n ≤ length l + length k)%nat → (length k ≤ n)%nat →
  last_n n (l ++ k) = drop (length l + length k - n) l ++ k.
Proof.
  intros H1 H2. unfold last_n. rewrite length_app, drop_app.
  replace (length l + length k - n - length l)%nat with 0%nat by lia. by rewrite drop_0.
Qed.

Lemma last_n_big {A} n (l k : list A) :
  (n ≤ length k)%nat → last_n n (l ++ k) = last_n n k.
Proof.
  intros H. unfold last_n. rewrite length_app, drop_app, drop_ge by lia. simpl. f_equal. lia.
Qed.

Lemma last_n_all {A} n (l : list A) : (length l ≤ n)%nat → last_n n l = l.
Proof. intros H. unfold last_n. by replace (length l - n)%nat with 0%nat by lia. Qed.

(** One line logged: the copies stay inside the buffer, and the contents are
    the last [mbh_len] bytes of the old contents and the line. *)
Lemma mb_write_ok mb dst src n :
  0 ≤ dst → 0 ≤ n ≤ Z.of_nat (length src) → dst + n ≤ Z.of_nat (length (mb_data mb)) →
  mb_write dst src n mb = Ok (tt, mb <| mb_data := take (Z.to_nat dst) (mb_data mb) ++
    take (Z.to_nat n) src ++ drop (Z.to_nat (dst + n)) (mb_data mb) |>).
Proof.
  intros. unfold mb_write. destruct (Z.leb_spec 0 dst); [|lia]. destruct (Z.leb_spec 0 n); [|lia].
  destruct (Z.leb_spec n (Z.of_nat (length src))); [|lia].
  by destruct (Z.leb_spec (dst + n) (Z.of_nat (length (mb_data mb)))); [|lia].
Qed.

(** The state after the copies and the updates. *)
Definition logged (b : list Z) (mb : mbuf) : mbuf :=
  let L := mbh_len mb in
  let T := Z.of_nat (length b) in
  Mbuf L (if mbh_cnt mb <? L then Z.min L (mbh_cnt mb + T) else mbh_cnt mb)
    (if T <? L then if L <=? mbh_wp mb + T then mbh_wp mb + T - L else mbh_wp mb + T else mbh_wp mb)
    (ring_write (Z.to_nat (mbh_wp mb)) (last_n (Z.to_nat L) b) (mb_data mb)).

Lemma length_last_n {A} n (l : list A) : length (last_n n l) = Nat.min n (length l).
Proof. unfold last_n. rewrite length_drop. lia. Qed.

Lemma vmlog_mbuf_eq b mb :
  mb_wf mb → Z.of_nat (length b) < 2 ^ 31 → vmlog_mbuf b mb = Ok (tt, logged b mb).
Proof.
  intros [Hl Hd Hw Hc Hp] Hb. destruct mb as [L C W D]; simpl in *.
  unfold vmlog_mbuf. rewrite bind_gets. unfold id. simpl.
  assert ((if L <? Z.of_nat (length b) then (drop (Z.to_nat (Z.of_nat (length b) - L)) b, L)
           else (b, Z.of_nat (length b))) =
          (last_n (Z.to_nat L) b, Z.of_nat (length (last_n (Z.to_nat L) b)))) as ->.
  { rewrite length_last_n. unfold last_n.
    destruct (Z.ltb_spec L (Z.of_nat (length b))); f_equal; try lia; [f_equal; lia|].
    by replace (length b - Z.to_nat L)%nat with 0%nat by lia. }
  set (bp := last_n (Z.to_nat L) b).
  assert (length bp ≤ Z.to_nat L)%nat as Hbp by (subst bp; rewrite length_last_n; lia).
  assert ((if L - W <? Z.of_nat (length bp) then L - W else Z.of_nat (length bp)) =
    Z.of_nat (Nat.min (length bp) (length D - Z.to_nat W))) as ->
    by (destruct (Z.ltb_spec (L - W) (Z.of_nat (length bp))); lia).
  set (n := Nat.min (length bp) (length D - Z.to_nat W)).
  mstep by (apply mb_write_ok; simpl; lia). simpl. rewrite Nat2Z.id.
  replace (Z.to_nat (W + Z.of_nat n)) with (Z.to_nat W + n)%nat by lia.
  set (D1 := take (Z.to_nat W) D ++ take n bp ++ drop (Z.to_nat W + n) D).
  assert (length D1 = length D) as HD1.
  { subst D1. rewrite !length_app, !length_take, length_drop. lia. }
  assert (whenM (negb (Z.of_nat (length bp) - Z.of_nat n =? 0))
      (mb_write 0 (drop n bp) (Z.of_nat (length bp) - Z.of_nat n)) (Mbuf L C W D1) =
    Ok (tt, Mbuf L C W (ring_write (Z.to_nat W) bp D))) as Hsecond.
  { unfold ring_write. fold n. fold D1. unfold whenM.
    destruct (Z.eqb_spec (Z.of_nat (length bp) - Z.of_nat n) 0); simpl;
      [by rewrite decide_True by lia|]. rewrite decide_False by lia.
    rewrite mb_write_ok by (simpl; rewrite ?length_drop; lia). rewrite Z.add_0_l. simpl.
    by replace (Z.to_nat (Z.of_nat (length bp) - Z.of_nat n)) with (length bp - n)%nat by lia. }
  mstep by exact Hsecond.
  unfold logged. simpl. fold bp.
  unfold whenM, bindM, modify, retM.
  destruct (Z.ltb_spec (Z.of_nat (length b)) L); simpl.
  - rewrite !(u32_small (W + _)) by lia.
    destruct (Z.leb_spec L (W + Z.of_nat (length b))); rewrite ?(u32_small (W + _ - _)) by lia;
      destruct (Z.ltb_spec C L); simpl; try done; rewrite !(u32_small (C + _)) by lia;
      destruct (Z.ltb_spec L (C + Z.of_nat (length b))); do 3 f_equal; lia.
  - destruct (Z.ltb_spec C L); simpl; try done; rewrite !(u32_small (C + _)) by lia;
      destruct (Z.ltb_spec L (C + Z.of_nat (length b))); do 3 f_equal; lia.
Qed.

Lemma length_ring_write W b D :
  (W ≤ length D)%nat → (length b ≤ length D)%nat → length (ring_write W b D) = length D.
Proof.
  intros HW Hb. destruct (decide (W + length b ≤ length D)%nat).
  - rewrite ring_nowrap by done. rewrite !length_app, length_take, length_drop. lia.
  - rewrite ring_wrap by lia. rewrite !length_app, !length_drop, !length_take. lia.
Qed.

Lemma logged_wf b mb : mb_wf mb → mb_wf (logged b mb).
Proof.
  intros [Hl Hd Hw Hc Hp]. unfold logged. split; simpl.
  - done.
  - rewrite length_ring_write; [done|lia|rewrite length_last_n; lia].
  - destruct (Z.ltb_spec (Z.of_nat (length b)) (mbh_len mb)); [|done].
    destruct (Z.leb_spec (mbh_len mb) (mbh_wp mb + Z.of_nat (length b))); lia.
  - destruct (Z.ltb_spec (mbh_cnt mb) (mbh_len mb)); lia.
  - destruct (Z.ltb_spec (mbh_cnt mb) (mbh_len mb)) as [Hlt|]; [|lia]. specialize (Hp Hlt).
    intros Hmin. destruct (Z.ltb_spec (Z.of_nat (length b)) (mbh_len mb)); [|lia].
    destruct (Z.leb_spec (mbh_len mb) (mbh_wp mb + Z.of_nat (length b))); lia.
Qed.

(** The write pointer [w] and the data [D] of a full or partly filled ring. *)
Definition ring_bytes (full : bool) (w : nat) (D : list Z) : list Z :=
  (if full then drop w D else []) ++ take w D.

Lemma ring_bytes_whole w b D full :
  length b = length D → (w < length D)%nat →
  ring_bytes true w (ring_write w b D) = last_n (length D) (ring_bytes full w D ++ b).
Proof.
  intros Hb Hw. rewrite last_n_big by lia. rewrite last_n_all by lia. unfold ring_bytes.
  destruct (decide (w = 0%nat)) as [->|].
  - rewrite ring_nowrap by lia. simpl. by rewrite (drop_ge D), !app_nil_r by lia.
  - rewrite ring_wrap by lia. rewrite (drop_ge (take w D)) by (rewrite length_take; lia). simpl.
    assert (length (drop (length D - w) b) = w) as Hlen by (rewrite length_drop; lia).
    rewrite drop_app_length' by done. rewrite take_app_length' by done. apply take_drop.
Qed.

Lemma ring_bytes_nowrap w b D full :
  (w + length b < length D)%nat →
  ring_bytes full (w + length b) (ring_write w b D) = last_n (length D) (ring_bytes full w D ++ b).
Proof.
  intros H. rewrite ring_nowrap by lia.
  assert (length (take w D ++ b) = (w + length b)%nat) as Hlen
    by (rewrite length_app, length_take; lia).
  unfold ring_bytes. rewrite (app_assoc (take w D)).
  rewrite take_app_length' by done. destruct full; simpl.
  - rewrite drop_app_length' by done.
    rewrite last_n_app by (rewrite ?length_app, ?length_drop, ?length_take; lia).
    rewrite length_app, length_drop, length_take.
    replace (length D - w + Nat.min w (length D) + length b - length D)%nat with (length b) by lia.
    rewrite drop_app, drop_drop, length_drop.
    replace (length b - (length D - w))%nat with 0%nat by lia. by rewrite drop_0, <- app_assoc.
  - by rewrite last_n_all by (rewrite length_app, length_take; lia).
Qed.

Lemma ring_bytes_wrap w b D full :
  (w < length D)%nat → (length b < length D ≤ w + length b)%nat →
  ring_bytes true (w + length b - length D) (ring_write w b D) =
    last_n (length D) (ring_bytes full w D ++ b).
Proof.
  intros Hw H.
  assert (last_n (length D) (ring_bytes full w D ++ b) =
    drop (w + length b - length D) (take w D) ++ b) as ->.
  { unfold ring_bytes. destruct full; simpl.
    - rewrite last_n_app by (rewrite ?length_app, ?length_drop, ?length_take; lia).
      rewrite length_app, length_drop, length_take, drop_app, length_drop. rewrite drop_ge by (rewrite length_drop; lia).
      simpl. f_equal. f_equal. lia.
    - rewrite last_n_app by (rewrite ?length_take; lia). rewrite length_take. f_equal. f_equal. lia. }
  unfold ring_bytes. destruct (decide (w + length b = length D)%nat) as [E|].
  - rewrite ring_nowrap by lia. rewrite E, Nat.sub_diag. simpl.
    by rewrite (drop_ge D), !app_nil_r, drop_0 by lia.
  - rewrite ring_wrap by lia.
    assert (length (drop (length D - w) b) = (w + length b - length D)%nat) as Hlen
      by (rewrite length_drop; lia).
    rewrite drop_app_length' by done. rewrite take_app_length' by done.
    by rewrite <- app_assoc, take_drop.
Qed.

Lemma contents_ring mb :
  contents mb = ring_bytes (negb (mbh_cnt mb <? mbh_len mb)) (Z.to_nat (mbh_wp mb)) (mb_data mb).
Proof. unfold contents, ring_bytes. by destruct (_ <? _). Qed.

Lemma last_n_last_n {A} n (l k : list A) : last_n n (l ++ last_n n k) = last_n n (l ++ k).
Proof.
  destruct (decide (length k ≤ n)%nat) as [H|H]; [by rewrite (last_n_all n k)|].
  rewrite (last_n_big n l k) by lia. rewrite last_n_big by (rewrite length_last_n; lia).
  apply last_n_all. rewrite length_last_n. lia.
Qed.

Lemma logged_contents b mb :
  mb_wf mb → contents (logged b mb) = last_n (Z.to_nat (mbh_len mb)) (contents mb ++ b).
Proof.
  intros Hwf. pose proof (logged_wf b mb Hwf) as Hwf'. destruct Hwf as [Hl Hd Hw Hc Hp].
  rewrite !contents_ring, <- last_n_last_n, <- Hd.
  set (bp := last_n (Z.to_nat (mbh_len mb)) b).
  assert (length bp = Nat.min (Z.to_nat (mbh_len mb)) (length b)) as Hbp by apply length_last_n.
  rewrite Hd at 2. fold bp. unfold logged. simpl. fold bp.
  destruct (Z.ltb_spec (Z.of_nat (length b)) (mbh_len mb)).
  2: { replace (negb _) with true by
         (destruct (Z.ltb_spec (mbh_cnt mb) (mbh_len mb)) as [Hlt|];
          [destruct (Z.ltb_spec (Z.min (mbh_len mb) (mbh_cnt mb + Z.of_nat (length b))) (mbh_len mb))
          |destruct (Z.ltb_spec (mbh_cnt mb) (mbh_len mb))]; done || lia).
       apply ring_bytes_whole; lia. }
  destruct (Z.leb_spec (mbh_len mb) (mbh_wp mb + Z.of_nat (length b))).
  - replace (negb _) with true by
      (destruct (Z.ltb_spec (mbh_cnt mb) (mbh_len mb)) as [Hlt|];
       [specialize (Hp Hlt);
        destruct (Z.ltb_spec (Z.min (mbh_len mb) (mbh_cnt mb + Z.of_nat (length b))) (mbh_len mb))
       |destruct (Z.ltb_spec (mbh_cnt mb) (mbh_len mb))]; done || lia).
    replace (Z.to_nat _) with (Z.to_nat (mbh_wp mb) + length bp - length (mb_data mb))%nat by lia.
    apply ring_bytes_wrap; lia.
  - replace (negb ((if mbh_cnt mb <? mbh_len mb then Z.min (mbh_len mb) (mbh_cnt mb + Z.of_nat (length b))
        else mbh_cnt mb) <? mbh_len mb)) with (negb (mbh_cnt mb <? mbh_len mb)) by
      (destruct (Z.ltb_spec (mbh_cnt mb) (mbh_len mb)) as [Hlt|];
       [specialize (Hp Hlt);
        destruct (Z.ltb_spec (Z.min (mbh_len mb) (mbh_cnt mb + Z.of_nat (length b))) (mbh_len mb))
       |destruct (Z.ltb_spec (mbh_cnt mb) (mbh_len mb))]; done || lia).
    replace (Z.to_nat (mbh_wp mb + _)) with (Z.to_nat (mbh_wp mb) + length bp)%nat by lia.
    apply ring_bytes_nowrap. lia.
Qed.

(** ** [mlog_mbcopy] *)

Lemma mb_bytes_sub mb p n s n' :
  0 ≤ p → 0 ≤ s → 0 ≤ n' → s + n' ≤ n →
  mb_bytes mb (p + s) n' = drop (Z.to_nat s) (take (Z.to_nat (s + n')) (mb_bytes mb p n)).
Proof.
  intros. unfold mb_bytes. rewrite take_take, Nat.min_l by lia.
  rewrite skipn_firstn_comm, drop_drop. f_equal; [lia|]. f_equal. lia.
Qed.

(** The part between the newest [offset] bytes and the oldest ones that are
    not wanted. *)
Definition recent (offset len : Z) (c : list Z) : list Z :=
  let c := take (length c - Z.to_nat offset) c in
  last_n (Nat.min (Z.to_nat len) (length c)) c.

Lemma recent_pieces (P1 P2 : list Z) offset len a1 a2 :
  (a2 = length P2 - Z.to_nat offset)%nat →
  (a1 = if decide (length P2 < Z.to_nat offset)%nat
        then length P1 - (Z.to_nat offset - length P2) else length P1)%nat →
  let want := Nat.min (Z.to_nat len) (a1 + a2) in
  let skip := (a1 + a2 - want)%nat in
  recent offset len (P1 ++ P2) = drop skip (take a1 P1) ++ drop (skip - a1) (take a2 P2).
Proof.
  intros Ha2 Ha1. cbv zeta. unfold recent.
  assert (take (length (P1 ++ P2) - Z.to_nat offset) (P1 ++ P2) = take a1 P1 ++ take a2 P2) as ->.
  { rewrite length_app, take_app. destruct (decide (length P2 < Z.to_nat offset)%nat).
    - f_equal; [f_equal; lia|f_equal; lia].
    - f_equal; [rewrite !take_ge by lia; done|f_equal; lia]. }
  assert (a1 ≤ length P1)%nat by (destruct (decide (length P2 < Z.to_nat offset)%nat); lia).
  unfold last_n. rewrite length_app, !length_take, (Nat.min_l a1), (Nat.min_l a2) by lia.
  rewrite drop_app, length_take, (Nat.min_l a1) by lia. done.
Qed.

(** The copy of [n] bytes, none if [n] is 0. *)
Lemma mb_bytes_opt mb p n : (if negb (n =? 0) then mb_bytes mb p n else []) = mb_bytes mb p n.
Proof. by destruct (Z.eqb_spec n 0) as [->|]. Qed.

Lemma mb_bytes_piece mb p n (a s : nat) :
  0 ≤ p → 0 ≤ n → (a ≤ Z.to_nat n)%nat → (s ≤ a)%nat →
  mb_bytes mb (p + Z.of_nat s) (Z.of_nat a - Z.of_nat s) = drop s (take a (mb_bytes mb p n)).
Proof.
  intros. rewrite (mb_bytes_sub mb p n) by lia. by rewrite Z.add_comm, Z.sub_add, !Nat2Z.id.
Qed.

Lemma mbcopy_pieces mb b1 l1 b2 l2 offset len :
  0 ≤ b1 → 0 ≤ l1 → 0 ≤ l2 → length (mb_bytes mb b1 l1) = Z.to_nat l1 →
  match b2 with Some p => 0 ≤ p ∧ length (mb_bytes mb p l2) = Z.to_nat l2 | None => l2 = 0 end →
  mlog_dmesg_mbuf mb = ((b1, l1), (b2, l2)) → 1 ≤ len →
  let c := mb_bytes mb b1 l1 ++ match b2 with Some p => mb_bytes mb p l2 | None => [] end in
  mlog_mbcopy true (Some mb) false offset len =
    (Z.of_nat (length (recent offset len c)), recent offset len c).
Proof.
  intros Hb1 Hl1 Hl2 HP1 HP2 Hd Hlen. cbv zeta.
  set (P1 := mb_bytes mb b1 l1) in *.
  set (P2 := match b2 with Some p => mb_bytes mb p l2 | None => [] end) in *.
  assert (length P2 = Z.to_nat l2) as HlP2
    by (subst P2; destruct b2; [tauto|subst; done]).
  rewrite (recent_pieces P1 P2 offset len _ _ eq_refl eq_refl).
  set (a2 := (length P2 - Z.to_nat offset)%nat).
  set (a1 := (if decide _ then _ else _) : nat).
  set (want := Nat.min (Z.to_nat len) (a1 + a2)).
  assert (a1 ≤ Z.to_nat l1)%nat as Ha1 by (subst a1; destruct (decide _); lia).
  rewrite length_app, !length_drop, !length_take.
  replace (Z.of_nat _) with (Z.of_nat want) by lia.
  unfold mlog_mbcopy. simpl. destruct (Z.ltb_spec len 1); [lia|]. rewrite Hd.
  assert ((if (0 <? offset) && (0 <? l2) then if l2 <? offset then (offset - l2, 0) else (0, l2 - offset)
           else (offset, l2)) =
          ((if (0 <? offset) && (0 <? l2) then if l2 <? offset then offset - l2 else 0 else offset),
           Z.of_nat a2)) as ->.
  { subst a2. destruct (Z.ltb_spec 0 offset), (Z.ltb_spec 0 l2); simpl; try (f_equal; lia).
    destruct (Z.ltb_spec l2 offset); f_equal; lia. }
  set (o1 := if (0 <? offset) && (0 <? l2) then _ else _).
  assert ((if (0 <? o1) && (0 <? l1) then if l1 <? o1 then 0 else l1 - o1 else l1) = Z.of_nat a1) as ->.
  { assert (Z.max 0 o1 = Z.max 0 (offset - l2)) as Ho1.
    { subst o1. destruct (Z.ltb_spec 0 offset), (Z.ltb_spec 0 l2); simpl; try lia.
      destruct (Z.ltb_spec l2 offset); lia. }
    subst a1. destruct (decide (length P2 < Z.to_nat offset)%nat);
      destruct (Z.ltb_spec 0 o1), (Z.ltb_spec 0 l1); simpl; try lia;
      destruct (Z.ltb_spec l1 o1); lia. }
  assert ((if Z.of_nat a1 + Z.of_nat a2 <? len then Z.of_nat a1 + Z.of_nat a2 else len) = Z.of_nat want) as ->
    by (subst want; destruct (Z.ltb_spec (Z.of_nat a1 + Z.of_nat a2) len); lia).
  set (skip := (a1 + a2 - want)%nat).
  assert ((if Z.of_nat want <? Z.of_nat a1 + Z.of_nat a2 then Z.of_nat a1 + Z.of_nat a2 - Z.of_nat want else 0)
    = Z.of_nat skip) as ->
    by (subst skip; destruct (Z.ltb_spec (Z.of_nat want) (Z.of_nat a1 + Z.of_nat a2)); lia).
  assert (∀ s : nat, (s ≤ a2)%nat →
    (if negb (Z.of_nat a2 - Z.of_nat s =? 0)
     then match (λ p, p + Z.of_nat s) <$> b2 with
          | Some p => mb_bytes mb p (Z.of_nat a2 - Z.of_nat s) | None => [] end
     else []) = drop s (take a2 P2)) as Hp2.
  { intros s Hs. destruct b2 as [p|]; simpl.
    - rewrite mb_bytes_opt. apply mb_bytes_piece; [tauto|done|lia|done].
    - rewrite drop_nil. by destruct (negb _). }
  destruct (Z.eqb_spec (Z.of_nat skip) 0) as [E|E]; simpl.
  - rewrite mb_bytes_opt. replace (skip - a1)%nat with 0%nat by lia.
    replace skip with 0%nat by lia. f_equal. f_equal.
    + pose proof (mb_bytes_piece mb b1 l1 a1 0 Hb1 Hl1 Ha1 ltac:(lia)) as Hp.
      by rewrite Z.add_0_r, Z.sub_0_r in Hp.
    + rewrite <- (Hp2 0%nat) by lia. rewrite Z.sub_0_r. destruct b2; simpl; by rewrite ?Z.add_0_r.
  - destruct (Z.ltb_spec (Z.of_nat a1) (Z.of_nat skip)); simpl.
    + destruct (Z.ltb_spec (Z.of_nat a2) (Z.of_nat skip - Z.of_nat a1)); [lia|].
      replace (Z.of_nat skip - Z.of_nat a1) with (Z.of_nat (skip - a1)) by lia.
      rewrite Hp2 by lia. by rewrite (drop_ge (take a1 P1)) by (rewrite length_take; lia).
    + destruct (Z.ltb_spec (Z.of_nat a2) 0); [lia|]. rewrite mb_bytes_opt.
      rewrite (mb_bytes_piece mb b1 l1) by lia. f_equal. f_equal.
      replace (skip - a1)%nat with 0%nat by lia. rewrite <- (Hp2 0%nat) by lia. done.
Qed.

Lemma mbcopy_eq mb offset len :
  mb_wf mb → 1 ≤ len →
  mlog_mbcopy true (Some mb) false offset len =
    (Z.of_nat (length (recent offset len (contents mb))), recent offset len (contents mb)).
Proof.
  intros Hwf Hlen. rewrite <- (dmesg_contents mb Hwf). unfold dmesg_bytes.
  pose proof (dmesg_mbuf_eq mb Hwf) as Hd. destruct Hwf as [Hl Hdt Hw Hc Hp].
  assert (∀ p n, 0 ≤ p → 0 ≤ n → p + n ≤ mbh_len mb → length (mb_bytes mb p n) = Z.to_nat n) as Hln.
  { intros. unfold mb_bytes. rewrite length_take, length_drop. lia. }
  destruct (mbh_cnt mb <? mbh_len mb); rewrite Hd.
  - apply (mbcopy_pieces mb 0 (mbh_wp mb) None 0); try (done || lia). apply Hln; lia.
  - apply (mbcopy_pieces mb (mbh_wp mb) (mbh_len mb - mbh_wp mb) (Some 0) (mbh_wp mb)); try (done || lia).
    + apply Hln; lia.
    + split; [lia|apply Hln; lia].
Qed.

(** ** Finding a message buffer in a memory image *)

Definition MBH_START : list Z := [62; 67; 112; 77; 100; 85; 108; 60].   (* ">CpMdUl<" *)
Definition sizeof_mbhead : Z := 24.

Definition wswap (w : Z) : Z :=
  Z.lor (Z.lor (Z.lor (Z.shiftr w 24) (Z.shiftl (Z.land (Z.shiftr w 16) 0xff) 8))
               (Z.shiftl (Z.land (Z.shiftr w 8) 0xff) 16))
        (Z.shiftl (Z.land w 0xff) 24).

(** A [uint32_t] stored as an [int]. *)
Definition s32 (z : Z) : Z := if u32 z <? 2 ^ 31 then u32 z else u32 z - 2 ^ 32.

(** A little-endian [uint32_t] at offset [p] of the image. *)
Definition rd32 (img : list Z) (p : nat) : Z :=
  match take 4 (drop p img) with
  | [a; b; c; d] => a + 256 * b + 65536 * c + 16777216 * d
  | _ => 0
  end.

(** A candidate at [ptr]: the two parts, as offset and length. *)
Definition check_header (img : list Z) (ptr : nat) : option ((Z * Z) * (option Z * Z)) :=
  if negb (bool_decide (take 8 (drop ptr img) = MBH_START)) then None
  else
    let swap := rd32 img (ptr + 8) =? wswap 0xdeadbeef in
    let conv w := if swap then wswap w else w in
    let len := conv (rd32 img (ptr + 12)) in
    let cnt := conv (rd32 img (ptr + 16)) in
    let wp := conv (rd32 img (ptr + 20)) in
    if len <? cnt then None
    else if len <? wp then None
    else if Z.of_nat (length img) <? Z.of_nat ptr + len then None
    else
      let b1p := Z.of_nat ptr + sizeof_mbhead + wp in
      let b1l := s32 (len - wp) in
      let b2p := Z.of_nat ptr + sizeof_mbhead in
      let b2l := s32 wp in
      let skip := s32 (len - cnt) in
      let '(skip, (b1p, b1l), (b2p, b2l)) :=
        if b1l <? skip then (skip - b1l, (b2p, b2l), (None, 0))
        else (skip, (b1p, b1l), (Some b2p, b2l)) in
      Some (if negb (skip =? 0) then ((b1p + skip, b1l - skip), (b2p, b2l))
            else ((b1p, b1l), (b2p, b2l))).

(** The loop, from [ptr] on; [None] is the result -1.  It takes at most one
    pass per four bytes. *)
Fixpoint find_from (fuel : nat) (img : list Z) (ptr : nat) : option ((Z * Z) * (option Z * Z)) :=
  match fuel with
  | O => None
  | S fuel =>
      if Z.of_nat ptr <? Z.of_nat (length img) - sizeof_mbhead then
        match check_header img ptr with
        | Some r => Some r
        | None => find_from fuel img (ptr + 4)
        end
      else None
  end.

Definition mlog_findmesgbuf (img : list Z) : option ((Z * Z) * (option Z * Z)) :=
  find_from (length img) img 0.

(** The buffer as it lies in memory, in the reader's byte order or the other. *)
Definition le32 (w : Z) : list Z :=
  [w mod 256; w / 256 mod 256; w / 65536 mod 256; w / 16777216 mod 256].
Definition word32 (swapped : bool) (w : Z) : list Z := if swapped then reverse (le32 w) else le32 w.

Definition mb_header (swapped : bool) (mb : mbuf) : list Z :=
  MBH_START ++ word32 swapped 0xdeadbeef ++ word32 swapped (mbh_len mb) ++
  word32 swapped (mbh_cnt mb) ++ word32 swapped (mbh_wp mb).

Definition mb_image (swapped : bool) (mb : mbuf) : list Z := mb_header swapped mb ++ mb_data mb.

(** The bytes the result names, cut at the end of the image. *)
Definition found_bytes (img : list Z) (r : (Z * Z) * (option Z * Z)) : list Z :=
  let sub p n := take (Z.to_nat n) (drop (Z.to_nat p) img) in
  sub r.1.1 r.1.2 ++ match r.2.1 with Some p => sub p r.2.2 | None => [] end.

(** *** Byte order *)

Lemma lor_shiftl_small x y k : 0 ≤ k → 0 ≤ y < 2 ^ k → Z.lor y (Z.shiftl x k) = y + x * 2 ^ k.
Proof.
  intros Hk Hy. rewrite <- Z.shiftl_mul_pow2 by done.
  assert (Z.land y (Z.shiftl x k) = 0) as Hland.
  { apply Z.bits_inj'. intros i Hi. rewrite Z.land_spec, Z.bits_0.
    destruct (Z.ltb_spec i k).
    - by rewrite Z.shiftl_spec_low, andb_false_r.
    - destruct (Z.eq_dec y 0) as [->|]; [by rewrite Z.bits_0|].
      rewrite Z.bits_above_log2; [done|lia|]. pose proof (Z.log2_lt_pow2 y k). lia. }
  symmetry. rewrite <- Z.lxor_lor by done. by apply Z.add_nocarry_lxor.
Qed.

Lemma wswap_bytes a b c d :
  0 ≤ a < 256 → 0 ≤ b < 256 → 0 ≤ c < 256 → 0 ≤ d < 256 →
  wswap (a + 256 * b + 65536 * c + 16777216 * d) = d + 256 * c + 65536 * b + 16777216 * a.
Proof.
  intros Ha Hb Hc Hd. set (w := a + 256 * b + 65536 * c + 16777216 * d).
  assert (w / 16777216 = d) as E3.
  { subst w. rewrite Z.add_comm, Z.mul_comm, Z.div_add_l by lia. rewrite Z.div_small; lia. }
  assert (w / 65536 mod 256 = c) as E2.
  { replace w with ((c + 256 * d) * 65536 + (a + 256 * b)) by (subst w; lia).
    rewrite Z.div_add_l, (Z.div_small (a + _)), Z.add_0_r by lia.
    rewrite Z.mul_comm, Z.mod_add by lia. by apply Z.mod_small. }
  assert (w / 256 mod 256 = b) as E1.
  { replace w with ((b + (c + 256 * d) * 256) * 256 + a) by (subst w; lia).
    rewrite Z.div_add_l, (Z.div_small a), Z.add_0_r by lia.
    rewrite Z.mod_add by lia. by apply Z.mod_small. }
  assert (w mod 256 = a) as E0.
  { replace w with (a + (b + 256 * c + 65536 * d) * 256) by (subst w; lia).
    rewrite Z.mod_add by lia. by apply Z.mod_small. }
  unfold wswap. rewrite !Z.shiftr_div_pow2 by lia. change 0xff with (Z.ones 8).
  rewrite !Z.land_ones by lia. change (2 ^ 24) with 16777216. change (2 ^ 16) with 65536.
  change (2 ^ 8) with 256. rewrite E0, E1, E2, E3.
  rewrite (lor_shiftl_small c d 8), (lor_shiftl_small b _ 16), (lor_shiftl_small a _ 24) by lia. lia.
Qed.

Lemma le32_value w : 0 ≤ w < 2 ^ 32 →
  ∃ a b c d, le32 w = [a; b; c; d] ∧ 0 ≤ a < 256 ∧ 0 ≤ b < 256 ∧ 0 ≤ c < 256 ∧ 0 ≤ d < 256 ∧
    w = a + 256 * b + 65536 * c + 16777216 * d.
Proof.
  intros Hw. unfold le32. do 4 eexists. split; [done|].
  pose proof (Z.mod_pos_bound w 256). pose proof (Z.mod_pos_bound (w / 256) 256).
  pose proof (Z.mod_pos_bound (w / 65536) 256). pose proof (Z.mod_pos_bound (w / 16777216) 256).
  split_and!; try lia.
  rewrite (Z.mod_small (w / 16777216)) by (split; [apply Z.div_pos; lia|apply Z.div_lt_upper_bound; lia]).
  pose proof (Z.div_mod w 256). pose proof (Z.div_mod (w / 256) 256).
  pose proof (Z.div_mod (w / 65536) 256).
  assert (w / 256 / 256 = w / 65536) as E1 by (rewrite Z.div_div by lia; done).
  assert (w / 65536 / 256 = w / 16777216) as E2 by (rewrite Z.div_div by lia; done).
  lia.
Qed.

Lemma rd32_at img p sw pre w post :
  img = pre ++ word32 sw w ++ post → p = length pre → 0 ≤ w < 2 ^ 32 →
  rd32 img p = if sw then wswap w else w.
Proof.
  intros -> -> Hw. destruct (le32_value w Hw) as (a & b & c & d & E & ? & ? & ? & ? & ->).
  unfold rd32, word32. rewrite drop_app_length, E. destruct sw; simpl; [|done].
  by rewrite wswap_bytes.
Qed.

Lemma wswap_twice w : 0 ≤ w < 2 ^ 32 → wswap (wswap w) = w.
Proof.
  intros Hw. destruct (le32_value w Hw) as (a & b & c & d & _ & ? & ? & ? & ? & ->).
  by rewrite !wswap_bytes.
Qed.

Lemma length_word32 sw w : length (word32 sw w) = 4%nat.
Proof. unfold word32. destruct sw; [by rewrite length_reverse|done]. Qed.

Lemma length_mb_header sw mb : length (mb_header sw mb) = 24%nat.
Proof. unfold mb_header. by rewrite !length_app, !length_word32. Qed.

(** The fields of a header, at its offset in an image. *)
Lemma header_fields sw mb pre rest :
  mb_wf mb →
  let img := pre ++ mb_header sw mb ++ rest in
  let conv w := if sw then wswap w else w in
  take 8 (drop (length pre) img) = MBH_START ∧
  rd32 img (length pre + 8) = conv 0xdeadbeef ∧
  rd32 img (length pre + 12) = conv (mbh_len mb) ∧
  rd32 img (length pre + 16) = conv (mbh_cnt mb) ∧
  rd32 img (length pre + 20) = conv (mbh_wp mb).
Proof.
  intros [Hl Hd Hw Hc Hp] img conv. subst img. unfold mb_header. rewrite <- !app_assoc.
  split; [by rewrite drop_app_length|].
  split; [apply (rd32_at _ _ sw (pre ++ MBH_START) _
    (word32 sw (mbh_len mb) ++ word32 sw (mbh_cnt mb) ++ word32 sw (mbh_wp mb) ++ rest))|];
    [by rewrite <- !app_assoc|by rewrite !length_app|lia|].
  split; [apply (rd32_at _ _ sw (pre ++ MBH_START ++ word32 sw 0xdeadbeef) _
    (word32 sw (mbh_cnt mb) ++ word32 sw (mbh_wp mb) ++ rest))|];
    [by rewrite <- !app_assoc|by rewrite !length_app, !length_word32|lia|].
  split; [apply (rd32_at _ _ sw
    (pre ++ MBH_START ++ word32 sw 0xdeadbeef ++ word32 sw (mbh_len mb)) _ (word32 sw (mbh_wp mb) ++ rest))|];
    [by rewrite <- !app_assoc|by rewrite !length_app, !length_word32|lia|].
  apply (rd32_at _ _ sw
    (pre ++ MBH_START ++ word32 sw 0xdeadbeef ++ word32 sw (mbh_len mb) ++ word32 sw (mbh_cnt mb)) _ rest);
    [by rewrite <- !app_assoc|by rewrite !length_app, !length_word32|lia].
Qed.

(** What the search reports for a well-formed header followed by [rest]. *)
Definition header_parts (p : Z) (mb : mbuf) : (Z * Z) * (option Z * Z) :=
  let b := p + sizeof_mbhead in
  (if mbh_cnt mb <? mbh_len mb then (b + mbh_len mb, 0) else (b + mbh_wp mb, mbh_len mb - mbh_wp mb),
   (Some b, mbh_wp mb)).

Lemma s32_small z : 0 ≤ z < 2 ^ 31 → s32 z = z.
Proof. intros H. unfold s32. rewrite u32_small by lia. by destruct (Z.ltb_spec z (2 ^ 31)); [|lia]. Qed.

Lemma check_header_ok sw mb pre rest :
  mb_wf mb → mbh_len mb ≤ sizeof_mbhead + Z.of_nat (length rest) →
  check_header (pre ++ mb_header sw mb ++ rest) (length pre) =
    Some (header_parts (Z.of_nat (length pre)) mb).
Proof.
  intros Hwf Hrest. destruct (header_fields sw mb pre rest Hwf) as (Hs & Hb & Hlen & Hcnt & Hwp).
  destruct Hwf as [Hl Hd Hw Hc Hp]. unfold check_header. rewrite bool_decide_true by done. cbn [negb]. cbv zeta.
  rewrite Hb, Hlen, Hcnt, Hwp. clear Hb Hlen Hcnt Hwp.
  assert (((if sw then wswap 0xdeadbeef else 0xdeadbeef) =? wswap 0xdeadbeef) = sw) as ->
    by (by destruct sw).
  assert (∀ w, 0 ≤ w < 2 ^ 32 →
    (if sw then wswap (if sw then wswap w else w) else (if sw then wswap w else w)) = w) as E
    by (intros w ?; destruct sw; [by apply wswap_twice|done]).
  rewrite !E by lia. clear E Hs.
  destruct (Z.ltb_spec (mbh_len mb) (mbh_cnt mb)); [lia|].
  destruct (Z.ltb_spec (mbh_len mb) (mbh_wp mb)); [lia|].
  rewrite !length_app, length_mb_header. unfold sizeof_mbhead in *.
  match goal with |- context [?a <? ?b] => destruct (Z.ltb_spec a b); [lia|] end.
  rewrite !s32_small by lia. unfold header_parts, sizeof_mbhead.
  destruct (Z.ltb_spec (mbh_len mb - mbh_wp mb) (mbh_len mb - mbh_cnt mb)) as [H3|H3].
  { destruct (Z.ltb_spec (mbh_cnt mb) (mbh_len mb)) as [Hlt|]; [specialize (Hp Hlt)|]; lia. }
  destruct (Z.ltb_spec (mbh_cnt mb) (mbh_len mb)) as [Hlt|].
  - specialize (Hp Hlt). destruct (Z.eqb_spec (mbh_len mb - mbh_cnt mb) 0); [lia|]. simpl.
    do 3 f_equal; lia.
  - by replace (mbh_len mb - mbh_cnt mb) with 0 by lia.
Qed.

(** The search passes over offsets that hold no buffer. *)
Lemma find_from_skips img k : ∀ fuel ptr r,
  (k < fuel)%nat → Z.of_nat (ptr + 4 * k) < Z.of_nat (length img) - sizeof_mbhead →
  (∀ i, (i < k)%nat → check_header img (ptr + 4 * i) = None) →
  check_header img (ptr + 4 * k) = Some r →
  find_from fuel img ptr = Some r.
Proof.
  induction k as [|k IH]; intros [|fuel] ptr r Hf Hend Hno Hyes; try lia; cbn [find_from].
  - rewrite Nat.mul_0_r, Nat.add_0_r in *. destruct (Z.ltb_spec (Z.of_nat ptr) (Z.of_nat (length img) - sizeof_mbhead)); [|lia].
    by rewrite Hyes.
  - destruct (Z.ltb_spec (Z.of_nat ptr) (Z.of_nat (length img) - sizeof_mbhead)); [|lia].
    specialize (Hno 0%nat ltac:(lia)) as H0. rewrite Nat.mul_0_r, Nat.add_0_r in H0. rewrite H0.
    apply IH; [lia|lia| |].
    + intros i Hi. replace (ptr + 4 + 4 * i)%nat with (ptr + 4 * S i)%nat by lia. apply Hno; lia.
    + by replace (ptr + 4 + 4 * k)%nat with (ptr + 4 * S k)%nat by lia.
Qed.

Lemma findmesgbuf_header sw mb pre rest k :
  mb_wf mb → mbh_len mb ≤ sizeof_mbhead + Z.of_nat (length rest) → (0 < length rest)%nat →
  length pre = (4 * k)%nat →
  (∀ i, (i < k)%nat → check_header (pre ++ mb_header sw mb ++ rest) (4 * i) = None) →
  mlog_findmesgbuf (pre ++ mb_header sw mb ++ rest) = Some (header_parts (Z.of_nat (length pre)) mb).
Proof.
  intros Hwf Hrest Hpos Hk Hno. unfold mlog_findmesgbuf. apply (find_from_skips _ k).
  - rewrite !length_app, length_mb_header. lia.
  - rewrite !length_app, length_mb_header. unfold sizeof_mbhead. lia.
  - done.
  - rewrite Nat.add_0_l, <- Hk. by apply check_header_ok.
Qed.

Lemma header_parts_bytes sw mb pre post :
  mb_wf mb →
  found_bytes (pre ++ mb_header sw mb ++ mb_data mb ++ post) (header_parts (Z.of_nat (length pre)) mb)
  = contents mb.
Proof.
  intros [Hl Hd Hw Hc Hp]. unfold found_bytes, header_parts, contents, sizeof_mbhead. simpl.
  assert (∀ n, drop (length pre + 24 + n) (pre ++ mb_header sw mb ++ mb_data mb ++ post) =
    drop n (mb_data mb ++ post)) as E.
  { intros n. rewrite (app_assoc pre), drop_app, drop_ge
      by (rewrite length_app, length_mb_header; lia).
    rewrite length_app, length_mb_header. simpl. f_equal. lia. }
  replace (Z.to_nat (Z.of_nat (length pre) + 24)) with (length pre + 24 + 0)%nat by lia.
  rewrite E, drop_0. rewrite (take_app_le (mb_data mb)) by lia.
  destruct (mbh_cnt mb <? mbh_len mb); simpl; [done|]. f_equal.
  replace (Z.to_nat (Z.of_nat (length pre) + 24 + mbh_wp mb)) with (length pre + 24 + Z.to_nat (mbh_wp mb))%nat by lia.
  rewrite E, drop_app_le by lia. rewrite take_app_le by (rewrite length_drop; lia).
  apply take_ge. rewrite length_drop. lia.
Qed.

(** ** A log's life: lines logged from [mlog_open] on *)

Fixpoint log_lines (lines : list (list Z)) : M mbuf unit :=
  match lines with
  | [] => retM tt
  | b :: lines => vmlog_mbuf b ;;; log_lines lines
  end.

Lemma mbuf_new_wf len : 0 < len < 2 ^ 31 → mb_wf (mbuf_new len).
Proof. intros H. split; simpl; try lia. by rewrite length_replicate. Qed.

Lemma contents_new len : 0 < len → contents (mbuf_new len) = [].
Proof. intros H. unfold contents. simpl. by destruct (Z.ltb_spec 0 len); [|lia]. Qed.

Lemma last_n_step {A} n (l k : list A) : last_n n (last_n n l ++ k) = last_n n (l ++ k).
Proof.
  destruct (decide (n ≤ length k)%nat).
  - by rewrite !last_n_big.
  - unfold last_n at 1 3. rewrite !length_app, length_last_n, !drop_app, length_last_n.
    unfold last_n. rewrite drop_drop. f_equal; f_equal; lia.
Qed.

Lemma log_lines_spec lines : ∀ mb,
  mb_wf mb → Forall (λ b, Z.of_nat (length b) < 2 ^ 31) lines →
  ∃ mb', log_lines lines mb = Ok (tt, mb') ∧ mb_wf mb' ∧ mbh_len mb' = mbh_len mb ∧
    contents mb' = last_n (Z.to_nat (mbh_len mb)) (contents mb ++ concat lines).
Proof.
  induction lines as [|b lines IH]; intros mb Hwf Hb.
  - exists mb. split_and!; try done. rewrite app_nil_r. symmetry. apply last_n_all.
    rewrite length_contents by done. destruct Hwf. lia.
  - apply Forall_cons in Hb as [Hb Hbs].
    destruct (IH (logged b mb) (logged_wf b mb Hwf) Hbs) as (mb' & Hrun & Hwf' & Hlen & Hc).
    exists mb'. split_and!; try done.
    + cbn [log_lines]. mstep by (by apply vmlog_mbuf_eq). exact Hrun.
    + rewrite Hc, logged_contents by done. cbn [concat]. change (mbh_len (logged b mb)) with (mbh_len mb).
      by rewrite last_n_step, <- app_assoc.
Qed.

Lemma log_stream len lines :
  0 < len < 2 ^ 31 → Forall (λ b, Z.of_nat (length b) < 2 ^ 31) lines →
  ∃ mb, log_lines lines (mbuf_new len) = Ok (tt, mb) ∧ mb_wf mb ∧ mbh_len mb = len ∧
    contents mb = last_n (Z.to_nat len) (concat lines).
Proof.
  intros Hlen Hb. destruct (log_lines_spec lines _ (mbuf_new_wf len Hlen) Hb) as (mb & H1 & H2 & H3 & H4).
  exists mb. rewrite H4, contents_new by lia. done.
Qed.

(** C18. The circular buffer refines the stream of logged bytes: from
    [mlog_open]'s zeroed buffer of [len] bytes, any sequence of lines is logged
    without a write outside the buffer, and afterwards [mlog_dmesg] reports
    exactly the last [len] bytes of everything logged, oldest first, and
    [mlog_mbcount] their number. *)
Theorem mbuf_refines_stream len lines
  (Hlen : 0 < len < 2 ^ 31) (Hlines : Forall (λ b, Z.of_nat (length b) < 2 ^ 31) lines) :
  ∃ mb, log_lines lines (mbuf_new len) = Ok (tt, mb) ∧
    dmesg_bytes mb = last_n (Z.to_nat len) (concat lines) ∧
    mlog_mbcount (Some mb) = Z.min len (Z.of_nat (length (concat lines))).
Proof.
  destruct (log_stream len lines Hlen Hlines) as (mb & Hrun & Hwf & Hl & Hc).
  exists mb. split; [done|]. rewrite dmesg_contents by done. split; [done|]. cbn [mlog_mbcount].
  pose proof (length_contents mb Hwf) as Hcnt. rewrite Hc, length_last_n in Hcnt.
  destruct Hwf. lia.
Qed.

(** A buffer of 8 bytes that has wrapped twice. *)
Lemma mbuf_refines_stream_witness :
  ∃ mb, log_lines [[1; 2; 3; 4; 5]; [6; 7; 8; 9; 10; 11]; [12; 13; 14; 15; 16; 17; 18; 19; 20; 21]; [22]]
          (mbuf_new 8) = Ok (tt, mb) ∧
    dmesg_bytes mb = [15; 16; 17; 18; 19; 20; 21; 22] ∧ mlog_mbcount (Some mb) = 8.
Proof.
  refine (mbuf_refines_stream 8
    [[1; 2; 3; 4; 5]; [6; 7; 8; 9; 10; 11]; [12; 13; 14; 15; 16; 17; 18; 19; 20; 21]; [22]] _ _).
  - lia.
  - repeat constructor.
Defined.

(** [mlog_mbcopy] copies the most recent bytes: on a buffer that any
    sequence of lines was logged to, it returns the number of bytes it copies,
    and these are the last [n] bytes that remain when the newest [offset] bytes
    of the buffer are set aside, at most [n] of them, whatever the position of
    the write pointer; a negative offset sets nothing aside. *)
Theorem mbcopy_recent len lines offset n
  (Hlen : 0 < len < 2 ^ 31) (Hlines : Forall (λ b, Z.of_nat (length b) < 2 ^ 31) lines)
  (Hn : 1 ≤ n) :
  let c := recent offset n (last_n (Z.to_nat len) (concat lines)) in
  ∃ mb, log_lines lines (mbuf_new len) = Ok (tt, mb) ∧
    mlog_mbcopy true (Some mb) false offset n = (Z.of_nat (length c), c) ∧
    Z.of_nat (length c) ≤ n.
Proof.
  cbv zeta. destruct (log_stream len lines Hlen Hlines) as (mb & Hrun & Hwf & Hl & Hc).
  exists mb. split; [done|]. rewrite <- Hc. split; [by apply mbcopy_eq|].
  unfold recent. rewrite length_last_n. lia.
Qed.

Lemma mbcopy_recent_witness :
  ∃ mb, log_lines [[1; 2; 3; 4; 5]; [6; 7; 8; 9; 10; 11]] (mbuf_new 8) = Ok (tt, mb) ∧
    mlog_mbcopy true (Some mb) false 2 4 = (4, [6; 7; 8; 9]) ∧ 4 ≤ 4.
Proof.
  refine (mbcopy_recent 8 [[1; 2; 3; 4; 5]; [6; 7; 8; 9; 10; 11]] 2 4 _ _ _).
  - lia.
  - repeat constructor.
  - lia.
Defined.

(** A message buffer is found again in a memory image, written by a
    machine of either byte order: if the image holds it at a multiple of four
    and no earlier multiple of four passes for one, [mlog_findmesgbuf] returns
    parts whose bytes are the buffer's contents, oldest first. *)
Theorem findmesgbuf_finds swapped mb pre post k
  (Hwf : mb_wf mb) (Hk : length pre = (4 * k)%nat)
  (Hfirst : ∀ i, (i < k)%nat → check_header (pre ++ mb_image swapped mb ++ post) (4 * i) = None) :
  ∃ r, mlog_findmesgbuf (pre ++ mb_image swapped mb ++ post) = Some r ∧
    found_bytes (pre ++ mb_image swapped mb ++ post) r = dmesg_bytes mb.
Proof.
  unfold mb_image in *. rewrite <- app_assoc in *.
  exists (header_parts (Z.of_nat (length pre)) mb). pose proof Hwf as [Hl Hd _ _ _]. split.
  - apply (findmesgbuf_header _ _ _ _ k); try done; rewrite length_app; unfold sizeof_mbhead; lia.
  - rewrite dmesg_contents by done. by apply header_parts_bytes.
Qed.

(** Twelve bytes of other data, then a buffer of the other byte order that has
    wrapped. *)
Definition demo_mbuf : mbuf :=
  Eval vm_compute in
    match log_lines [[1; 2; 3; 4; 5]; [6; 7; 8; 9; 10; 11]] (mbuf_new 8) with
    | Ok (_, mb) => mb | _ => mbuf_new 8 end.

Lemma demo_mbuf_wf : mb_wf demo_mbuf.
Proof. split; simpl; lia. Qed.

Lemma findmesgbuf_finds_witness :
  ∃ r, mlog_findmesgbuf (replicate 12 62 ++ mb_image true demo_mbuf ++ [9; 9]) = Some r ∧
    found_bytes (replicate 12 62 ++ mb_image true demo_mbuf ++ [9; 9]) r = [4; 5; 6; 7; 8; 9; 10; 11].
Proof.
  refine (findmesgbuf_finds true demo_mbuf (replicate 12 62) [9; 9] 3 _ _ _).
  - exact demo_mbuf_wf.
  - reflexivity.
  - intros i Hi. destruct i as [|[|[|i]]]; [reflexivity..|lia].
Defined.

(** [mlog_findmesgbuf]'s sanity check compares [ptr + mbh_len] with the
    end of the image and leaves out the header's 24 bytes: in an image cut off
    inside a full buffer, up to 24 bytes before its end, the buffer is still
    accepted and the first part ends beyond the image. *)
Theorem findmesgbuf_truncated swapped mb pre data k
  (Hwf : mb_wf mb) (Hfull : mbh_cnt mb = mbh_len mb)
  (Hcut : mbh_len mb - sizeof_mbhead ≤ Z.of_nat (length data) < mbh_len mb) (Hsome : data ≠ [])
  (Hk : length pre = (4 * k)%nat)
  (Hfirst : ∀ i, (i < k)%nat → check_header (pre ++ mb_header swapped mb ++ data) (4 * i) = None) :
  ∃ b1p b1l b2, mlog_findmesgbuf (pre ++ mb_header swapped mb ++ data) = Some ((b1p, b1l), b2) ∧
    Z.of_nat (length (pre ++ mb_header swapped mb ++ data)) < b1p + b1l.
Proof.
  pose proof Hwf as [Hl _ Hw _ _].
  assert (0 < length data)%nat by (destruct data; [done|simpl; lia]).
  do 3 eexists. split.
  - rewrite (findmesgbuf_header _ _ _ _ k) by (done || lia). unfold header_parts.
    rewrite Hfull, Z.ltb_irrefl. reflexivity.
  - rewrite !length_app, length_mb_header. unfold sizeof_mbhead. lia.
Qed.

Lemma findmesgbuf_truncated_witness :
  ∃ b1p b1l b2, mlog_findmesgbuf (mb_header false demo_mbuf ++ [9; 10]) = Some ((b1p, b1l), b2) ∧
    26 < b1p + b1l.
Proof.
  refine (findmesgbuf_truncated false demo_mbuf [] [9; 10] 0 _ _ _ _ _ _).
  - exact demo_mbuf_wf.
  - reflexivity.
  - split; vm_compute; congruence.
  - discriminate.
  - reflexivity.
  - intros i Hi. lia.
Defined.
