(* ===== verification/Mlog.v ===== *)
(** * The log

    [libdthread/mlog.c] and [mlog.h]: opening and closing, facilities and their
    masks, the filter, the text form of the masks, the formatting of a line and
    its delivery to the message buffer ([MlogBuf]), the log file, the UDP
    consoles, stderr, stdout and syslog.

    The state holds the two global structures [mlog_xst] and [mst], what the
    process holds on the log's behalf (blocks of memory, descriptors, the
    mutex), and what was sent.  The operating system is a parameter; its [n]-th
    call is told [n].  Flag words are their 32-bit patterns; a string is the
    list of its bytes. *)

From S2P Require Import Prelude MlogBuf.

Abbreviation str := (list Z).

(** ** Flags and priorities *)
Definition MLOG_STDERR : Z := 0x80000000.
Definition MLOG_UCON_ON : Z := 0x40000000.
Definition MLOG_UCON_ENV : Z := 0x20000000.
Definition MLOG_SYSLOG : Z := 0x10000000.
Definition MLOG_LOGPID : Z := 0x08000000.
Definition MLOG_FQDN : Z := 0x04000000.
Definition MLOG_STDOUT : Z := 0x02000000.
Definition MLOG_OUTTTY : Z := 0x01000000.
Definition MLOG_PRIMASK : Z := 0x007f0000.
Definition MLOG_ERR : Z := 0x00400000.
Definition MLOG_INFO : Z := 0x00100000.
Definition MLOG_PRISHIFT : Z := 20.
Definition MLOG_DPRISHIFT : Z := 16.
Definition MLOG_DBG : Z := 0x000f0000.
Definition MLOG_FACMASK : Z := 0x0000ffff.
Definition MLOG_TAGPAD : Z := 16.
Definition MLOG_TBSIZ : Z := 4096.

(** A flag is set. *)
Definition has (flags bit : Z) : bool := negb (Z.land flags bit =? 0).

(** LOG_DEBUG to LOG_EMERG *)
Definition mlog2syslog : list Z := [7; 6; 5; 4; 3; 2; 1; 0].

Definition norm : list str :=
  string_bytes <$> ["DBUG"; "INFO"; "NOTE"; "WARN"; "ERR "; "CRIT"; "ALRT"; "EMRG"]%string.
Definition dbg : list str :=
  string_bytes <$> ["D---"; "D3--"; "D2--"; "D23-"; "D1--"; "D13-"; "D12-"; "D123";
                    "D0--"; "D03-"; "D02-"; "D023"; "D01-"; "D013"; "D012"; "DBUG"]%string.

(** ** State *)

(** The name of a facility: the static name of facility 0 or a malloced one. *)
Inductive sname := NStatic | NHeap (s : str).
Definition default_fac0name : str := string_bytes "MLOG".
Definition sname_str (n : sname) : str :=
  match n with NStatic => default_fac0name | NHeap s => s end.

Record mlog_fac := Fac {
  fac_mask : Z;
  fac_sname : option sname;
  fac_lname : option str }.
#[export] Instance mlog_fac_eta : Eta mlog_fac := λ r, Fac (fac_mask r) (fac_sname r) (fac_lname r).

Record sockaddr_in := Sin { sin_family : Z; sin_port : Z; s_addr : Z }.
#[export] Instance sockaddr_in_eq_dec : EqDecision sockaddr_in.
Proof. solve_decision. Defined.
Definition sin_zero : sockaddr_in := Sin 0 0 0.

(** The mutex: not initialised or destroyed, free, held. *)
Inductive mutex := MxNone | MxFree | MxHeld.

(** What the log sends; [ODiag] is a message of its own on stderr. *)
Inductive output :=
  | OFile (fd : Z) (b : str)
  | OUdp (sock : Z) (dst : sockaddr_in) (b : str)
  | OStderr (b : str)
  | OStdout (b : str)
  | OSyslog (pri : Z) (b : str)
  | ODiag.

Record mlog_state := Mst {
  (* mlog_xst; the tag with the size of its block *)
  tag : option (str * Z);
  mlog_facs : option (list mlog_fac);
  fac_cnt : Z;
  (* mst *)
  def_mask : Z;
  stderr_mask : Z;
  logfile : option str;
  logfd : Z;
  oflags : Z;
  fac_alloc : Z;
  mb : option mbuf;
  udpsock : Z;
  ucon_cnt : Z;
  ucon_nslots : Z;
  ucons : option (list sockaddr_in);
  nodename : str;
  abort_hook : option Z;
  stdout_isatty : bool;
  stderr_isatty : bool;
  mlogmux : mutex;
  (* held: malloced blocks, descriptors, the connection to syslog *)
  heap : Z;
  fds : gset Z;
  syslog_open : bool;
  (* calls of the operating system so far, and what was sent *)
  nsys : nat;
  sent : list output }.

#[export] Instance mlog_state_eta : Eta mlog_state := λ r,
  Mst (tag r) (mlog_facs r) (fac_cnt r) (def_mask r) (stderr_mask r) (logfile r) (logfd r)
    (oflags r) (fac_alloc r) (mb r) (udpsock r) (ucon_cnt r) (ucon_nslots r) (ucons r) (nodename r)
    (abort_hook r) (stdout_isatty r) (stderr_isatty r) (mlogmux r) (heap r) (fds r) (syslog_open r)
    (nsys r) (sent r).

(** The static data at the start of the program. *)
Definition mlog_zero : mlog_state :=
  Mst None None 0 0 0 None 0 0 0 None 0 0 0 None [] None false false MxNone 0 ∅ false 0 [].

(** A local time: year, month, day, hour, minute, second, hundredths. *)
Record tm := Tm { tm_year : Z; tm_mon : Z; tm_mday : Z; tm_hour : Z; tm_min : Z; tm_sec : Z; tm_usec100 : Z }.

(** A result of [gethostbyname]. *)
Record hostent := Hostent { h_addrtype : Z; h_length : Z; h_addr : option Z }.

Record osys := Osys {
  os_malloc : nat → bool;
  os_open : nat → gset Z → str → Z;
  os_socket : nat → gset Z → Z;
  os_mutex_init : nat → Z;
  os_getenv : nat → option str;
  os_uname : nat → str;
  os_isatty : nat → bool;
  os_getpid : nat → Z;
  os_time : nat → tm;
  os_inet_addr : str → Z;
  os_gethostbyname : nat → str → option hostent }.

Abbreviation L := (M mlog_state).

Definition AF_INET : Z := 2.

(** ** Text *)

(** Decimal digits of [n ≥ 0]; a number of 32 bits has at most ten. *)
Fixpoint digits (fuel : nat) (n : Z) (acc : str) : str :=
  match fuel with
  | O => acc
  | S fuel => let acc := (48 + n mod 10) :: acc in
              if n <? 10 then acc else digits fuel (n / 10) acc
  end.

(** [%d] *)
Definition dec (n : Z) : str :=
  if n <? 0 then 45 :: digits 10 (- n) [] else digits 10 n [].

(** [%0<w>d] for numbers that are not negative, [%-<w>s] *)
Definition dec0 (w : nat) (n : Z) : str := replicate (w - length (dec n)) 48 ++ dec n.
Definition padr (w : nat) (s : str) : str := s ++ replicate (w - length s) 32.

Definition tolower (c : Z) : Z := if (65 <=? c) && (c <=? 90) then c + 32 else c.
Definition strcaseeq (a b : str) : bool := bool_decide (tolower <$> a = tolower <$> b).

(** The part of [s] before the first [c] and, if there is one, the part after. *)
Fixpoint split_at (c : Z) (s : str) : str * option str :=
  match s with
  | [] => ([], None)
  | x :: s => if x =? c then ([], Some s) else let '(a, b) := split_at c s in (x :: a, b)
  end.

(** [atoi] *)
Fixpoint atoi_digits (acc : Z) (s : str) : Z :=
  match s with
  | c :: s => if (48 <=? c) && (c <=? 57) then atoi_digits (10 * acc + (c - 48)) s else acc
  | [] => acc
  end.
Fixpoint atoi (s : str) : Z :=
  match s with
  | c :: r =>
      if (c =? 32) || ((9 <=? c) && (c <=? 13)) then atoi r
      else if c =? 45 then - atoi_digits 0 r
      else if c =? 43 then atoi_digits 0 r
      else atoi_digits 0 s
  | [] => 0
  end.

Definition htons (z : Z) : Z := let v := z mod 2 ^ 16 in (v mod 256) * 256 + v / 256.

(** ** Calls of the operating system *)
Section Calls.
Context (os : osys).

Definition sys {A} (f : nat → A) : L A := λ s, Ok (f (nsys s), s <| nsys ::= S |>).

(** An allocation that may fail. *)
Definition alloc : L bool :=
  ok <- sys (os_malloc os);;
  whenM ok (modify (λ s, s <| heap ::= Z.succ |>)) ;;; retM ok.

Definition free_block : L unit :=
  h <- gets heap;;
  if 0 <? h then modify (λ s, s <| heap ::= Z.pred |>) else crash BadPointer.

Definition new_fd (f : nat → gset Z → Z) : L Z :=
  s <- gets id;;
  fd <- sys (λ n, f n (fds s));;
  whenM (0 <=? fd) (modify (λ s, s <| fds ::= ({[fd]} ∪.) |>)) ;;; retM fd.

Definition close (fd : Z) : L unit := modify (λ s, s <| fds ::= (.∖ {[fd]}) |>).

Definition send (o : output) : L unit := modify (λ s, s <| sent ::= (.++ [o]) |>).

Definition mlog_lock : L unit :=
  m <- gets mlogmux;;
  match m with
  | MxFree => modify (λ s, s <| mlogmux := MxHeld |>)
  | MxHeld => crash Diverges
  | MxNone => crash BadPointer
  end.

Definition mlog_unlock : L unit :=
  m <- gets mlogmux;;
  match m with MxHeld => modify (λ s, s <| mlogmux := MxFree |>) | _ => crash BadPointer end.

(** [int] addition *)
Definition int_add (a b : Z) : L Z := if int_ok (a + b) then retM (a + b) else crash SignedOverflow.

(** ** Facilities *)

(** Entries [lo] to [hi - 1] of a new array. *)
Definition new_facs (mask lo hi : Z) : list mlog_fac :=
  (λ i, Fac mask (if i =? 0 then Some NStatic else None) None) <$> seqZ lo (hi - lo).

Definition mlog_setnfac (n : Z) : L Z :=
  s <- gets id;;
  if n <=? fac_cnt s then retM 0
  else if n <=? fac_alloc s then modify (λ s, s <| fac_cnt := n |>) ;;; retM 0
  else
    xtry <- (if n <? 1024 then int_add n 32 else retM n);;
    ok <- alloc;;
    if negb ok then retM (-1)
    else
      old <- (match mlog_facs s with
              | Some fs =>
                  if Z.of_nat (length fs) <? fac_cnt s then crash OutOfBounds
                  else retM (take (Z.to_nat (fac_cnt s)) fs)
              | None => retM []
              end);;
      let nfacs := old ++ new_facs (def_mask s) (Z.of_nat (length old)) xtry in
      (match mlog_facs s with Some _ => free_block | None => retM tt end) ;;;
      modify (λ s, s <| mlog_facs := Some nfacs |> <| fac_cnt := n |> <| fac_alloc := xtry |>) ;;;
      retM 0.

Definition fac_get (i : Z) : L mlog_fac :=
  o <- gets mlog_facs;;
  fs <- get_some NullDeref o;;
  get_some OutOfBounds (aget fs i).

Definition fac_put (i : Z) (f : mlog_fac) : L unit :=
  o <- gets mlog_facs;;
  fs <- get_some NullDeref o;;
  _ <- get_some OutOfBounds (aget fs i);;
  modify (λ s, s <| mlog_facs := Some (aset fs i f) |>).

(** The names of an entry are freed. *)
Definition free_names (f : mlog_fac) : L unit :=
  (match fac_sname f with Some (NHeap _) => free_block | _ => retM tt end) ;;;
  (match fac_lname f with Some _ => free_block | None => retM tt end).

(** The copies of the names: [None] when [strdup] fails. *)
Definition dup_names (sname lname : option str) : L (option (option Mlog.sname * option str)) :=
  match sname with
  | None => retM (Some (None, None))
  | Some sn =>
      ok <- alloc;;
      if negb ok then retM None
      else
        match lname with
        | None => retM (Some (Some (NHeap sn), None))
        | Some ln =>
            ok <- alloc;;
            if negb ok then free_block ;;; retM None
            else retM (Some (Some (NHeap sn), Some ln))
        end
  end.

Definition mlog_namefacility (facility : Z) (sname lname : option str) : L Z :=
  t <- gets tag;;
  match t with
  | None => retM (-1)
  | Some _ =>
      mlog_lock ;;;
      cnt <- gets fac_cnt;;
      r <- (if cnt <=? facility then n <- int_add facility 1;; mlog_setnfac n else retM 0);;
      rv <- (if r <? 0 then retM (-1)
             else
               names <- dup_names sname lname;;
               match names with
               | None => retM (-1)
               | Some (n, nl) =>
                   f <- fac_get facility;;
                   free_names f ;;;
                   fac_put facility (f <| fac_sname := n |> <| fac_lname := nl |>) ;;;
                   retM 0
               end);;
      mlog_unlock ;;; retM rv
  end.

Definition mlog_allocfacility (sname lname : option str) : L Z :=
  t <- gets tag;;
  match t with
  | None => retM (-1)
  | Some _ =>
      mlog_lock ;;;
      newfac <- gets fac_cnt;;
      n <- int_add newfac 1;;
      r <- mlog_setnfac n;;
      let newfac := if r <? 0 then -1 else newfac in
      mlog_unlock ;;;
      if newfac =? -1 then retM (-1)
      else
        r <- mlog_namefacility newfac sname lname;;
        retM (if r <? 0 then -1 else newfac)
  end.

Definition mlog_setlogmask (facility mask : Z) : L Z :=
  t <- gets tag;;
  match t with
  | None => retM (-1)
  | Some _ =>
      mlog_lock ;;;
      cnt <- gets fac_cnt;;
      r <- (if cnt <=? facility then n <- int_add facility 1;; mlog_setnfac n else retM 0);;
      oldmask <- (if r <? 0 then retM (-1)
                  else
                    f <- fac_get facility;;
                    fac_put facility (f <| fac_mask := Z.land mask MLOG_PRIMASK |>) ;;;
                    retM (fac_mask f));;
      mlog_unlock ;;; retM oldmask
  end.

(** ** Priorities as text *)

Definition mlog_pristr (pri : Z) : str :=
  let pri := Z.land pri MLOG_PRIMASK in
  let s := Z.land (Z.shiftr pri MLOG_PRISHIFT) 7 in
  if negb (s =? 0) then norm !!! Z.to_nat s
  else dbg !!! Z.to_nat (Z.land (Z.shiftr pri MLOG_DPRISHIFT) 15).

(** The index of the first entry from [i] on that equals [p] up to case. *)
Fixpoint find_pri (p : str) (l : list str) (i : Z) : option Z :=
  match l with
  | [] => None
  | x :: l => if strcaseeq p x then Some i else find_pri p l (i + 1)
  end.

Definition mlog_str2pri (pstr : str) : Z :=
  if 5 <? Z.of_nat (length pstr) then -1
  else if strcaseeq pstr (string_bytes "ERR") then MLOG_ERR
  else if strcaseeq pstr (string_bytes "DEBUG") then MLOG_DBG
  else
    let ptmp := match pstr with
                | 68 :: _ => pstr ++ replicate (4 - length pstr) 45
                | _ => pstr
                end in
    match find_pri ptmp (drop 1 norm) 1 with
    | Some lcv => Z.shiftl lcv MLOG_PRISHIFT
    | None =>
        match find_pri ptmp dbg 0 with
        | Some lcv => Z.shiftl lcv MLOG_DPRISHIFT
        | None => -1
        end
    end.

(** ** Logging a line *)

(** [mlog_filter]: 1 to log. *)
Definition mlog_filter (flags : Z) : L Z :=
  s <- gets id;;
  match tag s with
  | None => retM 0
  | Some _ =>
      let fac := Z.land flags MLOG_FACMASK in
      let lvl := Z.land flags MLOG_PRIMASK in
      let fac := if u32 (fac_cnt s) <=? fac then 0 else fac in
      f <- fac_get fac;;
      let mask := u32 (fac_mask f) in
      if MLOG_INFO <=? lvl then retM (if lvl <? mask then 0 else 1)
      else retM (if Z.land lvl mask =? 0 then 0 else 1)
  end.

(** The filter of [vmlog]: [None] to skip the message, otherwise the facility
    and the flags, with [MLOG_STDERR] added as [stderr_mask] asks. *)
Definition vmlog_filter (flags : Z) : L (option (Z * Z)) :=
  s <- gets id;;
  let fac := Z.land flags MLOG_FACMASK in
  let lvl := Z.land flags MLOG_PRIMASK in
  let fac := if fac_cnt s <=? fac then 0 else fac in
  f <- fac_get fac;;
  let msk := fac_mask f in
  if MLOG_INFO <=? lvl then
    if lvl <? msk then retM None
    else retM (Some (fac, if negb (stderr_mask s =? 0) && (stderr_mask s <=? lvl)
                          then Z.lor flags MLOG_STDERR else flags))
  else
    if Z.land lvl msk =? 0 then retM None
    else retM (Some (fac, if negb (Z.land lvl (stderr_mask s) =? 0)
                          then Z.lor flags MLOG_STDERR else flags)).

(** The two parts of a line's header. *)
Definition header_pt1 (t : tm) (nodename tag : str) : str :=
  dec0 4 (tm_year t) ++ [47] ++ dec0 2 (tm_mon t) ++ [47] ++ dec0 2 (tm_mday t) ++ [45] ++
  dec0 2 (tm_hour t) ++ [58] ++ dec0 2 (tm_min t) ++ [58] ++ dec0 2 (tm_sec t) ++ [46] ++
  dec0 2 (tm_usec100 t) ++ [32] ++ nodename ++ [32] ++ tag ++ [32].
Definition header_pt2 (facstr : str) (lvl : Z) : str :=
  padr 4 facstr ++ [32] ++ mlog_pristr lvl ++ [32].

(** A byte of the line's buffer [b]. *)
Definition b_get (b : str) (i : Z) : L Z :=
  if i <? MLOG_TBSIZ then get_some OutOfBounds (aget b i) else crash OutOfBounds.

(** The line in [b], [tlen] bytes, for the full text [msg] of the message:
    [None] if the header does not fit. *)
Definition vmlog_format (pt1 pt2 msg : str) : L (option str) :=
  let sizeofb := MLOG_TBSIZ in
  let room n := Z.to_nat (sizeofb - 1 - n) in
  let b := take (room 0) pt1 in
  let hlen := Z.of_nat (length pt1) in
  let '(b, hlen) :=
    if hlen <? sizeofb then (b ++ take (room hlen) pt2, hlen + Z.of_nat (length pt2)) else (b, hlen) in
  if sizeofb <=? hlen + 1 then retM None
  else
    let b := b ++ take (room hlen) msg in
    let tlen := hlen + Z.of_nat (length msg) in
    full <- (if sizeofb <=? tlen then retM true
             else if tlen =? sizeofb - 1 then c <- b_get b (sizeofb - 2);; retM (negb (c =? 10))
             else retM false);;
    if (full : bool) then
      _ <- b_get b (sizeofb - 2);;
      retM (Some (aset b (sizeofb - 2) 10))
    else
      c <- b_get b (tlen - 1);;
      if negb (c =? 10) then
        if tlen + 1 <? sizeofb then retM (Some (b ++ [10])) else crash OutOfBounds
      else retM (Some b).

(** Logs the line to the message buffer. *)
Definition log_mbuf (b : str) : L unit := λ s,
  match mb s with
  | None => Ok (tt, s)
  | Some m =>
      match vmlog_mbuf b m with
      | Ok (_, m) => Ok (tt, s <| mb := Some m |>)
      | Crash f => Crash f
      end
  end.

Definition ucon_get (i : Z) : L sockaddr_in :=
  o <- gets ucons;;
  l <- get_some NullDeref o;;
  get_some OutOfBounds (aget l i).

(** Steps 1 to 3: message buffer, log file and UDP consoles, under the lock. *)
Definition dispatch_locked (b : str) : L unit :=
  log_mbuf b ;;;
  fd <- gets logfd;;
  whenM (0 <=? fd) (send (OFile fd b)) ;;;
  s <- gets id;;
  whenM (has (oflags s) MLOG_UCON_ON)
    (forM (seqZ 0 (ucon_cnt s)) (λ i, a <- ucon_get i;; send (OUdp (udpsock s) a b))).

(** Steps 4 and 5: stderr, stdout, syslog; [pt1] is the length of the header's
    first part. *)
Definition dispatch_unlocked (thisflag lvl : Z) (pt1 : nat) (b : str) : L unit :=
  s <- gets id;;
  whenM (has thisflag MLOG_STDERR)
    (send (OStderr (strz (if stderr_isatty s then drop pt1 b else b)))) ;;;
  whenM (has thisflag MLOG_STDOUT)
    (send (OStdout (strz (if stdout_isatty s then drop pt1 b else b)))) ;;;
  whenM (has (oflags s) MLOG_SYSLOG)
    (pri <- get_some OutOfBounds (aget mlog2syslog (Z.shiftr lvl MLOG_PRISHIFT));;
     send (OSyslog pri (strz (drop pt1 (take (length b - 1) b))))).

(** [vmlog]: [msg] is the full text [vsnprintf] makes. *)
Definition vmlog (flags : Z) (msg : str) : L unit :=
  t <- gets tag;;
  match t with
  | None => retM tt
  | Some (tag, _) =>
      r <- vmlog_filter flags;;
      match r with
      | None => retM tt
      | Some (fac, flags) =>
          let lvl := Z.land flags MLOG_PRIMASK in
          mlog_lock ;;;
          f <- fac_get fac;;
          let facstr := match fac_sname f with Some n => sname_str n | None => take 15 (dec fac) end in
          now <- sys (os_time os);;
          s <- gets id;;
          let thisflag := Z.lor (oflags s) flags in
          let pt1 := header_pt1 now (nodename s) tag in
          line <- vmlog_format pt1 (header_pt2 facstr lvl) msg;;
          match line with
          | None => mlog_unlock ;;; send ODiag
          | Some b =>
              dispatch_locked b ;;; mlog_unlock ;;;
              dispatch_unlocked thisflag lvl (length pt1) b
          end
      end
  end.

(** The [mlog] macro of [mlog.h] in front of the function. *)
Definition mlog (minpriority flags : Z) (msg : str) : L unit :=
  if minpriority <=? Z.land flags MLOG_PRIMASK then
    r <- mlog_filter flags;;
    whenM (negb (r =? 0)) (vmlog flags msg)
  else retM tt.

(** [mlog_abort] and [mlog_exit] do not return: the abort hook that is called,
    and the exit status. *)
Definition mlog_abort (flags : Z) (msg : str) : L (option Z) :=
  vmlog (Z.lor flags MLOG_STDERR) msg ;;;
  s <- gets id;;
  retM (match tag s with Some _ => abort_hook s | None => None end).
Definition mlog_exit (status flags : Z) (msg : str) : L Z :=
  vmlog (Z.lor flags MLOG_STDERR) msg ;;; retM status.

Definition mlog_abort_hook (newhook : option Z) : L (option Z) :=
  t <- gets tag;;
  match t with
  | Some _ =>
      mlog_lock ;;;
      ret <- gets abort_hook;;
      modify (λ s, s <| abort_hook := newhook |>) ;;;
      mlog_unlock ;;; retM ret
  | None => retM None
  end.

(** ** Masks as text *)

Definition is_blank (c : Z) : bool := (c =? 32) || (c =? 9).
Fixpoint skip_blank (s : str) : str :=
  match s with c :: r => if is_blank c then skip_blank r else s | [] => [] end.

(** [s] without newlines and blanks at its end. *)
Fixpoint trim_end (s : str) : str :=
  match s with
  | [] => []
  | c :: s =>
      match trim_end s with
      | [] => if is_blank c || (c =? 10) then [] else [c]
      | t => c :: t
      end
  end.

(** [fac] is the short or the long name of [f], up to case. *)
Definition fac_named (fac : str) (f : mlog_fac) : bool :=
  match fac_sname f with Some n => strcaseeq (sname_str n) fac | None => false end ||
  match fac_lname f with Some n => strcaseeq n fac | None => false end.

(** The first facility from [i] on with the name [fac]. *)
Fixpoint find_fac (fac : str) (l : list mlog_fac) (i : Z) : option Z :=
  match l with
  | [] => None
  | f :: l => if fac_named fac f then Some i else find_fac fac l (i + 1)
  end.

(** Entries in use. *)
Definition facs_in_use : L (list mlog_fac) :=
  s <- gets id;;
  fs <- get_some NullDeref (mlog_facs s);;
  if Z.of_nat (length fs) <? fac_cnt s then crash OutOfBounds
  else retM (take (Z.to_nat (fac_cnt s)) fs).

(** One element of the list; [last] if no comma follows. *)
Definition set_chunk (current : str) (last : bool) : L unit :=
  let '(fac, pri) := match split_at 61 current with
                     | (f, Some p) => (Some f, p)
                     | (p, None) => (None, p)
                     end in
  let pri := if last then trim_end pri else pri in
  let prino := if 5 <? Z.of_nat (length pri) then -1 else mlog_str2pri (strz pri) in
  if prino =? -1 then
    vmlog MLOG_ERR (string_bytes "mlog_setmasks: " ++ strz (default [] fac) ++
                    string_bytes ": unknown priority " ++ strz pri)
  else
    match fac with
    | Some name =>
        mlog_lock ;;;
        fs <- facs_in_use;;
        mlog_unlock ;;;
        match find_fac name fs 0 with
        | None => vmlog MLOG_ERR (string_bytes "mlog_setmasks: unknown facility " ++ strz name)
        | Some facno => _ <- mlog_setlogmask facno prino;; retM tt
        end
    | None =>
        cnt <- gets fac_cnt;;
        forM (seqZ 0 cnt) (λ facno, _ <- mlog_setlogmask facno prino;; retM tt)
    end.

Fixpoint setmasks_loop (fuel : nat) (m : str) : L unit :=
  match fuel with
  | O => crash Diverges
  | S fuel =>
      let '(current, rest) := split_at 44 m in
      match current with
      | [] => retM tt
      | _ => set_chunk current (match rest with None => true | Some _ => false end)
      end ;;;
      match rest with Some m => setmasks_loop fuel m | None => retM tt end
  end.

(** [mstr] is the memory from the pointer on. *)
Definition mlog_setmasks (mstr : str) (mlen0 : Z) : L unit :=
  t <- gets tag;;
  match t with
  | None => retM tt
  | Some _ =>
      m <- (if mlen0 <? 0 then retM (strz mstr)
            else if mlen0 <=? Z.of_nat (length mstr) then retM (take (Z.to_nat mlen0) mstr)
            else crash OutOfBounds);;
      match skip_blank m with
      | [] => retM tt
      | m => setmasks_loop (S (length m)) m
      end
  end.

(** The buffer, what is left of the bytes to skip, of the buffer, and the
    total. *)
Record bput := Bput { bp_out : str; bp_skip : Z; bp_resid : Z; bp_total : Z }.

Definition bput_char (null : bool) (c : Z) (b : bput) : bput :=
  let total := bp_total b + 1 in
  if 0 <? bp_skip b then Bput (bp_out b) (bp_skip b - 1) (bp_resid b) total
  else if (0 <? bp_resid b) && negb null
  then Bput (bp_out b ++ [c]) (bp_skip b) (bp_resid b - 1) total
  else Bput (bp_out b) (bp_skip b) (bp_resid b) total.

(** [None] adds a 0. *)
Definition mlog_bput (null : bool) (s : option str) (b : bput) : bput :=
  foldl (λ b c, bput_char null c b) b (match s with None => [0] | Some s => s end).

(** The characters before the first blank or hyphen. *)
Fixpoint level_text (p : str) : str :=
  match p with c :: p => if (c =? 32) || (c =? 45) then [] else c :: level_text p | [] => [] end.

(** The name and level of one facility. *)
Definition fac_text (facno : Z) (f : mlog_fac) : str * str :=
  (match fac_lname f, fac_sname f with
   | Some n, _ => n
   | None, Some n => sname_str n
   | None, None => take 63 (dec facno)
   end,
   level_text (mlog_pristr (fac_mask f))).

Fixpoint put_facs (null : bool) (l : list mlog_fac) (facno : Z) (b : bput) : bput :=
  match l with
  | [] => b
  | f :: l =>
      let b := if negb (facno =? 0) then mlog_bput null (Some [44]) b else b in
      let b := mlog_bput null (Some (fac_text facno f).1) b in
      let b := mlog_bput null (Some [61]) b in
      let b := foldl (λ b c, mlog_bput null (Some [c]) b) b (fac_text facno f).2 in
      put_facs null l (facno + 1) b
  end.

(** The return value and the bytes written to [buf]; [buf] is null if [null]. *)
Definition mlog_getmasks (null : bool) (discard len : Z) (unterm : bool) : L (Z * str) :=
  t <- gets tag;;
  match t with
  | None => retM (0, [])
  | Some _ =>
      mlog_lock ;;;
      fs <- facs_in_use;;
      let b := put_facs null fs 0 (Bput [] discard len 0) in
      mlog_unlock ;;;
      let b := mlog_bput null (Some [10]) b in
      let b := if unterm then b else mlog_bput null None b in
      retM (if null then bp_total b else len - bp_resid b, bp_out b)
  end.

(** ** UDP consoles *)

Definition first_digit (h : str) : bool :=
  match h with c :: _ => (48 <=? c) && (c <=? 57) | [] => false end.

(** The host and port [h], [p] as an address; the result is -1 or 0. *)
Definition mlog_resolvhost (h p : str) : L (Z * sockaddr_in) :=
  let sin := Sin AF_INET (htons (atoi p)) in
  if first_digit h then
    let a := os_inet_addr os h in
    if (a =? 0) || (a =? u32 (-1)) then send ODiag ;;; retM (-1, sin a)
    else retM (0, sin a)
  else
    he <- sys (λ n, os_gethostbyname os n h);;
    match he with
    | Some (Hostent t l (Some a)) =>
        if negb (t =? AF_INET) || negb (l =? 4) then send ODiag ;;; retM (-1, sin 0)
        else retM (0, sin a)
    | _ => send ODiag ;;; retM (-1, sin 0)
    end.

Definition ucon_put (i : Z) (a : sockaddr_in) : L unit :=
  o <- gets ucons;;
  l <- get_some NullDeref o;;
  _ <- get_some OutOfBounds (aget l i);;
  modify (λ s, s <| ucons := Some (aset l i a) |>).

(** [mlog_getucon] from the character [p] on: the entries resolved. *)
Fixpoint getucon_loop (fuel : nat) (cnt : Z) (p : str) (rv : Z) : L Z :=
  match fuel with
  | O => crash Diverges
  | S fuel =>
      match p with
      | [] => retM rv
      | _ =>
          if rv <? cnt then
            match split_at 58 p with
            | (_, None) => send ODiag ;;; retM rv
            | (hst, Some port) =>
                ra <- mlog_resolvhost hst port;;
                ucon_put rv ra.2 ;;;
                let rv := if negb (ra.1 =? -1) then rv + 1 else rv in
                match split_at 59 port with
                | (_, Some p) => getucon_loop fuel cnt p rv
                | (_, None) => retM rv
                end
            end
          else retM rv
      end
  end.
Definition mlog_getucon (cnt : Z) (dcon : str) : L Z := getucon_loop (S (length dcon)) cnt dcon 0.

Definition mlog_ucon_on : L Z :=
  t <- gets tag;;
  match t with
  | None => retM (-1)
  | Some _ =>
      mlog_lock ;;;
      f <- gets oflags;;
      whenM (negb (has f MLOG_UCON_ON))
        (fd <- new_fd (os_socket os);;
         modify (λ s, s <| udpsock := fd |>) ;;;
         whenM (0 <=? fd) (modify (λ s, s <| oflags ::= (Z.lor MLOG_UCON_ON) |>))) ;;;
      mlog_unlock ;;;
      f <- gets oflags;;
      retM (if has f MLOG_UCON_ON then 0 else -1)
  end.

Definition mlog_ucon_off : L Z :=
  t <- gets tag;;
  match t with
  | None => retM (-1)
  | Some _ =>
      mlog_lock ;;;
      modify (λ s, s <| oflags ::= (λ f, Z.ldiff f MLOG_UCON_ON) |>) ;;;
      fd <- gets udpsock;;
      whenM (0 <=? fd) (close fd) ;;;
      modify (λ s, s <| udpsock := -1 |>) ;;;
      mlog_unlock ;;; retM 0
  end.

(** The array of consoles with one more slot. *)
Definition grow_ucons : L bool :=
  ok <- alloc;;
  if negb ok then retM false
  else
    s <- gets id;;
    old <- (match ucons s with
            | Some l =>
                if Z.of_nat (length l) <? ucon_cnt s then crash OutOfBounds
                else free_block ;;; retM (take (Z.to_nat (ucon_cnt s)) l)
            | None => retM []
            end);;
    modify (λ s, s <| ucons := Some (old ++ replicate (Z.to_nat (ucon_cnt s + 1) - length old) sin_zero) |>
                   <| ucon_nslots := ucon_cnt s + 1 |>) ;;;
    retM true.

Definition mlog_ucon_add (host : str) (port : Z) : L Z :=
  s <- gets id;;
  match tag s with
  | None => retM (-1)
  | Some _ =>
      if (port <? 1) || (65535 <? port) then retM (-1)
      else
        mlog_lock ;;;
        s <- gets id;;
        ok <- (if ucon_cnt s =? ucon_nslots s then grow_ucons else retM true);;
        rv <- (if negb ok then retM (-1)
               else
                 ra <- mlog_resolvhost host (take 7 (dec port));;
                 ucon_put (ucon_cnt s) ra.2 ;;;
                 if ra.1 <? 0 then retM (-1)
                 else modify (λ s, s <| ucon_cnt ::= Z.succ |>) ;;; retM 0);;
        mlog_unlock ;;; retM rv
  end.

(** The first of the [n] consoles from [i] on that equals [a], or [i + n]. *)
Fixpoint find_ucon (a : sockaddr_in) (n : nat) (i : Z) : L Z :=
  match n with
  | O => retM i
  | S n => x <- ucon_get i;; if decide (a = x) then retM i else find_ucon a n (i + 1)
  end.

Definition mlog_ucon_rm (host : str) (port : Z) : L Z :=
  s <- gets id;;
  match tag s with
  | None => retM (-1)
  | Some _ =>
      if (port <? 1) || (65535 <? port) || (ucon_cnt s <? 1) then retM (-1)
      else
        ra <- mlog_resolvhost host (take 7 (dec port));;
        if ra.1 <? 0 then retM (-1)
        else
          mlog_lock ;;;
          cnt <- gets ucon_cnt;;
          lcv <- find_ucon ra.2 (Z.to_nat cnt) 0;;
          rv <- (if cnt <=? lcv then retM (-1)
                 else
                   whenM (lcv <? cnt - 1) (x <- ucon_get (cnt - 1);; ucon_put lcv x) ;;;
                   modify (λ s, s <| ucon_cnt ::= Z.pred |>) ;;; retM 0);;
          mlog_unlock ;;; retM rv
  end.

(** ** Opening and closing *)

(** [mlog_cleanout]: the names of all entries, then the array. *)
Definition mlog_cleanout : L unit :=
  mlog_lock ;;;
  s <- gets id;;
  match logfile s with
  | None => retM tt
  | Some _ =>
      whenM (0 <=? logfd s) (close (logfd s)) ;;;
      modify (λ s, s <| logfd := -1 |>) ;;;
      free_block ;;;
      modify (λ s, s <| logfile := None |>)
  end ;;;
  s <- gets id;;
  match mlog_facs s with
  | None => retM tt
  | Some fs =>
      whenM (Z.of_nat (length fs) <? fac_alloc s) (crash OutOfBounds) ;;;
      forM (take (Z.to_nat (fac_alloc s)) fs) free_names ;;;
      free_block ;;;
      modify (λ s, s <| mlog_facs := None |> <| fac_cnt := 0 |> <| fac_alloc := 0 |>)
  end ;;;
  s <- gets id;;
  match mb s with
  | None => retM tt
  | Some _ => free_block ;;; modify (λ s, s <| mb := None |>)
  end ;;;
  whenM (0 <=? udpsock s) (close (udpsock s) ;;; modify (λ s, s <| udpsock := -1 |>)) ;;;
  match ucons s with
  | None => retM tt
  | Some _ => free_block ;;; modify (λ s, s <| ucons := None |>)
  end ;;;
  whenM (has (oflags s) MLOG_SYSLOG) (modify (λ s, s <| syslog_open := false |>)) ;;;
  mlog_unlock ;;;
  modify (λ s, s <| mlogmux := MxNone |>).

(** [memset] of [mst], with the descriptors closed. *)
Definition mst_clear (s : mlog_state) : mlog_state :=
  s <| def_mask := 0 |> <| stderr_mask := 0 |> <| logfile := None |> <| logfd := -1 |> <| oflags := 0 |>
    <| fac_alloc := 0 |> <| mb := None |> <| udpsock := -1 |> <| ucon_cnt := 0 |> <| ucon_nslots := 0 |>
    <| ucons := None |> <| nodename := [] |> <| abort_hook := None |> <| stdout_isatty := false |>
    <| stderr_isatty := false |> <| mlogmux := MxNone |>.

Definition pid_text (pid : Z) : str := [91] ++ dec pid ++ [93].

Record open_args := OpenArgs {
  oa_tag : option str;
  oa_maxfac : Z;
  oa_defmask : Z;
  oa_stderr : Z;
  oa_logfile : option str;
  oa_msgbuf : Z;
  oa_flags : Z }.

(** The checks of the arguments. *)
Definition open_refused (a : open_args) (is_open : bool) : bool :=
  is_open || negb (bool_decide (is_Some (oa_tag a))) || (oa_maxfac a <? 0) ||
  negb (Z.ldiff (oa_defmask a) MLOG_PRIMASK =? 0) || negb (Z.ldiff (oa_stderr a) MLOG_PRIMASK =? 0) ||
  (oa_msgbuf a <? 0) || ((0 <? oa_msgbuf a) && (oa_msgbuf a <? 16)).

(** The steps of [mlog_open] that can fail: [false] is [goto error]. *)
Definition open_logfile (a : open_args) : L bool :=
  match oa_logfile a with
  | None => retM true
  | Some f =>
      ok <- alloc;;
      if negb ok then retM false
      else
        modify (λ s, s <| logfile := Some f |>) ;;;
        fd <- new_fd (λ n o, os_open os n o f);;
        modify (λ s, s <| logfd := fd |>) ;;;
        if fd <? 0 then send ODiag ;;; retM false else retM true
  end.

Definition open_facs (a : open_args) : L bool :=
  modify (λ s, s <| oflags := Z.ldiff (oa_flags a) (Z.lor MLOG_SYSLOG MLOG_UCON_ON) |>) ;;;
  r <- mlog_setnfac (if oa_maxfac a <? 1 then 1 else oa_maxfac a);;
  retM (negb (r <? 0)).

Definition open_msgbuf (a : open_args) : L bool :=
  if negb (oa_msgbuf a =? 0) then
    ok <- alloc;;
    whenM ok (modify (λ s, s <| mb := Some (mbuf_new (oa_msgbuf a)) |>)) ;;; retM ok
  else retM true.

Definition open_udp (a : open_args) : L bool :=
  if has (oa_flags a) MLOG_UCON_ON then
    fd <- new_fd (os_socket os);;
    modify (λ s, s <| udpsock := fd |>) ;;;
    if fd <? 0 then retM false
    else modify (λ s, s <| oflags ::= (Z.lor MLOG_UCON_ON) |>) ;;; retM true
  else retM true.

Definition open_ucons (a : open_args) : L bool :=
  if has (oa_flags a) MLOG_UCON_ENV then
    dcon <- sys (os_getenv os);;
    match dcon with
    | None => retM true
    | Some dcon =>
        let cnt := 1 + count_if (λ c, c =? 59) dcon in
        modify (λ s, s <| ucon_cnt := cnt |>) ;;;
        ok <- alloc;;
        if negb ok then retM false
        else
          modify (λ s, s <| ucons := Some (replicate (Z.to_nat cnt) sin_zero) |> <| ucon_nslots := cnt |>) ;;;
          n <- mlog_getucon cnt dcon;;
          modify (λ s, s <| ucon_cnt := n |>) ;;; retM true
    end
  else retM true.

(** The rest, which cannot fail. *)
Definition open_finish (a : open_args) (newtag : str) (tagblen : Z) : L unit :=
  name <- sys (os_uname os);;
  outtty <- sys (os_isatty os);;
  errtty <- sys (os_isatty os);;
  modify (λ s, s <| nodename := if has (oa_flags a) MLOG_FQDN then name else (split_at 46 name).1 |>
    <| stdout_isatty := outtty || has (oa_flags a) MLOG_OUTTTY |> <| stderr_isatty := errtty |>) ;;;
  whenM (has (oa_flags a) MLOG_SYSLOG)
    (modify (λ s, s <| syslog_open := true |> <| oflags ::= (Z.lor MLOG_SYSLOG) |>)) ;;;
  modify (λ s, s <| tag := Some (newtag, tagblen) |>) ;;;
  mlog_unlock.

(** Runs steps until one fails. *)
Fixpoint all_ok (l : list (L bool)) : L bool :=
  match l with
  | [] => retM true
  | m :: l => ok <- m;; if (ok : bool) then all_ok l else retM false
  end.

Definition open_steps (a : open_args) : list (L bool) :=
  [open_logfile a; open_facs a; open_msgbuf a; open_udp a; open_ucons a].

Definition mlog_open (a : open_args) : L Z :=
  t <- gets tag;;
  if open_refused a (bool_decide (is_Some t)) then retM (-1)
  else
    let tagtext := default [] (oa_tag a) in
    modify mst_clear ;;;
    let tagblen := Z.of_nat (length tagtext) + MLOG_TAGPAD in
    ok <- alloc;;
    if negb ok then retM (-1)
    else
      mx <- sys (os_mutex_init os);;
      if negb (mx =? 0) then free_block ;;; retM (-1)
      else
        modify (λ s, s <| mlogmux := MxFree |>) ;;;
        mlog_lock ;;;
        newtag <- (if has (oa_flags a) MLOG_LOGPID
                   then pid <- sys (os_getpid os);;
                        retM (take (Z.to_nat (tagblen - 1)) (tagtext ++ pid_text pid))
                   else retM (take (Z.to_nat (tagblen - 1)) tagtext));;
        modify (λ s, s <| def_mask := oa_defmask a |> <| stderr_mask := oa_stderr a |>) ;;;
        ok <- all_ok (open_steps a);;
        if (ok : bool) then open_finish a newtag tagblen ;;; retM 0
        else free_block ;;; mlog_unlock ;;; mlog_cleanout ;;; retM (-1).

(** [mlog_reopen]: the UDP socket and the process id. *)
Definition reopen_ucon : L unit :=
  s <- gets id;;
  whenM (has (oflags s) MLOG_UCON_ON)
    (whenM (0 <=? udpsock s) (close (udpsock s)) ;;;
     fd <- new_fd (os_socket os);;
     modify (λ s, s <| udpsock := fd |>) ;;;
     whenM (fd =? -1) (modify (λ s, s <| oflags ::= (λ f, Z.ldiff f MLOG_UCON_ON) |>))).

Definition reopen_pid : L unit :=
  s <- gets id;;
  match tag s with
  | None => crash NullDeref
  | Some (t, size) =>
      match strrchr t 91 with
      | Some i =>
          whenM (has (oflags s) MLOG_LOGPID)
            (pid <- sys (os_getpid os);;
             let new := take 15 (pid_text pid) in
             if Z.of_nat (i + length new) + 1 <=? size
             then modify (λ s, s <| tag := Some (take i t ++ new, size) |>)
             else crash OutOfBounds)
      | None => retM tt
      end
  end.

(** The new name of the log file: [false] when [strdup] fails. *)
Definition reopen_name (lf : option str) : L bool :=
  old <- gets logfile;;
  match lf with
  | None =>
      match old with
      | Some _ => free_block ;;; modify (λ s, s <| logfile := None |>)
      | None => retM tt
      end ;;; retM true
  | Some f =>
      if negb (bool_decide (f = [])) && negb (bool_decide (old = Some f)) then
        ok <- alloc;;
        if negb ok then send ODiag ;;; retM false
        else
          match old with Some _ => free_block | None => retM tt end ;;;
          modify (λ s, s <| logfile := Some f |>) ;;; retM true
      else retM true
  end.

Definition mlog_reopen (lf : option str) : L Z :=
  t <- gets tag;;
  match t with
  | None => retM (-1)
  | Some _ =>
      mlog_lock ;;;
      reopen_ucon ;;;
      reopen_pid ;;;
      fd <- gets logfd;;
      whenM (0 <=? fd) (close fd) ;;;
      modify (λ s, s <| logfd := -1 |>) ;;;
      ok <- reopen_name lf;;
      rv <- (if negb ok then retM (-1)
             else
               name <- gets logfile;;
               match name with
               | None => retM 0
               | Some f =>
                   fd <- new_fd (λ n o, os_open os n o f);;
                   modify (λ s, s <| logfd := fd |>) ;;;
                   if fd <? 0 then send ODiag ;;; retM (-1) else retM 0
               end);;
      mlog_unlock ;;; retM rv
  end.

Definition mlog_close : L unit :=
  t <- gets tag;;
  match t with
  | None => retM tt
  | Some _ =>
      free_block ;;;
      modify (λ s, s <| tag := None |>) ;;;
      mlog_cleanout
  end.

(** ** Reading the message buffer *)
Definition mlog_dmesg : L (option ((Z * Z) * (option Z * Z))) :=
  s <- gets id;;
  match tag s, mb s with
  | Some _, Some m => mlog_lock ;;; mlog_unlock ;;; retM (Some (mlog_dmesg_mbuf m))
  | _, _ => retM None
  end.
End Calls.
