(* ===== verification/MlogSafe.v ===== *)
(** * Safety of the log

    The invariant of the log's state, which every call keeps: the masks are
    priorities, the arrays have the sizes the counters say, the mutex is free
    between calls, and the memory blocks and descriptors held are exactly those
    the state refers to. *)

From S2P Require Import Prelude MlogBuf Mlog.

(** ** The operating system *)
Record os_ok (os : osys) : Prop := {
  oo_open : ∀ n o f, os_open os n o f = -1 ∨ 0 ≤ os_open os n o f ∧ os_open os n o f ∉ o;
  oo_socket : ∀ n o, os_socket os n o = -1 ∨ 0 ≤ os_socket os n o ∧ os_socket os n o ∉ o }.

Section Prims.
Context (os : osys).
Implicit Types (s : mlog_state).

Lemma wp_sys {A} (f : nat → A) Q s : Q (f (nsys s)) (s <| nsys ::= S |>) → wp (sys f) Q s.
Proof. done. Qed.

Lemma wp_alloc Q s :
  (∀ ok : bool, Q ok (s <| nsys ::= S |> <| heap ::= (λ h, if ok then Z.succ h else h) |>)) →
  wp (alloc os) Q s.
Proof.
  intros H. unfold alloc, wp, bindM, sys, whenM, modify, retM. destruct s; simpl in *.
  specialize (H (os_malloc os nsys)). by destruct (os_malloc os nsys).
Qed.

Lemma wp_free Q s : 0 < heap s → Q tt (s <| heap ::= Z.pred |>) → wp free_block Q s.
Proof.
  intros Hp H. unfold free_block. apply wp_bind, wp_gets.
  by destruct (Z.ltb_spec 0 (heap s)); [apply wp_modify|lia].
Qed.

Lemma wp_new_fd (f : nat → gset Z → Z) Q s :
  (∀ n o, f n o = -1 ∨ 0 ≤ f n o ∧ f n o ∉ o) →
  Q (-1) (s <| nsys ::= S |>) →
  (∀ fd, 0 ≤ fd → fd ∉ fds s → Q fd (s <| nsys ::= S |> <| fds ::= ({[fd]} ∪.) |>)) →
  wp (new_fd f) Q s.
Proof.
  intros Hf H1 H2. unfold new_fd, wp, bindM, gets, id, sys, whenM, modify, retM. destruct s; simpl in *.
  destruct (Hf nsys fds) as [E|[Hp Hn]]; [rewrite E; exact H1|].
  destruct (Z.leb_spec 0 (f nsys fds)); [|lia]. by apply H2.
Qed.

Lemma wp_close fd Q s : Q tt (s <| fds ::= (.∖ {[fd]}) |>) → wp (close fd) Q s.
Proof. done. Qed.

Lemma wp_send o Q s : Q tt (s <| sent ::= (.++ [o]) |>) → wp (send o) Q s.
Proof. done. Qed.

Lemma wp_lock Q s : mlogmux s = MxFree → Q tt (s <| mlogmux := MxHeld |>) → wp mlog_lock Q s.
Proof. intros E H. unfold mlog_lock. apply wp_bind, wp_gets. by rewrite E. Qed.

Lemma wp_unlock Q s : mlogmux s = MxHeld → Q tt (s <| mlogmux := MxFree |>) → wp mlog_unlock Q s.
Proof. intros E H. unfold mlog_unlock. apply wp_bind, wp_gets. by rewrite E. Qed.

Lemma wp_int_add a b Q s : - 2 ^ 31 ≤ a + b < 2 ^ 31 → Q (a + b) s → wp (int_add a b) Q s.
Proof.
  intros Hr H. unfold int_add, int_ok. destruct (Z.leb_spec (- 2 ^ 31) (a + b)); [|lia].
  by destruct (Z.ltb_spec (a + b) (2 ^ 31)); [|lia].
Qed.
End Prims.

(** ** Invariant *)

(** A priority mask. *)
Definition pri_mask (m : Z) : Prop := Z.ldiff m MLOG_PRIMASK = 0.

Definition held {A} (o : option A) : Z := match o with Some _ => 1 | None => 0 end.

(** Blocks the names of an entry occupy. *)
Definition fac_blocks (f : mlog_fac) : Z :=
  match fac_sname f with Some (NHeap _) => 1 | _ => 0 end + held (fac_lname f).
Definition names_blocks (fs : list mlog_fac) : Z := foldr (λ f n, fac_blocks f + n) 0 fs.

Definition facs_blocks (o : option (list mlog_fac)) : Z :=
  match o with Some fs => 1 + names_blocks fs | None => 0 end.

(** Entries beyond the count have no names. *)
Record facs_ok (fs : list mlog_fac) (cnt alloc : Z) : Prop := {
  fo_len : Z.of_nat (length fs) = alloc;
  fo_cnt : 0 ≤ cnt ≤ alloc;
  fo_max : alloc < 2 ^ 31;
  fo_masks : Forall (λ f, pri_mask (fac_mask f)) fs;
  fo_free : Forall (λ f, fac_blocks f = 0) (drop (Z.to_nat cnt) fs) }.

Definition fd_set (fd : Z) : gset Z := if 0 <=? fd then {[fd]} else ∅.

Lemma fd_set_in fd : 0 ≤ fd → fd_set fd = {[fd]}.
Proof. intros H. unfold fd_set. by destruct (Z.leb_spec 0 fd); [|lia]. Qed.
Lemma fd_set_none fd : fd < 0 → fd_set fd = ∅.
Proof. intros H. unfold fd_set. by destruct (Z.leb_spec 0 fd); [lia|]. Qed.

(** Closing one of the two descriptors. *)
Lemma close_udp l u : (0 ≤ l → l ≠ u) → 0 ≤ u → (fd_set l ∪ fd_set u) ∖ {[u]} = fd_set l.
Proof.
  intros Hne Hu. rewrite (fd_set_in u Hu). destruct (Z_lt_le_dec l 0).
  - by rewrite fd_set_none, union_empty_l_L, difference_diag_L.
  - rewrite fd_set_in by done. rewrite difference_union_distr_l_L, difference_diag_L, union_empty_r_L.
    apply difference_disjoint_L, disjoint_singleton_l, not_elem_of_singleton. auto.
Qed.
Lemma close_log l u : (0 ≤ l → l ≠ u) → 0 ≤ l → (fd_set l ∪ fd_set u) ∖ {[l]} = fd_set u.
Proof. intros Hne Hl. rewrite (union_comm_L (fd_set l)). apply close_udp; [|done]. intros _ ->. by apply Hne. Qed.

(** [k] blocks are held besides those the state refers to. *)
Record core_ok (k : Z) (s : mlog_state) : Prop := {
  co_heap : heap s = k + held (logfile s) + facs_blocks (mlog_facs s) + held (mb s) + held (ucons s);
  co_facs : match mlog_facs s with
            | Some fs => facs_ok fs (fac_cnt s) (fac_alloc s)
            | None => fac_cnt s = 0 ∧ fac_alloc s = 0
            end;
  co_masks : pri_mask (def_mask s) ∧ pri_mask (stderr_mask s);
  co_file : 0 ≤ logfd s → is_Some (logfile s);
  co_fds : fds s = fd_set (logfd s) ∪ fd_set (udpsock s);
  co_two : 0 ≤ logfd s → logfd s ≠ udpsock s;
  co_mb : ∀ m, mb s = Some m → mb_wf m }.

Definition ucons_ok (s : mlog_state) : Prop :=
  0 ≤ ucon_cnt s ≤ ucon_nslots s ∧ ucon_nslots s = Z.of_nat (length (default [] (ucons s))).

Definition flags_ok (s : mlog_state) : Prop :=
  has (oflags s) MLOG_UCON_ON = (0 <=? udpsock s) ∧ syslog_open s = has (oflags s) MLOG_SYSLOG.

(** The tag's block has room for the process id after its last bracket. *)
Definition tag_ok (s : mlog_state) : Prop :=
  ∃ t size, tag s = Some (t, size) ∧ ∀ i, strrchr t 91 = Some i → Z.of_nat i + 16 ≤ size.

Record log_ok (mx : mutex) (s : mlog_state) : Prop := {
  lo_mux : mlogmux s = mx;
  lo_core : core_ok 1 s;
  lo_ucons : ucons_ok s;
  lo_flags : flags_ok s;
  lo_cnt : 1 ≤ fac_cnt s;
  lo_tag : tag_ok s }.

Record log_closed (s : mlog_state) : Prop := {
  lc_tag : tag s = None;
  lc_facs : mlog_facs s = None ∧ fac_cnt s = 0;
  lc_heap : heap s = 0;
  lc_fds : fds s = ∅;
  lc_syslog : syslog_open s = false }.

Definition mlog_wf (s : mlog_state) : Prop := log_closed s ∨ log_ok MxFree s.

(** *** Facts *)

Lemma held_pos {A} (o : option A) : 0 ≤ held o.
Proof. destruct o; simpl; lia. Qed.

Lemma fac_blocks_pos f : 0 ≤ fac_blocks f.
Proof. unfold fac_blocks. pose proof (held_pos (fac_lname f)). destruct (fac_sname f) as [[]|]; lia. Qed.

Lemma names_blocks_pos fs : 0 ≤ names_blocks fs.
Proof. induction fs as [|f fs IH]; simpl; [lia|]. pose proof (fac_blocks_pos f). lia. Qed.

Lemma facs_blocks_pos o : 0 ≤ facs_blocks o.
Proof. destruct o as [fs|]; simpl; [pose proof (names_blocks_pos fs)|]; lia. Qed.

Lemma core_heap k s : core_ok k s → k ≤ heap s.
Proof.
  intros [-> _ _ _ _ _ _]. pose proof (held_pos (logfile s)). pose proof (facs_blocks_pos (mlog_facs s)).
  pose proof (held_pos (mb s)). pose proof (held_pos (ucons s)). lia.
Qed.

Lemma names_blocks_app fs gs : names_blocks (fs ++ gs) = names_blocks fs + names_blocks gs.
Proof. induction fs as [|f fs IH]; simpl; [done|]. rewrite IH. lia. Qed.

Lemma names_blocks_zero fs : Forall (λ f, fac_blocks f = 0) fs → names_blocks fs = 0.
Proof. induction 1 as [|f fs Hf _ IH]; simpl; lia. Qed.

Lemma names_blocks_insert fs i f g :
  aget fs i = Some f → names_blocks (aset fs i g) = names_blocks fs - fac_blocks f + fac_blocks g.
Proof.
  unfold aget, aset. destruct (0 <=? i); [|done]. generalize (Z.to_nat i). clear i.
  induction fs as [|h fs IH]; intros [|i] H; simplify_eq/=; [lia|]. rewrite (IH i H). lia.
Qed.

(** Bits of the flag words. *)
Lemma has_bit f k : 0 ≤ k → has f (2 ^ k) = Z.testbit f k.
Proof.
  intros Hk. unfold has. destruct (Z.testbit f k) eqn:H.
  - destruct (Z.eqb_spec (Z.land f (2 ^ k)) 0) as [E|E]; [|done]. exfalso.
    assert (Z.testbit (Z.land f (2 ^ k)) k = false) as H' by (rewrite E; apply Z.bits_0).
    by rewrite Z.land_spec, H, Z.pow2_bits_true in H'.
  - replace (Z.land f (2 ^ k)) with 0; [done|]. symmetry. apply Z.bits_inj'. intros i Hi.
    rewrite Z.land_spec, Z.bits_0. destruct (Z.eq_dec i k) as [->|Hne]; [by rewrite H|].
    by rewrite Z.pow2_bits_false, andb_false_r.
Qed.

Lemma has_ucon f : has f MLOG_UCON_ON = Z.testbit f 30.
Proof. by apply (has_bit f 30). Qed.
Lemma has_syslog f : has f MLOG_SYSLOG = Z.testbit f 28.
Proof. by apply (has_bit f 28). Qed.

(** Setting and clearing the console's and syslog's flags. *)
Lemma has_flags f :
  has (Z.lor MLOG_UCON_ON f) MLOG_UCON_ON = true ∧
  has (Z.lor MLOG_UCON_ON f) MLOG_SYSLOG = has f MLOG_SYSLOG ∧
  has (Z.ldiff f MLOG_UCON_ON) MLOG_UCON_ON = false ∧
  has (Z.ldiff f MLOG_UCON_ON) MLOG_SYSLOG = has f MLOG_SYSLOG ∧
  has (Z.lor MLOG_SYSLOG f) MLOG_UCON_ON = has f MLOG_UCON_ON ∧
  has (Z.lor MLOG_SYSLOG f) MLOG_SYSLOG = true ∧
  has (Z.ldiff f (Z.lor MLOG_SYSLOG MLOG_UCON_ON)) MLOG_UCON_ON = false ∧
  has (Z.ldiff f (Z.lor MLOG_SYSLOG MLOG_UCON_ON)) MLOG_SYSLOG = false.
Proof.
  rewrite !has_ucon, !has_syslog, !Z.lor_spec, !Z.ldiff_spec.
  split_and!; by rewrite ?andb_true_r, ?andb_false_r.
Qed.

(** A priority mask is a number between 0 and [MLOG_PRIMASK]. *)
Lemma pri_mask_range m : pri_mask m → 0 ≤ m ≤ MLOG_PRIMASK.
Proof. intros H. by apply Z.ldiff_le. Qed.

Lemma land_pri z : pri_mask (Z.land z MLOG_PRIMASK).
Proof.
  unfold pri_mask. apply Z.bits_inj'. intros i Hi.
  rewrite Z.ldiff_spec, Z.land_spec, Z.bits_0. by destruct (Z.testbit z i), (Z.testbit MLOG_PRIMASK i).
Qed.

Lemma pri_mask_land m : pri_mask m → Z.land m MLOG_PRIMASK = m.
Proof.
  intros H. apply Z.bits_inj'. intros i Hi. rewrite Z.land_spec.
  assert (Z.testbit (Z.ldiff m MLOG_PRIMASK) i = false) as Hb by (rewrite H; apply Z.bits_0).
  rewrite Z.ldiff_spec in Hb. by destruct (Z.testbit m i), (Z.testbit MLOG_PRIMASK i).
Qed.


(** ** Facilities *)

(** The state after a change of the facility array. *)
Definition facs_upd (s : mlog_state) (o : option (list mlog_fac)) (cnt al h : Z) (n : nat) : mlog_state :=
  s <| mlog_facs := o |> <| fac_cnt := cnt |> <| fac_alloc := al |> <| heap := h |> <| nsys := n |>.

Lemma core_facs_upd k k' s fs cnt al h n :
  core_ok k s → facs_ok fs cnt al →
  h = heap s + (k' - k) + (facs_blocks (Some fs) - facs_blocks (mlog_facs s)) →
  core_ok k' (facs_upd s (Some fs) cnt al h n).
Proof. intros [Hh Hf Hm Hl Hd H2 Hb] Hfs ->. split; simpl; try done. simpl in Hh. lia. Qed.

Lemma log_facs_upd mx s fs cnt al h n :
  log_ok mx s → core_ok 1 (facs_upd s (Some fs) cnt al h n) → 1 ≤ cnt →
  log_ok mx (facs_upd s (Some fs) cnt al h n).
Proof. intros [] Hc Hn. by split. Qed.

Lemma new_facs_ok mask lo hi :
  pri_mask mask → lo ≤ hi →
  Z.of_nat (length (new_facs mask lo hi)) = hi - lo ∧
  Forall (λ f, pri_mask (fac_mask f)) (new_facs mask lo hi) ∧
  Forall (λ f, fac_blocks f = 0) (new_facs mask lo hi).
Proof.
  intros Hm Hl. unfold new_facs. rewrite length_fmap, length_seqZ. split_and!; [lia| |].
  - apply Forall_fmap, Forall_true. done.
  - apply Forall_fmap, Forall_true. intros i. unfold fac_blocks. simpl. by destruct (i =? 0).
Qed.

(** The array after the copy of the entries in use. *)
Lemma grown_facs_ok fs cnt al mask n xtry :
  facs_ok fs cnt al → pri_mask mask → cnt < n ≤ xtry → al < n → xtry < 2 ^ 31 →
  let nfacs := take (Z.to_nat cnt) fs ++ new_facs mask cnt xtry in
  facs_ok nfacs n xtry ∧ names_blocks nfacs = names_blocks fs.
Proof.
  intros [Hl Hc Hx Hm Hf] Hmask Hn Hal Hx'. cbv zeta.
  destruct (new_facs_ok mask cnt xtry Hmask) as (Hlen & Hms & Hbs); [lia|].
  assert (length (take (Z.to_nat cnt) fs) = Z.to_nat cnt) as Ht by (rewrite length_take; lia).
  split; [split|].
  - rewrite length_app, Ht. lia.
  - lia.
  - lia.
  - apply Forall_app. split; [by apply Forall_take|done].
  - rewrite drop_app_ge by lia. by apply Forall_drop.
  - rewrite names_blocks_app, (names_blocks_zero (new_facs _ _ _)) by done.
    rewrite <- (take_drop (Z.to_nat cnt) fs) at 2. rewrite names_blocks_app.
    by rewrite (names_blocks_zero (drop _ fs)).
Qed.

Section Ops.
Context (os : osys) (Hos : os_ok os).

(** [mlog_setnfac] fails without effect on the array or makes room. *)
Lemma wp_setnfac n k s :
  core_ok k s → 0 ≤ k → 0 ≤ n < 2 ^ 31 →
  wp (mlog_setnfac os n) (λ r s',
    (r = -1 ∧ s' = s <| nsys ::= S |> ∨
     r = 0 ∧ n ≤ fac_cnt s' ∧ fac_cnt s ≤ fac_cnt s' ∧
       (n ≤ fac_cnt s → s' = s) ∧
       (mlog_facs s' = None → n = 0) ∧
       s' = facs_upd s (mlog_facs s') (fac_cnt s') (fac_alloc s') (heap s') (nsys s')) ∧
    core_ok k s') s.
Proof.
  intros Hc Hk Hn. unfold mlog_setnfac. apply wp_bind, wp_gets. unfold id.
  destruct (Z.leb_spec n (fac_cnt s)).
  { apply wp_ret. split; [|done]. right. split_and!; try done; [|by destruct s].
    intros E. pose proof (co_facs k s Hc) as Hf. rewrite E in Hf. lia. }
  destruct (Z.leb_spec n (fac_alloc s)).
  { apply wp_bind, wp_modify, wp_ret. pose proof Hc as [Hh Hf Hm Hl Hd H2 Hb].
    destruct (mlog_facs s) as [fs|] eqn:Ef; [|lia].
    split.
    - right. split_and!; simpl; first [done|lia|by rewrite Ef|by destruct s].
    - split; simpl; rewrite ?Ef; try done. destruct Hf as [H1' H2' H3 H4 H5]. split; try done; [lia|].
      replace (Z.to_nat n) with (Z.to_nat (fac_cnt s) + (Z.to_nat n - Z.to_nat (fac_cnt s)))%nat by lia.
      rewrite <- drop_drop. by apply Forall_drop. }
  apply wp_bind.
  assert (∀ Q : Z → mlog_state → Prop, (∀ x, n ≤ x < 2 ^ 31 → Q x s) →
    wp (if n <? 1024 then int_add n 32 else retM n) Q s) as Hx.
  { intros Q HQ. destruct (Z.ltb_spec n 1024); [apply wp_int_add|apply wp_ret]; [lia|apply HQ; lia..]. }
  apply Hx. clear Hx. intros xtry Hx. apply wp_bind, wp_alloc. intros [|]; simpl.
  2: { apply wp_ret. split; [left; split; [done|]|]; destruct s; [done|]. by destruct Hc. }
  pose proof Hc as [Hh Hf Hm Hl Hd H2 Hb]. apply wp_bind.
  destruct (mlog_facs s) as [fs|] eqn:Ef.
  - destruct (Z.ltb_spec (Z.of_nat (length fs)) (fac_cnt s)); [destruct Hf; lia|]. apply wp_ret.
    rewrite length_take, Nat.min_l, Z2Nat.id by (destruct Hf; lia).
    destruct (grown_facs_ok fs (fac_cnt s) (fac_alloc s) (def_mask s) n xtry Hf) as [Hg Hgn];
      [apply Hm|lia..|].
    pose proof (core_heap k s Hc).
    apply wp_bind, wp_free; [simpl; lia|]. apply wp_bind, wp_modify, wp_ret. split.
    + right. split_and!; simpl; first [done|lia|by destruct s].
    + split; simpl; try done. rewrite Hgn. simpl in Hh. lia.
  - apply wp_ret. destruct Hf as [Hf1 Hf2].
    destruct (grown_facs_ok [] 0 0 (def_mask s) n xtry) as [Hg Hgn]; [by split|apply Hm|lia..|].
    simpl in Hg, Hgn. change (Z.of_nat (length [])) with 0. rewrite app_nil_l.
    set (nf := new_facs (def_mask s) 0 xtry) in *. apply wp_bind, wp_ret. apply wp_bind, wp_modify, wp_ret. split.
    + right. split_and!; simpl; first [done|lia|by destruct s].
    + split; simpl; try done. rewrite Hgn. simpl in Hh. lia.
Qed.

(** An entry in use. *)
Lemma wp_fac_get k s i Q :
  core_ok k s → 0 ≤ i < fac_cnt s →
  (∀ fs f, mlog_facs s = Some fs → aget fs i = Some f → pri_mask (fac_mask f) → Q f s) →
  wp (fac_get i) Q s.
Proof.
  intros [_ Hf _ _ _ _ _] Hi HQ. unfold fac_get. apply wp_bind, wp_gets.
  destruct (mlog_facs s) as [fs|] eqn:E; [|lia]. destruct Hf as [Hl Hc _ Hm _].
  destruct (aget_is_Some fs i) as [f Hg]; [lia|].
  apply wp_bind. apply (wp_get_some _ _ fs); [done|]. apply (wp_get_some _ _ f); [done|].
  apply (HQ fs); [done|done|]. rewrite Forall_forall in Hm. apply (Hm f). unfold aget in Hg.
  destruct (0 <=? i); [|done]. by apply list_elem_of_lookup_2 in Hg.
Qed.

Lemma facs_ok_set fs cnt al i f :
  facs_ok fs cnt al → 0 ≤ i < cnt → pri_mask (fac_mask f) → facs_ok (aset fs i f) cnt al.
Proof.
  intros [H1 H2 H3 H4 H5] Hi Hf. split; try done.
  - by rewrite length_aset.
  - by apply Forall_insert.
  - unfold aset. rewrite drop_insert_lt by lia. done.
Qed.

(** Writing an entry whose names account for [d] more blocks. *)
Lemma core_fac_put k s fs i f g d :
  core_ok (k + d) s → mlog_facs s = Some fs → aget fs i = Some f → 0 ≤ i < fac_cnt s →
  pri_mask (fac_mask g) → d = fac_blocks g - fac_blocks f →
  core_ok k (s <| mlog_facs := Some (aset fs i g) |>).
Proof.
  intros [Hh Hf Hm Hl Hd H2 Hb] E Hg Hi Hp ->. split; simpl; try done.
  - rewrite (names_blocks_insert fs i f g Hg). rewrite E in Hh. simpl in Hh. lia.
  - rewrite E in Hf. by apply facs_ok_set.
Qed.

Lemma wp_fac_put s fs i f g Q :
  mlog_facs s = Some fs → aget fs i = Some f →
  Q tt (s <| mlog_facs := Some (aset fs i g) |>) → wp (fac_put i g) Q s.
Proof.
  intros E Hg HQ. unfold fac_put. apply wp_bind, wp_gets. rewrite E.
  apply wp_bind. apply (wp_get_some _ _ fs); [done|]. apply wp_bind.
  apply (wp_get_some _ _ f); [done|]. by apply wp_modify.
Qed.

Lemma log_setnfac mx n s :
  log_ok mx s → 0 ≤ n < 2 ^ 31 →
  wp (mlog_setnfac os n) (λ r s', log_ok mx s' ∧ (r = -1 ∨ r = 0 ∧ n ≤ fac_cnt s') ∧
    fac_cnt s ≤ fac_cnt s') s.
Proof.
  intros Hs Hn. pose proof Hs as [Hm Hc Hu Hf Hp Ht].
  eapply wp_mono; [by apply (wp_setnfac n 1)|]. simpl.
  intros r s' [[[-> ->]|(->&H1&H2&_&_&E)] Hc'].
  - split_and!; [|by left|done]. by split.
  - split_and!; [|by right|lia]. rewrite E in Hc' |- *. split; try done. simpl. lia.
Qed.

(** The facility exists afterwards, or there was no memory. *)
Definition ensure_fac (f : Z) : L Z :=
  cnt <- gets fac_cnt;; if cnt <=? f then n <- int_add f 1;; mlog_setnfac os n else retM 0.

Lemma wp_ensure_fac mx f s :
  log_ok mx s → 0 ≤ f < 2 ^ 31 - 1 →
  wp (ensure_fac f) (λ r s', log_ok mx s' ∧ (r = -1 ∨ r = 0 ∧ f < fac_cnt s')) s.
Proof.
  intros Hs Hf. unfold ensure_fac. apply wp_bind, wp_gets.
  destruct (Z.leb_spec (fac_cnt s) f).
  - apply wp_bind, wp_int_add; [lia|]. eapply wp_mono; [apply log_setnfac; [done|lia]|]. simpl.
    intros r s' (?&[?|[? ?]]&_); split; try done; [by left|right; lia].
  - apply wp_ret. split; [done|by right].
Qed.

Lemma bind_assoc {A B C} (m : L A) (k : A → L B) (k' : B → L C) s :
  bindM (bindM m k) k' s = bindM m (λ a, bindM (k a) k') s.
Proof. unfold bindM. by destruct (m s) as [[]|]. Qed.

Lemma wp_ensure_then {A} f (k : Z → L A) Q s :
  wp (bindM (ensure_fac f) k) Q s →
  wp (cnt <- gets fac_cnt;;
      r <- (if cnt <=? f then n <- int_add f 1;; mlog_setnfac os n else retM 0);; k r) Q s.
Proof. unfold wp, ensure_fac. by rewrite bind_assoc. Qed.

Lemma log_mux mx mx' s : log_ok mx s → log_ok mx' (s <| mlogmux := mx' |>).
Proof. intros [H1 [] H3 H4 H5 H6]. by split; [|split|..]. Qed.

(** The end of a call. *)
Lemma log_end {A} (r : A) s : log_ok MxHeld s → wp (mlog_unlock ;;; retM r) (λ _, log_ok MxFree) s.
Proof. intros Hs. apply wp_bind, wp_unlock; [apply Hs|]. apply wp_ret. by eapply log_mux. Qed.

Lemma wp_setlogmask f m s :
  log_ok MxFree s → 0 ≤ f < 2 ^ 31 - 1 →
  wp (mlog_setlogmask os f m) (λ _, log_ok MxFree) s.
Proof.
  intros Hs Hf. pose proof (lo_tag _ _ Hs) as (t&sz&Et&_). unfold mlog_setlogmask.
  apply wp_bind, wp_gets. rewrite Et. apply wp_bind, wp_lock; [apply Hs|].
  apply wp_ensure_then, wp_bind. eapply wp_mono; [apply wp_ensure_fac; [by eapply log_mux|done]|].
  intros r s' [Hs' Hr]. apply wp_bind.
  assert (∀ Q : Z → mlog_state → Prop, (∀ v s'', log_ok MxHeld s'' → Q v s'') →
    wp (if r <? 0 then retM (-1) else
      f0 <- fac_get f;; fac_put f (f0 <| fac_mask := Z.land m MLOG_PRIMASK |>) ;;; retM (fac_mask f0)) Q s')
    as Hmid.
  { intros Q HQ. destruct Hr as [->|[-> Hlt]]; simpl; [by apply wp_ret, HQ|].
    apply wp_bind. apply (wp_fac_get 1); [apply Hs'|lia|]. intros fs x E Hg Hp.
    apply wp_bind. eapply wp_fac_put; [done|done|]. apply wp_ret, HQ.
    pose proof Hs' as [H1 H2 H3 H4 H5 H6]. split; try done.
    apply (core_fac_put 1 s' fs f x _ 0); [done|done|done|lia|apply land_pri|].
    unfold fac_blocks. simpl. lia. }
  apply Hmid. intros v s'' Hs''. by apply log_end.
Qed.

(** Only the blocks held and the calls made change, by [d]. *)
Definition heap_upd (s : mlog_state) (d : Z) (n : nat) : mlog_state :=
  s <| heap ::= (λ h, h + d) |> <| nsys := n |>.

Lemma core_heap_upd k s d n : core_ok k s → core_ok (k + d) (heap_upd s d n).
Proof. intros []. split; simpl; try done. lia. Qed.

Lemma wp_dup_names sn ln s :
  0 ≤ heap s →
  wp (dup_names os sn ln) (λ r s',
    match r with
    | None => ∃ n, s' = heap_upd s 0 n
    | Some (n, nl) => ∃ m, s' = heap_upd s (fac_blocks (Fac 0 n nl)) m
    end) s.
Proof.
  intros Hh. unfold dup_names. destruct sn as [sn|].
  2: { apply wp_ret. exists (nsys s). destruct s. simpl. unfold heap_upd, fac_blocks. simpl. by rewrite Z.add_0_r. }
  apply wp_bind, wp_alloc. intros [|]; simpl.
  2: { apply wp_ret. exists (S (nsys s)). destruct s. unfold heap_upd, fac_blocks. simpl. by rewrite Z.add_0_r. }
  destruct ln as [ln|].
  - apply wp_bind, wp_alloc. intros [|]; simpl.
    + apply wp_ret. exists (S (S (nsys s))). destruct s. unfold heap_upd, fac_blocks. simpl. f_equal; lia.
    + apply wp_bind, wp_free; [simpl; lia|]. apply wp_ret. exists (S (S (nsys s))).
      destruct s. unfold heap_upd, fac_blocks. simpl. f_equal; lia.
  - apply wp_ret. exists (S (nsys s)). destruct s. unfold heap_upd, fac_blocks. simpl. f_equal; lia.
Qed.

Lemma wp_free_names f s Q :
  fac_blocks f ≤ heap s → Q tt (heap_upd s (- fac_blocks f) (nsys s)) → wp (free_names f) Q s.
Proof.
  intros Hh HQ. unfold free_names, fac_blocks in *.
  destruct (fac_sname f) as [[|n]|], (fac_lname f) as [l|]; simpl in *; wp_steps;
    repeat (apply wp_free; [simpl; lia|]; wp_steps);
    match goal with H : ?q ?t ?a |- ?q ?t ?b => replace b with a; [exact H|] end;
    destruct s; unfold heap_upd; simpl; f_equal; lia.
Qed.

Lemma names_blocks_get fs i f : aget fs i = Some f → fac_blocks f ≤ names_blocks fs.
Proof.
  intros H. pose proof (names_blocks_insert fs i f (Fac 0 None None) H) as E.
  pose proof (names_blocks_pos (aset fs i (Fac 0 None None))).
  change (fac_blocks (Fac 0 None None)) with 0 in E. lia.
Qed.

Lemma log_heap mx s d n : log_ok mx s → d = 0 → log_ok mx (heap_upd s d n).
Proof. intros [H1 H2 H3 H4 H5 H6] ->. split; try done. by apply (core_heap_upd 1 s 0). Qed.

Lemma wp_namefacility f sn ln s :
  log_ok MxFree s → 0 ≤ f < 2 ^ 31 - 1 →
  wp (mlog_namefacility os f sn ln) (λ r s', (r = 0 ∨ r = -1) ∧ log_ok MxFree s') s.
Proof.
  intros Hs Hf. pose proof (lo_tag _ _ Hs) as (t&sz&Et&_). unfold mlog_namefacility.
  apply wp_bind, wp_gets. rewrite Et. apply wp_bind, wp_lock; [apply Hs|].
  apply wp_ensure_then, wp_bind. eapply wp_mono; [apply wp_ensure_fac; [by eapply log_mux|done]|].
  intros r s' [Hs' Hr]. apply wp_bind.
  assert (∀ v s'', (v = 0 ∨ v = -1) → log_ok MxHeld s'' →
    wp (mlog_unlock ;;; retM v) (λ r s', (r = 0 ∨ r = -1) ∧ log_ok MxFree s') s'') as Hend.
  { intros v s'' Hv Hs''. apply wp_bind, wp_unlock; [apply Hs''|]. apply wp_ret.
    split; [done|]. by eapply log_mux. }
  destruct Hr as [->|[-> Hlt]]; simpl; [by apply wp_ret, Hend; [right|]|].
  pose proof (core_heap 1 s' (lo_core _ _ Hs')).
  apply wp_bind. eapply wp_mono; [apply wp_dup_names; lia|]. intros [[n nl]|] s2.
  2: { intros [m ->]. apply wp_ret, Hend; [by right|]. by apply log_heap. }
  intros [m ->]. set (d := fac_blocks (Fac 0 n nl)).
  pose proof Hs' as [H1 H2 H3 H4 H5 H6]. pose proof (core_heap_upd 1 s' d m H2) as Hc.
  apply wp_bind. apply (wp_fac_get (1 + d)); [done|simpl; lia|]. simpl. intros fs x E Hg Hp.
  pose proof (names_blocks_get fs f x Hg). assert (0 ≤ d) by apply fac_blocks_pos.
  pose proof (held_pos (logfile s')). pose proof (held_pos (mb s')). pose proof (held_pos (ucons s')).
  apply wp_bind, wp_free_names.
  { pose proof (co_heap _ _ H2) as Hh. rewrite E in Hh. simpl in *. lia. }
  pose proof (core_heap_upd (1 + d) _ (- fac_blocks x) m Hc) as Hc2.
  apply wp_bind. eapply wp_fac_put; [done|done|]. apply wp_ret, Hend; [by left|].
  split; try done.
  apply (core_fac_put 1 _ fs f x _ (d - fac_blocks x)); [|done|done|simpl; lia|done|].
  - replace (1 + (d - fac_blocks x)) with (1 + d + - fac_blocks x) by lia. exact Hc2.
  - subst d. unfold fac_blocks. simpl. lia.
Qed.

Lemma wp_allocfacility sn ln s :
  log_ok MxFree s → fac_cnt s < 2 ^ 31 - 2 →
  wp (mlog_allocfacility os sn ln) (λ _, log_ok MxFree) s.
Proof.
  intros Hs Hf. pose proof (lo_tag _ _ Hs) as (t&sz&Et&_). pose proof (lo_cnt _ _ Hs).
  unfold mlog_allocfacility. apply wp_bind, wp_gets. rewrite Et. apply wp_bind, wp_lock; [apply Hs|].
  apply wp_bind, wp_gets. cbn [fac_cnt upd]. apply wp_bind, wp_int_add; [simpl; lia|].
  apply wp_bind. eapply wp_mono; [apply (log_setnfac MxHeld); [by eapply log_mux|simpl; lia]|].
  intros r s' (Hs'&Hr&_). cbv zeta. apply wp_bind, wp_unlock; [apply Hs'|].
  assert (log_ok MxFree (s' <| mlogmux := MxFree |>)) as Hs2 by (by eapply log_mux).
  destruct Hr as [->|[-> Hlt]]; simpl; [by apply wp_ret|].
  destruct (Z.eqb_spec (fac_cnt s) (-1)); [by apply wp_ret|].
  apply wp_bind. eapply wp_mono; [apply wp_namefacility; [exact Hs2|lia]|].
  intros r2 s2 [_ H2]. by apply wp_ret.
Qed.

(** ** Logging *)

(** The line for a header [h] and a message: ended by a newline and cut to fit
    the buffer with its final 0. *)
Definition log_line (h msg : str) : str :=
  let t := h ++ msg in
  if (Z.of_nat (length t) <=? MLOG_TBSIZ - 1) && bool_decide (last t = Some 10) then t
  else take (Z.to_nat (MLOG_TBSIZ - 2)) t ++ [10].

Lemma log_line_ok h msg :
  (length (log_line h msg) < Z.to_nat MLOG_TBSIZ)%nat ∧ last (log_line h msg) = Some 10.
Proof.
  unfold log_line. destruct (_ && _) eqn:E; breflect.
  - apply bool_decide_eq_true in H0. unfold MLOG_TBSIZ in *. split; [lia|done].
  - split; [|by rewrite last_snoc]. unfold MLOG_TBSIZ. rewrite length_app, length_take. cbn [length]. lia.
  - split; [|by rewrite last_snoc]. unfold MLOG_TBSIZ. rewrite length_app, length_take. cbn [length]. lia.
Qed.

Lemma b_get_last (b : str) (i : Z) (s : mlog_state) :
  Z.of_nat (length b) = i + 1 → 0 ≤ i < MLOG_TBSIZ →
  ∃ c, b_get b i s = Ok (c, s) ∧ last b = Some c.
Proof.
  intros Hl Hi. unfold b_get. destruct (Z.ltb_spec i MLOG_TBSIZ); [|lia].
  destruct (aget_is_Some b i) as [c Hc]; [lia|]. exists c. rewrite Hc. split; [done|].
  rewrite last_lookup. unfold aget in Hc. destruct (Z.leb_spec 0 i); [|lia].
  by replace (pred (length b)) with (Z.to_nat i) by lia.
Qed.

Lemma aset_last (t : str) n c : length t = S n → aset t (Z.of_nat n) c = take n t ++ [c].
Proof.
  intros Hl. unfold aset. rewrite Nat2Z.id. apply list_eq. intros i.
  destruct (decide (i = n)) as [->|Hne].
  - rewrite list_lookup_insert_eq by lia. rewrite lookup_app_r; rewrite length_take; [|lia].
    by replace (n - Nat.min n (length t))%nat with 0%nat by lia.
  - rewrite list_lookup_insert_ne by done. destruct (decide (i < n)%nat).
    + rewrite lookup_app_l by (rewrite length_take; lia). by rewrite lookup_take_lt.
    + rewrite (lookup_ge_None_2 t) by lia.
      rewrite lookup_ge_None_2; [done|]. rewrite length_app, length_take. simpl. lia.
Qed.

Lemma vmlog_format_eq (pt1 pt2 msg : str) (s : mlog_state) :
  pt1 ++ pt2 ≠ [] →
  vmlog_format pt1 pt2 msg s =
    Ok (if MLOG_TBSIZ <=? Z.of_nat (length (pt1 ++ pt2)) + 1 then None
        else Some (log_line (pt1 ++ pt2) msg), s).
Proof.
  intros Hne. unfold vmlog_format. rewrite length_app.
  set (l1 := Z.of_nat (length pt1)). set (l2 := Z.of_nat (length pt2)).
  destruct (Z.ltb_spec l1 MLOG_TBSIZ) as [H1|H1].
  2: { destruct (Z.leb_spec MLOG_TBSIZ (l1 + 1)); [|lia].
       by destruct (Z.leb_spec MLOG_TBSIZ (Z.of_nat (length pt1 + length pt2) + 1)); [|lia]. }
  replace (Z.of_nat (length pt1 + length pt2)) with (l1 + l2) by lia.
  destruct (Z.leb_spec MLOG_TBSIZ (l1 + l2 + 1)) as [H2|H2]; [done|].
  assert (take (Z.to_nat (MLOG_TBSIZ - 1 - 0)) pt1 ++ take (Z.to_nat (MLOG_TBSIZ - 1 - l1)) pt2 =
    pt1 ++ pt2) as -> by (rewrite !take_ge by lia; done).
  set (h := pt1 ++ pt2) in *. assert (l1 + l2 = Z.of_nat (length h)) as El
    by (subst h l1 l2; rewrite length_app; lia). rewrite El in *. clear H1 l1 l2 El.
  assert (0 < length h)%nat as Hh by (destruct h; [done|simpl; lia]). clearbody h. clear Hne.
  set (t := h ++ msg).
  assert (h ++ take (Z.to_nat (MLOG_TBSIZ - 1 - Z.of_nat (length h))) msg =
    take (Z.to_nat (MLOG_TBSIZ - 1)) t) as ->.
  { subst t. rewrite take_app. f_equal; [by rewrite take_ge by lia|]. f_equal. lia. }
  assert (Z.of_nat (length h) + Z.of_nat (length msg) = Z.of_nat (length t)) as ->
    by (subst t; rewrite length_app; lia).
  assert (length h ≤ length t)%nat as Hht by (subst t; rewrite length_app; lia).
  unfold log_line. fold t. clearbody t.
  assert (∀ s' : mlog_state, MLOG_TBSIZ - 1 ≤ Z.of_nat (length t) →
    bindM (b_get (take (Z.to_nat (MLOG_TBSIZ - 1)) t) (MLOG_TBSIZ - 2)) (λ _,
      retM (Some (aset (take (Z.to_nat (MLOG_TBSIZ - 1)) t) (MLOG_TBSIZ - 2) 10))) s' =
    Ok (Some (take (Z.to_nat (MLOG_TBSIZ - 2)) t ++ [10]), s')) as Hfull.
  { intros s' Hge. destruct (b_get_last (take (Z.to_nat (MLOG_TBSIZ - 1)) t) (MLOG_TBSIZ - 2) s')
      as (c&Hc&_); [unfold MLOG_TBSIZ in *; rewrite length_take; lia|unfold MLOG_TBSIZ; lia|].
    mstep by exact Hc. unfold retM. do 3 f_equal.
    replace (MLOG_TBSIZ - 2) with (Z.of_nat (Z.to_nat (MLOG_TBSIZ - 2))) at 1 by done.
    rewrite aset_last by (unfold MLOG_TBSIZ in *; rewrite length_take; lia).
    rewrite take_take. by f_equal. }
  destruct (Z.leb_spec MLOG_TBSIZ (Z.of_nat (length t))) as [H3|H3].
  { mstep by reflexivity. rewrite Hfull by lia.
    by destruct (Z.leb_spec (Z.of_nat (length t)) (MLOG_TBSIZ - 1)); [lia|]. }
  rewrite (take_ge t) in * by lia.
  destruct (Z.leb_spec (Z.of_nat (length t)) (MLOG_TBSIZ - 1)); [|lia].
  destruct (b_get_last t (Z.of_nat (length t) - 1) s) as (c&Hc&Hlast); [lia|lia|].
  rewrite Hlast. destruct (Z.eqb_spec (Z.of_nat (length t)) (MLOG_TBSIZ - 1)) as [E|E].
  - assert (MLOG_TBSIZ - 2 = Z.of_nat (length t) - 1) as E2 by lia.
    mstep by (rewrite E2; mstep by exact Hc; reflexivity).
    destruct (Z.eqb_spec c 10) as [->|Hn]; simpl.
    + mstep by exact Hc. done.
    + rewrite Hfull by lia. rewrite bool_decide_false by congruence. done.
  - mstep by reflexivity. mstep by exact Hc.
    destruct (Z.eqb_spec c 10) as [->|Hn]; simpl; [done|].
    destruct (Z.ltb_spec (Z.of_nat (length t) + 1) MLOG_TBSIZ); [|lia].
    rewrite bool_decide_false by congruence. rewrite take_ge by lia. done.
Qed.

(** Where a line goes besides the message buffer, in order: the log file and
    the consoles, then stderr, stdout and syslog. *)
Definition locked_outputs (s : mlog_state) (b : str) : list output :=
  (if 0 <=? logfd s then [OFile (logfd s) b] else []) ++
  (if has (oflags s) MLOG_UCON_ON
   then (λ a, OUdp (udpsock s) a b) <$> take (Z.to_nat (ucon_cnt s)) (default [] (ucons s)) else []).

Definition syslog_pri (lvl : Z) : Z := 7 - Z.shiftr lvl MLOG_PRISHIFT.

Definition unlocked_outputs (s : mlog_state) (flags : Z) (pt1 : nat) (b : str) : list output :=
  let thisflag := Z.lor (oflags s) flags in
  let lvl := Z.land flags MLOG_PRIMASK in
  (if has thisflag MLOG_STDERR then [OStderr (strz (if stderr_isatty s then drop pt1 b else b))] else []) ++
  (if has thisflag MLOG_STDOUT then [OStdout (strz (if stdout_isatty s then drop pt1 b else b))] else []) ++
  (if has (oflags s) MLOG_SYSLOG
   then [OSyslog (syslog_pri lvl) (strz (drop pt1 (take (length b - 1) b)))] else []).

Lemma send_all_ucons sock (b : str) (l : list sockaddr_in) : ∀ (n i : nat) (s : mlog_state),
  ucons s = Some l → (i + n ≤ length l)%nat →
  forM (seqZ (Z.of_nat i) (Z.of_nat n)) (λ i, a <- ucon_get i;; send (OUdp sock a b)) s =
    Ok (tt, s <| sent ::= (.++ ((λ a, OUdp sock a b) <$> take n (drop i l))) |>).
Proof.
  induction n as [|n IH]; intros i s E Hl.
  - change (Z.of_nat 0) with 0. rewrite take_0. destruct s; simpl. unfold retM. by rewrite app_nil_r.
  - rewrite seqZ_cons by lia. cbn [forM]. destruct (lookup_lt_is_Some_2 l i) as [a Ha]; [lia|].
    mstep by (unfold ucon_get; rewrite bind_assoc; mgets; rewrite E, bind_assoc; mstep by reflexivity;
      rewrite aget_nat, Ha; reflexivity).
    replace (Z.succ (Z.of_nat i)) with (Z.of_nat (S i)) by lia.
    replace (Z.pred (Z.of_nat (S n))) with (Z.of_nat n) by lia.
    rewrite IH by (simpl; done || lia). rewrite (drop_S l a i Ha). destruct s; simpl.
    by rewrite <- app_assoc.
Qed.

Definition logged_to (b : str) (s : mlog_state) : mlog_state := s <| mb ::= fmap (logged b) |>.

Lemma dispatch_locked_eq (b : str) s :
  core_ok 1 s → ucons_ok s → Z.of_nat (length b) < 2 ^ 31 →
  dispatch_locked b s = Ok (tt, logged_to b s <| sent ::= (.++ locked_outputs s b) |>).
Proof.
  intros Hc [Hu1 Hu2] Hb. unfold dispatch_locked.
  mstep by (instantiate (1 := logged_to b s); instantiate (1 := tt); unfold log_mbuf, logged_to;
    destruct s as [? ? ? ? ? ? ? ? ? [m|] ? ? ? ? ? ? ? ? ? ? ? ? ? ?]; simpl in *; [|done];
    by rewrite vmlog_mbuf_eq by (done || by apply (co_mb _ _ Hc))).
  mgets. unfold locked_outputs.
  assert (∀ s' : mlog_state, ucons s' = ucons s → ucon_cnt s' = ucon_cnt s → oflags s' = oflags s →
    udpsock s' = udpsock s →
    bindM (gets id) (λ s', whenM (has (oflags s') MLOG_UCON_ON)
      (forM (seqZ 0 (ucon_cnt s')) (λ i, a <- ucon_get i;; send (OUdp (udpsock s') a b)))) s' =
    Ok (tt, s' <| sent ::= (.++ (if has (oflags s) MLOG_UCON_ON
      then (λ a, OUdp (udpsock s) a b) <$> take (Z.to_nat (ucon_cnt s)) (default [] (ucons s)) else [])) |>))
    as Hudp.
  { intros s' E1 E2 E3 E4. mgets. rewrite E2, E3, E4.
    destruct (has (oflags s) MLOG_UCON_ON); simpl.
    2: { destruct s'; unfold retM; simpl. by rewrite app_nil_r. }
    destruct (ucons s) as [l|] eqn:El.
    - pose proof (send_all_ucons (udpsock s) b l (Z.to_nat (ucon_cnt s)) 0 s') as Hsend.
      rewrite Z2Nat.id, drop_0 in Hsend by lia. apply Hsend; [done|]. simpl in Hu2. lia.
    - simpl in Hu2. replace (ucon_cnt s) with 0 by lia. destruct s'; simpl. unfold retM. simpl.
      by rewrite app_nil_r. }
  destruct (Z.leb_spec 0 (logfd (logged_to b s))) as [H|H]; simpl in H.
  - mstep by reflexivity. etrans; [by apply Hudp|]. destruct (Z.leb_spec 0 (logfd s)); [|lia].
    destruct s; simpl. by rewrite <- app_assoc.
  - mstep by reflexivity. etrans; [by apply Hudp|]. by destruct (Z.leb_spec 0 (logfd s)); [lia|].
Qed.

Lemma level_range flags : 0 ≤ Z.shiftr (Z.land flags MLOG_PRIMASK) MLOG_PRISHIFT < 8.
Proof.
  pose proof (pri_mask_range _ (land_pri flags)). rewrite Z.shiftr_div_pow2 by done.
  unfold MLOG_PRIMASK, MLOG_PRISHIFT in *. split; [apply Z.div_pos|apply Z.div_lt_upper_bound]; lia.
Qed.

Lemma mlog2syslog_get i : 0 ≤ i < 8 → aget mlog2syslog i = Some (7 - i).
Proof.
  intros H. assert (i = 0 ∨ i = 1 ∨ i = 2 ∨ i = 3 ∨ i = 4 ∨ i = 5 ∨ i = 6 ∨ i = 7) as Hi by lia.
  by repeat destruct Hi as [->|Hi]; [done..|subst].
Qed.

Lemma dispatch_unlocked_eq flags pt1 (b : str) s :
  dispatch_unlocked (Z.lor (oflags s) flags) (Z.land flags MLOG_PRIMASK) pt1 b s =
    Ok (tt, s <| sent ::= (.++ unlocked_outputs s flags pt1 b) |>).
Proof.
  unfold dispatch_unlocked, unlocked_outputs. mgets.
  pose proof (mlog2syslog_get _ (level_range flags)) as Hp. fold (syslog_pri (Z.land flags MLOG_PRIMASK)) in Hp.
  destruct (has (Z.lor (oflags s) flags) MLOG_STDERR), (has (Z.lor (oflags s) flags) MLOG_STDOUT),
    (has (oflags s) MLOG_SYSLOG); unfold whenM, bindM, retM, send, modify, get_some; rewrite ?Hp;
    destruct s; simpl; rewrite <- ?app_assoc, ?app_nil_r; reflexivity.
Qed.

(** The facility of a message, and the two tests of its level. *)
Definition msg_fac (s : mlog_state) (flags : Z) : Z :=
  let fac := Z.land flags MLOG_FACMASK in if fac_cnt s <=? fac then 0 else fac.
Definition wanted (mask lvl : Z) : bool :=
  if MLOG_INFO <=? lvl then mask <=? lvl else negb (Z.land lvl mask =? 0).
Definition to_stderr (mask lvl : Z) : bool :=
  if MLOG_INFO <=? lvl then negb (mask =? 0) && (mask <=? lvl) else negb (Z.land lvl mask =? 0).

Lemma msg_fac_range s flags : 1 ≤ fac_cnt s → 0 ≤ msg_fac s flags < fac_cnt s.
Proof.
  intros H. unfold msg_fac.
  assert (0 ≤ Z.land flags MLOG_FACMASK) by (apply Z.land_nonneg; right; done).
  destruct (Z.leb_spec (fac_cnt s) (Z.land flags MLOG_FACMASK)); lia.
Qed.

Lemma fac_get_eq k s i :
  core_ok k s → 0 ≤ i < fac_cnt s →
  ∃ f, fac_get i s = Ok (f, s) ∧ pri_mask (fac_mask f) ∧
    ∃ fs, mlog_facs s = Some fs ∧ aget fs i = Some f.
Proof.
  intros Hc Hi.
  assert (wp (fac_get i) (λ f s', s' = s ∧ pri_mask (fac_mask f) ∧
    ∃ fs, mlog_facs s = Some fs ∧ aget fs i = Some f) s) as Hw by (apply (wp_fac_get k); eauto 10).
  apply wp_ok in Hw as (f&s'&Hr&->&H1&H2). eauto.
Qed.

Lemma fac_get_frame i f s s' :
  fac_get i s = Ok (f, s) → mlog_facs s' = mlog_facs s → fac_get i s' = Ok (f, s').
Proof.
  unfold fac_get, bindM, gets, get_some. intros H E. rewrite E. destruct (mlog_facs s); [|done].
  destruct (aget _ _); [|done]. by simplify_eq.
Qed.

Lemma core_cnt k s : core_ok k s → 0 ≤ fac_cnt s < 2 ^ 31.
Proof. intros [_ Hf _ _ _ _ _]. destruct (mlog_facs s); [destruct Hf|]; lia. Qed.

Lemma filters_eq mx s flags f :
  log_ok mx s → fac_get (msg_fac s flags) s = Ok (f, s) → pri_mask (fac_mask f) →
  let lvl := Z.land flags MLOG_PRIMASK in
  mlog_filter flags s = Ok (if wanted (fac_mask f) lvl then 1 else 0, s) ∧
  vmlog_filter flags s = Ok (if wanted (fac_mask f) lvl
    then Some (msg_fac s flags,
               if to_stderr (stderr_mask s) lvl then Z.lor flags MLOG_STDERR else flags)
    else None, s).
Proof.
  intros Hs Hget Hm lvl. pose proof (pri_mask_range _ Hm) as Hr.
  pose proof (core_cnt 1 s (lo_core _ _ Hs)) as Hcnt. pose proof (lo_tag _ _ Hs) as (t&sz&Et&_).
  unfold wanted, to_stderr. unfold msg_fac in Hget. fold lvl. split.
  - unfold mlog_filter. mgets. rewrite Et. rewrite u32_small by lia. mstep by exact Hget. fold lvl.
    rewrite u32_small by (unfold MLOG_PRIMASK in Hr; lia).
    destruct (MLOG_INFO <=? lvl); [|by destruct (Z.land lvl (fac_mask f) =? 0)].
    destruct (Z.ltb_spec lvl (fac_mask f)), (Z.leb_spec (fac_mask f) lvl); done || lia.
  - unfold vmlog_filter. mgets. mstep by exact Hget. fold lvl.
    destruct (MLOG_INFO <=? lvl); [|by destruct (Z.land lvl (fac_mask f) =? 0)].
    destruct (Z.ltb_spec lvl (fac_mask f)), (Z.leb_spec (fac_mask f) lvl); done || lia.
Qed.

Lemma pri_stderr flags : Z.land (Z.lor flags MLOG_STDERR) MLOG_PRIMASK = Z.land flags MLOG_PRIMASK.
Proof. by rewrite Z.land_lor_distr_l, Z.lor_0_r. Qed.

(** What a message to be logged does. *)
Definition fac_name (fac : Z) (f : mlog_fac) : str :=
  match fac_sname f with Some n => sname_str n | None => take 15 (dec fac) end.

Definition log_effect (flags : Z) (f : mlog_fac) (t msg : str) (s : mlog_state) : mlog_state :=
  let lvl := Z.land flags MLOG_PRIMASK in
  let pt1 := header_pt1 (os_time os (nsys s)) (nodename s) t in
  let h := pt1 ++ header_pt2 (fac_name (msg_fac s flags) f) lvl in
  let flags := if to_stderr (stderr_mask s) lvl then Z.lor flags MLOG_STDERR else flags in
  let b := log_line h msg in
  let s1 := s <| nsys ::= S |> in
  if MLOG_TBSIZ <=? Z.of_nat (length h) + 1 then s1 <| sent ::= (.++ [ODiag]) |>
  else logged_to b s1 <| sent ::= (.++ (locked_outputs s b ++ unlocked_outputs s flags (length pt1) b)) |>.

Lemma header_cons t n g p2 : header_pt1 t n g ++ p2 ≠ [].
Proof. unfold header_pt1, dec0. intros [H _]%app_eq_nil. repeat (apply app_eq_nil in H as [? H]). done. Qed.

Lemma vmlog_eq flags msg s t size f :
  log_ok MxFree s → tag s = Some (t, size) → fac_get (msg_fac s flags) s = Ok (f, s) →
  pri_mask (fac_mask f) →
  vmlog os flags msg s =
    Ok (tt, if wanted (fac_mask f) (Z.land flags MLOG_PRIMASK) then log_effect flags f t msg s else s).
Proof.
  intros Hs Et Hget Hm. destruct (filters_eq MxFree s flags f Hs Hget Hm) as [_ Hv].
  unfold vmlog. mgets. rewrite Et. mstep by exact Hv.
  destruct (wanted _ _); [|done]. set (flags' := if to_stderr _ _ then _ else _).
  assert (Z.land flags' MLOG_PRIMASK = Z.land flags MLOG_PRIMASK) as Hl
    by (subst flags'; destruct (to_stderr _ _); [apply pri_stderr|done]).
  rewrite Hl. pose proof Hs as [Hmx Hc Hu Hf Hn _]. unfold log_effect. fold flags'.
  set (pt1 := header_pt1 _ _ _). set (h2 := header_pt2 _ _).
  mstep by (unfold mlog_lock; mgets; rewrite Hmx; reflexivity).
  mstep by (by apply (fac_get_frame _ _ _ _ Hget)).
  mstep by reflexivity. mgets. change (nodename (_ <| nsys ::= S |>)) with (nodename s).
  change (nsys (s <| mlogmux := MxHeld |>)) with (nsys s). fold pt1. unfold fac_name in h2. fold h2.
  mstep by (apply vmlog_format_eq; apply header_cons).
  destruct (MLOG_TBSIZ <=? _).
  { unfold mlog_unlock. rewrite bind_assoc. mgets. simpl. unfold send, modify, bindM.
    destruct s; simpl in *. by subst. }
  set (b := log_line _ _). pose proof (log_line_ok (pt1 ++ h2) msg) as [Hb _]. fold b in Hb.
  set (s2 := s <| mlogmux := MxHeld |> <| nsys ::= S |>).
  assert (core_ok 1 s2) as Hc2 by (by destruct Hc).
  mstep by (apply (dispatch_locked_eq b s2); [done|done|unfold MLOG_TBSIZ in Hb; lia]).
  mstep by (unfold mlog_unlock; mgets; reflexivity).
  match goal with |- _ ?s3 = _ => pose proof (dispatch_unlocked_eq flags' (length pt1) b s3) as Hd end.
  rewrite Hl in Hd. etrans; [exact Hd|]. f_equal. f_equal.
  unfold locked_outputs, unlocked_outputs, logged_to. rewrite Hl. destruct s; simpl in *. subst.
  by rewrite <- app_assoc.
Qed.

Lemma log_sent mx s g : log_ok mx s → log_ok mx (s <| sent ::= g |>).
Proof. intros [H1 [] H3 H4 H5 H6]. by split; [|split|..]. Qed.
Lemma log_nsys mx s g : log_ok mx s → log_ok mx (s <| nsys ::= g |>).
Proof. intros [H1 [] H3 H4 H5 H6]. by split; [|split|..]. Qed.

Lemma log_logged_to mx b s : log_ok mx s → log_ok mx (logged_to b s).
Proof.
  intros [H1 [] H3 H4 H5 H6]. split; try done. split; simpl; try done.
  - by destruct (mb s).
  - intros m Hm. destruct (mb s) as [m0|]; simplify_eq/=. by apply logged_wf, co_mb0.
Qed.

Lemma log_effect_ok mx flags f t msg s : log_ok mx s → log_ok mx (log_effect flags f t msg s).
Proof.
  intros Hs. unfold log_effect. destruct (_ <=? _).
  - by apply log_sent, log_nsys.
  - by apply log_logged_to, log_sent, log_nsys.
Qed.

Lemma vmlog_ok flags msg s :
  log_ok MxFree s → ∃ s', vmlog os flags msg s = Ok (tt, s') ∧ log_ok MxFree s' ∧
    mlog_facs s' = mlog_facs s ∧ fac_cnt s' = fac_cnt s ∧ tag s' = tag s.
Proof.
  intros Hs. pose proof Hs as [_ Hc _ _ Hn (t&sz&Et&_)].
  destruct (fac_get_eq 1 s (msg_fac s flags) Hc (msg_fac_range s flags Hn)) as (f&Hf&Hm&_).
  eexists. split; [by eapply vmlog_eq|]. destruct (wanted _ _); [|done].
  split; [by apply log_effect_ok|]. unfold log_effect. by destruct (_ <=? _).
Qed.

Lemma wp_vmlog flags msg s : log_ok MxFree s → wp (vmlog os flags msg) (λ _, log_ok MxFree) s.
Proof. intros Hs. destruct (vmlog_ok flags msg s Hs) as (s'&E&H&_). by eapply wp_eq. Qed.

Lemma mlog_macro_eq minpri flags msg s :
  log_ok MxFree s → minpri ≤ Z.land flags MLOG_PRIMASK →
  mlog os minpri flags msg s = vmlog os flags msg s.
Proof.
  intros Hs Hp. pose proof Hs as [_ Hc _ _ Hn (t&sz&Et&_)].
  destruct (fac_get_eq 1 s (msg_fac s flags) Hc (msg_fac_range s flags Hn)) as (f&Hf&Hm&_).
  destruct (filters_eq MxFree s flags f Hs Hf Hm) as [Hfl _].
  unfold mlog. destruct (Z.leb_spec minpri (Z.land flags MLOG_PRIMASK)); [|lia].
  mstep by exact Hfl. rewrite (vmlog_eq flags msg s t sz f) by done.
  pose proof (vmlog_eq flags msg s t sz f Hs Et Hf Hm) as Hv. by destruct (wanted _ _).
Qed.

(** ** Masks *)

Lemma facs_in_use_eq mx s :
  log_ok mx s → ∃ fs, mlog_facs s = Some fs ∧
    facs_in_use s = Ok (take (Z.to_nat (fac_cnt s)) fs, s) ∧ fac_cnt s ≤ Z.of_nat (length fs).
Proof.
  intros [_ [_ Hf _ _ _ _ _] _ _ Hn _]. unfold facs_in_use. destruct (mlog_facs s) as [fs|] eqn:E; [|lia].
  exists fs. destruct Hf as [Hl Hc _ _ _]. mgets. rewrite E. mstep by reflexivity.
  destruct (Z.ltb_spec (Z.of_nat (length fs)) (fac_cnt s)); [lia|]. split_and!; [done|done|lia].
Qed.

Lemma find_fac_range name l : ∀ i j, find_fac name l i = Some j → i ≤ j < i + Z.of_nat (length l).
Proof.
  induction l as [|f l IH]; intros i j H; cbn [find_fac] in H; [done|].
  destruct (fac_named name f); [simplify_eq; cbn [length]; lia|]. apply IH in H. cbn [length]. lia.
Qed.

Lemma wp_set_chunk cur lst s : log_ok MxFree s → wp (set_chunk os cur lst) (λ _, log_ok MxFree) s.
Proof.
  intros Hs. unfold set_chunk. destruct (match split_at 61 cur with (f, Some p) => _ | (p, None) => _ end) as [fac pri].
  cbv zeta. destruct (_ =? -1); [by apply wp_vmlog|].
  pose proof (core_cnt 1 s (lo_core _ _ Hs)) as Hcnt. destruct fac as [name|].
  - apply wp_bind, wp_lock; [apply Hs|].
    destruct (facs_in_use_eq MxHeld (s <| mlogmux := MxHeld |>)) as (fs&_&E&Hl); [by eapply log_mux|].
    apply wp_bind. eapply wp_eq; [exact E|]. apply wp_bind, wp_unlock; [done|].
    assert (log_ok MxFree (s <| mlogmux := MxHeld |> <| mlogmux := MxFree |>)) as Hs2
      by (eapply log_mux, log_mux; done).
    destruct (find_fac name _ 0) as [j|] eqn:Ef; [|by apply wp_vmlog].
    apply find_fac_range in Ef. rewrite length_take in Ef.
    apply wp_bind. simpl in *. eapply wp_mono; [apply wp_setlogmask; [exact Hs2|]|].
    + (* facility numbers below 2^31 - 1 *) lia.
    + intros ? s' Hs'. by apply wp_ret.
  - apply wp_bind, wp_gets. apply wp_forM; [|done]. intros i s' Hi Hs'.
    apply elem_of_seqZ in Hi. apply wp_bind. eapply wp_mono; [apply wp_setlogmask; [done|lia]|].
    intros ? s'' Hs''. by apply wp_ret.
Qed.

Lemma split_at_length c m a r : split_at c m = (a, Some r) → (length r < length m)%nat.
Proof.
  revert a. induction m as [|x m IH]; intros a H; simpl in *; [done|].
  destruct (x =? c); [simplify_eq; lia|]. destruct (split_at c m) as [a' b'] eqn:E. simplify_eq.
  specialize (IH _ eq_refl). lia.
Qed.

Lemma wp_setmasks_loop fuel : ∀ m s,
  (length m < fuel)%nat → log_ok MxFree s → wp (setmasks_loop os fuel m) (λ _, log_ok MxFree) s.
Proof.
  induction fuel as [|fuel IH]; intros m s Hl Hs; [lia|]. cbn [setmasks_loop].
  destruct (split_at 44 m) as [cur rest] eqn:E. apply wp_bind.
  assert (wp (match cur with [] => retM tt | _ =>
    set_chunk os cur (match rest with None => true | Some _ => false end) end) (λ _, log_ok MxFree) s) as Hw
    by (destruct cur; [by apply wp_ret|by apply wp_set_chunk]).
  eapply wp_mono; [exact Hw|]. intros ? s' Hs'. destruct rest as [m'|]; [|by apply wp_ret].
  apply IH; [|done]. apply split_at_length in E. lia.
Qed.

Lemma wp_setmasks mstr mlen0 s :
  log_ok MxFree s → mlen0 ≤ Z.of_nat (length mstr) →
  wp (mlog_setmasks os mstr mlen0) (λ _, log_ok MxFree) s.
Proof.
  intros Hs Hl. pose proof (lo_tag _ _ Hs) as (t&sz&Et&_). unfold mlog_setmasks.
  apply wp_bind, wp_gets. rewrite Et. apply wp_bind.
  destruct (mlen0 <? 0); [|destruct (Z.leb_spec mlen0 (Z.of_nat (length mstr))); [|lia]]; apply wp_ret;
    (destruct (skip_blank _); [by apply wp_ret|]); apply wp_setmasks_loop; done || lia.
Qed.

Lemma wp_getmasks null discard len unterm s :
  log_ok MxFree s → wp (mlog_getmasks null discard len unterm) (λ _, log_ok MxFree) s.
Proof.
  intros Hs. pose proof (lo_tag _ _ Hs) as (t&sz&Et&_). unfold mlog_getmasks.
  apply wp_bind, wp_gets. rewrite Et. apply wp_bind, wp_lock; [apply Hs|].
  destruct (facs_in_use_eq MxHeld (s <| mlogmux := MxHeld |>)) as (fs&_&E&_); [by eapply log_mux|].
  apply wp_bind. eapply wp_eq; [exact E|]. cbv zeta. apply wp_bind, wp_unlock; [done|].
  apply wp_ret. by eapply log_mux, log_mux.
Qed.

(** ** UDP consoles *)

(** Only calls were made and output sent. *)
Definition io_upd (s : mlog_state) (n : nat) (o : list output) : mlog_state := s <| nsys := n |> <| sent := o |>.

Lemma log_io mx s n o : log_ok mx s → log_ok mx (io_upd s n o).
Proof. intros. by apply log_sent, log_nsys. Qed.

Lemma wp_resolvhost h p s Q :
  (∀ r a n o, (r = 0 ∨ r = -1) → Q (r, a) (io_upd s n o)) → wp (mlog_resolvhost os h p) Q s.
Proof.
  intros HQ. unfold mlog_resolvhost. cbv zeta.
  assert (∀ r n, (r = 0 ∨ r = -1) → ∀ a, Q (r, a) (s <| nsys := n |>)) as HQ1.
  { intros r n Hr a. specialize (HQ r a n (sent s) Hr). unfold io_upd in HQ. by destruct s. }
  assert (∀ a, Q (0, a) s) as HQ0 by (intros a; specialize (HQ1 0 (nsys s) (or_introl eq_refl) a); by destruct s).
  destruct (first_digit h).
  - destruct (_ || _); [|by apply wp_ret].
    apply wp_bind, wp_send, wp_ret. specialize (HQ (-1) (Sin AF_INET (htons (atoi p)) (os_inet_addr os h)) (nsys s) (sent s ++ [ODiag])).
    unfold io_upd in HQ. destruct s. apply HQ. by right.
  - apply wp_bind, wp_sys.
    assert (∀ a, wp (send ODiag ;;; retM (-1, a)) Q (s <| nsys ::= S |>)) as Hbad.
    { intros a. apply wp_bind, wp_send, wp_ret. specialize (HQ (-1) a (S (nsys s)) (sent s ++ [ODiag])).
      unfold io_upd in HQ. destruct s. apply HQ. by right. }
    destruct (os_gethostbyname os (nsys s) h) as [[ty l [a|]]|]; [|apply Hbad..].
    destruct (_ || _); [apply Hbad|]. apply wp_ret, HQ1. by left.
Qed.

Lemma wp_ucon_put i a l s Q :
  ucons s = Some l → 0 ≤ i < Z.of_nat (length l) →
  Q tt (s <| ucons := Some (aset l i a) |>) → wp (ucon_put i a) Q s.
Proof.
  intros E Hi HQ. unfold ucon_put. apply wp_bind, wp_gets. rewrite E. destruct (aget_is_Some l i Hi) as [x Hx].
  apply wp_bind. apply (wp_get_some _ _ l); [done|]. apply wp_bind.
  apply (wp_get_some _ _ x); [done|]. by apply wp_modify.
Qed.

Lemma wp_ucon_get i l s (Q : sockaddr_in → mlog_state → Prop) :
  ucons s = Some l → 0 ≤ i < Z.of_nat (length l) → (∀ a, Q a s) → wp (ucon_get i) Q s.
Proof.
  intros E Hi HQ. unfold ucon_get. apply wp_bind, wp_gets. rewrite E. destruct (aget_is_Some l i Hi) as [x Hx].
  apply wp_bind. apply (wp_get_some _ _ l); [done|]. by apply (wp_get_some _ _ x).
Qed.

(** [mlog_getucon] fills the array and stays inside it. *)
Lemma wp_getucon_loop fuel cnt : ∀ p rv l s,
  (length p < fuel)%nat → ucons s = Some l → cnt = Z.of_nat (length l) → 0 ≤ rv ≤ cnt →
  wp (getucon_loop os fuel cnt p rv) (λ r s', 0 ≤ r ≤ cnt ∧
    ∃ l' n o, length l' = length l ∧ s' = io_upd (s <| ucons := Some l' |>) n o) s.
Proof.
  induction fuel as [|fuel IH]; intros p rv l s Hp El Hc Hrv; [lia|]. cbn [getucon_loop].
  assert (∀ s' r, 0 ≤ r ≤ cnt → (∃ n o, s' = io_upd s n o) →
    0 ≤ r ≤ cnt ∧ ∃ l' n o, length l' = length l ∧ s' = io_upd (s <| ucons := Some l' |>) n o) as Hend.
  { intros s' r Hr (n&o&->). split; [done|]. exists l, n, o. split; [done|]. destruct s; simpl in *. by subst. }
  destruct p as [|c p]; [apply wp_ret, Hend; [done|]; exists (nsys s), (sent s); by destruct s|].
  destruct (Z.ltb_spec rv cnt).
  2: { apply wp_ret, Hend; [done|]. exists (nsys s), (sent s). by destruct s. }
  destruct (split_at 58 (c :: p)) as [hst [port|]] eqn:E.
  2: { apply wp_bind, wp_send, wp_ret, Hend; [done|]. exists (nsys s), (sent s ++ [ODiag]). by destruct s. }
  apply split_at_length in E. apply wp_bind, wp_resolvhost. intros r a n o Hr.
  apply wp_bind. apply (wp_ucon_put _ _ l); [done|lia|]. cbv zeta. cbn [fst snd].
  set (rv' := if negb (r =? -1) then rv + 1 else rv).
  assert (0 ≤ rv' ≤ cnt) as Hrv' by (subst rv'; destruct (r =? -1); simpl; lia).
  assert (length (aset l rv a) = length l) as Hla by apply length_aset.
  destruct (split_at 59 port) as [x [p'|]] eqn:E2.
  - apply split_at_length in E2.
    eapply wp_mono; [apply (IH p' rv' (aset l rv a)); [lia|done|lia|done]|].
    intros r' s' (Hr'&l'&n'&o'&Hl'&->). split; [done|]. exists l', n', o'. split; [lia|]. by destruct s.
  - apply wp_ret. split; [done|]. exists (aset l rv a), n, o. split; [done|]. by destruct s.
Qed.

(** The consoles' array changes. *)
Definition ucons_upd (s : mlog_state) (cnt : Z) (l : list sockaddr_in) : mlog_state :=
  s <| ucons := Some l |> <| ucon_nslots := Z.of_nat (length l) |> <| ucon_cnt := cnt |>.

Lemma log_ucons_upd mx s l0 l cnt :
  log_ok mx s → ucons s = Some l0 → 0 ≤ cnt ≤ Z.of_nat (length l) → log_ok mx (ucons_upd s cnt l).
Proof.
  intros [H1 [] H3 H4 H5 H6] E Hc. split; try done. split; try done. simpl. by rewrite E in co_heap0.
Qed.

Lemma wp_ucon_on s : log_ok MxFree s → wp (mlog_ucon_on os) (λ _, log_ok MxFree) s.
Proof using Hos.
  intros Hs. pose proof (lo_tag _ _ Hs) as (t&sz&Et&_). unfold mlog_ucon_on.
  apply wp_bind, wp_gets. rewrite Et. apply wp_bind, wp_lock; [apply Hs|].
  apply (log_mux _ MxHeld) in Hs. generalize dependent (s <| mlogmux := MxHeld |>). clear s Et.
  intros s Hs. apply wp_bind, wp_gets. apply wp_bind.
  assert (∀ s', log_ok MxHeld s' → wp (mlog_unlock ;;; f <- gets oflags;;
    retM (if has f MLOG_UCON_ON then 0 else -1)) (λ _, log_ok MxFree) s') as Hend.
  { intros s' Hs'. apply wp_bind, wp_unlock; [apply Hs'|]. apply wp_bind, wp_gets, wp_ret. by eapply log_mux. }
  apply wp_when; [|intros _; by apply Hend]. intros Hf. apply negb_true_iff in Hf.
  pose proof Hs as [H1 H2 H3 [H4 H4'] H5 H6]. rewrite Hf in H4. symmetry in H4. apply Z.leb_gt in H4.
  apply wp_bind, wp_new_fd; [apply Hos|..].
  - apply wp_bind, wp_modify. apply wp_when; [done|]. intros _. apply Hend.
    split; try done.
    + destruct H2. split; try done; simpl; [|lia]. rewrite co_fds0. unfold fd_set.
      by destruct (Z.leb_spec 0 (udpsock s)); [lia|].
  - intros fd Hfd Hn. apply wp_bind, wp_modify. apply wp_when; [|by destruct (Z.leb_spec 0 fd); [|lia]].
    intros _. apply wp_modify, Hend.
    destruct (has_flags (oflags s)) as (Ha&Hb&_).
    split; try done.
    + destruct H2 as [? ? ? ? Hfds ? ?]. rewrite (fd_set_none (udpsock s)), union_empty_r_L in Hfds by done.
      split; try done; simpl.
      * by rewrite Hfds, (fd_set_in fd), (union_comm_L {[fd]}).
      * intros Hl <-. apply Hn. rewrite Hfds, fd_set_in by done. by apply elem_of_singleton.
    + split; simpl; [rewrite Ha; by destruct (Z.leb_spec 0 fd); [|lia]|by rewrite Hb].
Qed.

Lemma wp_ucon_off s : log_ok MxFree s → wp mlog_ucon_off (λ _, log_ok MxFree) s.
Proof.
  intros Hs. pose proof (lo_tag _ _ Hs) as (t&sz&Et&_). unfold mlog_ucon_off.
  apply wp_bind, wp_gets. rewrite Et. apply wp_bind, wp_lock; [apply Hs|].
  pose proof Hs as [H1 H2 H3 [H4 H4'] H5 H6]. apply wp_bind, wp_modify. apply wp_bind, wp_gets.
  destruct (has_flags (oflags s)) as (_&_&Ha&Hb&_). apply wp_bind.
  assert (∀ X, X = fd_set (logfd s) → wp (modify (λ s, s <| udpsock := -1 |>) ;;; mlog_unlock ;;; retM 0)
    (λ _, log_ok MxFree) (s <| mlogmux := MxHeld |> <| oflags ::= (λ f, Z.ldiff f MLOG_UCON_ON) |> <| fds := X |>))
    as Hend.
  { intros X HX. apply wp_bind, wp_modify, wp_bind, wp_unlock; [done|]. apply wp_ret. split; try done.
    - destruct H2. split; try done; simpl; [|lia]. by rewrite HX, (fd_set_none (-1)), union_empty_r_L.
    - split; simpl; [by rewrite Ha|by rewrite Hb]. }
  destruct H2. apply wp_when; simpl; intros Hfd.
  - apply wp_close. apply Hend. simpl. rewrite co_fds0. apply Z.leb_le in Hfd. by apply close_udp.
  - match goal with |- wp ?m ?q ?st => replace st with
      (s <| mlogmux := MxHeld |> <| oflags ::= (λ f, Z.ldiff f MLOG_UCON_ON) |> <| fds := fds s |>)
      by (by destruct s) end.
    apply Hend. apply Z.leb_gt in Hfd. by rewrite co_fds0, (fd_set_none (udpsock s)), union_empty_r_L.
Qed.

(** The consoles' slots, as an array. *)
Lemma ucons_slots s i :
  ucons_ok s → 0 ≤ i < ucon_nslots s → ∃ l, ucons s = Some l ∧ Z.of_nat (length l) = ucon_nslots s.
Proof. intros [_ H] Hi. destruct (ucons s) as [l|]; simpl in H; [by exists l|lia]. Qed.

Lemma wp_grow_ucons s :
  log_ok MxHeld s → ucon_cnt s = ucon_nslots s →
  wp (grow_ucons os) (λ ok s', log_ok MxHeld s' ∧ ucon_cnt s' = ucon_cnt s ∧
    (ok = true → ucon_cnt s' < ucon_nslots s')) s.
Proof.
  intros Hs Heq. pose proof Hs as [H1 H2 [H3 H3'] H4 H5 H6]. unfold grow_ucons.
  apply wp_bind, wp_alloc. intros [|]; simpl.
  2: { apply wp_ret. split_and!; [|done|done]. pose proof (log_nsys _ _ S Hs) as Hn. by destruct s. }
  pose proof (core_heap 1 s H2). apply wp_bind, wp_gets. unfold id. simpl. apply wp_bind.
  destruct H2 as [Hh ? ? ? ? ? ?]. destruct (ucons s) as [l|] eqn:El; simpl in H3'.
  - destruct (Z.ltb_spec (Z.of_nat (length l)) (ucon_cnt s)); [lia|].
    apply wp_bind, wp_free; [simpl; lia|]. apply wp_ret, wp_bind, wp_modify, wp_ret. simpl.
    split_and!; [|done|lia]. split; try done.
    + split; try done. simpl in *. lia.
    + split; simpl; [lia|]. rewrite length_app, length_take, length_replicate. lia.
  - apply wp_ret, wp_bind, wp_modify, wp_ret. simpl. split_and!; [|done|lia]. split; try done.
    + split; try done. simpl in *. lia.
    + split; simpl; [lia|]. rewrite length_replicate. lia.
Qed.

Lemma wp_ucon_add host port s : log_ok MxFree s → wp (mlog_ucon_add os host port) (λ _, log_ok MxFree) s.
Proof.
  intros Hs. pose proof (lo_tag _ _ Hs) as (t&sz&Et&_). unfold mlog_ucon_add.
  apply wp_bind, wp_gets. unfold id. rewrite Et. destruct (_ || _); [by apply wp_ret|].
  apply wp_bind, wp_lock; [apply Hs|]. apply (log_mux _ MxHeld) in Hs.
  generalize dependent (s <| mlogmux := MxHeld |>). clear s Et. intros s Hs.
  apply wp_bind, wp_gets. unfold id. apply wp_bind.
  assert (wp (if ucon_cnt s =? ucon_nslots s then grow_ucons os else retM true) (λ ok s', log_ok MxHeld s' ∧
    ucon_cnt s' = ucon_cnt s ∧ (ok = true → ucon_cnt s' < ucon_nslots s')) s) as Hg.
  { destruct (Z.eqb_spec (ucon_cnt s) (ucon_nslots s)); [by apply wp_grow_ucons|]. apply wp_ret.
    pose proof (lo_ucons _ _ Hs) as [? _]. split_and!; [done|done|lia]. }
  eapply wp_mono; [exact Hg|]. clear Hg. intros ok s' (Hs'&Hcnt&Hok). rewrite <- Hcnt. clear dependent s.
  apply wp_bind.
  destruct ok; simpl; [|by apply wp_ret, log_end].
  apply wp_bind, wp_resolvhost. intros r a n o Hr. specialize (Hok eq_refl).
  pose proof (lo_ucons _ _ Hs') as Hu. destruct (ucons_slots s' (ucon_cnt s') Hu) as (l&El&Hl);
    [destruct Hu; lia|].
  apply wp_bind. apply (wp_ucon_put _ _ l); [done|destruct Hu; lia|]. cbn [fst snd].
  assert (∀ d, 0 ≤ d ≤ 1 → log_ok MxHeld (io_upd (ucons_upd s' (ucon_cnt s' + d) (aset l (ucon_cnt s') a)) n o))
    as Hput.
  { intros d Hd. apply log_io. eapply log_ucons_upd; [done|done|]. rewrite length_aset. destruct Hu. lia. }
  assert (ucon_nslots s' = Z.of_nat (length (aset l (ucon_cnt s') a))) as Hns by (rewrite length_aset; done).
  destruct Hr as [-> | ->]; simpl.
  - apply wp_bind, wp_modify, wp_ret, log_end. specialize (Hput 1 ltac:(lia)).
    unfold io_upd, ucons_upd in Hput. rewrite <- Hns in Hput. by destruct s'.
  - apply wp_ret, log_end. specialize (Hput 0 ltac:(lia)). rewrite Z.add_0_r in Hput.
    unfold io_upd, ucons_upd in Hput. rewrite <- Hns in Hput. by destruct s'.
Qed.

Lemma wp_find_ucon a l s (Q : Z → mlog_state → Prop) : ∀ (n : nat) i,
  ucons s = Some l → 0 ≤ i → i + Z.of_nat n ≤ Z.of_nat (length l) →
  (∀ j, i ≤ j ≤ i + Z.of_nat n → Q j s) → wp (find_ucon a n i) Q s.
Proof.
  induction n as [|n IH]; intros i E Hi Hl HQ; cbn [find_ucon].
  - apply wp_ret, HQ. lia.
  - apply wp_bind. apply (wp_ucon_get _ l); [done|lia|]. intros x. destruct (decide (a = x)).
    + apply wp_ret, HQ. lia.
    + apply IH; [done|lia|lia|]. intros j Hj. apply HQ. lia.
Qed.

Lemma wp_ucon_rm host port s : log_ok MxFree s → wp (mlog_ucon_rm os host port) (λ _, log_ok MxFree) s.
Proof.
  intros Hs. pose proof (lo_tag _ _ Hs) as (t&sz&Et&_). unfold mlog_ucon_rm.
  apply wp_bind, wp_gets. unfold id. rewrite Et. destruct (_ || _) eqn:E; [by apply wp_ret|]. breflect.
  apply wp_bind, wp_resolvhost. intros r a n o Hr. pose proof (log_io _ _ n o Hs) as Hs1.
  destruct Hr as [-> | ->]; simpl; [|by apply wp_ret].
  apply wp_bind, wp_lock; [apply Hs1|]. apply (log_mux _ MxHeld) in Hs1.
  assert (1 ≤ ucon_cnt ((io_upd s n o) <| mlogmux := MxHeld |>)) as Hc by done.
  generalize dependent ((io_upd s n o) <| mlogmux := MxHeld |>). clear s Hs Et H H0 H1.
  intros s Hs Hc. apply wp_bind, wp_gets.
  pose proof (lo_ucons _ _ Hs) as Hu. destruct (ucons_slots s 0 Hu) as (l&El&Hl); [destruct Hu; lia|].
  destruct Hu as [Hu _].
  apply wp_bind. apply (wp_find_ucon a l); [done|lia|lia|]. intros j Hj. apply wp_bind.
  destruct (Z.leb_spec (ucon_cnt s) j); [by apply wp_ret, log_end|].
  assert (∀ l' : list sockaddr_in, length l' = length l → log_ok MxHeld (ucons_upd s (ucon_cnt s - 1) l')) as Hput.
  { intros l' Hl'. eapply log_ucons_upd; [done|done|]. lia. }
  apply wp_bind, wp_when.
  - intros _. apply wp_bind. apply (wp_ucon_get _ l); [done|lia|]. intros x.
    apply (wp_ucon_put _ _ l); [done|lia|]. apply wp_bind, wp_modify, wp_ret, log_end.
    specialize (Hput (aset l j x) (length_aset l j x)). unfold ucons_upd in Hput.
    rewrite length_aset, Hl in Hput. by destruct s.
  - intros _. apply wp_bind, wp_modify, wp_ret, log_end. specialize (Hput l eq_refl).
    unfold ucons_upd in Hput. rewrite <- El, Hl in Hput. by destruct s.
Qed.

(** ** Reopening *)

Lemma wp_abort_hook h s : log_ok MxFree s → wp (mlog_abort_hook h) (λ _, log_ok MxFree) s.
Proof.
  intros Hs. pose proof (lo_tag _ _ Hs) as (t&sz&Et&_). unfold mlog_abort_hook.
  apply wp_bind, wp_gets. rewrite Et. apply wp_bind, wp_lock; [apply Hs|].
  apply wp_bind, wp_gets, wp_bind, wp_modify. apply log_end.
  destruct Hs as [H1 [] H3 H4 H5 H6]. by split; [|split|..].
Qed.

Lemma wp_reopen_ucon s : log_ok MxHeld s → wp (reopen_ucon os) (λ _, log_ok MxHeld) s.
Proof using Hos.
  intros Hs. pose proof Hs as [H1 H2 H3 [H4 H4'] H5 H6]. unfold reopen_ucon.
  apply wp_bind, wp_gets. unfold id. apply wp_when; [|done]. intros Hu. rewrite Hu in H4.
  symmetry in H4. pose proof (proj1 (Z.leb_le _ _) H4) as Hsock.
  destruct H2 as [Hh Hf Hm Hl Hfds H2 Hb]. apply wp_bind, wp_when; [|congruence]. intros _.
  apply wp_close. apply wp_bind, wp_new_fd; [apply Hos|..].
  - apply wp_bind, wp_modify. apply wp_when; [|done]. intros _. apply wp_modify.
    destruct (has_flags (oflags s)) as (_&_&Ha&Hb'&_). split; try done.
    + split; simpl; try done; [|lia].
      rewrite Hfds, close_udp by done. by rewrite (fd_set_none (-1)), union_empty_r_L.
    + split; simpl; [by rewrite Ha|by rewrite Hb'].
  - intros fd Hfd Hn. apply wp_bind, wp_modify. apply wp_when; [intros E; apply Z.eqb_eq in E; lia|]. intros _.
    simpl in Hn. rewrite Hfds, close_udp in Hn by done. split; try done.
    + split; simpl; try done.
      * by rewrite Hfds, close_udp, (fd_set_in fd), (union_comm_L {[fd]}).
      * intros Hlf <-. apply Hn. rewrite fd_set_in by done. by apply elem_of_singleton.
    + split; simpl; [|done]. rewrite Hu. by destruct (Z.leb_spec 0 fd); [|lia].
Qed.

Lemma digits_plain fuel n acc : 0 ≤ n → 91 ∉ acc → 91 ∉ digits fuel n acc.
Proof.
  revert n acc. induction fuel as [|fuel IH]; intros n acc Hn Ha; simpl; [done|].
  assert (91 ∉ (48 + n mod 10) :: acc) as Hc.
  { apply not_elem_of_cons. split; [|done]. pose proof (Z.mod_pos_bound n 10). lia. }
  destruct (n <? 10); [done|]. apply IH; [apply Z.div_pos; lia|done].
Qed.

Lemma pid_text_bracket pid : ∃ r, pid_text pid = 91 :: r ∧ 91 ∉ r.
Proof.
  exists (dec pid ++ [93]). split; [done|]. rewrite elem_of_app. intros [H|H].
  - revert H. unfold dec. destruct (Z.ltb_spec pid 0).
    + apply not_elem_of_cons. split; [done|]. apply digits_plain; [lia|apply not_elem_of_nil].
    + apply digits_plain; [lia|apply not_elem_of_nil].
  - apply list_elem_of_singleton in H. lia.
Qed.

(** A text that ends in the process id. *)
Lemma strrchr_pid (t : str) n pid : strrchr (t ++ take (S n) (pid_text pid)) 91 = Some (length t).
Proof.
  destruct (pid_text_bracket pid) as (r&->&Hr). cbn [take]. apply strrchr_app.
  intros H. apply Hr. rewrite <- (take_drop n r). apply elem_of_app. by left.
Qed.

Lemma log_set_tag mx s t size :
  log_ok mx s → (∀ i, strrchr t 91 = Some i → Z.of_nat i + 16 ≤ size) →
  log_ok mx (s <| tag := Some (t, size) |>).
Proof.
  intros [H1 [] H3 H4 H5 H6] Ht. split; try done. exists t, size. by split.
Qed.

Lemma wp_reopen_pid s : log_ok MxHeld s → wp (reopen_pid os) (λ _, log_ok MxHeld) s.
Proof.
  intros Hs. pose proof (lo_tag _ _ Hs) as (t&sz&Et&Hroom). unfold reopen_pid.
  apply wp_bind, wp_gets. unfold id. rewrite Et. destruct (strrchr t 91) as [i|] eqn:E; [|by apply wp_ret].
  specialize (Hroom i eq_refl). apply strrchr_last in E as [E _]. apply lookup_lt_Some in E.
  apply wp_when; [|done]. intros _. apply wp_bind, wp_sys. cbv zeta.
  set (new := take 15 (pid_text _)). assert (length new ≤ 15)%nat by (subst new; rewrite length_take; lia).
  destruct (Z.leb_spec (Z.of_nat (i + length new) + 1) sz); [|lia]. apply wp_modify.
  apply log_set_tag; [by apply log_nsys|]. intros j. subst new. rewrite strrchr_pid, length_take.
  intros [= <-]. lia.
Qed.

Lemma wp_reopen_name lf s :
  log_ok MxHeld s → logfd s = -1 →
  wp (reopen_name os lf) (λ _ s', log_ok MxHeld s' ∧ logfd s' = -1) s.
Proof.
  intros Hs Hfd. pose proof Hs as [H1 H2 H3 H4 H5 H6]. pose proof (core_heap 1 s H2).
  destruct H2 as [Hh Hf Hm Hl Hfds H2 Hb]. unfold reopen_name. apply wp_bind, wp_gets.
  destruct lf as [f|].
  - destruct (_ && _); [|by apply wp_ret]. apply wp_bind, wp_alloc. intros [|]; simpl.
    + apply wp_bind.
      assert (∀ h (Q : unit → mlog_state → Prop), h = heap s + 1 - held (logfile s) →
        Q tt (s <| nsys ::= S |> <| heap := h |>) →
        wp (match logfile s with Some _ => free_block | None => retM tt end) Q
          (s <| nsys ::= S |> <| heap ::= Z.succ |>)) as Hfree.
      { intros h Q -> HQ. destruct (logfile s); simpl in *.
        - apply wp_free; [simpl; lia|]. replace (heap s + 1 - 1) with (Z.pred (Z.succ (heap s))) in HQ by lia. by destruct s.
        - apply wp_ret. replace (heap s + 1 - 0) with (Z.succ (heap s)) in HQ by lia. by destruct s. }
      eapply Hfree; [reflexivity|]. apply wp_bind, wp_modify, wp_ret. split; [|done].
      split; try done. split; simpl; try done. lia.
    + apply wp_bind, wp_send, wp_ret. split; [|done]. pose proof (log_sent _ _ (.++ [ODiag]) (log_nsys _ _ S Hs)).
      by destruct s.
  - apply wp_bind. destruct (logfile s) eqn:E; [|by apply wp_ret, wp_ret].
    apply wp_bind, wp_free; [simpl in *; lia|]. apply wp_modify, wp_ret. split; [|done].
    split; try done. split; simpl in *; try done; lia.
Qed.

Lemma wp_reopen lf s : log_ok MxFree s → wp (mlog_reopen os lf) (λ _, log_ok MxFree) s.
Proof using Hos.
  intros Hs. pose proof (lo_tag _ _ Hs) as (t&sz&Et&_). unfold mlog_reopen.
  apply wp_bind, wp_gets. rewrite Et. apply wp_bind, wp_lock; [apply Hs|].
  apply wp_bind. eapply wp_mono; [by apply wp_reopen_ucon; eapply log_mux|]. clear dependent s. intros [] s Hs.
  apply wp_bind. eapply wp_mono; [by apply wp_reopen_pid|]. clear dependent s. intros [] s Hs.
  apply wp_bind, wp_gets.
  assert (log_ok MxHeld (s <| fds := fd_set (udpsock s) |> <| logfd := -1 |>)) as Hs1.
  { destruct Hs as [H1 [] H3 H4 H5 H6]. split; try done. split; simpl; try done; try lia.
    by rewrite (fd_set_none (-1)), union_empty_l_L. }
  apply wp_bind.
  assert (∀ Q : unit → mlog_state → Prop, Q tt (s <| fds := fd_set (udpsock s) |>) →
    wp (whenM (0 <=? logfd s) (close (logfd s))) Q s) as Hclose.
  { intros Q HQ. pose proof (lo_core _ _ Hs) as []. apply wp_when; intros E.
    - apply Z.leb_le in E. apply wp_close. rewrite <- (close_log (logfd s) (udpsock s)), <- co_fds0 in HQ by auto.
      by destruct s.
    - apply Z.leb_gt in E. rewrite <- (union_empty_l_L (fd_set (udpsock s))), <- (fd_set_none (logfd s)), <- co_fds0 in HQ by done.
      by destruct s. }
  apply Hclose. apply wp_bind, wp_modify. apply wp_bind.
  eapply wp_mono; [by apply wp_reopen_name|]. clear dependent s. intros ok s [Hs Hfd]. apply wp_bind.
  destruct ok; simpl; [|by apply wp_ret, log_end].
  apply wp_bind, wp_gets. destruct (logfile s) as [f|] eqn:El; [|by apply wp_ret, log_end].
  pose proof Hs as [H1 [Hh Hf Hm Hl Hfds H2 Hb] H3 H4 H5 H6].
  rewrite Hfd, (fd_set_none (-1)), union_empty_l_L in Hfds by done.
  apply wp_bind, wp_new_fd; [intros n o; apply (oo_open _ Hos)|..].
  - apply wp_bind, wp_modify, wp_bind, wp_send, wp_ret, log_end. split; try done. split; simpl; try done; try lia.
    by rewrite (fd_set_none (-1)), union_empty_l_L.
  - intros fd Hp Hn. apply wp_bind, wp_modify. destruct (Z.ltb_spec fd 0); [lia|]. apply wp_ret, log_end.
    split; try done. split; simpl; try done.
    + by rewrite Hfds, (fd_set_in fd).
    + intros _ ->. apply Hn. rewrite Hfds, fd_set_in by done. by apply elem_of_singleton.
Qed.

(** ** Closing and opening *)

Lemma wp_free_all l : ∀ s Q,
  names_blocks l ≤ heap s → Q tt (heap_upd s (- names_blocks l) (nsys s)) → wp (forM l free_names) Q s.
Proof.
  induction l as [|f l IH]; intros s Q Hh HQ; cbn [forM names_blocks foldr] in *.
  - apply wp_ret. unfold heap_upd in HQ. destruct s; simpl in *. by rewrite Z.add_0_r in HQ.
  - fold (names_blocks l) in *. pose proof (names_blocks_pos l).
    apply wp_bind, wp_free_names; [lia|]. apply IH; [simpl; lia|].
    unfold heap_upd in *. destruct s; simpl in *. by replace (heap + - fac_blocks f + - names_blocks l)
      with (heap + - (fac_blocks f + names_blocks l)) by lia.
Qed.

(** What remains after [mlog_cleanout]. *)
Definition cleaned (s s' : mlog_state) : Prop :=
  tag s' = tag s ∧ mlog_facs s' = None ∧ fac_cnt s' = 0 ∧ heap s' = 0 ∧ fds s' = ∅ ∧ syslog_open s' = false.

(** The log file is closed and the name freed. *)
Lemma wp_drop_logfile s (Q : unit → mlog_state → Prop) :
  core_ok 0 s →
  (∀ h fd X, core_ok 0 (s <| logfile := None |> <| logfd := fd |> <| heap := h |> <| fds := X |>) →
     fd < 0 → Q tt (s <| logfile := None |> <| logfd := fd |> <| heap := h |> <| fds := X |>)) →
  wp (match logfile s with
      | None => retM tt
      | Some _ =>
          whenM (0 <=? logfd s) (close (logfd s)) ;;; modify (λ s, s <| logfd := -1 |>) ;;;
          free_block ;;; modify (λ s, s <| logfile := None |>)
      end) Q s.
Proof.
  intros Hc HQ. pose proof (core_heap 0 s Hc). destruct Hc as [Hh Hf Hm Hl Hfds H2 Hb].
  destruct (logfile s) as [f|] eqn:E.
  - apply wp_bind.
    assert (∀ Q' : unit → mlog_state → Prop, Q' tt (s <| fds := fd_set (udpsock s) |>) →
      wp (whenM (0 <=? logfd s) (close (logfd s))) Q' s) as Hclose.
    { intros Q' HQ'. apply wp_when; intros E'.
      - apply Z.leb_le in E'. apply wp_close. rewrite <- (close_log (logfd s) (udpsock s)), <- Hfds in HQ' by auto.
        by destruct s.
      - apply Z.leb_gt in E'. rewrite <- (union_empty_l_L (fd_set (udpsock s))), <- (fd_set_none (logfd s)), <- Hfds in HQ' by done.
        by destruct s. }
    apply Hclose. apply wp_bind, wp_modify, wp_bind, wp_free; [simpl in *; pose proof (held_pos (mb s)); pose proof (held_pos (ucons s)); pose proof (facs_blocks_pos (mlog_facs s)); lia|]. apply wp_modify.
    specialize (HQ (Z.pred (heap s)) (-1) (fd_set (udpsock s))). destruct s; simpl in *. apply HQ; [|done].
    split; simpl; try done; try lia. by rewrite (fd_set_none (-1)), union_empty_l_L.
  - apply wp_ret. assert (logfd s < 0) as Hneg.
    { destruct (Z_lt_le_dec (logfd s) 0) as [|Hp]; [done|]. by destruct (Hl Hp). }
    specialize (HQ (heap s) (logfd s) (fds s)). destruct s; simpl in *. subst. apply HQ; [|done].
    by split.
Qed.

Lemma wp_drop_facs s (Q : unit → mlog_state → Prop) :
  core_ok 0 s →
  (∀ h, core_ok 0 (s <| mlog_facs := None |> <| fac_cnt := 0 |> <| fac_alloc := 0 |> <| heap := h |>) →
     Q tt (s <| mlog_facs := None |> <| fac_cnt := 0 |> <| fac_alloc := 0 |> <| heap := h |>)) →
  wp (match mlog_facs s with
      | None => retM tt
      | Some fs =>
          whenM (Z.of_nat (length fs) <? fac_alloc s) (crash OutOfBounds) ;;;
          forM (take (Z.to_nat (fac_alloc s)) fs) free_names ;;; free_block ;;;
          modify (λ s, s <| mlog_facs := None |> <| fac_cnt := 0 |> <| fac_alloc := 0 |>)
      end) Q s.
Proof.
  intros Hc HQ. pose proof (core_heap 0 s Hc). destruct Hc as [Hh Hf Hm Hl Hfds H2 Hb].
  destruct (mlog_facs s) as [fs|] eqn:E.
  - destruct Hf as [Hlen _ _ _ _]. apply wp_bind, wp_when; [intros E'; apply Z.ltb_lt in E'; lia|]. intros _.
    rewrite take_ge by lia. simpl in Hh. pose proof (held_pos (mb s)). pose proof (held_pos (ucons s)).
    pose proof (held_pos (logfile s)). apply wp_bind, wp_free_all; [lia|].
    apply wp_bind, wp_free; [simpl; lia|]. apply wp_modify.
    specialize (HQ (Z.pred (heap s + - names_blocks fs))). unfold heap_upd. destruct s; simpl in *. apply HQ.
    split; simpl; try done; lia.
  - apply wp_ret. destruct Hf as [Hf1 Hf2]. specialize (HQ (heap s)). destruct s; simpl in *. subst. apply HQ.
    by split.
Qed.

Lemma wp_drop_mb s (Q : unit → mlog_state → Prop) :
  core_ok 0 s →
  (∀ h, core_ok 0 (s <| mb := None |> <| heap := h |>) → Q tt (s <| mb := None |> <| heap := h |>)) →
  wp (match mb s with None => retM tt | Some _ => free_block ;;; modify (λ s, s <| mb := None |>) end) Q s.
Proof.
  intros Hc HQ. destruct Hc as [Hh Hf Hm Hl Hfds H2 Hb]. destruct (mb s) as [m|] eqn:E.
  - simpl in Hh. pose proof (held_pos (logfile s)). pose proof (facs_blocks_pos (mlog_facs s)).
    pose proof (held_pos (ucons s)). apply wp_bind, wp_free; [lia|]. apply wp_modify.
    apply (HQ (Z.pred (heap s))). split; simpl; try done. lia.
  - apply wp_ret. specialize (HQ (heap s)). destruct s; simpl in *. subst. apply HQ. by split.
Qed.

Lemma wp_drop_udp s (Q : unit → mlog_state → Prop) :
  core_ok 0 s →
  (∀ u X, core_ok 0 (s <| udpsock := u |> <| fds := X |>) → u < 0 → Q tt (s <| udpsock := u |> <| fds := X |>)) →
  wp (whenM (0 <=? udpsock s) (close (udpsock s) ;;; modify (λ s, s <| udpsock := -1 |>))) Q s.
Proof.
  intros Hc HQ. destruct Hc as [Hh Hf Hm Hl Hfds H2 Hb]. apply wp_when; intros E.
  - apply Z.leb_le in E. apply wp_bind, wp_close, wp_modify. specialize (HQ (-1) (fds s ∖ {[udpsock s]})).
    destruct s; simpl in *. apply HQ; [|done]. split; simpl; try done; [|lia].
    by rewrite Hfds, close_udp, (fd_set_none (-1)), union_empty_r_L.
  - apply Z.leb_gt in E. specialize (HQ (udpsock s) (fds s)). destruct s; simpl in *. apply HQ; [|done]. by split.
Qed.

Lemma wp_drop_ucons s (Q : unit → mlog_state → Prop) :
  core_ok 0 s →
  (∀ h, core_ok 0 (s <| ucons := None |> <| heap := h |>) → Q tt (s <| ucons := None |> <| heap := h |>)) →
  wp (match ucons s with None => retM tt | Some _ => free_block ;;; modify (λ s, s <| ucons := None |>) end) Q s.
Proof.
  intros Hc HQ. destruct Hc as [Hh Hf Hm Hl Hfds H2 Hb]. destruct (ucons s) as [m|] eqn:E.
  - simpl in Hh. pose proof (held_pos (logfile s)). pose proof (facs_blocks_pos (mlog_facs s)).
    pose proof (held_pos (mb s)). apply wp_bind, wp_free; [lia|]. apply wp_modify.
    apply (HQ (Z.pred (heap s))). split; simpl; try done. lia.
  - apply wp_ret. specialize (HQ (heap s)). destruct s; simpl in *. subst. apply HQ. by split.
Qed.

(** The rest of the state. *)
Definition others (s : mlog_state) := (tag s, mlogmux s, oflags s, syslog_open s).

Lemma wp_cleanout s :
  core_ok 0 s → mlogmux s = MxFree → syslog_open s = has (oflags s) MLOG_SYSLOG →
  wp mlog_cleanout (λ _, cleaned s) s.
Proof.
  intros Hc Hmx Hsy. unfold mlog_cleanout. apply wp_bind, wp_lock; [done|].
  assert (core_ok 0 (s <| mlogmux := MxHeld |>)) as Hc0 by (by destruct Hc).
  assert (others (s <| mlogmux := MxHeld |>) = (tag s, MxHeld, oflags s, syslog_open s)) as Ho by done.
  generalize dependent (s <| mlogmux := MxHeld |>). intros s0 Hc0 Ho.
  apply wp_bind, wp_gets. unfold id. apply wp_bind.
  eapply (wp_mono _ (λ _ s1, core_ok 0 s1 ∧ others s1 = others s0 ∧ logfile s1 = None ∧ logfd s1 < 0)).
  { by apply wp_drop_logfile. }
  intros [] s1 (Hc1&Ho1&E1&E1'). apply wp_bind, wp_gets. unfold id. apply wp_bind.
  eapply (wp_mono _ (λ _ s2, core_ok 0 s2 ∧ others s2 = others s1 ∧ logfile s2 = None ∧ logfd s2 < 0 ∧
    mlog_facs s2 = None ∧ fac_cnt s2 = 0)).
  { by apply wp_drop_facs. }
  intros [] s2 (Hc2&Ho2&E2&E2'&Ef&En). apply wp_bind, wp_gets. unfold id. apply wp_bind.
  eapply (wp_mono _ (λ _ s3, core_ok 0 s3 ∧ others s3 = others s2 ∧ logfile s3 = None ∧ logfd s3 < 0 ∧
    mlog_facs s3 = None ∧ fac_cnt s3 = 0 ∧ mb s3 = None ∧ udpsock s3 = udpsock s2 ∧ ucons s3 = ucons s2)).
  { by apply wp_drop_mb. }
  intros [] s3 (Hc3&Ho3&E3&E3'&Ef3&En3&Em3&Eu&Ec). rewrite <- Eu, <- Ec.
  assert (oflags s2 = oflags s3) as -> by (unfold others in Ho3; by simplify_eq). apply wp_bind.
  eapply (wp_mono _ (λ _ s4, core_ok 0 s4 ∧ others s4 = others s3 ∧ logfile s4 = None ∧ logfd s4 < 0 ∧
    mlog_facs s4 = None ∧ fac_cnt s4 = 0 ∧ mb s4 = None ∧ udpsock s4 < 0 ∧ ucons s4 = ucons s3)).
  { by apply wp_drop_udp. }
  intros [] s4 (Hc4&Ho4&E4&E4'&Ef4&En4&Em4&Eu4&Ec4). rewrite <- Ec4. apply wp_bind.
  eapply (wp_mono _ (λ _ s5, core_ok 0 s5 ∧ others s5 = others s4 ∧ logfile s5 = None ∧ logfd s5 < 0 ∧
    mlog_facs s5 = None ∧ fac_cnt s5 = 0 ∧ mb s5 = None ∧ udpsock s5 < 0 ∧ ucons s5 = None)).
  { by apply wp_drop_ucons. }
  intros [] s5 ([Hh _ _ _ Hfds _ _]&Ho5&E5&E5'&Ef5&En5&Em5&Eu5&Ec5).
  rewrite E5, Ef5, Em5, Ec5 in Hh. simpl in Hh.
  rewrite (fd_set_none (logfd s5)), (fd_set_none (udpsock s5)), union_empty_l_L in Hfds by done.
  assert (others s5 = (tag s, MxHeld, oflags s, syslog_open s)) as Hall by congruence.
  assert (oflags s3 = oflags s5) as -> by (unfold others in *; congruence).
  unfold others in Hall. apply wp_bind, wp_when; intros Hsl.
  - apply wp_modify, wp_bind, wp_unlock; [simpl; congruence|]. apply wp_modify.
    unfold cleaned. simpl. split_and!; lia || congruence.
  - apply wp_bind, wp_unlock; [congruence|]. apply wp_modify. unfold cleaned. simpl. split_and!; lia || congruence.
Qed.

Lemma wp_close_log s : log_ok MxFree s → wp mlog_close (λ _, log_closed) s.
Proof.
  intros Hs. pose proof (lo_tag _ _ Hs) as (t&sz&Et&_). unfold mlog_close. apply wp_bind, wp_gets. rewrite Et.
  pose proof Hs as [H1 H2 H3 [H4 H4'] H5 H6]. pose proof (core_heap 1 s H2).
  apply wp_bind, wp_free; [lia|]. apply wp_bind, wp_modify.
  eapply wp_mono; [apply wp_cleanout; [|done|done]|].
  - destruct H2. split; simpl; try done. lia.
  - intros [] s' (Ht&Hf&Hn&Hh&Hd&Hy). by split.
Qed.

(** The log is being opened: everything but the tag and the consoles. *)
Record opening (s : mlog_state) : Prop := {
  op_mux : mlogmux s = MxHeld;
  op_core : core_ok 1 s;
  op_flags : flags_ok s;
  op_tag : tag s = None }.

Lemma opening_io s n o : opening s → opening (io_upd s n o).
Proof. intros [H1 [] H3 H4]. by split; [|split|..]. Qed.

Lemma wp_open_logfile a s :
  opening s → logfile s = None → logfd s = -1 → udpsock s = -1 →
  wp (open_logfile os a) (λ ok s', opening s' ∧ ucons s' = ucons s ∧ ucon_cnt s' = ucon_cnt s ∧
    ucon_nslots s' = ucon_nslots s ∧ udpsock s' = -1 ∧ syslog_open s' = syslog_open s ∧ mb s' = mb s) s.
Proof using Hos.
  intros [H1 [Hh Hf Hm Hl Hfds H2 Hb] H3 H4] Ef Ed Eu. unfold open_logfile.
  rewrite Ed, Eu, (fd_set_none (-1)), union_empty_l_L in Hfds by done. rewrite Ef in Hh. simpl in Hh.
  destruct (oa_logfile a) as [f|]; [|apply wp_ret; split_and!; try done; split; try done; split; try done;
    [by rewrite Ef|by rewrite Ed, Eu, (fd_set_none (-1)), union_empty_l_L]].
  apply wp_bind, wp_alloc. intros [|]; simpl.
  2: { apply wp_ret. split_and!; try done. split; try done. split; simpl; try done; [by rewrite Ef|].
       by rewrite Ed, Eu, (fd_set_none (-1)), union_empty_l_L. }
  apply wp_bind, wp_modify, wp_bind, wp_new_fd; [intros n o; apply (oo_open _ Hos)|..].
  - apply wp_bind, wp_modify, wp_bind, wp_send, wp_ret. split_and!; try done. split; try done.
    split; simpl; try done; [lia|]. by rewrite Eu, (fd_set_none (-1)), union_empty_l_L.
  - intros fd Hp Hn. apply wp_bind, wp_modify. destruct (Z.ltb_spec fd 0); [lia|]. apply wp_ret.
    split_and!; try done. split; try done. split; simpl; try done; [lia| |].
    + by rewrite Hfds, Eu, (fd_set_none (-1)), (fd_set_in fd).
    + rewrite Eu. lia.
Qed.

Lemma wp_open_facs a s :
  opening s → 0 ≤ oa_maxfac a < 2 ^ 31 → udpsock s = -1 → syslog_open s = false →
  wp (open_facs os a) (λ ok s', opening s' ∧ ucons s' = ucons s ∧ ucon_cnt s' = ucon_cnt s ∧
    ucon_nslots s' = ucon_nslots s ∧ udpsock s' = -1 ∧ syslog_open s' = false ∧ mb s' = mb s ∧
    has (oflags s') MLOG_UCON_ON = false ∧ (ok = true → 1 ≤ fac_cnt s')) s.
Proof.
  intros [H1 H2 H3 H4] Ha Eu Ey. unfold open_facs. apply wp_bind, wp_modify.
  destruct (has_flags (oa_flags a)) as (_&_&_&_&_&_&Hfu&Hfs). set (fl := Z.ldiff _ _) in *.
  assert (core_ok 1 (s <| oflags := fl |>)) as Hc by (by destruct H2).
  apply wp_bind. eapply wp_mono; [apply (wp_setnfac _ 1); [exact Hc|lia|]|].
  { destruct (Z.ltb_spec (oa_maxfac a) 1); lia. }
  intros r s' [[[-> ->]|(->&Hn&_&_&_&E)] Hc']; apply wp_ret.
  - split_and!; try done. split; try done. split; simpl; [by rewrite Hfu, Eu|by rewrite Hfs].
  - rewrite E in Hc' |- *. split_and!; try done.
    + split; try done. split; simpl; [by rewrite Hfu, Eu|by rewrite Hfs].
    + intros _. simpl. destruct (Z.ltb_spec (oa_maxfac a) 1); lia.
Qed.

Lemma wp_open_msgbuf a s :
  opening s → mb s = None → oa_msgbuf a = 0 ∨ 0 < oa_msgbuf a < 2 ^ 31 →
  wp (open_msgbuf os a) (λ ok s', opening s' ∧ ucons s' = ucons s ∧ ucon_cnt s' = ucon_cnt s ∧
    ucon_nslots s' = ucon_nslots s ∧ udpsock s' = udpsock s ∧ syslog_open s' = syslog_open s ∧
    oflags s' = oflags s ∧ fac_cnt s' = fac_cnt s) s.
Proof.
  intros Hs Em Ha. unfold open_msgbuf. destruct (Z.eqb_spec (oa_msgbuf a) 0); simpl; [by apply wp_ret|].
  apply wp_bind, wp_alloc. intros [|]; simpl.
  - apply wp_bind, wp_modify, wp_ret. destruct Hs as [H1 [] H3 H4]. split_and!; try done.
    split; try done. split; simpl; try done; [rewrite Em in co_heap0; simpl in *; lia|].
    intros m [= <-]. apply mbuf_new_wf. lia.
  - apply wp_bind, wp_ret, wp_ret. destruct Hs as [H1 [] H3 H4]. by split_and!.
Qed.

Lemma wp_open_udp a s :
  opening s → udpsock s = -1 →
  wp (open_udp os a) (λ ok s', opening s' ∧ ucons s' = ucons s ∧ ucon_cnt s' = ucon_cnt s ∧
    ucon_nslots s' = ucon_nslots s ∧ syslog_open s' = syslog_open s ∧
    fac_cnt s' = fac_cnt s) s.
Proof using Hos.
  intros Hs Eu. unfold open_udp. destruct (has (oa_flags a) MLOG_UCON_ON); [|by apply wp_ret].
  pose proof Hs as [H1 [Hh Hf Hm Hl Hfds H2 Hb] [H3 H3'] H4]. rewrite Eu in Hfds, H3.
  rewrite (fd_set_none (-1)), union_empty_r_L in Hfds by done.
  apply wp_bind, wp_new_fd; [intros n o; apply (oo_socket _ Hos)|..].
  - apply wp_bind, wp_modify, wp_ret. split_and!; try done. split; try done.
    split; simpl; try done; [|lia]. by rewrite (fd_set_none (-1)), union_empty_r_L.
  - intros fd Hp Hn. apply wp_bind, wp_modify. destruct (Z.ltb_spec fd 0); [lia|].
    apply wp_bind, wp_modify, wp_ret. destruct (has_flags (oflags s)) as (Ha&Hb'&_). split_and!; try done.
    split; try done.
    + split; simpl; try done.
      * by rewrite Hfds, (fd_set_in fd), (union_comm_L {[fd]}).
      * intros Hlf <-. apply Hn. rewrite Hfds, fd_set_in by done. by apply elem_of_singleton.
    + split; simpl; [rewrite Ha; by destruct (Z.leb_spec 0 fd); [|lia]|by rewrite Hb'].
Qed.

Lemma wp_open_ucons a s :
  opening s → ucons s = None → ucon_cnt s = 0 → ucon_nslots s = 0 →
  wp (open_ucons os a) (λ ok s', opening s' ∧ fac_cnt s' = fac_cnt s ∧ (ok = true → ucons_ok s')) s.
Proof.
  intros Hs Ec En Es. unfold open_ucons.
  assert (ucons_ok s) as Hu by (unfold ucons_ok; by rewrite Ec, En, Es).
  destruct (has (oa_flags a) MLOG_UCON_ENV); [|by apply wp_ret].
  apply wp_bind, wp_sys. destruct (os_getenv os (nsys s)) as [dcon|].
  2: { apply wp_ret. split_and!; try done. by destruct Hs as [H1 [] H3 H4]. }
  pose proof Hs as [H1 [Hh Hf Hm Hl Hfds H2 Hb] H3 H4]. rewrite Ec in Hh. simpl in Hh.
  apply wp_bind, wp_modify, wp_bind, wp_alloc. pose proof (count_if_bounds (λ c, c =? 59) dcon).
  set (cnt := 1 + count_if (λ c, c =? 59) dcon) in *. intros [|]; simpl.
  2: { apply wp_ret. split_and!; try done. split; try done. split; simpl; try done. by rewrite Ec. }
  apply wp_bind, wp_modify, wp_bind. unfold mlog_getucon.
  eapply wp_mono; [apply (wp_getucon_loop _ _ _ _ (replicate (Z.to_nat cnt) sin_zero))|];
    [lia|done|rewrite length_replicate; lia|lia|].
  intros r s' (Hr&l'&n&o&Hl'&->). rewrite length_replicate in Hl'. apply wp_bind, wp_modify, wp_ret.
  split_and!; try done.
  - split; try done. split; simpl; try done. lia.
  - intros _. split; simpl; [lia|]. rewrite Hl'. lia.
Qed.

(** All the steps: ready for the tag, or in a state [mlog_cleanout] accepts. *)
Lemma wp_open_steps a s :
  opening s → 0 ≤ oa_maxfac a < 2 ^ 31 → oa_msgbuf a = 0 ∨ 0 < oa_msgbuf a < 2 ^ 31 →
  logfile s = None → logfd s = -1 → udpsock s = -1 → syslog_open s = false → mb s = None →
  ucons s = None → ucon_cnt s = 0 → ucon_nslots s = 0 →
  wp (all_ok (open_steps os a)) (λ ok s', opening s' ∧
    (ok = true → ucons_ok s' ∧ 1 ≤ fac_cnt s')) s.
Proof using Hos.
  intros Hs Hfac Hbuf E1 E2 E3 E4 E5 E6 E7 E8. unfold open_steps. cbn [all_ok]. apply wp_bind.
  eapply wp_mono; [by apply wp_open_logfile|]. intros ok s1 (Hs1&A1&A2&A3&A4&A5&A6).
  destruct ok; [|by apply wp_ret]. apply wp_bind.
  eapply wp_mono; [apply wp_open_facs; try done; congruence|].
  intros ok s2 (Hs2&B1&B2&B3&B4&B5&B6&B7&B8). destruct ok; [|by apply wp_ret]. specialize (B8 eq_refl).
  apply wp_bind. eapply wp_mono; [apply wp_open_msgbuf; [done|congruence|done]|].
  intros ok s3 (Hs3&C1&C2&C3&C4&C5&C6&C7). destruct ok; [|by apply wp_ret].
  apply wp_bind. eapply wp_mono; [apply wp_open_udp; [done|congruence]|].
  intros ok s4 (Hs4&D1&D2&D3&D4&D5). destruct ok; [|by apply wp_ret].
  apply wp_bind. eapply wp_mono; [apply wp_open_ucons; [done|congruence..]|].
  intros ok s5 (Hs5&F1&F2). destruct ok; [|by apply wp_ret]. apply wp_ret.
  split; [done|]. intros _. split; [by apply F2|lia].
Qed.

Lemma wp_open_finish a newtag size s :
  opening s → ucons_ok s → 1 ≤ fac_cnt s → syslog_open s = has (oflags s) MLOG_SYSLOG →
  (∀ i, strrchr newtag 91 = Some i → Z.of_nat i + 16 ≤ size) →
  wp (open_finish os a newtag size) (λ _, log_ok MxFree) s.
Proof.
  intros [H1 H2 [H3 H3'] H4] Hu Hn Hy Ht. unfold open_finish.
  apply wp_bind, wp_sys, wp_bind, wp_sys, wp_bind, wp_sys, wp_bind, wp_modify.
  match goal with |- wp _ _ ?st =>
    assert (log_ok MxHeld (st <| tag := Some (newtag, size) |>)) as Hs
      by (destruct H2; split; try done; exists newtag, size; by split);
    generalize dependent st end.
  intros s1 Hs. apply wp_bind. destruct (has_flags (oflags s1)) as (_&_&_&_&Ha&Hb&_).
  pose proof Hs as [G1 G2 G3 [G4 G4'] G5 G6]. simpl in G1.
  apply wp_when; intros _; [apply wp_modify|]; apply wp_bind, wp_modify, wp_unlock; try done;
    apply (log_mux MxHeld); [|done].
  destruct G2. split; try done. split; simpl; [by rewrite Ha|by rewrite Hb].
Qed.

Lemma open_refused_false a :
  open_refused a false = false →
  is_Some (oa_tag a) ∧ 0 ≤ oa_maxfac a ∧ pri_mask (oa_defmask a) ∧ pri_mask (oa_stderr a) ∧
  (oa_msgbuf a = 0 ∨ 0 < oa_msgbuf a).
Proof.
  unfold open_refused. intros H. breflect; apply bool_decide_eq_true in H5; split_and!; try done; lia.
Qed.

Lemma newtag_room (t : str) (pid : option Z) :
  let size := Z.of_nat (length t) + MLOG_TAGPAD in
  let text := match pid with Some p => t ++ pid_text p | None => t end in
  ∀ i, strrchr (take (Z.to_nat (size - 1)) text) 91 = Some i → Z.of_nat i + 16 ≤ size.
Proof.
  cbv zeta. unfold MLOG_TAGPAD. intros i. destruct pid as [p|].
  - rewrite take_app, take_ge by lia.
    replace (Z.to_nat (Z.of_nat (length t) + 16 - 1) - length t)%nat with 15%nat by lia.
    rewrite strrchr_pid. intros [= <-]. lia.
  - rewrite take_ge by lia. intros [H _]%strrchr_last. apply lookup_lt_Some in H. lia.
Qed.

Lemma wp_open a s :
  mlog_wf s → oa_maxfac a < 2 ^ 31 → oa_msgbuf a < 2 ^ 31 →
  wp (mlog_open os a) (λ r s', (r = 0 ∧ log_ok MxFree s') ∨ (r = -1 ∧ (s' = s ∨ log_closed s'))) s.
Proof using Hos.
  intros Hs Hfac Hbuf. unfold mlog_open. apply wp_bind, wp_gets.
  destruct (open_refused _ _) eqn:Er; [apply wp_ret; right; by split; [|left]|].
  destruct Hs as [Hs|Hs].
  2: { exfalso. pose proof (lo_tag _ _ Hs) as (t&sz&Et&_). by rewrite Et in Er. }
  destruct Hs as [Et [Ef En] Eh Ed Ey]. rewrite Et in Er.
  rewrite bool_decide_false in Er by (by intros [? ?]).
  destruct (open_refused_false a Er) as (_&Hf0&Hdm&Hsm&Hb0). clear Er.
  apply (wp_mono _ (λ r s', (r = 0 ∧ log_ok MxFree s') ∨ (r = -1 ∧ log_closed s')));
    [|intros r s' [?|[? ?]]; [by left|right; by split; [|right]]].
  set (tagtext := default [] (oa_tag a)). apply wp_bind, wp_modify, wp_bind, wp_alloc.
  intros [|]; simpl; [|apply wp_ret; right; split; [done|]; by split].
  apply wp_bind, wp_sys. destruct (_ =? 0); simpl.
  2: { apply wp_bind, wp_free; [simpl; lia|]. apply wp_ret. right. split; [done|].
       split; simpl; try done. lia. }
  apply wp_bind, wp_modify, wp_bind, wp_lock; [done|]. apply wp_bind.
  set (size := Z.of_nat (length tagtext) + MLOG_TAGPAD).
  eapply (wp_mono _ (λ newtag s1, (∀ i, strrchr newtag 91 = Some i → Z.of_nat i + 16 ≤ size) ∧
    (opening (s1 <| def_mask := oa_defmask a |> <| stderr_mask := oa_stderr a |>) ∧
     logfile s1 = None ∧ logfd s1 = -1 ∧ udpsock s1 = -1 ∧ syslog_open s1 = false ∧ mb s1 = None ∧
     ucons s1 = None ∧ ucon_cnt s1 = 0 ∧ ucon_nslots s1 = 0))).
  { assert (fd_set (-1) = ∅) as Hfd by done.
    destruct (has (oa_flags a) MLOG_LOGPID); [apply wp_bind, wp_sys|]; apply wp_ret; split.
    - apply (newtag_room tagtext (Some _)).
    - split_and!; try done. split; try done. split; simpl; rewrite ?Ef, ?Ed, ?Hfd;
      first [done|lia|by rewrite union_empty_l_L|simpl; lia].
    - apply (newtag_room tagtext None).
    - split_and!; try done. split; try done. split; simpl; rewrite ?Ef, ?Ed, ?Hfd;
      first [done|lia|by rewrite union_empty_l_L|simpl; lia]. }
  clear dependent s. intros newtag s (Hroom&Hs&E1&E2&E3&E4&E5&E6&E7&E8).
  apply wp_bind, wp_modify.
  set (s0 := s <| def_mask := oa_defmask a |> <| stderr_mask := oa_stderr a |>) in *.
  apply wp_bind. eapply wp_mono; [apply wp_open_steps; try done; lia|].
  clear dependent s. intros ok s [Hs Hok]. destruct ok.
  - destruct (Hok eq_refl) as [Hu Hn]. pose proof (op_flags _ Hs) as [_ Hy].
    apply wp_bind. eapply wp_mono; [by apply wp_open_finish|]. intros [] s' Hs'. apply wp_ret. by left.
  - pose proof Hs as [G1 G2 [G3 G3'] G4]. pose proof (core_heap 1 s G2).
    apply wp_bind, wp_free; [lia|]. apply wp_bind, wp_unlock; [done|]. apply wp_bind.
    eapply wp_mono; [apply wp_cleanout|]; [|done|done|].
    + destruct G2. split; simpl; try done. lia.
    + intros [] s' (Ht&Hf&Hc&Hh&Hd&Hy). apply wp_ret. right. split; [done|].
      simpl in Ht. rewrite G4 in Ht. by split.
Qed.
End Ops.

(** ** Programs that log *)

Inductive mlog_call :=
  | CallOpen (a : open_args)
  | CallClose
  | CallReopen (lf : option str)
  | CallName (facility : Z) (sn ln : option str)
  | CallAllocFac (sn ln : option str)
  | CallSetMask (facility mask : Z)
  | CallSetMasks (mstr : str) (mlen0 : Z)
  | CallGetMasks (null : bool) (discard len : Z) (unterm : bool)
  | CallLog (minpriority flags : Z) (msg : str)
  | CallHook (h : option Z)
  | CallDmesg
  | CallUconOn
  | CallUconOff
  | CallUconAdd (host : str) (port : Z)
  | CallUconRm (host : str) (port : Z).

Definition ignore {A} (m : L A) : L unit := _ <- m;; retM tt.

Definition do_call (os : osys) (c : mlog_call) : L unit :=
  match c with
  | CallOpen a => ignore (mlog_open os a)
  | CallClose => mlog_close
  | CallReopen lf => ignore (mlog_reopen os lf)
  | CallName f sn ln => ignore (mlog_namefacility os f sn ln)
  | CallAllocFac sn ln => ignore (mlog_allocfacility os sn ln)
  | CallSetMask f m => ignore (mlog_setlogmask os f m)
  | CallSetMasks mstr mlen0 => mlog_setmasks os mstr mlen0
  | CallGetMasks null discard len unterm => ignore (mlog_getmasks null discard len unterm)
  | CallLog minpri flags msg => mlog os minpri flags msg
  | CallHook h => ignore (mlog_abort_hook h)
  | CallDmesg => ignore mlog_dmesg
  | CallUconOn => ignore (mlog_ucon_on os)
  | CallUconOff => ignore mlog_ucon_off
  | CallUconAdd host port => ignore (mlog_ucon_add os host port)
  | CallUconRm host port => ignore (mlog_ucon_rm os host port)
  end.

(** What the caller must keep to: [int] arguments, facility numbers that are not
    negative, and a text as long as announced. *)
Definition call_ok (s : mlog_state) (c : mlog_call) : Prop :=
  match c with
  | CallOpen a => oa_maxfac a < 2 ^ 31 ∧ oa_msgbuf a < 2 ^ 31
  | CallName f _ _ | CallSetMask f _ => 0 ≤ f < 2 ^ 31 - 1
  | CallAllocFac _ _ => fac_cnt s < 2 ^ 31 - 2
  | CallSetMasks mstr mlen0 => mlen0 ≤ Z.of_nat (length mstr)
  | _ => True
  end.

Inductive mlog_reach (os : osys) : mlog_state → Prop :=
  | reach_zero : mlog_reach os mlog_zero
  | reach_call s c s' :
      mlog_reach os s → call_ok s c → do_call os c s = Ok (tt, s') → mlog_reach os s'.

Lemma wp_ignore {A} (m : L A) (P : mlog_state → Prop) s : wp m (λ _, P) s → wp (ignore m) (λ _, P) s.
Proof. intros H. apply wp_bind. eapply wp_mono; [exact H|]. intros a s' H'. by apply wp_ret. Qed.

Lemma wp_closed_call os c s :
  log_closed s → (∀ a, c ≠ CallOpen a) → do_call os c s = Ok (tt, s).
Proof.
  intros [Et _ _ _ _] Hc. destruct c; cbn [do_call]; try (by destruct (Hc a));
    unfold ignore, mlog, mlog_filter, mlog_close, mlog_reopen, mlog_namefacility, mlog_allocfacility,
      mlog_setlogmask, mlog_setmasks, mlog_getmasks, mlog_abort_hook, mlog_dmesg, mlog_ucon_on, mlog_ucon_off,
      mlog_ucon_add, mlog_ucon_rm, bindM, gets, id, retM; rewrite ?Et; try done.
  destruct (_ <=? _); [by rewrite Et|done].
Qed.

Lemma wp_mlog os minpri flags msg s : log_ok MxFree s → wp (mlog os minpri flags msg) (λ _, log_ok MxFree) s.
Proof.
  intros Hs. destruct (Z_lt_le_dec (Z.land flags MLOG_PRIMASK) minpri) as [Hlt|Hle].
  - unfold mlog. destruct (Z.leb_spec minpri (Z.land flags MLOG_PRIMASK)); [lia|]. by apply wp_ret.
  - unfold wp. rewrite mlog_macro_eq by done. by apply wp_vmlog.
Qed.

Lemma wp_open_call os c s :
  os_ok os → log_ok MxFree s → call_ok s c → wp (do_call os c) (λ _, mlog_wf) s.
Proof.
  intros Hos Hs Hc.
  assert (∀ m : L unit, wp m (λ _, log_ok MxFree) s → wp m (λ _, mlog_wf) s) as Hw
    by (intros m Hm; eapply wp_mono; [exact Hm|]; intros u s' H; by right).
  destruct c; cbn [do_call call_ok] in *.
  - apply wp_ignore. eapply wp_mono; [apply wp_open; [done|by right|apply Hc..]|].
    intros r s' [[_ H]|[_ [->|H]]]; [by right|by right|by left].
  - eapply wp_mono; [by apply wp_close_log|]. intros u s' H. by left.
  - by apply Hw, wp_ignore, wp_reopen.
  - apply Hw, wp_ignore. eapply wp_mono; [by apply wp_namefacility|]. by intros r s' [_ H].
  - by apply Hw, wp_ignore, wp_allocfacility.
  - by apply Hw, wp_ignore, wp_setlogmask.
  - by apply Hw, wp_setmasks.
  - by apply Hw, wp_ignore, wp_getmasks.
  - by apply Hw, wp_mlog.
  - by apply Hw, wp_ignore, wp_abort_hook.
  - apply Hw, wp_ignore. unfold mlog_dmesg. apply wp_bind, wp_gets.
    destruct (tag (id s)), (mb (id s)); try by apply wp_ret.
    apply wp_bind, wp_lock; [apply Hs|]. apply wp_bind, wp_unlock; [done|]. apply wp_ret.
    by eapply log_mux, log_mux.
  - by apply Hw, wp_ignore, wp_ucon_on.
  - by apply Hw, wp_ignore, wp_ucon_off.
  - by apply Hw, wp_ignore, wp_ucon_add.
  - by apply Hw, wp_ignore, wp_ucon_rm.
Qed.

Lemma wp_call os c s : os_ok os → mlog_wf s → call_ok s c → wp (do_call os c) (λ _, mlog_wf) s.
Proof.
  intros Hos [Hs|Hs] Hc; [|by apply wp_open_call].
  assert ((∃ a, c = CallOpen a) ∨ ∀ a, c ≠ CallOpen a) as [(a&->)|Hno] by (destruct c; by eauto).
  - apply wp_ignore. eapply wp_mono; [apply wp_open; [done|by left|apply Hc..]|].
    intros r s' [[_ H]|[_ [->|H]]]; [by right|by left|by left].
  - eapply wp_eq; [by apply wp_closed_call|by left].
Qed.

Lemma reach_wf os s : os_ok os → mlog_reach os s → mlog_wf s.
Proof.
  intros Hos. induction 1 as [|s c s' _ IH Hc Hrun].
  - left. by split.
  - pose proof (wp_call os c s Hos IH Hc) as Hw. unfold wp in Hw. by rewrite Hrun in Hw.
Qed.

(** *** An operating system and a program *)
Definition demo_fd (o : gset Z) : Z := foldr Z.max (-1) (elements o) + 1.

Lemma demo_fd_ok o : 0 ≤ demo_fd o ∧ demo_fd o ∉ o.
Proof.
  unfold demo_fd. rewrite <- elem_of_elements. generalize (elements o). intros l.
  assert (-1 ≤ foldr Z.max (-1) l ∧ ∀ x, x ∈ l → x ≤ foldr Z.max (-1) l) as [H1 H2].
  { induction l as [|y l [IH1 IH2]]; simpl; [split; [lia|]; by intros x ?%elem_of_nil|].
    split; [lia|]. intros x [->|Hx]%elem_of_cons; [lia|]. apply IH2 in Hx. lia. }
  split; [lia|]. intros H%H2. lia.
Qed.

Definition demo_mos : osys :=
  Osys (λ _, true) (λ _ o _, demo_fd o) (λ _ o, demo_fd o) (λ _, 0) (λ _, None)
    (λ _, string_bytes "node7.cluster") (λ _, false) (λ _, 4711) (λ _, Tm 2024 1 31 12 0 59 7)
    (λ _, 16777343) (λ _ _, None).

Lemma demo_mos_ok : os_ok demo_mos.
Proof. split; intros; right; apply demo_fd_ok. Qed.

Definition MLOG_WARN : Z := 0x00300000.

(** Open with a message buffer, a log file and a facility of 2, log a warning. *)
Definition demo_open : open_args :=
  OpenArgs (Some (string_bytes "app")) 2 MLOG_WARN 0 (Some (string_bytes "log")) 64 MLOG_LOGPID.
Definition demo_calls : list mlog_call :=
  [CallOpen demo_open; CallName 1 (Some (string_bytes "NET")) (Some (string_bytes "NETWORK"));
   CallUconOn; CallUconAdd (string_bytes "127.0.0.1") 9000].

Fixpoint run_calls (os : osys) (l : list mlog_call) (s : mlog_state) : mlog_state :=
  match l with
  | [] => s
  | c :: l => match do_call os c s with Ok (_, s) => run_calls os l s | Crash _ => s end
  end.

Definition demo_log1 : mlog_state := Eval vm_compute in run_calls demo_mos (take 1 demo_calls) mlog_zero.
Definition demo_log2 : mlog_state := Eval vm_compute in run_calls demo_mos (take 2 demo_calls) mlog_zero.
Definition demo_log3 : mlog_state := Eval vm_compute in run_calls demo_mos (take 3 demo_calls) mlog_zero.
Definition demo_log : mlog_state := Eval vm_compute in run_calls demo_mos demo_calls mlog_zero.

Lemma demo_log_reach : mlog_reach demo_mos demo_log.
Proof.
  apply (reach_call _ demo_log3 (CallUconAdd (string_bytes "127.0.0.1") 9000)); [|done|by vm_compute].
  apply (reach_call _ demo_log2 CallUconOn); [|done|by vm_compute].
  apply (reach_call _ demo_log1 (CallName 1 (Some (string_bytes "NET")) (Some (string_bytes "NETWORK"))));
    [|cbn [call_ok]; lia|by vm_compute].
  apply (reach_call _ mlog_zero (CallOpen demo_open)); [apply reach_zero|by split|by vm_compute].
Qed.

(** ** Results *)

(** C17. The log's state is well-formed after any calls: whatever a program
    does from the start of the process, with any results of the operating
    system, the masks are priorities, the arrays have the sizes the counters
    say, the mutex is free and the memory and descriptors held are exactly those
    the state refers to; and the next call, whichever it is, returns (no access
    outside an array or the line's buffer, no use of freed memory or of a
    mutex in the wrong state) and keeps this so. *)
Theorem mlog_calls_ok (os : osys) (s : mlog_state) (c : mlog_call)
    (Hos : os_ok os) (Hr : mlog_reach os s) (Hc : call_ok s c) :
  mlog_wf s ∧ wp (do_call os c) (λ _, mlog_wf) s.
Proof.
  pose proof (reach_wf os s Hos Hr) as Hs. split; [done|]. by apply wp_call.
Qed.

Lemma mlog_calls_ok_witness :
  mlog_wf demo_log ∧ wp (do_call demo_mos (CallSetMask 70 MLOG_INFO)) (λ _, mlog_wf) demo_log.
Proof.
  apply (mlog_calls_ok demo_mos demo_log (CallSetMask 70 MLOG_INFO) demo_mos_ok demo_log_reach).
  cbn [call_ok]. lia.
Defined.

(** Nothing is leaked: from every state a program can reach, [mlog_close]
    returns and leaves no memory block, no descriptor and no connection to
    syslog behind, and an [mlog_open] that fails on a closed log, at whichever
    of its steps, leaves nothing behind either. *)
Theorem mlog_no_leak (os : osys) (s : mlog_state) (a : open_args)
    (Hos : os_ok os) (Hr : mlog_reach os s) (Ha : oa_maxfac a < 2 ^ 31 ∧ oa_msgbuf a < 2 ^ 31) :
  wp mlog_close (λ _, log_closed) s ∧
  (tag s = None → wp (mlog_open os a) (λ r s', r = 0 ∧ log_ok MxFree s' ∨ r = -1 ∧ log_closed s') s).
Proof.
  pose proof (reach_wf os s Hos Hr) as Hs. split.
  - destruct Hs as [Hs|Hs]; [|by apply wp_close_log]. unfold mlog_close. apply wp_bind, wp_gets.
    rewrite (lc_tag _ Hs). by apply wp_ret.
  - intros Et. destruct Ha as [Ha1 Ha2].
    assert (log_closed s) as Hcl by (destruct Hs as [Hs|Hs]; [done|]; destruct (lo_tag _ _ Hs) as (?&?&?&_); congruence).
    eapply wp_mono; [by apply wp_open|]. intros r s' [H|[-> [->|H]]]; [by left|by right|by right].
Qed.

(** The demo program's log, closed again. *)
Lemma mlog_no_leak_witness :
  wp mlog_close (λ _, log_closed) demo_log ∧
  (tag demo_log = None → wp (mlog_open demo_mos demo_open)
    (λ r s', r = 0 ∧ log_ok MxFree s' ∨ r = -1 ∧ log_closed s') demo_log).
Proof.
  apply (mlog_no_leak demo_mos demo_log demo_open demo_mos_ok demo_log_reach).
  split; reflexivity.
Defined.

(** C32. The filter that the [mlog] macro runs in line, without the lock, on
    unsigned numbers, is the filter of [vmlog]: in every reachable state, open
    or closed, the macro and the function do exactly the same for every
    message. *)
Theorem mlog_macro_exact (os : osys) (s : mlog_state) (flags : Z) (msg : str)
    (Hos : os_ok os) (Hr : mlog_reach os s) :
  mlog os 0 flags msg s = vmlog os flags msg s.
Proof.
  destruct (reach_wf os s Hos Hr) as [Hs|Hs].
  - destruct Hs as [Et _ _ _ _]. unfold mlog, mlog_filter, vmlog, bindM, gets, id, retM. rewrite Et.
    destruct (_ <=? _); [by rewrite Et|done].
  - apply mlog_macro_eq; [done|]. apply (pri_mask_range _ (land_pri flags)).
Qed.

Lemma mlog_macro_exact_witness :
  mlog demo_mos 0 (MLOG_WARN + 1) (string_bytes "lost peer") demo_log =
  vmlog demo_mos (MLOG_WARN + 1) (string_bytes "lost peer") demo_log.
Proof. apply (mlog_macro_exact demo_mos demo_log _ _ demo_mos_ok demo_log_reach). Defined.

(** C31. A message that passes its facility's mask is delivered everywhere the
    log was told to, as one line: header and text cut to 4095 bytes, ended by a
    newline, in the message buffer behind what was there, in the log file, at
    every console, and on stderr, stdout and syslog as the flags and the stderr
    mask ask, in this order; a message that does not pass changes nothing. *)
Theorem vmlog_delivers (os : osys) (s : mlog_state) (flags : Z) (msg t : str) (size : Z)
    (Hos : os_ok os) (Hr : mlog_reach os s) (Ht : tag s = Some (t, size)) :
  ∃ f, fac_get (msg_fac s flags) s = Ok (f, s) ∧
    let lvl := Z.land flags MLOG_PRIMASK in
    let pt1 := header_pt1 (os_time os (nsys s)) (nodename s) t in
    let h := pt1 ++ header_pt2 (fac_name (msg_fac s flags) f) lvl in
    let line := log_line h msg in
    let flags' := if to_stderr (stderr_mask s) lvl then Z.lor flags MLOG_STDERR else flags in
    (wanted (fac_mask f) lvl = false → vmlog os flags msg s = Ok (tt, s)) ∧
    (wanted (fac_mask f) lvl = true → Z.of_nat (length h) + 1 < MLOG_TBSIZ →
      ∃ s', vmlog os flags msg s = Ok (tt, s') ∧
        sent s' = sent s ++ locked_outputs s line ++ unlocked_outputs s flags' (length pt1) line ∧
        (∀ m, mb s = Some m → ∃ m', mb s' = Some m' ∧
           dmesg_bytes m' = last_n (Z.to_nat (mbh_len m)) (dmesg_bytes m ++ line)) ∧
        Z.of_nat (length line) < MLOG_TBSIZ ∧ last line = Some 10).
Proof.
  destruct (reach_wf os s Hos Hr) as [Hs|Hs]; [by rewrite (lc_tag _ Hs) in Ht|].
  pose proof Hs as [_ Hc _ _ Hn _].
  destruct (fac_get_eq 1 s (msg_fac s flags) Hc (msg_fac_range s flags Hn)) as (f&Hf&Hm&_).
  exists f. split; [done|]. cbv zeta. pose proof (vmlog_eq os flags msg s t size f Hs Ht Hf Hm) as Hv.
  split; intros Hw; rewrite Hw in Hv; [done|]. intros Hh. unfold log_effect in Hv.
  match type of Hv with context [MLOG_TBSIZ <=? ?n] => destruct (Z.leb_spec MLOG_TBSIZ n); [lia|] end.
  eexists. split; [exact Hv|]. set (line := log_line _ _).
  destruct (log_line_ok (header_pt1 (os_time os (nsys s)) (nodename s) t ++
    header_pt2 (fac_name (msg_fac s flags) f) (Z.land flags MLOG_PRIMASK)) msg) as [Hl1 Hl2].
  fold line in Hl1, Hl2. clearbody line. split_and!; [done| |unfold MLOG_TBSIZ in *; lia|done].
  intros m Em. exists (logged line m). pose proof (co_mb _ _ Hc m Em) as Hwf.
  split; [by simpl; rewrite Em|]. rewrite !dmesg_contents by (done || by apply logged_wf).
  by apply logged_contents.
Qed.

(** A warning of facility 1: mask, header, buffer of 64 bytes, file and console. *)
Lemma vmlog_delivers_witness :
  ∃ s', vmlog demo_mos (MLOG_WARN + 1) (string_bytes "lost peer") demo_log = Ok (tt, s') ∧
    sent s' =
      let line := string_bytes "2024/01/31-12:00:59.07 node7 app[4711] NET  WARN lost peer" ++ [10] in
      [OFile 0 line; OUdp 1 (Sin 2 10275 16777343) line].
Proof.
  destruct (vmlog_delivers demo_mos demo_log (MLOG_WARN + 1) (string_bytes "lost peer")
    (string_bytes "app[4711]") 19 demo_mos_ok demo_log_reach eq_refl) as (f&Hf&_&H).
  assert (f = Fac MLOG_WARN (Some (NHeap (string_bytes "NET"))) (Some (string_bytes "NETWORK"))) as ->
    by (vm_compute in Hf; vm_compute; congruence).
  destruct H as (s'&Hrun&Hsent&_); [reflexivity|reflexivity|].
  exists s'. split; [exact Hrun|]. rewrite Hsent. vm_compute. reflexivity.
Defined.
