(* ===== verification/MlogMasks.v ===== *)
(** * The log's masks as text

    [mlog_getmasks] prints the masks of the facilities, [mlog_setmasks] reads
    them back. *)

From S2P Require Import Prelude MlogBuf Mlog MlogSafe.

(** ** Levels *)

(** A mask that is a level or a set of debug channels, not both. *)
Definition canonical (m : Z) : bool :=
  (Z.land (Z.shiftr m MLOG_PRISHIFT) 7 =? 0) || (Z.land (Z.shiftr m MLOG_DPRISHIFT) 15 =? 0).

(** The printed level. *)
Definition level (m : Z) : str := level_text (mlog_pristr m).

Lemma pri_mask_cases m : pri_mask m → m ∈ ((λ k, k * 2 ^ 16) <$> seqZ 0 128).
Proof.
  intros Hm. pose proof (pri_mask_range m Hm) as Hr. apply list_elem_of_fmap. exists (m / 2 ^ 16).
  assert (m mod 2 ^ 16 = 0) as H0.
  { rewrite <- Z.land_ones by lia. rewrite <- (pri_mask_land m Hm), <- Z.land_assoc.
    change (Z.land MLOG_PRIMASK (Z.ones 16)) with 0. apply Z.land_0_r. }
  unfold MLOG_PRIMASK in Hr. pose proof (Z.div_mod m (2 ^ 16)). split; [lia|]. apply elem_of_seqZ.
  split; [apply Z.div_pos; lia|]. apply Z.div_lt_upper_bound; lia.
Qed.

(** What holds of the printed form of a canonical mask. *)
Definition level_ok (m : Z) : bool :=
  (mlog_str2pri (level m) =? m) && (Z.of_nat (length (level m)) <=? 5) &&
  bool_decide (strz (level m) = level m) && bool_decide (trim_end (level m ++ [10]) = level m) &&
  forallb (λ c, negb (c =? 44)) (level m).

Lemma canonical_level m : pri_mask m → canonical m = true → level_ok m = true.
Proof.
  intros Hm%pri_mask_cases Hc.
  assert (forallb (λ m, implb (canonical m) (level_ok m)) ((λ k, k * 2 ^ 16) <$> seqZ 0 128) = true) as H
    by (by vm_compute).
  rewrite forallb_forall in H. specialize (H m). rewrite Hc in H. apply H. by apply list_elem_of_In.
Qed.

(** ** Printing *)

(** The bytes [discard] to [discard + len - 1] of the text [c]. *)
Definition window (discard len : Z) (c : str) : str := take (Z.to_nat len) (drop (Z.to_nat discard) c).

(** The state of the printing after the text [c], to a buffer or not. *)
Definition printed (null : bool) (discard len : Z) (c : str) : bput :=
  let out := if null then [] else window discard len c in
  Bput out (Z.max 0 (discard - Z.of_nat (length c))) (len - Z.of_nat (length out)) (Z.of_nat (length c)).

Lemma bput_char_printed null discard len c x :
  0 ≤ discard → 0 ≤ len →
  bput_char null x (printed null discard len c) = printed null discard len (c ++ [x]).
Proof.
  intros Hd Hl. unfold bput_char, printed. cbn [bp_skip bp_resid bp_out bp_total]. rewrite length_app. cbn [length].
  assert (Z.of_nat (length (window discard len c)) = Z.max 0 (Z.min len (Z.of_nat (length c) - discard))) as Hw
    by (unfold window; rewrite length_take, length_drop; lia).
  destruct (Z.ltb_spec 0 (Z.max 0 (discard - Z.of_nat (length c)))) as [H1|H1].
  - assert (window discard len (c ++ [x]) = window discard len c) as ->.
    { unfold window. rewrite !drop_ge; [done|lia|rewrite length_app; cbn [length]; lia]. }
    destruct null; f_equal; lia.
  - destruct null; simpl.
    + rewrite andb_false_r. f_equal; lia.
    + rewrite andb_true_r. destruct (Z.ltb_spec 0 (len - Z.of_nat (length (window discard len c)))) as [H2|H2].
      * assert (window discard len (c ++ [x]) = window discard len c ++ [x]) as ->.
        { unfold window in *. rewrite drop_app_le by lia. rewrite take_app.
          f_equal. apply take_ge. rewrite length_drop in *. cbn [length]. lia. }
        rewrite length_app. cbn [length]. f_equal; lia.
      * assert (window discard len (c ++ [x]) = window discard len c) as ->.
        { unfold window in *. rewrite drop_app_le by lia. apply take_app_le. rewrite length_drop. lia. }
        f_equal; lia.
Qed.

Section Print.
Context (null : bool) (discard len : Z) (Hd : 0 ≤ discard) (Hl : 0 ≤ len).

Lemma bput_printed c s :
  mlog_bput null (Some s) (printed null discard len c) = printed null discard len (c ++ s).
Proof using Hd Hl.
  unfold mlog_bput. revert c. induction s as [|x s IH]; intros c; simpl; [by rewrite app_nil_r|].
  rewrite bput_char_printed by done. rewrite IH. by rewrite <- app_assoc.
Qed.

Lemma bput_chars_printed c s :
  foldl (λ b x, mlog_bput null (Some [x]) b) (printed null discard len c) s = printed null discard len (c ++ s).
Proof using Hd Hl.
  revert c. induction s as [|x s IH]; intros c; cbn [foldl]; [by rewrite app_nil_r|].
  rewrite bput_printed, IH. by rewrite <- app_assoc.
Qed.

(** The text of one facility, and of facilities [i], [i + 1], ... *)
Definition fac_entry (i : Z) (f : mlog_fac) : str := (fac_text i f).1 ++ [61] ++ (fac_text i f).2.

Fixpoint facs_text (i : Z) (l : list mlog_fac) : str :=
  match l with
  | [] => []
  | f :: l => (if i =? 0 then [] else [44]) ++ fac_entry i f ++ facs_text (i + 1) l
  end.

Lemma put_facs_printed l : ∀ i c,
  put_facs null l i (printed null discard len c) = printed null discard len (c ++ facs_text i l).
Proof using Hd Hl.
  induction l as [|f l IH]; intros i c; cbn [put_facs facs_text]; [by rewrite app_nil_r|].
  assert ((if negb (i =? 0) then mlog_bput null (Some [44]) (printed null discard len c)
           else printed null discard len c) =
    printed null discard len (c ++ if i =? 0 then [] else [44])) as ->
    by (destruct (i =? 0); simpl; [by rewrite app_nil_r|by apply bput_printed]).
  rewrite !bput_printed, bput_chars_printed, IH. unfold fac_entry. by rewrite <- !app_assoc.
Qed.
End Print.

(** The text of all masks. *)
Definition masks_text (use : list mlog_fac) (unterm : bool) : str :=
  facs_text 0 use ++ [10] ++ (if unterm then [] else [0]).

Lemma getmasks_eq null discard len unterm s fs :
  log_ok MxFree s → 0 ≤ discard → 0 ≤ len → mlog_facs s = Some fs →
  let text := masks_text (take (Z.to_nat (fac_cnt s)) fs) unterm in
  mlog_getmasks null discard len unterm s =
    Ok (if null then (Z.of_nat (length text), [])
        else (Z.of_nat (length (window discard len text)), window discard len text), s).
Proof.
  intros Hs Hd Hl Ef text. pose proof (lo_tag _ _ Hs) as (t&sz&Et&_). unfold mlog_getmasks. mgets. rewrite Et.
  mstep by (unfold mlog_lock; mgets; rewrite (lo_mux _ _ Hs); reflexivity).
  destruct (facs_in_use_eq MxHeld (s <| mlogmux := MxHeld |>)) as (fs'&E'&Hu&_); [by eapply log_mux|].
  simpl in E'. simplify_eq. mstep by exact Hu. cbn [fac_cnt upd].
  assert (Bput [] discard len 0 = printed null discard len []) as ->.
  { unfold printed, window. rewrite drop_nil, take_nil. destruct null; simpl; f_equal; lia. }
  rewrite put_facs_printed by done. rewrite app_nil_l.
  mstep by (unfold mlog_unlock; mgets; reflexivity).
  rewrite bput_printed by done.
  assert ((if unterm then printed null discard len (facs_text 0 (take (Z.to_nat (fac_cnt s)) fs) ++ [10])
    else mlog_bput null None (printed null discard len (facs_text 0 (take (Z.to_nat (fac_cnt s)) fs) ++ [10]))) =
    printed null discard len text) as Hp.
  { subst text. unfold masks_text. destruct unterm; simpl; [done|].
    change (mlog_bput null None) with (mlog_bput null (Some [0])). rewrite bput_printed by done.
    by rewrite <- app_assoc. }
  etrans; [by rewrite Hp|]. unfold retM, printed. cbn [bp_total bp_resid bp_out].
  pose proof (lo_mux _ _ Hs) as Hm. clear Hp Hu Hs. clearbody text. destruct s; simpl in *. subst.
  destruct null; [done|]. do 3 f_equal. lia.
Qed.

(** ** Reading *)

(** The name [mlog_getmasks] prints, which must not be a number. *)
Definition print_name (f : mlog_fac) : option str :=
  match fac_lname f with Some n => Some n | None => sname_str <$> fac_sname f end.

(** A name the reader can split off. *)
Definition name_ok (n : str) : bool :=
  forallb (λ c, negb (c =? 0) && negb (c =? 44) && negb (c =? 61)) n &&
  match n with c :: _ => negb (is_blank c) | [] => true end.

(** Each facility has such a name, which no facility before it has too. *)
Fixpoint names_ok (before l : list mlog_fac) : bool :=
  match l with
  | [] => true
  | f :: l =>
      match print_name f with
      | Some n => name_ok n && negb (existsb (fac_named n) before)
      | None => false
      end && names_ok (before ++ [f]) l
  end.

Lemma strcaseeq_refl n : strcaseeq n n = true.
Proof. unfold strcaseeq. by rewrite bool_decide_true. Qed.

Lemma print_name_named f n : print_name f = Some n → fac_named n f = true.
Proof.
  unfold print_name, fac_named. intros H. destruct (fac_lname f) as [l|].
  - simplify_eq. rewrite strcaseeq_refl. apply orb_true_r.
  - destruct (fac_sname f) as [x|]; simplify_eq/=. by rewrite strcaseeq_refl.
Qed.

Lemma fac_text_name i f n : print_name f = Some n → fac_text i f = (n, level (fac_mask f)).
Proof.
  unfold print_name, fac_text, level. intros H.
  destruct (fac_lname f) as [l|]; [by injection H as ->|].
  destruct (fac_sname f) as [x|]; [injection H as <-; reflexivity|discriminate].
Qed.

Lemma find_fac_first n before f l : ∀ i,
  existsb (fac_named n) before = false → fac_named n f = true →
  find_fac n (before ++ f :: l) i = Some (i + Z.of_nat (length before)).
Proof.
  induction before as [|g before IH]; intros i Hb Hf; cbn [find_fac app].
  - rewrite Hf. cbn [length]. f_equal. lia.
  - cbn [existsb] in Hb. apply orb_false_iff in Hb as [-> Hb]. rewrite IH by done. cbn [length]. f_equal. lia.
Qed.

Lemma split_at_app c a r : c ∉ a → split_at c (a ++ c :: r) = (a, Some r).
Proof.
  induction a as [|x a IH]; intros H; cbn [split_at app]; [by rewrite Z.eqb_refl|].
  apply not_elem_of_cons in H as [Hx H]. rewrite IH by done. by destruct (Z.eqb_spec x c); [subst|].
Qed.

Lemma split_at_none c a : c ∉ a → split_at c a = (a, None).
Proof.
  induction a as [|x a IH]; intros H; cbn [split_at]; [done|].
  apply not_elem_of_cons in H as [Hx H]. rewrite IH by done. by destruct (Z.eqb_spec x c); [subst|].
Qed.

Lemma forallb_not_elem (p : Z → bool) (c : Z) (l : str) : forallb p l = true → p c = false → c ∉ l.
Proof.
  intros H Hc Hin. rewrite forallb_forall in H. apply list_elem_of_In in Hin. specialize (H c Hin). congruence.
Qed.

Lemma name_ok_plain n : name_ok n = true → (44 ∉ n) ∧ (61 ∉ n).
Proof. intros H. apply andb_true_iff in H as [H _]. split; by eapply forallb_not_elem. Qed.

Section Read.
Context (os : osys).

(** [mlog_setlogmask] of a facility in use. *)
Lemma setlogmask_eq s fs i f m :
  log_ok MxFree s → mlog_facs s = Some fs → 0 ≤ i < fac_cnt s → aget fs i = Some f → pri_mask m →
  mlog_setlogmask os i m s =
    Ok (fac_mask f, s <| mlog_facs := Some (aset fs i (f <| fac_mask := m |>)) |>).
Proof.
  intros Hs Ef Hi Hg Hm. pose proof (lo_tag _ _ Hs) as (t&sz&Et&_). pose proof (lo_mux _ _ Hs) as Hmx.
  clear Hs. destruct s; simpl in *. subst.
  unfold mlog_setlogmask, mlog_lock, mlog_unlock, fac_get, fac_put, get_some, bindM, gets, modify, retM. simpl.
  destruct (Z.leb_spec fac_cnt i); [lia|]. simpl. rewrite Hg. simpl. rewrite Hg. by rewrite pri_mask_land.
Qed.

Lemma lock_unlock {A} (k : list mlog_fac → L A) s fs :
  log_ok MxFree s → mlog_facs s = Some fs →
  (mlog_lock ;;; use <- facs_in_use;; mlog_unlock ;;; k use) s = k (take (Z.to_nat (fac_cnt s)) fs) s.
Proof.
  intros Hs Ef. pose proof (lo_mux _ _ Hs) as Hmx.
  mstep by (unfold mlog_lock; mgets; rewrite Hmx; reflexivity).
  destruct (facs_in_use_eq MxHeld (s <| mlogmux := MxHeld |>)) as (fs'&E'&Hu&_); [by eapply log_mux|].
  simpl in E'. simplify_eq. mstep by exact Hu. mstep by (unfold mlog_unlock; mgets; reflexivity).
  cbn [fac_cnt upd]. f_equal. destruct s; simpl in *. by subst.
Qed.

(** One entry of the text sets the mask of its facility. *)
Lemma set_chunk_eq s fs before f l g n m (lst : bool) :
  log_ok MxFree s → mlog_facs s = Some fs → take (Z.to_nat (fac_cnt s)) fs = before ++ f :: l →
  print_name f = Some n → name_ok n = true → existsb (fac_named n) before = false →
  g = f <| fac_mask := m |> → pri_mask m → canonical m = true →
  set_chunk os (n ++ 61 :: level m ++ (if lst then [10] else [])) lst s =
    Ok (tt, s <| mlog_facs := Some (aset fs (Z.of_nat (length before)) g) |>).
Proof.
  intros Hs Ef Huse Hn Hok Hb -> Hm Hc. destruct (name_ok_plain n Hok) as [_ H61].
  pose proof (canonical_level m Hm Hc) as Hlev. unfold level_ok in Hlev. breflect.
  apply bool_decide_eq_true in H2. apply bool_decide_eq_true in H1.
  unfold set_chunk. rewrite split_at_app by done. cbv iota beta.
  assert ((if lst then trim_end (level m ++ (if lst then [10] else [])) else level m ++ (if lst then [10] else [])) =
    level m) as -> by (destruct lst; [done|by rewrite app_nil_r]).
  destruct (Z.ltb_spec 5 (Z.of_nat (length (level m)))); [lia|]. cbv zeta. rewrite H2, H.
  pose proof (pri_mask_range m Hm). destruct (Z.eqb_spec m (-1)); [lia|].
  rewrite (lock_unlock _ s fs) by done. rewrite Huse, (find_fac_first n before f l 0 Hb (print_name_named f n Hn)), Z.add_0_l.
  assert (fs !! length before = Some f) as Hl.
  { rewrite <- (take_drop (Z.to_nat (fac_cnt s)) fs), Huse, <- app_assoc. by apply list_lookup_middle. }
  assert (length before < Z.to_nat (fac_cnt s))%nat.
  { pose proof (f_equal length Huse) as Hlen. rewrite length_take, length_app in Hlen. cbn [length] in Hlen. lia. }
  mstep by (apply (setlogmask_eq s fs _ f m); [done|done|lia|by rewrite aget_nat|done]). done.
Qed.

Lemma log_ok_set_mask s fs i f m :
  log_ok MxFree s → mlog_facs s = Some fs → 0 ≤ i < fac_cnt s → aget fs i = Some f → pri_mask m →
  log_ok MxFree (s <| mlog_facs := Some (aset fs i (f <| fac_mask := m |>)) |>).
Proof using os.
  intros Hs Ef Hi Hg Hm. pose proof (core_cnt 1 s (lo_core _ _ Hs)).
  pose proof (wp_setlogmask os i m s Hs ltac:(lia)) as Hw. unfold wp in Hw.
  by rewrite (setlogmask_eq s fs i f m) in Hw.
Qed.

(** The text without the first comma. *)
Definition rest_text (i : Z) (l : list mlog_fac) : str :=
  match l with [] => [] | f :: l => fac_entry i f ++ facs_text (i + 1) l end.

Lemma facs_text_rest i l : 0 < i → l ≠ [] → facs_text i l = 44 :: rest_text i l.
Proof. intros Hi Hl. destruct l; [done|]. cbn [facs_text rest_text]. by destruct (Z.eqb_spec i 0); [lia|]. Qed.

Lemma entry_plain i f n m :
  print_name f = Some n → fac_mask f = m → name_ok n = true → pri_mask m → canonical m = true →
  fac_entry i f = n ++ 61 :: level m ∧ 44 ∉ fac_entry i f.
Proof.
  intros Hn <- Hok Hm Hc. unfold fac_entry. rewrite (fac_text_name i f n Hn). cbn [fst snd].
  split; [done|]. destruct (name_ok_plain n Hok) as [H44 _].
  pose proof (canonical_level _ Hm Hc) as Hlev. unfold level_ok in Hlev. apply andb_true_iff in Hlev as [_ Hl].
  assert (44 ∉ level (fac_mask f)) by (by eapply forallb_not_elem).
  rewrite !not_elem_of_app. split_and!; [done| |done]. by intros ?%list_elem_of_singleton.
Qed.

Definition fac_names (f : mlog_fac) := (fac_sname f, fac_lname f).

(** A facility in the state and the one printed, equal but for the mask. *)
Lemma same_names f g : fac_names f = fac_names g →
  print_name f = print_name g ∧ f <| fac_mask := fac_mask g |> = g.
Proof. destruct f, g. unfold fac_names, print_name. simpl. intros [= -> ->]. done. Qed.

(** The reading, entry by entry: the facilities before the current one are
    those printed, the rest still those of [fs]. *)
Lemma setmasks_loop_eq l : ∀ fuel s before fs,
  log_ok MxFree s → l ≠ [] → mlog_facs s = Some (before ++ fs) →
  Z.to_nat (fac_cnt s) = length (before ++ l) → (length l ≤ length fs)%nat →
  fac_names <$> take (length l) fs = fac_names <$> l →
  names_ok before l = true → Forall (λ f, pri_mask (fac_mask f) ∧ canonical (fac_mask f) = true) l →
  (length l ≤ fuel)%nat →
  setmasks_loop os fuel (rest_text (Z.of_nat (length before)) l ++ [10]) s =
    Ok (tt, s <| mlog_facs := Some (before ++ l ++ drop (length l) fs) |>).
Proof.
  induction l as [|f l IH]; intros fuel s before fs Hs Hne Ef Hcnt Hlen Hnames Hok Hmask Hfuel; [done|].
  destruct fuel as [|fuel]; [cbn [length] in Hfuel; lia|]. destruct fs as [|f' fs]; [cbn [length] in Hlen; lia|].
  cbn [length take] in *. rewrite !fmap_cons in Hnames. injection Hnames as Hn1 Hn2 Hnames.
  destruct (same_names f' f) as [Hpn Hupd]; [by unfold fac_names; f_equal|].
  cbn [names_ok] in Hok. apply andb_true_iff in Hok as [Hn Hok]. apply Forall_cons in Hmask as [[Hm Hc] Hmask].
  destruct (print_name f) as [n|] eqn:En; [|done]. apply andb_true_iff in Hn as [Hnok Hbefore].
  apply negb_true_iff in Hbefore.
  destruct (entry_plain (Z.of_nat (length before)) f n _ En eq_refl Hnok Hm Hc) as [He H44].
  rewrite length_app in Hcnt. cbn [length] in Hcnt.
  assert (take (Z.to_nat (fac_cnt s)) (before ++ f' :: fs) = before ++ f' :: take (length l) fs) as Huse.
  { rewrite Hcnt, take_app_add. done. }
  assert (aset (before ++ f' :: fs) (Z.of_nat (length before)) f = before ++ f :: fs) as Hset.
  { unfold aset. by rewrite Nat2Z.id, insert_app_r_alt, Nat.sub_diag by lia. }
  pose proof (λ lst, set_chunk_eq s _ before f' _ f n (fac_mask f) lst Hs Ef Huse Hpn Hnok Hbefore
    (eq_sym Hupd) Hm Hc) as Hchunk. rewrite Hset in Hchunk.
  assert (0 ≤ Z.of_nat (length before) < fac_cnt s) as Hi by lia.
  assert (aget (before ++ f' :: fs) (Z.of_nat (length before)) = Some f') as Hg
    by (rewrite aget_nat; by apply list_lookup_middle).
  pose proof (log_ok_set_mask s _ _ f' (fac_mask f) Hs Ef Hi Hg Hm) as Hs'. rewrite Hupd, Hset in Hs'.
  cbn [setmasks_loop rest_text drop]. destruct (decide (l = [])) as [->|Hl].
  - cbn [facs_text app]. rewrite app_nil_r, split_at_none
      by (rewrite not_elem_of_app; split; [done|]; by rewrite list_elem_of_singleton).
    rewrite He. specialize (Hchunk true). rewrite <- app_assoc.
    destruct (n ++ (61 :: level (fac_mask f)) ++ [10]) as [|c r] eqn:E; [by destruct n|]. rewrite <- E.
    mstep by exact Hchunk. done.
  - rewrite facs_text_rest by (done || lia). rewrite <- app_assoc. cbn [app].
    rewrite split_at_app by done. rewrite He. specialize (Hchunk false). rewrite app_nil_r in Hchunk.
    destruct (n ++ 61 :: level (fac_mask f)) as [|c r] eqn:E; [by destruct n|]. mstep by exact Hchunk.
    replace (Z.of_nat (length before) + 1) with (Z.of_nat (length (before ++ [f])))
      by (rewrite length_app; cbn [length]; lia).
    rewrite (IH fuel _ (before ++ [f]) fs); try done; try lia.
    + rewrite <- !app_assoc. by destruct s.
    + simpl. by rewrite <- app_assoc.
    + simpl. rewrite Hcnt, !length_app. cbn [length]. lia.
Qed.
End Read.

Lemma reach_open os s fs : os_ok os → mlog_reach os s → mlog_facs s = Some fs → log_ok MxFree s.
Proof.
  intros Hos Hr Ef. destruct (reach_wf os s Hos Hr) as [Hs|Hs]; [|done].
  destruct (lc_facs _ Hs) as [E _]. congruence.
Qed.

Lemma skip_blank_entry n (r : str) : name_ok n = true → skip_blank (n ++ 61 :: r) = n ++ 61 :: r.
Proof.
  intros H. apply andb_true_iff in H as [_ H]. destruct n as [|c n]; [done|]. cbn [skip_blank app].
  by destruct (is_blank c).
Qed.

Lemma length_rest_text i l : (length l ≤ length (rest_text i l))%nat.
Proof.
  assert (∀ l i, length l ≤ length (facs_text i l))%nat as H.
  { clear. induction l as [|f l IH]; intros i; cbn [facs_text length]; [lia|]. specialize (IH (i + 1)).
    unfold fac_entry. rewrite !length_app. cbn [length]. lia. }
  destruct l as [|f l]; cbn [rest_text length]; [lia|]. specialize (H l (i + 1)).
  unfold fac_entry. rewrite !length_app. cbn [length]. lia.
Qed.

(** C33. The masks survive printing and reading: the text [mlog_getmasks]
    prints for a log whose facilities all have names (without the characters
    that separate the entries, and no name a second time) and whose masks are
    each a level or a set of debug channels, given to [mlog_setmasks] on a log
    with the same facilities and any masks, sets every mask to what it was when
    printed and changes nothing else. *)
Theorem masks_roundtrip (os : osys) (s s' : mlog_state) (fs fs' : list mlog_fac) (len : Z)
    (Hos : os_ok os) (Hr : mlog_reach os s) (Hr' : mlog_reach os s')
    (Hf : mlog_facs s = Some fs) (Hf' : mlog_facs s' = Some fs') (Hcnt : fac_cnt s' = fac_cnt s) :
  let cnt := Z.to_nat (fac_cnt s) in
  let use := take cnt fs in
  let text := masks_text use true in
  fac_names <$> take cnt fs' = fac_names <$> use →
  names_ok [] use = true → forallb (λ f, canonical (fac_mask f)) use = true →
  Z.of_nat (length text) ≤ len →
  mlog_getmasks false 0 len true s = Ok ((Z.of_nat (length text), text), s) ∧
  mlog_setmasks os text (Z.of_nat (length text)) s' =
    Ok (tt, s' <| mlog_facs := Some (use ++ drop cnt fs') |>).
Proof.
  cbv zeta. set (cnt := Z.to_nat (fac_cnt s)). set (use := take cnt fs). set (text := masks_text use true).
  intros Hsame Hnames Hcan Hlen.
  pose proof (reach_open os s fs Hos Hr Hf) as Hs. pose proof (reach_open os s' fs' Hos Hr' Hf') as Hs'.
  pose proof (co_facs _ _ (lo_core _ _ Hs)) as Hfo. rewrite Hf in Hfo. destruct Hfo as [Hl1 Hc1 _ Hm1 _].
  pose proof (co_facs _ _ (lo_core _ _ Hs')) as Hfo'. rewrite Hf' in Hfo'. destruct Hfo' as [Hl2 Hc2 _ _ _].
  pose proof (lo_cnt _ _ Hs) as Hpos.
  assert (length use = cnt) as Huse by (subst use; rewrite length_take; lia).
  split.
  - rewrite (getmasks_eq false 0 len true s fs) by (done || lia). fold cnt use text.
    assert (window 0 len text = text) as -> by (unfold window; rewrite drop_0; apply take_ge; lia). done.
  - destruct use as [|f l] eqn:Eu; [cbn [length] in Huse; lia|]. rewrite <- Eu in *.
    assert (text = rest_text 0 use ++ [10]) as Ht by (subst text; unfold masks_text; by rewrite Eu).
    assert (Forall (λ f, pri_mask (fac_mask f) ∧ canonical (fac_mask f) = true) use) as Hmask.
    { rewrite forallb_forall in Hcan. apply Forall_forall. intros g Hg. split; [|by apply Hcan, list_elem_of_In].
      rewrite Forall_forall in Hm1. apply Hm1. rewrite <- (take_drop cnt fs). apply elem_of_app. by left. }
    assert (skip_blank text = text) as Hskip.
    { rewrite Ht, Eu. cbn [rest_text]. rewrite Eu in Hnames, Hmask. cbn [names_ok] in Hnames.
      apply Forall_cons in Hmask as [[Hm Hc] _]. apply andb_true_iff in Hnames as [Hn _].
      destruct (print_name f) as [n|] eqn:En; [|done]. apply andb_true_iff in Hn as [Hn _].
      destruct (entry_plain 0 f n _ En eq_refl Hn Hm Hc) as [-> _]. rewrite <- !app_assoc.
      by apply skip_blank_entry. }
    pose proof (lo_tag _ _ Hs') as (t&sz&Et&_). unfold mlog_setmasks. mgets. rewrite Et.
    destruct (Z.ltb_spec (Z.of_nat (length text)) 0); [lia|]. rewrite Z.leb_refl, Nat2Z.id.
    mstep by reflexivity. rewrite take_ge by lia. rewrite Hskip.
    pose proof (setmasks_loop_eq os use (S (length text)) s' [] fs' Hs') as Hloop.
    cbn [length app] in Hloop. change (Z.of_nat 0) with 0 in Hloop. rewrite <- Ht, Huse in Hloop.
    clearbody text. destruct text as [|c r] eqn:Etext; [by destruct (rest_text 0 use)|]. apply Hloop; try done.
    + by rewrite Eu.
    + by rewrite Hcnt.
    + lia.
    + rewrite Ht, length_app. pose proof (length_rest_text 0 use). lia.
Qed.

(** The demo log before and after both masks change. *)
Definition demo_masked1 : mlog_state := Eval vm_compute in
  run_calls demo_mos [CallSetMask 0 0x00050000] demo_log.
Definition demo_masked : mlog_state := Eval vm_compute in
  run_calls demo_mos [CallSetMask 1 MLOG_ERR] demo_masked1.

Lemma demo_masked_reach : mlog_reach demo_mos demo_masked.
Proof.
  apply (reach_call _ demo_masked1 (CallSetMask 1 MLOG_ERR)); [|cbn [call_ok]; lia|by vm_compute].
  apply (reach_call _ demo_log (CallSetMask 0 0x00050000)); [|cbn [call_ok]; lia|by vm_compute].
  apply demo_log_reach.
Qed.

Lemma masks_roundtrip_witness :
  ∃ fs, mlog_getmasks false 0 100 true demo_masked =
      Ok ((21, string_bytes "MLOG=D13,NETWORK=ERR" ++ [10]), demo_masked) ∧
    mlog_setmasks demo_mos (string_bytes "MLOG=D13,NETWORK=ERR" ++ [10]) 21 demo_log =
      Ok (tt, demo_log <| mlog_facs := Some fs |>) ∧
    fac_mask <$> take 2 fs = [0x00050000; MLOG_ERR].
Proof.
  destruct (masks_roundtrip demo_mos demo_masked demo_log _ _ 100 demo_mos_ok demo_masked_reach demo_log_reach
    eq_refl eq_refl eq_refl) as [H1 H2].
  - reflexivity.
  - reflexivity.
  - reflexivity.
  - vm_compute. congruence.
  - eexists. split_and!; [exact H1|exact H2|reflexivity].
Defined.
