(* ===== verification/InitLog.v ===== *)
(** * Opening the log at the start of [dthread_run]

    [dt_init.c]: the part of [dthread_run] that builds the log's tag and file
    name with [strgen], opens the log, names its facilities and sets the masks
    from the environment.  The facilities' names come from a generated header
    and are a parameter. *)

From S2P Require Import Prelude Types Init MlogBuf Mlog MlogSafe.

(** The environment variables, [DTHREAD_MLOG_DIR] and so on. *)
Record log_env := LogEnv {
  le_dir : option str;
  le_defpri : option str;
  le_stderrpri : option str;
  le_bufsz : option str;
  le_mask : option str }.

Section RunLog.
Context (os : osys) (malloc : Z → option (list Z)) (facdef : list (str * option str)) (env : log_env).

(** The names, from facility [lcv] on; [false] aborts the job. *)
Fixpoint name_facs (lcv : Z) (l : list (str * option str)) : L bool :=
  match l with
  | [] => retM true
  | (sn, ln) :: l =>
      r <- mlog_namefacility os lcv (Some sn) ln;;
      if negb (r =? 0) then retM false else name_facs (lcv + 1) l
  end.

Definition log_bufsz : Z := match le_bufsz env with Some s => atoi s | None => 4096 end.

Definition log_args (mlog_tag mlog_log : option str) : open_args :=
  OpenArgs mlog_tag (Z.of_nat (length facdef))
    (mlog_str2pri (default (string_bytes "WARN") (le_defpri env)))
    (mlog_str2pri (default (string_bytes "CRIT") (le_stderrpri env)))
    mlog_log log_bufsz (Z.lor MLOG_LOGPID MLOG_OUTTTY).

(** [strgen]'s result as a string; [None] when it returns less than 1. *)
Definition gen_string (parts : list str) : L (option str) :=
  match strgen malloc parts with
  | Crash f => crash f
  | Ok (n, nstr) => retM (if n <? 1 then None else strz <$> nstr)
  end.

(** [false] when the job is aborted. *)
Definition run_log (prog : str) (rank : Z) : L bool :=
  let prog := run_prog prog in
  let ranktag := take 31 (dec rank) in
  log <- (match le_dir env with
          | None => retM (Some None)
          | Some d =>
              o <- gen_string [d; string_bytes "/dthread."; ranktag; string_bytes ".log"];;
              retM (Some <$> o)
          end);;
  match log with
  | None => retM false
  | Some mlog_log =>
      mlog_tag <- gen_string [prog; ranktag];;
      match mlog_tag with
      | None => retM false
      | Some mlog_tag =>
          r <- mlog_open os (log_args (Some mlog_tag) mlog_log);;
          if negb (r =? 0) then retM false
          else
            ok <- name_facs 0 facdef;;
            if negb ok then retM false
            else
              match le_mask env with Some m => mlog_setmasks os m (-1) | None => retM tt end ;;; retM true
      end
  end.

Context (Hos : os_ok os) (Hmalloc : ∀ n buf, malloc n = Some buf → Z.of_nat (length buf) = n).

Lemma wp_gen_string parts (Q : option str → mlog_state → Prop) s :
  Z.of_nat (length (concat parts)) < 2 ^ 63 → (∀ o, Q o s) → wp (gen_string parts) Q s.
Proof using Hmalloc.
  intros Hl HQ. unfold gen_string. rewrite (strgen_exact malloc parts) by (done || lia).
  destruct (malloc _); apply wp_ret, HQ.
Qed.

Lemma wp_name_facs l : ∀ lcv s,
  log_ok MxFree s → 0 ≤ lcv → lcv + Z.of_nat (length l) < 2 ^ 31 →
  wp (name_facs lcv l) (λ _, log_ok MxFree) s.
Proof.
  induction l as [|[sn ln] l IH]; intros lcv s Hs H0 Hl; cbn [name_facs length] in *; [by apply wp_ret|].
  apply wp_bind. eapply wp_mono; [apply wp_namefacility; [done|lia]|]. intros r s' [_ Hs'].
  destruct (negb (r =? 0)); [by apply wp_ret|]. apply IH; [done|lia|lia].
Qed.

(** The log is ready, or the job is aborted: from a closed log, whatever the
    environment holds and whichever allocation or system call fails, the set-up
    of the log returns; if it does not abort the job, the log is open and its
    state is well-formed. *)
Theorem run_log_ready (prog : str) (rank : Z) (s : mlog_state)
    (Hs : log_closed s) (Hfac : Z.of_nat (length facdef) < 2 ^ 31) (Hbuf : log_bufsz < 2 ^ 31)
    (Hprog : Z.of_nat (length prog) < 2 ^ 31)
    (Hdir : ∀ d, le_dir env = Some d → Z.of_nat (length d) < 2 ^ 31) :
  wp (run_log prog rank) (λ ok s', mlog_wf s' ∧ (ok = true → log_ok MxFree s')) s.
Proof using Hmalloc Hos.
  unfold run_log. cbv zeta. set (rt := take 31 (dec rank)).
  assert (length rt ≤ 31)%nat as Hrt by (subst rt; rewrite length_take; lia).
  assert (length (run_prog prog) ≤ length prog)%nat as Hrp
    by (unfold run_prog; destruct (strrchr prog 47); [rewrite length_drop|]; lia).
  assert (mlog_wf s) as Hwf by (by left).
  apply wp_bind.
  assert (∀ Q : option (option str) → mlog_state → Prop, (∀ o, Q o s) →
    wp (match le_dir env with
        | None => retM (Some None)
        | Some d => o <- gen_string [d; string_bytes "/dthread."; rt; string_bytes ".log"];; retM (Some <$> o)
        end) Q s) as Hdirs.
  { intros Q HQ. destruct (le_dir env) as [d|]; [|apply wp_ret, HQ]. specialize (Hdir d eq_refl).
    apply wp_bind, wp_gen_string; [simpl; rewrite !length_app; simpl; rewrite ?length_app; simpl; lia|].
    intros o. apply wp_ret, HQ. }
  apply Hdirs. clear Hdirs. intros [mlog_log|]; [|by apply wp_ret]. apply wp_bind, wp_gen_string.
  { simpl. rewrite app_nil_r, length_app. lia. }
  intros [mlog_tag|]; [|by apply wp_ret]. apply wp_bind.
  eapply wp_mono; [apply (wp_open os Hos (log_args (Some mlog_tag) mlog_log) s Hwf); done|].
  intros r s1 [[-> Hs1]|[-> Hs1]]; simpl.
  2: { apply wp_ret. split; [|done]. destruct Hs1 as [->|?]; [done|by left]. }
  apply wp_bind. eapply wp_mono; [apply wp_name_facs; [done|lia|lia]|]. intros ok s2 Hs2.
  destruct ok; simpl; [|apply wp_ret; split; [by right|done]]. apply wp_bind.
  destruct (le_mask env) as [m|]; [|apply wp_ret, wp_ret; split; [by right|done]].
  eapply wp_mono; [apply wp_setmasks; [done|lia]|]. intros u s3 Hs3. apply wp_ret. by split; [right|].
Qed.
End RunLog.

(** A start of rank 3 with two facilities and a mask for one of them. *)
Definition demo_facdef : list (str * option str) :=
  [(string_bytes "DTH", None); (string_bytes "MGR", Some (string_bytes "MANAGER"))].
Definition demo_log_env : log_env :=
  LogEnv (Some (string_bytes "/tmp")) None None None (Some (string_bytes "manager=info")).

Lemma run_log_demo :
  match run_log demo_mos demo_malloc demo_facdef demo_log_env (string_bytes "bin/app") 3 mlog_zero with
  | Ok (ok, s) => ok = true ∧ tag s = Some (string_bytes "app3[4711]", 20) ∧
      logfile s = Some (string_bytes "/tmp/dthread.3.log") ∧
      (fac_mask <$> take 2 (default [] (mlog_facs s))) = [MLOG_WARN; MLOG_INFO]
  | Crash _ => False
  end.
Proof. vm_compute. by split_and!. Qed.
