(* ===== verification/BfsSplit.v ===== *)
(** * The breadth-first search example: the split of the vertices

    [do_work] of [xthread/testin/crono_bfs_xthread.cc] divides the vertices over
    the threads in [double] arithmetic.  [partition] is that computation on an
    executable model of rounding; the cuts it makes rise from 0 to the number of
    vertices, or one less. *)

From S2P Require Import Prelude.

(** ** Doubles

    A [double] is the fraction it stands for.  An operation rounds the exact
    result to the nearest fraction with a 53-bit numerator, ties to even.  All
    values here lie between 0 and [2 ^ 52]; the range of exponents plays no
    part. *)
Record double := Dbl { dnum : Z; dden : Z }.

(** [n / d], rounded to the nearest integer, ties to even. *)
Definition rne (n d : Z) : Z :=
  let q := n / d in
  let r := n mod d in
  if 2 * r <? d then q else if d <? 2 * r then q + 1 else if Z.even q then q else q + 1.

(** The [k] with [2 ^ 52 <= 2 ^ k * (n / d) < 2 ^ 53]. *)
Definition dexp (n d : Z) : Z :=
  let k := 53 + Z.log2 d - Z.log2 n in
  if n * 2 ^ k <? d * 2 ^ 53 then k else k - 1.

Definition dround (n d : Z) : double :=
  if n =? 0 then Dbl 0 1 else Dbl (rne (n * 2 ^ dexp n d) d) (2 ^ dexp n d).

Definition int2d (z : Z) : double := Dbl z 1.
Definition dadd (x y : double) : double :=
  dround (dnum x * dden y + dnum y * dden x) (dden x * dden y).
Definition dmul (x y : double) : double := dround (dnum x * dnum y) (dden x * dden y).
Definition ddiv (x y : double) : double := dround (dnum x * dden y) (dden x * dnum y).

(** The conversion to [int] drops the fraction. *)
Definition d2int (x : double) : Z := Z.quot (dnum x) (dden x).

(** [start] and [stop] of [do_work]. *)
Definition partition (largest P tid : Z) : Z * Z :=
  let P_d := int2d P in
  let tid_d := int2d tid in
  let largest_d := dadd (int2d largest) (int2d 1) in
  let start_d := dmul tid_d (ddiv largest_d P_d) in
  let stop_d := dmul (dadd tid_d (int2d 1)) (ddiv largest_d P_d) in
  (d2int start_d, d2int stop_d).

(** The fractions [x] and [y] compared. *)
Definition dle (x y : double) : Prop := dnum x * dden y ≤ dnum y * dden x.
Definition dsame (x y : double) : Prop := dnum x * dden y = dnum y * dden x.

(** A value the code can reach. *)
Definition dok (x : double) : Prop := 0 < dden x ∧ 0 ≤ dnum x < dden x * 2 ^ 52.

Lemma rne_spec n d :
  0 < d →
  - d ≤ 2 * (n - rne n d * d) ≤ d ∧
  (2 * (n - rne n d * d) = d ∨ 2 * (n - rne n d * d) = - d → Z.even (rne n d) = true).
Proof.
  intros Hd. unfold rne. pose proof (Z.div_mod n d ltac:(lia)) as E.
  pose proof (Z.mod_pos_bound n d Hd) as Hr. set (q := n / d) in *. set (r := n mod d) in *.
  assert (Hn : n - q * d = r) by lia. assert (Hn' : n - (q + 1) * d = r - d) by lia.
  destruct (Z.ltb_spec (2 * r) d).
  { rewrite Hn. split; [lia|]. intros [?|?]; lia. }
  destruct (Z.ltb_spec d (2 * r)).
  { rewrite Hn'. split; [lia|]. intros [?|?]; lia. }
  destruct (Z.even q) eqn:Eq; rewrite ?Hn, ?Hn'; (split; [lia|]); [done|].
  intros _. rewrite Z.add_1_r, Z.even_succ, <- Z.negb_even. by rewrite Eq.
Qed.

Lemma rne_int c d : 0 < d → rne (c * d) d = c.
Proof.
  intros Hd. unfold rne. rewrite Z.div_mul, Z_mod_mult by lia.
  destruct (Z.ltb_spec (2 * 0) d); lia.
Qed.

Lemma rne_le n1 d1 n2 d2 :
  0 < d1 → 0 < d2 → n1 * d2 ≤ n2 * d1 → rne n1 d1 ≤ rne n2 d2.
Proof.
  intros H1 H2 Hle. destruct (rne_spec n1 d1 H1) as [B1 T1]. destruct (rne_spec n2 d2 H2) as [B2 T2].
  set (a := rne n1 d1) in *. set (b := rne n2 d2) in *.
  destruct (Z.le_gt_cases a b) as [|Hab]; [done|]. exfalso.
  assert (L1 : (2 * a - 1) * d1 * d2 ≤ 2 * n1 * d2) by nia.
  assert (L2 : 2 * n2 * d1 ≤ (2 * b + 1) * d2 * d1) by nia.
  assert (Hd : 0 < d1 * d2) by nia.
  assert (Eab : a = b + 1) by nia.
  assert (E1 : 2 * (n1 - a * d1) = - d1) by nia.
  assert (E2 : 2 * (n2 - b * d2) = d2) by nia.
  specialize (T1 ltac:(by right)). specialize (T2 ltac:(by left)).
  rewrite Eab, Z.add_1_r, Z.even_succ, <- Z.negb_even, T2 in T1. done.
Qed.

Lemma dexp_spec n d :
  0 < n → 0 < d → n < d * 2 ^ 52 →
  0 ≤ dexp n d ∧ d * 2 ^ 52 ≤ n * 2 ^ dexp n d < d * 2 ^ 53.
Proof.
  intros Hn Hd Hlt. unfold dexp.
  assert (Hlog : Z.log2 n ≤ Z.log2 d + 52).
  { rewrite Z.add_comm, <- Z.log2_mul_pow2 by lia. apply Z.log2_le_mono. lia. }
  pose proof (Z.log2_spec n Hn) as [N1 N2]. pose proof (Z.log2_spec d Hd) as [D1 D2].
  rewrite Z.pow_succ_r in N2, D2 by apply Z.log2_nonneg.
  set (a := Z.log2 n) in *. set (b := Z.log2 d) in *.
  assert (Ha : 0 ≤ a) by apply Z.log2_nonneg. assert (Hb : 0 ≤ b) by apply Z.log2_nonneg.
  set (k := 53 + b - a).
  assert (Hk : 2 ^ k * 2 ^ a = 2 ^ 53 * 2 ^ b).
  { rewrite <- !Z.pow_add_r by (unfold k; lia). f_equal. unfold k. lia. }
  assert (Hk' : 2 ^ k = 2 * 2 ^ (k - 1)).
  { rewrite <- Z.pow_succ_r by (unfold k; lia). f_equal. lia. }
  assert (0 < 2 ^ (k - 1)) by (apply Z.pow_pos_nonneg; unfold k; lia).
  assert (Hlow : d * 2 ^ 52 ≤ n * 2 ^ k) by nia.
  assert (Hhigh : n * 2 ^ k < 2 * (d * 2 ^ 53)) by nia.
  destruct (Z.ltb_spec (n * 2 ^ k) (d * 2 ^ 53)); (split; [unfold k; lia|]); [lia|].
  rewrite Hk' in *. lia.
Qed.

Lemma dround_den n d : 0 < d → 0 ≤ n < d * 2 ^ 52 → 0 < dden (dround n d).
Proof.
  intros. unfold dround. destruct (Z.eqb_spec n 0); simpl; [lia|].
  apply Z.pow_pos_nonneg; [lia|]. apply dexp_spec; lia.
Qed.

(** The numerator has 53 bits. *)
Lemma dround_num n d :
  0 < d → 0 < n < d * 2 ^ 52 → 2 ^ 52 ≤ dnum (dround n d) ≤ 2 ^ 53.
Proof.
  intros Hd Hn. destruct (dexp_spec n d) as (Hk & Hlow & Hhigh); [lia..|].
  unfold dround. destruct (Z.eqb_spec n 0); simpl; [lia|].
  split.
  - rewrite <- (rne_int (2 ^ 52) d Hd) at 1. apply rne_le; [done..|]. nia.
  - rewrite <- (rne_int (2 ^ 53) d Hd). apply rne_le; [done..|]. nia.
Qed.

Lemma dround_mono n1 d1 n2 d2 :
  0 < d1 → 0 < d2 → 0 ≤ n1 < d1 * 2 ^ 52 → 0 ≤ n2 < d2 * 2 ^ 52 →
  n1 * d2 ≤ n2 * d1 → dle (dround n1 d1) (dround n2 d2).
Proof.
  intros H1 H2 B1 B2 Hle. unfold dle.
  pose proof (dround_den n2 d2 H2 B2) as D2.
  destruct (Z.eqb_spec n1 0) as [->|N1].
  { unfold dround at 1 4. simpl. destruct (Z.eqb_spec n2 0) as [->|N2]; [done|].
    pose proof (dround_num n2 d2 H2 ltac:(lia)). nia. }
  assert (N2 : n2 ≠ 0) by nia.
  destruct (dexp_spec n1 d1) as (K1 & L1 & U1); [lia..|].
  destruct (dexp_spec n2 d2) as (K2 & L2 & U2); [lia..|].
  pose proof (dround_num n1 d1 H1 ltac:(lia)) as M1. pose proof (dround_num n2 d2 H2 ltac:(lia)) as M2.
  revert M1 M2 D2. unfold dround. destruct (Z.eqb_spec n1 0); [done|]. destruct (Z.eqb_spec n2 0); [done|].
  simpl. set (k1 := dexp n1 d1) in *. set (k2 := dexp n2 d2) in *. intros M1 M2 D2.
  assert (0 < 2 ^ k1) by (by apply Z.pow_pos_nonneg).
  destruct (Z.lt_trichotomy k1 k2) as [Hk|[Hk|Hk]].
  - exfalso. assert (E : 2 ^ k2 = 2 ^ k1 * 2 * 2 ^ (k2 - k1 - 1)).
    { rewrite <- Z.mul_assoc, <- Z.pow_succ_r by lia. rewrite <- Z.pow_add_r by lia. f_equal. lia. }
    assert (0 < 2 ^ (k2 - k1 - 1)) by (apply Z.pow_pos_nonneg; lia).
    assert (G : n2 * 2 ^ k1 * 2 ≤ n2 * 2 ^ k2) by (rewrite E; nia).
    assert (n1 * d2 * 2 ^ k1 ≤ n2 * d1 * 2 ^ k1) by nia.
    assert (d1 * 2 ^ 52 * d2 ≤ n1 * 2 ^ k1 * d2) by nia.
    assert (n2 * 2 ^ k1 * d1 < d2 * 2 ^ 52 * d1) by nia. nia.
  - rewrite <- Hk. apply Z.mul_le_mono_nonneg_r; [lia|]. apply rne_le; [done..|]. nia.
  - assert (E : 2 ^ k1 = 2 ^ k2 * 2 * 2 ^ (k1 - k2 - 1)).
    { rewrite <- Z.mul_assoc, <- Z.pow_succ_r by lia. rewrite <- Z.pow_add_r by lia. f_equal. lia. }
    assert (0 < 2 ^ (k1 - k2 - 1)) by (apply Z.pow_pos_nonneg; lia).
    transitivity (2 ^ 53 * 2 ^ k2); [nia|].
    transitivity (2 ^ 52 * 2 ^ k1); [rewrite E; nia|nia].
Qed.

(** The error of rounding. *)
Lemma dround_error n d :
  0 < d → 0 < n < d * 2 ^ 52 →
  ∃ k, 0 ≤ k ∧ dden (dround n d) = 2 ^ k ∧ d * 2 ^ 52 ≤ n * 2 ^ k ∧
    - d ≤ 2 * (n * 2 ^ k - dnum (dround n d) * d) ≤ d.
Proof.
  intros Hd Hn. destruct (dexp_spec n d) as (Hk & Hlow & Hhigh); [lia..|].
  exists (dexp n d). unfold dround. destruct (Z.eqb_spec n 0); simpl; [lia|].
  split_and!; try done; by apply (rne_spec (n * 2 ^ dexp n d) d Hd).
Qed.

Lemma dround_int c : 0 ≤ c < 2 ^ 52 → dsame (dround c 1) (int2d c).
Proof.
  intros Hc. unfold dsame, dround. destruct (Z.eqb_spec c 0) as [->|]; [done|]. simpl.
  rewrite <- (Z.mul_1_r (c * 2 ^ _)), rne_int by lia. lia.
Qed.

Lemma dround_same n1 d1 n2 d2 :
  0 < d1 → 0 < d2 → 0 ≤ n1 < d1 * 2 ^ 52 → 0 ≤ n2 < d2 * 2 ^ 52 →
  n1 * d2 = n2 * d1 → dsame (dround n1 d1) (dround n2 d2).
Proof.
  intros. unfold dsame. apply Z.le_antisymm; apply dround_mono; lia.
Qed.

Lemma d2int_le x y : 0 ≤ dnum x → 0 < dden x → 0 < dden y → dle x y → d2int x ≤ d2int y.
Proof.
  unfold dle, d2int. intros Hx Dx Dy Hle.
  assert (0 ≤ dnum y) by nia. rewrite !Z.quot_div_nonneg by lia.
  apply Z.div_le_lower_bound; [done|].
  assert (dnum x / dden x * dden x ≤ dnum x).
  { rewrite Z.mul_comm. by apply Z.mul_div_le. }
  assert (dden y * (dnum x / dden x) * dden x ≤ dnum y * dden x) by nia. nia.
Qed.

Lemma dround_nonneg n d : 0 < d → 0 ≤ n < d * 2 ^ 52 → 0 ≤ dnum (dround n d).
Proof.
  intros Hd Hn. destruct (Z.eqb_spec n 0) as [->|]; [done|].
  pose proof (dround_num n d Hd). lia.
Qed.

Section Cuts.
Context (largest P : Z).
Hypothesis HL : 0 ≤ largest < 2 ^ 31 - 1.
Hypothesis HP : 0 < P < 2 ^ 31.

Definition share : double := dround (largest + 1) P.

(** The first vertex of thread [t]. *)
Definition cut (t : Z) : Z := d2int (dmul (int2d t) share).

Lemma share_spec :
  ∃ k, 0 ≤ k ∧ dden share = 2 ^ k ∧ P * 2 ^ 21 ≤ 2 ^ k ∧ 0 < dnum share ∧
    - P ≤ 2 * ((largest + 1) * 2 ^ k - dnum share * P) ≤ P.
Proof using HL HP.
  destruct (dround_error (largest + 1) P) as (k & Hk & Hden & Hbig & Herr); [lia..|].
  pose proof (dround_num (largest + 1) P) as Hnum. fold share in Hden, Herr, Hnum.
  assert (Hq : 0 < 2 ^ k) by (by apply Z.pow_pos_nonneg). set (q := 2 ^ k) in *.
  assert ((largest + 1) * q ≤ 2 ^ 31 * q) by (apply Z.mul_le_mono_nonneg_r; lia).
  exists k. split_and!; try done; lia.
Qed.

Lemma cut_dok t : 0 ≤ t ≤ P → 0 < 1 * dden share ∧ 0 ≤ t * dnum share < 1 * dden share * 2 ^ 52.
Proof using HL HP.
  intros Ht. destruct share_spec as (k & Hk & -> & Hbig & Hnum & Herr).
  assert (0 < 2 ^ k) by (apply Z.pow_pos_nonneg; lia). split; [lia|]. split; [nia|].
  assert (t * dnum share ≤ P * dnum share) by (apply Z.mul_le_mono_nonneg_r; lia).
  assert ((largest + 1) * 2 ^ k ≤ 2 ^ 31 * 2 ^ k) by (apply Z.mul_le_mono_nonneg_r; lia). lia.
Qed.

Lemma cut_0 : cut 0 = 0.
Proof. done. Qed.

Lemma cut_mono t u : 0 ≤ t ≤ u → u ≤ P → cut t ≤ cut u.
Proof using HL HP.
  intros Htu Hu. destruct (cut_dok t) as [D1 B1]; [lia|]. destruct (cut_dok u) as [D2 B2]; [lia|].
  destruct share_spec as (k & Hk & Hden & Hbig & Hnum & Herr).
  unfold cut, dmul; simpl. apply d2int_le.
  - by apply dround_nonneg.
  - by apply dround_den.
  - by apply dround_den.
  - apply dround_mono; [done..|]. apply Z.mul_le_mono_nonneg_r; [lia|].
    apply Z.mul_le_mono_nonneg_r; lia.
Qed.

(** The last cut misses at most the last vertex. *)
Lemma cut_end : largest ≤ cut P ≤ largest + 1.
Proof using HL HP.
  destruct (cut_dok P) as [D B]; [lia|]. unfold cut, dmul; simpl.
  destruct share_spec as (k & Hk & Hden & Hbig & Hnum & Herr).
  assert (0 < 2 ^ k) by (apply Z.pow_pos_nonneg; lia).
  pose proof (dround_den _ _ D B) as D'. pose proof (dround_nonneg _ _ D B) as N'.
  split.
  - destruct (Z.eqb_spec largest 0) as [->|].
    { unfold d2int. rewrite Z.quot_div_nonneg by done. by apply Z.div_pos. }
    replace largest with (d2int (int2d largest)) at 1 by apply Z.quot_1_r.
    apply d2int_le; [simpl; lia|done|done|].
    assert (G : dle (dround largest 1) (dround (P * dnum share) (1 * dden share))).
    { apply dround_mono; [lia|done|lia|done|]. rewrite Hden. lia. }
    assert (S : dsame (dround largest 1) (int2d largest)) by (apply dround_int; lia).
    assert (0 < dden (dround largest 1)) by (apply dround_den; lia).
    unfold dle, dsame in *. simpl in *. nia.
  - destruct (dround_error (P * dnum share) (1 * dden share)) as (j & Hj & Hjd & Hjb & Hje); [lia|nia|].
    unfold d2int. rewrite Z.quot_div_nonneg by done.
    apply Z.lt_succ_r, Z.div_lt_upper_bound; [done|]. rewrite Hjd, Hden in *.
    assert (0 < 2 ^ j) by (apply Z.pow_pos_nonneg; lia).
    set (r := dnum (dround _ _)) in *. set (s := dnum share) in *. set (q := 2 ^ k) in *. set (p := 2 ^ j) in *.
    clear D' N' Hjd Hden D B.
    assert (U1 : 2 * (P * s) * p ≤ ((2 * (largest + 1)) * q + P) * p)
      by (apply Z.mul_le_mono_nonneg_r; lia).
    assert (U2 : P * 2 ^ 21 * p ≤ q * p) by (apply Z.mul_le_mono_nonneg_r; lia).
    assert (U3 : 2 * r * q ≤ 2 * (P * s) * p + q) by lia.
    assert (U4 : q * 2 ^ 52 ≤ 2 * (P * s) * p) by lia.
    assert (U5 : (largest + 1) * q * p ≤ 2 ^ 31 * q * p).
    { apply Z.mul_le_mono_nonneg_r; [lia|]. apply Z.mul_le_mono_nonneg_r; lia. }
    assert (U6 : 2 ^ 19 ≤ p).
    { apply (Z.mul_le_mono_pos_l _ _ q); [lia|]. lia. }
    assert (U7 : q * 2 ^ 19 ≤ q * p) by (apply Z.mul_le_mono_nonneg_l; lia).
    apply (Z.mul_lt_mono_pos_l q); [lia|]. lia.
Qed.

Lemma partition_cut tid : 0 ≤ tid < P → partition largest P tid = (cut tid, cut (tid + 1)).
Proof using HL HP.
  intros Ht. unfold partition.
  assert (Hone : ∀ c, 0 ≤ c < 2 ^ 31 → dsame (dadd (int2d c) (int2d 1)) (int2d (c + 1)) ∧
                        0 < dden (dadd (int2d c) (int2d 1)) ∧ 0 ≤ dnum (dadd (int2d c) (int2d 1))).
  { intros c Hc. unfold dadd. simpl. rewrite !Z.mul_1_r.
    split_and!; [apply dround_int; lia|apply dround_den; lia|apply dround_nonneg; lia]. }
  destruct (Hone largest) as (Sl & Dl & Nl); [lia|]. destruct (Hone tid) as (St & Dt & Nt); [lia|].
  set (ld := dadd (int2d largest) (int2d 1)) in *. set (td := dadd (int2d tid) (int2d 1)) in *.
  unfold dsame in Sl, St. simpl in Sl, St.
  destruct share_spec as (k & Hk & Hden & Hbig & Hnum & Herr).
  assert (Hq : 0 < 2 ^ k) by (apply Z.pow_pos_nonneg; lia).
  assert (Ss : dsame (ddiv ld (int2d P)) share).
  { unfold ddiv, share. simpl. apply dround_same; nia. }
  assert (Ds : 0 < dden (ddiv ld (int2d P))) by (unfold ddiv; simpl; apply dround_den; nia).
  set (sh := ddiv ld (int2d P)) in *. unfold dsame in Ss.
  assert (Heq : ∀ x t, 0 ≤ t ≤ P → 0 < dden x → dnum x = t * dden x →
                        d2int (dmul x sh) = cut t).
  { intros x t Htt Dx Sx. destruct (cut_dok t Htt) as [D B].
    assert (B' : 0 ≤ dnum x * dnum sh < dden x * dden sh * 2 ^ 52).
    { rewrite Sx. assert (0 ≤ dnum sh) by nia. split; [nia|].
      assert (t * dnum sh < dden sh * 2 ^ 52) by nia. nia. }
    assert (D' : 0 < dden x * dden sh) by nia.
    unfold cut, dmul. simpl. apply Z.le_antisymm.
    - apply d2int_le; [by apply dround_nonneg|by apply dround_den|by apply dround_den|].
      apply dround_mono; try done. rewrite Sx. nia.
    - apply d2int_le; [by apply dround_nonneg|by apply dround_den|by apply dround_den|].
      apply dround_mono; try done. rewrite Sx. nia. }
  f_equal; apply Heq; simpl; lia.
Qed.
End Cuts.
