(* ===== verification/Bfs.v ===== *)
(** * The breadth-first search example: its input

    [xthread/testin/crono_bfs_xthread.cc] up to the point where the threads
    start: the options, the shared memory it asks for, the graph (generated or
    read from a file) and the initial colours.  The threads are in [BfsWork]. *)

From S2P Require Import Prelude Types Mlog.

(** ** Options *)

Record bfs_options_t := Bopts {
  o_select : Z;
  o_P : Z;
  o_N : Z;
  o_DEG : Z;
  o_filename : option str;
  o_shm_path : str }.

#[export] Instance bfs_options_eta : Eta bfs_options_t := λ r,
  Bopts (o_select r) (o_P r) (o_N r) (o_DEG r) (o_filename r) (o_shm_path r).

(** [atoi] is undefined when the number is no [int]. *)
Definition atoi_int {S} (s : str) : M S Z := intM (atoi s).

Definition arg {S} (argv : list str) (i : Z) : M S str := get_some NullDeref (aget argv i).

(** The error code and the options, which live in the caller's context. *)
Definition parse_options (argv : list str) : M bfs_options_t Z :=
  let argc := Z.of_nat (length argv) in
  if argc <? 3 then retM EINVAL
  else
    a <- arg argv 1;; select <- atoi_int a;;
    modify (λ o, o <| o_select := select |>) ;;;
    a <- arg argv 2;; P <- atoi_int a;;
    modify (λ o, o <| o_P := P |> <| o_shm_path := string_bytes "/tmp/bfs_xthread.shm" |>) ;;;
    if P <=? 0 then retM EINVAL
    else if select =? 1 then
      if negb (argc =? 4) && negb (argc =? 5) then retM EINVAL
      else
        f <- arg argv 3;;
        modify (λ o, o <| o_filename := Some f |>) ;;;
        whenM (argc =? 5) (a <- arg argv 4;; modify (λ o, o <| o_shm_path := a |>)) ;;;
        modify (λ o, o <| o_N := 2097152 |> <| o_DEG := 16 |>) ;;;
        retM 0
    else if select =? 0 then
      if negb (argc =? 5) && negb (argc =? 6) then retM EINVAL
      else
        a <- arg argv 3;; N <- atoi_int a;;
        modify (λ o, o <| o_N := N |>) ;;;
        a <- arg argv 4;; DEG <- atoi_int a;;
        modify (λ o, o <| o_DEG := DEG |>) ;;;
        whenM (argc =? 6) (a <- arg argv 5;; modify (λ o, o <| o_shm_path := a |>)) ;;;
        if (N <=? 0) || (DEG <=? 0) then retM EINVAL else retM 0
    else retM EINVAL.

(** ** Shared memory *)

Definition sizeof_state : Z := 32 + 6 * 4 + 7 * 24.
Definition sizeof_thread_arg : Z := 32.
Definition sizeof_mutex : Z := 40.

(** Name, count and element size, in the order of the enumeration. *)
Definition create_allocation_descriptors (o : bfs_options_t) : list (string * Z * Z) :=
  [("state", 1, sizeof_state);
   ("thread arguments", u64 (o_P o), sizeof_thread_arg);
   ("D", u64 (o_N o), 4);
   ("Q", u64 (o_N o), 4);
   ("edges", u64 (o_N o), 4);
   ("exist", u64 (o_N o), 4);
   ("temporary", u64 (o_N o), 4);
   ("W_index", u64 (u64 (o_N o) * u64 (o_DEG o)), 4);
   ("locks", u64 (o_N o), sizeof_mutex)]%string.

(** The sum that [main] passes to [xthread_shmsrc_file]. *)
Definition application_bytes (o : bfs_options_t) : Z :=
  foldl (λ t '(_, count, size), u64 (t + u64 (count * size))) 0 (create_allocation_descriptors o).

(** ** The state of the search *)

(** The arrays and the counters of [bfs_shared_state_t]; [locks] tells which
    mutexes are initialised. *)
Record bfs := Bfs {
  W_index : list Z;
  edges : list Z;
  exist : list Z;
  locks : list bool;
  D : list Z;
  Q : list Z;
  temporary : list Z;
  largest : Z;
  Total : Z }.

#[export] Instance bfs_eta : Eta bfs := λ r,
  Bfs (W_index r) (edges r) (exist r) (locks r) (D r) (Q r) (temporary r) (largest r) (Total r).

(** The memory as [xthread_calloc] returns it. *)
Definition bfs_calloc (o : bfs_options_t) : bfs :=
  let n := Z.to_nat (o_N o) in
  let zeros := replicate n 0 in
  Bfs (replicate (Z.to_nat (o_N o * o_DEG o)) 0) zeros zeros (replicate n false) zeros zeros zeros 0 0.

(** Array accesses of [int]s. *)
Definition rd (l : list Z) (i : Z) : M bfs Z := get_some OutOfBounds (aget l i).
Definition wr_W (i x : Z) : M bfs unit :=
  l <- gets W_index;; rd l i ;;; modify (λ s, s <| W_index := aset l i x |>).
Definition wr_edges (i x : Z) : M bfs unit :=
  l <- gets edges;; rd l i ;;; modify (λ s, s <| edges := aset l i x |>).
Definition wr_exist (i x : Z) : M bfs unit :=
  l <- gets exist;; rd l i ;;; modify (λ s, s <| exist := aset l i x |>).
Definition wr_D (i x : Z) : M bfs unit :=
  l <- gets D;; rd l i ;;; modify (λ s, s <| D := aset l i x |>).
Definition wr_Q (i x : Z) : M bfs unit :=
  l <- gets Q;; rd l i ;;; modify (λ s, s <| Q := aset l i x |>).

(** [i * DEG + j] in [int]s. *)
Definition flat (DEG i j : Z) : M bfs Z := k <- intM (i * DEG);; intM (k + j).

(** ** The generated graph *)

(** The second loop of [init_weights] for one [i]. *)
Fixpoint fill_row (N DEG i : Z) (js : list Z) (last : Z) : M bfs unit :=
  match js with
  | [] => retM tt
  | j :: js =>
      k <- flat DEG i j;;
      l <- gets W_index;; w <- rd l k;;
      last <- (if w =? -1 then
                 neighbor <- intM (i + j);;
                 if last <? neighbor then wr_W k neighbor ;;; retM neighbor
                 else if last <? N - 1 then wr_W k (last + 1) ;;; retM (last + 1)
                 else retM last
               else retM w);;
      l <- gets W_index;; w <- rd l k;;
      whenM (N <=? w) (wr_W k (N - 1)) ;;;
      fill_row N DEG i js last
  end.

Definition init_weights (N DEG : Z) : M bfs unit :=
  forM (seqZ 0 N) (λ i, forM (seqZ 0 DEG) (λ j, k <- flat DEG i j;; wr_W k (-1))) ;;;
  forM (seqZ 0 N) (λ i, fill_row N DEG i (seqZ 0 DEG) 0).

(** ** The graph from a file *)

Definition isspace (c : Z) : bool := (c =? 32) || ((9 <=? c) && (c <=? 13)).
Definition isdigit (c : Z) : bool := (48 <=? c) && (c <=? 57).

Fixpoint skip_space (s : str) : str :=
  match s with c :: r => if isspace c then skip_space r else s | [] => [] end.

(** The digits at the start of [s] appended to [acc], and what follows. *)
Fixpoint scan_digits (acc : Z) (s : str) : Z * str :=
  match s with
  | c :: r => if isdigit c then scan_digits (10 * acc + (c - 48)) r else (acc, s)
  | [] => (acc, [])
  end.

Inductive scanned := ScEof | ScFail | ScInt (z : Z) (rest : str).

Definition scan_unsigned (sign : Z) (s : str) : scanned :=
  match s with
  | c :: _ => if isdigit c then let '(z, r) := scan_digits 0 s in ScInt (sign * z) r else ScFail
  | [] => ScFail
  end.

(** The directive [%d]. *)
Definition scan_int (s : str) : scanned :=
  match skip_space s with
  | [] => ScEof
  | c :: r => if c =? 45 then scan_unsigned (-1) r else if c =? 43 then scan_unsigned 1 r
              else scan_unsigned 1 (c :: r)
  end.

(** [fscanf(file0, "%d %d", ...)]: its result, the two numbers where it is 2,
    and the rest of the file. *)
Definition EOF : Z := -1.
Definition fscanf2 (s : str) : M bfs (Z * (Z * Z) * str) :=
  match scan_int s with
  | ScEof => retM (EOF, (0, 0), [])
  | ScFail => retM (0, (0, 0), s)
  | ScInt a r =>
      a <- intM a;;
      match scan_int (skip_space r) with
      | ScInt b r => b <- intM b;; retM (2, (a, b), r)
      | _ => retM (1, (0, 0), r)
      end
  end.

(** The end of the loop body: one edge is stored. *)
Definition add_edge (DEG number0 number1 : Z) : M bfs unit :=
  g <- gets largest;; whenM (g <? number0) (modify (λ s, s <| largest := number0 |>)) ;;;
  g <- gets largest;; whenM (g <? number1) (modify (λ s, s <| largest := number1 |>)) ;;;
  l <- gets edges;; inter <- rd l number0;;
  k <- flat DEG number0 inter;; wr_W k number1 ;;;
  n <- intM (inter + 1);; wr_edges number0 n ;;;
  wr_exist number0 1 ;;; wr_exist number1 1.

(** The loop over the file: [true] unless the program exits.  The character
    255 looks like [EOF].  Each pass reads at least one character. *)
Fixpoint read_loop (fuel : nat) (DEG : Z) (file : str) (lines : Z) (numbers : option (Z * Z)) : M bfs bool :=
  match file with
  | [] => retM true
  | c :: file =>
      if c =? 255 then retM true
      else
        match fuel with
        | O => crash Diverges
        | S fuel =>
            let lines := if c =? 10 then lines + 1 else lines in
            if 3 <? lines then
              r <- fscanf2 file;;
              let '(f0, nums, file) := r in
              if negb (f0 =? 2) && negb (f0 =? EOF) then retM false
              else
                let numbers := if f0 =? 2 then Some nums else numbers in
                n <- get_some Uninitialised numbers;;
                add_edge DEG n.1 n.2 ;;;
                read_loop fuel DEG file lines numbers
            else read_loop fuel DEG file lines numbers
        end
  end.

Definition read_file (DEG : Z) (file : str) : M bfs bool := read_loop (length file) DEG file 0 None.

(** ** Initialisation *)

Definition initialize_single_source (source N : Z) : M bfs unit :=
  forM (seqZ 0 N) (λ i, wr_D i 0 ;;; wr_Q i 1) ;;; wr_D source 1 ;;; wr_Q source 0.

(** One pass of the loop that counts the vertices. *)
Definition count_vertex (select DEG i : Z) : M bfs unit :=
  whenM (select =? 0) (wr_exist i 1 ;;; wr_edges i DEG) ;;;
  l <- gets exist;; e <- rd l i;;
  whenM (e =? 1)
    (t <- gets Total;; t <- intM (t + 1);; modify (λ s, s <| Total := t |>) ;;;
     m <- gets locks;; get_some OutOfBounds (aget m i) ;;;
     modify (λ s, s <| locks := aset m i true |>)).

Inductive prepared := Ready | ExitFailure.

(** Its end: counting, then the initial colours. *)
Definition prepare_end (o : bfs_options_t) : M bfs prepared :=
  g <- gets largest;; n <- intM (g + 1);;
  forM (seqZ 0 n) (count_vertex (o_select o) (o_DEG o)) ;;;
  initialize_single_source 0 (o_N o) ;;;
  retM Ready.

(** [application_main] from the memory initialisation to the thread arguments;
    [file] is the content of the input file, [None] when it cannot be opened. *)
Definition prepare_graph (o : bfs_options_t) (file : option str) : M bfs prepared :=
  w <- gets W_index;;
  modify (λ s, s <| W_index := (λ _, 100000000) <$> w |>) ;;;
  ok <- (if o_select o =? 1 then
           match file with None => retM false | Some f => read_file (o_DEG o) f end
         else retM true);;
  if negb ok then retM ExitFailure
  else
    whenM (o_select o =? 0)
      (init_weights (o_N o) (o_DEG o) ;;; modify (λ s, s <| largest := o_N o - 1 |>)) ;;;
    prepare_end o.

(** [application_main] up to the thread arguments, with its check of the degree. *)
Definition prepare (o : bfs_options_t) (file : option str) : M bfs prepared :=
  if o_N o <? o_DEG o then retM ExitFailure else prepare_graph o file.

(** The lines of the result file: an existing vertex and its colour. *)
Definition print_result (g : bfs) (q : list Z) : option (list (Z * Z)) :=
  foldr (λ j r, e ← aget (exist g) j; rest ← r;
           if e =? 1 then x ← aget q j; Some ((j, x) :: rest) else Some rest)
        (Some []) (seqZ 0 (largest g + 1)).

(** ** Lemmas on the arrays *)

Section Arrays.
Implicit Type s : bfs.

Lemma wp_array_get (l : list Z) i x (R : Z → bfs → Prop) s :
  aget l i = Some x → R x s → wp (rd l i) R s.
Proof. intros. by eapply wp_get_some. Qed.

Lemma wp_flat DEG i j (R : Z → bfs → Prop) s :
  0 ≤ i → 0 ≤ j < DEG → i * DEG + j < 2 ^ 31 → R (i * DEG + j) s → wp (flat DEG i j) R s.
Proof. intros. unfold flat. apply wp_bind, wp_int; [nia|]. apply wp_int; [nia|done]. Qed.

Lemma wp_wr_W i x (R : unit → bfs → Prop) s :
  0 ≤ i < Z.of_nat (length (W_index s)) →
  R tt (s <| W_index := aset (W_index s) i x |>) → wp (wr_W i x) R s.
Proof.
  intros Hi HR. destruct (aget_is_Some _ _ Hi) as [y Hy]. unfold wr_W. wp_steps.
  eapply wp_array_get; [done|]. wp_steps. done.
Qed.

Lemma wp_wr_edges i x (R : unit → bfs → Prop) s :
  0 ≤ i < Z.of_nat (length (edges s)) →
  R tt (s <| edges := aset (edges s) i x |>) → wp (wr_edges i x) R s.
Proof.
  intros Hi HR. destruct (aget_is_Some _ _ Hi) as [y Hy]. unfold wr_edges. wp_steps.
  eapply wp_array_get; [done|]. wp_steps. done.
Qed.

Lemma wp_wr_exist i x (R : unit → bfs → Prop) s :
  0 ≤ i < Z.of_nat (length (exist s)) →
  R tt (s <| exist := aset (exist s) i x |>) → wp (wr_exist i x) R s.
Proof.
  intros Hi HR. destruct (aget_is_Some _ _ Hi) as [y Hy]. unfold wr_exist. wp_steps.
  eapply wp_array_get; [done|]. wp_steps. done.
Qed.

Lemma wp_wr_D i x (R : unit → bfs → Prop) s :
  0 ≤ i < Z.of_nat (length (D s)) →
  R tt (s <| D := aset (D s) i x |>) → wp (wr_D i x) R s.
Proof.
  intros Hi HR. destruct (aget_is_Some _ _ Hi) as [y Hy]. unfold wr_D. wp_steps.
  eapply wp_array_get; [done|]. wp_steps. done.
Qed.

Lemma wp_wr_Q i x (R : unit → bfs → Prop) s :
  0 ≤ i < Z.of_nat (length (Q s)) →
  R tt (s <| Q := aset (Q s) i x |>) → wp (wr_Q i x) R s.
Proof.
  intros Hi HR. destruct (aget_is_Some _ _ Hi) as [y Hy]. unfold wr_Q. wp_steps.
  eapply wp_array_get; [done|]. wp_steps. done.
Qed.
End Arrays.

Lemma aget_aset_any {A} (l : list A) i j x :
  0 ≤ i < Z.of_nat (length l) →
  aget (aset l i x) j = if j =? i then Some x else aget l j.
Proof.
  intros Hi. destruct (Z.eqb_spec j i) as [->|]; [by apply aget_aset_eq|].
  apply aget_aset_ne; lia.
Qed.

(** ** The generated graph *)

(** The entry at position [p] of the matrix. *)
Definition gen_entry (N DEG p : Z) : Z :=
  if p / DEG =? 0 then p mod DEG + 1 else Z.min (p / DEG + p mod DEG) (N - 1).

Section Generated.
Context (N DEG : Z) (s0 : bfs).
Hypothesis HD : 0 < DEG < N.
Hypothesis HN : N * DEG < 2 ^ 31.

(** Entries below [p] are done, the others [-1]. *)
Definition filled (p : Z) (l : list Z) : Prop :=
  Z.of_nat (length l) = N * DEG ∧
  ∀ q, 0 ≤ q < N * DEG → aget l q = Some (if q <? p then gen_entry N DEG q else -1).

Lemma row_pos i j : 0 ≤ i < N → 0 ≤ j < DEG → 0 ≤ i * DEG + j < N * DEG.
Proof using HD. intros. nia. Qed.

Lemma gen_entry_at i j :
  0 ≤ i → 0 ≤ j < DEG →
  gen_entry N DEG (i * DEG + j) = if i =? 0 then j + 1 else Z.min (i + j) (N - 1).
Proof using HD.
  intros Hi Hj. unfold gen_entry.
  rewrite Z.div_add_l, (Z.div_small j) by lia. rewrite (Z.add_comm (i * DEG) j), Z_mod_plus_full, Z.mod_small by lia.
  by rewrite Z.add_0_r.
Qed.

Lemma clear_ok :
  Z.of_nat (length (W_index s0)) = N * DEG →
  wp (forM (seqZ 0 N) (λ i, forM (seqZ 0 DEG) (λ j, k <- flat DEG i j;; wr_W k (-1))))
     (λ _ s, ∃ l, s = s0 <| W_index := l |> ∧ filled 0 l) s0.
Proof using HD HN.
  intros Hlen.
  set (I := λ p s, ∃ l, s = s0 <| W_index := l |> ∧ Z.of_nat (length l) = N * DEG ∧
                        ∀ q, 0 ≤ q < p → aget l q = Some (-1)).
  eapply wp_mono.
  - apply (wp_forM_seqZ (λ i, I (i * DEG))); [lia| |].
    2: { exists (W_index s0). split_and!; [by destruct s0|done|lia]. }
    intros i s Hi HI. replace ((i + 1) * DEG) with (i * DEG + (0 + DEG)) by lia.
    apply (wp_forM_seqZ (λ j, I (i * DEG + j))); [lia| |by rewrite Z.add_0_r].
    intros j t Hj (l & -> & Hl & Hq). apply wp_bind. pose proof (row_pos i j ltac:(lia) ltac:(lia)).
    apply wp_flat; [lia..|]. apply wp_wr_W; [simpl; lia|]. exists (aset l (i * DEG + j) (-1)).
    simpl. split_and!; [done|by rewrite length_aset|]. intros q Hq'.
    rewrite aget_aset_any by lia. destruct (Z.eqb_spec q (i * DEG + j)); [done|]. apply Hq. lia.
  - intros [] s (l & -> & Hl & Hq). exists l. split; [done|]. split; [lia|]. intros q Hq'.
    destruct (Z.ltb_spec q 0); [lia|]. apply Hq. lia.
Qed.

(** What [last] holds before column [j]. *)
Definition last_at (i j : Z) : Z := if j =? 0 then 0 else if i =? 0 then j else i + j - 1.

Lemma fill_row_ok i n : ∀ j l,
  0 ≤ i < N → 0 ≤ j → j + Z.of_nat n = DEG → filled (i * DEG + j) l →
  wp (fill_row N DEG i (seqZ j (Z.of_nat n)) (last_at i j))
     (λ _ s, ∃ l', s = s0 <| W_index := l' |> ∧ filled ((i + 1) * DEG) l') (s0 <| W_index := l |>).
Proof using HD HN.
  induction n as [|n IH]; intros j l Hi Hj Hn [Hlen Hl].
  { simpl. apply wp_ret. exists l. split; [done|]. replace ((i + 1) * DEG) with (i * DEG + j) by lia. done. }
  rewrite seqZ_cons by lia. replace (Z.pred (Z.of_nat (S n))) with (Z.of_nat n) by lia. cbn [fill_row].
  pose proof (row_pos i j Hi ltac:(lia)) as Hp. set (p := i * DEG + j) in *.
  apply wp_bind, wp_flat; [lia..|]. fold p. wp_steps.
  eapply wp_array_get; [simpl; rewrite Hl by lia; by rewrite Z.ltb_irrefl|].
  (* the entry before the correction at the end of the pass *)
  set (w := if i =? 0 then j + 1 else i + j).
  assert (Hlast : last_at i (Z.succ j) = w).
  { unfold last_at, w. destruct (Z.eqb_spec (Z.succ j) 0); [lia|]. destruct (i =? 0); lia. }
  apply wp_bind. eapply (wp_mono _ (λ v s, v = w ∧ s = s0 <| W_index := aset l p w |>)).
  { rewrite Z.eqb_refl. apply wp_bind, wp_int; [nia|]. unfold last_at, w.
    destruct (Z.ltb_spec (if j =? 0 then 0 else if i =? 0 then j else i + j - 1) (i + j)) as [Hlt|Hge].
    - assert (i ≠ 0) by (destruct (Z.eqb_spec j 0), (Z.eqb_spec i 0); lia).
      destruct (Z.eqb_spec i 0); [lia|]. wp_step. apply wp_wr_W; [simpl; lia|]. by wp_step.
    - assert (i = 0) as -> by (destruct (Z.eqb_spec j 0), (Z.eqb_spec i 0); lia). simpl.
      assert ((if j =? 0 then 0 else j) = j) as -> by (destruct (Z.eqb_spec j 0); lia).
      destruct (Z.ltb_spec j (N - 1)); [|lia]. wp_step. apply wp_wr_W; [simpl; lia|]. by wp_step. }
  intros ? ? [-> ->]. wp_steps.
  eapply wp_array_get; [simpl; by apply aget_aset_eq; lia|].
  assert (Hfill : ∀ l', length l' = length l →
            (∀ q, aget l' q = if q =? p then Some (gen_entry N DEG p) else aget l q) →
            filled (i * DEG + Z.succ j) l').
  { intros l' E E'. split; [lia|]. intros q Hq. rewrite E', Hl by done. unfold p in *.
    destruct (Z.eqb_spec q (i * DEG + j)) as [->|].
    - by destruct (Z.ltb_spec (i * DEG + j) (i * DEG + Z.succ j)); [|lia].
    - destruct (Z.ltb_spec q (i * DEG + j)), (Z.ltb_spec q (i * DEG + Z.succ j)); (done || lia). }
  assert (Hent : gen_entry N DEG p = Z.min w (N - 1)).
  { unfold p, w. rewrite gen_entry_at by lia. destruct (Z.eqb_spec i 0); lia. }
  wp_step. wp_step.
  - apply wp_wr_W; [simpl; rewrite length_aset; lia|]. simpl. rewrite <- Hlast.
    apply IH; [lia..|]. apply Hfill; [by rewrite !length_aset|]. intros q.
    rewrite aset_aset, aget_aset_any, Hent by lia. destruct (q =? p); [|done]. f_equal. lia.
  - rewrite <- Hlast. apply IH; [lia..|]. apply Hfill; [by rewrite !length_aset|]. intros q.
    rewrite aget_aset_any, Hent by lia. destruct (q =? p); [|done]. f_equal. lia.
Qed.

Lemma init_weights_ok :
  Z.of_nat (length (W_index s0)) = N * DEG →
  wp (init_weights N DEG) (λ _ s, ∃ l, s = s0 <| W_index := l |> ∧ filled (N * DEG) l) s0.
Proof using HD HN.
  intros Hlen. unfold init_weights. apply wp_bind. eapply wp_mono; [by apply clear_ok|].
  intros [] s (l & -> & Hl).
  apply (wp_forM_seqZ (λ i s, ∃ l, s = s0 <| W_index := l |> ∧ filled (i * DEG) l)); [lia| |by exists l].
  intros i s Hi (l' & -> & Hl'). replace DEG with (Z.of_nat (Z.to_nat DEG)) at 2 by lia.
  apply fill_row_ok; [lia..|]. by rewrite Z.add_0_r.
Qed.
End Generated.

(** ** A state the threads can start from *)

(** Vertex [v] is in the graph. *)
Definition exists1 (l : list Z) (v : Z) : bool := bool_decide (aget l v = Some 1).

Record graph_ok (N DEG : Z) (s : bfs) : Prop := {
  go_deg : 0 < DEG;
  go_size : N * DEG < 2 ^ 31;
  go_W : Z.of_nat (length (W_index s)) = N * DEG;
  go_len : ∀ l, l ∈ [edges s; exist s; D s; Q s; temporary s] → Z.of_nat (length l) = N;
  go_locks : Z.of_nat (length (locks s)) = N;
  go_largest : 0 ≤ largest s < N;
  go_exist : ∀ v, 0 ≤ v ≤ largest s → aget (exist s) v = Some (if exists1 (exist s) v then 1 else 0);
  go_edges : ∀ v, 0 ≤ v ≤ largest s → ∃ e, aget (edges s) v = Some e ∧ 0 ≤ e ≤ DEG;
  go_nbr : ∀ v e j, 0 ≤ v ≤ largest s → aget (edges s) v = Some e → 0 ≤ j < e →
             ∃ w, aget (W_index s) (v * DEG + j) = Some w ∧ 0 ≤ w ≤ largest s ∧
                  exists1 (exist s) w = true }.

(** The colours and counters as they are when the threads start. *)
Record start_ok (N DEG : Z) (s : bfs) : Prop := {
  so_graph : graph_ok N DEG s;
  so_total : Total s = count_if (exists1 (exist s)) (seqZ 0 (largest s + 1));
  so_locks : ∀ v, 0 ≤ v ≤ largest s → exists1 (exist s) v = true → aget (locks s) v = Some true;
  so_D : ∀ v, 0 ≤ v < N → aget (D s) v = Some (if v =? 0 then 1 else 0);
  so_Q : ∀ v, 0 ≤ v < N → aget (Q s) v = Some (if v =? 0 then 0 else 1);
  so_temporary : ∀ v, 0 ≤ v < N → aget (temporary s) v = Some 0 }.

Lemma count_if_app {A} (f : A → bool) l k : count_if f (l ++ k) = count_if f l + count_if f k.
Proof. induction l; simpl; lia. Qed.

Lemma count_if_ext {A} (f g : A → bool) l : (∀ x, x ∈ l → f x = g x) → count_if f l = count_if g l.
Proof.
  induction l as [|a l IH]; intros H; [done|]. simpl. rewrite (H a) by left.
  rewrite IH; [done|]. intros x Hx. apply H. by right.
Qed.

(** What one count of the vertices changes. *)
Record counted (select DEG : Z) (s0 : bfs) (i : Z) (s : bfs) : Prop := {
  ct_rest : s <| edges := edges s0 |> <| exist := exist s0 |> <| locks := locks s0 |> <| Total := Total s0 |> = s0;
  ct_len : length (edges s) = length (edges s0) ∧ length (exist s) = length (exist s0) ∧
           length (locks s) = length (locks s0);
  ct_exist : ∀ v, aget (exist s) v = if (select =? 0) && (0 <=? v) && (v <? i) then Some 1 else aget (exist s0) v;
  ct_edges : ∀ v, aget (edges s) v = if (select =? 0) && (0 <=? v) && (v <? i) then Some DEG else aget (edges s0) v;
  ct_locks : ∀ v, 0 ≤ v < i → exists1 (exist s) v = true → aget (locks s) v = Some true;
  ct_total : Total s = Total s0 + count_if (exists1 (exist s)) (seqZ 0 i) }.

Lemma count_exists l i e : 0 ≤ i → aget l i = Some e →
  count_if (exists1 l) (seqZ 0 (i + 1)) = count_if (exists1 l) (seqZ 0 i) + (if e =? 1 then 1 else 0).
Proof.
  intros Hi He. rewrite seqZ_app by lia. rewrite count_if_app. f_equal. rewrite (seqZ_cons (0 + i) 1) by lia. simpl.
  rewrite !Z.add_0_l. unfold exists1. rewrite He. destruct (Z.eqb_spec e 1) as [->|]; [done|].
  rewrite bool_decide_eq_false_2 by congruence. done.
Qed.

Lemma count_vertex_ok select DEG s0 i s :
  0 ≤ i < Z.of_nat (length (exist s0)) → length (edges s0) = length (exist s0) →
  length (locks s0) = length (exist s0) → Total s0 = 0 → i < 2 ^ 31 - 1 →
  counted select DEG s0 i s → wp (count_vertex select DEG i) (λ _, counted select DEG s0 (i + 1)) s.
Proof.
  intros Hi Hle Hlk Ht Hi31 H. destruct H as [Hr (L1 & L2 & L3) He Hd Hk Hc]. unfold count_vertex.
  apply wp_bind. eapply (wp_mono _ (λ _ t, ∃ ex ed, t = s <| exist := ex |> <| edges := ed |> ∧
    length ed = length (edges s) ∧ length ex = length (exist s) ∧
    (∀ v, aget ex v = if (select =? 0) && (v =? i) then Some 1 else aget (exist s) v) ∧
    (∀ v, aget ed v = if (select =? 0) && (v =? i) then Some DEG else aget (edges s) v))).
  { destruct (select =? 0); simpl.
    - apply wp_bind. apply wp_wr_exist; [lia|]. apply wp_wr_edges; [simpl; lia|]. simpl.
      eexists _, _. split; [reflexivity|]. rewrite !length_aset. split_and!; try done.
      + intros v. by rewrite aget_aset_any by lia.
      + intros v. by rewrite aget_aset_any by lia.
    - apply wp_ret. exists (exist s), (edges s). by destruct s. }
  intros [] t (ex & ed & -> & E1 & E2 & E3 & E4).
  assert (Hex : ∀ v, aget ex v = if (select =? 0) && (0 <=? v) && (v <? i + 1) then Some 1 else aget (exist s0) v).
  { intros v. rewrite E3, He. destruct (select =? 0); simpl; [|done].
    destruct (Z.eqb_spec v i), (Z.leb_spec 0 v), (Z.ltb_spec v i), (Z.ltb_spec v (i + 1)); simpl; try done; lia. }
  assert (Hed : ∀ v, aget ed v = if (select =? 0) && (0 <=? v) && (v <? i + 1) then Some DEG else aget (edges s0) v).
  { intros v. rewrite E4, Hd. destruct (select =? 0); simpl; [|done].
    destruct (Z.eqb_spec v i), (Z.leb_spec 0 v), (Z.ltb_spec v i), (Z.ltb_spec v (i + 1)); simpl; try done; lia. }
  assert (Hold : ∀ v, 0 ≤ v < i → exists1 ex v = exists1 (exist s) v).
  { intros v Hv. unfold exists1. rewrite E3. destruct (Z.eqb_spec v i); [lia|]. by rewrite andb_false_r. }
  assert (Hcnt : count_if (exists1 ex) (seqZ 0 i) = count_if (exists1 (exist s)) (seqZ 0 i)).
  { apply count_if_ext. intros v Hv%elem_of_seqZ. apply Hold. lia. }
  destruct (aget_is_Some ex i) as [e Hei]; [lia|]. wp_steps. simpl. eapply wp_array_get; [done|].
  assert (B : count_if (exists1 (exist s)) (seqZ 0 i) ≤ i).
  { pose proof (count_if_bounds (exists1 (exist s)) (seqZ 0 i)). rewrite length_seqZ in *. lia. }
  pose proof (count_if_bounds (exists1 (exist s)) (seqZ 0 i)).
  destruct (aget_is_Some (locks s) i) as [b Hb]; [lia|].
  destruct (e =? 1) eqn:Ee; simpl; wp_steps; simpl.
  - apply wp_int; [lia|]. wp_steps. simpl. eapply wp_get_some; [done|]. wp_steps. simpl.
    split; simpl.
    + exact Hr.
    + rewrite length_aset. lia.
    + done.
    + done.
    + intros v Hv Hev. rewrite aget_aset_any by lia. destruct (Z.eqb_spec v i); [done|].
      apply Hk; [lia|]. rewrite <- Hold by lia. done.
    + rewrite (count_exists ex i e), Ee by (done || lia). lia.
  - split; simpl; try done.
    + lia.
    + intros v Hv Hev. destruct (decide (v = i)) as [->|].
      * exfalso. unfold exists1 in Hev. rewrite Hei in Hev. apply bool_decide_eq_true in Hev as [= ->]. done.
      * apply Hk; [lia|]. rewrite <- Hold by lia. done.
    + rewrite (count_exists ex i e), Ee by (done || lia). lia.
Qed.

Lemma initialize_ok N s :
  0 < N → Z.of_nat (length (D s)) = N → Z.of_nat (length (Q s)) = N →
  wp (initialize_single_source 0 N)
     (λ _ t, ∃ d q, t = s <| D := d |> <| Q := q |> ∧
        Z.of_nat (length d) = N ∧ Z.of_nat (length q) = N ∧
        (∀ v, 0 ≤ v < N → aget d v = Some (if v =? 0 then 1 else 0)) ∧
        (∀ v, 0 ≤ v < N → aget q v = Some (if v =? 0 then 0 else 1))) s.
Proof.
  intros HN HD HQ. unfold initialize_single_source. apply wp_bind.
  eapply wp_mono.
  - apply (wp_forM_seqZ (λ i t, ∃ d q, t = s <| D := d |> <| Q := q |> ∧
        Z.of_nat (length d) = N ∧ Z.of_nat (length q) = N ∧
        (∀ v, 0 ≤ v < i → aget d v = Some 0) ∧ (∀ v, 0 ≤ v < i → aget q v = Some 1))); [lia| |].
    + intros i t Hi (d & q & -> & Ld & Lq & Hd & Hq). apply wp_bind.
      apply wp_wr_D; [simpl; lia|]. apply wp_wr_Q; [simpl; lia|]. simpl.
      eexists _, _. split; [reflexivity|]. rewrite !length_aset. split_and!; try done; intros v Hv.
      * rewrite aget_aset_any by lia. destruct (Z.eqb_spec v i); [done|]. apply Hd. lia.
      * rewrite aget_aset_any by lia. destruct (Z.eqb_spec v i); [done|]. apply Hq. lia.
    + exists (D s), (Q s). split; [by destruct s|]. split_and!; try done; lia.
  - intros [] t (d & q & -> & Ld & Lq & Hd & Hq). apply wp_bind.
    apply wp_wr_D; [simpl; lia|]. apply wp_wr_Q; [simpl; lia|]. simpl.
    eexists _, _. split; [reflexivity|]. rewrite !length_aset. split_and!; try done; intros v Hv.
    + rewrite aget_aset_any by lia. destruct (Z.eqb_spec v 0); [done|]. apply Hd. lia.
    + rewrite aget_aset_any by lia. destruct (Z.eqb_spec v 0); [done|]. apply Hq. lia.
Qed.

(** The arrays have their sizes, and nothing is counted or coloured yet. *)
Record blank (N DEG : Z) (s : bfs) : Prop := {
  bl_deg : 0 < DEG;
  bl_size : N * DEG < 2 ^ 31;
  bl_W : Z.of_nat (length (W_index s)) = N * DEG;
  bl_len : ∀ l, l ∈ [edges s; exist s; D s; Q s; temporary s] → Z.of_nat (length l) = N;
  bl_locks : Z.of_nat (length (locks s)) = N;
  bl_temporary : ∀ v, 0 ≤ v < N → aget (temporary s) v = Some 0;
  bl_total : Total s = 0 }.

(** The tables [counted] leaves describe a graph. *)
Definition graph_after (select DEG : Z) (s : bfs) : Prop :=
  ∀ t, counted select DEG s (largest s + 1) t →
    (∀ v, 0 ≤ v ≤ largest s → aget (exist t) v = Some (if exists1 (exist t) v then 1 else 0)) ∧
    (∀ v, 0 ≤ v ≤ largest s → ∃ e, aget (edges t) v = Some e ∧ 0 ≤ e ≤ DEG) ∧
    (∀ v e j, 0 ≤ v ≤ largest s → aget (edges t) v = Some e → 0 ≤ j < e →
       ∃ w, aget (W_index s) (v * DEG + j) = Some w ∧ 0 ≤ w ≤ largest s ∧ exists1 (exist t) w = true).

Lemma prepare_end_ok o s :
  blank (o_N o) (o_DEG o) s → 0 ≤ largest s < o_N o → graph_after (o_select o) (o_DEG o) s →
  wp (prepare_end o)
     (λ r t, r = Ready ∧ start_ok (o_N o) (o_DEG o) t ∧
        ∃ u, counted (o_select o) (o_DEG o) s (largest s + 1) u ∧ W_index t = W_index s ∧
             largest t = largest s ∧ edges t = edges u ∧ exist t = exist u) s.
Proof.
  intros [Hdeg Hsize HW Hlen Hlk Htmp Htot] Hl Hg. unfold prepare_end. wp_steps.
  assert (o_N o < 2 ^ 31) by nia.
  assert (Le : Z.of_nat (length (edges s)) = o_N o) by (apply Hlen; rewrite !elem_of_cons; tauto).
  assert (Lx : Z.of_nat (length (exist s)) = o_N o) by (apply Hlen; rewrite !elem_of_cons; tauto).
  assert (LD : Z.of_nat (length (D s)) = o_N o) by (apply Hlen; rewrite !elem_of_cons; tauto).
  assert (LQ : Z.of_nat (length (Q s)) = o_N o) by (apply Hlen; rewrite !elem_of_cons; tauto).
  assert (Lt : Z.of_nat (length (temporary s)) = o_N o) by (apply Hlen; rewrite !elem_of_cons; tauto).
  apply wp_int; [lia|]. wp_steps. eapply wp_mono.
  { apply (wp_forM_seqZ (counted (o_select o) (o_DEG o) s)); [lia| |].
    - intros i t Hi Hct. apply count_vertex_ok; try done; lia.
    - split; try done.
      + by destruct s.
      + intros v. destruct (Z.leb_spec 0 v), (Z.ltb_spec v 0); rewrite ?andb_false_r; try done; lia.
      + intros v. destruct (Z.leb_spec 0 v), (Z.ltb_spec v 0); rewrite ?andb_false_r; try done; lia.
      + lia.
      + simpl. lia. }
  intros [] u Hu. rewrite Z.add_0_l in Hu. destruct (Hg u Hu) as (Gx & Ge & Gn).
  pose proof Hu as [Hr (L1 & L2 & L3) Hx He Hk Hc].
  assert (Er : W_index u = W_index s ∧ D u = D s ∧ Q u = Q s ∧ temporary u = temporary s ∧ largest u = largest s).
  { rewrite <- Hr. by simpl. }
  destruct Er as (EW & ED & EQ & ET & EL). wp_step.
  eapply wp_mono; [apply initialize_ok; [lia|congruence..]|].
  intros [] t (d & q & -> & Ld & Lq & Hd & Hq). apply wp_ret. split; [done|]. split.
  - split; simpl.
    + split; simpl; rewrite ?EW, ?EL; try done; try lia.
      intros l. rewrite !elem_of_cons, elem_of_nil. intros [->|[->|[->|[->|[->|[]]]]]]; congruence || lia.
    + rewrite Hc, Htot, EL. lia.
    + rewrite EL. intros v Hv. apply Hk. lia.
    + done.
    + done.
    + by rewrite ET.
  - exists u. done.
Qed.

(** The matrix of [init_weights] is a graph on [N] vertices of degree [DEG]. *)
Lemma generated_graph N DEG s :
  0 < DEG < N → N * DEG < 2 ^ 31 → largest s = N - 1 → filled N DEG (N * DEG) (W_index s) →
  graph_after 0 DEG s.
Proof.
  intros HD HN HL [Hlen Hf] t [_ _ Hx He _ _]. rewrite HL in *.
  assert (E1 : ∀ v, 0 ≤ v ≤ N - 1 → aget (exist t) v = Some 1).
  { intros v Hv. rewrite Hx. simpl. destruct (Z.leb_spec 0 v), (Z.ltb_spec v (N - 1 + 1)); try lia. done. }
  assert (E2 : ∀ v, 0 ≤ v ≤ N - 1 → aget (edges t) v = Some DEG).
  { intros v Hv. rewrite He. simpl. destruct (Z.leb_spec 0 v), (Z.ltb_spec v (N - 1 + 1)); try lia. done. }
  split_and!.
  - intros v Hv. unfold exists1. rewrite E1 by done. done.
  - intros v Hv. exists DEG. rewrite E2 by done. split; [done|lia].
  - intros v e j Hv Hev Hj. rewrite E2 in Hev by done. injection Hev as <-.
    pose proof (row_pos N DEG ltac:(lia) v j ltac:(lia) ltac:(lia)) as Hp.
    exists (gen_entry N DEG (v * DEG + j)). rewrite Hf by lia.
    destruct (Z.ltb_spec (v * DEG + j) (N * DEG)); [|lia]. split; [done|].
    assert (Hr : 0 ≤ gen_entry N DEG (v * DEG + j) ≤ N - 1).
    { rewrite gen_entry_at by lia. destruct (v =? 0); lia. }
    split; [lia|]. unfold exists1. rewrite E1 by lia. done.
Qed.

Lemma calloc_blank o : 0 < o_DEG o → 0 ≤ o_N o → o_N o * o_DEG o < 2 ^ 31 → blank (o_N o) (o_DEG o) (bfs_calloc o).
Proof.
  intros. split; try done; simpl; rewrite ?length_replicate; try lia.
  - intros l. rewrite !elem_of_cons, elem_of_nil. intros [->|[->|[->|[->|[->|[]]]]]]; rewrite length_replicate; lia.
  - intros v Hv. unfold aget. destruct (Z.leb_spec 0 v); [|lia]. apply lookup_replicate. lia.
Qed.

(** ** Files *)

(** The text of a list of edges. *)
Definition decimal (n : Z) : str := digits 10 n [].
Definition edge_text (e : Z * Z) : str := decimal e.1 ++ 9 :: decimal e.2 ++ [10].
Definition edges_text (es : list (Z * Z)) : str := mjoin (edge_text <$> es).

(** Four lines of comments. *)
Definition header_ok (h : str) : Prop := count_if (Z.eqb 10) h = 3 ∧ 255 ∉ h.

Definition vertex_ok (e : Z * Z) : Prop := 0 ≤ e.1 < 2 ^ 31 ∧ 0 ≤ e.2 < 2 ^ 31.

Definition add_edges (DEG : Z) (es : list (Z * Z)) : M bfs unit := forM es (λ e, add_edge DEG e.1 e.2).

Lemma scan_decimal fuel : ∀ n acc rest, (fuel ≠ 0)%nat → 0 ≤ n < 10 ^ Z.of_nat fuel →
  scan_digits 0 (digits fuel n acc ++ rest) = scan_digits n (acc ++ rest).
Proof.
  induction fuel as [|fuel IH]; intros n acc rest Hf Hn; [done|]. cbn [digits].
  assert (Hd : isdigit (48 + n mod 10) = true).
  { pose proof (Z.mod_pos_bound n 10). unfold isdigit. apply andb_true_iff. lia. }
  destruct (Z.ltb_spec n 10).
  - simpl. rewrite Hd. f_equal. rewrite Z.mod_small; lia.
  - rewrite Nat2Z.inj_succ, Z.pow_succ_r in Hn by lia.
    rewrite IH; [|destruct fuel; simpl in *; [lia|done]|].
    + simpl. rewrite Hd. f_equal. pose proof (Z.div_mod n 10). lia.
    + split; [apply Z.div_pos; lia|]. apply Z.div_lt_upper_bound; lia.
Qed.

(** A decimal number starts with a digit. *)
Lemma decimal_head fuel : ∀ n acc, (fuel ≠ 0)%nat → 0 ≤ n → ∃ c r, digits fuel n acc = c :: r ∧ isdigit c = true.
Proof.
  induction fuel as [|fuel IH]; intros n acc Hf Hn; [done|]. cbn [digits].
  destruct (Z.ltb_spec n 10).
  - eexists _, _. split; [done|]. pose proof (Z.mod_pos_bound n 10). unfold isdigit. apply andb_true_iff. lia.
  - destruct fuel as [|fuel].
    + eexists _, _. split; [done|]. pose proof (Z.mod_pos_bound n 10). unfold isdigit. apply andb_true_iff. lia.
    + apply IH; [done|]. apply Z.div_pos; lia.
Qed.

Lemma scan_int_decimal n rest c r :
  0 ≤ n < 2 ^ 31 → rest = c :: r → isdigit c = false →
  skip_space (decimal n ++ rest) = decimal n ++ rest ∧ scan_int (decimal n ++ rest) = ScInt n rest.
Proof.
  intros Hn -> Hc. destruct (decimal_head 10 n []) as (d & ds & E & Hd); [done|lia|].
  pose proof (scan_decimal 10 n [] (c :: r) ltac:(done) ltac:(lia)) as Hs. unfold decimal in *.
  rewrite E in *. unfold isdigit in Hd. apply andb_true_iff in Hd as [D1 D2].
  assert (Hsp : skip_space ((d :: ds) ++ c :: r) = (d :: ds) ++ c :: r).
  { simpl. unfold isspace. destruct (Z.eqb_spec d 32), (Z.leb_spec 9 d), (Z.leb_spec d 13); simpl; try done; lia. }
  split; [done|]. unfold scan_int. rewrite Hsp. simpl.
  destruct (Z.eqb_spec d 45); [lia|]. destruct (Z.eqb_spec d 43); [lia|].
  unfold isdigit at 1. rewrite D1, D2. simpl in Hs. unfold isdigit at 1 in Hs. rewrite D1, D2 in Hs. simpl in Hs.
  simpl. unfold isdigit at 1. rewrite D1, D2. simpl. rewrite Hs, Hc. f_equal. lia.
Qed.

Lemma scan_int_space c s : isspace c = true → scan_int (c :: s) = scan_int s.
Proof. intros H. unfold scan_int. simpl. by rewrite H. Qed.

Lemma int_M_ok {S} z (s : S) : 0 ≤ z < 2 ^ 31 → intM z s = Ok (z, s).
Proof.
  intros Hz. unfold intM, int_ok. destruct (Z.leb_spec (- 2 ^ 31) z), (Z.ltb_spec z (2 ^ 31)); try lia. done.
Qed.

Lemma fscanf2_edge e rest s :
  vertex_ok e → fscanf2 (edge_text e ++ rest) s = Ok ((2, e, 10 :: rest), s).
Proof.
  intros [H1 H2]. unfold fscanf2, edge_text. rewrite <- !app_assoc. simpl. rewrite <- app_assoc.
  destruct (scan_int_decimal e.1 (9 :: decimal e.2 ++ [10] ++ rest) 9 _ H1 eq_refl eq_refl) as [_ ->].
  rewrite (bind_ok _ _ _ _ _ (int_M_ok _ _ H1)).
  destruct (scan_int_decimal e.2 ([10] ++ rest) 10 _ H2 eq_refl eq_refl) as [Es E].
  simpl in Es, E. simpl. rewrite Es, E. rewrite (bind_ok _ _ _ _ _ (int_M_ok _ _ H2)). by destruct e.
Qed.

(** The loop from the end of a line on. *)
Lemma read_edge DEG e rest fuel lines numbers s :
  vertex_ok e → 3 ≤ lines →
  read_loop (S fuel) DEG (10 :: edge_text e ++ rest) lines numbers s =
    (add_edge DEG e.1 e.2 ;;; read_loop fuel DEG (10 :: rest) (lines + 1) (Some e)) s.
Proof.
  intros He Hl. cbn [read_loop]. simpl (10 =? 255). simpl (10 =? 10). cbv iota.
  destruct (Z.ltb_spec 3 (lines + 1)); [|lia].
  by rewrite (bind_ok _ _ _ _ _ (fscanf2_edge e rest s He)).
Qed.

(** At the end of the file the last two numbers are stored again. *)
Lemma read_edges DEG es : ∀ fuel lines n s,
  Forall vertex_ok es → 3 ≤ lines → (length (edges_text es) < fuel)%nat →
  read_loop fuel DEG (10 :: edges_text es) lines (Some n) s =
    (add_edges DEG (es ++ [default n (last es)]) ;;; retM true) s.
Proof.
  induction es as [|e es IH]; intros fuel lines n s Hes Hl Hf; (destruct fuel as [|fuel]; [simpl in Hf; lia|]).
  - simpl. destruct (Z.ltb_spec 3 (lines + 1)); [|lia].
    unfold bindM at 1. simpl. unfold add_edges. simpl. unfold bindM.
    unfold get_some. destruct (add_edge DEG n.1 n.2 s) as [[[] t]|]; [|done]. by destruct fuel.
  - apply Forall_cons in Hes as [He Hes].
    change (edges_text (e :: es)) with (edge_text e ++ edges_text es) in *.
    rewrite read_edge by done.
    transitivity ((add_edge DEG e.1 e.2 ;;; add_edges DEG (es ++ [default n (last (e :: es))]) ;;; retM true) s).
    2: { unfold add_edges, bindM. simpl. unfold bindM. by destruct (add_edge DEG e.1 e.2 s) as [[[] t]|]. }
    unfold bindM at 1 2. destruct (add_edge DEG e.1 e.2 s) as [[[] t]|]; [|done].
    rewrite IH; [|done|lia|].
    + do 4 f_equal. rewrite last_cons. by destruct (last es).
    + simpl in Hf |- *. rewrite length_app in Hf. unfold edge_text in Hf. rewrite length_app in Hf.
      simpl in Hf. lia.
Qed.

(** The loop over the first lines. *)
Lemma read_header DEG h : ∀ fuel lines rest numbers s,
  255 ∉ h → lines + count_if (Z.eqb 10) h ≤ 3 → (length h ≤ fuel)%nat →
  read_loop fuel DEG (h ++ rest) lines numbers s =
    read_loop (fuel - length h) DEG rest (lines + count_if (Z.eqb 10) h) numbers s.
Proof.
  induction h as [|c h IH]; intros fuel lines rest numbers s H255 Hl Hf.
  { simpl. by rewrite Z.add_0_r, Nat.sub_0_r. }
  apply not_elem_of_cons in H255 as [Hc H255]. destruct fuel as [|fuel]; [simpl in Hf; lia|].
  cbn [app read_loop]. destruct (Z.eqb_spec c 255); [lia|].
  cbn [count_if] in Hl |- *. pose proof (count_if_bounds (Z.eqb 10) h). rewrite (Z.eqb_sym 10 c) in *.
  replace (if c =? 10 then lines + 1 else lines) with (lines + (if c =? 10 then 1 else 0)) by (destruct (c =? 10); lia).
  destruct (Z.ltb_spec 3 (lines + (if c =? 10 then 1 else 0))); [lia|].
  rewrite IH; [|done|lia|simpl in Hf; lia]. by rewrite Z.add_assoc.
Qed.

Lemma read_file_edges DEG h e es s :
  header_ok h → Forall vertex_ok (e :: es) →
  read_file DEG (h ++ 10 :: edges_text (e :: es)) s =
    (add_edges DEG ((e :: es) ++ [default e (last es)]) ;;; retM true) s.
Proof.
  intros [Hh H255] Hes. unfold read_file. rewrite read_header; [|done|lia|rewrite length_app; lia].
  rewrite length_app, Nat.add_comm, Nat.add_sub, Hh. simpl length. rewrite Z.add_0_l.
  transitivity (read_loop (S (length (edges_text (e :: es)))) DEG (10 :: edges_text (e :: es)) 3 (Some e) s).
  - pose proof Hes as [He _]%Forall_cons.
    change (edges_text (e :: es)) with (edge_text e ++ edges_text es). rewrite !read_edge by done. done.
  - rewrite read_edges by (done || lia). do 4 f_equal. rewrite last_cons. by destruct (last es).
Qed.

(** The successors of [v], in the order of the file. *)
Definition succs (es : list (Z * Z)) (v : Z) : list Z := snd <$> filter (λ e, e.1 = v) es.
Definition endpoint (es : list (Z * Z)) (v : Z) : bool := existsb (λ e, (e.1 =? v) || (e.2 =? v)) es.

(** The arrays hold the edges [es]. *)
Record stored (N DEG : Z) (s0 : bfs) (es : list (Z * Z)) (s : bfs) : Prop := {
  st_rest : s <| W_index := W_index s0 |> <| edges := edges s0 |> <| exist := exist s0 |>
              <| largest := largest s0 |> = s0;
  st_lenW : Z.of_nat (length (W_index s)) = N * DEG;
  st_lenE : Z.of_nat (length (edges s)) = N;
  st_lenX : Z.of_nat (length (exist s)) = N;
  st_edges : ∀ v, 0 ≤ v < N → aget (edges s) v = Some (Z.of_nat (length (succs es v)));
  st_exist : ∀ v, 0 ≤ v < N → aget (exist s) v = Some (if endpoint es v then 1 else 0);
  st_W : ∀ v (j : nat) w, 0 ≤ v < N → succs es v !! j = Some w → aget (W_index s) (v * DEG + Z.of_nat j) = Some w;
  st_room : ∀ v, Z.of_nat (length (succs es v)) ≤ DEG;
  st_bound : 0 ≤ largest s < N;
  st_largest : ∀ v, endpoint es v = true → v ≤ largest s }.

(** No vertex has more successors than a row has room. *)
Definition fits_rows (N DEG : Z) (es : list (Z * Z)) : Prop :=
  (∀ e, e ∈ es → 0 ≤ e.1 < N ∧ 0 ≤ e.2 < N) ∧ (∀ v, Z.of_nat (length (succs es v)) ≤ DEG).

Lemma succs_snoc es a b v : succs (es ++ [(a, b)]) v = if a =? v then succs es v ++ [b] else succs es v.
Proof.
  unfold succs. rewrite filter_app, fmap_app. f_equal. unfold filter at 2, list_filter. simpl.
  destruct (Z.eqb_spec a v); case_decide; simpl; try done; by rewrite app_nil_r.
Qed.

Lemma endpoint_snoc es a b v : endpoint (es ++ [(a, b)]) v = endpoint es v || ((a =? v) || (b =? v)).
Proof. unfold endpoint. rewrite existsb_app. simpl. by rewrite orb_false_r. Qed.

Section Stored.
Context (N DEG : Z) (s0 : bfs).
Hypothesis HD : 0 < DEG.
Hypothesis HN : N * DEG < 2 ^ 31.

Lemma add_edge_ok es a b s :
  stored N DEG s0 es s → 0 ≤ a < N → 0 ≤ b < N → Z.of_nat (length (succs es a)) < DEG →
  wp (add_edge DEG a b) (λ _, stored N DEG s0 (es ++ [(a, b)])) s.
Proof using HD HN.
  intros [Hr LW LE LX He Hx HW Hm Hb Hg] Ha Hb' Hroom. unfold add_edge.
  set (g := Z.max (Z.max (largest s) a) b). set (n := Z.of_nat (length (succs es a))) in *.
  assert (Hp : 0 ≤ a * DEG + n < N * DEG) by nia.
  apply wp_bind, wp_gets, wp_bind.
  eapply (wp_mono _ (λ _ t, t = s <| largest := Z.max (largest s) a |>)).
  { wp_step; [wp_step|]; destruct s; simpl in *; f_equal; breflect; lia. }
  intros [] _ ->. apply wp_bind, wp_gets, wp_bind.
  eapply (wp_mono _ (λ _ t, t = s <| largest := g |>)).
  { wp_step; [wp_step|]; destruct s; simpl in *; f_equal; breflect; lia. }
  intros [] _ ->. apply wp_bind, wp_gets, wp_bind. simpl.
  eapply wp_array_get; [by rewrite He by lia|]. fold n.
  apply wp_bind, wp_flat; [lia..|]. apply wp_bind, wp_wr_W; [simpl; lia|]. simpl.
  apply wp_bind, wp_int; [nia|]. apply wp_bind, wp_wr_edges; [simpl; lia|]. simpl.
  apply wp_bind, wp_wr_exist; [simpl; lia|]. simpl. apply wp_wr_exist; [simpl; rewrite length_aset; lia|]. simpl.
  split; simpl; rewrite ?length_aset; try done; try lia.
  - intros v Hv. rewrite aget_aset_any, succs_snoc by lia. rewrite (Z.eqb_sym v a).
    destruct (Z.eqb_spec a v) as [->|]; [|by apply He]. rewrite length_app. simpl. f_equal. lia.
  - intros v Hv. rewrite aget_aset_any by (rewrite length_aset; lia). rewrite aget_aset_any by lia.
    rewrite endpoint_snoc, (Z.eqb_sym v a), (Z.eqb_sym v b), Hx by done.
    by destruct (b =? v), (a =? v), (endpoint es v).
  - intros v j w Hv Hj. rewrite aget_aset_any by lia. rewrite succs_snoc in Hj.
    destruct (Z.eqb_spec a v) as [->|Hne].
    + apply lookup_app_Some in Hj as [Hj|[Hj1 Hj2]].
      * pose proof (lookup_lt_Some _ _ _ Hj). destruct (Z.eqb_spec (v * DEG + Z.of_nat j) (v * DEG + n)); [lia|].
        by apply HW.
      * apply list_lookup_singleton_Some in Hj2 as [Hj2 ->].
        replace (v * DEG + Z.of_nat j) with (v * DEG + n) by lia. by rewrite Z.eqb_refl.
    + destruct (Z.eqb_spec (v * DEG + Z.of_nat j) (a * DEG + n)) as [E|]; [|by apply HW].
      exfalso. pose proof (lookup_lt_Some _ _ _ Hj) as Hlt.
      specialize (Hm v). nia.
  - intros v. rewrite succs_snoc. destruct (Z.eqb_spec a v) as [->|]; [|done]. rewrite length_app. simpl. lia.
  - intros v. rewrite endpoint_snoc. unfold g. intros [H|[H%Z.eqb_eq|H%Z.eqb_eq]%orb_true_iff]%orb_true_iff;
      [specialize (Hg _ H)| |]; lia.
Qed.
End Stored.

Lemma succs_prefix_le es es' v : (length (succs es v) ≤ length (succs (es ++ es') v))%nat.
Proof. unfold succs. rewrite filter_app, fmap_app, length_app. lia. Qed.

Lemma add_edges_ok N DEG s0 es : ∀ es0 s,
  0 < DEG → N * DEG < 2 ^ 31 → stored N DEG s0 es0 s → fits_rows N DEG (es0 ++ es) →
  wp (add_edges DEG es) (λ _, stored N DEG s0 (es0 ++ es)) s.
Proof.
  induction es as [|[a b] es IH]; intros es0 s HD HN Hs [Hr Hf].
  { apply wp_ret. by rewrite app_nil_r. }
  unfold add_edges. simpl. apply wp_bind. destruct (Hr (a, b)) as [Ha Hb]; [apply elem_of_app; right; left|].
  eapply wp_mono.
  - apply add_edge_ok; [done|done|exact Hs|done|done|].
    specialize (Hf a). pose proof (succs_prefix_le (es0 ++ [(a, b)]) es a) as H.
    rewrite succs_snoc, Z.eqb_refl, length_app, <- app_assoc in H. simpl in H. lia.
  - intros [] t Ht. replace (es0 ++ (a, b) :: es) with ((es0 ++ [(a, b)]) ++ es) in * by (by rewrite <- app_assoc).
    by apply IH.
Qed.

Lemma calloc_stored o w :
  0 < o_N o → length w = length (W_index (bfs_calloc o)) → 0 < o_DEG o →
  stored (o_N o) (o_DEG o) ((bfs_calloc o) <| W_index := w |>) [] ((bfs_calloc o) <| W_index := w |>).
Proof.
  intros HN Hw HD. split; simpl in *; rewrite ?Hw, ?length_replicate; try done; try nia.
  - intros v Hv. unfold aget. destruct (Z.leb_spec 0 v); [|lia]. apply lookup_replicate. lia.
  - intros v Hv. unfold aget. destruct (Z.leb_spec 0 v); [|lia]. apply lookup_replicate. lia.
Qed.

(** A graph from a file. *)
Lemma stored_graph N DEG s0 es s :
  0 < DEG → stored N DEG s0 es s → fits_rows N DEG es → graph_after 1 DEG s.
Proof.
  intros HD [_ _ _ LX He Hx HW Hm Hb Hg] [Hr _] t [_ _ Ex Ed _ _]. simpl in Ex, Ed.
  assert (E1 : ∀ v, exists1 (exist t) v = true ↔ 0 ≤ v < N ∧ endpoint es v = true).
  { intros v. unfold exists1. rewrite bool_decide_eq_true, Ex. split.
    - intros H. assert (0 ≤ v < N) as Hv by (apply aget_Some_range in H; lia).
      rewrite Hx in H by done. by destruct (endpoint es v).
    - intros [Hv E]. rewrite Hx by done. by rewrite E. }
  split_and!.
  - intros v Hv. rewrite Ex, Hx by lia. destruct (endpoint es v) eqn:E.
    + by rewrite (proj2 (E1 v)) by (split; [lia|done]).
    + destruct (exists1 (exist t) v) eqn:E'; [|done]. apply E1 in E' as [_ ?]. congruence.
  - intros v Hv. rewrite Ed, He by lia. eexists. split; [done|]. specialize (Hm v). lia.
  - intros v e j Hv Hev Hj. rewrite Ed, He in Hev by lia. injection Hev as <-.
    destruct (lookup_lt_is_Some_2 (succs es v) (Z.to_nat j)) as [w Hw]; [lia|].
    exists w. split.
    { replace j with (Z.of_nat (Z.to_nat j)) by lia. apply HW; [lia|done]. }
    unfold succs in Hw. apply list_elem_of_lookup_2, list_elem_of_fmap in Hw as ([a b] & -> & [Hab Hin]%list_elem_of_filter).
    simpl. assert (endpoint es b = true) as Hend.
    { unfold endpoint. apply existsb_exists. exists (a, b). split; [by apply list_elem_of_In|]. simpl.
      by rewrite Z.eqb_refl, orb_true_r. }
    destruct (Hr _ Hin) as [_ Hb2]. split; [specialize (Hg _ Hend); simpl in *; lia|]. by apply E1.
Qed.

(** ** Theorems *)

(** The successors of [v] that the arrays hold. *)
Definition row (DEG : Z) (s : bfs) (v : Z) : list Z :=
  omap (λ j, aget (W_index s) (v * DEG + j)) (seqZ 0 (default 0 (aget (edges s) v))).

Lemma row_eq DEG s v l :
  aget (edges s) v = Some (Z.of_nat (length l)) →
  (∀ (j : nat) w, l !! j = Some w → aget (W_index s) (v * DEG + Z.of_nat j) = Some w) → row DEG s v = l.
Proof.
  intros He HW. unfold row. rewrite He. simpl. clear He.
  induction l as [|x l IH] using rev_ind; [done|]. rewrite length_app, Nat.add_1_r.
  rewrite seqZ_S, Z.add_0_l, omap_app, IH.
  - f_equal. simpl. rewrite (HW (length l) x); [done|]. by rewrite lookup_app_r, Nat.sub_diag by lia.
  - intros j w Hj. apply HW. by apply lookup_app_l_Some.
Qed.

(** The successors of [v] in the generated graph. *)
Definition gen_row (N DEG v : Z) : list Z :=
  (λ j, if v =? 0 then j + 1 else Z.min (v + j) (N - 1)) <$> seqZ 0 DEG.

(** A run without a file ([select] 0) whose degree is smaller than its number of
    vertices: vertex 0 has the successors 1 to [DEG], vertex [v] the successors
    [v] to [v + DEG - 1] (or [N - 1]), and all vertices exist. *)
Lemma prepare_generated (o : bfs_options_t) :
  o_select o = 0 → 0 < o_DEG o < o_N o → o_N o * o_DEG o < 2 ^ 31 →
  ∃ s, prepare o None (bfs_calloc o) = Ok (Ready, s) ∧ start_ok (o_N o) (o_DEG o) s ∧
    largest s = o_N o - 1 ∧ Total s = o_N o ∧
    ∀ v, 0 ≤ v < o_N o → row (o_DEG o) s v = gen_row (o_N o) (o_DEG o) v.
Proof.
  intros Hsel HD HN.
  assert (G : wp (prepare o None) (λ r s, r = Ready ∧ start_ok (o_N o) (o_DEG o) s ∧
    largest s = o_N o - 1 ∧ Total s = o_N o ∧
    ∀ v, 0 ≤ v < o_N o → row (o_DEG o) s v = gen_row (o_N o) (o_DEG o) v) (bfs_calloc o)).
  2: { apply wp_ok in G as (r & s & E & -> & H). by exists s. }
  destruct (calloc_blank o) as [B1 B2 B3 B4 B5 B6 B7]; [lia..|].
  unfold prepare. destruct (Z.ltb_spec (o_N o) (o_DEG o)) as [|Hle]; [lia|]. clear Hle. unfold prepare_graph. rewrite Hsel. simpl. do 3 wp_step. cbv beta. wp_step. cbv beta. apply wp_bind. apply wp_ret. simpl.
  apply wp_bind, wp_bind.
  eapply wp_mono; [apply init_weights_ok; [done|done|simpl; rewrite length_fmap; exact B3]|].
  intros [] s (l & -> & Hl). wp_steps. simpl.
  eapply wp_mono.
  - apply prepare_end_ok.
    + split; try done. simpl. apply Hl.
    + simpl. lia.
    + rewrite Hsel. eapply generated_graph; [done|done|done|exact Hl].
  - intros r t (-> & Hok & u & [_ _ Hx He _ _] & EW & EL & EE & EX). simpl in *. split; [done|]. split; [done|].
    split; [done|]. rewrite Hsel in *. simpl in *.
    assert (Hall : ∀ v, 0 ≤ v < o_N o → (0 <=? v) && (v <? o_N o - 1 + 1) = true).
    { intros v Hv. apply andb_true_iff. lia. }
    split.
    + rewrite (so_total _ _ _ Hok), EL, EX.
      rewrite (count_if_ext _ (λ _, true)).
      * assert (Hc : ∀ l : list Z, count_if (λ _, true) l = Z.of_nat (length l)) by (intros k; induction k; simpl; lia).
        rewrite Hc, length_seqZ. lia.
      * intros v Hv%elem_of_seqZ. unfold exists1. rewrite Hx, Hall by lia. done.
    + intros v Hv. apply row_eq.
      * rewrite EE, He, Hall by done. unfold gen_row. rewrite length_fmap, length_seqZ. f_equal. lia.
      * intros j w Hj. unfold gen_row in Hj. apply list_lookup_fmap_Some in Hj as (x & -> & Hj).
        apply lookup_seqZ in Hj as [-> Hj]. rewrite EW. destruct Hl as [_ Hl].
        rewrite Hl by nia. destruct (Z.ltb_spec (v * o_DEG o + Z.of_nat j) (o_N o * o_DEG o)); [|nia].
        f_equal. rewrite gen_entry_at by lia. by rewrite Z.add_0_l.
Qed.

(** A file with three lines of comments, a fourth line, and one line
    ["u<tab>v"] for each edge is read without a fault when the vertices are
    below 2097152 and no vertex has more than 16 successors, the last edge of
    the file counted twice: the arrays then hold the edges of the file in their
    order, and after them the last edge once more, because the [fscanf] at the
    end of the file leaves the two numbers as they were. *)
Theorem prepare_file (o : bfs_options_t) (h : str) (e : Z * Z) (es : list (Z * Z)) :
  o_select o = 1 → o_N o = 2097152 → o_DEG o = 16 → header_ok h →
  fits_rows (o_N o) (o_DEG o) ((e :: es) ++ [default e (last es)]) →
  ∃ s, prepare o (Some (h ++ 10 :: edges_text (e :: es))) (bfs_calloc o) = Ok (Ready, s) ∧
    start_ok (o_N o) (o_DEG o) s ∧
    ∀ v, 0 ≤ v < o_N o → row (o_DEG o) s v = succs ((e :: es) ++ [default e (last es)]) v.
Proof.
  intros Hsel EN ED Hh Hfit. set (all := (e :: es) ++ [default e (last es)]) in *.
  assert (G : wp (prepare o (Some (h ++ 10 :: edges_text (e :: es)))) (λ r s, r = Ready ∧
    start_ok (o_N o) (o_DEG o) s ∧
    ∀ v, 0 ≤ v < o_N o → row (o_DEG o) s v = succs all v) (bfs_calloc o)).
  2: { apply wp_ok in G as (r & s & E & -> & H). by exists s. }
  assert (HD : 0 < o_DEG o) by lia. assert (HN : o_N o * o_DEG o < 2 ^ 31) by (rewrite EN, ED; done).
  destruct (calloc_blank o) as [B1 B2 B3 B4 B5 B6 B7]; [lia..|].
  unfold prepare. destruct (Z.ltb_spec (o_N o) (o_DEG o)) as [|Hle]; [lia|]. clear Hle. unfold prepare_graph. rewrite Hsel. simpl. wp_steps. simpl.
  set (w := (λ _ : Z, 100000000) <$> _). assert (Hw : length w = length (W_index (bfs_calloc o))) by apply length_fmap.
  assert (Hv : Forall vertex_ok (e :: es)).
  { apply Forall_forall. intros x Hx. destruct (proj1 Hfit x) as [? ?]; [apply elem_of_app; by left|].
    unfold vertex_ok. lia. }
  pose proof (add_edges_ok (o_N o) (o_DEG o) ((bfs_calloc o) <| W_index := w |>) all [] _ HD HN
    (calloc_stored o w ltac:(lia) Hw HD) Hfit) as Hadd.
  apply wp_ok in Hadd as ([] & t & Eadd & Ht). simpl in Ht.
  eapply wp_eq; [rewrite read_file_edges by done; by rewrite (bind_ok _ _ _ _ _ Eadd)|]. simpl.
  wp_step. wp_step. pose proof Ht as [Hr LW LE LX He Hx HW Hm Hb Hg].
  assert (Er : D t = D (bfs_calloc o) ∧ Q t = Q (bfs_calloc o) ∧ temporary t = temporary (bfs_calloc o) ∧
               locks t = locks (bfs_calloc o) ∧ Total t = 0).
  { by injection Hr as ?????. }
  destruct Er as (R1 & R2 & R3 & R4 & R5).
  eapply wp_mono.
  - apply prepare_end_ok; [|done|rewrite Hsel; by eapply stored_graph].
    split; rewrite ?R3, ?R4; try done. intros l. rewrite !elem_of_cons, elem_of_nil, R1, R2.
    intros [->|[->|H]]; [done..|]. apply B4. rewrite !elem_of_cons, elem_of_nil. tauto.
  - intros r u (-> & Hok & c & [_ _ Ex Ee _ _] & EW & EL & EE & EX). split; [done|]. split; [done|].
    intros v Hv'. rewrite Hsel in *. simpl in *. apply row_eq.
    + by rewrite EE, Ee, He by done.
    + intros j x Hj. rewrite EW. by apply HW.
Qed.

Definition demo_file_opts : bfs_options_t := Bopts 1 2 2097152 16 (Some []) [].
Definition demo_header : str := [35; 10; 35; 10; 35; 10; 35].

Lemma demo_fits : fits_rows 2097152 16 [(0, 1); (1, 2); (1, 2)].
Proof.
  split.
  - intros e. rewrite !elem_of_cons, elem_of_nil. intros [->|[->|[->|[]]]]; simpl; lia.
  - intros v. unfold succs. rewrite length_fmap. etransitivity; [|exact (ltac:(lia) : 3 ≤ 16)].
    apply (Nat2Z.inj_le _ 3). apply (length_filter _ [(0, 1); (1, 2); (1, 2)]).
Qed.

Lemma prepare_file_witness :
  ∃ s, prepare demo_file_opts (Some (demo_header ++ 10 :: edges_text [(0, 1); (1, 2)])) (bfs_calloc demo_file_opts)
       = Ok (Ready, s) ∧ start_ok 2097152 16 s ∧
    ∀ v, 0 ≤ v < 2097152 → row 16 s v = succs [(0, 1); (1, 2); (1, 2)] v.
Proof.
  apply (prepare_file demo_file_opts demo_header (0, 1) [(1, 2)]); try reflexivity.
  - split; [reflexivity|]. unfold demo_header. rewrite !not_elem_of_cons. repeat split; try discriminate.
    apply not_elem_of_nil.
  - exact demo_fits.
Defined.
