(* ===== verification/BfsWork.v ===== *)
(** * The breadth-first search example: its threads

    [do_work] of [xthread/testin/crono_bfs_xthread.cc] as a state machine: a
    step is the code up to and including one access to memory the threads
    share.  The threads run in any order; a mutex has one owner, and the barrier
    lets the threads go when all have arrived.  Every run of a prepared graph
    ends, without a fault, and colours exactly the vertices that a search by
    levels reaches. *)

From S2P Require Import Prelude Types BfsSplit Bfs.

(** ** The code *)

(** Where a thread is.  [v], [i] and [neighbor] are the variables of the loops;
    [Wait next] is a call of [xthread_barrier_wait] before [next]. *)
Inductive pc :=
  | AtStart                      (* on entry, with all references resolved *)
  | Wait (next : pc)
  | AtTest                       (* while(state->terminate==0) *)
  | Scan (v : Z)                 (* the first loop over the vertices *)
  | Edge (v i : Z)               (* the loop over the edges of v *)
  | Lock (v i neighbor : Z)      (* xthread_mutex_lock *)
  | Check (v i neighbor : Z)     (* the second test of Q[neighbor] *)
  | Claim (v i neighbor : Z)     (* Q[neighbor]=0 *)
  | Mark (v i neighbor : Z)      (* temporary[neighbor] = 1 *)
  | Unlock (v i neighbor : Z)    (* xthread_mutex_unlock *)
  | Color (v : Z)                (* the loop that updates the colours *)
  | Decide                       (* the termination condition *)
  | Done.

Record thread := Thread { t_pc : pc; t_iter : Z }.

(** The shared variables that the threads change. *)
Record shared := Shared {
  s_Q : list Z;
  s_D : list Z;
  s_temporary : list Z;
  s_terminate : Z;
  s_owner : list (option nat) }.   (* the owners of [locks] *)

#[export] Instance shared_eta : Eta shared := λ r,
  Shared (s_Q r) (s_D r) (s_temporary r) (s_terminate r) (s_owner r).

(** [g] holds the arrays and counters that stay as they are. *)
Section Code.
Context (g : bfs) (DEG P : Z).

Definition read (l : list Z) (i : Z) : M shared Z := get_some OutOfBounds (aget l i).
Definition write_Q (i x : Z) : M shared unit :=
  l <- gets s_Q;; read l i ;;; modify (λ s, s <| s_Q := aset l i x |>).
Definition write_D (i x : Z) : M shared unit :=
  l <- gets s_D;; read l i ;;; modify (λ s, s <| s_D := aset l i x |>).
Definition write_temporary (i x : Z) : M shared unit :=
  l <- gets s_temporary;; read l i ;;; modify (λ s, s <| s_temporary := aset l i x |>).

(** A mutex must be initialised; [None] is free. *)
Definition mutex (n : Z) : M shared (option nat) :=
  b <- get_some OutOfBounds (aget (locks g) n);;
  if negb b then crash BadPointer
  else l <- gets s_owner;; get_some OutOfBounds (aget l n).
Definition lock (t : nat) (n : Z) : M shared unit :=
  mutex n ;;; modify (λ s, s <| s_owner := aset (s_owner s) n (Some t) |>).
Definition unlock (n : Z) : M shared unit :=
  mutex n ;;; modify (λ s, s <| s_owner := aset (s_owner s) n None |>).

Definition start (t : nat) : Z := (partition (largest g) P (Z.of_nat t)).1.
Definition stop (t : nat) : Z := (partition (largest g) P (Z.of_nat t)).2.

(** The next step of thread [t]. *)
Definition do_work_step (t : nat) (th : thread) : M shared thread :=
  let goto p := retM (Thread p (t_iter th)) in
  match t_pc th with
  | AtStart => goto (Wait AtTest)
  | Wait _ => retM th
  | AtTest =>
      x <- gets s_terminate;; goto (if x =? 0 then Scan (start t) else Wait Done)
  | Scan v =>
      if v <? stop t then
        e <- read (exist g) v;;
        if e =? 0 then goto (Scan (v + 1))
        else
          l <- gets s_D;; d <- read l v;;
          goto (if (d =? 0) || (d =? 2) then Scan (v + 1) else Edge v 0)
      else goto (Wait (Color (start t)))
  | Edge v i =>
      e <- read (edges g) v;;
      if i <? e then
        k <- intM (v * DEG);; k <- intM (k + i);;
        neighbor <- read (W_index g) k;;
        l <- gets s_Q;; q <- read l neighbor;;
        goto (if q =? 1 then Lock v i neighbor else Edge v (i + 1))
      else goto (Scan (v + 1))
  | Lock v i n => lock t n ;;; goto (Check v i n)
  | Check v i n => l <- gets s_Q;; q <- read l n;; goto (if q =? 1 then Claim v i n else Mark v i n)
  | Claim v i n => write_Q n 0 ;;; goto (Mark v i n)
  | Mark v i n => write_temporary n 1 ;;; goto (Unlock v i n)
  | Unlock v i n => unlock n ;;; goto (Edge v (i + 1))
  | Color v =>
      if v <? stop t then
        l <- gets s_D;; d <- read l v;;
        (if d =? 1 then write_D v 2
         else tl <- gets s_temporary;; x <- read tl v;; write_D v x) ;;;
        goto (Color (v + 1))
      else goto Decide
  | Decide =>
      l <- gets s_Q;; q <- read l (largest g);;
      whenM ((q =? 0) || (Total g <=? t_iter th)) (modify (λ s, s <| s_terminate := 1 |>)) ;;;
      iter <- intM (t_iter th + 1);;
      retM (Thread (Wait AtTest) iter)
  | Done => retM th
  end.

(** A thread can take a step: it has not ended, does not wait at the barrier,
    and the mutex it wants is free. *)
Definition ready (th : thread) (s : shared) : bool :=
  match t_pc th with
  | Wait _ | Done => false
  | Lock _ _ n => match aget (s_owner s) n with Some (Some _) => false | _ => true end
  | _ => true
  end.

Record job := Job { j_threads : list thread; j_shared : shared }.

Definition waiting (th : thread) : bool := match t_pc th with Wait _ => true | _ => false end.
Definition leave (th : thread) : thread :=
  match t_pc th with Wait next => Thread next (t_iter th) | _ => th end.

(** One thread takes a step, or the barrier opens. *)
Inductive bstep : job → job → Prop :=
  | bs_thread j t th th' s' :
      j_threads j !! t = Some th → ready th (j_shared j) = true →
      do_work_step t th (j_shared j) = Ok (th', s') →
      bstep j (Job (<[t := th']> (j_threads j)) s')
  | bs_release j :
      forallb waiting (j_threads j) = true → j_threads j ≠ [] →
      bstep j (Job (leave <$> j_threads j) (j_shared j)).

(** Thread [t] takes a step, or the barrier opens when there is no thread [t]. *)
Definition move (j : job) (t : nat) : option job :=
  match j_threads j !! t with
  | Some th =>
      if ready th (j_shared j) then
        match do_work_step t th (j_shared j) with
        | Ok (th', s') => Some (Job (<[t := th']> (j_threads j)) s')
        | Crash _ => None
        end
      else None
  | None =>
      if forallb waiting (j_threads j) then
        match j_threads j with [] => None | _ => Some (Job (leave <$> j_threads j) (j_shared j)) end
      else None
  end.

(** The threads as [application_main] starts them. *)
Definition bfs_init : job :=
  Job (replicate (Z.to_nat P) (Thread AtStart 0))
      (Shared (Q g) (D g) (temporary g) 0 (replicate (length (locks g)) None)).
End Code.

Lemma move_step g DEG P j t j' : move g DEG P j t = Some j' → bstep g DEG P j j'.
Proof.
  unfold move. destruct (j_threads j !! t) as [th|] eqn:Et.
  - destruct (ready th (j_shared j)) eqn:Er; [|done].
    destruct (do_work_step g DEG P t th (j_shared j)) as [[th' s']|] eqn:Es; [|done].
    intros [= <-]. by eapply bs_thread.
  - destruct (forallb waiting (j_threads j)) eqn:Ew; [|done].
    destruct (j_threads j) as [|th l] eqn:El; [done|]. intros [= <-].
    pose proof (bs_release g DEG P j) as H. rewrite El in H. by apply H.
Qed.

(** ** What the search computes *)

Section Levels.
Context (g : bfs) (DEG : Z).

Definition adj (u w : Z) : Prop := exists1 (exist g) u = true ∧ w ∈ row DEG g u.

(** [v] can be reached from vertex 0 along at most [k] edges. *)
Inductive level : nat → Z → Prop :=
  | level_0 : level 0 0
  | level_stay k v : level k v → level (S k) v
  | level_edge k u w : level k u → adj u w → level (S k) w.

Definition reachable (v : Z) : Prop := ∃ k, level k v.

(** The loop stops after round [k]. *)
Definition last_round (k : nat) : Prop := level (S k) (largest g) ∨ Total g ≤ Z.of_nat k.

Lemma level_le k k' v : (k ≤ k')%nat → level k v → level k' v.
Proof. induction 1; [done|]. intros. by apply level_stay, IHle. Qed.

Lemma level_0_inv v : level 0 v → v = 0.
Proof. by inversion 1. Qed.

Lemma level_S_inv k v : level (S k) v → level k v ∨ ∃ u, level k u ∧ adj u v.
Proof. inversion 1; eauto. Qed.
End Levels.

(** ** The invariant *)

Section Invariant.
Context (N DEG P : Z) (g : bfs).
Hypothesis Hg : start_ok N DEG g.
Hypothesis HN : N < 2 ^ 31 - 1.
Hypothesis HP : 0 < P < 2 ^ 31.

#[local] Abbreviation level := (level g DEG).
#[local] Abbreviation adj := (adj g DEG).
#[local] Abbreviation row := (row DEG g).
#[local] Abbreviation last_round := (last_round g DEG).

(** The first vertex of thread [t]. *)
Definition c (t : nat) : Z := cut (largest g) P (Z.of_nat t).

Lemma largest_bound : 0 ≤ largest g < 2 ^ 31 - 1 ∧ largest g < N.
Proof using Hg HN. pose proof (go_largest _ _ _ (so_graph _ _ _ Hg)). lia. Qed.

Lemma split_eq t : Z.of_nat t < P → start g P t = c t ∧ stop g P t = c (S t).
Proof using Hg HN HP.
  pose proof largest_bound. intros Ht. unfold start, stop. rewrite partition_cut by lia. simpl.
  split; [done|]. unfold c. f_equal. lia.
Qed.

Lemma c_0 : c 0 = 0.
Proof. apply cut_0. Qed.

Lemma c_bounds t : Z.of_nat t ≤ P → 0 ≤ c t ≤ largest g + 1.
Proof using Hg HN HP.
  pose proof largest_bound. intros Ht. unfold c.
  pose proof (cut_mono (largest g) P ltac:(lia) HP 0 (Z.of_nat t) ltac:(lia) Ht) as H1. rewrite cut_0 in H1.
  pose proof (cut_mono (largest g) P ltac:(lia) HP (Z.of_nat t) P ltac:(lia) ltac:(lia)).
  pose proof (cut_end (largest g) P ltac:(lia) HP). lia.
Qed.

Lemma c_mono t u : (t ≤ u)%nat → Z.of_nat u ≤ P → c t ≤ c u.
Proof using Hg HN HP.
  pose proof largest_bound. intros Htu Hu. unfold c. apply cut_mono; lia.
Qed.

Definition top : Z := c (Z.to_nat P).

Lemma top_bounds : largest g ≤ top ≤ largest g + 1.
Proof using Hg HN HP.
  pose proof largest_bound. unfold top, c. rewrite Z2Nat.id by lia. apply cut_end; lia.
Qed.

(** Every vertex below [top] has one owner. *)
Lemma owner_of u : 0 ≤ u < top → ∃ t, Z.of_nat t < P ∧ c t ≤ u < c (S t).
Proof using Hg HN HP.
  unfold top. intros [H0 Hu].
  assert (G : ∀ n, Z.of_nat n ≤ P → u < c n → ∃ t, (t < n)%nat ∧ c t ≤ u < c (S t)).
  { induction n as [|n IH]; intros Hn Hun; [rewrite c_0 in Hun; lia|].
    destruct (Z.lt_ge_cases u (c n)) as [Hlt|Hge].
    - destruct IH as (t & ? & ?); [lia|done|]. exists t. split; [lia|done].
    - exists n. split; [lia|done]. }
  destruct (G (Z.to_nat P)) as (t & Ht & Hc); [lia|done|]. exists t. split; [lia|done].
Qed.

Lemma owner_unique t t' u :
  Z.of_nat t < P → Z.of_nat t' < P → c t ≤ u < c (S t) → c t' ≤ u < c (S t') → t = t'.
Proof using Hg HN HP.
  intros Ht Ht' Hu Hu'. destruct (Nat.lt_trichotomy t t') as [H|[H|H]]; [|done|].
  - pose proof (c_mono (S t) t' H ltac:(lia)). lia.
  - pose proof (c_mono (S t') t H ltac:(lia)). lia.
Qed.

(** Rows *)
Lemma row_spec v :
  0 ≤ v ≤ largest g →
  ∃ e, aget (edges g) v = Some e ∧ 0 ≤ e ≤ DEG ∧ Z.of_nat (length (row v)) = e ∧
    (∀ i, 0 ≤ i < e → ∃ w, row v !! Z.to_nat i = Some w ∧ aget (W_index g) (v * DEG + i) = Some w) ∧
    (∀ w, w ∈ row v → 0 ≤ w ≤ largest g ∧ aget (locks g) w = Some true).
Proof using Hg.
  intros Hv. destruct Hg as [G _ Hk _ _ _]. destruct (go_edges _ _ _ G v Hv) as (e & He & Hb).
  assert (Hrow : ∃ l, length l = Z.to_nat e ∧ (∀ (j : nat) w, l !! j = Some w →
             aget (W_index g) (v * DEG + Z.of_nat j) = Some w ∧ 0 ≤ w ≤ largest g ∧ exists1 (exist g) w = true)).
  { assert (Hn : ∀ n, (n ≤ Z.to_nat e)%nat → ∃ l, length l = n ∧ (∀ (j : nat) w, l !! j = Some w →
             aget (W_index g) (v * DEG + Z.of_nat j) = Some w ∧ 0 ≤ w ≤ largest g ∧ exists1 (exist g) w = true)).
    { induction n as [|n IH]; intros Hle; [by exists []|]. destruct IH as (l & Hl & Hw); [lia|].
      destruct (go_nbr _ _ _ G v e (Z.of_nat n) Hv He ltac:(lia)) as (w & Hww).
      exists (l ++ [w]). split; [rewrite length_app; simpl; lia|]. intros j x Hj.
      apply lookup_app_Some in Hj as [Hj|[Hj1 Hj2]]; [by apply Hw|].
      apply list_lookup_singleton_Some in Hj2 as [Hj2 ->]. replace j with n by lia. done. }
    destruct (Hn (Z.to_nat e)) as (l & Hl); [done|by exists l]. }
  destruct Hrow as (l & Hl & Hw). assert (row v = l) as ->.
  { apply row_eq; [rewrite He; f_equal; lia|]. intros j w Hj. by apply Hw. }
  exists e. split_and!; try done; try lia.
  - intros i Hi. destruct (lookup_lt_is_Some_2 l (Z.to_nat i)) as [w Hj]; [lia|]. exists w. split; [done|].
    apply Hw in Hj as [Hj _]. by rewrite Z2Nat.id in Hj by lia.
  - intros w [j Hj]%list_elem_of_lookup. apply Hw in Hj as (_ & Hr & Hx). split; [done|]. by apply Hk.
Qed.

Lemma level_vertex k v : level k v → 0 ≤ v ≤ largest g.
Proof using Hg HN.
  induction 1 as [|k v _ IH|k u w _ IH [_ Hw]].
  - pose proof largest_bound. lia.
  - done.
  - destruct (row_spec u IH) as (e & _ & _ & _ & _ & H). by apply H.
Qed.

Definition closed (k : nat) (u : Z) : Prop := ∀ w, adj u w → level k w.

(** The colour of [u] before round [k]. *)
Record dcol (k : nat) (u d : Z) : Prop := {
  dc_val : d ≠ 0 → d ≠ 2 → d = 1;
  dc_level : d = 1 → level k u;
  dc_closed : level k u → d = 1 ∨ closed k u }.

Definition binary (l : list Z) : Prop :=
  Z.of_nat (length l) = N ∧ ∀ v, 0 ≤ v < N → aget l v = Some 0 ∨ aget l v = Some 1.

Definition expanded (s : shared) (u : Z) : Prop :=
  exists1 (exist g) u = true → aget (s_D s) u = Some 1 → ∀ w, w ∈ row u → aget (s_Q s) w = Some 0.

Definition done_upto (s : shared) (t : nat) (v : Z) : Prop := ∀ u, c t ≤ u < v → expanded s u.

(** Thread [t] works on edge [i] of [v]. *)
Record at_edge (s : shared) (t : nat) (v i : Z) : Prop := {
  ae_own : c t ≤ v < c (S t);
  ae_exist : exists1 (exist g) v = true;
  ae_color : aget (s_D s) v = Some 1;
  ae_done : done_upto s t v;
  ae_i : 0 ≤ i ≤ Z.of_nat (length (row v));
  ae_edges : ∀ (j : nat) w, Z.of_nat j < i → row v !! j = Some w → aget (s_Q s) w = Some 0 }.

Definition on_neighbor (s : shared) (t : nat) (v i n : Z) : Prop :=
  at_edge s t v i ∧ row v !! Z.to_nat i = Some n ∧ n ≠ 0.

(** A thread in the first half of a round. *)
Definition scan_at (s : shared) (t : nat) (p : pc) : Prop :=
  match p with
  | AtTest => True
  | Scan v => c t ≤ v ≤ c (S t) ∧ done_upto s t v
  | Edge v i => at_edge s t v i
  | Lock v i n | Check v i n | Claim v i n => on_neighbor s t v i n
  | Mark v i n => on_neighbor s t v i n ∧ aget (s_Q s) n = Some 0
  | Unlock v i n => on_neighbor s t v i n ∧ aget (s_Q s) n = Some 0 ∧ aget (s_temporary s) n = Some 1
  | Wait q => q = Color (c t) ∧ done_upto s t (c (S t))
  | _ => False
  end.

(** A thread in the second half of round [k]. *)
Definition color_at (k : nat) (s : shared) (t : nat) (th : thread) : Prop :=
  match t_pc th with
  | Color v => t_iter th = Z.of_nat k ∧ c t ≤ v ≤ c (S t)
  | Decide => t_iter th = Z.of_nat k
  | Wait q => q = AtTest ∧ t_iter th = Z.of_nat (S k) ∧ (last_round k → s_terminate s = 1)
  | _ => False
  end.

(** Vertex [u] has not been updated by its owner [th]. *)
Definition uncolored (th : thread) (u : Z) : bool :=
  match t_pc th with Color v => v <=? u | _ => false end.

Definition holds (p : pc) : option Z :=
  match p with Check _ _ n | Claim _ _ n | Mark _ _ n | Unlock _ _ n => Some n | _ => None end.

(** A mutex is owned by the thread that is between lock and unlock. *)
Definition locks_ok (ths : list thread) (s : shared) : Prop :=
  ∀ n t, aget (s_owner s) n = Some (Some t) ↔ ∃ th, ths !! t = Some th ∧ holds (t_pc th) = Some n.

Record scan_ok (k : nat) (ths : list thread) (s : shared) : Prop := {
  sc_terminate : s_terminate s = 0;
  sc_rounds : ∀ j, (j < k)%nat → ¬ last_round j;
  sc_Q : binary (s_Q s);
  sc_temporary : binary (s_temporary s);
  sc_low : ∀ v, level k v → aget (s_Q s) v = Some 0;
  sc_high : ∀ v, aget (s_Q s) v = Some 0 → level (S k) v;
  sc_marked : ∀ v, aget (s_temporary s) v = Some 1 → aget (s_Q s) v = Some 0 ∧ v ≠ 0;
  sc_mark : ∀ v, aget (s_Q s) v = Some 0 → v ≠ 0 →
              aget (s_temporary s) v = Some 1 ∨ ∃ t th v' i', ths !! t = Some th ∧ t_pc th = Mark v' i' v;
  sc_D : ∀ u, 0 ≤ u < top → ∃ d, aget (s_D s) u = Some d ∧ dcol k u d }.

(** The colours are exactly level [k]. *)
Record exact (k : nat) (s : shared) : Prop := {
  ex_Q : binary (s_Q s);
  ex_temporary : binary (s_temporary s);
  ex_level : ∀ v, 0 ≤ v < N → (aget (s_Q s) v = Some 0 ↔ level k v);
  ex_mark : ∀ v, 0 ≤ v < N → (aget (s_temporary s) v = Some 1 ↔ aget (s_Q s) v = Some 0 ∧ v ≠ 0) }.

Inductive phase := PhStart | PhScan (k : nat) | PhColor (k : nat) | PhEnd (k : nat) | PhDone (k : nat).

(** After the last round [k]. *)
Definition finished (k : nat) (s : shared) : Prop :=
  exact (S k) s ∧ last_round k ∧ (∀ j, (j < k)%nat → ¬ last_round j) ∧ s_terminate s = 1.

Definition phase_ok (ph : phase) (ths : list thread) (s : shared) : Prop :=
  match ph with
  | PhStart =>
      exact 0 s ∧ s_terminate s = 0 ∧ (∀ u, 0 ≤ u < top → ∃ d, aget (s_D s) u = Some d ∧ dcol 0 u d) ∧
      (∀ t th, ths !! t = Some th → t_iter th = 0 ∧ (t_pc th = AtStart ∨ t_pc th = Wait AtTest))
  | PhScan k =>
      scan_ok k ths s ∧ (∀ t th, ths !! t = Some th → t_iter th = Z.of_nat k ∧ scan_at s t (t_pc th))
  | PhColor k =>
      exact (S k) s ∧ (∀ j, (j < k)%nat → ¬ last_round j) ∧
      (s_terminate s = 0 ∨ s_terminate s = 1 ∧ last_round k) ∧
      (∀ t th, ths !! t = Some th → color_at k s t th) ∧
      (∀ t th u, ths !! t = Some th → c t ≤ u < c (S t) →
         ∃ d, aget (s_D s) u = Some d ∧ dcol (if uncolored th u then k else S k) u d)
  | PhEnd k =>
      finished k s ∧ (∀ t th, ths !! t = Some th →
         t_iter th = Z.of_nat (S k) ∧ (t_pc th = AtTest ∨ t_pc th = Wait Done))
  | PhDone k =>
      finished k s ∧ (∀ t th, ths !! t = Some th → t_iter th = Z.of_nat (S k) ∧ t_pc th = Done)
  end.

Record bfs_inv (ph : phase) (j : job) : Prop := {
  bi_threads : Z.of_nat (length (j_threads j)) = P;
  bi_lenD : Z.of_nat (length (s_D (j_shared j))) = N;
  bi_owner : Z.of_nat (length (s_owner (j_shared j))) = N;
  bi_locks : locks_ok (j_threads j) (j_shared j);
  bi_phase : phase_ok ph (j_threads j) (j_shared j) }.

(** ** The first half of a round *)

Lemma wp_read l i x (R : Z → shared → Prop) s : aget l i = Some x → R x s → wp (read l i) R s.
Proof. intros. by eapply wp_get_some. Qed.

(** Zeros in [Q] and ones in [temporary] stay. *)
Record grows (s s' : shared) : Prop := {
  gr_D : s_D s' = s_D s;
  gr_Q : ∀ v, aget (s_Q s) v = Some 0 → aget (s_Q s') v = Some 0;
  gr_temporary : ∀ v, aget (s_temporary s) v = Some 1 → aget (s_temporary s') v = Some 1 }.

Lemma done_upto_grows s s' t v : grows s s' → done_upto s t v → done_upto s' t v.
Proof.
  intros [HD HQ _] H u Hu Hx Hc w Hw. rewrite HD in Hc. apply HQ. by apply (H u).
Qed.

Lemma at_edge_grows s s' t v i : grows s s' → at_edge s t v i → at_edge s' t v i.
Proof.
  intros Hgr [H1 H2 H3 H4 H5 H6]. split; try done.
  - by rewrite (gr_D _ _ Hgr).
  - by eapply done_upto_grows.
  - intros j w Hj Hw. eapply gr_Q; [done|]. by eapply H6.
Qed.

Lemma scan_at_grows s s' t p : grows s s' → scan_at s t p → scan_at s' t p.
Proof.
  intros Hgr. destruct p; simpl; try done; unfold on_neighbor.
  - intros [? ?]. split; [done|]. by eapply done_upto_grows.
  - intros [? ?]. split; [done|]. by eapply done_upto_grows.
  - by apply at_edge_grows.
  - intros (? & ?). split; [|done]. by eapply at_edge_grows.
  - intros (? & ?). split; [|done]. by eapply at_edge_grows.
  - intros (? & ?). split; [|done]. by eapply at_edge_grows.
  - intros ((? & ?) & ?). split; [|by eapply gr_Q]. split; [|done]. by eapply at_edge_grows.
  - intros ((? & ?) & ? & ?). split; [|split; [by eapply gr_Q|by eapply gr_temporary]].
    split; [|done]. by eapply at_edge_grows.
Qed.

Lemma locks_keep ths s s' t th th' :
  ths !! t = Some th → holds (t_pc th') = holds (t_pc th) → s_owner s' = s_owner s →
  locks_ok ths s → locks_ok (<[t := th']> ths) s'.
Proof.
  intros Ht Hh Ho Hl n u. rewrite Ho, (Hl n u). destruct (decide (u = t)) as [->|Hne].
  - rewrite list_lookup_insert_eq by (by eapply lookup_lt_Some). split.
    + intros (x & Hx & E). simplify_eq. exists th'. by rewrite Hh.
    + intros (x & [= <-] & E). exists th. by rewrite <- Hh.
  - by rewrite list_lookup_insert_ne by done.
Qed.

(** A step of thread [t] that keeps the other threads' knowledge. *)
Lemma scan_put k ths s t th th' s' :
  bfs_inv (PhScan k) (Job ths s) → ths !! t = Some th → grows s s' →
  length (s_owner s') = length (s_owner s) → locks_ok (<[t := th']> ths) s' →
  scan_ok k (<[t := th']> ths) s' → t_iter th' = t_iter th → scan_at s' t (t_pc th') →
  bfs_inv (PhScan k) (Job (<[t := th']> ths) s').
Proof.
  intros [H1 H2 H3 H4 [H5 H6]] Ht Hgr Hlen Hl Hok Hit Hat. simpl in *.
  split; simpl; rewrite ?length_insert, ?Hlen, ?(gr_D _ _ Hgr); try done.
  split; [done|]. intros u x Hx. destruct (decide (u = t)) as [->|Hne].
  - rewrite list_lookup_insert_eq in Hx by (by eapply lookup_lt_Some). injection Hx as <-.
    destruct (H6 _ _ Ht) as [E _]. by rewrite Hit.
  - rewrite list_lookup_insert_ne in Hx by done. destruct (H6 _ _ Hx) as [E Hs]. split; [done|].
    by eapply scan_at_grows.
Qed.

(** Only the owners of mutexes change. *)
Lemma scan_ok_owner k ths s t th th' s' :
  ths !! t = Some th → (∀ v i n, t_pc th ≠ Mark v i n) →
  s <| s_owner := s_owner s' |> = s' → scan_ok k ths s → scan_ok k (<[t := th']> ths) s'.
Proof.
  intros Ht Hm <- [H1 H2 H3 H4 H5 H6 H7 H8 H9]. split; try done. simpl. intros v Hq Hv.
  destruct (H8 v Hq Hv) as [?|(u & x & v' & i' & Hu & Hx)]; [by left|]. right. exists u, x, v', i'.
  split; [|done]. destruct (decide (u = t)) as [->|]; [|by rewrite list_lookup_insert_ne].
  simplify_eq. by apply Hm in Hx.
Qed.

Lemma grows_owner s s' : s <| s_owner := s_owner s' |> = s' → grows s s'.
Proof. intros <-. by split. Qed.

(** A step that changes nothing but the place of the thread. *)
Lemma scan_goto k ths s t th p :
  bfs_inv (PhScan k) (Job ths s) → ths !! t = Some th → (∀ v i n, t_pc th ≠ Mark v i n) →
  holds p = holds (t_pc th) → scan_at s t p →
  bfs_inv (PhScan k) (Job (<[t := Thread p (t_iter th)]> ths) s).
Proof.
  intros Hi Ht Hm Hh Hat. assert (E : s <| s_owner := s_owner s |> = s) by (by destruct s).
  eapply scan_put; [done|done|by apply grows_owner|done| | |done|done].
  - eapply locks_keep; [done|done|done|]. apply Hi.
  - eapply scan_ok_owner; [done|done|done|]. apply Hi.
Qed.

Lemma locks_take ths s t th th' n :
  ths !! t = Some th → holds (t_pc th) = None → holds (t_pc th') = Some n →
  aget (s_owner s) n = Some None → locks_ok ths s →
  locks_ok (<[t := th']> ths) (s <| s_owner := aset (s_owner s) n (Some t) |>).
Proof.
  intros Ht Hh Hh' Hfree Hl m u. pose proof (aget_Some_range _ _ _ Hfree) as Hr. simpl.
  rewrite aget_aset_any by done. destruct (decide (u = t)) as [->|Hne].
  - rewrite list_lookup_insert_eq by (by eapply lookup_lt_Some). destruct (Z.eqb_spec m n) as [->|Hm].
    + split; [|done]. intros _. by exists th'.
    + rewrite (Hl m t). split.
      * intros (x & Hx & E). by simplify_eq.
      * intros (x & [= <-] & E). congruence.
  - rewrite list_lookup_insert_ne by done. destruct (Z.eqb_spec m n) as [->|Hm]; [|by apply Hl].
    split; [by intros [= ->]|]. intros H%Hl. congruence.
Qed.

Lemma locks_drop ths s t th th' n :
  ths !! t = Some th → holds (t_pc th) = Some n → holds (t_pc th') = None → locks_ok ths s →
  locks_ok (<[t := th']> ths) (s <| s_owner := aset (s_owner s) n None |>).
Proof.
  intros Ht Hh Hh' Hl m u. assert (Hown : aget (s_owner s) n = Some (Some t)) by (apply Hl; by exists th).
  pose proof (aget_Some_range _ _ _ Hown) as Hr. simpl.
  rewrite aget_aset_any by done. destruct (decide (u = t)) as [->|Hne].
  - rewrite list_lookup_insert_eq by (by eapply lookup_lt_Some).
    assert (¬ ∃ x, Some th' = Some x ∧ holds (t_pc x) = Some m) by (intros (x & [= <-] & E); congruence).
    destruct (Z.eqb_spec m n) as [->|Hm]; [done|]. split; [|done].
    intros (x & Hx & E)%Hl. simplify_eq.
  - rewrite list_lookup_insert_ne by done. destruct (Z.eqb_spec m n) as [->|Hm]; [|by apply Hl].
    split; [done|]. intros H%Hl. congruence.
Qed.

Section Scan.
Context (k : nat) (ths : list thread) (s : shared) (t : nat) (th : thread).
Hypothesis Hinv : bfs_inv (PhScan k) (Job ths s).
Hypothesis Ht : ths !! t = Some th.

#[local] Abbreviation goal := (λ th' s', bfs_inv (PhScan k) (Job (<[t := th']> ths) s')).

Lemma scan_facts : Z.of_nat t < P ∧ scan_ok k ths s ∧ t_iter th = Z.of_nat k ∧ scan_at s t (t_pc th).
Proof using Hinv Ht.
  destruct Hinv as [H1 _ _ _ [H5 H6]]. simpl in *. apply H6 in Ht as Hx.
  apply lookup_lt_Some in Ht. split_and!; try done; try apply Hx. lia.
Qed.

Lemma own_vertex u : c t ≤ u < c (S t) → 0 ≤ u ≤ largest g ∧ u < top.
Proof using Hg HN HP Hinv Ht.
  destruct scan_facts as (HtP & _). pose proof (c_bounds t ltac:(lia)). pose proof (c_bounds (S t) ltac:(lia)).
  pose proof (c_mono (S t) (Z.to_nat P) ltac:(lia) ltac:(lia)). unfold top. lia.
Qed.

Lemma neighbor_facts v i n :
  on_neighbor s t v i n → 0 ≤ n ≤ largest g ∧ aget (locks g) n = Some true ∧ level (S k) n ∧ i < Z.of_nat (length (row v)).
Proof using Hg HN HP Hinv Ht.
  intros ([Ho Hx Hc _ _ _] & Hn & _). destruct (own_vertex v Ho) as [Hv Htop].
  destruct (row_spec v Hv) as (e & _ & _ & He & _ & Hr). apply list_elem_of_lookup_2 in Hn as Hin.
  destruct (Hr n Hin) as [Hb Hl]. split_and!; try done; try lia.
  - destruct scan_facts as (_ & Hok & _). destruct (sc_D _ _ _ Hok v ltac:(lia)) as (d & Hd & Hdc).
    rewrite Hc in Hd. injection Hd as <-. eapply level_edge; [by apply (dc_level _ _ _ Hdc)|done].
  - apply lookup_lt_Some in Hn. lia.
Qed.

(** The neighbour is done. *)
Lemma at_edge_next v i n :
  at_edge s t v i → row v !! Z.to_nat i = Some n → aget (s_Q s) n = Some 0 → at_edge s t v (i + 1).
Proof.
  intros [H1 H2 H3 H4 H5 H6] Hn Hq. pose proof (lookup_lt_Some _ _ _ Hn). split; try done; [lia|].
  intros j w Hj Hw. destruct (Z.eqb_spec (Z.of_nat j) i) as [E|]; [|by apply (H6 j); [lia|]].
  replace j with (Z.to_nat i) in Hw by lia. simplify_eq. done.
Qed.

Lemma done_upto_next v : done_upto s t v → expanded s v → done_upto s t (v + 1).
Proof. intros H1 H2 u Hu. destruct (Z.eqb_spec u v) as [->|]; [done|]. apply H1. lia. Qed.

Lemma step_test : t_pc th = AtTest → wp (do_work_step g DEG P t th) goal s.
Proof using Hg HN HP Hinv Ht.
  intros Ep. destruct scan_facts as (HtP & Hok & Hit & Hat). unfold do_work_step. rewrite Ep. wp_steps.
  rewrite (sc_terminate _ _ _ Hok). simpl. wp_steps. apply scan_goto; rewrite ?Ep; try done. simpl.
  rewrite (proj1 (split_eq t HtP)). pose proof (c_mono t (S t) ltac:(lia) ltac:(lia)). split; [lia|].
  intros u Hu. lia.
Qed.

Lemma step_scan v : t_pc th = Scan v → wp (do_work_step g DEG P t th) goal s.
Proof using Hg HN HP Hinv Ht.
  intros Ep. destruct scan_facts as (HtP & Hok & Hit & Hat). rewrite Ep in Hat. destruct Hat as [Hv Hd].
  destruct (split_eq t HtP) as [Es Et]. unfold do_work_step. rewrite Ep, Et.
  destruct (Z.ltb_spec v (c (S t))) as [Hlt|Hge].
  2: { wp_steps. apply scan_goto; rewrite ?Ep; try done. simpl. rewrite Es. split; [done|].
       replace (c (S t)) with v by lia. done. }
  destruct (own_vertex v ltac:(lia)) as [Hvl Htop]. wp_steps.
  eapply wp_read; [apply (go_exist _ _ _ (so_graph _ _ _ Hg) v Hvl)|].
  destruct (exists1 (exist g) v) eqn:Ex; simpl.
  - wp_steps. destruct (sc_D _ _ _ Hok v ltac:(lia)) as (d & Hdv & Hdc). eapply wp_read; [done|].
    wp_steps. destruct (Z.eqb_spec d 0) as [->|]; [|destruct (Z.eqb_spec d 2) as [->|]]; simpl;
      apply scan_goto; rewrite ?Ep; try done; simpl.
    + split; [lia|]. apply done_upto_next; [done|]. intros _ E. congruence.
    + split; [lia|]. apply done_upto_next; [done|]. intros _ E. congruence.
    + rewrite (dc_val _ _ _ Hdc) in Hdv by done. split; try done; [lia|lia|]. intros j w Hj. lia.
  - wp_steps. apply scan_goto; rewrite ?Ep; try done; simpl. split; [lia|].
    apply done_upto_next; [done|]. intros E. congruence.
Qed.

Lemma step_edge v i : t_pc th = Edge v i → wp (do_work_step g DEG P t th) goal s.
Proof using Hg HN HP Hinv Ht.
  intros Ep. destruct scan_facts as (HtP & Hok & Hit & Hat). rewrite Ep in Hat. simpl in Hat.
  pose proof Hat as [Ho Hx Hc Hd Hi He]. destruct (own_vertex v Ho) as [Hv Htop].
  destruct (row_spec v Hv) as (e & Hev & Heb & Hlen & Hrow & Hin).
  destruct (so_graph _ _ _ Hg) as [_ Hsize _ _ _ Hl _ _ _].
  unfold do_work_step. rewrite Ep. wp_steps. eapply wp_read; [done|].
  destruct (Z.ltb_spec i e) as [Hlt|Hge].
  - destruct (Hrow i ltac:(lia)) as (n & Hn & HW). apply list_elem_of_lookup_2 in Hn as Hn'.
    destruct (Hin n Hn') as [Hnb _].
    assert (0 ≤ v * DEG + i < N * DEG) by nia. assert (0 ≤ v * DEG) by nia.
    wp_steps. apply wp_int; [lia|]. wp_steps. apply wp_int; [lia|]. wp_steps. eapply wp_read; [done|].
    wp_steps. destruct (proj2 (sc_Q _ _ _ Hok) n ltac:(lia)) as [Hq|Hq]; (eapply wp_read; [done|]);
      wp_steps; simpl; apply scan_goto; rewrite ?Ep; try done; simpl.
    + by eapply at_edge_next.
    + split; [done|]. split; [done|]. intros ->.
      rewrite (sc_low _ _ _ Hok 0) in Hq; [done|]. eapply (level_le _ _ 0); [lia|constructor].
  - wp_steps. apply scan_goto; rewrite ?Ep; try done; simpl. split; [lia|]. apply done_upto_next; [done|].
    intros _ _ w [j Hj]%list_elem_of_lookup. pose proof (lookup_lt_Some _ _ _ Hj). eapply He; [|done]. lia.
Qed.

Lemma wp_mutex n o (R : option nat → shared → Prop) :
  aget (locks g) n = Some true → aget (s_owner s) n = Some o → R o s → wp (mutex g n) R s.
Proof.
  intros Hl Ho HR. unfold mutex. apply wp_bind. eapply wp_get_some; [done|]. simpl. wp_steps.
  by eapply wp_get_some.
Qed.

Lemma owner_in n : 0 ≤ n ≤ largest g → ∃ o, aget (s_owner s) n = Some o.
Proof using Hg HN Hinv.
  intros Hn. pose proof largest_bound. apply aget_is_Some. destruct Hinv as [_ _ H3 _ _]. simpl in H3. lia.
Qed.

Lemma step_lock v i n : ready th s = true → t_pc th = Lock v i n → wp (do_work_step g DEG P t th) goal s.
Proof using Hg HN HP Hinv Ht.
  intros Hr Ep. destruct scan_facts as (HtP & Hok & Hit & Hat). rewrite Ep in Hat. simpl in Hat.
  destruct (neighbor_facts v i n Hat) as (Hn & Hl & _ & _). destruct (owner_in n Hn) as [o Ho].
  unfold ready in Hr. rewrite Ep, Ho in Hr. destruct o as [|]; [done|].
  unfold do_work_step, lock. rewrite Ep. wp_steps. eapply wp_mutex; [done|done|]. wp_steps.
  eapply scan_put; try done.
  - simpl. by rewrite length_aset.
  - eapply locks_take; [done|by rewrite Ep|done|done|apply Hinv].
  - eapply scan_ok_owner; [done|by rewrite Ep|done|done].
  - eapply scan_at_grows; [by apply grows_owner|]. done.
Qed.

Lemma step_check v i n : t_pc th = Check v i n → wp (do_work_step g DEG P t th) goal s.
Proof using Hg HN HP Hinv Ht.
  intros Ep. destruct scan_facts as (HtP & Hok & Hit & Hat). rewrite Ep in Hat. simpl in Hat.
  destruct (neighbor_facts v i n Hat) as (Hn & _). pose proof largest_bound.
  unfold do_work_step. rewrite Ep. wp_steps.
  destruct (proj2 (sc_Q _ _ _ Hok) n ltac:(lia)) as [Hq|Hq]; (eapply wp_read; [done|]); wp_steps; simpl;
    apply scan_goto; rewrite ?Ep; done.
Qed.

Lemma binary_aset l n x : binary l → 0 ≤ n < N → x = 0 ∨ x = 1 → binary (aset l n x).
Proof.
  intros [H1 H2] Hn Hx. split; [by rewrite length_aset|]. intros v Hv. rewrite aget_aset_any by lia.
  destruct (v =? n); [|by apply H2]. destruct Hx as [->| ->]; auto.
Qed.

Lemma step_claim v i n : t_pc th = Claim v i n → wp (do_work_step g DEG P t th) goal s.
Proof using Hg HN HP Hinv Ht.
  intros Ep. destruct scan_facts as (HtP & Hok & Hit & Hat). rewrite Ep in Hat. simpl in Hat.
  destruct (neighbor_facts v i n Hat) as (Hn & _ & Hlev & _). pose proof largest_bound.
  pose proof Hok as [H1 H2 H3 H4 H5 H6 H7 H8 H9]. pose proof (proj1 H3) as HL.
  unfold do_work_step, write_Q. rewrite Ep. wp_steps.
  destruct (aget_is_Some (s_Q s) n) as [q Hq]; [lia|]. eapply wp_read; [done|]. wp_steps.
  set (s' := s <| s_Q := aset (s_Q s) n 0 |>).
  assert (HQ : ∀ u, aget (s_Q s') u = if u =? n then Some 0 else aget (s_Q s) u).
  { intros u. unfold s'. simpl. apply aget_aset_any. lia. }
  assert (Hgr : grows s s').
  { split; try done. intros u Hu. rewrite HQ. by destruct (u =? n). }
  eapply scan_put; [done|done|exact Hgr|done| | |done|].
  - eapply locks_keep; [done|by rewrite Ep|done|apply Hinv].
  - split; try done.
    + unfold s'. simpl. apply binary_aset; [done|lia|auto].
    + intros u Hu. by apply (gr_Q _ _ Hgr), H5.
    + intros u. rewrite HQ. destruct (Z.eqb_spec u n) as [->|]; [done|apply H6].
    + intros u Hu. destruct (H7 u Hu) as [? ?]. split; [|done]. by apply (gr_Q _ _ Hgr).
    + intros u. rewrite HQ. destruct (Z.eqb_spec u n) as [->|].
      * intros _ _. right. exists t, (Thread (Mark v i n) (t_iter th)), v, i.
        by rewrite list_lookup_insert_eq by (by eapply lookup_lt_Some).
      * intros Hu Hu0. destruct (H8 u Hu Hu0) as [?|(t' & x & v' & i' & Ht' & Hx)]; [by left|].
        right. exists t', x, v', i'. split; [|done]. destruct (decide (t' = t)) as [->|]; [congruence|].
        by rewrite list_lookup_insert_ne.
  - simpl. split; [by eapply (scan_at_grows _ _ _ (Claim v i n) Hgr)|]. by rewrite HQ, Z.eqb_refl.
Qed.

Lemma step_mark v i n : t_pc th = Mark v i n → wp (do_work_step g DEG P t th) goal s.
Proof using Hg HN HP Hinv Ht.
  intros Ep. destruct scan_facts as (HtP & Hok & Hit & Hat). rewrite Ep in Hat. simpl in Hat.
  destruct Hat as [Hat Hqn]. destruct (neighbor_facts v i n Hat) as (Hn & _). pose proof largest_bound.
  pose proof Hok as [H1 H2 H3 H4 H5 H6 H7 H8 H9]. pose proof (proj1 H4) as HL.
  unfold do_work_step, write_temporary. rewrite Ep. wp_steps.
  destruct (aget_is_Some (s_temporary s) n) as [q Hq]; [lia|]. eapply wp_read; [done|]. wp_steps.
  set (s' := s <| s_temporary := aset (s_temporary s) n 1 |>).
  assert (HT : ∀ u, aget (s_temporary s') u = if u =? n then Some 1 else aget (s_temporary s) u).
  { intros u. unfold s'. simpl. apply aget_aset_any. lia. }
  assert (Hgr : grows s s').
  { split; try done. intros u Hu. rewrite HT. by destruct (u =? n). }
  eapply scan_put; [done|done|exact Hgr|done| | |done|].
  - eapply locks_keep; [done|by rewrite Ep|done|apply Hinv].
  - split; try done.
    + unfold s'. simpl. apply binary_aset; [done|lia|auto].
    + intros u. rewrite HT. destruct (Z.eqb_spec u n) as [->|]; [|apply H7]. intros _. split; [done|]. apply Hat.
    + intros u Hu Hu0. rewrite HT. destruct (Z.eqb_spec u n) as [->|Hne]; [by left|].
      destruct (H8 u Hu Hu0) as [?|(t' & x & v' & i' & Ht' & Hx)]; [by left|].
      right. exists t', x, v', i'. split; [|done]. destruct (decide (t' = t)) as [->|]; [congruence|].
      by rewrite list_lookup_insert_ne.
  - simpl. split; [by eapply (scan_at_grows _ _ _ (Claim v i n) Hgr)|]. split; [done|]. by rewrite HT, Z.eqb_refl.
Qed.

Lemma step_unlock v i n : t_pc th = Unlock v i n → wp (do_work_step g DEG P t th) goal s.
Proof using Hg HN HP Hinv Ht.
  intros Ep. destruct scan_facts as (HtP & Hok & Hit & Hat). rewrite Ep in Hat. simpl in Hat.
  destruct Hat as (Hat & Hq & _). destruct (neighbor_facts v i n Hat) as (Hn & Hl & _).
  destruct (owner_in n Hn) as [o Ho].
  unfold do_work_step, unlock. rewrite Ep. wp_steps. eapply wp_mutex; [done|done|]. wp_steps.
  eapply scan_put; try done.
  - simpl. by rewrite length_aset.
  - eapply locks_drop; [done|by rewrite Ep|done|apply Hinv].
  - eapply scan_ok_owner; [done|by rewrite Ep|done|done].
  - eapply scan_at_grows; [by apply grows_owner|]. simpl. eapply at_edge_next; [apply Hat|apply Hat|done].
Qed.

Lemma scan_step : ready th s = true → wp (do_work_step g DEG P t th) goal s.
Proof using Hg HN HP Hinv Ht.
  intros Hr. destruct scan_facts as (_ & _ & _ & Hat). destruct (t_pc th) eqn:Ep; try done.
  - unfold ready in Hr. by rewrite Ep in Hr.
  - by apply step_test.
  - by eapply step_scan.
  - by eapply step_edge.
  - by eapply step_lock.
  - by eapply step_check.
  - by eapply step_claim.
  - by eapply step_mark.
  - by eapply step_unlock.
Qed.
End Scan.

(** ** The second half of a round *)

Lemma closed_next k u : level k u → closed (S k) u.
Proof. intros Hk w Hw. by eapply level_edge. Qed.

(** The new colour. *)
Lemma dcol_next k u d x :
  dcol k u d → x = 0 ∨ x = 1 → (x = 1 ↔ level (S k) u ∧ u ≠ 0) →
  dcol (S k) u (if d =? 1 then 2 else x).
Proof.
  intros [H1 H2 H3] Hx Hl. destruct (Z.eqb_spec d 1) as [->|Hd].
  - split; [lia|done|]. intros _. right. by apply closed_next, H2.
  - split; [lia|by intros [? _]%Hl|]. intros Hs. destruct (decide (u = 0)) as [->|Hu].
    + assert (H0 : level k 0) by (eapply (level_le _ _ 0); [lia|constructor]).
      destruct (H3 H0) as [?|Hc]; [done|]. right. by apply closed_next.
    + left. by apply Hl.
Qed.

Lemma total_bound : 0 ≤ Total g ≤ N.
Proof using Hg HN.
  destruct Hg as [_ -> _ _ _ _]. pose proof largest_bound.
  pose proof (count_if_bounds (exists1 (exist g)) (seqZ 0 (largest g + 1))). rewrite length_seqZ in *. lia.
Qed.

Lemma round_bound k : (∀ j, (j < k)%nat → ¬ last_round j) → Z.of_nat k ≤ Total g.
Proof using Hg HN.
  intros H. pose proof total_bound. destruct (Z.le_gt_cases (Z.of_nat k) (Total g)) as [|Hlt]; [done|].
  exfalso. apply (H (k - 1)%nat); [lia|]. right. lia.
Qed.

Section Colour.
Context (k : nat) (ths : list thread) (s : shared) (t : nat) (th : thread).
Hypothesis Hinv : bfs_inv (PhColor k) (Job ths s).
Hypothesis Ht : ths !! t = Some th.

#[local] Abbreviation goal := (λ th' s', bfs_inv (PhColor k) (Job (<[t := th']> ths) s')).

Lemma color_facts :
  Z.of_nat t < P ∧ color_at k s t th ∧ (∀ u, c t ≤ u < c (S t) → 0 ≤ u ≤ largest g).
Proof using Hg HN HP Hinv Ht.
  destruct Hinv as [H1 _ _ _ (_ & _ & _ & H6 & _)]. simpl in *. apply H6 in Ht as Hx.
  apply lookup_lt_Some in Ht. split_and!; [lia|done|]. intros u Hu.
  pose proof (c_bounds t ltac:(lia)). pose proof (c_bounds (S t) ltac:(lia)). lia.
Qed.

(** A step that may write [D] at vertices of thread [t], and [terminate]. *)
Lemma color_put th' d x :
  holds (t_pc th) = None → holds (t_pc th') = None → length d = length (s_D s) →
  (x = s_terminate s ∨ x = 1 ∧ last_round k) →
  color_at k (s <| s_D := d |> <| s_terminate := x |>) t th' →
  (∀ u, ¬ (c t ≤ u < c (S t)) → aget d u = aget (s_D s) u) →
  (∀ u, c t ≤ u < c (S t) → ∃ y, aget d u = Some y ∧ dcol (if uncolored th' u then k else S k) u y) →
  goal th' (s <| s_D := d |> <| s_terminate := x |>).
Proof using Hg HN HP Hinv Ht.
  intros Hh Hh' Hd Hx Hat Hout Hin. destruct color_facts as (HtP & _ & _).
  destruct Hinv as [H1 H2 H3 H4 ([E1 E2 E3 E4] & H6 & H7 & H8 & H9)]. simpl in *.
  split; simpl; rewrite ?length_insert, ?Hd; try done.
  { eapply locks_keep; [done|by rewrite Hh, Hh'|done|done]. }
  split; [by split|]. split; [done|]. split.
  { destruct Hx as [->|[-> ?]]; [done|by right]. }
  split.
  - intros u z Hz. destruct (decide (u = t)) as [->|Hne].
    + rewrite list_lookup_insert_eq in Hz by (by eapply lookup_lt_Some). by injection Hz as <-.
    + rewrite list_lookup_insert_ne in Hz by done. specialize (H8 _ _ Hz). unfold color_at in *.
      destruct (t_pc z); try done. destruct H8 as (? & ? & Hl). split_and!; [done..|]. simpl. intros Hr.
      destruct Hx as [->|[-> _]]; auto.
  - intros u z v Hz Hv. destruct (decide (u = t)) as [->|Hne].
    + rewrite list_lookup_insert_eq in Hz by (by eapply lookup_lt_Some). injection Hz as <-. by apply Hin.
    + rewrite list_lookup_insert_ne in Hz by done. rewrite Hout; [by eapply H9|].
      intros Hv'. apply Hne. pose proof (lookup_lt_Some _ _ _ Hz). apply (owner_unique u t v); (done || lia).
Qed.

Lemma color_put_same th' x :
  holds (t_pc th) = None → holds (t_pc th') = None → (x = s_terminate s ∨ x = 1 ∧ last_round k) →
  color_at k (s <| s_terminate := x |>) t th' →
  (∀ u, c t ≤ u < c (S t) → uncolored th' u = uncolored th u) → goal th' (s <| s_terminate := x |>).
Proof using Hg HN HP Hinv Ht.
  intros Hh Hh' Hx Hat Hun. replace (s <| s_terminate := x |>) with (s <| s_D := s_D s |> <| s_terminate := x |>)
    by (by destruct s).
  apply color_put; try done. intros u Hu. rewrite Hun by done. destruct Hinv as [_ _ _ _ (_ & _ & _ & _ & H9)].
  by eapply H9.
Qed.

Lemma step_color v : t_pc th = Color v → wp (do_work_step g DEG P t th) goal s.
Proof using Hg HN HP Hinv Ht.
  intros Ep. destruct color_facts as (HtP & Hat & Hown). unfold color_at in Hat. rewrite Ep in Hat.
  destruct Hat as [Hit Hv]. destruct (split_eq t HtP) as [_ Et]. unfold do_work_step. rewrite Ep, Et.
  assert (Es : s <| s_terminate := s_terminate s |> = s) by (by destruct s).
  destruct (Z.ltb_spec v (c (S t))) as [Hlt|Hge].
  2: { wp_steps. rewrite <- Es. apply color_put_same; rewrite ?Ep; try done; [by left|].
       intros u Hu. unfold uncolored. rewrite Ep. simpl. destruct (Z.leb_spec v u); (done || lia). }
  pose proof Hinv as [H1 H2 H3 H4 ([E1 E2 E3 E4] & H6 & H7 & H8 & H9)]. simpl in *. pose proof largest_bound.
  pose proof (Hown v ltac:(lia)) as Hvl.
  destruct (H9 t th v Ht ltac:(lia)) as (d & Hd & Hdc). unfold uncolored in Hdc. rewrite Ep, Z.leb_refl in Hdc.
  assert (Hx : ∃ x, aget (s_temporary s) v = Some x ∧ (x = 0 ∨ x = 1)).
  { destruct (proj2 E2 v ltac:(lia)) as [->| ->]; eauto. }
  destruct Hx as (x & Htx & Hx).
  assert (Hnext : dcol (S k) v (if d =? 1 then 2 else x)).
  { apply dcol_next; [done|done|]. rewrite <- E3, <- E4, Htx by lia. split; [by intros ->|by intros [= ->]]. }
  wp_steps. eapply wp_read; [done|]. wp_step.
  eapply (wp_mono _ (λ _ s', s' = s <| s_D := aset (s_D s) v (if d =? 1 then 2 else x) |>)).
  { unfold write_D. destruct (d =? 1); wp_steps.
    - eapply wp_read; [done|]. by wp_steps.
    - eapply wp_read; [done|]. wp_steps. eapply wp_read; [done|]. by wp_steps. }
  intros [] _ ->. wp_steps. apply aget_Some_range in Hd as Hr.
  match goal with |- bfs_inv _ (Job _ ?s') => replace s' with (s' <| s_terminate := s_terminate s |>) by (by destruct s) end.
  apply color_put; rewrite ?Ep; try done.
  - by rewrite length_aset.
  - by left.
  - unfold color_at. simpl. split; [done|lia].
  - intros u Hu. rewrite aget_aset_any by done. destruct (Z.eqb_spec u v); [lia|done].
  - intros u Hu. rewrite aget_aset_any by done. unfold uncolored. simpl. destruct (Z.eqb_spec u v) as [->|Hne].
    + destruct (Z.leb_spec (v + 1) v); [lia|]. by eexists.
    + destruct (H9 t th u Ht Hu) as (y & Hy & Hyc). exists y. split; [done|]. unfold uncolored in Hyc. rewrite Ep in Hyc.
      destruct (Z.leb_spec (v + 1) u), (Z.leb_spec v u); (done || lia).
Qed.

Lemma step_decide : t_pc th = Decide → wp (do_work_step g DEG P t th) goal s.
Proof using Hg HN HP Hinv Ht.
  intros Ep. destruct color_facts as (HtP & Hat & _). unfold color_at in Hat. rewrite Ep in Hat.
  pose proof Hinv as [H1 H2 H3 H4 ([E1 E2 E3 E4] & H6 & H7 & H8 & H9)]. simpl in *.
  pose proof largest_bound. pose proof total_bound. pose proof (round_bound k H6).
  assert (Hcond : ∃ q, aget (s_Q s) (largest g) = Some q ∧
    ((q =? 0) || (Total g <=? t_iter th) = true ↔ last_round k)).
  { destruct (proj2 E1 (largest g) ltac:(lia)) as [Hq|Hq]; rewrite Hq; eexists; (split; [done|]); simpl.
    - split; [|done]. intros _. left. apply E3; [lia|done].
    - rewrite Z.leb_le, Hat. unfold BfsWork.last_round. rewrite <- E3, Hq by lia. split; [auto|]. by intros [|]. }
  destruct Hcond as (q & Hq & Hc). unfold do_work_step. rewrite Ep. wp_steps. eapply wp_read; [done|].
  assert (Es : s <| s_terminate := s_terminate s |> = s) by (by destruct s).
  destruct ((q =? 0) || (Total g <=? t_iter th)) eqn:Eq; simpl; wp_steps; simpl; (apply wp_int; [lia|]); wp_steps.
  - apply color_put_same; rewrite ?Ep; try done; [right; by split; [|apply Hc]| |].
    + unfold color_at. simpl. split_and!; [done|lia|done].
    + intros u Hu. unfold uncolored. by rewrite Ep.
  - rewrite <- Es. apply color_put_same; rewrite ?Ep; try done; [by left| |].
    + unfold color_at. simpl. split_and!; [done|lia|]. intros Hl%Hc. done.
    + intros u Hu. unfold uncolored. by rewrite Ep.
Qed.

Lemma color_step : ready th s = true → wp (do_work_step g DEG P t th) goal s.
Proof using Hg HN HP Hinv Ht.
  intros Hr. destruct color_facts as (_ & Hat & _). unfold color_at in Hat. destruct (t_pc th) eqn:Ep; try done.
  - unfold ready in Hr. by rewrite Ep in Hr.
  - by eapply step_color.
  - by apply step_decide.
Qed.
End Colour.

(** ** The barrier *)

Lemma thread_step ph ths s t th :
  bfs_inv ph (Job ths s) → ths !! t = Some th → ready th s = true →
  wp (do_work_step g DEG P t th) (λ th' s', bfs_inv ph (Job (<[t := th']> ths) s')) s.
Proof using Hg HN HP.
  intros Hinv Ht Hr. destruct ph as [|k|k|k|k].
  - destruct Hinv as [H1 H2 H3 H4 (H5 & H6 & H7 & H8)]. simpl in *. destruct (H8 _ _ Ht) as [Hit [Ep|Ep]].
    2: { unfold ready in Hr. by rewrite Ep in Hr. }
    unfold do_work_step. rewrite Ep. wp_steps. split; simpl; rewrite ?length_insert; try done.
    + eapply locks_keep; [done|by rewrite Ep|done|done].
    + split_and!; try done. intros u x Hx. destruct (decide (u = t)) as [->|Hne].
      * rewrite list_lookup_insert_eq in Hx by (by eapply lookup_lt_Some). injection Hx as <-. simpl. auto.
      * rewrite list_lookup_insert_ne in Hx by done. by eapply H8.
  - by apply scan_step.
  - by apply color_step.
  - destruct Hinv as [H1 H2 H3 H4 (H5 & H8)]. simpl in *. destruct (H8 _ _ Ht) as [Hit [Ep|Ep]].
    2: { unfold ready in Hr. by rewrite Ep in Hr. }
    unfold do_work_step. rewrite Ep. wp_steps. destruct H5 as (H5 & H6 & H7 & Hterm). rewrite Hterm. simpl.
    wp_steps. split; simpl; rewrite ?length_insert; try done.
    + eapply locks_keep; [done|by rewrite Ep|done|done].
    + split; [done|]. intros u x Hx. destruct (decide (u = t)) as [->|Hne].
      * rewrite list_lookup_insert_eq in Hx by (by eapply lookup_lt_Some). injection Hx as <-. simpl. auto.
      * rewrite list_lookup_insert_ne in Hx by done. by eapply H8.
  - destruct Hinv as [_ _ _ _ (_ & H8)]. simpl in *. destruct (H8 _ _ Ht) as [Hit Ep].
    unfold ready in Hr. by rewrite Ep in Hr.
Qed.

Lemma locks_none ths ths' s :
  (∀ t th, ths !! t = Some th → holds (t_pc th) = None) →
  (∀ t th, ths' !! t = Some th → holds (t_pc th) = None) → locks_ok ths s → locks_ok ths' s.
Proof.
  intros H1 H2 Hl n t. rewrite (Hl n t). split.
  - intros (th & Ht & E). rewrite (H1 _ _ Ht) in E. done.
  - intros (th & Ht & E). rewrite (H2 _ _ Ht) in E. done.
Qed.

(** All threads have scanned their vertices: the level is complete. *)
Lemma scan_complete k ths s :
  bfs_inv (PhScan k) (Job ths s) → (∀ t th, ths !! t = Some th → t_pc th = Wait (Color (c t)) ∧ done_upto s t (c (S t))) →
  exact (S k) s.
Proof using Hg HN HP.
  intros [H1 H2 H3 H4 [[S1 S2 S3 S4 S5 S6 S7 S8 S9] H6]] Hw. simpl in *. pose proof largest_bound. pose proof top_bounds.
  assert (Hmark : ∀ v, aget (s_Q s) v = Some 0 → v ≠ 0 → aget (s_temporary s) v = Some 1).
  { intros v Hv Hv0. destruct (S8 v Hv Hv0) as [?|(t & th & v' & i' & Ht & Ep)]; [done|].
    destruct (Hw _ _ Ht) as [Ep' _]. congruence. }
  split; try done.
  - intros v Hv. split; [apply S6|]. intros [Hlv|(u & Hu & Ha)]%level_S_inv; [by apply S5|].
    pose proof (level_vertex k u Hu) as Hub. destruct (Z.lt_ge_cases u top) as [Hlt|Hge].
    + destruct (S9 u ltac:(lia)) as (d & Hd & Hdc). destruct (dc_closed _ _ _ Hdc Hu) as [->|Hcl].
      * destruct (owner_of u ltac:(lia)) as (t & HtP & Htu).
        destruct (lookup_lt_is_Some_2 ths t) as [th Ht]; [lia|]. destruct (Hw _ _ Ht) as [_ Hdone].
        by apply (Hdone u Htu (proj1 Ha) Hd v), Ha.
      * apply S5. by apply Hcl.
    + (* only the last vertex may be left out *)
      assert (u = largest g) as -> by lia. destruct k as [|k].
      * apply level_0_inv in Hu. destruct (row_spec (largest g) ltac:(lia)) as (e & _ & _ & _ & _ & Hr).
        destruct (Hr v (proj2 Ha)) as [Hvb _]. apply S5. replace v with 0 by lia. constructor.
      * exfalso. apply (S2 k); [lia|]. by left.
  - intros v Hv. split; [apply S7|]. intros [? ?]. by apply Hmark.
Qed.

Section Release.
Context (ths : list thread) (s : shared).
Hypothesis Hwait : ∀ t th, ths !! t = Some th → ∃ q, t_pc th = Wait q.

(** What all threads know before the barrier opens, they know after it. *)
Lemma leave_all (A : nat → Z → pc → Prop) :
  (∀ t th q, ths !! t = Some th → t_pc th = Wait q → A t (t_iter th) q) →
  ∀ t th, (leave <$> ths) !! t = Some th → A t (t_iter th) (t_pc th).
Proof using Hwait.
  intros HA t th Ht. apply list_lookup_fmap_Some in Ht as (x & -> & Hx).
  destruct (Hwait _ _ Hx) as [q Hq]. unfold leave. rewrite Hq. simpl. by eapply HA.
Qed.

Lemma release_to ph ph' (A : nat → Z → pc → Prop) :
  bfs_inv ph (Job ths s) → (∀ t th q, ths !! t = Some th → t_pc th = Wait q → A t (t_iter th) q) →
  (∀ t i q, A t i q → holds q = None) →
  ((∀ t th, (leave <$> ths) !! t = Some th → A t (t_iter th) (t_pc th)) → phase_ok ph' (leave <$> ths) s) →
  bfs_inv ph' (Job (leave <$> ths) s).
Proof using Hwait.
  intros [H1 H2 H3 H4 _] HA Hh Hp. simpl in *. pose proof (leave_all A HA) as HA'.
  split; simpl; rewrite ?length_fmap; try done; [|by apply Hp].
  eapply locks_none; [| |exact H4].
  - intros t th Ht. by destruct (Hwait _ _ Ht) as [q ->].
  - intros t th Ht. by eapply Hh, HA'.
Qed.

(** A complete level is a good start for the next round. *)
Lemma exact_scan_ok k ths' :
  exact k s → s_terminate s = 0 → (∀ j, (j < k)%nat → ¬ last_round j) →
  (∀ u, 0 ≤ u < top → ∃ d, aget (s_D s) u = Some d ∧ dcol k u d) → scan_ok k ths' s.
Proof using Hg HN.
  intros [E1 E2 E3 E4] Ht Hr HD. pose proof largest_bound. split; try done.
  - intros v Hv. apply E3; [|done]. pose proof (level_vertex _ _ Hv). lia.
  - intros v Hv. apply level_stay. apply E3; [|done]. apply aget_Some_range in Hv. destruct E1. lia.
  - intros v Hv. apply E4; [|done]. apply aget_Some_range in Hv. destruct E2. lia.
  - intros v Hv Hv0. left. apply E4; [|done]. apply aget_Some_range in Hv. destruct E1. lia.
Qed.

Lemma release_start :
  bfs_inv PhStart (Job ths s) → bfs_inv (PhScan 0) (Job (leave <$> ths) s).
Proof using Hg HN Hwait.
  intros Hinv. pose proof Hinv as [_ _ _ _ (Hex & H6 & H7 & H8)]. simpl in *.
  apply (release_to PhStart _ (λ _ i q, i = 0 ∧ q = AtTest)); [done| |by intros t i q [_ ->]|].
  - intros t th q Ht Hq. destruct (H8 _ _ Ht) as [? [E|E]]; split; congruence.
  - intros HA. split; [apply exact_scan_ok; try done; intros j Hj; lia|].
    intros t th Ht. by destruct (HA _ _ Ht) as [-> ->].
Qed.

Lemma release_scan k :
  bfs_inv (PhScan k) (Job ths s) → bfs_inv (PhColor k) (Job (leave <$> ths) s).
Proof using Hg HN HP Hwait.
  intros Hinv. pose proof Hinv as [H1 _ _ _ (Hok & H8)]. simpl in *.
  assert (HW : ∀ t th, ths !! t = Some th → t_pc th = Wait (Color (c t)) ∧ done_upto s t (c (S t))).
  { intros t th Ht. destruct (Hwait _ _ Ht) as [q Hq]. destruct (H8 _ _ Ht) as [_ Hs]. rewrite Hq in Hs.
    by destruct Hs as [-> ?]. }
  apply (release_to (PhScan k) _ (λ t i q, i = Z.of_nat k ∧ q = Color (c t) ∧ Z.of_nat t < P));
    [done| |by intros t i q (_ & -> & _)|].
  - intros t th q Ht Hq. destruct (HW _ _ Ht) as [E _]. destruct (H8 _ _ Ht) as [Hi _].
    apply lookup_lt_Some in Ht. split_and!; [done|congruence|lia].
  - intros HA. split_and!; [by eapply scan_complete|apply Hok|left; apply Hok|..].
    + intros t th Ht. destruct (HA _ _ Ht) as (Hi & Hp & HtP). unfold color_at. rewrite Hp. split; [done|].
      pose proof (c_mono t (S t) ltac:(lia) ltac:(lia)). lia.
    + intros t th u Ht Hu. destruct (HA _ _ Ht) as (_ & Hp & HtP). unfold uncolored. rewrite Hp.
      destruct (Z.leb_spec (c t) u); [|lia]. apply Hok. pose proof (c_bounds t ltac:(lia)).
      pose proof (c_mono (S t) (Z.to_nat P) ltac:(lia) ltac:(lia)). unfold top. lia.
Qed.

Lemma release_color k :
  ths ≠ [] → bfs_inv (PhColor k) (Job ths s) →
  bfs_inv (if s_terminate s =? 0 then PhScan (S k) else PhEnd k) (Job (leave <$> ths) s).
Proof using Hg HN HP Hwait.
  intros Hne Hinv. pose proof Hinv as [H1 _ _ _ (Hex & H6 & H7 & H8 & H9)]. simpl in *.
  apply (release_to (PhColor k) _ (λ _ i q, i = Z.of_nat (S k) ∧ q = AtTest)); [done| |by intros t i q [_ ->]|].
  { intros t th q Ht Hq. specialize (H8 _ _ Ht). unfold color_at in H8. rewrite Hq in H8. by destruct H8 as (-> & -> & _). }
  intros HA. destruct H7 as [Hterm|[Hterm Hlast]]; rewrite Hterm; simpl.
  - split; [|intros t th Ht; by destruct (HA _ _ Ht) as [-> ->]]. apply exact_scan_ok; [done|done|..].
    + intros j Hj. destruct (decide (j = k)) as [->|]; [|apply H6; lia]. intros Hlr.
      destruct ths as [|th0 ths0]; [done|]. specialize (H8 0%nat _ eq_refl). unfold color_at in H8.
      destruct (Hwait 0%nat _ eq_refl) as [q Hq]. rewrite Hq in H8. apply H8 in Hlr. lia.
    + intros u Hu. destruct (owner_of u Hu) as (t & HtP & Htu).
      destruct (lookup_lt_is_Some_2 ths t) as [th Ht]; [lia|].
      destruct (H9 t th u Ht Htu) as (d & Hd & Hdc). exists d. split; [done|].
      destruct (Hwait _ _ Ht) as [q Hq]. unfold uncolored in Hdc. by rewrite Hq in Hdc.
  - split; [done|]. intros t th Ht. destruct (HA _ _ Ht) as [-> ->]. auto.
Qed.

Lemma release_end k :
  bfs_inv (PhEnd k) (Job ths s) → bfs_inv (PhDone k) (Job (leave <$> ths) s).
Proof using Hwait.
  intros Hinv. pose proof Hinv as [_ _ _ _ (Hf & H8)]. simpl in *.
  apply (release_to (PhEnd k) _ (λ _ i q, i = Z.of_nat (S k) ∧ q = Done)); [done| |by intros t i q [_ ->]|].
  - intros t th q Ht Hq. destruct (H8 _ _ Ht) as [? [E|E]]; split; congruence.
  - intros HA. by split.
Qed.
End Release.

Lemma release_ok ph ths s :
  bfs_inv ph (Job ths s) → forallb waiting ths = true → ths ≠ [] →
  ∃ ph', bfs_inv ph' (Job (leave <$> ths) s).
Proof using Hg HN HP.
  intros Hinv Hall Hne.
  assert (Hw : ∀ t th, ths !! t = Some th → ∃ q, t_pc th = Wait q).
  { intros t th Ht%list_elem_of_lookup_2. rewrite forallb_forall in Hall.
    specialize (Hall th (proj1 (list_elem_of_In _ _) Ht)). unfold waiting in Hall. destruct (t_pc th); eauto; done. }
  destruct ph as [|k|k|k|k].
  - eexists. by apply release_start.
  - eexists. by apply release_scan.
  - eexists. by apply release_color.
  - eexists. by apply release_end.
  - exfalso. destruct ths as [|th ths]; [done|]. destruct (Hw 0%nat th eq_refl) as [q Hq].
    destruct Hinv as [_ _ _ _ (_ & H8)]. destruct (H8 0%nat th eq_refl) as [_ E]. congruence.
Qed.

(** ** Runs *)

Lemma init_ok : bfs_inv PhStart (bfs_init g P).
Proof using Hg HN HP.
  destruct Hg as [G _ _ HD HQ HT]. pose proof largest_bound. pose proof top_bounds.
  assert (Hlen : ∀ l, l ∈ [edges g; exist g; D g; Q g; temporary g] → Z.of_nat (length l) = N) by apply G.
  assert (L1 : Z.of_nat (length (Q g)) = N) by (apply Hlen; rewrite !elem_of_cons; tauto).
  assert (L2 : Z.of_nat (length (D g)) = N) by (apply Hlen; rewrite !elem_of_cons; tauto).
  assert (L3 : Z.of_nat (length (temporary g)) = N) by (apply Hlen; rewrite !elem_of_cons; tauto).
  assert (Hth : ∀ t th, replicate (Z.to_nat P) (Thread AtStart 0) !! t = Some th → th = Thread AtStart 0).
  { intros t th Ht. by apply lookup_replicate in Ht as [-> _]. }
  split; simpl; rewrite ?length_replicate; try done; try lia.
  - apply G.
  - intros n t. split.
    + intros Ho. unfold aget in Ho. destruct (0 <=? n); [|done]. by apply lookup_replicate in Ho as [? _].
    + intros (th & ->%Hth & ?). done.
  - split_and!.
    + split; simpl.
      * split; [done|]. intros v Hv. rewrite HQ by done. destruct (v =? 0); auto.
      * split; [done|]. intros v Hv. rewrite HT by done. auto.
      * intros v Hv. rewrite HQ by done. destruct (Z.eqb_spec v 0) as [->|].
        -- split; [|done]. intros _. constructor.
        -- split; [done|]. by intros ?%level_0_inv.
      * intros v Hv. rewrite HQ, HT by done. split; [done|]. intros [? ?]. by destruct (Z.eqb_spec v 0).
    + done.
    + intros u Hu. rewrite HD by lia. eexists. split; [done|]. destruct (Z.eqb_spec u 0) as [->|].
      * split; [lia|intros _; constructor|by left].
      * split; [lia|lia|]. by intros ?%level_0_inv.
    + intros t th ->%Hth. auto.
Qed.

Lemma bstep_inv ph j j' : bfs_inv ph j → bstep g DEG P j j' → ∃ ph', bfs_inv ph' j'.
Proof using Hg HN HP.
  intros Hinv Hs. destruct Hs as [j t th th' s' Ht Hr Hs|j Hw Hne]; destruct j as [ths s]; simpl in *.
  - exists ph. pose proof (thread_step ph ths s t th Hinv Ht Hr) as H. unfold wp in H. by rewrite Hs in H.
  - by eapply release_ok.
Qed.

Lemma reach_inv j : rtc (bstep g DEG P) (bfs_init g P) j → ∃ ph, bfs_inv ph j.
Proof using Hg HN HP.
  assert (G : ∀ a b, rtc (bstep g DEG P) a b → (∃ ph, bfs_inv ph a) → ∃ ph, bfs_inv ph b).
  { induction 1 as [|a b d Hab _ IH]; [done|]. intros [ph Hph]. apply IH. by eapply bstep_inv. }
  intros H. eapply G; [done|]. exists PhStart. apply init_ok.
Qed.

(** A thread that neither waits nor has ended can step, or waits for a mutex
    whose owner can. *)
Lemma progress ph j :
  bfs_inv ph j → (∃ j', bstep g DEG P j j') ∨ ∀ th, th ∈ j_threads j → t_pc th = Done.
Proof using Hg HN HP.
  intros Hinv. destruct j as [ths s].
  assert (Hgo : ∀ t th, ths !! t = Some th → ready th s = true → ∃ j', bstep g DEG P (Job ths s) j').
  { intros t th Ht Hr. pose proof (thread_step ph ths s t th Hinv Ht Hr) as H.
    apply wp_ok in H as (th' & s' & E & _). eexists. by eapply bs_thread. }
  destruct (forallb waiting ths) eqn:Ew.
  { left. eexists. apply bs_release; [done|]. simpl. intros ->. destruct Hinv as [H _ _ _ _]. simpl in H. lia. }
  assert (Hex : ∃ th, th ∈ ths ∧ waiting th = false).
  { clear Hinv Hgo. induction ths as [|th ths IH]; [done|]. simpl in Ew. destruct (waiting th) eqn:E.
    - destruct (IH Ew) as (x & Hx & Hxw). exists x. split; [by right|done].
    - exists th. split; [left|done]. }
  destruct Hex as (th & Hin & Hnw). apply list_elem_of_lookup in Hin as [t Ht].
  destruct (ready th s) eqn:Er; [left; by eapply Hgo|].
  unfold ready in Er. unfold waiting in Hnw. destruct (t_pc th) eqn:Ep; try done.
  - left. destruct (aget (s_owner s) neighbor) as [[u|]|] eqn:Eo; try done.
    apply (bi_locks _ _ Hinv) in Eo as (x & Hx & Hh). apply (Hgo u x Hx).
    unfold ready. destruct (t_pc x); done.
  - right. destruct Hinv as [_ _ _ _ Hp]. simpl in *.
    destruct ph as [|k|k|k|k]; simpl in Hp.
    + destruct Hp as (_ & _ & _ & Hp). destruct (Hp _ _ Ht) as [_ [?|?]]; congruence.
    + destruct Hp as (_ & Hp). destruct (Hp _ _ Ht) as [_ Hs]. by rewrite Ep in Hs.
    + destruct Hp as (_ & _ & _ & Hp & _). specialize (Hp _ _ Ht). unfold color_at in Hp. by rewrite Ep in Hp.
    + destruct Hp as (_ & Hp). destruct (Hp _ _ Ht) as [_ [?|?]]; congruence.
    + destruct Hp as (_ & Hp). intros x [u Hu]%list_elem_of_lookup. by destruct (Hp _ _ Hu).
Qed.

(** ** Termination *)

Definition edge_cost : Z := 6 * DEG + 3.

(** An upper bound of the steps that are left in this round. *)
Definition pos (p : pc) : Z :=
  let edge v i := 6 + N + (N - v - 1) * edge_cost + 6 * (DEG - i) in
  match p with
  | Done => 0
  | Wait Done => 1
  | Decide => 2
  | Color v => 3 + N - v
  | Wait (Color _) => 4 + N
  | Scan v => 5 + N + (N - v) * edge_cost
  | Edge v i => edge v i
  | Lock v i _ => edge v i - 1
  | Check v i _ => edge v i - 2
  | Claim v i _ => edge v i - 3
  | Mark v i _ => edge v i - 4
  | Unlock v i _ => edge v i - 5
  | AtTest => 6 + N + N * edge_cost
  | Wait AtTest => 7 + N + N * edge_cost
  | AtStart => 8 + N + N * edge_cost
  | Wait _ => 0
  end.

Definition round_cost : Z := 9 + N + N * edge_cost.
Definition rank (th : thread) : Z := (Total g + 2 - t_iter th) * round_cost + pos (t_pc th).
Definition ranks (ths : list thread) : Z := foldr (λ th n, rank th + n) 0 ths.

Lemma ranks_insert ths t th th' :
  ths !! t = Some th → ranks (<[t := th']> ths) = ranks ths - rank th + rank th'.
Proof.
  revert t. induction ths as [|x ths IH]; intros [|t] H; simpl in *; [done..| |].
  - injection H as ->. lia.
  - rewrite IH by done. lia.
Qed.

(** The variables of a thread are in their ranges. *)
Definition in_range (p : pc) : Prop :=
  match p with
  | Scan v | Color v => 0 ≤ v ≤ N
  | Edge v i => 0 ≤ v < N ∧ 0 ≤ i ≤ DEG
  | Lock v i _ | Check v i _ | Claim v i _ | Mark v i _ | Unlock v i _ => 0 ≤ v < N ∧ 0 ≤ i < DEG
  | Wait q => q = AtTest ∨ q = Done ∨ ∃ v, q = Color v ∧ 0 ≤ v ≤ N
  | _ => True
  end.

Lemma thread_range ph ths s t th :
  bfs_inv ph (Job ths s) → ths !! t = Some th → in_range (t_pc th) ∧ 0 ≤ t_iter th ≤ Total g + 1.
Proof using Hg HN HP.
  intros Hinv Ht. pose proof largest_bound. pose proof total_bound.
  assert (HtP : Z.of_nat t < P). { apply lookup_lt_Some in Ht. destruct Hinv as [H1 _ _ _ _]. simpl in H1. lia. }
  pose proof (c_bounds t ltac:(lia)) as C1. pose proof (c_bounds (S t) ltac:(lia)) as C2.
  destruct ph as [|k|k|k|k]; destruct Hinv as [_ _ _ _ Hp]; simpl in Hp.
  - destruct Hp as (_ & _ & _ & Hp). destruct (Hp _ _ Ht) as [-> [-> | ->]]; simpl; (split; [auto|lia]).
  - destruct Hp as (Hok & Hp). destruct (Hp _ _ Ht) as [-> Hs]. pose proof (round_bound k (sc_rounds _ _ _ Hok)).
    split; [|lia].
    assert (He : ∀ v i, at_edge s t v i → 0 ≤ v < N ∧ 0 ≤ i ≤ Z.of_nat (length (row v)) ∧ Z.of_nat (length (row v)) ≤ DEG).
    { intros v i [Ho _ _ _ Hi _]. destruct (row_spec v ltac:(lia)) as (e & _ & He & <- & _). lia. }
    assert (Hn : ∀ v i n, on_neighbor s t v i n → 0 ≤ v < N ∧ 0 ≤ i < DEG).
    { intros v i n (Hae & Hn & _). apply He in Hae. apply lookup_lt_Some in Hn. lia. }
    destruct (t_pc th); simpl in Hs |- *; try done; try (by eapply Hn); try (by eapply Hn, Hs).
    + right. right. exists (c t). split; [apply Hs|lia].
    + lia.
    + apply He in Hs. lia.
  - destruct Hp as (_ & Hr & _ & Hp & _). specialize (Hp _ _ Ht). pose proof (round_bound k Hr). unfold color_at in Hp.
    destruct (t_pc th); simpl; try done; [|lia..]. destruct Hp as (-> & ? & _). split; [auto|lia].
  - destruct Hp as ((_ & _ & Hr & _) & Hp). pose proof (round_bound k Hr).
    destruct (Hp _ _ Ht) as [-> [-> | ->]]; simpl; (split; [auto|lia]).
  - destruct Hp as ((_ & _ & Hr & _) & Hp). pose proof (round_bound k Hr).
    destruct (Hp _ _ Ht) as [-> ->]; simpl; (split; [auto|lia]).
Qed.

Lemma costs : 0 < DEG ∧ 0 < N ∧ edge_cost = 6 * DEG + 3 ∧ round_cost = 9 + N + N * edge_cost.
Proof using Hg HN.
  pose proof largest_bound. pose proof (go_deg _ _ _ (so_graph _ _ _ Hg)). split_and!; done || lia.
Qed.

Lemma rank_nonneg th : in_range (t_pc th) → 0 ≤ t_iter th ≤ Total g + 1 → 0 ≤ rank th.
Proof using Hg HN HP.
  intros Hr Hi. destruct costs as (HD & HN0 & He & Hc). unfold rank. assert (0 < round_cost) by nia.
  assert (0 ≤ (Total g + 2 - t_iter th) * round_cost) by nia.
  enough (0 ≤ pos (t_pc th)) by lia. assert (0 < edge_cost) by lia.
  destruct (t_pc th); simpl in *; try lia; try nia.
  destruct Hr as [->|[->|(v & -> & Hv)]]; nia.
Qed.

Lemma intM_inv z (s : shared) x s' : intM z s = Ok (x, s') → x = z.
Proof. unfold intM. by destruct (int_ok z); intros [= -> _]. Qed.

Lemma rank_step ph ths s t th th' s' :
  bfs_inv ph (Job ths s) → ths !! t = Some th → ready th s = true →
  do_work_step g DEG P t th s = Ok (th', s') → rank th' < rank th.
Proof using Hg HN HP.
  intros Hinv Ht Hr Hs. destruct (thread_range _ _ _ _ _ Hinv Ht) as [Hrange Hi].
  destruct costs as (HD & HN0 & He & Hc). assert (0 < edge_cost) by lia.
  assert (HtP : Z.of_nat t < P). { apply lookup_lt_Some in Ht. destruct Hinv as [H1 _ _ _ _]. simpl in H1. lia. }
  assert (Hst : 0 ≤ start g P t) by (rewrite (proj1 (split_eq t HtP)); apply c_bounds; lia).
  assert (Hgo : ∀ p s1, retM (Thread p (t_iter th)) s1 = Ok (th', s') → pos p < pos (t_pc th) → rank th' < rank th).
  { intros p s1 [= <- _] Hp. unfold rank. simpl. lia. }
  unfold do_work_step in Hs. unfold ready in Hr. destruct (t_pc th) eqn:Ep; try done; simpl in Hrange;
    repeat first [let Hb := fresh in apply bind_inv in Hs as (? & ? & Hb & Hs); try apply intM_inv in Hb as -> | case_match];
    try (eapply Hgo; [exact Hs|simpl; rewrite ?He; nia]).
  injection Hs as <- _. unfold rank. simpl. rewrite Ep. simpl. nia.
Qed.

Lemma rank_leave th : waiting th = true → in_range (t_pc th) → rank (leave th) < rank th.
Proof.
  intros Hw Hr. unfold waiting in Hw. unfold rank, leave. destruct (t_pc th) as [|q| | | | | | | | | | |]; try done. simpl in *.
  destruct Hr as [->|[->|(v & -> & Hv)]]; simpl; lia.
Qed.

Lemma ranks_nonneg ph ths s : bfs_inv ph (Job ths s) → 0 ≤ ranks ths.
Proof using Hg HN HP.
  intros Hinv. assert (H : ∀ th, th ∈ ths → 0 ≤ rank th).
  { intros th [t Ht]%list_elem_of_lookup. destruct (thread_range _ _ _ _ _ Hinv Ht). by apply rank_nonneg. }
  clear Hinv. induction ths as [|th ths IH]; simpl; [done|]. pose proof (H th ltac:(left)).
  specialize (IH (λ x Hx, H x (list_elem_of_further _ _ _ Hx))). lia.
Qed.

Lemma ranks_leave ths :
  (∀ th, th ∈ ths → waiting th = true ∧ in_range (t_pc th)) → ths ≠ [] → ranks (leave <$> ths) < ranks ths.
Proof.
  intros H Hne. assert (G : ranks (leave <$> ths) + Z.of_nat (length ths) ≤ ranks ths).
  { clear Hne. induction ths as [|th ths IH]; [done|]. destruct (H th ltac:(left)) as [H1 H2].
    pose proof (rank_leave th H1 H2). specialize (IH (λ x Hx, H x (list_elem_of_further _ _ _ Hx))).
    rewrite fmap_cons. cbn [ranks foldr length]. fold (ranks (leave <$> ths)). fold (ranks ths). lia. }
  destruct ths; [done|]. cbn [length] in G. lia.
Qed.

Lemma bstep_ranks ph j j' :
  bfs_inv ph j → bstep g DEG P j j' → ranks (j_threads j') < ranks (j_threads j).
Proof using Hg HN HP.
  intros Hinv Hs. destruct Hs as [j t th th' s' Ht Hr Hs|j Hw Hne]; destruct j as [ths s]; simpl in *.
  - rewrite (ranks_insert _ _ _ _ Ht). pose proof (rank_step _ _ _ _ _ _ _ Hinv Ht Hr Hs). lia.
  - apply ranks_leave; [|done]. intros th Hin. split.
    + rewrite forallb_forall in Hw. apply Hw. by apply list_elem_of_In.
    + apply list_elem_of_lookup in Hin as [t Ht]. by destruct (thread_range _ _ _ _ _ Hinv Ht).
Qed.

(** No run is longer than this. *)
Definition max_steps : Z := P * ((Total g + 3) * round_cost).

Lemma ranks_replicate n th : ranks (replicate n th) = Z.of_nat n * rank th.
Proof.
  induction n as [|n IH]; [done|]. cbn [replicate ranks foldr]. fold (ranks (replicate n th)). rewrite IH. lia.
Qed.

Lemma run_bound n j : nsteps (bstep g DEG P) n (bfs_init g P) j → Z.of_nat n ≤ max_steps.
Proof using Hg HN HP.
  assert (G : ∀ n a b, nsteps (bstep g DEG P) n a b → (∃ ph, bfs_inv ph a) →
            (∃ ph, bfs_inv ph b) ∧ Z.of_nat n + ranks (j_threads b) ≤ ranks (j_threads a)).
  { induction 1 as [a|m a b d Hab _ IH]; intros [ph Ha]; [split; [by exists ph|lia]|].
    pose proof (bstep_ranks _ _ _ Ha Hab). destruct (IH (bstep_inv _ _ _ Ha Hab)). split; [done|]. lia. }
  intros H. destruct (G _ _ _ H) as [[ph Hj] Hle]; [exists PhStart; apply init_ok|].
  destruct j as [ths s]. pose proof (ranks_nonneg _ _ _ Hj). simpl in *.
  rewrite ranks_replicate, Z2Nat.id in Hle by lia. unfold max_steps. etransitivity; [|apply Z.mul_le_mono_nonneg_l with (n := rank (Thread AtStart 0))]; [lia|lia|].
  unfold rank, pos. simpl. destruct costs as (_ & _ & _ & Hc). nia.
Qed.

(** ** Paths *)

(** [l] lists the vertices before [v], backwards. *)
Inductive path : list Z → Z → Prop :=
  | path_0 : path [] 0
  | path_edge l u w : path l u → adj u w → path (u :: l) w.

Lemma level_path k v : level k v → ∃ l, path l v ∧ (length l ≤ k)%nat.
Proof.
  induction 1 as [|k v _ (l & Hl & Hk)|k u w _ (l & Hl & Hk) Ha].
  - exists []. split; [constructor|done].
  - exists l. split; [done|lia].
  - exists (u :: l). split; [by constructor|simpl; lia].
Qed.

Lemma path_level l v : path l v → level (length l) v.
Proof. induction 1; simpl; [constructor|by eapply level_edge]. Qed.

Lemma path_suffix l1 u l2 w : path (l1 ++ u :: l2) w → path l2 u.
Proof. revert w. induction l1 as [|x l1 IH]; intros w H; inversion H; subst; [done|]. by eapply IH. Qed.

Lemma path_simple l v : path l v → ∃ l', path l' v ∧ NoDup l'.
Proof.
  induction 1 as [|l u w _ (l' & Hl' & Hnd) Ha]; [exists []; split; [constructor|constructor]|].
  destruct (decide (u ∈ l')) as [Hin|Hin].
  - apply list_elem_of_split in Hin as (l1 & l2 & ->). apply path_suffix in Hl'.
    apply NoDup_app in Hnd as (_ & _ & Hnd). apply NoDup_cons in Hnd as Hnd'.
    exists (u :: l2). split; [by constructor|done].
  - exists (u :: l'). split; [by constructor|]. by constructor.
Qed.

Lemma path_exists l v u : path l v → u ∈ l → exists1 (exist g) u = true ∧ 0 ≤ u ≤ largest g.
Proof using Hg HN.
  induction 1 as [|l x w Hl IH [Hx _]]; [by intros ?%elem_of_nil|]. intros [->|Hu]%elem_of_cons; [|by apply IH].
  split; [done|]. apply path_level in Hl. by eapply level_vertex.
Qed.

Lemma count_if_filter {A} (f : A → bool) l : count_if f l = Z.of_nat (length (filter (λ x, f x = true) l)).
Proof. induction l as [|a l IH]; [done|]. simpl. rewrite filter_cons. case_decide as E; destruct (f a); simpl; (done || lia). Qed.

(** A vertex that can be reached at all can be reached in [Total] steps. *)
Lemma level_total k v : level k v → level (Z.to_nat (Total g)) v.
Proof using Hg HN.
  intros (l & Hl & _)%level_path. apply path_simple in Hl as (l' & Hl' & Hnd).
  apply (level_le _ _ (length l')); [|by apply path_level].
  rewrite (so_total _ _ _ Hg), count_if_filter, Nat2Z.id. apply submseteq_length, NoDup_submseteq; [done|].
  intros u Hu. destruct (path_exists _ _ _ Hl' Hu) as [Hx Hr]. apply list_elem_of_filter. split; [done|].
  apply elem_of_seqZ. lia.
Qed.
End Invariant.

(** ** Theorems *)

(** All threads have returned. *)
Definition all_done (j : job) : Prop := ∀ th, th ∈ j_threads j → t_pc th = Done.

Lemma done_finished N DEG P g j :
  start_ok N DEG g → N < 2 ^ 31 - 1 → 0 < P < 2 ^ 31 →
  rtc (bstep g DEG P) (bfs_init g P) j → all_done j → ∃ k, finished N DEG g k (j_shared j).
Proof.
  intros Hg HN HP Hj Hdone. destruct (reach_inv N DEG P g Hg HN HP j Hj) as [ph [H1 _ _ _ Hp]].
  destruct j as [ths s]. simpl in *.
  destruct (lookup_lt_is_Some_2 ths 0) as [th Ht]; [lia|].
  pose proof (Hdone th (list_elem_of_lookup_2 _ _ _ Ht)) as Ep. destruct ph as [|k|k|k|k]; simpl in Hp.
  - destruct Hp as (_ & _ & _ & Hp). destruct (Hp _ _ Ht) as [_ [?|?]]; congruence.
  - destruct Hp as (_ & Hp). destruct (Hp _ _ Ht) as [_ Hs]. by rewrite Ep in Hs.
  - destruct Hp as (_ & _ & _ & Hp & _). specialize (Hp _ _ Ht). unfold color_at in Hp. by rewrite Ep in Hp.
  - destruct Hp as (_ & Hp). destruct (Hp _ _ Ht) as [_ [?|?]]; congruence.
  - exists k. apply Hp.
Qed.

(** The colours at the end, in terms of the distance of the last vertex. *)
Lemma final_colors N DEG P g j v :
  start_ok N DEG g → N < 2 ^ 31 - 1 → 0 < P < 2 ^ 31 →
  rtc (bstep g DEG P) (bfs_init g P) j → all_done j → 0 ≤ v < N →
  (aget (s_Q (j_shared j)) v = Some 0 ∨ aget (s_Q (j_shared j)) v = Some 1) ∧
  (∀ d, level g DEG d (largest g) → (∀ d', level g DEG d' (largest g) → (d ≤ d')%nat) →
     (aget (s_Q (j_shared j)) v = Some 0 ↔ level g DEG (Nat.max 1 d) v)) ∧
  (¬ reachable g DEG (largest g) → (aget (s_Q (j_shared j)) v = Some 0 ↔ reachable g DEG v)).
Proof.
  intros Hg HN HP Hj Hdone Hv.
  destruct (done_finished N DEG P g j Hg HN HP Hj Hdone) as (k & [E1 _ E3 _] & Hlast & Hfirst & _).
  split; [by apply (proj2 E1)|]. split.
  - intros d Hd Hmin. rewrite E3 by done.
    assert (Hk : level g DEG (S k) (largest g)).
    { destruct Hlast as [?|Ht]; [done|]. apply (level_le _ _ (Z.to_nat (Total g))); [lia|]. by eapply level_total. }
    enough (Nat.max 1 d = S k) as -> by done. pose proof (Hmin _ Hk).
    destruct d as [|d]; [|destruct (Nat.eq_dec d k) as [->|]; [lia|]].
    + destruct k as [|k]; [done|]. exfalso. apply (Hfirst 0%nat); [lia|]. left. by apply level_stay.
    + exfalso. apply (Hfirst d); [lia|]. by left.
  - intros Hnr. rewrite E3 by done. split; [intros ?; by eexists|]. intros [d Hd].
    destruct Hlast as [Hl|Ht]; [exfalso; apply Hnr; by eexists|].
    apply (level_le _ _ (Z.to_nat (Total g))); [lia|]. by eapply level_total.
Qed.

(** C35. However the threads interleave, none of them leaves an array, uses a
    mutex that is not initialised, or overflows an [int] at its next step.  And
    every run ends: it has at most [max_steps] steps, and while some thread has
    not returned, some thread can step or the barrier opens; in particular no
    thread waits for ever for a mutex or at the barrier. *)
Theorem bfs_terminates (N DEG P : Z) (g : bfs) :
  start_ok N DEG g → N < 2 ^ 31 - 1 → 0 < P < 2 ^ 31 →
  (∀ n j, nsteps (bstep g DEG P) n (bfs_init g P) j → Z.of_nat n ≤ max_steps N DEG P g) ∧
  (∀ j, rtc (bstep g DEG P) (bfs_init g P) j →
     ((∃ j', bstep g DEG P j j') ∨ all_done j) ∧
     ∀ t th f, j_threads j !! t = Some th → ready th (j_shared j) = true →
       do_work_step g DEG P t th (j_shared j) ≠ Crash f).
Proof.
  intros Hg HN HP. split.
  - intros n j. by apply run_bound.
  - intros j Hj. destruct (reach_inv N DEG P g Hg HN HP j Hj) as [ph Hinv]. split; [by eapply progress|].
    intros t th f Ht Hr E. destruct j as [ths s].
    pose proof (thread_step N DEG P g Hg HN HP ph ths s t th Hinv Ht Hr) as H. unfold wp in H. simpl in *. by rewrite E in H.
Qed.

(** C34. When all threads have returned, [Q] holds 0 or 1 for each vertex.  If
    the last vertex is at distance [d] from vertex 0, then [Q] is 0 exactly for
    the vertices within distance [max 1 d]; if it cannot be reached, exactly for
    the vertices that can be.  The order of the threads and the split of the
    vertices, which may leave out the last one, play no part. *)
Theorem bfs_result (N DEG P : Z) (g : bfs) (j : job) (v : Z) :
  start_ok N DEG g → N < 2 ^ 31 - 1 → 0 < P < 2 ^ 31 →
  rtc (bstep g DEG P) (bfs_init g P) j → all_done j → 0 ≤ v < N →
  (aget (s_Q (j_shared j)) v = Some 0 ∨ aget (s_Q (j_shared j)) v = Some 1) ∧
  (∀ d, level g DEG d (largest g) → (∀ d', level g DEG d' (largest g) → (d ≤ d')%nat) →
     (aget (s_Q (j_shared j)) v = Some 0 ↔ level g DEG (Nat.max 1 d) v)) ∧
  (¬ reachable g DEG (largest g) → (aget (s_Q (j_shared j)) v = Some 0 ↔ reachable g DEG v)).
Proof. apply final_colors. Qed.

(** *** The generated graph *)

Section Generated.
Context (N DEG : Z) (g : bfs).
Hypothesis HD : 2 ≤ DEG < N.
Hypothesis Hl : largest g = N - 1.
Hypothesis Hok : start_ok N DEG g.
Hypothesis Hrow : ∀ v, 0 ≤ v < N → row DEG g v = gen_row N DEG v.
Hypothesis Hall : Total g = N.

Lemma all_exist v : 0 ≤ v < N → exists1 (exist g) v = true.
Proof using HD Hl Hok Hall.
  intros Hv. destruct (exists1 (exist g) v) eqn:E; [done|]. exfalso.
  pose proof (so_total _ _ _ Hok) as Ht. rewrite Hall, Hl in Ht. replace (N - 1 + 1) with N in Ht by lia.
  assert (Hvn : seqZ 0 N = seqZ 0 v ++ v :: seqZ (v + 1) (N - v - 1)).
  { replace N with (v + (N - v)) at 1 by lia. rewrite seqZ_app by lia. f_equal. rewrite Z.add_0_l, seqZ_cons by lia.
    f_equal. }
  rewrite Hvn, count_if_app in Ht. simpl in Ht. rewrite E in Ht.
  pose proof (count_if_bounds (exists1 (exist g)) (seqZ 0 v)).
  pose proof (count_if_bounds (exists1 (exist g)) (seqZ (v + 1) (N - v - 1))). rewrite !length_seqZ in *. lia.
Qed.

Lemma gen_adj u w :
  0 ≤ u < N → adj g DEG u w ↔ ∃ i, 0 ≤ i < DEG ∧ w = if u =? 0 then i + 1 else Z.min (u + i) (N - 1).
Proof using HD Hl Hok Hall Hrow.
  intros Hu. unfold adj. rewrite Hrow, (all_exist u Hu) by done. unfold gen_row. rewrite list_elem_of_fmap. split.
  - intros (_ & i & -> & Hi%elem_of_seqZ). exists i. split; [lia|done].
  - intros (i & Hi & ->). split; [done|]. exists i. split; [done|]. apply elem_of_seqZ. lia.
Qed.

(** Level [d] of the generated graph. *)
Lemma gen_level d v :
  level g DEG (S d) v ↔ 0 ≤ v ≤ Z.min (N - 1) (1 + Z.of_nat (S d) * (DEG - 1)).
Proof using HD Hl Hok Hall Hrow.
  revert v. induction d as [|d IH]; intros v.
  - split.
    + intros [->%level_0_inv|(u & ->%level_0_inv & Ha)]%level_S_inv; [lia|].
      apply gen_adj in Ha as (i & Hi & ->); [simpl; lia|lia].
    + intros Hv. destruct (Z.eqb_spec v 0) as [->|]; [apply level_stay; constructor|].
      eapply level_edge; [constructor|]. apply gen_adj; [lia|]. exists (v - 1). simpl. lia.
  - split.
    + intros [H0%IH|(u & H0%IH & Ha)]%level_S_inv; [nia|].
      apply gen_adj in Ha as (i & Hi & ->); [|lia]. destruct (Z.eqb_spec u 0); nia.
    + intros Hv. destruct (Z.le_gt_cases v (1 + Z.of_nat (S d) * (DEG - 1))) as [Hle|Hgt].
      { apply level_stay, IH. lia. }
      set (u := 1 + Z.of_nat (S d) * (DEG - 1)) in *. assert (1 ≤ u) by nia.
      apply (level_edge _ _ _ u); [apply IH; unfold u in *; lia|]. apply gen_adj; [lia|].
      exists (v - u). destruct (Z.eqb_spec u 0); [lia|]. unfold u in *. split; [nia|lia].
Qed.

(** The last vertex is the farthest. *)
Lemma gen_all_colored P j v :
  N < 2 ^ 31 - 1 → 0 < P < 2 ^ 31 → rtc (bstep g DEG P) (bfs_init g P) j → all_done j → 0 ≤ v < N →
  aget (s_Q (j_shared j)) v = Some 0.
Proof using HD Hl Hok Hall Hrow.
  intros HN HP Hj Hdone Hv. destruct (done_finished N DEG P g j Hok HN HP Hj Hdone) as (k & [_ _ E3 _] & Hlast & _).
  apply E3; [done|]. apply gen_level. assert (Hk : N - 1 ≤ 1 + Z.of_nat (S k) * (DEG - 1)); [|lia].
  destruct Hlast as [Hl'|Ht].
  - rewrite Hl in Hl'. apply gen_level in Hl'. lia.
  - nia.
Qed.

(** The result file lists every vertex with colour 0. *)
Lemma gen_result q :
  (∀ v, 0 ≤ v < N → aget q v = Some 0) → print_result g q = Some ((λ v, (v, 0)) <$> seqZ 0 N).
Proof using HD Hl Hok Hall.
  intros Hq. unfold print_result. rewrite Hl. replace (N - 1 + 1) with N by lia.
  assert (G : ∀ l, (∀ v, v ∈ l → 0 ≤ v < N) →
    foldr (λ j r, e ← aget (exist g) j; rest ← r; if e =? 1 then x ← aget q j; Some ((j, x) :: rest) else Some rest)
      (Some []) l = Some ((λ v, (v, 0)) <$> l)).
  { induction l as [|v l IH]; intros Hv; [done|]. cbn [foldr]. rewrite IH by (intros w ?; apply Hv; by right).
    assert (Hv0 : 0 ≤ v < N) by (apply Hv; left). pose proof (all_exist v Hv0) as Hx.
    unfold exists1 in Hx. apply bool_decide_eq_true in Hx. rewrite Hx. simpl. by rewrite Hq. }
  apply G. intros v ?%elem_of_seqZ. lia.
Qed.
End Generated.

(** C36. The whole run without a file, for a degree of at least 2 and below the
    number of vertices, and arrays that can be indexed with an [int]: the input
    gets ready without a fault, and when all threads have returned the program
    writes every vertex with colour 0, that is coloured, to its result file.
    The program also accepts a degree of 1, where it colours two vertices only
    ([degree_one_stops]), and one equal to the number of vertices, where it
    leaves an array ([full_degree_faults]). *)
Theorem bfs_generated (o : bfs_options_t) :
  o_select o = 0 → 2 ≤ o_DEG o < o_N o → o_N o * o_DEG o < 2 ^ 31 → 0 < o_P o < 2 ^ 31 →
  ∃ g, prepare o None (bfs_calloc o) = Ok (Ready, g) ∧
    ∀ j, rtc (bstep g (o_DEG o) (o_P o)) (bfs_init g (o_P o)) j → all_done j →
      print_result g (s_Q (j_shared j)) = Some ((λ v, (v, 0)) <$> seqZ 0 (o_N o)).
Proof.
  intros Hsel HD HN HP. destruct (prepare_generated o Hsel ltac:(lia) HN) as (g & E & Hok & Hl & Hall & Hrow).
  exists g. split; [done|]. intros j Hj Hdone. apply (gen_result (o_N o) (o_DEG o)); [done..|].
  intros v Hv. by eapply (gen_all_colored (o_N o) (o_DEG o)); eauto; nia.
Qed.

(** *** Examples *)

(** The threads take turns. *)
Fixpoint bfs_run (g : bfs) (DEG P : Z) (fuel t : nat) (j : job) : job :=
  match fuel with
  | O => j
  | S fuel => bfs_run g DEG P fuel (S t mod S (length (j_threads j)))
                (match move g DEG P j t with Some j' => j' | None => j end)
  end.

Lemma bfs_run_steps g DEG P fuel : ∀ t j, rtc (bstep g DEG P) j (bfs_run g DEG P fuel t j).
Proof.
  induction fuel as [|fuel IH]; intros t j; [done|]. cbn [bfs_run].
  destruct (move g DEG P j t) as [j'|] eqn:E; [|apply IH].
  eapply rtc_l; [by eapply move_step|apply IH].
Qed.

Definition prepared_state (o : bfs_options_t) : bfs :=
  match prepare o None (bfs_calloc o) with Ok (_, g) => g | Crash _ => bfs_calloc o end.

Definition demo_bfs : bfs_options_t := Bopts 0 2 4 2 None [].
Definition demo_g : bfs := prepared_state demo_bfs.
Definition demo_end : job := bfs_run demo_g 2 2 400 0 (bfs_init demo_g 2).

Lemma bfs_demo_start_ok : start_ok 4 2 demo_g.
Proof.
  destruct (prepare_generated demo_bfs eq_refl ltac:(done) ltac:(done)) as (g & E & Hok & _).
  unfold demo_g, prepared_state. by rewrite E.
Qed.

Lemma demo_all_done : all_done demo_end.
Proof.
  unfold all_done. assert (E : j_threads demo_end = [Thread Done 2; Thread Done 2]) by (vm_compute; reflexivity).
  rewrite E. intros th. rewrite !elem_of_cons, elem_of_nil. by intros [->|[->|[]]].
Qed.

Lemma bfs_terminates_witness :
  start_ok 4 2 demo_g ∧
  (∀ n j, nsteps (bstep demo_g 2 2) n (bfs_init demo_g 2) j → Z.of_nat n ≤ max_steps 4 2 2 demo_g) ∧
  (∀ j, rtc (bstep demo_g 2 2) (bfs_init demo_g 2) j →
     ((∃ j', bstep demo_g 2 2 j j') ∨ all_done j) ∧
     ∀ t th f, j_threads j !! t = Some th → ready th (j_shared j) = true →
       do_work_step demo_g 2 2 t th (j_shared j) ≠ Crash f).
Proof.
  split; [exact bfs_demo_start_ok|]. exact (bfs_terminates 4 2 2 demo_g bfs_demo_start_ok ltac:(lia) ltac:(lia)).
Defined.

Lemma bfs_result_witness :
  start_ok 4 2 demo_g ∧ all_done demo_end ∧
  (∀ d, level demo_g 2 d (largest demo_g) → (∀ d', level demo_g 2 d' (largest demo_g) → (d ≤ d')%nat) →
     (aget (s_Q (j_shared demo_end)) 3 = Some 0 ↔ level demo_g 2 (Nat.max 1 d) 3)).
Proof.
  split; [exact bfs_demo_start_ok|]. split; [exact demo_all_done|].
  exact (proj1 (proj2 (bfs_result 4 2 2 demo_g demo_end 3 bfs_demo_start_ok ltac:(lia) ltac:(lia)
           (bfs_run_steps demo_g 2 2 400 0 (bfs_init demo_g 2)) demo_all_done ltac:(lia)))).
Defined.

Lemma bfs_generated_witness :
  ∃ g, prepare demo_bfs None (bfs_calloc demo_bfs) = Ok (Ready, g) ∧
    ∀ j, rtc (bstep g 2 2) (bfs_init g 2) j → all_done j →
      print_result g (s_Q (j_shared j)) = Some [(0, 0); (1, 0); (2, 0); (3, 0)].
Proof. apply (bfs_generated demo_bfs); [reflexivity|split; done|reflexivity|split; reflexivity]. Defined.

(** A degree as large as the number of vertices passes the checks of the
    program, but leaves [-1] in the last place of the first row, and the thread
    that gets there reads [Q[-1]]. *)
Lemma full_degree_faults :
  let o := Bopts 0 1 2 2 None [] in
  let g := prepared_state o in
  let j := bfs_run g 2 1 40 0 (bfs_init g 1) in
  prepare o None (bfs_calloc o) = Ok (Ready, g) ∧ rtc (bstep g 2 1) (bfs_init g 1) j ∧
  j_threads j = [Thread (Edge 0 1) 0] ∧ do_work_step g 2 1 0 (Thread (Edge 0 1) 0) (j_shared j) = Crash OutOfBounds.
Proof.
  cbv zeta. split_and!; [vm_compute; reflexivity|apply bfs_run_steps|vm_compute; reflexivity|vm_compute; reflexivity].
Qed.

(** With degree 1 every vertex but the first is its own only neighbour: the
    program colours vertices 0 and 1 and writes the others as not coloured. *)
Lemma degree_one_stops :
  let o := Bopts 0 1 4 1 None [] in
  let g := prepared_state o in
  let j := bfs_run g 1 1 400 0 (bfs_init g 1) in
  prepare o None (bfs_calloc o) = Ok (Ready, g) ∧ rtc (bstep g 1 1) (bfs_init g 1) j ∧ all_done j ∧
  print_result g (s_Q (j_shared j)) = Some [(0, 0); (1, 0); (2, 1); (3, 1)].
Proof.
  cbv zeta. split_and!; [vm_compute; reflexivity|apply bfs_run_steps| |vm_compute; reflexivity].
  unfold all_done. assert (E : j_threads (bfs_run (prepared_state (Bopts 0 1 4 1 None [])) 1 1 400 0
    (bfs_init (prepared_state (Bopts 0 1 4 1 None [])) 1)) = [Thread Done 5]) by (vm_compute; reflexivity).
  rewrite E. intros th ->%list_elem_of_singleton. done.
Qed.
