(* ===== verification/TestFork.v ===== *)
(** * The test wrapper: starting the test program

    [fdcloexec] and [fdforkprog] of [testin/dt-testwrap.c].  The operating
    system's descriptor table is explicit: [k_pick] chooses the number of a new
    descriptor and [k_fail] says which calls fail.  On every error path no
    descriptor is left open; on success the caller has exactly its ends of the
    pipes and the program in the child exactly the streams it was promised. *)

From S2P Require Import Prelude Types.

(** ** Descriptors *)

(** What a descriptor refers to: an end of a pipe, or something else. *)
Inductive fobj := OFile (n : Z) | OPipeR (n : nat) | OPipeW (n : nat).

Record fd := Fd { f_obj : fobj; f_cloexec : bool }.

Record proc := Proc {
  fds : gmap Z fd;
  pipes : nat;     (* pipes made so far *)
  calls : nat }.   (* system calls so far *)

#[export] Instance proc_eta : Eta proc := λ r, Proc (fds r) (pipes r) (calls r).

Definition STDIN_FILENO : Z := 0.
Definition STDOUT_FILENO : Z := 1.
Definition STDERR_FILENO : Z := 2.
Definition FD_CLOEXEC : Z := 1.

Definition FDFPROG_FIN : Z := 1.
Definition FDFPROG_FOUT : Z := 2.
Definition FDFPROG_FERR : Z := 4.
Definition FDFPROG_EDUPOUT : Z := 8.

(** A C condition on flag bits. *)
Definition has (flags bits : Z) : bool := negb (Z.land flags bits =? 0).

Section Kernel.
Context (k_pick : gmap Z fd → Z) (k_fail : nat → bool).

Definition tick : M proc bool :=
  n <- gets calls;; modify (λ s, s <| calls := S n |>) ;;; retM (k_fail n).

Definition new_fd (e : fd) : M proc Z :=
  t <- gets fds;; let n := k_pick t in modify (λ s, s <| fds := <[n := e]> t |>) ;;; retM n.

Definition pipe : M proc (option (Z * Z)) :=
  f <- tick;;
  if f : bool then retM None
  else
    n <- gets pipes;; modify (λ s, s <| pipes := S n |>) ;;;
    r <- new_fd (Fd (OPipeR n) false);; w <- new_fd (Fd (OPipeW n) false);;
    retM (Some (r, w)).

Definition fcntl_getfd (d : Z) : M proc Z :=
  f <- tick;; t <- gets fds;;
  match t !! d with
  | Some e => retM (if f : bool then -1 else if f_cloexec e then FD_CLOEXEC else 0)
  | None => retM (-1)
  end.

Definition fcntl_setfd (d flags : Z) : M proc Z :=
  f <- tick;; t <- gets fds;;
  match t !! d with
  | Some e =>
      if f : bool then retM (-1)
      else modify (λ s, s <| fds := <[d := Fd (f_obj e) (Z.testbit flags 0)]> t |>) ;;; retM 0
  | None => retM (-1)
  end.

Definition dup (d : Z) : M proc Z :=
  f <- tick;; t <- gets fds;;
  match t !! d with
  | Some e => if f : bool then retM (-1) else new_fd (Fd (f_obj e) false)
  | None => retM (-1)
  end.

(** The copy is not closed on exec, unless both numbers are the same. *)
Definition dup2 (d n : Z) : M proc Z :=
  f <- tick;; t <- gets fds;;
  match t !! d with
  | Some e =>
      if f : bool then retM (-1)
      else
        whenM (negb (d =? n)) (modify (λ s, s <| fds := <[n := Fd (f_obj e) false]> t |>)) ;;;
        retM n
  | None => retM (-1)
  end.

Definition close (d : Z) : M proc unit := modify (λ s, s <| fds ::= delete d |>).

(** ** The code *)

Definition fdcloexec (d : Z) (state : bool) : M proc Z :=
  flags <- fcntl_getfd d;;
  if flags =? -1 then retM (-1)
  else
    let flags := if state then Z.lor flags FD_CLOEXEC else Z.land flags (Z.lnot FD_CLOEXEC) in
    rv <- fcntl_setfd d flags;;
    if rv <? 0 then retM (-1) else retM 0.

Definition pget (pipefds : list Z) (i : Z) : M proc Z := get_some OutOfBounds (aget pipefds i).

(** One of the three pipes, at [i] and [i + 1]; the parent's side is at [side].
    [false] is a [goto error]. *)
Definition make_pipe (want : option Z) (i side : Z) (pipefds : list Z) : M proc (bool * list Z) :=
  match want with
  | None => retM (true, pipefds)
  | Some _ =>
      r <- pipe;;
      match r with
      | None => retM (false, pipefds)
      | Some (a, b) =>
          let pipefds := aset (aset pipefds i a) (i + 1) b in
          d <- pget pipefds side;; rv <- fdcloexec d true;;
          retM (negb (rv =? -1), pipefds)
      end
  end.

(** The copy of stderr for messages of the child. *)
Definition copy_stderr (flags : Z) (pipefds : list Z) : M proc (bool * list Z) :=
  if has flags (Z.lor FDFPROG_FERR FDFPROG_EDUPOUT) then
    d <- dup STDERR_FILENO;;
    let pipefds := aset pipefds 6 d in
    if d =? -1 then retM (false, pipefds)
    else rv <- fdcloexec d true;; retM (negb (rv =? -1), pipefds)
  else retM (true, pipefds).

(** How the child ends: it runs the program, prints to [errfd] that it could
    not, or exits before. *)
Inductive child_end := ChExec | ChNoExec (errfd : Z) | ChExit.

(** [dup2(from, to)], then both sides of the pipe, at [i] and [i + 1], are closed. *)
Definition take_side (pipefds : list Z) (from to i : Z) : M proc bool :=
  d <- pget pipefds from;; rv <- dup2 d to;;
  if rv <? 0 then retM false
  else a <- pget pipefds i;; b <- pget pipefds (i + 1);; close a ;;; close b ;;; retM true.

Definition child_stdin (flags : Z) (stdinfd : option Z) (pipefds : list Z) : M proc bool :=
  if has flags FDFPROG_FIN then
    match stdinfd with
    | Some _ => take_side pipefds 0 STDIN_FILENO 0
    | None => close STDIN_FILENO ;;; retM true
    end
  else retM true.

Definition child_stdout (flags : Z) (stdoutfd : option Z) (pipefds : list Z) : M proc bool :=
  if has flags FDFPROG_FOUT then
    match stdoutfd with
    | Some _ => take_side pipefds 3 STDOUT_FILENO 2
    | None => close STDOUT_FILENO ;;; retM true
    end
  else retM true.

Definition child_stderr (flags : Z) (stdoutfd stderrfd : option Z) (pipefds : list Z) : M proc bool :=
  if has flags FDFPROG_EDUPOUT then
    if has flags FDFPROG_FOUT && match stdoutfd with None => true | Some _ => false end then
      close STDERR_FILENO ;;; retM true
    else rv <- dup2 STDOUT_FILENO STDERR_FILENO;; retM (negb (rv <? 0))
  else if has flags FDFPROG_FERR then
    match stderrfd with
    | Some _ => take_side pipefds 5 STDERR_FILENO 4
    | None => close STDERR_FILENO ;;; retM true
    end
  else retM true.

Definition fdforkprog_child (cb : option (M proc unit)) (flags : Z) (stdinfd stdoutfd stderrfd : option Z)
    (pipefds : list Z) : M proc child_end :=
  match cb with Some m => m | None => retM tt end ;;;
  ok <- child_stdin flags stdinfd pipefds;;
  if negb ok then retM ChExit
  else
    ok <- child_stdout flags stdoutfd pipefds;;
    if negb ok then retM ChExit
    else
      ok <- child_stderr flags stdoutfd stderrfd pipefds;;
      if negb ok then retM ChExit
      else
        f <- tick;;
        if f : bool then
          d <- pget pipefds 6;; retM (ChNoExec (if negb (d =? -1) then d else STDERR_FILENO))
        else retM ChExec.

(** The result: the pid, what is stored through the three pointers, and the
    child with its descriptors. *)
Record forked := Forked {
  fk_pid : Z;
  fk_in : option Z;
  fk_out : option Z;
  fk_err : option Z;
  fk_child : option (outcome (child_end * proc)) }.

Definition fork_failed : forked := Forked (-1) None None None None.

(** The label [error]. *)
Definition drop_all (pipefds : list Z) : M proc forked :=
  forM pipefds (λ d, whenM (negb (d =? -1)) (close d)) ;;; retM fork_failed.

(** The parent keeps the side at [keep] and closes the one at [drop]. *)
Definition keep_side (want : option Z) (pipefds : list Z) (keep drop : Z) : M proc (option Z) :=
  match want with
  | Some _ => d <- pget pipefds keep;; o <- pget pipefds drop;; close o ;;; retM (Some d)
  | None => retM None
  end.

Definition fdforkprog (child_pid : Z) (cb : option (M proc unit)) (flags : Z)
    (stdinfd stdoutfd stderrfd : option Z) : M proc forked :=
  let set (p : option Z) := match p with Some _ => true | None => false end in
  if (negb (has flags FDFPROG_FIN) && set stdinfd) || (negb (has flags FDFPROG_FOUT) && set stdoutfd) ||
     (negb (has flags FDFPROG_FERR) && set stderrfd) ||
     (has flags FDFPROG_FERR && has flags FDFPROG_EDUPOUT) then retM fork_failed
  else
    let merge := has flags FDFPROG_FERR && has flags FDFPROG_FOUT && set stderrfd &&
                 bool_decide (stderrfd = stdoutfd) in
    let flags := if merge then Z.lor (Z.land flags (Z.lnot FDFPROG_FERR)) FDFPROG_EDUPOUT else flags in
    let stderrfd := if merge then None else stderrfd in
    r <- make_pipe stdinfd 0 1 (replicate 7 (-1));;
    if negb r.1 then drop_all r.2
    else
      r <- make_pipe stdoutfd 2 2 r.2;;
      if negb r.1 then drop_all r.2
      else
        r <- make_pipe stderrfd 4 4 r.2;;
        if negb r.1 then drop_all r.2
        else
          r <- copy_stderr flags r.2;;
          if negb r.1 then drop_all r.2
          else
            f <- tick;;    (* fork *)
            if f : bool then drop_all r.2
            else
              s <- gets id;;
              let child := fdforkprog_child cb flags stdinfd stdoutfd stderrfd r.2 s in
              i <- keep_side stdinfd r.2 1 0;;
              o <- keep_side stdoutfd r.2 2 3;;
              e <- keep_side stderrfd r.2 4 5;;
              d <- pget r.2 6;; whenM (negb (d =? -1)) (close d) ;;;
              retM (Forked child_pid i o e (Some child)).
End Kernel.

(** [execvp] closes the marked descriptors. *)
Definition exec_table (t : gmap Z fd) : gmap Z fd := filter (λ p, f_cloexec p.2 = false) t.

(** ** Bookkeeping

    [held own base s]: the process has the descriptors [own], which it made, and
    those of [base]. *)
Definition held (own : list (Z * fd)) (base : gmap Z fd) (s : proc) : Prop :=
  fds s = list_to_map own ∪ base ∧ NoDup own.*1 ∧ ∀ k, k ∈ own.*1 → base !! k = None ∧ 2 < k.

(** Standard input, output and error are open. *)
Definition stdio (t : gmap Z fd) : Prop := ∀ k, 0 ≤ k ≤ 2 → is_Some (t !! k).

Lemma held_lookup own base s i k e : held own base s → own !! i = Some (k, e) → fds s !! k = Some e.
Proof.
  intros (E & Hnd & _) Hi. rewrite E. apply lookup_union_Some_l.
  apply elem_of_list_to_map_1; [done|]. by eapply list_elem_of_lookup_2.
Qed.

Lemma held_base own base s k : held own base s → k ≤ 2 → fds s !! k = base !! k.
Proof.
  intros (E & _ & Hb) Hk. rewrite E. apply lookup_union_r. apply not_elem_of_list_to_map_1.
  intros [_ ?]%Hb. lia.
Qed.

(** A key of [own] is new to the table. *)
Lemma held_new own base s k e s' :
  held own base s → stdio base → fds s !! k = None → 0 ≤ k → fds s' = <[k := e]> (fds s) →
  held (own ++ [(k, e)]) base s'.
Proof.
  intros (E & Hnd & Hb) Hio Hk H0 E'. rewrite E in Hk. apply lookup_union_None in Hk as [Hk1 Hk2].
  assert (Hnew : k ∉ own.*1) by (by apply not_elem_of_list_to_map_2).
  assert (2 < k). { destruct (Z.lt_ge_cases 2 k); [done|]. destruct (Hio k) as [x Hx]; [lia|congruence]. }
  split_and!.
  - rewrite E', E, list_to_map_app. rewrite insert_union_l. f_equal. simpl.
    by rewrite insert_empty, insert_union_singleton_r.
  - rewrite fmap_app. simpl. apply NoDup_app. split; [done|]. split; [|apply NoDup_singleton].
    intros x Hx ->%list_elem_of_singleton. done.
  - intros x. rewrite fmap_app, elem_of_app. intros [Hx|Hx]; [by apply Hb|]. apply list_elem_of_singleton in Hx as ->. done.
Qed.

Lemma held_perm own own' base s : own ≡ₚ own' → held own base s → held own' base s.
Proof.
  intros Hp (E & Hnd & Hb). assert (Hp1 : own.*1 ≡ₚ own'.*1) by (by rewrite Hp). split_and!.
  - rewrite E. f_equal. by apply list_to_map_proper.
  - by rewrite <- Hp1.
  - intros k. rewrite <- Hp1. apply Hb.
Qed.

Lemma delete_union_r (m1 m2 : gmap Z fd) k : m2 !! k = None → delete k (m1 ∪ m2) = delete k m1 ∪ m2.
Proof. intros H. rewrite delete_union. f_equal. by apply delete_id. Qed.

Lemma held_close own base s s' i k e :
  held own base s → own !! i = Some (k, e) → fds s' = delete k (fds s) → held (delete i own) base s'.
Proof.
  intros H Hi E'. pose proof (delete_Permutation own i (k, e) Hi) as Hp.
  apply (held_perm _ _ _ _ Hp) in H as (E & Hnd & Hb). apply NoDup_cons in Hnd as [Hk Hnd]. split_and!.
  - rewrite E', E. destruct (Hb k) as [Hbk _]; [left|]. rewrite delete_union_r by done. f_equal. simpl.
    rewrite delete_insert_id; [done|]. by apply not_elem_of_list_to_map_1.
  - done.
  - intros x Hx. apply Hb. by right.
Qed.

Lemma held_set own base s s' i k e e' :
  held own base s → own !! i = Some (k, e) → fds s' = <[k := e']> (fds s) → held (<[i := (k, e')]> own) base s'.
Proof.
  intros (E & Hnd & Hb) Hi E'.
  assert (Ek : (<[i := (k, e')]> own).*1 = own.*1).
  { rewrite list_fmap_insert. simpl. apply list_insert_id. by rewrite list_lookup_fmap, Hi. }
  split_and!; [|by rewrite Ek|by rewrite Ek].
  rewrite E', E, insert_union_l. f_equal. apply map_eq. intros x. destruct (decide (x = k)) as [->|Hne].
  - rewrite lookup_insert_eq. symmetry. apply elem_of_list_to_map_1; [by rewrite Ek|].
    apply (list_elem_of_lookup_2 _ i). apply list_lookup_insert_eq. by eapply lookup_lt_Some.
  - rewrite lookup_insert_ne by done. apply option_eq. intros y.
    rewrite <- !elem_of_list_to_map by (rewrite ?Ek; done).
    split; intros [j Hj]%list_elem_of_lookup; apply (list_elem_of_lookup_2 _ j).
    + rewrite list_lookup_insert_ne; [done|]. intros <-. congruence.
    + destruct (decide (j = i)) as [->|]; [|by rewrite list_lookup_insert_ne in Hj].
      rewrite list_lookup_insert_eq in Hj by (by eapply lookup_lt_Some). congruence.
Qed.

Lemma held_edit own base base' s s' :
  held own base s → fds s' = list_to_map own ∪ base' → (∀ k, 2 < k → base' !! k = base !! k) → held own base' s'.
Proof.
  intros (E & Hnd & Hb) E' Hk. split_and!; [done|done|]. intros k Hin. destruct (Hb k Hin). by rewrite Hk.
Qed.

Lemma held_close_base own base s s' k :
  held own base s → k ≤ 2 → fds s' = delete k (fds s) → held own (delete k base) s'.
Proof.
  intros H Hk E'. eapply held_edit; [done| |intros x Hx; apply lookup_delete_ne; lia].
  destruct H as (E & _ & Hb). rewrite E', E, delete_union. f_equal. apply delete_id, not_elem_of_list_to_map_1.
  intros [_ ?]%Hb. lia.
Qed.

Lemma held_set_base own base s s' k e :
  held own base s → k ≤ 2 → fds s' = <[k := e]> (fds s) → held own (<[k := e]> base) s'.
Proof.
  intros H Hk E'. eapply held_edit; [done| |intros x Hx; apply lookup_insert_ne; lia].
  destruct H as (E & _ & Hb). rewrite E', E. apply insert_union_r. apply not_elem_of_list_to_map_1.
  intros [_ ?]%Hb. lia.
Qed.

(** ** The system calls *)

Section Calls.
Context (k_pick : gmap Z fd → Z) (k_fail : nat → bool).
Hypothesis pick_free : ∀ t, t !! k_pick t = None ∧ 0 ≤ k_pick t.

Lemma wp_tick (R : bool → proc → Prop) s :
  (∀ b c, R b (s <| calls := c |>)) → wp (tick k_fail) R s.
Proof. intros H. unfold tick. wp_steps. apply H. Qed.

Lemma wp_take_fd own base e (R : Z → proc → Prop) s :
  held own base s → stdio base →
  (∀ n s', held (own ++ [(n, e)]) base s' → pipes s' = pipes s → R n s') → wp (new_fd k_pick e) R s.
Proof using pick_free.
  intros H Hio HR. unfold new_fd. wp_steps. simpl. apply HR; [|done].
  destruct (pick_free (fds s)). by eapply held_new.
Qed.

Lemma wp_pipe own base (R : option (Z * Z) → proc → Prop) s :
  held own base s → stdio base →
  (∀ s', held own base s' → R None s') →
  (∀ a b s', held (own ++ [(a, Fd (OPipeR (pipes s)) false); (b, Fd (OPipeW (pipes s)) false)]) base s' →
     pipes s' = S (pipes s) → R (Some (a, b)) s') →
  wp (pipe k_pick k_fail) R s.
Proof using pick_free.
  intros H Hio H1 H2. unfold pipe. wp_step. apply wp_tick. intros f c. destruct f; wp_steps; [by apply H1|].
  simpl. eapply (wp_take_fd own base); [exact H|done|]. intros a s1 Ha Ea. wp_steps.
  eapply wp_take_fd; [exact Ha|done|]. intros b s2 Hb Eb. wp_steps. apply H2; [|by rewrite Eb, Ea].
  by rewrite <- app_assoc in Hb.
Qed.

Lemma wp_cloexec own base d e i (R : Z → proc → Prop) s :
  held own base s → own !! i = Some (d, e) →
  (∀ s', held own base s' → pipes s' = pipes s → R (-1) s') →
  (∀ s', held (<[i := (d, Fd (f_obj e) true)]> own) base s' → pipes s' = pipes s → R 0 s') →
  wp (fdcloexec k_fail d true) R s.
Proof.
  intros H Hi H1 H2. pose proof (held_lookup _ _ _ _ _ _ H Hi) as He. unfold fdcloexec, fcntl_getfd.
  apply wp_bind, wp_bind, wp_tick. intros f c. apply wp_bind, wp_gets. simpl. rewrite He. apply wp_ret.
  destruct f; simpl.
  { apply wp_ret. by apply H1. }
  assert (Hn : ((if f_cloexec e then FD_CLOEXEC else 0) =? -1) = false) by (by destruct (f_cloexec e)).
  rewrite Hn. unfold fcntl_setfd. apply wp_bind, wp_bind, wp_tick. intros f c'. apply wp_bind, wp_gets. simpl.
  rewrite He. destruct f.
  - apply wp_ret. simpl. apply wp_ret. by apply H1.
  - apply wp_bind, wp_modify, wp_ret. simpl. apply wp_ret. apply H2; [|done]. eapply held_set; [exact H|exact Hi|]. simpl. by destruct (f_cloexec e).
Qed.

Lemma wp_dup2_own own base d e n i (R : Z → proc → Prop) s :
  held own base s → own !! i = Some (d, e) → 0 ≤ n ≤ 2 →
  (∀ s', held own base s' → R (-1) s') →
  (∀ s', held own (<[n := Fd (f_obj e) false]> base) s' → R n s') → wp (dup2 k_fail d n) R s.
Proof.
  intros H Hi Hn H1 H2. unfold dup2. apply wp_bind, wp_tick. intros f c. apply wp_bind, wp_gets. simpl.
  rewrite (held_lookup _ _ _ _ _ _ H Hi).
  assert (2 < d). { destruct H as (_ & _ & Hb). apply (Hb d). apply list_elem_of_fmap. exists (d, e). split; [done|]. by eapply list_elem_of_lookup_2. }
  destruct f; wp_steps; [by apply H1| |]; breflect; [|lia].
  apply H2. eapply held_set_base; [exact H|lia|done].
Qed.

Lemma wp_dup2_base own base d e n (R : Z → proc → Prop) s :
  held own base s → base !! d = Some e → 0 ≤ d ≤ 2 → 0 ≤ n ≤ 2 → d ≠ n →
  (∀ s', held own base s' → R (-1) s') →
  (∀ s', held own (<[n := Fd (f_obj e) false]> base) s' → R n s') → wp (dup2 k_fail d n) R s.
Proof.
  intros H Hd Hd2 Hn Hne H1 H2. unfold dup2. apply wp_bind, wp_tick. intros f c. apply wp_bind, wp_gets. simpl.
  rewrite (held_base _ _ _ _ H) by lia. rewrite Hd.
  destruct f; wp_steps; [by apply H1| |]; breflect; [|lia].
  apply H2. eapply held_set_base; [exact H|lia|done].
Qed.

Lemma wp_close_fd own base k e i (R : unit → proc → Prop) s :
  held own base s → own !! i = Some (k, e) →
  (∀ s', held (delete i own) base s' → R tt s') → wp (close k) R s.
Proof. intros H Hi HR. unfold close. wp_step. apply HR. by eapply held_close. Qed.

Lemma wp_close_base own base k (R : unit → proc → Prop) s :
  held own base s → 0 ≤ k ≤ 2 → (∀ s', held own (delete k base) s' → R tt s') → wp (close k) R s.
Proof. intros H Hk HR. unfold close. wp_step. apply HR. eapply held_close_base; [done|lia|done]. Qed.

(** ** The parent *)

(** The descriptors of the process are those in [pipefds]. *)
Definition pf_ok (pf : list Z) (own : list (Z * fd)) : Prop :=
  (∀ k, k ∈ own.*1 → k ∈ pf ∧ k ≠ -1) ∧ (∀ k, k ∈ pf → k = -1 ∨ k ∈ own.*1).

Lemma drop_loop base l : ∀ own s,
  held own base s → (∀ k, k ∈ own.*1 → k ∈ l) → (∀ k, k ∈ l → k = -1 ∨ base !! k = None) →
  wp (forM l (λ d, whenM (negb (d =? -1)) (close d))) (λ _ s', fds s' = base) s.
Proof.
  induction l as [|d l IH]; intros own s H Hin Hb.
  { apply wp_ret. destruct H as (E & _). rewrite E. destruct own as [|p own]; [apply map_empty_union|].
    exfalso. by apply (not_elem_of_nil p.1), Hin; left. }
  cbn [forM]. apply wp_bind. destruct (Z.eqb_spec d (-1)) as [->|Hd]; simpl.
  - apply wp_ret. apply (IH own); [done| |intros k Hk; apply Hb; by right]. intros k Hk.
    destruct (proj1 (elem_of_cons _ _ _) (Hin k Hk)) as [->|?]; [|done]. destruct H as (_ & _ & H).
    apply H in Hk as [_ ?]. lia.
  - destruct (decide (d ∈ own.*1)) as [Hdo|Hdo].
    + apply list_elem_of_fmap in Hdo as ([? e] & -> & [i Hi]%list_elem_of_lookup).
      eapply wp_close_fd; [exact H|exact Hi|]. intros s' H'. apply (IH _ s' H'); [|intros k Hk; apply Hb; by right].
      intros k Hk. pose proof (delete_Permutation own i _ Hi) as Hp. simpl in *.
      destruct (proj1 (elem_of_cons _ _ _) (Hin k ltac:(rewrite Hp; by right))) as [->|?]; [|done].
      destruct H as (_ & Hnd & _). rewrite Hp in Hnd. by apply NoDup_cons in Hnd as [? _].
    + apply wp_modify. apply (IH own); [| |intros k Hk; apply Hb; by right].
      * destruct (Hb d ltac:(left)) as [?|Hbd]; [done|]. destruct H as (E & Hnd & Hk). split_and!; try done. simpl.
        rewrite E. apply delete_id, lookup_union_None. split; [by apply not_elem_of_list_to_map_1|done].
      * intros k Hk. destruct (proj1 (elem_of_cons _ _ _) (Hin k Hk)) as [->|?]; done.
Qed.

Lemma wp_drop_all own base pf s (R : forked → proc → Prop) :
  held own base s → pf_ok pf own → (∀ s', fds s' = base → R fork_failed s') → wp (drop_all pf) R s.
Proof.
  intros H [H1 H2] HR. unfold drop_all. apply wp_bind. eapply wp_mono.
  - apply (drop_loop base pf own); [done|by intros k []%H1|]. intros k Hk. destruct (H2 k Hk) as [?|Hko]; [by left|right].
    destruct H as (_ & _ & H). by apply H.
  - intros [] s' E. apply wp_ret. by apply HR.
Qed.

Lemma pf_ok_add pf own i x :
  pf_ok pf own → pf !! i = Some (-1) → x.1 ≠ -1 → pf_ok (<[i := x.1]> pf) (own ++ [x]).
Proof.
  intros [H1 H2] Hi Hx. pose proof (lookup_lt_Some _ _ _ Hi). split.
  - intros k. rewrite fmap_app, elem_of_app. intros [Hk|Hk%list_elem_of_singleton].
    + apply H1 in Hk as [[j Hj]%list_elem_of_lookup Hk]. split; [|done].
      apply (list_elem_of_lookup_2 _ j). rewrite list_lookup_insert_ne; [done|]. intros ->. congruence.
    + subst. split; [|done]. apply (list_elem_of_lookup_2 _ i). by apply list_lookup_insert_eq.
  - intros k [j Hj]%list_elem_of_lookup. rewrite fmap_app, elem_of_app.
    destruct (decide (j = i)) as [->|].
    + rewrite list_lookup_insert_eq in Hj by done. injection Hj as <-. right. right. left.
    + rewrite list_lookup_insert_ne in Hj by done. destruct (H2 k) as [?|?]; [by eapply list_elem_of_lookup_2|by left|auto].
Qed.

Lemma held_last own base s x : held (own ++ [x]) base s → 2 < x.1.
Proof. intros (_ & _ & H). apply (H x.1). rewrite fmap_app. apply elem_of_app. right. left. Qed.

Lemma pf_ok_set pf own i d e e' : own !! i = Some (d, e) → pf_ok pf own → pf_ok pf (<[i := (d, e')]> own).
Proof.
  intros Hi. assert (E : (<[i := (d, e')]> own).*1 = own.*1).
  { rewrite list_fmap_insert. apply list_insert_id. by rewrite list_lookup_fmap, Hi. }
  unfold pf_ok. by rewrite E.
Qed.

(** [make_pipe] when the parent reads ([rd]) or writes. *)
Lemma wp_make_pipe want (i : nat) (rd : bool) own base pf s (R : bool * list Z → proc → Prop) :
  held own base s → stdio base → pf_ok pf own → pf !! i = Some (-1) → pf !! S i = Some (-1) →
  (∀ pf' own' s', held own' base s' → pf_ok pf' own' → R (false, pf') s') →
  (want = None → R (true, pf) s) →
  (∀ a b s', want ≠ None → pipes s' = S (pipes s) →
     let own' := own ++ [(a, Fd (OPipeR (pipes s)) rd); (b, Fd (OPipeW (pipes s)) (negb rd))] in
     let pf' := <[S i := b]> (<[i := a]> pf) in
     held own' base s' → pf_ok pf' own' → R (true, pf') s') →
  wp (make_pipe k_pick k_fail want (Z.of_nat i) (if rd then Z.of_nat i else Z.of_nat i + 1) pf) R s.
Proof using pick_free.
  intros H Hio Hpf Hi Hi' Hbad Hno Hyes. unfold make_pipe. destruct want as [w|]; [|by apply wp_ret, Hno].
  apply wp_bind. eapply wp_pipe; [exact H|done| |].
  { intros s' H'. apply wp_ret. by eapply Hbad. }
  intros a b s' H' Ep. set (e1 := Fd (OPipeR (pipes s)) false) in *. set (e2 := Fd (OPipeW (pipes s)) false) in *.
  assert (Ha : 2 < a). { destruct H' as (_ & _ & H'). apply (H' a). rewrite fmap_app. apply elem_of_app. right. left. }
  assert (Hb : 2 < b). { destruct H' as (_ & _ & H'). apply (H' b). rewrite fmap_app. apply elem_of_app. right. right. left. }
  pose proof (lookup_lt_Some _ _ _ Hi) as L. pose proof (lookup_lt_Some _ _ _ Hi') as L'.
  assert (Epf : aset (aset pf (Z.of_nat i) a) (Z.of_nat i + 1) b = <[S i := b]> (<[i := a]> pf)).
  { unfold aset. rewrite Nat2Z.id. by replace (Z.to_nat (Z.of_nat i + 1)) with (S i) by lia. }
  assert (Hpf' : pf_ok (<[S i := b]> (<[i := a]> pf)) (own ++ [(a, e1); (b, e2)])).
  { replace (own ++ [(a, e1); (b, e2)]) with ((own ++ [(a, e1)]) ++ [(b, e2)]) by (by rewrite <- app_assoc).
    apply (pf_ok_add _ _ (S i) (b, e2)); [|by rewrite list_lookup_insert_ne by lia|simpl; lia].
    apply (pf_ok_add _ _ i (a, e1)); [done|done|simpl; lia]. }
  simpl. rewrite Epf. set (j := if rd then length own else S (length own)).
  set (d := if rd then a else b). set (e := if rd then e1 else e2).
  assert (Hj : (own ++ [(a, e1); (b, e2)]) !! j = Some (d, e)).
  { unfold j, d, e. destruct rd; rewrite lookup_app_r by lia.
    - by rewrite Nat.sub_diag.
    - by replace (S (length own) - length own)%nat with 1%nat by lia. }
  apply wp_bind. eapply (wp_get_some _ _ d).
  { unfold d. destruct rd.
    - rewrite aget_nat, list_lookup_insert_ne by lia. by apply list_lookup_insert_eq.
    - replace (Z.of_nat i + 1) with (Z.of_nat (S i)) by lia. rewrite aget_nat. apply list_lookup_insert_eq.
      by rewrite length_insert. }
  apply wp_bind. eapply wp_cloexec; [exact H'|exact Hj| |].
  - intros s2 H2 _. apply wp_ret. simpl. by eapply Hbad.
  - intros s2 H2 E2. apply wp_ret. simpl.
    assert (Eo : <[j := (d, Fd (f_obj e) true)]> (own ++ [(a, e1); (b, e2)]) =
                 own ++ [(a, Fd (OPipeR (pipes s)) rd); (b, Fd (OPipeW (pipes s)) (negb rd))]).
    { unfold j, d, e. destruct rd; rewrite insert_app_r_alt by lia.
      - by rewrite Nat.sub_diag.
      - by replace (S (length own) - length own)%nat with 1%nat by lia. }
    apply Hyes; [done|by rewrite E2|by rewrite <- Eo|rewrite <- Eo; by eapply pf_ok_set].
Qed.

Lemma wp_copy_stderr flags own base pf s e (R : bool * list Z → proc → Prop) :
  held own base s → stdio base → base !! 2 = Some e → pf_ok pf own → pf !! 6%nat = Some (-1) →
  (∀ pf' own' s', held own' base s' → pf_ok pf' own' → R (false, pf') s') →
  (has flags 12 = false → R (true, pf) s) →
  (∀ d s', has flags 12 = true → pipes s' = pipes s →
     let own' := own ++ [(d, Fd (f_obj e) true)] in let pf' := <[6%nat := d]> pf in
     held own' base s' → pf_ok pf' own' → R (true, pf') s') →
  wp (copy_stderr k_pick k_fail flags pf) R s.
Proof using pick_free.
  intros H Hio He Hpf H6 Hbad Hno Hyes. unfold copy_stderr. change (Z.lor FDFPROG_FERR FDFPROG_EDUPOUT) with 12.
  destruct (has flags 12) eqn:E; [|by apply wp_ret, Hno]. apply wp_bind. unfold dup.
  apply wp_bind, wp_tick. intros f c. apply wp_bind, wp_gets. simpl.
  rewrite (held_base _ _ _ _ H) by (unfold STDERR_FILENO; lia). unfold STDERR_FILENO. rewrite He.
  destruct f.
  { apply wp_ret. simpl. apply wp_ret. eapply Hbad; [exact H|]. unfold aset. simpl. by rewrite list_insert_id. }
  eapply (wp_take_fd own base); [exact H|done|]. intros d s' H' Ep. pose proof (held_last _ _ _ _ H') as Hd. simpl in Hd.
  destruct (Z.eqb_spec d (-1)); [lia|].
  assert (Hpf' : pf_ok (<[6%nat := d]> pf) (own ++ [(d, Fd (f_obj e) false)])).
  { apply (pf_ok_add _ _ _ (d, Fd (f_obj e) false)); [done|done|simpl; lia]. }
  assert (Hj : (own ++ [(d, Fd (f_obj e) false)]) !! length own = Some (d, Fd (f_obj e) false)).
  { by rewrite lookup_app_r, Nat.sub_diag by lia. }
  apply wp_bind. eapply wp_cloexec; [exact H'|exact Hj| |].
  - intros s2 H2 _. apply wp_ret. simpl. by eapply Hbad.
  - intros s2 H2 E2. apply wp_ret. simpl.
    assert (Eo : <[length own := (d, Fd (f_obj (Fd (f_obj e) false)) true)]> (own ++ [(d, Fd (f_obj e) false)]) =
                 own ++ [(d, Fd (f_obj e) true)]).
    { by rewrite insert_app_r_alt, Nat.sub_diag by lia. }
    apply Hyes; [done|by rewrite E2, Ep|by rewrite <- Eo|rewrite <- Eo; by eapply pf_ok_set].
Qed.

(** ** The child *)

(** What the caller asks for, as edits of the child's descriptors. *)
Definition edit_in (flags : Z) (stdinfd : option Z) (n : nat) (t : gmap Z fd) : gmap Z fd :=
  if has flags FDFPROG_FIN then
    match stdinfd with Some _ => <[0 := Fd (OPipeR n) false]> t | None => delete 0 t end
  else t.

Definition edit_out (flags : Z) (stdoutfd : option Z) (n : nat) (t : gmap Z fd) : gmap Z fd :=
  if has flags FDFPROG_FOUT then
    match stdoutfd with Some _ => <[1 := Fd (OPipeW n) false]> t | None => delete 1 t end
  else t.

Definition edit_err (flags : Z) (stderrfd : option Z) (n : nat) (t : gmap Z fd) : gmap Z fd :=
  if has flags FDFPROG_EDUPOUT then
    match t !! 1 with Some e => <[2 := Fd (f_obj e) false]> t | None => delete 2 t end
  else if has flags FDFPROG_FERR then
    match stderrfd with Some _ => <[2 := Fd (OPipeW n) false]> t | None => delete 2 t end
  else t.

Definition next (want : option Z) (n : nat) : nat := match want with Some _ => S n | None => n end.

(** The two ends of a pipe; the parent's is closed on exec. *)
Definition pipe_own (want : option Z) (n : nat) (rd : bool) (a b : Z) : list (Z * fd) :=
  match want with
  | Some _ => [(a, Fd (OPipeR n) rd); (b, Fd (OPipeW n) (negb rd))]
  | None => []
  end.

Lemma wp_take_side own base a b ea eb from to i pf s (R : bool → proc → Prop) :
  held ((a, ea) :: (b, eb) :: own) base s → aget pf i = Some a → aget pf (i + 1) = Some b →
  (from = i ∨ from = i + 1) → 0 ≤ to ≤ 2 →
  (∀ s', R false s') →
  (∀ s', held own (<[to := Fd (f_obj (if from =? i then ea else eb)) false]> base) s' → R true s') →
  wp (take_side k_fail pf from to i) R s.
Proof.
  intros H Ha Hb Hf Ht Hbad Hgood. unfold take_side. apply wp_bind.
  set (d := if from =? i then a else b). set (e := if from =? i then ea else eb) in *.
  eapply (wp_get_some _ _ d).
  { unfold d. destruct Hf as [->| ->]; [by rewrite Z.eqb_refl|]. by destruct (Z.eqb_spec (i + 1) i); [lia|]. }
  apply wp_bind.
  eapply (wp_dup2_own _ _ d e to (if from =? i then 0%nat else 1%nat)); [exact H|unfold d, e; by destruct (from =? i)|done| |].
  { intros s' _. apply wp_ret, Hbad. }
  intros s' H'. destruct (Z.ltb_spec to 0); [lia|].
  apply wp_bind. eapply (wp_get_some _ _ a); [done|]. apply wp_bind. eapply (wp_get_some _ _ b); [done|].
  apply wp_bind. eapply (wp_close_fd _ _ a ea 0); [exact H'|done|]. intros s2 H2. simpl in H2.
  apply wp_bind. eapply (wp_close_fd _ _ b eb 0); [exact H2|done|]. intros s3 H3. apply wp_ret, Hgood. exact H3.
Qed.

Section Child.
Context (flags : Z) (si so se : option Z).
Hypothesis Hin : si ≠ None → has flags FDFPROG_FIN = true.
Hypothesis Hout : so ≠ None → has flags FDFPROG_FOUT = true.
Hypothesis Herr : se ≠ None → has flags FDFPROG_FERR = true ∧ has flags FDFPROG_EDUPOUT = false.

Lemma wp_child_stdin own base n i0 i1 pf s (R : bool → proc → Prop) :
  held (pipe_own si n false i0 i1 ++ own) base s → aget pf 0 = Some i0 → aget pf 1 = Some i1 →
  (∀ s', R false s') → (∀ s', held own (edit_in flags si n base) s' → R true s') →
  wp (child_stdin k_fail flags si pf) R s.
Proof using Hin.
  intros H H0 H1 Hbad Hgood. unfold child_stdin, edit_in in *. destruct (has flags FDFPROG_FIN) eqn:E.
  - destruct si as [x|]; simpl in H.
    + eapply wp_take_side; [exact H|done|done|by left|unfold STDIN_FILENO; lia|done|]. exact Hgood.
    + apply wp_bind. eapply wp_close_base; [exact H|unfold STDIN_FILENO; lia|]. intros s' H'. by apply wp_ret, Hgood.
  - destruct si as [x|] eqn:Es; [by discriminate Hin|]. apply wp_ret, Hgood. exact H.
Qed.

Lemma wp_child_stdout own base n o2 o3 pf s (R : bool → proc → Prop) :
  held (pipe_own so n true o2 o3 ++ own) base s → aget pf 2 = Some o2 → aget pf 3 = Some o3 →
  (∀ s', R false s') → (∀ s', held own (edit_out flags so n base) s' → R true s') →
  wp (child_stdout k_fail flags so pf) R s.
Proof using Hout.
  intros H H0 H1 Hbad Hgood. unfold child_stdout, edit_out in *. destruct (has flags FDFPROG_FOUT) eqn:E.
  - destruct so as [x|]; simpl in H.
    + eapply wp_take_side; [exact H|done|done|by right|unfold STDOUT_FILENO; lia|done|]. exact Hgood.
    + apply wp_bind. eapply wp_close_base; [exact H|unfold STDOUT_FILENO; lia|]. intros s' H'. by apply wp_ret, Hgood.
  - destruct so as [x|] eqn:Es; [by discriminate Hout|]. apply wp_ret, Hgood. exact H.
Qed.

Lemma wp_child_stderr own base0 base n m e4 e5 pf s (R : bool → proc → Prop) :
  held (pipe_own se n true e4 e5 ++ own) base s → aget pf 4 = Some e4 → aget pf 5 = Some e5 →
  is_Some (base0 !! 1) → base = edit_out flags so m base0 →
  (∀ s', R false s') → (∀ s', held own (edit_err flags se n base) s' → R true s') →
  wp (child_stderr k_fail flags so se pf) R s.
Proof using Hout Herr.
  intros H H0 H1 [x1 Hx] Eb Hbad Hgood. unfold child_stderr, edit_err in *.
  destruct (has flags FDFPROG_EDUPOUT) eqn:E.
  - destruct se as [y|] eqn:Es; [by destruct Herr|]. simpl in H. unfold edit_out in Eb.
    destruct (has flags FDFPROG_FOUT) eqn:E2; [destruct so as [x|]|]; simpl.
    + assert (Hb : base !! 1 = Some (Fd (OPipeW m) false)) by (rewrite Eb; apply lookup_insert_eq). rewrite Hb in Hgood.
      apply wp_bind. eapply (wp_dup2_base _ _ 1 _ 2); [exact H|exact Hb|lia|lia|lia| |].
      * intros s' H'. apply wp_ret. simpl. apply Hbad.
      * intros s' H'. apply wp_ret. simpl. by apply Hgood.
    + assert (Hb : base !! 1 = None) by (rewrite Eb; apply lookup_delete_eq). rewrite Hb in Hgood.
      apply wp_bind. eapply wp_close_base; [exact H|unfold STDERR_FILENO; lia|]. intros s' H'. by apply wp_ret, Hgood.
    + assert (Hb : base !! 1 = Some x1) by (by rewrite Eb). rewrite Hb in Hgood.
      apply wp_bind. eapply (wp_dup2_base _ _ 1 _ 2); [exact H|exact Hb|lia|lia|lia| |].
      * intros s' H'. apply wp_ret. simpl. apply Hbad.
      * intros s' H'. apply wp_ret. simpl. by apply Hgood.
  - destruct (has flags FDFPROG_FERR) eqn:E2.
    + destruct se as [x|]; simpl in H.
      * eapply wp_take_side; [exact H|done|done|by right|unfold STDERR_FILENO; lia|done|]. exact Hgood.
      * apply wp_bind. eapply wp_close_base; [exact H|unfold STDERR_FILENO; lia|]. intros s' H'. by apply wp_ret, Hgood.
    + destruct se as [x|] eqn:Es; [by destruct Herr|]. apply wp_ret, Hgood. exact H.
Qed.

Definition copy_own (e : fd) (d : Z) : list (Z * fd) :=
  if has flags 12 then [(d, Fd (f_obj e) true)] else [].

Lemma exec_hide own base s :
  held own base s → (∀ p, p ∈ own → f_cloexec p.2 = true) → exec_table (fds s) = exec_table base.
Proof.
  intros (E & Hnd & Hb) Hc. unfold exec_table. rewrite E, map_filter_union.
  - rewrite (map_empty_filter_2 _ (list_to_map own)); [by rewrite (left_id_L ∅ (∪))|].
    intros k x Hx. simpl. apply elem_of_list_to_map_2 in Hx. apply Hc in Hx. simpl in Hx. by rewrite Hx.
  - apply map_disjoint_spec. intros k x y Hx Hy. apply elem_of_list_to_map_2 in Hx.
    destruct (Hb k) as [? _]; [apply list_elem_of_fmap; by exists (k, x)|]. congruence.
Qed.

Lemma has12 : has flags 12 = has flags FDFPROG_FERR || has flags FDFPROG_EDUPOUT.
Proof.
  unfold has, FDFPROG_FERR, FDFPROG_EDUPOUT. change 12 with (Z.lor 4 8). rewrite Z.land_lor_distr_r.
  destruct (Z.eqb_spec (Z.land flags 4) 0) as [->|H4]; [by rewrite Z.lor_0_l|]. simpl.
  destruct (Z.eqb_spec (Z.lor (Z.land flags 4) (Z.land flags 8)) 0) as [E|]; [|done].
  by apply Z.lor_eq_0_iff in E as [? _].
Qed.

(** What the child's end means for its descriptors [t], when the parent's were
    [base] and its standard error [e]. *)
Definition child_ok (base : gmap Z fd) (n : nat) (e : fd) (r : child_end) (sc : proc) : Prop :=
  match r with
  | ChExec =>
      exec_table (fds sc) =
        exec_table (edit_err flags se (next so (next si n)) (edit_out flags so (next si n) (edit_in flags si n base)))
  | ChNoExec errfd => ∃ x, fds sc !! errfd = Some x ∧ f_obj x = f_obj e
  | ChExit => True
  end.

Lemma wp_child base n e i0 i1 o2 o3 e4 e5 d6 s :
  stdio base → base !! 2 = Some e → (has flags 12 = false → d6 = -1) →
  held (pipe_own si n false i0 i1 ++ pipe_own so (next si n) true o2 o3 ++
        pipe_own se (next so (next si n)) true e4 e5 ++ copy_own e d6) base s →
  wp (fdforkprog_child k_fail None flags si so se [i0; i1; o2; o3; e4; e5; d6]) (child_ok base n e) s.
Proof using Hin Hout Herr.
  intros Hio He Hd H. unfold fdforkprog_child. apply wp_bind, wp_ret. apply wp_bind.
  eapply wp_child_stdin; [exact H|done|done|intros s'; by apply wp_ret|]. intros s1 H1. simpl. apply wp_bind.
  eapply wp_child_stdout; [exact H1|done|done|intros s'; by apply wp_ret|]. intros s2 H2. simpl. apply wp_bind.
  eapply wp_child_stderr; [exact H2|done|done| |done|intros s'; by apply wp_ret|].
  { destruct (Hio 1) as [x Hx]; [lia|]. exists x. unfold edit_in. repeat case_match; by simplify_map_eq. }
  intros s3 H3. simpl. apply wp_bind. apply wp_tick. intros f c. destruct f.
  - apply wp_bind. eapply (wp_get_some _ _ d6); [done|]. apply wp_ret. simpl. unfold copy_own in H3.
    destruct (has flags 12) eqn:E12.
    + pose proof (held_lookup _ _ _ 0 d6 _ H3 eq_refl) as Hx. exists (Fd (f_obj e) true). split; [|done].
      assert (Hd6 : 2 < d6) by (destruct H3 as (_ & _ & Hb); apply (Hb d6); left).
      destruct (Z.eqb_spec d6 (-1)); [lia|]. exact Hx.
    + rewrite Hd by done. simpl. exists e. split; [|done]. rewrite has12 in E12.
      apply orb_false_iff in E12 as [E1 E2]. change STDERR_FILENO with 2.
      rewrite (held_base _ _ _ _ H3) by lia. unfold edit_err, edit_out, edit_in. rewrite E1, E2.
      repeat case_match; by simplify_map_eq.
  - apply wp_ret. simpl. eapply exec_hide; [exact H3|]. intros p Hp. unfold copy_own in Hp.
    destruct (has flags 12); [by apply list_elem_of_singleton in Hp as ->|by apply elem_of_nil in Hp].
Qed.
End Child.

(** ** The whole function *)

(** The caller's ends of the pipes; they are closed on exec. *)
Definition parent_ends (n : nat) (r : forked) : list (Z * fd) :=
  match fk_in r with Some d => [(d, Fd (OPipeW n) true)] | None => [] end ++
  match fk_out r with Some d => [(d, Fd (OPipeR (next (fk_in r) n)) true)] | None => [] end ++
  match fk_err r with Some d => [(d, Fd (OPipeR (next (fk_out r) (next (fk_in r) n))) true)] | None => [] end.

Ltac close_one :=
  first [eapply (wp_close_fd _ _ _ _ 0%nat); [eassumption|reflexivity|]
        |eapply (wp_close_fd _ _ _ _ 1%nat); [eassumption|reflexivity|]
        |eapply (wp_close_fd _ _ _ _ 2%nat); [eassumption|reflexivity|]
        |eapply (wp_close_fd _ _ _ _ 3%nat); [eassumption|reflexivity|]];
  let s' := fresh "s" in let H' := fresh "H" in intros s' H'; simpl in H'.

Ltac keep_one :=
  apply wp_bind; unfold keep_side;
  lazymatch goal with
  | |- wp (retM _) _ _ => apply wp_ret
  | _ => apply wp_bind; eapply wp_get_some; [reflexivity|]; apply wp_bind; eapply wp_get_some; [reflexivity|];
         apply wp_bind; close_one; apply wp_ret
  end.

(** The copy of stderr is closed. *)
Lemma wp_drop_copy flags base e i0 i1 o2 o3 e4 e5 d6 own (r : forked) s :
  (has flags 12 = false → d6 = -1) → held (own ++ copy_own flags e d6) base s →
  wp (d <- pget [i0; i1; o2; o3; e4; e5; d6] 6;; whenM (negb (d =? -1)) (close d) ;;; retM r)
     (λ r' s', r' = r ∧ held own base s') s.
Proof.
  intros Hd H. unfold copy_own in H. apply wp_bind. eapply wp_get_some; [reflexivity|]. apply wp_bind.
  destruct (has flags 12).
  - pose proof (held_last _ _ _ _ H) as Hd6. simpl in Hd6. destruct (Z.eqb_spec d6 (-1)); [lia|]. simpl.
    eapply (wp_close_fd _ _ _ _ (length own)); [exact H|by rewrite lookup_app_r, Nat.sub_diag by lia|].
    intros s2 H2. apply wp_ret. split; [done|]. rewrite delete_take_drop in H2.
    rewrite take_app_length, drop_app_ge in H2 by lia. replace (S (length own) - length own)%nat with 1%nat in H2 by lia.
    simpl in H2. by rewrite app_nil_r in H2.
  - rewrite Hd by done. simpl. apply wp_ret, wp_ret. by rewrite app_nil_r in H.
Qed.

(** The parent's part after the fork. *)
Lemma wp_parent flags si so se base n e i0 i1 o2 o3 e4 e5 d6 pid child s :
  (has flags 12 = false → d6 = -1) →
  held (pipe_own si n false i0 i1 ++ pipe_own so (next si n) true o2 o3 ++
        pipe_own se (next so (next si n)) true e4 e5 ++ copy_own flags e d6) base s →
  let pf := [i0; i1; o2; o3; e4; e5; d6] in
  wp (i <- keep_side si pf 1 0;; o <- keep_side so pf 2 3;; e <- keep_side se pf 4 5;;
      d <- pget pf 6;; whenM (negb (d =? -1)) (close d) ;;; retM (Forked pid i o e child))
     (λ r s', fk_pid r = pid ∧ fk_child r = child ∧ held (parent_ends n r) base s' ∧
        (fk_in r = None ↔ si = None) ∧ (fk_out r = None ↔ so = None) ∧ (fk_err r = None ↔ se = None)) s.
Proof.
  intros Hd H. cbv zeta.
  destruct si as [xi|], so as [xo|], se as [xe|]; simpl in H; repeat keep_one;
    lazymatch goal with |- context [Forked pid ?a ?b ?c child] =>
      eapply wp_mono; [apply (wp_drop_copy flags base e i0 i1 o2 o3 e4 e5 d6
        (parent_ends n (Forked pid a b c child)) (Forked pid a b c child)); [done|simpl; eassumption]|]
    end; intros r s' [-> H']; split_and!; done.
Qed.

(** The two steps before the fork, with [-1] for the descriptors that are not
    made. *)
Lemma wp_pipe_step want (i : nat) (rd : bool) own base pf s (R : bool * list Z → proc → Prop) :
  held own base s → stdio base → pf_ok pf own → pf !! i = Some (-1) → pf !! S i = Some (-1) →
  (∀ pf' own' s', held own' base s' → pf_ok pf' own' → R (false, pf') s') →
  (∀ a b s', pipes s' = next want (pipes s) → held (own ++ pipe_own want (pipes s) rd a b) base s' →
     pf_ok (<[S i := b]> (<[i := a]> pf)) (own ++ pipe_own want (pipes s) rd a b) →
     R (true, <[S i := b]> (<[i := a]> pf)) s') →
  wp (make_pipe k_pick k_fail want (Z.of_nat i) (if rd then Z.of_nat i else Z.of_nat i + 1) pf) R s.
Proof using pick_free.
  intros H Hio Hpf Hi Hi' Hbad Hgood. eapply wp_make_pipe; [done..| |].
  - intros ->. specialize (Hgood (-1) (-1) s eq_refl). simpl in Hgood. rewrite app_nil_r in Hgood.
    rewrite !list_insert_id in Hgood by (try done; by rewrite list_insert_id). by apply Hgood.
  - intros a b s' Hw Hp own' pf' Ho Hpf'. destruct want as [x|]; [|done]. by apply Hgood.
Qed.

Lemma wp_copy_step flags own base pf s e (R : bool * list Z → proc → Prop) :
  held own base s → stdio base → base !! 2 = Some e → pf_ok pf own → pf !! 6%nat = Some (-1) →
  (∀ pf' own' s', held own' base s' → pf_ok pf' own' → R (false, pf') s') →
  (∀ d s', (has flags 12 = false → d = -1) → held (own ++ copy_own flags e d) base s' →
     pf_ok (<[6%nat := d]> pf) (own ++ copy_own flags e d) → R (true, <[6%nat := d]> pf) s') →
  wp (copy_stderr k_pick k_fail flags pf) R s.
Proof using pick_free.
  intros H Hio He Hpf H6 Hbad Hgood. eapply wp_copy_stderr; [done..| |].
  - intros E. specialize (Hgood (-1) s (λ _, eq_refl)). unfold copy_own in Hgood. rewrite E, app_nil_r in Hgood.
    rewrite list_insert_id in Hgood by done. by apply Hgood.
  - intros d s' E _ own' pf' Ho Hpf'. apply Hgood; unfold copy_own; rewrite ?E; done.
Qed.

(** Flags and pointer after a stderr pointer equal to the stdout pointer has
    been turned into a merge. *)
Definition merges (flags : Z) (so se : option Z) : bool :=
  has flags FDFPROG_FERR && has flags FDFPROG_FOUT && match se with Some _ => true | None => false end &&
  bool_decide (se = so).
Definition merged_flags (flags : Z) (so se : option Z) : Z :=
  if merges flags so se then Z.lor (Z.land flags (Z.lnot FDFPROG_FERR)) FDFPROG_EDUPOUT else flags.
Definition merged_err (flags : Z) (so se : option Z) : option Z := if merges flags so se then None else se.

Lemma flag_bit k flags : 0 ≤ k → has flags (2 ^ k) = Z.testbit flags k.
Proof.
  intros Hk. unfold has. destruct (Z.testbit flags k) eqn:E.
  - destruct (Z.eqb_spec (Z.land flags (2 ^ k)) 0) as [H|]; [|done]. exfalso.
    assert (Hb : Z.testbit (Z.land flags (2 ^ k)) k = true) by (rewrite Z.land_spec, E, Z.pow2_bits_true by done; done).
    rewrite H, Z.bits_0 in Hb. done.
  - destruct (Z.eqb_spec (Z.land flags (2 ^ k)) 0) as [|H]; [done|]. exfalso. apply H, Z.bits_inj. intros i.
    rewrite Z.land_spec, Z.bits_0. destruct (decide (i = k)) as [->|]; [by rewrite E|].
    rewrite Z.pow2_bits_false by done. apply andb_false_r.
Qed.

Lemma merged_bits flags :
  let flags' := Z.lor (Z.land flags (Z.lnot FDFPROG_FERR)) FDFPROG_EDUPOUT in
  has flags' FDFPROG_FIN = has flags FDFPROG_FIN ∧ has flags' FDFPROG_FOUT = has flags FDFPROG_FOUT ∧
  has flags' FDFPROG_FERR = false ∧ has flags' FDFPROG_EDUPOUT = true.
Proof.
  cbv zeta. unfold FDFPROG_FIN, FDFPROG_FOUT, FDFPROG_FERR, FDFPROG_EDUPOUT.
  rewrite (flag_bit 0 (Z.lor _ _)), (flag_bit 1 (Z.lor _ _)), (flag_bit 2 (Z.lor _ _)), (flag_bit 3 (Z.lor _ _)) by lia.
  rewrite (flag_bit 0), (flag_bit 1) by lia.
  rewrite !Z.lor_spec, !Z.land_spec, !Z.lnot_spec by lia. simpl. rewrite ?andb_true_r, ?andb_false_r, ?orb_false_r, ?orb_true_r.
  done.
Qed.

(** The outcome of [fdforkprog] for a process whose descriptors were [base],
    with [n] pipes made before and standard error [e]. *)
Definition forked_ok (pid flags : Z) (si so se : option Z) (base : gmap Z fd) (n : nat) (e : fd)
    (r : forked) (s' : proc) : Prop :=
  (r = fork_failed ∧ fds s' = base) ∨
  (fk_pid r = pid ∧ held (parent_ends n r) base s' ∧
   (fk_in r = None ↔ si = None) ∧ (fk_out r = None ↔ so = None) ∧
   (fk_err r = None ↔ merged_err flags so se = None) ∧
   ∃ ch sc, fk_child r = Some (Ok (ch, sc)) ∧
     child_ok (merged_flags flags so se) si so (merged_err flags so se) base n e ch sc).

Lemma fdforkprog_spec pid flags si so se s e :
  stdio (fds s) → fds s !! 2 = Some e →
  wp (fdforkprog k_pick k_fail pid None flags si so se)
     (forked_ok pid flags si so se (fds s) (pipes s) e) s.
Proof using pick_free.
  intros Hio He. unfold fdforkprog. cbv zeta.
  match goal with |- wp (if ?b then _ else _) _ _ => destruct b eqn:Esan end; [apply wp_ret; by left|].
  fold (merges flags so se). fold (merged_flags flags so se). fold (merged_err flags so se).
  assert (Hfl : (si ≠ None → has (merged_flags flags so se) FDFPROG_FIN = true) ∧
                (so ≠ None → has (merged_flags flags so se) FDFPROG_FOUT = true) ∧
                (merged_err flags so se ≠ None → has (merged_flags flags so se) FDFPROG_FERR = true ∧
                   has (merged_flags flags so se) FDFPROG_EDUPOUT = false)).
  { apply orb_false_iff in Esan as [[[E1 E2]%orb_false_iff E3]%orb_false_iff E4].
    assert (F : ∀ b (p : option Z), negb b && match p with Some _ => true | None => false end = false → p ≠ None → b = true).
    { intros [] []; simpl; congruence. }
    pose proof (merged_bits flags) as (M1 & M2 & M3 & M4). unfold merged_flags, merged_err.
    destruct (merges flags so se).
    - rewrite M1, M2. split_and!; [by apply F|by apply F|done].
    - split_and!; [by apply F|by apply F|]. intros Hse. pose proof (F _ _ E3 Hse) as E5. rewrite E5 in *. by destruct (has flags FDFPROG_EDUPOUT). }
  set (fl := merged_flags flags so se) in *. set (er := merged_err flags so se) in *.
  assert (H0 : held [] (fds s) s).
  { split_and!; [simpl; by rewrite (left_id_L ∅ (∪))|constructor|by intros k ?%elem_of_nil]. }
  assert (Hbad : ∀ pf own s', held own (fds s) s' → pf_ok pf own →
            wp (drop_all pf) (forked_ok pid flags si so se (fds s) (pipes s) e) s').
  { intros pf own s' H Hpf. eapply wp_drop_all; [exact H|exact Hpf|]. intros s2 E2. by left. }
  apply wp_bind.
  assert (Hpf0 : pf_ok (replicate 7 (-1)) []).
  { split; [by intros k ?%elem_of_nil|]. intros k Hk. left. by apply elem_of_replicate in Hk as [? _]. }
  eapply (wp_pipe_step si 0 false [] _ (replicate 7 (-1))); [done|done|done|done|done|intros; by eapply Hbad|].
  intros i0 i1 s1 P1 H1 Hpf1. simpl. apply wp_bind.
  eapply (wp_pipe_step so 2 true _ _ [i0; i1; -1; -1; -1; -1; -1]); [exact H1|done|exact Hpf1|done|done|intros; by eapply Hbad|].
  intros o2 o3 s2 P2 H2 Hpf2. simpl. apply wp_bind.
  eapply (wp_pipe_step er 4 true _ _ [i0; i1; o2; o3; -1; -1; -1]); [exact H2|done|exact Hpf2|done|done|intros; by eapply Hbad|].
  intros e4 e5 s3 P3 H3 Hpf3. simpl. apply wp_bind.
  eapply (wp_copy_step fl _ _ [i0; i1; o2; o3; e4; e5; -1]); [exact H3|done|exact He|exact Hpf3|done|intros; by eapply Hbad|].
  intros d6 s4 Hd H4 Hpf4. simpl. apply wp_bind, wp_tick. intros f c. destruct f; [by eapply Hbad|].
  apply wp_bind, wp_gets. cbv beta. rewrite P2, P1 in H4. simpl in H4. rewrite <- !app_assoc in H4.
  assert (H5 : held (pipe_own si (pipes s) false i0 i1 ++ pipe_own so (next si (pipes s)) true o2 o3 ++
       pipe_own er (next so (next si (pipes s))) true e4 e5 ++ copy_own fl e d6) (fds s) (s4 <| calls := c |>)) by exact H4.
  pose proof (wp_child fl si so er (proj1 Hfl) (proj1 (proj2 Hfl)) (proj2 (proj2 Hfl)) (fds s) (pipes s) e i0 i1 o2 o3 e4 e5 d6 _ Hio He Hd H5) as Hch.
  apply wp_ok in Hch as (ch & sc & Ech & Hch). unfold id. rewrite Ech.
  eapply wp_mono; [apply (wp_parent fl si so er (fds s) (pipes s) e i0 i1 o2 o3 e4 e5 d6 pid); [exact Hd|exact H5]|].
  intros r s' (R1 & R2 & R3 & R4 & R5 & R6). right. split_and!; try done. exists ch, sc. by rewrite R2.
Qed.
End Calls.

(** ** Theorems *)

(** C38. [fdforkprog], with standard input, output and error open, for any flags
    and pointers and whatever calls fail.  It returns -1 with exactly the
    descriptors open that were open before; or it returns the pid, the caller
    gets one end of each pipe it asked for, marked close-on-exec, and no other
    descriptor is left open.  The child runs the program with the descriptors
    inherited from the caller, stdin, stdout and stderr changed as the flags
    say, and without any other end of a pipe; if the program cannot be run the
    child's message goes to the caller's stderr. *)
Theorem fdforkprog_descriptors (k_pick : gmap Z fd → Z) (k_fail : nat → bool)
    (pid flags : Z) (si so se : option Z) (s : proc) (e : fd) :
  (∀ t, t !! k_pick t = None ∧ 0 ≤ k_pick t) →
  stdio (fds s) → fds s !! STDERR_FILENO = Some e →
  ∃ r s', fdforkprog k_pick k_fail pid None flags si so se s = Ok (r, s') ∧
    forked_ok pid flags si so se (fds s) (pipes s) e r s'.
Proof. intros Hp Hio He. by apply wp_ok, (fdforkprog_spec k_pick k_fail Hp). Qed.

(** A number above all that are in use. *)
Definition above (t : gmap Z fd) : Z := 1 + foldr Z.max 2 (map_to_list t).*1.

Lemma above_free t : t !! above t = None ∧ 0 ≤ above t.
Proof.
  unfold above. assert (Hle : ∀ l k, k ∈ l → k ≤ foldr Z.max 2 l).
  { induction l as [|x l IH]; intros k; [by intros ?%elem_of_nil|]. intros [->|Hk]%elem_of_cons; simpl; [lia|].
    specialize (IH _ Hk). lia. }
  assert (H2 : ∀ l, 2 ≤ foldr Z.max 2 l) by (intros l; induction l; simpl; lia).
  split; [|specialize (H2 (map_to_list t).*1); lia]. destruct (t !! _) as [x|] eqn:E; [|done]. exfalso.
  apply elem_of_map_to_list in E. apply (list_elem_of_fmap_2 fst) in E. apply Hle in E. simpl in E. lia.
Qed.

Definition demo_proc : proc :=
  Proc (<[0 := Fd (OFile 10) false]> (<[1 := Fd (OFile 11) false]> (<[2 := Fd (OFile 12) false]> ∅))) 0 0.

Lemma demo_stdio : stdio (fds demo_proc).
Proof. intros k Hk. assert (k = 0 ∨ k = 1 ∨ k = 2) as [->|[->| ->]] by lia; by eexists. Qed.

Lemma fdforkprog_descriptors_witness :
  ∃ r s', fdforkprog above (λ _, false) 77 None (Z.lor FDFPROG_FOUT FDFPROG_EDUPOUT) None (Some 500) None demo_proc
          = Ok (r, s') ∧
    forked_ok 77 (Z.lor FDFPROG_FOUT FDFPROG_EDUPOUT) None (Some 500) None (fds demo_proc) 0 (Fd (OFile 12) false) r s'.
Proof.
  apply (fdforkprog_descriptors above (λ _, false) 77 (Z.lor FDFPROG_FOUT FDFPROG_EDUPOUT) None (Some 500) None
           demo_proc (Fd (OFile 12) false)).
  - exact above_free.
  - exact demo_stdio.
  - reflexivity.
Defined.

(** The lowest free number among the first three. *)
Definition lowest (t : gmap Z fd) : Z :=
  match t !! 0 with None => 0 | Some _ => above t end.

(** When the caller's stdin is closed, the read end of the stdin pipe can get
    the number 0; the child's [dup2] then does nothing and the [close] after it
    closes the child's stdin. *)
Lemma closed_stdin_lost :
  let s := Proc (delete 0 (fds demo_proc)) 0 0 in
  match fdforkprog lowest (λ _, false) 77 None FDFPROG_FIN (Some 500) None None s with
  | Ok (r, _) => match fk_child r with Some (Ok (ChExec, sc)) => fds sc !! 0 = None | _ => False end
  | Crash _ => False
  end.
Proof. vm_compute. reflexivity. Qed.
