(* ===== verification/TestWrap.v ===== *)
(** * The test wrapper

    [testin/dt-testwrap.c]: it runs a test program (by [fdforkprog], see
    [TestFork]), prints its output, and passes the test when the lines of a
    script occur in the output in their order and the program exits with 0. *)

From S2P Require Import Prelude Types Mlog Init Bfs TestFork.

(** The wrapper has its own copy of [strgen]. *)
Definition test_strgen := strgen.

(** ** Lines and strings *)

(** The next line with its newline, and the rest of the file. *)
Fixpoint next_line (f : str) : str * str :=
  match f with
  | [] => ([], [])
  | c :: f => if c =? 10 then ([c], f) else let '(l, r) := next_line f in (c :: l, r)
  end.

(** The two loops that remove space at both ends. *)
Definition trim (s : str) : str := rev (skip_space (rev (skip_space s))).

Fixpoint starts_with (p s : str) : bool :=
  match p, s with
  | [], _ => true
  | a :: p, b :: s => (a =? b) && starts_with p s
  | _ :: _, [] => false
  end.

Fixpoint strstr (s p : str) : bool :=
  starts_with p s || match s with [] => false | _ :: s => strstr s p end.

(** ** [proctestcmd] *)

(** The rest of the script and of the program's output, what was printed of
    the output (the messages apart), the sizes of the two buffers (0 is [NULL]), and [sln_sz]. *)
Record tst := Tst {
  t_script : str;
  t_out : str;
  t_printed : str;
  sln_buf : Z;
  cln_buf : Z;
  sln_sz : Z }.

#[export] Instance tst_eta : Eta tst := λ r,
  Tst (t_script r) (t_out r) (t_printed r) (sln_buf r) (cln_buf r) (sln_sz r).

Section Proctest.
(** [getline] gives a null buffer [first] bytes, and a buffer of [n] bytes that
    should hold [need] bytes [grow n need]. *)
Context (first : Z) (grow : Z → Z → Z).

(** The new sizes of a buffer of [buf] bytes and of the variable [n] that is
    passed as its size, after a line that needs [need] bytes.  The line is
    written in one piece; a library that copies it in several can write past a
    buffer smaller than [n] also when [need] exceeds [n], which lines that fit
    the first buffer never do. *)
Definition getline_buf (buf n need : Z) : outcome (Z * Z) :=
  let '(buf, n) := if buf =? 0 then (first, first) else (buf, n) in
  if need <=? n then if need <=? buf then Ok (buf, n) else Crash OutOfBounds
  else Ok (grow n need, grow n need).

(** [getline(&sln, &sln_sz, sfp)]; [None] at the end of the script. *)
Definition getline_script : M tst (option str) := λ s,
  let '(l, r) := next_line (t_script s) in
  match getline_buf (sln_buf s) (sln_sz s) (Z.of_nat (length l) + 1) with
  | Crash f => Crash f
  | Ok (b, n) =>
      Ok (match l with [] => None | _ => Some l end,
          s <| t_script := r |> <| sln_buf := b |> <| sln_sz := n |>)
  end.

(** [getline(&cln, &sln_sz, cfp)], with the size of the other buffer. *)
Definition getline_output : M tst (option str) := λ s,
  let '(l, r) := next_line (t_out s) in
  match getline_buf (cln_buf s) (sln_sz s) (Z.of_nat (length l) + 1) with
  | Crash f => Crash f
  | Ok (b, n) =>
      Ok (match l with [] => None | _ => Some l end,
          s <| t_out := r |> <| cln_buf := b |> <| sln_sz := n |>)
  end.

Definition print_line (l : str) : M tst unit := modify (λ s, s <| t_printed := t_printed s ++ strz l |>).

(** The inner loop: [true] when the line with [look] was found.  A pass reads
    at least one character. *)
Fixpoint scan_output (fuel : nat) (look : str) : M tst bool :=
  l <- getline_output;;
  match l, fuel with
  | None, _ => retM false
  | Some _, O => crash Diverges
  | Some l, S fuel =>
      print_line l ;;;
      if strstr (strz l) look then retM true else scan_output fuel look
  end.

(** The loop over the script. *)
Fixpoint run_script (fuel : nat) : M tst bool :=
  l <- getline_script;;
  match l, fuel with
  | None, _ => retM true
  | Some _, O => crash Diverges
  | Some l, S fuel =>
      match trim l with
      | [] => run_script fuel
      | t =>
          n <- gets (λ s, length (t_out s));;
          ok <- scan_output n (strz t);;
          if ok : bool then run_script fuel else retM false
      end
  end.

(** The rest of the output is printed. *)
Fixpoint drain (fuel : nat) : M tst unit :=
  l <- getline_output;;
  match l, fuel with
  | None, _ => retM tt
  | Some _, O => crash Diverges
  | Some l, S fuel => print_line l ;;; drain fuel
  end.

Definition WIFEXITED (status : Z) : bool := Z.land status 0x7f =? 0.
Definition WEXITSTATUS (status : Z) : Z := Z.shiftr (Z.land status 0xff00) 8.

(** The result of [waitpid] at each poll, and the status it stores. *)
Context (waitpid : nat → Z * Z).

(** At most [n] polls from number [lcv] on; [0] when all of them return 0. *)
Fixpoint wait_loop (n lcv : nat) : Z * Z :=
  match n with
  | O => (0, 0)
  | S n => let '(wrv, cstatus) := waitpid lcv in if wrv =? 0 then wait_loop n (S lcv) else (wrv, cstatus)
  end.

Definition wait_child (child : Z) (ignorefail : bool) : Z :=
  let '(wrv, cstatus) := wait_loop 50 0 in
  if negb (wrv =? child) then 1
  else if WIFEXITED cstatus then
    let eval := WEXITSTATUS cstatus in
    if negb (eval =? 0) && ignorefail then 0 else eval
  else 1.

(** [script] is false when there is no script. *)
Definition proctestcmd (child : Z) (ignorefail script : bool) : M tst Z :=
  n <- gets (λ s, length (t_script s));;
  ok <- (if script then run_script n else retM true);;
  if negb ok then retM 1
  else
    n <- gets (λ s, length (t_out s));;
    drain n ;;;
    retM (wait_child child ignorefail).
End Proctest.

(** ** [main] *)

Record wopts := Wopts {
  dt_shmdir : str;
  dt_errmerge : bool;
  dt_ignorefail : bool;
  dt_shmfile : str;
  dt_keep : bool;
  dt_script : option str;
  pidtag : str }.

#[export] Instance wopts_eta : Eta wopts := λ r,
  Wopts (dt_shmdir r) (dt_errmerge r) (dt_ignorefail r) (dt_shmfile r) (dt_keep r) (dt_script r) (pidtag r).

Definition default_opts : wopts :=
  Wopts (string_bytes "/tmp") false false (string_bytes "dt.shm") false None [].

(** The letters of ["+d:ef:i:kps:"]: [Some true] takes an argument. *)
Definition optstring (c : Z) : option bool :=
  if (c =? 100) || (c =? 102) || (c =? 105) || (c =? 115) then Some true
  else if (c =? 101) || (c =? 107) || (c =? 112) then Some false
  else None.

(** The [switch] on the option [c] with [optarg]. *)
Definition set_opt (pid : Z) (c : Z) (optarg : str) (o : wopts) : wopts :=
  if c =? 100 then o <| dt_shmdir := optarg |>
  else if c =? 101 then o <| dt_errmerge := true |>
  else if c =? 102 then o <| dt_shmfile := optarg |>
  else if c =? 105 then o <| dt_ignorefail := true |>
  else if c =? 107 then o <| dt_keep := true |>
  else if c =? 112 then o <| pidtag := 46 :: dec pid |>
  else o <| dt_script := Some optarg |>.

(** [getopt] with a leading [+]: [cur] is what is left of the argument in hand.
    [None] is a call of [usage]; [fuel] is one more than all characters. *)
Fixpoint getopts (fuel : nat) (pid : Z) (cur : str) (args : list str) (o : wopts) : option (wopts * list str) :=
  match fuel with
  | O => None
  | S fuel =>
      match cur with
      | c :: cur =>
          match optstring c with
          | Some true =>
              match cur, args with
              | [], [] => None
              | [], a :: args => getopts fuel pid [] args (set_opt pid c a o)
              | _, _ => getopts fuel pid [] args (set_opt pid c cur o)
              end
          | Some false => getopts fuel pid cur args (set_opt pid c [] o)
          | None => None
          end
      | [] =>
          match args with
          | (45 :: 45 :: []) :: args => Some (o, args)
          | (45 :: c :: r) :: args => getopts fuel pid (c :: r) args o
          | _ => Some (o, args)
          end
      end
  end.

Definition DT_SHM_PATH : str := string_bytes "DT_SHM_PATH".

(** The path of the shared memory file. *)
Definition shm_path (o : wopts) : str := dt_shmdir o ++ 47 :: dt_shmfile o ++ pidtag o.

(** The edited command line. *)
Definition sub_path (path : str) (argv : list str) : list str :=
  (λ a, if bool_decide (a = DT_SHM_PATH) then path else a) <$> argv.

(** What the system tells [main]: modes of files, the content of a script,
    whether a program can be run, and the results of the allocations. *)
Record wsys := Wsys {
  w_pid : Z;
  w_stat : str → option Z;
  w_fopen : str → option str;
  w_access : str → bool;
  w_malloc : Z → option (list Z);
  w_fdopen : bool }.

Definition S_IFMT : Z := 0xf000.
Definition S_IFDIR : Z := 0x4000.

(** How [main] goes on: it exits, or runs the command [argv] with the script. *)
Inductive wstart :=
  | WExit (rv : Z)
  | WRun (o : wopts) (argv : list str) (path : str) (script : option str) (fdflags : Z).

(** [main] up to [fdforkprog]. *)
Definition main_start (w : wsys) (args : list str) : outcome wstart :=
  match getopts (S (length args + length (mjoin args))) (w_pid w) [] args default_opts with
  | None => Ok (WExit 1)
  | Some (_, []) => Ok (WExit 1)
  | Some (o, argv0 :: rest) =>
      match w_stat w (dt_shmdir o) with
      | None => Ok (WExit 1)
      | Some mode =>
          if negb (Z.land mode S_IFMT =? S_IFDIR) then Ok (WExit 1)
          else if bool_decide (dt_shmfile o = []) then Ok (WExit 1)
          else
            let script := match dt_script o with None => Some None | Some f => Some <$> w_fopen w f end in
            match script with
            | None => Ok (WExit 1)
            | Some sfp =>
                match test_strgen (w_malloc w) [dt_shmdir o; [47]; dt_shmfile o; pidtag o] with
                | Crash f => Crash f
                | Ok (_, None) => Ok (WExit 1)
                | Ok (_, Some buf) =>
                    let path := strz buf in
                    let argv := sub_path path (argv0 :: rest) in
                    if negb (w_access w (default [] (head argv))) then Ok (WExit 1)
                    else
                      let fdflags := if dt_errmerge o then Z.lor FDFPROG_FOUT FDFPROG_EDUPOUT else FDFPROG_FOUT in
                      Ok (WRun o argv path sfp fdflags)
                end
            end
      end
  end.

(** The end of [main]: the child's output is [out]; the result is the exit
    value, whether the file is unlinked, and what was printed. *)
Definition main_finish (w : wsys) (first : Z) (grow : Z → Z → Z) (waitpid : nat → Z * Z) (child : Z)
    (o : wopts) (script : option str) (out : str) : outcome (Z * bool * str) :=
  if child <? 0 then Ok (1, false, [])
  else if negb (w_fdopen w) then Ok (1, false, [])
  else
    match proctestcmd first grow waitpid child (dt_ignorefail o) (match script with Some _ => true | None => false end)
            (Tst (default [] script) out [] 0 0 0) with
    | Ok (rv, s) => Ok (rv, negb (dt_keep o), t_printed s)
    | Crash f => Crash f
    end.

(** ** What a test has to print *)

(** The lines of a file, with their newlines. *)
Fixpoint lines (f : str) : list str :=
  match f with
  | [] => []
  | c :: f =>
      if c =? 10 then [c] :: lines f
      else match lines f with [] => [[c]] | l :: ls => (c :: l) :: ls end
  end.

(** The text a line of the script asks for. *)
Definition target (l : str) : option str := match trim l with [] => None | t => Some (strz t) end.

(** The texts the script asks for. *)
Definition targets (script : str) : list str := omap target (lines script).

Definition contains (s p : str) : Prop := ∃ a b, s = a ++ p ++ b.

(** Some of the lines contain the texts, in the same order. *)
Definition in_order (texts ls : list str) : Prop :=
  ∃ ls', ls' `sublist_of` ls ∧ Forall2 (λ t l, contains (strz l) t) texts ls'.

(** Each text in the first line after that of the one before. *)
Fixpoint greedy (ls texts : list str) : bool :=
  match texts, ls with
  | [], _ => true
  | _ :: _, [] => false
  | t :: ts, l :: ls => if strstr (strz l) t then greedy ls ts else greedy ls (t :: ts)
  end.

Lemma starts_with_spec p s : starts_with p s = true ↔ ∃ b, s = p ++ b.
Proof.
  revert s. induction p as [|x p IH]; intros s; simpl; [split; [by exists s|done]|].
  destruct s as [|y s]; [split; [done|by intros [b ?]]|].
  rewrite andb_true_iff, IH. split.
  - intros [->%Z.eqb_eq [b ->]]. by exists b.
  - intros [b [= -> ->]]. rewrite Z.eqb_refl. split; [done|by exists b].
Qed.

Lemma strstr_spec s p : strstr s p = true ↔ contains s p.
Proof.
  induction s as [|c s IH]; simpl; rewrite orb_true_iff, starts_with_spec.
  - split.
    + intros [[b E]|?]; [|done]. exists [], b. done.
    + intros (a & b & E). left. destruct a; [|done]. by exists b.
  - rewrite IH. split.
    + intros [[b E]|(a & b & ->)]; [by exists [], b|by exists (c :: a), b].
    + intros (a & b & E). destruct a as [|x a]; [left; by exists b|]. right. injection E as -> ->. by exists a, b.
Qed.

Lemma greedy_spec ls : ∀ texts, greedy ls texts = true ↔ in_order texts ls.
Proof.
  induction ls as [|l ls IH]; intros [|t ts]; simpl; try (split; [intros _; exists []; split; [apply sublist_nil_l|constructor]|done]).
  - split; [done|]. intros (ls' & Hs & Hf). apply sublist_nil_r in Hs as ->. by inversion Hf.
  - destruct (strstr (strz l) t) eqn:E; rewrite IH.
    + apply strstr_spec in E. split.
      * intros (ls' & Hs & Hf). exists (l :: ls'). split; [by constructor|by constructor].
      * intros (ls' & Hs & Hf). inversion Hf as [|? l' ? ls2 Hl Hf2]; subst. exists ls2. split; [|done].
        apply sublist_cons_r in Hs as [Hs|(ls3 & [= <- <-] & Hs)]; [|done].
        etransitivity; [|exact Hs]. by constructor.
    + split; intros (ls' & Hs & Hf); exists ls'; (split; [|done]); [by constructor|].
      apply sublist_cons_r in Hs as [Hs|(ls3 & -> & Hs)]; [done|].
      inversion Hf as [|? ? ? ? Hl Hf2]; subst. apply strstr_spec in Hl. congruence.
Qed.

Lemma next_line_spec f :
  f ≠ [] → ∃ l r, next_line f = (l, r) ∧ l ≠ [] ∧ lines f = l :: lines r ∧ f = l ++ r.
Proof.
  induction f as [|c f IH]; intros Hf; [done|]. simpl. destruct (Z.eqb_spec c 10) as [->|].
  - by exists [10], f.
  - destruct f as [|d f].
    + by exists [c], [].
    + destruct IH as (l & r & -> & Hl & -> & ->); [done|]. by exists (c :: l), r.
Qed.

Section Verdict.
Context (first : Z) (grow : Z → Z → Z).
Hypothesis Hfirst : 0 < first.
Hypothesis Hgrow : ∀ n need, need ≤ grow n need.

(** The size variable is right for the buffer of the output. *)
Definition out_ok (s : tst) : Prop := cln_buf s = 0 ∨ cln_buf s = sln_sz s ∧ first ≤ sln_sz s.

(** The text that has been printed and that is still to come. *)
Definition all_output (s : tst) : str := t_printed s ++ mjoin (strz <$> lines (t_out s)).

(** A call that leaves the script alone. *)
Record output_step (s s' : tst) : Prop := {
  os_ok : out_ok s';
  os_sz : first ≤ sln_sz s';
  os_script : t_script s' = t_script s;
  os_buf : sln_buf s' = sln_buf s }.

Lemma getline_output_spec s :
  out_ok s →
  ∃ s', getline_output first grow s = Ok (head (lines (t_out s)), s') ∧ output_step s s' ∧
    lines (t_out s') = tail (lines (t_out s)) ∧ t_printed s' = t_printed s ∧
    (t_out s = [] ∨ (length (t_out s') < length (t_out s))%nat).
Proof using Hfirst Hgrow.
  intros Ho. unfold getline_output.
  assert (Hbuf : ∀ need, ∃ b, getline_buf first grow (cln_buf s) (sln_sz s) need = Ok (b, b) ∧ first ≤ b).
  { intros need. unfold getline_buf. destruct Ho as [->|[-> Hsz]].
    - simpl. destruct (Z.leb_spec need first) as [H|H]; eexists; (split; [done|]); [lia|]. specialize (Hgrow first need). lia.
    - destruct (Z.eqb_spec (sln_sz s) 0); [lia|]. destruct (Z.leb_spec need (sln_sz s)) as [H|H]; eexists; (split; [done|]); [lia|].
      specialize (Hgrow (sln_sz s) need). lia. }
  destruct (decide (t_out s = [])) as [E|E].
  - rewrite E. cbn [next_line]. destruct (Hbuf (Z.of_nat (length (@nil Z)) + 1)) as (b & -> & Hb). eexists. split; [done|].
    split_and!; [|done|done|by left]. split; simpl; try done. right. done.
  - destruct (next_line_spec _ E) as (l & r & El & Hl & Hls & Eo). rewrite El.
    destruct (Hbuf (Z.of_nat (length l) + 1)) as (b & -> & Hb). rewrite Hls. simpl.
    destruct l as [|c l]; [done|]. eexists. split; [done|]. split_and!; [|done|done|].
    + split; simpl; try done. right. done.
    + right. simpl. rewrite Eo, length_app. simpl. lia.
Qed.

Lemma output_step_trans s1 s2 s3 : output_step s1 s2 → output_step s2 s3 → output_step s1 s3.
Proof. intros [] []. split; congruence. Qed.

(** The lines up to the first that contains [look]. *)
Fixpoint rest_after (look : str) (ls : list str) : option (list str) :=
  match ls with
  | [] => None
  | l :: ls => if strstr (strz l) look then Some ls else rest_after look ls
  end.

Lemma scan_output_spec look fuel : ∀ s,
  (length (t_out s) ≤ fuel)%nat → out_ok s →
  ∃ s', scan_output first grow fuel look s =
      Ok (match rest_after look (lines (t_out s)) with Some _ => true | None => false end, s') ∧
    output_step s s' ∧ lines (t_out s') = default [] (rest_after look (lines (t_out s))) ∧
    all_output s' = all_output s.
Proof using Hfirst Hgrow.
  induction fuel as [|fuel IH]; intros s Hf Ho; cbn [scan_output];
    destruct (getline_output_spec s Ho) as (s1 & E1 & Hs1 & L1 & P1 & Hlen); rewrite (bind_ok _ _ _ _ _ E1).
  - destruct (t_out s) eqn:Et; [|simpl in Hf; lia]. simpl in *. exists s1. split; [done|]. split_and!; [done|done|].
    unfold all_output. by rewrite L1, P1, Et.
  - destruct (lines (t_out s)) as [|l ls] eqn:El; simpl in *.
    { exists s1. split; [done|]. split_and!; [done|done|]. unfold all_output. by rewrite L1, P1, El. }
    set (s2 := s1 <| t_printed := t_printed s1 ++ strz l |>).
    assert (Hs2 : output_step s s2) by (destruct Hs1; by split).
    assert (A2 : all_output s2 = all_output s).
    { unfold all_output, s2. simpl. rewrite L1, P1, El. simpl. by rewrite <- app_assoc. }
    change (∃ s', (if strstr (strz l) look then retM true else scan_output first grow fuel look) s2 =
      Ok (match (if strstr (strz l) look then Some ls else rest_after look ls) with Some _ => true | None => false end, s') ∧
      output_step s s' ∧ lines (t_out s') = default [] (if strstr (strz l) look then Some ls else rest_after look ls) ∧
      all_output s' = all_output s).
    destruct (strstr (strz l) look).
    + exists s2. done.
    + assert (Hl2 : lines (t_out s2) = ls) by (unfold s2; by simpl).
      destruct (IH s2) as (s' & E' & Hs' & L' & A'); [|apply Hs2|].
      { unfold s2. simpl. destruct Hlen as [E|?]; [|lia]. by rewrite E in El. }
      rewrite Hl2 in E', L'. exists s'. split; [done|]. split_and!; [by eapply output_step_trans|done|congruence].
Qed.

Lemma drain_spec fuel : ∀ s,
  (length (t_out s) ≤ fuel)%nat → out_ok s →
  ∃ s', drain first grow fuel s = Ok (tt, s') ∧ lines (t_out s') = [] ∧ all_output s' = all_output s.
Proof using Hfirst Hgrow.
  induction fuel as [|fuel IH]; intros s Hf Ho; cbn [drain];
    destruct (getline_output_spec s Ho) as (s1 & E1 & Hs1 & L1 & P1 & Hlen); rewrite (bind_ok _ _ _ _ _ E1).
  - destruct (t_out s) eqn:Et; [|simpl in Hf; lia]. simpl in *. exists s1. split_and!; [done|done|].
    unfold all_output. by rewrite L1, P1, Et.
  - destruct (lines (t_out s)) as [|l ls] eqn:El; simpl in *.
    { exists s1. split_and!; [done|done|]. unfold all_output. by rewrite L1, P1, El. }
    set (s2 := s1 <| t_printed := t_printed s1 ++ strz l |>).
    destruct (IH s2) as (s' & E' & L' & A'); [|apply Hs1|].
    { unfold s2. simpl. destruct Hlen as [E|?]; [|lia]. by rewrite E in El. }
    exists s'. split; [exact E'|]. split; [done|]. rewrite A'. unfold all_output, s2. simpl. rewrite L1, P1, El. simpl.
    by rewrite <- app_assoc.
Qed.

Definition script_ok (s : tst) : Prop :=
  sln_buf s = 0 ∧ cln_buf s = 0 ∨ sln_buf s = first ∧ first ≤ sln_sz s ∧ out_ok s.

(** The lines of the script fit into the buffer [getline] starts with. *)
Definition short_lines (f : str) : Prop := ∀ l, l ∈ lines f → Z.of_nat (length l) < first.

Lemma getline_script_spec s :
  script_ok s → short_lines (t_script s) →
  ∃ s', getline_script first grow s = Ok (head (lines (t_script s)), s') ∧
    lines (t_script s') = tail (lines (t_script s)) ∧ sln_buf s' = first ∧ script_ok s' ∧ out_ok s' ∧
    t_out s' = t_out s ∧ t_printed s' = t_printed s ∧
    (t_script s = [] ∨ (length (t_script s') < length (t_script s))%nat).
Proof using Hfirst.
  intros Hs Hsh. unfold getline_script.
  assert (Hbuf : ∀ need, need ≤ first → ∃ n, getline_buf first grow (sln_buf s) (sln_sz s) need = Ok (first, n) ∧
             first ≤ n ∧ (cln_buf s = 0 ∨ cln_buf s = n)).
  { intros need Hn. unfold getline_buf. destruct Hs as [[-> Hc]|(-> & Hsz & Ho)].
    - simpl. destruct (Z.leb_spec need first); [|lia]. eexists. split; [done|]. split; [lia|by left].
    - destruct (Z.eqb_spec first 0); [lia|]. destruct (Z.leb_spec need (sln_sz s)); [|lia].
      destruct (Z.leb_spec need first); [|lia]. eexists. split; [done|]. split; [lia|]. destruct Ho as [?|[? _]]; auto. }
  assert (Hnew : ∀ r n, first ≤ n → (cln_buf s = 0 ∨ cln_buf s = n) →
             let s' := s <| t_script := r |> <| sln_buf := first |> <| sln_sz := n |> in script_ok s' ∧ out_ok s').
  { intros r n Hn Hc. cbv zeta.
    assert (Ho : out_ok (s <| t_script := r |> <| sln_buf := first |> <| sln_sz := n |>)).
    { unfold out_ok. simpl. destruct Hc as [?|?]; [by left|by right]. }
    split; [|done]. right. split_and!; done. }
  destruct (decide (t_script s = [])) as [E|E].
  - rewrite E. cbn [next_line]. destruct (Hbuf (Z.of_nat (length (@nil Z)) + 1)) as (n & -> & Hn & Hc); [simpl; lia|].
    eexists. split; [done|]. destruct (Hnew [] n Hn Hc). split_and!; try done. by left.
  - destruct (next_line_spec _ E) as (l & r & El & Hl & Hls & Eo). rewrite El.
    assert (Hlen : Z.of_nat (length l) < first) by (apply Hsh; rewrite Hls; left).
    destruct (Hbuf (Z.of_nat (length l) + 1)) as (n & -> & Hn & Hc); [lia|]. rewrite Hls.
    destruct l as [|c l]; [done|]. eexists. split; [done|]. destruct (Hnew r n Hn Hc). split_and!; try done.
    right. simpl. rewrite Eo, length_app. simpl. lia.
Qed.

Lemma greedy_rest ls t ts :
  greedy ls (t :: ts) = match rest_after t ls with Some r => greedy r ts | None => false end.
Proof. induction ls as [|l ls IH]; [done|]. simpl. by destruct (strstr (strz l) t). Qed.

Lemma targets_cons l ls :
  omap target (l :: ls) = match target l with Some t => t :: omap target ls | None => omap target ls end.
Proof. done. Qed.

Lemma run_script_spec fuel : ∀ s,
  (length (t_script s) ≤ fuel)%nat → script_ok s → short_lines (t_script s) →
  ∃ s', run_script first grow fuel s = Ok (greedy (lines (t_out s)) (targets (t_script s)), s') ∧
    out_ok s' ∧ all_output s' = all_output s ∧
    (greedy (lines (t_out s)) (targets (t_script s)) = false → lines (t_out s') = []).
Proof using Hfirst Hgrow.
  induction fuel as [|fuel IH]; intros s Hf Hs Hsh; cbn [run_script];
    destruct (getline_script_spec s Hs Hsh) as (s1 & E1 & L1 & B1 & Hs1 & Ho1 & Eo & Ep & Hlen);
    rewrite (bind_ok _ _ _ _ _ E1); unfold targets.
  - destruct (t_script s) eqn:Et; [|simpl in Hf; lia]. simpl in *. exists s1.
    assert (G : greedy (lines (t_out s)) [] = true) by (by destruct (lines (t_out s))). rewrite G.
    split_and!; [done|done|unfold all_output; by rewrite Eo, Ep|done].
  - destruct (lines (t_script s)) as [|l ls] eqn:El; cbn [head tail] in *.
    { exists s1. assert (G : greedy (lines (t_out s)) (omap target []) = true) by (by destruct (lines (t_out s))). rewrite G.
      split_and!; [done|done|unfold all_output; by rewrite Eo, Ep|done]. }
    assert (Hsh1 : short_lines (t_script s1)) by (intros x Hx; apply Hsh; rewrite El, <- L1; by right).
    assert (Hf1 : (length (t_script s1) ≤ fuel)%nat).
    { destruct Hlen as [E|?]; [|lia]. by rewrite E in El. }
    assert (A1 : all_output s1 = all_output s) by (unfold all_output; by rewrite Eo, Ep).
    rewrite targets_cons.
    assert (Et : target l = match trim l with [] => None | t => Some (strz t) end) by done. rewrite Et. clear Et.
    destruct (trim l) as [|c t] eqn:Etr.
    + destruct (IH s1 Hf1 Hs1 Hsh1) as (s' & E' & Ho' & A' & F'). unfold targets in *. rewrite Eo, L1 in *.
      exists s'. split_and!; [done|done|congruence|done].
    + rewrite greedy_rest.
      destruct (scan_output_spec (strz (c :: t)) (length (t_out s1)) s1) as (s2 & E2 & [O2 Z2 S2 B2] & L2 & A2); [lia|done|].
      rewrite bind_gets, (bind_ok _ _ _ _ _ E2). rewrite Eo in *.
      destruct (rest_after (strz (c :: t)) (lines (t_out s))) as [r|]; cbn [default] in L2.
      * assert (Hs2 : script_ok s2).
        { right. split_and!; [congruence|done|done]. }
        rewrite <- S2 in Hf1, Hsh1. destruct (IH s2 Hf1 Hs2 Hsh1) as (s' & E' & Ho' & A' & F').
        unfold targets in *. rewrite S2, L1, L2 in *. exists s'. split_and!; [done|done|congruence|done].
      * exists s2. split_and!; [done|done|congruence|done].
Qed.
End Verdict.

(** ** The end of the program *)

(** One of 50 polls, and the first that does not return 0, returns the child,
    which exited with 0 (or with anything, when failures are ignored). *)
Definition ends_well (waitpid : nat → Z * Z) (child : Z) (ignorefail : bool) : Prop :=
  ∃ k status, (k < 50)%nat ∧ (∀ j, (j < k)%nat → (waitpid j).1 = 0) ∧ waitpid k = (child, status) ∧
    WIFEXITED status = true ∧ (WEXITSTATUS status = 0 ∨ ignorefail = true).

Lemma wait_loop_spec waitpid n : ∀ lcv,
  (wait_loop waitpid n lcv = (0, 0) ∧ ∀ j, (lcv ≤ j < lcv + n)%nat → (waitpid j).1 = 0) ∨
  (∃ k, (lcv ≤ k < lcv + n)%nat ∧ (∀ j, (lcv ≤ j < k)%nat → (waitpid j).1 = 0) ∧
     (waitpid k).1 ≠ 0 ∧ wait_loop waitpid n lcv = waitpid k).
Proof.
  induction n as [|n IH]; intros lcv; simpl; [left; split; [done|lia]|].
  destruct (waitpid lcv) as [w c] eqn:E. destruct (Z.eqb_spec w 0) as [->|Hw].
  - destruct (IH (S lcv)) as [[-> H]|(k & Hk & Hj & Hn & ->)]; [left|right; exists k].
    + split; [done|]. intros j Hj. destruct (decide (j = lcv)) as [->|]; [by rewrite E|apply H; lia].
    + split_and!; [lia|lia| |done|done]. intros j ?. destruct (decide (j = lcv)) as [->|]; [by rewrite E|apply Hj; lia].
  - right. exists lcv. rewrite E. split_and!; [lia|lia| |done|done]. lia.
Qed.

Lemma wait_child_spec waitpid child ignorefail :
  child ≠ 0 → wait_child waitpid child ignorefail = 0 ↔ ends_well waitpid child ignorefail.
Proof.
  intros Hc. unfold wait_child.
  destruct (wait_loop_spec waitpid 50 0) as [[-> H]|(k & Hk & Hj & Hn & ->)].
  - destruct (Z.eqb_spec 0 child); [lia|]. split; [done|]. intros (k & st & Hk & _ & E & _).
    specialize (H k ltac:(lia)). rewrite E in H. done.
  - assert (Hu : ∀ k' st, (∀ j, (j < k')%nat → (waitpid j).1 = 0) → waitpid k' = (child, st) → k' = k).
    { intros k' st Hj' E. destruct (Nat.lt_trichotomy k' k) as [?|[?|?]]; [|done|].
      - specialize (Hj k' ltac:(lia)). rewrite E in Hj. done.
      - by specialize (Hj' k ltac:(lia)). }
    destruct (waitpid k) as [w st] eqn:E. cbn [negb]. split.
    + destruct (Z.eqb_spec w child) as [->|]; [|done]. cbn [negb]. destruct (WIFEXITED st) eqn:Ew; [|done].
      intros Hrv. exists k, st. split_and!; try done; [lia|intros j ?; apply Hj; lia|].
      destruct (Z.eqb_spec (WEXITSTATUS st) 0); [by left|]. destruct ignorefail; [by right|done].
    + intros (k' & st' & _ & Hj' & E' & Ew & Hrv). rewrite (Hu _ _ Hj' E') in E'. rewrite E in E'. injection E' as -> ->.
      rewrite Z.eqb_refl, Ew. cbn [negb]. destruct (Z.eqb_spec (WEXITSTATUS st') 0) as [->|]; [by destruct ignorefail|].
      by destruct Hrv as [?| ->].
Qed.

(** C39.  The verdict of the wrapper: it prints the whole output of the
    program line by line, and it returns 0 exactly when the texts of the script
    occur in lines of the output in their order and the program ends well,
    where the search takes the first line for each text; without a script the
    program only has to end well.  The lines of the script have to fit into the
    buffer [getline] starts with, whose size may be any. *)
Theorem proctestcmd_verdict first grow waitpid child ignorefail script out
    (Hfirst : 0 < first) (Hgrow : ∀ n need, need ≤ grow n need) (Hchild : child ≠ 0)
    (Hshort : short_lines first (default [] script)) :
  ∃ rv s', proctestcmd first grow waitpid child ignorefail (bool_decide (is_Some script))
             (Tst (default [] script) out [] 0 0 0) = Ok (rv, s') ∧
    t_printed s' = mjoin (strz <$> lines out) ∧
    (rv = 0 ↔ in_order (targets (default [] script)) (lines out) ∧ ends_well waitpid child ignorefail).
Proof.
  set (s0 := Tst _ _ _ _ _ _). unfold proctestcmd. rewrite bind_gets.
  assert (Hdrain : ∀ s, out_ok first s → all_output s = mjoin (strz <$> lines out) → ∃ s',
    (n <- gets (λ s, length (t_out s));; drain first grow n ;;; retM (wait_child waitpid child ignorefail)) s =
      Ok (wait_child waitpid child ignorefail, s') ∧ t_printed s' = mjoin (strz <$> lines out)).
  { intros s Ho Ha. rewrite bind_gets.
    destruct (drain_spec first grow Hfirst Hgrow (length (t_out s)) s) as (s' & E & L & A); [lia|done|].
    exists s'. rewrite (bind_ok _ _ _ _ _ E). split; [done|].
    rewrite <- Ha, <- A. unfold all_output. rewrite L. by rewrite app_nil_r. }
  destruct script as [script|]; unfold default, id in *.
  - rewrite bool_decide_true by eauto.
    destruct (run_script_spec first grow Hfirst Hgrow (length (t_script s0)) s0) as (s1 & E1 & Ho & A & F);
      [lia|by left|done|].
    rewrite (bind_ok _ _ _ _ _ E1). cbn [t_out t_script s0] in *.
    assert (G := greedy_spec (lines out) (targets script)).
    destruct (greedy (lines out) (targets script)); cbn [negb].
    + destruct (Hdrain s1 Ho A) as (s' & E & P). exists (wait_child waitpid child ignorefail), s'. split_and!; [done|done|].
      rewrite wait_child_spec by done. tauto.
    + exists 1, s1. split_and!; [done| |].
      * change (mjoin (strz <$> lines out)) with (all_output s0). rewrite <- A. unfold all_output.
        rewrite F by done. by rewrite app_nil_r.
      * split; [done|]. intros [?%G _]. done.
  - rewrite bool_decide_false by (by intros [? ?]). rewrite (bind_ok _ _ s0 true s0) by done. cbn [negb].
    destruct (Hdrain s0) as (s' & E & P); [by left|done|]. exists (wait_child waitpid child ignorefail), s'.
    split_and!; [done|done|]. rewrite wait_child_spec by done. split; [|tauto]. intros ?. split; [|done].
    exists []. split; [apply sublist_nil_l|constructor].
Qed.

(** The script asks for two texts, the output has them with other lines, and
    the program is gone at the third poll. *)
Lemma proctestcmd_verdict_witness :
  let script := string_bytes "hello
  SUCCESS
" in
  let out := string_bytes "start
hello world
work
it is a SUCCESS!
" in
  ∃ rv s', proctestcmd 120 Z.max (λ k, if (k =? 2)%nat then (7, 0) else (0, 0)) 7 false true
             (Tst script out [] 0 0 0) = Ok (rv, s') ∧
    t_printed s' = mjoin (strz <$> lines out) ∧
    (rv = 0 ↔ in_order (targets script) (lines out) ∧
       ends_well (λ k, if (k =? 2)%nat then (7, 0) else (0, 0)) 7 false).
Proof.
  intros script out.
  exact (proctestcmd_verdict 120 Z.max (λ k, if (k =? 2)%nat then (7, 0) else (0, 0)) 7 false (Some script) out
    ltac:(lia) ltac:(intros; lia) ltac:(lia)
    ltac:(intros l Hl; apply Z.ltb_lt; revert l Hl; apply Forall_forall; vm_compute; repeat constructor)).
Defined.

(** ** Two faults *)

(** The output is read with the size variable of the script's buffer: after an
    output line of 200 bytes the variable says 201, and a line of 150 bytes in
    the script is written behind the 120 bytes of its buffer. *)
Lemma long_script_line_overflows :
  proctestcmd 120 Z.max (λ _, (7, 0)) 7 false true
    (Tst ([97; 10] ++ replicate 149 98 ++ [10]) (replicate 199 97 ++ [10]) [] 0 0 0) = Crash OutOfBounds.
Proof. vm_compute. reflexivity. Qed.

(** The usage text has [-i] without an argument, but the option takes one: the
    test command is swallowed and the wrapper reports that it is missing. *)
Lemma ignore_option_takes_command w : main_start w [string_bytes "-i"; string_bytes "./t-simple"] = Ok (WExit 1).
Proof. vm_compute. reflexivity. Qed.
