(* ===== verification/HelloArgs.v ===== *)
(** * The hello examples: their arguments

    [xthread/testin/hello_dthread.c], [hello_xthread.c] and [hello_pthread.c]
    are one program on three thread libraries.  This file has the options, the
    sizes they ask for and the converter of pointer arguments; the threads are
    in [Hello]. *)

From S2P Require Import Prelude Types Mlog Bfs ShmRef Xthread TestWrap.

(** The three programs. *)
Inductive version := HDthread | HXthread | HPthread.

(** ** Numbers *)

Definition ULONG_MAX : Z := 2 ^ 64 - 1.
Definition UINT_MAX : Z := 2 ^ 32 - 1.

(** [strtoul(text, &end, 10)]: the number, whether [errno] is set, and the text
    at [end].  A number with a minus sign is negated in 64 bits. *)
Definition strtoul (text : str) : Z * bool * str :=
  let s := skip_space text in
  let '(neg, s) :=
    match s with c :: r => if c =? 45 then (true, r) else if c =? 43 then (false, r) else (false, s) | [] => (false, []) end in
  match s with
  | c :: _ =>
      if isdigit c then
        let '(n, r) := scan_digits 0 s in
        if ULONG_MAX <? n then (ULONG_MAX, true, r) else (if neg then u64 (- n) else n, false, r)
      else (0, false, text)
  | [] => (0, false, text)
  end.

(** [None] is -1. *)
Definition parse_positive_size (text : str) : option Z :=
  let '(parsed, errno, rest) := strtoul text in
  match errno, text, rest with
  | true, _, _ | _, [], _ | _, _, _ :: _ => None
  | false, _ :: _, [] => if parsed =? 0 then None else Some parsed
  end.

(** ** Options *)

Record hopts := Hopts {
  h_num_threads : Z;
  h_array_size : Z;
  have_num_threads : bool;
  have_array_size : bool }.

(** The text before a [=], and what follows it. *)
Fixpoint split_value (s : str) : str * option str :=
  match s with
  | [] => ([], None)
  | c :: s => if c =? 61 then ([], Some s) else let '(n, v) := split_value s in (c :: n, v)
  end.

(** [getopt_long] takes a long option by any prefix that names only one. *)
Definition find_option (name : str) : option Z :=
  match starts_with name (string_bytes "numthreads"), starts_with name (string_bytes "arraysize") with
  | true, false => Some 110
  | false, true => Some 97
  | _, _ => None
  end.

(** The [switch] on the option. *)
Definition set_option (opt : Z) (optarg : str) (o : hopts) : option hopts :=
  match parse_positive_size optarg with
  | None => None
  | Some n =>
      Some (if opt =? 110 then Hopts n (h_array_size o) true (have_array_size o)
            else Hopts (h_num_threads o) n (have_num_threads o) true)
  end.

(** How [getopt_long] takes an argument. *)
Inductive arg_kind := AEnd | ALong (body : str) | AShort | APlain.

Definition kind_of (arg : str) : arg_kind :=
  match arg with
  | c :: d :: r =>
      if c =? 45 then if d =? 45 then match r with [] => AEnd | _ => ALong r end else AShort else APlain
  | _ => APlain
  end.

(** The loop over the options of [argv[1..]].  [None] is an error; the flag
    tells that [optind != argc]: [getopt_long] moves what is no option behind
    the options. *)
Fixpoint parse_loop (args : list str) (o : hopts) : option (hopts * bool) :=
  match args with
  | [] => Some (o, false)
  | arg :: args =>
      match kind_of arg with
      | AEnd => Some (o, match args with [] => false | _ => true end)
      | ALong body =>
          let '(name, val) := split_value body in
          match find_option name, val, args with
          | None, _, _ | _, None, [] => None
          | Some c, Some v, _ => match set_option c v o with None => None | Some o => parse_loop args o end
          | Some c, None, v :: args => match set_option c v o with None => None | Some o => parse_loop args o end
          end
      | AShort => None
      | APlain => match parse_loop args o with None => None | Some (o, _) => Some (o, true) end
      end
  end.

(** The three functions [parse_args]: the numbers, or [None] for -1. *)
Definition parse_args (v : version) (args : list str) : option (Z * Z) :=
  let o := match v with HPthread => Hopts 4 1024 false false | _ => Hopts 0 0 false false end in
  match parse_loop args o with
  | None => None
  | Some (o, extra) =>
      let missing := negb (have_num_threads o) || negb (have_array_size o) in
      let bad :=
        match v with
        | HDthread => missing || extra || (INT_MAX <=? h_num_threads o)
        | HXthread => missing || extra || (UINT_MAX <? h_num_threads o)
        | HPthread => extra || (UINT_MAX <? h_num_threads o)
        end in
      if bad then None else Some (h_num_threads o, h_array_size o)
  end.

(** What [main] does with the arguments: [None] is a usage error. *)
Definition hello_args (v : version) (args : list str) : option (Z * Z) :=
  match parse_args v args with
  | None => None
  | Some (n, a) => if negb (a mod n =? 0) then None else Some (n, a)
  end.

(** ** Sizes *)

(** [sizeof(dthread_t)], [sizeof(thread_arg_t)] with four references,
    [sizeof(pid_t)], [sizeof(bool)] and [sizeof(dthread_barrier_t)]; in
    [hello_xthread.c] the handle and the references have the same sizes. *)
Definition application_shared_bytes (num_threads array_size : Z) : Z :=
  u64 (u64 (num_threads * 8) + u64 (num_threads * (3 * 8 + 4 * 24)) + u64 (array_size * 4) +
       u64 (num_threads * 4) + num_threads + 32).

Definition dthread_mapping_bytes (page_size num_threads array_size : Z) : Z :=
  let max_threads := u64 (num_threads + 1) in
  u64 (application_shared_bytes num_threads array_size + u64 (u64 (max_threads + 2) * page_size)).

(** The number of elements in an array from [shared_calloc], whose product
    wraps, or from [xthread_calloc] and [calloc], which fail then. *)
Definition array_elements (v : version) (count size : Z) : option Z :=
  match v with
  | HDthread => Some (u64 (count * size) / size)
  | _ => if 2 ^ 64 <=? count * size then None else Some count
  end.

(** ** Pointers as arguments *)

(** [pointer_proc] of [hello_dthread.c]: the result, the argument and the
    pointer afterwards; a null [pointer] is [None]. *)
Definition pointer_proc (sm : list dthread_shmmap_t) (operation : Z) (argret : dthread_argret_t)
    (pointer : option Z) : outcome (Z * dthread_argret_t * option Z) :=
  if operation =? DTHREAD_PROC_ENCODE then
    match pointer with
    | None => Crash NullDeref
    | Some p =>
        if p =? 0 then Ok (0, argret <| dt_argret_type := DTHREAD_NODATA |>, pointer)
        else
          let a := argret <| dt_argret_type := DTHREAD_SHMREF |> in
          match dthread_ptr2shmref sm p 0 with
          | (rv, Some r) => Ok (rv, a <| dt_u := UShm r |>, pointer)
          | (rv, None) => Ok (rv, a, pointer)
          end
    end
  else if operation =? DTHREAD_PROC_DECODE then
    if dt_argret_type argret =? DTHREAD_NODATA then Ok (0, argret, _ ← pointer; Some 0)
    else if negb (dt_argret_type argret =? DTHREAD_SHMREF) then Ok (EINVAL, argret, pointer)
    else
      match pointer with
      | None => Ok (0, argret, pointer)
      | Some _ =>
          let p := dthread_shmref2ptr sm (Some (union_shm (dt_u argret))) 0 in
          Ok (if p =? 0 then EINVAL else 0, argret, Some p)
      end
  else if operation =? DTHREAD_PROC_FREE then Ok (0, argret, pointer)
  else Ok (EINVAL, argret, pointer).

(** The converter of the example is the one of the xthread layer. *)
Lemma pointer_proc_xthread sm operation a pointer :
  (operation = DTHREAD_PROC_ENCODE → pointer ≠ None) →
  ∃ rv a' p', pointer_proc sm operation a pointer = Ok (rv, a', p') ∧
    xthread_pointer_proc sm operation (Some a) pointer = (rv, Some a', p').
Proof.
  intros Hp. unfold pointer_proc, xthread_pointer_proc.
  destruct (Z.eqb_spec operation DTHREAD_PROC_ENCODE) as [->|].
  - destruct pointer as [p|]; [|by destruct Hp]. destruct (p =? 0); [by eauto|].
    destruct (dthread_ptr2shmref sm p 0) as [rv [r|]]; by eauto.
  - destruct (operation =? DTHREAD_PROC_DECODE); [|destruct (operation =? DTHREAD_PROC_FREE); by eauto].
    destruct (dt_argret_type a =? DTHREAD_NODATA); [by eauto|].
    destruct (negb (dt_argret_type a =? DTHREAD_SHMREF)); [by eauto|]. destruct pointer; by eauto.
Qed.

(** ** Reading back what was printed *)

(** A 64-bit number has at most 20 digits. *)
Definition ulong (n : Z) : str := digits 20 n [].

Lemma parse_ulong n : 0 < n ≤ ULONG_MAX → parse_positive_size (ulong n) = Some n.
Proof.
  intros Hn. unfold parse_positive_size, strtoul, ulong, ULONG_MAX in *.
  destruct (decimal_head 20 n []) as (d & ds & E & Hd); [done|lia|].
  pose proof (scan_decimal 20 n [] [] ltac:(done) ltac:(lia)) as Hs. rewrite app_nil_r in Hs. rewrite E in *.
  assert (D := Hd). unfold isdigit in D. apply andb_true_iff in D as [D1 D2].
  assert (Hsp : skip_space (d :: ds) = d :: ds).
  { simpl. unfold isspace. destruct (Z.eqb_spec d 32), (Z.leb_spec 9 d), (Z.leb_spec d 13); simpl; try done; lia. }
  rewrite Hsp. destruct (Z.eqb_spec d 45); [lia|]. destruct (Z.eqb_spec d 43); [lia|]. rewrite Hd, Hs.
  change (scan_digits n ([] ++ [])) with (n, @nil Z). cbv iota beta.
  destruct (Z.ltb_spec (2 ^ 64 - 1) n); [lia|]. destruct (Z.eqb_spec n 0); [lia|]. done.
Qed.

Lemma scan_digits_nonneg s : ∀ acc, 0 ≤ acc → 0 ≤ (scan_digits acc s).1.
Proof.
  induction s as [|c s IH]; intros acc Ha; simpl; [done|]. destruct (isdigit c) eqn:E; [|done].
  apply IH. unfold isdigit in E. apply andb_true_iff in E. lia.
Qed.

Lemma strtoul_bounds text : 0 ≤ (strtoul text).1.1 ≤ ULONG_MAX.
Proof.
  unfold strtoul, ULONG_MAX. destruct (match skip_space text with [] => _ | _ => _ end) as [neg s].
  destruct s as [|c s]; [cbn [fst]; lia|]. destruct (isdigit c); [|cbn [fst]; lia].
  pose proof (scan_digits_nonneg (c :: s) 0 ltac:(lia)). destruct (scan_digits 0 (c :: s)) as [n r].
  destruct (Z.ltb_spec (2 ^ 64 - 1) n); [cbn [fst]; lia|]. destruct neg; cbn [fst] in *; [|lia].
  pose proof (u64_range (- n)) as Hu. unfold is_u64 in Hu. lia.
Qed.

Lemma parse_positive_bounds text n : parse_positive_size text = Some n → 0 < n ≤ ULONG_MAX.
Proof.
  unfold parse_positive_size. pose proof (strtoul_bounds text). destruct (strtoul text) as [[p e] r]. simpl in *.
  destruct e; [done|]. destruct text; [done|]. destruct r; [|done]. destruct (Z.eqb_spec p 0); [done|].
  intros [= <-]. lia.
Qed.

(** A number is positive when its option was given, or when its default is. *)
Definition opts_ok (d : bool) (o : hopts) : Prop :=
  (d || have_num_threads o = true → 0 < h_num_threads o ≤ ULONG_MAX) ∧
  (d || have_array_size o = true → 0 < h_array_size o ≤ ULONG_MAX).

Lemma set_option_ok d c v o o' : opts_ok d o → set_option c v o = Some o' → opts_ok d o'.
Proof.
  intros [H1 H2]. unfold set_option. destruct (parse_positive_size v) as [n|] eqn:E; [|done].
  apply parse_positive_bounds in E. intros [= <-]. destruct (c =? 110); split; simpl; auto.
Qed.

Lemma parse_loop_ok d fuel : ∀ args o o' extra, (length args ≤ fuel)%nat →
  opts_ok d o → parse_loop args o = Some (o', extra) → opts_ok d o'.
Proof.
  assert (Hset : ∀ c v o args o' extra, (∀ o1, opts_ok d o1 → parse_loop args o1 = Some (o', extra) → opts_ok d o') →
    opts_ok d o → match set_option c v o with None => None | Some o => parse_loop args o end = Some (o', extra) → opts_ok d o').
  { intros c v o args o' extra IH Ho. destruct (set_option c v o) as [o1|] eqn:E; [|done]. apply IH. by eapply set_option_ok. }
  induction fuel as [|fuel IH]; intros args o o' extra Hf Ho; (destruct args as [|arg args]; [by intros [= <- <-]|]).
  { simpl in Hf. lia. }
  simpl in Hf. cbn [parse_loop]. destruct (kind_of arg) as [|body| |].
  - by intros [= <- <-].
  - destruct (split_value body) as [name val].
    destruct (find_option name) as [k|]; [|by destruct val, args]. destruct val as [v|].
    + destruct args; (eapply Hset; [|done]; intros o1 ?; eapply IH; [simpl in *; lia|done]).
    + destruct args as [|v args]; [done|]. eapply Hset; [|done]. intros o1 ?. eapply IH; [simpl in *; lia|done].
  - done.
  - destruct (parse_loop args o) as [[o1 e1]|] eqn:E; [|done]. intros [= <- <-]. eapply IH; [|done|done]. lia.
Qed.

Lemma parse_args_bounds v args n a :
  parse_args v args = Some (n, a) → 0 < n ≤ UINT_MAX ∧ 0 < a ≤ ULONG_MAX.
Proof.
  unfold parse_args. set (o0 := match v with HPthread => _ | _ => _ end).
  destruct (parse_loop args o0) as [[o extra]|] eqn:E; [|done].
  eapply (parse_loop_ok (match v with HPthread => true | _ => false end)) in E as [H1 H2]; [|done|].
  - unfold UINT_MAX, INT_MAX. destruct v; cbv zeta; (match goal with |- (if ?b then _ else _) = _ → _ => destruct b eqn:Eb; [done|] end);
      intros [= <- <-]; rewrite ?orb_false_iff, ?negb_false_iff in Eb; destruct_and?;
      repeat match goal with H : (_ || _) = false |- _ => apply orb_false_iff in H as [? ?] end;
      rewrite ?negb_false_iff, ?Z.leb_gt, ?Z.ltb_ge in *; simpl in H1, H2; (split; [specialize (H1 ltac:(done)); lia|by apply H2]).
  - destruct v; split; simpl; unfold ULONG_MAX; try done; intros; lia.
Qed.

Lemma hello_args_bounds v args n a :
  hello_args v args = Some (n, a) → 0 < n ≤ UINT_MAX ∧ 0 < a ≤ ULONG_MAX ∧ a mod n = 0.
Proof.
  unfold hello_args. destruct (parse_args v args) as [[n' a']|] eqn:E; [|done].
  apply parse_args_bounds in E. destruct (Z.eqb_spec (a' mod n') 0); [|done]. intros [= <- <-]. tauto.
Qed.

(** The options as the usage text has them. *)
Lemma hello_args_plain v n a :
  0 < n < INT_MAX → 0 < a ≤ ULONG_MAX → a mod n = 0 →
  hello_args v [string_bytes "--numthreads"; ulong n; string_bytes "--arraysize"; ulong a] = Some (n, a).
Proof.
  intros Hn Ha Hd. unfold hello_args, parse_args.
  assert (Hl : ∀ o, parse_loop [string_bytes "--numthreads"; ulong n; string_bytes "--arraysize"; ulong a] o =
            Some (Hopts n a true true, false)).
  { intros o. change (match set_option 110 (ulong n) o with None => None | Some o =>
      match set_option 97 (ulong a) o with None => None | Some o => Some (o, false) end end = Some (Hopts n a true true, false)).
    unfold set_option. rewrite parse_ulong by (unfold INT_MAX, ULONG_MAX in *; lia). by rewrite parse_ulong. }
  rewrite Hl. cbn [have_num_threads have_array_size h_num_threads h_array_size negb orb].
  unfold INT_MAX, UINT_MAX in *.
  assert ((match v with HDthread => 2 ^ 31 - 1 <=? n | _ => 2 ^ 32 - 1 <? n end) = false) as Hb.
  { destruct v; [apply Z.leb_gt|apply Z.ltb_ge..]; lia. }
  destruct v; cbn [orb] in *; rewrite Hb, Hd; done.
Qed.

(** A negative number counts as positive: [strtoul] negates it in 64 bits. *)
Lemma negative_size_accepted : parse_positive_size (string_bytes "-4") = Some (2 ^ 64 - 4).
Proof. vm_compute. reflexivity. Qed.
