(* ===== verification/Hello.v ===== *)
(** * The hello examples: their threads

    [thread_hello] and [application_main] (in [hello_pthread.c]: [main]) of the
    three programs, as a state machine: a step is the code up to and including
    one access to shared memory or one call of the thread library.  Every thread
    writes its process id to its part of an array, waits at a barrier, and
    checks the part of its neighbour.  Every run of an accepted command line
    ends, and it ends with [SUCCESS]. *)

From S2P Require Import Prelude Types Bfs Xthread HelloArgs.

(** ** The code *)

(** Where a thread is; [i] is the variable of the loops. *)
Inductive hpc :=
  | HStart
  | Fill (i : Z)                 (* the loop that writes array *)
  | HWait                        (* at the barrier *)
  | Released (rv : Z)            (* the barrier returned rv *)
  | Compare (i : Z)              (* the loop that reads array *)
  | CompareTo (i x : Z)          (* array[i] is x *)
  | Mismatch
  | HDone.

(** Where [application_main] is, with [success] in [ok]. *)
Inductive mpc :=
  | MStart
  | MCreate (i : Z)
  | MJoin (i : Z) (ok : bool)
  | MCheck (i : Z) (ok : bool)
  | MDestroy (ok : bool)
  | MExit (rv : Z).

(** The arrays [array], [thread_pids], [thread_success], [thread_args] (the
    [thread_id]s; the other members are the same for all threads) and [threads]
    (a handle is the number of the thread in the order of creation). *)
Record hmem := Hmem {
  h_array : list Z;
  h_pids : list Z;
  h_success : list bool;
  h_args : list Z;
  h_handles : list Z }.

#[export] Instance hmem_eta : Eta hmem := λ r,
  Hmem (h_array r) (h_pids r) (h_success r) (h_args r) (h_handles r).

Record hjob := Hjob { h_main : mpc; h_threads : list hpc; h_mem : hmem }.

(** What the libraries answer: whether the calls before the loops succeed, the
    results of creating and joining thread [i] and of destroying the barrier,
    whether the references resolve in thread [i]'s process, and its process id. *)
Record henv := Henv {
  e_calls : list bool;
  e_create : nat → Z;
  e_join : nat → Z;
  e_destroy : Z;
  e_resolve : nat → bool;
  e_pid : nat → Z }.

Section Code.
Context (v : version) (num_threads array_size : Z) (e : henv).

Definition segment_size : Z := array_size / num_threads.
Definition begin (t : Z) : Z := u64 (t * segment_size).
Definition end_of (t : Z) : Z := u64 (begin t + segment_size).
Definition neighbor (t : Z) : Z := u64 (t + 1) mod num_threads.

Definition store_pid (t pid : Z) : M hmem unit :=
  l <- gets h_pids;; get_some OutOfBounds (aget l t) ;;; modify (λ s, s <| h_pids := aset l t pid |>).
Definition store_array (i pid : Z) : M hmem unit :=
  l <- gets h_array;; get_some OutOfBounds (aget l i) ;;; modify (λ s, s <| h_array := aset l i pid |>).
Definition store_success (t : Z) (b : bool) : M hmem unit :=
  l <- gets h_success;; get_some OutOfBounds (aget l t) ;;; modify (λ s, s <| h_success := aset l t b |>).

Definition store_arg (i id : Z) : M hmem unit :=
  l <- gets h_args;; get_some OutOfBounds (aget l i) ;;; modify (λ s, s <| h_args := aset l i id |>).
Definition store_handle (i h : Z) : M hmem unit :=
  l <- gets h_handles;; get_some OutOfBounds (aget l i) ;;; modify (λ s, s <| h_handles := aset l i h |>).

(** [arg->thread_id], where [arg] is [&thread_args[t]]. *)
Definition thread_id (t : nat) : M hmem Z :=
  l <- gets h_args;; get_some OutOfBounds (aget l (Z.of_nat t)).

(** The test of the barrier's result. *)
Definition barrier_ok (rv : Z) : bool :=
  match v with
  | HXthread => rv =? 0
  | _ => (rv =? 0) || (rv =? PTHREAD_BARRIER_SERIAL_THREAD)
  end.

(** The next step of the thread that was created with [&thread_args[t]]. *)
Definition thread_hello_step (t : nat) (p : hpc) : M hmem hpc :=
  id <- thread_id t;;
  match p with
  | HStart =>
      if negb (e_resolve e t) then retM HDone
      else store_pid id (e_pid e t) ;;; retM (Fill (begin id))
  | Fill i =>
      if i <? end_of id then store_array i (e_pid e t) ;;; retM (Fill (u64 (i + 1))) else retM HWait
  | HWait => retM HWait
  | Released rv =>
      if barrier_ok rv then store_success id true ;;; retM (Compare (begin (neighbor id)))
      else store_success id false ;;; retM HDone
  | Compare i =>
      if i <? end_of (neighbor id) then
        l <- gets h_array;; x <- get_some OutOfBounds (aget l i);; retM (CompareTo i x)
      else retM HDone
  | CompareTo i x =>
      l <- gets h_pids;; y <- get_some OutOfBounds (aget l (neighbor id));;
      retM (if x =? y then Compare (u64 (i + 1)) else Mismatch)
  | Mismatch => store_success id false ;;; retM HDone
  | HDone => retM HDone
  end.

(** The next step of [application_main], and whether it starts a thread. *)
Definition main_step (p : mpc) : M hmem (mpc * bool) :=
  match p with
  | MStart => retM (if forallb id (e_calls e) then MCreate 0 else MExit 1, false)
  | MCreate i =>
      if i <? num_threads then
        store_arg i i ;;;
        if negb (e_create e (Z.to_nat i) =? 0) then retM (MExit 1, false)
        else store_handle i i ;;; retM (MCreate (i + 1), true)
      else retM (MJoin 0 true, false)
  | MJoin i ok =>
      if i <? num_threads then
        l <- gets h_handles;; h <- get_some OutOfBounds (aget l i);;
        retM (MJoin (i + 1) (if negb (e_join e (Z.to_nat h) =? 0) then false else ok), false)
      else retM (MCheck 0 ok, false)
  | MCheck i ok =>
      if i <? num_threads then
        if ok then
          l <- gets h_success;; b <- get_some OutOfBounds (aget l i);; retM (MCheck (i + 1) b, false)
        else retM (MCheck (i + 1) false, false)
      else retM (MDestroy ok, false)
  | MDestroy ok =>
      let ok := if negb (e_destroy e =? 0) then false else ok in
      retM (MExit (if ok then 0 else 1), false)
  | MExit rv => retM (MExit rv, false)
  end.

(** Joining a thread waits for its end. *)
Definition main_ready (j : hjob) : bool :=
  match h_main j with
  | MJoin i _ =>
      if i <? num_threads then
        match aget (h_handles (h_mem j)) i with
        | Some h =>
            if e_join e (Z.to_nat h) =? 0 then
              match aget (h_threads j) h with Some HDone => true | _ => false end
            else true
        | None => true
        end
      else true
  | MExit _ => false
  | _ => true
  end.

Definition thread_ready (p : hpc) : bool := match p with HWait | HDone => false | _ => true end.
Definition at_barrier (p : hpc) : bool := match p with HWait => true | _ => false end.

(** The barrier gives one thread another result; the xthread layer hides it. *)
Definition wait_result (serial : bool) : Z :=
  match v with HXthread => 0 | _ => if serial then PTHREAD_BARRIER_SERIAL_THREAD else 0 end.
Definition release (serial : nat) (l : list hpc) : list hpc :=
  imap (λ t p, if at_barrier p then Released (wait_result (bool_decide (t = serial))) else p) l.

(** The barrier was initialised with [(unsigned int)num_threads]. *)
Definition barrier_full (l : list hpc) : bool := count_if at_barrier l =? u32 num_threads.

Inductive hstep : hjob → hjob → Prop :=
  | hs_main j p new s :
      main_ready j = true → main_step (h_main j) (h_mem j) = Ok ((p, new), s) →
      hstep j (Hjob p (if new : bool then h_threads j ++ [HStart] else h_threads j) s)
  | hs_thread j t p p' s :
      (∀ rv, h_main j ≠ MExit rv) → h_threads j !! t = Some p → thread_ready p = true →
      thread_hello_step t p (h_mem j) = Ok (p', s) →
      hstep j (Hjob (h_main j) (<[t := p']> (h_threads j)) s)
  | hs_release j serial :
      (∀ rv, h_main j ≠ MExit rv) → barrier_full (h_threads j) = true →
      hstep j (Hjob (h_main j) (release serial (h_threads j)) (h_mem j)).

(** The memory after the allocations. *)
Definition hello_init : option hjob :=
  let elements count size := Z.to_nat <$> array_elements v count size in
  h ← elements num_threads 8;
  g ← elements num_threads (3 * 8 + 4 * match v with HPthread => 8 | _ => 24 end);
  a ← elements array_size 4;
  p ← elements num_threads 4;
  s ← elements num_threads 1;
  Some (Hjob MStart [] (Hmem (replicate a 0) (replicate p 0) (replicate s false) (replicate g 0) (replicate h 0))).
End Code.

Lemma wp_inv {S A} (m : M S A) (Q : A → S → Prop) s r s' : wp m Q s → m s = Ok (r, s') → Q r s'.
Proof. unfold wp. intros H E. by rewrite E in H. Qed.

Lemma wp_store_pid t x (R : unit → hmem → Prop) m :
  0 ≤ t < Z.of_nat (length (h_pids m)) → R tt (m <| h_pids := aset (h_pids m) t x |>) → wp (store_pid t x) R m.
Proof.
  intros [y Hy]%aget_is_Some HR. apply wp_bind, wp_gets, wp_bind. by apply (wp_get_some _ _ y).
Qed.

Lemma wp_store_array i x (R : unit → hmem → Prop) m :
  0 ≤ i < Z.of_nat (length (h_array m)) → R tt (m <| h_array := aset (h_array m) i x |>) → wp (store_array i x) R m.
Proof.
  intros [y Hy]%aget_is_Some HR. apply wp_bind, wp_gets, wp_bind. by apply (wp_get_some _ _ y).
Qed.

Lemma wp_store_success t b (R : unit → hmem → Prop) m :
  0 ≤ t < Z.of_nat (length (h_success m)) → R tt (m <| h_success := aset (h_success m) t b |>) → wp (store_success t b) R m.
Proof.
  intros [y Hy]%aget_is_Some HR. apply wp_bind, wp_gets, wp_bind. by apply (wp_get_some _ _ y).
Qed.

Lemma wp_store_arg i x (R : unit → hmem → Prop) m :
  0 ≤ i < Z.of_nat (length (h_args m)) → R tt (m <| h_args := aset (h_args m) i x |>) → wp (store_arg i x) R m.
Proof.
  intros [y Hy]%aget_is_Some HR. apply wp_bind, wp_gets, wp_bind. by apply (wp_get_some _ _ y).
Qed.

Lemma wp_store_handle i x (R : unit → hmem → Prop) m :
  0 ≤ i < Z.of_nat (length (h_handles m)) → R tt (m <| h_handles := aset (h_handles m) i x |>) → wp (store_handle i x) R m.
Proof.
  intros [y Hy]%aget_is_Some HR. apply wp_bind, wp_gets, wp_bind. by apply (wp_get_some _ _ y).
Qed.

(** ** The invariant *)

Section Runs.
Context (v : version) (n a : Z) (e : henv).
Hypothesis Hn : 0 < n < 2 ^ 32.
Hypothesis Ha : 0 < a < 2 ^ 62.
Hypothesis Hd : a mod n = 0.

(** Every call succeeds. *)
Record all_succeed : Prop := {
  as_calls : forallb id (e_calls e) = true;
  as_create : ∀ t, e_create e t = 0;
  as_join : ∀ t, e_join e t = 0;
  as_destroy : e_destroy e = 0;
  as_resolve : ∀ t, e_resolve e t = true }.
Hypothesis He : all_succeed.

#[local] Abbreviation seg := (segment_size n a).
#[local] Abbreviation nb t := (neighbor n (Z.of_nat t)).

Lemma seg_eq : a = n * seg ∧ 0 < seg.
Proof using Hn Ha Hd.
  unfold segment_size. pose proof (Z.div_mod a n ltac:(lia)) as H. rewrite Hd in H. split; [lia|].
  apply Z.div_str_pos. split; [lia|]. apply Z.mod_divide in Hd as [q Hq]; [|lia]. assert (0 < q) by nia. nia.
Qed.

Lemma begin_eq t : 0 ≤ t < n → begin n a t = t * seg ∧ end_of n a t = (t + 1) * seg ∧ 0 ≤ t * seg ∧ (t + 1) * seg ≤ a.
Proof using Hn Ha Hd.
  intros Ht. destruct seg_eq as [E Hs]. assert (B : 0 ≤ t * seg ∧ (t + 1) * seg ≤ a).
  { split; [lia|]. pose proof (Z.mul_le_mono_nonneg_r (t + 1) n seg ltac:(lia) ltac:(lia)). lia. }
  assert (begin n a t = t * seg) as Eb by (unfold begin; rewrite u64_small; lia).
  unfold end_of. rewrite Eb, u64_small by lia. split_and!; lia.
Qed.

Lemma nb_range t : 0 ≤ nb t < n.
Proof using Hn. unfold neighbor. apply Z.mod_pos_bound. lia. Qed.

(** Two parts of the array do not meet. *)
Lemma segments_apart t t' k : t ≠ t' → t * seg ≤ k < (t + 1) * seg → ¬ t' * seg ≤ k < (t' + 1) * seg.
Proof using Hn Ha Hd.
  intros Ht Hk Hk'. destruct seg_eq as [_ Hs]. destruct (Z.lt_trichotomy t t') as [H|[H|H]]; [|done|].
  - pose proof (Z.mul_le_mono_nonneg_r (t + 1) t' seg ltac:(lia) ltac:(lia)). lia.
  - pose proof (Z.mul_le_mono_nonneg_r (t' + 1) t seg ltac:(lia) ltac:(lia)). lia.
Qed.

(** Thread [t] has written its process id, and its part below [i]. *)
Definition wrote (m : hmem) (t : nat) (i : Z) : Prop :=
  aget (h_pids m) (Z.of_nat t) = Some (e_pid e t) ∧
  ∀ k, Z.of_nat t * seg ≤ k < i → aget (h_array m) k = Some (e_pid e t).

Definition before (m : hmem) (t : nat) (p : hpc) : Prop :=
  match p with
  | HStart => True
  | Fill i => Z.of_nat t * seg ≤ i ≤ (Z.of_nat t + 1) * seg ∧ wrote m t i
  | HWait => wrote m t ((Z.of_nat t + 1) * seg)
  | _ => False
  end.

Definition after (m : hmem) (t : nat) (p : hpc) : Prop :=
  match p with
  | Released rv => barrier_ok v rv = true
  | Compare i => nb t * seg ≤ i ≤ (nb t + 1) * seg ∧ aget (h_success m) (Z.of_nat t) = Some true
  | CompareTo i x =>
      nb t * seg ≤ i < (nb t + 1) * seg ∧ x = e_pid e (Z.to_nat (nb t)) ∧ aget (h_success m) (Z.of_nat t) = Some true
  | HDone => aget (h_success m) (Z.of_nat t) = Some true
  | _ => False
  end.

Record sizes_ok (m : hmem) : Prop := {
  sz_array : Z.of_nat (length (h_array m)) = a;
  sz_pids : Z.of_nat (length (h_pids m)) = n;
  sz_success : Z.of_nat (length (h_success m)) = n;
  sz_args : Z.of_nat (length (h_args m)) = n;
  sz_handles : Z.of_nat (length (h_handles m)) = n }.

(** The first [k] threads have their argument and their handle. *)
Definition args_ok (k : Z) (m : hmem) : Prop :=
  ∀ i, 0 ≤ i < k → aget (h_args m) i = Some i ∧ aget (h_handles m) i = Some i.

Definition threads_ok (rel : bool) (ths : list hpc) (m : hmem) : Prop :=
  if rel then
    Z.of_nat (length ths) = n ∧ (∀ t : nat, Z.of_nat t < n → wrote m t ((Z.of_nat t + 1) * seg)) ∧
    ∀ t p, ths !! t = Some p → after m t p
  else ∀ t p, ths !! t = Some p → before m t p.

Definition ended (ths : list hpc) (i : Z) : Prop :=
  Z.of_nat (length ths) = n ∧ ∀ t : nat, Z.of_nat t < i → ths !! t = Some HDone.

Definition main_ok (p : mpc) (ths : list hpc) : Prop :=
  match p with
  | MStart => ths = []
  | MCreate i => 0 ≤ i ≤ n ∧ Z.of_nat (length ths) = i
  | MJoin i ok => 0 ≤ i ≤ n ∧ ok = true ∧ ended ths i
  | MCheck i ok => 0 ≤ i ≤ n ∧ ok = true ∧ ended ths n
  | MDestroy ok => ok = true ∧ ended ths n
  | MExit rv => rv = 0 ∧ ended ths n
  end.

Record hello_inv (rel : bool) (j : hjob) : Prop := {
  hi_sizes : sizes_ok (h_mem j);
  hi_main : main_ok (h_main j) (h_threads j);
  hi_len : Z.of_nat (length (h_threads j)) ≤ n;
  hi_threads : threads_ok rel (h_threads j) (h_mem j);
  hi_args : args_ok (Z.of_nat (length (h_threads j))) (h_mem j) }.

(** A thread that is not at its end can change its state. *)
Lemma main_ok_insert p ths t q q' :
  ths !! t = Some q → q ≠ HDone → main_ok p ths → main_ok p (<[t := q']> ths).
Proof using Type.
  intros Ht Hq. assert (Hend : ∀ i, ended ths i → ended (<[t := q']> ths) i).
  { intros i [Hl H]. split; [by rewrite length_insert|]. intros u Hu. specialize (H u Hu).
    destruct (decide (u = t)) as [->|]; [congruence|]. by rewrite list_lookup_insert_ne. }
  destruct p; simpl; rewrite ?length_insert; [by intros ->|done|..].
  1, 2: intros (H1 & H2 & H3); exact (conj H1 (conj H2 (Hend _ H3))).
  all: intros (H1 & H2); exact (conj H1 (Hend _ H2)).
Qed.

Lemma before_frame m m' t p :
  aget (h_pids m') (Z.of_nat t) = aget (h_pids m) (Z.of_nat t) →
  (∀ k, Z.of_nat t * seg ≤ k < (Z.of_nat t + 1) * seg → aget (h_array m') k = aget (h_array m) k) →
  before m t p → before m' t p.
Proof using Type.
  intros Hp Hk. destruct p; simpl; try done; unfold wrote; rewrite Hp.
  - intros (Hi & H1 & H2). split_and!; [lia|lia|done|]. intros k ?. rewrite Hk by lia. apply H2. lia.
  - intros (H1 & H2). split; [done|]. intros k ?. rewrite Hk by lia. apply H2. lia.
Qed.

(** ** Steps of a thread *)

Section Step.
Context (mn : mpc) (ths : list hpc) (m : hmem) (t : nat).

Lemma lookup_put (A : nat → hpc → Prop) p p' :
  ths !! t = Some p → A t p' → (∀ u q, u ≠ t → ths !! u = Some q → A u q) →
  ∀ u q, <[t := p']> ths !! u = Some q → A u q.
Proof using Type.
  intros Ht Hp Hq u q Hu. destruct (decide (u = t)) as [->|Hne].
  - rewrite list_lookup_insert_eq in Hu by (by eapply lookup_lt_Some). by injection Hu as <-.
  - rewrite list_lookup_insert_ne in Hu by done. by apply Hq.
Qed.

(** The argument of a thread that was created. *)
Lemma thread_id_eq rel p : hello_inv rel (Hjob mn ths m) → ths !! t = Some p → thread_id t m = Ok (Z.of_nat t, m).
Proof using Type.
  intros Hj Ht. apply lookup_lt_Some in Ht. destruct (hi_args _ _ Hj (Z.of_nat t)) as [E _]; [simpl; lia|].
  unfold thread_id, bindM, gets. simpl in E. by rewrite E.
Qed.

Section Before.
Hypothesis Hj : hello_inv false (Hjob mn ths m).

Lemma t_lt p : ths !! t = Some p → Z.of_nat t < n.
Proof using Hj. intros Ht. apply lookup_lt_Some in Ht. destruct Hj as [_ _ Hl _]. simpl in *. lia. Qed.

Lemma put_before p p' m' :
  ths !! t = Some p → p ≠ HDone → sizes_ok m' → before m' t p' → h_args m' = h_args m → h_handles m' = h_handles m →
  (∀ u : nat, u ≠ t → aget (h_pids m') (Z.of_nat u) = aget (h_pids m) (Z.of_nat u)) →
  (∀ u k : Z, u ≠ Z.of_nat t → u * seg ≤ k < (u + 1) * seg → aget (h_array m') k = aget (h_array m) k) →
  hello_inv false (Hjob mn (<[t := p']> ths) m').
Proof using Hj.
  intros Ht Hne Hs Hb Eg Eh Hp Hk. destruct Hj as [_ Hm Hl Hths Hg]. simpl in *. split; simpl; [done| |by rewrite length_insert|..].
  - by eapply main_ok_insert.
  - apply (lookup_put (before m') p); [done|done|]. intros u q Hu Hq. eapply before_frame; [by apply Hp| |by apply Hths].
    intros k Hkk. apply (Hk (Z.of_nat u)); [lia|done].
  - unfold args_ok. by rewrite length_insert, Eg, Eh.
Qed.

Lemma step_before p :
  ths !! t = Some p → thread_ready p = true →
  wp (thread_hello_step v n a e t p) (λ p' m', hello_inv false (Hjob mn (<[t := p']> ths) m')) m.
Proof using Hn Ha Hd He Hj.
  intros Ht Hready. pose proof (t_lt p Ht) as Hlt. destruct (hi_sizes _ _ Hj) as [Sa Sp Ss Sg Sh].
  pose proof (hi_threads _ _ Hj) as Hths. simpl in *. unfold thread_hello_step.
  apply wp_bind. eapply wp_eq; [by eapply thread_id_eq|].
  destruct (begin_eq (Z.of_nat t) ltac:(lia)) as (Eb & Ee & B1 & B2). specialize (Hths t p Ht).
  destruct p as [|i| | | | | |]; try done.
  - rewrite (as_resolve He). cbn [negb].
    apply wp_bind, wp_store_pid; [lia|]. apply wp_ret. rewrite Eb. apply (put_before _ _ _ Ht); simpl; [done|..].
    + split; simpl; rewrite ?length_aset; done.
    + split; [destruct seg_eq; lia|]. split; [apply aget_aset_eq; simpl; lia|intros; lia].
    + done.
    + done.
    + intros u Hu. apply aget_aset_ne; lia.
    + done.
  - destruct Hths as (Hi & Hp & Hk). rewrite Ee. destruct (Z.ltb_spec i ((Z.of_nat t + 1) * seg)) as [Hlt'|Hge].
    + apply wp_bind, wp_store_array; [lia|]. apply wp_ret. rewrite u64_small by lia. apply (put_before _ _ _ Ht); simpl; [done|..].
      * split; simpl; rewrite ?length_aset; done.
      * split; [lia|]. split; [done|]. intros k ?. simpl. rewrite aget_aset_any by lia.
        destruct (Z.eqb_spec k i); [done|]. apply Hk. lia.
      * done.
      * done.
      * done.
      * intros u k Hu Huk. apply aget_aset_ne; [lia|]. intros ->.
        eapply (segments_apart u (Z.of_nat t)); [done|exact Huk|lia].
    + apply wp_ret. apply (put_before _ _ _ Ht); simpl; try done. split; [done|]. intros k ?. apply Hk. lia.
Qed.
End Before.

Section After.
Hypothesis Hj : hello_inv true (Hjob mn ths m).

(** After the barrier a thread changes its own entry of [thread_success] only. *)
Lemma put_after p p' l :
  ths !! t = Some p → p ≠ HDone → Z.of_nat (length l) = n →
  let m' := m <| h_success := l |> in
  after m' t p' → (∀ u : nat, u ≠ t → aget l (Z.of_nat u) = aget (h_success m) (Z.of_nat u)) →
  hello_inv true (Hjob mn (<[t := p']> ths) m').
Proof using Hj.
  intros Ht Hne Hl m' Hp Hu. destruct Hj as [[Sa Sp Ss Sg Sh] Hm Hle (Hlen & Hw & Hths) Hg]. simpl in *.
  split; simpl; [by split|by eapply main_ok_insert|by rewrite length_insert| |unfold args_ok; by rewrite length_insert].
  split_and!; [by rewrite length_insert|done|].
  apply (lookup_put (after m') p); [done|done|]. intros u q Huq Hq. specialize (Hths u q Hq).
  destruct q; simpl in *; rewrite ?Hu; done.
Qed.

Lemma put_after_same p p' :
  ths !! t = Some p → p ≠ HDone → after m t p' → hello_inv true (Hjob mn (<[t := p']> ths) m).
Proof using Hj.
  intros Ht Hne Hp. pose proof (sz_success _ (hi_sizes _ _ Hj)).
  replace m with (m <| h_success := h_success m |>) by (by destruct m). apply (put_after p); try done.
Qed.

Lemma step_after p :
  ths !! t = Some p → thread_ready p = true →
  wp (thread_hello_step v n a e t p) (λ p' m', hello_inv true (Hjob mn (<[t := p']> ths) m')) m.
Proof using Hn Ha Hd Hj.
  intros Ht Hready. pose proof (nb_range t) as Hnb. destruct (hi_sizes _ _ Hj) as [Sa Sp Ss Sg Sh].
  destruct (hi_threads _ _ Hj) as (Hlen & Hw & Hths). simpl in *. unfold thread_hello_step.
  apply wp_bind. eapply wp_eq; [by eapply thread_id_eq|].
  assert (Hlt : Z.of_nat t < n) by (apply lookup_lt_Some in Ht; lia).
  destruct (begin_eq (nb t) Hnb) as (Eb & Ee & B1 & B2). specialize (Hths t p Ht).
  assert (Hn' : wrote m (Z.to_nat (nb t)) ((nb t + 1) * seg)).
  { pose proof (Hw (Z.to_nat (nb t)) ltac:(lia)) as H. by rewrite Z2Nat.id in H by lia. }
  unfold wrote in Hn'. rewrite Z2Nat.id in Hn' by lia. destruct Hn' as [Wp Wa]. destruct seg_eq as [_ Hseg].
  destruct p as [| | |rv|i|i x| |]; try done; simpl in Hths.
  - rewrite Hths. apply wp_bind, wp_store_success; [lia|]. apply wp_ret. rewrite Eb.
    apply (put_after _ _ _ Ht); simpl; [done|by rewrite length_aset| |].
    + split; [lia|]. apply aget_aset_eq. lia.
    + intros u ?. apply aget_aset_ne; lia.
  - destruct Hths as [Hi Hs]. rewrite Ee. destruct (Z.ltb_spec i ((nb t + 1) * seg)) as [Hlt'|Hge].
    + apply wp_bind, wp_gets, wp_bind. apply (wp_get_some _ _ _ _ _ (Wa i ltac:(lia))). apply wp_ret.
      apply (put_after_same _ _ Ht); [done|]. simpl. split_and!; [lia|lia|done|done].
    + apply wp_ret, (put_after_same _ _ Ht); done.
  - destruct Hths as (Hi & -> & Hs). apply wp_bind, wp_gets, wp_bind. apply (wp_get_some _ _ _ _ _ Wp).
    apply wp_ret. rewrite Z.eqb_refl, u64_small by lia. apply (put_after_same _ _ Ht); [done|]. simpl. split; [lia|done].
Qed.
End After.
End Step.

Lemma hello_thread_step rel mn ths m t p :
  hello_inv rel (Hjob mn ths m) → ths !! t = Some p → thread_ready p = true →
  wp (thread_hello_step v n a e t p) (λ p' m', hello_inv rel (Hjob mn (<[t := p']> ths) m')) m.
Proof using Hn Ha Hd He. intros. destruct rel; [by apply step_after|by apply step_before]. Qed.

(** ** Steps of [application_main] *)

(** When all threads have ended, they are behind the barrier. *)
Lemma ended_success rel mn ths m :
  hello_inv rel (Hjob mn ths m) → ended ths n → ∀ i, 0 ≤ i < n → aget (h_success m) i = Some true.
Proof using Type.
  intros [_ _ _ Hths _] [Hl He'] i Hi. specialize (He' (Z.to_nat i) ltac:(lia)). simpl in *. destruct rel.
  - destruct Hths as (_ & _ & H). specialize (H _ _ He'). simpl in H. by rewrite Z2Nat.id in H by lia.
  - specialize (Hths _ _ He'). done.
Qed.

Lemma main_put rel mn mn' ths m :
  hello_inv rel (Hjob mn ths m) → main_ok mn' ths → hello_inv rel (Hjob mn' ths m).
Proof using Type. intros [? ? ? ? ?] ?. by split. Qed.

Lemma main_spawn rel i ths m :
  hello_inv rel (Hjob (MCreate i) ths m) → i < n →
  hello_inv rel (Hjob (MCreate (i + 1)) (ths ++ [HStart])
    (m <| h_args := aset (h_args m) i i |> <| h_handles := aset (h_handles m) i i |>)).
Proof using Type.
  intros [[Sa Sp Ss Sg Sh] [Hi Hl] _ Hths Hg] Hlt. simpl in *. split; simpl; rewrite ?length_app; simpl; [|lia|lia|..].
  - split; simpl; by rewrite ?length_aset.
  - destruct rel; [destruct Hths; lia|]. intros t p Hp. apply lookup_app_Some in Hp as [Hp|[_ Hp]].
    + eapply before_frame; [..|by apply Hths]; done.
    + by apply list_lookup_singleton_Some in Hp as [_ <-].
  - intros k Hk. simpl. rewrite !aget_aset_any by lia. destruct (Z.eqb_spec k i) as [->|]; [done|]. apply Hg. lia.
Qed.

Lemma main_step_ok rel mn ths m :
  hello_inv rel (Hjob mn ths m) → main_ready n e (Hjob mn ths m) = true →
  wp (main_step n e mn) (λ '(p, new) m', hello_inv rel (Hjob p (if new : bool then ths ++ [HStart] else ths) m')) m.
Proof using Hn He.
  intros Hj Hr. pose proof (hi_main _ _ Hj) as Hm. destruct mn as [|i|i ok|i ok|ok|rv]; simpl in Hm; unfold main_step.
  - rewrite (as_calls He). apply wp_ret, (main_put _ _ _ _ _ Hj). subst ths. simpl. lia.
  - destruct (Z.ltb_spec i n) as [Hlt|].
    + destruct (hi_sizes _ _ Hj) as [_ _ _ Sg Sh]. simpl in Sg, Sh.
      apply wp_bind, wp_store_arg; [lia|]. rewrite (as_create He). apply wp_bind, wp_store_handle; [simpl; lia|].
      apply wp_ret. exact (main_spawn rel i ths m Hj Hlt).
    + apply wp_ret, (main_put _ _ _ _ _ Hj). split_and!; [lia|lia|done|split; [lia|intros; lia]].
  - destruct Hm as (Hi & -> & Hl & Hend). unfold main_ready in Hr. simpl in Hr.
    destruct (Z.ltb_spec i n) as [Hlt|].
    2: { apply wp_ret, (main_put _ _ _ _ _ Hj); split_and!; [lia|lia|done|split; [done|]]. intros t Ht. apply Hend. lia. }
    destruct (hi_args _ _ Hj i) as [_ Eh]; [simpl; lia|]. simpl in Eh. rewrite Eh, (as_join He) in Hr.
    apply wp_bind, wp_gets, wp_bind. apply (wp_get_some _ _ _ _ _ Eh). rewrite (as_join He).
    apply wp_ret, (main_put _ _ _ _ _ Hj); split_and!; [lia|lia|done|split; [done|]].
    + intros t Ht. simpl in Hr. destruct (decide (Z.of_nat t = i)) as [<-|]; [|apply Hend; lia].
      rewrite aget_nat in Hr. destruct (ths !! t) as [[]|]; done.
  - destruct Hm as (Hi & -> & Hend). destruct (Z.ltb_spec i n) as [Hlt|].
    + apply wp_bind, wp_gets, wp_bind. apply (wp_get_some _ _ true); [apply (ended_success _ _ _ _ Hj Hend); lia|].
      apply wp_ret, (main_put _ _ _ _ _ Hj). simpl. split_and!; [lia|lia|done|done].
    + by apply wp_ret, (main_put _ _ _ _ _ Hj).
  - destruct Hm as (-> & Hend). rewrite (as_destroy He). by apply wp_ret, (main_put _ _ _ _ _ Hj).
  - done.
Qed.

(** ** The barrier *)

Lemma barrier_all ths :
  Z.of_nat (length ths) ≤ n → barrier_full n ths = true →
  Z.of_nat (length ths) = n ∧ ∀ t p, ths !! t = Some p → p = HWait.
Proof using Hn.
  unfold barrier_full. rewrite u32_small by lia. intros Hl Hc%Z.eqb_eq. pose proof (count_if_bounds at_barrier ths).
  split; [lia|]. intros t p Ht. destruct (at_barrier p) eqn:E; [by destruct p|].
  pose proof (count_if_insert at_barrier ths t p HWait Ht) as Hi. rewrite E in Hi. simpl in Hi.
  pose proof (count_if_bounds at_barrier (<[t := HWait]> ths)) as Hb. rewrite length_insert in Hb. lia.
Qed.

Lemma release_lookup serial ths t p :
  release v serial ths !! t = Some p →
  ∃ q, ths !! t = Some q ∧ p = if at_barrier q then Released (wait_result v (bool_decide (t = serial))) else q.
Proof using Type. unfold release. rewrite list_lookup_imap. intros (q & Hq & ->)%fmap_Some. by exists q. Qed.

Lemma wait_result_ok b : barrier_ok v (wait_result v b) = true.
Proof using Type. by destruct v, b. Qed.

Lemma release_inv rel mn ths m serial :
  hello_inv rel (Hjob mn ths m) → barrier_full n ths = true → hello_inv true (Hjob mn (release v serial ths) m).
Proof using Hn.
  intros [Hs Hm Hl Hths Hg] Hfull. destruct (barrier_all ths Hl Hfull) as [Hlen Hw]. simpl in *.
  assert (Hl' : length (release v serial ths) = length ths) by apply length_imap.
  assert (Hall : ∀ t : nat, Z.of_nat t < n → ths !! t = Some HWait).
  { intros t Ht. destruct (lookup_lt_is_Some_2 ths t) as [p Hp]; [lia|]. rewrite Hp. f_equal. by eapply Hw. }
  assert (rel = false) as ->.
  { destruct rel; [|done]. destruct Hths as (_ & _ & H). exfalso. by apply (H 0%nat HWait), Hall; lia. }
  split; simpl; [done| |by rewrite Hl'| |unfold args_ok; by rewrite Hl'].
  - assert (Hno : ∀ i, ended ths i → ended (release v serial ths) i).
    { intros i [_ He']. split; [by rewrite Hl'|]. intros t Ht. specialize (He' t Ht). by specialize (Hw _ _ He'). }
    destruct mn; simpl in *; rewrite ?Hl'; [by subst ths|done|..].
    1, 2: destruct Hm as (H1 & H2 & H3); exact (conj H1 (conj H2 (Hno _ H3))).
    all: destruct Hm as (H1 & H2); exact (conj H1 (Hno _ H2)).
  - split_and!; [by rewrite Hl'| |].
    + intros t Ht. apply (Hths t HWait), Hall, Ht.
    + intros t p (q & Hq & ->)%release_lookup. rewrite (Hw _ _ Hq). apply wait_result_ok.
Qed.

(** ** Runs *)

Lemma hstep_inv rel j j' : hello_inv rel j → hstep v n a e j j' → ∃ rel', hello_inv rel' j'.
Proof using Hn Ha Hd He.
  intros Hj Hstep. destruct Hstep as [[mn ths m] p new s Hr E|[mn ths m] t p p' s _ Ht Hr E|[mn ths m] serial _ Hf].
  - exists rel. exact (wp_inv _ _ _ _ _ (main_step_ok _ _ _ _ Hj Hr) E).
  - exists rel. exact (wp_inv _ _ _ _ _ (hello_thread_step _ _ _ _ _ _ Hj Ht Hr) E).
  - exists true. by eapply release_inv.
Qed.

(** A thread that waits neither at the barrier nor for its end can go on. *)
Lemma thread_goes rel mn ths m t p :
  hello_inv rel (Hjob mn ths m) → (∀ rv, mn ≠ MExit rv) → ths !! t = Some p → thread_ready p = true →
  ∃ j', hstep v n a e (Hjob mn ths m) j'.
Proof using Hn Ha Hd He.
  intros Hj Hmn Ht Hr. destruct (proj1 (wp_ok _ _ _) (hello_thread_step _ _ _ _ _ _ Hj Ht Hr)) as (p' & m' & E & _).
  eexists. by eapply hs_thread.
Qed.

Lemma hello_progress rel j :
  hello_inv rel j → (∃ rv, h_main j = MExit rv) ∨ ∃ j', hstep v n a e j j'.
Proof using Hn Ha Hd He.
  intros Hj. destruct j as [mn ths m]. destruct (main_ready n e (Hjob mn ths m)) eqn:Er.
  - right. destruct (proj1 (wp_ok _ _ _) (main_step_ok _ _ _ _ Hj Er)) as ([p new] & m' & E & _). eexists. by eapply hs_main.
  - unfold main_ready in Er. destruct mn as [| |i ok| | |rv]; simpl in *; try done; [|left; by exists rv]. right.
    destruct (Z.ltb_spec i n) as [Hi|]; [|done].
    destruct (hi_main _ _ Hj) as (Hi0 & _ & Hlen & _). simpl in *.
    destruct (hi_args _ _ Hj i) as [_ Eh]; [simpl; lia|]. simpl in Eh. rewrite Eh, (as_join He) in Er. simpl in Er.
    assert (Hmn : ∀ rv, MJoin i ok ≠ MExit rv) by done.
    destruct (aget_is_Some ths i ltac:(lia)) as [p Hp]. rewrite Hp in Er.
    rewrite <- (Z2Nat.id i), aget_nat in Hp by lia.
    destruct (thread_ready p) eqn:Ep; [by eapply thread_goes|]. destruct p; try done. clear Ep Er.
    destruct (decide (Forall (λ q, at_barrier q = true) ths)) as [Hall|Hnot].
    + eexists. apply (hs_release _ _ _ _ _ 0%nat); [done|]. unfold barrier_full. simpl.
      rewrite u32_small by lia. apply Z.eqb_eq. rewrite <- Hlen. clear -Hall.
      induction Hall as [|q l Hq _ IH]; [done|]. simpl. rewrite Hq, IH. lia.
    + apply not_Forall_Exists, Exists_exists in Hnot as (q & [t Hq]%list_elem_of_lookup & Hnb); [|apply _].
      eapply (thread_goes _ _ _ _ t q); [done|done|done|]. destruct q; try done; [by destruct Hnb|]. exfalso.
      pose proof (hi_threads _ _ Hj) as Hths. simpl in Hths. destruct rel.
      * destruct Hths as (_ & _ & H). by specialize (H _ _ Hp).
      * by specialize (Hths _ _ Hq).
Qed.

(** ** Every run ends *)

Definition thread_rank (p : hpc) : Z :=
  match p with
  | HStart => 3 * a + 6
  | Fill i => (a - i) + 2 * a + 5
  | HWait => 2 * a + 4
  | Released _ => 2 * a + 3
  | Compare i => 2 * (a - i) + 2
  | CompareTo i _ => 2 * (a - i) + 1
  | Mismatch => 1
  | HDone => 0
  end.

Definition main_rank (p : mpc) : Z :=
  match p with
  | MStart => n * (3 * a + 7) + 2 * n + 5
  | MCreate i => (n - i) * (3 * a + 7) + 2 * n + 4
  | MJoin i _ => (n - i) + n + 3
  | MCheck i _ => (n - i) + 2
  | MDestroy _ => 1
  | MExit _ => 0
  end.

Definition ranks (ths : list hpc) : Z := foldr (λ p r, thread_rank p + r) 0 ths.
Definition job_rank (j : hjob) : Z := main_rank (h_main j) + ranks (h_threads j).

Lemma hello_ranks_insert ths t p p' :
  ths !! t = Some p → ranks (<[t := p']> ths) = ranks ths - thread_rank p + thread_rank p'.
Proof using Type.
  revert t. induction ths as [|x ths IH]; intros [|t] H; simpl in *; [done..| |].
  - injection H as ->. lia.
  - rewrite IH by done. lia.
Qed.

Lemma ranks_snoc ths p : ranks (ths ++ [p]) = ranks ths + thread_rank p.
Proof using Type. induction ths as [|x ths IH]; simpl; [lia|]. rewrite IH. lia. Qed.

Lemma thread_rank_nonneg rel mn ths m t p :
  hello_inv rel (Hjob mn ths m) → ths !! t = Some p → 0 ≤ thread_rank p.
Proof using Hn Ha Hd.
  intros Hj Hp. assert (Hlt : Z.of_nat t < n).
  { pose proof (hi_len _ _ Hj). apply lookup_lt_Some in Hp. simpl in *. lia. }
  destruct (begin_eq (Z.of_nat t) ltac:(lia)) as (_ & _ & _ & B). destruct (begin_eq (nb t) (nb_range t)) as (_ & _ & _ & B').
  pose proof (hi_threads _ _ Hj) as Hths. simpl in Hths. destruct rel; [destruct Hths as (_ & _ & Hths)|];
    specialize (Hths t p Hp); destruct p; simpl in *; try done; lia.
Qed.

Lemma job_rank_nonneg rel j : hello_inv rel j → 0 ≤ job_rank j.
Proof using Hn Ha Hd.
  intros Hj. destruct j as [mn ths m]. unfold job_rank. simpl. assert (0 ≤ main_rank mn).
  { pose proof (hi_main _ _ Hj) as Hm. destruct mn as [|i|i ok|i ok|ok|rv]; simpl in *; try lia; try nia. }
  assert (G : ∀ l, (∀ t p, l !! t = Some p → 0 ≤ thread_rank p) → 0 ≤ ranks l).
  { induction l as [|x l IH]; intros Hl; simpl; [lia|]. pose proof (Hl 0%nat x eq_refl).
    assert (0 ≤ ranks l) by (apply IH; intros t p; apply (Hl (S t))). lia. }
  pose proof (G ths (λ t p, thread_rank_nonneg _ _ _ _ t p Hj)). lia.
Qed.

Lemma thread_rank_step rel mn ths m t p p' s :
  hello_inv rel (Hjob mn ths m) → ths !! t = Some p → thread_ready p = true →
  thread_hello_step v n a e t p m = Ok (p', s) → thread_rank p' < thread_rank p.
Proof using Hn Ha Hd He.
  intros Hj Hp Hr E. assert (Hlt : Z.of_nat t < n).
  { pose proof (hi_len _ _ Hj). apply lookup_lt_Some in Hp. simpl in *. lia. }
  pose proof (nb_range t) as Hnb.
  destruct (begin_eq (Z.of_nat t) ltac:(lia)) as (Eb & Ee & B0 & B). destruct (begin_eq (nb t) Hnb) as (Eb' & Ee' & B0' & B').
  pose proof (hi_threads _ _ Hj) as Hths. simpl in Hths.
  unfold thread_hello_step in E. erewrite bind_ok in E by (by eapply thread_id_eq).
  destruct p as [|i| |rv|i|i x| |]; try done.
  - rewrite (as_resolve He) in E. simpl in E. unfold bindM in E. destruct (store_pid _ _ m) as [[[] m']|]; [|done].
    injection E as <- <-. rewrite Eb. simpl. lia.
  - destruct rel; [destruct Hths as (_ & _ & Hths); by specialize (Hths _ _ Hp)|]. destruct (Hths _ _ Hp) as (Hi & _).
    rewrite Ee in E. destruct (Z.ltb_spec i ((Z.of_nat t + 1) * seg)).
    + unfold bindM in E. destruct (store_array _ _ m) as [[[] m']|]; [|done]. injection E as <- <-.
      rewrite u64_small by lia. simpl. lia.
    + injection E as <- <-. simpl. lia.
  - destruct (barrier_ok v rv); unfold bindM in E; destruct (store_success _ _ m) as [[[] m']|]; try done;
      injection E as <- <-; rewrite ?Eb'; simpl; lia.
  - destruct rel; [destruct Hths as (_ & _ & Hths)|by specialize (Hths _ _ Hp)]. destruct (Hths _ _ Hp) as (Hi & _).
    rewrite Ee' in E. destruct (Z.ltb_spec i ((nb t + 1) * seg)).
    + unfold bindM, gets in E. destruct (aget (h_array m) i); [|done]. injection E as <- <-. simpl. lia.
    + injection E as <- <-. simpl. lia.
  - destruct rel; [destruct Hths as (_ & _ & Hths)|by specialize (Hths _ _ Hp)]. destruct (Hths _ _ Hp) as (Hi & _).
    unfold bindM, gets in E. destruct (aget (h_pids m) (nb t)); [|done]. simpl in E. injection E as <- <-.
    rewrite u64_small by lia. destruct (_ =? _); simpl; lia.
  - unfold bindM in E; destruct (store_success _ _ m) as [[[] m']|]; try done. injection E as <- <-. simpl. lia.
Qed.

Lemma main_rank_step rel mn ths m p new s :
  hello_inv rel (Hjob mn ths m) → main_ready n e (Hjob mn ths m) = true →
  main_step n e mn m = Ok ((p, new), s) →
  main_rank p + (if new : bool then 3 * a + 6 else 0) < main_rank mn.
Proof using Hn Ha He.
  intros Hj Hr E. pose proof (hi_main _ _ Hj) as Hm. simpl in Hm.
  destruct mn as [|i|i ok|i ok|ok|rv]; unfold main_step in E.
  - rewrite (as_calls He) in E. injection E as <- <- <-. simpl. lia.
  - destruct Hm as [Hi _]. destruct (Z.ltb_spec i n).
    + unfold bindM at 1 in E. destruct (store_arg i i m) as [[[] m1]|]; [|done]. rewrite (as_create He) in E.
      cbn [negb Z.eqb] in E. unfold bindM in E. destruct (store_handle i i m1) as [[[] m2]|]; [|done].
      injection E as <- <- <-. simpl. replace ((n - i) * (3 * a + 7)) with ((n - (i + 1)) * (3 * a + 7) + (3 * a + 7)) by ring. lia.
    + injection E as <- <- <-. simpl. replace (n - i) with 0 by lia. lia.
  - destruct Hm as [Hi _]. destruct (Z.ltb_spec i n).
    + unfold bindM, gets in E. destruct (aget (h_handles m) i); [|done]. injection E as <- <- <-. simpl. lia.
    + injection E as <- <- <-. simpl. lia.
  - destruct Hm as [Hi _]. destruct (Z.ltb_spec i n); [destruct ok|].
    + unfold bindM, gets in E. destruct (aget (h_success m) i); [|done]. injection E as <- <- <-. simpl. lia.
    + injection E as <- <- <-. simpl. lia.
    + injection E as <- <- <-. simpl. lia.
  - injection E as <- <- <-. simpl. lia.
  - done.
Qed.

Lemma release_ranks serial ths :
  (∀ t p, ths !! t = Some p → p = HWait) → ths ≠ [] → ranks (release v serial ths) < ranks ths.
Proof using Type.
  unfold release. assert (G : ∀ l f, (∀ p, p ∈ l → p = HWait) →
    (∀ t, thread_rank (f t HWait) = 2 * a + 3) → ranks (imap f l) = ranks l - Z.of_nat (length l)).
  { induction l as [|x l IH]; intros f Hl Hf; [done|]. rewrite imap_cons. cbn [ranks foldr length].
    change (foldr _ 0 (imap (f ∘ S) l)) with (ranks (imap (f ∘ S) l)). change (foldr _ 0 l) with (ranks l).
    rewrite IH; [|intros p Hp; apply Hl; by right|intros t; apply (Hf (S t))].
    rewrite (Hl x) by left. rewrite Hf. simpl. lia. }
  intros Hw Hne. rewrite G.
  - destruct ths; [done|]. simpl. lia.
  - intros p [t Ht]%list_elem_of_lookup. by eapply Hw.
  - done.
Qed.

Lemma hstep_rank rel j j' : hello_inv rel j → hstep v n a e j j' → job_rank j' < job_rank j.
Proof using Hn Ha Hd He.
  intros Hj Hstep. unfold job_rank.
  destruct Hstep as [[mn ths m] p new s Hr E|[mn ths m] t p p' s _ Ht Hr E|[mn ths m] serial _ Hf]; simpl in *.
  - pose proof (main_rank_step _ _ _ _ _ _ _ Hj Hr E). destruct new; [rewrite ranks_snoc; simpl|]; lia.
  - rewrite (hello_ranks_insert _ _ _ _ Ht). pose proof (thread_rank_step _ _ _ _ _ _ _ _ Hj Ht Hr E). lia.
  - destruct (barrier_all ths (hi_len _ _ Hj) Hf) as [Hlen Hw].
    pose proof (release_ranks serial ths Hw). destruct ths; [simpl in Hlen; lia|].
    assert (ranks (release v serial (h :: ths)) < ranks (h :: ths)) by auto. lia.
Qed.

Definition hello_steps : Z := n * (3 * a + 9) + 5.

Lemma hello_init_eq :
  hello_init v n a =
    Some (Hjob MStart [] (Hmem (replicate (Z.to_nat a) 0) (replicate (Z.to_nat n) 0) (replicate (Z.to_nat n) false)
      (replicate (Z.to_nat n) 0) (replicate (Z.to_nat n) 0))).
Proof using Hn Ha.
  assert (El : ∀ c s, 0 ≤ c → 0 < s → c * s < 2 ^ 64 → array_elements v c s = Some c).
  { intros c s Hc Hs Hcs. unfold array_elements. destruct v.
    - rewrite u64_small by lia. by rewrite Z.div_mul by lia.
    - destruct (Z.leb_spec (2 ^ 64) (c * s)); [lia|done].
    - destruct (Z.leb_spec (2 ^ 64) (c * s)); [lia|done]. }
  unfold hello_init. assert (0 < 3 * 8 + 4 * (match v with HPthread => 8 | _ => 24 end) ≤ 120) by (destruct v; lia).
  by rewrite !El by nia.
Qed.

Lemma hello_init_inv j : hello_init v n a = Some j → hello_inv false j ∧ job_rank j = hello_steps.
Proof using Hn Ha.
  rewrite hello_init_eq. intros [= <-]. split.
  - split; simpl; [|done|lia|done|intros i Hi; simpl in Hi; lia]. split; simpl; rewrite length_replicate; lia.
  - unfold job_rank, hello_steps. simpl. lia.
Qed.

Lemma run_inv k j0 j :
  hello_init v n a = Some j0 → nsteps (hstep v n a e) k j0 j →
  ∃ rel, hello_inv rel j ∧ Z.of_nat k + job_rank j ≤ hello_steps.
Proof using Hn Ha Hd He.
  assert (G : ∀ k x y, nsteps (hstep v n a e) k x y → ∀ rel, hello_inv rel x →
            ∃ rel', hello_inv rel' y ∧ Z.of_nat k + job_rank y ≤ job_rank x).
  { induction 1 as [x|k' x y z Hxy _ IH]; intros rel Hx; [exists rel; split; [done|lia]|].
    destruct (hstep_inv _ _ _ Hx Hxy) as [rel1 Hy]. pose proof (hstep_rank _ _ _ Hx Hxy).
    destruct (IH _ Hy) as (rel2 & Hz & Hk). exists rel2. split; [done|lia]. }
  intros [Hi Er]%hello_init_inv Hk. rewrite <- Er. by eapply G.
Qed.

(** A component that may run does not fault. *)
Definition no_fault (j : hjob) : Prop :=
  (main_ready n e j = true → ∀ f, main_step n e (h_main j) (h_mem j) ≠ Crash f) ∧
  ∀ t p f, h_threads j !! t = Some p → thread_ready p = true → thread_hello_step v n a e t p (h_mem j) ≠ Crash f.

Lemma inv_no_fault rel j : hello_inv rel j → no_fault j.
Proof using Hn Ha Hd He.
  intros Hj. destruct j as [mn ths m]. split; simpl.
  - intros Hr f E. pose proof (main_step_ok _ _ _ _ Hj Hr) as H. unfold wp in H. by rewrite E in H.
  - intros t p f Ht Hr E. pose proof (hello_thread_step _ _ _ _ _ _ Hj Ht Hr) as H. unfold wp in H. by rewrite E in H.
Qed.
End Runs.

(** C40.  The hello programs on dthreads, xthreads and pthreads, when the calls
    of the thread library and of the allocator succeed: for every command line
    they accept whose array has a size in bytes that is a [size_t] (for the
    others see [large_array_faults]), and in every order in which
    [application_main] and the threads may run, no access is out of bounds, the
    number of steps is bounded, and the program can always go on until it has
    ended with [SUCCESS] (exit value 0). *)
Theorem hello_succeeds v args n a e
    (Hargs : hello_args v args = Some (n, a)) (Hfit : 4 * a < 2 ^ 64) (Hcalls : all_succeed e) :
  ∃ j0, hello_init v n a = Some j0 ∧
  ∀ k j, nsteps (hstep v n a e) k j0 j →
    Z.of_nat k ≤ hello_steps n a ∧ no_fault v n a e j ∧
    (∀ rv, h_main j = MExit rv → rv = 0) ∧ (h_main j = MExit 0 ∨ ∃ j', hstep v n a e j j').
Proof.
  apply hello_args_bounds in Hargs as (Hn & Ha & Hd). unfold UINT_MAX, ULONG_MAX in *.
  assert (Hn' : 0 < n < 2 ^ 32) by lia. assert (Ha' : 0 < a < 2 ^ 62) by lia.
  eexists. split; [by apply hello_init_eq|]. intros k j Hk. assert (E0 := hello_init_eq v n a Hn' Ha').
  destruct (run_inv v n a e Hn' Ha' Hd Hcalls k _ j E0 Hk) as (rel & Hj & Hle).
  pose proof (job_rank_nonneg v n a e Hn' Ha' Hd rel j Hj).
  assert (Hexit : ∀ rv, h_main j = MExit rv → rv = 0).
  { intros rv E. pose proof (hi_main _ _ _ _ _ _ Hj) as Hm. rewrite E in Hm. apply Hm. }
  split_and!; [lia|exact (inv_no_fault v n a e Hn' Ha' Hd Hcalls rel j Hj)|done|].
  destruct (hello_progress v n a e Hn' Ha' Hd Hcalls rel j Hj) as [[rv E]|Hs]; [left|by right].
  by rewrite (Hexit rv E) in E.
Qed.

Definition demo_env : henv := Henv [true; true] (λ _, 0) (λ _, 0) 0 (λ _, true) (λ t, 100 + Z.of_nat t).

(** Two threads with two elements each. *)
Lemma hello_succeeds_witness :
  ∃ j0, hello_init HDthread 2 4 = Some j0 ∧
  ∀ k j, nsteps (hstep HDthread 2 4 demo_env) k j0 j →
    Z.of_nat k ≤ hello_steps 2 4 ∧ no_fault HDthread 2 4 demo_env j ∧
    (∀ rv, h_main j = MExit rv → rv = 0) ∧ (h_main j = MExit 0 ∨ ∃ j', hstep HDthread 2 4 demo_env j j').
Proof.
  exact (hello_succeeds HDthread [string_bytes "--numthreads"; string_bytes "2"; string_bytes "--arraysize=4"] 2 4 demo_env
    eq_refl ltac:(lia) (Build_all_succeed demo_env eq_refl (λ _, eq_refl) (λ _, eq_refl) eq_refl (λ _, eq_refl))).
Defined.

(** [shared_calloc] of [hello_dthread.c] multiplies without a check: for an
    array of 2^62 elements, which the options allow, it asks for no bytes, and
    the first store of a thread is outside of the memory. *)
Lemma large_array_faults :
  hello_args HDthread [string_bytes "--numthreads"; string_bytes "1"; string_bytes "--arraysize"; ulong (2 ^ 62)]
    = Some (1, 2 ^ 62) ∧
  ∃ j0, hello_init HDthread 1 (2 ^ 62) = Some j0 ∧
    thread_hello_step HDthread 1 (2 ^ 62) demo_env 0 (Fill 0) (h_mem j0) = Crash OutOfBounds.
Proof. split; [vm_compute; reflexivity|]. eexists. split; [vm_compute; reflexivity|]. vm_compute. reflexivity. Qed.
