(* ===== verification/TestMal.v ===== *)
(** * The allocator tests

    [app_main] of [testin/t-mal-break.c] and of [testin/t-mal-bsd.c], run on the
    allocators: programs that use the public calls from one rank, and from
    threads on other ranks which have the segment mapped elsewhere.  The test
    of the break allocator passes on every job whose first segment has room,
    wherever the ranks have it mapped and wherever the threads run. *)

From S2P Require Import Prelude Types ShmRef SegOps ShmAlloc BreakMalloc BsdMalloc ShmOps.

(** ** Ranks *)

(** The shared state, and each rank's mappings and default arena; those two
    parts of [y_sst] are not used. *)
Record msys := Msys {
  y_sst : sst;
  y_ranks : list (list dthread_shmmap_t * option dthread_shmref_t) }.

Definition view (y : msys) (sm : list dthread_shmmap_t) (d : option dthread_shmref_t) : sst :=
  (y_sst y) <| shmmap := sm |> <| defarena := d |>.

(** [act] on rank [i]. *)
Definition on {A} (i : nat) (act : M sst A) : M msys A := λ y,
  match y_ranks y !! i with
  | None => Crash OutOfBounds
  | Some (sm, d) =>
      match act (view y sm d) with
      | Ok (r, s) => Ok (r, Msys s (<[i := (sm, defarena s)]> (y_ranks y)))
      | Crash f => Crash f
      end
  end.

Section Tests.
Context (shm_dbg : bool) (pagesize : Z) (fuel : nat).
(** The rank thread [k] of the test runs on, the results of creating and joining
    it, the parts of a return value that nobody wrote, and what [&ar] and the
    other references hold before they are written. *)
Context (target : nat → nat) (create_rv join_rv : nat → Z) (junk_len : Z) (junk_inline : list Z) (junk : dthread_shmref_t).

#[local] Abbreviation new_arena := (dthread_shm_new_arena [] shm_dbg pagesize fuel).
#[local] Abbreviation malloc := (dthread_shm_malloc [] shm_dbg pagesize fuel).
#[local] Abbreviation free := (dthread_shm_free [] shm_dbg pagesize fuel).
#[local] Abbreviation free_ref := (dthread_shm_free_ref [] shm_dbg pagesize fuel).
#[local] Abbreviation realloc := (dthread_shm_realloc [] shm_dbg pagesize fuel).

(** One more for [errcnt]. *)
Definition count (b : bool) : Z := if b then 1 else 0.

(** [errcnt] as the exit value. *)
Definition exit_of (errcnt : Z) : Z := if errcnt =? 0 then 0 else 1.

(** [rem_alloc], with the return value as it is on the stack at the start. *)
Definition rem_alloc : M sst dthread_argret_t :=
  r <- malloc None 128 (Some junk);;
  (if negb (r.1 =? 0) then free_ref None r.2 else retM tt) ;;;
  retM (Argret DTHREAD_INLINE junk_len (UInline (aset junk_inline 0 (if r.1 =? 0 then 0 else 1)))).

(** [dthread_ncreate] and [dthread_njoin]: the error, or what the thread
    returned; the two lines do nothing while the thread runs. *)
Definition run_thread (k : nat) : M msys (Z + dthread_argret_t) :=
  if negb (create_rv k =? 0) then retM (inl (create_rv k))
  else
    ret <- on (target k) rem_alloc;;
    if negb (join_rv k =? 0) then retM (inl (join_rv k)) else retM (inr ret).

(** The check of the thread's return value. *)
Definition bad_return (before : bool) (tret : dthread_argret_t) : bool :=
  negb (dt_argret_type tret =? DTHREAD_INLINE)
  || match dt_u tret with
     | UInline l =>
         match aget l 0 with
         | Some x => if before then negb (x =? 0) else x =? 0
         | None => true
         end
     | UShm _ => true
     end.

(** The second half of [app_main]: allocations in the default arena, all freed,
    and made again. *)
Definition break_layout (errcnt : Z) (pr0 : option dthread_shmref_t) : M msys Z :=
  r <- on 0 (malloc None 1 pr0);; let '(p0, pr0) := r in
  sm <- on 0 (gets shmmap);;
  let errcnt := errcnt + count (p0 =? 0) + count (negb (dthread_shmref2ptr sm pr0 0 =? p0)) in
  r <- on 0 (malloc None 128 (Some junk));; let '(p1, pr1) := r in
  let errcnt := errcnt + count (p1 =? 0) + count (negb (p0 + 16 + 16 =? p1)) in
  r <- on 0 (malloc None 1 (Some junk));; let '(p2, pr2) := r in
  let errcnt := errcnt + count (p0 =? 0) + count (negb (p1 + 128 + 16 =? p2)) in
  on 0 (free None p1) ;;;
  on 0 (free_ref None pr0) ;;;
  on 0 (free None p2) ;;;
  q0 <- on 0 (malloc None 1 None);;
  q1 <- on 0 (malloc None 128 None);;
  q2 <- on 0 (malloc None 1 None);;
  retM (exit_of (errcnt + count (negb (p0 =? q0.1) || negb (p1 =? q1.1) || negb (p2 =? q2.1)))).

(** [app_main] of [t-mal-break.c]. *)
Definition app_main_break : M msys Z :=
  r <- on 0 (new_arena 0 "nope" 8192 (Some junk));;
  let errcnt := count (negb (r.1 =? ENOENT)) in
  r <- on 0 (new_arena 0 "break" 100 r.2);;
  let errcnt := errcnt + count (negb (r.1 =? EINVAL)) in
  r <- on 0 (new_arena 0 "break" 0 r.2);;
  if negb (r.1 =? 0) then retM (exit_of (errcnt + 1))
  else
    ar <- get_some NullDeref r.2;;
    sm <- on 0 (gets shmmap);;
    let vp := dthread_shmref2ptr sm (Some ar) 0 in
    let errcnt := errcnt +
      count (match dthread_ptr2shmref sm vp (dt_length ar) with
            | (0, Some ar2) => negb (bool_decide (ar = ar2))
            | _ => true
            end) in
    r <- on 0 (malloc None 1 (Some junk));;
    let '(p0, pr0) := r in
    let errcnt := errcnt + count (negb (p0 =? 0)) in
    t <- run_thread 0;;
    match t with
    | inl _ => retM (exit_of (errcnt + 1))
    | inr tret =>
        let errcnt := errcnt + count (bad_return true tret) in
        rv <- on 0 (dthread_shm_set_defaultarena 0 ar);;
        let errcnt := errcnt + count (negb (rv =? 0)) in
        t <- run_thread 1;;
        match t with
        | inl _ => retM (exit_of (errcnt + 1))
        | inr tret => break_layout (errcnt + count (bad_return false tret)) pr0
        end
    end.

(** *** The test of the bsd allocator, which runs on rank 0 *)

(** [memcpy] of a string constant, and [memcmp] with it. *)
Fixpoint put_bytes (ptr : Z) (l : list Z) : M sst unit :=
  match l with [] => retM tt | x :: l => store 1 ptr x ;;; put_bytes (ptr + 1) l end.
Fixpoint same_bytes (ptr : Z) (l : list Z) : M sst bool :=
  match l with
  | [] => retM true
  | x :: l => y <- load 1 ptr;; if x =? y then same_bytes (ptr + 1) l else retM false
  end.

Definition MSG : list Z := string_bytes "testing realloc!" ++ [0].
Definition MSG2 : list Z := string_bytes "REtesting realloc!!" ++ [0].

(** The part with [dthread_shm_realloc], on [ptr[4]] and [pref[4]]. *)
Definition bsd_reallocs (errcnt ptr4 : Z) (pref4 : option dthread_shmref_t) : M sst Z :=
  r <- realloc None ptr4 481 (Some junk);; let '(nptr, nref) := r in
  let errcnt := errcnt + count (negb (nptr =? ptr4) || negb (bool_decide (nref = pref4))) in
  put_bytes nptr MSG ;;;
  r <- realloc None nptr 4000 nref;; let '(nptr, nref) := r in
  same <- (if (nptr =? 0) || (nptr =? ptr4) then retM false else same_bytes nptr MSG);;
  let errcnt := errcnt + count (negb same) in
  put_bytes nptr MSG2 ;;;
  r <- realloc None nptr 64 (Some junk);; let '(sptr, sref) := r in
  same <- (if (sptr =? 0) || (sptr =? nptr) then retM false else same_bytes sptr MSG2);;
  let errcnt := errcnt + count (negb same) in
  r <- malloc None 481 nref;; let '(nptr, nref) := r in
  retM (exit_of (errcnt + count (negb (nptr =? ptr4) || negb (bool_decide (nref = pref4))))).

(** [app_main] of [t-mal-bsd.c]. *)
Definition app_main_bsd : M sst Z :=
  r <- new_arena 0 "bsd" 0 (Some junk);;
  if negb (r.1 =? 0) then retM (exit_of 1)
  else
    ar <- get_some NullDeref r.2;;
    rv <- dthread_shm_set_defaultarena 0 ar;;
    let errcnt := count (negb (rv =? 0)) in
    r0 <- malloc None 481 (Some junk);;
    if r0.1 =? 0 then retM (exit_of (errcnt + 1)) else
    r1 <- malloc None 481 (Some junk);;
    if r1.1 =? 0 then retM (exit_of (errcnt + 1)) else
    r2 <- malloc None 481 (Some junk);;
    if r2.1 =? 0 then retM (exit_of (errcnt + 1)) else
    free None r2.1 ;;;
    r2' <- malloc None 481 r2.2;;
    let errcnt := errcnt + count (negb (r2'.1 =? r2.1) || negb (bool_decide (r2.2 = r2'.2))) in
    if r2'.1 =? 0 then retM (exit_of (errcnt + 1)) else
    r3 <- malloc None 481 (Some junk);;
    if r3.1 =? 0 then retM (exit_of (errcnt + 1)) else
    r4 <- malloc None 481 (Some junk);;
    if r4.1 =? 0 then retM (exit_of (errcnt + 1)) else
    bsd_reallocs errcnt r4.1 r4.2.
End Tests.

(** ** The default arena *)

Section Default.
Context (shm_dbg : bool) (pagesize : Z) (fuel : nat).
Implicit Types (s : sst) (a : dthread_shmref_t).

(** The rank finds [a] as the default arena. *)
Definition default_is (a : dthread_shmref_t) (s : sst) : Prop :=
  defarena s = Some a ∨ defarena s = None ∧ da_src s = a ∧ dt_length a ≠ 0.

Definition knows (a : dthread_shmref_t) (s : sst) : sst := s <| defarena := Some a |>.

Lemma default_validate a s ptr inref :
  default_is a s →
  dthread_shm_validate_args [] shm_dbg pagesize fuel None ptr inref s =
  dthread_shm_validate_args [] shm_dbg pagesize fuel (Some a) ptr inref (knows a s).
Proof.
  intros Hd. unfold dthread_shm_validate_args, dthread_shm_get_defaultarena, bindM, gets, retM, knows.
  destruct Hd as [E|(E & <- & Hl)].
  - rewrite E. by destruct s; simpl in *; subst.
  - rewrite E. simpl. by destruct (Z.eqb_spec (dt_length (da_src s)) 0).
Qed.

Lemma default_malloc a s n ref :
  default_is a s →
  dthread_shm_malloc [] shm_dbg pagesize fuel None n ref s = dthread_shm_malloc [] shm_dbg pagesize fuel (Some a) n ref (knows a s).
Proof. intros Hd. unfold dthread_shm_malloc, bindM. by rewrite (default_validate a). Qed.

Lemma default_free a s ptr :
  default_is a s → ptr ≠ 0 →
  dthread_shm_free [] shm_dbg pagesize fuel None ptr s = dthread_shm_free [] shm_dbg pagesize fuel (Some a) ptr (knows a s).
Proof.
  intros Hd Hp. unfold dthread_shm_free. destruct (Z.eqb_spec ptr 0); [lia|]. unfold bindM. by rewrite (default_validate a).
Qed.

Lemma default_free_ref a s r :
  default_is a s → dt_length r ≠ 0 →
  dthread_shm_free_ref [] shm_dbg pagesize fuel None (Some r) s =
  dthread_shm_free_ref [] shm_dbg pagesize fuel (Some a) (Some r) (knows a s).
Proof.
  intros Hd Hp. unfold dthread_shm_free_ref. destruct (Z.eqb_spec (dt_length r) 0); [lia|].
  unfold bindM. by rewrite (default_validate a).
Qed.

Lemma no_default_malloc s n ref :
  defarena s = None → dt_length (da_src s) = 0 →
  dthread_shm_malloc [] shm_dbg pagesize fuel None n ref s = Ok ((0, ref), s).
Proof.
  intros Hd Hs. unfold dthread_shm_malloc, dthread_shm_validate_args, dthread_shm_get_defaultarena, bindM, gets.
  by rewrite Hd, Hs.
Qed.

(** *** The public calls on an arena of the break allocator *)

Context (a : dthread_shmref_t) (L : list blk) (m : dthread_shmmap_t) (b : break_malloc_md).

Lemma break_served s : break_st a L s m 0 b → served [] shm_dbg pagesize fuel break_ops a s.
Proof. intros []. eexists. split; [done|]. done. Qed.

Lemma malloc_exec n ref s :
  break_st a L s m 0 b → 0 ≤ n ≤ break_max_size → n + align_pad n + 16 ≤ dt_length a - bk_allocated b →
  let o := dt_offset a + bk_allocated b + 16 in
  wp (dthread_shm_malloc [] shm_dbg pagesize fuel (Some a) n ref) (λ res s',
    res = (mapping m + o, _ ← ref; Some (Shmref (dt_shmid a) o n)) ∧ s' = carved a 0 b n s) s.
Proof.
  intros Hst Hn Hfit o. unfold dthread_shm_malloc. assert (Hinv : break_inv a L s) by (by exists m, 0, b).
  eapply wp_bind, (wp_validate _ _ _ _ _ _ break_sound _ _ _ _ Hinv (break_served s Hst)). by eapply break_malloc_exec.
Qed.

Lemma free_exec x L' s :
  break_st a L s m 0 b → L ≡ₚ x :: L' → 0 < x.2 →
  wp (dthread_shm_free [] shm_dbg pagesize fuel (Some a) (mapping m + x.1)) (λ _ s', s' = freed a 0 b x.1 s) s.
Proof.
  intros Hst HL Hx. assert (Hinv : break_inv a L s) by (by exists m, 0, b). assert (HxL : x ∈ L) by (rewrite HL; left).
  pose proof (bs_geom _ _ _ _ _ _ Hst) as Hg. pose proof (break_served s Hst) as Hs.
  destruct (break_block _ _ _ _ _ _ _ Hst HxL) as (_ & Hlo & _). unfold sizeof_break_md in Hlo.
  pose proof (geom_map_ok _ _ _ Hg) as (?&_&_). pose proof (ag_off _ _ _ Hg).
  unfold dthread_shm_free. destruct (Z.eqb_spec (mapping m + x.1) 0); [lia|].
  eapply wp_bind, (wp_validate_ptr _ _ _ _ _ _ break_sound _ _ _ _ _ _ Hinv Hs Hg HxL Hx). apply wp_bind.
  eapply wp_get_some; [done|]. eapply break_free_exec; [done|done|].
  by eapply (block_ref_of _ _ _ _ break_ops _ break_sound _ _ _ _ _ Hinv Hs Hg HxL Hx).
Qed.

(** A reference is tested by its offset, so the mapping has to be aligned. *)
Lemma free_ref_exec x L' s :
  break_st a L s m 0 b → L ≡ₚ x :: L' → 0 < x.2 → mapping m mod alignsz = 0 →
  wp (dthread_shm_free_ref [] shm_dbg pagesize fuel (Some a) (Some (Shmref (dt_shmid a) x.1 x.2)))
    (λ _ s', s' = freed a 0 b x.1 s) s.
Proof.
  intros Hst HL Hx Hal. assert (Hinv : break_inv a L s) by (by exists m, 0, b). assert (HxL : x ∈ L) by (rewrite HL; left).
  pose proof (bs_geom _ _ _ _ _ _ Hst) as Hg. destruct (break_served s Hst) as (am & Hat & Hops).
  destruct (block_in_range break_inv break_sound _ _ _ _ _ _ Hinv Hat Hg HxL Hx)
    as (Hr & Hmax & Hbits & _ & Hend & Hxal).
  unfold dthread_shm_free_ref. cbn [dt_length]. destruct (Z.eqb_spec x.2 0); [lia|].
  unfold dthread_shm_validate_args at 1. apply wp_bind, wp_bind, wp_ret, wp_bind, wp_gets, wp_bind, wp_gets. rewrite Hat.
  rewrite (metadata_checks break_inv break_sound _ _ _ _ Hinv Hat), Hops. cbn [negb Z.eqb].
  unfold bad_range. cbn [dt_shmid dt_offset]. rewrite Z.eqb_refl, Hbits, land_aligned.
  - destruct (Z.ltb_spec x.1 (min_uoffset (am_amd am))); [lia|].
    destruct (Z.leb_spec (max_uoffset (am_amd am)) x.1); [lia|]. simpl. apply wp_ret.
    eapply break_free_exec; [done|done|]. repeat split; simpl; lia.
  - unfold alignsz in *. rewrite Z.add_mod, Hal, Z.add_0_l, Z.mod_mod in Hxal by done. done.
Qed.
End Default.

(** ** All ranks *)

Lemma wp_on {A} i (act : M sst A) sm d (R : A → msys → Prop) y :
  y_ranks y !! i = Some (sm, d) →
  wp act (λ r s, R r (Msys s (<[i := (sm, defarena s)]> (y_ranks y)))) (view y sm d) → wp (on i act) R y.
Proof. intros Hi. unfold wp, on. rewrite Hi. by destruct (act (view y sm d)) as [[r s]|f]. Qed.

(** The defaults of a rank play no part in the arena's invariant. *)
Lemma break_st_knows a L s m b : break_st a L s m 0 b → break_st a L (knows a s) m 0 b.
Proof. intros []. by split. Qed.

(** The arena [a] in segment 0 on every rank: the blocks [L] are in use, and
    [a] is the default arena if [da]; [sms] are the ranks' mappings. *)
Record heap_at (sms : list (list dthread_shmmap_t)) (a : dthread_shmref_t) (da : bool) (L : list blk)
    (b : break_malloc_md) (y : msys) : Prop := {
  ha_sms : (y_ranks y).*1 = sms;
  ha_src : if da then da_src (y_sst y) = a else dt_length (da_src (y_sst y)) = 0;
  ha_def : ∀ i sm d, y_ranks y !! i = Some (sm, d) → d = None ∨ da = true ∧ d = Some a;
  ha_st : ∀ i sm d, y_ranks y !! i = Some (sm, d) → ∃ m, break_st a L (view y sm d) m 0 b }.

(** Rank [i] has segment 0 at [m]. *)
Definition mapped (sms : list (list dthread_shmmap_t)) (i : nat) (m : dthread_shmmap_t) : Prop :=
  ∃ sm, sms !! i = Some sm ∧ aget sm 0 = Some m.

Section Ranks.
Context (shm_dbg : bool) (pagesize : Z) (fuel : nat) (sms : list (list dthread_shmmap_t)) (a : dthread_shmref_t).
Hypothesis Hid : dt_shmid a = 0.
Hypothesis Hlen : dt_length a ≠ 0.

Lemma heap_rank da L b y i m :
  heap_at sms a da L b y → mapped sms i m →
  ∃ sm d, y_ranks y !! i = Some (sm, d) ∧ break_st a L (view y sm d) m 0 b.
Proof using Hid.
  intros Hh (sm & Hsm & Hm). rewrite <- (ha_sms _ _ _ _ _ _ Hh), list_lookup_fmap in Hsm.
  apply fmap_Some in Hsm as ([sm' d] & Hi & ->). exists sm', d. split; [done|].
  destruct (ha_st _ _ _ _ _ _ Hh i sm' d Hi) as [m' Hst]. pose proof (ag_map _ _ _ (bs_geom _ _ _ _ _ _ Hst)) as Hm'.
  rewrite Hid in Hm'. simpl in *. by replace m with m' by congruence.
Qed.

Lemma heap_default L b y i sm d :
  heap_at sms a true L b y → y_ranks y !! i = Some (sm, d) → default_is a (view y sm d).
Proof using Hlen.
  intros Hh Hi. destruct (ha_def _ _ _ _ _ _ Hh i sm d Hi) as [-> |[_ ->]]; [right|by left].
  split; [done|]. split; [apply (ha_src _ _ _ _ _ _ Hh)|done].
Qed.

(** A change [f] of the shared state that every rank sees in the same way. *)
Lemma heap_update L b y i sm d (f : sst → sst) L' b' :
  heap_at sms a true L b y → y_ranks y !! i = Some (sm, d) →
  (∀ y R sm sm' d d', view (Msys (f (view y sm d)) R) sm' d' = f (view y sm' d')) →
  (∀ s, da_src (f s) = da_src s) →
  (∀ s m, break_st a L s m 0 b → break_st a L' (f s) m 0 b') →
  heap_at sms a true L' b' (Msys (f (knows a (view y sm d))) (<[i := (sm, Some a)]> (y_ranks y))).
Proof using Type.
  intros [H1 H2 H3 H4] Hi Hview Hsrc Hst. split; simpl.
  - rewrite list_fmap_insert. simpl. rewrite H1. apply list_insert_id. rewrite <- H1, list_lookup_fmap, Hi. done.
  - by rewrite Hsrc.
  - intros j sm' d' Hj. apply list_lookup_insert_Some in Hj as [(-> & [= <- <-] & _)|[_ Hj]]; [by right|by eapply H3].
  - intros j sm' d' Hj. unfold knows. rewrite (Hview y _ sm sm' (Some a) d').
    apply list_lookup_insert_Some in Hj as [(-> & [= <- <-] & _)|[_ Hj]].
    + destruct (H4 _ _ _ Hi) as [m Hm]. exists m. apply Hst. exact (break_st_knows _ _ _ _ _ Hm).
    + destruct (H4 _ _ _ Hj) as [m Hm]. exists m. by apply Hst.
Qed.

Lemma on_malloc L b y i m n ref :
  heap_at sms a true L b y → mapped sms i m → 0 ≤ n ≤ break_max_size →
  n + align_pad n + 16 ≤ dt_length a - bk_allocated b →
  let o := dt_offset a + bk_allocated b + 16 in
  wp (on i (dthread_shm_malloc [] shm_dbg pagesize fuel None n ref)) (λ res y',
    res = (mapping m + o, _ ← ref; Some (Shmref 0 o n)) ∧
    heap_at sms a true ((o, n) :: L) (BreakMd (bk_allocated b + (n + align_pad n + 16)) 16 (bk_nalloc b + 1)) y') y.
Proof using Hid Hlen.
  intros Hh Hm Hn Hfit o. destruct (heap_rank _ _ _ _ _ _ Hh Hm) as (sm & d & Hi & Hst).
  apply (wp_on _ _ _ _ _ _ Hi). unfold wp. rewrite (default_malloc _ _ _ a) by (by eapply heap_default).
  pose proof (malloc_exec shm_dbg pagesize fuel _ _ _ _ n ref _ (break_st_knows _ _ _ _ _ Hst) Hn Hfit) as H.
  unfold wp in H. destruct (dthread_shm_malloc _ _ _ _ (Some a) n ref _) as [[res s']|f]; [|done].
  destruct H as [-> ->]. rewrite Hid. split; [done|].
  apply (heap_update _ _ _ _ _ _ _ _ _ Hh Hi); [done|done|]. intros s m' Hs. by apply break_st_alloc.
Qed.

Lemma on_free L b y i m x L' :
  heap_at sms a true L b y → mapped sms i m → L ≡ₚ x :: L' → 0 < x.2 →
  let n := bk_nalloc b - 1 in
  wp (on i (dthread_shm_free [] shm_dbg pagesize fuel None (mapping m + x.1))) (λ _ y',
    heap_at sms a true L' (BreakMd (if n =? 0 then sizeof_break_md else bk_allocated b) 16 n) y') y.
Proof using Hid Hlen.
  intros Hh Hm HL Hx n. destruct (heap_rank _ _ _ _ _ _ Hh Hm) as (sm & d & Hi & Hst).
  assert (Hp : mapping m + x.1 ≠ 0).
  { assert (HxL : x ∈ L) by (rewrite HL; left). destruct (break_block _ _ _ _ _ _ _ Hst HxL) as (_ & Hlo & _).
    pose proof (geom_map_ok _ _ _ (bs_geom _ _ _ _ _ _ Hst)) as (?&_&_).
    pose proof (ag_off _ _ _ (bs_geom _ _ _ _ _ _ Hst)). unfold sizeof_break_md in *. lia. }
  apply (wp_on _ _ _ _ _ _ Hi). unfold wp. rewrite (default_free _ _ _ a) by (done || by eapply heap_default).
  pose proof (free_exec shm_dbg pagesize fuel _ _ _ _ x L' _ (break_st_knows _ _ _ _ _ Hst) HL Hx) as H.
  unfold wp in H. destruct (dthread_shm_free _ _ _ _ (Some a) _ _) as [[res s']|f]; [|done]. subst s'.
  apply (heap_update _ _ _ _ _ _ _ _ _ Hh Hi); [done|done|]. intros s m' Hs. by eapply break_st_free.
Qed.

Lemma on_free_ref L b y i m x L' :
  heap_at sms a true L b y → mapped sms i m → L ≡ₚ x :: L' → 0 < x.2 → mapping m mod alignsz = 0 →
  let n := bk_nalloc b - 1 in
  wp (on i (dthread_shm_free_ref [] shm_dbg pagesize fuel None (Some (Shmref 0 x.1 x.2)))) (λ _ y',
    heap_at sms a true L' (BreakMd (if n =? 0 then sizeof_break_md else bk_allocated b) 16 n) y') y.
Proof using Hid Hlen.
  intros Hh Hm HL Hx Hal n. destruct (heap_rank _ _ _ _ _ _ Hh Hm) as (sm & d & Hi & Hst).
  apply (wp_on _ _ _ _ _ _ Hi). unfold wp. rewrite (default_free_ref _ _ _ a) by (simpl; lia || by eapply heap_default).
  pose proof (free_ref_exec shm_dbg pagesize fuel _ _ _ _ x L' _ (break_st_knows _ _ _ _ _ Hst) HL Hx Hal) as H.
  rewrite Hid in H.
  unfold wp in H. destruct (dthread_shm_free_ref _ _ _ _ (Some a) _ _) as [[res s']|f]; [|done]. subst s'.
  apply (heap_update _ _ _ _ _ _ _ _ _ Hh Hi); [done|done|]. intros s m' Hs. by eapply break_st_free.
Qed.
End Ranks.

(** A call that only reads. *)
Lemma wp_on_same {A} sms a (act : M sst A) da L b y i sm d (R : A → Prop) :
  heap_at sms a da L b y → y_ranks y !! i = Some (sm, d) →
  wp act (λ r s, R r ∧ s = view y sm d) (view y sm d) →
  wp (on i act) (λ r y', R r ∧ heap_at sms a da L b y') y.
Proof.
  intros Hh Hi Hact. apply (wp_on _ _ _ _ _ _ Hi). eapply wp_mono; [exact Hact|].
  intros r s [Hr ->]. split; [done|]. simpl. rewrite list_insert_id by done. destruct Hh as [H1 H2 H3 H4]. by split.
Qed.

(** Rank 0 makes the arena the default. *)
Lemma on_set_default sms a L b y sm d :
  heap_at sms a false L b y → y_ranks y !! 0%nat = Some (sm, d) →
  wp (on 0 (dthread_shm_set_defaultarena 0 a)) (λ rv y', rv = 0 ∧ heap_at sms a true L b y') y.
Proof.
  intros Hh Hi. apply (wp_on _ _ _ _ _ _ Hi). pose proof Hh as [H1 H2 H3 H4].
  destruct (H3 _ _ _ Hi) as [-> |[? _]]; [|done]. apply wp_bind, wp_gets. cbn [defarena view].
  apply wp_bind, wp_modify, wp_ret. split; [done|]. simpl. split; simpl.
  - rewrite list_fmap_insert. simpl. rewrite H1. apply list_insert_id. rewrite <- H1, list_lookup_fmap, Hi. done.
  - done.
  - intros j sm' d' Hj. apply list_lookup_insert_Some in Hj as [(<- & [= <- <-] & _)|[_ Hj]]; [by right|].
    destruct (H3 _ _ _ Hj) as [-> |[? _]]; [by left|done].
  - intros j sm' d' Hj. apply list_lookup_insert_Some in Hj as [(<- & [= <- <-] & _)|[_ Hj]].
    + destruct (H4 _ _ _ Hi) as [m Hm]. exists m. destruct Hm. by split.
    + destruct (H4 _ _ _ Hj) as [m Hm]. exists m. destruct Hm. by split.
Qed.

(** ** The test of the break allocator *)

(** The job before the test: no default arena, and on every rank segment 0 in
    place, at an aligned address, with room for the blocks of the test. *)
Record test_ready (md : dthread_shmseg_md_t) (y : msys) : Prop := {
  tr_ranks : y_ranks y ≠ [];
  tr_src : dt_length (da_src (y_sst y)) = 0;
  tr_room : first_avail md + 288 ≤ end_avail md ≤ first_avail md + break_max_len;
  tr_rank : ∀ i sm d, y_ranks y !! i = Some (sm, d) →
    d = None ∧ maps_ok sm ∧ segs_ok (view y sm d) ∧
    ∃ m, aget sm 0 = Some m ∧ mapping m mod alignsz = 0 ∧ segmd_at 0 m (y_sst y) = Some md }.

Section Break.
Context (shm_dbg : bool) (pagesize : Z) (fuel : nat) (target : nat → nat) (create_rv join_rv : nat → Z)
  (junk_len : Z) (junk_inline : list Z) (junk : dthread_shmref_t) (md : dthread_shmseg_md_t).
Hypothesis Hpage : 100 < pagesize.
Hypothesis Hinline : junk_inline ≠ [].
Hypothesis Hcreate : ∀ k, create_rv k = 0.
Hypothesis Hjoin : ∀ k, join_rv k = 0.

Definition test_arena : dthread_shmref_t := Shmref 0 (first_avail md) (end_avail md - first_avail md).

#[local] Abbreviation a := test_arena.

Lemma test_geom y i sm d m :
  test_ready md y → y_ranks y !! i = Some (sm, d) → aget sm 0 = Some m → arena_geom a m sm.
Proof using Type.
  intros [_ _ Hroom Hr] Hi Hm. destruct (Hr i sm d Hi) as (_ & Hmaps & Hseg & m' & Hm' & _ & Hmd).
  assert (m' = m) as -> by congruence. destruct (Hseg 0 m Hm') as (md' & Hmd' & [_ _ _ Hav Hend Hal]).
  assert (md' = md) as -> by (unfold segmd_at in *; simpl in *; congruence).
  split; simpl; [done|done|lia|lia|lia|]. apply Hal. lia.
Qed.

Lemma on_new_arena y :
  test_ready md y →
  wp (on 0 (dthread_shm_new_arena [] shm_dbg pagesize fuel 0 "break" 0 (Some junk))) (λ res y',
    res = (0, Some a) ∧ heap_at (y_ranks y).*1 a false [] (BreakMd sizeof_break_md 16 0) y') y.
Proof using Type.
  intros Hy. pose proof Hy as [Hne Hsrc Hroom Hr]. destruct (y_ranks y) as [|[sm d] rest] eqn:Er; [done|].
  assert (Hi : y_ranks y !! 0%nat = Some (sm, d)) by (by rewrite Er). rewrite <- Er. rewrite <- Er in Hr.
  destruct (Hr 0%nat sm d Hi) as (Hd & Hmaps & Hseg & m & Hm & _ & Hmd).
  pose proof (test_geom _ _ _ _ _ Hy Hi Hm) as Hg. apply (wp_on _ _ _ _ _ _ Hi).
  unfold dthread_shm_new_arena. cbn [negb Z.eqb andb].
  change (dthread_get_mopid [] shm_dbg pagesize fuel "break") with 0.
  change (mopid2ops [] shm_dbg pagesize fuel 0) with (Some break_ops). cbn [Z.ltb Z.compare].
  apply wp_bind. eapply wp_mono; [apply segalloc_wp; [done|done|unfold alignsz; lia|done]|].
  intros [p r] s1 (Hres & _ & Hmap1 & Ham1 & Hmem1 & Hdef1 & Hsrc1 & _). unfold seg_result in Hres.
  rewrite (seg_room_eq 0 m md (view y sm d) Hm Hmd) in Hres. rewrite decide_True in Hres by (unfold seg_total; simpl; lia).
  destruct Hres as ((m' & Hm' & Hp & _) & Hr' & _). simpl in Hm', Hp, Hr'.
  assert (m' = m) as -> by congruence. subst p r. unfold seg_total. cbn [Z.eqb].
  pose proof (geom_map_ok _ _ _ Hg) as (?&?&?). pose proof Hg as []. simpl in *.
  destruct (Z.eqb_spec (mapping m + first_avail md) 0); [lia|].
  apply wp_bind. eapply wp_get_some; [done|]. apply wp_bind, wp_gets, wp_bind.
  eapply wp_get_some; [apply (locate_some _ 0 m); rewrite ?Hmap1; try done; unfold sizeof_alloc_md; lia|].
  cbn [dt_offset dt_length]. rewrite !u64_small by (unfold sizeof_alloc_md; lia). apply wp_bind, wp_modify, wp_bind.
  eapply wp_mono.
  { apply (break_init_exec a m 0 DrvNone); [simpl; by rewrite Hmap1|unfold sizeof_break_md; simpl; lia|].
    unfold arena_at. simpl. by rewrite lookup_insert_eq. }
  intros rc s2 [-> ->]. apply wp_ret. split; [done|]. simpl. split; simpl.
  - rewrite list_fmap_insert. apply list_insert_id. rewrite list_lookup_fmap, Hi. done.
  - rewrite Hsrc1. done.
  - intros j sm' d' Hj. apply list_lookup_insert_Some in Hj as [(<- & [= <- <-] & _)|[_ Hj]].
    + left. rewrite Hdef1. done.
    + left. by destruct (Hr _ _ _ Hj) as [-> _].
  - intros j sm' d' Hj.
    assert (Hj' : ∃ d0, y_ranks y !! j = Some (sm', d0)).
    { apply list_lookup_insert_Some in Hj as [(<- & [= <- <-] & _)|[_ Hj]]; eauto. }
    destruct Hj' as [d0 Hj']. destruct (Hr _ _ _ Hj') as (_ & _ & _ & m' & Hmj & _). exists m'.
    apply break_st_init; [by eapply test_geom|unfold sizeof_break_md; simpl; lia|].
    unfold arena_at. simpl. by rewrite lookup_insert_eq.
Qed.

Section Started.
Context (sms : list (list dthread_shmmap_t)).
Hypothesis Hroom : first_avail md + 288 ≤ end_avail md ≤ first_avail md + break_max_len.
Hypothesis Htarget : ∀ k, ∃ m, mapped sms (target k) m ∧ mapping m mod alignsz = 0.

Lemma arena_length : dt_length a ≠ 0.
Proof using Hroom. simpl. lia. Qed.

(** A thread before there is a default arena, and after. *)
Lemma thread_before k y :
  heap_at sms a false [] (BreakMd sizeof_break_md 16 0) y →
  wp (run_thread shm_dbg pagesize fuel target create_rv join_rv junk_len junk_inline junk k) (λ t y',
    (∃ tret, t = inr tret ∧ bad_return true tret = false) ∧
    heap_at sms a false [] (BreakMd sizeof_break_md 16 0) y') y.
Proof using Hcreate Hjoin Hinline Htarget.
  intros Hh. unfold run_thread. rewrite Hcreate, Hjoin. cbn [Z.eqb negb]. apply wp_bind.
  destruct (Htarget k) as (m & Hm & _). destruct (heap_rank sms a eq_refl _ _ _ _ _ _ Hh Hm) as (sm & d & Hi & _).
  eapply wp_mono; [apply (wp_on_same _ _ _ _ _ _ _ _ _ _ (λ r, bad_return true r = false) Hh Hi)|].
  - unfold rem_alloc. apply wp_bind. pose proof Hh as [_ Hs Hdef _].
    destruct (Hdef _ _ _ Hi) as [-> |[? _]]; [|done].
    eapply wp_eq; [by apply no_default_malloc|]. cbn [fst Z.eqb negb]. apply wp_bind, wp_ret, wp_ret.
    split; [|done]. unfold bad_return. simpl. by destruct junk_inline.
  - intros tret y' [Hr Hh']. apply wp_ret. split; [by exists tret|done].
Qed.

Lemma thread_after k y :
  heap_at sms a true [] (BreakMd sizeof_break_md 16 0) y →
  wp (run_thread shm_dbg pagesize fuel target create_rv join_rv junk_len junk_inline junk k) (λ t y',
    (∃ tret, t = inr tret ∧ bad_return false tret = false) ∧
    heap_at sms a true [] (BreakMd sizeof_break_md 16 0) y') y.
Proof using Hcreate Hjoin Hinline Htarget Hroom.
  intros Hh. unfold run_thread. rewrite Hcreate, Hjoin. cbn [Z.eqb negb]. apply wp_bind.
  destruct (Htarget k) as (m & Hm & Hal). destruct (heap_rank sms a eq_refl _ _ _ _ _ _ Hh Hm) as (sm & d & Hi & Hst).
  apply (wp_on _ _ _ _ _ _ Hi). pose proof (heap_default sms a arena_length _ _ _ _ _ _ Hh Hi) as Hdef.
  pose proof (break_st_knows _ _ _ _ _ Hst) as Hst0. set (b0 := BreakMd sizeof_break_md 16 0) in *.
  set (o := dt_offset a + bk_allocated b0 + 16).
  assert (Hsz : 0 ≤ 128 ≤ break_max_size) by (unfold break_max_size; lia).
  assert (Hfit : 128 + align_pad 128 + 16 ≤ dt_length a - bk_allocated b0) by (change (144 ≤ end_avail md - first_avail md - 80); lia).
  destruct (proj1 (wp_ok _ _ _) (malloc_exec shm_dbg pagesize fuel _ _ _ _ 128 (Some junk) _ Hst0 Hsz Hfit)) as (res & s1 & E1 & -> & ->).
  rewrite <- (default_malloc _ _ _ a) in E1 by done.
  pose proof (break_st_alloc _ _ _ _ _ _ _ Hst0 Hsz Hfit) as Hst1. set (b1 := BreakMd _ 16 _) in Hst1.
  destruct (proj1 (wp_ok _ _ _) (free_ref_exec shm_dbg pagesize fuel _ _ _ _ (o, 128) [] _ Hst1 ltac:(done) ltac:(simpl; lia) Hal))
    as ([] & s2 & E2 & ->).
  unfold rem_alloc. apply wp_bind. eapply wp_eq; [exact E1|]. cbn [fst snd].
  pose proof (geom_map_ok _ _ _ (bs_geom _ _ _ _ _ _ Hst)) as (?&_&_). pose proof (ag_off _ _ _ (bs_geom _ _ _ _ _ _ Hst)).
  destruct (Z.eqb_spec (mapping m + (dt_offset a + bk_allocated b0 + 16)) 0) as [E|_];
    [unfold b0, sizeof_break_md in E; simpl in *; lia|].
  cbn [negb]. apply wp_bind. eapply wp_eq.
  { etransitivity; [apply (default_free_ref shm_dbg pagesize fuel a _ (Shmref 0 o 128)); [by left|done]|exact E2]. }
  apply wp_ret. apply wp_ret. split.
  - eexists. split; [done|]. unfold bad_return. simpl. by destruct junk_inline.
  - apply (heap_update _ _ _ _ _ _ _ _ (λ s, freed a 0 b1 o (carved a 0 b0 128 s)) _ _ Hh Hi); [done|done|].
    intros s m' Hs. apply (λ H, break_st_alloc _ _ _ _ _ _ 128 H Hsz Hfit) in Hs.
    by apply (break_st_free _ _ _ _ _ _ (o, 128) [] Hs).
Qed.

(** One allocation of the test, at its exact place. *)
Lemma layout_malloc L al k y m n ref :
  heap_at sms a true L (BreakMd al 16 k) y → mapped sms 0 m → 0 ≤ n ≤ 128 →
  al + (n + align_pad n + 16) ≤ 288 →
  let o := first_avail md + al + 16 in
  wp (on 0 (dthread_shm_malloc [] shm_dbg pagesize fuel None n ref)) (λ res y',
    res = (mapping m + o, _ ← ref; Some (Shmref 0 o n)) ∧
    heap_at sms a true ((o, n) :: L) (BreakMd (al + (n + align_pad n + 16)) 16 (k + 1)) y') y.
Proof using Hroom.
  intros Hh Hm Hn Hfit. apply (on_malloc shm_dbg pagesize fuel sms a eq_refl arena_length _ _ _ _ _ _ _ Hh Hm); [|simpl; lia].
  unfold break_max_size. lia.
Qed.

Lemma layout_ok y m pr0 :
  heap_at sms a true [] (BreakMd sizeof_break_md 16 0) y → mapped sms 0 m → mapping m mod alignsz = 0 → 0 ≤ first_avail md →
  wp (break_layout shm_dbg pagesize fuel junk 0 (Some pr0)) (λ r _, r = 0) y.
Proof using Hroom.
  intros H0 Hm Hal Hlo. unfold break_layout, sizeof_break_md in *.
  apply wp_bind. eapply wp_mono; [by apply (layout_malloc _ _ _ _ _ 1 _ H0 Hm)|].
  intros res y1 [-> H1]. set (o0 := first_avail md + 80 + 16) in *. change (BreakMd _ 16 _) with (BreakMd 112 16 1) in H1.
  cbn [mbind option_bind]. destruct (heap_rank sms a eq_refl _ _ _ _ _ _ H1 Hm) as (sm & d & Hi & Hst).
  pose proof (bs_geom _ _ _ _ _ _ Hst) as Hg. pose proof (geom_map_ok _ _ _ Hg) as (Hpos&_&_).
  apply wp_bind. eapply wp_mono; [apply (wp_on_same _ _ _ _ _ _ _ _ _ _ (λ r, r = sm) H1 Hi); by apply wp_gets|].
  intros r y1' [-> H1'].
  rewrite (ref_ptr a m sm o0) by (done || (unfold o0; repeat split; simpl; lia)).
  apply wp_bind. eapply wp_mono; [by apply (layout_malloc _ _ _ _ _ 128 _ H1' Hm)|].
  intros res y2 [-> H2]. set (o1 := first_avail md + 112 + 16) in *. change (BreakMd _ 16 _) with (BreakMd 256 16 2) in H2.
  cbn [mbind option_bind]. apply wp_bind. eapply wp_mono; [by apply (layout_malloc _ _ _ _ _ 1 _ H2 Hm)|].
  intros res y3 [-> H3]. set (o2 := first_avail md + 256 + 16) in *. change (BreakMd _ 16 _) with (BreakMd 288 16 3) in H3.
  cbn [mbind option_bind].
  apply wp_bind. eapply wp_mono.
  { apply (on_free shm_dbg pagesize fuel sms a eq_refl arena_length _ _ _ _ _ (o1, 128) [(o2, 1); (o0, 1)] H3 Hm); [|simpl; lia].
    apply perm_swap. }
  intros [] y4 H4. simpl in H4. apply wp_bind. eapply wp_mono.
  { apply (on_free_ref shm_dbg pagesize fuel sms a eq_refl arena_length _ _ _ _ _ (o0, 1) [(o2, 1)] H4 Hm); [|simpl; lia|done].
    apply perm_swap. }
  intros [] y5 H5. simpl in H5. apply wp_bind. eapply wp_mono.
  { apply (on_free shm_dbg pagesize fuel sms a eq_refl arena_length _ _ _ _ _ (o2, 1) [] H5 Hm); [done|simpl; lia]. }
  intros [] y6 H6. simpl in H6. unfold sizeof_break_md in H6.
  apply wp_bind. eapply wp_mono; [by apply (layout_malloc _ _ _ _ _ 1 _ H6 Hm)|].
  intros res y7 [-> H7]. change (BreakMd _ 16 _) with (BreakMd 112 16 1) in H7.
  apply wp_bind. eapply wp_mono; [by apply (layout_malloc _ _ _ _ _ 128 _ H7 Hm)|].
  intros res y8 [-> H8]. change (BreakMd _ 16 _) with (BreakMd 256 16 2) in H8.
  apply wp_bind. eapply wp_mono; [by apply (layout_malloc _ _ _ _ _ 1 _ H8 Hm)|].
  intros res y9 [-> H9]. cbn [fst]. fold o0 o1 o2. rewrite !Z.eqb_refl. apply wp_ret. cbn [negb orb].
  assert (Hcount : ∀ e, e = true → count (negb e) = 0) by (by intros e ->).
  assert (Hzero : ∀ e, e = false → count e = 0) by (by intros e ->).
  rewrite (Hcount (mapping m + o0 + 16 + 16 =? mapping m + o1)), (Hcount (mapping m + o1 + 128 + 16 =? mapping m + o2)),
    (Hzero (mapping m + o0 =? 0)), (Hzero (mapping m + o1 =? 0)); [done|..];
    first [apply Z.eqb_eq|apply Z.eqb_neq]; unfold o0, o1, o2; lia.
Qed.
End Started.
End Break.

(** A call that fails before it touches anything. *)
Lemma wp_on_refused {A} md (act : M sst A) (x : A) y :
  test_ready md y → (∀ s, act s = Ok (x, s)) →
  wp (on 0 act) (λ r y', r = x ∧ test_ready md y' ∧ y_ranks y' = y_ranks y) y.
Proof.
  intros Hy Hact. pose proof Hy as [Hne Hsrc Hroom Hr]. destruct (y_ranks y) as [|[sm d] rest] eqn:Er; [done|].
  assert (Hi : y_ranks y !! 0%nat = Some (sm, d)) by (by rewrite Er). apply (wp_on _ _ _ _ _ _ Hi).
  eapply wp_eq; [apply Hact|]. simpl. rewrite list_insert_id by done. split; [done|]. split; [|done]. split; simpl; rewrite ?Er; done.
Qed.

(** C37.  The test of the break allocator passes: on every job without a default
    arena whose first segment has 288 bytes left, wherever the ranks have that
    segment mapped (at multiples of 16) and on whatever ranks its two threads
    run, [app_main] of [t-mal-break.c] returns 0.  So a thread cannot allocate
    before rank 0 has set the default arena and can afterwards, blocks follow
    each other at the distances of the break layout, and the break is back at
    the start when all blocks are freed.  The page size is at most 8192, which
    the first check of the test needs. *)
Theorem mal_break_passes shm_dbg pagesize fuel target create_rv join_rv junk_len junk_inline junk md y
    (Hpage : 100 < pagesize ≤ 8192) (Hinline : junk_inline ≠ [])
    (Hcreate : ∀ k, create_rv k = 0) (Hjoin : ∀ k, join_rv k = 0)
    (Htarget : ∀ k, (target k < length (y_ranks y))%nat) (Hy : test_ready md y) :
  ∃ y', app_main_break shm_dbg pagesize fuel target create_rv join_rv junk_len junk_inline junk y = Ok (0, y').
Proof.
  assert (G : wp (app_main_break shm_dbg pagesize fuel target create_rv join_rv junk_len junk_inline junk) (λ r _, r = 0) y).
  2: { apply wp_ok in G as (r & y' & E & ->). by exists y'. }
  unfold app_main_break. apply wp_bind. eapply wp_mono.
  { apply (wp_on_refused md _ (ENOENT, Some junk) _ Hy). intros s. unfold dthread_shm_new_arena.
    destruct (Z.ltb_spec 8192 pagesize); [lia|]. done. }
  intros r y1 (-> & Hy1 & E1). apply wp_bind. eapply wp_mono.
  { apply (wp_on_refused md _ (EINVAL, Some junk) _ Hy1). intros s. unfold dthread_shm_new_arena.
    destruct (Z.ltb_spec 100 pagesize); [done|lia]. }
  intros r y2 (-> & Hy2 & E2). apply wp_bind. eapply wp_mono; [by apply on_new_arena|].
  intros r y3 (-> & H3). rewrite E2, E1 in H3. set (sms := (y_ranks y).*1) in *. cbn [fst snd Z.eqb negb].
  apply wp_bind. eapply wp_get_some; [done|]. pose proof Hy as [Hne Hsrc Hroom Hr].
  assert (Hmap : ∀ i, (i < length (y_ranks y))%nat → ∃ m, mapped sms i m ∧ mapping m mod alignsz = 0 ∧ 0 ≤ first_avail md).
  { intros i Hi. apply lookup_lt_is_Some in Hi as [[sm d] Hi]. destruct (Hr _ _ _ Hi) as (_ & _ & _ & m & Hm & Hal & _).
    exists m. split; [exists sm; split; [|done]; unfold sms; by rewrite list_lookup_fmap, Hi|]. split; [done|].
    exact (ag_off _ _ _ (test_geom _ _ _ _ _ _ Hy Hi Hm)). }
  assert (Hth : ∀ k, ∃ m, mapped sms (target k) m ∧ mapping m mod alignsz = 0).
  { intros k. destruct (Hmap _ (Htarget k)) as (m & ? & ? & _). by exists m. }
  destruct (Hmap 0%nat) as (m & Hm & Hal & Hlo); [destruct (y_ranks y); [done|simpl; lia]|].
  destruct (heap_rank sms (test_arena md) eq_refl _ _ _ _ _ _ H3 Hm) as (sm & d & Hi & Hst).
  pose proof (bs_geom _ _ _ _ _ _ Hst) as Hg. simpl in Hg.
  apply wp_bind. eapply wp_mono; [apply (wp_on_same _ _ _ _ _ _ _ _ _ _ (λ r, r = sm) H3 Hi); by apply wp_gets|].
  intros r y4 [-> H4]. rewrite (arena_ptr _ m) by (done || simpl; lia). pose proof Hg as [].
  unfold aget in ag_map. cbn [dt_shmid test_arena Z.leb Z.compare] in ag_map. simpl in *.
  rewrite (ptr2shmref_complete sm 0 m) by (done || lia).
  replace (mapping m + first_avail md - mapping m) with (first_avail md) by lia.
  rewrite bool_decide_true by done. cbn [negb]. destruct (heap_rank sms (test_arena md) eq_refl _ _ _ _ _ _ H4 Hm) as (sm' & d' & Hi' & _).
  apply wp_bind. eapply wp_mono.
  { apply (wp_on_same _ _ _ _ _ _ _ _ _ _ (λ r, r = (0, Some junk)) H4 Hi'). eapply wp_eq; [|done].
    pose proof H4 as [_ Hs Hdef _]. destruct (Hdef _ _ _ Hi') as [-> |[? _]]; [|done]. by apply no_default_malloc. }
  intros r y5 [-> H5]. cbn [Z.eqb negb]. apply wp_bind. eapply wp_mono; [by apply thread_before|].
  intros t y6 [(tret & -> & ->) H6]. destruct (heap_rank sms (test_arena md) eq_refl _ _ _ _ _ _ H6 Hm) as (sm'' & d'' & Hi'' & _).
  apply wp_bind. eapply wp_mono; [by eapply on_set_default|]. intros rv y7 [-> H7].
  apply wp_bind. eapply wp_mono; [by apply thread_after|]. intros t y8 [(tret' & -> & ->) H8].
  by eapply layout_ok.
Qed.

(** Two ranks with the segment of the test at different places. *)
Definition demo_md : dthread_shmseg_md_t :=
  Segmd DTHREAD_SEG_MD_MAGIC (Shmref 0 0 0x400000) 2 0 0x1000 0x400000.

Definition demo_msys : msys :=
  Msys (Sst [] None (Shmref 0 0 0) {[ (0, 0) := demo_md ]} ∅ (λ _ _, 0))
    [([Shmmap 0x10000 0 0x400000], None); ([Shmmap 0x7000000 0 0x400000], None)].

Lemma demo_test_ready : test_ready demo_md demo_msys.
Proof.
  split; [done|done|split; vm_compute; discriminate|]. intros i sm d Hi.
  assert (Hb : ∃ base, sm = [Shmmap base 0 0x400000] ∧ d = None ∧ (base = 0x10000 ∨ base = 0x7000000)).
  { destruct i as [|[|i]]; simpl in Hi; [injection Hi as <- <-|injection Hi as <- <-|done]; eexists; eauto. }
  destruct Hb as (base & -> & -> & Hbase). split; [done|].
  assert (Hone : ∀ k m, aget [Shmmap base 0 0x400000] k = Some m → k = 0 ∧ m = Shmmap base 0 0x400000).
  { intros k m Hm. pose proof (aget_Some_range _ _ _ Hm). simpl in *. assert (k = 0) as -> by lia. by injection Hm as <-. }
  assert (Hal : base mod alignsz = 0 ∧ 0 < base ∧ base + 0x400000 ≤ 2 ^ 64) by (destruct Hbase as [->| ->]; done).
  split; [|split].
  - split.
    + intros k m Hk. apply list_lookup_singleton_Some in Hk as [_ <-]. unfold map_ok. simpl. lia.
    + intros k k' m1 m2 Hne Hk Hk'. apply list_lookup_singleton_Some in Hk as [-> _].
      by apply list_lookup_singleton_Some in Hk' as [-> _].
  - intros k m Hm. apply Hone in Hm as [-> ->]. exists demo_md. split; [done|].
    split; simpl; try done; [unfold map_ok; simpl; lia|]. intros _. unfold alignsz in *.
    rewrite Z.add_mod, (proj1 Hal) by done. done.
  - eexists. split; [done|]. split; [apply Hal|done].
Qed.

Lemma mal_break_passes_witness :
  ∃ y', app_main_break true 4096 0 (λ k, k `mod` 2)%nat (λ _, 0) (λ _, 0) 7 (replicate 64 9) (Shmref 5 5 5) demo_msys = Ok (0, y').
Proof.
  exact (mal_break_passes true 4096 0 (λ k, k `mod` 2)%nat (λ _, 0) (λ _, 0) 7 (replicate 64 9) (Shmref 5 5 5) demo_md demo_msys
    ltac:(lia) ltac:(discriminate) (λ _, eq_refl) (λ _, eq_refl)
    (λ k, Nat.mod_upper_bound k 2 ltac:(discriminate)) demo_test_ready).
Defined.

(** With pages of 64 kB the first check of the test fails: the size of 8192
    bytes is refused before the name of the allocator is looked up. *)
Lemma mal_break_large_pages :
  match app_main_break true 65536 0 (λ _, 0%nat) (λ _, 0) (λ _, 0) 7 (replicate 64 9) (Shmref 5 5 5) demo_msys with
  | Ok (r, _) => r
  | Crash _ => 0
  end = 1.
Proof. vm_compute. reflexivity. Qed.

(** The test of the bsd allocator passes on a segment of the size it asks for:
    a freed block is the next to be handed out, a block keeps its place while
    its bucket fits, and its contents when it moves to another bucket. *)
Lemma mal_bsd_passes :
  match app_main_bsd true 4096 100 (Shmref 5 5 5)
          (Sst [Shmmap 0x10000 0 0x400000] None (Shmref 0 0 0) {[ (0, 0) := demo_md ]} ∅ (λ _ _, 0)) with
  | Ok (r, _) => Some r
  | Crash _ => None
  end = Some 0.
Proof. vm_compute. reflexivity. Qed.
